(* ===== verification/_CoqProject ===== *)
-Q . S2P
Prelude.v
Bitarithm.v
Cib.v
Ringbuffer.v
LinkedList.v
Clist.v
ClistSort.v
Div.v
Xtimer.v
XtimerProof.v
Timex.v
Kernel.v
Sched.v
KernelInv.v
WaitList.v
SchedProps.v
ThreadCalls.v
ThreadCreate.v
Mutex.v
Cond.v
Rmutex.v
ThreadFlags.v
Mbox.v
Msg.v
MsgSafe.v
System.v
Demo.v
Bytes.v
Buffers.v
AesSpec.v
AesTables.v
Aes.v
AesProof.v
Modes.v
ModesProof.v
CtrProof.v
Ccm.v
CcmProof.v
Sha256.v
Sha256Proof.v
Pktbuf.v
PktbufAlloc.v
PktbufHeap.v
PktbufProof.v
PktbufPackets.v
PktbufEdit.v
PktbufSpec.v
Riscv.v
RiscvProof.v
RiscvDecode.v
RiscvContexts.v
RiscvKernel.v
ByteMem.v
Base64.v
Fmt.v
FmtProof.v
Coap.v
CoapParse.v
CoapOptions.v
CoapBuild.v
CoapStrings.v
CoapServer.v
CoapBlock.v
CoapDemo.v
