(* ===== verification/Prelude.v ===== *)
(** * RIOT64: a verification development

    RIOT is an operating system for small devices; RIOT64 is its port to 64-bit
    RISC-V.  This library models the kernel of core/ and services of sys/ and
    proves them correct.

    ** The program and its model

    The kernel (core/) is a scheduler with a run queue per priority, threads,
    and the calls by which threads wait for each other; every call works on
    intrusive lists whose nodes lie in the thread control blocks.  The services
    (sys/) use the kernel or stand on their own.

    Base:
    - [Prelude]: machine integers with their wrap-around, arrays, the option
      monad, tactics and the hint database [riot];
    - [Bitarithm]: core/bitarithm.c;
    - [Cib]: core/include/cib.h, the index arithmetic of message queues and
      mailboxes;
    - [Ringbuffer]: core/ringbuffer.c;
    - [LinkedList], [Clist], [ClistSort]: core/include/list.h, clist.h and
      core/clist.c, on a heap of [next] pointers.

    Kernel:
    - [Kernel]: the state (threads, run queues, messages, mutexes, condition
      variables, mailboxes) and the monad of kernel calls.  A call returns,
      faults (a wild pointer, an array overrun, a failed assertion), or is
      suspended at [thread_yield_higher] with the rest of the call as its
      continuation; sched_run then chooses the next thread;
    - [Sched]: core/sched.c, thread.c and kernel_init.c (sched_run,
      sched_set_status, thread_create, thread_wakeup and so on);
    - [Mutex], [Cond], [Rmutex], [ThreadFlags], [Mbox], [Msg]: the files of core/
      with these names;
    - [KernelInv]: the invariant.  The run queues and wait lists are sequences
      of threads, represented by the linked nodes; a thread is in its run queue
      exactly when its status says so; the bit cache says which run queues hold
      threads; [WaitList] and [SchedProps] are the transitions all calls consist
      of, [ThreadCalls], [ThreadCreate] and [MsgSafe] their use;
    - [System]: threads that issue arbitrary calls, as a step relation;
    - [Demo]: a concrete image, in which the theorems are applied.

    Processor:
    - [Riscv]: the hart below the kernel, cpu/riscv_common/riscv_cpu.c, intr.S and
      the dispatcher of external interrupts in cpu/sifive_common/plic: registers,
      CSRs, memory; the assembly code as a list of instructions with an
      interpreter, the C functions as computations on the same state.  The kernel
      is an interface here ([Kern]);
    - [RiscvProof]: what the assembly does, instruction by instruction;
      [RiscvDecode]: which instructions are taken for floating point, from their
      format;
    - [RiscvContexts]: an abstract machine in which every thread has its own
      context and its own floating-point registers, and the proof that the hart
      implements it;
    - [RiscvKernel]: the hart with the kernel of [Sched] behind the interface, and
      a concrete image.

    Time:
    - [Div], [Timex]: sys/include/div.h, sys/div/div.c, sys/timex/timex.c;
    - [Xtimer], [XtimerProof]: sys/xtimer/xtimer_core.c with the driver
      cpu/riscv_common/periph/timer.c, the hardware below them as a counter and a
      compare register.

    Cryptography:
    - [Bytes], [Buffers]: words, byte arrays, blocks;
    - [AesSpec], [AesTables], [Aes], [AesProof]: sys/crypto/aes.c against
      FIPS-197;
    - [Modes], [ModesProof], [CtrProof], [Ccm], [CcmProof]:
      sys/crypto/ciphers.c, helper.c and modes/, over any cipher of the interface
      [BlockCipher], with AES as an instance;
    - [Sha256], [Sha256Proof]: sys/hashes/sha256.c against FIPS 180-4 and RFC
      2104.

    Text:
    - [Base64]: sys/base64/base64.c against RFC 4648;
    - [Fmt], [FmtProof]: sys/fmt/fmt.c, numbers to and from text.

    Network:
    - [Pktbuf]: the packet buffer, sys/net/gnrc/pktbuf_static, pktbuf and pkt:
      an allocator whose list of unused chunks lies in the buffer, and packets,
      lists of snips with a count of users, in the same bytes;
    - [PktbufAlloc]: the allocator's invariant (the blocks and the unused chunks
      partition the buffer) and its operations; [PktbufHeap]: the snips in
      memory as a map from addresses; [PktbufProof], [PktbufPackets],
      [PktbufEdit]: the calls; [PktbufSpec]: what they promise, as an interface
      ([valid], [effect]) and the programs that use it.
    - [ByteMem]: computations over a map from addresses to bytes, for code that works
      on buffers;
    - [Coap]: CoAP messages, sys/net/application_layer/nanocoap/nanocoap.c and
      sys/include/net/nanocoap.h;
    - [CoapParse]: the grammar of messages and the parser; [CoapOptions]: reading
      options; [CoapBuild]: writing messages, and parsing what was written;
      [CoapStrings]: paths cut into options and put together again;
    - [CoapServer]: replies and the dispatch of requests; [CoapBlock]: blockwise
      transfer and the list of resources; [CoapDemo]: concrete messages.

    Definitions have the names of the C functions; a loop of a function is a
    [Fixpoint] named after it.  Structures are records, with the field names of
    the code.

    ** What is shown

    - The kernel: no sequence of calls by any threads reaches a fault, and the
      invariant holds in all reachable states ([System.system_safe]), when the
      calls satisfy [System.allowed]: their arguments are valid, the assertions
      of the code hold, and they keep the contract the code relies on; a call whose
      assertion does not hold stops there.  A thread that has exited never runs
      again ([System.thread_exit_final]); the start of the kernel reaches
      such a state ([ThreadCreate.kernel_init_boots]); and what each call does on
      all its branches, which thread it makes ready, when the caller is
      preempted and in which order waiters are served ([*_outcome]).
    - The hart: traps, context switches and lazily saved floating-point registers
      refine a machine of threads that own their registers
      ([RiscvContexts.trap_refines]), so that a suspended thread continues where
      it was whatever ran in between ([RiscvContexts.thread_resumes]); a new
      thread starts at its function ([RiscvContexts.thread_create_refines]); and
      with the scheduler, the software interrupt runs the first thread of the best
      run queue ([RiscvKernel.soft_interrupt_runs_best]).
    - Data structures refine their abstract counterparts: circular lists are
      sequences, index and ring buffers are bounded queues, sorting is a stable
      sort.  After removing up to the end of its array a ring buffer reads
      outside it; [Ringbuffer.ringbuffer_refines_fifo] says when.
    - Arithmetic agrees with its mathematical meaning, with the exact ranges on
      which it does.
    - Timers fire in order, not early, and the hardware timer is armed for the
      first one, also when the handlers set timers again
      ([XtimerProof.handlers_ok]); where the code departs from this, the theorem
      says when.
    - Cryptography equals its standards, decryption inverts encryption, and
      authentication accepts exactly the right tags.  ECB and CBC take whole
      blocks only, and a length of 0 for one block; CCM is right below 256 bytes
      with at most 24 bytes of additional data.
    - The packet buffer refines a map of snips ([PktbufSpec.pktbuf_calls_refine]),
      and a program that is correct against that interface runs on the bytes
      without a fault and without a leak ([PktbufSpec.pktbuf_programs_safe]).
    - The CoAP parser accepts exactly the messages of a grammar and stays inside
      the message ([CoapParse.coap_parse_correct]).  The grammar is that of the
      code; it has all messages of RFC 7252 ([CoapParse.rfc_message]) and some that
      the standard calls malformed ([CoapDemo.coap_parse_lenient]).  What is built is parsed back
      ([CoapBuild.coap_build_parse], [CoapStrings.coap_uri_path_roundtrip]);
      requests reach the handler they name ([CoapServer.coap_handle_req_ok]); the
      slicer cuts out the requested block ([CoapBlock.coap_blockwise_window]) and
      the list of resources is sent in blocks
      ([CoapBlock.coap_well_known_core_ok]), up to a start of 2^32.
    - Base64 text is decoded to what was encoded ([Base64.base64_roundtrip]);
      numbers are written as their digits and read back
      ([FmtProof.fmt_decimal_correct], [FmtProof.fmt_hex_roundtrip]).

    Where the code does not do what it means to do, a theorem states what it
    does, e.g. [Ringbuffer.ringbuffer_remove_start_overrun],
    [Mbox.mbox_put_resumed_overruns], [CcmProof.ccm_mac_diverges],
    [XtimerProof.xtimer_isr_fires_all], [RiscvContexts.fcsr_not_saved] and
    [CoapDemo.coap_parse_token_overrun].

    ** Configuration and bounds

    - Targets with 64-bit pointers, 32-bit [int] and little-endian byte order;
      [DEVELHELP], [MODULE_SCHEDSTATISTICS] and the MPU stack guard are off;
      assertions are checked.
    - The kernel runs on one core.  Interrupts occur between kernel calls, which
      disable them while they work; the calls an interrupt handler makes are
      modelled with [sched_context_switch_request].  The atomic accesses of
      rmutex.c are plain ones.
    - In the kernel files the initial stack pointer ([thread_stack_init]) and
      memory that is not initialised are parameters; [Riscv] has the function.
    - The hart has compressed instructions and double-precision floating point
      with [USE_LAZY_FPU_CONTEXT].  Its memory consists of aligned 64-bit words;
      the word of the stack pointer of a thread, the frames on its stack and its
      floating-point context are disjoint ([RiscvContexts.zone]).  The claim and
      completion registers of the interrupt controller, the callbacks of external
      interrupts and the values a C function leaves in the registers it need not
      preserve are parameters.  The fuel of [trap_entry] is the length of the
      handler, no instruction of which is executed twice.
    - Recursion that is not structural uses fuel; the theorems are about the
      functions with the fuel the callers pass, and so show that it suffices
      (the length of the data, of a list, or of an interval to be scanned).
    - Timers: [TIMER_64BIT_HW] at 1 MHz.  The time of each read of the counter is
      a parameter that does not decrease.  The callbacks are a parameter: in the
      interrupt they may change the rest of the system and set timers that are not
      set, due after the interrupt, which a setting handler is shown to do
      ([XtimerProof.set64_in_handler]); handlers that remove or change timers that
      are set are not covered.
    - Cipher modes read and write distinct arrays; a digest is stored in an array
      of the caller.
    - The packet buffer lies at an address [base] with [BufferConf]: its size is a
      multiple of the size of a chunk header, it ends below 2^64, and null is not
      taken for a pointer into it.  The statistics and error reports of the buffer
      are not compiled.
    - CoAP without [MODULE_GCOAP].  Memory is a map from addresses to bytes; the
      buffers of a call are disjoint.  Strings and option values behind pointers
      to constants are lists of bytes; the address of the local array of
      coap_handle_req and the handlers of the application are parameters.  The
      parser gets fuel for every byte of the message.

    ** Not modelled

    Output (printf, assert, panic, the print functions and [fmt_float] of fmt), the C11 atomics, device drivers, boards and
    CPU start code, whose meaning lies in hardware (of the processors only the
    RISC-V parts above; not their 32-bit and single-precision variants); the network protocols (of
    CoAP only the messages, not the sockets that carry them), the
    shell, file systems, USB and POSIX layers; third-party packages, whose sources
    the build fetches; tests, examples and tools.  Of xtimer.c only
    [xtimer_now_timex] is modelled.  PROJECT.json lists the parts of the
    repository, and the definitions and lines of each. *)

From stdpp Require Export prelude numbers list gmap.
From Stdlib Require Export ZArith Lia.

Declare Scope riot_scope.
Delimit Scope riot_scope with riot.
Open Scope riot_scope.
Open Scope Z_scope.

(** ** Machine integers

    A C integer of width [w] is a [Z]; arithmetic that may overflow is followed
    by the conversion to the type of the result. *)

Definition wrap (w x : Z) : Z := x mod 2 ^ w.
Definition swrap (w x : Z) : Z := (x + 2 ^ (w - 1)) mod 2 ^ w - 2 ^ (w - 1).

Abbreviation u8 := (wrap 8).
Abbreviation u16 := (wrap 16).
Abbreviation u32 := (wrap 32).
Abbreviation u64 := (wrap 64).
Abbreviation i32 := (swrap 32).

(** The truth value of a C comparison as a C integer. *)
Definition b2z (b : bool) : Z := if b then 1 else 0.

(** Range of the unsigned type of width [w]. *)
Definition uint (w x : Z) : Prop := 0 ≤ x < 2 ^ w.

Lemma wrap_small w x : uint w x → wrap w x = x.
Proof. apply Z.mod_small. Qed.

Lemma wrap_range w x : 0 ≤ w → uint w (wrap w x).
Proof. intros. apply Z.mod_pos_bound. lia. Qed.

Lemma wrap_idem w x : wrap w (wrap w x) = wrap w x.
Proof. unfold wrap. apply Zmod_mod. Qed.

Lemma wrap_add_idem_l w x y : wrap w (wrap w x + y) = wrap w (x + y).
Proof. unfold wrap. apply Zplus_mod_idemp_l. Qed.

Lemma wrap_add_idem_r w x y : wrap w (x + wrap w y) = wrap w (x + y).
Proof. unfold wrap. apply Zplus_mod_idemp_r. Qed.

Lemma wrap_sub_idem_l w x y : wrap w (wrap w x - y) = wrap w (x - y).
Proof. unfold wrap. apply Zminus_mod_idemp_l. Qed.

Lemma wrap_sub_idem_r w x y : wrap w (x - wrap w y) = wrap w (x - y).
Proof. unfold wrap. apply Zminus_mod_idemp_r. Qed.

Lemma swrap_small w x : 0 < w → - 2 ^ (w - 1) ≤ x < 2 ^ (w - 1) → swrap w x = x.
Proof.
  intros Hw Hx. unfold swrap.
  assert (2 ^ w = 2 * 2 ^ (w - 1)) by (rewrite <- Z.pow_succ_r by lia; f_equal; lia).
  rewrite Z.mod_small; lia.
Qed.

(** Masking with [2^k - 1] is reduction modulo [2^k]. *)
Lemma land_mask k x : 0 ≤ k → Z.land x (2 ^ k - 1) = x mod 2 ^ k.
Proof. intros. rewrite <- Z.land_ones by lia. by rewrite Z.ones_equiv. Qed.

Lemma mod_mod_pow2 x j k : 0 ≤ j ≤ k → (x mod 2 ^ k) mod 2 ^ j = x mod 2 ^ j.
Proof.
  intros. apply Z.mod_mod_divide.
  exists (2 ^ (k - j)). rewrite <- Z.pow_add_r by lia. f_equal; lia.
Qed.

(** An integer of width [n] has no bits from [n] on. *)
Lemma testbit_lt_pow2 v n i : 0 ≤ v < 2 ^ n → n ≤ i → Z.testbit v i = false.
Proof.
  intros Hv Hi. destruct (decide (v = 0)) as [->|]; [apply Z.bits_0|].
  apply Z.bits_above_log2; [lia|]. destruct (decide (0 ≤ n)).
  - apply Z.lt_le_trans with n; [|done]. apply Z.log2_lt_pow2; lia.
  - rewrite Z.pow_neg_r in Hv by lia. lia.
Qed.

(** ** Lists indexed by [Z] *)

(** Reading the [i]-th cell of an array; [None] is an access out of bounds. *)
Definition aget {A} (l : list A) (i : Z) : option A :=
  if 0 <=? i then l !! Z.to_nat i else None.

(** Writing the [i]-th cell; [None] is an access out of bounds. *)
Definition aset {A} (l : list A) (i : Z) (x : A) : option (list A) :=
  if (0 <=? i) && (i <? Z.of_nat (length l))
  then Some (<[Z.to_nat i := x]> l) else None.

Lemma aget_in {A} (l : list A) i :
  0 ≤ i < Z.of_nat (length l) → ∃ x, aget l i = Some x.
Proof.
  intros. unfold aget. rewrite (proj2 (Z.leb_le 0 i)) by lia.
  apply lookup_lt_is_Some_2. lia.
Qed.

Lemma aget_Some_range {A} (l : list A) i x :
  aget l i = Some x → 0 ≤ i < Z.of_nat (length l).
Proof.
  unfold aget. destruct (Z.leb_spec 0 i); [|done].
  intros ?%lookup_lt_Some. lia.
Qed.

Lemma aset_in {A} (l : list A) i x :
  0 ≤ i < Z.of_nat (length l) → aset l i x = Some (<[Z.to_nat i := x]> l).
Proof.
  intros. unfold aset.
  by rewrite (proj2 (Z.leb_le 0 i)), (proj2 (Z.ltb_lt _ _)) by lia.
Qed.

Lemma aget_insert {A} (l : list A) i j x :
  0 ≤ i < Z.of_nat (length l) → 0 ≤ j →
  aget (<[Z.to_nat i := x]> l) j = if decide (i = j) then Some x else aget l j.
Proof.
  intros Hi Hj. unfold aget. rewrite (proj2 (Z.leb_le 0 j)) by lia.
  case_decide as Hij.
  - subst. apply list_lookup_insert_eq. lia.
  - apply list_lookup_insert_ne. lia.
Qed.

(** ** Lists *)

Lemma list_filter_none {A} (P : A → Prop) `{!∀ x, Decision (P x)} (l : list A) :
  (∀ x, x ∈ l → ¬ P x) → filter P l = [].
Proof.
  induction l as [|x l IH]; intros Hl; [done|]. rewrite filter_cons, decide_False by (apply Hl; by left).
  apply IH. intros y Hy. apply Hl. by right.
Qed.

Lemma list_filter_all {A} (P : A → Prop) `{!∀ x, Decision (P x)} (l : list A) :
  Forall P l → filter P l = l.
Proof. induction 1; [done|]. rewrite filter_cons_True by done. by f_equal. Qed.

(** ** Automation *)

Create HintDb riot.
#[export] Hint Resolve wrap_range : riot.

(** Turn boolean tests of the code into propositions. *)
Ltac ztest :=
  repeat match goal with
  | H : context [Z.eqb ?a ?b] |- _ => destruct (Z.eqb_spec a b)
  | H : context [Z.leb ?a ?b] |- _ => destruct (Z.leb_spec a b)
  | H : context [Z.ltb ?a ?b] |- _ => destruct (Z.ltb_spec a b)
  | |- context [Z.eqb ?a ?b] => destruct (Z.eqb_spec a b)
  | |- context [Z.leb ?a ?b] => destruct (Z.leb_spec a b)
  | |- context [Z.ltb ?a ?b] => destruct (Z.ltb_spec a b)
  end; simpl in *; try done; try lia.

(** Reduce binds of the option monad without unfolding the program. *)
Tactic Notation "mred" := cbn [mbind option_bind].
Tactic Notation "mred" "in" hyp(H) := cbn [mbind option_bind] in H.

(** Case analysis on every bind, match and test of a hypothesis. *)
Ltac opt_cases :=
  repeat (progress simplify_option_eq || case_match ||
          match goal with H : ?x ≫= _ = Some _ |- _ => is_var x; destruct x end).
