(* ===== verification/Bitarithm.v ===== *)
(** * Bit arithmetic (core/bitarithm.c, core/include/bitarithm.h)

    The scheduler finds the next run queue with [bitarithm_lsb].  [unsigned] has
    32 bits ([ARCH_32_BIT]). *)

From S2P Require Import Prelude.

(** The branch-free logarithm of the 32-bit build. *)
Definition bitarithm_msb (v : Z) : Z :=
  let r := Z.shiftl (b2z (0xFFFF <? v)) 4 in let v := Z.shiftr v r in
  let shift := Z.shiftl (b2z (0xFF <? v)) 3 in let v := Z.shiftr v shift in let r := Z.lor r shift in
  let shift := Z.shiftl (b2z (0xF <? v)) 2 in let v := Z.shiftr v shift in let r := Z.lor r shift in
  let shift := Z.shiftl (b2z (0x3 <? v)) 1 in let v := Z.shiftr v shift in let r := Z.lor r shift in
  Z.lor r (Z.shiftr v 1).

(** [for (c = 0; v; c++) v &= v - 1]; 33 rounds suffice for 32 bits. *)
Fixpoint bits_set_loop (fuel : nat) (v c : Z) : option Z :=
  match fuel with
  | O => None
  | S fuel => if v =? 0 then Some c else bits_set_loop fuel (Z.land v (u32 (v - 1))) (u32 (c + 1))
  end.

Definition bitarithm_bits_set (v : Z) : option Z := bits_set_loop 33 v 0.

(** The header's wrapper: the result is converted to [uint8_t]. *)
Definition bitarithm_bits_set_u32 (v : Z) : option Z :=
  c ← bitarithm_bits_set v; Some (u8 c).

Definition MultiplyDeBruijnBitPosition : list Z :=
  [0; 1; 28; 2; 29; 14; 24; 3; 30; 22; 20; 15; 25; 17; 4; 8;
   31; 27; 13; 23; 21; 19; 16; 7; 26; 12; 18; 6; 11; 5; 10; 9].

(** The [BITARITHM_LSB_LOOKUP] variant. *)
Definition bitarithm_lsb_lookup (v : Z) : option Z :=
  aget MultiplyDeBruijnBitPosition
    (Z.shiftr (u32 (Z.land v (u32 (- v)) * 0x077CB531)) 27).

(** The portable variant: [while ((v & 0x01) == 0) { v >>= 1; r++; }]; it does
    not terminate for [0], hence the fuel. *)
Fixpoint lsb_loop (fuel : nat) (v r : Z) : option Z :=
  match fuel with
  | O => None
  | S fuel => if Z.land v 1 =? 0 then lsb_loop fuel (Z.shiftr v 1) (r + 1) else Some r
  end.

Definition bitarithm_lsb (v : Z) : option Z := lsb_loop 32 v 0.

(** ** Specifications *)

(** [k] is the position of the lowest set bit. *)
Definition lowest_bit (v k : Z) : Prop :=
  0 ≤ k ∧ Z.testbit v k = true ∧ ∀ i, 0 ≤ i < k → Z.testbit v i = false.

(** The number of set bits below position [n]. *)
Fixpoint popcount (n : nat) (v : Z) : Z :=
  match n with
  | O => 0
  | S n => popcount n v + b2z (Z.testbit v (Z.of_nat n))
  end.

Lemma lowest_bit_exists v n : 0 < v < 2 ^ Z.of_nat n → ∃ k, lowest_bit v k ∧ k < Z.of_nat n.
Proof.
  revert v. induction n as [|n IH]; intros v Hv; [simpl in Hv; lia|].
  rewrite Nat2Z.inj_succ, Z.pow_succ_r in Hv by lia.
  destruct (Z.testbit v 0) eqn:H0.
  - exists 0. split; [|lia]. split; [lia|]. split; [done|]. intros; lia.
  - assert (v = 2 * (v / 2)) as Hv2.
    { rewrite Z.bit0_odd in H0. pose proof (Zdiv2_odd_eqn v) as He. rewrite H0, Z.div2_div in He. lia. }
    destruct (IH (v / 2)) as (k & (Hk0 & Hk & Hlow) & Hkn); [lia|].
    exists (Z.succ k). split; [|lia]. split; [lia|]. rewrite Hv2.
    split; [by rewrite Z.testbit_even_succ|]. intros i Hi.
    destruct (decide (i = 0)) as [->|]; [by rewrite <- Hv2|].
    replace i with (Z.succ (i - 1)) by lia. rewrite Z.testbit_even_succ by lia. apply Hlow. lia.
Qed.

Lemma lowest_bit_unique v j k : lowest_bit v j → lowest_bit v k → j = k.
Proof.
  intros (Hj & Hbj & Hlj) (Hk & Hbk & Hlk).
  destruct (Z.lt_trichotomy j k) as [Hlt|[Heq|Hlt]]; [|done|].
  - rewrite Hlk in Hbj by lia. done.
  - rewrite Hlj in Hbk by lia. done.
Qed.

(** A number is an odd multiple of the power at its lowest bit. *)
Lemma lowest_bit_odd v k : lowest_bit v k → ∃ m, v = 2 ^ k * (2 * m + 1).
Proof.
  intros (Hk & Hb & Hl). exists (v / 2 ^ (k + 1)).
  assert (v mod 2 ^ k = 0) as Hmod.
  { apply Z.bits_inj'. intros i Hi. rewrite Z.bits_0. destruct (decide (i < k)).
    - rewrite Z.mod_pow2_bits_low by lia. apply Hl. lia.
    - apply Z.mod_pow2_bits_high. lia. }
  rewrite Z.testbit_true in Hb by lia.
  rewrite Z.pow_add_r, <- Z.div_div by lia.
  pose proof (Z.div_mod v (2 ^ k)) as Hv. pose proof (Z.div_mod (v / 2 ^ k) 2) as Hq.
  change (2 ^ 1) with 2. lia.
Qed.

Lemma land_neg v k : lowest_bit v k → Z.land v (- v) = 2 ^ k.
Proof.
  intros Hlb. pose proof Hlb as (Hk & _). destruct (lowest_bit_odd v k Hlb) as [m ->].
  replace (- (2 ^ k * (2 * m + 1))) with (2 ^ k * (2 * Z.lnot m + 1)) by (unfold Z.lnot; lia).
  rewrite !(Z.mul_comm (2 ^ k)), <- !Z.shiftl_mul_pow2, <- Z.shiftl_land by lia.
  replace (Z.land _ _) with 1; [by rewrite Z.shiftl_1_l|].
  apply Z.bits_inj'. intros i Hi. rewrite Z.land_spec. destruct (decide (i = 0)) as [->|].
  - by rewrite !Z.testbit_odd_0.
  - replace i with (Z.succ (i - 1)) by lia. rewrite !Z.testbit_odd_succ by lia.
    rewrite Z.lnot_spec by lia. change 1 with (2 * 0 + 1) at 1.
    rewrite Z.testbit_odd_succ, Z.bits_0 by lia. by destruct (Z.testbit m (i - 1)).
Qed.

(** [v & (v - 1)] clears exactly the lowest bit. *)
Lemma land_pred v k i :
  lowest_bit v k → 0 ≤ i →
  Z.testbit (Z.land v (v - 1)) i = Z.testbit v i && negb (i =? k).
Proof.
  intros Hlb Hi. pose proof Hlb as (Hk & Hb & Hl). rewrite Z.land_spec.
  destruct (Z.testbit v i) eqn:Hvi; [|done]. simpl.
  assert (k ≤ i) as Hki.
  { destruct (decide (i < k)); [|lia]. rewrite Hl in Hvi by lia. done. }
  replace (v - 1) with (Z.lnot (- v)) by (unfold Z.lnot; lia). rewrite Z.lnot_spec by lia.
  f_equal. pose proof (land_neg v k Hlb) as Hn. apply (f_equal (λ x, Z.testbit x i)) in Hn.
  rewrite Z.land_spec, Hvi, Z.pow2_bits_eqb in Hn by lia. simpl in Hn.
  rewrite Hn. apply Z.eqb_sym.
Qed.

Lemma popcount_clear n v w k :
  0 ≤ k < Z.of_nat n → Z.testbit v k = true →
  (∀ i, 0 ≤ i → Z.testbit w i = Z.testbit v i && negb (i =? k)) →
  popcount n v = popcount n w + 1.
Proof.
  intros Hk Hb Hw. induction n as [|n IH]; [lia|]. cbn [popcount].
  rewrite (Hw (Z.of_nat n)) by lia. destruct (Z.eqb_spec (Z.of_nat n) k) as [<-|Hne].
  - rewrite Hb. simpl. rewrite Z.add_0_r. f_equal.
    enough (∀ m, (m ≤ n)%nat → popcount m v = popcount m w) as Hm by (by apply Hm).
    induction m as [|m IHm]; intros Hmn; [done|]. cbn [popcount].
    rewrite IHm, Hw by lia. destruct (Z.eqb_spec (Z.of_nat m) (Z.of_nat n)); [lia|].
    by rewrite andb_true_r.
  - rewrite andb_true_r. rewrite IH by lia. lia.
Qed.

Lemma popcount_0 n : popcount n 0 = 0.
Proof. induction n; simpl; [done|]. rewrite Z.bits_0. simpl. lia. Qed.

Lemma popcount_bound n v : 0 ≤ popcount n v ≤ Z.of_nat n.
Proof.
  induction n; cbn [popcount]; [lia|]. destruct (Z.testbit v (Z.of_nat n)); unfold b2z; lia.
Qed.

(** ** Correctness *)

Lemma bits_set_loop_spec fuel v c :
  0 ≤ v < 2 ^ 32 → 0 ≤ c → c + popcount 32 v < 2 ^ 32 → popcount 32 v < Z.of_nat fuel →
  bits_set_loop fuel v c = Some (c + popcount 32 v).
Proof.
  revert v c. induction fuel as [|fuel IH]; intros v c Hv Hc Hmax Hf.
  { pose proof (popcount_bound 32 v). lia. }
  cbn [bits_set_loop]. destruct (Z.eqb_spec v 0) as [->|Hne].
  { by rewrite popcount_0, Z.add_0_r. }
  rewrite (wrap_small 32 (v - 1)) by (unfold uint; lia).
  destruct (lowest_bit_exists v 32) as (k & Hlb & Hk); [lia|].
  pose proof Hlb as (Hk0 & Hb & _).
  assert (popcount 32 v = popcount 32 (Z.land v (v - 1)) + 1) as Hpop
    by (apply (popcount_clear 32 v _ k); [lia|done|intros i Hi; by apply (land_pred v k i)]).
  assert (0 ≤ Z.land v (v - 1) < 2 ^ 32).
  { split; [apply Z.land_nonneg; lia|]. apply Z.le_lt_trans with v; [|lia].
    apply Z.ldiff_le; [lia|]. apply Z.bits_inj'. intros i Hi.
    rewrite Z.ldiff_spec, Z.bits_0, Z.land_spec. by destruct (Z.testbit v i), (Z.testbit (v - 1) i). }
  pose proof (popcount_bound 32 (Z.land v (v - 1))).
  rewrite (wrap_small 32 (c + 1)) by (unfold uint; lia).
  rewrite IH by lia. f_equal. lia.
Qed.

Lemma lsb_loop_spec fuel v r k :
  lowest_bit v k → k < Z.of_nat fuel → lsb_loop fuel v r = Some (r + k).
Proof.
  revert v r k. induction fuel as [|fuel IH]; intros v r k Hlb Hf;
    pose proof Hlb as (Hk & Hb & Hl); [lia|]. cbn [lsb_loop].
  change (Z.land v 1) with (Z.land v (Z.ones 1)).
  rewrite Z.land_ones, Z.pow_1_r, <- Z.bit0_mod by lia.
  destruct (decide (k = 0)) as [->|].
  - rewrite Hb. simpl. by rewrite Z.add_0_r.
  - rewrite Hl by lia. simpl. rewrite (IH _ _ (k - 1)); [f_equal; lia| |lia].
    split; [lia|]. rewrite Z.shiftr_spec by lia. split; [by rewrite Z.sub_add|].
    intros i Hi. rewrite Z.shiftr_spec by lia. apply Hl. lia.
Qed.

(** The perfect hash of the isolated bit, checked for each position. *)
Lemma debruijn_lookup k :
  0 ≤ k < 32 →
  aget MultiplyDeBruijnBitPosition (Z.shiftr (u32 (2 ^ k * 0x077CB531)) 27) = Some k.
Proof.
  intros Hk.
  assert (∀ j, (j < 32)%nat → aget MultiplyDeBruijnBitPosition
    (Z.shiftr (u32 (2 ^ Z.of_nat j * 0x077CB531)) 27) = Some (Z.of_nat j)) as Hall.
  { intros j Hj. do 32 (destruct j as [|j]; [vm_compute; reflexivity|]). lia. }
  specialize (Hall (Z.to_nat k) ltac:(lia)). by rewrite Z2Nat.id in Hall by lia.
Qed.

(** Both implementations of [bitarithm_lsb], [bitarithm_msb] and
    [bitarithm_bits_set] compute the lowest set bit, the highest set bit and the
    number of set bits of every non-zero [unsigned]. *)
Lemma bitarithm_lsb_spec v k :
  0 < v < 2 ^ 32 → lowest_bit v k → bitarithm_lsb v = Some k ∧ bitarithm_lsb_lookup v = Some k.
Proof.
  intros Hv Hlb. destruct (lowest_bit_exists v 32) as (k' & Hlb' & Hk'); [lia|].
  rewrite (lowest_bit_unique _ _ _ Hlb Hlb') in *. split.
  - unfold bitarithm_lsb. by rewrite (lsb_loop_spec 32 v 0 k').
  - unfold bitarithm_lsb_lookup.
    assert (Z.land v (u32 (- v)) = 2 ^ k') as ->.
    { rewrite <- (land_neg v k' Hlb'). unfold wrap. rewrite <- Z.land_ones by lia.
      rewrite (Z.land_comm (- v)), Z.land_assoc, Z.land_ones, Z.mod_small by lia. done. }
    apply debruijn_lookup. destruct Hlb'. lia.
Qed.

Lemma shiftr_log2 v s : 0 ≤ s → 2 ^ s ≤ v → Z.log2 v = s + Z.log2 (Z.shiftr v s).
Proof.
  intros Hs Hv. rewrite Z.log2_shiftr by lia.
  assert (s ≤ Z.log2 v) by (apply Z.log2_le_pow2; lia). lia.
Qed.

(** One halving step of [bitarithm_msb]: after the conditional shift by [s] the
    value fits in [s] bits. *)
Lemma msb_step v s c :
  0 < s → c = 2 ^ s - 1 → 0 < v < 2 ^ (2 * s) →
  let shift := if c <? v then s else 0 in
  0 < Z.shiftr v shift < 2 ^ s ∧ Z.log2 v = shift + Z.log2 (Z.shiftr v shift).
Proof.
  intros Hs -> Hv shift. unfold shift. destruct (Z.ltb_spec (2 ^ s - 1) v).
  - split; [|apply shiftr_log2; lia].
    replace (2 * s) with (s + s) in Hv by lia. rewrite Z.pow_add_r in Hv by lia.
    rewrite Z.shiftr_div_pow2 by lia. split.
    + apply Z.div_str_pos. lia.
    + apply Z.div_lt_upper_bound; lia.
  - rewrite Z.shiftr_0_r. lia.
Qed.

Lemma shiftl_b2z b n : 0 ≤ n → Z.shiftl (b2z b) n = if b then 2 ^ n else 0.
Proof. intros. destruct b; simpl; [by rewrite Z.shiftl_1_l|by rewrite Z.shiftl_0_l]. Qed.

Lemma bitarithm_msb_spec v : 0 < v < 2 ^ 32 → bitarithm_msb v = Z.log2 v.
Proof.
  intros Hv. unfold bitarithm_msb. rewrite !shiftl_b2z by lia. cbv zeta.
  change (2 ^ 4) with 16. change (2 ^ 3) with 8. change (2 ^ 2) with 4. change (2 ^ 1) with 2.
  destruct (msb_step v 16 0xFFFF) as [H1 ->]; [lia|done|done|].
  set (r := if 0xFFFF <? v then 16 else 0) in *. set (v1 := Z.shiftr v r) in *.
  destruct (msb_step v1 8 0xFF) as [H2 ->]; [lia|done|done|].
  set (r1 := if 0xFF <? v1 then 8 else 0) in *. set (v2 := Z.shiftr v1 r1) in *.
  destruct (msb_step v2 4 0xF) as [H3 ->]; [lia|done|done|].
  set (r2 := if 0xF <? v2 then 4 else 0) in *. set (v3 := Z.shiftr v2 r2) in *.
  destruct (msb_step v3 2 0x3) as [H4 ->]; [lia|done|done|].
  set (r3 := if 0x3 <? v3 then 2 else 0) in *. set (v4 := Z.shiftr v3 r3) in *.
  assert (Z.shiftr v4 1 = Z.log2 v4 ∧ 0 ≤ Z.log2 v4 ≤ 1) as [-> Hl].
  { assert (v4 = 1 ∨ v4 = 2 ∨ v4 = 3) as [->|[->| ->]] by lia; split; done. }
  assert (Z.log2 v4 = 0 ∨ Z.log2 v4 = 1) as [->| ->] by lia;
    unfold r, r1, r2, r3; repeat case_match; reflexivity.
Qed.

(** For every non-zero [unsigned] the two implementations of [bitarithm_lsb]
    give the position of the lowest set bit, [bitarithm_msb] that of the highest,
    and [bitarithm_bits_set] the number of set bits. *)
Theorem bitarithm_correct v :
  0 < v < 2 ^ 32 →
  (∃ k, lowest_bit v k ∧ bitarithm_lsb v = Some k ∧ bitarithm_lsb_lookup v = Some k) ∧
  bitarithm_msb v = Z.log2 v ∧
  bitarithm_bits_set v = Some (popcount 32 v) ∧
  bitarithm_bits_set_u32 v = Some (popcount 32 v).
Proof.
  intros Hv. destruct (lowest_bit_exists v 32) as (k & Hlb & _); [lia|].
  split; [exists k; split; [done|]; by apply bitarithm_lsb_spec|].
  split; [by apply bitarithm_msb_spec|].
  pose proof (popcount_bound 32 v) as Hp.
  assert (bitarithm_bits_set v = Some (popcount 32 v)) as Hbs.
  { unfold bitarithm_bits_set. rewrite bits_set_loop_spec by lia. done. }
  split; [done|]. unfold bitarithm_bits_set_u32. rewrite Hbs. mred.
  f_equal. apply wrap_small. unfold uint. lia.
Qed.

Lemma bitarithm_correct_witness :
  (∃ k, lowest_bit 0x80000A00 k ∧ bitarithm_lsb 0x80000A00 = Some k ∧
        bitarithm_lsb_lookup 0x80000A00 = Some k) ∧
  bitarithm_msb 0x80000A00 = Z.log2 0x80000A00 ∧
  bitarithm_bits_set 0x80000A00 = Some (popcount 32 0x80000A00) ∧
  bitarithm_bits_set_u32 0x80000A00 = Some (popcount 32 0x80000A00).
Proof. apply (bitarithm_correct 0x80000A00). lia. Defined.
