(* ===== verification/Cib.v ===== *)
(** * Circular integer buffer (core/include/cib.h)

    The index arithmetic behind the kernel's message queues and mailboxes:
    two free-running [unsigned int] counters and a mask.  The module shows that
    the slots handed out by [cib_put] and [cib_get] form a bounded FIFO, also
    when the counters wrap around. *)

From S2P Require Import Prelude.

Record cib_t := Cib {
  read_count : Z;
  write_count : Z;
  mask : Z
}.

#[export] Instance cib_t_eq_dec : EqDecision cib_t.
Proof. solve_decision. Defined.

(** [assert(!(size & (size - 1)))]: [None] is the failed assertion. *)
Definition cib_init (size : Z) : option cib_t :=
  if Z.land size (u32 (size - 1)) =? 0
  then Some (Cib 0 0 (u32 (size - 1)))
  else None.

Definition cib_avail (c : cib_t) : Z := u32 (write_count c - read_count c).

Definition cib_full (c : cib_t) : bool := i32 (mask c) <? i32 (cib_avail c).

Definition cib_get (c : cib_t) : Z * cib_t :=
  if negb (cib_avail c =? 0)
  then (i32 (Z.land (read_count c) (mask c)),
        Cib (u32 (read_count c + 1)) (write_count c) (mask c))
  else (-1, c).

Definition cib_peek (c : cib_t) : Z :=
  if negb (cib_avail c =? 0) then i32 (Z.land (read_count c) (mask c)) else -1.

Definition cib_get_unsafe (c : cib_t) : Z * cib_t :=
  (i32 (Z.land (read_count c) (mask c)),
   Cib (u32 (read_count c + 1)) (write_count c) (mask c)).

Definition cib_put (c : cib_t) : Z * cib_t :=
  if i32 (cib_avail c) <=? i32 (mask c)
  then (i32 (Z.land (write_count c) (mask c)),
        Cib (read_count c) (u32 (write_count c + 1)) (mask c))
  else (-1, c).

Definition cib_put_unsafe (c : cib_t) : Z * cib_t :=
  (i32 (Z.land (write_count c) (mask c)),
   Cib (read_count c) (u32 (write_count c + 1)) (mask c)).

(** ** Invariant and abstraction *)

(** Size of the buffer: [mask + 1], which is [0] for the mask [-1u]. *)
Definition cib_size (c : cib_t) : Z := u32 (mask c + 1).

(** Well-formed buffers: what [cib_init] gives for the sizes [0] and [2^k],
    [k <= 30], closed under the operations.  ([2^31] is excluded: its fill level
    does not fit the signed comparison of [cib_put].) *)
Definition cib_wf (c : cib_t) : Prop :=
  uint 32 (read_count c) ∧ uint 32 (write_count c) ∧
  cib_avail c ≤ cib_size c ∧
  (mask c = 2 ^ 32 - 1 ∨ ∃ k, 0 ≤ k ≤ 30 ∧ mask c = 2 ^ k - 1).

(** The slots in use, oldest first. *)
Definition cib_slots (c : cib_t) : list Z :=
  (λ i, Z.land (u32 (read_count c + i)) (mask c)) <$> seqZ 0 (cib_avail c).

Lemma cib_size_pow2 c k : 0 ≤ k ≤ 30 → mask c = 2 ^ k - 1 → cib_size c = 2 ^ k.
Proof.
  intros Hk Hm. unfold cib_size. rewrite Hm, Z.sub_add. apply wrap_small.
  split; [lia|]. apply Z.pow_lt_mono_r; lia.
Qed.

Lemma cib_size_zero c : mask c = 2 ^ 32 - 1 → cib_size c = 0.
Proof. intros Hm. unfold cib_size. by rewrite Hm. Qed.

Lemma cib_avail_range c : 0 ≤ cib_avail c < 2 ^ 32.
Proof. apply wrap_range. lia. Qed.

Lemma pow2_le_30 k : 0 ≤ k ≤ 30 → 1 ≤ 2 ^ k ≤ 2 ^ 30.
Proof.
  intros. split; [|apply Z.pow_le_mono_r; lia].
  apply (Z.pow_le_mono_r 2 0 k); lia.
Qed.

Lemma cib_wf_size c : cib_wf c → 0 ≤ cib_size c ≤ 2 ^ 30.
Proof.
  intros (_ & _ & _ & [Hm | (k & Hk & Hm)]).
  - rewrite cib_size_zero by done. lia.
  - rewrite (cib_size_pow2 c k) by done. pose proof (pow2_le_30 k Hk). lia.
Qed.

(** The signed comparison of the code decides "the buffer has room". *)
Lemma cib_put_guard c :
  cib_wf c → (i32 (cib_avail c) <=? i32 (mask c)) = (cib_avail c <? cib_size c).
Proof.
  intros Hwf. pose proof (cib_wf_size c Hwf) as Hs.
  destruct Hwf as (_ & _ & Ha & Hm). pose proof (cib_avail_range c).
  rewrite (swrap_small 32 (cib_avail c)) by lia.
  destruct Hm as [Hm | (k & Hk & Hm)].
  - rewrite (cib_size_zero c Hm) in *. rewrite Hm. change (i32 (2 ^ 32 - 1)) with (-1). ztest.
  - rewrite (cib_size_pow2 c k) in * by done. rewrite Hm.
    rewrite swrap_small by lia. ztest.
Qed.

Lemma cib_full_spec c : cib_wf c → cib_full c = (cib_size c =? cib_avail c).
Proof.
  intros Hwf. pose proof (cib_put_guard c Hwf) as Hg. destruct Hwf as (_ & _ & Ha & _).
  unfold cib_full. rewrite Z.leb_antisym in Hg. ztest.
Qed.

(** A slot index of a non-empty buffer is an array index. *)
Lemma cib_index_range c k x :
  0 ≤ k ≤ 30 → mask c = 2 ^ k - 1 →
  i32 (Z.land x (mask c)) = Z.land x (mask c) ∧ 0 ≤ Z.land x (mask c) < cib_size c.
Proof.
  intros Hk Hm. rewrite (cib_size_pow2 c k), Hm, land_mask by lia.
  pose proof (Z.mod_pos_bound x (2 ^ k)). pose proof (pow2_le_30 k Hk).
  split; [apply swrap_small|]; lia.
Qed.

Lemma cib_slots_length c : length (cib_slots c) = Z.to_nat (cib_avail c).
Proof. unfold cib_slots. by rewrite length_fmap, length_seqZ. Qed.

Lemma cib_slots_range c : cib_wf c → Forall (λ i, 0 ≤ i < cib_size c) (cib_slots c).
Proof.
  intros Hwf. apply Forall_fmap, Forall_seqZ. intros i Hi. simpl.
  destruct Hwf as (_ & _ & Ha & [Hm | (k & Hk & Hm)]).
  - rewrite (cib_size_zero c Hm) in *. lia.
  - by apply (cib_index_range c k).
Qed.

(** Advancing the write counter: one more available slot. *)
Lemma cib_avail_put r w m :
  u32 (w - r) < 2 ^ 32 - 1 →
  cib_avail (Cib r (u32 (w + 1)) m) = u32 (w - r) + 1.
Proof.
  intros. unfold cib_avail; simpl.
  rewrite wrap_sub_idem_l, Z.add_sub_swap, <- wrap_add_idem_l.
  apply wrap_small. pose proof (wrap_range 32 (w - r)). unfold uint in *. lia.
Qed.

Lemma cib_avail_get r w m :
  u32 (w - r) ≠ 0 → cib_avail (Cib (u32 (r + 1)) w m) = u32 (w - r) - 1.
Proof.
  intros. unfold cib_avail; simpl.
  rewrite wrap_sub_idem_r, Z.sub_add_distr, <- wrap_sub_idem_l.
  apply wrap_small. pose proof (wrap_range 32 (w - r)). unfold uint in *. lia.
Qed.

(** The slot of the write counter is the one after the last slot in use. *)
Lemma cib_slots_put c :
  cib_avail c < 2 ^ 32 - 1 → uint 32 (write_count c) →
  cib_slots (Cib (read_count c) (u32 (write_count c + 1)) (mask c)) =
    cib_slots c ++ [Z.land (write_count c) (mask c)].
Proof.
  intros Ha Hw. unfold cib_slots. rewrite cib_avail_put by done. simpl.
  fold (cib_avail c). pose proof (cib_avail_range c).
  replace (seqZ 0 (cib_avail c + 1)) with (seqZ 0 (cib_avail c) ++ [cib_avail c]).
  - rewrite fmap_app. simpl. do 3 f_equal. unfold cib_avail.
    rewrite wrap_add_idem_r, Zplus_minus. by apply wrap_small.
  - rewrite seqZ_app by lia. done.
Qed.

Lemma cib_slots_get c :
  cib_avail c ≠ 0 → uint 32 (read_count c) →
  cib_slots c = Z.land (read_count c) (mask c) ::
    cib_slots (Cib (u32 (read_count c + 1)) (write_count c) (mask c)).
Proof.
  intros Ha Hr. unfold cib_slots. rewrite cib_avail_get by done. simpl.
  fold (cib_avail c). pose proof (cib_avail_range c).
  rewrite seqZ_cons by lia. simpl. f_equal.
  - rewrite Z.add_0_r, wrap_small; done.
  - replace (seqZ (Z.succ 0) _) with (Z.add 1 <$> seqZ 0 (cib_avail c - 1))
      by (rewrite fmap_add_seqZ; f_equal; lia).
    rewrite <- list_fmap_compose.
    apply list_fmap_ext. intros i x _. simpl. rewrite wrap_add_idem_l.
    do 2 f_equal. lia.
Qed.

(** Distinct offsets below the size give distinct slots. *)
Lemma cib_slot_inj k r i j :
  0 ≤ k ≤ 30 → 0 ≤ i < 2 ^ k → 0 ≤ j < 2 ^ k →
  Z.land (u32 (r + i)) (2 ^ k - 1) = Z.land (u32 (r + j)) (2 ^ k - 1) → i = j.
Proof.
  intros Hk Hi Hj. rewrite !land_mask by lia. unfold wrap.
  rewrite !mod_mod_pow2 by lia. intros Heq. pose proof (pow2_le_30 k Hk).
  assert ((i - j) mod 2 ^ k = 0) as H0.
  { replace (i - j) with ((r + i) - (r + j)) by lia.
    by rewrite Zminus_mod, Heq, Z.sub_diag, Zmod_0_l. }
  apply Z.mod_divide in H0 as [q Hq]; [|lia].
  assert (q = 0) as -> by (revert Hi Hj Hq H; generalize (2 ^ k); clear; nia). lia.
Qed.

Lemma cib_slots_NoDup c : cib_wf c → NoDup (cib_slots c).
Proof.
  intros (_ & _ & Ha & [Hm | (k & Hk & Hm)]).
  - rewrite (cib_size_zero c Hm) in Ha. pose proof (cib_avail_range c).
    unfold cib_slots. replace (cib_avail c) with 0 by lia. constructor.
  - rewrite (cib_size_pow2 c k) in Ha by done.
    apply NoDup_fmap_2_strong; [|apply NoDup_seqZ].
    intros i j Hi%elem_of_seqZ Hj%elem_of_seqZ. simpl. rewrite Hm.
    apply cib_slot_inj; lia.
Qed.

(** ** Operations *)

Lemma cib_init_wf size c :
  0 ≤ size ≤ 2 ^ 30 → cib_init size = Some c →
  cib_wf c ∧ cib_size c = size ∧ cib_slots c = [].
Proof.
  intros Hs. unfold cib_init. ztest. intros [= <-].
  assert (cib_size (Cib 0 0 (u32 (size - 1))) = size) as Hsz.
  { unfold cib_size; simpl. rewrite wrap_add_idem_l, Z.sub_add.
    apply wrap_small. unfold uint; lia. }
  split; [|split; [done|reflexivity]].
  unfold cib_wf, cib_avail. rewrite Hsz. simpl.
  split; [unfold uint; lia|]. split; [unfold uint; lia|].
  split; [change (u32 (0 - 0)) with 0; lia|].
  destruct (decide (size = 0)) as [->|Hne]; [by left|right].
  rewrite wrap_small in * by (unfold uint; lia).
  exists (Z.log2 size). pose proof (Z.log2_nonneg size).
  assert (Z.log2 size ≤ 30) by (change 30 with (Z.log2 (2 ^ 30)); apply Z.log2_le_mono; lia).
  split; [lia|]. f_equal.
  destruct (Z.log2_spec size) as [Hlo Hhi]; [lia|].
  destruct (decide (size = 2 ^ Z.log2 size)) as [|Hne2]; [done|exfalso].
  assert (Z.testbit (Z.land size (size - 1)) (Z.log2 size) = true) as Ht.
  { rewrite Z.land_spec, Z.bit_log2 by lia. simpl.
    replace (Z.log2 size) with (Z.log2 (size - 1)).
    - apply Z.bit_log2. lia.
    - apply Z.log2_unique; lia. }
  rewrite e, Z.bits_0 in Ht. done.
Qed.

(** [cib_put] takes the next free slot and appends it to the slots in use; a
    full buffer, and one of size zero, refuses with [-1] and is unchanged. *)
Lemma cib_put_spec c :
  cib_wf c →
  if decide (cib_avail c < cib_size c)
  then ∃ n c', cib_put c = (n, c') ∧ 0 ≤ n < cib_size c ∧ (n ∉ cib_slots c) ∧
         cib_wf c' ∧ cib_size c' = cib_size c ∧ cib_slots c' = cib_slots c ++ [n]
  else cib_put c = (-1, c).
Proof.
  intros Hwf. unfold cib_put. rewrite cib_put_guard by done.
  case_decide as Hlt; ztest.
  pose proof (cib_wf_size c Hwf). pose proof (cib_avail_range c) as Hav.
  pose proof Hwf as (Hr & Hw & _ & [Hm | (k & Hk & Hm)]);
    [rewrite (cib_size_zero c Hm) in *; lia|].
  destruct (cib_index_range c k (write_count c) Hk Hm) as [Hi Hrange].
  rewrite Hi. eexists _, _. split; [done|]. split; [done|].
  set (c' := Cib _ _ _).
  assert (cib_slots c' = cib_slots c ++ [Z.land (write_count c) (mask c)]) as Hslots
    by (apply cib_slots_put; [lia|done]).
  assert (cib_wf c') as Hwf'.
  { split; [done|]. split; [apply wrap_range; lia|].
    split; [|right; by exists k].
    change (cib_size c') with (cib_size c). unfold c'.
    rewrite cib_avail_put by (fold (cib_avail c); lia). fold (cib_avail c). lia. }
  split; [|done]. intros Hin.
  pose proof (cib_slots_NoDup c' Hwf') as Hnd. rewrite Hslots in Hnd.
  apply NoDup_app in Hnd as (_ & Hnd & _). apply (Hnd _ Hin). by left.
Qed.

(** [cib_get] releases the oldest slot in use. *)
Lemma cib_get_spec c :
  cib_wf c →
  if cib_avail c =? 0 then cib_get c = (-1, c) ∧ cib_slots c = []
  else ∃ n c', cib_get c = (n, c') ∧ 0 ≤ n < cib_size c ∧
         cib_wf c' ∧ cib_size c' = cib_size c ∧ cib_slots c = n :: cib_slots c'.
Proof.
  intros Hwf. unfold cib_get.
  destruct (Z.eqb_spec (cib_avail c) 0) as [H0|H0]; simpl.
  { split; [done|]. unfold cib_slots. by rewrite H0. }
  pose proof (cib_avail_range c) as Hav.
  pose proof Hwf as (Hr & Hw & Hs & [Hm | (k & Hk & Hm)]);
    [rewrite (cib_size_zero c Hm) in *; lia|].
  destruct (cib_index_range c k (read_count c) Hk Hm) as [Hi Hrange].
  rewrite Hi. eexists _, _. split; [done|]. split; [done|].
  split; [|split; [done|by apply cib_slots_get]].
  split; [apply wrap_range; lia|]. split; [done|]. split; [|right; by exists k].
  set (c' := Cib _ _ _). change (cib_size c') with (cib_size c). unfold c'.
  rewrite cib_avail_get by done. fold (cib_avail c). lia.
Qed.

(** ** The interface to the users of slots

    What a component that hands out array slots promises to the components
    that keep their data in the array (message queues, mailboxes). *)

Class SlotQueue (Q : Type) := {
  sq_wf : Q → Prop;
  sq_cap : Q → Z;
  sq_slots : Q → list Z;
  sq_put : Q → Z * Q;
  sq_get : Q → Z * Q;
  sq_slots_ok q : sq_wf q → Forall (λ i, 0 ≤ i < sq_cap q) (sq_slots q);
  sq_put_ok q : sq_wf q →
    if decide (Z.of_nat (length (sq_slots q)) < sq_cap q)
    then ∃ n q', sq_put q = (n, q') ∧ 0 ≤ n < sq_cap q ∧ (n ∉ sq_slots q) ∧
           sq_wf q' ∧ sq_cap q' = sq_cap q ∧ sq_slots q' = sq_slots q ++ [n]
    else sq_put q = (-1, q);
  sq_get_ok q : sq_wf q →
    match sq_slots q with
    | [] => sq_get q = (-1, q)
    | n :: l => ∃ q', sq_get q = (n, q') ∧ 0 ≤ n < sq_cap q ∧
                  sq_wf q' ∧ sq_cap q' = sq_cap q ∧ sq_slots q' = l
    end
}.

#[export] Program Instance cib_slot_queue : SlotQueue cib_t := {|
  sq_wf := cib_wf; sq_cap := cib_size; sq_slots := cib_slots;
  sq_put := cib_put; sq_get := cib_get
|}.
Next Obligation. exact cib_slots_range. Qed.
Next Obligation.
  intros c Hwf. rewrite cib_slots_length.
  rewrite Z2Nat.id by apply cib_avail_range. by apply cib_put_spec.
Qed.
Next Obligation.
  intros c Hwf. pose proof (cib_get_spec c Hwf) as Hg.
  destruct (Z.eqb_spec (cib_avail c) 0) as [H0|H0].
  - destruct Hg as [Hg ->]. done.
  - destruct Hg as (n & c' & Hg & Hr & Hwf' & Hs & ->). by exists c'.
Qed.

(** A queue of values: the slots index an array owned by the client. *)
Section ValueQueue.
Context {Q A : Type} `{!SlotQueue Q} `{!Inhabited A}.
Implicit Types (q : Q) (arr : list A) (x : A).

(** The values in the queue, oldest first. *)
Definition vq_contents q arr : list A := (λ i, arr !!! Z.to_nat i) <$> sq_slots q.

Definition vq_wf q arr : Prop := sq_wf q ∧ sq_cap q ≤ Z.of_nat (length arr).

(** Store into the slot that [put] returns, if any. *)
Definition vq_put q arr x : bool * Q * list A :=
  let '(n, q') := sq_put q in
  if n <? 0 then (false, q', arr) else (true, q', <[Z.to_nat n := x]> arr).

(** Load from the slot that [get] returns, if any. *)
Definition vq_get q arr : option A * Q :=
  let '(n, q') := sq_get q in
  if n <? 0 then (None, q') else (arr !! Z.to_nat n, q').

Lemma vq_contents_length q arr : length (vq_contents q arr) = length (sq_slots q).
Proof. apply length_fmap. Qed.

Lemma vq_contents_insert_ne q arr n x :
  sq_wf q → n ∉ sq_slots q → 0 ≤ n →
  vq_contents q (<[Z.to_nat n := x]> arr) = vq_contents q arr.
Proof.
  intros Hwf Hn H0. apply list_fmap_ext. intros k i Hi.
  pose proof (proj1 (Forall_lookup _ _) (sq_slots_ok q Hwf) k i Hi) as Hr. simpl in Hr.
  apply list_elem_of_lookup_2 in Hi. assert (i ≠ n) by congruence.
  apply list_lookup_total_insert_ne. lia.
Qed.

(** Putting appends while there is room and refuses otherwise. *)
Lemma vq_put_spec q arr x :
  vq_wf q arr →
  let full := bool_decide (sq_cap q ≤ Z.of_nat (length (vq_contents q arr))) in
  ∃ q' arr', vq_put q arr x = (negb full, q', arr') ∧ vq_wf q' arr' ∧
    sq_cap q' = sq_cap q ∧ length arr' = length arr ∧
    vq_contents q' arr' = if full then vq_contents q arr else vq_contents q arr ++ [x].
Proof.
  intros [Hwf Hlen] full. unfold full. rewrite vq_contents_length.
  pose proof (sq_put_ok q Hwf) as Hput. unfold vq_put. case_decide as Hroom.
  - destruct Hput as (n & q' & -> & Hn & Hnin & Hwf' & Hcap & Hsl).
    rewrite bool_decide_eq_false_2 by lia. ztest.
    eexists _, _. split; [done|]. unfold vq_wf.
    rewrite Hcap, length_insert. repeat split; try done.
    unfold vq_contents. rewrite Hsl, fmap_app. f_equal.
    + by apply vq_contents_insert_ne.
    + simpl. f_equal. apply list_lookup_total_insert_eq. lia.
  - rewrite Hput, bool_decide_eq_true_2 by lia. simpl. by eexists _, _.
Qed.

(** Getting takes the oldest value. *)
Lemma vq_get_spec q arr :
  vq_wf q arr →
  ∃ q', vq_get q arr = (head (vq_contents q arr), q') ∧ vq_wf q' arr ∧
    sq_cap q' = sq_cap q ∧ vq_contents q' arr = tail (vq_contents q arr).
Proof.
  intros [Hwf Hlen]. pose proof (sq_get_ok q Hwf) as Hget.
  unfold vq_get, vq_wf, vq_contents. destruct (sq_slots q) as [|n l] eqn:Hs.
  - rewrite Hget. simpl. eexists. split; [done|]. by rewrite Hs.
  - destruct Hget as (q' & -> & Hn & Hwf' & Hcap & <-). ztest.
    eexists. split; [|by rewrite Hcap]. f_equal.
    apply list_lookup_lookup_total_lt. lia.
Qed.

(** *** Histories *)

Inductive vq_op := VPut (x : A) | VGet.

Inductive vq_result := RPut (ok : bool) | RGet (x : option A).

Fixpoint vq_run (q : Q) (arr : list A) (ops : list vq_op) : list vq_result :=
  match ops with
  | [] => []
  | VPut x :: ops' => let '(ok, q', arr') := vq_put q arr x in RPut ok :: vq_run q' arr' ops'
  | VGet :: ops' => let '(r, q') := vq_get q arr in RGet r :: vq_run q' arr ops'
  end.

(** The specification: a list of at most [cap] values. *)
Fixpoint fifo_run (cap : Z) (l : list A) (ops : list vq_op) : list vq_result :=
  match ops with
  | [] => []
  | VPut x :: ops' =>
      if bool_decide (cap ≤ Z.of_nat (length l)) then RPut false :: fifo_run cap l ops'
      else RPut true :: fifo_run cap (l ++ [x]) ops'
  | VGet :: ops' => RGet (head l) :: fifo_run cap (tail l) ops'
  end.

Lemma vq_run_fifo ops q arr :
  vq_wf q arr → vq_run q arr ops = fifo_run (sq_cap q) (vq_contents q arr) ops.
Proof.
  revert q arr. induction ops as [|[x|] ops IH]; intros q arr Hwf; simpl; [done|..].
  - destruct (vq_put_spec q arr x Hwf) as (q' & arr' & -> & Hwf' & Hcap & _ & Hc).
    rewrite IH, Hcap, Hc by done. by destruct (bool_decide _).
  - destruct (vq_get_spec q arr Hwf) as (q' & -> & Hwf' & Hcap & Hc).
    by rewrite IH, Hcap, Hc.
Qed.

End ValueQueue.

Arguments vq_op : clear implicits.
Arguments vq_result : clear implicits.

(** C30: A freshly initialised buffer and an array of that size behave, for every
    sequence of put and get operations, as a FIFO list bounded by the size. *)
Theorem cib_fifo_refines {A} `{!Inhabited A} size c (arr : list A) ops :
  0 ≤ size ≤ 2 ^ 30 → cib_init size = Some c → size ≤ Z.of_nat (length arr) →
  vq_run c arr ops = fifo_run size [] ops.
Proof.
  intros Hs Hc Hlen. destruct (cib_init_wf size c Hs Hc) as (Hwf & Hsz & Hsl).
  rewrite vq_run_fifo by (split; simpl; [done|lia]).
  unfold vq_contents. simpl. by rewrite Hsz, Hsl.
Qed.

Lemma cib_fifo_refines_witness :
  vq_run (Cib 0 0 1) [0; 0] [VPut 7; VPut 8; VPut 9; VGet; VPut 9; VGet; VGet; VGet] =
  fifo_run 2 [] [VPut 7; VPut 8; VPut 9; VGet; VPut 9; VGet; VGet; VGet].
Proof.
  apply (cib_fifo_refines 2 (Cib 0 0 1) [0; 0]); [lia|vm_compute; reflexivity|simpl; lia].
Defined.
