(* ===== verification/Ringbuffer.v ===== *)
(** * Character ring buffer (core/ringbuffer.c, core/include/ringbuffer.h)

    A byte buffer with [start], [avail] and [size] counters.  An access outside
    the backing array is the result [None]. *)

From S2P Require Import Prelude.

Record ringbuffer_t := Rb {
  buf : list Z;
  size : Z;
  start : Z;
  avail : Z
}.

#[export] Instance ringbuffer_t_eq_dec : EqDecision ringbuffer_t.
Proof. solve_decision. Defined.

(** [RINGBUFFER_INIT] / [ringbuffer_init]. *)
Definition ringbuffer_init (buffer : list Z) (bufsize : Z) : ringbuffer_t :=
  Rb buffer bufsize 0 0.

Definition ringbuffer_full (rb : ringbuffer_t) : bool := avail rb =? size rb.
Definition ringbuffer_empty (rb : ringbuffer_t) : bool := avail rb =? 0.
Definition ringbuffer_get_free (rb : ringbuffer_t) : Z := u32 (size rb - avail rb).

Definition add_tail (rb : ringbuffer_t) (c : Z) : option ringbuffer_t :=
  let pos := u32 (start rb + avail rb) in
  let avail' := u32 (avail rb + 1) in
  let pos := if size rb <=? pos then u32 (pos - size rb) else pos in
  b ← aset (buf rb) pos c;
  Some (Rb b (size rb) (start rb) avail').

Definition get_head (rb : ringbuffer_t) : option (Z * ringbuffer_t) :=
  result ← aget (buf rb) (start rb);
  let avail' := u32 (avail rb - 1) in
  let start' :=
    if avail' =? 0 then 0
    else let s := u32 (start rb + 1) in if s =? size rb then 0 else s in
  Some (result, Rb (buf rb) (size rb) start' avail').

(** The loop of [ringbuffer_add] over the input. *)
Fixpoint ringbuffer_add (rb : ringbuffer_t) (b : list Z) : option (Z * ringbuffer_t) :=
  match b with
  | [] => Some (0, rb)
  | c :: b' =>
      if ringbuffer_full rb then Some (0, rb)
      else rb' ← add_tail rb c;
           '(i, rb'') ← ringbuffer_add rb' b';
           Some (i + 1, rb'')
  end.

Definition ringbuffer_add_one (rb : ringbuffer_t) (c : Z) : option (Z * ringbuffer_t) :=
  '(result, rb) ← (if ringbuffer_full rb
                   then '(h, rb') ← get_head rb; Some (u8 h, rb')
                   else Some (-1, rb));
  rb ← add_tail rb c;
  Some (result, rb).

Definition ringbuffer_get_one (rb : ringbuffer_t) : option (Z * ringbuffer_t) :=
  if negb (ringbuffer_empty rb)
  then '(h, rb') ← get_head rb; Some (u8 h, rb')
  else Some (-1, rb).

(** [memcpy] out of the backing array: [None] if the source is out of bounds. *)
Definition copy_out (b : list Z) (from n : Z) : option (list Z) :=
  if (0 <=? from) && (0 <=? n) && (from + n <=? Z.of_nat (length b))
  then Some (take (Z.to_nat n) (drop (Z.to_nat from) b)) else None.

(** The bytes written to the caller's buffer and the new state; the returned
    count is the length of the bytes. *)
Definition ringbuffer_get (rb : ringbuffer_t) (n : Z) : option (list Z * ringbuffer_t) :=
  let n := if avail rb <? n then avail rb else n in
  if 0 <? n then
    let bytes_till_end := u32 (size rb - start rb) in
    if n <=? bytes_till_end then
      out ← copy_out (buf rb) (start rb) n;
      let start' := if bytes_till_end =? n then 0 else u32 (start rb + n) in
      Some (out, Rb (buf rb) (size rb) start' (u32 (avail rb - n)))
    else
      out1 ← copy_out (buf rb) (start rb) bytes_till_end;
      let start' := u32 (n - bytes_till_end) in
      out2 ← copy_out (buf rb) 0 start';
      Some (out1 ++ out2, Rb (buf rb) (size rb) start' (u32 (avail rb - n)))
  else Some ([], rb).

Definition ringbuffer_remove (rb : ringbuffer_t) (n : Z) : Z * ringbuffer_t :=
  if avail rb <? n then (avail rb, Rb (buf rb) (size rb) 0 0)
  else
    let start' := u32 (start rb + n) in
    let avail' := u32 (avail rb - n) in
    let start' := if size rb <? start' then u32 (start' - size rb) else start' in
    (n, Rb (buf rb) (size rb) start' avail').

(** The peeking operations run on a copy of the descriptor. *)
Definition ringbuffer_peek_one (rb : ringbuffer_t) : option Z :=
  fst <$> ringbuffer_get_one rb.

Definition ringbuffer_peek (rb : ringbuffer_t) (n : Z) : option (list Z) :=
  fst <$> ringbuffer_get rb n.

(** ** Invariant and abstraction

    [ringbuffer_remove] can leave [start] equal to [size], just behind the array:
    such a buffer still has its contents, but its first character cannot be read
    where [start] points. *)

Definition rb_wf (rb : ringbuffer_t) : Prop :=
  Z.of_nat (length (buf rb)) = size rb ∧ 0 < size rb < 2 ^ 31 ∧
  0 ≤ start rb ≤ size rb ∧ 0 ≤ avail rb ≤ size rb.

(** The characters in the buffer, oldest first. *)
Definition rb_contents (rb : ringbuffer_t) : list Z :=
  (λ i, buf rb !!! Z.to_nat ((start rb + i) mod size rb)) <$> seqZ 0 (avail rb).

Lemma mod_once x m : 0 ≤ x < 2 * m → x mod m = if x <? m then x else x - m.
Proof.
  intros. ztest; [apply Z.mod_small; lia|].
  rewrite <- (Z.mod_small (x - m) m) by lia.
  by rewrite <- (Z_mod_plus_full (x - m) 1 m), Z.mul_1_l, Z.sub_add.
Qed.

Lemma rb_contents_length rb : length (rb_contents rb) = Z.to_nat (avail rb).
Proof. unfold rb_contents. by rewrite length_fmap, length_seqZ. Qed.

Lemma rb_contents_lookup rb i :
  (i < Z.to_nat (avail rb))%nat →
  rb_contents rb !! i = Some (buf rb !!! Z.to_nat ((start rb + Z.of_nat i) mod size rb)).
Proof.
  intros. unfold rb_contents. rewrite list_lookup_fmap, lookup_seqZ_lt by lia.
  done.
Qed.

(** Dropping [n] characters moves [start] forward, modulo the size. *)
Lemma rb_contents_drop b sz st av n st' :
  0 ≤ n ≤ av → (n = av ∨ st' mod sz = (st + n) mod sz) →
  drop (Z.to_nat n) (rb_contents (Rb b sz st av)) = rb_contents (Rb b sz st' (av - n)).
Proof.
  intros Hn [->|Hst].
  { rewrite Z.sub_diag. apply nil_length_inv.
    rewrite length_drop, rb_contents_length. simpl. lia. }
  apply list_eq_same_length with (n := Z.to_nat (av - n));
    [by rewrite rb_contents_length|rewrite length_drop, rb_contents_length; simpl; lia|].
  intros i x y Hi. rewrite lookup_drop.
  rewrite !rb_contents_lookup by (simpl; lia). simpl. intros [= <-] [= <-].
  do 2 f_equal. rewrite <- (Zplus_mod_idemp_l st'), Hst, Zplus_mod_idemp_l.
  f_equal. lia.
Qed.

Lemma copy_out_lookup b from n out i :
  copy_out b from n = Some out → (i < Z.to_nat n)%nat →
  out !! i = b !! (Z.to_nat from + i)%nat.
Proof.
  unfold copy_out. intros H Hi. ztest. injection H as <-.
  by rewrite lookup_take_lt, lookup_drop by lia.
Qed.

Lemma copy_out_ok b from n :
  0 ≤ from → 0 ≤ n → from + n ≤ Z.of_nat (length b) →
  ∃ out, copy_out b from n = Some out ∧ length out = Z.to_nat n.
Proof.
  intros. unfold copy_out. ztest. eexists; split; [done|].
  rewrite length_take, length_drop. lia.
Qed.

(** A window of the backing array that does not wrap is a prefix of the contents. *)
Lemma rb_copy_lookup rb from n out i j :
  rb_wf rb → copy_out (buf rb) from n = Some out → (i < Z.to_nat n)%nat →
  0 ≤ from → from + n ≤ size rb →
  (j < Z.to_nat (avail rb))%nat → (start rb + Z.of_nat j) mod size rb = from + Z.of_nat i →
  out !! i = rb_contents rb !! j.
Proof.
  intros (Hlen & _) Hout Hi Hf Hfn Hj Hmod.
  rewrite (copy_out_lookup _ _ _ _ _ Hout Hi), rb_contents_lookup, Hmod by done.
  replace (Z.to_nat (from + Z.of_nat i)) with (Z.to_nat from + i)%nat by lia.
  apply list_lookup_lookup_total_lt. lia.
Qed.

(** ** Operations *)

Lemma add_tail_spec rb c :
  rb_wf rb → avail rb < size rb →
  ∃ rb', add_tail rb c = Some rb' ∧ rb_wf rb' ∧ size rb' = size rb ∧
    avail rb' = avail rb + 1 ∧ start rb' = start rb ∧ rb_contents rb' = rb_contents rb ++ [c].
Proof.
  intros (Hlen & Hsz & Hst & Hav) Hroom. unfold add_tail.
  rewrite (wrap_small 32 (start rb + avail rb)) by (unfold uint; lia).
  rewrite (wrap_small 32 (avail rb + 1)) by (unfold uint; lia).
  set (pos := if _ <=? _ then _ else _).
  assert (pos = (start rb + avail rb) mod size rb) as Hpos.
  { unfold pos. rewrite mod_once by lia. ztest. apply wrap_small. unfold uint; lia. }
  pose proof (Z.mod_pos_bound (start rb + avail rb) (size rb)).
  rewrite aset_in by lia. simpl. eexists. split; [done|].
  split; [unfold rb_wf; simpl; rewrite length_insert; lia|].
  do 3 (split; [done|]).
  unfold rb_contents; simpl. rewrite seqZ_app by lia. rewrite fmap_app. f_equal.
  - apply list_fmap_ext. intros k i Hi%lookup_seqZ.
    apply list_lookup_total_insert_ne. rewrite Hpos, !mod_once by lia. ztest.
  - simpl. f_equal. rewrite Hpos. apply list_lookup_total_insert_eq. lia.
Qed.

(** The position after [n] characters. *)
Definition next_pos (cap pos n : Z) : Z := if pos + n <? cap then pos + n else pos + n - cap.

Definition pop_pos (cap pos avail : Z) : Z := if avail =? 1 then 0 else next_pos cap pos 1.

Lemma get_head_spec rb :
  rb_wf rb → 0 < avail rb → start rb ≠ size rb →
  ∃ x rb', get_head rb = Some (x, rb') ∧ rb_wf rb' ∧ size rb' = size rb ∧
    avail rb' = avail rb - 1 ∧ start rb' = pop_pos (size rb) (start rb) (avail rb) ∧
    rb_contents rb = x :: rb_contents rb'.
Proof.
  intros (Hlen & Hsz & Hst & Hav) Hne Hse. unfold get_head, aget.
  rewrite (proj2 (Z.leb_le _ _)) by lia.
  rewrite (list_lookup_lookup_total_lt (buf rb)) by lia. simpl.
  rewrite (wrap_small 32 (avail rb - 1)), (wrap_small 32 (start rb + 1)) by (unfold uint; lia).
  eexists _, _. split; [done|]. split; [unfold rb_wf; simpl; ztest|].
  split; [done|]. split; [done|]. split; [unfold pop_pos, next_pos; simpl; ztest|].
  destruct (rb_contents rb) as [|y l] eqn:Hc;
    [apply (f_equal length) in Hc; rewrite rb_contents_length in Hc; simpl in Hc; lia|].
  pose proof (rb_contents_lookup rb 0) as Hl. rewrite Hc in Hl. simpl in Hl.
  rewrite Z.add_0_r, Z.mod_small in Hl by lia. specialize (Hl ltac:(lia)). injection Hl as ->.
  f_equal. change l with (tail (buf rb !!! Z.to_nat (start rb) :: l)). rewrite <- Hc.
  destruct rb as [b sz st av]; simpl in *.
  rewrite <- (rb_contents_drop b sz st av 1) by
    (ztest; right; rewrite ?Zmod_0_l, ?e, ?Z_mod_same_full; done).
  by destruct (rb_contents _).
Qed.

(** At the end of the array, the first character is read outside it. *)
Lemma get_head_overrun rb : rb_wf rb → start rb = size rb → get_head rb = None.
Proof.
  intros (Hlen & Hsz & _) Hst. unfold get_head, aget. rewrite Hst, (proj2 (Z.leb_le 0 (size rb))) by lia.
  by rewrite lookup_ge_None_2 by lia.
Qed.

Lemma ringbuffer_full_spec rb :
  rb_wf rb → ringbuffer_full rb = bool_decide (length (rb_contents rb) = length (buf rb)).
Proof.
  intros (Hlen & _ & _ & Hav). unfold ringbuffer_full. rewrite rb_contents_length.
  destruct (Z.eqb_spec (avail rb) (size rb)); symmetry;
    [apply bool_decide_eq_true_2|apply bool_decide_eq_false_2]; lia.
Qed.

Lemma ringbuffer_empty_spec rb :
  rb_wf rb → ringbuffer_empty rb = bool_decide (rb_contents rb = []).
Proof.
  intros (_ & _ & _ & Hav). unfold ringbuffer_empty.
  pose proof (rb_contents_length rb) as Hl.
  destruct (Z.eqb_spec (avail rb) 0); symmetry;
    [apply bool_decide_eq_true_2, nil_length_inv|
     apply bool_decide_eq_false_2; intros Hn; rewrite Hn in Hl; simpl in Hl]; lia.
Qed.

Lemma ringbuffer_add_spec rb b :
  rb_wf rb →
  let room := (length (buf rb) - length (rb_contents rb))%nat in
  ∃ rb', ringbuffer_add rb b = Some (Z.of_nat (length b `min` room), rb') ∧
    rb_wf rb' ∧ length (buf rb') = length (buf rb) ∧ start rb' = start rb ∧
    rb_contents rb' = rb_contents rb ++ take room b.
Proof.
  revert rb. induction b as [|c b IH]; intros rb Hwf; simpl.
  { exists rb. by rewrite take_nil, app_nil_r. }
  pose proof Hwf as (Hlen & Hsz & Hst & Hav).
  unfold ringbuffer_full. rewrite rb_contents_length.
  destruct (Z.eqb_spec (avail rb) (size rb)) as [Hf|Hf].
  { exists rb. replace (length (buf rb) - _)%nat with 0%nat by lia.
    by rewrite app_nil_r. }
  destruct (add_tail_spec rb c Hwf) as (rb1 & -> & Hwf1 & Hs1 & Ha1 & Hp1 & Hc1); [lia|].
  simpl. destruct (IH rb1 Hwf1) as (rb2 & -> & Hwf2 & Hl2 & Hp2 & Hc2).
  pose proof Hwf1 as (Hlen1 & _). rewrite rb_contents_length in *. simpl.
  replace (length (buf rb) - Z.to_nat (avail rb))%nat
    with (S (length (buf rb1) - Z.to_nat (avail rb1))) by lia.
  exists rb2. split; [do 2 f_equal; lia|]. split; [done|]. split; [lia|]. split; [congruence|].
  by rewrite Hc2, Hc1, <- app_assoc.
Qed.

Lemma ringbuffer_add_one_spec rb c :
  rb_wf rb → (ringbuffer_full rb = true → start rb ≠ size rb) →
  ∃ rb', rb_wf rb' ∧ length (buf rb') = length (buf rb) ∧
    start rb' = (if ringbuffer_full rb then pop_pos (size rb) (start rb) (avail rb) else start rb) ∧
    (if ringbuffer_full rb
     then ∃ x l, rb_contents rb = x :: l ∧
            ringbuffer_add_one rb c = Some (u8 x, rb') ∧ rb_contents rb' = l ++ [c]
     else ringbuffer_add_one rb c = Some (-1, rb') ∧ rb_contents rb' = rb_contents rb ++ [c]).
Proof.
  intros Hwf Hse. pose proof Hwf as (Hlen & Hsz & Hst & Hav).
  unfold ringbuffer_add_one, ringbuffer_full in *. destruct (Z.eqb_spec (avail rb) (size rb)).
  - destruct (get_head_spec rb Hwf) as (x & rb1 & -> & Hwf1 & Hs1 & Ha1 & Hp1 & Hc1); [lia|auto|].
    simpl. destruct (add_tail_spec rb1 c Hwf1) as (rb2 & -> & Hwf2 & Hs2 & _ & Hp2 & Hc2); [lia|].
    pose proof Hwf2 as (Hl2 & _). exists rb2. simpl. split; [done|]. split; [lia|]. split; [congruence|].
    by exists x, (rb_contents rb1).
  - simpl. destruct (add_tail_spec rb c Hwf) as (rb2 & -> & Hwf2 & Hs2 & _ & Hp2 & Hc2); [lia|].
    pose proof Hwf2 as (Hl2 & _). exists rb2. simpl. split; [done|]. split; [lia|done].
Qed.

Lemma ringbuffer_get_one_spec rb :
  rb_wf rb → (avail rb ≠ 0 → start rb ≠ size rb) →
  ∃ rb', rb_wf rb' ∧ length (buf rb') = length (buf rb) ∧
    start rb' = (if avail rb =? 0 then start rb else pop_pos (size rb) (start rb) (avail rb)) ∧
    ringbuffer_get_one rb = Some (default (-1) (u8 <$> head (rb_contents rb)), rb') ∧
    rb_contents rb' = tail (rb_contents rb).
Proof.
  intros Hwf Hse. pose proof Hwf as (Hlen & Hsz & Hst & Hav). unfold ringbuffer_get_one, ringbuffer_empty.
  destruct (Z.eqb_spec (avail rb) 0) as [H0|H0]; simpl.
  - assert (rb_contents rb = []) as Hc by (apply nil_length_inv; by rewrite rb_contents_length, H0).
    exists rb. by rewrite Hc.
  - destruct (get_head_spec rb Hwf) as (x & rb1 & -> & Hwf1 & Hs1 & Ha1 & Hp1 & Hc1); [lia|auto|].
    simpl. pose proof Hwf1 as (Hl1 & _). exists rb1. rewrite Hc1. simpl.
    split; [done|]. split; [lia|done].
Qed.

Lemma ringbuffer_get_spec rb n :
  rb_wf rb → 0 ≤ n →
  ∃ rb', rb_wf rb' ∧ length (buf rb') = length (buf rb) ∧
    start rb' = (let m := n `min` avail rb in if m =? 0 then start rb else next_pos (size rb) (start rb) m) ∧
    ringbuffer_get rb n = Some (take (Z.to_nat n) (rb_contents rb), rb') ∧
    rb_contents rb' = drop (Z.to_nat n) (rb_contents rb).
Proof.
  intros Hwf Hn. pose proof Hwf as (Hlen & Hsz & Hst & Hav). unfold ringbuffer_get.
  set (m := if avail rb <? n then _ else _).
  assert (0 ≤ m ≤ avail rb ∧ (m = n ∨ avail rb ≤ n ∧ m = avail rb)) as [Hm Hmn]
    by (unfold m; ztest).
  assert (n `min` avail rb = m) as -> by lia. cbv zeta.
  assert (take (Z.to_nat n) (rb_contents rb) = take (Z.to_nat m) (rb_contents rb)) as ->.
  { destruct Hmn as [->|[? ->]]; [done|]. rewrite !take_ge; rewrite ?rb_contents_length; lia || done. }
  assert (drop (Z.to_nat n) (rb_contents rb) = drop (Z.to_nat m) (rb_contents rb)) as ->.
  { destruct Hmn as [->|[? ->]]; [done|]. rewrite !drop_ge; rewrite ?rb_contents_length; lia || done. }
  clearbody m. clear Hmn Hn n. destruct (Z.ltb_spec 0 m); simpl.
  2: { exists rb. replace m with 0 by lia. by rewrite take_0, drop_0. }
  rewrite (proj2 (Z.eqb_neq m 0)) by lia.
  rewrite (wrap_small 32 (size rb - start rb)) by (unfold uint; lia).
  rewrite (wrap_small 32 (start rb + m)) by (unfold uint; lia).
  rewrite (wrap_small 32 (avail rb - m)) by (unfold uint; lia).
  destruct (Z.leb_spec m (size rb - start rb)).
  - destruct (copy_out_ok (buf rb) (start rb) m) as (out & Hout & Hol); [lia..|].
    rewrite Hout. simpl. eexists. split; [|split; [|split; [|split; [f_equal; f_equal|]]]].
    + unfold rb_wf; simpl. ztest.
    + done.
    + unfold next_pos; simpl. ztest.
    + symmetry. apply list_eq_same_length with (n := Z.to_nat m);
        [done|rewrite length_take, rb_contents_length; lia|].
      intros i x y Hi Hx Hy. rewrite lookup_take_lt in Hx by lia.
      rewrite <- (rb_copy_lookup rb (start rb) m out i i) in Hx; [congruence|done..|lia|lia|lia|].
      rewrite mod_once by lia. ztest.
    + symmetry. destruct rb as [b sz st av]; simpl in *. apply rb_contents_drop; [lia|].
      destruct (Z.eqb_spec (sz - st) m) as [<-|]; [right|by right].
      rewrite Zplus_minus, Z_mod_same_full. apply Zmod_0_l.
  - destruct (copy_out_ok (buf rb) (start rb) (size rb - start rb)) as (o1 & Ho1 & Hl1); [lia..|].
    rewrite (wrap_small 32 (m - _)) by (unfold uint; lia).
    destruct (copy_out_ok (buf rb) 0 (m - (size rb - start rb))) as (o2 & Ho2 & Hl2); [lia..|].
    rewrite Ho1, Ho2. simpl. eexists. split; [|split; [|split; [|split; [f_equal; f_equal|]]]].
    + unfold rb_wf; simpl. lia.
    + done.
    + unfold next_pos; simpl. ztest.
    + symmetry. apply list_eq_same_length with (n := Z.to_nat m);
        [rewrite length_app; lia|rewrite length_take, rb_contents_length; lia|].
      intros i x y Hi Hx Hy. rewrite lookup_take_lt in Hx by lia.
      destruct (decide (i < length o1)%nat).
      * rewrite lookup_app_l in Hy by done.
        rewrite <- (rb_copy_lookup rb (start rb) (size rb - start rb) o1 i i) in Hx; [congruence|done..|lia|lia|lia|lia|].
        rewrite mod_once by lia. ztest.
      * rewrite lookup_app_r in Hy by lia.
        rewrite <- (rb_copy_lookup rb 0 (m - (size rb - start rb)) o2 (i - length o1) i) in Hx; [congruence|done..|lia|lia|lia|lia|].
        rewrite mod_once by lia. ztest.
    + symmetry. destruct rb as [b sz st av]; simpl in *. apply rb_contents_drop; [lia|right].
      replace (st + m) with (m - (sz - st) + 1 * sz) by lia. by rewrite Z_mod_plus_full.
Qed.

(** The position after removing [n] characters: only one beyond the end of the
    array is moved back. *)
Definition remove_pos (cap pos avail n : Z) : Z :=
  if avail <? n then 0 else if cap <? pos + n then pos + n - cap else pos + n.

Lemma ringbuffer_remove_spec rb n :
  rb_wf rb → 0 ≤ n →
  ∃ rb', rb_wf rb' ∧ length (buf rb') = length (buf rb) ∧
    start rb' = remove_pos (size rb) (start rb) (avail rb) n ∧
    ringbuffer_remove rb n = (n `min` avail rb, rb') ∧
    rb_contents rb' = drop (Z.to_nat n) (rb_contents rb).
Proof.
  intros Hwf Hn. pose proof Hwf as (Hlen & Hsz & Hst & Hav). unfold ringbuffer_remove, remove_pos.
  destruct (Z.ltb_spec (avail rb) n).
  - eexists. split; [|split; [|split; [|split; [f_equal; lia|]]]].
    + unfold rb_wf; simpl; lia.
    + done.
    + done.
    + rewrite drop_ge by (rewrite rb_contents_length; lia). done.
  - rewrite (wrap_small 32 (start rb + n)) by (unfold uint; lia).
    rewrite (wrap_small 32 (avail rb - n)) by (unfold uint; lia).
    eexists. split; [|split; [|split; [|split; [f_equal; lia|]]]].
    + unfold rb_wf; simpl. destruct (Z.ltb_spec (size rb) (start rb + n)); [|lia].
      rewrite wrap_small by (unfold uint; lia). lia.
    + done.
    + simpl. destruct (Z.ltb_spec (size rb) (start rb + n)); [|done]. by rewrite wrap_small by (unfold uint; lia).
    + symmetry. destruct rb as [b sz st av]; simpl in *.
      apply rb_contents_drop; [lia|right].
      destruct (Z.ltb_spec sz (st + n)); [|done].
      rewrite wrap_small by (unfold uint; lia).
      by rewrite <- (Z_mod_plus_full (st + n - sz) 1 sz), Z.mul_1_l, Z.sub_add.
Qed.

(** When characters remain and the new start is exactly [size], the code leaves
    [start = size]: the next read is outside the array. *)
Theorem ringbuffer_remove_start_overrun rb n :
  rb_wf rb → 0 ≤ n < avail rb → start rb + n = size rb →
  ∃ rb', ringbuffer_remove rb n = (n, rb') ∧ start rb' = size rb' ∧
    ringbuffer_get_one rb' = None.
Proof.
  intros (Hlen & Hsz & Hst & Hav) Hn Heq. unfold ringbuffer_remove.
  destruct (Z.ltb_spec (avail rb) n); [lia|]. rewrite Heq.
  rewrite (wrap_small 32 (size rb)), (wrap_small 32 (avail rb - n)) by (unfold uint; lia).
  rewrite Z.ltb_irrefl. eexists. split; [done|]. split; [done|].
  unfold ringbuffer_get_one, ringbuffer_empty, get_head, aget. simpl.
  destruct (Z.eqb_spec (avail rb - n) 0); [lia|]. simpl.
  destruct (Z.leb_spec 0 (size rb)); [|lia]. by rewrite lookup_ge_None_2 by lia.
Qed.

Lemma ringbuffer_remove_start_overrun_witness :
  ∃ rb', ringbuffer_remove (Rb [1; 2; 3; 4] 4 2 3) 2 = (2, rb') ∧ start rb' = size rb' ∧
    ringbuffer_get_one rb' = None.
Proof.
  apply (ringbuffer_remove_start_overrun (Rb [1; 2; 3; 4] 4 2 3) 2);
    [unfold rb_wf; simpl; lia|simpl; lia|reflexivity].
Defined.

(** ** Histories *)

Inductive rb_op :=
| OAdd (b : list Z) | OAddOne (c : Z) | OGetOne | OGet (n : Z) | ORemove (n : Z) | OPeekOne | OPeek (n : Z) | OFree.

Inductive rb_result := RInt (r : Z) | RBytes (b : list Z).

(** A call: its result and the buffer after it; [None] if an access is out of
    bounds. *)
Definition rb_step (rb : ringbuffer_t) (op : rb_op) : option (rb_result * ringbuffer_t) :=
  match op with
  | OAdd b => '(i, rb') ← ringbuffer_add rb b; Some (RInt i, rb')
  | OAddOne c => '(i, rb') ← ringbuffer_add_one rb c; Some (RInt i, rb')
  | OGetOne => '(i, rb') ← ringbuffer_get_one rb; Some (RInt i, rb')
  | OGet n => '(o, rb') ← ringbuffer_get rb n; Some (RBytes o, rb')
  | ORemove n => let '(i, rb') := ringbuffer_remove rb n in Some (RInt i, rb')
  | OPeekOne => i ← ringbuffer_peek_one rb; Some (RInt i, rb)
  | OPeek n => o ← ringbuffer_peek rb n; Some (RBytes o, rb)
  | OFree => Some (RInt (ringbuffer_get_free rb), rb)
  end.

Fixpoint rb_run (rb : ringbuffer_t) (ops : list rb_op) : option (list rb_result) :=
  match ops with
  | [] => Some []
  | op :: ops' =>
      '(r, rb') ← rb_step rb op;
      rs ← rb_run rb' ops';
      Some (r :: rs)
  end.

(** The specification: a list of at most [cap] characters. *)
Definition spec_step (cap : nat) (l : list Z) (op : rb_op) : rb_result * list Z :=
  match op with
  | OAdd b => let room := (cap - length l)%nat in
              (RInt (Z.of_nat (length b `min` room)), l ++ take room b)
  | OAddOne c => if bool_decide (length l = cap)
                 then (RInt (default (-1) (u8 <$> head l)), tail l ++ [c])
                 else (RInt (-1), l ++ [c])
  | OGetOne => (RInt (default (-1) (u8 <$> head l)), tail l)
  | OGet n => (RBytes (take (Z.to_nat n) l), drop (Z.to_nat n) l)
  | ORemove n => (RInt (n `min` Z.of_nat (length l)), drop (Z.to_nat n) l)
  | OPeekOne => (RInt (default (-1) (u8 <$> head l)), l)
  | OPeek n => (RBytes (take (Z.to_nat n) l), l)
  | OFree => (RInt (Z.of_nat cap - Z.of_nat (length l)), l)
  end.

Fixpoint spec_run (cap : nat) (l : list Z) (ops : list rb_op) : list rb_result :=
  match ops with
  | [] => []
  | op :: ops' => let '(r, l') := spec_step cap l op in r :: spec_run cap l' ops'
  end.

(** Where the first of [len] characters is read, from the position [pos]: [None] at
    the end of the array. *)
Definition pop (cap pos len : Z) : option Z :=
  if len =? 0 then Some pos else if pos =? cap then None else Some (pop_pos cap pos len).

(** The position of the first character after an operation; [None] if the
    operation reads the character at the end of the array. *)
Definition pos_step (cap pos len : Z) (op : rb_op) : option Z :=
  match op with
  | OAdd _ | OPeek _ | OFree => Some pos
  | OAddOne _ => if len =? cap then pop cap pos len else Some pos
  | OGetOne => pop cap pos len
  | OGet n => Some (let m := n `min` len in if m =? 0 then pos else next_pos cap pos m)
  | ORemove n => Some (remove_pos cap pos len n)
  | OPeekOne => _ ← pop cap pos len; Some pos
  end.

Fixpoint in_bounds (cap : nat) (pos : Z) (l : list Z) (ops : list rb_op) : bool :=
  match ops with
  | [] => true
  | op :: ops' =>
      match pos_step (Z.of_nat cap) pos (Z.of_nat (length l)) op with
      | None => false
      | Some pos' => in_bounds cap pos' (spec_step cap l op).2 ops'
      end
  end.

(** Sizes passed by a C caller are unsigned. *)
Definition op_ok (op : rb_op) : Prop :=
  match op with OGet n | OPeek n | ORemove n => 0 ≤ n | _ => True end.

Definition is_remove (op : rb_op) : bool := match op with ORemove _ => true | _ => false end.

(** One operation: it is out of bounds exactly when the position says so, and else
    does what the specification does. *)
Lemma rb_step_spec op rb : rb_wf rb → op_ok op →
  let cap := length (buf rb) in let l := rb_contents rb in
  match pos_step (Z.of_nat cap) (start rb) (Z.of_nat (length l)) op with
  | None => rb_step rb op = None
  | Some pos' => ∃ rb', rb_step rb op = Some ((spec_step cap l op).1, rb') ∧ rb_wf rb' ∧ length (buf rb') = cap ∧
      start rb' = pos' ∧ rb_contents rb' = (spec_step cap l op).2
  end.
Proof.
  intros Hwf Hop cap l. pose proof Hwf as (Hlen & Hsz & Hst & Hav).
  assert (Z.of_nat (length l) = avail rb) as Hl by (unfold l; rewrite rb_contents_length; lia).
  assert (Z.of_nat cap = size rb) as Hcap by done. unfold pos_step. rewrite Hl, Hcap.
  assert (avail rb ≠ 0 → start rb = size rb → ringbuffer_get_one rb = None) as Hover.
  { intros H0 Hs. unfold ringbuffer_get_one, ringbuffer_empty. rewrite (proj2 (Z.eqb_neq _ _) H0). cbn [negb].
    by rewrite get_head_overrun. }
  assert (∀ P : option Z → Prop, (avail rb = 0 → P (Some (start rb))) →
    (avail rb ≠ 0 → start rb = size rb → P None) →
    (avail rb ≠ 0 → start rb ≠ size rb → P (Some (pop_pos (size rb) (start rb) (avail rb)))) →
    P (pop (size rb) (start rb) (avail rb))) as Hpop.
  { intros P P1 P2 P3. unfold pop. destruct (Z.eqb_spec (avail rb) 0), (Z.eqb_spec (start rb) (size rb)); auto. }
  destruct op as [b|c| |n|n| |n|]; cbn [rb_step spec_step op_ok] in *.
  - destruct (ringbuffer_add_spec rb b Hwf) as (rb' & -> & H1 & H2 & H3 & H4). by exists rb'.
  - pose proof (ringbuffer_full_spec rb Hwf) as Hfull. fold l cap in Hfull. unfold ringbuffer_full in Hfull.
    pose proof (ringbuffer_add_one_spec rb c Hwf) as Hone. unfold ringbuffer_full in Hone.
    destruct (Z.eqb_spec (avail rb) (size rb)) as [Hf|Hf]; rewrite <- Hfull.
    + apply Hpop; [lia| |].
      * intros _ Hs. unfold ringbuffer_add_one, ringbuffer_full.
        by rewrite (proj2 (Z.eqb_eq _ _) Hf), get_head_overrun.
      * intros _ Hs. destruct Hone as (rb' & H1 & H2 & H3 & x & l' & Hc & -> & H4); [done|].
        fold l in Hc. rewrite Hc. by exists rb'.
    + destruct Hone as (rb' & H1 & H2 & H3 & -> & H4); [done|]. by exists rb'.
  - apply Hpop.
    + intros H0. destruct (ringbuffer_get_one_spec rb Hwf) as (rb' & H1 & H2 & H3 & -> & H4); [done|].
      rewrite H0 in H3. by exists rb'.
    + intros H0 Hs. by rewrite Hover.
    + intros H0 Hs. destruct (ringbuffer_get_one_spec rb Hwf) as (rb' & H1 & H2 & H3 & -> & H4); [done|].
      rewrite (proj2 (Z.eqb_neq _ _) H0) in H3. by exists rb'.
  - destruct (ringbuffer_get_spec rb n Hwf Hop) as (rb' & H1 & H2 & H3 & -> & H4). by exists rb'.
  - destruct (ringbuffer_remove_spec rb n Hwf Hop) as (rb' & H1 & H2 & H3 & -> & H4). exists rb'. by rewrite Hl.
  - unfold ringbuffer_peek_one. apply Hpop.
    + intros H0. destruct (ringbuffer_get_one_spec rb Hwf) as (rb' & _ & _ & _ & -> & _); [done|]. by exists rb.
    + intros H0 Hs. by rewrite Hover.
    + intros H0 Hs. destruct (ringbuffer_get_one_spec rb Hwf) as (rb' & _ & _ & _ & -> & _); [done|]. by exists rb.
  - unfold ringbuffer_peek. destruct (ringbuffer_get_spec rb n Hwf Hop) as (rb' & _ & _ & _ & -> & _). by exists rb.
  - exists rb. unfold ringbuffer_get_free. rewrite wrap_small by (unfold uint; lia). by rewrite Hl, Hcap.
Qed.

Lemma rb_run_spec ops : ∀ rb, rb_wf rb → Forall op_ok ops →
  rb_run rb ops = if in_bounds (length (buf rb)) (start rb) (rb_contents rb) ops
                  then Some (spec_run (length (buf rb)) (rb_contents rb) ops) else None.
Proof.
  induction ops as [|op ops IH]; intros rb Hwf Hops; [done|]. apply Forall_cons in Hops as [Hop Hops].
  cbn [rb_run in_bounds spec_run]. pose proof (rb_step_spec op rb Hwf Hop) as Hstep. cbn zeta in Hstep.
  destruct (pos_step _ _ _ op) as [pos'|]; [|by rewrite Hstep].
  destruct Hstep as (rb' & -> & Hwf' & Hl & <- & Hc). mred. rewrite (IH rb' Hwf' Hops), Hl, Hc.
  destruct (spec_step _ _ op) as [r l']. cbn [fst snd]. by destruct (in_bounds _ _ _ _).
Qed.

Lemma spec_step_length cap l op : (length l ≤ cap)%nat → (0 < cap)%nat → (length (spec_step cap l op).2 ≤ cap)%nat.
Proof.
  intros Hl Hc. destruct op; cbn [spec_step snd]; try done.
  - rewrite length_app, length_take. lia.
  - case_bool_decide; cbn [snd]; rewrite length_app, ?length_tl; cbn [length]; lia.
  - rewrite length_tl. lia.
  - rewrite length_drop. lia.
  - rewrite length_drop. lia.
Qed.

(** Only removing leads to the end of the array. *)
Lemma in_bounds_no_remove cap ops : ∀ pos l, (length l ≤ cap)%nat → 0 ≤ pos < Z.of_nat cap →
  Forall op_ok ops → Forall (λ op, is_remove op = false) ops → in_bounds cap pos l ops = true.
Proof.
  induction ops as [|op ops IH]; intros pos l Hl Hp Hok Hno; [done|]. cbn [in_bounds].
  apply Forall_cons in Hok as [Hop Hok]. apply Forall_cons in Hno as [Hr Hno].
  assert (∃ pos', pos_step (Z.of_nat cap) pos (Z.of_nat (length l)) op = Some pos' ∧ 0 ≤ pos' < Z.of_nat cap) as (pos' & -> & Hp').
  { destruct op; cbn [pos_step op_ok is_remove] in *; try done; unfold pop, pop_pos, next_pos;
      repeat (case_match || ztest); simplify_eq/=; try (eexists; split; [reflexivity|]); repeat (case_match || ztest); lia. }
  apply IH; [apply spec_step_length; lia|done..].
Qed.

(** C31: Every sequence of operations on a freshly initialised ring buffer returns what
    a bounded FIFO of characters returns, unless it reads outside the array, which
    happens exactly when a single character is got, peeked or overwritten while the
    position of the first one is at the end of the array; without removals it never
    is. *)
Theorem ringbuffer_refines_fifo b ops :
  (0 < length b)%nat → Z.of_nat (length b) < 2 ^ 31 → Forall op_ok ops →
  rb_run (ringbuffer_init b (Z.of_nat (length b))) ops =
    (if in_bounds (length b) 0 [] ops then Some (spec_run (length b) [] ops) else None) ∧
  (Forall (λ op, is_remove op = false) ops → in_bounds (length b) 0 [] ops = true).
Proof.
  intros Hb Hmax Hops. split.
  - rewrite rb_run_spec; [done| |done]. unfold rb_wf; simpl. lia.
  - intros Hno. apply in_bounds_no_remove; [cbn; lia|lia|done|done].
Qed.

(** Removing within the array, and past its end. *)
Definition demo_ops : list rb_op :=
  [OAdd [1; 2]; OGetOne; OAdd [3; 4; 5]; OAddOne 9; OPeek 2; ORemove 2; OFree; OGet 7; OGetOne].

Lemma ringbuffer_refines_fifo_witness :
  rb_run (ringbuffer_init [0; 0; 0] 3) demo_ops = Some (spec_run 3 [] demo_ops) ∧
  rb_run (ringbuffer_init [0; 0; 0] 3) [OAdd [1; 2; 3]; ORemove 3; OAdd [4]; OPeekOne] = None.
Proof.
  destruct (ringbuffer_refines_fifo [0; 0; 0] demo_ops) as [H1 _];
    [simpl; lia|simpl; lia|repeat constructor; simpl; lia|].
  destruct (ringbuffer_refines_fifo [0; 0; 0] [OAdd [1; 2; 3]; ORemove 3; OAdd [4]; OPeekOne]) as [H2 _];
    [simpl; lia|simpl; lia|repeat constructor; simpl; lia|].
  split; [exact H1|exact H2].
Defined.
