(* ===== verification/LinkedList.v ===== *)
(** * Intrusive singly linked lists (core/include/list.h)

    List nodes are embedded in other objects and hold one pointer.  A heap maps
    a node address to the contents of its [next] field; the null pointer is
    [None].  Every operation is a partial function on heaps: [None] is the
    access to an address that is no node. *)

From S2P Require Import Prelude.

Section Heap.
Context {K : Type} `{Countable K}.

Abbreviation heap := (gmap K (option K)).
Implicit Types (h : heap) (k x y root : K) (l : list K) (z : option K).

(** [p->next = v]. *)
Definition set_next h k (v : option K) : option heap :=
  match h !! k with Some _ => Some (<[k := v]> h) | None => None end.

(** [p->next]. *)
Definition get_next h k : option (option K) := h !! k.

(** The truth value of a pointer. *)
Definition notnull (p : option K) : bool :=
  match p with Some _ => true | None => false end.

(** ** list.h *)

Definition list_add h (node new_node : K) : option heap :=
  nx ← get_next h node;
  h ← set_next h new_node nx;
  set_next h node (Some new_node).

Definition list_remove_head h (list : K) : option (option K * heap) :=
  head ← get_next h list;
  match head with
  | Some hd => nx ← get_next h hd; h' ← set_next h list nx; Some (Some hd, h')
  | None => Some (None, h)
  end.

(** The loop of [list_remove]; [fuel] bounds the number of nodes visited. *)
Fixpoint list_remove_loop (fuel : nat) h (list node : K) : option (option K * heap) :=
  match fuel with
  | O => None
  | S fuel =>
      nx ← get_next h list;
      match nx with
      | None => Some (None, h)
      | Some n =>
          if decide (n = node)
          then nn ← get_next h node; h' ← set_next h list nn; Some (Some node, h')
          else list_remove_loop fuel h n node
      end
  end.

Definition list_remove h (list node : K) : option (option K * heap) :=
  list_remove_loop (S (size h)) h list node.

(** ** Chains of nodes *)

(** [chain h l z]: the nodes of [l] are linked in order and the last one points
    to [z]. *)
Fixpoint chain h (l : list K) (z : option K) : Prop :=
  match l with
  | [] => True
  | x :: l' => h !! x = Some (match l' with [] => z | y :: _ => Some y end) ∧ chain h l' z
  end.

(** The address a chain starts at. *)
Definition first (l : list K) (z : option K) : option K :=
  match l with [] => z | x :: _ => Some x end.

(** A null-terminated list hanging off the anchor [root]. *)
Definition slist h root (l : list K) : Prop :=
  h !! root = Some (head l) ∧ chain h l None ∧ NoDup (root :: l).

Lemma first_None l : first l None = head l.
Proof. by destruct l. Qed.

Lemma first_head l : first l (head l) = head l.
Proof. by destruct l. Qed.

Lemma chain_cons h x l z : chain h (x :: l) z ↔ h !! x = Some (first l z) ∧ chain h l z.
Proof. done. Qed.

#[local] Arguments chain : simpl never.

Lemma first_app l1 l2 z : first (l1 ++ l2) z = first l1 (first l2 z).
Proof. by destruct l1. Qed.

Lemma chain_app h l1 l2 z :
  chain h (l1 ++ l2) z ↔ chain h l1 (first l2 z) ∧ chain h l2 z.
Proof.
  induction l1 as [|x l1 IH]; [by split; [|intros []]|].
  change ((x :: l1) ++ l2) with (x :: (l1 ++ l2)).
  rewrite !chain_cons, IH, first_app. tauto.
Qed.

(** A chain only depends on the cells of its nodes. *)
Lemma chain_frame h h' l z :
  (∀ x, x ∈ l → h' !! x = h !! x) → chain h l z → chain h' l z.
Proof.
  induction l as [|x l IH]; [done|]. intros Hf [Hx Hl].
  rewrite chain_cons. split; [rewrite Hf by (by left); done|].
  apply IH; [|done]. intros y Hy. apply Hf. by right.
Qed.

Lemma chain_insert_ne h k v l z : k ∉ l → chain h l z → chain (<[k := v]> h) l z.
Proof.
  intros Hk. apply chain_frame. intros x Hx. apply lookup_insert_ne. by intros ->.
Qed.

(** Redirecting the end of a chain. *)
Lemma chain_snoc_set h l x z z' :
  x ∉ l → chain h (l ++ [x]) z → chain (<[x := z']> h) (l ++ [x]) z'.
Proof.
  rewrite !chain_app. simpl. intros Hx [Hl _].
  split; [by apply chain_insert_ne|]. by rewrite chain_cons, lookup_insert_eq.
Qed.

Lemma chain_snoc_lookup h l x z : chain h (l ++ [x]) z → h !! x = Some z.
Proof. rewrite chain_app. by intros [_ [? _]]. Qed.

Lemma chain_in_dom h l z x : chain h l z → x ∈ l → ∃ v, h !! x = Some v.
Proof.
  induction l as [|y l IH]; [by rewrite elem_of_nil|].
  rewrite chain_cons, elem_of_cons. intros [Hy Hl] [->|Hx]; [by eexists|]. by apply IH.
Qed.

(** A duplicate-free chain is no longer than the heap is large: the fuel of the
    traversals suffices. *)
Lemma chain_size h l z : chain h l z → NoDup l → (length l ≤ size h)%nat.
Proof.
  intros Hc Hnd. rewrite <- (size_list_to_set (C := gset K) l) by done.
  rewrite <- size_dom. apply subseteq_size. intros x Hx%elem_of_list_to_set.
  apply elem_of_dom. by apply (chain_in_dom h l z).
Qed.

Lemma slist_frame h h' root l :
  (∀ x, x ∈ root :: l → h' !! x = h !! x) → slist h root l → slist h' root l.
Proof.
  intros Hf (Hr & Hc & Hnd). split; [|split; [|done]].
  - rewrite Hf by (by left). done.
  - apply (chain_frame h); [|done]. intros x Hx. apply Hf. by right.
Qed.

Lemma slist_empty h root : h !! root = Some None → slist h root [].
Proof. intros. split; [done|split; [done|]]. apply NoDup_singleton. Qed.

Lemma set_next_ok h k v v' : h !! k = Some v → set_next h k v' = Some (<[k := v']> h).
Proof. intros Hk. unfold set_next. by rewrite Hk. Qed.

Lemma set_next_dom h k v h' : set_next h k v = Some h' → dom h' = dom h.
Proof.
  unfold set_next. destruct (h !! k) eqn:Hk; [|done]. intros [= <-].
  rewrite dom_insert_lookup_L; [done|by eexists].
Qed.

(** ** The operations of list.h on list-shaped heaps *)

(** Inserting after a prefix of the list, the situation of every user of
    [list_add] and of the ordered insertions. *)
Lemma slist_insert h root l1 l2 new v :
  slist h root (l1 ++ l2) → h !! new = Some v → new ∉ root :: l1 ++ l2 →
  let prev := default root (last l1) in
  slist (<[prev := Some new]> (<[new := first l2 None]> h)) root (l1 ++ new :: l2).
Proof.
  intros (Hr & Hc & Hnd) Hv Hnew prev.
  apply not_elem_of_cons in Hnew as [Hnr Hnl].
  pose proof Hnl as [Hn1 Hn2]%not_elem_of_app.
  apply NoDup_cons in Hnd as [Hrl Hnd]. rewrite not_elem_of_app in Hrl. destruct Hrl as [Hr1 Hr2].
  apply NoDup_app in Hnd as (Hnd1 & Hd & Hnd2).
  apply chain_app in Hc as [Hc1 Hc2].
  assert (NoDup (root :: l1 ++ new :: l2)) as HND.
  { apply NoDup_cons. rewrite not_elem_of_app, not_elem_of_cons. split; [done|].
    apply NoDup_app. split; [done|]. split.
    - intros x Hx. rewrite not_elem_of_cons. split; [by intros ->|by apply Hd].
    - by apply NoDup_cons. }
  destruct l1 as [|a l1 _] using rev_ind; simpl in prev; subst prev; simpl.
  - split; [by rewrite lookup_insert_eq|split; [|done]].
    rewrite chain_cons, lookup_insert_ne, lookup_insert_eq by done.
    split; [done|]. by do 2 (apply chain_insert_ne; [done|]).
  - rewrite last_snoc. simpl. rewrite elem_of_app, list_elem_of_singleton in Hr1, Hn1.
    assert (a ∉ l1) by (apply NoDup_app in Hnd1 as (_ & Hx & _); intros Ha;
      apply (Hx a Ha); by left).
    assert (a ∉ l2) by (apply Hd; apply elem_of_app; right; by left).
    split; [|split; [|done]].
    + rewrite !lookup_insert_ne by naive_solver. rewrite Hr. by destruct l1.
    + apply chain_app. split.
      * apply (chain_snoc_set _ _ _ (first l2 None)); [done|].
        apply chain_insert_ne; [|done]. rewrite elem_of_app, list_elem_of_singleton. done.
      * rewrite chain_cons. rewrite lookup_insert_ne, lookup_insert_eq by naive_solver.
        split; [done|]. by do 2 (apply chain_insert_ne; [done|]).
Qed.

Lemma slist_prev_lookup h root l1 l2 :
  slist h root (l1 ++ l2) → h !! (default root (last l1)) = Some (head l2).
Proof.
  intros (Hr & Hc & _). destruct l1 as [|a l1 _] using rev_ind; simpl; [done|].
  rewrite last_snoc. simpl. apply chain_app in Hc as [Hc _].
  rewrite (chain_snoc_lookup _ _ _ _ Hc). by destruct l2.
Qed.

Lemma list_remove_loop_dom fuel h list node r h' :
  list_remove_loop fuel h list node = Some (r, h') → dom h' = dom h.
Proof.
  revert list. induction fuel as [|fuel IH]; intros list Hr; simpl in Hr; [done|].
  destruct (get_next h list) as [[n|]|]; simpl in Hr; [|by injection Hr as _ <-|done].
  case_decide; [|by apply (IH n)].
  destruct (get_next h node) as [nn|]; simpl in Hr; [|done].
  destruct (set_next h list nn) as [h1|] eqn:Hset; simpl in Hr; [|done]. injection Hr as _ <-.
  by apply set_next_dom in Hset.
Qed.

Lemma list_remove_head_spec h root l :
  slist h root l →
  ∃ h', list_remove_head h root = Some (head l, h') ∧ slist h' root (tail l) ∧
    (∀ x, x ≠ root → h' !! x = h !! x).
Proof.
  intros (Hr & Hc & Hnd). unfold list_remove_head, get_next. rewrite Hr. simpl.
  destruct l as [|x l]; simpl.
  { exists h. split; [done|]. split; [|done]. by apply slist_empty. }
  apply chain_cons in Hc as [Hx Hc]. rewrite Hx. simpl. rewrite (set_next_ok _ _ _ _ Hr).
  simpl. eexists. split; [done|]. apply NoDup_cons in Hnd as [Hrn Hnd].
  apply not_elem_of_cons in Hrn as [Hrx Hrl]. apply NoDup_cons in Hnd as [_ Hnd].
  split; [|intros y Hy; by rewrite lookup_insert_ne].
  split; [rewrite lookup_insert_eq; by destruct l|].
  split; [by apply chain_insert_ne|]. by apply NoDup_cons.
Qed.

Lemma list_add_spec h root l new v :
  slist h root l → h !! new = Some v → new ∉ root :: l →
  ∃ h', list_add h root new = Some h' ∧ slist h' root (new :: l) ∧
    (∀ x, x ≠ root → x ≠ new → h' !! x = h !! x).
Proof.
  intros Hs Hv Hn. pose proof Hs as (Hr & _ & _). pose proof Hn as [Hnr _]%not_elem_of_cons.
  unfold list_add, get_next. rewrite Hr. simpl.
  rewrite (set_next_ok _ _ _ _ Hv). simpl.
  rewrite (set_next_ok _ _ (head l)) by (by rewrite lookup_insert_ne).
  eexists. split; [done|]. split.
  - pose proof (slist_insert h root [] l new v Hs Hv Hn) as Hi. simpl in Hi.
    by rewrite first_None in Hi.
  - intros x ??. by rewrite !lookup_insert_ne.
Qed.

End Heap.

#[global] Arguments chain : simpl never.

Abbreviation heap K := (gmap K (option K)).

Section ListRemove.
Context {K : Type} `{Countable K}.
Implicit Types (h : heap K) (l : list K).

(** Removing one member: what the code does to its predecessor. *)
Lemma slist_remove h root l1 node l2 :
  slist h root (l1 ++ node :: l2) →
  slist (<[default root (last l1) := first l2 None]> h) root (l1 ++ l2).
Proof.
  intros (Hr & Hc & Hnd). apply NoDup_cons in Hnd as [Hrn Hnd].
  rewrite not_elem_of_app, not_elem_of_cons in Hrn. destruct Hrn as (Hr1 & Hrx & Hr2).
  apply NoDup_app in Hnd as (Hnd1 & Hd & Hnd2). apply NoDup_cons in Hnd2 as [Hx2 Hnd2].
  apply chain_app in Hc as [Hc1 Hc2]. apply chain_cons in Hc2 as [Hx Hc2].
  assert (∀ x, x ∈ l1 → x ∉ l2) as Hd' by (intros x Hx1 Hx3; apply (Hd x Hx1); by right).
  assert (NoDup (root :: l1 ++ l2)).
  { apply NoDup_cons. rewrite not_elem_of_app. split; [done|]. by apply NoDup_app. }
  destruct l1 as [|a l1 _] using rev_ind; simpl.
  - split; [rewrite lookup_insert_eq; by destruct l2|split; [|done]].
    by apply chain_insert_ne.
  - rewrite last_snoc. simpl. rewrite elem_of_app, list_elem_of_singleton in Hr1.
    assert (a ∉ l1) by (apply NoDup_app in Hnd1 as (_ & Hy & _); intros Ha;
      apply (Hy a Ha); by left).
    split; [|split; [|done]].
    + rewrite lookup_insert_ne by naive_solver. rewrite Hr. by destruct l1.
    + apply chain_app. split; [by apply (chain_snoc_set _ _ _ (Some node))|].
      apply chain_insert_ne; [|done]. apply Hd', elem_of_app. right. by left.
Qed.

Lemma list_remove_loop_spec fuel h root l1 l2 node :
  slist h root (l1 ++ l2) → (length l2 < fuel)%nat →
  list_remove_loop fuel h (default root (last l1)) node =
    match list_find (λ x, x = node) l2 with
    | Some (i, _) =>
        Some (Some node, <[default root (last (l1 ++ take i l2)) := first (drop (S i) l2) None]> h)
    | None => Some (None, h)
    end.
Proof.
  revert l1 fuel. induction l2 as [|x l2 IH]; intros l1 [|fuel] Hs Hf; simpl in Hf; try lia;
    simpl; unfold get_next; rewrite (slist_prev_lookup _ _ _ _ Hs); simpl; [done|].
  case_decide as Heq.
  - subst x. pose proof Hs as (_ & Hc & _). apply chain_app in Hc as [_ Hc].
    apply chain_cons in Hc as [Hx _]. rewrite Hx. simpl.
    rewrite (set_next_ok _ _ (Some node))
      by (by rewrite (slist_prev_lookup _ _ _ _ Hs)).
    simpl. by rewrite app_nil_r.
  - replace (l1 ++ x :: l2) with ((l1 ++ [x]) ++ l2) in Hs by (by rewrite <- app_assoc).
    specialize (IH (l1 ++ [x]) fuel Hs ltac:(lia)). rewrite last_snoc in IH. simpl in IH.
    rewrite IH. destruct (list_find _ l2) as [[i y]|]; simpl; [|done].
    by rewrite <- app_assoc.
Qed.

(** [list_remove] unlinks the node if it is a member and reports whether it was. *)
Lemma list_remove_loop_filter fuel h root l node :
  slist h root l → (length l < fuel)%nat →
  ∃ h', list_remove_loop fuel h root node = Some (if decide (node ∈ l) then Some node else None, h') ∧
    slist h' root (filter (λ x, x ≠ node) l) ∧
    (∀ x, x ∉ root :: l → h' !! x = h !! x).
Proof.
  intros Hs Hfuel. pose proof Hs as (Hr & Hc & Hnd).
  pose proof (list_remove_loop_spec fuel h root [] l node Hs Hfuel) as Hl. simpl in Hl. rewrite Hl. clear Hl.
  destruct (list_find (λ x, x = node) l) as [[i y]|] eqn:Hf.
  - apply list_find_Some in Hf as (Hi & -> & Hne).
    rewrite decide_True by (by eapply list_elem_of_lookup_2).
    eexists. split; [done|].
    assert (l = take i l ++ node :: drop (S i) l) as Hl by (symmetry; by apply take_drop_middle).
    assert (filter (λ x, x ≠ node) l = take i l ++ drop (S i) l) as ->.
    { rewrite Hl at 1. apply NoDup_cons in Hnd as [_ Hnd]. rewrite Hl in Hnd.
      apply NoDup_app in Hnd as (_ & Hd & Hnd). apply NoDup_cons in Hnd as [Hn _].
      rewrite filter_app, filter_cons_False by (by intros []).
      rewrite !list_filter_all; [done|..]; apply Forall_forall; intros x Hx ->; [by apply Hn|].
      apply (Hd node Hx). by left. }
    split; [apply (slist_remove h root (take i l) node); by rewrite <- Hl|].
    intros x Hx. apply lookup_insert_ne. intros <-. apply Hx.
    rewrite elem_of_cons. destruct (last (take i l)) as [a|] eqn:Ha; simpl; [right|by left].
    apply last_Some_elem_of, elem_of_take in Ha as (j & Hj & _).
    by eapply list_elem_of_lookup_2.
  - apply list_find_None in Hf. rewrite decide_False.
    2: { intros Hin. rewrite Forall_forall in Hf. by apply (Hf node). }
    exists h. split; [done|]. split; [|done].
    by rewrite list_filter_all.
Qed.

Lemma list_remove_spec h root l node :
  slist h root l →
  ∃ h', list_remove h root node = Some (if decide (node ∈ l) then Some node else None, h') ∧
    slist h' root (filter (λ x, x ≠ node) l) ∧
    (∀ x, x ∉ root :: l → h' !! x = h !! x).
Proof.
  intros Hs. apply list_remove_loop_filter; [done|]. pose proof Hs as (_ & Hc & Hnd).
  apply NoDup_cons in Hnd as [_ Hnd]. apply le_n_S. by apply (chain_size h l None).
Qed.

End ListRemove.
