(* ===== verification/Clist.v ===== *)
(** * Circular linked lists (core/include/clist.h)

    A [clist] anchor points to the last node, whose [next] is the first one.
    The scheduler's run queues are such lists. *)

From S2P Require Import Prelude LinkedList.

Section ClistOps.
Context {K : Type} `{Countable K}.
Implicit Types (h : heap K) (list node new_node : K).

Definition clist_rpush h list new_node : option (heap K) :=
  ln ← get_next h list;
  match ln with
  | Some lst =>
      lnn ← get_next h lst;
      h ← set_next h new_node lnn;
      h ← set_next h lst (Some new_node);
      set_next h list (Some new_node)
  | None =>
      h ← set_next h new_node (Some new_node);
      set_next h list (Some new_node)
  end.

Definition clist_lpush h list new_node : option (heap K) :=
  ln ← get_next h list;
  match ln with
  | Some lst =>
      lnn ← get_next h lst;
      h ← set_next h new_node lnn;
      set_next h lst (Some new_node)
  | None =>
      h ← set_next h new_node (Some new_node);
      set_next h list (Some new_node)
  end.

Definition clist_lpop h list : option (option K * heap K) :=
  ln ← get_next h list;
  match ln with
  | Some lst =>
      fst ← get_next h lst;
      if decide (Some lst = fst)
      then h ← set_next h list None; Some (fst, h)
      else f ← fst; fn ← get_next h f; h ← set_next h lst fn; Some (fst, h)
  | None => Some (None, h)
  end.

Definition clist_lpoprpush h list : option (heap K) :=
  ln ← get_next h list;
  match ln with
  | Some lst => lnn ← get_next h lst; set_next h list lnn
  | None => Some h
  end.

Definition clist_lpeek h list : option (option K) :=
  ln ← get_next h list;
  match ln with
  | Some lst => get_next h lst
  | None => Some None
  end.

Definition clist_rpeek h list : option (option K) := get_next h list.

(** [while (list->next->next != last) clist_lpoprpush(list)]. *)
Fixpoint clist_rpop_loop (fuel : nat) h list (lst : option K) : option (heap K) :=
  match fuel with
  | O => None
  | S fuel =>
      ln ← get_next h list;
      l ← ln;
      lnn ← get_next h l;
      if decide (lnn = lst) then Some h
      else h ← clist_lpoprpush h list; clist_rpop_loop fuel h list lst
  end.

Definition clist_rpop h list : option (option K * heap K) :=
  ln ← get_next h list;
  match ln with
  | Some _ =>
      h ← clist_rpop_loop (S (size h)) h list ln;
      clist_lpop h list
  | None => Some (None, h)
  end.

(** The [do ... while (pos != list->next)] loop of [clist_find_before]. *)
Fixpoint clist_find_before_loop (fuel : nat) h (pos lst node : K) : option (option K) :=
  match fuel with
  | O => None
  | S fuel =>
      pn ← get_next h pos;
      pos ← pn;
      nx ← get_next h pos;
      if decide (nx = Some node) then Some (Some pos)
      else if decide (pos = lst) then Some None
      else clist_find_before_loop fuel h pos lst node
  end.

Definition clist_find_before h list node : option (option K) :=
  ln ← get_next h list;
  match ln with
  | None => Some None
  | Some lst => clist_find_before_loop (S (size h)) h lst lst node
  end.

Definition clist_find h list node : option (option K) :=
  tmp ← clist_find_before h list node;
  match tmp with
  | Some t => get_next h t
  | None => Some None
  end.

Definition clist_remove h list node : option (option K * heap K) :=
  ln ← get_next h list;
  match ln with
  | None => Some (None, h)
  | Some lst =>
      lnn ← get_next h lst;
      if decide (lnn = Some node) then clist_lpop h list
      else
        tmp ← clist_find_before h list node;
        match tmp with
        | None => Some (None, h)
        | Some t =>
            tn ← get_next h t;
            n ← tn;
            nn ← get_next h n;
            h ← set_next h t nn;
            ln' ← get_next h list;
            h ← (if decide (Some node = ln') then set_next h list (Some t) else Some h);
            Some (Some node, h)
        end
  end.

(** [func] may update the object behind [arg], of type [A]. *)
Fixpoint clist_foreach_loop {A} (fuel : nat) h (nd lst : K) (func : K → A → Z * A) (arg : A) :
    option (option K * A) :=
  match fuel with
  | O => None
  | S fuel =>
      nn ← get_next h nd;
      nd ← nn;
      let '(r, arg) := func nd arg in
      if negb (r =? 0) then Some (Some nd, arg)
      else if decide (nd = lst) then Some (None, arg)
      else clist_foreach_loop fuel h nd lst func arg
  end.

Definition clist_foreach {A} h list (func : K → A → Z * A) (arg : A) : option (option K * A) :=
  ln ← get_next h list;
  match ln with
  | None => Some (None, arg)
  | Some lst => clist_foreach_loop (S (size h)) h lst lst func arg
  end.

Fixpoint clist_count_loop (fuel : nat) h (nd lst : K) (cnt : Z) : option Z :=
  match fuel with
  | O => None
  | S fuel =>
      nn ← get_next h nd;
      nd ← nn;
      let cnt := cnt + 1 in
      if decide (nd = lst) then Some cnt else clist_count_loop fuel h nd lst cnt
  end.

Definition clist_count h list : option Z :=
  ln ← get_next h list;
  match ln with
  | None => Some 0
  | Some lst => clist_count_loop (S (size h)) h lst lst 0
  end.

(** ** The shape of a circular list *)

Definition clist h root (l : list K) : Prop :=
  h !! root = Some (last l) ∧ chain h l (head l) ∧ NoDup (root :: l).

Lemma clist_frame h h' root (l : list K) :
  (∀ x, x ∈ root :: l → h' !! x = h !! x) → clist h root l → clist h' root l.
Proof.
  intros Hf (Hr & Hc & Hnd). split; [|split; [|done]].
  - rewrite Hf by (by left). done.
  - apply (chain_frame h); [|done]. intros x Hx. apply Hf. by right.
Qed.

Lemma clist_empty h root : h !! root = Some None → clist h root [].
Proof. intros. split; [done|split; [done|]]. apply NoDup_singleton. Qed.

(** The last node points to the first one. *)
Lemma clist_last_next h root (l : list K) x :
  clist h root l → last l = Some x → h !! x = Some (head l).
Proof.
  intros (_ & Hc & _) [l' ->]%last_Some. by apply chain_snoc_lookup in Hc.
Qed.

(** Each other node points to its successor. *)
Lemma clist_next h root (l1 l2 : list K) x y :
  clist h root (l1 ++ x :: y :: l2) → h !! x = Some (Some y).
Proof. intros (_ & Hc & _). by apply chain_app in Hc as [_ [? _]%chain_cons]. Qed.

Lemma clist_fuel h root (l : list K) : clist h root l → (length l ≤ size h)%nat.
Proof.
  intros (_ & Hc & Hnd). eapply chain_size; [done|]. by apply NoDup_cons in Hnd as [_ ?].
Qed.

Lemma clist_nonempty h root (l : list K) :
  clist h root l → l ≠ [] → ∃ l' x, l = l' ++ [x] ∧ h !! root = Some (Some x) ∧
    h !! x = Some (head l).
Proof.
  intros Hc Hl. destruct l as [|x l _] using rev_ind; [done|].
  exists l, x. split; [done|]. split.
  - destruct Hc as (Hr & _). by rewrite last_snoc in Hr.
  - eapply clist_last_next; [done|]. by rewrite last_snoc.
Qed.

Lemma head_app_snoc (l : list K) x y : head (l ++ [x]) = head ((l ++ [x]) ++ [y]).
Proof. by destruct l. Qed.

(** Linking a new node between the last and the first one. *)
Lemma clist_splice h root (l : list K) x new v :
  clist h root (l ++ [x]) → h !! new = Some v → new ∉ root :: l ++ [x] →
  let h' := <[x := Some new]> (<[new := head (l ++ [x])]> h) in
  chain h' (l ++ [x]) (Some new) ∧ h' !! new = Some (head (l ++ [x])) ∧
  h' !! root = Some (Some x) ∧ NoDup (root :: new :: l ++ [x]) ∧
  (∀ y, y ∉ root :: new :: l ++ [x] → h' !! y = h !! y).
Proof.
  intros (Hr & Hc & Hnd) Hv Hn h'. rewrite last_snoc in Hr.
  apply NoDup_cons in Hnd as [Hrn Hnd]. apply not_elem_of_cons in Hn as [Hnr Hnl].
  assert (new ≠ x ∧ root ≠ x) as [??] by set_solver.
  assert (x ∉ l) as Hxl by (apply NoDup_app in Hnd as (_ & Hd & _); intros Hx;
    apply (Hd x Hx); by left).
  split; [apply (chain_snoc_set _ _ _ (head (l ++ [x]))); [done|by apply chain_insert_ne]|].
  split; [unfold h'; by rewrite lookup_insert_ne, lookup_insert_eq|].
  split; [unfold h'; by rewrite !lookup_insert_ne|].
  split; [rewrite !NoDup_cons, not_elem_of_cons; auto|].
  intros y Hy. unfold h'. by rewrite !lookup_insert_ne by set_solver.
Qed.

Lemma clist_rpush_spec h root (l : list K) new v :
  clist h root l → h !! new = Some v → new ∉ root :: l →
  ∃ h', clist_rpush h root new = Some h' ∧ clist h' root (l ++ [new]) ∧
    (∀ x, x ∉ root :: new :: l → h' !! x = h !! x).
Proof.
  intros Hc Hv Hn. unfold clist_rpush, get_next.
  pose proof Hn as [Hnr _]%not_elem_of_cons.
  destruct (decide (l = [])) as [->|Hl].
  { destruct Hc as (Hr & _). rewrite Hr. simpl.
    rewrite (set_next_ok _ _ _ _ Hv). simpl.
    rewrite (set_next_ok _ _ None) by (by rewrite lookup_insert_ne).
    eexists. split; [done|]. split.
    - split; [by rewrite lookup_insert_eq|]. split.
      + rewrite chain_cons. by rewrite lookup_insert_ne, lookup_insert_eq by done.
      + rewrite NoDup_cons, list_elem_of_singleton. split; [done|]. apply NoDup_singleton.
    - intros x Hx. by rewrite !lookup_insert_ne by set_solver. }
  destruct (clist_nonempty _ _ _ Hc Hl) as (l' & x & -> & Hr & Hx).
  rewrite Hr. simpl. rewrite Hx. simpl. rewrite (set_next_ok _ _ _ _ Hv). simpl.
  destruct (clist_splice h root l' x new v Hc Hv Hn) as (Hch & Hnn & Hrn & Hnd & Hf).
  assert (new ≠ x) by (intros ->; apply Hn; rewrite elem_of_cons, elem_of_app; right; right; by left).
  rewrite (set_next_ok _ x (head (l' ++ [x]))) by (by rewrite lookup_insert_ne). simpl.
  rewrite (set_next_ok _ root (Some x)) by done.
  eexists. split; [done|]. apply NoDup_cons in Hnd as [Hroot Hnd].
  apply not_elem_of_cons in Hroot as [_ Hroot]. split; [split; [|split]|].
  - by rewrite lookup_insert_eq, last_snoc.
  - apply chain_app. simpl. rewrite <- head_app_snoc. split.
    + by apply chain_insert_ne.
    + rewrite chain_cons. by rewrite lookup_insert_ne.
  - apply NoDup_cons. rewrite not_elem_of_app, list_elem_of_singleton. split; [done|].
    rewrite NoDup_cons in Hnd. apply NoDup_app. split; [tauto|]. split; [|apply NoDup_singleton].
    intros y Hy. rewrite list_elem_of_singleton. intros ->. tauto.
  - intros y Hy. rewrite lookup_insert_ne by (intros ->; apply Hy; by left). by apply Hf.
Qed.

Lemma clist_lpush_spec h root (l : list K) new v :
  clist h root l → h !! new = Some v → new ∉ root :: l →
  ∃ h', clist_lpush h root new = Some h' ∧ clist h' root (new :: l) ∧
    (∀ x, x ∉ root :: new :: l → h' !! x = h !! x).
Proof.
  intros Hc Hv Hn. destruct (decide (l = [])) as [->|Hl].
  { destruct (clist_rpush_spec h root [] new v Hc Hv Hn) as (h' & Hp & Hc' & Hf).
    destruct Hc as (Hr & _). exists h'. unfold clist_lpush, clist_rpush, get_next in *.
    rewrite Hr in *. simpl in *. done. }
  unfold clist_lpush, get_next.
  destruct (clist_nonempty _ _ _ Hc Hl) as (l' & x & -> & Hr & Hx).
  rewrite Hr. simpl. rewrite Hx. simpl. rewrite (set_next_ok _ _ _ _ Hv). simpl.
  destruct (clist_splice h root l' x new v Hc Hv Hn) as (Hch & Hnn & Hrn & Hnd & Hf).
  assert (new ≠ x) by (intros ->; apply Hn; rewrite elem_of_cons, elem_of_app; right; right; by left).
  rewrite (set_next_ok _ x (head (l' ++ [x]))) by (by rewrite lookup_insert_ne).
  eexists. split; [done|]. split; [|done]. split; [|split; [|done]].
  - rewrite Hrn. change (new :: l' ++ [x]) with ((new :: l') ++ [x]). by rewrite last_snoc.
  - rewrite chain_cons. split; [|done]. rewrite Hnn. by destruct l'.
Qed.

Lemma clist_lpop_spec h root (l : list K) :
  clist h root l →
  ∃ h', clist_lpop h root = Some (head l, h') ∧ clist h' root (tail l) ∧
    (∀ x, x ∉ root :: l → h' !! x = h !! x).
Proof.
  intros Hc. unfold clist_lpop, get_next. destruct l as [|a l].
  { pose proof Hc as (Hr & _). rewrite Hr. by exists h. }
  destruct (clist_nonempty _ _ _ Hc) as (l' & x & Hl & Hr & Hx); [done|].
  rewrite Hr. simpl. rewrite Hx. simpl. pose proof Hc as (_ & Hch & Hnd).
  apply NoDup_cons in Hnd as [Hrn Hnd]. case_decide as Heq.
  - injection Heq as ->. rewrite (set_next_ok _ _ _ _ Hr). simpl.
    assert (l = []) as ->.
    { destruct l' as [|b l']; simplify_eq/=; [done|]. exfalso.
      apply NoDup_cons in Hnd as [Hnd _]. apply Hnd, elem_of_app. right. by left. }
    eexists. split; [done|]. split.
    + apply clist_empty. by rewrite lookup_insert_eq.
    + intros y Hy. apply lookup_insert_ne. intros ->. apply Hy. by left.
  - destruct l' as [|b l']; simplify_eq/=. rename b into a.
    apply chain_cons in Hch as [Ha Hch]. rewrite Ha. simpl.
    rewrite (set_next_ok _ _ _ _ Hx). simpl.
    eexists. split; [done|]. rewrite not_elem_of_cons, elem_of_app, list_elem_of_singleton in Hrn.
    apply NoDup_cons in Hnd as [Hal Hnd].
    assert (x ∉ l') by (apply NoDup_app in Hnd as (_ & Hd & _); intros Hy;
      apply (Hd x Hy); by left).
    split; [split; [|split]|].
    + rewrite lookup_insert_ne by (intros ->; tauto). by rewrite Hr, last_snoc.
    + replace (match l' ++ [x] with [] => Some a | y :: _ => Some y end)
        with (head (l' ++ [x])) by (by destruct l').
      by apply (chain_snoc_set _ _ _ (Some a)).
    + apply NoDup_cons. rewrite elem_of_app, list_elem_of_singleton. tauto.
    + intros y Hy. apply lookup_insert_ne. intros ->. apply Hy.
      rewrite !elem_of_cons, elem_of_app. right; right; right. by left.
Qed.

Lemma clist_lpoprpush_spec h root (l : list K) :
  clist h root l →
  ∃ h', clist_lpoprpush h root = Some h' ∧
    clist h' root (match l with [] => [] | x :: l' => l' ++ [x] end) ∧
    (∀ x, x ≠ root → h' !! x = h !! x).
Proof.
  intros Hc. unfold clist_lpoprpush, get_next. destruct l as [|a l].
  { pose proof Hc as (Hr & _). rewrite Hr. by exists h. }
  destruct (clist_nonempty _ _ _ Hc) as (l' & x & Hl & Hr & Hx); [done|].
  rewrite Hr. simpl. rewrite Hx. simpl. rewrite (set_next_ok _ _ _ _ Hr).
  pose proof Hc as (_ & Hch & Hnd).
  eexists. split; [done|]. split; [split; [|split]|].
  - by rewrite lookup_insert_eq, last_snoc.
  - apply chain_insert_ne.
    { apply NoDup_cons in Hnd as [Hrn _]. rewrite elem_of_cons in Hrn.
      rewrite elem_of_app, list_elem_of_singleton. tauto. }
    apply chain_cons in Hch as [Ha Hch]. simpl in Hch.
    apply chain_app. split; [done|]. rewrite chain_cons. split; [|done].
    rewrite Ha. by destruct l.
  - apply NoDup_cons in Hnd as [Hrn Hnd]. apply NoDup_cons.
    rewrite elem_of_cons in Hrn. rewrite elem_of_app, list_elem_of_singleton.
    split; [tauto|]. by rewrite <- (Permutation_cons_append l a).
  - intros y Hy. by apply lookup_insert_ne.
Qed.

Lemma clist_lpeek_spec h root (l : list K) :
  clist h root l → clist_lpeek h root = Some (head l).
Proof.
  intros Hc. unfold clist_lpeek, get_next. destruct l as [|a l].
  { destruct Hc as (Hr & _). by rewrite Hr. }
  destruct (clist_nonempty _ _ _ Hc) as (l' & x & Hl & Hr & Hx); [done|].
  rewrite Hr. simpl. done.
Qed.

(** [pred_of l l1 p]: walking the circular list [l], the node before the suffix
    that follows [l1] is [p]. *)
Definition pred_of (l l1 : list K) (p : K) : Prop :=
  last l1 = Some p ∨ l1 = [] ∧ last l = Some p.

Lemma clist_pred_next h root (l1 l2 : list K) y p :
  clist h root (l1 ++ y :: l2) → pred_of (l1 ++ y :: l2) l1 p → h !! p = Some (Some y).
Proof.
  intros Hc [[l' ->]%last_Some|[-> Hp]].
  - rewrite <- app_assoc in Hc. by apply (clist_next _ _ _ _ _ _ Hc).
  - by rewrite (clist_last_next _ _ _ _ Hc Hp).
Qed.

Lemma pred_of_step (l l1 : list K) y : pred_of l (l1 ++ [y]) y.
Proof. left. by rewrite last_snoc. Qed.

Lemma clist_is_last h root (l1 l2 : list K) y lst :
  clist h root (l1 ++ y :: l2) → last (l1 ++ y :: l2) = Some lst → y = lst ↔ l2 = [].
Proof.
  intros (_ & _ & Hnd) Hl. split; [|intros ->; rewrite last_snoc in Hl; congruence].
  intros ->. destruct l2 as [|z l2 _] using rev_ind; [done|exfalso].
  apply NoDup_cons in Hnd as [_ Hnd]. apply NoDup_app in Hnd as (_ & _ & Hnd).
  rewrite app_comm_cons, app_assoc, last_snoc in Hl. injection Hl as ->.
  apply NoDup_cons in Hnd as [Hnd _]. apply Hnd, elem_of_app. right. by left.
Qed.

Lemma clist_find_before_loop_spec fuel h root (l1 l2 : list K) p lst node :
  clist h root (l1 ++ l2) → last (l1 ++ l2) = Some lst → l2 ≠ [] →
  pred_of (l1 ++ l2) l1 p → (length l2 ≤ fuel)%nat →
  clist_find_before_loop fuel h p lst node =
    Some (snd <$> list_find (λ y, h !! y = Some (Some node)) l2).
Proof.
  revert l1 p fuel. induction l2 as [|y l2 IH]; intros l1 p fuel Hc Hl Hne Hp Hf; [done|].
  destruct fuel as [|fuel]; simpl in Hf; [lia|]. simpl. unfold get_next.
  rewrite (clist_pred_next _ _ _ _ _ _ Hc Hp). simpl.
  assert (∃ v, h !! y = Some v) as [v Hv].
  { destruct Hc as (_ & Hch & _). eapply chain_in_dom; [done|].
    apply elem_of_app. right. by left. }
  rewrite Hv. simpl. destruct (decide (v = Some node)) as [->|Hvn].
  { by rewrite decide_True. }
  rewrite (decide_False (P := Some v = _)) by congruence.
  pose proof (clist_is_last _ _ _ _ _ _ Hc Hl) as Hlast. case_decide as Hy.
  { by rewrite (proj1 Hlast Hy). }
  assert (l2 ≠ []) as Hl2 by naive_solver.
  replace (l1 ++ y :: l2) with ((l1 ++ [y]) ++ l2) in * by (by rewrite <- app_assoc).
  rewrite (IH (l1 ++ [y]) y fuel Hc Hl Hl2 (pred_of_step _ _ _)) by lia.
  by destruct (list_find _ l2) as [[]|].
Qed.

(** Within a circular list the predecessor of a member is unique. *)
Lemma clist_pred_unique h root (l1 l2 : list K) node p y :
  clist h root (l1 ++ node :: l2) → pred_of (l1 ++ node :: l2) l1 p →
  y ∈ l1 ++ node :: l2 → h !! y = Some (Some node) → y = p.
Proof.
  intros Hc Hp Hy Hn. pose proof Hc as (_ & _ & [_ Hnd]%NoDup_cons).
  apply list_elem_of_split in Hy as (a & b & Hab). rewrite Hab in Hc, Hp, Hnd.
  destruct b as [|z b].
  - rewrite (clist_last_next _ _ _ y Hc) in Hn by (by rewrite last_snoc).
    assert (l1 = []) as ->.
    { destruct l1 as [|c l1]; [done|exfalso]. destruct a as [|d a]; simplify_eq/=.
      - by destruct l1.
      - apply NoDup_cons in Hnd as [Hnd _]. apply Hnd. rewrite <- H1.
        apply elem_of_app. right. by left. }
    destruct Hp as [Hp|[_ Hp]]; [done|]. rewrite last_snoc in Hp. congruence.
  - rewrite (clist_next _ _ _ _ _ _ Hc) in Hn. injection Hn as ->.
    replace (a ++ y :: node :: b) with ((a ++ [y]) ++ node :: b) in * by (by rewrite <- app_assoc).
    assert (l1 = a ++ [y]) as ->.
    { apply NoDup_app in Hnd as (Hn1 & Hd & Hn2). apply NoDup_cons in Hn2 as [Hn2 _].
      assert (node ∉ a ++ [y]) as Hna by (intros Hx; apply (Hd node Hx); by left).
      clear -Hab Hna Hn2. revert l1 Hab. induction (a ++ [y]) as [|c q IH]; intros l1 Hab.
      - destruct l1; [done|]. simplify_eq/=. exfalso. apply Hn2, elem_of_app. right. by left.
      - destruct l1 as [|d l1]; simplify_eq/=; [exfalso; apply Hna; by left|].
        f_equal. apply IH; [|done]. intros ?. apply Hna. by right. }
    destruct Hp as [Hp|[Hp _]]; [by rewrite last_snoc in Hp; congruence|by destruct a].
Qed.

Lemma clist_find_before_in h root (l1 l2 : list K) node :
  clist h root (l1 ++ node :: l2) →
  ∃ p, clist_find_before h root node = Some (Some p) ∧ pred_of (l1 ++ node :: l2) l1 p.
Proof.
  intros Hc. set (l := l1 ++ node :: l2) in *.
  assert (l ≠ []) as Hne by (by destruct l1).
  destruct (clist_nonempty _ _ _ Hc Hne) as (l' & x & Hl & Hr & _).
  assert (last l = Some x) as Hlast by (by rewrite Hl, last_snoc).
  assert (∃ p, pred_of l l1 p ∧ p ∈ l) as (p & Hp & Hpl).
  { destruct l1 as [|a l1 _] using rev_ind.
    - exists x. split; [by right|]. rewrite Hl. apply elem_of_app. right. by left.
    - exists a. split; [left; by rewrite last_snoc|]. unfold l.
      rewrite !elem_of_app. left. right. by left. }
  exists p. split; [|done]. unfold clist_find_before, get_next. rewrite Hr. mred.
  pose proof (clist_fuel _ _ _ Hc).
  rewrite (clist_find_before_loop_spec (S (size h)) h root [] l x x node Hc Hlast Hne) by
    (try (by right); simpl; lia).
  assert (h !! p = Some (Some node)) as Hpn by (by eapply clist_pred_next).
  destruct (list_find _ l) as [[i y]|] eqn:Hf; simpl.
  - apply list_find_Some in Hf as (Hi%list_elem_of_lookup_2 & Hy & _).
    by rewrite (clist_pred_unique _ _ _ _ _ _ _ Hc Hp Hi Hy).
  - apply list_find_None in Hf. rewrite Forall_forall in Hf. by destruct (Hf p Hpl).
Qed.

Lemma clist_find_before_notin h root (l : list K) node :
  clist h root l → node ∉ l → clist_find_before h root node = Some None.
Proof.
  intros Hc Hn. unfold clist_find_before, get_next. destruct (decide (l = [])) as [->|Hne].
  { destruct Hc as (Hr & _). by rewrite Hr. }
  destruct (clist_nonempty _ _ _ Hc Hne) as (l' & x & Hl & Hr & _).
  assert (last l = Some x) as Hlast by (by rewrite Hl, last_snoc).
  rewrite Hr. mred. pose proof (clist_fuel _ _ _ Hc).
  rewrite (clist_find_before_loop_spec (S (size h)) h root [] l x x node Hc Hlast Hne) by
    (try (by right); simpl; lia).
  destruct (list_find _ l) as [[i y]|] eqn:Hf; simpl; [|done]. exfalso.
  apply list_find_Some in Hf as (Hi%list_elem_of_lookup_2 & Hy & _).
  apply Hn. apply list_elem_of_split in Hi as (a & b & ->). destruct b as [|z b].
  - rewrite (clist_last_next _ _ _ y Hc) in Hy by (by rewrite last_snoc).
    destruct a; simplify_eq/=; by left.
  - rewrite (clist_next _ _ _ _ _ _ Hc) in Hy. injection Hy as ->.
    set_solver.
Qed.

Lemma clist_find_spec h root (l : list K) node :
  clist h root l → clist_find h root node = Some (if decide (node ∈ l) then Some node else None).
Proof.
  intros Hc. unfold clist_find. case_decide as Hin.
  - apply list_elem_of_split in Hin as (l1 & l2 & ->).
    destruct (clist_find_before_in _ _ _ _ _ Hc) as (p & -> & Hp). simpl.
    unfold get_next. by rewrite (clist_pred_next _ _ _ _ _ _ Hc Hp).
  - by rewrite (clist_find_before_notin _ _ _ _ Hc Hin).
Qed.

Lemma clist_remove_spec h root (l : list K) node :
  clist h root l →
  ∃ h', clist_remove h root node = Some (if decide (node ∈ l) then Some node else None, h') ∧
    clist h' root (filter (λ x, x ≠ node) l) ∧
    (∀ x, x ∉ root :: l → h' !! x = h !! x).
Proof.
  intros Hc. pose proof Hc as (_ & _ & [Hroot Hnd]%NoDup_cons).
  unfold clist_remove, get_next. destruct l as [|a l].
  { pose proof Hc as (Hr & _). rewrite Hr. by exists h. }
  destruct (clist_nonempty _ _ _ Hc) as (l' & x & Hl & Hr & Hx); [done|].
  rewrite Hr. mred. rewrite Hx. simpl head. mred. case_decide as Ha.
  { injection Ha as ->. rewrite decide_True by (by left).
    destruct (clist_lpop_spec _ _ _ Hc) as (h' & Hp & Hc' & Hf). exists h'.
    split; [done|]. split; [|done]. rewrite filter_cons_False by (by intros []).
    rewrite list_filter_all; [done|]. apply NoDup_cons in Hnd as [Hn _].
    apply Forall_forall. intros y Hy ->. done. }
  case_decide as Hin.
  2: { rewrite (clist_find_before_notin _ _ _ _ Hc Hin). exists h. split; [done|].
       split; [|done]. rewrite list_filter_all; [done|]. apply Forall_forall. by intros y Hy ->. }
  apply list_elem_of_split in Hin as (l1 & l2 & Hl1). rewrite Hl1 in *.
  destruct (clist_find_before_in _ _ _ _ _ Hc) as (p & -> & Hp). mred.
  rewrite (clist_pred_next _ _ _ _ _ _ Hc Hp). mred.
  destruct Hp as [[l0 ->]%last_Some|[-> _]]; [|by simplify_eq/=].
  assert (filter (λ y, y ≠ node) ((l0 ++ [p]) ++ node :: l2) = (l0 ++ [p]) ++ l2) as ->.
  { apply NoDup_app in Hnd as (_ & Hd & [Hn _]%NoDup_cons).
    rewrite filter_app, filter_cons_False by (by intros []).
    rewrite !list_filter_all; [done|..]; apply Forall_forall; intros y Hy ->; [done|].
    apply (Hd node Hy). by left. }
  pose proof Hc as (_ & Hch & _). apply chain_app in Hch as [Hc1 Hc2].
  apply chain_cons in Hc2 as [Hnx Hc2]. rewrite Hnx. mred.
  rewrite (set_next_ok _ p (Some node)) by (by eapply chain_snoc_lookup). mred.
  set (z := head _) in *.
  change (match l2 with [] => z | y :: _ => Some y end) with (first l2 z).
  set (h1 := <[p := first l2 z]> h).
  apply NoDup_app in Hnd as (Hnd1 & Hd & [Hn2 Hnd2]%NoDup_cons).
  assert (p ∉ l0) by (apply NoDup_app in Hnd1 as (_ & Hd' & _); intros Hy; apply (Hd' p Hy); by left).
  assert (p ∉ l2) by (intros Hp2; apply (Hd p); [apply elem_of_app; right; by left|by right]).
  assert (chain h1 ((l0 ++ [p]) ++ l2) z) as Hch1.
  { apply chain_app. split; [by apply (chain_snoc_set _ _ _ (Some node))|].
    by apply chain_insert_ne. }
  assert (head ((l0 ++ [p]) ++ l2) = z) as Hz by (unfold z; by destruct l0).
  assert (NoDup ((l0 ++ [p]) ++ l2)) as Hnd'.
  { apply NoDup_app. split; [done|]. split; [|done]. intros y Hy Hy2. apply (Hd y Hy). by right. }
  assert (root ∉ (l0 ++ [p]) ++ l2) as Hroot'.
  { set_solver. }
  assert (p ≠ root) by set_solver.
  assert (h1 !! root = Some (Some x)) as Hr1 by (unfold h1; by rewrite lookup_insert_ne).
  rewrite Hr1. mred.
  assert (last ((l0 ++ [p]) ++ node :: l2) = Some x) as Hlx by (by rewrite Hl, last_snoc).
  pose proof (clist_is_last _ _ _ _ _ _ Hc Hlx) as Hil. case_decide as Hnl.
  - injection Hnl as ->. rewrite (proj1 Hil eq_refl) in *. rewrite app_nil_r in *.
    rewrite (set_next_ok _ _ _ _ Hr1). mred. eexists. split; [done|].
    split; [split; [|split]|].
    + by rewrite lookup_insert_eq, last_snoc.
    + rewrite Hz. by apply chain_insert_ne.
    + by apply NoDup_cons.
    + intros y Hy. unfold h1. rewrite !lookup_insert_ne by set_solver. done.
  - mred. eexists. split; [done|]. split; [split; [|split]|].
    + rewrite Hr1. destruct l2 as [|b l2 _] using rev_ind; [naive_solver|].
      rewrite app_comm_cons, app_assoc, last_snoc in Hlx. by rewrite app_assoc, last_snoc, Hlx.
    + by rewrite Hz.
    + by apply NoDup_cons.
    + intros y Hy. apply lookup_insert_ne. set_solver.
Qed.

Lemma clist_rpop_loop_spec fuel h root (l1 l2 : list K) x :
  clist h root (l2 ++ x :: l1) → (length l2 < fuel)%nat →
  ∃ h', clist_rpop_loop fuel h root (Some x) = Some h' ∧ clist h' root (x :: l1 ++ l2) ∧
    (∀ y, y ≠ root → h' !! y = h !! y).
Proof.
  revert h l1 fuel. induction l2 as [|a l2 IH]; intros h l1 [|fuel] Hc Hf; simpl in Hf; try lia;
    destruct (clist_nonempty _ _ _ Hc) as (l' & y & Hl & Hr & Hy); try (by destruct l2); try done;
    simpl; unfold get_next; rewrite Hr; mred; rewrite Hy; mred.
  - rewrite decide_True by done. exists h. by rewrite app_nil_r.
  - rewrite decide_False.
    2: { pose proof Hc as (_ & _ & [_ [Hnd _]%NoDup_cons]%NoDup_cons). intros [= ->].
         apply Hnd, elem_of_app. right. by left. }
    destruct (clist_lpoprpush_spec _ _ _ Hc) as (h1 & -> & Hc1 & Hf1). mred.
    simpl in Hc1. rewrite <- app_assoc in Hc1. simpl in Hc1.
    destruct (IH h1 (l1 ++ [a]) fuel Hc1) as (h2 & -> & Hc2 & Hf2); [lia|].
    exists h2. split; [done|]. rewrite <- app_assoc in Hc2. split; [done|].
    intros z Hz. by rewrite Hf2, Hf1.
Qed.

Lemma clist_rpop_spec h root (l : list K) :
  clist h root l →
  ∃ h', clist_rpop h root = Some (last l, h') ∧
    clist h' root (take (length l - 1) l) ∧ (∀ x, x ∉ root :: l → h' !! x = h !! x).
Proof.
  intros Hc. unfold clist_rpop, get_next. destruct (decide (l = [])) as [->|Hne].
  { pose proof Hc as (Hr & _). rewrite Hr. by exists h. }
  pose proof (clist_fuel _ _ _ Hc) as Hfuel.
  destruct (clist_nonempty _ _ _ Hc Hne) as (l' & x & -> & Hr & _). rewrite Hr. mred.
  rewrite length_app in *. simpl in Hfuel.
  destruct (clist_rpop_loop_spec (S (size h)) h root [] l' x Hc) as (h1 & -> & Hc1 & Hf1);
    [lia|]. mred. destruct (clist_lpop_spec _ _ _ Hc1) as (h2 & -> & Hc2 & Hf2).
  exists h2. rewrite last_snoc. split; [done|].
  replace (length l' + length [x] - 1)%nat with (length l') by (simpl; lia).
  rewrite take_app_length. split; [done|]. intros y Hy. rewrite Hf2.
  - apply Hf1. intros ->. apply Hy. by left.
  - set_solver.
Qed.

Lemma clist_count_loop_spec fuel h root (l1 l2 : list K) p lst cnt :
  clist h root (l1 ++ l2) → last (l1 ++ l2) = Some lst → l2 ≠ [] →
  pred_of (l1 ++ l2) l1 p → (length l2 ≤ fuel)%nat →
  clist_count_loop fuel h p lst cnt = Some (cnt + Z.of_nat (length l2)).
Proof.
  revert l1 p fuel cnt. induction l2 as [|y l2 IH]; intros l1 p fuel cnt Hc Hl Hne Hp Hf; [done|].
  destruct fuel as [|fuel]; simpl in Hf; [lia|]. simpl. unfold get_next.
  rewrite (clist_pred_next _ _ _ _ _ _ Hc Hp). mred.
  pose proof (clist_is_last _ _ _ _ _ _ Hc Hl) as Hlast. case_decide as Hy.
  { by rewrite (proj1 Hlast Hy). }
  assert (l2 ≠ []) as Hl2 by naive_solver.
  replace (l1 ++ y :: l2) with ((l1 ++ [y]) ++ l2) in * by (by rewrite <- app_assoc).
  rewrite (IH (l1 ++ [y]) y fuel _ Hc Hl Hl2 (pred_of_step _ _ _)) by lia. f_equal. lia.
Qed.

Lemma clist_count_spec h root (l : list K) :
  clist h root l → clist_count h root = Some (Z.of_nat (length l)).
Proof.
  intros Hc. unfold clist_count, get_next. destruct (decide (l = [])) as [->|Hne].
  { destruct Hc as (Hr & _). by rewrite Hr. }
  destruct (clist_nonempty _ _ _ Hc Hne) as (l' & x & Hl & Hr & _).
  assert (last l = Some x) as Hlast by (by rewrite Hl, last_snoc).
  rewrite Hr. mred. pose proof (clist_fuel _ _ _ Hc).
  rewrite (clist_count_loop_spec (S (size h)) h root [] l x x 0 Hc Hlast Hne);
    [done|by right|simpl; lia].
Qed.

(** The reference traversal: apply [func] in order until it returns non-zero. *)
Fixpoint foreach_ref {A} (func : K → A → Z * A) (l : list K) (arg : A) : option K * A :=
  match l with
  | [] => (None, arg)
  | x :: l' => let '(r, arg) := func x arg in
               if negb (r =? 0) then (Some x, arg) else foreach_ref func l' arg
  end.

Lemma clist_foreach_loop_spec {A} fuel h root (l1 l2 : list K) p lst (func : K → A → Z * A) arg :
  clist h root (l1 ++ l2) → last (l1 ++ l2) = Some lst → l2 ≠ [] →
  pred_of (l1 ++ l2) l1 p → (length l2 ≤ fuel)%nat →
  clist_foreach_loop fuel h p lst func arg = Some (foreach_ref func l2 arg).
Proof.
  revert l1 p fuel arg. induction l2 as [|y l2 IH]; intros l1 p fuel arg Hc Hl Hne Hp Hf; [done|].
  destruct fuel as [|fuel]; simpl in Hf; [lia|]. simpl. unfold get_next.
  rewrite (clist_pred_next _ _ _ _ _ _ Hc Hp). mred.
  destruct (func y arg) as [r arg'] eqn:Hfn. destruct (negb (r =? 0)); [done|].
  pose proof (clist_is_last _ _ _ _ _ _ Hc Hl) as Hlast. case_decide as Hy.
  { by rewrite (proj1 Hlast Hy). }
  assert (l2 ≠ []) as Hl2 by naive_solver.
  replace (l1 ++ y :: l2) with ((l1 ++ [y]) ++ l2) in * by (by rewrite <- app_assoc).
  by rewrite (IH (l1 ++ [y]) y fuel _ Hc Hl Hl2 (pred_of_step _ _ _)) by lia.
Qed.

Lemma clist_foreach_spec {A} h root (l : list K) (func : K → A → Z * A) arg :
  clist h root l → clist_foreach h root func arg = Some (foreach_ref func l arg).
Proof.
  intros Hc. unfold clist_foreach, get_next. destruct (decide (l = [])) as [->|Hne].
  { destruct Hc as (Hr & _). by rewrite Hr. }
  destruct (clist_nonempty _ _ _ Hc Hne) as (l' & x & Hl & Hr & _).
  assert (last l = Some x) as Hlast by (by rewrite Hl, last_snoc).
  rewrite Hr. mred. pose proof (clist_fuel _ _ _ Hc).
  by rewrite (clist_foreach_loop_spec (S (size h)) h root [] l x x func arg Hc Hlast Hne);
    [done|right|simpl; lia].
Qed.

End ClistOps.

(** ** Histories *)

Section History.
Context {K : Type} `{Countable K}.

Inductive clist_op :=
| CRpush (x : K) | CLpush (x : K) | CLpop | CRpop | CLpoprpush
| CLpeek | CRpeek | CFind (x : K) | CRemove (x : K) | CCount.

Inductive clist_result := RNone | RNode (r : option K) | RCount (n : Z).

(** One call on the list anchored at [root]. *)
Definition clist_call (h : heap K) (root : K) (op : clist_op) : option (clist_result * heap K) :=
  match op with
  | CRpush x => h' ← clist_rpush h root x; Some (RNone, h')
  | CLpush x => h' ← clist_lpush h root x; Some (RNone, h')
  | CLpop => '(r, h') ← clist_lpop h root; Some (RNode r, h')
  | CRpop => '(r, h') ← clist_rpop h root; Some (RNode r, h')
  | CLpoprpush => h' ← clist_lpoprpush h root; Some (RNone, h')
  | CLpeek => r ← clist_lpeek h root; Some (RNode r, h)
  | CRpeek => r ← clist_rpeek h root; Some (RNode r, h)
  | CFind x => r ← clist_find h root x; Some (RNode r, h)
  | CRemove x => '(r, h') ← clist_remove h root x; Some (RNode r, h')
  | CCount => n ← clist_count h root; Some (RCount n, h)
  end.

Fixpoint clist_calls (h : heap K) (root : K) (ops : list clist_op) :
    option (list clist_result * heap K) :=
  match ops with
  | [] => Some ([], h)
  | op :: ops' =>
      '(r, h') ← clist_call h root op;
      '(rs, h'') ← clist_calls h' root ops';
      Some (r :: rs, h'')
  end.

(** The specification on sequences; pushing a member again is not allowed. *)
Definition seq_call (l : list K) (op : clist_op) : option (clist_result * list K) :=
  match op with
  | CRpush x => if decide (x ∈ l) then None else Some (RNone, l ++ [x])
  | CLpush x => if decide (x ∈ l) then None else Some (RNone, x :: l)
  | CLpop => Some (RNode (head l), tail l)
  | CRpop => Some (RNode (last l), take (length l - 1) l)
  | CLpoprpush => Some (RNone, match l with [] => [] | x :: l' => l' ++ [x] end)
  | CLpeek => Some (RNode (head l), l)
  | CRpeek => Some (RNode (last l), l)
  | CFind x => Some (RNode (if decide (x ∈ l) then Some x else None), l)
  | CRemove x => Some (RNode (if decide (x ∈ l) then Some x else None),
                       filter (λ y, y ≠ x) l)
  | CCount => Some (RCount (Z.of_nat (length l)), l)
  end.

Fixpoint seq_calls (l : list K) (ops : list clist_op) : option (list clist_result * list K) :=
  match ops with
  | [] => Some ([], l)
  | op :: ops' =>
      '(r, l') ← seq_call l op;
      '(rs, l'') ← seq_calls l' ops';
      Some (r :: rs, l'')
  end.

(** The nodes that are pushed are nodes of the heap other than the anchor. *)
Definition push_ok (h : heap K) (root : K) (op : clist_op) : Prop :=
  match op with CRpush x | CLpush x => x ≠ root ∧ is_Some (h !! x) | _ => True end.

(** No call adds or removes a node of the heap. *)
Lemma clist_lpop_dom (h : heap K) root r h' : clist_lpop h root = Some (r, h') → dom h' = dom h.
Proof.
  unfold clist_lpop. intros Hc. opt_cases; eauto using set_next_dom.
Qed.

Lemma clist_lpoprpush_dom (h : heap K) root h' :
  clist_lpoprpush h root = Some h' → dom h' = dom h.
Proof.
  unfold clist_lpoprpush. intros Hc. opt_cases; eauto using set_next_dom.
Qed.

Lemma clist_rpop_loop_dom fuel (h : heap K) root x h' :
  clist_rpop_loop fuel h root x = Some h' → dom h' = dom h.
Proof.
  revert h. induction fuel as [|fuel IH]; intros h Hc; simpl in Hc; [done|].
  simplify_option_eq; [done|]. rewrite (IH _ Hc). by eapply clist_lpoprpush_dom.
Qed.

#[local] Arguments clist_rpop_loop : simpl never.

Lemma clist_call_dom (h : heap K) root op r h' :
  clist_call h root op = Some (r, h') → dom h' = dom h.
Proof.
  destruct op; unfold clist_call, clist_rpush, clist_lpush, clist_rpop, clist_remove; intros Hc;
    opt_cases;
    repeat match goal with
    | H : set_next _ _ _ = Some _ |- _ => apply set_next_dom in H; rewrite ?H
    | H : clist_lpop _ _ = Some _ |- _ => apply clist_lpop_dom in H; rewrite ?H
    | H : clist_lpoprpush _ _ = Some _ |- _ => apply clist_lpoprpush_dom in H; rewrite ?H
    | H : clist_rpop_loop _ _ _ _ = Some _ |- _ => apply clist_rpop_loop_dom in H; rewrite ?H
    end; done || congruence.
Qed.

(** Each call does on the heap what the specification does on the sequence. *)
Lemma clist_call_spec (h : heap K) root l op r l' :
  clist h root l → push_ok h root op → seq_call l op = Some (r, l') →
  ∃ h', clist_call h root op = Some (r, h') ∧ clist h' root l'.
Proof.
  intros Hc Hok. pose proof Hc as (_ & _ & [Hroot _]%NoDup_cons).
  destruct op as [x|x| | | | | |x|x|]; simpl; intros Hs.
  - case_decide as Hx; [done|]. destruct Hok as [Hne [v Hv]]. injection Hs as <- <-.
    destruct (clist_rpush_spec h root l x v Hc Hv) as (h' & -> & Hc' & _); [set_solver|].
    by exists h'.
  - case_decide as Hx; [done|]. destruct Hok as [Hne [v Hv]]. injection Hs as <- <-.
    destruct (clist_lpush_spec h root l x v Hc Hv) as (h' & -> & Hc' & _); [set_solver|].
    by exists h'.
  - destruct (clist_lpop_spec h root l Hc) as (h' & -> & Hc' & _). injection Hs as <- <-. by exists h'.
  - destruct (clist_rpop_spec h root l Hc) as (h' & -> & Hc' & _). injection Hs as <- <-. by exists h'.
  - destruct (clist_lpoprpush_spec h root l Hc) as (h' & -> & Hc' & _).
    injection Hs as <- <-. by exists h'.
  - rewrite (clist_lpeek_spec h root l Hc). injection Hs as <- <-. by exists h.
  - unfold clist_rpeek, get_next. pose proof Hc as (-> & _). injection Hs as <- <-. by exists h.
  - rewrite (clist_find_spec h root l x Hc). injection Hs as <- <-. by exists h.
  - destruct (clist_remove_spec h root l x Hc) as (h' & -> & Hc' & _).
    injection Hs as <- <-. by exists h'.
  - rewrite (clist_count_spec h root l Hc). injection Hs as <- <-. by exists h.
Qed.

(** C29: For every sequence of calls that pushes no member twice, the circular list
    returns what the sequence of its nodes returns and ends up holding that
    sequence; all traversals terminate and no pointer is dereferenced outside
    the nodes. *)
Theorem clist_refines_seq ops (h : heap K) root l rs l' :
  clist h root l → Forall (push_ok h root) ops → seq_calls l ops = Some (rs, l') →
  ∃ h', clist_calls h root ops = Some (rs, h') ∧ clist h' root l'.
Proof.
  intros Hc Hok. revert h l rs Hc Hok.
  induction ops as [|op ops IH]; intros h l rs Hc Hok Hs; simpl in *.
  { injection Hs as <- <-. by exists h. }
  destruct (seq_call l op) as [[r l1]|] eqn:Hr; [|done]. mred in Hs.
  apply Forall_cons in Hok as [Hop Hok].
  destruct (clist_call_spec h root l op r l1 Hc Hop Hr) as (h1 & Hc1 & Hcl1).
  destruct (seq_calls l1 ops) as [[rs1 l2]|] eqn:Hrs; [|done]. simplify_eq/=.
  pose proof (clist_call_dom _ _ _ _ _ Hc1) as Hdom.
  destruct (IH h1 l1 rs1 Hcl1) as (h2 & Hcs & Hcl2); [|done|].
  { eapply Forall_impl; [exact Hok|]. intros [] ; simpl; try done;
      rewrite <- !(elem_of_dom (D := gset K)), Hdom; done. }
  exists h2. by rewrite Hc1; mred; rewrite Hcs.
Qed.

End History.

Arguments clist_op : clear implicits.
Arguments clist_result : clear implicits.

Lemma clist_refines_seq_witness :
  let h : heap Z := list_to_map [(0, None); (1, None); (2, None); (3, None)] in
  ∃ h', clist_calls h 0 [CRpush 1; CRpush 2; CLpush 3; CLpoprpush; CRemove 1; CRpop; CCount] =
          Some ([RNone; RNone; RNone; RNone; RNode (Some 1); RNode (Some 3); RCount 1], h') ∧
        clist h' 0 [2].
Proof.
  intros h. apply (clist_refines_seq _ h 0 []).
  - apply clist_empty. reflexivity.
  - repeat constructor; done || (eexists; reflexivity).
  - reflexivity.
Defined.
