(* ===== verification/ClistSort.v ===== *)
(** * Sorting circular lists (core/clist.c)

    [_clist_sort] is a bottom-up merge sort that relinks the nodes in place.
    The module translates it pointer by pointer and shows that it implements a
    merge sort on the list of nodes: the result is a sorted, stable permutation,
    and the loops terminate. *)

From S2P Require Import Prelude LinkedList Clist.
From Stdlib Require Import Sorting.Sorted.

Section SortCode.
Context {K : Type} `{Countable K}.
Context (cmp : K → K → Z).
Implicit Types (h : heap K) (oldhead : K) (p q lst tl : option K).

(** [x = x->next; if (x == oldhead) x = NULL]. *)
Definition advance h oldhead (x : K) : option (option K) :=
  nx ← get_next h x;
  Some (if decide (nx = Some oldhead) then None else nx).

(** [for (i = 0; i < insize; i++) { psize++; q = ...; if (!q) break; }]. *)
Fixpoint step_loop (n : nat) h oldhead (q : K) (psize : Z) : option (option K * Z) :=
  match n with
  | O => Some (Some q, psize)
  | S n =>
      qn ← advance h oldhead q;
      match qn with
      | None => Some (None, psize + 1)
      | Some q' => step_loop n h oldhead q' (psize + 1)
      end
  end.

(** Which list the next element is taken from: [(e, p, psize, q, qsize)]. *)
Definition take_next h oldhead p (psize : Z) q (qsize : Z) :
    option (K * option K * Z * option K * Z) :=
  if psize =? 0 then
    e ← q; q' ← advance h oldhead e; Some (e, p, psize, q', qsize - 1)
  else if (qsize =? 0) || negb (notnull q) then
    e ← p; p' ← advance h oldhead e; Some (e, p', psize - 1, q, qsize)
  else
    p0 ← p; q0 ← q;
    if cmp p0 q0 <=? 0 then
      p' ← advance h oldhead p0; Some (p0, p', psize - 1, q, qsize)
    else
      q' ← advance h oldhead q0; Some (q0, p, psize, q', qsize - 1).

(** [while (psize > 0 || (qsize > 0 && q))]; the result is the heap, [q], the
    head and the tail of the merged list. *)
Fixpoint merge_loop (fuel : nat) h oldhead p (psize : Z) q (qsize : Z) lst tl :
    option (heap K * option K * option K * option K) :=
  match fuel with
  | O => None
  | S fuel =>
      if (0 <? psize) || ((0 <? qsize) && notnull q) then
        '(e, p, psize, q, qsize) ← take_next h oldhead p psize q qsize;
        match tl with
        | Some t =>
            h ← set_next h t (Some e);
            merge_loop fuel h oldhead p psize q qsize lst (Some e)
        | None => merge_loop fuel h oldhead p psize q qsize (Some e) (Some e)
        end
      else Some (h, q, lst, tl)
  end.

(** One pass over the list, [while (p)]; also counts the merges. *)
Fixpoint pass_loop (fuel : nat) h oldhead p (insize : Z) lst tl (nmerges : Z) :
    option (heap K * option K * option K * Z) :=
  match fuel with
  | O => None
  | S fuel =>
      match p with
      | None => Some (h, lst, tl, nmerges)
      | Some p0 =>
          '(q, psize) ← step_loop (Z.to_nat insize) h oldhead p0 0;
          '(h, q, lst, tl) ← merge_loop (S (size h)) h oldhead p psize q insize lst tl;
          pass_loop fuel h oldhead q insize lst tl (nmerges + 1)
      end
  end.

(** [while (1)]; the result is the tail of the sorted list. *)
Fixpoint sort_loop (fuel : nat) h (list : K) (insize : Z) : option (heap K * option K) :=
  match fuel with
  | O => None
  | S fuel =>
      '(h, lst, tl, nmerges) ← pass_loop (S (size h)) h list (Some list) insize None None 0;
      t ← tl;
      h ← set_next h t lst;
      if nmerges <=? 1 then Some (h, tl)
      else l ← lst; sort_loop fuel h l (i32 (insize * 2))
  end.

Definition _clist_sort h (list : option K) : option (heap K * option K) :=
  match list with
  | None => Some (h, None)
  | Some l => sort_loop (S (size h)) h l 1
  end.

Definition clist_sort h (list : K) : option (heap K) :=
  ln ← get_next h list;
  match ln with
  | Some lst =>
      lnn ← get_next h lst;
      '(h, r) ← _clist_sort h lnn;
      set_next h list r
  | None => Some h
  end.

(** ** The reference: merge sort on lists *)

Fixpoint merge (l1 : list K) : list K → list K :=
  fix merge_aux (l2 : list K) : list K :=
    match l1, l2 with
    | [], _ => l2
    | _, [] => l1
    | a :: l1', b :: l2' => if cmp a b <=? 0 then a :: merge l1' l2 else b :: merge_aux l2'
    end.

(** Merge consecutive blocks of [n] elements pairwise. *)
Fixpoint merge_blocks (fuel n : nat) (l : list K) : list K :=
  match fuel, l with
  | O, _ | _, [] => l
  | S fuel, _ => merge (take n l) (take n (drop n l)) ++ merge_blocks fuel n (drop (n + n) l)
  end.

(** ** The inner loops implement the reference *)

Lemma advance_chain h oldhead x l :
  chain h (x :: l) (Some oldhead) → oldhead ∉ l → advance h oldhead x = Some (head l).
Proof.
  intros [Hx _]%chain_cons Ho. unfold advance, get_next. rewrite Hx. mred.
  destruct l as [|y l]; simpl; [by rewrite decide_True|].
  rewrite decide_False; [done|]. intros [= ->]. apply Ho. by left.
Qed.

Lemma step_loop_spec n h oldhead x l psize :
  chain h (x :: l) (Some oldhead) → oldhead ∉ l →
  step_loop n h oldhead x psize =
    Some (head (drop n (x :: l)), psize + Z.of_nat (length (take n (x :: l)))).
Proof.
  revert x l psize. induction n as [|n IH]; intros x l psize Hc Ho; simpl.
  { by rewrite Z.add_0_r. }
  rewrite (advance_chain _ _ _ _ Hc Ho). mred. apply chain_cons in Hc as [_ Hc].
  destruct l as [|y l]; simpl.
  - rewrite drop_nil, take_nil. simpl. done.
  - rewrite (IH y l); [|done|set_solver]. simpl. do 2 f_equal; lia.
Qed.

Lemma merge_nil_l l : merge [] l = l.
Proof. by destruct l. Qed.

Lemma merge_nil_r l : merge l [] = l.
Proof. by destruct l. Qed.

(** The state of the merge: the output so far, and the two blocks ahead. *)
Definition merge_inv h oldhead (out A R : list K) : Prop :=
  NoDup (out ++ A ++ R) ∧ (oldhead ∉ tail A) ∧ (oldhead ∉ R) ∧
  (∃ z, chain h out z) ∧ (∃ z, chain h A z) ∧ chain h R (Some oldhead).

(** Linking [e], the head of one of the blocks, to the output. *)
Lemma link_out h out e z1 z2 rest :
  chain h out z1 → h !! e = Some z2 → NoDup (out ++ e :: rest) →
  ∃ h', (match last out with Some t => set_next h t (Some e) | None => Some h end) = Some h' ∧
    chain h' (out ++ [e]) z2 ∧ (∀ x, x ∉ out → h' !! x = h !! x).
Proof.
  intros Hout He Hnd. apply NoDup_app in Hnd as (Hnd1 & Hd & _).
  destruct out as [|t out _] using rev_ind; simpl.
  - exists h. split; [done|]. split; [|done]. rewrite chain_cons. by rewrite He.
  - rewrite last_snoc. rewrite (set_next_ok _ _ z1) by (by eapply chain_snoc_lookup).
    eexists. split; [done|]. apply NoDup_app in Hnd1 as (_ & Hd1 & _).
    split; [|intros x Hx; apply lookup_insert_ne; set_solver].
    apply chain_app. split.
    + apply (chain_snoc_set _ _ _ z1); [|done]. intros Ht. apply (Hd1 t Ht). by left.
    + rewrite chain_cons. split; [|done]. rewrite lookup_insert_ne; [done|].
      intros ->. apply (Hd e); [set_solver|by left].
Qed.

Lemma merge_inv_p h oldhead out a A R :
  merge_inv h oldhead out (a :: A) R →
  ∃ z, h !! a = Some z ∧ (A = [] ∨ advance h oldhead a = Some (head A)).
Proof.
  intros (_ & Ho & _ & _ & (z & Hc) & _). apply chain_cons in Hc as [Ha _].
  eexists. split; [done|]. destruct A as [|b A]; [by left|right].
  unfold advance, get_next. rewrite Ha. mred. simpl. rewrite decide_False; [done|].
  intros [= ->]. apply Ho. by left.
Qed.

Lemma merge_inv_take_p h h' oldhead out a A R z :
  merge_inv h oldhead out (a :: A) R → chain h' (out ++ [a]) z →
  (∀ x, x ∉ out → h' !! x = h !! x) → merge_inv h' oldhead (out ++ [a]) A R.
Proof.
  intros (Hnd & HoA & HoR & _ & (zA & HcA) & HcR) Hout Hf.
  assert (NoDup ((out ++ [a]) ++ A ++ R)) as Hnd' by (by rewrite <- app_assoc).
  split; [done|]. split; [destruct A; simpl in *; set_solver|]. split; [done|].
  split; [by eexists|]. apply chain_cons in HcA as [_ HcA].
  apply NoDup_app in Hnd as (_ & Hd & _). split; [exists zA|];
    (eapply chain_frame; [|done]); intros x Hx; apply Hf; intros Ho; apply (Hd x Ho); set_solver.
Qed.

Lemma merge_inv_take_q h h' oldhead out A b R z :
  merge_inv h oldhead out A (b :: R) → chain h' (out ++ [b]) z →
  (∀ x, x ∉ out → h' !! x = h !! x) → merge_inv h' oldhead (out ++ [b]) A R.
Proof.
  intros (Hnd & HoA & HoR & _ & (zA & HcA) & HcR) Hout Hf.
  assert (NoDup ((out ++ [b]) ++ A ++ R)) as Hnd'.
  { rewrite <- app_assoc. simpl. by rewrite (Permutation_middle A R b). }
  split; [done|]. split; [done|]. split; [set_solver|].
  split; [by eexists|]. apply chain_cons in HcR as [_ HcR].
  apply NoDup_app in Hnd as (_ & Hd & _). split; [exists zA|];
    (eapply chain_frame; [|done]); intros x Hx; apply Hf; intros Ho; apply (Hd x Ho); set_solver.
Qed.

(** The heap and the links after merging [A] with the next [n] nodes of [R]. *)
Definition merge_post h oldhead (out A R : list K) (n : nat) (r : heap K * option K * option K * option K) : Prop :=
  let '(h', q, lst, tl) := r in
  let out' := out ++ merge A (take n R) in
  q = head (drop n R) ∧ lst = head out' ∧ tl = last out' ∧
  (∃ z, chain h' out' z) ∧ chain h' (drop n R) (Some oldhead) ∧ size h' = size h ∧
  (∀ x, x ∉ out ++ A ++ R → h' !! x = h !! x).

Lemma link_step fuel h h' oldhead p psize q qsize (out : list K) e :
  (match last out with Some t => set_next h t (Some e) | None => Some h end) = Some h' →
  match last out with
  | Some t =>
      h ← set_next h t (Some e);
      merge_loop fuel h oldhead p psize q qsize (head out) (Some e)
  | None => merge_loop fuel h oldhead p psize q qsize (Some e) (Some e)
  end = merge_loop fuel h' oldhead p psize q qsize (head (out ++ [e])) (last (out ++ [e])).
Proof.
  destruct out as [|t out _] using rev_ind; simpl; [by intros [= ->]|].
  rewrite !last_snoc. intros ->. mred. by rewrite <- (head_app_snoc out t e).
Qed.

Lemma set_next_size h t v h' : set_next h t v = Some h' → size h' = size h.
Proof.
  unfold set_next. destruct (h !! t) eqn:Ht; [|done]. intros [= <-].
  rewrite <- !size_dom, dom_insert_lookup_L; [done|by eexists].
Qed.

(** The effect of one iteration that takes [e], seen from the final state. *)
Lemma merge_post_step h h' oldhead out e A A' R R' n n' r :
  merge_post h' oldhead (out ++ [e]) A' R' n' r →
  size h' = size h → (∀ x, x ∉ out → h' !! x = h !! x) →
  (∀ x, x ∈ e :: A' ++ R' → x ∈ A ++ R) →
  merge A (take n R) = e :: merge A' (take n' R') → drop n R = drop n' R' →
  merge_post h oldhead out A R n r.
Proof.
  destruct r as [[[h2 q] lst] tl]. intros (Hq & Hlst & Htl & Hout & HR & Hsz & Hf) Hs Hf1 Hin Hm Hd.
  rewrite <- app_assoc in Hlst, Htl, Hout. simpl in Hlst, Htl, Hout. rewrite <- Hm in Hlst, Htl, Hout.
  rewrite <- Hd in Hq, HR. unfold merge_post.
  split; [done|]. split; [done|]. split; [done|]. split; [done|]. split; [done|].
  split; [congruence|]. intros x Hx. rewrite Hf; [apply Hf1|]; set_solver.
Qed.

Lemma link_size h h' out e :
  (match last out with Some t => set_next h t (Some e) | None => Some h end) = Some h' →
  size h' = size h.
Proof. destruct (last out); [apply set_next_size|by intros [= ->]]. Qed.

Lemma take_p_step h oldhead out a A R :
  merge_inv h oldhead out (a :: A) R →
  ∃ p' h', advance h oldhead a = Some p' ∧ (A ≠ [] → p' = head A) ∧
    (match last out with Some t => set_next h t (Some a) | None => Some h end) = Some h' ∧
    merge_inv h' oldhead (out ++ [a]) A R ∧ size h' = size h ∧
    (∀ x, x ∉ out → h' !! x = h !! x).
Proof.
  intros Hinv. destruct (merge_inv_p _ _ _ _ _ _ Hinv) as (z & Ha & Hadv).
  pose proof Hinv as (Hnd & _ & _ & (zo & Hout) & _).
  destruct (link_out h out a zo z (A ++ R) Hout Ha Hnd) as (h' & Hl & Hc & Hf).
  destruct Hadv as [->|Hadv].
  - unfold advance, get_next. rewrite Ha. mred. eexists _, h'. split; [done|].
    repeat (split; [done || by eapply merge_inv_take_p|]). split; [by eapply link_size|done].
  - exists (head A), h'. rewrite Hadv.
    repeat (split; [done || by eapply merge_inv_take_p|]). split; [by eapply link_size|done].
Qed.

Lemma take_q_step h oldhead out A b R :
  merge_inv h oldhead out A (b :: R) →
  ∃ h', advance h oldhead b = Some (head R) ∧
    (match last out with Some t => set_next h t (Some b) | None => Some h end) = Some h' ∧
    merge_inv h' oldhead (out ++ [b]) A R ∧ size h' = size h ∧
    (∀ x, x ∉ out → h' !! x = h !! x).
Proof.
  intros Hinv. pose proof Hinv as (Hnd & _ & HoR & (zo & Hout) & _ & HcR).
  assert (oldhead ∉ R) as Ho by set_solver.
  rewrite (advance_chain _ _ _ _ HcR Ho). apply chain_cons in HcR as [Hb _].
  assert (NoDup (out ++ b :: (A ++ R))) as Hnd'.
  { by rewrite (Permutation_middle A R b). }
  destruct (link_out h out b zo _ (A ++ R) Hout Hb Hnd') as (h' & Hl & Hc & Hf).
  exists h'. repeat (split; [done || by eapply merge_inv_take_q|]).
  split; [by eapply link_size|done].
Qed.

Lemma merge_cons_p a A b R : cmp a b ≤ 0 → merge (a :: A) (b :: R) = a :: merge A (b :: R).
Proof. intros. simpl. by rewrite (proj2 (Z.leb_le _ _)). Qed.

Lemma merge_cons_q a A b R : 0 < cmp a b → merge (a :: A) (b :: R) = b :: merge (a :: A) R.
Proof. intros. simpl. by rewrite (proj2 (Z.leb_gt _ _)). Qed.

Lemma merge_loop_stop h oldhead out A R n :
  merge_inv h oldhead out A R → A = [] → take n R = [] →
  merge_post h oldhead out A R n (h, head R, head out, last out).
Proof.
  intros (_ & _ & _ & (z & Hout) & _ & HcR) -> Ht. unfold merge_post. rewrite Ht. simpl.
  rewrite !app_nil_r.
  assert (drop n R = R) as -> by (destruct n, R; done).
  split; [done|]. split; [done|]. split; [done|]. split; [by eexists|]. done.
Qed.

Lemma merge_loop_spec fuel h oldhead out A R n p :
  merge_inv h oldhead out A R → (A ≠ [] → p = head A) →
  (length A + length (take n R) < fuel)%nat →
  ∃ r, merge_loop fuel h oldhead p (Z.of_nat (length A)) (head R) (Z.of_nat n)
         (head out) (last out) = Some r ∧ merge_post h oldhead out A R n r.
Proof.
  revert h out A R n p. induction fuel as [|fuel IH]; intros h out A R n p Hinv Hp Hf; [lia|].
  cbn [merge_loop]. unfold take_next.
  destruct A as [|a A]; cbn [length].
  - (* only the second block is left *)
    destruct (take n R) as [|? ?] eqn:Ht.
    { exists (h, head R, head out, last out). split; [|by apply merge_loop_stop].
      destruct n, R; done. }
    destruct n as [|n], R as [|b R]; try done.
    destruct (take_q_step _ _ _ _ _ _ Hinv) as (h' & Hadv & Hl & Hinv' & Hsz & Hfr).
    cbn [head notnull]. change (0 <? Z.of_nat 0) with false.
    change (Z.of_nat 0 =? 0) with true. change (0 <? Z.of_nat (S n)) with true.
    cbn [orb andb]. mred. rewrite Hadv. mred. rewrite (link_step _ _ _ _ _ _ _ _ _ _ Hl).
    replace (Z.of_nat (S n) - 1) with (Z.of_nat n) by lia.
    destruct (IH h' (out ++ [b]) [] R n p Hinv') as (r & Hr & Hpost);
      [done|cbn in Ht; injection Ht as _ Ht; rewrite Ht; simpl in *; lia|].
    exists r. split; [exact Hr|]. eapply merge_post_step; [done..|set_solver| |done].
    cbn [take]. by rewrite !merge_nil_l.
  - rewrite (Hp ltac:(done)) in *. cbn [head].
    replace (0 <? Z.of_nat (S (length A))) with true by (symmetry; apply Z.ltb_lt; lia).
    replace (Z.of_nat (S (length A)) =? 0) with false by (symmetry; apply Z.eqb_neq; lia).
    cbn [orb]. mred. destruct (take n R) as [|? ?] eqn:Ht.
    + (* only the first block is left *)
      assert ((Z.of_nat n =? 0) || negb (notnull (head R)) = true) as -> by (destruct n, R; done).
      destruct (take_p_step _ _ _ _ _ _ Hinv) as (p' & h' & -> & Hp' & Hl & Hinv' & Hsz & Hfr).
      mred. rewrite (link_step _ _ _ _ _ _ _ _ _ _ Hl).
      replace (Z.of_nat (S (length A)) - 1) with (Z.of_nat (length A)) by lia.
      destruct (IH h' (out ++ [a]) A R n p' Hinv' Hp') as (r & Hr & Hpost);
        [rewrite Ht; simpl in *; lia|].
      exists r. split; [done|]. eapply merge_post_step; [done..|set_solver| |done].
      by rewrite Ht, !merge_nil_r.
    + destruct n as [|n], R as [|b R]; try done. cbn [head notnull negb].
      replace (Z.of_nat (S n) =? 0) with false by (symmetry; apply Z.eqb_neq; lia).
      cbn [orb]. mred. destruct (Z.leb_spec (cmp a b) 0) as [Hab|Hab].
      * destruct (take_p_step _ _ _ _ _ _ Hinv) as (p' & h' & -> & Hp' & Hl & Hinv' & Hsz & Hfr).
        mred. rewrite (link_step _ _ _ _ _ _ _ _ _ _ Hl).
        replace (Z.of_nat (S (length A)) - 1) with (Z.of_nat (length A)) by lia.
        destruct (IH h' (out ++ [a]) A (b :: R) (S n) p' Hinv' Hp') as (r & Hr & Hpost);
          [rewrite Ht; simpl in *; lia|].
        exists r. split; [exact Hr|]. eapply merge_post_step; [done..|set_solver| |done].
        cbn [take]. by rewrite merge_cons_p.
      * destruct (take_q_step _ _ _ _ _ _ Hinv) as (h' & -> & Hl & Hinv' & Hsz & Hfr).
        mred. rewrite (link_step _ _ _ _ _ _ _ _ _ _ Hl).
        replace (Z.of_nat (S n) - 1) with (Z.of_nat n) by lia.
        cbn [take] in Ht. injection Ht as _ Ht.
        destruct (IH h' (out ++ [b]) (a :: A) R n (Some a) Hinv') as (r & Hr & Hpost);
          [done|rewrite Ht; simpl in *; lia|].
        exists r. split; [exact Hr|]. eapply merge_post_step; [done..|set_solver| |done].
        cbn [take]. by rewrite merge_cons_q.
Qed.

Lemma merge_perm l1 l2 : merge l1 l2 ≡ₚ l1 ++ l2.
Proof.
  revert l2. induction l1 as [|a l1 IH1]; intros l2; [by rewrite merge_nil_l|].
  induction l2 as [|b l2 IH2]; [by rewrite merge_nil_r, app_nil_r|].
  destruct (Z.leb_spec (cmp a b) 0).
  - rewrite merge_cons_p by done. by rewrite IH1.
  - rewrite merge_cons_q, IH2 by done. apply Permutation_middle.
Qed.

(** The number of merges of a pass. *)
Fixpoint count_blocks (fuel n : nat) (l : list K) : Z :=
  match fuel, l with
  | O, _ | _, [] => 0
  | S fuel, _ => 1 + count_blocks fuel n (drop (n + n) l)
  end.

Lemma merge_blocks_perm fuel n l : merge_blocks fuel n l ≡ₚ l.
Proof.
  revert l. induction fuel as [|fuel IH]; intros l; [done|]. destruct l as [|x l]; [done|].
  cbn [merge_blocks]. rewrite IH, merge_perm, <- drop_drop, <- app_assoc.
  by rewrite take_drop, take_drop.
Qed.

Lemma count_blocks_le_1 fuel n l :
  (0 < n)%nat → (length l ≤ fuel)%nat → count_blocks fuel n l ≤ 1 → (length l ≤ n + n)%nat.
Proof.
  intros Hn. destruct fuel as [|fuel]; intros Hf; [simpl; lia|]. destruct l as [|x l]; [simpl; lia|].
  cbn [count_blocks]. destruct (drop (n + n) (x :: l)) as [|y l'] eqn:Hd.
  - apply (f_equal length) in Hd. rewrite length_drop in Hd. simpl in *. lia.
  - destruct fuel as [|fuel].
    + simpl in *. lia.
    + cbn [count_blocks]. intros Hc. exfalso.
      enough (∀ f l, 0 ≤ count_blocks f n l) as Hpos by (specialize (Hpos fuel (drop (n + n) (y :: l'))); lia).
      induction f as [|f IHf]; intros q; simpl; [lia|]. destruct q; [lia|]. specialize (IHf (drop (n + n) (k :: q))). lia.
Qed.

Lemma count_blocks_gt_1 fuel n l : 1 < count_blocks fuel n l → (n + n < length l)%nat.
Proof.
  destruct fuel as [|fuel]; [simpl; lia|]. destruct l as [|x l]; [simpl; lia|].
  cbn [count_blocks]. intros Hc. destruct (decide (n + n < length (x :: l))%nat); [done|].
  rewrite drop_ge in Hc by lia. destruct fuel; simpl in Hc; lia.
Qed.

Lemma take_tail_subset n (l : list K) x : x ∈ tail (take n l) → x ∈ tail l.
Proof.
  destruct n, l as [|a l]; simpl; try (by rewrite elem_of_nil).
  rewrite <- (take_drop n l) at 2. set_solver.
Qed.

Lemma drop_tail_subset n (l : list K) x : (0 < n)%nat → x ∈ drop n l → x ∈ tail l.
Proof.
  destruct n; [lia|]. destruct l; simpl; [by rewrite elem_of_nil|].
  intros _. rewrite <- (take_drop n l) at 2. set_solver.
Qed.

Lemma pass_loop_spec fuel n h oldhead out R k :
  (0 < n)%nat → (length R < fuel)%nat → NoDup (out ++ R) → (oldhead ∉ tail R) →
  (∃ z, chain h out z) → chain h R (Some oldhead) →
  ∃ h', pass_loop fuel h oldhead (head R) (Z.of_nat n) (head out) (last out) k =
      Some (h', head (out ++ merge_blocks fuel n R), last (out ++ merge_blocks fuel n R),
            k + count_blocks fuel n R) ∧
    (∃ z, chain h' (out ++ merge_blocks fuel n R) z) ∧ size h' = size h ∧
    (∀ x, x ∉ out ++ R → h' !! x = h !! x).
Proof.
  intros Hn. revert h out R k. induction fuel as [|fuel IH]; intros h out R k Hf Hnd Ho Hout HcR;
    [lia|]. destruct R as [|x R].
  { exists h. simpl. by rewrite app_nil_r, Z.add_0_r. }
  cbn [pass_loop head]. set (L := x :: R) in *.
  assert (oldhead ∉ R) as HoR by done.
  rewrite Nat2Z.id, (step_loop_spec n h oldhead x R 0 HcR HoR). mred. fold L.
  rewrite Z.add_0_l. rewrite <- (take_drop n L) in HcR. apply chain_app in HcR as [HcA HcD].
  assert (merge_inv h oldhead out (take n L) (drop n L)) as Hinv.
  { split; [by rewrite take_drop|]. split; [by intros ?%take_tail_subset|].
    split; [by intros ?%drop_tail_subset|]. split; [done|]. split; [by eexists|done]. }
  destruct (merge_loop_spec (S (size h)) h oldhead out (take n L) (drop n L) n (Some x) Hinv)
    as ([[[h1 q1] lst1] tl1] & -> & Hq & Hlst & Htl & Hout1 & Hc1 & Hsz1 & Hf1).
  { by destruct n. }
  { assert (length L ≤ size h)%nat as HL.
    { apply NoDup_app in Hnd as (_ & _ & HndL). eapply (chain_size h L); [|done].
      rewrite <- (take_drop n L). apply chain_app. split; done. }
    rewrite !length_take, !length_drop. lia. }
  mred. rewrite Hq, Hlst, Htl. set (out1 := out ++ merge _ _) in *.
  assert (out1 ++ drop n (drop n L) ≡ₚ out ++ L) as Hperm.
  { unfold out1. rewrite merge_perm, <- !app_assoc, take_drop, take_drop. done. }
  destruct (IH h1 out1 (drop n (drop n L)) (k + 1)) as (h2 & -> & Hout2 & Hsz2 & Hf2).
  { rewrite !length_drop. unfold L in *. simpl in *. lia. }
  { by rewrite Hperm. }
  { rewrite drop_drop. intros Hin. apply Ho. apply (drop_tail_subset (n + n)); [lia|].
    destruct (drop (n + n) L); [done|by right]. }
  { done. }
  { done. }
  exists h2. rewrite drop_drop in *. unfold out1 in *. rewrite <- app_assoc in *.
  split; [do 2 f_equal; unfold L; cbn [count_blocks]; lia|]. split; [done|].
  split; [congruence|]. intros y Hy. rewrite <- Hperm in Hy. rewrite Hf2 by done.
  apply Hf1. intros Hin. apply Hy. rewrite Hperm. by rewrite take_drop in Hin.
Qed.

(** ** Sortedness and stability of the reference *)

Definition cle (a b : K) : Prop := cmp a b ≤ 0.

(** A comparison function orders the nodes: it is total and transitive. *)
Class CmpOrder : Prop := {
  cmp_total a b : cle a b ∨ cle b a;
  cmp_trans a b c : cle a b → cle b c → cle a c
}.

(** Elements that compare equal to [x]. *)
Definition ceq (x y : K) : Prop := cle x y ∧ cle y x.

#[global] Instance ceq_dec x y : Decision (ceq x y).
Proof. unfold ceq, cle. apply _. Defined.

(** Every block of [n] elements is sorted. *)
Definition blocks_sorted (n : nat) (l : list K) : Prop :=
  ∀ k, StronglySorted cle (take n (drop (k * n) l)).

Section Ordered.
Context {Hord : CmpOrder}.

Lemma cmp_gt a b : 0 < cmp a b → cle b a ∧ ¬ cle a b.
Proof. intros. destruct (cmp_total a b); unfold cle in *; [lia|]. split; [done|lia]. Qed.

Lemma merge_sorted l1 l2 :
  StronglySorted cle l1 → StronglySorted cle l2 → StronglySorted cle (merge l1 l2).
Proof.
  revert l2. induction l1 as [|a l1 IH1]; intros l2; [by rewrite merge_nil_l|].
  induction l2 as [|b l2 IH2]; [by rewrite merge_nil_r|].
  intros [Hs1 Ha]%StronglySorted_inv [Hs2 Hb]%StronglySorted_inv.
  assert (StronglySorted cle (a :: l1)) as Hs1' by (by constructor).
  assert (StronglySorted cle (b :: l2)) as Hs2' by (by constructor).
  destruct (Z.leb_spec (cmp a b) 0) as [Hab|Hab].
  - rewrite merge_cons_p by done. constructor; [by apply IH1|].
    rewrite merge_perm. apply Forall_app. split; [done|]. constructor; [done|].
    eapply Forall_impl; [exact Hb|]. intros x. by apply cmp_trans.
  - apply cmp_gt in Hab as [Hba Hnab]. rewrite merge_cons_q by (unfold cle in *; lia).
    constructor; [by apply IH2|].
    rewrite merge_perm. apply Forall_app. split; [|done]. constructor; [done|].
    eapply Forall_impl; [exact Ha|]. intros x. by apply cmp_trans.
Qed.

Lemma merge_stable x l1 l2 :
  StronglySorted cle l1 →
  filter (ceq x) (merge l1 l2) = filter (ceq x) l1 ++ filter (ceq x) l2.
Proof.
  revert l2. induction l1 as [|a l1 IH1]; intros l2 Hs; [by rewrite merge_nil_l|].
  pose proof Hs as [Hs1 Ha]%StronglySorted_inv.
  induction l2 as [|b l2 IH2]; [by rewrite merge_nil_r, app_nil_r|].
  destruct (Z.leb_spec (cmp a b) 0) as [Hab|Hab].
  - rewrite merge_cons_p by done. rewrite !(filter_cons _ a), IH1 by done. by case_decide.
  - rewrite merge_cons_q by done. apply cmp_gt in Hab as [Hba Hnab].
    rewrite (filter_cons _ b), IH2, (filter_cons _ b). case_decide as Hb; [|done].
    assert (filter (ceq x) (a :: l1) = []) as ->; [|done].
    destruct (filter (ceq x) (a :: l1)) as [|y r] eqn:Hf; [done|exfalso].
    assert (y ∈ filter (ceq x) (a :: l1)) as [[Hxy Hyx] Hy]%list_elem_of_filter
      by (rewrite Hf; by left).
    apply Hnab. destruct Hb as [Hxb Hbx].
    assert (cle a y) by (apply elem_of_cons in Hy as [->|Hy];
      [by destruct (cmp_total a a)|by apply (proj1 (Forall_forall _ _) Ha)]).
    eapply cmp_trans; [done|]. by eapply cmp_trans.
Qed.

Lemma blocks_sorted_0 n l : blocks_sorted n l → StronglySorted cle (take n l).
Proof. intros Hb. apply (Hb 0%nat). Qed.

Lemma blocks_sorted_drop n m l : blocks_sorted n l → blocks_sorted n (drop (m * n) l).
Proof. intros Hb k. rewrite drop_drop, <- Nat.mul_add_distr_r. apply Hb. Qed.

Lemma blocks_sorted_1 l : blocks_sorted 1 l.
Proof.
  intros k. destruct (drop _ l) as [|x q]; simpl; constructor; [constructor|done].
Qed.

Lemma blocks_sorted_all n l : (length l ≤ n)%nat → blocks_sorted n l → StronglySorted cle l.
Proof. intros Hl Hb%blocks_sorted_0. by rewrite take_ge in Hb. Qed.

Lemma merge_blocks_sorted fuel n l :
  (0 < n)%nat → (length l ≤ fuel)%nat → blocks_sorted n l →
  blocks_sorted (n + n) (merge_blocks fuel n l).
Proof.
  intros Hn. revert l. induction fuel as [|fuel IH]; intros l Hf Hb k.
  { destruct l; [|simpl in Hf; lia]. cbn [merge_blocks]. rewrite drop_nil, take_nil. constructor. }
  destruct l as [|x l];
    [cbn [merge_blocks]; rewrite drop_nil, take_nil; constructor|].
  cbn [merge_blocks]. set (L := x :: l) in *. set (m := merge _ _). set (rest := merge_blocks _ _ _).
  assert (length m = length (take (n + n) L)) as Hm.
  { unfold m. rewrite merge_perm, length_app, !length_take, length_drop. lia. }
  rewrite length_take in Hm.
  assert (StronglySorted cle m) as Hsm.
  { apply merge_sorted; [by apply blocks_sorted_0|]. specialize (Hb 1%nat).
    by rewrite Nat.mul_1_l in Hb. }
  assert (n + n < length L → length m = n + n)%nat by lia.
  assert (length L ≤ n + n → rest = [])%nat as Hrest.
  { intros HL. unfold rest. rewrite drop_ge by lia. by destruct fuel. }
  destruct (decide (length L ≤ n + n)%nat) as [HL|HL].
  - rewrite Hrest, app_nil_r by done. destruct k as [|k].
    + simpl. rewrite drop_0, take_ge by lia. done.
    + rewrite drop_ge, take_nil by (rewrite Nat.mul_succ_l; lia). constructor.
  - assert (length m = n + n)%nat as Hmm by lia. destruct k as [|k].
    + rewrite drop_0, take_app_length' by done. done.
    + replace (S k * (n + n))%nat with (n + n + k * (n + n))%nat by lia.
      rewrite <- drop_drop, drop_app_length' by done.
      apply IH; [rewrite length_drop; unfold L in *; simpl in *; lia|].
      replace (n + n)%nat with (2 * n)%nat by lia. by apply blocks_sorted_drop.
Qed.

Lemma merge_blocks_stable fuel n x l :
  (0 < n)%nat → blocks_sorted n l →
  filter (ceq x) (merge_blocks fuel n l) = filter (ceq x) l.
Proof.
  intros Hn. revert l. induction fuel as [|fuel IH]; intros l Hb; [done|].
  destruct l as [|y l]; [done|]. cbn [merge_blocks].
  rewrite filter_app, merge_stable by (by apply blocks_sorted_0).
  rewrite IH by (replace (n + n)%nat with (2 * n)%nat by lia; by apply blocks_sorted_drop).
  rewrite <- !filter_app, <- app_assoc, <- drop_drop. by rewrite !take_drop.
Qed.

(** ** The outer loop *)

Lemma sort_loop_spec fuel n h l x :
  head l = Some x → NoDup l → chain h l (Some x) →
  (0 < n)%nat → Z.of_nat (length l) < 2 ^ 30 → (length l < fuel + n)%nat → (0 < fuel)%nat →
  blocks_sorted n l →
  ∃ h' l', sort_loop fuel h x (Z.of_nat n) = Some (h', last l') ∧
    l' ≡ₚ l ∧ StronglySorted cle l' ∧ (∀ y, filter (ceq y) l' = filter (ceq y) l) ∧
    chain h' l' (head l') ∧ (∀ y, y ∉ l → h' !! y = h !! y).
Proof.
  revert n h l x. induction fuel as [|fuel IH]; intros n h l x Hx Hnd Hc Hn Hlen Hf Hf0 Hb; [lia|].
  destruct l as [|x' l]; [done|]. injection Hx as ->. set (L := x :: l) in *.
  pose proof (chain_size _ _ _ Hc Hnd) as Hsz. cbn [sort_loop].
  destruct (pass_loop_spec (S (size h)) n h x [] L 0 Hn) as (h1 & Hpass & (z1 & Hout1) & Hsz1 & Hf1);
    [lia|done|unfold L in *; simpl; by apply NoDup_cons in Hnd as [? _]|by exists None|done|].
  cbn [app] in *. change (head []) with (@None K) in Hpass. change (last []) with (@None K) in Hpass.
  change (head L) with (Some x) in Hpass. rewrite Hpass. mred.
  pose proof (merge_blocks_perm (S (size h)) n L) as Hperm.
  pose proof (merge_blocks_sorted (S (size h)) n L Hn ltac:(lia) Hb) as Hbs.
  pose proof (λ y, merge_blocks_stable (S (size h)) n y L Hn Hb) as Hst.
  pose proof (count_blocks_le_1 (S (size h)) n L Hn ltac:(lia)) as Hcount.
  pose proof (count_blocks_gt_1 (S (size h)) n L) as Hcount2.
  revert Hout1 Hperm Hbs Hst Hcount Hcount2. clear Hpass.
  generalize (merge_blocks (S (size h)) n L) as M, (count_blocks (S (size h)) n L) as c.
  intros M c Hout1 Hperm Hbs Hst Hcount Hcount2.
  assert (NoDup M) as HndM by (by rewrite Hperm).
  assert (length M = length L) as HlenM by (by rewrite Hperm).
  destruct M as [|t M' _] using rev_ind; [by apply Permutation_nil_cons in Hperm|].
  rewrite last_snoc. mred. rewrite (set_next_ok _ t z1) by (by eapply chain_snoc_lookup). mred.
  assert (t ∉ M') as Ht by (apply NoDup_app in HndM as (_ & Hd & _); intros Hin; apply (Hd t Hin); by left).
  pose proof (chain_snoc_set _ _ _ z1 (head (M' ++ [t])) Ht Hout1) as Hc1.
  assert (∀ y, y ∉ L → <[t := head (M' ++ [t])]> h1 !! y = h !! y) as Hfr.
  { intros y Hy. rewrite lookup_insert_ne; [by apply Hf1|]. intros ->. apply Hy.
    rewrite <- Hperm. set_solver. }
  destruct (Z.leb_spec (0 + c) 1) as [Hc1'|Hc1'].
  - eexists _, (M' ++ [t]). rewrite last_snoc. split; [done|]. split; [done|].
    split; [|done]. eapply blocks_sorted_all; [|exact Hbs]. rewrite HlenM. apply Hcount. lia.
  - destruct (M' ++ [t]) as [|y M] eqn:HM; [by destruct M'|]. rewrite <- HM in *.
    replace (head (M' ++ [t])) with (Some y) in * by (by rewrite HM). mred.
    assert (n + n < length L)%nat as Hbig by (apply Hcount2; lia).
    rewrite swrap_small by lia.
    destruct (IH (n + n)%nat (<[t := Some y]> h1) (M' ++ [t]) y) as (h2 & l2 & Hs & Hp & Hso & Hsta & Hch & Hfr2).
    { by rewrite HM. }
    { done. }
    { done. }
    { lia. }
    { lia. }
    { lia. }
    { lia. }
    { done. }
    exists h2, l2. replace (Z.of_nat n * 2) with (Z.of_nat (n + n)) by lia.
    split; [done|]. split; [by rewrite Hp|]. split; [done|].
    split; [intros w; by rewrite Hsta|]. split; [done|].
    intros w Hw. rewrite Hfr2 by (by rewrite Hperm). by apply Hfr.
Qed.

Lemma clist_sort_spec h root l :
  clist h root l → Z.of_nat (length l) < 2 ^ 30 →
  ∃ h' l', clist_sort h root = Some h' ∧ clist h' root l' ∧
    l' ≡ₚ l ∧ StronglySorted cle l' ∧ (∀ y, filter (ceq y) l' = filter (ceq y) l) ∧
    (∀ y, y ∉ root :: l → h' !! y = h !! y).
Proof.
  intros Hc Hlen. unfold clist_sort, get_next. destruct l as [|x l].
  { pose proof Hc as (Hr & _). rewrite Hr. mred. exists h, [].
    split; [done|]. split; [done|]. split; [done|]. split; [constructor|]. done. }
  destruct (clist_nonempty _ _ _ Hc) as (l0 & y & Hl & Hr & Hy); [done|].
  rewrite Hr. mred. rewrite Hy. mred. unfold _clist_sort. cbn [head].
  pose proof Hc as (_ & Hch & [Hroot Hnd]%NoDup_cons).
  pose proof (clist_fuel _ _ _ Hc) as Hf.
  destruct (sort_loop_spec (S (size h)) 1 h (x :: l) x) as (h1 & l1 & Hs & Hp & Hso & Hst & Hc1 & Hf1);
    [done|done|done|lia|done|lia|lia|apply blocks_sorted_1|].
  change (Z.of_nat 1) with 1 in Hs. rewrite Hs. mred.
  rewrite (set_next_ok _ root (Some y)) by (by rewrite Hf1).
  eexists _, l1. split; [done|]. split; [|split; [done|split; [done|split; [done|]]]].
  - split; [by rewrite lookup_insert_eq|]. split.
    + apply chain_insert_ne; [by rewrite Hp|done].
    + apply NoDup_cons. by rewrite Hp.
  - intros w Hw. rewrite lookup_insert_ne by set_solver. apply Hf1. set_solver.
Qed.

End Ordered.
End SortCode.

(** Comparing keys of the nodes gives an ordering comparison function. *)
Lemma cmp_order_key {K} (key : K → Z) : CmpOrder (λ a b, key a - key b).
Proof. split; unfold cle; lia. Qed.

(** C28: [clist_sort] terminates and relinks the nodes of a circular list into a
    sorted list with the same nodes in which nodes that compare equal keep their
    order, and touches no other node. *)
Theorem clist_sort_correct {K} `{Countable K} (cmp : K → K → Z) (h : heap K) root l :
  CmpOrder cmp → clist h root l → Z.of_nat (length l) < 2 ^ 30 →
  ∃ h' l', clist_sort cmp h root = Some h' ∧ clist h' root l' ∧
    l' ≡ₚ l ∧ StronglySorted (cle cmp) l' ∧
    (∀ y, filter (ceq cmp y) l' = filter (ceq cmp y) l) ∧
    (∀ y, y ∉ root :: l → h' !! y = h !! y).
Proof. intros Hord Hc Hlen. by apply clist_sort_spec. Qed.

(** The list 3, 11, 2, 12 sorted by the value modulo ten. *)
Lemma clist_sort_correct_witness :
  let h : heap Z := list_to_map
    [(0, Some 12); (3, Some 11); (11, Some 2); (2, Some 12); (12, Some 3)] in
  ∃ h' l', clist_sort (λ a b, a mod 10 - b mod 10) h 0 = Some h' ∧ clist h' 0 l' ∧
    l' ≡ₚ [3; 11; 2; 12] ∧ StronglySorted (cle (λ a b, a mod 10 - b mod 10)) l' ∧
    (∀ y, filter (ceq (λ a b, a mod 10 - b mod 10) y) l' =
          filter (ceq (λ a b, a mod 10 - b mod 10) y) [3; 11; 2; 12]) ∧
    (∀ y, y ∉ [0; 3; 11; 2; 12] → h' !! y = h !! y).
Proof.
  intros h. apply (clist_sort_correct (λ a b, a mod 10 - b mod 10) h 0 [3; 11; 2; 12]).
  - apply (cmp_order_key (λ x, x mod 10)).
  - split; [reflexivity|]. split; [rewrite !chain_cons; repeat split|].
    apply (bool_decide_unpack _). vm_compute. exact I.
  - simpl. lia.
Defined.
