(* ===== verification/Div.v ===== *)
(** * Division by constants (sys/include/div.h, sys/div/div.c)

    Quotients by multiplication with an approximate inverse, in 64-bit
    arithmetic.  They are exact on ranges that are smaller than the code
    assumes. *)

From S2P Require Import Prelude.

Definition DIV_H_INV_15625_32 : Z := 0x431bde83.
Definition DIV_H_INV_15625_64 : Z := 0x431bde82d7b634db.
Definition DIV_H_INV_15625_SHIFT : Z := 12.

Definition _div_mulhi64 (a b : Z) : Z :=
  let a_lo := u32 a in
  let a_hi := u32 (Z.shiftr a 32) in
  let b_lo := u32 b in
  let b_hi := u32 (Z.shiftr b 32) in
  let a_x_b_mid := u64 (a_hi * b_lo) in
  let b_x_a_mid := u64 (b_hi * a_lo) in
  let a_x_b_lo := u64 (a_lo * b_lo) in
  let a_x_b_hi := u64 (a_hi * b_hi) in
  let carry_bits := u32 (Z.shiftr (u64 (u64 (u32 a_x_b_mid + u32 b_x_a_mid) + Z.shiftr a_x_b_lo 32)) 32) in
  u64 (u64 (u64 (a_x_b_hi + Z.shiftr a_x_b_mid 32) + Z.shiftr b_x_a_mid 32) + carry_bits).

Definition div_u64_by_15625 (val : Z) : Z :=
  if 16383999997 <? val then Z.shiftr (_div_mulhi64 DIV_H_INV_15625_64 val) DIV_H_INV_15625_SHIFT
  else Z.shiftr (u64 (val * DIV_H_INV_15625_32)) (DIV_H_INV_15625_SHIFT + 32).

(** [None] is the failed assertion. *)
Definition div_u64_by_125 (val : Z) : option Z :=
  if val <=? 536870911999 then
    let hi := u32 (Z.shiftr val 32) in
    let lo := u32 val in
    let r := u32 (Z.shiftr lo 16 + u32 (Z.shiftl hi 16)) in
    let res := r / 125 in
    let r := u32 (u32 (Z.shiftl (r mod 125) 16) + Z.land lo 0xFFFF) in
    Some (u32 (u32 (Z.shiftl res 16) + r / 125))
  else None.

Definition div_u64_by_1000000 (val : Z) : Z := Z.shiftr (div_u64_by_15625 val) 6.

Definition div_u32_by_15625div512 (val : Z) : Z :=
  u32 (Z.shiftr (u64 (val * DIV_H_INV_15625_32)) (DIV_H_INV_15625_SHIFT + 32 - 9)).

Definition div_u64_by_15625div512 (val : Z) : Z :=
  if 16383999997 <? val then Z.shiftr (_div_mulhi64 DIV_H_INV_15625_64 val) (DIV_H_INV_15625_SHIFT - 9)
  else Z.shiftr (u64 (val * DIV_H_INV_15625_32)) (DIV_H_INV_15625_SHIFT + 32 - 9).

Definition div_u32_by_44488 (val : Z) : Z := u32 (Z.shiftr (u64 (val * 0xBC8F1391)) (15 + 32)).

Definition div_u32_mod_44488 (val : Z) : Z := u32 (val - u32 (div_u32_by_44488 val * 44488)).

(** ** The upper half of a product *)

Lemma u32_high a : uint 64 a → u32 (Z.shiftr a 32) = a / 2 ^ 32.
Proof.
  unfold uint. intros Ha. rewrite Z.shiftr_div_pow2 by lia. apply wrap_small. split; [apply Z.div_pos; lia|].
  apply Z.div_lt_upper_bound; lia.
Qed.

Lemma mulhi_ok a b : uint 64 a → uint 64 b → _div_mulhi64 a b = a * b / 2 ^ 64.
Proof.
  intros Ha Hb. unfold _div_mulhi64. cbv zeta. rewrite !u32_high by done. rewrite !Z.shiftr_div_pow2 by lia.
  unfold uint, wrap in *.
  pose proof (Z.div_mod a (2 ^ 32) ltac:(lia)) as Ea. pose proof (Z.div_mod b (2 ^ 32) ltac:(lia)) as Eb.
  pose proof (Z.mod_pos_bound a (2 ^ 32) ltac:(lia)) as Ba. pose proof (Z.mod_pos_bound b (2 ^ 32) ltac:(lia)) as Bb.
  assert (0 ≤ a / 2 ^ 32 < 2 ^ 32) as Ca by (split; [apply Z.div_pos|apply Z.div_lt_upper_bound]; lia).
  assert (0 ≤ b / 2 ^ 32 < 2 ^ 32) as Cb by (split; [apply Z.div_pos|apply Z.div_lt_upper_bound]; lia).
  set (ah := a / 2 ^ 32) in *. set (al := a mod 2 ^ 32) in *. set (bh := b / 2 ^ 32) in *. set (bl := b mod 2 ^ 32) in *.
  assert (∀ x y, 0 ≤ x < 2 ^ 32 → 0 ≤ y < 2 ^ 32 → 0 ≤ x * y ≤ (2 ^ 32 - 1) * (2 ^ 32 - 1)) as Hmul
    by (intros x y ??; split; [nia|apply Z.mul_le_mono_nonneg; lia]).
  pose proof (Hmul ah bl Ca Bb) as M1. pose proof (Hmul bh al Cb Ba) as M2. pose proof (Hmul al bl Ba Bb) as M3.
  pose proof (Hmul ah bh Ca Cb) as M4.
  rewrite (Z.mod_small (ah * bl)), (Z.mod_small (bh * al)), (Z.mod_small (al * bl)), (Z.mod_small (ah * bh)) by lia.
  assert (∀ x, 0 ≤ x ≤ (2 ^ 32 - 1) * (2 ^ 32 - 1) → 0 ≤ x / 2 ^ 32 ≤ 2 ^ 32 - 2) as Hd.
  { intros x Hx. split; [apply Z.div_pos; lia|]. apply Z.lt_succ_r, Z.div_lt_upper_bound; lia. }
  pose proof (Hd _ M1) as D1. pose proof (Hd _ M2) as D2. pose proof (Hd _ M3) as D3.
  pose proof (Z.div_mod (ah * bl) (2 ^ 32) ltac:(lia)) as E1. pose proof (Z.div_mod (bh * al) (2 ^ 32) ltac:(lia)) as E2.
  pose proof (Z.div_mod (al * bl) (2 ^ 32) ltac:(lia)) as E3.
  pose proof (Z.mod_pos_bound (ah * bl) (2 ^ 32) ltac:(lia)) as B1.
  pose proof (Z.mod_pos_bound (bh * al) (2 ^ 32) ltac:(lia)) as B2.
  pose proof (Z.mod_pos_bound (al * bl) (2 ^ 32) ltac:(lia)) as B3.
  set (m1 := (ah * bl) mod 2 ^ 32) in *. set (m2 := (bh * al) mod 2 ^ 32) in *.
  set (d1 := ah * bl / 2 ^ 32) in *. set (d2 := bh * al / 2 ^ 32) in *. set (d3 := al * bl / 2 ^ 32) in *.
  pose proof (Z.div_mod (m1 + m2 + d3) (2 ^ 32) ltac:(lia)) as E4.
  pose proof (Z.mod_pos_bound (m1 + m2 + d3) (2 ^ 32) ltac:(lia)) as B4.
  assert (0 ≤ (m1 + m2 + d3) / 2 ^ 32 < 4) as D4 by (split; [apply Z.div_pos; lia|apply Z.div_lt_upper_bound; lia]).
  rewrite (Z.mod_small (m1 + m2)), (Z.mod_small (m1 + m2 + d3)) by lia.
  rewrite (Z.mod_small (_ / _)) by lia. set (d4 := (m1 + m2 + d3) / 2 ^ 32) in *.
  rewrite (Z.mod_small (ah * bh + d1)) by lia. rewrite (Z.mod_small (ah * bh + d1 + d2)) by lia.
  assert (0 ≤ ah * bh + d1 + d2 + d4 < 2 ^ 64) as Hfin by lia. rewrite Z.mod_small by done.
  apply Z.div_unique with (r := ((m1 + m2 + d3) mod 2 ^ 32) * 2 ^ 32 + (al * bl) mod 2 ^ 32); [left; lia|].
  rewrite Ea, Eb. lia.
Qed.

(** ** Multiplication by an inverse *)

(** [c / 2^k] is an inverse of [d] that is too large by [e / (d 2^k)]. *)
Lemma inverse_div c d k e v : 0 < d → 0 ≤ k → c * d = 2 ^ k + e → 0 ≤ e → 0 ≤ v → e * v < 2 ^ k →
  c * v / 2 ^ k = v / d.
Proof.
  intros Hd Hk Hc He Hv Hev. pose proof (Z.pow_pos_nonneg 2 k ltac:(lia) Hk) as Hp. set (p := 2 ^ k) in *.
  symmetry. pose proof (Z.div_mod v d ltac:(lia)) as Ev. pose proof (Z.mod_pos_bound v d ltac:(lia)) as Bv.
  set (q := v / d) in *. set (r := v mod d) in *.
  assert (q * p ≤ c * v < (q + 1) * p) as Hb.
  { split; apply (Z.mul_le_mono_pos_r _ _ d) || apply (Z.mul_lt_mono_pos_r d); try lia; nia. }
  apply Z.div_unique with (r := c * v - q * p); [left; lia|lia].
Qed.

(** In general the quotient is at most one too large. *)
Lemma inverse_div_le c d k e v n : 0 < d → 0 ≤ k → c * d = n * 2 ^ k + e → 0 ≤ e → 0 ≤ v → e * v ≤ d * 2 ^ k →
  n * v / d ≤ c * v / 2 ^ k ≤ n * v / d + 1.
Proof.
  intros Hd Hk Hc He Hv Hev. pose proof (Z.pow_pos_nonneg 2 k ltac:(lia) Hk) as Hp. set (p := 2 ^ k) in *.
  pose proof (Z.div_mod (n * v) d ltac:(lia)) as Ev. pose proof (Z.mod_pos_bound (n * v) d ltac:(lia)) as Bv.
  set (q := n * v / d) in *. set (r := (n * v) mod d) in *. split.
  - apply Z.div_le_lower_bound; [lia|]. apply (Z.mul_le_mono_pos_r _ _ d); [lia|]. nia.
  - apply Z.lt_succ_r, Z.div_lt_upper_bound; [lia|]. apply (Z.mul_lt_mono_pos_r d); [lia|]. nia.
Qed.

(** ** The functions *)

Lemma shiftr_shiftr_mulhi c v k : uint 64 c → uint 64 v → 0 ≤ k →
  Z.shiftr (_div_mulhi64 c v) k = c * v / 2 ^ (64 + k).
Proof.
  intros Hc Hv Hk. rewrite mulhi_ok, Z.shiftr_div_pow2 by done.
  rewrite Z.div_div by (try apply Z.pow_pos_nonneg; lia). by rewrite <- Z.pow_add_r by lia.
Qed.

Lemma shiftr_mul_small c v k : 0 ≤ c → 0 ≤ v → c * v < 2 ^ 64 → 0 ≤ k → Z.shiftr (u64 (v * c)) k = c * v / 2 ^ k.
Proof.
  intros Hc Hv Hcv Hk. rewrite Z.shiftr_div_pow2, (Z.mul_comm v c), wrap_small by (unfold uint; nia). done.
Qed.

(** The bound up to which the 32-bit inverse of 15625 is exact. *)
Definition exact_max : Z := 7154202538.

Lemma div_15625_ok v : uint 64 v → v ≤ exact_max ∨ 16383999997 < v → div_u64_by_15625 v = v / 15625.
Proof.
  unfold uint, exact_max. intros Hv Hr. unfold div_u64_by_15625, DIV_H_INV_15625_SHIFT, DIV_H_INV_15625_64, DIV_H_INV_15625_32.
  destruct (Z.ltb_spec 16383999997 v).
  - rewrite shiftr_shiftr_mulhi by (unfold uint; lia). apply (inverse_div _ 15625 76 2739); lia.
  - rewrite shiftr_mul_small by lia. apply (inverse_div _ 15625 44 2459); lia.
Qed.

Lemma div_15625_le v : uint 64 v → v / 15625 ≤ div_u64_by_15625 v ≤ v / 15625 + 1.
Proof.
  unfold uint. intros Hv. destruct (Z.ltb_spec 16383999997 v); [rewrite div_15625_ok by (unfold uint; lia); lia|].
  unfold div_u64_by_15625, DIV_H_INV_15625_SHIFT, DIV_H_INV_15625_32. rewrite (proj2 (Z.ltb_ge _ _)) by lia.
  rewrite shiftr_mul_small by lia.
  pose proof (inverse_div_le 0x431bde83 15625 44 2459 v 1 ltac:(lia) ltac:(lia) ltac:(lia) ltac:(lia) ltac:(lia) ltac:(lia)).
  by rewrite Z.mul_1_l in *.
Qed.

Lemma div_1000000_ok v : uint 64 v → v ≤ exact_max ∨ 16383999997 < v → div_u64_by_1000000 v = v / 1000000.
Proof.
  intros Hv Hr. unfold div_u64_by_1000000. rewrite div_15625_ok, Z.shiftr_div_pow2, Z.div_div by (done || lia). done.
Qed.

Lemma div_512_le v : uint 64 v → 512 * v / 15625 ≤ div_u64_by_15625div512 v ≤ 512 * v / 15625 + 1.
Proof.
  unfold uint. intros Hv. unfold div_u64_by_15625div512, DIV_H_INV_15625_SHIFT, DIV_H_INV_15625_64, DIV_H_INV_15625_32.
  destruct (Z.ltb_spec 16383999997 v).
  - rewrite shiftr_shiftr_mulhi by (unfold uint; lia). apply (inverse_div_le _ _ 67 2739); lia.
  - rewrite shiftr_mul_small by lia. apply (inverse_div_le _ _ 35 2459); lia.
Qed.

(** Long division of a number of at most 39 bits in two steps. *)
Lemma div_125_ok v : 0 ≤ v ≤ 536870911999 → div_u64_by_125 v = Some (v / 125).
Proof.
  intros Hv. unfold div_u64_by_125. rewrite (proj2 (Z.leb_le _ _)) by lia. cbv zeta. f_equal.
  rewrite u32_high by (unfold uint; lia). change 0xFFFF with (2 ^ 16 - 1). rewrite land_mask by lia.
  rewrite !Z.shiftl_mul_pow2, !Z.shiftr_div_pow2 by lia. unfold wrap.
  pose proof (Z.div_mod v (2 ^ 32) ltac:(lia)) as E1. pose proof (Z.mod_pos_bound v (2 ^ 32) ltac:(lia)) as B1.
  assert (0 ≤ v / 2 ^ 32 < 125) as B2 by (split; [apply Z.div_pos|apply Z.div_lt_upper_bound]; lia).
  set (hi := v / 2 ^ 32) in *. set (lo := v mod 2 ^ 32) in *.
  pose proof (Z.div_mod lo (2 ^ 16) ltac:(lia)) as E3. pose proof (Z.mod_pos_bound lo (2 ^ 16) ltac:(lia)) as B3.
  assert (0 ≤ lo / 2 ^ 16 < 2 ^ 16) as B4 by (split; [apply Z.div_pos|apply Z.div_lt_upper_bound]; lia).
  set (lh := lo / 2 ^ 16) in *. set (ll := lo mod 2 ^ 16) in *.
  rewrite (Z.mod_small (hi * 2 ^ 16)), (Z.mod_small (lh + hi * 2 ^ 16)) by lia.
  set (r := lh + hi * 2 ^ 16) in *.
  pose proof (Z.div_mod r 125 ltac:(lia)) as E5. pose proof (Z.mod_pos_bound r 125 ltac:(lia)) as B5.
  rewrite (Z.mod_small (r mod 125 * 2 ^ 16)), (Z.mod_small (_ + ll)) by lia.
  set (r2 := r mod 125 * 2 ^ 16 + ll) in *.
  pose proof (Z.div_mod r2 125 ltac:(lia)) as E6. pose proof (Z.mod_pos_bound r2 125 ltac:(lia)) as B6.
  assert (0 ≤ r / 125 < 2 ^ 16) as B7 by (split; [apply Z.div_pos|apply Z.div_lt_upper_bound]; unfold r; lia).
  rewrite (Z.mod_small (r / 125 * 2 ^ 16)) by lia.
  assert (v / 125 = r / 125 * 2 ^ 16 + r2 / 125) as <-.
  { symmetry. apply Z.div_unique with (r := r2 mod 125); [left; lia|]. unfold r2, r in *. lia. }
  apply Z.mod_small. split; [apply Z.div_pos|apply Z.div_lt_upper_bound]; lia.
Qed.

Lemma div_44488_ok v : uint 32 v → div_u32_by_44488 v = v / 44488.
Proof.
  unfold uint. intros Hv. unfold div_u32_by_44488. rewrite shiftr_mul_small by lia.
  rewrite (inverse_div _ 44488 47 17992) by lia. apply wrap_small.
  split; [apply Z.div_pos|apply Z.div_lt_upper_bound]; lia.
Qed.

(** C39: The quotients by multiplication are exact, or at most one too large: by 15625
    and 1000000 up to [exact_max] and above 16383999997 (between them one too large
    at some values), by 125 wherever the assertion allows, by 44488 on all 32-bit
    values, by 15625/512 at most one too large on all 64-bit values. *)
Theorem div_correct v : uint 64 v →
  (v ≤ exact_max ∨ 16383999997 < v → div_u64_by_15625 v = v / 15625 ∧ div_u64_by_1000000 v = v / 1000000) ∧
  v / 15625 ≤ div_u64_by_15625 v ≤ v / 15625 + 1 ∧
  div_u64_by_125 v = (if decide (v ≤ 536870911999) then Some (v / 125) else None) ∧
  512 * v / 15625 ≤ div_u64_by_15625div512 v ≤ 512 * v / 15625 + 1 ∧
  (uint 32 v → div_u32_by_44488 v = v / 44488 ∧ div_u32_mod_44488 v = v mod 44488) ∧
  div_u64_by_15625 12603937499 = 12603937499 / 15625 + 1.
Proof.
  intros Hv. split; [intros Hr; split; [by apply div_15625_ok|by apply div_1000000_ok]|].
  split; [by apply div_15625_le|]. split.
  { case_decide as Hc; [apply div_125_ok; unfold uint in Hv; lia|]. unfold div_u64_by_125.
    by rewrite (proj2 (Z.leb_gt _ _)) by lia. }
  split; [by apply div_512_le|]. split; [|reflexivity]. intros H32. rewrite div_44488_ok by done. split; [done|].
  unfold div_u32_mod_44488. rewrite div_44488_ok by done. unfold uint in H32.
  pose proof (Z.div_mod v 44488 ltac:(lia)). pose proof (Z.mod_pos_bound v 44488 ltac:(lia)).
  assert (0 ≤ v / 44488) by (apply Z.div_pos; lia).
  rewrite (wrap_small 32 (_ * _)), wrap_small by (unfold uint; lia). lia.
Qed.

Lemma div_correct_witness : uint 64 (2 ^ 64 - 1) ∧ div_u64_by_15625 (2 ^ 64 - 1) = (2 ^ 64 - 1) / 15625.
Proof. split; [done|]. apply (div_correct (2 ^ 64 - 1)); [done|]. right. vm_compute. reflexivity. Defined.
