(* ===== verification/Xtimer.v ===== *)
(** * Timers (sys/xtimer/xtimer_core.c, cpu/riscv_common/periph/timer.c)

    The timers of a RISC-V target, whose hardware timer has 64 bits
    ([TIMER_64BIT_HW]), at one tick per microsecond, with the default backoff
    and overhead.  [next] pointers are cells of a heap, to which the variable
    [timer_list_head] belongs: a pointer to a pointer is the address of its
    cell.  The hardware counter is read through [mtime], the true time of each
    read; a callback is code of the user, which may use the timers. *)

From S2P Require Import Prelude LinkedList.

(** ** Data *)

(** [xtimer_t]: the [target64] of the union; the null callback is [0]. *)
Record xtimer_t := XTimer { target64 : Z; callback : Z; arg : Z }.

(** The other members of the union, on a little-endian target. *)
Definition target (t : xtimer_t) : Z := u32 (target64 t).
Definition long_target (t : xtimer_t) : Z := Z.shiftr (target64 t) 32.

Definition set_target64 (v : Z) (t : xtimer_t) : xtimer_t := XTimer v (callback t) (arg t).
Definition set_target (v : Z) (t : xtimer_t) : xtimer_t :=
  XTimer (Z.shiftl (long_target t) 32 + v) (callback t) (arg t).
Definition set_long_target (v : Z) (t : xtimer_t) : xtimer_t :=
  XTimer (Z.shiftl v 32 + target t) (callback t) (arg t).

Definition XTIMER_DEV : Z := 0.
Definition XTIMER_CHAN : Z := 0.
Definition XTIMER_BACKOFF : Z := 500.
Definition XTIMER_OVERHEAD : Z := 20.
Definition XTIMER_ISR_BACKOFF : Z := 20.
Definition RV_CORE_TIMER_FREQ : Z := 1000000.
Definition XTIMER_HZ : Z := RV_CORE_TIMER_FREQ.
Definition SPURIOUS_TIMER_ISR_MAX_SPIN : Z := 10.

(** The state: the list, the timers, the hardware timer (compare register and
    interrupt enable), the interrupt flag, whether the driver has a callback (only
    [_periph_timer_callback] is ever registered), the number of reads of the counter
    and the state [user] of the rest of the system. *)
Record xstate (U : Type) := XState {
  nexts : heap Z;
  xtimers : gmap Z xtimer_t;
  _in_handler : bool;
  mtimecmp : Z;
  mie_mtip : bool;
  irq_on : bool;
  isr_cb : bool;
  reads : nat;
  user : U
}.
Arguments XState {U}.
Arguments nexts {U}.
Arguments xtimers {U}.
Arguments _in_handler {U}.
Arguments mtimecmp {U}.
Arguments mie_mtip {U}.
Arguments irq_on {U}.
Arguments isr_cb {U}.
Arguments reads {U}.
Arguments user {U}.

(** Computations that change the state; [None] is an access to no object, a panic
    or a loop that runs out of fuel. *)
Definition X (U A : Type) : Type := xstate U → option (A * xstate U).

#[export] Instance X_ret U : MRet (X U) := λ A a s, Some (a, s).
#[export] Instance X_bind U : MBind (X U) := λ A B f m s, '(a, s') ← m s; f a s'.

Section Code.
Context {U : Type}.
Implicit Types (s : xstate U).
Abbreviation X := (X U).

Definition xget {A} (f : xstate U → A) : X A := λ s, Some (f s, s).
Definition xmodify (f : xstate U → xstate U) : X unit := λ s, Some (tt, f s).
Definition xfault {A} : X A := λ _, None.

Definition set_nexts v s :=
  XState v (xtimers s) (_in_handler s) (mtimecmp s) (mie_mtip s) (irq_on s) (isr_cb s) (reads s) (user s).
Definition set_xtimers v s :=
  XState (nexts s) v (_in_handler s) (mtimecmp s) (mie_mtip s) (irq_on s) (isr_cb s) (reads s) (user s).
Definition set_in_handler v s :=
  XState (nexts s) (xtimers s) v (mtimecmp s) (mie_mtip s) (irq_on s) (isr_cb s) (reads s) (user s).
Definition set_mtimecmp v s :=
  XState (nexts s) (xtimers s) (_in_handler s) v (mie_mtip s) (irq_on s) (isr_cb s) (reads s) (user s).
Definition set_mie_mtip v s :=
  XState (nexts s) (xtimers s) (_in_handler s) (mtimecmp s) v (irq_on s) (isr_cb s) (reads s) (user s).
Definition set_irq_on v s :=
  XState (nexts s) (xtimers s) (_in_handler s) (mtimecmp s) (mie_mtip s) v (isr_cb s) (reads s) (user s).
Definition set_isr_cb v s :=
  XState (nexts s) (xtimers s) (_in_handler s) (mtimecmp s) (mie_mtip s) (irq_on s) v (reads s) (user s).
Definition set_reads v s :=
  XState (nexts s) (xtimers s) (_in_handler s) (mtimecmp s) (mie_mtip s) (irq_on s) (isr_cb s) v (user s).
Definition set_user (v : U) s :=
  XState (nexts s) (xtimers s) (_in_handler s) (mtimecmp s) (mie_mtip s) (irq_on s) (isr_cb s) (reads s) v.

(** [*p] and [*p = v] for a pointer to a [next] pointer. *)
Definition read_next (p : Z) : X (option Z) := λ s, v ← get_next (nexts s) p; Some (v, s).
Definition write_next (p : Z) (v : option Z) : X unit :=
  λ s, h ← set_next (nexts s) p v; Some (tt, set_nexts h s).
Definition get_timer (t : Z) : X xtimer_t := λ s, x ← xtimers s !! t; Some (x, s).
Definition upd_timer (t : Z) (f : xtimer_t → xtimer_t) : X unit :=
  λ s, x ← xtimers s !! t; Some (tt, set_xtimers (<[t := f x]> (xtimers s)) s).

Definition irq_disable : X bool := st ← xget irq_on; xmodify (set_irq_on false);; mret st.
Definition irq_restore (st : bool) : X unit := xmodify (set_irq_on st).

(** The time of each read of the counter, the address of the variable
    [timer_list_head], the user's callbacks and the bound of the loops. *)
Variable mtime : nat → Z.
Variable timer_list_head : Z.
Variable run_callback : Z → Z → X unit.
Variable fuel : nat.

(** ** The driver of the hardware timer *)

Definition read_time_csr : X Z := λ s, Some (u64 (mtime (reads s)), set_reads (S (reads s)) s).

Definition timer_init (dev freq : Z) : X Z :=
  if negb (dev =? 0) then mret (-1)
  else if negb (freq =? RV_CORE_TIMER_FREQ) then mret (-1)
  else xmodify (set_isr_cb true);; mret 0.

Definition timer_read (dev : Z) : X Z :=
  now ← read_time_csr;
  if negb (dev =? 0) then mret 0 else mret now.

Definition timer_set_absolute (dev channel value : Z) : X Z :=
  if negb (dev =? 0) || negb (channel =? 0) then mret (-1)
  else
    xmodify (set_mie_mtip false);;
    xmodify (set_mtimecmp value);;
    xmodify (set_mie_mtip true);;
    mret 0.

Definition timer_set (dev channel timeout : Z) : X Z :=
  now ← read_time_csr;
  let thn := u64 (now + timeout) in
  if negb (dev =? 0) || negb (channel =? 0) then mret (-1)
  else
    xmodify (set_mie_mtip false);;
    xmodify (set_mtimecmp thn);;
    xmodify (set_mie_mtip true);;
    mret 0.

Definition timer_clear (dev channel : Z) : X Z :=
  if negb (dev =? 0) || negb (channel =? 0) then mret (-1) else mret 0.

Definition timer_start (dev : Z) : X unit :=
  if negb (dev =? 0) then mret tt else xmodify (set_mie_mtip true).

Definition timer_stop (dev : Z) : X unit :=
  if negb (dev =? 0) then mret tt else xmodify (set_mie_mtip false).

(** ** The counter and spinning (implementation.h) *)

Definition _xtimer_lltimer_now : X Z := v ← timer_read XTIMER_DEV; mret (u32 (Z.land v 0xFFFFFFFF)).
Definition _xtimer_lltimer_now64 : X Z := timer_read XTIMER_DEV.
Definition _xtimer_lltimer_mask (val : Z) : Z := val.
Definition _xtimer_now : X Z := _xtimer_lltimer_now.
Definition _xtimer_now64 : X Z := _xtimer_lltimer_now64.

(** [while (cond(_xtimer_lltimer_now64()));] *)
Fixpoint spin (n : nat) (cond : Z → bool) : X unit :=
  match n with
  | O => xfault
  | S n => now ← _xtimer_lltimer_now64; if cond now then spin n cond else mret tt
  end.

Definition _xtimer_spin64 (offset : Z) : X unit :=
  start ← _xtimer_lltimer_now64;
  spin fuel (λ now, u64 (now - start) <? offset).

Definition _xtimer_spin (offset : Z) : X unit := _xtimer_spin64 offset.

Definition xtimer_spin_until (target : Z) : X unit :=
  spin fuel (λ now, target <? now);;
  spin fuel (λ now, now <? target).

(** ** The list of timers *)

Definition _is_set (t : xtimer_t) : bool := negb (target t =? 0) || negb (long_target t =? 0).

Definition _shoot (timer : Z) : X unit := t ← get_timer timer; run_callback (callback t) (arg t).

Definition _lltimer_set (target : Z) : X unit :=
  h ← xget _in_handler;
  if h : bool then mret tt
  else timer_set_absolute XTIMER_DEV XTIMER_CHAN (_xtimer_lltimer_mask target);; mret tt.

(** The loop finds the pointer to change. *)
Fixpoint add_loop (n : nat) (list_head timer : Z) : X Z :=
  match n with
  | O => xfault
  | S n =>
      e ← read_next list_head;
      match e with
      | None => mret list_head
      | Some e =>
          te ← get_timer e;
          t ← get_timer timer;
          if target64 te <=? target64 t then add_loop n e timer else mret list_head
      end
  end.

Definition _add_timer_to_list (list_head timer : Z) : X unit :=
  list_head ← add_loop fuel list_head timer;
  e ← read_next list_head;
  write_next timer e;;
  write_next list_head (Some timer).

Fixpoint _remove_timer_from_list (n : nat) (list_head timer : Z) : X Z :=
  match n with
  | O => xfault
  | S n =>
      e ← read_next list_head;
      match e with
      | None => mret 0
      | Some e =>
          if e =? timer then nx ← read_next timer; write_next list_head nx;; mret 1
          else _remove_timer_from_list n e timer
      end
  end.

Definition _remove (timer : Z) : X unit :=
  head ← read_next timer_list_head;
  if decide (head = Some timer) then
    nx ← read_next timer;
    write_next timer_list_head nx;;
    next ← match nx with
           | Some h => t ← get_timer h; mret (u64 (target64 t - XTIMER_OVERHEAD))
           | None => mret (_xtimer_lltimer_mask 0xFFFFFFFFFFFFFFFF)
           end;
    _lltimer_set next
  else _remove_timer_from_list fuel timer_list_head timer;; mret tt.

Definition xtimer_remove (timer : Z) : X unit :=
  state ← irq_disable;
  t ← get_timer timer;
  (if _is_set t then _remove timer else mret tt);;
  irq_restore state.

(** ** Setting timers *)

Definition _xtimer_set_absolute64 (timer target : Z) : X Z :=
  now ← _xtimer_now64;
  write_next timer None;;
  let offset := u64 (target - now) in
  if offset <=? XTIMER_BACKOFF then
    xtimer_spin_until target;;
    _shoot timer;;
    mret 0
  else
    state ← irq_disable;
    t ← get_timer timer;
    (if _is_set t then _remove timer else mret tt);;
    upd_timer timer (set_target64 target);;
    _add_timer_to_list timer_list_head timer;;
    head ← read_next timer_list_head;
    if decide (head = Some timer) then
      now ← _xtimer_now64;
      if target <? now then
        upd_timer timer (set_target64 0);;
        _shoot timer;;
        irq_restore state;;
        mret 0
      else
        _lltimer_set target;;
        irq_restore state;;
        mret 0
    else
      irq_restore state;;
      mret 0.

Definition _xtimer_set (timer offset : Z) : X unit :=
  t ← get_timer timer;
  if callback t =? 0 then mret tt
  else
    xtimer_remove timer;;
    if offset <? XTIMER_BACKOFF then _xtimer_spin offset;; _shoot timer
    else
      now ← _xtimer_now64;
      _xtimer_set_absolute64 timer (u64 (now + offset));;
      mret tt.

Definition _xtimer_set64 (timer offset long_offset : Z) : X unit :=
  t ← get_timer timer;
  if callback t =? 0 then mret tt
  else
    let offset64 := u64 (Z.shiftl long_offset 32 + offset) in
    xtimer_remove timer;;
    if offset64 <? XTIMER_BACKOFF then _xtimer_spin64 offset64;; _shoot timer
    else
      now ← _xtimer_now64;
      _xtimer_set_absolute64 timer (u64 (now + offset64));;
      mret tt.

(** [_xtimer_ticks_from_usec64] is the identity at one tick per microsecond. *)
Definition _xtimer_ticks_from_usec64 (usec : Z) : Z := usec.
Definition _xtimer_usec_from_ticks64 (ticks : Z) : Z := ticks.

Definition xtimer_set64 (timer period_us : Z) : X unit :=
  let ticks := _xtimer_ticks_from_usec64 period_us in
  _xtimer_set64 timer (u32 ticks) (u32 (Z.shiftr ticks 32)).

Definition xtimer_now_usec64 : X Z := t ← _xtimer_now64; mret (_xtimer_usec_from_ticks64 t).

(** ** The interrupt *)

Definition _time_left (target reference : Z) : X Z :=
  now ← _xtimer_lltimer_now;
  if now <? reference then mret 0
  else if now <? target then mret (target - now) else mret 0.

(** [while (_time_left(timer_list_head->target, reference)) {}] *)
Fixpoint wait_loop (n : nat) (target reference : Z) : X unit :=
  match n with
  | O => xfault
  | S n => l ← _time_left target reference; if negb (l =? 0) then wait_loop n target reference else mret tt
  end.

Fixpoint fire_loop (n : nat) (reference : Z) : X unit :=
  match n with
  | O => xfault
  | S n =>
      head ← read_next timer_list_head;
      match head with
      | None => mret tt
      | Some timer =>
          t ← get_timer timer;
          l ← _time_left (target t) reference;
          if l <? XTIMER_ISR_BACKOFF then
            wait_loop fuel (target t) reference;;
            nx ← read_next timer;
            write_next timer_list_head nx;;
            upd_timer timer (set_target 0);;
            upd_timer timer (set_long_target 0);;
            _shoot timer;;
            fire_loop n reference
          else mret tt
      end
  end.

Definition _timer_callback : X unit :=
  xmodify (set_in_handler true);;
  head ← read_next timer_list_head;
  match head with
  | None => xfault
  | Some _ =>
      reference ← _xtimer_lltimer_now64;
      fire_loop fuel reference;;
      now ← _xtimer_lltimer_now64;
      if now <? reference then xfault
      else
        head ← read_next timer_list_head;
        next_target ← match head with
                      | Some h => t ← get_timer h; mret (u32 (target t - XTIMER_OVERHEAD))
                      | None => mret (_xtimer_lltimer_mask 0xFFFFFFFFFFFFFFFF)
                      end;
        xmodify (set_in_handler false);;
        _lltimer_set next_target
  end.

(** The loop of [timer_isr]: true if the interrupt was spurious. *)
Fixpoint isr_loop (n : nat) (now timecmp : Z) : X bool :=
  match n with
  | O => xfault
  | S n =>
      if now <? timecmp then
        now ← read_time_csr;
        if u64 (now + SPURIOUS_TIMER_ISR_MAX_SPIN) <? timecmp then mret true
        else isr_loop n now timecmp
      else mret false
  end.

Definition timer_isr : X unit :=
  now ← read_time_csr;
  timecmp ← xget mtimecmp;
  xmodify (set_mie_mtip false);;
  spurious ← isr_loop fuel now timecmp;
  if spurious : bool then xmodify (set_mie_mtip true)
  else
    xmodify (set_mtimecmp 0xFFFFFFFFFFFFFFFF);;
    cb ← xget isr_cb;
    (if cb : bool then _timer_callback else mret tt);;
    xmodify (set_mie_mtip true).

Definition xtimer_init : X unit :=
  timer_init XTIMER_DEV XTIMER_HZ;;
  _lltimer_set 0xFFFFFFFFFFFFFFFF.
End Code.
