(* ===== verification/XtimerProof.v ===== *)
(** * Correctness of the timers

    The list holds the timers in the order of their targets, and the compare
    register of the hardware timer makes it interrupt before the first one is
    due; setting and removing timers keeps this, and the interrupt fires the
    timers that are due, in order and not early, as long as the counter has not
    passed [2^32]. *)

From stdpp Require Import sorting.
From S2P Require Import Prelude LinkedList Xtimer.

(** ** Running computations *)

Lemma xbind_ok {U A B} (m : X U A) (f : A → X U B) s a s' : m s = Some (a, s') → (m ≫= f) s = f a s'.
Proof. intros Hm. unfold mbind, X_bind. rewrite Hm. done. Qed.

Section Run.
Context {U A B : Type}.
Implicit Types (s : xstate U) (f : A → X U B).

Lemma xb_assoc {C} (m : X U A) f (g : B → X U C) s : ((m ≫= f) ≫= g) s = (m ≫= (λ a, f a ≫= g)) s.
Proof. unfold mbind, X_bind. by destruct (m s) as [[a s']|]. Qed.

Lemma xb_ret a f s : ((mret a : X U A) ≫= f) s = f a s.
Proof. done. Qed.

Lemma xb_get (p : xstate U → A) f s : (xget p ≫= f) s = f (p s) s.
Proof. done. Qed.

Lemma xb_modify g (f : unit → X U B) s : (xmodify g ≫= f) s = f tt (g s).
Proof. done. Qed.

Lemma xb_read_next p v (f : _ → X U B) s : nexts s !! p = Some v → (read_next p ≫= f) s = f v s.
Proof. intros H. apply xbind_ok. unfold read_next, get_next. by rewrite H. Qed.

Lemma xb_write_next p v0 v (f : _ → X U B) s : nexts s !! p = Some v0 →
  (write_next p v ≫= f) s = f tt (set_nexts (<[p := v]> (nexts s)) s).
Proof. intros H. apply xbind_ok. unfold write_next. by rewrite (set_next_ok _ _ _ _ H). Qed.

Lemma xb_get_timer x t (f : _ → X U B) s : xtimers s !! x = Some t → (get_timer x ≫= f) s = f t s.
Proof. intros H. apply xbind_ok. unfold get_timer. by rewrite H. Qed.

Lemma xb_upd_timer x t g (f : _ → X U B) s : xtimers s !! x = Some t →
  (upd_timer x g ≫= f) s = f tt (set_xtimers (<[x := g t]> (xtimers s)) s).
Proof. intros H. apply xbind_ok. unfold upd_timer. by rewrite H. Qed.

Lemma xb_csr mtime (f : _ → X U B) s :
  (read_time_csr mtime ≫= f) s = f (u64 (mtime (reads s))) (set_reads (S (reads s)) s).
Proof. done. Qed.

Lemma xb_now64 mtime (f : _ → X U B) s :
  (_xtimer_lltimer_now64 mtime ≫= f) s = f (u64 (mtime (reads s))) (set_reads (S (reads s)) s).
Proof. done. Qed.

Lemma land_u32 x : Z.land x 0xFFFFFFFF = u32 x.
Proof. apply (land_mask 32). lia. Qed.

Lemma xb_now mtime (f : _ → X U B) s :
  (_xtimer_lltimer_now mtime ≫= f) s = f (u32 (mtime (reads s))) (set_reads (S (reads s)) s).
Proof.
  apply xbind_ok. change (_xtimer_lltimer_now mtime s) with
    (Some (u32 (Z.land (u64 (mtime (reads s))) 0xFFFFFFFF), set_reads (S (reads s)) s)).
  rewrite land_u32, wrap_idem. do 2 f_equal. unfold wrap. apply (mod_mod_pow2 _ 32 64). lia.
Qed.

End Run.

Lemma xb_lltimer_set {U B} v (f : _ → X U B) s :
  (_lltimer_set v ≫= f) s =
    f tt (if _in_handler s then s else set_mie_mtip true (set_mtimecmp v (set_mie_mtip false s))).
Proof. apply xbind_ok. unfold _lltimer_set. rewrite xb_get. by destruct (_in_handler s). Qed.

(** Run the steps that need no hypothesis. *)
Ltac xrun := repeat (rewrite xb_assoc || rewrite xb_ret || rewrite xb_get || rewrite xb_modify ||
  rewrite xb_csr || rewrite xb_now64 || rewrite xb_now).

(** ** Insertion into the list *)

Section Ins.
Implicit Types (l : list Z).

(** Insertion after the timers of the same or an earlier target. *)
Fixpoint ins (tg : Z → Z) (x : Z) l : list Z :=
  match l with
  | [] => [x]
  | y :: l' => if tg y <=? tg x then y :: ins tg x l' else x :: l
  end.

Lemma ins_split tg x l : ∃ l1 l2, l = l1 ++ l2 ∧ ins tg x l = l1 ++ x :: l2 ∧
  Forall (λ y, tg y ≤ tg x) l1 ∧ (∀ y, head l2 = Some y → tg x < tg y).
Proof.
  induction l as [|y l (l1 & l2 & -> & Hi & H1 & H2)]; [by exists [], []|]. cbn [ins].
  destruct (Z.leb_spec (tg y) (tg x)).
  - exists (y :: l1), l2. rewrite Hi. split; [done|]. split; [done|]. split; [by constructor|done].
  - exists [], (y :: l1 ++ l2). split; [done|]. split; [done|]. split; [constructor|]. by intros ? [= <-].
Qed.

Lemma elem_of_ins tg x l y : y ∈ ins tg x l ↔ y = x ∨ y ∈ l.
Proof.
  destruct (ins_split tg x l) as (l1 & l2 & -> & -> & _). rewrite !elem_of_app, elem_of_cons. tauto.
Qed.

Lemma ins_sorted tg x l : StronglySorted (λ a b, tg a ≤ tg b) l → StronglySorted (λ a b, tg a ≤ tg b) (ins tg x l).
Proof.
  induction 1 as [|y l Hs IH Hf]; cbn [ins]; [by repeat constructor|].
  rewrite Forall_forall in Hf. destruct (Z.leb_spec (tg y) (tg x)).
  - constructor; [done|]. apply Forall_forall. intros z [->|Hz]%elem_of_ins; [done|by apply Hf].
  - constructor; [constructor; [done|by apply Forall_forall]|].
    constructor; [lia|]. apply Forall_forall. intros z Hz. specialize (Hf z Hz). lia.
Qed.

Lemma ins_sublist tg x l : l `sublist_of` ins tg x l.
Proof.
  destruct (ins_split tg x l) as (l1 & l2 & -> & -> & _). apply sublist_app; [done|]. by apply sublist_cons.
Qed.

End Ins.

Section Correct.
Context {U : Type}.
Context (mtime : nat → Z) (timer_list_head : Z) (run_callback : Z → Z → X U unit) (fuel : nat).
Implicit Types (s : xstate U) (l : list Z).

(** The counter does not go back. *)
Context (Hmono : ∀ i, mtime i ≤ mtime (S i)) (Hpos : 0 ≤ mtime 0%nat).

Lemma mtime_le i j : (i ≤ j)%nat → mtime i ≤ mtime j.
Proof. induction 1; [done|]. pose proof (Hmono m). lia. Qed.

Lemma mtime_pos i : 0 ≤ mtime i.
Proof. pose proof (mtime_le 0 i). lia. Qed.

(** ** The invariant *)

(** The target of a timer. *)
Definition tgt (m : gmap Z xtimer_t) (x : Z) : Z := from_option target64 0 (m !! x).

Definition armed s l : Prop :=
  mtimecmp s = match head l with
               | None => 2 ^ 64 - 1
               | Some x => mtimecmp s
               end ∧
  ∀ x, head l = Some x → tgt (xtimers s) x - XTIMER_OVERHEAD ≤ mtimecmp s ≤ tgt (xtimers s) x.

Record xlist s l : Prop := {
  xl_list : slist (nexts s) timer_list_head l;
  xl_nodes : dom (nexts s) = {[timer_list_head]} ∪ dom (xtimers s);
  xl_head : timer_list_head ∉ dom (xtimers s);
  xl_targets : Forall (λ x, XTIMER_BACKOFF ≤ tgt (xtimers s) x < 2 ^ 64) l;
  xl_sorted : StronglySorted (λ x y, tgt (xtimers s) x ≤ tgt (xtimers s) y) l
}.

Record xinv s l : Prop := {
  xi_list : xlist s l;
  xi_armed : armed s l;
  xi_handler : _in_handler s = false;
  xi_cb : isr_cb s = true
}.

(** ** The clock *)

Lemma spin_ok n cond s k : (k < n)%nat → cond (u64 (mtime (reads s + k))) = false →
  ∃ j, (j ≤ k)%nat ∧ spin mtime n cond s = Some (tt, set_reads (reads s + S j) s) ∧
    cond (u64 (mtime (reads s + j))) = false.
Proof.
  revert n s. induction k as [|k IH]; intros [|n] s Hk Hc; try lia; cbn [spin]; rewrite xb_now64.
  - exists 0%nat. split; [done|]. split; [|done]. rewrite Nat.add_0_r in Hc. rewrite Hc. by rewrite Nat.add_1_r.
  - destruct (cond (u64 (mtime (reads s)))) eqn:Hc0.
    + destruct (IH n (set_reads (S (reads s)) s) ltac:(lia)) as (j & Hj & Hs & Hcj).
      { cbn [reads set_reads]. by rewrite Nat.add_succ_l, <- Nat.add_succ_r. }
      exists (S j). split; [lia|]. cbn [reads set_reads] in Hs, Hcj.
      rewrite Nat.add_succ_l, <- Nat.add_succ_r in Hcj. split; [|done]. rewrite Hs. do 2 f_equal.
      unfold set_reads. cbn. f_equal. lia.
    + exists 0%nat. split; [lia|]. rewrite Nat.add_0_r. split; [|done]. by rewrite Nat.add_1_r.
Qed.

(** ** The list *)

Lemma tgt_lookup m x t : m !! x = Some t → tgt m x = target64 t.
Proof. intros H. unfold tgt. by rewrite H. Qed.

Lemma add_loop_ok m s timer t l2 : ∀ l1 n root, xtimers s = m → m !! timer = Some t →
  slist (nexts s) root (l1 ++ l2) → (∀ x, x ∈ l2 → is_Some (m !! x)) → (length l2 < n)%nat →
  ∃ p q, l2 = p ++ q ∧ ins (tgt m) timer l2 = p ++ timer :: q ∧
    add_loop n (default root (last l1)) timer s = Some (default root (last (l1 ++ p)), s).
Proof.
  induction l2 as [|y l2 IH]; intros l1 [|n] root Hm Ht Hs Hin Hn; cbn [length] in Hn; try lia; cbn [add_loop ins];
    rewrite (xb_read_next _ _ _ _ (slist_prev_lookup _ _ _ _ Hs)); cbn [head].
  - exists [], []. split; [done|]. split; [done|]. by rewrite (app_nil_r l1).
  - destruct (Hin y ltac:(by left)) as [ty Hy]. subst m. rewrite (xb_get_timer _ _ _ _ Hy), (xb_get_timer _ _ _ _ Ht).
    rewrite (tgt_lookup _ _ _ Hy), (tgt_lookup _ _ _ Ht).
    destruct (target64 ty <=? target64 t).
    + replace (l1 ++ y :: l2) with ((l1 ++ [y]) ++ l2) in Hs by (by rewrite <- app_assoc).
      destruct (IH (l1 ++ [y]) n root eq_refl Ht Hs) as (p & q & -> & Hi & Hl); [|lia|].
      { intros x Hx. apply Hin. by right. }
      exists (y :: p), q. split; [done|]. rewrite Hi. split; [done|]. rewrite last_snoc in Hl. change (default root (Some y)) with y in Hl.
      rewrite Hl. do 2 f_equal. by rewrite <- app_assoc.
    + exists [], (y :: l2). split; [done|]. split; [done|]. by rewrite (app_nil_r l1).
Qed.

(** The state after a change of the list and the timers. *)
Lemma add_timer_ok s timer t l : (length l < fuel)%nat →
  slist (nexts s) timer_list_head l → xtimers s !! timer = Some t →
  timer ∈ dom (nexts s) → timer ∉ timer_list_head :: l → (∀ x, x ∈ l → is_Some (xtimers s !! x)) →
  ∃ h, _add_timer_to_list fuel timer_list_head timer s = Some (tt, set_nexts h s) ∧
    slist h timer_list_head (ins (tgt (xtimers s)) timer l) ∧ dom h = dom (nexts s).
Proof.
  intros Hf Hs Ht Hd Hnew Hin.
  destruct (add_loop_ok (xtimers s) s timer t l [] fuel timer_list_head eq_refl Ht Hs Hin Hf) as (p & q & -> & -> & Hl).
  unfold _add_timer_to_list. cbn [last default app] in Hl.
  rewrite (xbind_ok _ _ _ _ _ Hl), (xb_read_next _ _ _ _ (slist_prev_lookup _ _ _ _ Hs)).
  apply elem_of_dom in Hd as [v Hv]. rewrite (xb_write_next _ _ _ _ _ Hv). unfold write_next. cbn [nexts set_nexts].
  pose proof (slist_insert _ _ _ _ timer v Hs Hv Hnew) as Hs'. cbv zeta in Hs'. rewrite first_None in Hs'.
  rewrite (set_next_ok _ _ (head q)).
  2: { rewrite lookup_insert_ne; [apply (slist_prev_lookup _ _ _ _ Hs)|]. intros ->. apply Hnew.
       destruct (last p) as [a|] eqn:Ha; [change (a ∈ timer_list_head :: p ++ q)|by left].
       apply elem_of_cons. right. apply elem_of_app. left. by apply last_Some_elem_of. }
  eexists. split; [done|]. split; [done|].
  rewrite !dom_insert_L. assert (timer ∈ dom (nexts s)) by (by apply elem_of_dom).
  assert (default timer_list_head (last p) ∈ dom (nexts s)).
  { apply elem_of_dom. rewrite (slist_prev_lookup _ _ _ _ Hs). by eexists. }
  set_solver.
Qed.

Lemma set_nexts_same s : set_nexts (nexts s) s = s.
Proof. by destruct s. Qed.

Lemma remove_loop_ok n lh timer s :
  _remove_timer_from_list n lh timer s =
    '(r, h) ← list_remove_loop n (nexts s) lh timer; Some (b2z (notnull r), set_nexts h s).
Proof.
  revert lh. induction n as [|n IH]; intros lh; [done|]. cbn [_remove_timer_from_list list_remove_loop].
  unfold get_next. destruct (nexts s !! lh) as [e|] eqn:He.
  2: { unfold read_next, get_next, mbind, X_bind. by rewrite He. }
  rewrite (xb_read_next _ _ _ _ He). cbn [mbind option_bind]. destruct e as [e|].
  2: { cbn [mbind option_bind notnull b2z]. by rewrite set_nexts_same. }
  destruct (Z.eqb_spec e timer) as [->|Hne]; [rewrite decide_True by done|rewrite decide_False by done; apply IH].
  destruct (nexts s !! timer) as [nn|] eqn:Hn.
  2: { unfold read_next, get_next, mbind, X_bind. by rewrite Hn. }
  rewrite (xb_read_next _ _ _ _ Hn). cbn [mbind option_bind].
  rewrite (xb_write_next _ _ _ _ _ He), (set_next_ok _ _ _ _ He). done.
Qed.

Lemma remove_from_list_ok s timer l : slist (nexts s) timer_list_head l → (length l < fuel)%nat →
  ∃ h r, _remove_timer_from_list fuel timer_list_head timer s = Some (r, set_nexts h s) ∧
    slist h timer_list_head (filter (λ x, x ≠ timer) l) ∧ dom h = dom (nexts s).
Proof.
  intros Hs Hf. destruct (list_remove_loop_filter _ _ _ _ timer Hs Hf) as (h & Hr & Hs' & _).
  rewrite remove_loop_ok. pose proof (list_remove_loop_dom _ _ _ _ _ _ Hr) as Hd. rewrite Hr. mred.
  by exists h, (b2z (notnull (if decide (timer ∈ l) then Some timer else None))).
Qed.

Lemma filter_sorted (R : Z → Z → Prop) (P : Z → Prop) `{!∀ x, Decision (P x)} l :
  StronglySorted R l → StronglySorted R (filter P l).
Proof.
  induction 1 as [|x l Hs IH Hf]; [constructor|]. rewrite filter_cons. case_decide; [|done].
  constructor; [done|]. apply Forall_forall. intros y [_ Hy]%list_elem_of_filter.
  by apply (proj1 (Forall_forall _ _) Hf).
Qed.

(** ** Removing *)

(** Only the list changes, and the compare register. *)
Definition relisted s s' : Prop :=
  xtimers s' = xtimers s ∧ reads s' = reads s ∧ user s' = user s ∧ irq_on s' = irq_on s.

Lemma xlist_nexts s l (P : Z → Prop) `{!∀ x, Decision (P x)} s' : xlist s l →
  slist (nexts s') timer_list_head (filter P l) → dom (nexts s') = dom (nexts s) → xtimers s' = xtimers s →
  xlist s' (filter P l).
Proof.
  intros [H1 H2 H3 H4 H5] Hs Hd Hx. split; rewrite ?Hx; [done|by rewrite Hd|done|..].
  - apply Forall_forall. intros x [_ Hin]%list_elem_of_filter. by apply (proj1 (Forall_forall _ _) H4).
  - by apply filter_sorted.
Qed.

Lemma lltimer_set_ok v s : _in_handler s = false →
  _lltimer_set v s = Some (tt, set_mie_mtip true (set_mtimecmp v (set_mie_mtip false s))).
Proof. intros Hh. unfold _lltimer_set. rewrite xb_get, Hh. done. Qed.

Lemma filter_ne_notin x l : x ∉ l → filter (λ y, y ≠ x) l = l.
Proof. intros Hx. apply list_filter_all, Forall_forall. by intros y Hy ->. Qed.

Lemma xlist_target s l x : xlist s l → x ∈ l → ∃ t, xtimers s !! x = Some t ∧ tgt (xtimers s) x = target64 t ∧
  XTIMER_BACKOFF ≤ target64 t < 2 ^ 64.
Proof.
  intros [_ _ _ H _] Hx. rewrite Forall_forall in H. specialize (H x Hx). unfold tgt in *.
  destruct (xtimers s !! x) as [t|]; [by exists t|]. unfold XTIMER_BACKOFF in H. simpl in H. lia.
Qed.

Lemma remove_ok s timer l : xinv s l → (length l < fuel)%nat →
  ∃ s', _remove timer_list_head fuel timer s = Some (tt, s') ∧ relisted s s' ∧
    xinv s' (filter (λ x, x ≠ timer) l).
Proof.
  intros [Hx Ha Hh Hcb] Hf. pose proof Hx as [Hs Hd Hnh Ht Hst]. pose proof Hs as (Hr & Hc & Hnd).
  unfold _remove. rewrite (xb_read_next _ _ _ _ Hr). case_decide as Hhd.
  - destruct l as [|y l]; [done|]. injection Hhd as ->. rewrite chain_cons, first_None in Hc. destruct Hc as [Hn Hc].
    rewrite (xb_read_next _ _ _ _ Hn), (xb_write_next _ _ _ _ _ Hr).
    pose proof (slist_remove _ _ [] timer l Hs) as Hs'. cbn [last default app] in Hs'. rewrite first_None in Hs'.
    assert (filter (λ x, x ≠ timer) (timer :: l) = l) as Hfl.
    { rewrite filter_cons_False by (by intros []). apply filter_ne_notin.
      apply NoDup_cons in Hnd as [_ Hnd]. by apply NoDup_cons in Hnd as [? _]. }
    assert (∀ s', nexts s' = <[timer_list_head := head l]> (nexts s) → xtimers s' = xtimers s →
      xlist s' (filter (λ x, x ≠ timer) (timer :: l))) as Hx'.
    { intros s' E1 E2. apply (xlist_nexts s); [done|by rewrite E1, Hfl| |done].
      rewrite E1, dom_insert_lookup_L; [done|by eexists]. }
    destruct l as [|z l]; cbn [head].
    + rewrite xb_ret, lltimer_set_ok by done. eexists. split; [done|]. split; [done|].
      split; [by apply Hx'| |done|done]. rewrite Hfl. split; [done|]. by intros ? [=].
    + destruct (xlist_target s (timer :: z :: l) z Hx ltac:(right; by left)) as (t & Hz & Htz & Hb).
      rewrite xb_assoc, (xb_get_timer _ t) by done. rewrite xb_ret, lltimer_set_ok by done.
      eexists. split; [done|]. split; [done|]. split; [by apply Hx'| |done|done]. rewrite Hfl. split; [done|].
      intros ? [= <-]. cbn [mtimecmp set_mie_mtip set_mtimecmp xtimers set_nexts].
      unfold XTIMER_BACKOFF, XTIMER_OVERHEAD in *. rewrite Htz, wrap_small by (unfold uint; lia). lia.
  - destruct (remove_from_list_ok s timer l Hs Hf) as (h & r & Hrm & Hs' & Hd').
    rewrite (xbind_ok _ _ _ _ _ Hrm). exists (set_nexts h s). split; [done|]. split; [done|].
    split; [by apply (xlist_nexts s)| |done|done].
    destruct l as [|y l]; [done|]. rewrite filter_cons_True by (intros ->; by apply Hhd). done.
Qed.

Lemma is_set_iff t : uint 64 (target64 t) → _is_set t = negb (target64 t =? 0).
Proof.
  unfold uint. intros Ht. unfold _is_set, target, long_target. rewrite Z.shiftr_div_pow2 by lia. unfold wrap.
  pose proof (Z.div_mod (target64 t) (2 ^ 32) ltac:(lia)). pose proof (Z.mod_pos_bound (target64 t) (2 ^ 32) ltac:(lia)).
  destruct (Z.eqb_spec (target64 t) 0) as [->|]; [done|].
  destruct (Z.eqb_spec (target64 t mod 2 ^ 32) 0), (Z.eqb_spec (target64 t / 2 ^ 32) 0); done || lia.
Qed.

(** What the invariant depends on. *)
Lemma xlist_ext s s' l : xlist s l → nexts s' = nexts s → xtimers s' = xtimers s → xlist s' l.
Proof. intros [H1 H2 H3 H4 H5] E1 E2. split; rewrite ?E1, ?E2; done. Qed.

Lemma xinv_ext s s' l : xinv s l → nexts s' = nexts s → xtimers s' = xtimers s → mtimecmp s' = mtimecmp s →
  _in_handler s' = _in_handler s → isr_cb s' = isr_cb s → xinv s' l.
Proof.
  intros [H1 [H2 H2'] H3 H3'] E1 E2 E3 E4 E5. split; [by apply (xlist_ext s)| |by rewrite E4|by rewrite E5].
  split; rewrite E3; [by destruct l|]. by rewrite E2.
Qed.

(** Removing a timer if it is set. *)
Lemma remove_if_set_ok s timer t l : xinv s l → (length l < fuel)%nat → xtimers s !! timer = Some t →
  uint 64 (target64 t) →
  ∃ s', (if _is_set t then _remove timer_list_head fuel timer else mret tt) s = Some (tt, s') ∧ relisted s s' ∧
    xinv s' (filter (λ x, x ≠ timer) l).
Proof.
  intros Hi Hf Ht Hu. rewrite is_set_iff by done. destruct (Z.eqb_spec (target64 t) 0) as [H0|]; cbn [negb].
  - exists s. split; [done|]. split; [done|]. rewrite filter_ne_notin; [done|]. intros Hin.
    destruct (xlist_target s l timer (xi_list _ _ Hi) Hin) as (t' & Ht' & _ & Hb). simplify_eq.
    unfold XTIMER_BACKOFF in Hb. lia.
  - by apply remove_ok.
Qed.

Lemma xtimer_remove_ok s timer t l : xinv s l → (length l < fuel)%nat → xtimers s !! timer = Some t →
  uint 64 (target64 t) →
  ∃ s', xtimer_remove timer_list_head fuel timer s = Some (tt, s') ∧ relisted s s' ∧
    xinv s' (filter (λ x, x ≠ timer) l).
Proof.
  intros Hi Hf Ht Hu. unfold xtimer_remove, irq_disable. xrun.
  rewrite (xb_get_timer _ t) by done.
  destruct (remove_if_set_ok (set_irq_on false s) timer t l) as (s' & Hrm & (E1 & E2 & E3 & E4) & Hi'); try done.
  { by apply (xinv_ext s). }
  rewrite (xbind_ok _ _ _ _ _ Hrm). eexists. split; [done|]. split; [done|]. by apply (xinv_ext s').
Qed.

(** ** Setting *)

Lemma tgt_insert_ne m x t y : y ≠ x → tgt (<[x := t]> m) y = tgt m y.
Proof. intros H. unfold tgt. by rewrite lookup_insert_ne. Qed.

(** Changing a timer that is not in the list. *)
Lemma xlist_upd s l timer t : xlist s l → timer ∉ l → timer ∈ dom (xtimers s) →
  xlist (set_xtimers (<[timer := t]> (xtimers s)) s) l.
Proof.
  intros [H1 H2 H3 H4 H5] Hn Hd. split; cbn [nexts xtimers set_xtimers]; [done|..].
  - rewrite H2, dom_insert_L. set_solver.
  - rewrite dom_insert_L. set_solver.
  - rewrite Forall_forall in *. intros x Hx. rewrite tgt_insert_ne by (by intros ->). by apply H4.
  - clear -H5 Hn. induction H5 as [|x l Hs IH Hf]; constructor.
    + apply IH. set_solver.
    + rewrite Forall_forall in *. intros y Hy. rewrite !tgt_insert_ne by set_solver. by apply Hf.
Qed.

Lemma xinv_upd s l timer t : xinv s l → timer ∉ l → timer ∈ dom (xtimers s) →
  xinv (set_xtimers (<[timer := t]> (xtimers s)) s) l.
Proof.
  intros [H1 [H2 H2'] H3 H3'] Hn Hd. split; [by apply xlist_upd| |done|done]. split; [done|].
  intros x Hx. cbn [xtimers set_xtimers mtimecmp]. rewrite tgt_insert_ne; [by apply H2'|].
  intros ->. apply Hn. destruct l; [done|]. injection Hx as ->. by left.
Qed.

Lemma xlist_clear_next s l timer : xlist s l → timer ∉ l → timer ∈ dom (xtimers s) →
  xlist (set_nexts (<[timer := None]> (nexts s)) s) l.
Proof.
  intros [H1 H2 H3 H4 H5] Hn Hd. split; cbn [nexts xtimers set_nexts]; try done.
  - apply (slist_frame (nexts s)); [|done]. intros x Hx. apply lookup_insert_ne. intros <-. set_solver.
  - rewrite dom_insert_L. set_solver.
Qed.

Lemma xinv_clear_next s l timer : xinv s l → timer ∉ l → timer ∈ dom (xtimers s) →
  xinv (set_nexts (<[timer := None]> (nexts s)) s) l.
Proof. intros [H1 [H2 H2'] H3 H4] Hn Hd. by split; [apply xlist_clear_next| | |]. Qed.

(** Adding a timer whose target is set: the list is ordered, the compare register
    is not yet changed. *)
Lemma add_to_list_ok s l timer t : xlist s l → (length l < fuel)%nat → timer ∉ l →
  xtimers s !! timer = Some t → XTIMER_BACKOFF ≤ target64 t < 2 ^ 64 →
  ∃ h, _add_timer_to_list fuel timer_list_head timer s = Some (tt, set_nexts h s) ∧
    xlist (set_nexts h s) (ins (tgt (xtimers s)) timer l) ∧
    h !! timer_list_head = Some (head (ins (tgt (xtimers s)) timer l)).
Proof.
  intros Hx Hf Hn Ht Hb. pose proof Hx as [H1 H2 H3 H4 H5].
  assert (timer ∈ dom (xtimers s)) as Hd by (apply elem_of_dom; by eexists).
  destruct (add_timer_ok s timer t l Hf H1 Ht) as (h & Hadd & Hs & Hdh); [set_solver|set_solver| |].
  { intros x Hin. destruct (xlist_target s l x Hx Hin) as (t' & ? & _). by exists t'. }
  exists h. split; [done|]. split; [|by apply Hs].
  split; cbn [nexts xtimers set_nexts]; [done|by rewrite Hdh|done| |by apply ins_sorted].
  apply Forall_forall. intros x [->|Hin]%elem_of_ins; [by rewrite (tgt_lookup _ _ _ Ht)|].
  by apply (proj1 (Forall_forall _ _) H4).
Qed.

Lemma set_absolute_ok s timer t l tg : xinv s l → (length l < fuel)%nat → timer ∉ l →
  xtimers s !! timer = Some t → uint 64 (target64 t) → uint 64 tg →
  mtime (reads s) < 2 ^ 64 → XTIMER_BACKOFF < tg - mtime (reads s) → mtime (S (reads s)) ≤ tg →
  ∃ s', _xtimer_set_absolute64 mtime timer_list_head run_callback fuel timer tg s = Some (0, s') ∧
    xtimers s' = <[timer := set_target64 tg t]> (xtimers s) ∧ user s' = user s ∧ irq_on s' = irq_on s ∧
    (reads s' ≤ 2 + reads s)%nat ∧ xinv s' (ins (tgt (xtimers s')) timer l).
Proof.
  intros Hi Hf Hn Ht Hu Htg Hm Hoff Hlate. unfold uint in Htg. pose proof (mtime_pos (reads s)).
  assert (timer ∈ dom (xtimers s)) as Hd by (apply elem_of_dom; by eexists).
  pose proof (xi_list _ _ Hi) as [_ Hdn _ _ _].
  assert (∃ v, nexts s !! timer = Some v) as [v Hv] by (apply elem_of_dom; set_solver).
  unfold _xtimer_set_absolute64, _xtimer_now64, irq_disable. rewrite xb_now64, (xb_write_next _ v) by done.
  cbv zeta. rewrite (wrap_small 64 (mtime _)) by (unfold uint; lia).
  unfold XTIMER_BACKOFF in *.
  rewrite wrap_small, (proj2 (Z.leb_gt _ _)) by (unfold uint; lia). xrun. rewrite (xb_get_timer _ t) by done.
  edestruct (remove_if_set_ok (set_irq_on false (set_nexts (<[timer := None]> (nexts (set_reads (S (reads s)) s)))
    (set_reads (S (reads s)) s))) timer t l) as (s1 & Hrm & (E1 & E2 & E3 & E4) & Hi1); try done.
  { apply (xinv_ext (set_nexts (<[timer := None]> (nexts s)) s)); try done. by apply xinv_clear_next. }
  rewrite filter_ne_notin in Hi1 by done. cbn [xtimers reads user irq_on set_irq_on set_nexts set_reads] in E1, E2, E3, E4.
  rewrite (xbind_ok _ _ _ _ _ Hrm). rewrite (xb_upd_timer _ t) by (by rewrite E1).
  set (s2 := set_xtimers _ s1).
  assert (xinv s2 l) as Hi2 by (apply xinv_upd; [done|done|by rewrite E1]).
  destruct (add_to_list_ok s2 l timer (set_target64 tg t) (xi_list _ _ Hi2) Hf Hn) as (h & Hadd & Hx & Hhd).
  { unfold s2. cbn [xtimers set_xtimers]. apply lookup_insert_eq. }
  { cbn [target64 set_target64]. unfold XTIMER_BACKOFF. lia. }
  rewrite (xbind_ok _ _ _ _ _ Hadd), (xb_read_next _ _ _ (set_nexts h s2) Hhd).
  set (l' := ins (tgt (xtimers s2)) timer l) in *.
  pose proof (xi_handler _ _ Hi2) as Hh2.
  assert (tgt (xtimers s2) timer = tg) as Htt by (unfold tgt, s2; cbn [xtimers set_xtimers]; by rewrite lookup_insert_eq).
  assert (xtimers s2 = <[timer := set_target64 tg t]> (xtimers s)) as Ex by (unfold s2; cbn; by rewrite E1).
  case_decide as Hcase.
  - rewrite xb_now64. cbn [reads set_nexts]. replace (reads s2) with (S (reads s)) by (unfold s2; cbn; by rewrite E2).
    pose proof (mtime_pos (S (reads s))).
    rewrite wrap_small, (proj2 (Z.ltb_ge _ _)) by (unfold uint; lia).
    rewrite xb_lltimer_set. cbn [_in_handler set_reads set_nexts]. rewrite Hh2. unfold irq_restore. xrun.
    eexists. split; [done|]. split; [exact Ex|]. split; [exact E3|]. split; [done|]. split; [cbn; lia|].
    change (ins _ timer l) with l'.
    split; [by apply (xlist_ext (set_nexts h s2))| |done|exact (xi_cb _ _ Hi2)].
    split; rewrite Hcase; [done|]. cbn [xtimers mtimecmp set_reads set_nexts set_irq_on set_mie_mtip set_mtimecmp].
    intros ? [= <-]. rewrite Htt. unfold XTIMER_OVERHEAD. lia.
  - unfold irq_restore. xrun. eexists. split; [done|]. split; [exact Ex|]. split; [exact E3|]. split; [done|].
    split; [cbn; rewrite E2; lia|]. change (ins _ timer l) with l'.
    split; [by apply (xlist_ext (set_nexts h s2))| |done|exact (xi_cb _ _ Hi2)].
    assert (head l' = head l) as Hhl.
    { unfold l' in Hcase |- *. destruct l as [|y l0]; [done|]. cbn [ins] in *. by destruct (tgt (xtimers s2) y <=? _). }
    destruct (xi_armed _ _ Hi2) as [Ha1 Ha2]. split; rewrite Hhl; [exact Ha1|exact Ha2].
Qed.
(** Spinning for an offset ends at the first read that is late enough. *)
Lemma spin64_ok s off k : (k < fuel)%nat → 0 ≤ off < 2 ^ 64 →
  mtime (reads s) + off ≤ mtime (reads s + S k) < mtime (reads s) + 2 ^ 64 →
  ∃ j, _xtimer_spin64 mtime fuel off s = Some (tt, set_reads (reads s + S (S j)) s) ∧
    mtime (reads s) + off ≤ mtime (reads s + S j).
Proof.
  intros Hk Hoff Hm. unfold _xtimer_spin64. rewrite xb_now64.
  pose proof (mtime_le (reads s)) as Hle.
  destruct (spin_ok fuel (λ now, u64 (now - u64 (mtime (reads s))) <? off) (set_reads (S (reads s)) s) k Hk)
    as (j & Hj & Hs & Hc); cbn [reads set_reads] in *.
  - apply Z.ltb_ge. rewrite wrap_sub_idem_l, wrap_sub_idem_r. rewrite Nat.add_succ_l, <- Nat.add_succ_r.
    rewrite wrap_small; [lia|]. specialize (Hle (reads s + S k)%nat). unfold uint. lia.
  - exists j. rewrite Nat.add_succ_l, <- Nat.add_succ_r in Hs, Hc. split; [exact Hs|].
    apply Z.ltb_ge in Hc. rewrite wrap_sub_idem_l, wrap_sub_idem_r in Hc.
    specialize (Hle (reads s + S j)%nat ltac:(lia)).
    assert (wrap 64 (mtime (reads s + S j) - mtime (reads s)) ≤ mtime (reads s + S j) - mtime (reads s)) as Hw
      by (apply Z.mod_le; lia).
    lia.
Qed.

(** C37: Removing a timer takes it off the list; setting one [off] ticks ahead puts it
    on the list at its target, after the timers due at the same time or before, with
    the list sorted and the compare register armed for its head, when the clock does
    not pass the target before the last read of it; one too close is fired at once by
    spinning, and not before its time. *)
Theorem xtimer_set_outcome s timer t l offset long_offset :
  xinv s l → (length l < fuel)%nat → xtimers s !! timer = Some t → uint 64 (target64 t) →
  uint 32 offset → uint 32 long_offset →
  let off := long_offset * 2 ^ 32 + offset in
  let now := mtime (reads s) in
  let l' := filter (λ x, x ≠ timer) l in
  let set64 := _xtimer_set64 mtime timer_list_head run_callback fuel timer offset long_offset s in
  now + off < 2 ^ 64 →
  (∃ s', xtimer_remove timer_list_head fuel timer s = Some (tt, s') ∧ relisted s s' ∧ xinv s' l') ∧
  (callback t = 0 → set64 = Some (tt, s)) ∧
  (callback t ≠ 0 → XTIMER_BACKOFF ≤ off →
   XTIMER_BACKOFF < now + off - mtime (S (reads s)) → mtime (2 + reads s)%nat ≤ now + off →
   ∃ s', set64 = Some (tt, s') ∧
     xtimers s' = <[timer := set_target64 (now + off) t]> (xtimers s) ∧ user s' = user s ∧
     xinv s' (ins (tgt (xtimers s')) timer l')) ∧
  (callback t ≠ 0 → off < XTIMER_BACKOFF →
   (∃ k, (k < fuel)%nat ∧ now + off ≤ mtime (reads s + S k) < now + 2 ^ 64) →
   ∃ s', set64 = run_callback (callback t) (arg t) s' ∧ user s' = user s ∧ xinv s' l' ∧
     now + off ≤ mtime (pred (reads s'))).
Proof.
  intros Hi Hf Ht Hu Ho Hlo off now l' set64 Hmax. pose proof (xtimer_remove_ok s timer t l Hi Hf Ht Hu) as Hrm.
  split; [exact Hrm|]. destruct Hrm as (s1 & Hrm & (E1 & E2 & E3 & E4) & Hi1). fold l' in Hi1.
  pose proof (mtime_pos (reads s)). unfold uint in Ho, Hlo.
  assert (length l' < fuel)%nat as Hf' by (pose proof (length_filter (λ x, x ≠ timer) l); unfold l'; lia).
  assert (Z.shiftl long_offset 32 + offset = off) as Hsh by (unfold off; by rewrite Z.shiftl_mul_pow2 by lia).
  assert (timer ∉ l') as Hnin by (unfold l'; rewrite list_elem_of_filter; tauto).
  unfold set64, _xtimer_set64. rewrite (xb_get_timer _ t) by done. cbv zeta.
  rewrite Hsh, (wrap_small 64 off) by (unfold uint, off; lia).
  split; [by intros ->|]. split; intros Hcb.
  - intros Hoff Hfar Hlate. rewrite (proj2 (Z.eqb_neq _ _) Hcb).
    rewrite (xbind_ok _ _ _ _ _ Hrm), (proj2 (Z.ltb_ge _ _)) by done.
    unfold _xtimer_now64. rewrite xb_now64, E2. fold now.
    rewrite (wrap_small 64 now), (wrap_small 64 (now + off)) by (unfold uint; lia).
    pose proof (Hmono (S (reads s))). change (mtime (2 + reads s)) with (mtime (S (S (reads s)))) in Hlate.
    destruct (set_absolute_ok (set_reads (S (reads s)) s1) timer t l' (now + off)) as (s2 & Hset & X1 & X2 & _ & _ & X3);
      cbn [reads xtimers set_reads]; try done; try (unfold uint; lia); try lia.
    { by apply (xinv_ext s1). } { by rewrite E1. }
    rewrite (xbind_ok _ _ _ _ _ Hset). exists s2. split; [done|]. cbn [xtimers user set_reads] in *.
    rewrite E1 in X1. by rewrite <- E3.
  - intros Hoff (k & Hk & Hkm). rewrite (proj2 (Z.eqb_neq _ _) Hcb).
    rewrite (xbind_ok _ _ _ _ _ Hrm), (proj2 (Z.ltb_lt _ _)) by done.
    destruct (spin64_ok s1 off k) as (j & Hspin & Htime); [done|unfold XTIMER_BACKOFF in *; unfold off in *; lia|by rewrite E2|].
    rewrite (xbind_ok _ _ _ _ _ Hspin). unfold _shoot. rewrite (xb_get_timer _ t) by (cbn; by rewrite E1).
    eexists. split; [done|]. split; [done|]. split; [by apply (xinv_ext s1)|].
    cbn [reads set_reads]. rewrite E2 in Htime |- *. by rewrite Nat.add_succ_r.
Qed.

Lemma is_set_zero t : target64 t = 0 → _is_set t = false.
Proof. intros H. rewrite is_set_iff; rewrite H; done. Qed.

(** Setting a timer from a handler: it is put on the list; the compare register is
    left to the interrupt. *)
Lemma set_absolute_in_handler s x t l tg : xlist s l → _in_handler s = true → x ∉ l → (length l < fuel)%nat →
  xtimers s !! x = Some t → target64 t = 0 → uint 64 tg →
  mtime (reads s) < 2 ^ 64 → XTIMER_BACKOFF < tg - mtime (reads s) → mtime (S (reads s)) ≤ tg →
  ∃ s', _xtimer_set_absolute64 mtime timer_list_head run_callback fuel x tg s = Some (0, s') ∧
    xtimers s' = <[x := set_target64 tg t]> (xtimers s) ∧ xlist s' (ins (tgt (xtimers s')) x l) ∧
    user s' = user s ∧ _in_handler s' = true ∧ isr_cb s' = isr_cb s ∧ (reads s ≤ reads s' ≤ 2 + reads s)%nat.
Proof.
  intros Hx Hh Hn Hf Ht H0 Htg Hm Hoff Hlate. unfold uint in Htg.
  pose proof (mtime_pos (reads s)). pose proof (mtime_pos (S (reads s))).
  assert (x ∈ dom (xtimers s)) as Hd by (apply elem_of_dom; by eexists).
  pose proof (xl_nodes _ _ Hx) as Hdn. assert (∃ v, nexts s !! x = Some v) as [v Hv] by (apply elem_of_dom; set_solver).
  unfold _xtimer_set_absolute64, _xtimer_now64, irq_disable. rewrite xb_now64, (xb_write_next _ v) by done.
  cbv zeta. rewrite (wrap_small 64 (mtime _)) by (unfold uint; lia). unfold XTIMER_BACKOFF in *.
  rewrite wrap_small, (proj2 (Z.leb_gt _ _)) by (unfold uint; lia). xrun.
  rewrite (xb_get_timer _ t), is_set_zero by done. xrun. rewrite (xb_upd_timer _ t) by done.
  match goal with |- context [(_add_timer_to_list _ _ _ ≫= _) ?s0] => set (s2 := s0) end.
  assert (xtimers s2 = <[x := set_target64 tg t]> (xtimers s)) as Ex by done.
  assert (xlist s2 l) as Hx2.
  { apply (xlist_ext (set_xtimers (<[x := set_target64 tg t]> (xtimers s)) (set_nexts (<[x := None]> (nexts s)) s))); [|done..].
    apply (xlist_upd (set_nexts (<[x := None]> (nexts s)) s)); [by apply xlist_clear_next|done|done]. }
  destruct (add_to_list_ok s2 l x (set_target64 tg t) Hx2 Hf Hn) as (h & Hadd & Hx' & Hhd).
  { rewrite Ex. apply lookup_insert_eq. }
  { cbn [target64 set_target64]. unfold XTIMER_BACKOFF. lia. }
  rewrite (xbind_ok _ _ _ _ _ Hadd), (xb_read_next _ _ _ (set_nexts h s2) Hhd). unfold irq_restore.
  case_decide.
  - rewrite xb_now64. change (reads (set_nexts h s2)) with (S (reads s)).
    rewrite wrap_small, (proj2 (Z.ltb_ge _ _)) by (unfold uint; lia).
    rewrite xb_lltimer_set. change (_in_handler (set_reads (S (S (reads s))) (set_nexts h s2))) with (_in_handler s).
    rewrite Hh. xrun. eexists. split; [done|]. split; [done|]. split; [by apply (xlist_ext (set_nexts h s2))|].
    split; [done|]. split; [exact Hh|]. split; [done|]. cbn. lia.
  - xrun. eexists. split; [done|]. split; [done|]. split; [by apply (xlist_ext (set_nexts h s2))|].
    split; [done|]. split; [exact Hh|]. split; [done|]. cbn. lia.
Qed.

Lemma set64_in_handler s l x t offset long_offset :
  xlist s l → _in_handler s = true → x ∉ l → (length l < fuel)%nat → xtimers s !! x = Some t → target64 t = 0 → 
  callback t ≠ 0 → uint 32 offset → uint 32 long_offset →
  let off := long_offset * 2 ^ 32 + offset in
  let now := mtime (reads s) in
  now + off < 2 ^ 64 → XTIMER_BACKOFF ≤ off → XTIMER_BACKOFF < now + off - mtime (S (reads s)) →
  mtime (2 + reads s)%nat ≤ now + off →
  ∃ s', _xtimer_set64 mtime timer_list_head run_callback fuel x offset long_offset s = Some (tt, s') ∧
    xtimers s' = <[x := set_target64 (now + off) t]> (xtimers s) ∧ xlist s' (ins (tgt (xtimers s')) x l) ∧
    user s' = user s ∧ _in_handler s' = true ∧ isr_cb s' = isr_cb s ∧ (reads s ≤ reads s' ≤ 3 + reads s)%nat.
Proof.
  intros Hx Hh Hn Hf Ht H0 Hcb Ho Hlo off now Hmax Hoff Hfar Hlate. unfold uint in *.
  pose proof (mtime_pos (reads s)). pose proof (Hmono (S (reads s))). change (2 + reads s)%nat with (S (S (reads s))) in Hlate.
  unfold _xtimer_set64. rewrite (xb_get_timer _ t), (proj2 (Z.eqb_neq _ _) Hcb) by done. cbv zeta.
  rewrite Z.shiftl_mul_pow2 by lia. fold off. rewrite (wrap_small 64 off) by (unfold uint; lia).
  unfold xtimer_remove, irq_disable, irq_restore. xrun. rewrite (xb_get_timer _ t), is_set_zero by done. xrun.
  rewrite (proj2 (Z.ltb_ge _ _)) by done. unfold _xtimer_now64. xrun. cbn [reads set_irq_on].
  fold now. rewrite (wrap_small 64 now), (wrap_small 64 (now + off)) by (unfold uint; lia).
  match goal with |- context [(_xtimer_set_absolute64 _ _ _ _ _ _ ≫= _) ?s0] => set (s1 := s0) end.
  destruct (set_absolute_in_handler s1 x t l (now + off)) as (s2 & Hset & X1 & X2 & X3 & X4 & X5 & X6); try done;
    try (unfold uint; cbn; lia).
  { by apply (xlist_ext s). }
  rewrite (xbind_ok _ _ _ _ _ Hset). exists s2. split; [done|]. do 5 (split; [done|]). cbn in X6. lia.
Qed.

(** ** The interrupt *)

(** The effect of the callbacks on the rest of the system; it depends on the number
    of reads of the clock at the call. *)
Context (record : Z → Z → nat → U → U).

(** The effect of firing a timer at a read. *)
Definition fire (m : gmap Z xtimer_t) (u : U) (xn : Z * nat) : U :=
  match m !! xn.1 with Some t => record (callback t) (arg t) xn.2 u | None => u end.

Lemma clear_target t : set_long_target 0 (set_target 0 t) = set_target64 0 t.
Proof.
  destruct t as [v c a]. unfold set_long_target, set_target, set_target64, target, long_target. cbn [target64 callback arg].
  f_equal. rewrite Z.shiftl_0_l, Z.add_0_r, Z.add_0_l, Z.shiftl_mul_pow2 by lia. unfold wrap. by rewrite Z_mod_mult.
Qed.

(** The state in which the first timer is fired: it is off the list and unset. *)
Definition cleared s (x : Z) (t : xtimer_t) l (r : nat) : xstate U :=
  set_xtimers (<[x := set_target64 0 t]> (xtimers s))
    (set_nexts (<[timer_list_head := head l]> (nexts s)) (set_reads r s)).

Lemma fire_step n ref s x l t lft r : xlist s (x :: l) → xtimers s !! x = Some t →
  _time_left mtime (target t) ref s = Some (lft, set_reads (S (reads s)) s) → lft < XTIMER_ISR_BACKOFF →
  wait_loop mtime fuel (target t) ref (set_reads (S (reads s)) s) = Some (tt, set_reads r s) →
  fire_loop mtime timer_list_head run_callback fuel (S n) ref s =
    (run_callback (callback t) (arg t);; fire_loop mtime timer_list_head run_callback fuel n ref) (cleared s x t l r) ∧
  xlist (cleared s x t l r) l.
Proof.
  intros Hx Ht Hl Hlt Hw. pose proof Hx as [Hs Hd Hnh Htg Hst]. pose proof Hs as (Hr & Hc & Hnd).
  rewrite chain_cons, first_None in Hc. destruct Hc as [Hn Hc].
  apply NoDup_cons in Hnd as [_ Hnd]. apply NoDup_cons in Hnd as [Hxl Hnd].
  split.
  - cbn [fire_loop]. rewrite (xb_read_next _ _ _ _ Hr). cbn [head]. rewrite (xb_get_timer _ _ _ _ Ht).
    rewrite (xbind_ok _ _ _ _ _ Hl), (proj2 (Z.ltb_lt _ _) Hlt), (xbind_ok _ _ _ _ _ Hw).
    rewrite (xb_read_next _ _ _ (set_reads r s) Hn), (xb_write_next _ _ _ _ (set_reads r s) Hr).
    rewrite (xb_upd_timer x t) by done. erewrite (xb_upd_timer x) by (cbn; apply lookup_insert_eq).
    unfold _shoot. rewrite xb_assoc. erewrite xb_get_timer by (cbn; apply lookup_insert_eq).
    unfold cleared. cbn [nexts xtimers set_nexts set_xtimers set_reads reads user callback arg set_long_target set_target].
    by rewrite insert_insert_eq, clear_target.
  - pose proof (slist_remove _ _ [] x l Hs) as Hs'. change (default timer_list_head (last [])) with timer_list_head in Hs'.
    rewrite first_None in Hs'. cbn [app] in Hs'.
    assert (filter (λ y, y ≠ x) (x :: l) = l) as Hfl
      by (rewrite filter_cons_False by (by intros []); by apply filter_ne_notin).
    assert (xlist (set_nexts (<[timer_list_head := head l]> (nexts s)) s) l) as Hx'.
    { rewrite <- Hfl. apply (xlist_nexts s); [done|by rewrite Hfl| |done].
      cbn [nexts set_nexts]. rewrite Hfl, dom_insert_lookup_L; [done|by eexists]. }
    apply (xlist_upd _ _ x (set_target64 0 t)) in Hx'; [|done|apply elem_of_dom; by eexists].
    by apply (xlist_ext _ _ _ Hx').
Qed.
(** *** While the counter fits in 32 bits *)

Lemma mtime_u32 i j : (i ≤ j)%nat → mtime j < 2 ^ 32 → u32 (mtime i) = mtime i.
Proof. intros Hij Hj. pose proof (mtime_le i j Hij). pose proof (mtime_pos i). apply wrap_small. unfold uint. lia. Qed.

Lemma time_left_early tg ref s : ref ≤ mtime (reads s) → mtime (reads s) < 2 ^ 32 →
  _time_left mtime tg ref s = Some (Z.max 0 (tg - mtime (reads s)), set_reads (S (reads s)) s).
Proof.
  intros Hr Hm. unfold _time_left. rewrite xb_now, (mtime_u32 _ (reads s)) by (done || lia).
  rewrite (proj2 (Z.ltb_ge _ _)) by done. destruct (Z.ltb_spec (mtime (reads s)) tg); unfold mret, X_ret; do 2 f_equal; lia.
Qed.

Lemma wait_early n tg ref s k : ref ≤ mtime (reads s) → (k < n)%nat → tg ≤ mtime (reads s + k) →
  mtime (reads s + k) < 2 ^ 32 →
  ∃ j, (j ≤ k)%nat ∧ wait_loop mtime n tg ref s = Some (tt, set_reads (reads s + S j) s) ∧ tg ≤ mtime (reads s + j).
Proof.
  revert n s. induction k as [|k IH]; intros [|n] s Hr Hk Ht Hm; try lia; cbn [wait_loop].
  - rewrite Nat.add_0_r in Ht, Hm. rewrite (xbind_ok _ _ _ _ _ (time_left_early tg ref s Hr Hm)).
    exists 0%nat. rewrite Nat.add_0_r, Nat.add_1_r. split; [done|]. split; [|done]. by rewrite Z.max_l by lia.
  - pose proof (mtime_le (reads s) (reads s + S k) ltac:(lia)).
    rewrite (xbind_ok _ _ _ _ _ (time_left_early tg ref s Hr ltac:(lia))).
    destruct (Z.eqb_spec (Z.max 0 (tg - mtime (reads s))) 0) as [Hz|Hz]; cbn [negb].
    + exists 0%nat. rewrite Nat.add_0_r, Nat.add_1_r. split; [lia|]. split; [done|lia].
    + rewrite Nat.add_succ_r in Ht, Hm. rewrite <- Nat.add_succ_l in Ht, Hm.
      destruct (IH n (set_reads (S (reads s)) s)) as (j & Hj & Hw & Htj); cbn [reads set_reads]; try done; try lia.
      { pose proof (Hmono (reads s)). lia. }
      exists (S j). split; [lia|]. cbn [reads set_reads] in Hw, Htj.
      split; [|rewrite Nat.add_succ_r; exact Htj]. rewrite Hw. do 2 f_equal.
      unfold set_reads. cbn. f_equal. lia.
Qed.

Lemma isr_loop_due n now timecmp s : timecmp ≤ now → isr_loop mtime (S n) now timecmp s = Some (false, s).
Proof. intros H. cbn [isr_loop]. by rewrite (proj2 (Z.ltb_ge _ _)). Qed.

(** The interrupt up to the loop that fires timers. *)
Definition isr_entry s : xstate U :=
  set_reads (2 + reads s) (set_in_handler true (set_mtimecmp (2 ^ 64 - 1) (set_mie_mtip false s))).

(** What follows the loop. *)
Definition isr_tail (ref : Z) : X U unit :=
  now ← _xtimer_lltimer_now64 mtime;
  (if now <? ref then xfault
   else
     head ← read_next timer_list_head;
     next_target ← match head with
                   | Some h => t ← get_timer h; mret (u32 (target t - XTIMER_OVERHEAD))
                   | None => mret (_xtimer_lltimer_mask 0xFFFFFFFFFFFFFFFF)
                   end;
     xmodify (set_in_handler false);;
     _lltimer_set next_target);;
  xmodify (set_mie_mtip true).

Lemma timer_isr_enter s x : (0 < fuel)%nat → mtimecmp s ≤ u64 (mtime (reads s)) → isr_cb s = true →
  nexts s !! timer_list_head = Some (Some x) →
  timer_isr mtime timer_list_head run_callback fuel s =
    (fire_loop mtime timer_list_head run_callback fuel fuel (u64 (mtime (S (reads s))));;
     isr_tail (u64 (mtime (S (reads s))))) (isr_entry s).
Proof.
  intros Hf Hdue Hcb Hhd. unfold timer_isr. xrun. destruct fuel as [|f]; [lia|].
  rewrite (xbind_ok _ _ _ _ _ (isr_loop_due f _ _ _ Hdue)). xrun. cbn [isr_cb set_mtimecmp set_mie_mtip set_reads]. rewrite Hcb.
  unfold _timer_callback. xrun. rewrite (xb_read_next _ (Some x)) by done. xrun.
  cbn [reads set_reads set_in_handler set_mtimecmp set_mie_mtip].
  match goal with |- _ ?s0 = _ => change s0 with (isr_entry s) end.
  destruct (fire_loop mtime timer_list_head run_callback (S f) (S f) (u64 (mtime (S (reads s)))) (isr_entry s))
    as [[[] s1]|] eqn:E.
  - rewrite !(xbind_ok _ _ _ _ _ E). unfold isr_tail. xrun. done.
  - unfold mbind, X_bind. by rewrite E.
Qed.

(** The rest of the interrupt arms the timer again. *)
Lemma isr_leave s l ref : isr_cb s = true → xlist s l → Forall (λ x, tgt (xtimers s) x < 2 ^ 32) l → ref ≤ mtime (reads s) < 2 ^ 64 →
  ∃ s', isr_tail ref s = Some (tt, s') ∧
    xinv s' l ∧ mie_mtip s' = true ∧ relisted s (set_reads (reads s) s') ∧ nexts s' = nexts s.
Proof.
  intros Hcb Hx H32 Hm. unfold isr_tail. pose proof (mtime_pos (reads s)). pose proof (xl_list _ _ Hx) as (Hr & _).
  rewrite xb_now64, wrap_small, (proj2 (Z.ltb_ge _ _)) by (unfold uint; lia).
  rewrite xb_assoc, (xb_read_next _ _ _ (set_reads (S (reads s)) s) Hr).
  destruct l as [|x l]; cbn [head].
  - rewrite xb_assoc, xb_ret, xb_assoc, xb_modify, xb_lltimer_set. cbn [_in_handler set_in_handler].
    eexists. split; [done|]. split; [|done]. split; [by apply (xlist_ext s)| |done|done].
    split; [done|]. by intros ? [=].
  - destruct (xlist_target s (x :: l) x Hx ltac:(by left)) as (t & Ht & Htt & Hb).
    apply Forall_cons in H32 as [H32 _]. rewrite Htt in H32. unfold XTIMER_BACKOFF in Hb.
    rewrite xb_assoc, xb_assoc, (xb_get_timer _ t) by done.
    rewrite xb_ret, xb_assoc, xb_modify, xb_lltimer_set. cbn [_in_handler set_in_handler].
    unfold target. rewrite (wrap_small 32 (target64 t)), wrap_small by (unfold uint, XTIMER_OVERHEAD; lia).
    eexists. split; [done|]. split; [|done]. split; [by apply (xlist_ext s)| |done|done].
    split; [done|]. intros ? [= <-]. unfold XTIMER_OVERHEAD. cbn. rewrite Htt. lia.
Qed.

(** *** What handlers may do *)

(** A handler is called in the interrupt, its timer off the list and unset.  It may
    set timers that are not set, its own included; [last] is a read after the end of
    the interrupt, and what it sets is due later than that. *)
Record kept (last : nat) s l s' l' : Prop := {
  kp_list : xlist s' l';
  kp_old : l `sublist_of` l';
  kp_timers x : x ∈ l → xtimers s' !! x = xtimers s !! x;
  kp_new x : x ∈ l' → x ∈ l ∨ mtime last + XTIMER_ISR_BACKOFF ≤ tgt (xtimers s') x < 2 ^ 32;
  kp_dom : dom (xtimers s') = dom (xtimers s);
  kp_handler : _in_handler s' = _in_handler s;
  kp_cb : isr_cb s' = isr_cb s
}.

(** Every handler keeps the list so, within [c] reads of the clock. *)
Definition handlers_ok (last c : nat) : Prop := ∀ s l x t,
  xlist s l → x ∉ l → xtimers s !! x = Some t → target64 t = 0 → _in_handler s = true →
  (size (xtimers s) < fuel)%nat → (reads s + c ≤ last)%nat →
  ∃ s' l', run_callback (callback t) (arg t) s = Some (tt, s') ∧ kept last s l s' l' ∧
    user s' = record (callback t) (arg t) (reads s) (user s) ∧ (reads s ≤ reads s' ≤ reads s + c)%nat.

Lemma list_kept_refl last s l : xlist s l → kept last s l s l.
Proof. intros Hx. split; auto. Qed.

(** Handlers that leave the timers alone are a special case. *)
Lemma quiet_handlers_ok last c :
  (∀ cb a s, run_callback cb a s = Some (tt, set_user (record cb a (reads s) (user s)) s)) → handlers_ok last c.
Proof.
  intros Hq s l x t Hx Hn Ht H0 Hh Hf Hr. eexists _, l. split; [apply Hq|].
  split; [|split; [done|cbn; lia]]. split; try done; [by apply (xlist_ext s)|by left].
Qed.

(** There are no more listed timers than timers. *)
Lemma xlist_length s l : xlist s l → (length l ≤ size (xtimers s))%nat.
Proof.
  intros Hx. pose proof (xl_list _ _ Hx) as (_ & _ & Hnd). apply NoDup_cons in Hnd as [_ Hnd].
  rewrite <- (size_dom (D := gset Z)), <- (size_list_to_set (C := gset Z) l Hnd). apply subseteq_size.
  intros x Hin%elem_of_list_to_set. destruct (xlist_target s l x Hx Hin) as (t & Ht & _).
  apply elem_of_dom. by exists t.
Qed.

Section Early.
(** The clock advances by the backoff within [k] reads; the interrupt ends before
    the read [last], during the first [2^32] ticks. *)
Context (k : nat) (Hk : (k < fuel)%nat) (Hprog : ∀ i, mtime i + XTIMER_ISR_BACKOFF ≤ mtime (i + k)).
Context (last c : nat) (Hhand : handlers_ok last c) (Hlast : mtime last < 2 ^ 32).

(** The list [cl] during the interrupt: the timers [l] listed at its start that are
    not yet fired, and what handlers have set. *)
Record pending (m : gmap Z xtimer_t) s l cl : Prop := {
  pd_list : xlist s cl;
  pd_old : l `sublist_of` cl;
  pd_timers x : x ∈ l → xtimers s !! x = m !! x;
  pd_new x : x ∈ cl → x ∈ l ∨ mtime last + XTIMER_ISR_BACKOFF ≤ tgt (xtimers s) x;
  pd_small : Forall (λ x, tgt (xtimers s) x < 2 ^ 32) cl;
  pd_handler : _in_handler s = true;
  pd_size : (size (xtimers s) < fuel)%nat;
  pd_cb : isr_cb s = true
}.

Lemma pending_reads m s l cl r : pending m s l cl → pending m (set_reads r s) l cl.
Proof. intros [H1 H2 H3 H4 H5 H6 H7 H8]. split; try done. by apply (xlist_ext s). Qed.

(** A timer due is the first of those that are left. *)
Lemma pending_head m s l x cl : pending m s l (x :: cl) → (reads s ≤ last)%nat →
  tgt (xtimers s) x < mtime (reads s) + XTIMER_ISR_BACKOFF → ∃ l', l = x :: l' ∧ l' `sublist_of` cl.
Proof.
  intros Hp Hr Hdue. pose proof (mtime_le _ _ Hr).
  destruct (pd_new _ _ _ _ Hp x ltac:(by left)) as [Hin|?]; [|lia].
  pose proof (xl_list _ _ (pd_list _ _ _ _ Hp)) as (_ & _ & Hnd).
  apply NoDup_cons in Hnd as [_ Hnd]. apply NoDup_cons in Hnd as [Hn _].
  pose proof (pd_old _ _ _ _ Hp) as Hs. inversion Hs as [|? l' ? Hs'|? l' ? Hs']; subst; [by exists l'|].
  destruct Hn. by apply (sublist_subseteq _ _ Hs').
Qed.

(** The loop fires the first timer when it is due. *)
Lemma fire_one m ref n s x l cl : pending m s (x :: l) (x :: cl) → l `sublist_of` cl →
  tgt (xtimers s) x < mtime (reads s) + XTIMER_ISR_BACKOFF → ref ≤ mtime (reads s) → (reads s + (k + 2 + c) ≤ last)%nat →
  ∃ s' cl' r, fire_loop mtime timer_list_head run_callback fuel (S n) ref s =
      fire_loop mtime timer_list_head run_callback fuel n ref s' ∧
    pending m s' l cl' ∧ user s' = fire m (user s) (x, r) ∧ tgt m x ≤ mtime (pred r) ∧
    (reads s ≤ reads s' ≤ reads s + (k + 2 + c) ∧ r ≤ reads s')%nat.
Proof.
  intros Hp Hsub Hdue Href Hr. pose proof Hp as [Hx _ Hm Hnew Hsm Hh Hsz Hcb].
  destruct (xlist_target s (x :: cl) x Hx ltac:(by left)) as (t & Ht & Htt & Hb).
  apply Forall_cons in Hsm as [H32 Hsm]. rewrite Htt in H32, Hdue. unfold XTIMER_BACKOFF in Hb.
  assert (target t = target64 t) as Htgt by (apply wrap_small; unfold uint; lia).
  pose proof (mtime_le (reads s) last ltac:(lia)). pose proof (Hmono (reads s)). pose proof (Hprog (S (reads s))).
  pose proof (mtime_le (S (reads s) + k) last ltac:(lia)).
  destruct (wait_early fuel (target64 t) ref (set_reads (S (reads s)) s) k) as (j & Hj & Hw & Htj);
    cbn [reads set_reads] in *; try done; try lia.
  change (set_reads _ (set_reads _ s)) with (set_reads (S (reads s) + S j) s) in Hw.
  set (r := (S (reads s) + S j)%nat) in *. rewrite <- Htgt in Hw.
  pose proof (time_left_early (target t) ref s Href ltac:(lia)) as Hl.
  destruct (fire_step n ref s x cl t _ r Hx Ht Hl ltac:(rewrite Htgt; unfold XTIMER_ISR_BACKOFF in *; lia) Hw) as [-> Hx'].
  pose proof Hx as [(_ & _ & Hnd) _ _ _ _]. apply NoDup_cons in Hnd as [_ Hnd]. apply NoDup_cons in Hnd as [Hxl _].
  destruct (Hhand (cleared s x t cl r) cl x (set_target64 0 t)) as (s' & cl' & Hrun & Hkept & Hu & Hrs); try done.
  { cbn. apply lookup_insert_eq. }
  { cbn. rewrite map_size_insert_Some by (by eexists). done. }
  { cbn. unfold r. lia. }
  destruct Hkept as [K1 K2 K3 K4 K5 K6 K7]. cbn [xtimers cleared set_xtimers] in K3, K5. cbn in Hrs, Hu, Hrun.
  assert (∀ y, y ∈ cl → xtimers s' !! y = xtimers s !! y) as Hold.
  { intros y Hy. rewrite K3 by done. apply lookup_insert_ne. by intros ->. }
  rewrite (xbind_ok _ _ _ _ _ Hrun). exists s', cl', r. split; [done|]. split.
  - split; [done|by etrans|..|by rewrite K6| |by rewrite K7].
    + intros y Hy. rewrite Hold by (by apply (sublist_subseteq _ _ Hsub)). apply Hm. by right.
    + intros y [Hy|[Hy _]]%K4; [|by right]. destruct (Hnew y ltac:(by right)) as [[->|Hyl]%elem_of_cons|Hyl]; [done|by left|].
      right. unfold tgt. by rewrite Hold.
    + apply Forall_forall. intros y [Hy|[_ Hy]]%K4; [|done]. unfold tgt. rewrite Hold by done.
      by apply (proj1 (Forall_forall _ _) Hsm).
    + rewrite <- (size_dom (D := gset Z)), K5, size_dom, map_size_insert_Some by (by eexists). done.
  - rewrite Hu. unfold fire. cbn [fst snd]. rewrite <- Hm, Ht by (by left). split; [done|]. split; [|unfold r in *; lia].
    rewrite (tgt_lookup m x t) by (rewrite <- Hm; [done|by left]). unfold r. by rewrite Nat.add_succ_r.
Qed.

(** The loop ends at a timer that is not due. *)
Lemma fire_exit ref n s cl : xlist s cl → Forall (λ x, tgt (xtimers s) x < 2 ^ 32) cl →
  (∀ x, head cl = Some x → mtime (reads s) + XTIMER_ISR_BACKOFF ≤ tgt (xtimers s) x) →
  ref ≤ mtime (reads s) → (reads s ≤ last)%nat →
  ∃ r, fire_loop mtime timer_list_head run_callback fuel (S n) ref s = Some (tt, set_reads r s) ∧
    (reads s ≤ r ≤ S (reads s))%nat.
Proof.
  intros Hx H32 Hlate Href Hr. pose proof (xl_list _ _ Hx) as (Hhd & _). cbn [fire_loop].
  rewrite (xb_read_next _ _ _ _ Hhd). destruct cl as [|x cl]; cbn [head].
  { exists (reads s). split; [by destruct s|lia]. }
  destruct (xlist_target s (x :: cl) x Hx ltac:(by left)) as (t & Ht & Htt & Hb).
  apply Forall_cons in H32 as [H32 _]. specialize (Hlate x eq_refl). rewrite Htt in H32, Hlate. unfold XTIMER_BACKOFF in Hb.
  pose proof (mtime_le _ _ Hr). rewrite (xb_get_timer _ _ _ _ Ht).
  rewrite (xbind_ok _ _ _ _ _ (time_left_early (target t) ref s Href ltac:(lia))).
  unfold target. rewrite wrap_small by (unfold uint; lia). rewrite (proj2 (Z.ltb_ge _ _)) by lia.
  exists (S (reads s)). split; [done|lia].
Qed.

(** The result of the loop: the prefix [l1] of [l] is fired, [l2] is left. *)
Definition fires m ref n s l l1 l2 ns cl' s' : Prop :=
  l = l1 ++ l2 ∧ fire_loop mtime timer_list_head run_callback fuel n ref s = Some (tt, s') ∧ pending m s' l2 cl' ∧
  Forall2 (λ x n, tgt m x ≤ mtime (pred n) ∧ (n ≤ last)%nat) l1 ns ∧
  user s' = foldl (fire m) (user s) (zip l1 ns) ∧
  (∀ x, x ∈ l2 → mtime (reads s) + XTIMER_ISR_BACKOFF ≤ tgt m x) ∧ (reads s ≤ reads s' < last)%nat.

Lemma fire_none m ref n s l cl : pending m s l cl → ref ≤ mtime (reads s) → (S (reads s) < last)%nat →
  (∀ x, head cl = Some x → mtime (reads s) + XTIMER_ISR_BACKOFF ≤ tgt (xtimers s) x) →
  ∃ l1 l2 ns cl' s', fires m ref (S n) s l l1 l2 ns cl' s'.
Proof.
  intros Hp Href Hr Hlate. pose proof Hp as [Hx Hsub Hm _ Hsm _ _ _].
  destruct (fire_exit ref n s cl Hx Hsm Hlate Href ltac:(lia)) as (r & E & Hr').
  exists [], l, [], cl, (set_reads r s). split; [done|]. split; [exact E|]. split; [by apply pending_reads|].
  split; [constructor|]. split; [done|]. split; [|cbn; lia]. intros x Hin.
  replace (tgt m x) with (tgt (xtimers s) x) by (unfold tgt; by rewrite Hm).
  apply (sublist_subseteq _ _ Hsub) in Hin. pose proof (xl_sorted _ _ Hx) as Hst.
  destruct cl as [|y cl]; [by apply not_elem_of_nil in Hin|]. specialize (Hlate y eq_refl).
  apply StronglySorted_inv in Hst as [_ Hst]. apply elem_of_cons in Hin as [->|Hin]; [done|].
  apply (proj1 (Forall_forall _ _) Hst) in Hin. lia.
Qed.

(** Firing the timers that are due, in the order of the list. *)
Lemma fire_early m ref : ∀ l n s cl, (length l < n)%nat → pending m s l cl → ref ≤ mtime (reads s) →
  (reads s + (k + 2 + c) * length l + 1 < last)%nat →
  ∃ l1 l2 ns cl' s', fires m ref n s l l1 l2 ns cl' s'.
Proof.
  induction l as [|x l IH]; intros [|n] s cl Hn Hp Href Hr; cbn [length] in *; try lia;
    (destruct cl as [|y cl]; [apply (fire_none _ _ _ _ _ []); [done|done|lia|done]|]);
    (destruct (Z.lt_ge_cases (tgt (xtimers s) y) (mtime (reads s) + XTIMER_ISR_BACKOFF)) as [Hdue|Hge];
      [|apply (fire_none _ _ _ _ _ (y :: cl)); [done|done|lia|by intros ? [= <-]]]);
    destruct (pending_head _ _ _ _ _ Hp ltac:(lia) Hdue) as (l' & Hl & Hsub); [done|].
  injection Hl as <- <-.
  destruct (fire_one m ref n s x l cl Hp Hsub Hdue Href ltac:(lia)) as (s1 & cl1 & r & E & Hp1 & Hu & Ht & Hr1 & Hrr).
  pose proof (mtime_le (reads s) (reads s1) ltac:(lia)).
  destruct (IH n s1 cl1 ltac:(lia) Hp1 ltac:(lia) ltac:(lia)) as (l1 & l2 & ns & cl' & s' & -> & E' & X1 & X2 & X3 & X4 & X5).
  exists (x :: l1), l2, (r :: ns), cl', s'. split; [done|]. split; [by rewrite E|]. split; [done|].
  split; [constructor; [split; [done|lia]|done]|]. split; [cbn [zip zip_with foldl]; by rewrite <- Hu|].
  split; [|lia]. intros y Hy. specialize (X4 y Hy). lia.
Qed.

(** C38: The interrupt during the first [2^32] ticks, in which all targets of the list
    lie, with a clock that advances, fires a prefix of the list in its order, none before its target and all before the read [last] of the clock, and
    this prefix has all timers due within the backoff of the interrupt; the others
    stay listed, together with what the handlers have set, and the hardware timer
    is armed for the head.  The handlers may set timers that are not set, their own
    included, due after the interrupt ([handlers_ok]). *)
Theorem xtimer_isr_outcome s l :
  xinv s l → l ≠ [] → (size (xtimers s) < fuel)%nat → Forall (λ x, tgt (xtimers s) x < 2 ^ 32) l →
  mtimecmp s ≤ mtime (reads s) → (reads s + (k + 2 + c) * length l + 3 < last)%nat →
  ∃ l1 l2 l' ns s', l = l1 ++ l2 ∧
    timer_isr mtime timer_list_head run_callback fuel s = Some (tt, s') ∧
    xinv s' l' ∧ mie_mtip s' = true ∧
    Forall2 (λ x n, tgt (xtimers s) x ≤ mtime (pred n) ∧ (n ≤ last)%nat) l1 ns ∧
    user s' = foldl (fire (xtimers s)) (user s) (zip l1 ns) ∧
    (∀ x, x ∈ l2 → mtime (reads s) + XTIMER_ISR_BACKOFF ≤ tgt (xtimers s) x) ∧
    l2 `sublist_of` l' ∧ (∀ x, x ∈ l2 → xtimers s' !! x = xtimers s !! x) ∧
    (∀ x, x ∈ l' → x ∈ l2 ∨ mtime last + XTIMER_ISR_BACKOFF ≤ tgt (xtimers s') x).
Proof.
  intros [Hx Ha Hh Hcb] Hne Hsz H32 Hdue Hr. pose proof (xl_list _ _ Hx) as (Hhd & _).
  pose proof (xlist_length _ _ Hx) as Hlen. destruct l as [|x l]; [done|]. set (l0 := x :: l) in *. cbn [head] in Hhd.
  pose proof (mtime_le (reads s) (S (reads s)) ltac:(lia)). pose proof (mtime_le (S (reads s)) last ltac:(lia)).
  pose proof (mtime_pos (reads s)). pose proof (mtime_pos (S (reads s))).
  rewrite (timer_isr_enter s x) by (first [lia|exact Hhd|exact Hcb|rewrite wrap_small by (unfold uint; lia); done]).
  rewrite (wrap_small 64 (mtime (S (reads s)))) by (unfold uint; lia).
  assert (reads (isr_entry s) = 2 + reads s)%nat as Hri by done. pose proof (mtime_le (S (reads s)) (2 + reads s) ltac:(lia)).
  destruct (fire_early (xtimers s) (mtime (S (reads s))) l0 fuel (isr_entry s) l0) as
    (l1 & l2 & ns & l' & s' & Hl & E & X1 & X2 & X3 & X4 & X5); rewrite ?Hri in *; try lia.
  { split; try done; [by apply (xlist_ext s)|by left]. }
  pose proof X1 as [Y1 Y2 Y3 Y4 Y5 _ _ Y8].
  rewrite (xbind_ok _ _ _ _ _ E).
  pose proof (mtime_le (2 + reads s) (reads s') ltac:(lia)). pose proof (mtime_le (reads s') last ltac:(lia)).
  destruct (isr_leave s' l' (mtime (S (reads s))) Y8 Y1 Y5 ltac:(lia)) as (s2 & E2 & Hi & Hmie & (R1 & R2 & R3 & R4) & R5).
  cbn [xtimers user set_reads] in R1, R3.
  exists l1, l2, l', ns, s2. split; [done|]. split; [exact E2|]. split; [done|]. split; [done|].
  split; [done|]. split; [exact (eq_trans R3 X3)|]. rewrite R1. split; [|done].
  intros y Hy. specialize (X4 y Hy). lia.
Qed.
End Early.

(** *** After 2^32 ticks *)

Section Late.
(** Callbacks that leave the timers alone. *)
Context (Hquiet : ∀ cb a s, run_callback cb a s = Some (tt, set_user (record cb a (reads s) (user s)) s)).

(** The state after the first timer has been fired. *)
Definition fired s (x : Z) (t : xtimer_t) l (r : nat) : xstate U :=
  set_user (record (callback t) (arg t) r (user s)) (cleared s x t l r).

(** The 32-bit time is before the 64-bit reference, which is taken for an expired
    timer. *)
Lemma time_left_late tg ref s : 2 ^ 32 ≤ ref → _time_left mtime tg ref s = Some (0, set_reads (S (reads s)) s).
Proof.
  intros Hr. unfold _time_left. rewrite xb_now. pose proof (wrap_range 32 (mtime (reads s)) ltac:(lia)) as Hu.
  unfold uint in Hu. by rewrite (proj2 (Z.ltb_lt _ _)) by lia.
Qed.

Lemma fire_late m ref : 2 ^ 32 ≤ ref → (0 < fuel)%nat → ∀ l n s, (length l < n)%nat → xlist s l →
  (∀ x, x ∈ l → xtimers s !! x = m !! x) →
  ∃ ns s', fire_loop mtime timer_list_head run_callback fuel n ref s = Some (tt, s') ∧ xlist s' [] ∧
    length ns = length l ∧ Forall (λ n, (n ≤ reads s + 2 * length l)%nat) ns ∧
    user s' = foldl (fire m) (user s) (zip l ns) ∧ reads s' = (reads s + 2 * length l)%nat ∧ isr_cb s' = isr_cb s.
Proof.
  intros Href Hfuel. induction l as [|x l IH]; intros [|n] s Hn Hx Hm; cbn [length] in Hn; try lia.
  { exists [], s. pose proof (xl_list _ _ Hx) as (Hr & _). cbn [fire_loop].
    rewrite (xb_read_next _ _ _ _ Hr). repeat (split; [first [done|cbn [length]; lia]|]). done. }
  destruct (xlist_target s (x :: l) x Hx ltac:(by left)) as (t & Ht & _).
  set (r := S (S (reads s))).
  assert (wait_loop mtime fuel (target t) ref (set_reads (S (reads s)) s) = Some (tt, set_reads r s)) as Hw.
  { destruct fuel as [|f]; [lia|]. cbn [wait_loop]. rewrite (xbind_ok _ _ _ _ _ (time_left_late _ _ _ Href)). done. }
  destruct (fire_step n ref s x l t 0 r Hx Ht (time_left_late _ _ _ Href) ltac:(done) Hw) as [-> Hx'].
  rewrite (xbind_ok _ _ _ _ _ (Hquiet _ _ _)). change (set_user _ (cleared s x t l r)) with (fired s x t l r).
  apply (xlist_ext _ (fired s x t l r)) in Hx'; [|done|done].
  pose proof Hx as [(_ & _ & Hnd) _ _ _ _]. apply NoDup_cons in Hnd as [_ Hnd]. apply NoDup_cons in Hnd as [Hxl _].
  destruct (IH n (fired s x t l r)) as (ns & s' & E & X1 & X2 & X3 & X4 & X5 & X6).
  { lia. } { done. }
  { intros y Hy. cbn [fired cleared set_user set_xtimers xtimers]. rewrite lookup_insert_ne by (by intros ->).
    apply Hm. by right. }
  assert (reads (fired s x t l r) = r) as Hrd by done. rewrite Hrd in *.
  exists (r :: ns), s'. split; [done|]. split; [done|]. split; [by cbn; f_equal|]. cbn [length]. unfold r in *.
  split; [constructor; [lia|eapply Forall_impl; [exact X3|]; intros; simpl in *; lia]|]. split; [|split; [lia|exact X6]].
  assert (fire m (user s) (x, S (S (reads s))) = user (fired s x t l (S (S (reads s))))) as Hf
    by (unfold fire; cbn [fst snd]; by rewrite <- Hm, Ht by (by left)).
  cbn [zip zip_with foldl]. by rewrite Hf, X4.
Qed.

(** Once the counter has passed [2^32], the first interrupt fires every listed
    timer at once, with two reads of the clock each, however far away its target. *)
Theorem xtimer_isr_fires_all s l :
  xinv s l → l ≠ [] → (length l < fuel)%nat →
  mtimecmp s ≤ mtime (reads s) → 2 ^ 32 ≤ mtime (S (reads s)) →
  mtime (reads s + 2 + 2 * length l) < 2 ^ 64 →
  ∃ ns s', timer_isr mtime timer_list_head run_callback fuel s = Some (tt, s') ∧ xinv s' [] ∧
    length ns = length l ∧ Forall (λ n, (n ≤ reads s + 2 + 2 * length l)%nat) ns ∧
    user s' = foldl (fire (xtimers s)) (user s) (zip l ns).
Proof.
  intros [Hx Ha Hh Hcb] Hne Hf Hdue H32 Hmax. pose proof (xl_list _ _ Hx) as (Hr & _).
  destruct l as [|x l]; [done|]. set (l0 := x :: l) in *. cbn [head] in Hr.
  pose proof (mtime_le (reads s) (S (reads s)) ltac:(lia)) as Hle1.
  pose proof (mtime_le (S (reads s)) (reads s + 2 + 2 * length l0) ltac:(lia)) as Hle2.
  pose proof (mtime_pos (reads s)).
  rewrite (timer_isr_enter s x) by (first [lia|exact Hr|exact Hcb|rewrite wrap_small by (unfold uint; lia); done]).
  rewrite (wrap_small 64 (mtime (S (reads s)))) by (unfold uint; lia).
  destruct (fire_late (xtimers s) _ H32 ltac:(lia) l0 fuel (isr_entry s)) as (ns & s' & E & X1 & X2 & X3 & X4 & X5 & X6).
  { done. } { by apply (xlist_ext s). } { done. }
  rewrite (xbind_ok _ _ _ _ _ E).
  assert (reads (isr_entry s) = 2 + reads s)%nat as Hri by done. rewrite Hri in X3, X5.
  destruct (isr_leave s' [] (mtime (S (reads s))) ltac:(by rewrite X6) X1) as (s2 & E2 & Hi & _ & (R1 & R2 & R3 & R4) & R5); [constructor| |].
  { split; [apply mtime_le; lia|]. eapply Z.le_lt_trans; [|exact Hmax]. apply mtime_le. lia. }
  exists ns, s2. split; [exact E2|]. split; [done|]. split; [done|].
  split; [|exact (eq_trans R3 X4)]. eapply Forall_impl; [exact X3|]. intros; simpl in *; lia.
Qed.
End Late.
End Correct.

(** ** A system with a log of callbacks *)

Definition log_callback (cb a : Z) : X (list (Z * nat)) unit :=
  λ s, Some (tt, set_user (user s ++ [(a, reads s)]) s).

Definition demo_timers (t1 t2 : Z) : gmap Z xtimer_t := {[ 1 := XTimer t1 7 1; 2 := XTimer t2 7 2; 3 := XTimer 0 7 3 ]}.

(** Two timers are set, the third is not. *)
Definition demo_state (t1 t2 : Z) (r : nat) : xstate (list (Z * nat)) :=
  XState {[ 0 := Some 1; 1 := Some 2; 2 := None; 3 := None ]} (demo_timers t1 t2) false (t1 - 20) true true true r [].

Lemma demo_xinv t1 t2 r : XTIMER_BACKOFF ≤ t1 ≤ t2 → t2 < 2 ^ 64 → xinv 0 (demo_state t1 t2 r) [1; 2].
Proof.
  intros H1 H2. unfold XTIMER_BACKOFF in H1. split; [split| |done|done].
  - split; [done|]. split; [done|]. apply NoDup_ListNoDup. repeat constructor; set_solver.
  - vm_compute. done.
  - unfold demo_state, demo_timers. cbn [xtimers]. rewrite !dom_insert_L. set_solver.
  - repeat constructor; change (tgt (xtimers (demo_state t1 t2 r)) 1) with t1;
      change (tgt (xtimers (demo_state t1 t2 r)) 2) with t2; unfold XTIMER_BACKOFF; lia.
  - repeat constructor; change (tgt (xtimers (demo_state t1 t2 r)) 1) with t1;
      change (tgt (xtimers (demo_state t1 t2 r)) 2) with t2; lia.
  - split; [done|]. intros x [= <-]. change (tgt (xtimers (demo_state t1 t2 r)) 1) with t1.
    cbn [mtimecmp demo_state]. unfold XTIMER_OVERHEAD. lia.
Qed.

(** The clock of the examples starts at [t0] and advances at every read. *)
Definition demo_clock (t0 : Z) (i : nat) : Z := t0 + Z.of_nat i.

Lemma demo_clock_mono t0 i : demo_clock t0 i ≤ demo_clock t0 (S i).
Proof. unfold demo_clock. lia. Qed.

Definition log_record (_ a : Z) (n : nat) (u : list (Z * nat)) : list (Z * nat) := u ++ [(a, n)].

(** A timer that comes before both others. *)
Lemma xtimer_set_outcome_witness :
  ∃ s', _xtimer_set64 (demo_clock 1000) 0 log_callback 600 3 10000 0 (demo_state 20000 30000 0) = Some (tt, s') ∧
    xinv 0 s' [3; 1; 2] ∧ xtimers s' !! 3 = Some (XTimer 11000 7 3).
Proof.
  destruct (xtimer_set_outcome (demo_clock 1000) 0 log_callback 600 (demo_clock_mono 1000) ltac:(done)
    (demo_state 20000 30000 0) 3 (XTimer 0 7 3) [1; 2] 10000 0) as (_ & _ & Hset & _).
  - apply demo_xinv; unfold XTIMER_BACKOFF; lia.
  - cbn. lia.
  - reflexivity.
  - done.
  - done.
  - done.
  - vm_compute. reflexivity.
  - destruct Hset as (s' & H1 & H2 & H3 & H4).
    + done.
    + vm_compute. discriminate.
    + vm_compute. reflexivity.
    + vm_compute. discriminate.
    + exists s'. split; [exact H1|]. rewrite H2 in H4 |- *. split; [exact H4|reflexivity].
Defined.

(** A handler that logs the call and sets its timer, whose address is the argument,
    a second ahead. *)
Definition rearm_callback (mtime : nat → Z) (_ a : Z) : X (list (Z * nat)) unit :=
  λ s, let s1 := set_user (user s ++ [(a, reads s)]) s in
  match xtimers s !! a with
  | Some t =>
      if (target64 t =? 0) && negb (callback t =? 0)
      then _xtimer_set64 mtime 0 log_callback 30 a 1000000 0 s1 else Some (tt, s1)
  | None => Some (tt, s1)
  end.

Lemma rearm_handlers_ok :
  handlers_ok (demo_clock 4980) 0 (rearm_callback (demo_clock 4980)) 30 log_record 200 3.
Proof.
  intros s l x t Hx Hn Ht H0 Hh Hf Hr. unfold rearm_callback. set (s1 := set_user _ s).
  assert (xlist 0 s1 l) as Hx1 by (by apply (xlist_ext 0 s)).
  assert (kept (demo_clock 4980) 0 200 s l s1 l) as Hk by (destruct (list_kept_refl (demo_clock 4980) 0 200 s l Hx); by split).
  destruct (xtimers s !! arg t) as [t'|] eqn:Ht'; [|exists s1, l; split; [done|]; split; [done|]; split; [done|cbn; lia]].
  destruct (Z.eqb_spec (target64 t') 0) as [H0'|]; [|exists s1, l; split; [done|]; split; [done|]; split; [done|cbn; lia]].
  destruct (Z.eqb_spec (callback t') 0) as [|Hcb]; [exists s1, l; split; [done|]; split; [done|]; split; [done|cbn; lia]|].
  cbn [andb negb].
  assert (arg t ∉ l) as Hn'.
  { intros Hin. destruct (xlist_target 0 s l _ Hx Hin) as (t2 & Ht2 & _ & Hb). unfold XTIMER_BACKOFF in Hb. simplify_eq. lia. }
  pose proof (xlist_length 0 s l Hx).
  destruct (set64_in_handler (demo_clock 4980) 0 log_callback 30 (demo_clock_mono 4980) ltac:(done)
    s1 l (arg t) t' 1000000 0) as (s' & E & X1 & X2 & X3 & X4 & X5 & X6); try done;
    try (unfold demo_clock, XTIMER_BACKOFF, uint; cbn; lia).
  exists s', (ins (tgt (xtimers s')) (arg t) l). split; [exact E|]. split; [|by rewrite X3; cbn in X6; split; [|lia]].
  change (xtimers s1) with (xtimers s) in X1. split; [done|apply ins_sublist|..].
  - intros y Hy. rewrite X1. apply lookup_insert_ne. by intros <-.
  - intros y Hy. apply elem_of_ins in Hy as [->|Hy]; [right|by left]. unfold tgt. rewrite X1, lookup_insert_eq. cbn in Hr.
    unfold demo_clock, XTIMER_ISR_BACKOFF. cbn. lia.
  - rewrite X1. apply dom_insert_lookup_L. by eexists.
  - by rewrite X4.
  - done.
Qed.

(** The first timer is due, the second is not; the handler sets the first again. *)
Lemma xtimer_isr_outcome_witness :
  ∃ s' l' n, timer_isr (demo_clock 4980) 0 (rearm_callback (demo_clock 4980)) 30 (demo_state 4999 9000 0) = Some (tt, s') ∧
    xinv 0 s' l' ∧ 2 ∈ l' ∧ user s' = [(1, n)] ∧ 4999 ≤ demo_clock 4980 (pred n).
Proof.
  destruct (xtimer_isr_outcome (demo_clock 4980) 0 (rearm_callback (demo_clock 4980)) 30 (demo_clock_mono 4980) ltac:(done)
    log_record 20 ltac:(lia) ltac:(unfold demo_clock, XTIMER_ISR_BACKOFF; lia) 200 3 rearm_handlers_ok ltac:(done)
    (demo_state 4999 9000 0) [1; 2]) as (l1 & l2 & l' & ns & s' & Hl & H1 & H2 & _ & H3 & H4 & H5 & H6 & _).
  - apply demo_xinv; unfold XTIMER_BACKOFF; lia.
  - done.
  - vm_compute. lia.
  - repeat constructor.
  - vm_compute. discriminate.
  - cbn. lia.
  - destruct l1 as [|x1 [|x2 l1]].
    + cbn in Hl. subst l2. specialize (H5 1 ltac:(by left)). vm_compute in H5. by destruct H5.
    + cbn [app] in Hl. injection Hl as <- <-. destruct ns as [|n [|]]; [by inversion H3| |by inversion H3 as [|???? _ H3']; inversion H3'].
      exists s', l', n. split; [exact H1|]. split; [exact H2|].
      split; [apply (sublist_subseteq _ _ H6); by left|]. split; [exact H4|].
      apply Forall2_cons in H3 as [[H3 _] _]. exact H3.
    + cbn [app] in Hl. injection Hl as <- <- _. destruct ns as [|n1 [|n2 ns]]; [by inversion H3|by inversion H3 as [|???? _ H3']; inversion H3'|].
      apply Forall2_cons in H3 as [_ H3]. apply Forall2_cons in H3 as [[H3 H3'] _].
      change (9000 ≤ demo_clock 4980 (pred n2)) in H3. unfold demo_clock in H3. lia.
Defined.

(** What that run leaves: the second timer, then the first. *)
Lemma rearm_run :
  option_map (λ r, (nexts r.2 !! 0, nexts r.2 !! 2, nexts r.2 !! 1, user r.2))
    (timer_isr (demo_clock 4980) 0 (rearm_callback (demo_clock 4980)) 30 (demo_state 4999 9000 0)) =
  Some (Some (Some 2), Some (Some 1), Some None, [(1, 20%nat)]).
Proof. vm_compute. reflexivity. Qed.

(** The second timer is due in 292 hours and fired now. *)
Lemma xtimer_isr_fires_all_witness :
  ∃ s' n1 n2, timer_isr (demo_clock (2 ^ 32)) 0 log_callback 30 (demo_state (2 ^ 32 + 10) (2 ^ 40) 0) = Some (tt, s') ∧
    user s' = [(1, n1); (2, n2)] ∧ (n2 ≤ 6)%nat.
Proof.
  destruct (xtimer_isr_fires_all (demo_clock (2 ^ 32)) 0 log_callback 30 (demo_clock_mono (2 ^ 32)) ltac:(done)
    log_record ltac:(done) (demo_state (2 ^ 32 + 10) (2 ^ 40) 0) [1; 2]) as (ns & s' & H1 & _ & H2 & H3 & H4).
  - apply demo_xinv; unfold XTIMER_BACKOFF; lia.
  - done.
  - cbn. lia.
  - vm_compute. discriminate.
  - vm_compute. discriminate.
  - vm_compute. reflexivity.
  - destruct ns as [|n1 [|n2 [|]]]; try done. exists s', n1, n2. split; [exact H1|]. split; [exact H4|].
    apply Forall_cons in H3 as [_ H3]. apply Forall_cons in H3 as [H3 _]. exact H3.
Defined.
