(* ===== verification/Timex.v ===== *)
(** * Timestamps (sys/timex/timex.c, sys/include/timex.h)

    Pairs of seconds and microseconds, their arithmetic, and the current time as
    such a pair ([xtimer_now_timex] of sys/xtimer/xtimer.c). *)

From S2P Require Import Prelude Div Xtimer.

Definition US_PER_SEC : Z := 1000000.

Record timex_t := Timex { seconds : Z; microseconds : Z }.

#[export] Instance timex_t_eq_dec : EqDecision timex_t.
Proof. solve_decision. Defined.

Definition timex_set (seconds microseconds : Z) : timex_t := Timex seconds microseconds.

Definition timex_add (a b : timex_t) : timex_t :=
  let result := Timex (u32 (seconds a + seconds b)) (u32 (microseconds a + microseconds b)) in
  if US_PER_SEC <? microseconds result
  then Timex (u32 (seconds result + 1)) (u32 (microseconds result - US_PER_SEC))
  else result.

Definition timex_sub (a b : timex_t) : timex_t :=
  if microseconds b <=? microseconds a
  then Timex (u32 (seconds a - seconds b)) (u32 (microseconds a - microseconds b))
  else Timex (u32 (seconds a - seconds b - 1)) (u32 (microseconds a + US_PER_SEC - microseconds b)).

Definition timex_cmp (a b : timex_t) : Z :=
  if seconds a <? seconds b then -1
  else if seconds a =? seconds b then
    if microseconds a <? microseconds b then -1
    else if microseconds a =? microseconds b then 0 else 1
  else 1.

Definition timex_normalize (time : timex_t) : timex_t :=
  Timex (u32 (seconds time + microseconds time / US_PER_SEC)) (microseconds time mod US_PER_SEC).

Definition timex_isnormalized (time : timex_t) : bool := microseconds time <? US_PER_SEC.

Definition timex_uint64 (a : timex_t) : Z := u64 (u64 (seconds a * US_PER_SEC) + microseconds a).

Definition timex_from_uint64 (timestamp : Z) : timex_t :=
  timex_set (u32 (timestamp / US_PER_SEC)) (u32 (timestamp mod US_PER_SEC)).

Definition xtimer_now_timex {U} (mtime : nat → Z) : X U timex_t :=
  now ← xtimer_now_usec64 mtime;
  let s := u32 (div_u64_by_1000000 now) in
  mret (Timex s (u32 (now - u32 (s * US_PER_SEC)))).

(** ** Correctness *)

(** A timestamp as the code keeps it, and the microseconds it stands for. *)
Definition timex_ok (t : timex_t) : Prop := uint 32 (seconds t) ∧ 0 ≤ microseconds t < US_PER_SEC.
Definition timex_val (t : timex_t) : Z := seconds t * US_PER_SEC + microseconds t.

Lemma timex_val_inj a b : timex_ok a → timex_ok b → timex_val a = timex_val b → a = b.
Proof.
  destruct a as [s u], b as [s' u']. unfold timex_ok, timex_val, US_PER_SEC, uint. simpl. intros [??] [??] ?.
  assert (s = s') as -> by lia. f_equal. lia.
Qed.

(** On normalised timestamps [timex_sub], [timex_cmp] and the conversions agree
    with the arithmetic of the microseconds, and so does [timex_add], except that a
    sum of exactly one second of microseconds is left unnormalised; the current time
    is exact up to [exact_max] microseconds, and has an impossible number of
    microseconds at 7154.999999 seconds. *)
Theorem timex_correct {U} mtime (s : xstate U) a b :
  timex_ok a → timex_ok b →
  (seconds a + seconds b + 1 < 2 ^ 32 →
   timex_val (timex_add a b) = timex_val a + timex_val b ∧
   timex_isnormalized (timex_add a b) = negb (microseconds a + microseconds b =? US_PER_SEC)) ∧
  (timex_val b ≤ timex_val a →
   timex_ok (timex_sub a b) ∧ timex_val (timex_sub a b) = timex_val a - timex_val b) ∧
  timex_cmp a b = match timex_val a ?= timex_val b with Lt => -1 | Eq => 0 | Gt => 1 end ∧
  timex_from_uint64 (timex_uint64 a) = a ∧
  (0 ≤ mtime (reads s) ≤ exact_max →
   xtimer_now_timex mtime s = Some (timex_from_uint64 (mtime (reads s)), set_reads (S (reads s)) s)) ∧
  (mtime (reads s) = 7154999999 →
   xtimer_now_timex mtime s = Some (Timex 7155 (2 ^ 32 - 1), set_reads (S (reads s)) s)).
Proof.
  destruct a as [sa ua], b as [sb ub]. unfold timex_ok, timex_val, US_PER_SEC, uint. simpl. intros [Ha Hua] [Hb Hub].
  split; [|split; [|split; [|split; [|split]]]].
  - intros Hs. unfold timex_add, timex_isnormalized, US_PER_SEC. simpl.
    rewrite (wrap_small 32 (ua + ub)), (wrap_small 32 (sa + sb)) by (unfold uint; lia).
    destruct (Z.ltb_spec 1000000 (ua + ub)); simpl.
    + rewrite !wrap_small by (unfold uint; lia). split; [lia|]. ztest.
    + split; [lia|]. ztest.
  - intros Hle. unfold timex_sub, US_PER_SEC. simpl. destruct (Z.leb_spec ub ua); simpl;
      rewrite !wrap_small by (unfold uint; lia); lia.
  - unfold timex_cmp. simpl. destruct (Z.compare_spec (sa * 1000000 + ua) (sb * 1000000 + ub)); ztest.
  - unfold timex_from_uint64, timex_uint64, timex_set, US_PER_SEC. simpl.
    rewrite (wrap_small 64 (sa * 1000000)), (wrap_small 64) by (unfold uint; lia).
    rewrite Z.div_add_l, Z.div_small, Z.add_0_r, wrap_small by (unfold uint; lia).
    rewrite Z.add_comm, Z_mod_plus_full, Z.mod_small, wrap_small by (unfold uint; lia). done.
  - unfold exact_max. intros Hm. unfold xtimer_now_timex.
    set (now := mtime (reads s)) in *. unfold mbind, X_bind.
    change (xtimer_now_usec64 mtime s) with (Some (u64 now, set_reads (S (reads s)) s)).
    cbn [mbind option_bind mret X_ret]. rewrite (wrap_small 64 now) by (unfold uint; lia). rewrite div_1000000_ok by (unfold uint, exact_max; lia).
    unfold mret, X_ret, timex_from_uint64, timex_set, US_PER_SEC. do 3 f_equal.
    pose proof (Z.div_mod now 1000000 ltac:(lia)). pose proof (Z.mod_pos_bound now 1000000 ltac:(lia)).
    rewrite (wrap_small 32 (now / _)) by (unfold uint; split; [apply Z.div_pos|apply Z.div_lt_upper_bound]; lia).
    rewrite wrap_sub_idem_r. f_equal. lia.
  - intros Hm. unfold xtimer_now_timex, mbind, X_bind.
    change (xtimer_now_usec64 mtime s) with (Some (u64 (mtime (reads s)), set_reads (S (reads s)) s)).
    rewrite Hm. reflexivity.
Qed.

Lemma timex_correct_witness :
  timex_val (timex_sub (Timex 5 0) (Timex 2 999999)) = timex_val (Timex 5 0) - timex_val (Timex 2 999999).
Proof.
  refine (proj2 (proj1 (proj2 (timex_correct (λ _, 0)
    (XState ∅ ∅ false 0 false false false 0 tt) (Timex 5 0) (Timex 2 999999) _ _)) _)).
  - vm_compute. intuition discriminate.
  - vm_compute. intuition discriminate.
  - vm_compute. discriminate.
Defined.
