(* ===== verification/Kernel.v ===== *)
(** * The kernel state and the scheduler (core/sched.c, core/thread.c)

    The global state of the kernel, the control flow of kernel calls and the
    code of the scheduler and of the thread management.

    Thread control blocks, messages, mutexes, condition variables and mailboxes
    are objects at addresses; the null pointer is [0].  All intrusive list nodes
    live in one heap of [next] pointers, so that a thread's single [rq_entry] is
    shared between its run queue and the wait lists as in the code.

    Configuration: the modules [core_msg], [core_mbox] and [core_thread_flags]
    are built in; [DEVELHELP], [MODULE_SCHEDSTATISTICS], [MODULE_MPU_STACK_GUARD]
    and [SCHED_TEST_STACK] are not; assertions are checked. *)

From S2P Require Import Prelude Bitarithm Cib LinkedList Clist.

(** ** Data *)

Inductive thread_status_t :=
| STATUS_STOPPED | STATUS_SLEEPING | STATUS_MUTEX_BLOCKED | STATUS_RECEIVE_BLOCKED
| STATUS_SEND_BLOCKED | STATUS_REPLY_BLOCKED | STATUS_FLAG_BLOCKED_ANY
| STATUS_FLAG_BLOCKED_ALL | STATUS_MBOX_BLOCKED | STATUS_COND_BLOCKED
| STATUS_RUNNING | STATUS_PENDING.

#[export] Instance thread_status_t_eq_dec : EqDecision thread_status_t.
Proof. solve_decision. Defined.

(** The value of the enumerator. *)
Definition status_num (st : thread_status_t) : Z :=
  match st with
  | STATUS_STOPPED => 0 | STATUS_SLEEPING => 1 | STATUS_MUTEX_BLOCKED => 2
  | STATUS_RECEIVE_BLOCKED => 3 | STATUS_SEND_BLOCKED => 4 | STATUS_REPLY_BLOCKED => 5
  | STATUS_FLAG_BLOCKED_ANY => 6 | STATUS_FLAG_BLOCKED_ALL => 7 | STATUS_MBOX_BLOCKED => 8
  | STATUS_COND_BLOCKED => 9 | STATUS_RUNNING => 10 | STATUS_PENDING => 11
  end.

(** [st >= STATUS_ON_RUNQUEUE]. *)
Definition on_runqueue (st : thread_status_t) : bool :=
  status_num STATUS_RUNNING <=? status_num st.

(** [(int) STATUS_NOT_FOUND]. *)
Definition STATUS_NOT_FOUND : Z := -1.

Definition SCHED_PRIO_LEVELS : Z := 16.
Definition THREAD_PRIORITY_MIN : Z := SCHED_PRIO_LEVELS - 1.
Definition THREAD_PRIORITY_IDLE : Z := THREAD_PRIORITY_MIN.
Definition MAXTHREADS : Z := 32.
Definition KERNEL_PID_UNDEF : Z := 0.
Definition KERNEL_PID_FIRST : Z := KERNEL_PID_UNDEF + 1.
Definition KERNEL_PID_LAST : Z := KERNEL_PID_FIRST + MAXTHREADS - 1.
Definition KERNEL_PID_ISR : Z := KERNEL_PID_LAST + 1.

Definition pid_is_valid (pid : Z) : bool :=
  (KERNEL_PID_FIRST <=? pid) && (pid <=? KERNEL_PID_LAST).

Definition THREAD_CREATE_SLEEPING : Z := 1.
Definition THREAD_CREATE_WOUT_YIELD : Z := 4.

(** List nodes: the anchors of the run queues, the [rq_entry] and [msg_waiters]
    of the thread at an address, the queues of the mutex, condition variable and
    mailbox at an address, and the pointer value [MUTEX_LOCKED], which is the
    address of no node. *)
Inductive node :=
| NRq (prio : Z) | NThread (t : Z) | NMsgWaiters (t : Z)
| NMutex (m : Z) | NCond (c : Z) | NReaders (b : Z) | NWriters (b : Z)
| NLocked.

#[export] Instance node_eq_dec : EqDecision node.
Proof. solve_decision. Defined.

Definition node_encode (n : node) : Z * Z :=
  match n with
  | NRq p => (0, p) | NThread t => (1, t) | NMsgWaiters t => (2, t) | NMutex m => (3, m)
  | NCond c => (4, c) | NReaders b => (5, b) | NWriters b => (6, b) | NLocked => (7, 0)
  end.

Definition node_decode (c : Z * Z) : option node :=
  let '(k, x) := c in
  if k =? 0 then Some (NRq x) else if k =? 1 then Some (NThread x)
  else if k =? 2 then Some (NMsgWaiters x) else if k =? 3 then Some (NMutex x)
  else if k =? 4 then Some (NCond x) else if k =? 5 then Some (NReaders x)
  else if k =? 6 then Some (NWriters x) else Some NLocked.

#[export] Program Instance node_countable : Countable node :=
  inj_countable node_encode node_decode _.
Next Obligation. by intros []. Qed.

(** [msg_t]; the content is the 64-bit union of pointer and value. *)
Record msg_t := Msg { sender_pid : Z; type : Z; content : Z }.

#[export] Instance msg_t_eq_dec : EqDecision msg_t.
Proof. solve_decision. Defined.
#[export] Instance msg_t_inhabited : Inhabited msg_t := populate (Msg 0 0 0).

(** [sizeof(msg_t)] on a 64-bit target, and [&array[n]]. *)
Definition SIZEOF_MSG_T : Z := 16.
Definition msg_addr (array n : Z) : Z := array + n * SIZEOF_MSG_T.

(** [struct _thread]; [rq_entry] and [msg_waiters] are nodes of the heap.
    [wait_data] is a pointer to a message or the flag mask waited for. *)
Record thread_t := Thread {
  status : thread_status_t;
  priority : Z;
  pid : Z;
  flags : Z;
  wait_data : Z;
  msg_queue : cib_t;
  msg_array : Z;
  sp : Z
}.

(** The parts of [mbox_t] that are no list anchors. *)
Record mbox_t := Mbox { mbox_cib : cib_t; mbox_msg_array : Z }.

(** The parts of [rmutex_t] besides the mutex. *)
Record rmutex_t := Rmutex { refcount : Z; owner : Z }.

Definition set_status (v : thread_status_t) (t : thread_t) : thread_t :=
  Thread v (priority t) (pid t) (flags t) (wait_data t) (msg_queue t) (msg_array t) (sp t).

Definition set_priority (v : Z) (t : thread_t) : thread_t :=
  Thread (status t) v (pid t) (flags t) (wait_data t) (msg_queue t) (msg_array t) (sp t).

Definition set_pid (v : Z) (t : thread_t) : thread_t :=
  Thread (status t) (priority t) v (flags t) (wait_data t) (msg_queue t) (msg_array t) (sp t).

Definition set_flags (v : Z) (t : thread_t) : thread_t :=
  Thread (status t) (priority t) (pid t) v (wait_data t) (msg_queue t) (msg_array t) (sp t).

Definition set_wait_data (v : Z) (t : thread_t) : thread_t :=
  Thread (status t) (priority t) (pid t) (flags t) v (msg_queue t) (msg_array t) (sp t).

Definition set_msg_queue (v : cib_t) (t : thread_t) : thread_t :=
  Thread (status t) (priority t) (pid t) (flags t) (wait_data t) v (msg_array t) (sp t).

Definition set_msg_array (v : Z) (t : thread_t) : thread_t :=
  Thread (status t) (priority t) (pid t) (flags t) (wait_data t) (msg_queue t) v (sp t).

Definition set_sp (v : Z) (t : thread_t) : thread_t :=
  Thread (status t) (priority t) (pid t) (flags t) (wait_data t) (msg_queue t) (msg_array t) v.

Record kernel := Kernel {
  sched_num_threads : Z;
  sched_context_switch_request : Z;
  sched_threads : list Z;
  sched_active_thread : Z;
  sched_active_pid : Z;
  runqueue_bitcache : Z;
  nodes : heap node;
  threads : gmap Z thread_t;
  mem : gmap Z msg_t;
  mboxes : gmap Z mbox_t;
  rmutexes : gmap Z rmutex_t;
  irq_on : bool;
  in_isr : bool;
  yield_pending : bool
}.

Definition set_sched_num_threads (v : Z) (s : kernel) : kernel :=
  Kernel v (sched_context_switch_request s) (sched_threads s) (sched_active_thread s)
    (sched_active_pid s) (runqueue_bitcache s) (nodes s) (threads s) (mem s) (mboxes s)
    (rmutexes s) (irq_on s) (in_isr s) (yield_pending s).

Definition set_sched_context_switch_request (v : Z) (s : kernel) : kernel :=
  Kernel (sched_num_threads s) v (sched_threads s) (sched_active_thread s)
    (sched_active_pid s) (runqueue_bitcache s) (nodes s) (threads s) (mem s) (mboxes s)
    (rmutexes s) (irq_on s) (in_isr s) (yield_pending s).

Definition set_sched_threads (v : list Z) (s : kernel) : kernel :=
  Kernel (sched_num_threads s) (sched_context_switch_request s) v (sched_active_thread s)
    (sched_active_pid s) (runqueue_bitcache s) (nodes s) (threads s) (mem s) (mboxes s)
    (rmutexes s) (irq_on s) (in_isr s) (yield_pending s).

Definition set_sched_active_thread (v : Z) (s : kernel) : kernel :=
  Kernel (sched_num_threads s) (sched_context_switch_request s) (sched_threads s) v
    (sched_active_pid s) (runqueue_bitcache s) (nodes s) (threads s) (mem s) (mboxes s)
    (rmutexes s) (irq_on s) (in_isr s) (yield_pending s).

Definition set_sched_active_pid (v : Z) (s : kernel) : kernel :=
  Kernel (sched_num_threads s) (sched_context_switch_request s) (sched_threads s)
    (sched_active_thread s) v (runqueue_bitcache s) (nodes s) (threads s) (mem s) (mboxes s)
    (rmutexes s) (irq_on s) (in_isr s) (yield_pending s).

Definition set_runqueue_bitcache (v : Z) (s : kernel) : kernel :=
  Kernel (sched_num_threads s) (sched_context_switch_request s) (sched_threads s)
    (sched_active_thread s) (sched_active_pid s) v (nodes s) (threads s) (mem s) (mboxes s)
    (rmutexes s) (irq_on s) (in_isr s) (yield_pending s).

Definition set_nodes (v : heap node) (s : kernel) : kernel :=
  Kernel (sched_num_threads s) (sched_context_switch_request s) (sched_threads s)
    (sched_active_thread s) (sched_active_pid s) (runqueue_bitcache s) v (threads s) (mem s)
    (mboxes s) (rmutexes s) (irq_on s) (in_isr s) (yield_pending s).

Definition set_threads (v : gmap Z thread_t) (s : kernel) : kernel :=
  Kernel (sched_num_threads s) (sched_context_switch_request s) (sched_threads s)
    (sched_active_thread s) (sched_active_pid s) (runqueue_bitcache s) (nodes s) v (mem s)
    (mboxes s) (rmutexes s) (irq_on s) (in_isr s) (yield_pending s).

Definition set_mem (v : gmap Z msg_t) (s : kernel) : kernel :=
  Kernel (sched_num_threads s) (sched_context_switch_request s) (sched_threads s)
    (sched_active_thread s) (sched_active_pid s) (runqueue_bitcache s) (nodes s) (threads s)
    v (mboxes s) (rmutexes s) (irq_on s) (in_isr s) (yield_pending s).

Definition set_mboxes (v : gmap Z mbox_t) (s : kernel) : kernel :=
  Kernel (sched_num_threads s) (sched_context_switch_request s) (sched_threads s)
    (sched_active_thread s) (sched_active_pid s) (runqueue_bitcache s) (nodes s) (threads s)
    (mem s) v (rmutexes s) (irq_on s) (in_isr s) (yield_pending s).

Definition set_rmutexes (v : gmap Z rmutex_t) (s : kernel) : kernel :=
  Kernel (sched_num_threads s) (sched_context_switch_request s) (sched_threads s)
    (sched_active_thread s) (sched_active_pid s) (runqueue_bitcache s) (nodes s) (threads s)
    (mem s) (mboxes s) v (irq_on s) (in_isr s) (yield_pending s).

Definition set_irq_on (v : bool) (s : kernel) : kernel :=
  Kernel (sched_num_threads s) (sched_context_switch_request s) (sched_threads s)
    (sched_active_thread s) (sched_active_pid s) (runqueue_bitcache s) (nodes s) (threads s)
    (mem s) (mboxes s) (rmutexes s) v (in_isr s) (yield_pending s).

Definition set_in_isr (v : bool) (s : kernel) : kernel :=
  Kernel (sched_num_threads s) (sched_context_switch_request s) (sched_threads s)
    (sched_active_thread s) (sched_active_pid s) (runqueue_bitcache s) (nodes s) (threads s)
    (mem s) (mboxes s) (rmutexes s) (irq_on s) v (yield_pending s).

Definition set_yield_pending (v : bool) (s : kernel) : kernel :=
  Kernel (sched_num_threads s) (sched_context_switch_request s) (sched_threads s)
    (sched_active_thread s) (sched_active_pid s) (runqueue_bitcache s) (nodes s) (threads s)
    (mem s) (mboxes s) (rmutexes s) (irq_on s) (in_isr s) v.

(** ** Kernel calls

    A call runs until it returns, until it suspends the calling thread by a
    context switch, or until it faults (an access to no object, a failed
    assertion).  A suspended call carries on, from whatever state the system has
    reached, when its thread is scheduled again. *)

Inductive res (A : Type) :=
| Fault
| Done (s : kernel) (a : A)
| Yield (s : kernel) (k : kernel → res A).
Arguments Fault {A}.
Arguments Done {A} s a.
Arguments Yield {A} s k.

Fixpoint res_bind {A B} (r : res A) (f : A → kernel → res B) : res B :=
  match r with
  | Fault => Fault
  | Done s a => f a s
  | Yield s k => Yield s (λ s', res_bind (k s') f)
  end.

Definition M (A : Type) : Type := kernel → res A.

#[export] Instance M_ret : MRet M := λ A a s, Done s a.
#[export] Instance M_bind : MBind M := λ A B f m s, res_bind (m s) f.

Definition get {A} (f : kernel → A) : M A := λ s, Done s (f s).
Definition modify (f : kernel → kernel) : M unit := λ s, Done (f s) tt.
Definition fault {A} : M A := λ _, Fault.
Definition lift {A} (o : option A) : M A :=
  λ s, match o with Some a => Done s a | None => Fault end.

(** Run a heap operation on the nodes. *)
Definition on_nodes (f : heap node → option (heap node)) : M unit :=
  λ s, match f (nodes s) with Some h => Done (set_nodes h s) tt | None => Fault end.
Definition on_nodes_r {A} (f : heap node → option (A * heap node)) : M A :=
  λ s, match f (nodes s) with Some (a, h) => Done (set_nodes h s) a | None => Fault end.
Definition read_node (n : node) : M (option node) := λ s, lift (get_next (nodes s) n) s.

(** Dereferencing a thread pointer, and updating a field of the thread. *)
Definition get_thread (t : Z) : M thread_t := λ s, lift (threads s !! t) s.
Definition upd_thread (t : Z) (f : thread_t → thread_t) : M unit :=
  λ s, match threads s !! t with
       | Some th => Done (set_threads (<[t := f th]> (threads s)) s) tt
       | None => Fault
       end.

(** [container_of(node, thread_t, rq_entry)]. *)
Definition container_of (n : node) : M Z :=
  match n with NThread t => mret t | _ => fault end.

(** Reading and writing the message at an address. *)
Definition read_msg (a : Z) : M msg_t := λ s, lift (mem s !! a) s.
Definition write_msg (a : Z) (m : msg_t) : M unit :=
  λ s, match mem s !! a with
       | Some _ => Done (set_mem (<[a := m]> (mem s)) s) tt
       | None => Fault
       end.

(** [sched_threads[pid]]. *)
Definition read_sched_threads (pid : Z) : M Z := λ s, lift (aget (sched_threads s) pid) s.
Definition write_sched_threads (pid t : Z) : M unit :=
  λ s, match aset (sched_threads s) pid t with
       | Some l => Done (set_sched_threads l s) tt
       | None => Fault
       end.
