(* ===== verification/Sched.v ===== *)
(** * Scheduler and thread operations (core/sched.c, core/thread.c)

    The code of the scheduler and of the thread calls, on the state of
    [Kernel]. *)

From S2P Require Import Prelude Bitarithm Cib LinkedList Clist Kernel.

(** ** sched.c *)

Definition sched_run : M Z :=
  modify (set_sched_context_switch_request 0);;
  active_thread ← get sched_active_thread;
  cache ← get runqueue_bitcache;
  nextrq ← lift (bitarithm_lsb cache);
  last ← read_node (NRq nextrq);
  last ← lift last;
  first ← read_node last;
  first ← lift first;
  next_thread ← container_of first;
  if active_thread =? next_thread then mret 0
  else
    (if negb (active_thread =? 0) then
       th ← get_thread active_thread;
       if decide (status th = STATUS_RUNNING)
       then upd_thread active_thread (set_status STATUS_PENDING) else mret tt
     else mret tt);;
    upd_thread next_thread (set_status STATUS_RUNNING);;
    th ← get_thread next_thread;
    modify (set_sched_active_pid (pid th));;
    modify (set_sched_active_thread next_thread);;
    mret 1.

Definition sched_set_status (process : Z) (st : thread_status_t) : M unit :=
  th ← get_thread process;
  (if on_runqueue st then
     if negb (on_runqueue (status th)) then
       on_nodes (λ h, clist_rpush h (NRq (priority th)) (NThread process));;
       cache ← get runqueue_bitcache;
       modify (set_runqueue_bitcache (Z.lor cache (Z.shiftl 1 (priority th))))
     else mret tt
   else
     if on_runqueue (status th) then
       on_nodes_r (λ h, clist_lpop h (NRq (priority th)));;
       nx ← read_node (NRq (priority th));
       if negb (notnull nx) then
         cache ← get runqueue_bitcache;
         modify (set_runqueue_bitcache
                   (Z.land cache (u32 (Z.lnot (Z.shiftl 1 (priority th))))))
       else mret tt
     else mret tt);;
  upd_thread process (set_status st).

(** ** The context switch (cpu/riscv_common)

    [thread_yield_higher] raises the software interrupt.  It is taken at once
    when interrupts are enabled, and otherwise when they are enabled again; its
    handler calls [sched_run]. *)

Definition context_switch : M unit :=
  λ s, match sched_run (set_yield_pending false s) with
       | Done s' r => if r =? 0 then Done s' tt else Yield s' (λ s'', Done s'' tt)
       | _ => Fault
       end.

Definition thread_yield_higher : M unit :=
  λ s, if irq_on s && negb (in_isr s) then context_switch s
       else Done (set_yield_pending true s) tt.

(** [irq_disable] returns the previous state. *)
Definition irq_disable : M bool :=
  λ s, Done (set_irq_on false s) (irq_on s).

Definition irq_restore (state : bool) : M unit :=
  λ s, let s := set_irq_on state s in
       if state && negb (in_isr s) && yield_pending s then context_switch s else Done s tt.

Definition irq_is_in : M bool := get in_isr.

Definition sched_switch (other_prio : Z) : M unit :=
  active_thread ← get sched_active_thread;
  th ← get_thread active_thread;
  let current_prio := priority th in
  let on_rq := on_runqueue (status th) in
  if negb on_rq || (other_prio <? current_prio) then
    isr ← irq_is_in;
    if isr : bool then modify (set_sched_context_switch_request 1)
    else thread_yield_higher
  else mret tt.

(** ** thread.c *)

Definition thread_get (pid : Z) : M Z :=
  if pid_is_valid pid then read_sched_threads pid else mret 0.

Definition thread_getstatus (pid : Z) : M Z :=
  thread ← thread_get pid;
  if negb (thread =? 0) then th ← get_thread thread; mret (status_num (status th))
  else mret STATUS_NOT_FOUND.

Definition thread_sleep : M unit :=
  isr ← irq_is_in;
  if isr : bool then mret tt
  else
    state ← irq_disable;
    me ← get sched_active_thread;
    sched_set_status me STATUS_SLEEPING;;
    irq_restore state;;
    thread_yield_higher.

Definition thread_wakeup (pid : Z) : M Z :=
  old_state ← irq_disable;
  thread ← thread_get pid;
  if thread =? 0 then irq_restore old_state;; mret STATUS_NOT_FOUND
  else
    th ← get_thread thread;
    if decide (status th = STATUS_SLEEPING) then
      sched_set_status thread STATUS_RUNNING;;
      irq_restore old_state;;
      th ← get_thread thread;
      sched_switch (priority th);;
      mret 1
    else irq_restore old_state;; mret STATUS_NOT_FOUND.

Definition thread_yield : M unit :=
  old_state ← irq_disable;
  me ← get sched_active_thread;
  (if negb (me =? 0) then
     th ← get_thread me;
     if on_runqueue (status th)
     then on_nodes (λ h, clist_lpoprpush h (NRq (priority th))) else mret tt
   else mret tt);;
  irq_restore old_state;;
  thread_yield_higher.

(** The search loop of [thread_add_to_list]: the node to insert after. *)
Fixpoint add_to_list_loop (fuel : nat) (list : node) (my_prio : Z) : M node :=
  match fuel with
  | O => fault
  | S fuel =>
      nx ← read_node list;
      match nx with
      | None => mret list
      | Some n =>
          e ← container_of n;
          list_entry ← get_thread e;
          if my_prio <? priority list_entry then mret list
          else add_to_list_loop fuel n my_prio
      end
  end.

Definition thread_add_to_list (list : node) (thread : Z) : M unit :=
  th ← get_thread thread;
  if on_runqueue (status th) then fault   (* assertion *)
  else
    let my_prio := priority th in
    let new_node := NThread thread in
    n ← get (λ s, size (nodes s));
    list ← add_to_list_loop (S n) list my_prio;
    nx ← read_node list;
    on_nodes (λ h, set_next h new_node nx);;
    on_nodes (λ h, set_next h list (Some new_node)).

(** ** sched_task_exit *)

(** cpu/riscv_common: enable interrupts and yield. *)
Definition cpu_switch_context_exit : M unit :=
  modify (set_irq_on true);;
  thread_yield.

Definition sched_task_exit : M unit :=
  irq_disable;;
  p ← get sched_active_pid;
  write_sched_threads p 0;;
  n ← get sched_num_threads;
  modify (set_sched_num_threads (i32 (n - 1)));;
  me ← get sched_active_thread;
  sched_set_status me STATUS_STOPPED;;
  modify (set_sched_active_thread 0);;
  cpu_switch_context_exit.

(** ** thread_create *)

Definition EINVAL : Z := 22.
Definition EOVERFLOW : Z := 75.

(** [sizeof(thread_t)] and the alignments on a 64-bit target: [sp] 8, [status] 4,
    [priority] 1 (+1), [pid] 2, [flags] 2 (+6), three pointers 24, [cib_t] 12 (+4),
    [msg_array] 8. *)
Definition SIZEOF_THREAD_T : Z := 72.
Definition ALIGN_OF_PTR : Z := 8.

(** [for (i = KERNEL_PID_FIRST; i <= KERNEL_PID_LAST; ++i)]: the first free pid. *)
Fixpoint find_pid (n : nat) (i : Z) : M Z :=
  match n with
  | O => mret KERNEL_PID_UNDEF
  | S n =>
      t ← read_sched_threads i;
      if t =? 0 then mret i else find_pid n (i + 1)
  end.

(** The aligned start of the stack and its size below the control block. *)
Definition tcb_layout (stack stacksize : Z) : Z * Z :=
  let misalignment := stack mod ALIGN_OF_PTR in
  let '(stack, stacksize) :=
    if negb (misalignment =? 0)
    then let m := ALIGN_OF_PTR - misalignment in (stack + m, i32 (stacksize - m))
    else (stack, stacksize) in
  let stacksize := i32 (stacksize - SIZEOF_THREAD_T) in
  let stacksize := i32 (stacksize - stacksize mod ALIGN_OF_PTR) in
  (stack, stacksize).

Section ThreadCreate.
(** The initial stack frame is architecture code; [stale_flags] is the content of
    the stack memory at the place of a control block's [flags], which the code
    does not initialise; [prio_char] is the value of the argument of type
    [char]. *)
Variable thread_stack_init : Z → Z → Z → Z → Z.
Variable stale_flags : Z → Z.

Definition thread_create (stack stacksize prio_char fl function arg : Z) : M Z :=
  if SCHED_PRIO_LEVELS <=? prio_char then mret (- EINVAL)
  else
    let '(stack, stacksize) := tcb_layout stack stacksize in
    let thread := stack + stacksize in
    state ← irq_disable;
    p ← find_pid (Z.to_nat MAXTHREADS) KERNEL_PID_FIRST;
    if p =? KERNEL_PID_UNDEF then irq_restore state;; mret (- EOVERFLOW)
    else
      write_sched_threads p thread;;
      (* cib_init(&thread->msg_queue, 0) cannot fail its assertion *)
      q ← lift (cib_init 0);
      modify (λ s, set_threads (<[thread :=
        Thread STATUS_STOPPED (u8 prio_char) p (u16 (stale_flags thread))
          0 q 0 (thread_stack_init function arg stack stacksize)]> (threads s)) s);;
      modify (λ s, set_nodes (<[NThread thread := None]>
                                (<[NMsgWaiters thread := None]> (nodes s))) s);;
      n ← get sched_num_threads;
      modify (set_sched_num_threads (i32 (n + 1)));;
      if negb (Z.land fl THREAD_CREATE_SLEEPING =? 0) then
        sched_set_status thread STATUS_SLEEPING;;
        irq_restore state;;
        mret p
      else
        sched_set_status thread STATUS_PENDING;;
        if Z.land fl THREAD_CREATE_WOUT_YIELD =? 0 then
          irq_restore state;;
          sched_switch (u16 prio_char);;
          mret p
        else irq_restore state;; mret p.

End ThreadCreate.
