(* ===== verification/KernelInv.v ===== *)
(** * The kernel invariant

    The run queues and wait lists as sequences of threads, their representation
    by the linked nodes, and the invariant that ties them to the thread states.
    The lemmas of this file are the transitions every kernel call is built from:
    waking a thread, blocking the running one, queueing and dequeueing at a wait
    list, and choosing the next thread. *)

From S2P Require Import Prelude Bitarithm Cib LinkedList Clist Kernel Sched.
From Stdlib Require Import Sorting.Sorted.

(** ** Abstract queues *)

Inductive absq :=
| QRun (l : list Z)                (** a run queue, the next thread first *)
| QWait (l : list Z)               (** a list of blocked threads *)
| QMutex (o : option (list Z)).    (** unlocked, or locked with the waiters *)

Abbreviation queues := (gmap node absq).

Definition members (v : absq) : list Z :=
  match v with QRun l | QWait l | QMutex (Some l) => l | QMutex None => [] end.

(** Which kind of queue hangs off which anchor. *)
Definition anchor_ok (a : node) (v : absq) : Prop :=
  match a, v with
  | NRq p, QRun _ => 0 ≤ p < SCHED_PRIO_LEVELS
  | NMutex _, QMutex _ => True
  | (NMsgWaiters _ | NCond _ | NReaders _ | NWriters _), QWait _ => True
  | _, _ => False
  end.

(** The linked nodes of a queue. *)
Definition rep (h : heap node) (a : node) (v : absq) : Prop :=
  match v with
  | QRun l => clist h a (NThread <$> l)
  | QWait l => slist h a (NThread <$> l)
  | QMutex None => h !! a = Some None
  | QMutex (Some []) => h !! a = Some (Some NLocked)
  | QMutex (Some l) => slist h a (NThread <$> l)
  end.

Definition footprint (a : node) (v : absq) : list node := a :: (NThread <$> members v).

(** [t] is in no queue. *)
Definition detached (Q : queues) (t : Z) : Prop := ∀ a v, Q !! a = Some v → t ∉ members v.

Record qrep (h : heap node) (Q : queues) : Prop := {
  qr_rep a v : Q !! a = Some v → anchor_ok a v ∧ rep h a v;
  qr_disj a1 v1 a2 v2 t : Q !! a1 = Some v1 → Q !! a2 = Some v2 →
    t ∈ members v1 → t ∈ members v2 → a1 = a2
}.

(** The status of the threads in a queue. *)
Definition waits_at (a : node) (st : thread_status_t) : Prop :=
  match a with
  | NRq _ => on_runqueue st = true
  | NMutex _ => st = STATUS_MUTEX_BLOCKED
  | NMsgWaiters _ => st = STATUS_SEND_BLOCKED ∨ st = STATUS_REPLY_BLOCKED
  | NCond _ => st = STATUS_COND_BLOCKED
  | NReaders _ | NWriters _ => st = STATUS_MBOX_BLOCKED
  | NThread _ | NLocked => False
  end.

(** The priority of a thread, and lists in the order of priorities. *)
Definition prio_of (T : gmap Z thread_t) (t : Z) : Z :=
  match T !! t with Some th => priority th | None => 0 end.

Definition sorted_by (f : Z → Z) (l : list Z) : Prop := StronglySorted Z.le (f <$> l).

(** The invariant of the kernel in a state whose queues are [Q]. *)
Record kinv (s : kernel) (Q : queues) : Prop := {
  ki_rep : qrep (nodes s) Q;
  (* members of queues are threads with the right status and priority *)
  ki_mem a v t : Q !! a = Some v → t ∈ members v →
    ∃ th, threads s !! t = Some th ∧ waits_at a (status th) ∧
      (∀ p, a = NRq p → priority th = p);
  (* runnable threads are in the run queue of their priority *)
  ki_run t th : threads s !! t = Some th → on_runqueue (status th) = true →
    ∃ l, Q !! NRq (priority th) = Some (QRun l) ∧ t ∈ l;
  (* the bit cache says which run queues are not empty *)
  ki_cache p : 0 ≤ p < SCHED_PRIO_LEVELS →
    ∃ l, Q !! NRq p = Some (QRun l) ∧ (Z.testbit (runqueue_bitcache s) p = true ↔ l ≠ []);
  ki_cache_range : 0 ≤ runqueue_bitcache s < 2 ^ SCHED_PRIO_LEVELS;
  ki_thread t th : threads s !! t = Some th →
    t ≠ 0 ∧ 0 ≤ priority th < SCHED_PRIO_LEVELS ∧ is_Some (nodes s !! NThread t) ∧
    ∃ l, Q !! NMsgWaiters t = Some (QWait l);
  ki_table_length : length (sched_threads s) = 33%nat;
  ki_table p t : aget (sched_threads s) p = Some t → t ≠ 0 →
    ∃ th, threads s !! t = Some th ∧ pid th = p;
  ki_active : sched_active_thread s ≠ 0 →
    ∃ th, threads s !! sched_active_thread s = Some th ∧ pid th = sched_active_pid s;
  (* wait lists are in the order of priorities *)
  ki_sorted a v : Q !! a = Some v → (∀ p, a ≠ NRq p) →
    sorted_by (prio_of (threads s)) (members v)
}.

(** The running thread, while runnable, is at the head of its run queue. *)
Definition active_first (s : kernel) (Q : queues) : Prop :=
  ∀ th, threads s !! sched_active_thread s = Some th → on_runqueue (status th) = true →
    ∃ l, Q !! NRq (priority th) = Some (QRun (sched_active_thread s :: l)).

(** ** Queues and heaps *)

Lemma rep_frame h h' a v :
  (∀ n, n ∈ footprint a v → h' !! n = h !! n) → rep h a v → rep h' a v.
Proof.
  intros Hf. destruct v as [l|l|[[|t l]|]]; simpl; unfold footprint in Hf; simpl in Hf;
    [by apply clist_frame|by apply slist_frame| |by apply slist_frame|];
    by rewrite (Hf a) by (by left).
Qed.

Lemma NThread_in (t : Z) (l : list Z) : NThread t ∈ NThread <$> l ↔ t ∈ l.
Proof.
  rewrite list_elem_of_fmap. split; [by intros (x & [= ->] & ?)|]. intros. by exists t.
Qed.

Lemma anchor_not_thread a v (l : list Z) : anchor_ok a v → a ∉ NThread <$> l.
Proof. intros Ha (x & -> & _)%list_elem_of_fmap. by destruct v. Qed.

Lemma footprint_in n a v :
  n ∈ footprint a v → n = a ∨ ∃ t, n = NThread t ∧ t ∈ members v.
Proof.
  unfold footprint. rewrite elem_of_cons, list_elem_of_fmap. naive_solver.
Qed.

(** Changing one queue, with threads that are in no other queue. *)
Lemma qrep_update h h' Q a v v' :
  qrep h Q → Q !! a = Some v → anchor_ok a v' → rep h' a v' →
  (∀ n, n ∉ footprint a v → n ∉ footprint a v' → h' !! n = h !! n) →
  (∀ t, t ∈ members v' → t ∈ members v ∨ detached Q t) →
  qrep h' (<[a := v']> Q).
Proof.
  intros [Hrep Hdisj] Ha Hok Hr Hf Hm. split.
  - intros b w. rewrite lookup_insert_Some. intros [[<- <-]|[Hab Hb]]; [done|].
    destruct (Hrep b w Hb) as [Hbok Hbr]. split; [done|].
    apply (rep_frame h); [|done]. intros n Hn. apply Hf.
    + intros [->|(t & -> & Ht)]%footprint_in; apply footprint_in in Hn as [Hn|(u & Hn & Hu)].
      * done.
      * subst. by destruct v'.
      * subst. by destruct w.
      * simplify_eq. apply Hab. by apply (Hdisj a v b w u).
    + intros [->|(t & -> & Ht)]%footprint_in; apply footprint_in in Hn as [Hn|(u & Hn & Hu)].
      * done.
      * subst. by destruct v'.
      * subst. by destruct w.
      * simplify_eq. destruct (Hm u Ht) as [Hv|Hd]; [|by apply (Hd b w Hb)].
        apply Hab. by apply (Hdisj a v b w u).
  - intros a1 v1 a2 v2 t. rewrite !lookup_insert_Some.
    intros [[<- <-]|[H1 H1']] [[<- <-]|[H2 H2']] Hin1 Hin2; [done| | |by eapply Hdisj].
    + destruct (Hm t Hin1) as [Hv|Hd]; [by apply (Hdisj a v a2 v2 t)|].
      by destruct (Hd _ _ H2').
    + destruct (Hm t Hin2) as [Hv|Hd]; [by apply (Hdisj a1 v1 a v t)|].
      by destruct (Hd _ _ H1').
Qed.

Lemma rep_NoDup h a v : rep h a v → NoDup (members v).
Proof.
  destruct v as [l|l|[[|t l]|]]; simpl; try (intros; apply NoDup_nil_2);
    intros (_ & _ & [_ Hnd]%NoDup_cons).
  - by apply NoDup_fmap_1 in Hnd.
  - by apply NoDup_fmap_1 in Hnd.
  - by apply (NoDup_fmap_1 NThread (t :: l)).
Qed.

Lemma kinv_runqueue s Q p :
  kinv s Q → 0 ≤ p < SCHED_PRIO_LEVELS →
  ∃ l, Q !! NRq p = Some (QRun l) ∧ clist (nodes s) (NRq p) (NThread <$> l).
Proof.
  intros Hk Hp. destruct (ki_cache _ _ Hk p Hp) as (l & Hl & _). exists l. split; [done|].
  by destruct (qr_rep _ _ (ki_rep _ _ Hk) _ _ Hl).
Qed.

(** A thread that is not runnable and waits nowhere. *)
Lemma kinv_detached_status s Q t th :
  kinv s Q → threads s !! t = Some th → (∀ a, ¬ waits_at a (status th)) → detached Q t.
Proof.
  intros Hk Ht Hw a v Ha Hin. destruct (ki_mem _ _ Hk a v t Ha Hin) as (th' & Ht' & Hw' & _).
  simplify_eq. by apply (Hw a).
Qed.

(** ** Running monadic code *)

Lemma bind_Done {A B} (m : M A) (f : A → M B) s s' a :
  m s = Done s' a → (m ≫= f) s = f a s'.
Proof. intros Hm. unfold mbind, M_bind. by rewrite Hm. Qed.

Lemma bind_Yield {A B} (m : M A) (f : A → M B) s s' k :
  m s = Yield s' k → (m ≫= f) s = Yield s' (λ s'', res_bind (k s'') f).
Proof. intros Hm. unfold mbind, M_bind. by rewrite Hm. Qed.

Lemma get_thread_ok t th s : threads s !! t = Some th → get_thread t s = Done s th.
Proof. intros Ht. unfold get_thread, lift. by rewrite Ht. Qed.

Lemma upd_thread_ok t th f s :
  threads s !! t = Some th →
  upd_thread t f s = Done (set_threads (<[t := f th]> (threads s)) s) tt.
Proof. intros Ht. unfold upd_thread. by rewrite Ht. Qed.

Lemma on_nodes_ok f h s : f (nodes s) = Some h → on_nodes f s = Done (set_nodes h s) tt.
Proof. intros Hf. unfold on_nodes. by rewrite Hf. Qed.

Lemma on_nodes_r_ok {A} (f : heap node → option (A * heap node)) a h s :
  f (nodes s) = Some (a, h) → on_nodes_r f s = Done (set_nodes h s) a.
Proof. intros Hf. unfold on_nodes_r. by rewrite Hf. Qed.

Lemma read_node_ok n v s : nodes s !! n = Some v → read_node n s = Done s v.
Proof. intros Hn. unfold read_node, get_next, lift. by rewrite Hn. Qed.

(** One step of a kernel call: run the first action and substitute. *)
Ltac krun H := first [erewrite (bind_Done _ _ _ _ _ H) | rewrite H]; simpl.

(** Steps that only read or set fields. *)
Ltac kstep :=
  first [ erewrite bind_Done; [|reflexivity]
        | erewrite bind_Done; [|eapply get_thread_ok; eassumption]
        | erewrite bind_Done; [|eapply upd_thread_ok; eassumption] ]; cbn beta.

(** ** Updating a thread's status *)

Lemma sorted_by_ext f g l : (∀ t, t ∈ l → f t = g t) → sorted_by f l ↔ sorted_by g l.
Proof.
  intros Hfg. unfold sorted_by. assert (f <$> l = g <$> l) as ->; [|done].
  apply list_fmap_ext. intros i t Ht. apply Hfg. by eapply list_elem_of_lookup_2.
Qed.

Lemma prio_of_insert T t th th' u :
  T !! t = Some th → priority th' = priority th → prio_of (<[t := th']> T) u = prio_of T u.
Proof.
  intros Ht Hp. unfold prio_of. destruct (decide (t = u)) as [->|Hne].
  - by rewrite lookup_insert_eq, Ht.
  - by rewrite lookup_insert_ne.
Qed.

(** The general transition: the queues become [Q'], thread [t] changes to [th'],
    and the bit cache follows the run queues. *)
Lemma kinv_transition s Q h' Q' t th th' cache :
  kinv s Q → threads s !! t = Some th → priority th' = priority th → pid th' = pid th →
  qrep h' Q' →
  (∀ n, is_Some (nodes s !! n) → is_Some (h' !! n)) →
  (∀ a v u, Q' !! a = Some v → u ∈ members v → u ≠ t → ∃ w, Q !! a = Some w ∧ u ∈ members w) →
  (∀ a v, Q' !! a = Some v → t ∈ members v →
     waits_at a (status th') ∧ (∀ p, a = NRq p → priority th = p)) →
  (∀ p l u, u ≠ t → Q !! NRq p = Some (QRun l) → u ∈ l → ∃ l', Q' !! NRq p = Some (QRun l') ∧ u ∈ l') →
  (on_runqueue (status th') = true → ∃ l, Q' !! NRq (priority th) = Some (QRun l) ∧ t ∈ l) →
  (∀ p, 0 ≤ p < SCHED_PRIO_LEVELS →
     ∃ l, Q' !! NRq p = Some (QRun l) ∧ (Z.testbit cache p = true ↔ l ≠ [])) →
  0 ≤ cache < 2 ^ SCHED_PRIO_LEVELS →
  (∀ u l, Q !! NMsgWaiters u = Some (QWait l) → ∃ l', Q' !! NMsgWaiters u = Some (QWait l')) →
  (∀ a v, Q' !! a = Some v → (∀ p, a ≠ NRq p) → sorted_by (prio_of (threads s)) (members v)) →
  kinv (set_threads (<[t := th']> (threads s)) (set_runqueue_bitcache cache (set_nodes h' s))) Q'.
Proof.
  intros Hk Ht Hprio Hpid Hq Hdom Hmem Hmt Hrun Hrt Hcache Hrange Hmw Hsort.
  split; simpl; [done|..].
  - intros a v u Ha Hu. destruct (decide (u = t)) as [->|Hne].
    + exists th'. rewrite lookup_insert_eq. split; [done|].
      destruct (Hmt a v Ha Hu) as [Hw Hp]. split; [done|]. intros p Hpa. rewrite Hprio. by apply Hp.
    + destruct (Hmem a v u Ha Hu Hne) as (w & Hw & Huw).
      destruct (ki_mem _ _ Hk a w u Hw Huw) as (thu & Hthu & Hst). exists thu.
      by rewrite lookup_insert_ne.
  - intros u thu. rewrite lookup_insert_Some. intros [[<- <-]|[Hne Hu]] Hon.
    + rewrite Hprio. by apply Hrt.
    + destruct (ki_run _ _ Hk u thu Hu Hon) as (l & Hl & Hin). by apply (Hrun _ l).
  - done.
  - done.
  - intros u thu. rewrite lookup_insert_Some. intros [[<- <-]|[Hne Hu]].
    + destruct (ki_thread _ _ Hk _ _ Ht) as (H0 & Hp & Hn & l & Hl). rewrite Hprio.
      split; [done|]. split; [done|]. split; [by apply Hdom|]. by apply (Hmw _ l).
    + destruct (ki_thread _ _ Hk _ _ Hu) as (H0 & Hp & Hn & l & Hl).
      split; [done|]. split; [done|]. split; [by apply Hdom|]. by apply (Hmw _ l).
  - by apply (ki_table_length _ _ Hk).
  - intros p u Hpu Hu. destruct (ki_table _ _ Hk p u Hpu Hu) as (thu & Hthu & Hpp).
    destruct (decide (u = t)) as [->|Hne].
    + exists th'. rewrite lookup_insert_eq. split; [done|]. simplify_eq. congruence.
    + exists thu. by rewrite lookup_insert_ne.
  - intros Ha. destruct (ki_active _ _ Hk Ha) as (tha & Hta & Hpa).
    destruct (decide (t = sched_active_thread s)) as [->|Hne].
    + exists th'. rewrite lookup_insert_eq. split; [done|]. simplify_eq. congruence.
    + exists tha. by rewrite lookup_insert_ne.
  - intros a v Ha Hne. rewrite (sorted_by_ext _ (prio_of (threads s))); [by apply (Hsort a)|].
    intros u _. by apply (prio_of_insert _ _ th).
Qed.

(** ** sched_set_status *)

Lemma testbit_set c p q :
  0 ≤ p → 0 ≤ q → Z.testbit (Z.lor c (Z.shiftl 1 p)) q = Z.testbit c q || (p =? q).
Proof.
  intros. rewrite Z.lor_spec, Z.shiftl_1_l. by rewrite Z.pow2_bits_eqb.
Qed.

Lemma testbit_clear c p q :
  0 ≤ p < 32 → 0 ≤ q < 32 →
  Z.testbit (Z.land c (u32 (Z.lnot (Z.shiftl 1 p)))) q = Z.testbit c q && negb (p =? q).
Proof.
  intros. rewrite Z.land_spec. unfold wrap. rewrite Z.mod_pow2_bits_low by lia.
  rewrite Z.lnot_spec, Z.shiftl_1_l by lia. by rewrite Z.pow2_bits_eqb by lia.
Qed.

Lemma cache_set_range c p :
  0 ≤ c < 2 ^ SCHED_PRIO_LEVELS → 0 ≤ p < SCHED_PRIO_LEVELS →
  0 ≤ Z.lor c (Z.shiftl 1 p) < 2 ^ SCHED_PRIO_LEVELS.
Proof.
  unfold SCHED_PRIO_LEVELS. intros Hc Hp. rewrite Z.shiftl_1_l.
  assert (0 < 2 ^ p) by (apply Z.pow_pos_nonneg; lia).
  split; [apply Z.lor_nonneg; lia|].
  destruct (decide (Z.lor c (2 ^ p) = 0)) as [->|]; [lia|].
  apply Z.log2_lt_pow2; [assert (0 ≤ Z.lor c (2 ^ p)) by (apply Z.lor_nonneg; lia); lia|].
  rewrite Z.log2_lor, Z.log2_pow2 by lia. apply Z.max_lub_lt; [|lia].
  destruct (decide (c = 0)) as [->|]; [simpl; lia|]. apply Z.log2_lt_pow2; lia.
Qed.

Lemma cache_clear_range c x :
  0 ≤ c < 2 ^ SCHED_PRIO_LEVELS → 0 ≤ Z.land c (u32 x) < 2 ^ SCHED_PRIO_LEVELS.
Proof.
  intros Hc. assert (0 ≤ u32 x) by (apply wrap_range; lia).
  split; [apply Z.land_nonneg; lia|]. apply Z.le_lt_trans with c; [|lia].
  apply Z.ldiff_le; [lia|]. apply Z.bits_inj'. intros i Hi.
  rewrite Z.ldiff_spec, Z.bits_0, Z.land_spec. by destruct (Z.testbit c i), (Z.testbit (u32 x) i).
Qed.

(** Waking a thread: it joins the end of the run queue of its priority. *)
Lemma set_status_wake s Q t th st :
  kinv s Q → threads s !! t = Some th → on_runqueue (status th) = false →
  on_runqueue st = true → detached Q t →
  ∃ h l c, sched_set_status t st s =
      Done (set_threads (<[t := set_status st th]> (threads s))
              (set_runqueue_bitcache c (set_nodes h s))) tt ∧
    Q !! NRq (priority th) = Some (QRun l) ∧
    kinv (set_threads (<[t := set_status st th]> (threads s))
            (set_runqueue_bitcache c (set_nodes h s)))
         (<[NRq (priority th) := QRun (l ++ [t])]> Q).
Proof.
  intros Hk Ht Hoff Hon Hd. set (p := priority th) in *.
  destruct (ki_thread _ _ Hk _ _ Ht) as (Ht0 & Hp & [v Hv] & _).
  destruct (kinv_runqueue s Q p Hk Hp) as (l & Hl & Hc).
  destruct (clist_rpush_spec (nodes s) (NRq p) (NThread <$> l) (NThread t) v Hc Hv) as (h' & Hpush & Hc' & Hf).
  { rewrite elem_of_cons, NThread_in. intros [?|Hin]; [done|]. by apply (Hd _ _ Hl). }
  exists h', l, (Z.lor (runqueue_bitcache s) (Z.shiftl 1 p)). split; [|split; [done|]].
  { unfold sched_set_status. kstep. rewrite Hon, Hoff. cbn [negb].
    erewrite bind_Done; [|erewrite bind_Done; [|by apply on_nodes_ok]; kstep; reflexivity].
    erewrite upd_thread_ok; [reflexivity|exact Ht]. }
  apply (kinv_transition s Q h' _ t th); try done.
  - eapply qrep_update; [apply (ki_rep _ _ Hk)|done|done| |..].
    + simpl. by rewrite fmap_app.
    + intros n Hn1 Hn2. apply Hf. unfold footprint in *. simpl in *.
      rewrite fmap_app in Hn2. set_solver.
    + intros u. simpl. rewrite elem_of_app, list_elem_of_singleton. intros [?| ->]; auto.
  - intros n [w Hw]. apply elem_of_dom. 
    replace (dom h') with (dom (nodes s)) by (symmetry; apply (clist_call_dom (nodes s) (NRq p) (CRpush (NThread t)) RNone); simpl; by rewrite Hpush).
    apply elem_of_dom. by eexists.
  - intros a w u Ha Hu Hne. apply lookup_insert_Some in Ha as [[<- <-]|[_ Ha]]; [|by exists w].
    exists (QRun l). split; [done|]. simpl in *. set_solver.
  - intros a w Ha Hu. apply lookup_insert_Some in Ha as [[<- <-]|[_ Ha]]; [|by destruct (Hd _ _ Ha)].
    split; [done|]. by intros ? [= <-].
  - intros q l' u Hne Hq Hu. destruct (decide (q = p)) as [->|Hqp].
    + rewrite lookup_insert_eq. eexists. split; [done|]. simplify_eq. set_solver.
    + rewrite lookup_insert_ne by congruence. by exists l'.
  - intros _. rewrite lookup_insert_eq. eexists. split; [done|]. set_solver.
  - intros q Hq. rewrite testbit_set by lia. destruct (Z.eqb_spec p q) as [<-|Hne].
    + rewrite lookup_insert_eq, orb_true_r. eexists. split; [done|]. by destruct l.
    + rewrite lookup_insert_ne, orb_false_r by congruence. by apply (ki_cache _ _ Hk).
  - apply cache_set_range; [apply (ki_cache_range _ _ Hk)|done].
  - intros u l' Hu. exists l'. by rewrite lookup_insert_ne.
  - intros a w Ha Hne. apply lookup_insert_Some in Ha as [[<- _]|[_ Ha]]; [by destruct (Hne p)|].
    by apply (ki_sorted _ _ Hk a).
Qed.

(** Blocking the thread at the head of its run queue: it leaves the queue. *)
Lemma set_status_block s Q t th st l :
  kinv s Q → threads s !! t = Some th → on_runqueue (status th) = true →
  on_runqueue st = false → Q !! NRq (priority th) = Some (QRun (t :: l)) →
  ∃ h c, sched_set_status t st s =
      Done (set_threads (<[t := set_status st th]> (threads s))
              (set_runqueue_bitcache c (set_nodes h s))) tt ∧
    kinv (set_threads (<[t := set_status st th]> (threads s))
            (set_runqueue_bitcache c (set_nodes h s)))
         (<[NRq (priority th) := QRun l]> Q) ∧
    detached (<[NRq (priority th) := QRun l]> Q) t.
Proof.
  intros Hk Ht Hon Hoff Hl. set (p := priority th) in *.
  destruct (ki_thread _ _ Hk _ _ Ht) as (Ht0 & Hp & [v Hv] & _).
  destruct (qr_rep _ _ (ki_rep _ _ Hk) _ _ Hl) as [Hok Hc]. simpl in Hc.
  destruct (clist_lpop_spec (nodes s) (NRq p) _ Hc) as (h' & Hpop & Hc' & Hf). simpl in Hc', Hpop.
  assert (NoDup (t :: l)) as Hnd by (eapply (rep_NoDup _ _ (QRun (t :: l))); exact Hc).
  assert (detached (<[NRq p := QRun l]> Q) t) as Hdet.
  { intros a w. rewrite lookup_insert_Some. intros [[<- <-]|[Hne Ha]].
    - by apply NoDup_cons in Hnd as [? _].
    - intros Hin. apply Hne. apply (qr_disj _ _ (ki_rep _ _ Hk) _ _ a w t Hl Ha); [by left|done]. }
  pose proof Hc' as (Hr & _ & _).
  set (c' := if decide (l = []) then
         Z.land (runqueue_bitcache s) (u32 (Z.lnot (Z.shiftl 1 p))) else runqueue_bitcache s).
  exists h', c'. split; [|split; [|done]].
  { unfold sched_set_status. kstep. rewrite Hon, Hoff.
    erewrite (bind_Done _ _ _ (set_runqueue_bitcache c' (set_nodes h' s)) tt);
      [by erewrite upd_thread_ok|].
    erewrite bind_Done; [|apply (on_nodes_r_ok _ (Some (NThread t)) h'); exact Hpop].
    erewrite bind_Done; [|apply read_node_ok; simpl; exact Hr]. cbn beta.
    unfold c'. destruct l as [|y l _] using rev_ind.
    - rewrite decide_True by done. reflexivity.
    - rewrite decide_False by (by destruct l).
      change (list_fmap Z node NThread (l ++ [y])) with (NThread <$> (l ++ [y])).
      rewrite fmap_app. change (NThread <$> [y]) with [NThread y]. rewrite last_snoc. by destruct s. }
  apply (kinv_transition s Q h' _ t th); try done.
  - eapply qrep_update; [apply (ki_rep _ _ Hk)|done|done|done|..].
    + intros n Hn1 Hn2. apply Hf. done.
    + intros u Hu. left. by right.
  - intros n [w Hw]. apply elem_of_dom.
    replace (dom h') with (dom (nodes s)) by (symmetry; by eapply clist_lpop_dom).
    apply elem_of_dom. by eexists.
  - intros a w u Ha Hu Hne. apply lookup_insert_Some in Ha as [[<- <-]|[_ Ha]]; [|by exists w].
    exists (QRun (t :: l)). split; [done|]. by right.
  - intros a w Ha Hu. by destruct (Hdet a w Ha).
  - intros q l' u Hne Hq Hu. destruct (decide (q = p)) as [->|Hqp].
    + rewrite lookup_insert_eq. eexists. split; [done|]. simplify_eq. set_solver.
    + rewrite lookup_insert_ne by congruence. by exists l'.
  - simpl. congruence.
  - intros q Hq. destruct (decide (q = p)) as [->|Hqp].
    + rewrite lookup_insert_eq. eexists. split; [done|]. unfold c'.
      destruct (ki_cache _ _ Hk p Hp) as (l0 & Hl0 & Hb). simplify_eq.
      case_decide as Hnil.
      * rewrite testbit_clear by (unfold SCHED_PRIO_LEVELS in *; lia).
        rewrite Z.eqb_refl, andb_false_r. naive_solver.
      * rewrite Hb. naive_solver.
    + rewrite lookup_insert_ne by congruence.
      destruct (ki_cache _ _ Hk q Hq) as (l0 & Hl0 & Hb). exists l0. split; [done|].
      rewrite <- Hb. unfold c'. case_decide; [|done].
      rewrite testbit_clear by (unfold SCHED_PRIO_LEVELS in *; lia).
      destruct (Z.eqb_spec p q); [congruence|]. by rewrite andb_true_r.
  - unfold c'. case_decide; [apply cache_clear_range|]; apply (ki_cache_range _ _ Hk).
  - intros u l' Hu. exists l'. by rewrite lookup_insert_ne.
  - intros a w Ha Hne. apply lookup_insert_Some in Ha as [[<- _]|[_ Ha]]; [by destruct (Hne p)|].
    by apply (ki_sorted _ _ Hk a).
Qed.

(** ** Changes outside the queues *)

(** The invariant reads six components of the state. *)
Lemma kinv_ext s s' Q :
  nodes s' = nodes s → threads s' = threads s → runqueue_bitcache s' = runqueue_bitcache s →
  sched_threads s' = sched_threads s → sched_active_thread s' = sched_active_thread s →
  sched_active_pid s' = sched_active_pid s → kinv s Q → kinv s' Q.
Proof.
  intros Hn Ht Hc Htab Ha Hp [? ? ? ? ? ? ? ? ? ?].
  split; rewrite ?Hn, ?Ht, ?Hc, ?Htab, ?Ha, ?Hp; assumption.
Qed.

(** Changing a thread without changing its queue, priority or pid. *)
Lemma kinv_upd_thread s Q t th th' :
  kinv s Q → threads s !! t = Some th → priority th' = priority th → pid th' = pid th →
  (on_runqueue (status th') = true → on_runqueue (status th) = true) →
  (∀ a v, Q !! a = Some v → t ∈ members v → waits_at a (status th')) →
  kinv (set_threads (<[t := th']> (threads s)) s) Q.
Proof.
  intros Hk Ht Hprio Hpid Hon Hw.
  replace (set_threads (<[t := th']> (threads s)) s) with
    (set_threads (<[t := th']> (threads s))
       (set_runqueue_bitcache (runqueue_bitcache s) (set_nodes (nodes s) s))) by (by destruct s).
  apply (kinv_transition s Q (nodes s) Q t th); try done.
  - apply (ki_rep _ _ Hk).
  - intros a v u Ha Hu _. by exists v.
  - intros a v Ha Hu. split; [by eapply Hw|]. intros p ->.
    destruct (ki_mem _ _ Hk _ _ _ Ha Hu) as (th0 & Hth0 & _ & Hp). simplify_eq. by apply Hp.
  - intros p l u _ Hl Hu. by exists l.
  - intros Hon'. apply (ki_run _ _ Hk t th Ht). by apply Hon.
  - apply (ki_cache _ _ Hk).
  - apply (ki_cache_range _ _ Hk).
  - intros u l Hu. by exists l.
  - apply (ki_sorted _ _ Hk).
Qed.

(** Changing fields of a thread that the invariant does not mention. *)
Lemma kinv_upd_field s Q t th th' :
  kinv s Q → threads s !! t = Some th →
  status th' = status th → priority th' = priority th → pid th' = pid th →
  kinv (set_threads (<[t := th']> (threads s)) s) Q.
Proof.
  intros Hk Ht Hst Hprio Hpid. apply (kinv_upd_thread s Q t th); try done.
  - by rewrite Hst.
  - intros a v Ha Hu. rewrite Hst.
    destruct (ki_mem _ _ Hk _ _ _ Ha Hu) as (th0 & Hth0 & Hw & _). by simplify_eq.
Qed.

(** A status change that neither enters nor leaves the run queue. *)
Lemma set_status_keep t th st s :
  threads s !! t = Some th → on_runqueue st = on_runqueue (status th) →
  sched_set_status t st s = Done (set_threads (<[t := set_status st th]> (threads s)) s) tt.
Proof.
  intros Ht Heq. unfold sched_set_status. kstep. rewrite Heq.
  destruct (on_runqueue (status th)); cbn [negb]; kstep; by apply upd_thread_ok.
Qed.

Lemma kinv_set_status_detached s Q t th st :
  kinv s Q → threads s !! t = Some th → detached Q t → on_runqueue st = false →
  kinv (set_threads (<[t := set_status st th]> (threads s)) s) Q.
Proof.
  intros Hk Ht Hd Hoff. apply (kinv_upd_thread s Q t th); try done.
  - simpl. congruence.
  - intros a v Ha Hu. by destruct (Hd a v Ha).
Qed.

Lemma kinv_set_status_running s Q t th st :
  kinv s Q → threads s !! t = Some th → on_runqueue (status th) = true → on_runqueue st = true →
  kinv (set_threads (<[t := set_status st th]> (threads s)) s) Q.
Proof.
  intros Hk Ht Hon Hon'. apply (kinv_upd_thread s Q t th); try done.
  intros a v Ha Hu. destruct (ki_mem _ _ Hk _ _ _ Ha Hu) as (th0 & Hth0 & Hw & _). simplify_eq.
  destruct a; simpl in *; try done; rewrite ?Hw in Hon; try done.
  by destruct Hw as [Hw|Hw]; rewrite Hw in Hon.
Qed.

(** ** sched_run *)

(** The head of the highest-priority run queue that is not empty. *)
Definition next_ready (Q : queues) (p t : Z) : Prop :=
  0 ≤ p < SCHED_PRIO_LEVELS ∧ (∃ l, Q !! NRq p = Some (QRun (t :: l))) ∧
  ∀ q, 0 ≤ q < p → Q !! NRq q = Some (QRun []).

Lemma kinv_next_ready s Q :
  kinv s Q → (∃ t th, threads s !! t = Some th ∧ on_runqueue (status th) = true) →
  ∃ p t, bitarithm_lsb (runqueue_bitcache s) = Some p ∧ next_ready Q p t.
Proof.
  intros Hk (u & thu & Hu & Hon). destruct (ki_run _ _ Hk _ _ Hu Hon) as (lu & Hlu & Hin).
  destruct (ki_thread _ _ Hk _ _ Hu) as (_ & Hpu & _).
  destruct (ki_cache _ _ Hk _ Hpu) as (lu' & Hlu' & Hbu). simplify_eq.
  assert (Z.testbit (runqueue_bitcache s) (priority thu) = true) as Hb.
  { apply Hbu. intros ->; by apply elem_of_nil in Hin. }
  pose proof (ki_cache_range _ _ Hk) as Hr.
  assert (runqueue_bitcache s ≠ 0) by (intros Hz; by rewrite Hz, Z.bits_0 in Hb).
  unfold SCHED_PRIO_LEVELS in *.
  destruct (lowest_bit_exists (runqueue_bitcache s) 32) as (p & Hlow & Hp32); [lia|].
  pose proof Hlow as (Hp0 & Hbp & Hbl).
  assert (p < 16).
  { destruct (decide (p < 16)); [done|].
    by rewrite (testbit_lt_pow2 _ 16) in Hbp by (unfold SCHED_PRIO_LEVELS in *; lia). }
  destruct (ki_cache _ _ Hk p) as (l & Hl & Hbit); [unfold SCHED_PRIO_LEVELS; lia|].
  apply Hbit in Hbp. destruct l as [|t l]; [done|]. exists p, t.
  split; [apply bitarithm_lsb_spec; [lia|done]|]. split; [unfold SCHED_PRIO_LEVELS; lia|].
  split; [by exists l|]. intros q Hq.
  destruct (ki_cache _ _ Hk q) as (lq & Hlq & Hbq); [unfold SCHED_PRIO_LEVELS; lia|].
  destruct lq as [|x lq]; [done|]. rewrite (Hbl q) in Hbq by lia. destruct Hbq as [_ Hbq]. by specialize (Hbq ltac:(done)).
Qed.

(** The thread states after switching from [active] to [t]. *)
Definition switch_threads (T : gmap Z thread_t) (active t : Z) : gmap Z thread_t :=
  let T := match T !! active with
           | Some th => if decide (status th = STATUS_RUNNING)
                        then <[active := set_status STATUS_PENDING th]> T else T
           | None => T
           end in
  match T !! t with Some th => <[t := set_status STATUS_RUNNING th]> T | None => T end.

Lemma sched_run_ok s Q p t :
  kinv s Q → bitarithm_lsb (runqueue_bitcache s) = Some p → next_ready Q p t →
  ∃ th, threads s !! t = Some th ∧ priority th = p ∧ on_runqueue (status th) = true ∧
  let s0 := set_sched_context_switch_request 0 s in
  let s1 := set_sched_active_thread t (set_sched_active_pid (pid th)
              (set_threads (switch_threads (threads s) (sched_active_thread s) t) s0)) in
  sched_run s = (if decide (sched_active_thread s = t) then Done s0 0 else Done s1 1) ∧
  (sched_active_thread s ≠ t → kinv s1 Q).
Proof.
  intros Hk Hlsb (Hp & (l & Hl) & Hlow).
  destruct (ki_mem _ _ Hk _ _ t Hl) as (th & Ht & Hon & Hprio); [by left|].
  simpl in Hon. specialize (Hprio p eq_refl). exists th. split; [done|]. split; [done|].
  split; [done|]. intros s0 s1.
  destruct (qr_rep _ _ (ki_rep _ _ Hk) _ _ Hl) as [_ Hc]. simpl in Hc.
  destruct (ki_thread _ _ Hk _ _ Ht) as (Ht0 & _).
  destruct (clist_nonempty _ _ _ Hc) as (l' & lst & _ & Hr & Hlast); [done|]. simpl in Hlast.
  set (T1 := match threads s !! sched_active_thread s with
             | Some tha => if decide (status tha = STATUS_RUNNING)
                  then <[sched_active_thread s := set_status STATUS_PENDING tha]> (threads s)
                  else threads s
             | None => threads s end).
  assert (sched_active_thread s ≠ t → T1 !! t = Some th) as HT1.
  { intros Hne. unfold T1. destruct (threads s !! sched_active_thread s); [|done].
    case_decide; [by rewrite lookup_insert_ne|done]. }
  assert (kinv (set_threads T1 s) Q) as HkT1.
  { unfold T1. destruct (threads s !! sched_active_thread s) as [tha|] eqn:Hta;
      [|by apply (kinv_ext s)].
    case_decide as Hst; [|by apply (kinv_ext s)].
    apply (kinv_set_status_running s Q); [done|done|by rewrite Hst|done]. }
  split.
  - unfold sched_run. do 3 kstep. simpl. rewrite Hlsb.
    erewrite bind_Done; [|reflexivity]. cbn beta.
    erewrite bind_Done; [|apply read_node_ok; exact Hr]. cbn beta.
    erewrite bind_Done; [|reflexivity]. cbn beta.
    erewrite bind_Done; [|apply read_node_ok; exact Hlast]. cbn beta.
    erewrite bind_Done; [|reflexivity]. cbn beta.
    erewrite bind_Done; [|reflexivity]. cbn beta.
    destruct (Z.eqb_spec (sched_active_thread s) t) as [Heq|Hne].
    { by rewrite decide_True. }
    rewrite decide_False by done.
    rewrite (bind_Done _ _ _ (set_threads T1 s0) tt).
    2: { destruct (Z.eqb_spec (sched_active_thread s) 0) as [Ha0|Ha0]; simpl.
         - unfold T1. rewrite Ha0. destruct (threads s !! 0) as [th0|] eqn:H0;
             [by destruct (ki_thread _ _ Hk _ _ H0)|]. by destruct s.
         - destruct (ki_active _ _ Hk Ha0) as (tha & Hta & _). unfold T1.
           erewrite bind_Done; [|apply get_thread_ok; exact Hta]. cbn beta. rewrite Hta.
           case_decide; [exact (upd_thread_ok _ tha _ s0 Hta)|by destruct s]. }
    erewrite bind_Done; [|apply upd_thread_ok; simpl; by apply HT1].
    erewrite bind_Done; [|apply get_thread_ok; simpl; apply lookup_insert_eq].
    do 2 kstep. unfold s1, switch_threads. fold T1. by rewrite HT1.
  - intros Hne. unfold s1, switch_threads. fold T1. rewrite HT1 by done.
    pose proof (kinv_set_status_running (set_threads T1 s) Q t th STATUS_RUNNING HkT1
                  (HT1 Hne) Hon eq_refl) as Hk2. simpl in Hk2.
    destruct Hk2 as [? ? ? ? ? ? ? ? ? ?].
    split; simpl in *; try assumption.
    intros _. exists (set_status STATUS_RUNNING th). by rewrite lookup_insert_eq.
Qed.
