(* ===== verification/WaitList.v ===== *)
(** * Wait lists

    Queueing a blocked thread by priority ([thread_add_to_list]) and taking the
    first thread off a list ([list_remove_head]), on the kernel state. *)

From S2P Require Import Prelude Bitarithm Cib LinkedList Clist Kernel Sched KernelInv.
From Stdlib Require Import Sorting.Sorted.

(** The place of a thread of priority [p] in a list: before the first thread of
    lower priority (a larger number), after those of equal priority. *)
Fixpoint ins_prio (pr : Z → Z) (p t : Z) (l : list Z) : list Z :=
  match l with
  | [] => [t]
  | u :: l' => if p <? pr u then t :: u :: l' else u :: ins_prio pr p t l'
  end.

Lemma ins_prio_split pr p t l :
  ∃ la lb, l = la ++ lb ∧ ins_prio pr p t l = la ++ t :: lb ∧
    Forall (λ u, pr u ≤ p) la ∧ (∀ u, head lb = Some u → p < pr u).
Proof.
  induction l as [|u l (la & lb & -> & Hi & Ha & Hb)]; simpl.
  { exists [], []. simpl. split; [done|]. split; [done|]. by split. }
  destruct (Z.ltb_spec p (pr u)).
  - exists [], (u :: la ++ lb). simpl. split; [done|]. split; [done|]. split; [done|].
    by intros ? [= <-].
  - exists (u :: la), lb. rewrite Hi. split; [done|]. split; [done|]. split; [by constructor|done].
Qed.

Lemma ins_prio_perm pr p t l : ins_prio pr p t l ≡ₚ t :: l.
Proof.
  destruct (ins_prio_split pr p t l) as (la & lb & -> & -> & _). by rewrite Permutation_middle.
Qed.

Lemma ins_prio_in pr p t l u : u ∈ ins_prio pr p t l ↔ u = t ∨ u ∈ l.
Proof. rewrite ins_prio_perm. apply elem_of_cons. Qed.

Lemma ins_prio_ext f g p t l : (∀ u, f u = g u) → ins_prio f p t l = ins_prio g p t l.
Proof. intros Hfg. induction l as [|w l IH]; simpl; [done|]. by rewrite Hfg, IH. Qed.

(** A status change leaves the order of priorities alone. *)
Lemma ins_prio_status T u th st p t l :
  T !! u = Some th → ins_prio (prio_of (<[u := set_status st th]> T)) p t l = ins_prio (prio_of T) p t l.
Proof.
  intros Hu. apply ins_prio_ext. intros w. by apply (prio_of_insert _ _ th).
Qed.

Lemma ins_prio_sorted pr t l : sorted_by pr l → sorted_by pr (ins_prio pr (pr t) t l).
Proof.
  unfold sorted_by. induction l as [|u l IH]; simpl; intros Hs; [by repeat constructor|].
  apply StronglySorted_inv in Hs as [Hs Hu]. destruct (Z.ltb_spec (pr t) (pr u)); simpl.
  - constructor; [by constructor|]. constructor; [lia|]. eapply Forall_impl; [exact Hu|]. lia.
  - constructor; [by apply IH|].
    change (Forall (Z.le (pr u)) (pr <$> ins_prio pr (pr t) t l)).
    rewrite ins_prio_perm. simpl. by constructor.
Qed.

Lemma sorted_by_tail f t l : sorted_by f (t :: l) → sorted_by f l.
Proof. unfold sorted_by. simpl. by intros [? _]%StronglySorted_inv. Qed.

Lemma sorted_by_head f t l u : sorted_by f (t :: l) → u ∈ l → f t ≤ f u.
Proof.
  unfold sorted_by. simpl. intros [_ Hf]%StronglySorted_inv Hu.
  rewrite Forall_forall in Hf. apply Hf. apply list_elem_of_fmap. by exists u.
Qed.

Lemma fmap_last_default (root : node) (l : list Z) :
  default root (last (NThread <$> l)) = match last l with Some t => NThread t | None => root end.
Proof. rewrite fmap_last. by destruct (last l). Qed.

(** The search finds the place of [ins_prio]. *)
Lemma add_to_list_loop_ok fuel s root (l1 l2 : list Z) p t :
  slist (nodes s) root ((NThread <$> l1) ++ (NThread <$> l2)) →
  (∀ u, u ∈ l2 → is_Some (threads s !! u)) → (length l2 < fuel)%nat →
  ∃ la lb, l2 = la ++ lb ∧ ins_prio (prio_of (threads s)) p t l2 = la ++ t :: lb ∧
    add_to_list_loop fuel (default root (last (NThread <$> l1))) p s =
      Done s (default root (last (NThread <$> (l1 ++ la)))).
Proof.
  revert l1 fuel. induction l2 as [|u l2 IH]; intros l1 [|fuel] Hs Hth Hf; simpl in Hf; try lia;
    cbn [add_to_list_loop];
    (erewrite bind_Done; [|apply read_node_ok; eapply slist_prev_lookup; exact Hs]); cbn beta.
  - exists [], []. by rewrite (app_nil_r l1).
  - change (head (NThread <$> u :: l2)) with (Some (NThread u)). cbn beta iota.
    destruct (Hth u) as [thu Hu]; [by left|].
    erewrite bind_Done; [|reflexivity]. cbn beta. kstep. cbn [ins_prio].
    assert (prio_of (threads s) u = priority thu) as Hpr by (unfold prio_of; by rewrite Hu).
    rewrite Hpr. destruct (Z.ltb_spec p (priority thu)).
    + exists [], (u :: l2). by rewrite (app_nil_r l1).
    + destruct (IH (l1 ++ [u]) fuel) as (la & lb & -> & Hi & Hl).
      * rewrite fmap_app, <- app_assoc. exact Hs.
      * intros w Hw. apply Hth. by right.
      * lia.
      * exists (u :: la), lb. split; [done|]. split; [by rewrite Hi|].
        rewrite <- app_assoc in Hl. simpl in Hl. rewrite <- Hl. f_equal.
        rewrite fmap_app. simpl. by rewrite last_snoc.
Qed.

(** [thread_add_to_list] inserts by priority and changes only the nodes of the
    list and of the thread. *)
Lemma thread_add_to_list_ok s root (l : list Z) t th :
  slist (nodes s) root (NThread <$> l) → (∀ u, u ∈ l → is_Some (threads s !! u)) →
  threads s !! t = Some th → on_runqueue (status th) = false →
  is_Some (nodes s !! NThread t) → NThread t ≠ root → t ∉ l →
  ∃ h, thread_add_to_list root t s = Done (set_nodes h s) tt ∧
    slist h root (NThread <$> ins_prio (prio_of (threads s)) (priority th) t l) ∧
    (∀ n, n ∉ root :: NThread t :: (NThread <$> l) → h !! n = nodes s !! n) ∧
    dom h = dom (nodes s).
Proof.
  intros Hs Hth Ht Hoff [v Hv] Hroot Hnin. unfold thread_add_to_list. kstep. rewrite Hoff.
  assert (length l ≤ size (nodes s))%nat as Hfuel.
  { pose proof Hs as (_ & Hc & [_ Hnd]%NoDup_cons). rewrite <- (length_fmap NThread l).
    by eapply chain_size. }
  kstep. destruct (add_to_list_loop_ok (S (size (nodes s))) s root [] l (priority th) t)
    as (la & lb & Hl & -> & Hloop); [done|done|lia|]. simpl in Hloop.
  erewrite bind_Done; [|exact Hloop]. cbn beta. rewrite Hl, fmap_app in Hs.
  assert (NThread t ∉ root :: (NThread <$> la) ++ (NThread <$> lb)) as Hnin'.
  { rewrite <- fmap_app, <- Hl, elem_of_cons, NThread_in. by intros [?|?]. }
  pose proof (slist_insert _ _ _ _ _ _ Hs Hv Hnin') as Hins. cbv zeta in Hins.
  set (prev := default root (last (NThread <$> la))) in *.
  pose proof (slist_prev_lookup _ _ _ _ Hs) as Hprev. fold prev in Hprev.
  erewrite bind_Done; [|by apply read_node_ok]. cbn beta.
  erewrite bind_Done; [|apply on_nodes_ok; by eapply set_next_ok]. cbn beta.
  assert (prev ≠ NThread t) as Hpt.
  { unfold prev. rewrite fmap_last_default. destruct (last la) as [w|] eqn:Hw; [|by intros ->].
    intros [= ->]. apply Hnin. rewrite Hl. apply elem_of_app. left.
    by apply last_Some_elem_of. }
  erewrite on_nodes_ok; [|apply (set_next_ok _ _ (head (NThread <$> lb))); simpl;
    by rewrite lookup_insert_ne].
  rewrite first_None in Hins.
  eexists. split; [by destruct s|]. split; [rewrite fmap_app; exact Hins|].
  split.
  - intros n Hn. assert (prev ≠ n).
    { intros <-. apply Hn. unfold prev. rewrite fmap_last_default.
      destruct (last la) as [w|] eqn:Hw; [|by left]. right. right.
      rewrite NThread_in, Hl. apply elem_of_app. left. by apply last_Some_elem_of. }
    rewrite !not_elem_of_cons in Hn. destruct Hn as (_ & Hn & _).
    rewrite lookup_insert_ne by done. simpl. by rewrite lookup_insert_ne.
  - simpl. rewrite (dom_insert_lookup_L (D := gset node)) by
      (rewrite lookup_insert_ne by done; by eexists).
    by rewrite dom_insert_lookup_L by (by eexists).
Qed.

(** ** Changing one wait list *)

(** The transition of the queues when the list at [a] changes from [v] to [v']. *)
Lemma kinv_set_queue s Q h a v v' :
  kinv s Q → Q !! a = Some v → (∀ p, a ≠ NRq p) → anchor_ok a v' → rep h a v' →
  (∀ n, n ∉ footprint a v → n ∉ footprint a v' → h !! n = nodes s !! n) →
  dom h = dom (nodes s) →
  (∀ t, t ∈ members v' → t ∈ members v ∨
     detached Q t ∧ ∃ th, threads s !! t = Some th ∧ waits_at a (status th)) →
  sorted_by (prio_of (threads s)) (members v') →
  kinv (set_nodes h s) (<[a := v']> Q).
Proof.
  intros Hk Ha Hrq Hok Hr Hf Hdom Hm Hsort. split; simpl.
  - eapply qrep_update; [apply (ki_rep _ _ Hk)|done|done|done|done|].
    intros t Ht. destruct (Hm t Ht) as [?|[? _]]; auto.
  - intros b w t Hb Ht. apply lookup_insert_Some in Hb as [[<- <-]|[_ Hb]];
      [|by apply (ki_mem _ _ Hk b w)].
    destruct (Hm t Ht) as [Hv|(_ & th & Hth & Hw)]; [by apply (ki_mem _ _ Hk a v)|].
    exists th. split; [done|]. split; [done|]. intros p ->. by destruct (Hrq p).
  - intros t th Ht Hon. rewrite lookup_insert_ne by done. by apply (ki_run _ _ Hk).
  - intros p Hp. rewrite lookup_insert_ne by done. by apply (ki_cache _ _ Hk).
  - apply (ki_cache_range _ _ Hk).
  - intros t th Ht. destruct (ki_thread _ _ Hk t th Ht) as (H0 & Hp & Hn & l & Hl).
    split; [done|]. split; [done|]. split.
    + rewrite <- elem_of_dom, Hdom, elem_of_dom. done.
    + destruct (decide (a = NMsgWaiters t)) as [->|Hne].
      * rewrite lookup_insert_eq. destruct v' as [|l'|]; try done. by exists l'.
      * rewrite lookup_insert_ne by done. by exists l.
  - apply (ki_table_length _ _ Hk).
  - apply (ki_table _ _ Hk).
  - apply (ki_active _ _ Hk).
  - intros b w Hb Hne. apply lookup_insert_Some in Hb as [[<- <-]|[_ Hb]]; [done|].
    by apply (ki_sorted _ _ Hk b).
Qed.

(** Queueing a blocked thread at a list of kind [mk]. *)
Lemma wait_enqueue s Q a l t th (mk : list Z → absq) :
  kinv s Q → Q !! a = Some (mk l) → (∀ p, a ≠ NRq p) →
  (∀ q, members (mk q) = q ∧ anchor_ok a (mk q)) →
  (∀ h q, q ≠ [] → rep h a (mk q) ↔ slist h a (NThread <$> q)) →
  slist (nodes s) a (NThread <$> l) →
  threads s !! t = Some th → waits_at a (status th) → on_runqueue (status th) = false →
  detached Q t →
  ∃ h, thread_add_to_list a t s = Done (set_nodes h s) tt ∧
    kinv (set_nodes h s) (<[a := mk (ins_prio (prio_of (threads s)) (priority th) t l)]> Q).
Proof.
  intros Hk Ha Hrq Hmk Hrep Hs Ht Hw Hoff Hd.
  destruct (Hmk l) as [Hml Hokl]. pose proof (Hd _ _ Ha) as Htl. rewrite Hml in Htl.
  destruct (ki_thread _ _ Hk _ _ Ht) as (_ & _ & Hnode & _).
  destruct (thread_add_to_list_ok s a l t th) as (h & Hadd & Hs' & Hf & Hdom); try done.
  { intros u Hu. rewrite <- Hml in Hu. destruct (ki_mem _ _ Hk _ _ u Ha Hu) as (thu & -> & _).
    by eexists. }
  { intros <-. by destruct (mk l). }
  exists h. split; [done|].
  eapply kinv_set_queue; [done|done|done|apply Hmk| | |done| |].
  - apply Hrep; [|done]. intros Hn. pose proof (ins_prio_perm (prio_of (threads s)) (priority th) t l) as Hp.
    rewrite Hn in Hp. by apply Permutation_nil_cons in Hp.
  - intros n Hn1 Hn2. apply Hf. unfold footprint in *. rewrite Hml in Hn1.
    rewrite (proj1 (Hmk _)) in Hn2. rewrite !not_elem_of_cons in *.
    destruct Hn1 as [Hn1 Hn1'], Hn2 as [_ Hn2]. split; [done|]. split; [|done].
    intros ->. apply Hn2. rewrite NThread_in, ins_prio_in. by left.
  - intros u. rewrite (proj1 (Hmk (ins_prio _ _ _ _))), Hml, ins_prio_in. intros [->|?]; [right|by left].
    split; [done|]. by exists th.
  - rewrite (proj1 (Hmk _)).
    replace (priority th) with (prio_of (threads s) t) by (unfold prio_of; by rewrite Ht).
    apply ins_prio_sorted. rewrite <- Hml. by eapply (ki_sorted _ _ Hk).
Qed.

Lemma wait_enqueue_list s Q a l t th :
  kinv s Q → Q !! a = Some (QWait l) →
  threads s !! t = Some th → waits_at a (status th) → on_runqueue (status th) = false →
  detached Q t →
  ∃ h, thread_add_to_list a t s = Done (set_nodes h s) tt ∧
    kinv (set_nodes h s) (<[a := QWait (ins_prio (prio_of (threads s)) (priority th) t l)]> Q).
Proof.
  intros Hk Ha. destruct (qr_rep _ _ (ki_rep _ _ Hk) _ _ Ha) as [Hok Hr].
  apply (wait_enqueue s Q a l t th QWait); try done.
  intros p ->. done.
Qed.

(** Taking the first thread off a wait list. *)
Lemma wait_dequeue s Q a l :
  kinv s Q → Q !! a = Some (QWait l) →
  ∃ h, on_nodes_r (λ h, list_remove_head h a) s = Done (set_nodes h s) (NThread <$> head l) ∧
    kinv (set_nodes h s) (<[a := QWait (tail l)]> Q) ∧
    (∀ t, head l = Some t → detached (<[a := QWait (tail l)]> Q) t).
Proof.
  intros Hk Ha. destruct (qr_rep _ _ (ki_rep _ _ Hk) _ _ Ha) as [Hok Hr]. simpl in Hr.
  destruct (list_remove_head_spec _ _ _ Hr) as (h & Hrm & Hs & Hf).
  assert (∀ p, a ≠ NRq p) as Hrq by (by intros p ->).
  exists h. split; [|split].
  - erewrite on_nodes_r_ok; [|exact Hrm]. by destruct l.
  - eapply kinv_set_queue; [done|done|done|done|..].
    + simpl. by destruct l.
    + intros n Hn _. apply Hf. unfold footprint in Hn. set_solver.
    + unfold list_remove_head in Hrm. opt_cases; [by eapply set_next_dom|done].
    + intros t Ht. left. simpl in *. destruct l; [done|by right].
    + simpl. pose proof (ki_sorted _ _ Hk _ _ Ha Hrq) as Hsort. simpl in Hsort.
      destruct l; [done|by apply sorted_by_tail in Hsort].
  - intros t Ht b w Hb Hin. destruct l as [|t' l]; [done|]. injection Ht as ->.
    apply lookup_insert_Some in Hb as [[<- <-]|[Hne Hb]].
    + apply (rep_NoDup _ a (QWait (t :: l))) in Hr. simpl in *. by apply NoDup_cons in Hr as [? _].
    + apply Hne. apply (qr_disj _ _ (ki_rep _ _ Hk) _ _ b w t Ha Hb); [by left|done].
Qed.
