(* ===== verification/SchedProps.v ===== *)
(** * Scheduling

    What a context switch does to the kernel state, and the properties of the
    scheduler and thread calls. *)

From S2P Require Import Prelude Bitarithm Cib LinkedList Clist Kernel Sched KernelInv WaitList.

(** ** The effect of a switch on the rest of the state *)

(** A context switch changes nothing but the scheduler's own variables and the
    statuses of threads that are on a run queue and stay there. *)
Definition same_thread (o o' : option thread_t) : Prop :=
  match o, o' with
  | Some th, Some th' => th' = th ∨
      th' = set_status (status th') th ∧
      on_runqueue (status th) = true ∧ on_runqueue (status th') = true
  | None, None => True
  | _, _ => False
  end.

Record unswitched (s s' : kernel) : Prop := {
  us_nodes : nodes s' = nodes s;
  us_mem : mem s' = mem s;
  us_mboxes : mboxes s' = mboxes s;
  us_rmutexes : rmutexes s' = rmutexes s;
  us_table : sched_threads s' = sched_threads s;
  us_num : sched_num_threads s' = sched_num_threads s;
  us_cache : runqueue_bitcache s' = runqueue_bitcache s;
  us_irq : irq_on s' = irq_on s;
  us_isr : in_isr s' = in_isr s;
  us_threads u : same_thread (threads s !! u) (threads s' !! u)
}.

Lemma same_thread_refl o : same_thread o o.
Proof. destruct o; simpl; auto. Qed.

Lemma set_status_twice st st' th : set_status st (set_status st' th) = set_status st th.
Proof. by destruct th. Qed.

Lemma same_thread_upd o th st :
  on_runqueue (status th) = true → on_runqueue st = true →
  same_thread o (Some th) → same_thread o (Some (set_status st th)).
Proof.
  destruct o as [th0|]; [|done]. simpl. intros Hth Hst [->|(-> & H1 & H2)]; right.
  - done.
  - by rewrite set_status_twice.
Qed.

Lemma switch_threads_same T active t th u :
  T !! t = Some th → on_runqueue (status th) = true → active ≠ t →
  same_thread (T !! u) (switch_threads T active t !! u).
Proof.
  intros Ht Hon Hne. unfold switch_threads.
  set (T1 := match T !! active with Some th => _ | None => T end).
  assert (∀ w, same_thread (T !! w) (T1 !! w) ∧ (w = t → T1 !! w = T !! w)) as H1.
  { intros w. unfold T1. destruct (T !! active) as [tha|] eqn:Ha; [|by split; [apply same_thread_refl|]].
    case_decide as Hr; [|by split; [apply same_thread_refl|]]. destruct (decide (active = w)) as [->|].
    - rewrite lookup_insert_eq, Ha. split; [|congruence].
      apply same_thread_upd, same_thread_refl; [by rewrite Hr|done].
    - rewrite lookup_insert_ne by done. by split; [apply same_thread_refl|]. }
  rewrite (proj2 (H1 t) eq_refl), Ht. destruct (decide (t = u)) as [->|].
  - rewrite lookup_insert_eq, Ht. by apply same_thread_upd, same_thread_refl.
  - rewrite lookup_insert_ne by done. apply H1.
Qed.

Lemma same_thread_runnable o th' :
  same_thread o (Some th') → on_runqueue (status th') = false → o = Some th'.
Proof. destruct o as [th|]; [|done]. intros [->|(_ & _ & ?)] ?; congruence. Qed.

(** ** Objects of inter-process communication *)

(** The message slots of a queue of capacity [cib_size q] at [array] exist. *)
Definition slots_ok (mem : gmap Z msg_t) (q : cib_t) (array : Z) : Prop :=
  ∀ i, 0 ≤ i < cib_size q → is_Some (mem !! msg_addr array i).

(** Threads blocked in message calls wait with the address of a message. *)
Definition waits_with_msg (st : thread_status_t) : bool :=
  match st with
  | STATUS_RECEIVE_BLOCKED | STATUS_SEND_BLOCKED | STATUS_REPLY_BLOCKED => true
  | _ => false
  end.

Definition thread_ok (mem : gmap Z msg_t) (th : thread_t) : Prop :=
  (waits_with_msg (status th) = true → is_Some (mem !! wait_data th)) ∧
  cib_wf (msg_queue th) ∧ slots_ok mem (msg_queue th) (msg_array th).

(** A mailbox has a power of two of slots.  Its fill level is not bounded by the
    size: see [Mbox]. *)
Definition mbox_ok (mem : gmap Z msg_t) (mb : mbox_t) : Prop :=
  (∃ k, 0 ≤ k ≤ 30 ∧ mask (mbox_cib mb) = 2 ^ k - 1) ∧
  slots_ok mem (mbox_cib mb) (mbox_msg_array mb).

Record ipc_ok (s : kernel) (Q : queues) : Prop := {
  ip_thread t th : threads s !! t = Some th → thread_ok (mem s) th;
  ip_mbox b mb : mboxes s !! b = Some mb → mbox_ok (mem s) mb ∧
    (∃ l, Q !! NReaders b = Some (QWait l)) ∧ (∃ l, Q !! NWriters b = Some (QWait l));
  ip_reader b l t th : Q !! NReaders b = Some (QWait l) → t ∈ l → threads s !! t = Some th →
    is_Some (mem s !! wait_data th);
  (* every thread that has not exited is in the table of pids *)
  ip_pid t th : threads s !! t = Some th → status th ≠ STATUS_STOPPED →
    aget (sched_threads s) (pid th) = Some t
}.

Definition runnable (s : kernel) (t : Z) : Prop :=
  ∃ th, threads s !! t = Some th ∧ on_runqueue (status th) = true.

Lemma slots_ok_mono M M' q a : dom M ⊆ dom M' → slots_ok M q a → slots_ok M' q a.
Proof.
  intros Hd Hs i Hi. apply elem_of_dom, Hd, elem_of_dom. by apply Hs.
Qed.

Lemma thread_ok_mono M M' th : dom M ⊆ dom M' → thread_ok M th → thread_ok M' th.
Proof.
  intros Hd (Hw & Hq & Hs). split; [|split; [done|by eapply slots_ok_mono]].
  intros Hst. apply elem_of_dom, Hd, elem_of_dom. by apply Hw.
Qed.

(** The invariant depends on few components, and on the domain of the memory. *)
Lemma ipc_ext s s' Q :
  threads s' = threads s → mboxes s' = mboxes s → sched_threads s' = sched_threads s →
  dom (mem s) ⊆ dom (mem s') → ipc_ok s Q → ipc_ok s' Q.
Proof.
  intros Ht Hb Htab Hd [H1 H2 H3 H4]. split; rewrite ?Ht, ?Hb, ?Htab; [| | |done].
  - intros t th Hth. eapply thread_ok_mono; [done|by eapply H1].
  - intros b mb Hmb. destruct (H2 b mb Hmb) as [[Hm Hs] Hr]. split; [|done]. split; [done|].
    by eapply slots_ok_mono.
  - intros b l t th Hl Hin Hth. apply elem_of_dom, Hd, elem_of_dom. by eapply H3.
Qed.

(** Changing the queues: no thread becomes a reader without a message buffer. *)
Lemma ipc_queues s Q Q' :
  (∀ b l, Q' !! NReaders b = Some (QWait l) → ∀ t th, t ∈ l → threads s !! t = Some th →
     (∃ l0, Q !! NReaders b = Some (QWait l0) ∧ t ∈ l0) ∨ is_Some (mem s !! wait_data th)) →
  (∀ b l, Q !! NReaders b = Some (QWait l) → ∃ l', Q' !! NReaders b = Some (QWait l')) →
  (∀ b l, Q !! NWriters b = Some (QWait l) → ∃ l', Q' !! NWriters b = Some (QWait l')) →
  ipc_ok s Q → ipc_ok s Q'.
Proof.
  intros Hr Hr' Hw [H1 H2 H3 H4]. split; [done| | |done].
  - intros b mb Hmb. destruct (H2 b mb Hmb) as (Hok & (l & Hl) & (l2 & Hl2)).
    split; [done|]. split; eauto.
  - intros b l t th Hl Hin Hth. destruct (Hr b l Hl t th Hin Hth) as [(l0 & Hl0 & Hin0)|?];
      [by eapply H3|done].
Qed.

Lemma ipc_thread s Q t th th' :
  threads s !! t = Some th → thread_ok (mem s) th' →
  (wait_data th' = wait_data th ∨ is_Some (mem s !! wait_data th') ∨
     ∀ b l, Q !! NReaders b = Some (QWait l) → t ∉ l) →
  (status th' ≠ STATUS_STOPPED → aget (sched_threads s) (pid th') = Some t) →
  ipc_ok s Q → ipc_ok (set_threads (<[t := th']> (threads s)) s) Q.
Proof.
  intros Ht Hok Hw Hp [H1 H2 H3 H4]. split; simpl.
  - intros u thu [[<- <-]|[_ Hu]]%lookup_insert_Some; [done|by eapply H1].
  - done.
  - intros b l u thu Hl Hin [[<- <-]|[_ Hu]]%lookup_insert_Some; [|by eapply H3].
    destruct Hw as [->|[?|Hw]]; [by eapply H3|done|by destruct (Hw b l Hl)].
  - intros u thu [[<- <-]|[_ Hu]]%lookup_insert_Some Hst; [by apply Hp|by apply H4].
Qed.

(** Domains of updated states. *)
Ltac grow H := let G := fresh in let T := fresh in pose proof H as G; destruct G as [? ? ? ? ? T]; split; simpl in *;
  lazymatch goal with
  | |- _ ⊆ _ => clear T; rewrite ?dom_insert_L; set_solver
  | |- _ => intros ? ? ? ?; apply T; done
  end.

(** The state after the status of [t] became [st], with nodes [h] and cache [c]. *)
Abbreviation status_state s t th st h c :=
  (set_threads (<[t := set_status st th]> (threads s)) (set_runqueue_bitcache c (set_nodes h s))).

(** ** Critical sections and the states between calls *)

Section System.
(** The thread that never blocks (core/kernel_init.c). *)
Context (idle : Z).

(** Inside a critical section. *)
Record crit (s : kernel) (Q : queues) : Prop := {
  cr_kinv : kinv s Q;
  cr_ipc : ipc_ok s Q;
  cr_first : active_first s Q;
  cr_isr : in_isr s = false;
  cr_idle : runnable s idle
}.

(** Between calls: the running thread is runnable, interrupts are enabled and no
    switch is due. *)
Record sysinv (s : kernel) (Q : queues) : Prop := {
  sy_crit : crit s Q;
  sy_irq : irq_on s = true;
  sy_pending : yield_pending s = false;
  sy_active : runnable s (sched_active_thread s)
}.

(** Objects are never removed, and a thread does not get a pid it did not have. *)
Record grows (s : kernel) (Q : queues) (s' : kernel) (Q' : queues) : Prop := {
  gr_queues : dom Q ⊆ dom Q';
  gr_mem : dom (mem s) ⊆ dom (mem s');
  gr_threads : dom (threads s) ⊆ dom (threads s');
  gr_mboxes : dom (mboxes s) ⊆ dom (mboxes s');
  gr_rmutexes : dom (rmutexes s) ⊆ dom (rmutexes s');
  gr_table t p : t ∈ dom (threads s) → aget (sched_threads s') p = Some t → aget (sched_threads s) p = Some t
}.

Lemma grows_refl s Q : grows s Q s Q.
Proof. by split. Qed.

#[local] Hint Resolve grows_refl : core.

Lemma grows_trans s1 Q1 s2 Q2 s3 Q3 : grows s1 Q1 s2 Q2 → grows s2 Q2 s3 Q3 → grows s1 Q1 s3 Q3.
Proof. intros [] []. split; [by etrans..|]. intros t p Ht Hp. auto. Qed.

(** A step that keeps the table of pids. *)
Lemma grows_step s0 Q0 s Q s' Q' : grows s0 Q0 s Q → dom Q ⊆ dom Q' → dom (mem s) ⊆ dom (mem s') →
  dom (threads s) ⊆ dom (threads s') → mboxes s' = mboxes s →
  rmutexes s' = rmutexes s ∧ sched_threads s' = sched_threads s → grows s0 Q0 s' Q'.
Proof.
  intros Hg HQ Hm Ht Hb [Hr Htab]. apply (grows_trans s0 Q0 s Q); [done|]. split; rewrite ?Hb, ?Hr, ?Htab; done.
Qed.

(** A call of thread [t] started in [s0] is safe: it does not fault, the
    invariant holds wherever it returns or is suspended, and it carries on safely
    whenever it is resumed.  [P] describes its result. *)
Fixpoint safe {A} (t : Z) (s0 : kernel) (Q0 : queues) (r : res A)
    (P : A → kernel → queues → Prop) : Prop :=
  match r with
  | Fault => False
  | Done s a => ∃ Q, sysinv s Q ∧ grows s0 Q0 s Q ∧ sched_active_thread s = t ∧ P a s Q
  | Yield s k =>
      ∃ Q, sysinv s Q ∧ grows s0 Q0 s Q ∧
        ∀ s' Q', sysinv s' Q' → grows s Q s' Q' → sched_active_thread s' = t →
          safe t s' Q' (k s') P
  end.

Lemma safe_base {A} t s0 Q0 s1 Q1 (r : res A) P :
  grows s0 Q0 s1 Q1 → safe t s1 Q1 r P → safe t s0 Q0 r P.
Proof.
  intros Hg. destruct r as [|s a|s k]; simpl; [done| |]; intros (Q & Hs & Hg' & H);
    exists Q; (split; [done|]; split; [by eapply grows_trans|done]).
Qed.

Lemma safe_bind {A B} t s0 Q0 (m : M A) (f : A → M B) s P P' :
  safe t s0 Q0 (m s) P →
  (∀ a s' Q', sysinv s' Q' → grows s0 Q0 s' Q' → sched_active_thread s' = t → P a s' Q' →
     safe t s' Q' (f a s') P') →
  safe t s0 Q0 ((m ≫= f) s) P'.
Proof.
  intros Hm Hf. unfold mbind, M_bind. revert s0 Q0 Hm Hf.
  induction (m s) as [|s1 a|s1 k IH]; intros s0 Q0 Hm Hf; simpl in *.
  - done.
  - destruct Hm as (Q & Hs & Hg & Ha & HP). eapply safe_base; [exact Hg|]. by apply (Hf a s1 Q).
  - destruct Hm as (Q & Hs & Hg & Hk). exists Q. split; [done|]. split; [done|].
    intros s' Q' Hs' Hg' Ha. apply IH; [by apply Hk|].
    intros a s2 Q2 Hs2 Hg2. apply Hf; [done|]. by eapply grows_trans, grows_trans.
Qed.

Lemma safe_mono {A} t s0 Q0 (r : res A) (P P' : A → kernel → queues → Prop) :
  safe t s0 Q0 r P → (∀ a s Q, P a s Q → P' a s Q) → safe t s0 Q0 r P'.
Proof.
  intros Hr HP. revert s0 Q0 Hr. induction r as [|s a|s k IH]; intros s0 Q0 Hr; simpl in *; [done| |].
  - destruct Hr as (Q & ? & ? & ? & ?). exists Q. auto 6.
  - destruct Hr as (Q & ? & ? & Hk). exists Q. split; [done|]. split; [done|]. intros. apply IH. by apply Hk.
Qed.

(** ** Context switches *)

(** A switch runs the first thread of the best run queue; it suspends the caller
    unless the caller is that thread. *)
Lemma context_switch_ok s Q :
  kinv s Q → ipc_ok s Q → in_isr s = false → runnable s idle → irq_on s = true →
  ∃ p t s', next_ready Q p t ∧ sysinv s' Q ∧ unswitched s s' ∧ sched_active_thread s' = t ∧
    context_switch s = if decide (sched_active_thread s = t) then Done s' tt
                       else Yield s' (λ s'', Done s'' tt).
Proof.
  intros Hk Hipc Hisr Hid Hirq.
  assert (kinv (set_yield_pending false s) Q) as Hk0 by (by apply (kinv_ext s)).
  destruct (kinv_next_ready s Q Hk) as (p & t & Hlsb & Hnext); [by exists idle|].
  destruct (sched_run_ok (set_yield_pending false s) Q p t Hk0 Hlsb Hnext)
    as (th & Ht & Hp & Hon & Hres & Hk1). simpl in Ht, Hres, Hk1.
  unfold context_switch. rewrite Hres. clear Hres. pose proof Hnext as (_ & (l & Hl) & _).
  destruct (decide (sched_active_thread s = t)) as [Heq|Hne].
  - exists p, t, (set_sched_context_switch_request 0 (set_yield_pending false s)).
    split; [done|]. split; [|split; [|split; [done|by rewrite decide_True]]].
    + split; try done; [|by exists th; rewrite <- Heq in Ht].
      split; try done; [by apply (kinv_ext s)|by apply (ipc_ext s)|].
      intros tha Hta _. simpl in Hta. rewrite Heq in Hta. simpl. rewrite Heq. simplify_eq.
      by exists l.
    + split; try done. intros u. apply same_thread_refl.
  - specialize (Hk1 Hne).
    set (s1 := set_sched_active_thread _ _) in *. exists p, t, s1.
    split; [done|].
    assert (∀ u, same_thread (threads s !! u) (threads s1 !! u)) as Hsame.
    { intros u. by apply (switch_threads_same _ _ _ th). }
    assert (runnable s1 t) as Hrt.
    { destruct (ki_mem _ _ Hk1 _ _ t Hl) as (th1 & Hth1 & Hon1 & _); [by left|]. by exists th1. }
    split; [|split; [by split|split; [done|by rewrite decide_False]]].
    split; try done. split; try done.
    + destruct Hipc as [H1 H2 H3 H4]. split; [|done| |].
      * intros u thu Hu. specialize (Hsame u). rewrite Hu in Hsame.
        destruct (threads s !! u) as [thu0|] eqn:Hu0; [|done].
        destruct (H1 _ _ Hu0) as (Hw & Hq & Hs).
        destruct Hsame as [->|(-> & Hon0 & Hon1)]; [done|]. split; [|done].
        simpl. intros Hx. by destruct (status thu).
      * intros b l' u thu Hl' Hin Hu. specialize (Hsame u). rewrite Hu in Hsame.
        destruct (threads s !! u) as [thu0|] eqn:Hu0; [|done].
        destruct Hsame as [->|(-> & _)]; apply (H3 b l' u thu0 Hl' Hin Hu0).
      * intros u thu Hu Hst. specialize (Hsame u). rewrite Hu in Hsame.
        destruct (threads s !! u) as [thu0|] eqn:Hu0; [|done].
        destruct Hsame as [->|(-> & Hon0 & _)]; apply (H4 u thu0 Hu0); [done|].
        intros Hx. by rewrite Hx in Hon0.
    + intros th3 Ht3 _. destruct (ki_mem _ _ Hk1 _ _ t Hl) as (th2 & Hth2 & _ & Hp2); [by left|].
      change (threads s1 !! t = Some th3) in Ht3. simplify_eq. rewrite (Hp2 _ eq_refl). by exists l.
    + destruct Hid as (thi & Hti & Honi). specialize (Hsame idle). rewrite Hti in Hsame.
      destruct (threads s1 !! idle) as [thi1|] eqn:Hti1; [|done]. exists thi1.
      split; [done|]. by destruct Hsame as [->|(_ & _ & ?)].
Qed.

(** Entering and leaving a critical section, yielding. *)
Lemma crit_enter s Q : sysinv s Q → crit (set_irq_on false s) Q.
Proof.
  intros [[Hk Hipc Hf Hisr Hid] _ _ _]. split; try done; [by apply (kinv_ext s)|by apply (ipc_ext s)].
Qed.

Lemma crit_irq b s Q : crit s Q → crit (set_irq_on b s) Q.
Proof.
  intros [Hk Hipc Hf Hisr Hid]. split; try done; [by apply (kinv_ext s)|by apply (ipc_ext s)].
Qed.

Lemma crit_pending b s Q : crit s Q → crit (set_yield_pending b s) Q.
Proof.
  intros [Hk Hipc Hf Hisr Hid]. split; try done; [by apply (kinv_ext s)|by apply (ipc_ext s)].
Qed.

Lemma unswitched_grows s s' Q : unswitched s s' → grows s Q s' Q.
Proof.
  intros [Hn Hm Hb Hr Htab _ _ _ _ Ht]. split; rewrite ?Hm, ?Hb, ?Hr, ?Htab; try done.
  intros u Hu. apply elem_of_dom in Hu as [th Hth]. specialize (Ht u). rewrite Hth in Ht.
  apply elem_of_dom. by destruct (threads s' !! u).
Qed.

Lemma grows_irq b s Q s0 Q0 : grows s0 Q0 s Q ↔ grows s0 Q0 (set_irq_on b s) Q.
Proof. split; intros []; by split. Qed.

Lemma safe_switch_base t s Q s0 Q0 :
  kinv s Q → ipc_ok s Q → in_isr s = false → runnable s idle → irq_on s = true →
  grows s0 Q0 s Q → sched_active_thread s = t →
  safe t s0 Q0 (context_switch s) (λ _ _ _, True).
Proof.
  intros Hk Hipc Hisr Hid Hirq Hg Ha.
  destruct (context_switch_ok s Q Hk Hipc Hisr Hid Hirq) as (p & u & s' & _ & Hs' & Hu & Hau & ->).
  assert (grows s0 Q0 s' Q) by (by eapply grows_trans, unswitched_grows).
  case_decide as Heq; simpl.
  - exists Q. split; [done|]. split; [done|]. by split; [congruence|].
  - exists Q. split; [done|]. split; [done|]. intros s2 Q2 Hs2 Hg2 Ha2. by exists Q2.
Qed.

Lemma safe_switch t s Q s0 Q0 :
  crit s Q → irq_on s = true → grows s0 Q0 s Q → sched_active_thread s = t →
  safe t s0 Q0 (context_switch s) (λ _ _ _, True).
Proof. intros []. by apply safe_switch_base. Qed.

Lemma safe_yield_higher t s Q s0 Q0 :
  crit s Q → irq_on s = true → grows s0 Q0 s Q → sched_active_thread s = t →
  safe t s0 Q0 (thread_yield_higher s) (λ _ _ _, True).
Proof.
  intros Hc Hirq Hg Ha. unfold thread_yield_higher. rewrite Hirq, (cr_isr _ _ Hc). simpl.
  by eapply safe_switch.
Qed.

(** Leaving the critical section while the caller is still runnable. *)
Lemma safe_restore t s Q s0 Q0 :
  crit s Q → runnable s (sched_active_thread s) → grows s0 Q0 s Q → sched_active_thread s = t →
  safe t s0 Q0 (irq_restore true s) (λ _ _ _, True).
Proof.
  intros Hc Hr Hg Ha. unfold irq_restore. simpl. rewrite (cr_isr _ _ Hc). simpl.
  destruct (yield_pending s) eqn:Hp.
  - eapply safe_switch; [by apply crit_irq|done|by rewrite <- grows_irq|done].
  - exists Q. split; [|by rewrite <- grows_irq]. split; try done. by apply crit_irq.
Qed.

(** Leaving the critical section and yielding; the caller may be blocked. *)
Lemma safe_restore_yield t s Q s0 Q0 :
  crit s Q → grows s0 Q0 s Q → sched_active_thread s = t →
  safe t s0 Q0 ((irq_restore true;; thread_yield_higher) s) (λ _ _ _, True).
Proof.
  intros Hc Hg Ha. unfold irq_restore.
  destruct (yield_pending s) eqn:Hp.
  - eapply (safe_bind _ _ _ _ _ _ (λ _ _ _, True)).
    + simpl. rewrite (cr_isr _ _ Hc), Hp. simpl.
      eapply safe_switch; [by apply crit_irq|done|by rewrite <- grows_irq|done].
    + intros _ s' Q' Hs' Hg' Ha' _. eapply safe_yield_higher; [apply Hs'|apply Hs'|done|done].
  - erewrite bind_Done; [|simpl; rewrite (cr_isr _ _ Hc), Hp; reflexivity].
    eapply safe_yield_higher; [by apply crit_irq|done|by rewrite <- grows_irq|done].
Qed.

Lemma safe_sched_switch t s Q s0 Q0 p :
  sysinv s Q → grows s0 Q0 s Q → sched_active_thread s = t →
  safe t s0 Q0 (sched_switch p s) (λ _ _ _, True).
Proof.
  intros Hs Hg Ha. pose proof (sy_active _ _ Hs) as (th & Hth & Hon).
  unfold sched_switch. do 2 kstep. rewrite Hon. simpl. case_match.
  - kstep. rewrite (cr_isr _ _ (sy_crit _ _ Hs)).
    eapply safe_yield_higher; [apply Hs|apply Hs|done|done].
  - by exists Q.
Qed.

Lemma safe_restore_switch t s Q s0 Q0 p :
  crit s Q → runnable s (sched_active_thread s) → grows s0 Q0 s Q → sched_active_thread s = t →
  safe t s0 Q0 ((irq_restore true;; sched_switch p) s) (λ _ _ _, True).
Proof.
  intros Hc Hr Hg Ha. eapply safe_bind; [by eapply safe_restore|].
  intros _ s' Q' Hs' Hg' Ha' _. by eapply safe_sched_switch.
Qed.

(** Returning a value after the last action. *)
Lemma safe_then {A B} t s0 Q0 (m : M A) (b : B) s (P : A → kernel → queues → Prop) :
  safe t s0 Q0 (m s) P → safe t s0 Q0 ((m ≫= λ _, mret b) s) (λ b' _ _, b' = b).
Proof. intros Hm. eapply safe_bind; [exact Hm|]. intros a s' Q' Hs' Hg Ha _. by exists Q'. Qed.

Lemma safe_restore_ret {B} (b : B) t s Q s0 Q0 :
  crit s Q → runnable s (sched_active_thread s) → grows s0 Q0 s Q → sched_active_thread s = t →
  safe t s0 Q0 ((irq_restore true;; mret b) s) (λ b' _ _, b' = b).
Proof. intros. eapply safe_then. by eapply safe_restore. Qed.

Lemma safe_restore_yield_then {B} (f : M B) t s Q s0 Q0 P :
  crit s Q → grows s0 Q0 s Q → sched_active_thread s = t →
  (∀ s' Q', sysinv s' Q' → grows s0 Q0 s' Q' → sched_active_thread s' = t → safe t s' Q' (f s') P) →
  safe t s0 Q0 ((irq_restore true;; thread_yield_higher;; f) s) P.
Proof.
  intros Hc Hg Ha Hf. unfold irq_restore. destruct (yield_pending s) eqn:Hp.
  - eapply (safe_bind _ _ _ _ _ _ (λ _ _ _, True)).
    + simpl. rewrite (cr_isr _ _ Hc), Hp. simpl.
      eapply safe_switch; [by apply crit_irq|done|by rewrite <- grows_irq|done].
    + intros _ s' Q' Hs' Hg' Ha' _. eapply safe_bind; [|intros _ s2 Q2 Hs2 Hg2 Ha2 _; apply Hf; [done|by eapply grows_trans|done]].
      eapply safe_yield_higher; [apply Hs'|apply Hs'|done|done].
  - erewrite bind_Done; [|simpl; rewrite (cr_isr _ _ Hc), Hp; reflexivity].
    eapply safe_bind; [|intros _ s2 Q2 Hs2 Hg2 Ha2 _; by eapply Hf].
    eapply safe_yield_higher; [by apply crit_irq|done|by rewrite <- grows_irq|done].
Qed.

Lemma safe_restore_yield_ret {B} (b : B) t s Q s0 Q0 :
  crit s Q → grows s0 Q0 s Q → sched_active_thread s = t →
  safe t s0 Q0 ((irq_restore true;; thread_yield_higher;; mret b) s) (λ b' _ _, b' = b).
Proof.
  intros Hc Hg Ha. eapply safe_restore_yield_then; [done|done|done|].
  intros s' Q' Hs' Hg' Ha'. by exists Q'.
Qed.

Lemma safe_restore_switch_ret {B} (b : B) t s Q s0 Q0 p :
  crit s Q → runnable s (sched_active_thread s) → grows s0 Q0 s Q → sched_active_thread s = t →
  safe t s0 Q0 ((irq_restore true;; sched_switch p;; mret b) s) (λ b' _ _, b' = b).
Proof.
  intros Hc Hr Hg Ha. eapply safe_bind; [by eapply safe_restore|].
  intros _ s' Q' Hs' Hg' Ha' _. eapply safe_then. by eapply safe_sched_switch.
Qed.

(** ** Transitions inside a critical section *)

Lemma thread_ok_status M th st :
  thread_ok M th → (waits_with_msg st = true → is_Some (M !! wait_data th)) →
  thread_ok M (set_status st th).
Proof. intros (_ & Hq & Hs) Hw. by split. Qed.

Lemma ipc_status s Q t th st h c :
  ipc_ok s Q → threads s !! t = Some th →
  (waits_with_msg st = true → is_Some (mem s !! wait_data th)) →
  (st = STATUS_STOPPED ∨ status th ≠ STATUS_STOPPED ∨ aget (sched_threads s) (pid th) = Some t) →
  ipc_ok (status_state s t th st h c) Q.
Proof.
  intros Hipc Ht Hw Hp. apply (ipc_ext (set_threads (<[t := set_status st th]> (threads s)) s)); try done.
  apply (ipc_thread s Q t th); [done| |by left| |done].
  2: { simpl. intros Hst. destruct Hp as [?|[?|?]]; [done|by apply (ip_pid _ _ Hipc t)|done]. }
  apply thread_ok_status; [by apply (ip_thread _ _ Hipc t)|done].
Qed.

(** The run queues are no concern of the invariant of messages. *)
Lemma ipc_runqueue s Q p v : ipc_ok s Q → ipc_ok s (<[NRq p := v]> Q).
Proof.
  apply ipc_queues; intros b l; rewrite lookup_insert_ne by done; eauto.
Qed.

Lemma runnable_status s t th st h c u :
  threads s !! t = Some th → (u = t → on_runqueue st = true) → runnable s u →
  runnable (status_state s t th st h c) u.
Proof.
  intros Ht Hst (thu & Hu & Hon). unfold runnable; simpl. destruct (decide (t = u)) as [->|].
  - exists (set_status st th). rewrite lookup_insert_eq. by split; [|apply Hst].
  - exists thu. by rewrite lookup_insert_ne.
Qed.

Lemma crit_wake s Q t th st :
  crit s Q → threads s !! t = Some th → on_runqueue (status th) = false → detached Q t →
  on_runqueue st = true → sched_active_thread s ≠ t → status th ≠ STATUS_STOPPED →
  ∃ h c l, sched_set_status t st s = Done (status_state s t th st h c) tt ∧
    Q !! NRq (priority th) = Some (QRun l) ∧
    crit (status_state s t th st h c) (<[NRq (priority th) := QRun (l ++ [t])]> Q).
Proof.
  intros [Hk Hipc Hf Hisr Hid] Ht Hoff Hd Hon Hact Hstop.
  destruct (set_status_wake s Q t th st Hk Ht Hoff Hon Hd) as (h & l & c & Hrun & Hl & Hk').
  exists h, c, l. split; [done|]. split; [done|]. split; try done.
  - apply ipc_status; [by apply ipc_runqueue|done|by destruct st|by right; left].
  - intros tha. simpl. rewrite lookup_insert_ne by done. intros Hta Hona.
    destruct (Hf tha Hta Hona) as (la & Hla).
    destruct (decide (priority th = priority tha)) as [Heq|Hnp].
    + rewrite Heq, lookup_insert_eq. rewrite Heq in Hl. simplify_eq. by exists (la ++ [t]).
    + rewrite lookup_insert_ne by congruence. by exists la.
  - by apply runnable_status.
Qed.

(** Blocking the running thread. *)
Lemma crit_block s Q th st :
  crit s Q → threads s !! sched_active_thread s = Some th → on_runqueue (status th) = true →
  on_runqueue st = false → sched_active_thread s ≠ idle →
  (waits_with_msg st = true → is_Some (mem s !! wait_data th)) →
  ∃ h c l, let t := sched_active_thread s in
    sched_set_status t st s = Done (status_state s t th st h c) tt ∧
    Q !! NRq (priority th) = Some (QRun (t :: l)) ∧
    crit (status_state s t th st h c) (<[NRq (priority th) := QRun l]> Q) ∧
    detached (<[NRq (priority th) := QRun l]> Q) t.
Proof.
  intros [Hk Hipc Hf Hisr Hid] Ht Hon Hoff Hidle Hw.
  destruct (Hf th Ht Hon) as (l & Hl).
  destruct (set_status_block s Q _ th st l Hk Ht Hon Hoff Hl) as (h & c & Hrun & Hk' & Hd).
  exists h, c, l. split; [done|]. split; [done|]. split; [|done]. split; try done.
  - apply ipc_status; [by apply ipc_runqueue|done|done|]. right; left. intros Hx. by rewrite Hx in Hon.
  - intros tha. simpl. rewrite lookup_insert_eq. intros [= <-] Hona. simpl in Hona. congruence.
  - by apply runnable_status.
Qed.

(** Changing a wait list: the queues other than the run queues and the nodes. *)
Lemma crit_queue s Q h a v :
  crit s Q → kinv (set_nodes h s) (<[a := v]> Q) → (∀ p, a ≠ NRq p) →
  ipc_ok s (<[a := v]> Q) → crit (set_nodes h s) (<[a := v]> Q).
Proof.
  intros [Hk Hipc Hf Hisr Hid] Hk' Ha Hipc'. split; try done.
  - by apply (ipc_ext s).
  - intros th Hth Hon. destruct (Hf th Hth Hon) as (l & Hl). exists l.
    by rewrite lookup_insert_ne.
Qed.

Lemma ipc_insert_wait s Q a v :
  ipc_ok s Q → (∀ b, a ≠ NReaders b ∧ a ≠ NWriters b) → ipc_ok s (<[a := v]> Q).
Proof.
  intros Hipc Ha. revert Hipc. apply ipc_queues; intros b l;
    (rewrite lookup_insert_ne by (destruct (Ha b); congruence)); eauto.
Qed.

(** Queueing the caller, which was just blocked, at a list of waiting threads. *)
Lemma crit_enqueue s Q a l t th :
  crit s Q → Q !! a = Some (QWait l) → threads s !! t = Some th →
  waits_at a (status th) → on_runqueue (status th) = false → detached Q t →
  (∀ b, a = NReaders b → is_Some (mem s !! wait_data th)) →
  ∃ h, thread_add_to_list a t s = Done (set_nodes h s) tt ∧
    crit (set_nodes h s) (<[a := QWait (ins_prio (prio_of (threads s)) (priority th) t l)]> Q).
Proof.
  intros Hc Ha Ht Hw Hoff Hd Hrd. pose proof Hc as [Hk Hipc _ _ _].
  destruct (wait_enqueue_list s Q a l t th) as (h & Hadd & Hk'); try done.
  exists h. split; [done|]. apply crit_queue; [done|done| |].
  - intros p ->. by destruct (qr_rep _ _ (ki_rep _ _ Hk) _ _ Ha).
  - revert Hipc. apply ipc_queues.
    + intros b l' [[-> [= <-]]|[_ Hl']]%lookup_insert_Some u thu Hin Hu; [|by left; exists l'].
      apply ins_prio_in in Hin as [->|Hin]; [|by left; exists l].
      right. simplify_eq. by eapply Hrd.
    + intros b l' Hl'. destruct (decide (a = NReaders b)) as [->|].
      * rewrite lookup_insert_eq. eauto.
      * rewrite lookup_insert_ne by done. eauto.
    + intros b l' Hl'. destruct (decide (a = NWriters b)) as [->|].
      * rewrite lookup_insert_eq. eauto.
      * rewrite lookup_insert_ne by done. eauto.
Qed.

(** Taking the first thread off a list of waiting threads. *)
Lemma crit_dequeue s Q a l :
  crit s Q → Q !! a = Some (QWait l) →
  ∃ h, on_nodes_r (λ h, list_remove_head h a) s = Done (set_nodes h s) (NThread <$> head l) ∧
    crit (set_nodes h s) (<[a := QWait (tail l)]> Q) ∧
    (∀ t, head l = Some t → detached (<[a := QWait (tail l)]> Q) t ∧
       ∃ th, threads s !! t = Some th ∧ waits_at a (status th) ∧ on_runqueue (status th) = false).
Proof.
  intros Hc Ha. pose proof Hc as [Hk Hipc _ _ _].
  destruct (wait_dequeue s Q a l Hk Ha) as (h & Hrm & Hk' & Hd).
  assert (∀ p, a ≠ NRq p) as Hrq.
  { intros p ->. by destruct (qr_rep _ _ (ki_rep _ _ Hk) _ _ Ha). }
  exists h. split; [done|]. split; [apply crit_queue; [done|done|done|]|].
  - revert Hipc. apply ipc_queues.
    + intros b l' [[-> [= <-]]|[_ Hl']]%lookup_insert_Some u thu Hin Hu; left; [|by exists l'].
      exists l. split; [done|]. destruct l; [done|]. by right.
    + intros b l' Hl'. destruct (decide (a = NReaders b)) as [->|].
      * rewrite lookup_insert_eq. eauto.
      * rewrite lookup_insert_ne by done. eauto.
    + intros b l' Hl'. destruct (decide (a = NWriters b)) as [->|].
      * rewrite lookup_insert_eq. eauto.
      * rewrite lookup_insert_ne by done. eauto.
  - intros t Ht. split; [by apply Hd|]. destruct l as [|t' l]; [done|]. injection Ht as ->.
    destruct (ki_mem _ _ Hk _ _ t Ha) as (th & Hth & Hw & _); [by left|].
    exists th. split; [done|]. split; [done|].
    destruct a; simpl in Hw; try (by rewrite Hw); try done.
    + by destruct (Hrq prio).
    + by destruct Hw as [Hw|Hw]; rewrite Hw.
Qed.

(** Changing fields of a thread other than status, priority and pid. *)
Lemma crit_field s Q t th th' :
  crit s Q → threads s !! t = Some th →
  status th' = status th → priority th' = priority th → pid th' = pid th →
  thread_ok (mem s) th' →
  (wait_data th' = wait_data th ∨ is_Some (mem s !! wait_data th') ∨
     ∀ b l, Q !! NReaders b = Some (QWait l) → t ∉ l) →
  crit (set_threads (<[t := th']> (threads s)) s) Q.
Proof.
  intros [Hk Hipc Hf Hisr (thi & Hti & Honi)] Ht Hst Hpr Hpid Hok Hw. split; try done.
  - by apply (kinv_upd_field s Q t th).
  - apply (ipc_thread s Q t th); try done. rewrite Hst, Hpid. intros Hx. by apply (ip_pid _ _ Hipc).
  - intros tha. simpl. rewrite lookup_insert_Some. intros [[-> <-]|[_ Hta]] Hona; [|by apply Hf].
    rewrite Hst in Hona. rewrite Hpr. by apply Hf.
  - unfold runnable; simpl. destruct (decide (t = idle)) as [->|].
    + exists th'. rewrite lookup_insert_eq, Hst. simplify_eq. done.
    + exists thi. by rewrite lookup_insert_ne.
Qed.

Lemma crit_mem s Q M : crit s Q → dom (mem s) ⊆ dom M → crit (set_mem M s) Q.
Proof.
  intros [Hk Hipc Hf Hisr Hid] Hd. split; try done; [by apply (kinv_ext s)|by apply (ipc_ext s)].
Qed.

Lemma crit_request v s Q : crit s Q → crit (set_sched_context_switch_request v s) Q.
Proof.
  intros [Hk Hipc Hf Hisr Hid]. split; try done; [by apply (kinv_ext s)|by apply (ipc_ext s)].
Qed.

End System.

(** ** What waking other threads leaves alone *)

Record kept (s s' : kernel) : Prop := {
  kp_mem : mem s' = mem s;
  kp_mboxes : mboxes s' = mboxes s;
  kp_rmutexes : rmutexes s' = rmutexes s;
  kp_table : sched_threads s' = sched_threads s;
  kp_active : sched_active_thread s' = sched_active_thread s;
  kp_active_pid : sched_active_pid s' = sched_active_pid s;
  kp_irq : irq_on s' = irq_on s;
  kp_isr : in_isr s' = in_isr s;
  kp_dom : dom (threads s') = dom (threads s);
  kp_prio u : prio_of (threads s') u = prio_of (threads s) u;
  kp_me : threads s' !! sched_active_thread s = threads s !! sched_active_thread s
}.

Lemma kept_refl s : kept s s.
Proof. by split. Qed.

Lemma kept_trans s1 s2 s3 : kept s1 s2 → kept s2 s3 → kept s1 s3.
Proof.
  intros [? ? ? ? Ha ? ? ? ? ? Hme] [? ? ? ? Ha' ? ? ? ? ? Hme']. split; try congruence.
Qed.

Lemma kept_nodes s h : kept s (set_nodes h s).
Proof. by split. Qed.

Lemma kept_status s t th st h c :
  threads s !! t = Some th → sched_active_thread s ≠ t → kept s (status_state s t th st h c).
Proof.
  intros Ht Hne. split; try done; simpl.
  - by rewrite dom_insert_lookup_L.
  - intros u. by apply (prio_of_insert _ _ th).
  - by rewrite lookup_insert_ne.
Qed.

Lemma kept_grows s s' Q Q' s0 Q0 :
  kept s s' → dom Q ⊆ dom Q' → grows s0 Q0 s Q → grows s0 Q0 s' Q'.
Proof.
  intros [Hm Hb Hr Htab _ _ _ _ Hd _ _] HQ [? ? ? ? ? ?]. split; rewrite ?Hm, ?Hb, ?Hr, ?Hd, ?Htab; try done.
  by etrans.
Qed.

Lemma kept_runnable s s' :
  kept s s' → runnable s (sched_active_thread s) → runnable s' (sched_active_thread s').
Proof. intros Hk (th & Hth & Hon). exists th. by rewrite (kp_active _ _ Hk), (kp_me _ _ Hk). Qed.

Lemma u16_prio s Q t th : kinv s Q → threads s !! t = Some th → u16 (priority th) = priority th.
Proof.
  intros Hk Ht. destruct (ki_thread _ _ Hk _ _ Ht) as (_ & Hp & _).
  apply wrap_small. unfold uint, SCHED_PRIO_LEVELS in *. lia.
Qed.

(** ** Preemption *)

Section Preemption.
Context (idle : Z).

(** The running thread is the head of the best run queue. *)
Definition runs_best (s : kernel) (Q : queues) : Prop :=
  ∃ p, next_ready Q p (sched_active_thread s).

Lemma next_ready_unique Q p t p' t' l :
  next_ready Q p t → 0 ≤ p' → Q !! NRq p' = Some (QRun (t' :: l)) →
  (∀ q, 0 ≤ q < p' → Q !! NRq q = Some (QRun [])) → p = p' ∧ t = t'.
Proof.
  intros (Hp & (l0 & Hl0) & Hlow) Hp' Hl Hlow'. destruct (Z.lt_trichotomy p p') as [?|[->|?]].
  - rewrite Hlow' in Hl0 by lia. done.
  - rewrite Hl in Hl0. by simplify_eq.
  - rewrite Hlow in Hl by lia. done.
Qed.

Lemma next_ready_eq Q p t p' t' : next_ready Q p t → next_ready Q p' t' → p = p' ∧ t = t'.
Proof. intros H (Hp & (l & Hl) & Hlow). apply (next_ready_unique _ _ _ _ _ l H); [lia|done|done]. Qed.

(** A thread that joined the end of a run queue takes over exactly when its
    priority is higher than that of the running thread. *)
Lemma next_ready_wake Q p t pw w l :
  next_ready Q p t → 0 ≤ pw < SCHED_PRIO_LEVELS → Q !! NRq pw = Some (QRun l) →
  let Q' := <[NRq pw := QRun (l ++ [w])]> Q in
  if pw <? p then next_ready Q' pw w else next_ready Q' p t.
Proof.
  intros (Hp & (l0 & Hl0) & Hlow) Hpw Hl Q'. destruct (Z.ltb_spec pw p).
  - rewrite Hlow in Hl by lia. injection Hl as <-. split; [done|]. unfold Q'.
    split; [exists []; by rewrite lookup_insert_eq|].
    intros q Hq. rewrite lookup_insert_ne by (intros [= ?]; lia). apply Hlow. lia.
  - split; [done|]. unfold Q'. split.
    + destruct (decide (pw = p)) as [->|].
      * rewrite lookup_insert_eq. rewrite Hl in Hl0. injection Hl0 as ->. by exists (l0 ++ [w]).
      * rewrite lookup_insert_ne by congruence. by exists l0.
    + intros q Hq. rewrite lookup_insert_ne by (intros [= ?]; lia). by apply Hlow.
Qed.

(** [sched_switch] for a thread that was just made runnable.  *)
Lemma sched_switch_spec s Q th p :
  sysinv idle s Q → threads s !! sched_active_thread s = Some th →
  sched_switch p s = if p <? priority th then context_switch s else Done s tt.
Proof.
  intros Hs Hth. pose proof (sy_active _ _ _ Hs) as (th' & Hth' & Hon). simplify_eq.
  unfold sched_switch. do 2 kstep. rewrite Hon. simpl. case_match; [|done].
  kstep. rewrite (cr_isr _ _ _ (sy_crit _ _ _ Hs)).
  unfold thread_yield_higher. by rewrite (sy_irq _ _ _ Hs), (cr_isr _ _ _ (sy_crit _ _ _ Hs)).
Qed.

(** Where a call stops at first: it returned, or its thread is suspended. *)
Definition stops {A} (r : res A) (a : A) (P : bool → kernel → Prop) : Prop :=
  (∃ s, r = Done s a ∧ P false s) ∨
  (∃ s k, r = Yield s k ∧ (∀ s', k s' = Done s' a) ∧ P true s).

Lemma stops_mono {A} (r : res A) (a : A) (P P' : bool → kernel → Prop) :
  stops r a P → (∀ b s, P b s → P' b s) → stops r a P'.
Proof. intros [(s & -> & HP)|(s & k & -> & Hk & HP)] HPP; [left|right]; eauto 10. Qed.

Lemma stops_bind {A B} (m : M A) (f : A → M B) s a b P :
  stops (m s) a P → (∀ s', f a s' = Done s' b) → stops ((m ≫= f) s) b P.
Proof.
  intros [(s' & Hm & HP)|(s' & k & Hm & Hk & HP)] Hf.
  - left. exists s'. by rewrite (bind_Done _ _ _ _ _ Hm).
  - right. eexists s', _. rewrite (bind_Yield _ _ _ _ _ Hm). split; [done|]. split; [|done].
    intros s''. simpl. rewrite Hk. apply Hf.
Qed.

(** The effect of a switch in a state with the queues [Q]. *)
Definition switched (s : kernel) (Q : queues) (p t : Z) (b : bool) (s' : kernel) : Prop :=
  sysinv idle s' Q ∧ unswitched s s' ∧ sched_active_thread s' = t ∧ next_ready Q p t ∧
  b = negb (bool_decide (sched_active_thread s = t)).

Lemma context_switch_stops s Q p t :
  kinv s Q → ipc_ok s Q → in_isr s = false → runnable s idle → irq_on s = true →
  next_ready Q p t → stops (context_switch s) tt (switched s Q p t).
Proof.
  intros Hk Hipc Hisr Hid Hirq Hnext.
  destruct (context_switch_ok idle s Q Hk Hipc Hisr Hid Hirq) as (p' & t' & s' & Hn & Hs' & Hun & Ha & ->).
  destruct (next_ready_eq _ _ _ _ _ Hn Hnext) as [-> ->].
  case_decide as Heq; [left; exists s'|right; eexists s', _];
    (split; [done|]); unfold switched; [by rewrite bool_decide_true|by rewrite bool_decide_false].
Qed.

(** [sched_switch] after a thread of priority [pw] was added to the end of its run
    queue: it takes over exactly when its priority is higher. *)
Lemma wake_switch_stops s Q pw w l th :
  let Q' := <[NRq pw := QRun (l ++ [w])]> Q in
  sysinv idle s Q' → threads s !! sched_active_thread s = Some th →
  Q !! NRq pw = Some (QRun l) → 0 ≤ pw < SCHED_PRIO_LEVELS → w ≠ sched_active_thread s →
  next_ready Q (priority th) (sched_active_thread s) →
  stops (sched_switch pw s) tt
    (λ b s', sysinv idle s' Q' ∧ b = (pw <? priority th) ∧ unswitched s s' ∧
       sched_active_thread s' = if pw <? priority th then w else sched_active_thread s).
Proof.
  intros Q' Hs Hth Hl Hpw Hne Hnext.
  erewrite sched_switch_spec; [|exact Hs|exact Hth].
  pose proof (next_ready_wake Q _ _ pw w l Hnext Hpw Hl) as Hn. fold Q' in Hn. simpl in Hn.
  destruct (Z.ltb_spec pw (priority th)).
  - pose proof Hs as [[Hk Hipc _ Hisr Hid] Hirq _ _].
    destruct (context_switch_stops _ _ _ _ Hk Hipc Hisr Hid Hirq Hn)
      as [(s' & Hcs & Hsw)|(s' & k & Hcs & Hkk & Hsw)];
      destruct Hsw as (Hs' & Hun & Ha & _ & Hb); simpl in Hb;
      rewrite bool_decide_false in Hb by congruence; [done|].
    right. by exists s', k.
  - left. exists s. split; [done|]. split; [done|]. split; [done|].
    split; [|done]. split; try done. intros u. apply same_thread_refl.
Qed.

Lemma runs_best_prio s Q th :
  runs_best s Q → kinv s Q → threads s !! sched_active_thread s = Some th →
  next_ready Q (priority th) (sched_active_thread s).
Proof.
  intros (p & Hnext) Hk Hth. pose proof Hnext as (_ & (l & Hl) & _).
  destruct (ki_mem _ _ Hk _ _ (sched_active_thread s) Hl) as (th' & Hth' & _ & Hp); [by left|].
  simplify_eq. by rewrite (Hp p eq_refl).
Qed.

(** Leaving the critical section when no switch is due. *)
Lemma restore_ok s Q :
  crit idle s Q → yield_pending s = false → runnable s (sched_active_thread s) →
  irq_restore true s = Done (set_irq_on true s) tt ∧ sysinv idle (set_irq_on true s) Q.
Proof.
  intros Hc Hp Hr. split; [unfold irq_restore; simpl; by rewrite (cr_isr _ _ _ Hc), Hp|].
  split; try done. by apply crit_irq.
Qed.

(** Leaving a critical section in which nothing changed. *)
Lemma irq_roundtrip s Q : sysinv idle s Q → irq_restore true (set_irq_on false s) = Done s tt.
Proof.
  intros [[_ _ _ Hisr _] Hirq Hp _]. unfold irq_restore. simpl. rewrite Hisr, Hp. simpl.
  destruct s; simpl in *. by subst.
Qed.

(** The outcome of a call that suspends its thread and returns [a] when it is
    resumed: another thread, the best of [Q], runs. *)
Definition suspends {A} (r : res A) (a : A) (s : kernel) (Q : queues) : Prop :=
  ∃ s' k, r = Yield s' k ∧ (∀ s'', k s'' = Done s'' a) ∧ sysinv idle s' Q ∧
    unswitched (set_irq_on true s) s' ∧ runs_best s' Q ∧
    sched_active_thread s' ≠ sched_active_thread s.

Lemma suspends_bind {A B} (m : M A) (f : A → M B) s0 s Q a b :
  suspends (m s0) a s Q → (∀ s', f a s' = Done s' b) → suspends ((m ≫= f) s0) b s Q.
Proof.
  intros (s' & k & Hm & Hk & HP) Hf. eexists s', _. rewrite (bind_Yield _ _ _ _ _ Hm).
  split; [done|]. split; [|done]. intros s''. simpl. rewrite Hk. apply Hf.
Qed.

(** Leaving the critical section after the caller was blocked. *)
Lemma blocked_switch s Q th :
  crit idle s Q → yield_pending s = false → threads s !! sched_active_thread s = Some th →
  on_runqueue (status th) = false →
  ∃ s', irq_restore true s = Done (set_irq_on true s) tt ∧
    thread_yield_higher (set_irq_on true s) = Yield s' (λ s'', Done s'' tt) ∧
    sysinv idle s' Q ∧ unswitched (set_irq_on true s) s' ∧ runs_best s' Q ∧
    sched_active_thread s' ≠ sched_active_thread s.
Proof.
  intros Hc Hp Hth Hoff. pose proof (crit_irq idle true s Q Hc) as [Hk Hipc _ Hisr Hid].
  destruct (context_switch_ok idle _ Q Hk Hipc Hisr Hid eq_refl)
    as (p & t & s' & Hnext & Hs' & Hun & Hat & Hsw).
  assert (t ≠ sched_active_thread s) as Hne.
  { intros ->. destruct Hnext as (_ & (l & Hl) & _).
    destruct (ki_mem _ _ Hk _ _ (sched_active_thread s) Hl) as (th' & Hth' & Hon & _); [by left|].
    simpl in Hth', Hon. simplify_eq. congruence. }
  rewrite decide_False in Hsw by (simpl; congruence).
  exists s'. split; [unfold irq_restore; simpl; by rewrite (cr_isr _ _ _ Hc), Hp|].
  split; [unfold thread_yield_higher; simpl; by rewrite (cr_isr _ _ _ Hc)|].
  split; [done|]. split; [done|]. split; [exists p|]; by rewrite Hat.
Qed.

Lemma restore_yield_suspends {B} (b : B) s Q th :
  crit idle s Q → yield_pending s = false → threads s !! sched_active_thread s = Some th →
  on_runqueue (status th) = false →
  suspends ((irq_restore true;; thread_yield_higher;; mret b) s) b s Q.
Proof.
  intros Hc Hp Hth Hoff. destruct (blocked_switch s Q th) as (s' & Hr & Hy & HP); try done.
  eexists s', _. split; [|split; [|exact HP]].
  - erewrite bind_Done; [|exact Hr]. cbn beta. by erewrite bind_Yield.
  - done.
Qed.

Lemma unswitched_blocked s s' t th :
  unswitched s s' → threads s !! t = Some th → on_runqueue (status th) = false →
  threads s' !! t = Some th.
Proof.
  intros Hun Ht Hoff. pose proof (us_threads _ _ Hun t) as Hsame. rewrite Ht in Hsame.
  destruct (threads s' !! t) as [th'|]; [|done].
  destruct Hsame as [->|(_ & ? & _)]; congruence.
Qed.

Lemma suspends_safe {A} t (r : res A) a s Q s0 Q0 :
  suspends r a s Q → grows s0 Q0 s Q → safe idle t s0 Q0 r (λ b _ _, b = a).
Proof.
  intros (s' & k & -> & Hk & Hs' & Hun & _) Hg. exists Q. split; [done|]. split.
  - eapply grows_trans; [|by apply unswitched_grows]. by apply grows_irq.
  - intros s2 Q2 Hs2 Hg2 Ha2. rewrite Hk. exists Q2. by split; [|split; [apply grows_refl|]].
Qed.

(** [thread_yield_higher] after a thread was added to the end of its run queue. *)
Lemma restore_yield_stops {B} (b : B) s Q pw w l th :
  let Q' := <[NRq pw := QRun (l ++ [w])]> Q in
  crit idle s Q' → yield_pending s = false →
  threads s !! sched_active_thread s = Some th → on_runqueue (status th) = true →
  Q !! NRq pw = Some (QRun l) → 0 ≤ pw < SCHED_PRIO_LEVELS → w ≠ sched_active_thread s →
  next_ready Q (priority th) (sched_active_thread s) →
  stops ((irq_restore true;; thread_yield_higher;; mret b) s) b (λ sw s',
    sysinv idle s' Q' ∧ sw = (pw <? priority th) ∧ unswitched (set_irq_on true s) s' ∧
    sched_active_thread s' = if pw <? priority th then w else sched_active_thread s).
Proof.
  intros Q' Hc Hp Hth Hon Hl Hpw Hne Hnext.
  destruct (restore_ok s Q' Hc Hp) as [Hrest Hs]; [by exists th|].
  erewrite bind_Done; [|exact Hrest]. cbn beta. apply (stops_bind _ _ _ tt); [|done].
  unfold thread_yield_higher. rewrite (sy_irq _ _ _ Hs), (cr_isr _ _ _ (sy_crit _ _ _ Hs)). cbn [negb andb].
  pose proof (next_ready_wake Q _ _ pw w l Hnext Hpw Hl) as Hn. fold Q' in Hn. cbv zeta in Hn.
  pose proof Hs as [[Hk Hipc _ Hisr Hid] Hirq _ _].
  destruct (pw <? priority th);
    destruct (context_switch_stops _ _ _ _ Hk Hipc Hisr Hid Hirq Hn)
      as [(s' & Hcs & Hsw)|(s' & k & Hcs & Hkk & Hsw)];
    destruct Hsw as (Hs' & Hun & Ha & _ & Hb); simpl in Hb;
    first [rewrite bool_decide_false in Hb by congruence|rewrite bool_decide_true in Hb by done];
    try done.
  - right. by exists s', k.
  - left. by exists s'.
Qed.

Lemma unswitched_refl s : unswitched s s.
Proof. split; try done. intros u. apply same_thread_refl. Qed.

(** [sched_switch], whoever runs next. *)
Lemma sched_switch_stops s Q p :
  sysinv idle s Q → stops (sched_switch p s) tt (λ _ s', sysinv idle s' Q ∧ unswitched s s').
Proof.
  intros Hs. destruct (sy_active _ _ _ Hs) as (me & Hme & Hon).
  rewrite (sched_switch_spec s Q me p Hs Hme). case_match; [|left; exists s; auto using unswitched_refl].
  pose proof Hs as [[Hk Hipc _ Hisr Hid] Hirq _ _].
  destruct (context_switch_ok idle s Q Hk Hipc Hisr Hid Hirq) as (q & t & s' & _ & Hs' & Hun & _ & ->).
  case_decide; [left; by exists s'|right; by eexists s', _].
Qed.

Lemma same_thread_field {A} (f : thread_t → A) s s' u th :
  unswitched s s' → (∀ st th, f (set_status st th) = f th) → threads s !! u = Some th →
  ∃ th', threads s' !! u = Some th' ∧ f th' = f th.
Proof.
  intros Hun Hf Hth. pose proof (us_threads _ _ Hun u) as Hsame. rewrite Hth in Hsame.
  destruct (threads s' !! u) as [th'|]; [|done]. exists th'. split; [done|].
  destruct Hsame as [->|(-> & _)]; [done|apply Hf].
Qed.

End Preemption.

#[export] Hint Resolve grows_refl : core.
