(* ===== verification/ThreadCalls.v ===== *)
(** * Thread calls (core/thread.c, core/sched.c)

    What yielding, sleeping, waking, exiting and creating threads do to the run
    queues, and that they are safe. *)

From S2P Require Import Prelude Bitarithm Cib LinkedList Clist Kernel Sched KernelInv WaitList SchedProps.

(** ** thread_yield *)

(** Rotating a run queue. *)
Lemma kinv_rotate s Q p t l :
  kinv s Q → Q !! NRq p = Some (QRun (t :: l)) →
  ∃ h, clist_lpoprpush (nodes s) (NRq p) = Some h ∧
    kinv (set_nodes h s) (<[NRq p := QRun (l ++ [t])]> Q).
Proof.
  intros Hk Hl. destruct (qr_rep _ _ (ki_rep _ _ Hk) _ _ Hl) as [Hok Hc]. simpl in Hc.
  destruct (ki_mem _ _ Hk _ _ t Hl) as (th & Ht & Hon & Hp); [by left|].
  specialize (Hp p eq_refl). simpl in Hon.
  destruct (clist_lpoprpush_spec _ _ _ Hc) as (h & Hrun & Hc' & Hf).
  exists h. split; [done|].
  replace (set_nodes h s) with (set_threads (<[t := th]> (threads s))
    (set_runqueue_bitcache (runqueue_bitcache s) (set_nodes h s)))
    by (rewrite insert_id by done; by destruct s).
  apply (kinv_transition s Q h _ t th th); try done.
  - eapply qrep_update; [apply (ki_rep _ _ Hk)|done|done| |..].
    + simpl. rewrite fmap_app. exact Hc'.
    + intros n Hn _. apply Hf. intros ->. apply Hn. by left.
    + intros u. simpl. set_solver.
  - intros n Hn. apply elem_of_dom. rewrite (clist_lpoprpush_dom _ _ _ Hrun). by apply elem_of_dom.
  - intros a v u Ha Hu _. apply lookup_insert_Some in Ha as [[<- <-]|[_ Ha]]; [|by exists v].
    exists (QRun (t :: l)). split; [done|]. simpl in *. set_solver.
  - intros a v Ha Hu. apply lookup_insert_Some in Ha as [[<- <-]|[Hne Ha]].
    + split; [done|]. intros q [= <-]. done.
    + destruct (ki_mem _ _ Hk _ _ t Ha Hu) as (th' & Hth' & Hw & Hp'). simplify_eq. done.
  - intros q l' u _ Hq Hu. destruct (decide (q = p)) as [->|].
    + rewrite lookup_insert_eq. eexists. split; [done|]. simplify_eq. set_solver.
    + rewrite lookup_insert_ne by congruence. by exists l'.
  - intros _. rewrite Hp, lookup_insert_eq. eexists. split; [done|]. set_solver.
  - intros q Hq. destruct (ki_cache _ _ Hk q Hq) as (lq & Hlq & Hb).
    destruct (decide (q = p)) as [->|].
    + rewrite lookup_insert_eq. eexists. split; [done|]. rewrite Hb. simplify_eq. by destruct l.
    + rewrite lookup_insert_ne by congruence. by exists lq.
  - apply (ki_cache_range _ _ Hk).
  - intros u l' Hu. exists l'. by rewrite lookup_insert_ne.
  - intros a v Ha Hne. apply lookup_insert_Some in Ha as [[<- _]|[_ Ha]]; [by destruct (Hne p)|].
    by apply (ki_sorted _ _ Hk a).
Qed.

Section ThreadCalls.
Context (idle : Z).
#[local] Abbreviation sysinv := (sysinv idle).
#[local] Abbreviation safe := (safe idle).

(** The state in which [thread_yield] yields: the caller's queue is rotated. *)
Lemma thread_yield_rotate s Q th l :
  sysinv s Q → threads s !! sched_active_thread s = Some th →
  Q !! NRq (priority th) = Some (QRun (sched_active_thread s :: l)) →
  ∃ h, let s1 := set_irq_on true (set_nodes h (set_irq_on false s)) in
    let Q1 := <[NRq (priority th) := QRun (l ++ [sched_active_thread s])]> Q in
    thread_yield s = context_switch s1 ∧ kinv s1 Q1 ∧ ipc_ok s1 Q1 ∧ runnable s1 idle.
Proof.
  intros [[Hk Hipc Hf Hisr Hid] Hirq Hpend (th' & Hth' & Hon)] Ht Hl. simplify_eq.
  destruct (kinv_rotate s Q _ _ _ Hk Hl) as (h & Hrot & Hk'). exists h. split; [|split; [|split]].
  - unfold thread_yield. do 2 kstep. destruct (ki_thread _ _ Hk _ _ Hth') as (H0 & _).
    destruct (Z.eqb_spec (sched_active_thread (set_irq_on false s)) 0) as [|_]; [done|]. cbn [negb].
    erewrite bind_Done; [|erewrite bind_Done; [|by apply get_thread_ok]; rewrite Hon;
      by apply on_nodes_ok].
    rewrite Hirq. unfold irq_restore, thread_yield_higher.
    erewrite bind_Done; [|simpl; rewrite Hisr, Hpend; reflexivity]. simpl. by rewrite Hisr.
  - by apply (kinv_ext (set_nodes h s)).
  - apply (ipc_ext s); try done. by apply ipc_runqueue.
  - done.
Qed.

Lemma thread_yield_safe s Q :
  sysinv s Q → safe (sched_active_thread s) s Q (thread_yield s) (λ _ _ _, True).
Proof.
  intros Hs. destruct (sy_active _ _ _ Hs) as (th & Hth & Hon).
  destruct (cr_first _ _ _ (sy_crit _ _ _ Hs) th Hth Hon) as (l & Hl).
  destruct (thread_yield_rotate s Q th l Hs Hth Hl) as (h & -> & Hk & Hipc & Hid).
  eapply safe_switch_base; try done; [apply Hs|]. grow (grows_refl s Q).
Qed.

(** C11: [thread_yield] moves the caller behind the other threads of its priority;
    the next one of them runs, and the caller goes on at once when it is alone. *)
Theorem thread_yield_round_robin s Q th l :
  sysinv s Q → runs_best s Q → threads s !! sched_active_thread s = Some th →
  Q !! NRq (priority th) = Some (QRun (sched_active_thread s :: l)) →
  stops (thread_yield s) tt (λ switched s',
    sysinv s' (<[NRq (priority th) := QRun (l ++ [sched_active_thread s])]> Q) ∧
    sched_active_thread s' = default (sched_active_thread s) (head l) ∧
    switched = negb (bool_decide (l = []))).
Proof.
  intros Hs (p & Hnext) Hth Hl.
  destruct (thread_yield_rotate s Q th l Hs Hth Hl) as (h & -> & Hk & Hipc & Hid).
  set (me := sched_active_thread s) in *. set (s1 := set_irq_on true _) in *.
  set (Q1 := <[_:=_]> Q) in *.
  assert (next_ready Q1 p (default me (head l))) as Hn.
  { destruct (next_ready_unique Q p me (priority th) me l Hnext) as [-> _]; [|done| |].
    { apply (ki_thread _ _ (cr_kinv _ _ _ (sy_crit _ _ _ Hs)) _ _ Hth). }
    { destruct Hnext as (Hp & (l' & Hl') & Hlow). intros q Hq. apply Hlow.
      destruct (ki_mem _ _ (cr_kinv _ _ _ (sy_crit _ _ _ Hs)) _ _ me Hl') as (th' & Hth' & _ & Hpr);
        [by left|]. unfold me in *. simplify_eq. by rewrite (Hpr p eq_refl) in Hq. }
    destruct Hnext as (Hp & _ & Hlow). split; [done|]. unfold Q1. split.
    - rewrite lookup_insert_eq. destruct l as [|u l]; [by exists []|by exists (l ++ [me])].
    - intros q Hq. rewrite lookup_insert_ne by (intros [= ?]; lia). by apply Hlow. }
  assert (NoDup (me :: l)) as [Hml _]%NoDup_cons.
  { destruct (qr_rep _ _ (ki_rep _ _ (cr_kinv _ _ _ (sy_crit _ _ _ Hs))) _ _ Hl) as [_ Hr].
    by apply rep_NoDup in Hr. }
  destruct (context_switch_stops idle s1 Q1 p _ Hk Hipc (cr_isr _ _ _ (sy_crit _ _ _ Hs)) Hid eq_refl Hn)
    as [(s' & Hcs & Hsw)|(s' & k & Hcs & Hkk & Hsw)]; destruct Hsw as (Hs' & _ & Ha & _ & Hb);
    [left; exists s'|right; exists s', k]; (split; [done|]); [|split; [done|]];
    (split; [done|]); (split; [done|]); change (sched_active_thread s1) with me in Hb;
    destruct l as [|u l]; simpl in *; try (by rewrite bool_decide_true in Hb by done);
    rewrite bool_decide_false in Hb by set_solver; done.
Qed.

(** ** thread_wakeup *)

Lemma valid_slot s Q p :
  kinv s Q → pid_is_valid p = true → ∃ t, aget (sched_threads s) p = Some t.
Proof.
  intros Hk Hp. apply aget_in. rewrite (ki_table_length _ _ Hk).
  unfold pid_is_valid, KERNEL_PID_FIRST, KERNEL_PID_LAST, KERNEL_PID_UNDEF, MAXTHREADS in Hp.
  unfold KERNEL_PID_FIRST, KERNEL_PID_UNDEF in Hp. lia.
Qed.

(** The thread with a pid; [0] for no thread. *)
Definition lookup_pid (s : kernel) (p : Z) : Z :=
  if pid_is_valid p then default 0 (aget (sched_threads s) p) else 0.

Lemma thread_get_ok s Q p : kinv s Q → thread_get p s = Done s (lookup_pid s p).
Proof.
  intros Hk. unfold thread_get, lookup_pid. case_match eqn:Hp; [|done].
  destruct (valid_slot s Q p Hk Hp) as (t & Ht). unfold read_sched_threads. by rewrite Ht.
Qed.

Lemma lookup_pid_thread s Q p :
  kinv s Q → lookup_pid s p ≠ 0 → ∃ th, threads s !! lookup_pid s p = Some th ∧ pid th = p.
Proof.
  intros Hk Hne. unfold lookup_pid in *. case_match eqn:Hp; [|done].
  destruct (valid_slot s Q p Hk Hp) as (t & Ht). rewrite Ht in *. by apply (ki_table _ _ Hk).
Qed.

Lemma sleeping_detached s Q t th :
  kinv s Q → threads s !! t = Some th → status th = STATUS_SLEEPING → detached Q t.
Proof.
  intros Hk Ht Hst. apply (kinv_detached_status s Q t th); try done.
  rewrite Hst. intros []; simpl; naive_solver.
Qed.

(** C12: [thread_wakeup] fails without effect unless the pid belongs to a sleeping
    thread; that thread becomes ready, last of its priority, and preempts the
    caller exactly when its priority is better. *)
Theorem thread_wakeup_outcome s Q p :
  sysinv s Q → runs_best s Q →
  let t := lookup_pid s p in
  (t = 0 ∨ (∀ th, threads s !! t = Some th → status th ≠ STATUS_SLEEPING) →
     thread_wakeup p s = Done s STATUS_NOT_FOUND) ∧
  (∀ th me, threads s !! t = Some th → status th = STATUS_SLEEPING →
     threads s !! sched_active_thread s = Some me →
     ∃ l, Q !! NRq (priority th) = Some (QRun l) ∧
     stops (thread_wakeup p s) 1 (λ switched s',
       sysinv s' (<[NRq (priority th) := QRun (l ++ [t])]> Q) ∧
       switched = (priority th <? priority me) ∧
       sched_active_thread s' = if priority th <? priority me then t else sched_active_thread s)).
Proof.
  intros Hs Hbest t. pose proof (cr_kinv _ _ _ (sy_crit _ _ _ Hs)) as Hk.
  pose proof (sy_irq _ _ _ Hs) as Hirq.
  assert (∀ f, thread_wakeup p s = (thread_get p ≫= f) (set_irq_on false s) →
    thread_wakeup p s = f t (set_irq_on false s)) as Hget.
  { intros f ->. erewrite bind_Done; [done|]. apply (thread_get_ok (set_irq_on false s) Q).
    by apply (kinv_ext s). }
  erewrite Hget; [|unfold thread_wakeup; kstep; rewrite Hirq; reflexivity]. clear Hget. split.
  - intros Hcase. destruct (Z.eqb_spec t 0) as [|Hne].
    { erewrite bind_Done; [|by eapply (irq_roundtrip idle)]. done. }
    destruct (lookup_pid_thread s Q p Hk Hne) as (th & Hth & _).
    erewrite bind_Done; [|by apply get_thread_ok]. cbn beta.
    destruct Hcase as [|Hns]; [done|]. rewrite decide_False by (by apply Hns).
    erewrite bind_Done; [|by eapply (irq_roundtrip idle)]. done.
  - intros th me Hth Hst Hme. destruct (ki_thread _ _ Hk _ _ Hth) as (Hne & Hpr & _).
    rewrite (proj2 (Z.eqb_neq _ _) Hne). 
    erewrite bind_Done; [|apply get_thread_ok; exact Hth]. cbn beta. rewrite decide_True by done.
    destruct (sy_active _ _ _ Hs) as (me' & Hme' & Hon). simplify_eq.
    assert (t ≠ sched_active_thread s) as Hta by (intros Heq; rewrite Heq in Hth; simplify_eq; by rewrite Hst in Hon).
    pose proof (crit_enter _ _ _ Hs) as Hc.
    destruct (crit_wake idle _ Q t th STATUS_RUNNING Hc Hth) as (h & c & l & Hset & Hl & Hc').
    { by rewrite Hst. } { by apply (sleeping_detached s Q t th). } { done. } { done. } { by rewrite Hst. }
    exists l. split; [done|].
    erewrite bind_Done; [|exact Hset]. cbn beta. set (s2 := set_threads _ _) in *.
    assert (threads s2 !! sched_active_thread s = Some me) as Hme2 by (simpl; by rewrite lookup_insert_ne).
    destruct (restore_ok idle s2 _ Hc' (sy_pending _ _ _ Hs)) as [Hrest Hs3]; [by exists me|].
    erewrite bind_Done; [|exact Hrest]. cbn beta.
    erewrite bind_Done; [|apply get_thread_ok; simpl; by rewrite lookup_insert_eq]. cbn beta.
    apply (stops_bind _ _ _ tt); [|done].
    destruct (wake_switch_stops idle _ Q (priority th) t l me Hs3 Hme2 Hl Hpr Hta)
      as [(s' & Hr & H1 & H2 & _ & H4)|(s' & k & Hr & Hkk & H1 & H2 & _ & H4)].
    { by apply (runs_best_prio s). }
    + left. by exists s'.
    + right. by exists s', k.
Qed.

(** ** Safety *)

Lemma thread_sleep_safe s Q :
  sysinv s Q → sched_active_thread s ≠ idle →
  safe (sched_active_thread s) s Q (thread_sleep s) (λ _ _ _, True).
Proof.
  intros Hs Hidle. pose proof (crit_enter _ _ _ Hs) as Hc. pose proof Hs as [_ Hirq _ (th & Hth & Hon)].
  unfold thread_sleep. kstep. rewrite (cr_isr _ _ _ (sy_crit _ _ _ Hs)). do 2 kstep. rewrite Hirq.
  destruct (crit_block idle _ Q th STATUS_SLEEPING Hc Hth) as (h & c & l & Hset & _ & Hc' & _); try done.
  erewrite bind_Done; [|exact Hset]. cbn beta.
  eapply safe_restore_yield; [exact Hc'| |done]. grow (grows_refl s Q).
Qed.

Lemma thread_wakeup_safe s Q p :
  sysinv s Q →
  safe (sched_active_thread s) s Q (thread_wakeup p s) (λ r _ _, r = 1 ∨ r = STATUS_NOT_FOUND).
Proof.
  intros Hs. pose proof (crit_enter _ _ _ Hs) as Hc.
  pose proof Hs as [_ Hirq _ (me & Hme & Hon)].
  assert (grows s Q (set_irq_on false s) Q) as Hg by (grow (grows_refl s Q)).
  unfold thread_wakeup. kstep. rewrite Hirq.
  erewrite bind_Done; [|apply (thread_get_ok (set_irq_on false s) Q); apply Hc]. cbn beta.
  change (lookup_pid (set_irq_on false s) p) with (lookup_pid s p).
  destruct (Z.eqb_spec (lookup_pid s p) 0) as [|Hne].
  { eapply safe_mono; [eapply safe_restore_ret; [exact Hc|by exists me|done|done]|]. simpl. auto. }
  destruct (lookup_pid_thread s Q p (cr_kinv _ _ _ (sy_crit _ _ _ Hs)) Hne) as (th & Hth & _).
  erewrite bind_Done; [|by apply get_thread_ok]. cbn beta. case_decide as Hst.
  2: { eapply safe_mono; [eapply safe_restore_ret; [exact Hc|by exists me|done|done]|]. simpl. auto. }
  set (t := lookup_pid s p) in *.
  assert (sched_active_thread s ≠ t) as Hta
    by (intros Heq; rewrite Heq in Hme; simplify_eq; by rewrite Hst in Hon).
  destruct (crit_wake idle _ Q t th STATUS_RUNNING Hc Hth) as (h & c & l & Hset & Hl & Hc'); try done.
  { by rewrite Hst. }
  { apply (sleeping_detached s Q t th); [apply Hs|done|done]. } { by rewrite Hst. }
  erewrite bind_Done; [|exact Hset]. cbn beta.
  eapply safe_bind; [eapply safe_restore; [exact Hc'| | |done]|].
  { exists me. simpl. by rewrite lookup_insert_ne. }
  { grow Hg. }
  intros _ s' Q' Hs' Hg' Ha' _.
  assert (is_Some (threads s' !! t)) as [th' Hth'].
  { apply elem_of_dom, (gr_threads _ _ _ _ Hg'), elem_of_dom. by exists th. }
  erewrite bind_Done; [|by apply get_thread_ok]. cbn beta.
  eapply safe_mono; [eapply safe_then, safe_sched_switch; done|]. simpl. auto.
Qed.

(** ** sched_task_exit *)

(** With no thread active, the switch is that of [cpu_switch_context_exit]. *)
Lemma switch_exit_boot s :
  sched_active_thread s = 0 → in_isr s = false → yield_pending s = false →
  cpu_switch_context_exit s = context_switch (set_irq_on true (set_irq_on false (set_irq_on true s))).
Proof.
  intros Ha Hisr Hp. unfold cpu_switch_context_exit. kstep. unfold thread_yield. do 2 kstep.
  simpl. rewrite Ha. cbn [Z.eqb negb]. kstep.
  erewrite bind_Done; [|unfold irq_restore; simpl; rewrite Hisr, Hp; reflexivity].
  unfold thread_yield_higher. simpl. by rewrite Hisr.
Qed.

(** Forgetting a thread in the table of pids, and in [sched_active_thread]. *)
Lemma kinv_forget s Q p n :
  kinv s Q → 0 ≤ p < 33 →
  kinv (set_sched_num_threads n (set_sched_threads (<[Z.to_nat p := 0]> (sched_threads s)) s)) Q.
Proof.
  intros Hk Hp. pose proof (ki_table_length _ _ Hk) as Hlen.
  destruct Hk as [? ? ? ? ? ? ? Htab ? ?]. split; simpl; try done.
  - by rewrite length_insert.
  - intros q t Hq Ht. pose proof (aget_Some_range _ _ _ Hq).
    rewrite aget_insert in Hq by lia. case_decide; [by simplify_eq|]. by apply Htab.
Qed.

Lemma kinv_inactive s Q : kinv s Q → kinv (set_sched_active_thread 0 s) Q.
Proof. intros []. by split. Qed.

Lemma next_ready_attached s Q p t u :
  next_ready Q p t → kinv s Q → detached Q u → t ≠ u ∧ t ≠ 0.
Proof.
  intros (_ & (l & Hl) & _) Hk Hd. split.
  - intros ->. apply (Hd _ _ Hl). by left.
  - destruct (ki_mem _ _ Hk _ _ t Hl) as (th & Hth & _); [by left|].
    apply (ki_thread _ _ Hk _ _ Hth).
Qed.

(** The state after an exit: the next thread runs. *)
Lemma task_exit_run s Q th l :
  sysinv s Q → sched_active_thread s ≠ idle →
  threads s !! sched_active_thread s = Some th →
  Q !! NRq (priority th) = Some (QRun (sched_active_thread s :: l)) →
  0 ≤ pid th < 33 →
  ∃ s' k, sched_task_exit s = Yield s' k ∧ (∀ s'', k s'' = Done s'' tt) ∧
    sysinv s' (<[NRq (priority th) := QRun l]> Q) ∧ grows s Q s' (<[NRq (priority th) := QRun l]> Q) ∧
    aget (sched_threads s') (pid th) = Some 0 ∧ sched_active_thread s' ≠ sched_active_thread s ∧
    threads s' !! sched_active_thread s = Some (set_status STATUS_STOPPED th).
Proof.
  intros Hs Hidle Hth Hl Hpid. pose proof Hs as [[Hk Hipc _ Hisr Hid] Hirq Hpend (th0 & Hth0 & Hon)].
  assert (th0 = th) as -> by congruence. clear Hth0. set (me := sched_active_thread s) in *.
  destruct (ki_thread _ _ Hk _ _ Hth) as (Hme0 & _).
  destruct (ki_active _ _ Hk Hme0) as (th1 & Hth1 & Hap). fold me in Hth1.
  assert (th1 = th) as -> by congruence. clear Hth1.
  pose proof (ki_table_length _ _ Hk) as Hlen.
  set (s1 := set_sched_num_threads (i32 (sched_num_threads s - 1))
    (set_sched_threads (<[Z.to_nat (pid th) := 0]> (sched_threads s)) (set_irq_on false s))).
  assert (kinv s1 Q) as Hk1.
  { apply (kinv_forget (set_irq_on false s)); [by apply (kinv_ext s)|done]. }
  destruct (set_status_block s1 Q me th STATUS_STOPPED l Hk1 Hth Hon eq_refl Hl)
    as (h & c & Hset & Hk2 & Hd).
  set (Q' := <[_:=_]> Q) in *. set (s2 := set_threads _ _) in *.
  set (s4 := set_irq_on true (set_irq_on false (set_irq_on true (set_sched_active_thread 0 s2)))).
  assert (kinv s4 Q') as Hk4 by (by eapply kinv_ext, kinv_inactive, Hk2).
  destruct (context_switch_ok idle s4 Q') as (p & t & s' & Hnext & Hs' & Hun & Hat & Hsw); try done.
  { apply (ipc_ext s2); try done. apply ipc_runqueue. destruct Hipc as [H1 H2 H3 H4].
    split; simpl.
    - intros u thu [[<- <-]|[_ Hu]]%lookup_insert_Some; [|by eapply H1].
      by apply thread_ok_status; [apply (H1 me)|].
    - done.
    - intros b l' u thu Hl' Hin [[<- <-]|[_ Hu]]%lookup_insert_Some; [|by eapply H3].
      by apply (H3 b l' me th).
    - intros u thu [[<- <-]|[Hne Hu]]%lookup_insert_Some Hst; [done|].
      pose proof (H4 u thu Hu Hst) as Hslot.
      rewrite aget_insert by (try lia; by apply aget_Some_range in Hslot; lia).
      case_decide as Heq; [|done]. exfalso.
      pose proof (H4 me th Hth ltac:(intros Hx; by rewrite Hx in Hon)) as Hslot'. congruence. }
  { apply (runnable_status s1 me th STATUS_STOPPED h c); try done. }
  destruct (next_ready_attached s4 Q' p t me Hnext Hk4 Hd) as [Htm Ht0].
  rewrite decide_False in Hsw by done.
  exists s', (λ s'', Done s'' tt). split; [|split; [done|split; [done|split; [|split; [|split; [by rewrite Hat|]]]]]].
  - unfold sched_task_exit. do 2 kstep. simpl sched_active_pid. rewrite <- Hap.
    erewrite bind_Done; [|unfold write_sched_threads; simpl; rewrite aset_in by lia; reflexivity].
    cbn beta. do 3 kstep. erewrite bind_Done; [|exact Hset]. cbn beta. kstep.
    by rewrite switch_exit_boot.
  - assert (grows s Q s4 Q') as Hg.
    { split; simpl; rewrite ?dom_insert_L; try set_solver. intros u q Hu Hq.
      pose proof (aget_Some_range _ _ _ Hq) as Hrq. rewrite length_insert in Hrq.
      rewrite aget_insert in Hq by lia. case_decide; [|done]. injection Hq as <-.
      apply elem_of_dom in Hu as [thu Hthu]. by destruct (ki_thread _ _ Hk _ _ Hthu). }
    eapply grows_trans; [exact Hg|by apply unswitched_grows].
  - rewrite (us_table _ _ Hun). simpl. by rewrite aget_insert, decide_True by lia.
  - pose proof (us_threads _ _ Hun me) as Hsame. simpl in Hsame. rewrite lookup_insert_eq in Hsame.
    destruct (threads s' !! me) as [th'|]; [|done]. by destruct Hsame as [->|(_ & ? & _)].
Qed.

End ThreadCalls.
