(* ===== verification/ThreadCreate.v ===== *)
(** * Thread creation and start of the kernel (core/thread.c, core/kernel_init.c)

    [thread_create] takes the lowest free pid and adds the thread to the system;
    [kernel_init] reaches, from zeroed memory, the first state in which a thread
    runs. *)

From S2P Require Import Prelude Bitarithm Cib LinkedList Clist Kernel Sched KernelInv WaitList SchedProps ThreadCalls.

(** ** A new thread *)

Lemma rep_wait_nil h a : h !! a = Some None → rep h a (QWait []).
Proof. intros Ha. by apply slist_empty. Qed.

(** Writing nodes that belong to no queue, and adding an empty list. *)
Lemma qrep_new h Q t :
  qrep h Q → Q !! NMsgWaiters t = None → detached Q t →
  qrep (<[NThread t := None]> (<[NMsgWaiters t := None]> h)) (<[NMsgWaiters t := QWait []]> Q).
Proof.
  intros [Hrep Hdisj] Hq Hd. split.
  - intros a v [[<- <-]|[Hne Ha]]%lookup_insert_Some.
    + split; [done|]. apply rep_wait_nil. by rewrite lookup_insert_ne, lookup_insert_eq.
    + destruct (Hrep a v Ha) as [Hok Hr]. split; [done|]. apply (rep_frame h); [|done].
      intros n [->|(u & -> & Hu)]%footprint_in.
      * assert (NThread t ≠ a) by (intros <-; by destruct v). by rewrite !lookup_insert_ne.
      * assert (t ≠ u) by (intros ->; by apply (Hd a v Ha)). by rewrite !lookup_insert_ne by congruence.
  - intros a1 v1 a2 v2 u [[<- <-]|[_ H1]]%lookup_insert_Some [[<- <-]|[_ H2]]%lookup_insert_Some;
      simpl; intros; set_solver.
Qed.

(** The state with a new, stopped thread [th] at [t] under the pid [p]. *)
Definition add_thread (s : kernel) (p t : Z) (th : thread_t) : kernel :=
  set_nodes (<[NThread t := None]> (<[NMsgWaiters t := None]> (nodes s)))
    (set_threads (<[t := th]> (threads s))
       (set_sched_threads (<[Z.to_nat p := t]> (sched_threads s)) s)).

Record fresh_thread (s : kernel) (Q : queues) (t : Z) : Prop := {
  fr_addr : t ≠ 0;
  fr_thread : threads s !! t = None;
  fr_queue : Q !! NMsgWaiters t = None
}.

Lemma kinv_add_thread s Q p t th :
  kinv s Q → fresh_thread s Q t → aget (sched_threads s) p = Some 0 →
  status th = STATUS_STOPPED → pid th = p → 0 ≤ priority th < SCHED_PRIO_LEVELS →
  sched_active_thread s ≠ t →
  kinv (add_thread s p t th) (<[NMsgWaiters t := QWait []]> Q).
Proof.
  intros Hk [H0 Hnew Hq] Hp Hst Hpid Hprio Hact.
  assert (detached Q t) as Hd.
  { intros a v Ha Hin. destruct (ki_mem _ _ Hk _ _ _ Ha Hin) as (th' & Hth' & _). congruence. }
  assert (∀ a v u, <[NMsgWaiters t := QWait []]> Q !! a = Some v → u ∈ members v →
    Q !! a = Some v) as HQ.
  { intros a v u [[<- <-]|[_ Ha]]%lookup_insert_Some; [|done]. simpl. set_solver. }
  pose proof (aget_Some_range _ _ _ Hp) as Hrange.
  split; simpl.
  - by apply qrep_new; [apply (ki_rep _ _ Hk)|..].
  - intros a v u Ha Hu. pose proof (HQ a v u Ha Hu) as HQa.
    destruct (ki_mem _ _ Hk a v u HQa Hu) as (thu & Hthu & Hw). exists thu.
    rewrite lookup_insert_ne by congruence. done.
  - intros u thu [[<- <-]|[Hne Hu]]%lookup_insert_Some Hon; [by rewrite Hst in Hon|].
    rewrite lookup_insert_ne by done. by apply (ki_run _ _ Hk).
  - intros q Hqr. rewrite lookup_insert_ne by done. by apply (ki_cache _ _ Hk).
  - apply (ki_cache_range _ _ Hk).
  - intros u thu [[<- <-]|[Hne Hu]]%lookup_insert_Some.
    + rewrite !lookup_insert_eq. eauto 6.
    + destruct (ki_thread _ _ Hk u thu Hu) as (? & ? & Hn & l & Hl). split; [done|]. split; [done|].
      rewrite !lookup_insert_ne by congruence. split; [done|]. by exists l.
  - rewrite length_insert. apply (ki_table_length _ _ Hk).
  - intros q u Hqu Hu. pose proof (aget_Some_range _ _ _ Hqu) as Hqr.
    rewrite (aget_insert _ _ _ _ Hrange) in Hqu by lia. case_decide as Heq.
    + simplify_eq. exists th. by rewrite lookup_insert_eq.
    + destruct (ki_table _ _ Hk q u Hqu Hu) as (thu & Hthu & Hpp). exists thu.
      rewrite lookup_insert_ne by congruence. done.
  - intros Ha. destruct (ki_active _ _ Hk Ha) as (tha & Hta & Hpa). exists tha.
    by rewrite lookup_insert_ne.
  - intros a v Ha Hne.
    destruct (members v) as [|u l] eqn:Hm; [constructor|]. rewrite <- Hm.
    assert (Q !! a = Some v) as HQa by (apply (HQ a v u); [done|rewrite Hm; by left]).
    rewrite (sorted_by_ext _ (prio_of (threads s))); [by apply (ki_sorted _ _ Hk a)|].
    intros w Hw. unfold prio_of. rewrite lookup_insert_ne; [done|].
    intros <-. by destruct (Hd a v HQa).
Qed.

(** ** The search for a pid *)

Lemma find_pid_ok n i s :
  length (sched_threads s) = 33%nat → 0 < i → i + Z.of_nat n ≤ 33 →
  ∃ p, find_pid n i s = Done s p ∧
    ((i ≤ p < i + Z.of_nat n ∧ aget (sched_threads s) p = Some 0 ∧
      ∀ j, i ≤ j < p → ∃ t, aget (sched_threads s) j = Some t ∧ t ≠ 0) ∨
     (p = KERNEL_PID_UNDEF ∧
      ∀ j, i ≤ j < i + Z.of_nat n → ∃ t, aget (sched_threads s) j = Some t ∧ t ≠ 0)).
Proof.
  intros Hlen. revert i. induction n as [|n IH]; intros i Hi Hn; cbn [find_pid].
  { exists KERNEL_PID_UNDEF. split; [done|]. right. split; [done|]. intros j Hj. lia. }
  destruct (aget (sched_threads s) i) as [t|] eqn:Ht.
  2: { pose proof (aget_in (sched_threads s) i ltac:(lia)) as [x Hx]. congruence. }
  unfold read_sched_threads at 1. erewrite bind_Done; [|unfold lift; rewrite Ht; reflexivity].
  cbn beta. destruct (Z.eqb_spec t 0) as [->|Hne].
  - exists i. split; [done|]. left. split; [lia|]. split; [done|]. intros j Hj. lia.
  - destruct (IH (i + 1)) as (p & Hrun & Hp); [lia|lia|]. exists p. split; [done|].
    destruct Hp as [(Hr & H0 & Hlow)|(-> & Hall)].
    + left. split; [lia|]. split; [done|]. intros j Hj.
      destruct (decide (j = i)) as [->|]; [by exists t|]. apply Hlow. lia.
    + right. split; [done|]. intros j Hj.
      destruct (decide (j = i)) as [->|]; [by exists t|]. apply Hall. lia.
Qed.

(** The lowest free pid. *)
Definition lowest_free (s : kernel) (p : Z) : Prop :=
  KERNEL_PID_FIRST ≤ p ≤ KERNEL_PID_LAST ∧ aget (sched_threads s) p = Some 0 ∧
  ∀ j, KERNEL_PID_FIRST ≤ j < p → ∃ t, aget (sched_threads s) j = Some t ∧ t ≠ 0.

Lemma find_pid_lowest s p :
  length (sched_threads s) = 33%nat → lowest_free s p →
  find_pid (Z.to_nat MAXTHREADS) KERNEL_PID_FIRST s = Done s p.
Proof.
  intros Hlen (Hr & Hp & Hlow). unfold KERNEL_PID_LAST, KERNEL_PID_FIRST, MAXTHREADS, KERNEL_PID_UNDEF in *.
  destruct (find_pid_ok 32 1 s) as (q & Hq & Hcase); [done|lia|lia|].
  change (find_pid 32 1 s = Done s p). rewrite Hq. f_equal.
  destruct Hcase as [(Hqr & Hq0 & Hqlow)|(-> & Hall)].
  - destruct (Z.lt_trichotomy p q) as [?|[?|?]]; [|done|].
    + destruct (Hqlow p) as (t & ? & ?); [lia|]. congruence.
    + destruct (Hlow q) as (t & ? & ?); [lia|]. congruence.
  - destruct (Hall p) as (t & ? & ?); [lia|]. congruence.
Qed.

(** ** thread_create *)

(** The address of the control block. *)
Definition tcb_addr (stack stacksize : Z) : Z :=
  let '(stack, stacksize) := tcb_layout stack stacksize in stack + stacksize.

Section Create.
Variable thread_stack_init : Z → Z → Z → Z → Z.
Variable stale_flags : Z → Z.
#[local] Abbreviation thread_create := (thread_create thread_stack_init stale_flags).

Definition new_thread (stack stacksize prio function arg p : Z) : thread_t :=
  Thread STATUS_STOPPED prio p (u16 (stale_flags (tcb_addr stack stacksize))) 0
    (Cib 0 0 (2 ^ 32 - 1)) 0
    (thread_stack_init function arg (tcb_layout stack stacksize).1 (tcb_layout stack stacksize).2).

(** How [thread_create] leaves its critical section. *)
Definition create_finish (fl prio : Z) (state : bool) (p : Z) : M Z :=
  if negb (Z.land fl THREAD_CREATE_SLEEPING =? 0) then irq_restore state;; mret p
  else if Z.land fl THREAD_CREATE_WOUT_YIELD =? 0
  then irq_restore state;; sched_switch prio;; mret p
  else irq_restore state;; mret p.

Definition create_status (fl : Z) : thread_status_t :=
  if negb (Z.land fl THREAD_CREATE_SLEEPING =? 0) then STATUS_SLEEPING else STATUS_PENDING.

Lemma thread_create_error s stack stacksize prio fl function arg :
  SCHED_PRIO_LEVELS ≤ prio →
  thread_create stack stacksize prio fl function arg s = Done s (- EINVAL).
Proof. intros Hp. unfold Sched.thread_create. by rewrite (proj2 (Z.leb_le _ _) Hp). Qed.

Lemma new_thread_ok M stack stacksize prio function arg p :
  thread_ok M (new_thread stack stacksize prio function arg p).
Proof.
  split; [done|]. split; [|unfold slots_ok; simpl; intros i Hi; change (cib_size _) with 0 in Hi; lia].
  split; [by unfold uint|]. split; [by unfold uint|]. split; [done|]. by left.
Qed.

Lemma ipc_add_thread s Q p t th :
  kinv s Q → ipc_ok s Q → fresh_thread s Q t → thread_ok (mem s) th →
  aget (sched_threads s) p = Some 0 → pid th = p →
  ipc_ok (add_thread s p t th) (<[NMsgWaiters t := QWait []]> Q).
Proof.
  intros Hk [H1 H2 H3 H4] [Hne0 Hnew _] Hok Hp Hpid. pose proof (aget_Some_range _ _ _ Hp) as Hpr.
  split; simpl.
  - intros u thu [[<- <-]|[_ Hu]]%lookup_insert_Some; [done|by eapply H1].
  - intros b mb Hmb. rewrite !lookup_insert_ne by done. by apply H2.
  - intros b l u thu Hl Hin [[<- <-]|[_ Hu]]%lookup_insert_Some;
      rewrite lookup_insert_ne in Hl by done; [|by eapply H3].
    destruct (ki_mem _ _ Hk _ _ _ Hl Hin) as (th' & Hth' & _). congruence.
  - intros u thu [[<- <-]|[Hne Hu]]%lookup_insert_Some Hst.
    + rewrite Hpid, aget_insert, decide_True by lia. done.
    + pose proof (H4 u thu Hu Hst) as Hslot. pose proof (aget_Some_range _ _ _ Hslot).
      rewrite aget_insert by lia. case_decide as Heq; [|done]. rewrite <- Heq, Hp in Hslot.
      injection Hslot as <-. by destruct (ki_thread _ _ Hk _ _ Hu).
Qed.

Lemma thread_create_enters s stack stacksize prio fl function arg p :
  0 ≤ prio < SCHED_PRIO_LEVELS → length (sched_threads s) = 33%nat → lowest_free s p →
  let t := tcb_addr stack stacksize in
  thread_create stack stacksize prio fl function arg s =
    (sched_set_status t (create_status fl);; create_finish fl prio (irq_on s) p)
      (set_sched_num_threads (i32 (sched_num_threads s + 1)) (set_irq_on false
        (add_thread s p t (new_thread stack stacksize prio function arg p)))).
Proof.
  intros Hprio Hlen Hfree t. pose proof Hfree as (Hpr & Hslot & _).
  assert (u8 prio = prio) as Hu8 by (apply wrap_small; unfold uint, SCHED_PRIO_LEVELS in *; lia).
  assert (u16 prio = prio) as Hu16 by (apply wrap_small; unfold uint, SCHED_PRIO_LEVELS in *; lia).
  unfold Sched.thread_create, create_status, create_finish.
  rewrite (proj2 (Z.leb_gt _ _)) by lia. cbv zeta.
  unfold new_thread, add_thread, t, tcb_addr. clear t.
  destruct (tcb_layout stack stacksize) as [st sz]. cbn [fst snd]. generalize (st + sz) as t. intros t.
  rewrite Hu8, Hu16. kstep.
  erewrite bind_Done; [|apply (find_pid_lowest (set_irq_on false s) p); [exact Hlen|exact Hfree]].
  cbn beta. rewrite (proj2 (Z.eqb_neq p KERNEL_PID_UNDEF)) by (unfold KERNEL_PID_FIRST, KERNEL_PID_UNDEF in *; lia).
  erewrite bind_Done; [|unfold write_sched_threads; simpl; rewrite aset_in;
    [reflexivity|by eapply aget_Some_range]]. cbn beta.
  do 5 kstep.
  match goal with |- _ ?s1 = _ ?s2 => assert (s1 = s2) as -> by reflexivity end.
  by destruct (Z.land fl THREAD_CREATE_SLEEPING =? 0).
Qed.

(** Up to the end of its critical section, [thread_create] adds the thread under
    the lowest free pid, sleeping or at the end of its run queue. *)
Lemma thread_create_adds s Q stack stacksize prio fl function arg p :
  kinv s Q → ipc_ok s Q → 0 ≤ prio < SCHED_PRIO_LEVELS →
  fresh_thread s Q (tcb_addr stack stacksize) →
  sched_active_thread s ≠ tcb_addr stack stacksize →
  lowest_free s p →
  let t := tcb_addr stack stacksize in
  let th := new_thread stack stacksize prio function arg p in
  let s1 := set_sched_num_threads (i32 (sched_num_threads s + 1))
              (set_irq_on false (add_thread s p t th)) in
  let Q1 := <[NMsgWaiters t := QWait []]> Q in
  ∃ h c Q2, let s2 := set_threads (<[t := set_status (create_status fl) th]> (threads s1))
                        (set_runqueue_bitcache c (set_nodes h s1)) in
    thread_create stack stacksize prio fl function arg s =
      create_finish fl prio (irq_on s) p s2 ∧ kinv s2 Q2 ∧ ipc_ok s2 Q2 ∧
    (Q2 = Q1 ∧ create_status fl = STATUS_SLEEPING ∨
     ∃ l, Q !! NRq prio = Some (QRun l) ∧ Q2 = <[NRq prio := QRun (l ++ [t])]> Q1 ∧
       create_status fl = STATUS_PENDING).
Proof.
  intros Hk Hipc Hprio Hfresh Hact Hfree t th s1 Q1. pose proof Hfree as (Hpr & Hslot & _).
  assert (kinv s1 Q1) as Hk1.
  { apply (kinv_ext (add_thread s p t th)); try done. by apply kinv_add_thread. }
  assert (ipc_ok s1 Q1) as Hipc1.
  { apply (ipc_ext (add_thread s p t th)); try done. apply ipc_add_thread; try done.
    apply new_thread_ok. }
  assert (threads s1 !! t = Some th) as Ht1 by apply lookup_insert_eq.
  assert (aget (sched_threads s1) (pid th) = Some t) as Hpid1.
  { pose proof (aget_Some_range _ _ _ Hslot). simpl. rewrite aget_insert, decide_True by lia. done. }
  rewrite (thread_create_enters s _ _ _ _ _ _ p Hprio (ki_table_length _ _ Hk) Hfree).
  fold t th s1.
  destruct (create_status fl) eqn:Hcs; unfold create_status in Hcs; case_match; try done.
  - exists (nodes s1), (runqueue_bitcache s1), Q1.
    split; [|split; [|split; [apply ipc_status; first [done|by auto]|by left]]].
    + erewrite bind_Done; [|by apply (set_status_keep t th)]. f_equal.
    + apply (kinv_ext (set_threads (<[t := set_status STATUS_SLEEPING th]> (threads s1)) s1)); try done.
      apply kinv_set_status_detached; try done. apply (kinv_detached_status s1 Q1 t th); try done.
      intros []; simpl; naive_solver.
  - destruct (set_status_wake s1 Q1 t th STATUS_PENDING) as (h & l & c & Hset & Hl & Hk2); try done.
    { apply (kinv_detached_status s1 Q1 t th); try done. intros []; simpl; naive_solver. }
    eexists h, c, _. split; [by erewrite bind_Done|]. split; [exact Hk2|].
    split; [apply ipc_status; [by apply ipc_runqueue|done|done|by auto]|]. right. exists l. split; [|done]. unfold Q1 in Hl. by rewrite lookup_insert_ne in Hl.
Qed.

(** ** Safety *)

Lemma free_pid_or_none s : length (sched_threads s) = 33%nat →
  (∃ p, lowest_free s p) ∨
  find_pid (Z.to_nat MAXTHREADS) KERNEL_PID_FIRST s = Done s KERNEL_PID_UNDEF.
Proof.
  intros Hlen. destruct (find_pid_ok 32 1 s) as (p & Hrun & Hcase); [done|lia|lia|].
  destruct Hcase as [(Hr & H0 & Hlow)|(-> & _)]; [|by right].
  left. exists p. split; [unfold KERNEL_PID_LAST, KERNEL_PID_FIRST, KERNEL_PID_UNDEF, MAXTHREADS in *; lia|].
  split; [done|]. intros j Hj. apply Hlow. unfold KERNEL_PID_FIRST, KERNEL_PID_UNDEF in Hj. lia.
Qed.

Lemma thread_create_safe idle s Q stack stacksize prio fl function arg :
  sysinv idle s Q → 0 ≤ prio → fresh_thread s Q (tcb_addr stack stacksize) →
  safe idle (sched_active_thread s) s Q
    (thread_create stack stacksize prio fl function arg s) (λ _ _ _, True).
Proof.
  intros Hs Hp0 Hfresh. pose proof Hs as [Hc Hirq Hpend (me & Hme & Hon)].
  destruct (Z.leb_spec SCHED_PRIO_LEVELS prio) as [Hp|Hp].
  { rewrite thread_create_error by done. by exists Q. }
  pose proof (ki_table_length _ _ (cr_kinv _ _ _ Hc)) as Hlen.
  destruct (free_pid_or_none s Hlen) as [(p & Hfree)|Hnone].
  2: { unfold Sched.thread_create. rewrite (proj2 (Z.leb_gt _ _)) by done.
       destruct (tcb_layout stack stacksize) as [st sz]. kstep. rewrite Hirq.
       erewrite bind_Done.
       2: { change (sched_threads s) with (sched_threads (set_irq_on false s)) in Hlen.
            destruct (free_pid_or_none (set_irq_on false s) Hlen) as [(p & Hfree)|Hx]; [|exact Hx].
            exfalso. pose proof (find_pid_lowest s p Hlen Hfree) as Hy. rewrite Hnone in Hy.
            destruct Hfree as (Hr & _). unfold KERNEL_PID_FIRST, KERNEL_PID_UNDEF in *. injection Hy as <-. lia. }
       cbn beta. rewrite Z.eqb_refl.
       eapply safe_mono; [eapply safe_restore_ret; [by apply crit_enter| |grow (grows_refl s Q)|done]|done].
       by exists me. }
  assert (sched_active_thread s ≠ tcb_addr stack stacksize) as Hact.
  { intros Heq. rewrite Heq, (fr_thread _ _ _ Hfresh) in Hme. done. }
  destruct (thread_create_adds s Q stack stacksize prio fl function arg p (cr_kinv _ _ _ Hc) (cr_ipc _ _ _ Hc))
    as (h & c & Q2 & Hrun & Hk2 & Hipc2 & Hcase); try done.
  rewrite Hrun, Hirq. set (t := tcb_addr stack stacksize) in *. set (s2 := set_threads _ _) in *.
  set (th := new_thread _ _ _ _ _ _) in *.
  assert (∀ u, u ≠ t → threads s2 !! u = threads s !! u) as Ht2.
  { intros u Hu. simpl. by rewrite !lookup_insert_ne. }
  assert (crit idle s2 Q2) as Hc2.
  { split; [done|done| |apply Hc|].
    - intros tha Hta Hona. simpl sched_active_thread in Hta |- *. rewrite Ht2 in Hta by done.
      destruct (cr_first _ _ _ Hc tha Hta Hona) as (la & Hla).
      destruct Hcase as [(-> & _)|(l & Hl & -> & _)].
      + exists la. by rewrite lookup_insert_ne.
      + destruct (decide (prio = priority tha)) as [->|Hne].
        * rewrite Hla in Hl. injection Hl as <-. exists (la ++ [t]). by rewrite lookup_insert_eq.
        * exists la. by rewrite !lookup_insert_ne by congruence.
    - destruct (cr_idle _ _ _ Hc) as (thi & Hti & Honi). exists thi. split; [|done]. rewrite Ht2; [done|].
      intros ->. by rewrite (fr_thread _ _ _ Hfresh) in Hti. }
  assert (grows s Q s2 Q2) as Hg2.
  { assert (∀ u q, u ∈ dom (threads s) → aget (sched_threads s2) q = Some u → aget (sched_threads s) q = Some u) as Htab.
    { intros u q Hu Hq. simpl in Hq. pose proof (aget_Some_range _ _ _ Hq) as Hr. rewrite length_insert in Hr.
      rewrite aget_insert in Hq by (try lia; destruct Hfree as (_ & Hslot & _); apply aget_Some_range in Hslot; lia).
      case_decide; [|done]. injection Hq as <-. apply elem_of_dom in Hu as [thu Hu].
      by rewrite (fr_thread _ _ _ Hfresh) in Hu. }
    destruct Hcase as [(-> & _)|(l & Hl & -> & _)]; (split; [..|exact Htab]); simpl; rewrite ?dom_insert_L; set_solver. }
  assert (runnable s2 (sched_active_thread s2)) as Hr2.
  { exists me. split; [|done]. simpl sched_active_thread. by rewrite Ht2. }
  unfold create_finish. case_match; [|case_match];
    (eapply safe_mono; [first [eapply safe_restore_ret|eapply safe_restore_switch_ret]; done|done]).
Qed.
End Create.

(** ** Start of the system *)

Definition THREAD_PRIORITY_MAIN : Z := THREAD_PRIORITY_MIN - SCHED_PRIO_LEVELS / 2.
Definition THREAD_CREATE_STACKTEST : Z := 8.

Section KernelInit.
Variable thread_stack_init : Z → Z → Z → Z → Z.
Variable stale_flags : Z → Z.
(** The static stacks and the entry points. *)
Variables idle_stack idle_size main_stack main_size idle_thread main_trampoline : Z.

Definition kernel_init : M unit :=
  irq_disable;;
  thread_create thread_stack_init stale_flags idle_stack idle_size THREAD_PRIORITY_IDLE
    (Z.lor THREAD_CREATE_WOUT_YIELD THREAD_CREATE_STACKTEST) idle_thread 0;;
  thread_create thread_stack_init stale_flags main_stack main_size THREAD_PRIORITY_MAIN
    (Z.lor THREAD_CREATE_WOUT_YIELD THREAD_CREATE_STACKTEST) main_trampoline 0;;
  cpu_switch_context_exit.
End KernelInit.

(** Zeroed memory: empty run queues and the static objects [objs]. *)
Definition reset_anchors (objs : list node) : list node := (NRq <$> seqZ 0 SCHED_PRIO_LEVELS) ++ objs.

Definition nodes_reset (objs : list node) : heap node :=
  list_to_map ((λ a, (a, None)) <$> reset_anchors objs).
#[global] Arguments reset_anchors : simpl never.
#[global] Arguments nodes_reset : simpl never.

Definition static_queue (a : node) : absq :=
  match a with NRq _ => QRun [] | NMutex _ => QMutex None | _ => QWait [] end.

Definition static_anchor (a : node) : bool :=
  match a with NMutex _ | NCond _ | NReaders _ | NWriters _ => true | _ => false end.

Definition kernel_reset (objs : list node) (mem : gmap Z msg_t) (mboxes : gmap Z mbox_t)
    (rmutexes : gmap Z rmutex_t) : kernel :=
  Kernel 0 0 (replicate 33 0) 0 0 0
    (nodes_reset objs) ∅ mem mboxes rmutexes true false false.

Definition queues_reset (objs : list node) : queues :=
  list_to_map ((λ a, (a, static_queue a)) <$> reset_anchors objs).

Lemma list_to_map_fun {A} (f : node → A) (l : list node) a v :
  (list_to_map ((λ a, (a, f a)) <$> l) : gmap node A) !! a = Some v ↔ a ∈ l ∧ v = f a.
Proof.
  induction l as [|b l IH]; simpl; [rewrite lookup_empty; set_solver|].
  destruct (decide (b = a)) as [->|Hne].
  - rewrite lookup_insert_eq. split; [intros [= ->]; set_solver|]. by intros [_ ->].
  - rewrite lookup_insert_ne by done. rewrite IH. set_solver.
Qed.

Lemma queues_reset_lookup objs a v :
  queues_reset objs !! a = Some v ↔ a ∈ reset_anchors objs ∧ v = static_queue a.
Proof. apply list_to_map_fun. Qed.

Lemma reset_runqueue objs p :
  0 ≤ p < SCHED_PRIO_LEVELS → queues_reset objs !! NRq p = Some (QRun []).
Proof.
  intros Hp. apply queues_reset_lookup. split; [|done]. unfold reset_anchors.
  apply elem_of_app. left. apply list_elem_of_fmap. exists p. split; [done|]. apply elem_of_seqZ. lia.
Qed.

Lemma static_members a : members (static_queue a) = [].
Proof. by destruct a. Qed.

Lemma kinv_reset objs mem mboxes rmutexes :
  Forall static_anchor objs →
  kinv (kernel_reset objs mem mboxes rmutexes) (queues_reset objs).
Proof.
  intros Hobjs. split;
    cbn [nodes threads runqueue_bitcache sched_threads sched_active_thread kernel_reset].
  - split.
    + intros a v [Ha ->]%queues_reset_lookup. split.
      * apply elem_of_app in Ha as [(p & -> & Hp)%list_elem_of_fmap|Ha].
        -- apply elem_of_seqZ in Hp. simpl. lia.
        -- rewrite Forall_forall in Hobjs. specialize (Hobjs a Ha). by destruct a.
      * assert (nodes_reset objs !! a = Some None) as Hn
          by (by apply list_to_map_fun).
        destruct a; cbn [static_queue rep]; try exact Hn; by first [apply clist_empty|apply slist_empty].
    + intros a1 v1 a2 v2 t [_ ->]%queues_reset_lookup _. rewrite static_members. set_solver.
  - intros a v t [_ ->]%queues_reset_lookup. rewrite static_members. set_solver.
  - intros t th Ht. by rewrite lookup_empty in Ht.
  - intros p Hp. exists []. split; [by apply reset_runqueue|]. rewrite Z.bits_0. naive_solver.
  - unfold SCHED_PRIO_LEVELS. lia.
  - intros t th Ht. by rewrite lookup_empty in Ht.
  - done.
  - intros p t Hp Ht. unfold aget in Hp. destruct (0 <=? p); [|done].
    change (replicate 33 0 !! Z.to_nat p = Some t) in Hp. apply lookup_replicate in Hp as [-> _]. done.
  - done.
  - intros a v [_ ->]%queues_reset_lookup _. rewrite static_members. constructor.
Qed.

(** ** The first thread *)

Section Boot.
Variable thread_stack_init : Z → Z → Z → Z → Z.
Variable stale_flags : Z → Z.
Variables idle_stack idle_size main_stack main_size idle_thread main_trampoline : Z.
#[local] Abbreviation idle := (tcb_addr idle_stack idle_size).
#[local] Abbreviation main := (tcb_addr main_stack main_size).

(** The stacks, the static objects and the mailboxes of a program. *)
Record image_ok (objs : list node) (mem : gmap Z msg_t) (mboxes : gmap Z mbox_t) : Prop := {
  im_idle : idle ≠ 0;
  im_main : main ≠ 0;
  im_disjoint : idle ≠ main;
  im_objs : Forall static_anchor objs;
  im_mboxes b mb : mboxes !! b = Some mb →
    mbox_ok mem mb ∧ (NReaders b ∈ objs) ∧ (NWriters b ∈ objs)
}.

Lemma ipc_reset objs mem mboxes rmutexes :
  image_ok objs mem mboxes → ipc_ok (kernel_reset objs mem mboxes rmutexes) (queues_reset objs).
Proof.
  intros [_ _ _ Hobjs Hmb]. split; cbn [threads Kernel.mem Kernel.mboxes kernel_reset].
  - intros t th Ht. by rewrite lookup_empty in Ht.
  - intros b mb Hb. destruct (Hmb b mb Hb) as (Hok & Hr & Hw). split; [done|].
    split; exists []; apply queues_reset_lookup; (split; [|done]); unfold reset_anchors; set_solver.
  - intros b l t th _ _ Ht. by rewrite lookup_empty in Ht.
  - intros t th Ht. by rewrite lookup_empty in Ht.
Qed.

Lemma queues_reset_waiters objs t : Forall static_anchor objs → queues_reset objs !! NMsgWaiters t = None.
Proof.
  intros Hobjs. apply eq_None_not_Some. intros [v [Hin _]%queues_reset_lookup].
  apply elem_of_app in Hin as [(p & ? & _)%list_elem_of_fmap|Hin]; [done|].
  rewrite Forall_forall in Hobjs. by specialize (Hobjs _ Hin).
Qed.
(** One of the two thread creations of [kernel_init]. *)
Lemma create_boot s Q stack size prio function p :
  let fl := Z.lor THREAD_CREATE_WOUT_YIELD THREAD_CREATE_STACKTEST in
  let t := tcb_addr stack size in
  kinv s Q → ipc_ok s Q → irq_on s = false → 0 ≤ prio < SCHED_PRIO_LEVELS →
  fresh_thread s Q t → sched_active_thread s ≠ t → lowest_free s p →
  ∃ s' l, thread_create thread_stack_init stale_flags stack size prio fl function 0 s = Done s' p ∧
    Q !! NRq prio = Some (QRun l) ∧
    let Q' := <[NRq prio := QRun (l ++ [t])]> (<[NMsgWaiters t := QWait []]> Q) in
    kinv s' Q' ∧ ipc_ok s' Q' ∧
    threads s' = <[t := set_status STATUS_PENDING
      (new_thread thread_stack_init stale_flags stack size prio function 0 p)]> (threads s) ∧
    sched_threads s' = <[Z.to_nat p := t]> (sched_threads s) ∧
    irq_on s' = false ∧ in_isr s' = in_isr s ∧ yield_pending s' = yield_pending s ∧
    sched_active_thread s' = sched_active_thread s.
Proof.
  intros fl t Hk Hipc Hirq Hprio Hfresh Hact Hfree.
  destruct (thread_create_adds thread_stack_init stale_flags s Q stack size prio fl function 0 p)
    as (h & c & Q2 & -> & Hk2 & Hipc2 & Hcase); try done.
  destruct Hcase as [[_ Hcase]|(l & Hl & -> & _)]; [done|].
  eexists _, l. rewrite Hirq. split; [reflexivity|]. split; [done|].
  split; [by eapply kinv_ext, Hk2|]. split; [by eapply ipc_ext, Hipc2|].
  simpl. rewrite insert_insert_eq. done.
Qed.

Lemma kernel_init_runs objs mem mboxes rmutexes :
  image_ok objs mem mboxes →
  ∃ s k Q, kernel_init thread_stack_init stale_flags idle_stack idle_size main_stack main_size
      idle_thread main_trampoline (kernel_reset objs mem mboxes rmutexes) = Yield s k ∧
    sysinv idle s Q ∧ sched_active_thread s = main ∧ sched_active_pid s = 2 ∧
    Q !! NRq THREAD_PRIORITY_MAIN = Some (QRun [main]) ∧
    Q !! NRq THREAD_PRIORITY_IDLE = Some (QRun [idle]) ∧
    runs_best s Q ∧ Q !! NMsgWaiters main = Some (QWait []) ∧
    ∀ a, a ∈ objs → Q !! a = Some (static_queue a).
Proof.
  intros Him. pose proof Him as [Hi Hm Hdis Hobjs _].
  set (s0 := set_irq_on false (kernel_reset objs mem mboxes rmutexes)).
  assert (kinv s0 (queues_reset objs)) as Hk0 
    by (by apply (kinv_ext (kernel_reset objs mem mboxes rmutexes)), kinv_reset).
  assert (ipc_ok s0 (queues_reset objs)) as Hipc0 
    by (by apply (ipc_ext (kernel_reset objs mem mboxes rmutexes)), ipc_reset).
  destruct (create_boot s0 (queues_reset objs) idle_stack idle_size THREAD_PRIORITY_IDLE idle_thread 1)
    as (s1 & l1 & Hrun1 & Hl1 & Hk1 & Hipc1 & Hth1 & Htab1 & Hirq1 & Hisr1 & Hp1 & Ha1); try done.
  { split; [done|done|by apply queues_reset_waiters]. }
  { split; [done|]. split; [done|]. unfold KERNEL_PID_FIRST, KERNEL_PID_UNDEF. lia. }
  rewrite reset_runqueue in Hl1 by done. injection Hl1 as <-.
  destruct (create_boot s1 _ main_stack main_size THREAD_PRIORITY_MAIN main_trampoline 2 Hk1 Hipc1)
    as (s2 & l2 & Hrun2 & Hl2 & Hk2 & Hipc2 & Hth2 & Htab2 & Hirq2 & Hisr2 & Hp2 & Ha2); try done.
  { split; [done|by rewrite Hth1, lookup_insert_ne|].
    rewrite !lookup_insert_ne by congruence. by apply queues_reset_waiters. }
  { by rewrite Ha1. }
  { split; [done|]. rewrite Htab1. split; [done|]. intros j Hj.
    assert (j = 1) as -> by (unfold KERNEL_PID_FIRST, KERNEL_PID_UNDEF in Hj; lia). by exists idle. }
  rewrite !lookup_insert_ne, reset_runqueue in Hl2 by done. injection Hl2 as <-. simpl app in *.
  match type of Hk2 with kinv _ ?q => set (Q := q) in * end.
  set (s3 := set_irq_on true (set_irq_on false (set_irq_on true s2))).
  destruct (context_switch_ok idle s3 Q)
    as (p & t & s' & Hnext & Hs' & Hun & Hat & Hsw); try done.
  { by eapply kinv_ext, Hk2. }
  { by eapply ipc_ext, Hipc2. }
  { unfold s3. simpl. by rewrite Hisr2, Hisr1. }
  { unfold s3, runnable. simpl. rewrite Hth2, Hth1, lookup_insert_ne, lookup_insert_eq by done. eauto. }
  destruct (next_ready_unique Q p t THREAD_PRIORITY_MAIN main [] Hnext) as [-> ->]; [done|..].
  { by unfold Q; rewrite lookup_insert_eq. }
  { intros q Hq. change (0 ≤ q < 7) in Hq.
    assert (NRq THREAD_PRIORITY_MAIN ≠ NRq q) by (intros [= Heq]; change (7 = q) in Heq; lia).
    assert (NRq THREAD_PRIORITY_IDLE ≠ NRq q) by (intros [= Heq]; change (15 = q) in Heq; lia).
    unfold Q. rewrite !lookup_insert_ne by done.
    apply reset_runqueue. change (0 ≤ q < 16). lia. }
  assert (sched_active_thread s3 ≠ main) as Hne by (unfold s3; simpl; by rewrite Ha2, Ha1).
  rewrite decide_False in Hsw by done.
  exists s', (λ s'', Done s'' tt), Q. split; [|split; [done|split; [done|]]].
  - unfold kernel_init. kstep. erewrite bind_Done; [|exact Hrun1]. cbn beta.
    erewrite bind_Done; [|exact Hrun2]. cbn beta.
    rewrite switch_exit_boot; [exact Hsw|by rewrite Ha2, Ha1|by rewrite Hisr2, Hisr1|by rewrite Hp2, Hp1].
  - split; [|split; [|split; [|split; [|split]]]].
    + destruct (ki_active _ _ (cr_kinv _ _ _ (sy_crit _ _ _ Hs'))) as (th & Hth & <-);
        [by rewrite Hat|]. rewrite Hat in Hth. pose proof (us_threads _ _ Hun main) as Hsame.
      unfold s3 in Hsame. simpl in Hsame. rewrite Hth2, lookup_insert_eq, Hth in Hsame.
      by destruct Hsame as [->|(-> & _)].
    + unfold Q. by rewrite lookup_insert_eq.
    + unfold Q. rewrite lookup_insert_ne by done. rewrite lookup_insert_ne by done.
      by rewrite lookup_insert_eq.
    + exists THREAD_PRIORITY_MAIN. by rewrite Hat.
    + unfold Q. rewrite lookup_insert_ne by done. by rewrite lookup_insert_eq.
    + intros a Ha. pose proof Hobjs as Hst. rewrite Forall_forall in Hst. specialize (Hst a Ha).
      unfold Q. rewrite !lookup_insert_ne by (intros <-; done).
      apply queues_reset_lookup. split; [|done]. apply elem_of_app. by right.
Qed.

(** C6: Starting the system: [kernel_init] creates the idle and the main thread and
    switches to main, with pid 2; the kernel invariant holds from then on, both
    threads are ready at their priorities, main is the best one and all static
    objects are in their initial state. *)
Theorem kernel_init_boots objs mem mboxes rmutexes :
  image_ok objs mem mboxes →
  ∃ s k Q, kernel_init thread_stack_init stale_flags idle_stack idle_size main_stack main_size
      idle_thread main_trampoline (kernel_reset objs mem mboxes rmutexes) = Yield s k ∧
    sysinv idle s Q ∧ sched_active_thread s = main ∧ sched_active_pid s = 2 ∧
    Q !! NRq THREAD_PRIORITY_MAIN = Some (QRun [main]) ∧
    Q !! NRq THREAD_PRIORITY_IDLE = Some (QRun [idle]) ∧
    runs_best s Q ∧
    ∀ a, a ∈ objs → Q !! a = Some (static_queue a).
Proof.
  intros Him. destruct (kernel_init_runs objs mem mboxes rmutexes Him)
    as (s & k & Q & Hrun & Hs & Ha & Hp & Hmain & Hidle & Hbest & _ & Hobjs).
  by exists s, k, Q.
Qed.
End Boot.
