(* ===== verification/Mutex.v ===== *)
(** * Mutexes (core/mutex.c, core/include/mutex.h)

    A mutex is its queue: the null pointer when unlocked, the value
    [MUTEX_LOCKED] when locked without waiters, and the list of waiters, by
    priority, otherwise. *)

From S2P Require Import Prelude Bitarithm Cib LinkedList Clist Kernel Sched KernelInv WaitList SchedProps.

Definition _mutex_lock (mutex : Z) (blocking : bool) : M Z :=
  irqstate ← irq_disable;
  queue ← read_node (NMutex mutex);
  if negb (notnull queue) then
    on_nodes (λ h, set_next h (NMutex mutex) (Some NLocked));;
    irq_restore irqstate;;
    mret 1
  else if blocking then
    me ← get sched_active_thread;
    sched_set_status me STATUS_MUTEX_BLOCKED;;
    queue ← read_node (NMutex mutex);
    (if decide (queue = Some NLocked) then
       on_nodes (λ h, set_next h (NMutex mutex) (Some (NThread me)));;
       on_nodes (λ h, set_next h (NThread me) None)
     else thread_add_to_list (NMutex mutex) me);;
    irq_restore irqstate;;
    thread_yield_higher;;
    mret 1
  else irq_restore irqstate;; mret 0.

Definition mutex_trylock (mutex : Z) : M Z := _mutex_lock mutex false.
Definition mutex_lock (mutex : Z) : M unit := _mutex_lock mutex true;; mret tt.

(** Taking the first waiter off the queue and waking it; its priority. *)
Definition mutex_wake_first (mutex : Z) : M Z :=
  next ← on_nodes_r (λ h, list_remove_head h (NMutex mutex));
  next ← lift next;
  process ← container_of next;
  sched_set_status process STATUS_PENDING;;
  queue ← read_node (NMutex mutex);
  (if negb (notnull queue)
   then on_nodes (λ h, set_next h (NMutex mutex) (Some NLocked)) else mret tt);;
  th ← get_thread process;
  mret (priority th).

Definition mutex_unlock (mutex : Z) : M unit :=
  irqstate ← irq_disable;
  queue ← read_node (NMutex mutex);
  if negb (notnull queue) then irq_restore irqstate
  else if decide (queue = Some NLocked) then
    on_nodes (λ h, set_next h (NMutex mutex) None);;
    irq_restore irqstate
  else
    process_priority ← mutex_wake_first mutex;
    irq_restore irqstate;;
    sched_switch (u16 process_priority).

Definition mutex_unlock_and_sleep (mutex : Z) : M unit :=
  irqstate ← irq_disable;
  queue ← read_node (NMutex mutex);
  (if notnull queue then
     if decide (queue = Some NLocked)
     then on_nodes (λ h, set_next h (NMutex mutex) None)
     else mutex_wake_first mutex;; mret tt
   else mret tt);;
  me ← get sched_active_thread;
  sched_set_status me STATUS_SLEEPING;;
  irq_restore irqstate;;
  thread_yield_higher.

(** ** The queue of a mutex *)

Lemma mutex_node s Q m o :
  kinv s Q → Q !! NMutex m = Some (QMutex o) →
  nodes s !! NMutex m = Some (match o with
    | None => None
    | Some [] => Some NLocked
    | Some (t :: _) => Some (NThread t) end).
Proof.
  intros Hk Hm. destruct (qr_rep _ _ (ki_rep _ _ Hk) _ _ Hm) as [_ Hr].
  destruct o as [[|t l]|]; simpl in Hr; [done| |done]. by destruct Hr as (Hr & _).
Qed.

Section Mutex.
Context (idle : Z).

Lemma ipc_mutex s Q m v : ipc_ok s Q → ipc_ok s (<[NMutex m := v]> Q).
Proof. intros Hipc. by apply ipc_insert_wait. Qed.

(** Setting the queue pointer of a mutex without waiters. *)
Lemma crit_mutex_set s Q m o o' v :
  crit idle s Q → Q !! NMutex m = Some (QMutex o) →
  (o = None ∨ o = Some []) → (o' = None ∧ v = None ∨ o' = Some [] ∧ v = Some NLocked) →
  on_nodes (λ h, set_next h (NMutex m) v) s = Done (set_nodes (<[NMutex m := v]> (nodes s)) s) tt ∧
  crit idle (set_nodes (<[NMutex m := v]> (nodes s)) s) (<[NMutex m := QMutex o']> Q).
Proof.
  intros Hc Hm Ho Ho'. pose proof Hc as [Hk Hipc _ _ _].
  pose proof (mutex_node s Q m o Hk Hm) as Hn. split.
  - apply on_nodes_ok. by eapply set_next_ok.
  - apply crit_queue; [done| |done|by apply ipc_mutex].
    eapply kinv_set_queue; [done|exact Hm|done|done|..].
    + destruct Ho' as [[-> ->]|[-> ->]]; simpl; by rewrite lookup_insert_eq.
    + intros n Hn' _. apply lookup_insert_ne. intros <-. apply Hn'. by left.
    + by eapply (dom_insert_lookup_L (D := gset node)).
    + destruct Ho' as [[-> ->]|[-> ->]]; simpl; set_solver.
    + destruct Ho' as [[-> ->]|[-> ->]]; constructor.
Qed.

(** Queueing the blocked caller at a locked mutex. *)
Lemma crit_mutex_enqueue s Q m l t th :
  crit idle s Q → Q !! NMutex m = Some (QMutex (Some l)) → threads s !! t = Some th →
  status th = STATUS_MUTEX_BLOCKED → detached Q t →
  ∃ h, (queue ← read_node (NMutex m);
        if decide (queue = Some NLocked) then
          on_nodes (λ h, set_next h (NMutex m) (Some (NThread t)));;
          on_nodes (λ h, set_next h (NThread t) None)
        else thread_add_to_list (NMutex m) t) s = Done (set_nodes h s) tt ∧
    crit idle (set_nodes h s)
      (<[NMutex m := QMutex (Some (ins_prio (prio_of (threads s)) (priority th) t l))]> Q).
Proof.
  intros Hc Hm Ht Hst Hd. pose proof Hc as [Hk Hipc _ _ _].
  pose proof (mutex_node s Q m _ Hk Hm) as Hn.
  destruct (ki_thread _ _ Hk _ _ Ht) as (_ & _ & [v Hv] & _).
  destruct l as [|u l].
  - erewrite bind_Done; [|by apply read_node_ok]. cbn beta. rewrite decide_True by done.
    erewrite bind_Done; [|apply on_nodes_ok; by eapply set_next_ok].
    erewrite on_nodes_ok; [|eapply set_next_ok; simpl; rewrite lookup_insert_ne by done; exact Hv].
    eexists. split; [reflexivity|]. simpl nodes.
    apply crit_queue; [done| |done|by apply ipc_mutex].
    eapply kinv_set_queue; [done|exact Hm|done|done|..].
    + simpl. split; [by rewrite lookup_insert_ne, lookup_insert_eq|]. split.
      * apply chain_cons. split; [by rewrite lookup_insert_eq|done].
      * apply NoDup_cons. split; [set_solver|]. apply NoDup_singleton.
    + intros n Hn1 Hn2. unfold footprint in *. simpl in *. rewrite !lookup_insert_ne; set_solver.
    + rewrite (dom_insert_lookup_L (D := gset node)) by (rewrite lookup_insert_ne by done; by eexists).
      by rewrite (dom_insert_lookup_L (D := gset node)) by (by eexists).
    + intros w. simpl. rewrite list_elem_of_singleton. intros ->. right. split; [done|].
      exists th. done.
    + repeat constructor.
  - erewrite bind_Done; [|by apply read_node_ok]. cbn beta. rewrite decide_False by done.
    destruct (qr_rep _ _ (ki_rep _ _ Hk) _ _ Hm) as [_ Hr].
    destruct (wait_enqueue s Q (NMutex m) (u :: l) t th (λ l, QMutex (Some l))) as (h & Hadd & Hk'); try done.
    { intros h [|w q] Hq; done. }
    { by rewrite Hst. }
    exists h. split; [done|]. apply crit_queue; [done|done|done|by apply ipc_mutex].
Qed.

(** Taking the first waiter off the queue. *)
Lemma crit_mutex_dequeue s Q m t l :
  crit idle s Q → Q !! NMutex m = Some (QMutex (Some (t :: l))) →
  ∃ h, on_nodes_r (λ h, list_remove_head h (NMutex m)) s = Done (set_nodes h s) (Some (NThread t)) ∧
    let Q' := <[NMutex m := QMutex (match l with [] => None | _ => Some l end)]> Q in
    crit idle (set_nodes h s) Q' ∧ detached Q' t.
Proof.
  intros Hc Hm. pose proof Hc as [Hk Hipc _ _ _].
  destruct (qr_rep _ _ (ki_rep _ _ Hk) _ _ Hm) as [_ Hr]. simpl in Hr.
  destruct (list_remove_head_spec _ _ _ Hr) as (h & Hrm & Hs & Hf).
  assert (∀ o, o = (match l with [] => None | _ => Some l end) → members (QMutex o) = l) as Hmem.
  { intros o ->. by destruct l. }
  exists h. split; [by erewrite on_nodes_r_ok|]. intros Q'. split.
  - apply crit_queue; [done| |done|by apply ipc_mutex].
    eapply kinv_set_queue; [done|exact Hm|done|done|..].
    + destruct l as [|u l]; simpl; [by destruct Hs|exact Hs].
    + intros n Hn _. unfold footprint in Hn. simpl in Hn. apply Hf. set_solver.
    + unfold list_remove_head in Hrm. opt_cases; by eapply set_next_dom.
    + intros u. rewrite Hmem by done. intros Hu. left. simpl. by right.
    + rewrite Hmem by done. pose proof (ki_sorted _ _ Hk _ _ Hm) as Hsort. simpl in Hsort.
      eapply sorted_by_tail. by apply Hsort.
  - intros b w Hb Hin. apply lookup_insert_Some in Hb as [[<- <-]|[Hne Hb]].
    + rewrite Hmem in Hin by done. apply (rep_NoDup _ _ (QMutex (Some (t :: l)))) in Hr.
      simpl in *. by apply NoDup_cons in Hr as [? _].
    + apply Hne. apply (qr_disj _ _ (ki_rep _ _ Hk) _ _ b w t Hm Hb); [by left|done].
Qed.

(** The first waiter becomes runnable and the mutex stays locked, for it. *)
Lemma crit_mutex_wake s Q m t l :
  crit idle s Q → Q !! NMutex m = Some (QMutex (Some (t :: l))) →
  runnable s (sched_active_thread s) →
  ∃ th h c lr,
    threads s !! t = Some th ∧ status th = STATUS_MUTEX_BLOCKED ∧ sched_active_thread s ≠ t ∧
    Q !! NRq (priority th) = Some (QRun lr) ∧
    mutex_wake_first m s = Done (status_state s t th STATUS_PENDING h c) (priority th) ∧
    crit idle (status_state s t th STATUS_PENDING h c)
      (<[NRq (priority th) := QRun (lr ++ [t])]> (<[NMutex m := QMutex (Some l)]> Q)).
Proof.
  intros Hc Hm (me & Hme & Hon). pose proof Hc as [Hk _ _ _ _].
  destruct (ki_mem _ _ Hk _ _ t Hm) as (th & Hth & Hst & _); [by left|]. simpl in Hst.
  assert (sched_active_thread s ≠ t) as Hne.
  { intros Heq. rewrite Heq in Hme. simplify_eq. by rewrite Hst in Hon. }
  destruct (crit_mutex_dequeue s Q m t l Hc Hm) as (h & Hrm & Hc1 & Hd).
  destruct (crit_wake idle _ _ t th STATUS_PENDING Hc1 Hth) as (h2 & c & lr & Hset & Hlr & Hc2); try done.
  { by rewrite Hst. } { by rewrite Hst. }
  rewrite lookup_insert_ne in Hlr by done.
  set (s2 := set_threads _ _) in *.
  set (o := match l with [] => None | _ => Some l end) in *.
  assert ((<[NRq (priority th):=QRun (lr ++ [t])]> (<[NMutex m:=QMutex o]> Q)) !! NMutex m =
    Some (QMutex o)) as Hm2 by (by rewrite lookup_insert_ne, lookup_insert_eq).
  pose proof (mutex_node s2 _ m o (cr_kinv _ _ _ Hc2) Hm2) as Hn.
  exists th. unfold mutex_wake_first.
  assert (∀ r, (next ← on_nodes_r (λ h, list_remove_head h (NMutex m)); next ← lift next;
       process ← container_of next; sched_set_status process STATUS_PENDING;;
       queue ← read_node (NMutex m);
       (if negb (notnull queue) then on_nodes (λ h, set_next h (NMutex m) (Some NLocked)) else mret tt);;
       th ← get_thread process; mret (priority th)) s = r ↔
     ((if negb (notnull (match o with None => None | Some [] => Some NLocked | Some (u :: _) => Some (NThread u) end))
       then on_nodes (λ h, set_next h (NMutex m) (Some NLocked)) else mret tt);;
       th ← get_thread t; mret (priority th)) s2 = r) as Hrun.
  { intros r. erewrite bind_Done; [|exact Hrm]. cbn beta. kstep.
    erewrite bind_Done; [|reflexivity]. cbn beta. erewrite bind_Done; [|exact Hset]. cbn beta.
    erewrite bind_Done; [|by apply read_node_ok]. done. }
  destruct l as [|u l]; subst o; simpl in Hrun.
  - destruct (crit_mutex_set s2 _ m None (Some []) (Some NLocked) Hc2 Hm2) as [Hon2 Hc3]; [by left|by right|].
    exists (<[NMutex m := Some NLocked]> h2), c, lr. split; [done|]. split; [done|]. split; [done|].
    split; [done|]. split.
    + apply Hrun. erewrite bind_Done; [|exact Hon2]. cbn beta.
      erewrite bind_Done; [|apply get_thread_ok; simpl; by rewrite lookup_insert_eq]. done.
    + rewrite insert_insert_ne, insert_insert_eq in Hc3 by done. exact Hc3.
  - exists h2, c, lr. split; [done|]. split; [done|]. split; [done|]. split; [done|]. split; [|done].
    apply Hrun. kstep. erewrite bind_Done; [|apply get_thread_ok; simpl; by rewrite lookup_insert_eq]. done.
Qed.

(** ** The calls *)

(** Locking succeeds at once on an unlocked mutex. *)
Lemma mutex_lock_free s Q m b :
  sysinv idle s Q → Q !! NMutex m = Some (QMutex None) →
  ∃ s', _mutex_lock m b s = Done s' 1 ∧ sysinv idle s' (<[NMutex m := QMutex (Some [])]> Q) ∧
    s' = set_nodes (<[NMutex m := Some NLocked]> (nodes s)) s.
Proof.
  intros Hs Hm. pose proof (crit_enter _ _ _ Hs) as Hc. pose proof Hs as [_ Hirq Hp Hr].
  pose proof (mutex_node _ _ _ _ (cr_kinv _ _ _ Hc) Hm) as Hn.
  destruct (crit_mutex_set _ Q m None (Some []) (Some NLocked) Hc Hm) as [Hon Hc']; [by left|by right|].
  destruct (restore_ok idle _ _ Hc' Hp Hr) as [Hrest Hs']. eexists. split; [|split; [exact Hs'|]].
  - unfold _mutex_lock. kstep. rewrite Hirq. erewrite bind_Done; [|by apply read_node_ok].
    cbn [notnull negb]. erewrite bind_Done; [|exact Hon]. cbn beta.
    erewrite bind_Done; [|exact Hrest]. done.
  - destruct s; simpl in *. by subst.
Qed.

(** [mutex_trylock] on a locked mutex changes nothing. *)
Lemma mutex_trylock_locked s Q m l :
  sysinv idle s Q → Q !! NMutex m = Some (QMutex (Some l)) → _mutex_lock m false s = Done s 0.
Proof.
  intros Hs Hm. pose proof (crit_enter _ _ _ Hs) as Hc. pose proof Hs as [_ Hirq Hp Hr].
  pose proof (mutex_node _ _ _ _ (cr_kinv _ _ _ Hc) Hm) as Hn.
  unfold _mutex_lock. kstep. rewrite Hirq. erewrite bind_Done; [|by apply read_node_ok]. cbn beta.
  destruct l; cbn [notnull negb]; erewrite bind_Done; try (by eapply (irq_roundtrip idle)); done.
Qed.

(** The critical section of [mutex_lock] on a locked mutex. *)
Lemma mutex_lock_blocks s Q m l th :
  sysinv idle s Q → Q !! NMutex m = Some (QMutex (Some l)) → sched_active_thread s ≠ idle →
  threads s !! sched_active_thread s = Some th →
  ∃ h c lr, let me := sched_active_thread s in
    let s' := set_irq_on false (status_state s me th STATUS_MUTEX_BLOCKED h c) in
    let Q' := <[NMutex m := QMutex (Some (ins_prio (prio_of (threads s)) (priority th) me l))]>
                (<[NRq (priority th) := QRun lr]> Q) in
    Q !! NRq (priority th) = Some (QRun (me :: lr)) ∧ crit idle s' Q' ∧
    _mutex_lock m true s = (irq_restore true;; thread_yield_higher;; mret 1) s'.
Proof.
  intros Hs Hm Hidle Hth. pose proof (crit_enter _ _ _ Hs) as Hc.
  pose proof Hs as [_ Hirq Hp (th' & Hth' & Hon)]. assert (th' = th) as -> by congruence. clear Hth'.
  pose proof (mutex_node _ _ _ _ (cr_kinv _ _ _ Hc) Hm) as Hn.
  destruct (crit_block idle _ Q th STATUS_MUTEX_BLOCKED Hc Hth) as (h & c & lr & Hset & Hlr & Hc1 & Hd);
    try done. simpl in Hset, Hlr, Hc1, Hd.
  set (s1 := set_threads _ _) in *. set (Q1 := <[_:=_]> Q) in *. set (me := sched_active_thread s) in *.
  assert (threads s1 !! me = Some (set_status STATUS_MUTEX_BLOCKED th)) as Hth1 by (simpl; by rewrite lookup_insert_eq).
  assert (Q1 !! NMutex m = Some (QMutex (Some l))) as Hm1 by (unfold Q1; by rewrite lookup_insert_ne).
  destruct (crit_mutex_enqueue s1 Q1 m l me _ Hc1 Hm1 Hth1 eq_refl Hd) as (h2 & Henq & Hc2).
  exists h2, c, lr. split; [done|]. split.
  - cbn [s1 threads set_threads priority set_status] in Hc2.
    rewrite ins_prio_status in Hc2 by done. exact Hc2.
  - unfold _mutex_lock. kstep. rewrite Hirq. erewrite bind_Done; [|by apply read_node_ok]. cbn beta.
    replace (negb _) with false by (by destruct l). cbn beta iota. kstep.
    erewrite bind_Done; [|exact Hset]. cbn beta.
    assert (∀ B C (m1 : M B) (f : B → M unit) (g : M C) s0 s1,
      (m1 ≫= f) s0 = Done s1 tt → (m1 ≫= λ q, f q;; g) s0 = g s1) as Hassoc.
    { intros B C m1 f g sa sb. unfold mbind, M_bind. destruct (m1 sa) as [|sc b|]; simpl; [done| |done].
      by intros ->. }
    by rewrite (Hassoc _ _ _ _ _ _ _ Henq).
Qed.

(** C2: Locking takes a free mutex.  A locked one blocks the caller, which is queued
    after the waiters of equal or better priority while another thread runs, and
    returns when it is resumed; [mutex_trylock] returns 0 without effect. *)
Theorem mutex_lock_outcome s Q m o th :
  sysinv idle s Q → Q !! NMutex m = Some (QMutex o) → sched_active_thread s ≠ idle →
  threads s !! sched_active_thread s = Some th →
  match o with
  | None => ∃ s', mutex_lock m s = Done s' tt ∧ mutex_trylock m s = Done s' 1 ∧
      sysinv idle s' (<[NMutex m := QMutex (Some [])]> Q)
  | Some l => mutex_trylock m s = Done s 0 ∧
      ∃ s1 lr, Q !! NRq (priority th) = Some (QRun (sched_active_thread s :: lr)) ∧
        threads s1 = <[sched_active_thread s := set_status STATUS_MUTEX_BLOCKED th]> (threads s) ∧
        suspends idle (mutex_lock m s) tt s1
          (<[NMutex m := QMutex (Some (ins_prio (prio_of (threads s)) (priority th)
                                        (sched_active_thread s) l))]>
             (<[NRq (priority th) := QRun lr]> Q))
  end.
Proof.
  intros Hs Hm Hidle Hth. destruct o as [l|].
  - split; [exact (mutex_trylock_locked s Q m l Hs Hm)|].
    destruct (mutex_lock_blocks s Q m l th Hs Hm Hidle Hth) as (h & c & lr & Hlr & Hc & Hrun).
    eexists _, lr. split; [done|]. split; [|apply (suspends_bind _ _ _ _ _ _ 1); [|done]].
    2: { rewrite Hrun. eapply restore_yield_suspends; [exact Hc|apply Hs| |].
         - simpl. by rewrite lookup_insert_eq.
         - done. }
    done.
  - destruct (mutex_lock_free s Q m true Hs Hm) as (s1 & Hrun1 & Hs1 & Heq1).
    destruct (mutex_lock_free s Q m false Hs Hm) as (s2 & Hrun2 & Hs2 & Heq2).
    assert (s1 = s2) as <- by congruence.
    exists s1. split; [unfold mutex_lock; by erewrite bind_Done|]. split; [done|done].
Qed.

(** What [mutex_unlock] does, up to the end of its critical section. *)
Lemma mutex_unlock_runs s Q m o :
  sysinv idle s Q → Q !! NMutex m = Some (QMutex o) →
  match o with
  | None => mutex_unlock m s = Done s tt
  | Some [] => ∃ s', mutex_unlock m s = Done s' tt ∧
      s' = set_nodes (<[NMutex m := None]> (nodes s)) s ∧ sysinv idle s' (<[NMutex m := QMutex None]> Q)
  | Some (t :: l) => ∃ th s1 lr, threads s !! t = Some th ∧ status th = STATUS_MUTEX_BLOCKED ∧
      sched_active_thread s ≠ t ∧ Q !! NRq (priority th) = Some (QRun lr) ∧
      sched_active_thread s1 = sched_active_thread s ∧
      threads s1 = <[t := set_status STATUS_PENDING th]> (threads s) ∧
      mem s1 = mem s ∧ mboxes s1 = mboxes s ∧ (rmutexes s1 = rmutexes s ∧ sched_threads s1 = sched_threads s) ∧
      sysinv idle s1 (<[NRq (priority th) := QRun (lr ++ [t])]> (<[NMutex m := QMutex (Some l)]> Q)) ∧
      mutex_unlock m s = sched_switch (priority th) s1
  end.
Proof.
  intros Hs Hm. pose proof (crit_enter _ _ _ Hs) as Hc. pose proof Hs as [_ Hirq Hp Hr].
  pose proof (mutex_node _ _ _ _ (cr_kinv _ _ _ Hc) Hm) as Hn.
  destruct o as [[|t l]|].
  - destruct (crit_mutex_set _ Q m (Some []) None None Hc Hm) as [Hon Hc']; [by right|by left|].
    destruct (restore_ok idle _ _ Hc' Hp Hr) as [Hrest Hs'].
    eexists. split; [|split; [|exact Hs']].
    + unfold mutex_unlock. kstep. rewrite Hirq. erewrite bind_Done; [|by apply read_node_ok].
      cbn [notnull negb]. rewrite decide_True by done. erewrite bind_Done; [|exact Hon]. exact Hrest.
    + destruct s; simpl in *. by subst.
  - destruct (crit_mutex_wake _ Q m t l Hc Hm Hr) as (th & h & c & lr & Hth & Hst & Hne & Hlr & Hrun & Hc').
    set (s2 := set_threads _ _) in *.
    assert (runnable s2 (sched_active_thread s2)) as Hr2.
    { destruct Hr as (me & Hme & Hon). exists me. simpl. by rewrite lookup_insert_ne. }
    destruct (restore_ok idle s2 _ Hc' Hp Hr2) as [Hrest Hs2].
    exists th, (set_irq_on true s2), lr. do 9 (split; [done|]). split; [exact Hs2|].
    unfold mutex_unlock. kstep. rewrite Hirq. erewrite bind_Done; [|by apply read_node_ok].
    cbn [notnull negb]. rewrite decide_False by done.
    erewrite bind_Done; [|exact Hrun]. cbn beta. rewrite (u16_prio s Q t th) by (done || apply Hs).
    by erewrite bind_Done.
  - unfold mutex_unlock. kstep. rewrite Hirq. erewrite bind_Done; [|by apply read_node_ok].
    cbn [notnull negb]. by eapply irq_roundtrip.
Qed.

(** C3: Unlocking hands a contended mutex to its first waiter, which has the best
    priority of all waiters, and preempts the caller exactly when that priority is
    better; without waiters the mutex becomes free. *)
Theorem mutex_unlock_outcome s Q m o me :
  sysinv idle s Q → runs_best s Q → Q !! NMutex m = Some (QMutex o) →
  threads s !! sched_active_thread s = Some me →
  match o with
  | None => mutex_unlock m s = Done s tt
  | Some [] => ∃ s', mutex_unlock m s = Done s' tt ∧ sysinv idle s' (<[NMutex m := QMutex None]> Q)
  | Some (t :: l) => ∃ th lr, threads s !! t = Some th ∧ Q !! NRq (priority th) = Some (QRun lr) ∧
      (∀ u, u ∈ l → priority th ≤ prio_of (threads s) u) ∧
      stops (mutex_unlock m s) tt (λ switched s',
        sysinv idle s' (<[NRq (priority th) := QRun (lr ++ [t])]> (<[NMutex m := QMutex (Some l)]> Q)) ∧
        switched = (priority th <? priority me) ∧
        sched_active_thread s' = if priority th <? priority me then t else sched_active_thread s)
  end.
Proof.
  intros Hs Hbest Hm Hme. pose proof (mutex_unlock_runs s Q m o Hs Hm) as Hrun.
  destruct o as [[|t l]|]; [| |done].
  { destruct Hrun as (s' & Hrun & _ & Hs'). by exists s'. }
  destruct Hrun as (th & s1 & lr & Hth & Hst & Hne & Hlr & Ha1 & Hth1 & _ & _ & _ & Hs1 & Hrun).
  pose proof (cr_kinv _ _ _ (sy_crit _ _ _ Hs)) as Hk.
  exists th, lr. split; [done|]. split; [done|]. split.
  { intros u Hu. pose proof (ki_sorted _ _ Hk _ _ Hm) as Hsort.
    apply (sorted_by_head _ _ _ u) in Hsort; [|done|done].
    unfold prio_of in Hsort at 1. by rewrite Hth in Hsort. }
  rewrite Hrun.
  assert (threads s1 !! sched_active_thread s1 = Some me) as Hme1.
  { by rewrite Ha1, Hth1, lookup_insert_ne. }
  destruct (wake_switch_stops idle s1 (<[NMutex m := QMutex (Some l)]> Q) (priority th) t lr me Hs1 Hme1)
    as [(s' & Hr & H1 & H2 & _ & H4)|(s' & k & Hr & Hkk & H1 & H2 & _ & H4)].
  - by rewrite lookup_insert_ne.
  - apply (ki_thread _ _ Hk _ _ Hth).
  - congruence.
  - rewrite Ha1. destruct (runs_best_prio s Q me Hbest Hk Hme) as (Hp & (l0 & Hl0) & Hlow).
    split; [done|]. split; [exists l0; by rewrite lookup_insert_ne|].
    intros q Hq. rewrite lookup_insert_ne by done. by apply Hlow.
  - left. exists s'. by rewrite <- Ha1.
  - right. exists s', k. by rewrite <- Ha1.
Qed.

(** ** Safety *)

Lemma mutex_lock_safe s Q m b s0 Q0 :
  sysinv idle s Q → is_Some (Q !! NMutex m) → (b = true → sched_active_thread s ≠ idle) →
  grows s0 Q0 s Q →
  safe idle (sched_active_thread s) s0 Q0 (_mutex_lock m b s) (λ r _ _, b = true → r = 1).
Proof.
  intros Hs [v Hm] Hidle Hg.
  destruct (qr_rep _ _ (ki_rep _ _ (cr_kinv _ _ _ (sy_crit _ _ _ Hs))) _ _ Hm) as [Hok _].
  destruct v as [| |[l|]]; try done.
  - destruct b.
    + destruct (sy_active _ _ _ Hs) as (th & Hth & _).
      destruct (mutex_lock_blocks s Q m l th Hs Hm) as (h & c & lr & Hlr & Hc & Hrun); [by apply Hidle|done|].
      rewrite Hrun. eapply safe_mono; [eapply safe_restore_yield_ret; [exact Hc| |done]|done].
      grow Hg.
    + rewrite (mutex_trylock_locked s Q m l Hs Hm). by exists Q.
  - destruct (mutex_lock_free s Q m b Hs Hm) as (s' & Hrun & Hs' & ->). rewrite Hrun.
    eexists. split; [exact Hs'|]. split; [grow Hg|]. done.
Qed.

Lemma mutex_unlock_safe s Q m s0 Q0 :
  sysinv idle s Q → is_Some (Q !! NMutex m) → grows s0 Q0 s Q →
  safe idle (sched_active_thread s) s0 Q0 (mutex_unlock m s) (λ _ _ _, True).
Proof.
  intros Hs [v Hm] Hg.
  destruct (qr_rep _ _ (ki_rep _ _ (cr_kinv _ _ _ (sy_crit _ _ _ Hs))) _ _ Hm) as [Hok _].
  destruct v as [| |o]; try done. pose proof (mutex_unlock_runs s Q m o Hs Hm) as Hrun.
  destruct o as [[|t l]|].
  - destruct Hrun as (s' & -> & -> & Hs'). eexists. split; [exact Hs'|]. split; [grow Hg|done].
  - destruct Hrun as (th & s1 & lr & Hth & Hst & Hne & Hlr & Ha1 & Hth1 & Hm1 & Hb1 & Hr1 & Hs1 & ->).
    eapply safe_sched_switch; [exact Hs1| |done].
    eapply grows_step; [exact Hg|..]; rewrite ?Hth1, ?Hm1, ?dom_insert_L; try done; set_solver.
  - rewrite Hrun. by exists Q.
Qed.

Lemma mutex_unlock_and_sleep_safe s Q m :
  sysinv idle s Q → is_Some (Q !! NMutex m) → sched_active_thread s ≠ idle →
  safe idle (sched_active_thread s) s Q (mutex_unlock_and_sleep m s) (λ _ _ _, True).
Proof.
  intros Hs [v Hm] Hidle.
  destruct (qr_rep _ _ (ki_rep _ _ (cr_kinv _ _ _ (sy_crit _ _ _ Hs))) _ _ Hm) as [Hok _].
  destruct v as [| |o]; try done. pose proof (crit_enter _ _ _ Hs) as Hc.
  pose proof Hs as [_ Hirq Hp Hr]. pose proof Hr as (me & Hme & Hon).
  pose proof (mutex_node _ _ _ _ (cr_kinv _ _ _ Hc) Hm) as Hn.
  unfold mutex_unlock_and_sleep. kstep. rewrite Hirq. erewrite bind_Done; [|by apply read_node_ok]. cbn beta.
  assert (∀ s1 Q1, crit idle s1 Q1 → sched_active_thread s1 = sched_active_thread s →
    threads s1 !! sched_active_thread s = Some me → grows s Q s1 Q1 →
    safe idle (sched_active_thread s) s Q
      ((me ← get sched_active_thread; sched_set_status me STATUS_SLEEPING;;
        irq_restore true;; thread_yield_higher) s1) (λ _ _ _, True)) as Hsleep.
  { intros s1 Q1 Hc1 Ha1 Hme1 Hg. kstep. rewrite <- Ha1 in Hme1.
    destruct (crit_block idle s1 Q1 me STATUS_SLEEPING Hc1 Hme1) as (h & c & l & Hset & _ & Hc' & _); try done.
    { congruence. }
    erewrite bind_Done; [|exact Hset]. cbn beta.
    eapply safe_restore_yield; [exact Hc'| |done]. grow Hg. }
  destruct o as [[|t l]|]; cbn [notnull].
  - rewrite decide_True by done.
    destruct (crit_mutex_set _ Q m (Some []) None None Hc Hm) as [Hset Hc']; [by right|by left|].
    erewrite bind_Done; [|exact Hset]. cbn beta. eapply Hsleep; [exact Hc'|done|done|].
    grow (grows_refl s Q).
  - rewrite decide_False by done.
    destruct (crit_mutex_wake _ Q m t l Hc Hm Hr) as (th & h & c & lr & Hth & Hst & Hne & Hlr & Hrun & Hc').
    erewrite bind_Done; [|erewrite bind_Done; [|exact Hrun]; reflexivity]. cbn beta.
    eapply Hsleep; [exact Hc'|done| |].
    + simpl. by rewrite lookup_insert_ne.
    + grow (grows_refl s Q).
  - kstep. eapply Hsleep; [exact Hc|done|done|]. grow (grows_refl s Q).
Qed.

(** [mutex_unlock] inside a critical section: the switch is deferred. *)
Lemma mutex_unlock_nested s Q m o :
  crit idle s Q → irq_on s = false → runnable s (sched_active_thread s) →
  Q !! NMutex m = Some (QMutex o) →
  ∃ s' Q', mutex_unlock m s = Done s' tt ∧ crit idle s' Q' ∧ kept s s' ∧ dom Q ⊆ dom Q' ∧
    ∀ c, Q' !! NCond c = Q !! NCond c.
Proof.
  intros Hc Hirq Hr Hm. pose proof (mutex_node _ _ _ _ (cr_kinv _ _ _ Hc) Hm) as Hn.
  assert (crit idle (set_irq_on false s) Q) as Hc0 by (by apply crit_irq).
  assert (kept s (set_irq_on false s)) as Hk0 by (by split).
  assert (∀ s1 Q1, crit idle s1 Q1 → kept (set_irq_on false s) s1 →
    irq_restore false s1 = Done (set_irq_on false s1) tt ∧ crit idle (set_irq_on false s1) Q1 ∧
    kept s (set_irq_on false s1)) as Hrest.
  { intros s1 Q1 Hc1 Hk1. split; [done|]. split; [by apply crit_irq|].
    eapply kept_trans; [exact Hk0|]. eapply kept_trans; [exact Hk1|].
    split; try done. simpl. by rewrite (kp_irq _ _ Hk1). }
  unfold mutex_unlock. kstep. rewrite Hirq. erewrite bind_Done; [|by apply read_node_ok]. cbn beta.
  destruct o as [[|t l]|]; cbn [notnull negb].
  - rewrite decide_True by done.
    destruct (crit_mutex_set _ Q m (Some []) None None Hc0 Hm) as [Hon Hc']; [by right|by left|].
    erewrite bind_Done; [|exact Hon]. cbn beta.
    destruct (Hrest _ _ Hc' (kept_nodes _ _)) as (-> & Hc2 & Hk2).
    eexists _, _. split; [reflexivity|]. split; [exact Hc2|]. split; [done|].
    split; [set_solver|]. intros c. by rewrite lookup_insert_ne.
  - rewrite decide_False by done.
    destruct (crit_mutex_wake _ Q m t l Hc0 Hm Hr) as (th & h & c & lr & Hth & Hst & Hne & Hlr & Hrun & Hc').
    erewrite bind_Done; [|exact Hrun]. cbn beta.
    destruct (Hrest _ _ Hc' (kept_status _ _ _ _ _ _ Hth Hne)) as (Hres & Hc2 & Hk2).
    erewrite bind_Done; [|exact Hres]. cbn beta.
    pose proof (kept_runnable _ _ Hk2 Hr) as (me & Hme & Hon).
    unfold sched_switch. do 2 kstep. rewrite Hon. cbn [negb orb]. case_match.
    + kstep. rewrite (cr_isr _ _ _ Hc2). unfold thread_yield_higher. cbn [irq_on set_irq_on andb].
      eexists _, _. split; [reflexivity|]. split; [apply crit_pending; exact Hc2|].
      split; [eapply kept_trans; [exact Hk2|by split]|].
      split; [set_solver|]. intros c'. by rewrite !lookup_insert_ne.
    + eexists _, _. split; [reflexivity|]. split; [exact Hc2|]. split; [done|].
      split; [set_solver|]. intros c'. by rewrite !lookup_insert_ne.
  - eexists _, Q. split; [reflexivity|]. split; [by apply crit_irq|]. split; [|done].
    by split.
Qed.

End Mutex.
