(* ===== verification/Cond.v ===== *)
(** * Condition variables (core/cond.c) *)

From S2P Require Import Prelude Bitarithm Cib LinkedList Clist Kernel Sched KernelInv WaitList SchedProps Mutex.

Definition cond_init (cond : Z) : M unit := on_nodes (λ h, set_next h (NCond cond) None).

Definition cond_wait (cond mutex : Z) : M unit :=
  irqstate ← irq_disable;
  me ← get sched_active_thread;
  mutex_unlock mutex;;
  sched_set_status me STATUS_COND_BLOCKED;;
  thread_add_to_list (NCond cond) me;;
  irq_restore irqstate;;
  thread_yield_higher;;
  mutex_lock mutex.

(** The loop of [_cond_signal]: the smallest priority value of the threads woken. *)
Fixpoint cond_signal_loop (fuel : nat) (cond : Z) (broadcast : bool) (min_prio : Z) : M Z :=
  match fuel with
  | O => fault
  | S fuel =>
      next ← on_nodes_r (λ h, list_remove_head h (NCond cond));
      match next with
      | None => mret min_prio
      | Some next =>
          process ← container_of next;
          sched_set_status process STATUS_PENDING;;
          th ← get_thread process;
          let process_priority := u16 (priority th) in
          let min_prio := if process_priority <? min_prio then process_priority else min_prio in
          if broadcast then cond_signal_loop fuel cond broadcast min_prio else mret min_prio
      end
  end.

Definition _cond_signal (cond : Z) (broadcast : bool) : M unit :=
  irqstate ← irq_disable;
  n ← get (λ s, size (nodes s));
  min_prio ← cond_signal_loop (S n) cond broadcast (u16 (THREAD_PRIORITY_MIN + 1));
  irq_restore irqstate;;
  if min_prio <=? THREAD_PRIORITY_MIN then sched_switch min_prio else mret tt.

Definition cond_signal (cond : Z) : M unit := _cond_signal cond false.
Definition cond_broadcast (cond : Z) : M unit := _cond_signal cond true.

Section Cond.
Context (idle : Z).

(** One round of the loop: the first waiter becomes runnable. *)
Lemma crit_cond_wake s Q c t l :
  crit idle s Q → Q !! NCond c = Some (QWait (t :: l)) → runnable s (sched_active_thread s) →
  ∃ th s' lr, threads s !! t = Some th ∧ Q !! NRq (priority th) = Some (QRun lr) ∧
    sched_active_thread s ≠ t ∧ kept s s' ∧ yield_pending s' = yield_pending s ∧
    crit idle s' (<[NRq (priority th) := QRun (lr ++ [t])]> (<[NCond c := QWait l]> Q)) ∧
    ∀ fuel b mp, cond_signal_loop (S fuel) c b mp s =
      (let mp' := if priority th <? mp then priority th else mp in
       if b then cond_signal_loop fuel c b mp' else mret mp') s'.
Proof.
  intros Hc Hq (me & Hme & Hon). destruct (crit_dequeue idle s Q _ _ Hc Hq) as (h & Hrm & Hc1 & Hd).
  destruct (Hd t eq_refl) as (Hdt & th & Hth & Hst & Hoff). simpl tail in *.
  assert (sched_active_thread s ≠ t) as Hne by (intros Heq; rewrite Heq in Hme; simplify_eq; congruence).
  destruct (crit_wake idle _ _ t th STATUS_PENDING Hc1 Hth Hoff Hdt eq_refl Hne ltac:(simpl in Hst; congruence)) as (h2 & ca & lr & Hset & Hlr & Hc2).
  rewrite lookup_insert_ne in Hlr by done.
  eexists th, _, lr. split; [done|]. split; [done|]. split; [done|].
  split; [eapply kept_trans; [apply (kept_nodes s h)|by apply kept_status]|].
  split; [done|]. split; [exact Hc2|]. intros fuel b mp. cbn [cond_signal_loop].
  erewrite bind_Done; [|exact Hrm]. cbn beta.
  change (NThread <$> head (t :: l)) with (Some (NThread t)). cbn beta iota.
  erewrite bind_Done; [|reflexivity]. cbn beta. erewrite bind_Done; [|exact Hset]. cbn beta.
  erewrite bind_Done; [|apply get_thread_ok; simpl; by rewrite lookup_insert_eq]. cbn beta zeta.
  cbn [priority set_status]. rewrite (u16_prio s Q t th) by (done || apply Hc). by destruct b.
Qed.

Lemma cond_loop_nil s Q c fuel b mp :
  crit idle s Q → Q !! NCond c = Some (QWait []) →
  ∃ s', cond_signal_loop (S fuel) c b mp s = Done s' mp ∧ crit idle s' Q ∧ kept s s' ∧
    yield_pending s' = yield_pending s.
Proof.
  intros Hc Hq. destruct (crit_dequeue idle s Q _ _ Hc Hq) as (h & Hrm & Hc1 & _). simpl in Hc1.
  rewrite insert_id in Hc1 by done. eexists. cbn [cond_signal_loop].
  erewrite bind_Done; [|exact Hrm]. split; [reflexivity|]. split; [done|]. split; [apply kept_nodes|done].
Qed.

(** The run queues after waking the threads [l], of priorities [pr], in order. *)
Definition woken (pr : Z → Z) (Q Q' : queues) (l : list Z) : Prop :=
  ∀ p q, Q !! NRq p = Some (QRun q) → Q' !! NRq p = Some (QRun (q ++ filter (λ t, pr t = p) l)).

Lemma cond_broadcast_loop l s Q c fuel mp :
  crit idle s Q → Q !! NCond c = Some (QWait l) → runnable s (sched_active_thread s) →
  (length l < fuel)%nat →
  ∃ s' Q', cond_signal_loop fuel c true mp s =
      Done s' (foldl (λ m t, Z.min (prio_of (threads s) t) m) mp l) ∧
    crit idle s' Q' ∧ kept s s' ∧ yield_pending s' = yield_pending s ∧ dom Q ⊆ dom Q' ∧
    woken (prio_of (threads s)) Q Q' l ∧ Q' !! NCond c = Some (QWait []).
Proof.
  revert s Q fuel mp. induction l as [|t l IH]; intros s Q [|fuel] mp Hc Hq Hr Hf; simpl in Hf; try lia.
  - destruct (cond_loop_nil s Q c fuel true mp Hc Hq) as (s' & Hrun & Hc' & Hk & Hp).
    exists s', Q. split; [done|]. do 4 (split; [done|]). split; [|done].
    intros p q Hpq. by rewrite app_nil_r.
  - destruct (crit_cond_wake s Q c t l Hc Hq Hr) as (th & s1 & lr & Hth & Hlr & Hne & Hk1 & Hp1 & Hc1 & Hrun).
    set (Q1 := <[_:=_]> _) in *.
    destruct (IH s1 Q1 fuel (if priority th <? mp then priority th else mp)) as (s' & Q' & Hloop & Hc' & Hk & Hp & Hdom & Hw & Hq'); try done.
    { unfold Q1. by rewrite lookup_insert_ne, lookup_insert_eq. }
    { by apply (kept_runnable s). }
    { lia. }
    exists s', Q'. rewrite Hrun. cbn beta zeta iota. rewrite Hloop. split.
    { f_equal. simpl. unfold prio_of at 3. rewrite Hth.
      replace (Z.min (priority th) mp) with (if priority th <? mp then priority th else mp)
        by (destruct (Z.ltb_spec (priority th) mp); lia).
      clear -Hk1. generalize (if priority th <? mp then priority th else mp).
      induction l as [|u l IH]; intros x; simpl; [done|]. by rewrite (kp_prio _ _ Hk1), IH. }
    split; [done|]. split; [by eapply kept_trans|]. split; [by rewrite Hp|].
    split; [etrans; [|exact Hdom]; unfold Q1; rewrite !dom_insert_L; set_solver|].
    split; [|done]. intros p q Hpq.
    assert (filter (λ u, prio_of (threads s) u = p) l = filter (λ u, prio_of (threads s1) u = p) l) as Hfl.
    { apply list_filter_iff. intros u. by rewrite (kp_prio _ _ Hk1). }
    rewrite filter_cons. replace (prio_of (threads s) t) with (priority th) by (unfold prio_of; by rewrite Hth).
    rewrite Hfl. case_decide as Hpp.
    + subst p. rewrite (Hw _ (lr ++ [t])) by (unfold Q1; by rewrite lookup_insert_eq).
      simplify_eq. by rewrite <- app_assoc.
    + apply Hw. unfold Q1. rewrite !lookup_insert_ne by congruence. done.
Qed.

Lemma next_ready_woken s Q Q' pr p t l :
  kinv s Q → next_ready Q p t → woken pr Q Q' l → sorted_by pr l →
  (∀ u, u ∈ l → 0 ≤ pr u < SCHED_PRIO_LEVELS) →
  match l with
  | w :: _ => if pr w <? p then next_ready Q' (pr w) w else next_ready Q' p t
  | [] => next_ready Q' p t
  end.
Proof.
  intros Hk (Hp & (l0 & Hl0) & Hlow) Hw Hsort Hr.
  assert (∀ q, (∀ u, u ∈ l → q < pr u) → Q !! NRq q = Some (QRun []) → Q' !! NRq q = Some (QRun [])) as Hnone.
  { intros q Hq HQ. rewrite (Hw q [] HQ). simpl. f_equal. f_equal. apply list_filter_none.
    intros u Hu. specialize (Hq u Hu). lia. }
  assert ((∀ u, u ∈ l → p ≤ pr u) → next_ready Q' p t) as Hstay.
  { intros Hge. split; [done|]. split; [rewrite (Hw p _ Hl0); by eexists|].
    intros q Hq. apply Hnone; [|by apply Hlow]. intros u Hu. specialize (Hge u Hu). lia. }
  destruct l as [|w l]; [apply Hstay; set_solver|].
  assert (∀ u, u ∈ w :: l → pr w ≤ pr u) as Hmin.
  { intros u [->|Hu]%elem_of_cons; [lia|]. by eapply sorted_by_head. }
  destruct (Z.ltb_spec (pr w) p).
  - assert (0 ≤ pr w < SCHED_PRIO_LEVELS) as Hpw by (apply Hr; by left).
    split; [done|]. split.
    + rewrite (Hw (pr w) []) by (apply Hlow; lia). simpl. rewrite filter_cons, decide_True by done.
      by eexists.
    + intros q Hq. apply Hnone; [|apply Hlow; lia]. intros u Hu. specialize (Hmin u Hu). lia.
  - apply Hstay. intros u Hu. specialize (Hmin u Hu). lia.
Qed.

Lemma fold_min pr l mp :
  sorted_by pr l → foldl (λ m t, Z.min (pr t) m) mp l =
    match l with [] => mp | w :: _ => Z.min (pr w) mp end.
Proof.
  revert mp. induction l as [|w l IH]; intros mp Hs; [done|]. simpl.
  rewrite IH by (by apply sorted_by_tail in Hs). destruct l as [|u l]; [done|].
  pose proof (sorted_by_head _ _ _ u Hs ltac:(by left)). lia.
Qed.

(** What both calls do, up to the end of the critical section: the threads [l]
    were woken. *)
Lemma cond_signal_runs s Q c l (b : bool) :
  sysinv idle s Q → Q !! NCond c = Some (QWait l) →
  let woke := if b then l else match l with [] => [] | t :: _ => [t] end in
  ∃ s' Q', _cond_signal c b s =
      match woke with [] => Done s' tt | t :: _ => sched_switch (prio_of (threads s) t) s' end ∧
    sysinv idle s' Q' ∧ kept s s' ∧ dom Q ⊆ dom Q' ∧ woken (prio_of (threads s)) Q Q' woke ∧
    Q' !! NCond c = Some (QWait (if b then [] else tail l)).
Proof.
  intros Hs Hq woke. pose proof (crit_enter _ _ _ Hs) as Hc. pose proof Hs as [_ Hirq Hp Hr].
  pose proof (cr_kinv _ _ _ (sy_crit _ _ _ Hs)) as Hk.
  assert (∀ t, t ∈ l → 0 ≤ prio_of (threads s) t < SCHED_PRIO_LEVELS) as Hpr.
  { intros t Ht. destruct (ki_mem _ _ Hk _ _ t Hq Ht) as (th & Hth & _). unfold prio_of. rewrite Hth.
    apply (ki_thread _ _ Hk _ _ Hth). }
  pose proof (ki_sorted _ _ Hk _ _ Hq ltac:(done)) as Hsort. simpl in Hsort.
  assert (∃ s1 Q1, cond_signal_loop (S (size (nodes s))) c b 16 (set_irq_on false s) =
      Done s1 (match woke with [] => 16 | t :: _ => prio_of (threads s) t end) ∧
    crit idle s1 Q1 ∧ kept (set_irq_on false s) s1 ∧ yield_pending s1 = false ∧ dom Q ⊆ dom Q1 ∧
    woken (prio_of (threads s)) Q Q1 woke ∧ Q1 !! NCond c = Some (QWait (if b then [] else tail l)))
    as (s1 & Q1 & Hrun & Hc1 & Hk1 & Hp1 & Hd1 & Hw1 & Hq1).
  { destruct b.
    - destruct (cond_broadcast_loop l (set_irq_on false s) Q c (S (size (nodes s))) 16 Hc Hq Hr)
        as (s1 & Q1 & Hrun & Hc1 & Hk1 & Hp1 & Hd1 & Hw1 & Hq1).
      { destruct (qr_rep _ _ (ki_rep _ _ Hk) _ _ Hq) as [_ (_ & Hch & [_ Hnd]%NoDup_cons)].
        rewrite <- (length_fmap NThread l). pose proof (chain_size _ _ _ Hch Hnd). lia. }
      exists s1, Q1. split; [|by rewrite Hp1]. rewrite Hrun. f_equal.
      rewrite fold_min by done. unfold woke. destruct l as [|w l]; [done|].
      specialize (Hpr w ltac:(by left)). unfold SCHED_PRIO_LEVELS in Hpr. simpl threads. lia.
    - destruct l as [|t l].
      + destruct (cond_loop_nil (set_irq_on false s) Q c (size (nodes s)) false 16 Hc Hq)
          as (s1 & Hrun & Hc1 & Hk1 & Hp1).
        exists s1, Q. do 3 (split; [done|]). split; [by rewrite Hp1|]. split; [done|]. split; [|done].
        intros p q Hpq. by rewrite app_nil_r.
      + destruct (crit_cond_wake _ Q c t l Hc Hq Hr)
          as (th & s1 & lr & Hth & Hlr & Hne & Hk1 & Hp1 & Hc1 & Hrun).
        assert (prio_of (threads s) t = priority th) as Hpt by (unfold prio_of; simpl in Hth; by rewrite Hth).
        exists s1, (<[NRq (priority th) := QRun (lr ++ [t])]> (<[NCond c := QWait l]> Q)).
        split.
        { rewrite Hrun. cbn beta zeta iota. specialize (Hpr t ltac:(by left)).
          unfold SCHED_PRIO_LEVELS in Hpr. unfold woke. rewrite Hpt in *.
          by rewrite (proj2 (Z.ltb_lt _ _)) by lia. }
        split; [done|]. split; [done|]. split; [by rewrite Hp1|].
        split; [rewrite !dom_insert_L; set_solver|]. split.
        * intros p q Hpq. unfold woke. rewrite filter_cons, Hpt. case_decide as Heq.
          -- subst p. rewrite lookup_insert_eq. by simplify_eq.
          -- rewrite !lookup_insert_ne by congruence. by rewrite app_nil_r.
        * by rewrite lookup_insert_ne, lookup_insert_eq. }
  destruct (restore_ok idle s1 Q1 Hc1 Hp1) as [Hrest Hs2]; [exact (kept_runnable _ _ Hk1 Hr)|].
  exists (set_irq_on true s1), Q1. split.
  - unfold _cond_signal. do 2 kstep. rewrite Hirq.
    change (u16 (THREAD_PRIORITY_MIN + 1)) with 16. simpl nodes.
    erewrite bind_Done; [|exact Hrun]. cbn beta. erewrite bind_Done; [|exact Hrest]. cbn beta.
    destruct woke as [|t w] eqn:Hwoke; [done|].
    assert (t ∈ l) as Ht by (unfold woke in Hwoke; destruct b, l; simplify_eq; by left).
    specialize (Hpr t Ht). unfold SCHED_PRIO_LEVELS in Hpr.
    change THREAD_PRIORITY_MIN with 15. by rewrite (proj2 (Z.leb_le _ _)) by lia.
  - split; [done|]. split; [|done]. destruct Hk1; split; simpl in *; congruence.
Qed.

(** C16: Signalling readies the first waiter, broadcasting all of them in order; the
    caller is preempted exactly when the first one has a better priority. *)
Theorem cond_signal_outcome s Q c l b me :
  sysinv idle s Q → runs_best s Q → Q !! NCond c = Some (QWait l) →
  threads s !! sched_active_thread s = Some me →
  let pr := prio_of (threads s) in
  let woke := if b : bool then l else match l with [] => [] | t :: _ => [t] end in
  let preempts := match woke with [] => false | t :: _ => pr t <? priority me end in
  stops (_cond_signal c b s) tt (λ switched s', ∃ Q',
    sysinv idle s' Q' ∧ woken pr Q Q' woke ∧
    Q' !! NCond c = Some (QWait (if b then [] else tail l)) ∧
    switched = preempts ∧
    sched_active_thread s' = if preempts then default 0 (head woke) else sched_active_thread s).
Proof.
  intros Hs Hbest Hq Hme pr woke preempts.
  pose proof (cr_kinv _ _ _ (sy_crit _ _ _ Hs)) as Hk.
  pose proof (ki_sorted _ _ Hk _ _ Hq ltac:(done)) as Hsort. simpl in Hsort.
  assert (∀ t, t ∈ l → 0 ≤ pr t < SCHED_PRIO_LEVELS) as Hpr.
  { intros t Ht. destruct (ki_mem _ _ Hk _ _ t Hq Ht) as (th & Hth & _). unfold pr, prio_of. rewrite Hth.
    apply (ki_thread _ _ Hk _ _ Hth). }
  assert (sorted_by pr woke ∧ ∀ t, t ∈ woke → t ∈ l) as [Hsw Hwl].
  { unfold woke. destruct b; [done|]. destruct l; [by split; [constructor|]|].
    split; [repeat constructor|set_solver]. }
  destruct (cond_signal_runs s Q c l b Hs Hq) as (s1 & Q1 & Hrun & Hs1 & Hk1 & _ & Hw & Hq1).
  pose proof (next_ready_woken s Q Q1 pr _ _ woke Hk (runs_best_prio s Q me Hbest Hk Hme) Hw Hsw
    (λ t Ht, Hpr t (Hwl t Ht))) as Hnext.
  fold pr woke in Hrun, Hw. rewrite Hrun. unfold preempts. clearbody woke. clear preempts Hrun.
  destruct woke as [|t w].
  { left. exists s1. split; [done|]. exists Q1. do 4 (split; [done|]). apply (kp_active _ _ Hk1). }
  assert (threads s1 !! sched_active_thread s1 = Some me) as Hme1
    by (by rewrite (kp_active _ _ Hk1), (kp_me _ _ Hk1)).
  rewrite (sched_switch_spec idle s1 Q1 me _ Hs1 Hme1).
  destruct (pr t <? priority me) eqn:Hlt.
  - pose proof Hs1 as [[Hk' Hipc _ Hisr Hid] Hirq _ _].
    assert (t ≠ sched_active_thread s) as Hne.
    { intros ->. apply Z.ltb_lt in Hlt. unfold pr, prio_of in Hlt. rewrite Hme in Hlt. lia. }
    destruct (context_switch_stops idle _ _ _ _ Hk' Hipc Hisr Hid Hirq Hnext)
      as [(s' & Hcs & Hsw')|(s' & k & Hcs & Hkk & Hsw')];
      destruct Hsw' as (Hs' & Hun & Ha & _ & Hb); simpl in Hb; rewrite (kp_active _ _ Hk1) in Hb;
      rewrite bool_decide_false in Hb by congruence; [done|].
    right. exists s', k. split; [done|]. split; [done|]. exists Q1. done.
  - left. exists s1. split; [done|]. exists Q1. do 4 (split; [done|]). apply (kp_active _ _ Hk1).
Qed.

(** ** Safety *)

Lemma cond_signal_safe s Q c b :
  sysinv idle s Q → is_Some (Q !! NCond c) →
  safe idle (sched_active_thread s) s Q (_cond_signal c b s) (λ _ _ _, True).
Proof.
  intros Hs [v Hq].
  destruct (qr_rep _ _ (ki_rep _ _ (cr_kinv _ _ _ (sy_crit _ _ _ Hs))) _ _ Hq) as [Hok _].
  destruct v as [|l|]; try done.
  destruct (cond_signal_runs s Q c l b Hs Hq) as (s1 & Q1 & -> & Hs1 & Hk1 & Hd & _).
  assert (grows s Q s1 Q1) as Hg by (eapply kept_grows; [done|done|apply grows_refl]).
  destruct (if b then l else _) as [|t w].
  - exists Q1. split; [done|]. split; [done|]. split; [apply (kp_active _ _ Hk1)|done].
  - eapply safe_sched_switch; [done|done|apply (kp_active _ _ Hk1)].
Qed.

Lemma cond_wait_safe s Q c m :
  sysinv idle s Q → is_Some (Q !! NCond c) → is_Some (Q !! NMutex m) →
  sched_active_thread s ≠ idle →
  safe idle (sched_active_thread s) s Q (cond_wait c m s) (λ _ _ _, True).
Proof.
  intros Hs [v Hq] [w Hm] Hidle. pose proof (crit_enter _ _ _ Hs) as Hc.
  pose proof Hs as [_ Hirq Hp Hr]. pose proof (cr_kinv _ _ _ (sy_crit _ _ _ Hs)) as Hk.
  destruct (qr_rep _ _ (ki_rep _ _ Hk) _ _ Hq) as [Hok _]. destruct v as [|l|]; try done.
  destruct (qr_rep _ _ (ki_rep _ _ Hk) _ _ Hm) as [Hok2 _]. destruct w as [| |o]; try done.
  unfold cond_wait. do 2 kstep. rewrite Hirq.
  destruct (mutex_unlock_nested idle _ Q m o Hc eq_refl Hr Hm) as (s1 & Q1 & Hun & Hc1 & Hk1 & Hd1 & HQ1).
  erewrite bind_Done; [|exact Hun]. cbn beta.
  pose proof (kp_active _ _ Hk1) as Ha1. simpl in Ha1.
  destruct Hr as (me & Hme & Hon).
  assert (threads s1 !! sched_active_thread s1 = Some me) as Hme1
    by (rewrite Ha1; exact (eq_trans (kp_me _ _ Hk1) Hme)).
  change (sched_active_thread (set_irq_on false s)) with (sched_active_thread s). rewrite <- Ha1.
  destruct (crit_block idle s1 Q1 me STATUS_COND_BLOCKED Hc1 Hme1) as (h & ca & lr & Hset & Hlr & Hc2 & Hd); try done.
  { congruence. }
  simpl in Hset, Hc2, Hd. erewrite bind_Done; [|exact Hset]. cbn beta.
  set (s2 := set_threads _ _) in *. set (Q2 := <[_:=_]> Q1) in *.
  destruct (crit_enqueue idle s2 Q2 (NCond c) l (sched_active_thread s1) (set_status STATUS_COND_BLOCKED me))
    as (h2 & Hadd & Hc3); try done.
  { unfold Q2. rewrite lookup_insert_ne by done. by rewrite HQ1. }
  { simpl. by rewrite lookup_insert_eq. }
  erewrite bind_Done; [|exact Hadd]. cbn beta.
  assert (grows s Q (set_nodes h2 s2) (<[NCond c := QWait (ins_prio (prio_of (threads s2))
    (priority (set_status STATUS_COND_BLOCKED me)) (sched_active_thread s1) l)]> Q2)) as Hg.
  { assert (grows s Q s1 Q1) as Hg1 by (eapply (kept_grows _ _ _ _ _ _ Hk1 Hd1); by split).
    unfold Q2. grow Hg1. }
  eapply safe_restore_yield_then; [exact Hc3|exact Hg|done|].
  intros s4 Q4 Hs4 Hg4 Ha4. unfold mutex_lock. simpl in Ha4. rewrite <- Ha4.
  eapply safe_bind; [apply (mutex_lock_safe idle s4 Q4 m true); [done| |congruence|done]|].
  - apply elem_of_dom, (gr_queues _ _ _ _ Hg4), elem_of_dom. by eexists.
  - intros r s5 Q5 Hs5 Hg5 Ha5 _. by exists Q5.
Qed.

End Cond.
