(* ===== verification/Rmutex.v ===== *)
(** * Recursive mutexes (core/rmutex.c) *)

From S2P Require Import Prelude Bitarithm Cib LinkedList Clist Kernel Sched KernelInv WaitList SchedProps Mutex.

Definition read_rmutex (r : Z) : M rmutex_t := λ s, lift (rmutexes s !! r) s.
Definition upd_rmutex (r : Z) (f : rmutex_t → rmutex_t) : M unit :=
  λ s, match rmutexes s !! r with
       | Some rm => Done (set_rmutexes (<[r := f rm]> (rmutexes s)) s) tt
       | None => Fault
       end.
Definition thread_getpid : M Z := get sched_active_pid.

(** [_lock]; the embedded mutex is the mutex at the same address. *)
Definition _lock (rmutex : Z) (trylock : bool) : M Z :=
  r ← mutex_trylock rmutex;
  go ← (if r =? 0 then
          rm ← read_rmutex rmutex;
          pid ← thread_getpid;
          if negb (owner rm =? pid) then
            if trylock then mret false else mutex_lock rmutex;; mret true
          else mret true
        else mret true);
  if go : bool then
    pid ← thread_getpid;
    upd_rmutex rmutex (λ rm, Rmutex (refcount rm) pid);;
    upd_rmutex rmutex (λ rm, Rmutex (u16 (refcount rm + 1)) (owner rm));;
    mret 1
  else mret 0.

Definition rmutex_lock (rmutex : Z) : M unit := _lock rmutex false;; mret tt.
Definition rmutex_trylock (rmutex : Z) : M Z := _lock rmutex true.

Definition rmutex_unlock (rmutex : Z) : M unit :=
  rm ← read_rmutex rmutex;
  pid ← thread_getpid;
  if negb (owner rm =? pid) || negb (0 <? refcount rm) then fault   (* assertions *)
  else
    upd_rmutex rmutex (λ rm, Rmutex (u16 (refcount rm - 1)) (owner rm));;
    rm ← read_rmutex rmutex;
    if refcount rm =? 0 then
      upd_rmutex rmutex (λ rm, Rmutex (refcount rm) KERNEL_PID_UNDEF);;
      mutex_unlock rmutex
    else mret tt.

Fixpoint repeat_call (n : nat) (m : M unit) : M unit :=
  match n with O => mret tt | S n => m;; repeat_call n m end.

Section Rmutex.
Context (idle : Z).

Lemma sysinv_rmutexes s Q R : sysinv idle s Q → sysinv idle (set_rmutexes R s) Q.
Proof.
  intros [[Hk Hipc Hf Hisr Hid] Hirq Hp Hr]. split; try done.
  split; try done; [by apply (kinv_ext s)|by apply (ipc_ext s)].
Qed.

Lemma read_rmutex_ok r rm s : rmutexes s !! r = Some rm → read_rmutex r s = Done s rm.
Proof. intros H. unfold read_rmutex, lift. by rewrite H. Qed.

Lemma upd_rmutex_ok r rm f s :
  rmutexes s !! r = Some rm → upd_rmutex r f s = Done (set_rmutexes (<[r := f rm]> (rmutexes s)) s) tt.
Proof. intros H. unfold upd_rmutex. by rewrite H. Qed.

(** The end of a successful [_lock]. *)
Lemma lock_take s r rm :
  rmutexes s !! r = Some rm →
  (pid ← thread_getpid;
   upd_rmutex r (λ rm, Rmutex (refcount rm) pid);;
   upd_rmutex r (λ rm, Rmutex (u16 (refcount rm + 1)) (owner rm));;
   mret 1) s =
  Done (set_rmutexes (<[r := Rmutex (u16 (refcount rm + 1)) (sched_active_pid s)]> (rmutexes s)) s) 1.
Proof.
  intros Hr. unfold thread_getpid. kstep. erewrite bind_Done; [|by apply upd_rmutex_ok]. cbn beta.
  erewrite bind_Done; [|apply upd_rmutex_ok; simpl; apply lookup_insert_eq]. cbn beta.
  unfold mret, M_ret. f_equal. simpl. by rewrite insert_insert_eq.
Qed.

(** The caller holds the recursive mutex [n] times. *)
Definition holds (s : kernel) (Q : queues) (r n : Z) : Prop :=
  sysinv idle s Q ∧ (∃ l, Q !! NMutex r = Some (QMutex (Some l))) ∧
  rmutexes s !! r = Some (Rmutex n (sched_active_pid s)).

Lemma rmutex_relock s Q r n b :
  holds s Q r n → 0 ≤ n < 2 ^ 16 - 1 →
  ∃ s', _lock r b s = Done s' 1 ∧ holds s' Q r (n + 1) ∧ s' = set_rmutexes (rmutexes s') s.
Proof.
  intros (Hs & (l & Hl) & Hr) Hn.
  exists (set_rmutexes (<[r := Rmutex (n + 1) (sched_active_pid s)]> (rmutexes s)) s). split.
  - unfold _lock. erewrite bind_Done; [|exact (mutex_trylock_locked idle s Q r l Hs Hl)]. cbn beta iota.
    erewrite bind_Done.
    2: { cbn [Z.eqb]. erewrite bind_Done; [|by apply read_rmutex_ok]. unfold thread_getpid. kstep.
         cbn [owner]. rewrite Z.eqb_refl. reflexivity. }
    cbn beta iota. rewrite (lock_take s r _ Hr). cbn [refcount].
    rewrite wrap_small by (unfold uint; lia). done.
  - split; [|done]. split; [by apply sysinv_rmutexes|]. split; [by exists l|].
    simpl. by rewrite lookup_insert_eq.
Qed.

Lemma rmutex_first s Q r o b :
  sysinv idle s Q → Q !! NMutex r = Some (QMutex None) → rmutexes s !! r = Some (Rmutex 0 o) →
  ∃ s', _lock r b s = Done s' 1 ∧ holds s' (<[NMutex r := QMutex (Some [])]> Q) r 1 ∧
    threads s' = threads s ∧ sched_active_pid s' = sched_active_pid s.
Proof.
  intros Hs Hm Hr. destruct (mutex_lock_free idle s Q r false Hs Hm) as (s1 & Hrun & Hs1 & ->).
  eexists. split.
  - unfold _lock. erewrite bind_Done; [|exact Hrun]. cbn [Z.eqb].
    erewrite bind_Done; [|reflexivity]. cbn beta iota. by rewrite (lock_take _ r (Rmutex 0 o)).
  - split; [|done]. split; [by apply sysinv_rmutexes|]. split.
    + exists []. by rewrite lookup_insert_eq.
    + simpl. by rewrite lookup_insert_eq.
Qed.

Lemma rmutex_unlock_inner s Q r n :
  holds s Q r n → 1 < n < 2 ^ 16 →
  ∃ s', rmutex_unlock r s = Done s' tt ∧ holds s' Q r (n - 1).
Proof.
  intros (Hs & (l & Hl) & Hr) Hn.
  exists (set_rmutexes (<[r := Rmutex (n - 1) (sched_active_pid s)]> (rmutexes s)) s). split.
  - unfold rmutex_unlock, thread_getpid. erewrite bind_Done; [|by apply read_rmutex_ok]. kstep.
    cbn [owner refcount]. rewrite Z.eqb_refl, (proj2 (Z.ltb_lt 0 n)) by lia. cbn [negb orb].
    erewrite bind_Done; [|by apply upd_rmutex_ok]. cbn beta.
    cbn [owner refcount]. rewrite wrap_small by (unfold uint; lia).
    erewrite bind_Done; [|apply read_rmutex_ok; simpl; apply lookup_insert_eq]. cbn beta.
    cbn [refcount]. by rewrite (proj2 (Z.eqb_neq _ _)) by lia.
  - split; [by apply sysinv_rmutexes|]. split; [by exists l|]. simpl. by rewrite lookup_insert_eq.
Qed.

(** The last unlock releases the mutex. *)
Lemma rmutex_unlock_last s Q r :
  sysinv idle s Q → Q !! NMutex r = Some (QMutex (Some [])) →
  rmutexes s !! r = Some (Rmutex 1 (sched_active_pid s)) →
  ∃ s', rmutex_unlock r s = Done s' tt ∧ sysinv idle s' (<[NMutex r := QMutex None]> Q) ∧
    rmutexes s' !! r = Some (Rmutex 0 KERNEL_PID_UNDEF).
Proof.
  intros Hs Hm Hr.
  set (s1 := set_rmutexes (<[r := Rmutex 0 KERNEL_PID_UNDEF]> (rmutexes s)) s).
  assert (sysinv idle s1 Q) as Hs1 by (by apply sysinv_rmutexes).
  destruct (mutex_unlock_runs idle s1 Q r _ Hs1 Hm) as (s' & Hrun & -> & Hs').
  eexists. split; [|split; [exact Hs'|]].
  - unfold rmutex_unlock, thread_getpid. erewrite bind_Done; [|by apply read_rmutex_ok]. kstep.
    cbn [owner refcount]. rewrite Z.eqb_refl. cbn [negb orb Z.ltb Z.compare].
    erewrite bind_Done; [|by apply upd_rmutex_ok]. cbn beta.
    erewrite bind_Done; [|apply read_rmutex_ok; simpl; apply lookup_insert_eq]. cbn beta.
    cbn [owner refcount]. change (u16 (1 - 1)) with 0. cbn [Z.eqb].
    erewrite bind_Done; [|apply upd_rmutex_ok; simpl; apply lookup_insert_eq]. cbn beta.
    cbn [owner refcount set_rmutexes rmutexes]. rewrite insert_insert_eq. exact Hrun.
  - simpl. by rewrite lookup_insert_eq.
Qed.

Lemma rmutex_relock_n (k : nat) s Q r n :
  holds s Q r n → 0 ≤ n → n + Z.of_nat k < 2 ^ 16 →
  ∃ s', repeat_call k (rmutex_lock r) s = Done s' tt ∧ holds s' Q r (n + Z.of_nat k).
Proof.
  revert s n. induction k as [|k IH]; intros s n Hh Hn Hk.
  - exists s. rewrite Z.add_0_r. done.
  - destruct (rmutex_relock s Q r n false Hh) as (s1 & Hrun & Hh1 & _); [lia|].
    destruct (IH s1 (n + 1) Hh1) as (s2 & Hrun2 & Hh2); [lia|lia|].
    exists s2. replace (n + Z.of_nat (S k)) with (n + 1 + Z.of_nat k) by lia. split; [|done].
    cbn [repeat_call]. erewrite bind_Done; [exact Hrun2|]. unfold rmutex_lock.
    by erewrite bind_Done.
Qed.

Lemma rmutex_unlock_n (k : nat) s Q r n :
  holds s Q r n → Z.of_nat k < n < 2 ^ 16 →
  ∃ s', repeat_call k (rmutex_unlock r) s = Done s' tt ∧ holds s' Q r (n - Z.of_nat k).
Proof.
  revert s n. induction k as [|k IH]; intros s n Hh Hk.
  - exists s. rewrite Z.sub_0_r. done.
  - destruct (rmutex_unlock_inner s Q r n Hh) as (s1 & Hrun & Hh1); [lia|].
    destruct (IH s1 (n - 1) Hh1) as (s2 & Hrun2 & Hh2); [lia|].
    exists s2. replace (n - Z.of_nat (S k)) with (n - 1 - Z.of_nat k) by lia. split; [|done].
    cbn [repeat_call]. by erewrite bind_Done.
Qed.

(** C18: A free recursive mutex that is locked [S n] times counts [S n], stays locked
    during the first [n] unlocks and is free without an owner after the last. *)
Theorem rmutex_nesting (n : nat) s Q r o :
  sysinv idle s Q → Q !! NMutex r = Some (QMutex None) → rmutexes s !! r = Some (Rmutex 0 o) →
  Z.of_nat (S n) < 2 ^ 16 →
  ∃ s1 s2 s3,
    repeat_call (S n) (rmutex_lock r) s = Done s1 tt ∧
    rmutexes s1 !! r = Some (Rmutex (Z.of_nat (S n)) (sched_active_pid s1)) ∧
    sysinv idle s1 (<[NMutex r := QMutex (Some [])]> Q) ∧
    repeat_call n (rmutex_unlock r) s1 = Done s2 tt ∧
    sysinv idle s2 (<[NMutex r := QMutex (Some [])]> Q) ∧
    rmutex_unlock r s2 = Done s3 tt ∧
    sysinv idle s3 (<[NMutex r := QMutex None]> Q) ∧
    rmutexes s3 !! r = Some (Rmutex 0 KERNEL_PID_UNDEF).
Proof.
  intros Hs Hm Hr Hn. set (Q1 := <[NMutex r := QMutex (Some [])]> Q).
  destruct (rmutex_first s Q r o false Hs Hm Hr) as (sa & Hrun & Hh & _). fold Q1 in Hh.
  destruct (rmutex_relock_n n sa Q1 r 1 Hh) as (s1 & Hrun1 & Hh1); [lia|lia|].
  destruct (rmutex_unlock_n n s1 Q1 r _ Hh1) as (s2 & Hrun2 & Hh2); [lia|].
  pose proof Hh1 as (Hs1 & _ & Hr1). destruct Hh2 as (Hs2 & _ & Hr2).
  rewrite Z.add_simpl_r in Hr2.
  destruct (rmutex_unlock_last s2 Q1 r Hs2) as (s3 & Hrun3 & Hs3 & Hr3); [|done|].
  { unfold Q1. by rewrite lookup_insert_eq. }
  unfold Q1 in Hs3. rewrite insert_insert_eq in Hs3.
  exists s1, s2, s3. split.
  { cbn [repeat_call]. erewrite bind_Done; [exact Hrun1|]. unfold rmutex_lock. by erewrite bind_Done. }
  split; [by replace (Z.of_nat (S n)) with (1 + Z.of_nat n) by lia|]. done.
Qed.

(** ** Safety *)

Lemma lock_take_safe s Q r s0 Q0 :
  sysinv idle s Q → is_Some (rmutexes s !! r) → grows s0 Q0 s Q →
  safe idle (sched_active_thread s) s0 Q0
    ((pid ← thread_getpid;
      upd_rmutex r (λ rm, Rmutex (refcount rm) pid);;
      upd_rmutex r (λ rm, Rmutex (u16 (refcount rm + 1)) (owner rm));;
      mret 1) s) (λ _ _ _, True).
Proof.
  intros Hs [rm Hr] Hg. rewrite (lock_take s r rm Hr). exists Q.
  split; [by apply sysinv_rmutexes|]. split; [|done]. grow Hg.
Qed.

Lemma rmutex_lock_safe s Q r b :
  sysinv idle s Q → is_Some (Q !! NMutex r) → is_Some (rmutexes s !! r) →
  (b = false → sched_active_thread s ≠ idle) →
  safe idle (sched_active_thread s) s Q (_lock r b s) (λ _ _ _, True).
Proof.
  intros Hs Hm Hr Hidle. unfold _lock, mutex_trylock.
  eapply safe_bind; [by apply (mutex_lock_safe idle s Q r false)|].
  intros x s1 Q1 Hs1 Hg1 Ha1 _.
  assert (is_Some (rmutexes s1 !! r)) as Hr1.
  { apply elem_of_dom, (gr_rmutexes _ _ _ _ Hg1), elem_of_dom. done. }
  assert (is_Some (Q1 !! NMutex r)) as Hm1.
  { apply elem_of_dom, (gr_queues _ _ _ _ Hg1), elem_of_dom. done. }
  rewrite <- Ha1.
  destruct (Z.eqb_spec x 0) as [_|_].
  2: { erewrite bind_Done; [|reflexivity]. cbn beta iota. by eapply lock_take_safe. }
  pose proof Hr1 as [rm Hrm].
  eapply (safe_bind _ _ _ _ _ _ _ (λ _ s' _, True)).
  - erewrite bind_Done; [|by apply read_rmutex_ok]. unfold thread_getpid. kstep.
    destruct (owner rm =? _); cbn [negb]; [by exists Q1|].
    destruct b; [by exists Q1|]. unfold mutex_lock.
    eapply safe_bind with (P := λ _ _ _, True); [|intros y s2 Q2 Hs2 Hg2 Ha2 _; by exists Q2].
    eapply safe_bind; [|intros y s2 Q2 Hs2 Hg2 Ha2 _; by exists Q2].
    apply (mutex_lock_safe idle s1 Q1); [done|done| |done]. intros _. rewrite Ha1. by apply Hidle.
  - intros [] s2 Q2 Hs2 Hg2 Ha2 _; [|by exists Q2].
    rewrite <- Ha2. eapply lock_take_safe; [done| |done].
    apply elem_of_dom, (gr_rmutexes _ _ _ _ Hg2), elem_of_dom. done.
Qed.

Lemma rmutex_unlock_safe s Q r rm :
  sysinv idle s Q → is_Some (Q !! NMutex r) → rmutexes s !! r = Some rm →
  owner rm = sched_active_pid s → 0 < refcount rm →
  safe idle (sched_active_thread s) s Q (rmutex_unlock r s) (λ _ _ _, True).
Proof.
  intros Hs Hm Hr Ho Hc. unfold rmutex_unlock, thread_getpid.
  erewrite bind_Done; [|by apply read_rmutex_ok]. kstep.
  rewrite Ho, Z.eqb_refl, (proj2 (Z.ltb_lt _ _)) by done. cbn [negb orb].
  erewrite bind_Done; [|by apply upd_rmutex_ok]. cbn beta.
  erewrite bind_Done; [|apply read_rmutex_ok; simpl; apply lookup_insert_eq]. cbn beta. case_match.
  - erewrite bind_Done; [|apply upd_rmutex_ok; simpl; apply lookup_insert_eq]. cbn beta.
    set (s1 := set_rmutexes _ _).
    apply (mutex_unlock_safe idle s1 Q r s Q); [by repeat apply sysinv_rmutexes|done|].
    split; try done. simpl. rewrite !dom_insert_L. set_solver.
  - exists Q. split; [by apply sysinv_rmutexes|]. split; [grow (grows_refl s Q)|done].
Qed.

End Rmutex.
