(* ===== verification/ThreadFlags.v ===== *)
(** * Thread flags (core/thread_flags.c) *)

From S2P Require Import Prelude Bitarithm Cib LinkedList Clist Kernel Sched KernelInv WaitList SchedProps.

Definition THREAD_FLAG_MSG_WAITING : Z := Z.shiftl 1 15.
Definition THREAD_FLAG_TIMEOUT : Z := Z.shiftl 1 14.

Definition _thread_flags_clear_atomic (thread mask : Z) : M Z :=
  state ← irq_disable;
  th ← get_thread thread;
  let mask := Z.land mask (flags th) in
  upd_thread thread (λ th, set_flags (Z.land (flags th) (u16 (Z.lnot mask))) th);;
  irq_restore state;;
  mret mask.

Definition _thread_flags_wait (mask thread : Z) (threadstate : thread_status_t) (irqstate : bool) : M unit :=
  upd_thread thread (set_wait_data mask);;
  sched_set_status thread threadstate;;
  irq_restore irqstate;;
  thread_yield_higher.

Definition thread_flags_clear (mask : Z) : M Z :=
  me ← get sched_active_thread;
  _thread_flags_clear_atomic me mask.

Definition _thread_flags_wait_any (mask : Z) : M unit :=
  me ← get sched_active_thread;
  state ← irq_disable;
  th ← get_thread me;
  if Z.land (flags th) mask =? 0
  then _thread_flags_wait mask me STATUS_FLAG_BLOCKED_ANY state
  else irq_restore state.

Definition thread_flags_wait_any (mask : Z) : M Z :=
  me ← get sched_active_thread;
  _thread_flags_wait_any mask;;
  _thread_flags_clear_atomic me mask.

Definition thread_flags_wait_one (mask : Z) : M Z :=
  _thread_flags_wait_any mask;;
  me ← get sched_active_thread;
  th ← get_thread me;
  let tmp := Z.land (flags th) mask in
  (* clear all but least significant bit *)
  let tmp := Z.land tmp (u16 (Z.lnot tmp + 1)) in
  _thread_flags_clear_atomic me tmp.

Definition thread_flags_wait_all (mask : Z) : M Z :=
  state ← irq_disable;
  me ← get sched_active_thread;
  th ← get_thread me;
  (if negb (Z.land (flags th) mask =? mask)
   then _thread_flags_wait mask me STATUS_FLAG_BLOCKED_ALL state
   else irq_restore state);;
  _thread_flags_clear_atomic me mask.

(** The result of the [switch] of [thread_flags_wake]. *)
Definition flags_wakeup (th : thread_t) : Z :=
  let mask := u16 (wait_data th) in
  match status th with
  | STATUS_FLAG_BLOCKED_ANY => Z.land (flags th) mask
  | STATUS_FLAG_BLOCKED_ALL => b2z (Z.land (flags th) mask =? mask)
  | _ => 0
  end.

Definition thread_flags_wake (thread : Z) : M Z :=
  th ← get_thread thread;
  let wakeup := flags_wakeup th in
  (if negb (wakeup =? 0) then
     sched_set_status thread STATUS_PENDING;;
     modify (set_sched_context_switch_request 1)
   else mret tt);;
  mret wakeup.

Definition thread_flags_set (thread mask : Z) : M unit :=
  state ← irq_disable;
  upd_thread thread (λ th, set_flags (Z.lor (flags th) mask) th);;
  wakeup ← thread_flags_wake thread;
  if negb (wakeup =? 0) then irq_restore state;; thread_yield_higher
  else irq_restore state.

Section Flags.
Context (idle : Z).

Lemma runnable_no_reader s Q t :
  kinv s Q → runnable s t → ∀ b l, Q !! NReaders b = Some (QWait l) → t ∉ l.
Proof.
  intros Hk (th & Hth & Hon) b l Hl Hin.
  destruct (ki_mem _ _ Hk _ _ t Hl Hin) as (th' & Hth' & Hst & _). simplify_eq.
  simpl in Hst. by rewrite Hst in Hon.
Qed.

Lemma crit_flags s Q t th f :
  crit idle s Q → threads s !! t = Some th →
  crit idle (set_threads (<[t := set_flags f th]> (threads s)) s) Q.
Proof.
  intros Hc Ht. apply (crit_field idle s Q t th); try done; [|by left].
  apply (ip_thread _ _ (cr_ipc _ _ _ Hc) _ _ Ht).
Qed.

(** Storing what a blocking caller waits for. *)
Lemma crit_wait_data s Q t th d :
  crit idle s Q → threads s !! t = Some th → on_runqueue (status th) = true →
  crit idle (set_threads (<[t := set_wait_data d th]> (threads s)) s) Q.
Proof.
  intros Hc Ht Hon. apply (crit_field idle s Q t th); try done.
  - destruct (ip_thread _ _ (cr_ipc _ _ _ Hc) _ _ Ht) as (_ & Hq & Hs). split; [|done].
    simpl. by destruct (status th).
  - right; right. apply (runnable_no_reader s); [apply Hc|by exists th].
Qed.

(** A thread that waits for flags is in no list. *)
Lemma flags_wakeup_detached s Q t th :
  kinv s Q → threads s !! t = Some th → flags_wakeup th ≠ 0 →
  detached Q t ∧ on_runqueue (status th) = false.
Proof.
  intros Hk Ht Hw. split; [|by destruct (status th) eqn:Hst; unfold flags_wakeup in Hw; rewrite Hst in Hw].
  apply (kinv_detached_status s Q t th); [done|done|].
  intros a Ha. unfold flags_wakeup in Hw. destruct (status th) eqn:Hst; try done;
    destruct a; simpl in Ha; naive_solver.
Qed.

(** A runnable thread does not wait for flags. *)
Lemma runnable_no_flags s t th :
  runnable s (sched_active_thread s) → threads s !! t = Some th →
  sched_active_thread s = t → flags_wakeup th = 0.
Proof.
  intros (me & Hme & Hon) Ht Ha. rewrite Ha in Hme. assert (th = me) as -> by congruence.
  unfold flags_wakeup. by destruct (status me).
Qed.

(** [thread_flags_wake] inside a critical section. *)
Lemma thread_flags_wake_ok s Q t th :
  crit idle s Q → threads s !! t = Some th → (sched_active_thread s = t → flags_wakeup th = 0) →
  if flags_wakeup th =? 0 then thread_flags_wake t s = Done s 0
  else sched_active_thread s ≠ t ∧
    ∃ h c l, let s' := set_sched_context_switch_request 1 (status_state s t th STATUS_PENDING h c) in
    thread_flags_wake t s = Done s' (flags_wakeup th) ∧ Q !! NRq (priority th) = Some (QRun l) ∧
    crit idle s' (<[NRq (priority th) := QRun (l ++ [t])]> Q).
Proof.
  intros Hc Ht Hact. unfold thread_flags_wake. destruct (Z.eqb_spec (flags_wakeup th) 0) as [H0|H0].
  - kstep. rewrite H0. reflexivity.
  - destruct (flags_wakeup_detached s Q t th (cr_kinv _ _ _ Hc) Ht H0) as [Hd Hoff].
    assert (sched_active_thread s ≠ t) as Hne by auto.
    split; [done|].
    destruct (crit_wake idle s Q t th STATUS_PENDING Hc Ht Hoff Hd eq_refl Hne
      ltac:(intros Hx; unfold flags_wakeup in H0; by rewrite Hx in H0)) as (h & c & l & Hset & Hl & Hc').
    exists h, c, l. split; [|split; [done|by apply crit_request]].
    kstep. rewrite (proj2 (Z.eqb_neq _ _) H0). cbn [negb].
    erewrite bind_Done; [|erewrite bind_Done; [|exact Hset]; reflexivity]. done.
Qed.

(** Setting flags readies the target exactly when it waits for flags that are now
    set, and preempts the caller exactly when the priority of the target is better. *)
Theorem thread_flags_set_outcome s Q t th mask me :
  sysinv idle s Q → runs_best s Q → threads s !! t = Some th →
  threads s !! sched_active_thread s = Some me →
  let th' := set_flags (Z.lor (flags th) mask) th in
  if flags_wakeup th' =? 0
  then ∃ s', thread_flags_set t mask s = Done s' tt ∧ sysinv idle s' Q ∧
    threads s' = <[t := th']> (threads s)
  else ∃ l, Q !! NRq (priority th) = Some (QRun l) ∧
    stops (thread_flags_set t mask s) tt (λ switched s',
      sysinv idle s' (<[NRq (priority th) := QRun (l ++ [t])]> Q) ∧
      switched = (priority th <? priority me) ∧
      sched_active_thread s' = if priority th <? priority me then t else sched_active_thread s).
Proof.
  intros Hs Hbest Ht Hme th'. pose proof (crit_enter _ _ _ Hs) as Hc.
  pose proof Hs as [_ Hirq Hp (me0 & Hme0 & Hon)]. assert (me0 = me) as -> by congruence. clear Hme0.
  pose proof (cr_kinv _ _ _ (sy_crit _ _ _ Hs)) as Hk.
  set (s1 := set_threads (<[t := th']> (threads s)) (set_irq_on false s)).
  assert (crit idle s1 Q) as Hc1 by (by apply (crit_flags (set_irq_on false s))).
  assert (threads s1 !! t = Some th') as Ht1 by (simpl; by rewrite lookup_insert_eq).
  assert (runnable s1 (sched_active_thread s1)) as Hr1.
  { unfold runnable. simpl. destruct (decide (t = sched_active_thread s)) as [->|].
    - exists th'. rewrite lookup_insert_eq. simplify_eq. done.
    - exists me. by rewrite lookup_insert_ne. }
  pose proof (thread_flags_wake_ok s1 Q t th' Hc1 Ht1 (runnable_no_flags s1 t th' Hr1 Ht1)) as Hwake.
  assert (∀ r, (upd_thread t (λ th, set_flags (Z.lor (flags th) mask) th);;
    wakeup ← thread_flags_wake t;
    if negb (wakeup =? 0) then irq_restore true;; thread_yield_higher else irq_restore true)
    (set_irq_on false s) = r → thread_flags_set t mask s = r) as Hrun.
  { intros r <-. unfold thread_flags_set. kstep. by rewrite Hirq. }
  destruct (flags_wakeup th' =? 0) eqn:Hw.
  - destruct (restore_ok idle s1 Q Hc1 Hp Hr1) as [Hrest Hs2]. eexists. split; [|split; [exact Hs2|done]].
    apply Hrun. kstep. erewrite bind_Done; [|exact Hwake]. exact Hrest.
  - destruct Hwake as (Hne & h & c & l & Hwake & Hl & Hc2). exists l. split; [done|].
    set (s2 := set_sched_context_switch_request 1 _) in *.
    assert (runnable s2 (sched_active_thread s2)) as Hr2.
    { exists me. simpl in *. by rewrite !lookup_insert_ne. }
    destruct (restore_ok idle s2 _ Hc2 Hp Hr2) as [Hrest Hs3].
    rewrite (Hrun _ eq_refl). kstep. erewrite bind_Done; [|exact Hwake]. cbn beta. rewrite Hw. cbn [negb].
    erewrite bind_Done; [|exact Hrest]. cbn beta.
    unfold thread_yield_higher. rewrite (sy_irq _ _ _ Hs3), (cr_isr _ _ _ (sy_crit _ _ _ Hs3)). cbn [negb andb].
    destruct (ki_thread _ _ Hk _ _ Ht) as (_ & Hpr & _).
    pose proof (next_ready_wake Q _ _ (priority th) t l (runs_best_prio s Q me Hbest Hk Hme) Hpr Hl) as Hn.
    pose proof Hs3 as [[Hk3 Hipc3 _ Hisr3 Hid3] Hirq3 _ _].
    simpl in Hne, Hn. change (priority th') with (priority th) in *.
    destruct (priority th <? priority me);
      (destruct (context_switch_stops idle _ _ _ _ Hk3 Hipc3 Hisr3 Hid3 Hirq3 Hn)
        as [(s' & Hcs & Hsw)|(s' & k & Hcs & Hkk & Hsw)];
       destruct Hsw as (Hs' & _ & Ha & _ & Hb); simpl in Hb;
       first [rewrite bool_decide_false in Hb by congruence|rewrite bool_decide_true in Hb by done];
       try done).
    + right. by exists s', k.
    + left. by exists s'.
Qed.

(** ** Waiting *)

Lemma clear_mask fl m : uint 16 fl → Z.land fl (u16 (Z.lnot (Z.land m fl))) = Z.ldiff fl m.
Proof.
  intros Hfl. apply Z.bits_inj'. intros i Hi. rewrite Z.land_spec, Z.ldiff_spec. unfold wrap.
  destruct (decide (i < 16)).
  - rewrite Z.mod_pow2_bits_low, Z.lnot_spec, Z.land_spec by lia.
    by destruct (Z.testbit fl i), (Z.testbit m i).
  - by rewrite (testbit_lt_pow2 fl 16) by (unfold uint in Hfl; lia).
Qed.

(** The thread after clearing [mask] in its flags. *)
Definition cleared (mask : Z) (th : thread_t) : thread_t := set_flags (Z.ldiff (flags th) mask) th.

Lemma sysinv_flags s Q t th f :
  sysinv idle s Q → threads s !! t = Some th →
  sysinv idle (set_threads (<[t := set_flags f th]> (threads s)) s) Q.
Proof.
  intros [Hc Hirq Hp (me & Hme & Hon)] Ht. split; try done; [by apply crit_flags|].
  unfold runnable. simpl. destruct (decide (t = sched_active_thread s)) as [->|].
  - eexists. rewrite lookup_insert_eq. split; [done|]. by simplify_eq.
  - exists me. by rewrite lookup_insert_ne.
Qed.

Lemma clear_atomic_run s Q t th mask :
  sysinv idle s Q → threads s !! t = Some th → uint 16 (flags th) →
  _thread_flags_clear_atomic t mask s =
    Done (set_threads (<[t := cleared mask th]> (threads s)) s) (Z.land mask (flags th)).
Proof.
  intros Hs Ht Hfl. pose proof Hs as [Hc Hirq Hp _]. unfold _thread_flags_clear_atomic.
  kstep. rewrite Hirq. do 2 kstep. rewrite clear_mask by done.
  erewrite bind_Done; [|unfold irq_restore; simpl; rewrite (cr_isr _ _ _ Hc), Hp; reflexivity].
  unfold mret, M_ret. f_equal. destruct s; simpl in *. by subst.
Qed.

(** The blocking part of the three waiting calls: the caller stores the mask,
    leaves the run queue and another thread runs. *)
Lemma flags_wait_blocks s Q me mask st :
  sysinv idle s Q → threads s !! sched_active_thread s = Some me → sched_active_thread s ≠ idle →
  st = STATUS_FLAG_BLOCKED_ANY ∨ st = STATUS_FLAG_BLOCKED_ALL →
  ∃ s1 l, let t := sched_active_thread s in
    _thread_flags_wait mask t st true (set_irq_on false s) = (irq_restore true;; thread_yield_higher) s1 ∧
    Q !! NRq (priority me) = Some (QRun (t :: l)) ∧ crit idle s1 (<[NRq (priority me) := QRun l]> Q) ∧
    yield_pending s1 = false ∧ sched_active_thread s1 = t ∧ in_isr s1 = false ∧
    grows s Q s1 (<[NRq (priority me) := QRun l]> Q) ∧
    threads s1 = <[t := set_status st (set_wait_data mask me)]> (threads s).
Proof.
  intros Hs Hme Hidle Hst. pose proof (crit_enter _ _ _ Hs) as Hc.
  pose proof Hs as [_ Hirq Hp (me0 & Hme0 & Hon)]. assert (me0 = me) as -> by congruence. clear Hme0.
  pose proof (crit_wait_data _ Q _ me mask Hc Hme Hon) as Hc1. set (s1 := set_threads _ _) in *.
  assert (threads s1 !! sched_active_thread s1 = Some (set_wait_data mask me)) as Hme1
    by (simpl; by rewrite lookup_insert_eq).
  destruct (crit_block idle s1 Q _ st Hc1 Hme1) as (h & c & l & Hset & Hl & Hc2 & _); try done.
  { by destruct Hst as [->| ->]. }
  { by destruct Hst as [->| ->]. }
  eexists _, l. split; [|split; [exact Hl|split; [exact Hc2|]]].
  - unfold _thread_flags_wait. kstep. erewrite bind_Done; [|exact Hset]. reflexivity.
  - split; [done|]. split; [done|]. split; [apply Hc|]. split.
    + grow (grows_refl s Q).
    + simpl. by rewrite insert_insert_eq.
Qed.

(** C17: Waiting for any flag of a mask returns and clears those that are set, or
    blocks with the mask and does so as soon as the thread is resumed. *)
Theorem thread_flags_wait_any_outcome s Q mask me :
  sysinv idle s Q → threads s !! sched_active_thread s = Some me → sched_active_thread s ≠ idle →
  uint 16 (flags me) →
  let t := sched_active_thread s in
  let taken (s0 : kernel) (th : thread_t) := set_threads (<[t := cleared mask th]> (threads s0)) s0 in
  if Z.land (flags me) mask =? 0
  then ∃ s' k Q', thread_flags_wait_any mask s = Yield s' k ∧ sysinv idle s' Q' ∧
    threads s' !! t = Some (set_status STATUS_FLAG_BLOCKED_ANY (set_wait_data mask me)) ∧
    sched_active_thread s' ≠ t ∧
    ∀ s2 Q2 th2, sysinv idle s2 Q2 → threads s2 !! t = Some th2 → uint 16 (flags th2) →
      k s2 = Done (taken s2 th2) (Z.land mask (flags th2)) ∧ sysinv idle (taken s2 th2) Q2
  else thread_flags_wait_any mask s = Done (taken s me) (Z.land mask (flags me)) ∧
    sysinv idle (taken s me) Q.
Proof.
  intros Hs Hme Hidle Hfl t taken. pose proof (sy_irq _ _ _ Hs) as Hirq.
  assert (∀ r, _thread_flags_wait_any mask s = r ↔
    (if Z.land (flags me) mask =? 0 then _thread_flags_wait mask t STATUS_FLAG_BLOCKED_ANY true
     else irq_restore true) (set_irq_on false s) = r) as Hrun.
  { intros r. unfold _thread_flags_wait_any. do 2 kstep. rewrite Hirq. kstep. done. }
  destruct (Z.land (flags me) mask =? 0) eqn:Hw.
  - destruct (flags_wait_blocks s Q me mask STATUS_FLAG_BLOCKED_ANY Hs Hme Hidle ltac:(by left))
      as (s1 & l & Hwait & Hl & Hc1 & Hp1 & Ha1 & Hi1 & _ & Hth1). fold t in Hwait, Hl, Ha1, Hth1.
    assert (threads s1 !! sched_active_thread s1 =
      Some (set_status STATUS_FLAG_BLOCKED_ANY (set_wait_data mask me))) as Hme1
      by (rewrite Ha1, Hth1; apply lookup_insert_eq).
    destruct (blocked_switch idle s1 _ _ Hc1 Hp1 Hme1 eq_refl) as (s' & Hr & Hy & Hs' & Hun & _ & Hne).
    eexists s', _, _. split; [|split; [exact Hs'|split; [|split; [by rewrite <- Ha1|]]]].
    + unfold thread_flags_wait_any. kstep. erewrite bind_Yield; [reflexivity|]. apply Hrun.
      rewrite Hwait. erewrite bind_Done; [|exact Hr]. exact Hy.
    + rewrite <- Ha1. by apply (unswitched_blocked _ _ _ _ Hun).
    + intros s2 Q2 th2 Hs2 Hth2 Hfl2. split; [|by apply sysinv_flags].
      by apply (clear_atomic_run s2 Q2).
  - split; [|by apply sysinv_flags]. unfold thread_flags_wait_any. kstep.
    erewrite bind_Done; [|apply Hrun; by eapply (irq_roundtrip idle)]. by apply (clear_atomic_run s Q).
Qed.

(** ** Safety *)

Lemma clear_atomic_safe s Q t mask s0 Q0 :
  sysinv idle s Q → is_Some (threads s !! t) → grows s0 Q0 s Q →
  safe idle (sched_active_thread s) s0 Q0 (_thread_flags_clear_atomic t mask s) (λ _ _ _, True).
Proof.
  intros Hs [th Ht] Hg. pose proof Hs as [Hc Hirq Hp _]. unfold _thread_flags_clear_atomic.
  kstep. rewrite Hirq. do 2 kstep.
  erewrite bind_Done; [|unfold irq_restore; simpl; rewrite (cr_isr _ _ _ Hc), Hp; reflexivity].
  exists Q. split; [|split; [grow Hg|done]].
  pose proof (sysinv_flags s Q t th (Z.land (flags th) (u16 (Z.lnot (Z.land mask (flags th))))) Hs Ht) as Hs'.
  by replace (set_irq_on true _) with (set_threads (<[t := set_flags (Z.land (flags th)
    (u16 (Z.lnot (Z.land mask (flags th))))) th]> (threads s)) s) by (destruct s; simpl in *; by subst).
Qed.

(** Blocking with a mask, then carrying on with [f]. *)
Lemma flags_wait_safe {B} s Q mask st (b : bool) (f : M B) P :
  sysinv idle s Q → sched_active_thread s ≠ idle →
  st = STATUS_FLAG_BLOCKED_ANY ∨ st = STATUS_FLAG_BLOCKED_ALL →
  (∀ s' Q', sysinv idle s' Q' → grows s Q s' Q' → sched_active_thread s' = sched_active_thread s →
     safe idle (sched_active_thread s) s' Q' (f s') P) →
  safe idle (sched_active_thread s) s Q
    (((if b then _thread_flags_wait mask (sched_active_thread s) st true else irq_restore true);; f)
       (set_irq_on false s)) P.
Proof.
  intros Hs Hidle Hst Hf. destruct (sy_active _ _ _ Hs) as (me & Hme & Hon).
  eapply safe_bind with (P := λ _ _ _, True); [|intros _ s' Q' Hs' Hg' Ha' _; by eapply Hf].
  destruct b.
  - destruct (flags_wait_blocks s Q me mask st Hs Hme Hidle Hst)
      as (s1 & l & -> & Hl & Hc1 & Hp1 & Ha1 & _ & Hg1 & _).
    by eapply safe_restore_yield.
  - eapply safe_restore; [apply crit_enter; exact Hs|by exists me|grow (grows_refl s Q)|done].
Qed.

Lemma active_exists s Q s' Q' :
  sysinv idle s Q → grows s Q s' Q' → is_Some (threads s' !! sched_active_thread s).
Proof.
  intros Hs Hg. destruct (sy_active _ _ _ Hs) as (me & Hme & _).
  apply elem_of_dom, (gr_threads _ _ _ _ Hg), elem_of_dom. by exists me.
Qed.

Lemma wait_any_safe s Q mask :
  sysinv idle s Q → sched_active_thread s ≠ idle →
  safe idle (sched_active_thread s) s Q (_thread_flags_wait_any mask s) (λ _ _ _, True).
Proof.
  intros Hs Hidle. unfold _thread_flags_wait_any. do 2 kstep. rewrite (sy_irq _ _ _ Hs).
  destruct (sy_active _ _ _ Hs) as (me & Hme & Hon). kstep. case_match.
  - destruct (flags_wait_blocks s Q me mask STATUS_FLAG_BLOCKED_ANY Hs Hme Hidle ltac:(by left))
      as (s1 & l & Hrun & Hl & Hc1 & Hp1 & Ha1 & _ & Hg1 & _).
    simpl sched_active_thread. rewrite Hrun. by eapply safe_restore_yield.
  - eapply safe_restore; [apply crit_enter; exact Hs|by exists me|grow (grows_refl s Q)|done].
Qed.

Lemma thread_flags_wait_any_safe s Q mask :
  sysinv idle s Q → sched_active_thread s ≠ idle →
  safe idle (sched_active_thread s) s Q (thread_flags_wait_any mask s) (λ _ _ _, True).
Proof.
  intros Hs Hidle. unfold thread_flags_wait_any. kstep.
  eapply safe_bind; [by apply wait_any_safe|].
  intros _ s' Q' Hs' Hg' Ha' _. rewrite <- Ha' at 1. apply (clear_atomic_safe s' Q'); [done| |done].
  by eapply active_exists.
Qed.

Lemma thread_flags_wait_one_safe s Q mask :
  sysinv idle s Q → sched_active_thread s ≠ idle →
  safe idle (sched_active_thread s) s Q (thread_flags_wait_one mask s) (λ _ _ _, True).
Proof.
  intros Hs Hidle. unfold thread_flags_wait_one. eapply safe_bind; [by apply wait_any_safe|].
  intros _ s' Q' Hs' Hg' Ha' _. destruct (active_exists _ _ _ _ Hs Hg') as [th Hth].
  kstep. rewrite Ha'. kstep. rewrite <- Ha' at 1.
  apply (clear_atomic_safe s' Q'); [done|by exists th|done].
Qed.

Lemma thread_flags_wait_all_safe s Q mask :
  sysinv idle s Q → sched_active_thread s ≠ idle →
  safe idle (sched_active_thread s) s Q (thread_flags_wait_all mask s) (λ _ _ _, True).
Proof.
  intros Hs Hidle. unfold thread_flags_wait_all. do 2 kstep. rewrite (sy_irq _ _ _ Hs).
  destruct (sy_active _ _ _ Hs) as (me & Hme & Hon). kstep.
  change (sched_active_thread (set_irq_on false s)) with (sched_active_thread s). apply (flags_wait_safe s Q); [done|done|by right|].
  intros s' Q' Hs' Hg' Ha'. rewrite <- Ha' at 1. apply (clear_atomic_safe s' Q'); [done| |done].
  by eapply active_exists.
Qed.

Lemma thread_flags_set_safe s Q t mask :
  sysinv idle s Q → is_Some (threads s !! t) →
  safe idle (sched_active_thread s) s Q (thread_flags_set t mask s) (λ _ _ _, True).
Proof.
  intros Hs [th Ht]. pose proof (crit_enter _ _ _ Hs) as Hc. pose proof Hs as [_ Hirq Hp Hr].
  unfold thread_flags_set. kstep. rewrite Hirq. kstep.
  pose proof (crit_flags _ Q t th (Z.lor (flags th) mask) Hc Ht) as Hc1. set (s1 := set_threads _ _) in *.
  set (th' := set_flags _ th) in *.
  assert (threads s1 !! t = Some th') as Ht1 by (simpl; by rewrite lookup_insert_eq).
  assert (runnable s1 (sched_active_thread s1)) as Hr1.
  { destruct Hr as (me & Hme & Hon). unfold runnable. simpl. destruct (decide (t = sched_active_thread s)) as [->|].
    - exists th'. rewrite lookup_insert_eq. by simplify_eq.
    - exists me. by rewrite lookup_insert_ne. }
  assert (grows s Q s1 Q) as Hg1 by (grow (grows_refl s Q)).
  pose proof (thread_flags_wake_ok s1 Q t th' Hc1 Ht1 (runnable_no_flags s1 t th' Hr1 Ht1)) as Hwake.
  destruct (flags_wakeup th' =? 0) eqn:Hw.
  - erewrite bind_Done; [|exact Hwake]. cbn [Z.eqb negb]. by eapply safe_restore.
  - destruct Hwake as (Hne & h & c & l & Hwake & Hl & Hc2).
    erewrite bind_Done; [|exact Hwake]. rewrite Hw. cbn [negb].
    eapply safe_restore_yield; [exact Hc2| |done]. grow Hg1.
Qed.

End Flags.
