(* ===== verification/Mbox.v ===== *)
(** * Mailboxes (core/mbox.c)

    A mailbox is a ring of messages with two lists of blocked threads.  A writer
    that finds a waiting reader hands its message over directly; otherwise it
    queues it, blocking while the ring is full. *)

From S2P Require Import Prelude Bitarithm Cib LinkedList Clist Kernel Sched KernelInv WaitList SchedProps ThreadCalls.

Definition get_mbox (b : Z) : M mbox_t := λ s, lift (mboxes s !! b) s.
Definition set_mbox_cib (b : Z) (c : cib_t) : M unit :=
  λ s, match mboxes s !! b with
       | Some mb => Done (set_mboxes (<[b := Mbox c (mbox_msg_array mb)]> (mboxes s)) s) tt
       | None => Fault
       end.

Definition _wake_waiter (thread : Z) (irqstate : bool) : M unit :=
  sched_set_status thread STATUS_PENDING;;
  th ← get_thread thread;
  let process_priority := u16 (priority th) in
  irq_restore irqstate;;
  sched_switch process_priority.

Definition _wait (wait_list : node) (irqstate : bool) : M unit :=
  me ← get sched_active_thread;
  sched_set_status me STATUS_MBOX_BLOCKED;;
  thread_add_to_list wait_list me;;
  irq_restore irqstate;;
  thread_yield.

(** Queueing the message at [msg]. *)
Definition mbox_queue (mbox msg : Z) : M unit :=
  pid ← get sched_active_pid;
  m ← read_msg msg;
  write_msg msg (Msg pid (type m) (content m));;
  mb ← get_mbox mbox;
  let '(i, c) := cib_put_unsafe (mbox_cib mb) in
  set_mbox_cib mbox c;;
  m ← read_msg msg;
  write_msg (msg_addr (mbox_msg_array mb) i) m.

Definition _mbox_put (mbox msg : Z) (blocking : bool) : M Z :=
  irqstate ← irq_disable;
  next ← on_nodes_r (λ h, list_remove_head h (NReaders mbox));
  match next with
  | Some next =>
      thread ← container_of next;
      th ← get_thread thread;
      m ← read_msg msg;
      write_msg (wait_data th) m;;
      _wake_waiter thread irqstate;;
      mret 1
  | None =>
      mb ← get_mbox mbox;
      if cib_full (mbox_cib mb) then
        if blocking then
          _wait (NWriters mbox) irqstate;;
          irqstate ← irq_disable;
          mbox_queue mbox msg;; irq_restore irqstate;; mret 1
        else irq_restore irqstate;; mret 0
      else mbox_queue mbox msg;; irq_restore irqstate;; mret 1
  end.

Definition _mbox_get (mbox msg : Z) (blocking : bool) : M Z :=
  irqstate ← irq_disable;
  mb ← get_mbox mbox;
  if negb (cib_avail (mbox_cib mb) =? 0) then
    let '(i, c) := cib_get_unsafe (mbox_cib mb) in
    set_mbox_cib mbox c;;
    m ← read_msg (msg_addr (mbox_msg_array mb) i);
    write_msg msg m;;
    next ← on_nodes_r (λ h, list_remove_head h (NWriters mbox));
    match next with
    | Some next =>
        thread ← container_of next;
        _wake_waiter thread irqstate;;
        mret 1
    | None => irq_restore irqstate;; mret 1
    end
  else if blocking then
    me ← get sched_active_thread;
    upd_thread me (set_wait_data msg);;
    _wait (NReaders mbox) irqstate;;
    mret 1
  else irq_restore irqstate;; mret 0.

Definition mbox_put (mbox msg : Z) : M unit := _mbox_put mbox msg true;; mret tt.
Definition mbox_try_put (mbox msg : Z) : M Z := _mbox_put mbox msg false.
Definition mbox_get (mbox msg : Z) : M unit := _mbox_get mbox msg true;; mret tt.
Definition mbox_try_get (mbox msg : Z) : M Z := _mbox_get mbox msg false.

(** ** Messages in memory *)

Lemma msg_addr_inj a i j : msg_addr a i = msg_addr a j → i = j.
Proof. unfold msg_addr, SIZEOF_MSG_T. lia. Qed.

(** The messages in a ring, oldest first. *)
Definition ring_contents (M : gmap Z msg_t) (q : cib_t) (array : Z) : list msg_t :=
  (λ i, M !!! msg_addr array i) <$> cib_slots q.

Lemma read_msg_ok a m s : mem s !! a = Some m → read_msg a s = Done s m.
Proof. intros H. unfold read_msg, lift. by rewrite H. Qed.

Lemma write_msg_ok a m s :
  is_Some (mem s !! a) → write_msg a m s = Done (set_mem (<[a := m]> (mem s)) s) tt.
Proof. intros [v H]. unfold write_msg. by rewrite H. Qed.

Lemma get_mbox_ok b mb s : mboxes s !! b = Some mb → get_mbox b s = Done s mb.
Proof. intros H. unfold get_mbox, lift. by rewrite H. Qed.

Lemma set_mbox_cib_ok b mb c s :
  mboxes s !! b = Some mb →
  set_mbox_cib b c s = Done (set_mboxes (<[b := Mbox c (mbox_msg_array mb)]> (mboxes s)) s) tt.
Proof. intros H. unfold set_mbox_cib. by rewrite H. Qed.

(** The slot an index of the ring stands for. *)
Lemma mbox_slot mem mb x :
  mbox_ok mem mb → is_Some (mem !! msg_addr (mbox_msg_array mb) (i32 (Z.land x (mask (mbox_cib mb))))).
Proof.
  intros ((k & Hk & Hm) & Hs). destruct (cib_index_range (mbox_cib mb) k x Hk Hm) as [-> Hr].
  by apply Hs.
Qed.

Section Mbox.
Context (idle : Z).

Lemma crit_mem_insert s Q a m :
  crit idle s Q → is_Some (mem s !! a) → crit idle (set_mem (<[a := m]> (mem s)) s) Q.
Proof. intros Hc Ha. apply crit_mem; [done|]. rewrite dom_insert_L. set_solver. Qed.

Lemma crit_mbox_cib s Q b mb c :
  crit idle s Q → mboxes s !! b = Some mb → mask c = mask (mbox_cib mb) →
  crit idle (set_mboxes (<[b := Mbox c (mbox_msg_array mb)]> (mboxes s)) s) Q.
Proof.
  intros [Hk [H1 H2 H3 H4] Hf Hisr Hid] Hb Hm. split; try done; [by apply (kinv_ext s)|].
  split; simpl; [done| |done|done].
  intros b' mb' [[<- <-]|[_ Hb']]%lookup_insert_Some; [|by apply H2].
  destruct (H2 b mb Hb) as [[(k & Hkr & Hmk) Hs] Hq]. split; [|done]. split; simpl.
  - exists k. by rewrite Hm.
  - intros i Hi. apply Hs. unfold cib_size in *. by rewrite <- Hm.
Qed.

(** Queueing a message inside a critical section. *)
Lemma mbox_queue_ok s Q b mb msg m :
  crit idle s Q → mboxes s !! b = Some mb → mem s !! msg = Some m →
  let '(i, c) := cib_put_unsafe (mbox_cib mb) in
  let m' := Msg (sched_active_pid s) (type m) (content m) in
  let s' := set_mem (<[msg_addr (mbox_msg_array mb) i := m']> (<[msg := m']> (mem s)))
              (set_mboxes (<[b := Mbox c (mbox_msg_array mb)]> (mboxes s)) s) in
  mbox_queue b msg s = Done s' tt ∧ crit idle s' Q.
Proof.
  intros Hc Hb Hm. destruct (cib_put_unsafe (mbox_cib mb)) as [i c] eqn:Hput. intros m' s'.
  pose proof (ip_mbox _ _ (cr_ipc _ _ _ Hc) _ _ Hb) as [Hok _].
  assert (is_Some (mem s !! msg_addr (mbox_msg_array mb) i)) as Hslot.
  { unfold cib_put_unsafe in Hput. injection Hput as <- _. by apply mbox_slot. }
  assert (mask c = mask (mbox_cib mb)) as Hmask by (unfold cib_put_unsafe in Hput; by injection Hput as _ <-).
  assert (is_Some ((<[msg := m']> (mem s)) !! msg_addr (mbox_msg_array mb) i)) as Hslot'.
  { apply elem_of_dom. rewrite dom_insert_L. apply elem_of_dom in Hslot. set_solver. }
  split.
  - unfold mbox_queue. kstep. erewrite bind_Done; [|by apply read_msg_ok]. cbn beta.
    erewrite bind_Done; [|apply write_msg_ok; by eexists]. cbn beta.
    erewrite bind_Done; [|by apply get_mbox_ok]. cbn beta. rewrite Hput.
    erewrite bind_Done; [|by apply set_mbox_cib_ok]. cbn beta.
    erewrite bind_Done; [|apply read_msg_ok; simpl; apply lookup_insert_eq]. cbn beta.
    by rewrite write_msg_ok.
  - set (s1 := set_mboxes (<[b := Mbox c (mbox_msg_array mb)]> (mboxes s)) s) in *.
    assert (crit idle (set_mem (<[msg := m']> (mem s)) s1) Q) as Hc2.
    { apply (crit_mem_insert s1); [by apply crit_mbox_cib|by eexists]. }
    exact (crit_mem_insert _ Q _ m' Hc2 Hslot').
Qed.

(** Waking the thread taken off a list, and leaving the critical section. *)
Lemma wake_waiter_run s Q t th :
  crit idle s Q → yield_pending s = false → runnable s (sched_active_thread s) →
  threads s !! t = Some th → on_runqueue (status th) = false → status th ≠ STATUS_STOPPED → detached Q t →
  ∃ l s1, Q !! NRq (priority th) = Some (QRun l) ∧ sched_active_thread s ≠ t ∧
    _wake_waiter t true s = sched_switch (priority th) s1 ∧
    sysinv idle s1 (<[NRq (priority th) := QRun (l ++ [t])]> Q) ∧
    mem s1 = mem s ∧ mboxes s1 = mboxes s ∧ (rmutexes s1 = rmutexes s ∧ sched_threads s1 = sched_threads s) ∧
    sched_active_thread s1 = sched_active_thread s ∧
    threads s1 = <[t := set_status STATUS_PENDING th]> (threads s).
Proof.
  intros Hc Hp (me & Hme & Hon) Ht Hoff Hstop Hd.
  assert (sched_active_thread s ≠ t) as Hne by (intros Heq; rewrite Heq in Hme; simplify_eq; congruence).
  destruct (crit_wake idle s Q t th STATUS_PENDING Hc Ht Hoff Hd eq_refl Hne Hstop) as (h & c & l & Hset & Hl & Hc').
  set (s2 := set_threads _ _) in *.
  assert (runnable s2 (sched_active_thread s2)) as Hr2 by (exists me; simpl; by rewrite lookup_insert_ne).
  destruct (restore_ok idle s2 _ Hc' Hp Hr2) as [Hrest Hs2].
  exists l, (set_irq_on true s2). split; [done|]. split; [done|]. split; [|done].
  unfold _wake_waiter. erewrite bind_Done; [|exact Hset]. cbn beta.
  erewrite bind_Done; [|apply get_thread_ok; simpl; by rewrite lookup_insert_eq]. cbn beta zeta.
  cbn [priority set_status]. rewrite (u16_prio s Q t th) by (done || apply Hc). by erewrite bind_Done.
Qed.

(** The preemption check after a wake-up, from the queues [Q] before it. *)
Lemma woken_stops s s1 Q Q' t th me l :
  sysinv idle s Q → runs_best s Q → threads s !! sched_active_thread s = Some me →
  (∀ p, Q' !! NRq p = Q !! NRq p) → sched_active_thread s ≠ t →
  0 ≤ priority th < SCHED_PRIO_LEVELS → Q' !! NRq (priority th) = Some (QRun l) →
  sysinv idle s1 (<[NRq (priority th) := QRun (l ++ [t])]> Q') →
  sched_active_thread s1 = sched_active_thread s →
  threads s1 !! sched_active_thread s = Some me →
  stops (sched_switch (priority th) s1) tt (λ switched s',
    sysinv idle s' (<[NRq (priority th) := QRun (l ++ [t])]> Q') ∧
    switched = (priority th <? priority me) ∧ unswitched s1 s' ∧
    sched_active_thread s' = if priority th <? priority me then t else sched_active_thread s).
Proof.
  intros Hs Hbest Hme HQ Hne Hpr Hl Hs1 Ha1 Hme1. rewrite <- Ha1 in *.
  destruct (wake_switch_stops idle s1 Q' (priority th) t l me Hs1 Hme1 Hl Hpr) as [(s' & Hr & HP)|(s' & k & Hr & Hkk & HP)].
  - congruence.
  - rewrite Ha1. destruct (runs_best_prio s Q me Hbest) as (Hp & (l0 & Hl0) & Hlow);
      [apply Hs|by rewrite <- Ha1|]. split; [done|]. split; [exists l0; by rewrite HQ|].
    intros q Hq. rewrite HQ. by apply Hlow.
  - left. by exists s'.
  - right. by exists s', k.
Qed.

(** Blocking on one of the lists of a mailbox. *)
Lemma wait_run s Q a l me s0 :
  crit idle s Q → yield_pending s = false → sched_active_thread s ≠ idle →
  (∃ b, a = NReaders b ∧ is_Some (mem s !! wait_data me) ∨ a = NWriters b) →
  Q !! a = Some (QWait l) →
  threads s !! sched_active_thread s = Some me → on_runqueue (status me) = true →
  s0 = sched_active_thread s →
  ∃ s1 lr, _wait a true s = (irq_restore true;; thread_yield) s1 ∧
    let Q' := <[a := QWait (ins_prio (prio_of (threads s)) (priority me) s0 l)]>
                (<[NRq (priority me) := QRun lr]> Q) in
    Q !! NRq (priority me) = Some (QRun (s0 :: lr)) ∧ crit idle s1 Q' ∧
    threads s1 = <[s0 := set_status STATUS_MBOX_BLOCKED me]> (threads s) ∧
    mem s1 = mem s ∧ mboxes s1 = mboxes s ∧ (rmutexes s1 = rmutexes s ∧ sched_threads s1 = sched_threads s) ∧
    sched_active_thread s1 = s0 ∧ yield_pending s1 = false.
Proof.
  intros Hc Hp Hidle Ha Hq Hme Hon ->.
  destruct (crit_block idle s Q me STATUS_MBOX_BLOCKED Hc Hme) as (h & c & lr & Hset & Hlr & Hc1 & Hd); try done.
  simpl in Hset, Hlr, Hc1, Hd. set (s1 := set_threads _ _) in *. set (Q1 := <[_:=_]> Q) in *.
  destruct (crit_enqueue idle s1 Q1 a l (sched_active_thread s) (set_status STATUS_MBOX_BLOCKED me))
    as (h2 & Hadd & Hc2); try done.
  { unfold Q1. rewrite lookup_insert_ne; [done|]. by destruct Ha as (b & [[-> _]| ->]). }
  { simpl. by rewrite lookup_insert_eq. }
  { by destruct Ha as (b & [[-> _]| ->]). }
  { intros b ->. destruct Ha as (b' & [[_ ?]|?]); done. }
  cbn [s1 threads set_threads priority set_status] in Hc2. rewrite ins_prio_status in Hc2 by done.
  exists (set_nodes h2 s1), lr. split; [|split; [done|split; [exact Hc2|done]]].
  unfold _wait. kstep. erewrite bind_Done; [|exact Hset]. cbn beta. by erewrite bind_Done.
Qed.

(** [thread_yield] by a thread that is not runnable any more. *)
Lemma thread_yield_blocked s Q th :
  crit idle s Q → irq_on s = true → yield_pending s = false →
  threads s !! sched_active_thread s = Some th → on_runqueue (status th) = false →
  thread_yield s = context_switch (set_irq_on true (set_irq_on false s)).
Proof.
  intros Hc Hirq Hp Hth Hoff. unfold thread_yield. do 2 kstep. rewrite Hirq.
  erewrite (bind_Done _ _ _ (set_irq_on false s) tt).
  2: { destruct (_ =? 0); cbn [negb]; [done|]. kstep. by rewrite Hoff. }
  erewrite bind_Done; [|unfold irq_restore; simpl; rewrite (cr_isr _ _ _ Hc), Hp; reflexivity].
  unfold thread_yield_higher. simpl. by rewrite (cr_isr _ _ _ Hc).
Qed.

Lemma restore_thread_yield_suspends s Q th :
  crit idle s Q → yield_pending s = false → threads s !! sched_active_thread s = Some th →
  on_runqueue (status th) = false →
  suspends idle ((irq_restore true;; thread_yield) s) tt s Q.
Proof.
  intros Hc Hp Hth Hoff. destruct (blocked_switch idle s Q th Hc Hp Hth Hoff) as (s' & Hr & Hy & HP).
  exists s', (λ s'', Done s'' tt). split; [|split; [done|exact HP]].
  erewrite bind_Done; [|exact Hr]. cbn beta.
  erewrite (thread_yield_blocked (set_irq_on true s) Q th); try done; [|by apply crit_irq].
  unfold thread_yield_higher in Hy. simpl in Hy. rewrite (cr_isr _ _ _ Hc) in Hy. exact Hy.
Qed.

(** ** The ring *)

Lemma ring_contents_ext M M' q a :
  (∀ i, i ∈ cib_slots q → M !!! msg_addr a i = M' !!! msg_addr a i) →
  ring_contents M q a = ring_contents M' q a.
Proof.
  intros H. apply list_fmap_ext. intros j i Hi. apply H. by eapply list_elem_of_lookup_2.
Qed.

(** [msg] is not a slot of the ring. *)
Definition outside (q : cib_t) (array msg : Z) : Prop :=
  ∀ i, 0 ≤ i < cib_size q → msg_addr array i ≠ msg.

Lemma ring_insert_outside M q a msg m :
  cib_wf q → outside q a msg → ring_contents (<[msg := m]> M) q a = ring_contents M q a.
Proof.
  intros Hwf Hout. apply ring_contents_ext. intros i Hi.
  pose proof (cib_slots_range q Hwf) as Hr. rewrite Forall_forall in Hr. specialize (Hr i Hi).
  rewrite lookup_total_insert_ne; [done|]. intros Heq. by apply (Hout i Hr).
Qed.

Lemma ring_put M q a m :
  cib_wf q → cib_full q = false →
  let '(i, q') := cib_put_unsafe q in
  cib_put q = (i, q') ∧ 0 ≤ i < cib_size q ∧ cib_wf q' ∧ cib_size q' = cib_size q ∧
  ring_contents (<[msg_addr a i := m]> M) q' a = ring_contents M q a ++ [m].
Proof.
  intros Hwf Hfull. rewrite cib_full_spec in Hfull by done. apply Z.eqb_neq in Hfull.
  pose proof Hwf as (_ & _ & Hle & _). pose proof (cib_put_spec q Hwf) as Hput.
  rewrite decide_True in Hput by lia. destruct Hput as (n & q' & Hput & Hn & Hnin & Hwf' & Hsz & Hsl).
  assert (cib_put_unsafe q = (n, q')) as ->.
  { unfold cib_put in Hput. rewrite cib_put_guard, (proj2 (Z.ltb_lt _ _)) in Hput by (done || lia). done. }
  split; [done|]. split; [done|]. split; [done|]. split; [done|].
  unfold ring_contents. rewrite Hsl, fmap_app. simpl. rewrite lookup_total_insert_eq. f_equal.
  apply list_fmap_ext. intros j i Hi. apply lookup_total_insert_ne. intros Heq%msg_addr_inj. subst.
  apply Hnin. by eapply list_elem_of_lookup_2.
Qed.

Lemma ring_get M q a :
  cib_wf q → cib_avail q ≠ 0 →
  let '(i, q') := cib_get_unsafe q in
  cib_get q = (i, q') ∧ 0 ≤ i < cib_size q ∧ cib_wf q' ∧ cib_size q' = cib_size q ∧
  ring_contents M q a = (M !!! msg_addr a i) :: ring_contents M q' a.
Proof.
  intros Hwf Hav. pose proof (cib_get_spec q Hwf) as Hget. rewrite (proj2 (Z.eqb_neq _ _) Hav) in Hget.
  destruct Hget as (n & q' & Hget & Hn & Hwf' & Hsz & Hsl).
  assert (cib_get_unsafe q = (n, q')) as ->.
  { unfold cib_get in Hget. by rewrite (proj2 (Z.eqb_neq _ _) Hav) in Hget. }
  split; [done|]. split; [done|]. split; [done|]. split; [done|].
  unfold ring_contents. by rewrite Hsl.
Qed.

Lemma ring_nil M q a : cib_avail q = 0 → ring_contents M q a = [].
Proof. intros H. unfold ring_contents, cib_slots. by rewrite H. Qed.

(** ** The calls *)

(** A mailbox in a state between calls. *)
Record mbox_at (s : kernel) (Q : queues) (b : Z) (mb : mbox_t) (readers writers : list Z) : Prop := {
  ma_mbox : mboxes s !! b = Some mb;
  ma_wf : cib_wf (mbox_cib mb);
  ma_readers : Q !! NReaders b = Some (QWait readers);
  ma_writers : Q !! NWriters b = Some (QWait writers)
}.

(** The critical section of [_mbox_put] with a waiting reader. *)
Lemma mbox_put_reader s Q b msg m t l blocking :
  sysinv idle s Q → Q !! NReaders b = Some (QWait (t :: l)) → mem s !! msg = Some m →
  ∃ th lr s1, let Q' := <[NReaders b := QWait l]> Q in
    threads s !! t = Some th ∧ Q !! NRq (priority th) = Some (QRun lr) ∧
    sched_active_thread s ≠ t ∧
    _mbox_put b msg blocking s = (sched_switch (priority th);; mret 1) s1 ∧
    sysinv idle s1 (<[NRq (priority th) := QRun (lr ++ [t])]> Q') ∧
    mem s1 = <[wait_data th := m]> (mem s) ∧ mboxes s1 = mboxes s ∧ (rmutexes s1 = rmutexes s ∧ sched_threads s1 = sched_threads s) ∧
    sched_active_thread s1 = sched_active_thread s ∧
    threads s1 = <[t := set_status STATUS_PENDING th]> (threads s).
Proof.
  intros Hs Hq Hm. pose proof (crit_enter _ _ _ Hs) as Hc. pose proof Hs as [_ Hirq Hp Hr].
  destruct (crit_dequeue idle _ Q _ _ Hc Hq) as (h & Hrm & Hc1 & Hd). simpl tail in *.
  destruct (Hd t eq_refl) as (Hdt & th & Hth & Hst & Hoff). simpl threads in Hth.
  pose proof (ip_reader _ _ (cr_ipc _ _ _ Hc) b _ t th Hq ltac:(by left) Hth) as Hwd. simpl mem in Hwd.
  set (s1 := set_nodes h (set_irq_on false s)) in *.
  pose proof (crit_mem_insert s1 _ (wait_data th) m Hc1 Hwd) as Hc2. set (s2 := set_mem _ s1) in *.
  destruct (wake_waiter_run s2 _ t th Hc2 Hp Hr Hth Hoff ltac:(simpl in Hst; congruence) Hdt)
    as (lr & s3 & Hlr & Hne & Hrun & Hs3 & Hm3 & Hb3 & Hr3 & Ha3 & Ht3).
  rewrite lookup_insert_ne in Hlr by done.
  exists th, lr, s3. split; [done|]. split; [done|]. split; [done|]. split; [|done].
  unfold _mbox_put. kstep. rewrite Hirq. erewrite bind_Done; [|exact Hrm]. cbn beta.
  change (NThread <$> head (t :: l)) with (Some (NThread t)). cbn beta iota.
  erewrite bind_Done; [|reflexivity]. cbn beta.
  erewrite bind_Done; [|apply get_thread_ok; exact Hth]. cbn beta.
  erewrite bind_Done; [|apply read_msg_ok; exact Hm]. cbn beta.
  erewrite bind_Done; [|apply write_msg_ok; exact Hwd]. cbn beta.
  unfold mbind at 1, M_bind. change (set_mem _ _) with s2. rewrite Hrun. done.
Qed.

(** [_mbox_put] without a waiting reader. *)
Lemma mbox_put_enter s Q b mb msg blocking :
  sysinv idle s Q → mboxes s !! b = Some mb → Q !! NReaders b = Some (QWait []) →
  ∃ s1, crit idle s1 Q ∧ kept (set_irq_on false s) s1 ∧ yield_pending s1 = false ∧
    _mbox_put b msg blocking s =
      (if cib_full (mbox_cib mb) then
         if blocking then
           _wait (NWriters b) true;; irqstate ← irq_disable;
           mbox_queue b msg;; irq_restore irqstate;; mret 1
         else irq_restore true;; mret 0
       else mbox_queue b msg;; irq_restore true;; mret 1) s1.
Proof.
  intros Hs Hb Hq. pose proof (crit_enter _ _ _ Hs) as Hc. pose proof Hs as [_ Hirq Hp Hr].
  destruct (crit_dequeue idle _ Q _ _ Hc Hq) as (h & Hrm & Hc1 & _). simpl tail in *.
  rewrite insert_id in Hc1 by done.
  eexists. split; [exact Hc1|]. split; [apply kept_nodes|]. split; [done|].
  unfold _mbox_put. kstep. rewrite Hirq. erewrite bind_Done; [|exact Hrm]. cbn beta.
  change (NThread <$> head []) with (@None node). cbn beta iota.
  erewrite bind_Done; [|apply get_mbox_ok; exact Hb]. done.
Qed.

(** What a writer that was blocked does when it is resumed. *)
Definition mbox_put_resumed (b msg : Z) : M Z :=
  irqstate ← irq_disable;
  mbox_queue b msg;; irq_restore irqstate;; mret 1.

(** A full mailbox without readers: the caller blocks. *)
Lemma mbox_put_blocks s Q b mb writers msg me :
  sysinv idle s Q → runs_best s Q → mbox_at s Q b mb [] writers →
  threads s !! sched_active_thread s = Some me → sched_active_thread s ≠ idle → cib_full (mbox_cib mb) = true →
  ∃ s' k lr, _mbox_put b msg true s = Yield s' k ∧ (∀ s2, k s2 = mbox_put_resumed b msg s2) ∧
    Q !! NRq (priority me) = Some (QRun (sched_active_thread s :: lr)) ∧
    sysinv idle s' (<[NWriters b := QWait (ins_prio (prio_of (threads s)) (priority me) (sched_active_thread s) writers)]>
                      (<[NRq (priority me) := QRun lr]> Q)) ∧
    mboxes s' = mboxes s ∧ mem s' = mem s ∧ sched_active_thread s' ≠ sched_active_thread s.
Proof.
  intros Hs Hbest [Hb Hwf Hrd Hwr] Hme Hidle Hfull.
  destruct (mbox_put_enter s Q b mb msg true Hs Hb Hrd) as (s1 & Hc1 & Hk1 & Hp1 & ->). rewrite Hfull.
  pose proof (kp_active _ _ Hk1) as Ha1. simpl in Ha1.
  assert (threads s1 !! sched_active_thread s1 = Some me) as Hme1
    by (rewrite Ha1; exact (eq_trans (kp_me _ _ Hk1) Hme)).
  destruct (sy_active _ _ _ Hs) as (me0 & Hme0 & Hon). assert (me0 = me) as -> by congruence.
  destruct (wait_run s1 Q (NWriters b) writers me (sched_active_thread s1) Hc1 Hp1)
    as (s2 & lr & Hwait & Hlr & Hc2 & Ht2 & Hm2 & Hb2 & Hrm2 & Ha2 & Hp2); try done.
  { congruence. } { exists b. by right. }
  assert (threads s2 !! sched_active_thread s2 = Some (set_status STATUS_MBOX_BLOCKED me)) as Hme2
    by (rewrite Ha2, Ht2; apply lookup_insert_eq).
  destruct (restore_thread_yield_suspends s2 _ _ Hc2 Hp2 Hme2 eq_refl)
    as (s' & k & Hrun & Hkk & Hs' & Hun & _ & Hne).
  eexists s', _, lr. split; [erewrite bind_Yield; [reflexivity|]; rewrite Hwait; exact Hrun|].
  split; [intros s3; simpl; by rewrite Hkk|].
  split; [by rewrite <- Ha1|]. split.
  { rewrite <- Ha1. erewrite ins_prio_ext; [exact Hs'|]. intros u. by rewrite (kp_prio _ _ Hk1). }
  rewrite (us_mboxes _ _ Hun), (us_mem _ _ Hun). simpl. rewrite Hb2, Hm2.
  split; [apply (kp_mboxes _ _ Hk1)|]. split; [apply (kp_mem _ _ Hk1)|congruence].
Qed.

(** A mailbox with room and without readers: the message is appended. *)
Lemma mbox_put_stores s Q b mb writers msg m blocking :
  sysinv idle s Q → mbox_at s Q b mb [] writers → mem s !! msg = Some m → outside (mbox_cib mb) (mbox_msg_array mb) msg →
  cib_full (mbox_cib mb) = false →
  ∃ s' mb', _mbox_put b msg blocking s = Done s' 1 ∧ sysinv idle s' Q ∧ mbox_at s' Q b mb' [] writers ∧
    ring_contents (mem s') (mbox_cib mb') (mbox_msg_array mb') =
      ring_contents (mem s) (mbox_cib mb) (mbox_msg_array mb) ++ [Msg (sched_active_pid s) (type m) (content m)].
Proof.
  intros Hs [Hb Hwf Hrd Hwr] Hm Hout Hfull.
  destruct (mbox_put_enter s Q b mb msg blocking Hs Hb Hrd) as (s1 & Hc1 & Hk1 & Hp1 & ->). rewrite Hfull.
  pose proof (kept_runnable _ _ Hk1 (sy_active _ _ _ Hs)) as Hr1.
  assert (mboxes s1 !! b = Some mb) as Hb1 by (by rewrite (kp_mboxes _ _ Hk1)).
  assert (mem s1 !! msg = Some m) as Hm1 by (by rewrite (kp_mem _ _ Hk1)).
  pose proof (mbox_queue_ok s1 Q b mb msg m Hc1 Hb1 Hm1) as Hqueue.
  pose proof (ring_put (<[msg := Msg (sched_active_pid s1) (type m) (content m)]> (mem s1))
    (mbox_cib mb) (mbox_msg_array mb) (Msg (sched_active_pid s1) (type m) (content m)) Hwf Hfull) as Hput.
  destruct (cib_put_unsafe (mbox_cib mb)) as [i c]. destruct Hqueue as [Hrun Hc2].
  destruct Hput as (_ & Hi & Hwfc & Hsz & Hring).
  destruct (restore_ok idle _ Q Hc2 Hp1 Hr1) as [Hrest Hs2].
  eexists _, (Mbox c (mbox_msg_array mb)). split; [|split; [exact Hs2|split]].
  * erewrite bind_Done; [|exact Hrun]. cbn beta. erewrite bind_Done; [|exact Hrest]. done.
  * split; [simpl; by rewrite lookup_insert_eq|done..].
  * simpl. rewrite Hring, ring_insert_outside by done. rewrite (kp_mem _ _ Hk1), (kp_active_pid _ _ Hk1).
    done.
Qed.

(** A waiting reader gets the message. *)
Lemma mbox_put_wakes s Q b mb t l writers msg m me blocking :
  sysinv idle s Q → runs_best s Q → mbox_at s Q b mb (t :: l) writers → mem s !! msg = Some m →
  threads s !! sched_active_thread s = Some me →
  ∃ th lr, threads s !! t = Some th ∧ Q !! NRq (priority th) = Some (QRun lr) ∧
    stops (_mbox_put b msg blocking s) 1 (λ switched s',
      sysinv idle s' (<[NRq (priority th) := QRun (lr ++ [t])]> (<[NReaders b := QWait l]> Q)) ∧
      mem s' !! wait_data th = Some m ∧ mboxes s' = mboxes s ∧ switched = (priority th <? priority me)).
Proof.
  intros Hs Hbest [Hb Hwf Hrd Hwr] Hm Hme.
  destruct (mbox_put_reader s Q b msg m t l blocking Hs Hrd Hm)
    as (th & lr & s1 & Hth & Hlr & Hne & -> & Hs1 & Hm1 & Hb1 & Hr1 & Ha1 & Ht1).
  exists th, lr. split; [done|]. split; [done|]. apply (stops_bind _ _ _ tt); [|done].
  destruct (ki_thread _ _ (cr_kinv _ _ _ (sy_crit _ _ _ Hs)) _ _ Hth) as (_ & Hpr & _).
  destruct (woken_stops s s1 Q (<[NReaders b := QWait l]> Q) t th me lr) as
    [(s' & Hr & H1 & H2 & H3 & H4)|(s' & k & Hr & Hkk & H1 & H2 & H3 & H4)]; try done.
  { intros p. by rewrite lookup_insert_ne. }
  { by rewrite lookup_insert_ne. }
  { by rewrite Ht1, lookup_insert_ne. }
  + left. exists s'. split; [done|]. split; [done|].
    rewrite (us_mem _ _ H3), (us_mboxes _ _ H3), Hm1, lookup_insert_eq. done.
  + right. exists s', k. split; [done|]. split; [done|]. split; [done|].
    rewrite (us_mem _ _ H3), (us_mboxes _ _ H3), Hm1, lookup_insert_eq. done.
Qed.

(** C14: Putting hands the message to the first reader; otherwise it is appended to
    the ring; when that is full the caller blocks among the writers by priority or
    the call fails without effect. *)
Theorem mbox_put_outcome s Q b mb readers writers msg m me blocking :
  sysinv idle s Q → runs_best s Q → mbox_at s Q b mb readers writers → mem s !! msg = Some m →
  outside (mbox_cib mb) (mbox_msg_array mb) msg →
  threads s !! sched_active_thread s = Some me → sched_active_thread s ≠ idle →
  match readers with
  | t :: l => ∃ th lr, threads s !! t = Some th ∧ Q !! NRq (priority th) = Some (QRun lr) ∧
      stops (_mbox_put b msg blocking s) 1 (λ switched s',
        sysinv idle s' (<[NRq (priority th) := QRun (lr ++ [t])]> (<[NReaders b := QWait l]> Q)) ∧
        mem s' !! wait_data th = Some m ∧ mboxes s' = mboxes s ∧
        switched = (priority th <? priority me))
  | [] =>
      if cib_full (mbox_cib mb) then
        if blocking : bool then ∃ s' k lr, _mbox_put b msg blocking s = Yield s' k ∧
          (∀ s2, k s2 = mbox_put_resumed b msg s2) ∧
          Q !! NRq (priority me) = Some (QRun (sched_active_thread s :: lr)) ∧
          sysinv idle s' (<[NWriters b := QWait (ins_prio (prio_of (threads s)) (priority me)
                                              (sched_active_thread s) writers)]>
                            (<[NRq (priority me) := QRun lr]> Q)) ∧
          mboxes s' = mboxes s ∧ mem s' = mem s ∧
          sched_active_thread s' ≠ sched_active_thread s
        else ∃ s', _mbox_put b msg blocking s = Done s' 0 ∧ sysinv idle s' Q ∧
          mboxes s' = mboxes s ∧ mem s' = mem s
      else ∃ s' mb', _mbox_put b msg blocking s = Done s' 1 ∧ sysinv idle s' Q ∧
        mbox_at s' Q b mb' readers writers ∧
        ring_contents (mem s') (mbox_cib mb') (mbox_msg_array mb') =
          ring_contents (mem s) (mbox_cib mb) (mbox_msg_array mb) ++
            [Msg (sched_active_pid s) (type m) (content m)]
  end.
Proof.
  intros Hs Hbest Hat Hm Hout Hme Hidle. destruct readers as [|t l]; [|by eapply mbox_put_wakes].
  destruct (cib_full (mbox_cib mb)) eqn:Hfull; [|by apply mbox_put_stores]. destruct blocking; [by eapply mbox_put_blocks|].
  destruct Hat as [Hb Hwf Hrd Hwr]. destruct (mbox_put_enter s Q b mb msg false Hs Hb Hrd) as (s1 & Hc1 & Hk1 & Hp1 & ->). rewrite Hfull.
  destruct (restore_ok idle s1 Q Hc1 Hp1 (kept_runnable _ _ Hk1 (sy_active _ _ _ Hs))) as [Hrest Hs2].
  exists (set_irq_on true s1). split; [by erewrite bind_Done|]. split; [done|].
  split; [apply (kp_mboxes _ _ Hk1)|apply (kp_mem _ _ Hk1)].
Qed.

(** A resumed writer does not look at the fill level again: if the mailbox is full
    at that moment, it overwrites the oldest message. *)
Theorem mbox_put_resumed_overruns s Q b mb readers writers msg m :
  sysinv idle s Q → mbox_at s Q b mb readers writers → mem s !! msg = Some m →
  cib_full (mbox_cib mb) = true →
  ∃ s' mb', mbox_put_resumed b msg s = Done s' 1 ∧ mboxes s' !! b = Some mb' ∧
    cib_avail (mbox_cib mb') = cib_size (mbox_cib mb') + 1 ∧
    mem s' !! msg_addr (mbox_msg_array mb) (hd 0 (cib_slots (mbox_cib mb))) =
      Some (Msg (sched_active_pid s) (type m) (content m)).
Proof.
  intros Hs [Hb Hwf Hrd Hwr] Hm Hfull. pose proof (crit_enter _ _ _ Hs) as Hc.
  pose proof Hs as [_ Hirq Hp Hr].
  pose proof (mbox_queue_ok (set_irq_on false s) Q b mb msg m Hc Hb Hm) as Hqueue.
  destruct (cib_put_unsafe (mbox_cib mb)) as [i c] eqn:Hput. destruct Hqueue as [Hrun Hc2].
  destruct (restore_ok idle _ Q Hc2 Hp Hr) as [Hrest Hs2].
  eexists _, (Mbox c (mbox_msg_array mb)). split.
  - unfold mbox_put_resumed. kstep. rewrite Hirq. erewrite bind_Done; [|exact Hrun]. cbn beta.
    erewrite bind_Done; [|exact Hrest]. done.
  - split; [simpl; by rewrite lookup_insert_eq|].
    rewrite cib_full_spec in Hfull by done. apply Z.eqb_eq in Hfull.
    pose proof (ip_mbox _ _ (cr_ipc _ _ _ Hc) _ _ Hb) as [[(k & Hk & Hmk) _] _].
    pose proof (cib_wf_size _ Hwf) as Hsz. pose proof (pow2_le_30 k Hk) as Hk30.
    pose proof (cib_size_pow2 _ _ Hk Hmk) as Hsk.
    unfold cib_put_unsafe in Hput. injection Hput as <- <-. split.
    + cbn [mbox_cib]. rewrite cib_avail_put by (fold (cib_avail (mbox_cib mb)); lia).
      fold (cib_avail (mbox_cib mb)). rewrite <- Hfull. done.
    + simpl. destruct (cib_index_range _ k (write_count (mbox_cib mb)) Hk Hmk) as [-> _].
      assert (hd 0 (cib_slots (mbox_cib mb)) = Z.land (write_count (mbox_cib mb)) (mask (mbox_cib mb))) as ->.
      { rewrite cib_slots_get; [|lia|apply Hwf]. simpl. rewrite Hmk, !land_mask by lia.
        replace (write_count (mbox_cib mb)) with
          (u32 (read_count (mbox_cib mb) + cib_avail (mbox_cib mb))).
        - rewrite <- Hfull, Hsk. unfold wrap. rewrite mod_mod_pow2 by lia.
          by rewrite <- Z.add_mod_idemp_r, Z.mod_same, Z.add_0_r by lia.
        - unfold cib_avail. rewrite wrap_add_idem_r, Zplus_minus. apply wrap_small. apply Hwf. }
      by rewrite lookup_insert_eq.
Qed.

(** [_mbox_get] from a mailbox with messages, up to the look for blocked writers. *)
Lemma mbox_get_avail s Q b mb msg blocking :
  sysinv idle s Q → mboxes s !! b = Some mb → cib_avail (mbox_cib mb) ≠ 0 → is_Some (mem s !! msg) →
  let '(i, c) := cib_get_unsafe (mbox_cib mb) in
  ∃ m, mem s !! msg_addr (mbox_msg_array mb) i = Some m ∧
  let s1 := set_mem (<[msg := m]> (mem s))
              (set_mboxes (<[b := Mbox c (mbox_msg_array mb)]> (mboxes s)) (set_irq_on false s)) in
  crit idle s1 Q ∧
  _mbox_get b msg blocking s =
    (next ← on_nodes_r (λ h, list_remove_head h (NWriters b));
     match next with
     | Some next => thread ← container_of next; _wake_waiter thread true;; mret 1
     | None => irq_restore true;; mret 1
     end) s1.
Proof.
  intros Hs Hb Hav Hmsg. pose proof (crit_enter _ _ _ Hs) as Hc.
  pose proof (ip_mbox _ _ (cr_ipc _ _ _ Hc) _ _ Hb) as [Hok _].
  destruct (cib_get_unsafe (mbox_cib mb)) as [i c] eqn:Hget.
  assert (is_Some (mem s !! msg_addr (mbox_msg_array mb) i)) as [m Hm].
  { unfold cib_get_unsafe in Hget. injection Hget as <- _. by apply mbox_slot. }
  exists m. split; [done|]. intros s1. split.
  - assert (mask c = mask (mbox_cib mb)) as Hmask by (unfold cib_get_unsafe in Hget; by injection Hget as _ <-).
    pose proof (crit_mbox_cib (set_irq_on false s) Q b mb c Hc Hb Hmask) as Hc1.
    exact (crit_mem_insert _ Q msg m Hc1 Hmsg).
  - unfold _mbox_get. kstep. rewrite (sy_irq _ _ _ Hs).
    erewrite bind_Done; [|apply get_mbox_ok; exact Hb]. cbn beta.
    rewrite (proj2 (Z.eqb_neq _ _) Hav), Hget. cbn [negb].
    erewrite bind_Done; [|apply set_mbox_cib_ok; exact Hb]. cbn beta.
    erewrite bind_Done; [|apply read_msg_ok; exact Hm]. cbn beta.
    by erewrite bind_Done; [|apply write_msg_ok; exact Hmsg].
Qed.

(** [_mbox_get] from an empty mailbox. *)
Lemma mbox_get_empty s Q b mb msg l me (blocking : bool) :
  sysinv idle s Q → mboxes s !! b = Some mb → cib_avail (mbox_cib mb) = 0 → is_Some (mem s !! msg) →
  Q !! NReaders b = Some (QWait l) →
  threads s !! sched_active_thread s = Some me → sched_active_thread s ≠ idle →
  if blocking then
    ∃ s1 lr, _mbox_get b msg true s = ((irq_restore true;; thread_yield) ≫= λ _, mret 1) s1 ∧
      let t := sched_active_thread s in
      let Q' := <[NReaders b := QWait (ins_prio (prio_of (threads s)) (priority me) t l)]>
                  (<[NRq (priority me) := QRun lr]> Q) in
      Q !! NRq (priority me) = Some (QRun (t :: lr)) ∧ crit idle s1 Q' ∧
      threads s1 = <[t := set_status STATUS_MBOX_BLOCKED (set_wait_data msg me)]> (threads s) ∧
      mem s1 = mem s ∧ mboxes s1 = mboxes s ∧ (rmutexes s1 = rmutexes s ∧ sched_threads s1 = sched_threads s) ∧
      sched_active_thread s1 = t ∧ yield_pending s1 = false
  else _mbox_get b msg false s = Done s 0.
Proof.
  intros Hs Hb Hav Hmsg Hq Hme Hidle. pose proof (crit_enter _ _ _ Hs) as Hc.
  pose proof Hs as [_ Hirq Hp (me0 & Hme0 & Hon)]. assert (me0 = me) as -> by congruence. clear Hme0.
  destruct blocking.
  - set (s0 := set_threads (<[sched_active_thread s := set_wait_data msg me]> (threads s)) (set_irq_on false s)).
    assert (crit idle s0 Q) as Hc0.
    { apply (crit_field idle (set_irq_on false s) Q _ me); try done; [|by right; left].
      destruct (ip_thread _ _ (cr_ipc _ _ _ Hc) _ _ Hme) as (_ & Hcq & Hsl). by split. }
    assert (threads s0 !! sched_active_thread s0 = Some (set_wait_data msg me)) as Hme0
      by (simpl; apply lookup_insert_eq).
    destruct (wait_run s0 Q (NReaders b) l (set_wait_data msg me) (sched_active_thread s) Hc0 Hp)
      as (s1 & lr & Hwait & Hlr & Hc1 & Ht1 & Hm1 & Hb1 & Hr1 & Ha1 & Hp1); try done.
    { exists b. by left. }
    exists s1, lr. cbn [threads s0 set_threads priority set_wait_data] in Hlr, Hc1, Ht1.
    rewrite insert_insert_eq in Ht1.
    rewrite (ins_prio_ext _ (prio_of (threads s))) in Hc1
      by (intros u; by apply (prio_of_insert _ _ me)).
    split; [|done]. unfold _mbox_get. kstep. rewrite Hirq.
    erewrite bind_Done; [|apply get_mbox_ok; exact Hb]. cbn beta. rewrite Hav. cbn [Z.eqb negb].
    kstep. erewrite bind_Done; [|apply upd_thread_ok; exact Hme]. cbn beta.
    unfold mbind at 1, M_bind. change (set_threads _ _) with s0. rewrite Hwait. done.
  - unfold _mbox_get. kstep. rewrite Hirq. erewrite bind_Done; [|apply get_mbox_ok; exact Hb]. cbn beta.
    rewrite Hav. cbn [Z.eqb negb]. by erewrite bind_Done; [|by eapply (irq_roundtrip idle)].
Qed.

(** A waiting writer is readied after the message was taken. *)
Lemma mbox_get_wakes s Q b t l me mm bb : let s1 := set_mem mm (set_mboxes bb (set_irq_on false s)) in
  sysinv idle s Q → runs_best s Q → crit idle s1 Q → Q !! NWriters b = Some (QWait (t :: l)) → threads s !! sched_active_thread s = Some me →
  ∃ th lr, threads s !! t = Some th ∧ Q !! NRq (priority th) = Some (QRun lr) ∧
    stops ((next ← on_nodes_r (λ h, list_remove_head h (NWriters b));
      match next with
      | Some next => thread ← container_of next; _wake_waiter thread true;; mret 1
      | None => irq_restore true;; mret 1
      end) s1) 1 (λ switched s',
      sysinv idle s' (<[NRq (priority th) := QRun (lr ++ [t])]> (<[NWriters b := QWait l]> Q)) ∧
      mem s' = mm ∧ mboxes s' = bb ∧ switched = (priority th <? priority me)).
Proof.
  intros s1 Hs Hbest Hc1 Hwr Hme. destruct (crit_dequeue idle s1 Q _ _ Hc1 Hwr) as (h & Hrm & Hc2 & Hd). simpl tail in *.
  pose proof (sy_active _ _ _ Hs) as Hr.
  destruct (Hd t eq_refl) as (Hdt & th & Hth & Hst & Hoff). simpl threads in Hth.
  destruct (wake_waiter_run _ _ t th Hc2 (sy_pending _ _ _ Hs) Hr Hth Hoff ltac:(simpl in Hst; congruence) Hdt)
    as (lr & s3 & Hlr & Hne & Hrun & Hs3 & Hm3 & Hb3 & Hr3 & Ha3 & Ht3).
  rewrite lookup_insert_ne in Hlr by done.
  exists th, lr. split; [done|]. split; [done|].
  assert (∀ P, stops ((sched_switch (priority th);; mret 1) s3) 1 P →
    stops ((next ← on_nodes_r (λ h, list_remove_head h (NWriters b));
      match next with
      | Some next => thread ← container_of next; _wake_waiter thread true;; mret 1
      | None => irq_restore true;; mret 1
      end) s1) 1 P) as Hconv.
  { intros P HP. erewrite bind_Done; [|exact Hrm]. cbn beta.
    change (NThread <$> head (t :: l)) with (Some (NThread t)). cbn beta iota.
    erewrite bind_Done; [|reflexivity]. cbn beta. unfold mbind at 1, M_bind. rewrite Hrun. exact HP. }
  apply Hconv. apply (stops_bind _ _ _ tt); [|done].
  destruct (ki_thread _ _ (cr_kinv _ _ _ (sy_crit _ _ _ Hs)) _ _ Hth) as (_ & Hpr & _).
  destruct (woken_stops s s3 Q (<[NWriters b := QWait l]> Q) t th me lr) as
    [(s' & Hx & H1 & H2 & H3 & H4)|(s' & k & Hx & Hkk & H1 & H2 & H3 & H4)]; try done.
  { intros p. by rewrite lookup_insert_ne. }
  { by rewrite lookup_insert_ne. }
  { by rewrite Ht3, lookup_insert_ne. }
  + left. exists s'. split; [done|]. split; [done|]. by rewrite (us_mem _ _ H3), Hm3, (us_mboxes _ _ H3), Hb3.
  + right. exists s', k. split; [done|]. split; [done|]. split; [done|]. by rewrite (us_mem _ _ H3), Hm3, (us_mboxes _ _ H3), Hb3.
Qed.

(** C15: Getting returns the oldest message, keeps the others in order and readies the
    first writer; on an empty mailbox the caller blocks among the readers or the
    call fails without effect. *)
Theorem mbox_get_outcome s Q b mb readers writers msg me blocking :
  sysinv idle s Q → runs_best s Q → mbox_at s Q b mb readers writers → is_Some (mem s !! msg) →
  outside (mbox_cib mb) (mbox_msg_array mb) msg →
  threads s !! sched_active_thread s = Some me → sched_active_thread s ≠ idle →
  match ring_contents (mem s) (mbox_cib mb) (mbox_msg_array mb) with
  | m :: rest =>
      let got s' := ∃ mb', mem s' !! msg = Some m ∧ mboxes s' !! b = Some mb' ∧ cib_wf (mbox_cib mb') ∧
        ring_contents (mem s') (mbox_cib mb') (mbox_msg_array mb') = rest in
      match writers with
      | [] => ∃ s', _mbox_get b msg blocking s = Done s' 1 ∧ sysinv idle s' Q ∧ got s'
      | t :: l => ∃ th lr, threads s !! t = Some th ∧ Q !! NRq (priority th) = Some (QRun lr) ∧
          stops (_mbox_get b msg blocking s) 1 (λ switched s',
            sysinv idle s' (<[NRq (priority th) := QRun (lr ++ [t])]> (<[NWriters b := QWait l]> Q)) ∧
            got s' ∧ switched = (priority th <? priority me))
      end
  | [] =>
      if blocking : bool then
        ∃ s1 lr, Q !! NRq (priority me) = Some (QRun (sched_active_thread s :: lr)) ∧
          threads s1 !! sched_active_thread s = Some (set_status STATUS_MBOX_BLOCKED (set_wait_data msg me)) ∧
          suspends idle (_mbox_get b msg blocking s) 1 s1
            (<[NReaders b := QWait (ins_prio (prio_of (threads s)) (priority me) (sched_active_thread s) readers)]>
               (<[NRq (priority me) := QRun lr]> Q))
      else _mbox_get b msg blocking s = Done s 0
  end.
Proof.
  intros Hs Hbest [Hb Hwf Hrd Hwr] Hmsg Hout Hme Hidle.
  destruct (decide (cib_avail (mbox_cib mb) = 0)) as [Hav|Hav].
  - rewrite ring_nil by done.
    pose proof (mbox_get_empty s Q b mb msg readers me blocking Hs Hb Hav Hmsg Hrd Hme Hidle) as Hget.
    destruct blocking; [|done].
    destruct Hget as (s1 & lr & -> & Hlr & Hc1 & Ht1 & Hm1 & Hb1 & Hr1 & Ha1 & Hp1).
    exists s1, lr. split; [done|]. split; [rewrite Ht1; apply lookup_insert_eq|].
    apply (suspends_bind idle _ _ _ _ _ tt); [|done].
    eapply restore_thread_yield_suspends; [done|done|rewrite Ha1, Ht1; apply lookup_insert_eq|done].
  - pose proof (mbox_get_avail s Q b mb msg blocking Hs Hb Hav Hmsg) as Hget.
    pose proof (ring_get (mem s) (mbox_cib mb) (mbox_msg_array mb) Hwf Hav) as Hring.
    destruct (cib_get_unsafe (mbox_cib mb)) as [i c]. destruct Hring as (_ & Hi & Hwfc & Hsz & ->).
    destruct Hget as (m & Hm & Hc1 & ->). rewrite (lookup_total_correct _ _ _ Hm).
    intros got. set (s1 := set_mem _ _) in *.
    assert (∀ s', mem s' = mem s1 → mboxes s' = mboxes s1 → got s') as Hgot.
    { intros s' Hm' Hb'. exists (Mbox c (mbox_msg_array mb)). rewrite Hm', Hb'. simpl.
      rewrite !lookup_insert_eq. split; [done|]. split; [done|]. split; [done|].
      apply ring_insert_outside; [done|]. intros j Hj. apply Hout. by rewrite <- Hsz. }
    destruct writers as [|t l].
    + destruct (crit_dequeue idle s1 Q _ _ Hc1 Hwr) as (h & Hrm & Hc2 & _). simpl tail in *. rewrite insert_id in Hc2 by done.
      destruct (restore_ok idle _ Q Hc2 (sy_pending _ _ _ Hs) (sy_active _ _ _ Hs)) as [Hrest Hs3].
      eexists. split; [erewrite bind_Done; [|exact Hrm]; cbn; erewrite bind_Done; [|exact Hrest]; done|].
      split; [exact Hs3|]. by apply Hgot.
    + destruct (mbox_get_wakes s Q b t l me _ _ Hs Hbest Hc1 Hwr Hme) as (th & lr & Hth & Hlr & Hstop).
      exists th, lr. split; [done|]. split; [done|]. eapply stops_mono; [exact Hstop|]. intros sw s' (H1 & H2 & H3 & H4).
      split; [done|]. split; [by apply Hgot|done].
Qed.

(** ** Safety *)

Lemma mbox_resumed_safe s Q b msg s0 Q0 :
  sysinv idle s Q → is_Some (mboxes s !! b) → is_Some (mem s !! msg) → grows s0 Q0 s Q →
  safe idle (sched_active_thread s) s0 Q0 (mbox_put_resumed b msg s) (λ _ _ _, True).
Proof.
  intros Hs [mb Hb] [m Hm] Hg. pose proof (crit_enter _ _ _ Hs) as Hc.
  pose proof (mbox_queue_ok (set_irq_on false s) Q b mb msg m Hc Hb Hm) as Hqueue.
  destruct (cib_put_unsafe (mbox_cib mb)) as [i c]. destruct Hqueue as [Hrun Hc2].
  unfold mbox_put_resumed. kstep. rewrite (sy_irq _ _ _ Hs). erewrite bind_Done; [|exact Hrun]. cbn beta.
  eapply safe_mono; [eapply safe_restore_ret; [exact Hc2| | |done]|done].
  - apply (sy_active _ _ _ Hs).
  - grow Hg.
Qed.

Lemma mbox_lists s Q b mb :
  sysinv idle s Q → mboxes s !! b = Some mb →
  (∃ l, Q !! NReaders b = Some (QWait l)) ∧ ∃ l, Q !! NWriters b = Some (QWait l).
Proof. intros Hs Hb. by destruct (ip_mbox _ _ (cr_ipc _ _ _ (sy_crit _ _ _ Hs)) _ _ Hb). Qed.

Lemma mbox_put_safe s Q b msg blocking :
  sysinv idle s Q → is_Some (mboxes s !! b) → is_Some (mem s !! msg) →
  (blocking = true → sched_active_thread s ≠ idle) →
  safe idle (sched_active_thread s) s Q (_mbox_put b msg blocking s) (λ _ _ _, True).
Proof.
  intros Hs [mb Hb] [m Hm] Hidle. destruct (mbox_lists s Q b mb Hs Hb) as [(rd & Hrd) (wr & Hwr)].
  destruct rd as [|t l].
  - destruct (mbox_put_enter s Q b mb msg blocking Hs Hb Hrd) as (s1 & Hc1 & Hk1 & Hp1 & ->).
    pose proof (kept_runnable _ _ Hk1 (sy_active _ _ _ Hs)) as Hr1.
    pose proof (kp_active _ _ Hk1) as Ha1. simpl in Ha1.
    assert (grows s Q s1 Q) as Hg1 by (eapply (kept_grows _ _ Q); [exact Hk1|done|by split]).
    destruct (cib_full _); [destruct blocking|].
    + destruct Hr1 as (me & Hme1 & Hon).
      destruct (wait_run s1 Q (NWriters b) wr me (sched_active_thread s1) Hc1 Hp1)
        as (s2 & lr & Hwait & Hlr & Hc2 & Ht2 & Hm2 & Hb2 & Hrm2 & Ha2 & Hp2); try done.
      { rewrite Ha1. by apply Hidle. } { exists b. by right. }
      eapply safe_bind.
      * rewrite Hwait. eapply suspends_safe.
        -- eapply restore_thread_yield_suspends; [exact Hc2|done|rewrite Ha2, Ht2; apply lookup_insert_eq|done].
        -- eapply grows_step; [exact Hg1|..]; rewrite ?Ht2, ?Hm2, ?dom_insert_L; try done; set_solver.
      * intros _ s3 Q3 Hs3 Hg3 Ha3 _. rewrite <- Ha3.
        apply (mbox_resumed_safe s3 Q3); [done| | |done].
        -- apply elem_of_dom, (gr_mboxes _ _ _ _ Hg3), elem_of_dom. by exists mb.
        -- apply elem_of_dom, (gr_mem _ _ _ _ Hg3), elem_of_dom. by exists m.
    + eapply safe_mono; [by eapply safe_restore_ret|done].
    + assert (mboxes s1 !! b = Some mb) as Hb1 by (by rewrite (kp_mboxes _ _ Hk1)).
      assert (mem s1 !! msg = Some m) as Hm1 by (by rewrite (kp_mem _ _ Hk1)).
      pose proof (mbox_queue_ok s1 Q b mb msg m Hc1 Hb1 Hm1) as Hqueue.
      destruct (cib_put_unsafe (mbox_cib mb)) as [i c]. destruct Hqueue as [Hrun Hc2].
      erewrite bind_Done; [|exact Hrun]. cbn beta.
      eapply safe_mono; [eapply safe_restore_ret; [exact Hc2|exact Hr1|grow Hg1|exact Ha1]|done].
  - destruct (mbox_put_reader s Q b msg m t l blocking Hs Hrd Hm)
      as (th & lr & s1 & Hth & Hlr & Hne & -> & Hs1 & Hm1 & Hb1 & Hr1 & Ha1 & Ht1).
    eapply safe_mono; [eapply safe_then, safe_sched_switch; [exact Hs1| |exact Ha1]|done].
    eapply grows_step; [apply (grows_refl s Q)|..]; rewrite ?Ht1, ?Hm1, ?dom_insert_L; try done; set_solver.
Qed.

Lemma mbox_get_safe s Q b msg blocking :
  sysinv idle s Q → is_Some (mboxes s !! b) → is_Some (mem s !! msg) →
  (blocking = true → sched_active_thread s ≠ idle) →
  safe idle (sched_active_thread s) s Q (_mbox_get b msg blocking s) (λ _ _ _, True).
Proof.
  intros Hs [mb Hb] Hmsg Hidle. destruct (mbox_lists s Q b mb Hs Hb) as [(rd & Hrd) (wr & Hwr)].
  pose proof (sy_active _ _ _ Hs) as Hr.
  destruct (decide (cib_avail (mbox_cib mb) = 0)) as [Hav|Hav].
  - destruct Hr as (me & Hme & Hon). destruct blocking.
    + destruct (mbox_get_empty s Q b mb msg rd me true Hs Hb Hav Hmsg Hrd Hme (Hidle eq_refl))
        as (s1 & lr & -> & Hlr & Hc1 & Ht1 & Hm1 & Hb1 & Hr1 & Ha1 & Hp1).
      eapply safe_mono; [eapply safe_then, suspends_safe|done].
      * eapply restore_thread_yield_suspends; [exact Hc1|done|rewrite Ha1, Ht1; apply lookup_insert_eq|done].
      * eapply grows_step; [apply (grows_refl s Q)|..]; rewrite ?Ht1, ?Hm1, ?dom_insert_L; try done; set_solver.
    + unfold _mbox_get. kstep. rewrite (sy_irq _ _ _ Hs).
      erewrite bind_Done; [|apply get_mbox_ok; exact Hb]. cbn beta. rewrite Hav. cbn [Z.eqb negb].
      erewrite bind_Done; [|by eapply (irq_roundtrip idle)]. by exists Q.
  - pose proof (mbox_get_avail s Q b mb msg blocking Hs Hb Hav Hmsg) as Hget.
    destruct (cib_get_unsafe (mbox_cib mb)) as [i c].
    destruct Hget as (m & Hm & Hc1 & ->). set (s1 := set_mem _ _) in *.
    assert (grows s Q s1 Q) as Hg1 by (grow (grows_refl s Q)).
    destruct (crit_dequeue idle s1 Q _ _ Hc1 Hwr) as (h & Hrm & Hc2 & Hd).
    erewrite bind_Done; [|exact Hrm]. cbn beta. destruct wr as [|t l]; simpl tail in *.
    + change (NThread <$> head []) with (@None node). cbn beta iota. rewrite insert_id in Hc2 by done.
      eapply safe_mono; [eapply safe_restore_ret; [exact Hc2|exact Hr|grow Hg1|done]|done].
    + change (NThread <$> head (t :: l)) with (Some (NThread t)). cbn beta iota.
      erewrite bind_Done; [|reflexivity]. cbn beta.
      destruct (Hd t eq_refl) as (Hdt & th & Hth & Hst & Hoff). simpl threads in Hth.
      destruct (wake_waiter_run _ _ t th Hc2 (sy_pending _ _ _ Hs) Hr Hth Hoff ltac:(simpl in Hst; congruence) Hdt)
        as (lr & s3 & Hlr & Hne & Hrun & Hs3 & Hm3 & Hb3 & Hr3 & Ha3 & Ht3).
      unfold mbind at 1, M_bind. rewrite Hrun.
      eapply safe_mono; [eapply (safe_then idle), safe_sched_switch; [exact Hs3| |exact Ha3]|done].
      eapply grows_step; [exact Hg1|..]; rewrite ?Hm3, ?Ht3; simpl; rewrite ?dom_insert_L; try done; set_solver.
Qed.

End Mbox.
