(* ===== verification/Msg.v ===== *)
(** * Messages between threads (core/msg.c) *)

From S2P Require Import Prelude Bitarithm Cib LinkedList Clist Kernel Sched KernelInv WaitList SchedProps ThreadCalls ThreadFlags Mbox.

Definition thread_has_msg_queue (th : thread_t) : bool := negb (msg_array th =? 0).

Definition set_sender_pid (p : Z) (m : msg_t) : msg_t := Msg p (type m) (content m).

(** [queue_msg]; the result is [0] when the queue is full. *)
Definition queue_msg (target m : Z) : M Z :=
  th ← get_thread target;
  let '(n, q) := cib_put (msg_queue th) in
  upd_thread target (set_msg_queue q);;
  if n <? 0 then mret 0
  else
    mm ← read_msg m;
    write_msg (msg_addr (msg_array th) n) mm;;
    upd_thread target (λ th, set_flags (Z.lor (flags th) THREAD_FLAG_MSG_WAITING) th);;
    thread_flags_wake target;;
    mret 1.

Definition _msg_send (m target_pid : Z) (block state : bool) : M Z :=
  target ← read_sched_threads target_pid;
  pid ← get sched_active_pid;
  mm ← read_msg m;
  write_msg m (set_sender_pid pid mm);;
  if target =? 0 then irq_restore state;; mret (-1)
  else
    me ← get sched_active_thread;
    th ← get_thread target;
    if decide (status th ≠ STATUS_RECEIVE_BLOCKED) then
      queued ← queue_msg target m;
      if negb (queued =? 0) then
        irq_restore state;;
        my ← get_thread me;
        (if decide (status my = STATUS_REPLY_BLOCKED) then thread_yield_higher else mret tt);;
        mret 1
      else if negb block then irq_restore state;; mret 0
      else
        upd_thread me (set_wait_data m);;
        my ← get_thread me;
        let newstatus := if decide (status my = STATUS_REPLY_BLOCKED)
                         then STATUS_REPLY_BLOCKED else STATUS_SEND_BLOCKED in
        sched_set_status me newstatus;;
        thread_add_to_list (NMsgWaiters target) me;;
        upd_thread target (λ th, set_flags (Z.lor (flags th) THREAD_FLAG_MSG_WAITING) th);;
        thread_flags_wake target;;
        irq_restore state;;
        thread_yield_higher;;
        mret 1
    else
      mm ← read_msg m;
      write_msg (wait_data th) mm;;
      sched_set_status target STATUS_PENDING;;
      irq_restore state;;
      thread_yield_higher;;
      mret 1.

Definition msg_send_to_self (m : Z) : M Z :=
  state ← irq_disable;
  pid ← get sched_active_pid;
  mm ← read_msg m;
  write_msg m (set_sender_pid pid mm);;
  me ← get sched_active_thread;
  res ← queue_msg me m;
  irq_restore state;;
  mret res.

Definition msg_send_int (m target_pid : Z) : M Z :=
  target ← read_sched_threads target_pid;
  if target =? 0 then mret (-1)
  else
    mm ← read_msg m;
    write_msg m (set_sender_pid KERNEL_PID_ISR mm);;
    th ← get_thread target;
    if decide (status th = STATUS_RECEIVE_BLOCKED) then
      mm ← read_msg m;
      write_msg (wait_data th) mm;;
      sched_set_status target STATUS_PENDING;;
      modify (set_sched_context_switch_request 1);;
      mret 1
    else queue_msg target m.

(** [msg_send] and [msg_try_send]. *)
Definition msg_send_gen (m target_pid : Z) (block : bool) : M Z :=
  isr ← irq_is_in;
  if isr : bool then msg_send_int m target_pid
  else
    pid ← get sched_active_pid;
    if pid =? target_pid then msg_send_to_self m
    else state ← irq_disable; _msg_send m target_pid block state.

Definition msg_send (m target_pid : Z) : M Z := msg_send_gen m target_pid true.
Definition msg_try_send (m target_pid : Z) : M Z := msg_send_gen m target_pid false.

Definition msg_send_receive (m reply target_pid : Z) : M Z :=
  pid ← get sched_active_pid;
  if pid =? target_pid then fault   (* assertion *)
  else
    state ← irq_disable;
    me ← read_sched_threads pid;
    sched_set_status me STATUS_REPLY_BLOCKED;;
    upd_thread me (set_wait_data reply);;
    mm ← read_msg m;
    write_msg reply mm;;
    _msg_send reply target_pid true state.

Definition msg_reply (m reply : Z) : M Z :=
  state ← irq_disable;
  mm ← read_msg m;
  target ← read_sched_threads (sender_pid mm);
  if target =? 0 then fault   (* assertion *)
  else
    th ← get_thread target;
    if decide (status th ≠ STATUS_REPLY_BLOCKED) then irq_restore state;; mret (-1)
    else
      r ← read_msg reply;
      write_msg (wait_data th) r;;
      sched_set_status target STATUS_PENDING;;
      th ← get_thread target;
      let target_prio := u16 (priority th) in
      irq_restore state;;
      sched_switch target_prio;;
      mret 1.

Definition msg_reply_int (m reply : Z) : M Z :=
  mm ← read_msg m;
  target ← read_sched_threads (sender_pid mm);
  th ← get_thread target;
  if decide (status th ≠ STATUS_REPLY_BLOCKED) then mret (-1)
  else
    r ← read_msg reply;
    write_msg (wait_data th) r;;
    sched_set_status target STATUS_PENDING;;
    modify (set_sched_context_switch_request 1);;
    mret 1.

Definition _msg_receive (m : Z) (block : bool) : M Z :=
  state ← irq_disable;
  pid ← get sched_active_pid;
  me ← read_sched_threads pid;
  th ← get_thread me;
  let '(queue_index, q) := if thread_has_msg_queue th then cib_get (msg_queue th) else (-1, msg_queue th) in
  upd_thread me (set_msg_queue q);;
  waiters ← read_node (NMsgWaiters me);
  if negb block && (negb (notnull waiters) && (queue_index =? -1)) then irq_restore state;; mret (-1)
  else
    (if 0 <=? queue_index then
       mm ← read_msg (msg_addr (msg_array th) queue_index);
       write_msg m mm
     else upd_thread me (set_wait_data m));;
    next ← on_nodes_r (λ h, list_remove_head h (NMsgWaiters me));
    match next with
    | None =>
        if queue_index <? 0 then
          sched_set_status me STATUS_RECEIVE_BLOCKED;;
          irq_restore state;;
          thread_yield_higher;;
          active ← get sched_active_thread;
          th ← get_thread active;
          if decide (status th = STATUS_RECEIVE_BLOCKED) then fault   (* assertion *)
          else mret 1
        else irq_restore state;; mret 1
    | Some next =>
        sender ← container_of next;
        m ← (if 0 <=? queue_index then
               th ← get_thread me;
               let '(n, q) := cib_put (msg_queue th) in
               upd_thread me (set_msg_queue q);;
               mret (msg_addr (msg_array th) n)
             else mret m);
        sth ← get_thread sender;
        mm ← read_msg (wait_data sth);
        write_msg m mm;;
        sender_prio ← (if decide (status sth ≠ STATUS_REPLY_BLOCKED) then
                         upd_thread sender (set_wait_data 0);;
                         sched_set_status sender STATUS_PENDING;;
                         sth ← get_thread sender;
                         mret (u16 (priority sth))
                       else mret THREAD_PRIORITY_IDLE);
        irq_restore state;;
        (if sender_prio <? THREAD_PRIORITY_IDLE then sched_switch sender_prio else mret tt);;
        mret 1
    end.

Definition msg_try_receive (m : Z) : M Z := _msg_receive m false.
Definition msg_receive (m : Z) : M Z := _msg_receive m true.

Definition msg_avail : M Z :=
  me ← get sched_active_thread;
  th ← get_thread me;
  mret (if thread_has_msg_queue th then i32 (cib_avail (msg_queue th)) else -1).

(** [cib_init] fails its assertion unless [num] is a power of two or zero. *)
Definition msg_init_queue (array num : Z) : M unit :=
  me ← get sched_active_thread;
  upd_thread me (set_msg_array array);;
  q ← lift (cib_init (u32 num));
  upd_thread me (set_msg_queue q).

Section Msg.
Context (idle : Z).

(** ** Queueing a message *)

(** What queueing a message for [t] leaves alone. *)
Record queue_kept (t : Z) (s s' : kernel) : Prop := {
  qk_active : sched_active_thread s' = sched_active_thread s;
  qk_pid : sched_active_pid s' = sched_active_pid s;
  qk_irq : irq_on s' = irq_on s;
  qk_pending : yield_pending s' = yield_pending s;
  qk_mboxes : mboxes s' = mboxes s;
  qk_rmutexes : rmutexes s' = rmutexes s;
  qk_table : sched_threads s' = sched_threads s;
  qk_mem : dom (mem s') = dom (mem s);
  qk_dom : dom (threads s') = dom (threads s);
  qk_other u : u ≠ t → threads s' !! u = threads s !! u;
  qk_me th : sched_active_thread s = t → threads s !! t = Some th →
    ∃ th', threads s' !! t = Some th' ∧ status th' = status th
}.

Lemma queue_kept_grows t s s' Q Q' s0 Q0 :
  queue_kept t s s' → dom Q ⊆ dom Q' → grows s0 Q0 s Q → grows s0 Q0 s' Q'.
Proof.
  intros [_ _ _ _ Hb Hr Htab Hm Hd _ _] HQ [? ? ? ? ? ?]. split; rewrite ?Hm, ?Hb, ?Hr, ?Hd, ?Htab; try done.
  by etrans.
Qed.

Lemma queue_kept_me t s s' me :
  queue_kept t s s' → threads s !! sched_active_thread s = Some me →
  ∃ me', threads s' !! sched_active_thread s' = Some me' ∧ status me' = status me.
Proof.
  intros Hk Hme. rewrite (qk_active _ _ _ Hk). destruct (decide (sched_active_thread s = t)) as [Heq|Hne].
  - rewrite Heq in *. by apply (qk_me _ _ _ Hk).
  - exists me. by rewrite (qk_other _ _ _ Hk).
Qed.

Definition with_flag (th : thread_t) : thread_t :=
  set_flags (Z.lor (flags th) THREAD_FLAG_MSG_WAITING) th.

(** Raising the message flag of [t]: a thread waiting for it is woken. *)
Lemma flag_msg_waiting s Q t th :
  crit idle s Q → threads s !! t = Some th → (sched_active_thread s = t → flags_wakeup (with_flag th) = 0) →
  ∃ s' Q', (∀ B (f : M B), (upd_thread t (λ th, set_flags (Z.lor (flags th) THREAD_FLAG_MSG_WAITING) th);;
             thread_flags_wake t;; f) s = f s') ∧
    crit idle s' Q' ∧ queue_kept t s s' ∧ dom Q ⊆ dom Q' ∧ mem s' = mem s ∧
    threads s' !! t = Some (if flags_wakeup (with_flag th) =? 0 then with_flag th
                            else set_status STATUS_PENDING (with_flag th)) ∧
    (∀ a, (∀ p, a ≠ NRq p) → Q' !! a = Q !! a) ∧
    (flags_wakeup (with_flag th) = 0 → Q' = Q).
Proof.
  intros Hc Ht Hact. set (s1 := set_threads (<[t := with_flag th]> (threads s)) s).
  assert (crit idle s1 Q) as Hc1 by (by apply crit_flags).
  assert (threads s1 !! t = Some (with_flag th)) as Ht1 by (simpl; apply lookup_insert_eq).
  pose proof (thread_flags_wake_ok idle s1 Q t _ Hc1 Ht1 Hact) as Hwake.
  assert (∀ s2, sched_active_thread s2 = sched_active_thread s → sched_active_pid s2 = sched_active_pid s →
    irq_on s2 = irq_on s → yield_pending s2 = yield_pending s → mboxes s2 = mboxes s →
    rmutexes s2 = rmutexes s → sched_threads s2 = sched_threads s → mem s2 = mem s →
    (∃ th2, threads s2 = <[t := th2]> (threads s) ∧ (sched_active_thread s = t → status th2 = status th)) →
    queue_kept t s s2) as Hqk.
  { intros s2 ? ? ? ? ? ? ? Hm (th2 & Ht2 & Hst). split; try done; rewrite ?Hm, ?Ht2; try done.
    - rewrite dom_insert_L. apply elem_of_dom_2 in Ht. set_solver.
    - intros u Hu. by rewrite lookup_insert_ne.
    - intros th0 Ha Hth0. exists th2. rewrite lookup_insert_eq. split; [done|].
      rewrite Hst by done. congruence. }
  destruct (flags_wakeup (with_flag th) =? 0) eqn:Hw.
  - exists s1, Q. split.
    { intros B f. erewrite bind_Done; [|by apply upd_thread_ok]. cbn beta. by erewrite bind_Done. }
    split; [done|]. split; [apply Hqk; try done; by exists (with_flag th)|]. done.
  - destruct Hwake as (Hne & h & c & l & Hwake & Hl & Hc2). eexists _, _. split.
    { intros B f. erewrite bind_Done; [|by apply upd_thread_ok]. cbn beta. by erewrite bind_Done. }
    split; [exact Hc2|]. split.
    { apply Hqk; try done. exists (set_status STATUS_PENDING (with_flag th)). split; [|done].
      simpl. by rewrite insert_insert_eq. }
    split; [set_solver|]. split; [done|]. split; [simpl; apply lookup_insert_eq|].
    split; [intros a Ha; by rewrite lookup_insert_ne|]. intros H0. by rewrite H0 in Hw.
Qed.

Lemma queue_msg_full s t th m :
  threads s !! t = Some th → cib_wf (msg_queue th) → cib_size (msg_queue th) ≤ cib_avail (msg_queue th) →
  queue_msg t m s = Done s 0.
Proof.
  intros Ht Hwf Hfull. pose proof (cib_put_spec _ Hwf) as Hput. rewrite decide_False in Hput by lia.
  unfold queue_msg. kstep. rewrite Hput. kstep. cbn [Z.ltb Z.compare].
  unfold mret, M_ret. f_equal. destruct s, th; simpl in *. by rewrite insert_id.
Qed.

Lemma queue_msg_ok s Q t th m mm :
  crit idle s Q → threads s !! t = Some th → mem s !! m = Some mm →
  cib_avail (msg_queue th) < cib_size (msg_queue th) →
  (sched_active_thread s = t → on_runqueue (status th) = true ∨ status th = STATUS_REPLY_BLOCKED) →
  ∃ n q' s' Q', cib_put (msg_queue th) = (n, q') ∧ queue_msg t m s = Done s' 1 ∧ crit idle s' Q' ∧
    queue_kept t s s' ∧ dom Q ⊆ dom Q' ∧
    mem s' = <[msg_addr (msg_array th) n := mm]> (mem s) ∧
    (∃ th', threads s' !! t = Some th' ∧ msg_queue th' = q' ∧ msg_array th' = msg_array th) ∧
    (∀ a, (∀ p, a ≠ NRq p) → Q' !! a = Q !! a) ∧
    (flags_wakeup (with_flag th) = 0 → Q' = Q).
Proof.
  intros Hc Ht Hm Hav Hact. destruct (ip_thread _ _ (cr_ipc _ _ _ Hc) _ _ Ht) as (Hw & Hwf & Hsl).
  pose proof (cib_put_spec _ Hwf) as Hput. rewrite decide_True in Hput by lia.
  destruct Hput as (n & q' & Hput & Hn & _ & Hwf' & Hsz & _).
  set (th1 := set_msg_queue q' th).
  assert (crit idle (set_threads (<[t := th1]> (threads s)) s) Q) as Hc1.
  { apply (crit_field idle s Q t th); try done; [|by left]. split; [done|]. split; [done|].
    intros i Hi. apply Hsl. simpl in Hi. by rewrite <- Hsz. }
  pose proof (Hsl n Hn) as Hslot.
  pose proof (crit_mem_insert idle _ Q (msg_addr (msg_array th) n) mm Hc1 Hslot) as Hc2.
  set (s2 := set_mem _ _) in *.
  destruct (flag_msg_waiting s2 Q t th1 Hc2) as (s' & Q' & Hrun & Hc' & Hk & Hd & Hm' & Ht' & HQ & HQ0).
  { simpl. apply lookup_insert_eq. }
  { intros Ha. unfold flags_wakeup. simpl. destruct (Hact Ha) as [Hon|Hon]; [by destruct (status th)|by rewrite Hon]. }
  exists n, q', s', Q'. split; [done|]. split.
  { unfold queue_msg. kstep. rewrite Hput. kstep. rewrite (proj2 (Z.ltb_ge n 0)) by lia.
    erewrite bind_Done; [|apply read_msg_ok; exact Hm]. cbn beta.
    erewrite bind_Done; [|apply write_msg_ok; exact Hslot]. cbn beta. exact (Hrun Z (mret 1)). }
  split; [done|]. split.
  { destruct Hk as [? ? ? ? ? ? ? Hkm Hkd Hko Hkme]. split; simpl in *; try done.
    - rewrite Hkm, dom_insert_L. apply elem_of_dom in Hslot. set_solver.
    - rewrite Hkd, dom_insert_L. apply elem_of_dom_2 in Ht. set_solver.
    - intros u Hu. rewrite Hko by done. by rewrite lookup_insert_ne.
    - intros th0 Ha Hth0. destruct (Hkme th1 Ha (lookup_insert_eq _ _ _)) as (th' & Hth' & Hst).
      exists th'. split; [done|]. rewrite Hst. simpl. congruence. }
  split; [done|]. split; [by rewrite Hm'|]. split.
  { eexists. split; [exact Ht'|]. by case_match. }
  split; [done|]. intros Hw0. by apply HQ0.
Qed.

(** ** _msg_send *)

(** The caller of [_msg_send]: running, or blocked for a reply by
    [msg_send_receive]. *)
Record send_ctx (s : kernel) (Q : queues) (m : Z) (mm : msg_t) (me : thread_t) : Prop := {
  sc_crit : crit idle s Q;
  sc_pending : yield_pending s = false;
  sc_msg : mem s !! m = Some mm;
  sc_me : threads s !! sched_active_thread s = Some me;
  sc_status : on_runqueue (status me) = true ∨
    status me = STATUS_REPLY_BLOCKED ∧ detached Q (sched_active_thread s)
}.

(** The message with the sender filled in. *)
Abbreviation stamped s mm := (set_sender_pid (sched_active_pid s) mm).

(** The thread behind a pid that is not the caller's. *)
Lemma target_not_me s Q tp tgt me :
  kinv s Q → threads s !! sched_active_thread s = Some me →
  aget (sched_threads s) tp = Some tgt → tgt ≠ 0 → tp ≠ sched_active_pid s →
  ∃ th, threads s !! tgt = Some th ∧ tgt ≠ sched_active_thread s.
Proof.
  intros Hk Hme Hslot H0 Hp. destruct (ki_table _ _ Hk _ _ Hslot H0) as (th & Hth & Hpid).
  exists th. split; [done|]. intros ->. destruct (ki_active _ _ Hk H0) as (th' & Hth' & Hpid').
  congruence.
Qed.

(** The first steps of [_msg_send]. *)
Lemma send_enter s m mm tp tgt block :
  mem s !! m = Some mm → aget (sched_threads s) tp = Some tgt →
  _msg_send m tp block true s =
    (if tgt =? 0 then irq_restore true;; mret (-1)
     else
       me ← get sched_active_thread;
       th ← get_thread tgt;
       if decide (status th ≠ STATUS_RECEIVE_BLOCKED) then
         queued ← queue_msg tgt m;
         if negb (queued =? 0) then
           irq_restore true;;
           my ← get_thread me;
           (if decide (status my = STATUS_REPLY_BLOCKED) then thread_yield_higher else mret tt);;
           mret 1
         else if negb block then irq_restore true;; mret 0
         else
           upd_thread me (set_wait_data m);;
           my ← get_thread me;
           let newstatus := if decide (status my = STATUS_REPLY_BLOCKED)
                            then STATUS_REPLY_BLOCKED else STATUS_SEND_BLOCKED in
           sched_set_status me newstatus;;
           thread_add_to_list (NMsgWaiters tgt) me;;
           upd_thread tgt (λ th, set_flags (Z.lor (flags th) THREAD_FLAG_MSG_WAITING) th);;
           thread_flags_wake tgt;;
           irq_restore true;;
           thread_yield_higher;;
           mret 1
       else
         mm ← read_msg m;
         write_msg (wait_data th) mm;;
         sched_set_status tgt STATUS_PENDING;;
         irq_restore true;;
         thread_yield_higher;;
         mret 1) (set_mem (<[m := stamped s mm]> (mem s)) s).
Proof.
  intros Hm Hslot. unfold _msg_send.
  erewrite bind_Done; [|unfold read_sched_threads; rewrite Hslot; reflexivity]. cbn beta. kstep.
  erewrite bind_Done; [|apply read_msg_ok; exact Hm]. cbn beta.
  erewrite bind_Done; [|apply write_msg_ok; by eexists]. done.
Qed.

Lemma send_ctx_stamped s Q m mm me :
  send_ctx s Q m mm me → crit idle (set_mem (<[m := stamped s mm]> (mem s)) s) Q.
Proof. intros [Hc _ Hm _ _]. apply crit_mem_insert; [done|by eexists]. Qed.

(** The receiver waits: the message goes into its buffer. *)
Lemma send_direct s Q m mm me tp tgt th block :
  send_ctx s Q m mm me → aget (sched_threads s) tp = Some tgt → tgt ≠ 0 →
  threads s !! tgt = Some th → status th = STATUS_RECEIVE_BLOCKED →
  ∃ s2 l, _msg_send m tp block true s = (irq_restore true;; thread_yield_higher;; mret 1) s2 ∧
    Q !! NRq (priority th) = Some (QRun l) ∧
    crit idle s2 (<[NRq (priority th) := QRun (l ++ [tgt])]> Q) ∧ yield_pending s2 = false ∧
    sched_active_thread s2 = sched_active_thread s ∧
    mem s2 = <[wait_data th := stamped s mm]> (<[m := stamped s mm]> (mem s)) ∧
    threads s2 = <[tgt := set_status STATUS_PENDING th]> (threads s) ∧
    mboxes s2 = mboxes s ∧ (rmutexes s2 = rmutexes s ∧ sched_threads s2 = sched_threads s) ∧ sched_active_thread s ≠ tgt.
Proof.
  intros Hctx Hslot H0 Hth Hst. pose proof (send_ctx_stamped _ _ _ _ _ Hctx) as Hc1.
  pose proof Hctx as [Hc Hp Hm Hme Hstat]. set (s1 := set_mem _ s) in *.
  destruct (ip_thread _ _ (cr_ipc _ _ _ Hc1) tgt th Hth) as (Hwd & _).
  specialize (Hwd ltac:(by rewrite Hst)).
  pose proof (crit_mem_insert idle s1 Q (wait_data th) (stamped s mm) Hc1 Hwd) as Hc2.
  set (s2 := set_mem _ s1) in *.
  assert (sched_active_thread s ≠ tgt) as Hne.
  { intros Heq. rewrite Heq in Hme. simplify_eq. destruct Hstat as [Hx|[Hx _]]; by rewrite Hst in Hx. }
  destruct (crit_wake idle s2 Q tgt th STATUS_PENDING Hc2 Hth) as (h & c & l & Hset & Hl & Hc3);
    [by rewrite Hst| |done|done|by rewrite Hst|].
  { apply (kinv_detached_status s2 Q tgt th); [apply Hc2|done|]. rewrite Hst. intros []; simpl; naive_solver. }
  eexists _, l. split; [|split; [exact Hl|split; [exact Hc3|done]]].
  rewrite (send_enter s m mm tp tgt block Hm Hslot). rewrite (proj2 (Z.eqb_neq _ _) H0). kstep.
  erewrite bind_Done; [|apply get_thread_ok; exact Hth]. cbn beta. rewrite decide_False by (by rewrite Hst; auto).
  erewrite bind_Done; [|apply read_msg_ok; simpl; apply lookup_insert_eq]. cbn beta.
  erewrite bind_Done; [|apply write_msg_ok; exact Hwd]. cbn beta.
  erewrite bind_Done; [|exact Hset]. done.
Qed.

(** The receiver does not wait and its queue has room. *)
Lemma send_queued s Q m mm me tp tgt th block :
  send_ctx s Q m mm me → aget (sched_threads s) tp = Some tgt → tgt ≠ 0 →
  threads s !! tgt = Some th → status th ≠ STATUS_RECEIVE_BLOCKED → tgt ≠ sched_active_thread s →
  cib_avail (msg_queue th) < cib_size (msg_queue th) →
  ∃ n q' s2 Q2, cib_put (msg_queue th) = (n, q') ∧
    _msg_send m tp block true s =
      (irq_restore true;;
       my ← get_thread (sched_active_thread s);
       (if decide (status my = STATUS_REPLY_BLOCKED) then thread_yield_higher else mret tt);;
       mret 1) s2 ∧
    crit idle s2 Q2 ∧ queue_kept tgt s s2 ∧ dom Q ⊆ dom Q2 ∧
    mem s2 = <[msg_addr (msg_array th) n := stamped s mm]> (<[m := stamped s mm]> (mem s)) ∧
    (∃ th', threads s2 !! tgt = Some th' ∧ msg_queue th' = q' ∧ msg_array th' = msg_array th) ∧
    (flags_wakeup (with_flag th) = 0 → Q2 = Q).
Proof.
  intros Hctx Hslot H0 Hth Hst Hne Hav. pose proof (send_ctx_stamped _ _ _ _ _ Hctx) as Hc1.
  pose proof Hctx as [Hc Hp Hm Hme Hstat]. set (s1 := set_mem _ s) in *.
  destruct (queue_msg_ok s1 Q tgt th m (stamped s mm) Hc1 Hth) as
    (n & q' & s2 & Q2 & Hput & Hrun & Hc2 & Hk & Hd & Hm2 & Hth2 & _ & HQ); try done.
  { simpl. apply lookup_insert_eq. }
  exists n, q', s2, Q2. split; [done|]. split.
  { rewrite (send_enter s m mm tp tgt block Hm Hslot), (proj2 (Z.eqb_neq _ _) H0). kstep.
    erewrite bind_Done; [|apply get_thread_ok; exact Hth]. cbn beta. rewrite decide_True by done.
    erewrite bind_Done; [|exact Hrun]. done. }
  split; [done|]. split; [|done]. destruct Hk as [? ? ? ? ? ? ? Hkm ? ? ?]. split; try done.
  rewrite Hkm. simpl. rewrite dom_insert_L. apply elem_of_dom_2 in Hm. set_solver.
Qed.

(** No room, and the caller does not want to block. *)
Lemma send_refused s Q m mm me tp tgt th :
  send_ctx s Q m mm me → aget (sched_threads s) tp = Some tgt → tgt ≠ 0 →
  threads s !! tgt = Some th → status th ≠ STATUS_RECEIVE_BLOCKED →
  cib_size (msg_queue th) ≤ cib_avail (msg_queue th) →
  _msg_send m tp false true s = (irq_restore true;; mret 0) (set_mem (<[m := stamped s mm]> (mem s)) s).
Proof.
  intros [Hc Hp Hm Hme Hstat] Hslot H0 Hth Hst Hfull.
  destruct (ip_thread _ _ (cr_ipc _ _ _ Hc) tgt th Hth) as (_ & Hwf & _).
  rewrite (send_enter s m mm tp tgt false Hm Hslot), (proj2 (Z.eqb_neq _ _) H0). kstep.
  erewrite bind_Done; [|apply get_thread_ok; exact Hth]. cbn beta. rewrite decide_True by done.
  erewrite bind_Done; [|by apply (queue_msg_full _ tgt th)]. done.
Qed.

(** The status of a sender that blocks. *)
Definition blocked_status (me : thread_t) : thread_status_t :=
  if decide (status me = STATUS_REPLY_BLOCKED) then STATUS_REPLY_BLOCKED else STATUS_SEND_BLOCKED.

(** The caller stores its message and leaves the run queue, unless it did so
    before. *)
Lemma sender_blocks s Q m me :
  crit idle s Q → is_Some (mem s !! m) → threads s !! sched_active_thread s = Some me →
  on_runqueue (status me) = true ∨ status me = STATUS_REPLY_BLOCKED ∧ detached Q (sched_active_thread s) →
  sched_active_thread s ≠ idle →
  ∃ h c Q', let t := sched_active_thread s in
    let s' := status_state s t (set_wait_data m me) (blocked_status me) h c in
    (∀ B (f : M B), (upd_thread t (set_wait_data m);;
       my ← get_thread t;
       let newstatus := if decide (status my = STATUS_REPLY_BLOCKED)
                        then STATUS_REPLY_BLOCKED else STATUS_SEND_BLOCKED in
       sched_set_status t newstatus;; f) s = f s') ∧
    crit idle s' Q' ∧ detached Q' t ∧ dom Q ⊆ dom Q' ∧ (∀ a, (∀ p, a ≠ NRq p) → Q' !! a = Q !! a).
Proof.
  intros Hc Hm Hme Hstat Hidle.
  set (t := sched_active_thread s) in *. set (s1 := set_threads (<[t := set_wait_data m me]> (threads s)) s).
  assert (threads s1 !! t = Some (set_wait_data m me)) as Hme1 by (simpl; apply lookup_insert_eq).
  assert (∀ B (f : M B) s2, sched_set_status t (blocked_status me) s1 = Done s2 tt →
    (upd_thread t (set_wait_data m);; my ← get_thread t;
       let newstatus := if decide (status my = STATUS_REPLY_BLOCKED)
                        then STATUS_REPLY_BLOCKED else STATUS_SEND_BLOCKED in
       sched_set_status t newstatus;; f) s = f s2) as Hrun.
  { intros B f s2 Hset. erewrite bind_Done; [|apply upd_thread_ok; exact Hme]. cbn beta.
    erewrite bind_Done; [|apply get_thread_ok; exact Hme1]. cbn beta zeta.
    change (status (set_wait_data m me)) with (status me). fold (blocked_status me).
    by erewrite bind_Done. }
  assert (waits_with_msg (blocked_status me) = true → is_Some (mem s !! wait_data (set_wait_data m me))) as Hwm
    by done.
  unfold blocked_status in *. destruct Hstat as [Hon|[Hst Hd]].
  - rewrite decide_False in * by (intros Hx; by rewrite Hx in Hon).
    assert (crit idle s1 Q) as Hc1 by (by apply crit_wait_data).
    destruct (crit_block idle s1 Q (set_wait_data m me) STATUS_SEND_BLOCKED Hc1 Hme1 Hon eq_refl Hidle Hwm)
      as (h & c & l & Hset & Hl & Hc2 & Hd). simpl in Hset, Hc2, Hd.
    rewrite insert_insert_eq in Hset, Hc2.
    eexists h, c, _. split; [intros B f; by apply Hrun|]. split; [exact Hc2|]. split; [exact Hd|].
    split; [set_solver|]. intros a Ha. by rewrite lookup_insert_ne.
  - rewrite decide_True in * by done.
    assert (crit idle s1 Q) as Hc1.
    { apply (crit_field idle s Q t me); try done; [|by right; left].
      destruct (ip_thread _ _ (cr_ipc _ _ _ Hc) _ _ Hme) as (_ & Hq & Hs). by split. }
    exists (nodes s), (runqueue_bitcache s), Q. split; [|split; [|done]].
    + intros B f. apply Hrun. rewrite (set_status_keep t _ _ s1 Hme1) by (simpl; by rewrite Hst).
      f_equal. simpl. rewrite insert_insert_eq. by destruct s.
    + assert (set_status STATUS_REPLY_BLOCKED (set_wait_data m me) = set_wait_data m me) as ->
        by (destruct me; simpl in *; by subst).
      by replace (set_threads _ _) with s1 by (by destruct s).
Qed.

(** No room: the caller blocks among the waiting senders of the receiver. *)
Lemma send_blocks s Q m mm me tp tgt th :
  send_ctx s Q m mm me → aget (sched_threads s) tp = Some tgt → tgt ≠ 0 →
  threads s !! tgt = Some th → status th ≠ STATUS_RECEIVE_BLOCKED → tgt ≠ sched_active_thread s →
  cib_size (msg_queue th) ≤ cib_avail (msg_queue th) → sched_active_thread s ≠ idle →
  ∃ l s2 Q2, let me' := sched_active_thread s in
    Q !! NMsgWaiters tgt = Some (QWait l) ∧
    _msg_send m tp true true s = (irq_restore true;; thread_yield_higher;; mret 1) s2 ∧
    crit idle s2 Q2 ∧ yield_pending s2 = false ∧ sched_active_thread s2 = me' ∧ grows s Q s2 Q2 ∧
    threads s2 !! me' = Some (set_status (blocked_status me) (set_wait_data m me)) ∧
    mem s2 = <[m := stamped s mm]> (mem s) ∧
    Q2 !! NMsgWaiters tgt = Some (QWait (ins_prio (prio_of (threads s)) (priority me) me' l)).
Proof.
  intros Hctx Hslot H0 Hth Hst Hne Hfull Hidle. pose proof (send_ctx_stamped _ _ _ _ _ Hctx) as Hc1.
  pose proof Hctx as [Hc Hp Hm Hme Hstat]. set (s1 := set_mem _ s) in *.
  destruct (ip_thread _ _ (cr_ipc _ _ _ Hc) tgt th Hth) as (_ & Hwf & _).
  destruct (ki_thread _ _ (cr_kinv _ _ _ Hc) _ _ Hth) as (_ & _ & _ & l & Hl).
  assert (is_Some (mem s1 !! m)) as Hm1 by (simpl; rewrite lookup_insert_eq; by eexists).
  destruct (sender_blocks s1 Q m me Hc1 Hm1 Hme Hstat Hidle) as (h & c & Q3 & Hrun & Hc3 & Hd3 & HdQ3 & HQ3).
  simpl in Hrun. set (s3 := status_state s1 _ _ _ _ _) in *. set (t := sched_active_thread s) in *.
  assert (threads s3 !! t = Some (set_status (blocked_status me) (set_wait_data m me))) as Hme3
    by (simpl; apply lookup_insert_eq).
  assert (waits_at (NMsgWaiters tgt) (blocked_status me) ∧ on_runqueue (blocked_status me) = false)
    as [Hwait Hoff] by (unfold blocked_status; case_decide; simpl; auto).
  destruct (crit_enqueue idle s3 Q3 (NMsgWaiters tgt) l t (set_status (blocked_status me) (set_wait_data m me)) Hc3) as (h4 & Hadd & Hc4);
    [by rewrite HQ3|exact Hme3|exact Hwait|exact Hoff|exact Hd3|done|].
  set (s4 := set_nodes h4 s3) in *. set (Q4 := <[NMsgWaiters tgt := _]> Q3) in *.
  destruct (flag_msg_waiting s4 Q4 tgt th Hc4) as (s5 & Q5 & Hrun5 & Hc5 & Hk5 & Hd5 & Hm5 & Ht5 & HQ5 & _).
  { simpl. by rewrite lookup_insert_ne. }
  { intros Ha. exfalso. by apply Hne. }
  exists l, s5, Q5. split; [done|]. split.
  { rewrite (send_enter s m mm tp tgt true Hm Hslot), (proj2 (Z.eqb_neq _ _) H0). kstep.
    erewrite bind_Done; [|apply get_thread_ok; exact Hth]. cbn beta. rewrite decide_True by done.
    erewrite bind_Done; [|by apply (queue_msg_full _ tgt th)]. cbn [Z.eqb negb].
    rewrite Hrun. erewrite bind_Done; [|exact Hadd]. cbn beta. apply Hrun5. }
  split; [done|]. split; [by rewrite (qk_pending _ _ _ Hk5)|]. split; [by rewrite (qk_active _ _ _ Hk5)|].
  split.
  { eapply queue_kept_grows; [exact Hk5|exact Hd5|]. unfold Q4.
    grow (grows_refl s Q). }
  split; [rewrite (qk_other _ _ _ Hk5) by done; exact Hme3|].
  split; [by rewrite Hm5|]. rewrite HQ5 by done. unfold Q4. rewrite lookup_insert_eq. do 2 f_equal.
  simpl. apply ins_prio_ext. intros u. by apply (prio_of_insert _ _ me).
Qed.

(** ** msg_send and msg_try_send *)

Lemma sys_send_ctx s Q m mm me :
  sysinv idle s Q → mem s !! m = Some mm → threads s !! sched_active_thread s = Some me →
  send_ctx (set_irq_on false s) Q m mm me.
Proof.
  intros Hs Hm Hme. pose proof (crit_enter _ _ _ Hs) as Hc. split; try done; [apply Hs|].
  destruct (sy_active _ _ _ Hs) as (me' & Hme' & Hon). left. by simplify_eq.
Qed.

Lemma msg_send_gen_run s Q m tp block :
  sysinv idle s Q → tp ≠ sched_active_pid s →
  msg_send_gen m tp block s = _msg_send m tp block true (set_irq_on false s).
Proof.
  intros Hs Hp. unfold msg_send_gen. kstep. rewrite (cr_isr _ _ _ (sy_crit _ _ _ Hs)). kstep.
  rewrite (proj2 (Z.eqb_neq _ _)) by done. kstep. by rewrite (sy_irq _ _ _ Hs).
Qed.

(** The message queue of a thread, oldest message first. *)
Definition queued_msgs (s : kernel) (th : thread_t) : list msg_t :=
  ring_contents (mem s) (msg_queue th) (msg_array th).

(** ** The branches of sending to another thread *)

Lemma msg_send_direct s Q m mm me tp tgt th block : runs_best s Q →
  sysinv idle s Q → mem s !! m = Some mm → threads s !! sched_active_thread s = Some me →
  aget (sched_threads s) tp = Some tgt → tgt ≠ 0 → threads s !! tgt = Some th →
  status th = STATUS_RECEIVE_BLOCKED → tgt ≠ sched_active_thread s → let m' := stamped s mm in
  ∃ l, Q !! NRq (priority th) = Some (QRun l) ∧
    stops (_msg_send m tp block true (set_irq_on false s)) 1 (λ switched s',
      sysinv idle s' (<[NRq (priority th) := QRun (l ++ [tgt])]> Q) ∧
      mem s' !! wait_data th = Some m' ∧ switched = (priority th <? priority me)).
Proof.
  intros Hbest.
  intros Hs Hm Hme Hslot H0 Hth Hst Hne m'. pose proof (sys_send_ctx s Q m mm me Hs Hm Hme) as Hctx. set (s0 := set_irq_on false s) in *.
  destruct (sy_active _ _ _ Hs) as (me0 & Hme0 & Hon). assert (me0 = me) as -> by congruence. clear Hme0.
  pose proof (runs_best_prio s Q me Hbest (cr_kinv _ _ _ (sy_crit _ _ _ Hs)) Hme) as Hnext.
  destruct (ki_thread _ _ (cr_kinv _ _ _ (sy_crit _ _ _ Hs)) _ _ Hth) as (_ & Hpr & _).
  destruct (send_direct s0 Q m mm me tp tgt th block Hctx Hslot H0 Hth Hst)
    as (s2 & l & -> & Hl & Hc2 & Hp2 & Ha2 & Hm2 & Ht2 & _ & _ & _).
  exists l. split; [done|].
  assert (threads s2 !! sched_active_thread s2 = Some me) as Hme2
    by (rewrite Ha2, Ht2; simpl; by rewrite lookup_insert_ne).
  destruct (restore_yield_stops idle 1 s2 Q (priority th) tgt l me Hc2 Hp2 Hme2 Hon Hl Hpr)
    as [(s' & Hx & H1 & H2 & H3 & H4)|(s' & k & Hx & Hkk & H1 & H2 & H3 & H4)].
  + by rewrite Ha2.
  + by rewrite Ha2.
  + left. exists s'. split; [done|]. split; [done|]. split; [|done].
    rewrite (us_mem _ _ H3). simpl. by rewrite Hm2, lookup_insert_eq.
  + right. exists s', k. split; [done|]. split; [done|]. split; [done|]. split; [|done].
    rewrite (us_mem _ _ H3). simpl. by rewrite Hm2, lookup_insert_eq.
Qed.

Lemma msg_send_queues s Q m mm me tp tgt th block :
  sysinv idle s Q → mem s !! m = Some mm → threads s !! sched_active_thread s = Some me →
  aget (sched_threads s) tp = Some tgt → tgt ≠ 0 → threads s !! tgt = Some th →
  status th ≠ STATUS_RECEIVE_BLOCKED → tgt ≠ sched_active_thread s → cib_avail (msg_queue th) < cib_size (msg_queue th) →
  let m' := stamped s mm in
  ∃ s' Q' th', _msg_send m tp block true (set_irq_on false s) = Done s' 1 ∧ sysinv idle s' Q' ∧
    threads s' !! tgt = Some th' ∧
    (outside (msg_queue th) (msg_array th) m → queued_msgs s' th' = queued_msgs s th ++ [m']).
Proof.
  intros Hs Hm Hme Hslot H0 Hth Hst Hne Hav m'. pose proof (sys_send_ctx s Q m mm me Hs Hm Hme) as Hctx. set (s0 := set_irq_on false s) in *.
  destruct (sy_active _ _ _ Hs) as (me0 & Hme0 & Hon). assert (me0 = me) as -> by congruence. clear Hme0.
  destruct (ip_thread _ _ (cr_ipc _ _ _ (sy_crit _ _ _ Hs)) tgt th Hth) as (_ & Hwf & _).
  destruct (send_queued s0 Q m mm me tp tgt th block Hctx Hslot H0 Hth Hst Hne Hav)
    as (n & q' & s2 & Q2 & Hput & Hrun & Hc2 & Hk2 & Hd2 & Hm2 & (th' & Hth' & Hq' & Harr) & _).
  assert (threads s2 !! sched_active_thread s2 = Some me) as Hme2.
  { rewrite (qk_active _ _ _ Hk2), (qk_other _ _ _ Hk2) by (by apply not_eq_sym). exact Hme. }
  destruct (restore_ok idle s2 Q2 Hc2) as [Hrest Hs2]; [by rewrite (qk_pending _ _ _ Hk2); apply Hs|by exists me|].
  exists (set_irq_on true s2), Q2, th'. split; [|split; [done|split; [done|]]].
  + rewrite Hrun. erewrite bind_Done; [|exact Hrest]. cbn beta.
    erewrite bind_Done; [|apply get_thread_ok; rewrite <- (qk_active _ _ _ Hk2); exact Hme2]. cbn beta.
    rewrite decide_False by (intros Hx; by rewrite Hx in Hon). done.
  + intros Hout. unfold queued_msgs. rewrite Hq', Harr. cbn [mem set_irq_on]. rewrite Hm2.
    pose proof (ring_put (<[m := m']> (mem s)) (msg_queue th) (msg_array th) m' Hwf) as Hring.
    rewrite cib_full_spec in Hring by done. rewrite (proj2 (Z.eqb_neq _ _)) in Hring by lia.
    specialize (Hring eq_refl). destruct (cib_put_unsafe _) as [i q2]. destruct Hring as (Hput' & _ & _ & _ & Hring).
    rewrite Hput in Hput'. injection Hput' as -> ->. change (stamped s0 mm) with m'.
    change (mem s0) with (mem s). rewrite Hring. by rewrite ring_insert_outside.
Qed.

Lemma msg_send_waits s Q m mm me tp tgt th : sched_active_thread s ≠ idle →
  sysinv idle s Q → mem s !! m = Some mm → threads s !! sched_active_thread s = Some me →
  aget (sched_threads s) tp = Some tgt → tgt ≠ 0 → threads s !! tgt = Some th →
  status th ≠ STATUS_RECEIVE_BLOCKED → tgt ≠ sched_active_thread s → ¬ cib_avail (msg_queue th) < cib_size (msg_queue th) →
  let m' := stamped s mm in
  ∃ l s2 Q2, Q !! NMsgWaiters tgt = Some (QWait l) ∧
    suspends idle (_msg_send m tp true true (set_irq_on false s)) 1 s2 Q2 ∧
    threads s2 !! sched_active_thread s = Some (set_status STATUS_SEND_BLOCKED (set_wait_data m me)) ∧
    mem s2 !! m = Some m' ∧
    Q2 !! NMsgWaiters tgt = Some (QWait (ins_prio (prio_of (threads s)) (priority me) (sched_active_thread s) l)).
Proof.
  intros Hidle.
  intros Hs Hm Hme Hslot H0 Hth Hst Hne Hav m'. pose proof (sys_send_ctx s Q m mm me Hs Hm Hme) as Hctx. set (s0 := set_irq_on false s) in *.
  destruct (sy_active _ _ _ Hs) as (me0 & Hme0 & Hon). assert (me0 = me) as -> by congruence. clear Hme0.
  destruct (send_blocks s0 Q m mm me tp tgt th Hctx Hslot H0 Hth Hst Hne ltac:(lia) Hidle)
    as (l & s2 & Q2 & Hl & Hrun & Hc2 & Hp2 & Ha2 & Hg2 & Hme2 & Hm2 & HQ2).
  assert (blocked_status me = STATUS_SEND_BLOCKED) as Hbs.
  { unfold blocked_status. rewrite decide_False; [done|]. intros Hx; by rewrite Hx in Hon. }
  exists l, s2, Q2. split; [done|]. rewrite Hbs in Hme2. split.
  { rewrite Hrun. eapply restore_yield_suspends; [done|done|by rewrite Ha2|done]. }
  split; [done|]. split; [|done]. rewrite Hm2. by rewrite lookup_insert_eq.
Qed.

(** C4: Sending to another thread, on every branch: the target does not exist; it is
    blocked in a receive and gets the message; its queue has room and the message
    becomes the last one; the queue is full and the caller blocks among the
    senders by priority, or the call returns 0. *)
Theorem msg_send_outcome s Q m mm me tp tgt (block : bool) :
  sysinv idle s Q → runs_best s Q → mem s !! m = Some mm →
  threads s !! sched_active_thread s = Some me → sched_active_thread s ≠ idle →
  aget (sched_threads s) tp = Some tgt → tp ≠ sched_active_pid s →
  let m' := stamped s mm in
  if decide (tgt = 0) then
    ∃ s', msg_send_gen m tp block s = Done s' (-1) ∧ sysinv idle s' Q
  else ∃ th, threads s !! tgt = Some th ∧
    if decide (status th = STATUS_RECEIVE_BLOCKED) then
      ∃ l, Q !! NRq (priority th) = Some (QRun l) ∧
      stops (msg_send_gen m tp block s) 1 (λ switched s',
        sysinv idle s' (<[NRq (priority th) := QRun (l ++ [tgt])]> Q) ∧
        mem s' !! wait_data th = Some m' ∧ switched = (priority th <? priority me))
    else if decide (cib_avail (msg_queue th) < cib_size (msg_queue th)) then
      ∃ s' Q' th', msg_send_gen m tp block s = Done s' 1 ∧ sysinv idle s' Q' ∧
        threads s' !! tgt = Some th' ∧
        (outside (msg_queue th) (msg_array th) m → queued_msgs s' th' = queued_msgs s th ++ [m'])
    else if block then
      ∃ l s2 Q2, Q !! NMsgWaiters tgt = Some (QWait l) ∧
        suspends idle (msg_send_gen m tp block s) 1 s2 Q2 ∧
        threads s2 !! sched_active_thread s = Some (set_status STATUS_SEND_BLOCKED (set_wait_data m me)) ∧
        mem s2 !! m = Some m' ∧
        Q2 !! NMsgWaiters tgt = Some (QWait (ins_prio (prio_of (threads s)) (priority me) (sched_active_thread s) l))
    else ∃ s', msg_send_gen m tp block s = Done s' 0 ∧ sysinv idle s' Q ∧ mem s' = <[m := m']> (mem s).
Proof.
  intros Hs Hbest Hm Hme Hidle Hslot Hp m'. rewrite (msg_send_gen_run s Q m tp block Hs Hp).
  pose proof (sys_send_ctx s Q m mm me Hs Hm Hme) as Hctx. set (s0 := set_irq_on false s) in *.
  pose proof (send_ctx_stamped _ _ _ _ _ Hctx) as Hc1.
  pose proof (cr_kinv _ _ _ (sy_crit _ _ _ Hs)) as Hk. pose proof (sy_active _ _ _ Hs) as Hr.
  destruct (sy_active _ _ _ Hs) as (me0 & Hme0 & Hon). assert (me0 = me) as -> by congruence. clear Hme0.
  pose proof (runs_best_prio s Q me Hbest Hk Hme) as Hnext.
  destruct (decide (tgt = 0)) as [->|H0].
  { destruct (restore_ok idle _ Q Hc1 (sy_pending _ _ _ Hs) Hr) as [Hrest Hs1].
    eexists. split; [|exact Hs1]. rewrite (send_enter s0 m mm tp 0 block Hm Hslot). cbn [Z.eqb].
    by erewrite bind_Done. }
  destruct (target_not_me s Q tp tgt me Hk Hme Hslot H0 Hp) as (th & Hth & Hne).
  exists th. split; [done|].
  destruct (ip_thread _ _ (cr_ipc _ _ _ (sy_crit _ _ _ Hs)) tgt th Hth) as (_ & Hwf & _).
  destruct (ki_thread _ _ Hk _ _ Hth) as (_ & Hpr & _).
  destruct (decide (status th = STATUS_RECEIVE_BLOCKED)) as [Hst|Hst]; [|destruct (decide _) as [Hav|Hav]].
  - by apply msg_send_direct.
  - by eapply msg_send_queues.
  - destruct block; [by apply (msg_send_waits s Q m mm me tp tgt th)|]. destruct (restore_ok idle _ Q Hc1 (sy_pending _ _ _ Hs) Hr) as [Hrest Hs1].
    eexists. split; [|split; [exact Hs1|done]].
    rewrite (send_refused s0 Q m mm me tp tgt th Hctx Hslot H0 Hth Hst) by lia. by erewrite bind_Done.
Qed.

(** ** msg_receive *)

(** What [_msg_receive] does after looking into the queue of the caller: [qi] is
    the index it got, [th] the caller before that. *)
Definition recv_body (m : Z) (block : bool) (me : Z) (th : thread_t) (qi : Z) : M Z :=
  waiters ← read_node (NMsgWaiters me);
  if negb block && (negb (notnull waiters) && (qi =? -1)) then irq_restore true;; mret (-1)
  else
    (if 0 <=? qi then
       mm ← read_msg (msg_addr (msg_array th) qi);
       write_msg m mm
     else upd_thread me (set_wait_data m));;
    next ← on_nodes_r (λ h, list_remove_head h (NMsgWaiters me));
    match next with
    | None =>
        if qi <? 0 then
          sched_set_status me STATUS_RECEIVE_BLOCKED;;
          irq_restore true;;
          thread_yield_higher;;
          active ← get sched_active_thread;
          th ← get_thread active;
          if decide (status th = STATUS_RECEIVE_BLOCKED) then fault else mret 1
        else irq_restore true;; mret 1
    | Some next =>
        sender ← container_of next;
        m ← (if 0 <=? qi then
               th ← get_thread me;
               let '(n, q) := cib_put (msg_queue th) in
               upd_thread me (set_msg_queue q);;
               mret (msg_addr (msg_array th) n)
             else mret m);
        sth ← get_thread sender;
        mm ← read_msg (wait_data sth);
        write_msg m mm;;
        sender_prio ← (if decide (status sth ≠ STATUS_REPLY_BLOCKED) then
                         upd_thread sender (set_wait_data 0);;
                         sched_set_status sender STATUS_PENDING;;
                         sth ← get_thread sender;
                         mret (u16 (priority sth))
                       else mret THREAD_PRIORITY_IDLE);
        irq_restore true;;
        (if sender_prio <? THREAD_PRIORITY_IDLE then sched_switch sender_prio else mret tt);;
        mret 1
    end.

Definition recv_queue (th : thread_t) : Z * cib_t :=
  if thread_has_msg_queue th then cib_get (msg_queue th) else (-1, msg_queue th).

Lemma waiters_node s Q t l :
  kinv s Q → Q !! NMsgWaiters t = Some (QWait l) → nodes s !! NMsgWaiters t = Some (NThread <$> head l).
Proof.
  intros Hk Hl. destruct (qr_rep _ _ (ki_rep _ _ Hk) _ _ Hl) as [_ Hr]. simpl in Hr.
  destruct Hr as (Hr & _). rewrite Hr. by destruct l.
Qed.

Lemma recv_enter s Q m block me :
  sysinv idle s Q → threads s !! sched_active_thread s = Some me →
  let '(qi, q) := recv_queue me in
  let s1 := set_threads (<[sched_active_thread s := set_msg_queue q me]> (threads s)) (set_irq_on false s) in
  crit idle s1 Q ∧ cib_wf q ∧ cib_size q = cib_size (msg_queue me) ∧
  (qi = -1 ∧ q = msg_queue me ∨ 0 ≤ qi < cib_size q ∧ cib_get (msg_queue me) = (qi, q)) ∧
  _msg_receive m block s = recv_body m block (sched_active_thread s) me qi s1.
Proof.
  intros Hs Hme. pose proof (crit_enter _ _ _ Hs) as Hc.
  destruct (sy_active _ _ _ Hs) as (me0 & Hme0 & Hon). assert (me0 = me) as -> by congruence. clear Hme0.
  destruct (ip_thread _ _ (cr_ipc _ _ _ Hc) _ _ Hme) as (Hw & Hwf & Hsl).
  destruct (recv_queue me) as [qi q] eqn:Hq.
  assert (cib_wf q ∧ cib_size q = cib_size (msg_queue me) ∧
    (qi = -1 ∧ q = msg_queue me ∨ 0 ≤ qi < cib_size q ∧ cib_get (msg_queue me) = (qi, q))) as (Hwfq & Hsz & Hcase).
  { unfold recv_queue in Hq. destruct (thread_has_msg_queue me); [|by injection Hq as <- <-; auto].
    pose proof (cib_get_spec _ Hwf) as Hget. destruct (cib_avail _ =? 0).
    - destruct Hget as [Hget _]. rewrite Hget in Hq. injection Hq as <- <-. auto.
    - destruct Hget as (n & q' & Hget & Hn & Hwf' & Hsz & _). rewrite Hget in Hq. injection Hq as <- <-.
      split; [done|]. split; [done|]. right. by rewrite Hsz. }
  split.
  { apply (crit_field idle (set_irq_on false s) Q _ me); try done; [|by left].
    split; [done|]. split; [done|]. intros i Hi. apply Hsl. simpl in Hi. by rewrite <- Hsz. }
  split; [done|]. split; [done|]. split; [done|].
  unfold _msg_receive. do 2 kstep. rewrite (sy_irq _ _ _ Hs).
  destruct (ki_active _ _ (cr_kinv _ _ _ Hc)) as (me0 & Hme0 & Hpid).
  { by destruct (ki_thread _ _ (cr_kinv _ _ _ Hc) _ _ Hme). }
  assert (me0 = me) as -> by (simpl in Hme0; congruence).
  erewrite bind_Done.
  2: { unfold read_sched_threads. simpl. simpl in Hpid. rewrite <- Hpid.
       rewrite (ip_pid _ _ (cr_ipc _ _ _ (sy_crit _ _ _ Hs)) _ _ Hme); [reflexivity|].
       intros Hx. by rewrite Hx in Hon. }
  cbn beta. erewrite bind_Done; [|apply get_thread_ok; exact Hme]. cbn beta.
  fold (recv_queue me). rewrite Hq. erewrite bind_Done; [|apply upd_thread_ok; exact Hme]. done.
Qed.

(** Nothing to receive. *)
Lemma recv_empty s Q m me (block : bool) :
  sysinv idle s Q → threads s !! sched_active_thread s = Some me →
  recv_queue me = (-1, msg_queue me) → Q !! NMsgWaiters (sched_active_thread s) = Some (QWait []) →
  is_Some (mem s !! m) → sched_active_thread s ≠ idle →
  if block then
    ∃ s2 Q2, grows s Q s2 Q2 ∧ crit idle s2 Q2 ∧ yield_pending s2 = false ∧
      sched_active_thread s2 = sched_active_thread s ∧
      threads s2 !! sched_active_thread s = Some (set_status STATUS_RECEIVE_BLOCKED (set_wait_data m me)) ∧
      _msg_receive m true s =
        (irq_restore true;; thread_yield_higher;;
         active ← get sched_active_thread;
         th ← get_thread active;
         if decide (status th = STATUS_RECEIVE_BLOCKED) then fault else mret 1) s2
  else _msg_receive m false s = Done s (-1).
Proof.
  intros Hs Hme Hq Hw Hm Hidle. pose proof (recv_enter s Q m block me Hs Hme) as Henter. rewrite Hq in Henter.
  destruct Henter as (Hc1 & _ & _ & _ & Hrun).
  assert (set_msg_queue (msg_queue me) me = me) as Hid by (by destruct me). rewrite Hid in *.
  rewrite (insert_id (threads s)) in * by done.
  set (s1 := set_threads _ _) in *. set (t := sched_active_thread s) in *.
  pose proof (waiters_node s1 Q t [] (cr_kinv _ _ _ Hc1) Hw) as Hn.
  destruct (sy_active _ _ _ Hs) as (me0 & Hme0 & Hon). assert (me0 = me) as -> by (unfold t in *; congruence).
  destruct block.
  - assert (crit idle (set_threads (<[t := set_wait_data m me]> (threads s1)) s1) Q) as Hc2
      by (by apply crit_wait_data).
    set (s2 := set_threads (<[t := _]> _) s1) in *.
    destruct (crit_dequeue idle s2 Q _ _ Hc2 Hw) as (h & Hrm & Hc3 & _). simpl tail in Hc3.
    rewrite insert_id in Hc3 by done. set (s3 := set_nodes h s2) in *.
    assert (threads s3 !! sched_active_thread s3 = Some (set_wait_data m me)) as Hme3
      by (simpl; apply lookup_insert_eq).
    destruct (crit_block idle s3 Q (set_wait_data m me) STATUS_RECEIVE_BLOCKED Hc3 Hme3)
      as (h4 & c4 & l4 & Hset & Hl4 & Hc4 & _); try done.
    eexists _, _. split; [|split; [exact Hc4|split; [apply Hs|split; [done|split]]]].
    + grow (grows_refl s Q).
    + simpl. apply lookup_insert_eq.
    + rewrite Hrun. unfold recv_body. erewrite bind_Done; [|by apply read_node_ok]. cbn [negb andb].
      change (0 <=? -1) with false. cbn beta iota.
      erewrite bind_Done; [|by apply upd_thread_ok]. cbn beta.
      erewrite bind_Done; [|exact Hrm]. cbn beta. change (NThread <$> head []) with (@None node). cbn beta iota.
      change (-1 <? 0) with true. cbn beta iota. erewrite bind_Done; [|exact Hset]. done.
  - rewrite Hrun. unfold recv_body. erewrite bind_Done; [|by apply read_node_ok]. cbn [negb andb].
    change (notnull (NThread <$> head [])) with false. cbn [negb andb Z.eqb Pos.eqb].
    replace s1 with (set_irq_on false s) by (by destruct s).
    by erewrite bind_Done; [|by eapply (irq_roundtrip idle)].
Qed.

(** A queued message, and no blocked sender. *)
Lemma recv_queued s Q m me qi q block :
  sysinv idle s Q → threads s !! sched_active_thread s = Some me →
  recv_queue me = (qi, q) → 0 ≤ qi → Q !! NMsgWaiters (sched_active_thread s) = Some (QWait []) →
  is_Some (mem s !! m) →
  ∃ s' mm, mem s !! msg_addr (msg_array me) qi = Some mm ∧
    _msg_receive m block s = Done s' 1 ∧ sysinv idle s' Q ∧ mem s' = <[m := mm]> (mem s) ∧
    threads s' = <[sched_active_thread s := set_msg_queue q me]> (threads s) ∧ grows s Q s' Q ∧
    sched_active_thread s' = sched_active_thread s.
Proof.
  intros Hs Hme Hq Hqi Hw Hm. pose proof (recv_enter s Q m block me Hs Hme) as Henter. rewrite Hq in Henter.
  destruct Henter as (Hc1 & Hwf & Hsz & [[-> _]|[Hr _]] & Hrun); [lia|].
  set (s1 := set_threads _ _) in *. set (t := sched_active_thread s) in *.
  destruct (ip_thread _ _ (cr_ipc _ _ _ (sy_crit _ _ _ Hs)) _ _ Hme) as (_ & _ & Hsl).
  destruct (Hsl qi) as [mm Hmm]; [by rewrite <- Hsz|].
  pose proof (waiters_node s1 Q t [] (cr_kinv _ _ _ Hc1) Hw) as Hn.
  pose proof (crit_mem_insert idle s1 Q m mm Hc1 Hm) as Hc2. set (s2 := set_mem _ s1) in *.
  destruct (crit_dequeue idle s2 Q _ _ Hc2 Hw) as (h & Hrm & Hc3 & _). simpl tail in Hc3.
  rewrite insert_id in Hc3 by done.
  destruct (sy_active _ _ _ Hs) as (me0 & Hme0 & Hon). assert (me0 = me) as -> by (unfold t in *; congruence).
  destruct (restore_ok idle (set_nodes h s2) Q Hc3 (sy_pending _ _ _ Hs)) as [Hrest Hs4].
  { exists (set_msg_queue q me). simpl. by rewrite lookup_insert_eq. }
  exists (set_irq_on true (set_nodes h s2)), mm. split; [done|]. split; [|split; [done|split; [done|split; [done|split; [|done]]]]].
  - rewrite Hrun. unfold recv_body. erewrite bind_Done; [|by apply read_node_ok].
    replace (qi =? -1) with false by (symmetry; apply Z.eqb_neq; lia). rewrite !andb_false_r.
    rewrite (proj2 (Z.leb_le 0 qi)) by done.
    erewrite bind_Done; [|erewrite bind_Done; [|apply read_msg_ok; exact Hmm]; by apply write_msg_ok].
    cbn beta. erewrite bind_Done; [|exact Hrm]. cbn beta.
    change (NThread <$> head []) with (@None node). cbn beta iota.
    rewrite (proj2 (Z.ltb_ge qi 0)) by done. by erewrite bind_Done.
  - grow (grows_refl s Q).
Qed.

(** The first half of the work with a blocked sender: the message for the caller,
    and the place for the message of the sender. *)
Definition recv_first (m me qi : Z) (th : thread_t) : M unit :=
  if 0 <=? qi then
    mm ← read_msg (msg_addr (msg_array th) qi);
    write_msg m mm
  else upd_thread me (set_wait_data m).

Definition recv_place (m me qi : Z) : M Z :=
  if 0 <=? qi then
    th ← get_thread me;
    let '(n, q) := cib_put (msg_queue th) in
    upd_thread me (set_msg_queue q);;
    mret (msg_addr (msg_array th) n)
  else mret m.

(** Letting the sender go on, unless it waits for a reply. *)
Definition recv_release (sender : Z) (sth : thread_t) : M Z :=
  if decide (status sth ≠ STATUS_REPLY_BLOCKED) then
    upd_thread sender (set_wait_data 0);;
    sched_set_status sender STATUS_PENDING;;
    sth ← get_thread sender;
    mret (u16 (priority sth))
  else mret THREAD_PRIORITY_IDLE.

Lemma recv_first_ok s Q m t th me' qi :
  crit idle s Q → threads s !! t = Some me' → on_runqueue (status me') = true → is_Some (mem s !! m) →
  (0 ≤ qi → is_Some (mem s !! msg_addr (msg_array th) qi)) →
  ∃ s', recv_first m t qi th s = Done s' tt ∧ crit idle s' Q ∧ nodes s' = nodes s ∧
    yield_pending s' = yield_pending s ∧ sched_active_thread s' = sched_active_thread s ∧
    mboxes s' = mboxes s ∧ (rmutexes s' = rmutexes s ∧ sched_threads s' = sched_threads s) ∧
    mem s' = (if 0 <=? qi then <[m := mem s !!! msg_addr (msg_array th) qi]> (mem s) else mem s) ∧
    threads s' = (if 0 <=? qi then threads s else <[t := set_wait_data m me']> (threads s)).
Proof.
  intros Hc Ht Hon Hm Hsl. unfold recv_first. destruct (Z.leb_spec 0 qi).
  - destruct (Hsl ltac:(lia)) as [mm Hmm]. eexists. split.
    { erewrite bind_Done; [|by apply read_msg_ok]. by apply write_msg_ok. }
    split; [by apply crit_mem_insert|]. rewrite (lookup_total_correct _ _ _ Hmm). done.
  - eexists. split; [by apply upd_thread_ok|]. split; [by apply crit_wait_data|]. done.
Qed.

Lemma recv_place_ok s Q m t me' qi :
  crit idle s Q → threads s !! t = Some me' →
  (0 ≤ qi → cib_avail (msg_queue me') < cib_size (msg_queue me')) → is_Some (mem s !! m) →
  ∃ s' a, recv_place m t qi s = Done s' a ∧ crit idle s' Q ∧ nodes s' = nodes s ∧
    yield_pending s' = yield_pending s ∧ sched_active_thread s' = sched_active_thread s ∧
    mboxes s' = mboxes s ∧ (rmutexes s' = rmutexes s ∧ sched_threads s' = sched_threads s) ∧ mem s' = mem s ∧ is_Some (mem s !! a) ∧
    (if 0 <=? qi then ∃ n q2, cib_put (msg_queue me') = (n, q2) ∧ a = msg_addr (msg_array me') n ∧
       threads s' = <[t := set_msg_queue q2 me']> (threads s)
     else a = m ∧ threads s' = threads s).
Proof.
  intros Hc Ht Hav Hm. unfold recv_place. destruct (Z.leb_spec 0 qi).
  - destruct (ip_thread _ _ (cr_ipc _ _ _ Hc) _ _ Ht) as (Hw & Hwf & Hsl).
    pose proof (cib_put_spec _ Hwf) as Hput. rewrite decide_True in Hput by auto.
    destruct Hput as (n & q2 & Hput & Hn & _ & Hwf2 & Hsz & _). eexists _, _. split.
    { kstep. rewrite Hput. by erewrite bind_Done; [|by apply upd_thread_ok]. }
    split.
    { apply (crit_field idle s Q t me'); try done; [|by left]. split; [done|]. split; [done|].
      intros i Hi. apply Hsl. simpl in Hi. by rewrite <- Hsz. }
    do 6 (split; [done|]). split; [by apply Hsl|]. by exists n, q2.
  - eexists _, _. split; [reflexivity|]. done.
Qed.

(** Waking a thread whose stored pointer was cleared before. *)
Lemma crit_wake_cleared s Q t th :
  crit idle s Q → threads s !! t = Some th → on_runqueue (status th) = false → detached Q t →
  sched_active_thread s ≠ t → status th ≠ STATUS_STOPPED →
  ∃ h c l, let s' := status_state s t (set_wait_data 0 th) STATUS_PENDING h c in
    sched_set_status t STATUS_PENDING (set_threads (<[t := set_wait_data 0 th]> (threads s)) s) = Done s' tt ∧
    Q !! NRq (priority th) = Some (QRun l) ∧
    crit idle s' (<[NRq (priority th) := QRun (l ++ [t])]> Q).
Proof.
  intros [Hk Hipc Hf Hisr Hid] Ht Hoff Hd Hact Hstop.
  set (s1 := set_threads (<[t := set_wait_data 0 th]> (threads s)) s).
  assert (kinv s1 Q) as Hk1 by (by apply (kinv_upd_field s Q t th)).
  assert (threads s1 !! t = Some (set_wait_data 0 th)) as Ht1 by apply lookup_insert_eq.
  destruct (set_status_wake s1 Q t _ STATUS_PENDING Hk1 Ht1 Hoff eq_refl Hd) as (h & l & c & Hrun & Hl & Hk').
  simpl in Hrun, Hl, Hk'. rewrite insert_insert_eq in Hrun, Hk'.
  exists h, c, l. split; [exact Hrun|]. split; [done|]. split; [exact Hk'| | |done|].
  - apply (ipc_ext (set_threads (<[t := set_status STATUS_PENDING (set_wait_data 0 th)]> (threads s)) s)); try done.
    apply (ipc_thread s _ t th); [done| | | |by apply ipc_runqueue].
    + destruct (ip_thread _ _ Hipc _ _ Ht) as (_ & Hq & Hs). by split.
    + right; right. intros b l' Hl'. rewrite lookup_insert_ne in Hl' by done. by apply (Hd _ _ Hl').
    + intros _. exact (ip_pid _ _ Hipc t th Ht Hstop).
  - intros tha. simpl. rewrite lookup_insert_ne by done. intros Hta Hona.
    destruct (Hf tha Hta Hona) as (la & Hla).
    destruct (decide (priority th = priority tha)) as [Heq|Hnp].
    + rewrite Heq, lookup_insert_eq. rewrite Heq in Hl. simplify_eq. by exists (la ++ [t]).
    + rewrite lookup_insert_ne by congruence. by exists la.
  - destruct Hid as (thi & Hti & Honi). unfold runnable; simpl. destruct (decide (t = idle)) as [->|].
    + eexists. rewrite lookup_insert_eq. done.
    + exists thi. by rewrite lookup_insert_ne.
Qed.

Lemma recv_release_ok s Q t sth :
  crit idle s Q → threads s !! t = Some sth → waits_at (NMsgWaiters 0) (status sth) → detached Q t →
  sched_active_thread s ≠ t →
  ∃ s' Q' sp, recv_release t sth s = Done s' sp ∧ crit idle s' Q' ∧
    yield_pending s' = yield_pending s ∧ sched_active_thread s' = sched_active_thread s ∧
    mboxes s' = mboxes s ∧ (rmutexes s' = rmutexes s ∧ sched_threads s' = sched_threads s) ∧ mem s' = mem s ∧
    dom Q ⊆ dom Q' ∧ (∀ a, (∀ p, a ≠ NRq p) → Q' !! a = Q !! a) ∧
    ∃ sth', threads s' = <[t := sth']> (threads s) ∧
      (status sth = STATUS_REPLY_BLOCKED → sth' = sth ∧ sp = THREAD_PRIORITY_IDLE ∧ Q' = Q) ∧
      (status sth ≠ STATUS_REPLY_BLOCKED → sth' = set_status STATUS_PENDING (set_wait_data 0 sth) ∧ sp = priority sth ∧
         ∃ l, Q !! NRq (priority sth) = Some (QRun l) ∧ Q' = <[NRq (priority sth) := QRun (l ++ [t])]> Q).
Proof.
  intros Hc Ht Hst Hd Hne. unfold recv_release. destruct (decide (status sth = STATUS_REPLY_BLOCKED)) as [Hr|Hr].
  - rewrite decide_False by auto. exists s, Q, THREAD_PRIORITY_IDLE. do 9 (split; [done|]).
    exists sth. rewrite insert_id by done. split; [done|]. split; [done|]. by intros [].
  - assert (status sth = STATUS_SEND_BLOCKED) as Hs by (destruct Hst; done). rewrite decide_True by done.
    destruct (crit_wake_cleared s Q t sth Hc Ht) as (h & c & l & Hset & Hl & Hc1); try done; try (by rewrite Hs).
    eexists _, _, _. split.
    { erewrite bind_Done; [|by apply upd_thread_ok]. cbn beta. erewrite bind_Done; [|exact Hset]. cbn beta.
      erewrite bind_Done; [|apply get_thread_ok; simpl; by rewrite lookup_insert_eq]. reflexivity. }
    split; [exact Hc1|]. do 5 (split; [done|]). split; [set_solver|].
    split; [intros a Ha; by rewrite lookup_insert_ne|].
    eexists. split; [reflexivity|]. split; [by rewrite Hs|]. intros _. split; [done|].
    split; [|by exists l]. simpl. by apply (u16_prio s Q t sth); [apply Hc|].
Qed.

(** What receiving does to the first blocked sender [t], before any switch: unless
    it waits for a reply, its stored pointer is cleared and it joins the end of its
    run queue; [sp] is the priority to switch to. *)
Definition woken (s : kernel) (Q : queues) (t : Z) (l : list Z) (sp : Z) (s' : kernel) (Q' : queues) : Prop :=
  let Q1 := <[NMsgWaiters (sched_active_thread s) := QWait l]> Q in
  ∃ sth sth', threads s !! t = Some sth ∧ threads s' !! t = Some sth' ∧
    (status sth = STATUS_REPLY_BLOCKED → sth' = sth ∧ sp = THREAD_PRIORITY_IDLE ∧ Q' = Q1) ∧
    (status sth ≠ STATUS_REPLY_BLOCKED → status sth = STATUS_SEND_BLOCKED ∧
       sth' = set_status STATUS_PENDING (set_wait_data 0 sth) ∧ sp = priority sth ∧
       ∃ lr, Q !! NRq (priority sth) = Some (QRun lr) ∧ Q' = <[NRq (priority sth) := QRun (lr ++ [t])]> Q1).

(** A blocked sender: its message is taken, and it goes on unless it waits for a
    reply. *)
Lemma recv_waiter s Q m me qi q block t l :
  sysinv idle s Q → threads s !! sched_active_thread s = Some me →
  recv_queue me = (qi, q) → Q !! NMsgWaiters (sched_active_thread s) = Some (QWait (t :: l)) →
  is_Some (mem s !! m) →
  ∃ sth a s6 Q6 sp me6 sth', let me' := sched_active_thread s in
    threads s !! t = Some sth ∧ me' ≠ t ∧
    _msg_receive m block s =
      (irq_restore true;; (if sp <? THREAD_PRIORITY_IDLE then sched_switch sp else mret tt);; mret 1) s6 ∧
    crit idle s6 Q6 ∧ yield_pending s6 = false ∧ sched_active_thread s6 = me' ∧ grows s Q s6 Q6 ∧
    status me6 = status me ∧ priority me6 = priority me ∧ msg_array me6 = msg_array me ∧
    threads s6 = <[t := sth']> (<[me' := me6]> (threads s)) ∧
    (let M1 := if 0 <=? qi then <[m := mem s !!! msg_addr (msg_array me) qi]> (mem s) else mem s in
     mem s6 = <[a := M1 !!! wait_data sth]> M1) ∧
    (if 0 <=? qi then ∃ n q2, cib_put q = (n, q2) ∧ a = msg_addr (msg_array me) n ∧ msg_queue me6 = q2
     else a = m ∧ msg_queue me6 = q) ∧
    Q6 !! NMsgWaiters me' = Some (QWait l) ∧ woken s Q t l sp s6 Q6.
Proof.
  intros Hs Hme Hq Hw Hm. pose proof (recv_enter s Q m block me Hs Hme) as Henter. rewrite Hq in Henter.
  destruct Henter as (Hc1 & Hwf & Hsz & Hcase & Hrun).
  set (s1 := set_threads _ _) in *. set (me' := sched_active_thread s) in *.
  destruct (sy_active _ _ _ Hs) as (me0 & Hme0 & Hon). assert (me0 = me) as -> by (unfold me' in *; congruence).
  clear Hme0.
  destruct (ip_thread _ _ (cr_ipc _ _ _ (sy_crit _ _ _ Hs)) _ _ Hme) as (_ & Hwf0 & Hsl).
  destruct (ki_mem _ _ (cr_kinv _ _ _ (sy_crit _ _ _ Hs)) _ _ t Hw) as (sth & Hsth & Hst & _); [by left|].
  simpl in Hst.
  assert (me' ≠ t) as Hne.
  { intros Heq. rewrite <- Heq in Hsth. simplify_eq. by destruct Hst as [Hx|Hx]; rewrite Hx in Hon. }
  pose proof (waiters_node s1 Q me' (t :: l) (cr_kinv _ _ _ Hc1) Hw) as Hn.
  assert (threads s1 !! me' = Some (set_msg_queue q me)) as Hme1 by (simpl; apply lookup_insert_eq).
  destruct (recv_first_ok s1 Q m me' me _ qi Hc1 Hme1 Hon Hm)
    as (s2 & Hrun2 & Hc2 & Hn2 & Hp2 & Ha2 & Hb2 & Hr2 & Hm2 & Ht2).
  { intros Hqi. destruct Hcase as [[-> _]|[Hr _]]; [lia|]. apply Hsl. by rewrite <- Hsz. }
  destruct (crit_dequeue idle s2 Q _ _ Hc2 Hw) as (h & Hrm & Hc3 & Hd3). simpl tail in Hc3, Hd3.
  destruct (Hd3 t eq_refl) as [Hdt _]. set (s3 := set_nodes h s2) in *. set (Q3 := <[_:=_]> Q) in *.
  assert (∃ me3, threads s3 !! me' = Some me3 ∧ status me3 = status me ∧ priority me3 = priority me ∧
    msg_array me3 = msg_array me ∧ msg_queue me3 = q ∧ threads s3 = <[me' := me3]> (threads s))
    as (me3 & Hme3 & Hst3 & Hpr3 & Harr3 & Hq3 & Ht3).
  { simpl. rewrite Ht2. simpl. destruct (0 <=? qi).
    - exists (set_msg_queue q me). by rewrite lookup_insert_eq.
    - exists (set_wait_data m (set_msg_queue q me)). by rewrite lookup_insert_eq, insert_insert_eq. }
  assert (is_Some (mem s3 !! m)) as Hm3.
  { simpl. rewrite Hm2. case_match; [rewrite lookup_insert_eq; by eexists|done]. }
  destruct (recv_place_ok s3 Q3 m me' me3 qi Hc3 Hme3)
    as (s4 & a & Hrun4 & Hc4 & Hn4 & Hp4 & Ha4 & Hb4 & Hr4 & Hm4 & Ha & Hplace); [|done|].
  { intros Hqi. rewrite Hq3. destruct Hcase as [[-> _]|[Hr Hget]]; [lia|].
    rewrite Hsz. pose proof (cib_get_spec _ Hwf0) as Hg. pose proof Hwf0 as (_ & _ & Hle & _).
    unfold cib_get in Hget. destruct (Z.eqb_spec (cib_avail (msg_queue me)) 0) as [|Hav]; cbn [negb] in Hget.
    - injection Hget as <- _. lia.
    - injection Hget as _ <-. rewrite cib_avail_get by done. fold (cib_avail (msg_queue me)). lia. }
  assert (∃ me6, status me6 = status me ∧ priority me6 = priority me ∧ msg_array me6 = msg_array me ∧
    threads s4 = <[me' := me6]> (threads s) ∧
    (if 0 <=? qi then ∃ n q2, cib_put q = (n, q2) ∧ a = msg_addr (msg_array me) n ∧ msg_queue me6 = q2
     else a = m ∧ msg_queue me6 = q)) as (me6 & Hst6 & Hpr6 & Harr6 & Ht4 & Hcase6).
  { destruct (0 <=? qi).
    - destruct Hplace as (n & q2 & Hput & -> & Ht4). exists (set_msg_queue q2 me3).
      do 3 (split; [done|]). rewrite Ht4, Ht3, insert_insert_eq. split; [done|].
      exists n, q2. by rewrite Hq3 in Hput; rewrite Harr3.
    - destruct Hplace as [-> Ht4]. exists me3. rewrite Ht4. done. }
  assert (threads s4 !! t = Some sth) as Hsth4 by (by rewrite Ht4, lookup_insert_ne).
  assert (is_Some (mem s4 !! wait_data sth)) as [sm Hsm].
  { destruct (ip_thread _ _ (cr_ipc _ _ _ Hc4) _ _ Hsth4) as (Hx & _). apply Hx.
    by destruct Hst as [->| ->]. }
  rewrite <- Hm4 in Ha. pose proof (crit_mem_insert idle s4 Q3 a sm Hc4 Ha) as Hc5. set (s5 := set_mem _ s4) in *.
  assert (sched_active_thread s5 = me') as Ha5 by (simpl; by rewrite Ha4; simpl; rewrite Ha2).
  destruct (recv_release_ok s5 Q3 t sth Hc5 Hsth4 Hst Hdt) as
    (s6 & Q6 & sp & Hrun6 & Hc6 & Hp6 & Ha6 & Hb6 & Hr6 & Hm6 & Hd6 & HQ6 & sth' & Ht6 & Hrep & Hsend).
  { by rewrite Ha5. }
  exists sth, a, s6, Q6, sp, me6, sth'. split; [done|]. split; [done|]. split.
  { rewrite Hrun. unfold recv_body. erewrite bind_Done; [|by apply read_node_ok]. cbn beta.
    change (notnull (NThread <$> head (t :: l))) with true. cbn [negb andb]. rewrite andb_false_r. 
    fold (recv_first m me' qi me). erewrite bind_Done; [|exact Hrun2]. cbn beta.
    erewrite bind_Done; [|exact Hrm]. cbn beta. change (NThread <$> head (t :: l)) with (Some (NThread t)).
    cbn beta iota. erewrite bind_Done; [|reflexivity]. cbn beta. fold (recv_place m me' qi).
    erewrite bind_Done; [|exact Hrun4]. cbn beta. erewrite bind_Done; [|by apply get_thread_ok]. cbn beta.
    erewrite bind_Done; [|by apply read_msg_ok]. cbn beta. erewrite bind_Done; [|by apply write_msg_ok]. cbn beta.
    fold (recv_release t sth). by erewrite bind_Done. }
  split; [done|]. split.
  { rewrite Hp6. simpl. rewrite Hp4. simpl. rewrite Hp2. apply Hs. }
  split; [by rewrite Ha6|].
  assert (mem s4 = if 0 <=? qi then <[m := mem s !!! msg_addr (msg_array me) qi]> (mem s) else mem s) as HM4
    by (rewrite Hm4; simpl; by rewrite Hm2).
  assert (is_Some (mem s !! a)) as Has.
  { rewrite HM4 in Ha. destruct (0 <=? qi); [|done].
    apply elem_of_dom. apply elem_of_dom in Ha. rewrite dom_insert_L in Ha. apply elem_of_dom in Hm. set_solver. }
  split.
  { split.
    - unfold Q3 in Hd6. set_solver.
    - rewrite Hm6. simpl. rewrite HM4. case_match; rewrite ?dom_insert_L; set_solver.
    - rewrite Ht6. simpl. rewrite Ht4, !dom_insert_L. set_solver.
    - rewrite Hb6. simpl. rewrite Hb4. simpl. by rewrite Hb2.
    - rewrite (proj1 Hr6). simpl. rewrite (proj1 Hr4). simpl. by rewrite (proj1 Hr2).
    - intros u p _. rewrite (proj2 Hr6). simpl. rewrite (proj2 Hr4). simpl. by rewrite (proj2 Hr2). }
  do 3 (split; [done|]). split; [rewrite Ht6; simpl; by rewrite Ht4|]. split.
  { cbv zeta. rewrite Hm6. simpl. rewrite <- HM4. by rewrite (lookup_total_correct _ _ _ Hsm). }
  split; [done|]. split; [rewrite HQ6 by done; unfold Q3; apply lookup_insert_eq|].
  exists sth, sth'. split; [done|]. split; [by rewrite Ht6, lookup_insert_eq|]. split; [done|].
  intros Hx. destruct (Hsend Hx) as (-> & -> & lr & Hlr & ->). split; [by destruct Hst|]. do 2 (split; [done|]).
  exists lr. split; [|done]. unfold Q3 in Hlr. by rewrite lookup_insert_ne in Hlr.
Qed.

(** ** The inbox of a thread *)

(** The messages waiting for a thread: those in its queue, then those of the
    senders blocked on it. *)
Definition wait_addr (s : kernel) (t : Z) : Z := from_option wait_data 0 (threads s !! t).

Definition inbox (s : kernel) (th : thread_t) (senders : list Z) : list msg_t :=
  queued_msgs s th ++ ((λ t, mem s !!! wait_addr s t) <$> senders).

(** The buffers involved in a receive do not overlap. *)
Record apart (s : kernel) (m : Z) (me : thread_t) (senders : list Z) : Prop := {
  ap_queue : outside (msg_queue me) (msg_array me) m;
  ap_senders t : t ∈ senders → wait_addr s t ≠ m ∧ outside (msg_queue me) (msg_array me) (wait_addr s t);
  ap_none : thread_has_msg_queue me = false → cib_avail (msg_queue me) = 0
}.

Lemma inbox_unswitched s s' u th l :
  unswitched s s' → threads s !! u = Some th →
  ∃ th', threads s' !! u = Some th' ∧ inbox s' th' l = inbox s th l.
Proof.
  intros Hun Hth.
  destruct (same_thread_field (λ th, (msg_queue th, msg_array th)) s s' u th Hun) as (th' & Hth' & Hf); [done|done|].
  exists th'. split; [done|]. injection Hf as Hq Ha. unfold inbox, queued_msgs.
  rewrite (us_mem _ _ Hun), Hq, Ha. f_equal. apply list_fmap_ext. intros i t _. simpl. f_equal.
  unfold wait_addr. pose proof (us_threads _ _ Hun t) as Hsame.
  destruct (threads s !! t) as [tht|]; destruct (threads s' !! t) as [tht'|]; try done.
  simpl in *. by destruct Hsame as [->|(-> & _)].
Qed.

Lemma recv_queue_contents s me qi q :
  cib_wf (msg_queue me) → (thread_has_msg_queue me = false → cib_avail (msg_queue me) = 0) →
  recv_queue me = (qi, q) →
  if 0 <=? qi then 0 ≤ qi < cib_size (msg_queue me) ∧ cib_wf q ∧ cib_size q = cib_size (msg_queue me) ∧
    cib_avail q < cib_size q ∧
    queued_msgs s me = mem s !!! msg_addr (msg_array me) qi :: ring_contents (mem s) q (msg_array me)
  else qi = -1 ∧ q = msg_queue me ∧ queued_msgs s me = [].
Proof.
  intros Hwf Hnone Hq. unfold queued_msgs. destruct (decide (cib_avail (msg_queue me) = 0)) as [H0|H0].
  - assert (qi = -1 ∧ q = msg_queue me) as [-> ->].
    { unfold recv_queue, cib_get in Hq. rewrite H0 in Hq. cbn [Z.eqb negb] in Hq.
      by destruct (thread_has_msg_queue me); injection Hq as <- <-. }
    change (0 <=? -1) with false. cbn beta iota. split; [done|]. split; [done|]. by apply ring_nil.
  - pose proof (ring_get (mem s) (msg_queue me) (msg_array me) Hwf H0) as Hring.
    destruct (cib_get_unsafe (msg_queue me)) as [i q1] eqn:Hu. destruct Hring as (Hget & Hi & Hwf1 & Hsz & Hring).
    unfold recv_queue in Hq. destruct (thread_has_msg_queue me); [|by destruct H0; apply Hnone].
    rewrite Hget in Hq. injection Hq as <- <-. rewrite (proj2 (Z.leb_le 0 i)) by lia.
    split; [done|]. split; [done|]. split; [done|]. split; [|done].
    rewrite Hsz. unfold cib_get_unsafe in Hu. injection Hu as _ <-. rewrite cib_avail_get by done.
    fold (cib_avail (msg_queue me)). pose proof Hwf as (_ & _ & Hle & _). lia.
Qed.

Lemma senders_kept s (l : list Z) (M : gmap Z msg_t) (T : gmap Z thread_t) :
  (∀ w, w ∈ l → T !! w = threads s !! w) → (∀ w, w ∈ l → M !!! wait_addr s w = mem s !!! wait_addr s w) →
  (λ w, M !!! from_option wait_data 0 (T !! w)) <$> l = (λ w, mem s !!! wait_addr s w) <$> l.
Proof.
  intros HT HM. apply list_fmap_ext. intros i w Hw. apply list_elem_of_lookup_2 in Hw.
  rewrite HT by done. by apply HM.
Qed.

(** Receiving takes the first message of the inbox and leaves the others in
    order. *)
Lemma recv_inbox s Q m me t l block :
  sysinv idle s Q → threads s !! sched_active_thread s = Some me →
  Q !! NMsgWaiters (sched_active_thread s) = Some (QWait (t :: l)) → is_Some (mem s !! m) →
  apart s m me (t :: l) →
  ∃ m0 rest s6 Q6 sp me6, inbox s me (t :: l) = m0 :: rest ∧
    _msg_receive m block s =
      (irq_restore true;; (if sp <? THREAD_PRIORITY_IDLE then sched_switch sp else mret tt);; mret 1) s6 ∧
    crit idle s6 Q6 ∧ yield_pending s6 = false ∧ sched_active_thread s6 = sched_active_thread s ∧
    runnable s6 (sched_active_thread s6) ∧
    threads s6 !! sched_active_thread s = Some me6 ∧ mem s6 !! m = Some m0 ∧
    Q6 !! NMsgWaiters (sched_active_thread s) = Some (QWait l) ∧ inbox s6 me6 l = rest ∧
    priority me6 = priority me ∧ t ≠ sched_active_thread s ∧ woken s Q t l sp s6 Q6.
Proof.
  intros Hs Hme Hw Hm [Hout Hsend Hnone].
  destruct (recv_queue me) as [qi q] eqn:Hq. set (me' := sched_active_thread s) in *.
  destruct (ip_thread _ _ (cr_ipc _ _ _ (sy_crit _ _ _ Hs)) _ _ Hme) as (_ & Hwf0 & Hsl).
  pose proof (recv_queue_contents s me qi q Hwf0 Hnone Hq) as Hcont.
  destruct (recv_waiter s Q m me qi q block t l Hs Hme Hq Hw Hm) as
    (sth & a & s6 & Q6 & sp & me6 & sth' & Hsth & Hne & Hrun & Hc6 & Hp6 & Ha6 & _ & Hst6 & Hpr6 & Harr6 & Ht6 & Hm6 & Hcase & HQ6 & Hwok).
  fold me' in Hrun, Hc6, Ha6, Ht6, Hne, HQ6. cbv zeta in Hm6.
  destruct (sy_active _ _ _ Hs) as (me0 & Hme0 & Hon). assert (me0 = me) as -> by (unfold me' in *; congruence).
  assert (NoDup (t :: l)) as [Htl _]%NoDup_cons.
  { destruct (qr_rep _ _ (ki_rep _ _ (cr_kinv _ _ _ (sy_crit _ _ _ Hs))) _ _ Hw) as [_ Hr].
    by apply rep_NoDup in Hr. }
  assert (∀ w, w ∈ l → w ≠ t ∧ w ≠ me') as Hl.
  { intros w Hwl. split; [by intros ->|]. intros ->.
    destruct (ki_mem _ _ (cr_kinv _ _ _ (sy_crit _ _ _ Hs)) _ _ me' Hw) as (x & Hx & Hst & _); [by right|].
    simplify_eq. by destruct Hst as [Hst|Hst]; rewrite Hst in Hon. }
  assert (threads s6 !! me' = Some me6) as Hme6 by (by rewrite Ht6, lookup_insert_ne, lookup_insert_eq).
  assert (∀ w, w ∈ l → threads s6 !! w = threads s !! w) as HT.
  { intros w Hwl. destruct (Hl w Hwl). by rewrite Ht6, !lookup_insert_ne. }
  assert (wait_addr s t = wait_data sth) as Hwa by (unfold wait_addr; by rewrite Hsth).
  destruct (Hsend t) as [Hwm Hwo]; [by left|]. rewrite Hwa in Hwm, Hwo.
  assert (∀ w, w ∈ l → mem s6 !!! wait_addr s w = mem s !!! wait_addr s w) as HM.
  { intros w Hwl. destruct (Hsend w) as [Hw1 Hw2]; [by right|]. rewrite Hm6. destruct (0 <=? qi).
    - destruct Hcase as (n & q2 & Hput & -> & _). destruct Hcont as (_ & Hwfq & Hszq & Havq & _).
      pose proof (cib_put_spec q Hwfq) as Hp. rewrite decide_True in Hp by done.
      destruct Hp as (n' & q' & Hp & Hn & _). rewrite Hput in Hp. injection Hp as <- <-.
      rewrite !lookup_total_insert_ne; [done|done|]. apply Hw2. by rewrite <- Hszq.
    - destruct Hcase as [-> _]. by rewrite lookup_total_insert_ne. }
  assert (runnable s6 (sched_active_thread s6)) as Hr6 by (exists me6; rewrite Ha6, Hst6; done).
  assert (inbox s6 me6 l = queued_msgs s6 me6 ++ ((λ w, mem s !!! wait_addr s w) <$> l)) as Hinbox.
  { unfold inbox. f_equal. unfold wait_addr at 1. by apply senders_kept. }
  destruct (0 <=? qi) eqn:Hqi.
  - destruct Hcase as (n & q2 & Hput & -> & Hq6).
    destruct Hcont as (Hi & Hwfq & Hszq & Havq & Hcont).
    pose proof (cib_put_spec q Hwfq) as Hp. rewrite decide_True in Hp by done.
    destruct Hp as (n' & q' & Hp & Hn & _). rewrite Hput in Hp. injection Hp as <- <-.
    set (mm := mem s !!! msg_addr (msg_array me) qi) in *.
    exists mm, (ring_contents (mem s) q (msg_array me) ++ ((λ w, mem s !!! wait_addr s w) <$> t :: l)), s6, Q6, sp, me6.
    split; [unfold inbox; by rewrite Hcont|]. do 6 (split; [done|]).
    split.
    { rewrite Hm6, lookup_insert_ne by (apply Hout; by rewrite <- Hszq). by rewrite lookup_insert_eq. }
    split; [done|]. split; [|by auto]. rewrite Hinbox. unfold queued_msgs. rewrite Hq6, Harr6, Hm6.
    rewrite lookup_total_insert_ne by done.
    pose proof (ring_put (<[m:=mm]> (mem s)) q (msg_array me) (mem s !!! wait_data sth) Hwfq) as Hring.
    rewrite cib_full_spec in Hring by done. rewrite (proj2 (Z.eqb_neq _ _)) in Hring by lia.
    specialize (Hring eq_refl). destruct (cib_put_unsafe q) as [i1 q1]. destruct Hring as (Hput1 & _ & _ & _ & Hring).
    rewrite Hput in Hput1. injection Hput1 as <- <-. rewrite Hring.
    rewrite ring_insert_outside; [|done|intros j Hj; apply Hout; by rewrite <- Hszq].
    rewrite <- app_assoc. simpl. by rewrite Hwa.
  - destruct Hcase as [-> Hq6]. destruct Hcont as (-> & -> & Hcont).
    exists (mem s !!! wait_data sth), ((λ w, mem s !!! wait_addr s w) <$> l), s6, Q6, sp, me6.
    split; [unfold inbox; rewrite Hcont; simpl; by rewrite Hwa|]. do 6 (split; [done|]).
    split; [by rewrite Hm6, lookup_insert_eq|]. split; [done|]. split; [|by auto].
    rewrite Hinbox. unfold queued_msgs. rewrite Hq6, Harr6, Hm6.
    rewrite ring_insert_outside by done. unfold queued_msgs in Hcont. by rewrite Hcont.
Qed.

(** The first blocked sender [u] after a receive by the running thread, of priority
    [prio]: one that waits for a reply stays as it is; any other is ready at the end
    of its run queue, and runs when its priority is better.  [sw] says whether the
    call switched threads. *)
Definition released (s : kernel) (Q : queues) (prio u : Z) (l : list Z) (sw : bool) (s' : kernel) (Q' : queues) : Prop :=
  let t := sched_active_thread s in let Q1 := <[NMsgWaiters t := QWait l]> Q in
  ∃ sth sth', threads s !! u = Some sth ∧ threads s' !! u = Some sth' ∧
    if decide (status sth = STATUS_REPLY_BLOCKED) then
      sth' = sth ∧ Q' = Q1 ∧ sw = false ∧ sched_active_thread s' = t
    else status sth = STATUS_SEND_BLOCKED ∧ wait_data sth' = 0 ∧ on_runqueue (status sth') = true ∧
      (∃ lr, Q !! NRq (priority sth) = Some (QRun lr) ∧ Q' = <[NRq (priority sth) := QRun (lr ++ [u])]> Q1) ∧
      sw = (priority sth <? prio) ∧ sched_active_thread s' = if sw then u else t.

(** Leaving the call switches to the sender when it is due. *)
Lemma released_switch s Q u l sp s6 Q6 me6 prio :
  woken s Q u l sp s6 Q6 → sysinv idle s6 Q6 → sched_active_thread s6 = sched_active_thread s →
  threads s6 !! sched_active_thread s = Some me6 → priority me6 = prio → u ≠ sched_active_thread s →
  next_ready Q prio (sched_active_thread s) → 0 ≤ prio < SCHED_PRIO_LEVELS →
  stops ((if sp <? THREAD_PRIORITY_IDLE then sched_switch sp else mret tt) s6) tt (λ sw s',
    sysinv idle s' Q6 ∧ unswitched s6 s' ∧ released s Q prio u l sw s' Q6).
Proof.
  intros (sth & sth' & Hsth & Hsth6 & Hrep & Hsend) Hs6 Ha6 Hme6 <- Hne Hnext Hpr.
  destruct (decide (status sth = STATUS_REPLY_BLOCKED)) as [Hst|Hst].
  - destruct (Hrep Hst) as (-> & -> & ->). left. exists s6. split; [done|]. split; [done|]. split; [apply unswitched_refl|].
    exists sth, sth. rewrite decide_True by done. done.
  - destruct (Hsend Hst) as (Hsb & -> & -> & lr & Hlr & ->). set (Q1 := <[NMsgWaiters _ := _]> Q) in *.
    destruct (ki_thread _ _ (cr_kinv _ _ _ (sy_crit _ _ _ Hs6)) _ _ Hsth6) as (_ & Hp & _). cbn [priority set_status set_wait_data] in Hp.
    assert (next_ready Q1 (priority me6) (sched_active_thread s)) as Hnext1.
    { destruct Hnext as (H1 & (l0 & H2) & H3). split; [done|]. unfold Q1.
      split; [exists l0; by rewrite lookup_insert_ne|]. intros q Hq. rewrite lookup_insert_ne by done. by apply H3. }
    assert (∀ s' sw, sw = (priority sth <? priority me6) → unswitched s6 s' →
      sched_active_thread s' = (if sw then u else sched_active_thread s) →
      released s Q (priority me6) u l sw s' (<[NRq (priority sth) := QRun (lr ++ [u])]> Q1)) as Hfin.
    { intros s' sw Hsw Hun Hact. pose proof (us_threads _ _ Hun u) as Hsame. rewrite Hsth6 in Hsame.
      destruct (threads s' !! u) as [th'|] eqn:Hu; [|done]. exists sth, th'. rewrite decide_False by done.
      do 3 (split; [done|]). split; [by destruct Hsame as [->|(-> & _)]|].
      split; [by destruct Hsame as [->|(_ & _ & ?)]|]. split; [by exists lr|]. done. }
    destruct (Z.ltb_spec (priority sth) THREAD_PRIORITY_IDLE) as [Hidle|Hidle].
    + assert (Q1 !! NRq (priority sth) = Some (QRun lr)) as Hlr1 by (unfold Q1; by rewrite lookup_insert_ne).
      rewrite <- Ha6 in Hme6, Hne, Hnext1.
      pose proof (wake_switch_stops idle s6 Q1 (priority sth) u lr me6 Hs6 Hme6 Hlr1 Hp Hne Hnext1) as Hsw.
      eapply stops_mono; [exact Hsw|]. intros b s' (H1 & -> & H3 & H4). split; [done|]. split; [done|].
      apply Hfin; [done|done|]. by rewrite H4, Ha6.
    + left. exists s6. split; [done|]. split; [done|]. split; [apply unswitched_refl|].
      assert ((priority sth <? priority me6) = false) as Hf
        by (apply Z.ltb_ge; unfold THREAD_PRIORITY_IDLE, THREAD_PRIORITY_MIN in Hidle; lia).
      apply Hfin; [done|apply unswitched_refl|done].
Qed.

(** C5: Receiving returns the first message of the inbox, the queue followed by the
    messages of the blocked senders, and leaves the others in order; the first
    sender is released: it becomes ready and runs when its priority is better,
    unless it goes on waiting for a reply.  With an empty inbox the caller blocks or
    the call returns -1. *)
Theorem msg_receive_outcome s Q m me senders (block : bool) :
  sysinv idle s Q → runs_best s Q → threads s !! sched_active_thread s = Some me → sched_active_thread s ≠ idle →
  Q !! NMsgWaiters (sched_active_thread s) = Some (QWait senders) → is_Some (mem s !! m) →
  apart s m me senders →
  let t := sched_active_thread s in
  match inbox s me senders with
  | m0 :: rest =>
      stops (_msg_receive m block s) 1 (λ sw s', ∃ Q' me', sysinv idle s' Q' ∧
        mem s' !! m = Some m0 ∧ threads s' !! t = Some me' ∧
        Q' !! NMsgWaiters t = Some (QWait (tail senders)) ∧ inbox s' me' (tail senders) = rest ∧
        match senders with
        | [] => sw = false ∧ Q' = Q ∧ sched_active_thread s' = t
        | u :: l => released s Q (priority me) u l sw s' Q'
        end)
  | [] =>
      if block then ∃ s' k Q', _msg_receive m true s = Yield s' k ∧ sysinv idle s' Q' ∧
        threads s' !! t = Some (set_status STATUS_RECEIVE_BLOCKED (set_wait_data m me)) ∧
        ∀ s2 Q2, sysinv idle s2 Q2 → sched_active_thread s2 = t → k s2 = Done s2 1
      else _msg_receive m false s = Done s (-1)
  end.
Proof.
  intros Hs Hbest Hme Hidle Hw Hm Hap t. destruct senders as [|u l].
  - destruct (recv_queue me) as [qi q] eqn:Hq.
    destruct (ip_thread _ _ (cr_ipc _ _ _ (sy_crit _ _ _ Hs)) _ _ Hme) as (_ & Hwf0 & Hsl).
    pose proof (recv_queue_contents s me qi q Hwf0 (ap_none _ _ _ _ Hap) Hq) as Hcont.
    unfold inbox. rewrite app_nil_r. destruct (Z.leb_spec 0 qi) as [Hqi|Hqi].
    + destruct Hcont as (Hi & Hwfq & Hszq & Havq & ->).
      destruct (recv_queued s Q m me qi q block Hs Hme Hq Hqi Hw Hm) as
        (s' & mm & Hmm & Hrun & Hs' & Hm' & Ht' & _ & Ha').
      left. exists s'. split; [done|]. exists Q, (set_msg_queue q me). split; [done|].
      rewrite (lookup_total_correct _ _ _ Hmm). split; [by rewrite Hm', lookup_insert_eq|].
      split; [by rewrite Ht', lookup_insert_eq|]. split; [done|]. split; [|done].
      simpl. rewrite app_nil_r. unfold queued_msgs. simpl. rewrite Hm'.
      apply ring_insert_outside; [done|]. intros j Hj. apply (ap_queue _ _ _ _ Hap). by rewrite <- Hszq.
    + destruct Hcont as (-> & -> & ->).
      pose proof (recv_empty s Q m me block Hs Hme Hq Hw Hm Hidle) as Hempty. destruct block; [|done].
      destruct Hempty as (s2 & Q2 & _ & Hc2 & Hp2 & Ha2 & Hme2 & Hrun).
      rewrite <- Ha2 in Hme2.
      destruct (blocked_switch idle s2 Q2 _ Hc2 Hp2 Hme2 eq_refl) as (s' & Hr & Hy & Hs' & Hun & _ & Hne).
      eexists s', _, Q2. split; [|split; [done|split]].
      * rewrite Hrun. erewrite bind_Done; [|exact Hr]. cbn beta. by erewrite bind_Yield.
      * unfold t. rewrite <- Ha2. by apply (unswitched_blocked _ _ _ _ Hun).
      * intros s3 Q3 Hs3 Ha3. cbn [res_bind]. destruct (sy_active _ _ _ Hs3) as (th3 & Hth3 & Hon3).
        kstep. kstep. rewrite decide_False by (intros Hx; by rewrite Hx in Hon3). done.
  - destruct (recv_inbox s Q m me u l block Hs Hme Hw Hm Hap) as
      (m0 & rest & s6 & Q6 & sp & me6 & -> & -> & Hc6 & Hp6 & Ha6 & Hr6 & Hme6 & Hm6 & HQ6 & Hin & Hpr6 & Hne & Hwok).
    destruct (restore_ok idle s6 Q6 Hc6 Hp6 Hr6) as [Hrest Hs6].
    erewrite bind_Done; [|exact Hrest]. cbn beta. apply (stops_bind _ _ _ tt); [|done].
    pose proof (cr_kinv _ _ _ (sy_crit _ _ _ Hs)) as Hk. destruct (ki_thread _ _ Hk _ _ Hme) as (_ & Hpr & _).
    eapply stops_mono; [apply (released_switch s Q u l sp (set_irq_on true s6) Q6 me6 (priority me)); try done|].
    { by apply runs_best_prio. }
    intros sw s' (Hs' & Hun & Hrel). destruct (inbox_unswitched _ s' t me6 l Hun) as (me7 & Hme7 & Hin7); [done|].
    exists Q6, me7. split; [done|]. split; [by rewrite (us_mem _ _ Hun)|]. split; [done|].
    split; [done|]. split; [|done]. simpl. by rewrite Hin7.
Qed.

End Msg.
