(* ===== verification/MsgSafe.v ===== *)
(** * Safety of the message calls (core/msg.c)

    Every message call keeps the kernel invariant, on all its branches and
    wherever it is suspended. *)

From S2P Require Import Prelude Bitarithm Cib LinkedList Clist Kernel Sched KernelInv WaitList SchedProps ThreadCalls ThreadFlags Mbox Msg.

Section MsgSafe.
Context (idle : Z).

(** The index of the table of pids of an existing thread. *)
Definition pid_slot (s : kernel) (p t : Z) : Prop := aget (sched_threads s) p = Some t ∧ t ≠ 0.

(** ** Sending *)

Lemma restore_true s : in_isr s = false → yield_pending s = false → irq_restore true s = Done (set_irq_on true s) tt.
Proof. intros Hi Hp. unfold irq_restore. simpl. by rewrite Hi, Hp. Qed.

(** The end of a send to a queue. *)
Lemma queued_finish_safe s Q t me s0 Q0 :
  crit idle s Q → yield_pending s = false → threads s !! sched_active_thread s = Some me →
  on_runqueue (status me) = true ∨ status me = STATUS_REPLY_BLOCKED →
  grows s0 Q0 s Q → sched_active_thread s = t →
  safe idle t s0 Q0
    ((irq_restore true;;
      my ← get_thread t;
      (if decide (status my = STATUS_REPLY_BLOCKED) then thread_yield_higher else mret tt);;
      mret 1) s) (λ _ _ _, True).
Proof.
  intros Hc Hp Hme Hst Hg Ha. pose proof (cr_isr _ _ _ Hc) as Hisr.
  erewrite bind_Done; [|by apply restore_true]. cbn beta.
  erewrite bind_Done; [|apply get_thread_ok; rewrite <- Ha; exact Hme]. cbn beta.
  case_decide as Hr.
  - eapply safe_mono; [eapply (safe_then idle), safe_yield_higher; [by apply crit_irq|done| |done]|done].
    by rewrite <- grows_irq.
  - destruct Hst as [Hon|?]; [|done]. exists Q. split; [|by rewrite <- grows_irq].
    split; [by apply crit_irq|done|done|by exists me].
Qed.

Lemma send_safe s Q m mm me tp tgt block s0 Q0 :
  send_ctx idle s Q m mm me → aget (sched_threads s) tp = Some tgt → tp ≠ sched_active_pid s →
  (tgt = 0 → on_runqueue (status me) = true) → sched_active_thread s ≠ idle → grows s0 Q0 s Q →
  (block = false → on_runqueue (status me) = true) →
  safe idle (sched_active_thread s) s0 Q0 (_msg_send m tp block true s) (λ _ _ _, True).
Proof.
  intros Hctx Hslot Hp H0 Hidle Hg Hb. pose proof (send_ctx_stamped idle _ _ _ _ _ Hctx) as Hc1.
  pose proof Hctx as [Hc Hpend Hm Hme Hstat].
  assert (grows s0 Q0 (set_mem (<[m := set_sender_pid (sched_active_pid s) mm]> (mem s)) s) Q) as Hg1
    by (grow Hg).
  destruct (decide (tgt = 0)) as [->|Hne0].
  { rewrite (send_enter s m mm tp 0 block Hm Hslot). cbn [Z.eqb].
    eapply safe_mono; [eapply safe_restore_ret; [exact Hc1| |done|done]|done].
    exists me. split; [done|by apply H0]. }
  destruct (target_not_me s Q tp tgt me (cr_kinv _ _ _ Hc) Hme Hslot Hne0 Hp) as (th & Hth & Hne).
  destruct (decide (status th = STATUS_RECEIVE_BLOCKED)) as [Hst|Hst].
  { destruct (send_direct idle s Q m mm me tp tgt th block Hctx Hslot Hne0 Hth Hst)
      as (s2 & l & -> & Hl & Hc2 & Hp2 & Ha2 & Hm2 & Ht2 & Hb2 & Hr2 & _).
    eapply safe_mono; [eapply safe_restore_yield_ret; [exact Hc2| |done]|done].
    eapply grows_step; [exact Hg|..]; rewrite ?Ht2, ?Hm2, ?dom_insert_L; try done; set_solver. }
  destruct (decide (cib_avail (msg_queue th) < cib_size (msg_queue th))) as [Hav|Hav].
  { destruct (send_queued idle s Q m mm me tp tgt th block Hctx Hslot Hne0 Hth Hst Hne Hav)
      as (n & q' & s2 & Q2 & Hput & -> & Hc2 & Hk2 & Hd2 & Hm2 & _).
    assert (threads s2 !! sched_active_thread s2 = Some me) as Hme2.
    { rewrite (qk_active _ _ _ Hk2), (qk_other _ _ _ Hk2) by (by apply not_eq_sym). exact Hme. }
    eapply queued_finish_safe; [exact Hc2|by rewrite (qk_pending _ _ _ Hk2)|exact Hme2| | |].
    - destruct Hstat as [?|[? _]]; auto.
    - by eapply queue_kept_grows.
    - apply (qk_active _ _ _ Hk2). }
  destruct block.
  - destruct (send_blocks idle s Q m mm me tp tgt th Hctx Hslot Hne0 Hth Hst Hne ltac:(lia) Hidle)
      as (l & s2 & Q2 & Hl & -> & Hc2 & Hp2 & Ha2 & Hg2 & _).
    eapply safe_mono; [eapply safe_restore_yield_ret; [exact Hc2|eapply grows_trans; [exact Hg|exact Hg2]|done]|done].
  - rewrite (send_refused idle s Q m mm me tp tgt th Hctx Hslot Hne0 Hth Hst) by lia.
    eapply safe_mono; [eapply safe_restore_ret; [exact Hc1| |done|done]|done].
    exists me. split; [done|by apply Hb].
Qed.

(** A thread that queues a message for itself. *)
Lemma msg_send_to_self_safe s Q m :
  sysinv idle s Q → is_Some (mem s !! m) →
  safe idle (sched_active_thread s) s Q (msg_send_to_self m s) (λ _ _ _, True).
Proof.
  intros Hs [mm Hm]. pose proof (crit_enter _ _ _ Hs) as Hc.
  destruct (sy_active _ _ _ Hs) as (me & Hme & Hon). unfold msg_send_to_self. do 2 kstep.
  rewrite (sy_irq _ _ _ Hs). erewrite bind_Done; [|apply read_msg_ok; exact Hm]. cbn beta.
  erewrite bind_Done; [|apply write_msg_ok; by eexists]. cbn beta. kstep.
  set (mm' := set_sender_pid _ mm).
  pose proof (crit_mem_insert idle (set_irq_on false s) Q m mm' Hc ltac:(by eexists)) as Hc1.
  set (s1 := set_mem _ _) in *.
  destruct (ip_thread _ _ (cr_ipc _ _ _ Hc1) _ _ Hme) as (_ & Hwf & _).
  destruct (decide (cib_avail (msg_queue me) < cib_size (msg_queue me))) as [Hav|Hav].
  - destruct (queue_msg_ok idle s1 Q _ me m mm' Hc1 Hme) as
      (n & q' & s2 & Q2 & _ & Hrun & Hc2 & Hk & Hd & _); [simpl; apply lookup_insert_eq|done|by left|].
    erewrite bind_Done; [|exact Hrun]. cbn beta.
    destruct (qk_me _ _ _ Hk me eq_refl Hme) as (me' & Hme' & Hst').
    eapply safe_mono; [eapply safe_restore_ret; [exact Hc2| | |]|done].
    + exists me'. rewrite (qk_active _ _ _ Hk). rewrite Hst'. done.
    + eapply queue_kept_grows; [exact Hk|exact Hd|]. grow (grows_refl s Q).
    + apply (qk_active _ _ _ Hk).
  - erewrite bind_Done; [|apply (queue_msg_full s1 _ me); [exact Hme|done|lia]]. cbn beta.
    eapply safe_mono; [eapply safe_restore_ret; [exact Hc1|by exists me|grow (grows_refl s Q)|done]|done].
Qed.

(** [msg_send] and [msg_try_send]. *)
Lemma msg_send_gen_safe s Q m tp block :
  sysinv idle s Q → is_Some (mem s !! m) → 0 ≤ tp < 33 → sched_active_thread s ≠ idle →
  safe idle (sched_active_thread s) s Q (msg_send_gen m tp block s) (λ _ _ _, True).
Proof.
  intros Hs [mm Hm] Htp Hidle. destruct (decide (tp = sched_active_pid s)) as [->|Hp].
  - unfold msg_send_gen. kstep. rewrite (cr_isr _ _ _ (sy_crit _ _ _ Hs)). kstep.
    rewrite Z.eqb_refl. apply msg_send_to_self_safe; [done|by exists mm].
  - rewrite (msg_send_gen_run idle s Q m tp block Hs Hp).
    destruct (sy_active _ _ _ Hs) as (me & Hme & Hon).
    destruct (aget_in (sched_threads s) tp) as [tgt Htgt].
    { rewrite (ki_table_length _ _ (cr_kinv _ _ _ (sy_crit _ _ _ Hs))). lia. }
    apply (send_safe (set_irq_on false s) Q m mm me tp tgt); try done.
    by apply sys_send_ctx.
Qed.

(** *** msg_send_receive *)

(** The caller blocks for a reply, and then stores where the reply goes. *)
Lemma reply_block s Q me reply :
  crit idle s Q → threads s !! sched_active_thread s = Some me → on_runqueue (status me) = true →
  sched_active_thread s ≠ idle → is_Some (mem s !! reply) →
  ∃ h c l, let t := sched_active_thread s in
    let me' := set_wait_data reply (set_status STATUS_REPLY_BLOCKED me) in
    let s' := set_threads (<[t := me']> (threads s)) (set_runqueue_bitcache c (set_nodes h s)) in
    let Q' := <[NRq (priority me) := QRun l]> Q in
    (∀ B (f : M B), (sched_set_status t STATUS_REPLY_BLOCKED;; upd_thread t (set_wait_data reply);; f) s = f s') ∧
    Q !! NRq (priority me) = Some (QRun (t :: l)) ∧ crit idle s' Q' ∧ detached Q' t.
Proof.
  intros Hc Hme Hon Hidle Hr. pose proof Hc as [Hk Hipc Hf Hisr Hid].
  destruct (Hf me Hme Hon) as (l & Hl). set (t := sched_active_thread s) in *.
  destruct (set_status_block s Q t me STATUS_REPLY_BLOCKED l Hk Hme Hon eq_refl Hl) as (h & c & Hrun & Hk' & Hd).
  set (me' := set_wait_data reply (set_status STATUS_REPLY_BLOCKED me)).
  set (s1 := status_state s t me STATUS_REPLY_BLOCKED h c) in *. set (Q' := <[_:=_]> Q) in *.
  assert (threads s1 !! t = Some (set_status STATUS_REPLY_BLOCKED me)) as Hme1 by (simpl; apply lookup_insert_eq).
  exists h, c, l. split.
  { intros B f. erewrite bind_Done; [|exact Hrun]. cbn beta.
    erewrite bind_Done; [|apply upd_thread_ok; exact Hme1]. cbn beta. f_equal. simpl. by rewrite insert_insert_eq. }
  split; [done|]. split; [|done].
  assert (set_threads (<[t := me']> (threads s)) (set_runqueue_bitcache c (set_nodes h s)) =
    set_threads (<[t := me']> (threads s1)) s1) as -> by (simpl; by rewrite insert_insert_eq).
  split; try done.
  - by apply (kinv_upd_field s1 Q' t (set_status STATUS_REPLY_BLOCKED me)).
  - apply (ipc_ext (set_threads (<[t := me']> (threads s)) s)); [simpl; by rewrite insert_insert_eq|done|done|done|].
    apply (ipc_thread s Q' t me); [done| |by right; left| |by apply ipc_runqueue].
    + destruct (ip_thread _ _ Hipc _ _ Hme) as (_ & Hq & Hs). by split.
    + intros _. apply (ip_pid _ _ Hipc t me Hme). intros Hx. by rewrite Hx in Hon.
  - intros tha. simpl. fold t. rewrite lookup_insert_eq. by intros [= <-].
  - destruct Hid as (thi & Hti & Honi). exists thi. split; [|done]. simpl.
    rewrite !lookup_insert_ne by done. done.
Qed.

Lemma msg_send_receive_safe s Q m reply tp tgt :
  sysinv idle s Q → is_Some (mem s !! m) → is_Some (mem s !! reply) →
  pid_slot s tp tgt → tp ≠ sched_active_pid s → sched_active_thread s ≠ idle →
  safe idle (sched_active_thread s) s Q (msg_send_receive m reply tp s) (λ _ _ _, True).
Proof.
  intros Hs [mm Hm] Hr [Hslot H0] Hp Hidle. pose proof (crit_enter _ _ _ Hs) as Hc.
  destruct (sy_active _ _ _ Hs) as (me & Hme & Hon).
  destruct (ki_active _ _ (cr_kinv _ _ _ Hc)) as (me0 & Hme0 & Hpid).
  { by destruct (ki_thread _ _ (cr_kinv _ _ _ Hc) _ _ Hme). }
  assert (me0 = me) as -> by (simpl in Hme0; congruence).
  unfold msg_send_receive. kstep. rewrite (proj2 (Z.eqb_neq _ _)) by done. kstep.
  rewrite (sy_irq _ _ _ Hs). erewrite bind_Done.
  2: { unfold read_sched_threads. simpl. simpl in Hpid. rewrite <- Hpid.
       rewrite (ip_pid _ _ (cr_ipc _ _ _ (sy_crit _ _ _ Hs)) _ _ Hme); [reflexivity|].
       intros Hx. by rewrite Hx in Hon. }
  cbn beta. destruct (reply_block _ Q me reply Hc Hme Hon Hidle Hr) as (h & c & l & Hrun & Hl & Hc1 & Hd).
  simpl sched_active_thread in Hrun, Hl, Hc1, Hd. rewrite Hrun. set (s1 := set_threads _ _) in *.
  erewrite bind_Done; [|apply read_msg_ok; exact Hm]. cbn beta.
  erewrite bind_Done; [|apply write_msg_ok; exact Hr]. cbn beta.
  pose proof (crit_mem_insert idle s1 _ reply mm Hc1 Hr) as Hc2. set (s2 := set_mem _ s1) in *.
  set (me' := set_wait_data reply (set_status STATUS_REPLY_BLOCKED me)) in *.
  apply (send_safe s2 (<[NRq (priority me):=QRun l]> Q) reply mm me' tp tgt); [| |done|done|done| |done].
  - split; [exact Hc2|apply Hs|apply lookup_insert_eq|apply lookup_insert_eq|].
    right. split; [done|exact Hd].
  - done.
  - grow (grows_refl s Q).
Qed.

(** ** Receiving *)

Lemma recv_waiters s Q : sysinv idle s Q → ∃ l, Q !! NMsgWaiters (sched_active_thread s) = Some (QWait l).
Proof.
  intros Hs. destruct (sy_active _ _ _ Hs) as (me & Hme & _).
  by destruct (ki_thread _ _ (cr_kinv _ _ _ (sy_crit _ _ _ Hs)) _ _ Hme) as (_ & _ & _ & ?).
Qed.

Lemma msg_receive_safe s Q m block :
  sysinv idle s Q → is_Some (mem s !! m) → sched_active_thread s ≠ idle →
  safe idle (sched_active_thread s) s Q (_msg_receive m block s) (λ _ _ _, True).
Proof.
  intros Hs Hm Hidle. destruct (sy_active _ _ _ Hs) as (me & Hme & Hon).
  destruct (recv_waiters s Q Hs) as (senders & Hw). destruct (recv_queue me) as [qi q] eqn:Hq.
  destruct senders as [|t l].
  - pose proof (recv_enter idle s Q m block me Hs Hme) as Henter. rewrite Hq in Henter.
    destruct Henter as (_ & _ & _ & [[-> ->]|[Hqi _]] & _).
    + pose proof (recv_empty idle s Q m me block Hs Hme Hq Hw Hm Hidle) as He. destruct block.
      * destruct He as (s2 & Q2 & Hg2 & Hc2 & Hp2 & Ha2 & Hme2 & ->). rewrite <- Ha2 at 1.
        eapply safe_restore_yield_then; [exact Hc2|exact Hg2|done|].
        intros s3 Q3 Hs3 Hg3 Ha3. destruct (sy_active _ _ _ Hs3) as (th3 & Hth3 & Hon3).
        kstep. kstep. rewrite decide_False by (intros Hx; by rewrite Hx in Hon3).
        by exists Q3.
      * rewrite He. by exists Q.
    + destruct (recv_queued idle s Q m me qi q block Hs Hme Hq ltac:(lia) Hw Hm) as
        (s' & mm & _ & -> & Hs' & _ & _ & Hg' & Ha').
      by exists Q.
  - destruct (recv_waiter idle s Q m me qi q block t l Hs Hme Hq Hw Hm) as
      (sth & a & s6 & Q6 & sp & me6 & sth' & Hsth & Hne & Hrun & Hc6 & Hp6 & Ha6 & Hg6 & Hst6 & _ & _ & Ht6 & _).
    rewrite Hrun. eapply safe_bind.
    + eapply safe_restore; [exact Hc6| |exact Hg6|done].
      exists me6. rewrite Ha6, Ht6, lookup_insert_ne, lookup_insert_eq by done. by rewrite Hst6.
    + intros _ s7 Q7 Hs7 Hg7 Ha7 _. case_match.
      * eapply safe_mono; [eapply (safe_then idle), safe_sched_switch; done|done].
      * kstep. by exists Q7.
Qed.

(** ** Replying

    The thread that waits for the reply must not be queued at its receiver any
    more: [sched_set_status] would put its list entry into a run queue. *)
Lemma msg_reply_safe s Q m mm reply tgt th :
  sysinv idle s Q → mem s !! m = Some mm → is_Some (mem s !! reply) →
  pid_slot s (sender_pid mm) tgt → threads s !! tgt = Some th →
  (status th = STATUS_REPLY_BLOCKED → detached Q tgt) →
  safe idle (sched_active_thread s) s Q (msg_reply m reply s) (λ _ _ _, True).
Proof.
  intros Hs Hm [r Hr] [Hslot H0] Hth Hd. pose proof (crit_enter _ _ _ Hs) as Hc.
  destruct (sy_active _ _ _ Hs) as (me & Hme & Hon).
  unfold msg_reply. kstep. rewrite (sy_irq _ _ _ Hs).
  erewrite bind_Done; [|apply read_msg_ok; exact Hm]. cbn beta.
  erewrite bind_Done; [|unfold read_sched_threads; simpl; rewrite Hslot; reflexivity]. cbn beta.
  rewrite (proj2 (Z.eqb_neq _ _)) by done.
  erewrite bind_Done; [|apply get_thread_ok; exact Hth]. cbn beta. case_decide as Hst.
  { eapply safe_mono; [eapply safe_restore_ret; [exact Hc|by exists me|grow (grows_refl s Q)|done]|done]. }
  destruct (ip_thread _ _ (cr_ipc _ _ _ Hc) _ _ Hth) as (Hwd & _). specialize (Hwd ltac:(by rewrite Hst)).
  erewrite bind_Done; [|apply read_msg_ok; exact Hr]. cbn beta.
  erewrite bind_Done; [|apply write_msg_ok; exact Hwd]. cbn beta.
  pose proof (crit_mem_insert idle _ Q (wait_data th) r Hc Hwd) as Hc1. set (s1 := set_mem _ _) in *.
  assert (sched_active_thread s ≠ tgt) as Hne.
  { intros Heq. rewrite <- Heq in Hth. simplify_eq. by rewrite Hst in Hon. }
  destruct (crit_wake idle s1 Q tgt th STATUS_PENDING Hc1 Hth) as (h & c & l & Hset & Hl & Hc2);
    [by rewrite Hst|by apply Hd|done|done|by rewrite Hst|].
  erewrite bind_Done; [|exact Hset]. cbn beta.
  erewrite bind_Done; [|apply get_thread_ok; simpl; apply lookup_insert_eq]. cbn beta zeta.
  eapply safe_mono; [eapply safe_restore_switch_ret; [exact Hc2| | |done]|done].
  - exists me. split; [|done]. simpl. by rewrite lookup_insert_ne.
  - grow (grows_refl s Q).
Qed.

(** ** The queue of the caller *)

Lemma msg_avail_safe s Q :
  sysinv idle s Q → safe idle (sched_active_thread s) s Q (msg_avail s) (λ _ _ _, True).
Proof.
  intros Hs. destruct (sy_active _ _ _ Hs) as (me & Hme & Hon). unfold msg_avail. kstep. kstep. by exists Q.
Qed.

(** [array] has room for [num] messages, a power of two. *)
Lemma msg_init_queue_safe s Q array num :
  sysinv idle s Q → 0 ≤ num ≤ 2 ^ 30 → is_Some (cib_init num) →
  (∀ i, 0 ≤ i < num → is_Some (mem s !! msg_addr array i)) →
  safe idle (sched_active_thread s) s Q (msg_init_queue array num s) (λ _ _ _, True).
Proof.
  intros Hs Hn [c Hc] Hsl. destruct (sy_active _ _ _ Hs) as (me & Hme & Hon).
  destruct (cib_init_wf num c Hn Hc) as (Hwf & Hsz & _).
  assert (u32 num = num) as Hu by (apply wrap_small; unfold uint; lia).
  unfold msg_init_queue. kstep. erewrite bind_Done; [|by apply upd_thread_ok]. cbn beta.
  rewrite Hu, Hc. kstep. erewrite upd_thread_ok by (simpl; apply lookup_insert_eq).
  simpl. rewrite insert_insert_eq. exists Q.
  split; [|split; [grow (grows_refl s Q)|done]].
  set (me' := set_msg_queue c _). pose proof Hs as [Hcr Hirq Hp _].
  split; [|done|done|by exists me'; simpl; rewrite lookup_insert_eq].
  apply (crit_field idle s Q _ me); try done; [|by left].
  destruct (ip_thread _ _ (cr_ipc _ _ _ Hcr) _ _ Hme) as (Hw & _). split; [done|]. split; [done|].
  intros i Hi. apply Hsl. simpl in Hi. by rewrite <- Hsz.
Qed.

End MsgSafe.
