(* ===== verification/System.v ===== *)
(** * Programs of kernel calls

    A system of threads that issue arbitrary kernel calls, as a step relation:
    the running thread starts a call, or carries on with the one it was suspended
    in.  No reachable state faults, and the kernel invariant holds in all of
    them. *)

From S2P Require Import Prelude Bitarithm Cib LinkedList Clist Kernel Sched KernelInv WaitList SchedProps ThreadCalls ThreadCreate Mutex Cond Rmutex ThreadFlags Mbox Msg MsgSafe.

(** ** Calls *)

Inductive call :=
| Call_thread_yield | Call_thread_sleep | Call_thread_wakeup (pid : Z)
| Call_thread_getstatus (pid : Z) | Call_thread_exit
| Call_thread_create (stack stacksize prio fl function arg : Z)
| Call_mutex_lock (m : Z) | Call_mutex_trylock (m : Z)
| Call_mutex_unlock (m : Z) | Call_mutex_unlock_and_sleep (m : Z)
| Call_cond_wait (c m : Z) | Call_cond_signal (c : Z) | Call_cond_broadcast (c : Z)
| Call_rmutex_lock (r : Z) | Call_rmutex_trylock (r : Z) | Call_rmutex_unlock (r : Z)
| Call_flags_set (t mask : Z) | Call_flags_clear (mask : Z)
| Call_flags_wait_any (mask : Z) | Call_flags_wait_one (mask : Z) | Call_flags_wait_all (mask : Z)
| Call_mbox_put (b msg : Z) (blocking : bool) | Call_mbox_get (b msg : Z) (blocking : bool)
| Call_msg_send (m pid : Z) (blocking : bool) | Call_msg_send_receive (m reply pid : Z)
| Call_msg_receive (m : Z) (blocking : bool) | Call_msg_reply (m reply : Z)
| Call_msg_avail | Call_msg_init_queue (array num : Z).

Definition ignore {A} (f : M A) : M unit := f;; mret tt.

Section System.
Variable thread_stack_init : Z → Z → Z → Z → Z.
Variable stale_flags : Z → Z.
(** The thread that never blocks, and the static objects. *)
Context (idle : Z) (objs : list node).

Definition run_call (c : call) : M unit :=
  match c with
  | Call_thread_yield => thread_yield
  | Call_thread_sleep => thread_sleep
  | Call_thread_wakeup p => ignore (thread_wakeup p)
  | Call_thread_getstatus p => ignore (thread_getstatus p)
  | Call_thread_exit => sched_task_exit
  | Call_thread_create stack stacksize prio fl f arg =>
      ignore (thread_create thread_stack_init stale_flags stack stacksize prio fl f arg)
  | Call_mutex_lock m => mutex_lock m
  | Call_mutex_trylock m => ignore (mutex_trylock m)
  | Call_mutex_unlock m => mutex_unlock m
  | Call_mutex_unlock_and_sleep m => mutex_unlock_and_sleep m
  | Call_cond_wait c m => cond_wait c m
  | Call_cond_signal c => cond_signal c
  | Call_cond_broadcast c => cond_broadcast c
  | Call_rmutex_lock r => rmutex_lock r
  | Call_rmutex_trylock r => ignore (rmutex_trylock r)
  | Call_rmutex_unlock r => rmutex_unlock r
  | Call_flags_set t mask => thread_flags_set t mask
  | Call_flags_clear mask => ignore (thread_flags_clear mask)
  | Call_flags_wait_any mask => ignore (thread_flags_wait_any mask)
  | Call_flags_wait_one mask => ignore (thread_flags_wait_one mask)
  | Call_flags_wait_all mask => ignore (thread_flags_wait_all mask)
  | Call_mbox_put b msg true => mbox_put b msg
  | Call_mbox_put b msg false => ignore (mbox_try_put b msg)
  | Call_mbox_get b msg true => mbox_get b msg
  | Call_mbox_get b msg false => ignore (mbox_try_get b msg)
  | Call_msg_send m p true => ignore (msg_send m p)
  | Call_msg_send m p false => ignore (msg_try_send m p)
  | Call_msg_send_receive m reply p => ignore (msg_send_receive m reply p)
  | Call_msg_receive m true => ignore (msg_receive m)
  | Call_msg_receive m false => ignore (msg_try_receive m)
  | Call_msg_reply m reply => ignore (msg_reply m reply)
  | Call_msg_avail => ignore msg_avail
  | Call_msg_init_queue array num => msg_init_queue array num
  end.

(** ** What a call requires

    Three kinds of conditions.  [args_ok]: the objects a call names exist, process
    ids, priorities and sizes are in range, and the idle thread does not make calls
    that may block.  [asserted]: the assertions of
    the code hold.  [contract]: what the code relies on and does not check: the
    control block of a new thread is not that of another thread, running or exited;
    the target of [msg_send_receive] exists, since otherwise the caller stays
    blocked although the call returns (core/msg.c, line 232); and the thread that
    waits for a reply is not queued at a receiver any more. *)

Definition not_idle (s : kernel) : Prop := sched_active_thread s ≠ idle.
Definition is_msg (s : kernel) (m : Z) : Prop := is_Some (mem s !! m).

Definition args_ok (s : kernel) (c : call) : Prop :=
  match c with
  | Call_thread_yield | Call_thread_wakeup _ | Call_thread_getstatus _ | Call_msg_avail
  | Call_flags_clear _ => True
  | Call_thread_sleep | Call_thread_exit
  | Call_flags_wait_any _ | Call_flags_wait_one _ | Call_flags_wait_all _ => not_idle s
  | Call_thread_create stack stacksize prio _ _ _ => 0 ≤ prio ∧ tcb_addr stack stacksize ≠ 0
  | Call_mutex_lock m | Call_mutex_unlock_and_sleep m => NMutex m ∈ objs ∧ not_idle s
  | Call_mutex_trylock m | Call_mutex_unlock m => NMutex m ∈ objs
  | Call_cond_wait c m => NCond c ∈ objs ∧ NMutex m ∈ objs ∧ not_idle s
  | Call_cond_signal c | Call_cond_broadcast c => NCond c ∈ objs
  | Call_rmutex_lock r | Call_rmutex_trylock r =>
      NMutex r ∈ objs ∧ is_Some (rmutexes s !! r) ∧ not_idle s
  | Call_rmutex_unlock r => NMutex r ∈ objs ∧ is_Some (rmutexes s !! r)
  | Call_flags_set t _ => is_Some (threads s !! t)
  | Call_mbox_put b msg blocking | Call_mbox_get b msg blocking =>
      is_Some (mboxes s !! b) ∧ is_msg s msg ∧ (blocking = true → not_idle s)
  | Call_msg_send m p _ => is_msg s m ∧ 0 ≤ p < 33 ∧ not_idle s
  | Call_msg_send_receive m reply p => is_msg s m ∧ is_msg s reply ∧ 0 ≤ p < 33 ∧ not_idle s
  | Call_msg_receive m _ => is_msg s m ∧ not_idle s
  | Call_msg_reply m reply =>
      is_msg s reply ∧ ∃ mm, mem s !! m = Some mm ∧ 0 ≤ sender_pid mm < 33
  | Call_msg_init_queue array num =>
      0 ≤ num ≤ 2 ^ 30 ∧ ∀ i, 0 ≤ i < num → is_msg s (msg_addr array i)
  end.

Definition asserted (s : kernel) (c : call) : Prop :=
  match c with
  | Call_rmutex_unlock r =>
      ∀ rm, rmutexes s !! r = Some rm → owner rm = sched_active_pid s ∧ 0 < refcount rm
  | Call_msg_send_receive _ _ p => p ≠ sched_active_pid s
  | Call_msg_reply m _ =>
      ∀ mm, mem s !! m = Some mm → aget (sched_threads s) (sender_pid mm) ≠ Some 0
  | Call_msg_init_queue _ num => is_Some (cib_init num)
  | _ => True
  end.

Definition contract (s : kernel) (c : call) : Prop :=
  match c with
  | Call_thread_create stack stacksize _ _ _ _ =>
      let t := tcb_addr stack stacksize in threads s !! t = None ∧ nodes s !! NMsgWaiters t = None
  | Call_msg_send_receive _ _ p => aget (sched_threads s) p ≠ Some 0
  | Call_msg_reply m _ =>
      ∀ mm t, mem s !! m = Some mm → pid_slot s (sender_pid mm) t →
        ∀ r l, slist (nodes s) (NMsgWaiters r) l → NThread t ∉ l
  | _ => True
  end.

Definition allowed (s : kernel) (c : call) : Prop := args_ok s c ∧ asserted s c ∧ contract s c.

(** ** The machine *)

(** The kernel, and what is left of the calls of suspended threads. *)
Record machine := Machine { kern : kernel; conts : gmap Z (kernel → res unit) }.

Abbreviation running m := (sched_active_thread (kern m)).

(** The machine after the running thread [t] got as far as [r]; [None] is a fault. *)
Definition settle (m : machine) (t : Z) (r : res unit) : option machine :=
  match r with
  | Fault => None
  | Done s _ => Some (Machine s (delete t (conts m)))
  | Yield s k => Some (Machine s (<[t := k]> (conts m)))
  end.

Inductive step (m : machine) : option machine → Prop :=
| step_call c : conts m !! running m = None → allowed (kern m) c →
    step m (settle m (running m) (run_call c (kern m)))
| step_resume k : conts m !! running m = Some k →
    step m (settle m (running m) (k (kern m))).

Inductive reachable (m0 : machine) : machine → Prop :=
| reach_start : reachable m0 m0
| reach_step m m' : reachable m0 m → step m (Some m') → reachable m0 m'.

(** ** The invariant *)

Record machine_ok (m : machine) (Q : queues) : Prop := {
  mo_sys : sysinv idle (kern m) Q;
  mo_objs a : a ∈ objs → is_Some (Q !! a);
  (* suspended calls carry on safely *)
  mo_conts t k : conts m !! t = Some k →
    ∃ s0 Q0, grows s0 Q0 (kern m) Q ∧
      ∀ s' Q', sysinv idle s' Q' → grows s0 Q0 s' Q' → sched_active_thread s' = t →
        safe idle t s' Q' (k s') (λ _ _ _, True)
}.

Lemma ignore_safe {A} (f : M A) t s0 Q0 s P :
  safe idle t s0 Q0 (f s) P → safe idle t s0 Q0 (ignore f s) (λ _ _ _, True).
Proof. intros Hf. eapply safe_mono; [by eapply safe_then|done]. Qed.

Lemma not_waiting_detached s Q t th :
  kinv s Q → threads s !! t = Some th → status th = STATUS_REPLY_BLOCKED →
  (∀ r l, slist (nodes s) (NMsgWaiters r) l → NThread t ∉ l) → detached Q t.
Proof.
  intros Hk Ht Hst Hno a v Ha Hin.
  destruct (ki_mem _ _ Hk a v t Ha Hin) as (th' & Ht' & Hw & _). simplify_eq. rewrite Hst in Hw.
  destruct (qr_rep _ _ (ki_rep _ _ Hk) a v Ha) as [Hok Hr].
  destruct a; simpl in Hw; try done. destruct v as [|l|]; try done. simpl in Hr, Hin.
  apply (Hno t0 _ Hr). by apply NThread_in.
Qed.

Lemma no_node_no_queue s Q t :
  kinv s Q → nodes s !! NMsgWaiters t = None → Q !! NMsgWaiters t = None.
Proof.
  intros Hk Hn. destruct (Q !! NMsgWaiters t) as [v|] eqn:Hq; [|done]. exfalso.
  destruct (qr_rep _ _ (ki_rep _ _ Hk) _ _ Hq) as [Hok Hr]. destruct v as [|l|]; try done.
  destruct Hr as (Hr & _). by rewrite Hn in Hr.
Qed.

(** Every allowed call of the running thread is safe. *)
Lemma exit_safe s Q : sysinv idle s Q → not_idle s →
  safe idle (sched_active_thread s) s Q (sched_task_exit s) (λ _ _ _, True).
Proof.
  intros Hs Hidle. destruct (sy_active _ _ _ Hs) as (th & Hth & Hon).
  destruct (cr_first _ _ _ (sy_crit _ _ _ Hs) th Hth Hon) as (l & Hl).
  pose proof (ip_pid _ _ (cr_ipc _ _ _ (sy_crit _ _ _ Hs)) _ _ Hth) as Hslot.
  specialize (Hslot ltac:(intros Hx; by rewrite Hx in Hon)).
  pose proof (aget_Some_range _ _ _ Hslot) as Hr.
  rewrite (ki_table_length _ _ (cr_kinv _ _ _ (sy_crit _ _ _ Hs))) in Hr.
  destruct (task_exit_run idle s Q th l Hs Hidle Hth Hl Hr) as (s' & k & -> & Hkk & Hs' & Hg & _).
  eexists. split; [exact Hs'|]. split; [exact Hg|]. intros s2 Q2 Hs2 _ Ha2. rewrite Hkk. by exists Q2.
Qed.

Lemma clear_safe s Q mask : sysinv idle s Q →
  safe idle (sched_active_thread s) s Q (thread_flags_clear mask s) (λ _ _ _, True).
Proof.
  intros Hs. unfold thread_flags_clear. kstep. eapply clear_atomic_safe; [done| |done].
  destruct (sy_active _ _ _ Hs) as (me & Hme & _). by exists me.
Qed.

Lemma getstatus_safe s Q p : sysinv idle s Q →
  safe idle (sched_active_thread s) s Q (thread_getstatus p s) (λ _ _ _, True).
Proof.
  intros Hs. pose proof (cr_kinv _ _ _ (sy_crit _ _ _ Hs)) as Hk. unfold thread_getstatus.
  erewrite bind_Done; [|by eapply thread_get_ok]. cbn beta.
  destruct (Z.eqb_spec (lookup_pid s p) 0) as [|Hne]; [by exists Q|].
  destruct (lookup_pid_thread s Q p Hk Hne) as (th & Hth & _).
  cbn [negb]. erewrite bind_Done; [|by apply get_thread_ok]. by exists Q.
Qed.

Lemma pid_slot_some s Q p :
  sysinv idle s Q → 0 ≤ p < 33 → aget (sched_threads s) p ≠ Some 0 → ∃ t, pid_slot s p t.
Proof.
  intros Hs Hp Hne. pose proof (ki_table_length _ _ (cr_kinv _ _ _ (sy_crit _ _ _ Hs))) as Hlen.
  destruct (lookup_lt_is_Some_2 (sched_threads s) (Z.to_nat p)) as [t Ht]; [lia|].
  assert (aget (sched_threads s) p = Some t) as Hslot by (unfold aget; by rewrite (proj2 (Z.leb_le 0 p)) by lia).
  exists t. split; [done|]. intros ->. by destruct Hne.
Qed.

Lemma call_safe s Q c :
  sysinv idle s Q → (∀ a, a ∈ objs → is_Some (Q !! a)) → allowed s c →
  safe idle (sched_active_thread s) s Q (run_call c s) (λ _ _ _, True).
Proof.
  intros Hs Hobjs (Hc & Has & Hct). pose proof (cr_kinv _ _ _ (sy_crit _ _ _ Hs)) as Hk.
  destruct c; cbn [args_ok asserted contract] in Hc, Has, Hct; cbn [run_call]; repeat case_match; subst;
    unfold mutex_lock, mutex_trylock, rmutex_lock, rmutex_trylock, cond_signal, cond_broadcast,
      mbox_put, mbox_try_put, mbox_get, mbox_try_get, msg_send, msg_try_send, msg_receive, msg_try_receive;
    repeat eapply ignore_safe.
  - by apply thread_yield_safe.
  - by apply thread_sleep_safe.
  - by apply thread_wakeup_safe.
  - by apply getstatus_safe.
  - by apply exit_safe.
  - destruct Hc as (Hp & H0). destruct Hct as (Ht & Hn). apply thread_create_safe; [done|done|].
    split; [done|done|by apply (no_node_no_queue s)].
  - destruct Hc. by apply (mutex_lock_safe idle s Q); auto.
  - by apply (mutex_lock_safe idle s Q); auto.
  - by apply (mutex_unlock_safe idle s Q); auto.
  - destruct Hc. by apply mutex_unlock_and_sleep_safe; auto.
  - destruct Hc as (? & ? & ?). by apply cond_wait_safe; auto.
  - by apply cond_signal_safe; auto.
  - by apply cond_signal_safe; auto.
  - destruct Hc as (? & ? & ?). by apply rmutex_lock_safe; auto.
  - destruct Hc as (? & ? & ?). by apply rmutex_lock_safe; auto.
  - destruct Hc as (? & rm & Hrm). destruct (Has rm Hrm). by apply (rmutex_unlock_safe idle s Q r rm); auto.
  - by apply thread_flags_set_safe.
  - by apply clear_safe.
  - by apply thread_flags_wait_any_safe.
  - by apply thread_flags_wait_one_safe.
  - by apply thread_flags_wait_all_safe.
  - destruct Hc as (? & ? & ?). by apply (mbox_put_safe idle s Q); auto.
  - destruct Hc as (? & ? & ?). by apply (mbox_put_safe idle s Q).
  - destruct Hc as (? & ? & ?). by apply (mbox_get_safe idle s Q); auto.
  - destruct Hc as (? & ? & ?). by apply (mbox_get_safe idle s Q).
  - destruct Hc as (? & ? & ?). by apply msg_send_gen_safe.
  - destruct Hc as (? & ? & ?). by apply msg_send_gen_safe.
  - destruct Hc as (? & ? & Hp & ?). destruct (pid_slot_some s Q _ Hs Hp Hct) as [t Ht]. by eapply msg_send_receive_safe.
  - destruct Hc as (? & ?). by apply msg_receive_safe.
  - destruct Hc as (? & ?). by apply msg_receive_safe.
  - destruct Hc as (Hr & mm & Hm & Hp). destruct (pid_slot_some s Q _ Hs Hp (Has mm Hm)) as [t Hslot].
    pose proof (Hct mm t Hm Hslot) as Hno. destruct (ki_table _ _ Hk _ _ (proj1 Hslot) (proj2 Hslot)) as (th & Hth & _).
    apply (msg_reply_safe idle s Q m mm reply t th); try done.
    intros Hst. by eapply not_waiting_detached.
  - by apply msg_avail_safe.
  - destruct Hc as (? & ?). by apply msg_init_queue_safe.
Qed.

(** A call whose assertion does not hold stops there. *)
Lemma assertion_faults s Q c :
  sysinv idle s Q → args_ok s c → ¬ asserted s c → run_call c s = Fault.
Proof.
  intros Hs Hargs Hno.
  destruct c as [| | | | |??????|?|?|?|?|??|?|?|?|?|r|??|?|?|?|?| ? ? ? | ? ? ? | ? ? ? |m reply p|??|m reply| |array num]; try (by destruct Hno); cbn [run_call args_ok asserted] in *; unfold ignore.
  - destruct Hargs as [_ [rm Hrm]]. unfold rmutex_unlock. erewrite bind_Done; [|by apply read_rmutex_ok].
    cbn beta. kstep. destruct (Z.eqb_spec (owner rm) (sched_active_pid s)) as [Ho|Ho]; cbn [negb orb]; [|done].
    destruct (Z.ltb_spec 0 (refcount rm)); [|done]. destruct Hno. intros rm' Hrm'. by simplify_eq.
  - unfold msg_send_receive. assert (p = sched_active_pid s) as -> by (destruct (decide (p = sched_active_pid s)); [done|by destruct Hno]).
    unfold mbind, M_bind. simpl. by rewrite Z.eqb_refl.
  - destruct Hargs as [_ (mm & Hm & Hr)]. unfold msg_reply.
    assert (aget (sched_threads s) (sender_pid mm) = Some 0) as Hz.
    { destruct (decide (aget (sched_threads s) (sender_pid mm) = Some 0)) as [|Hz]; [done|].
      destruct Hno. intros mm' Hmm'. by simplify_eq. }
    unfold mbind at 1, M_bind. kstep. erewrite bind_Done; [|apply read_msg_ok; exact Hm]. cbn beta.
    erewrite bind_Done; [|unfold read_sched_threads; simpl; rewrite Hz; reflexivity]. done.
  - destruct Hargs as [Hnum _]. unfold msg_init_queue. destruct (sy_active _ _ _ Hs) as (me & Hme & _).
    kstep. erewrite bind_Done; [|by apply upd_thread_ok]. cbn beta. rewrite wrap_small by (unfold uint; lia).
    destruct (cib_init num) eqn:E; [by destruct Hno; eexists|]. done.
Qed.

Lemma settle_ok m Q r :
  machine_ok m Q → safe idle (running m) (kern m) Q r (λ _ _ _, True) →
  ∃ m' Q', settle m (running m) r = Some m' ∧ machine_ok m' Q' ∧ grows (kern m) Q (kern m') Q'.
Proof.
  intros [Hs Hobjs Hconts] Hr.
  assert (∀ s' Q', grows (kern m) Q s' Q' → ∀ t k, conts m !! t = Some k →
    ∃ s0 Q0, grows s0 Q0 s' Q' ∧
      ∀ s2 Q2, sysinv idle s2 Q2 → grows s0 Q0 s2 Q2 → sched_active_thread s2 = t →
        safe idle t s2 Q2 (k s2) (λ _ _ _, True)) as Hothers.
  { intros s' Q' Hg t k Hk. destruct (Hconts t k Hk) as (s0 & Q0 & Hg0 & Hsafe).
    exists s0, Q0. split; [by eapply grows_trans|done]. }
  assert (∀ s' Q', grows (kern m) Q s' Q' → ∀ a, a ∈ objs → is_Some (Q' !! a)) as Hob.
  { intros s' Q' Hg a Ha. apply elem_of_dom, (gr_queues _ _ _ _ Hg), elem_of_dom. by apply Hobjs. }
  destruct r as [|s a|s k]; simpl in *; [done| |].
  - destruct Hr as (Q' & Hs' & Hg & _ & _). eexists _, Q'. split; [done|]. split; [|done]. split; [done|by eapply Hob|].
    intros t k Hk. cbn [conts] in Hk. apply lookup_delete_Some in Hk as [_ Hk]. by eapply Hothers.
  - destruct Hr as (Q' & Hs' & Hg & Hk). eexists _, Q'. split; [done|]. split; [|done]. split; [done|by eapply Hob|].
    intros t k' Hk'. cbn [conts] in Hk'. apply lookup_insert_Some in Hk' as [[<- <-]|[_ Hk']]; [|by eapply Hothers].
    exists s, Q'. split; [apply grows_refl|]. intros s2 Q2 Hs2 Hg2 Ha2. by apply Hk.
Qed.

Lemma step_ok m Q o : machine_ok m Q → step m o →
  ∃ m' Q', o = Some m' ∧ machine_ok m' Q' ∧ grows (kern m) Q (kern m') Q'.
Proof.
  intros Hm Hstep. pose proof Hm as [Hs Hobjs Hconts]. destruct Hstep as [c Hnone Hc|k Hk].
  - apply (settle_ok m Q); [done|]. by apply call_safe.
  - destruct (Hconts _ _ Hk) as (s0 & Q0 & Hg & Hsafe). apply (settle_ok m Q); [done|]. by apply Hsafe.
Qed.

Lemma reachable_grows m0 Q0 m : machine_ok m0 Q0 → reachable m0 m →
  ∃ Q, machine_ok m Q ∧ grows (kern m0) Q0 (kern m) Q.
Proof.
  intros H0 Hm. induction Hm as [|m m' _ (Q & HQ & Hg) Hstep]; [by exists Q0|].
  destruct (step_ok m Q _ HQ Hstep) as (m2 & Q2 & [= <-] & H2 & Hg2).
  exists Q2. split; [done|by eapply grows_trans].
Qed.

(** ** Exited threads

    A thread without a pid has exited; it stays so, and it is not the running one. *)
Definition no_pid (s : kernel) (t : Z) : Prop :=
  t ∈ dom (threads s) ∧ ∀ p, aget (sched_threads s) p ≠ Some t.

Lemma no_pid_grows s Q s' Q' t : grows s Q s' Q' → no_pid s t → no_pid s' t.
Proof.
  intros Hg [Ht Hp]. split; [by apply (gr_threads _ _ _ _ Hg)|]. intros p Hslot.
  apply (Hp p). by apply (gr_table _ _ _ _ Hg).
Qed.

Lemma no_pid_stopped s Q t : sysinv idle s Q → no_pid s t →
  sched_active_thread s ≠ t ∧ ∃ th, threads s !! t = Some th ∧ status th = STATUS_STOPPED.
Proof.
  intros Hs [Ht Hp]. apply elem_of_dom in Ht as [th Ht].
  assert (status th = STATUS_STOPPED) as Hst.
  { destruct (decide (status th = STATUS_STOPPED)) as [|Hne]; [done|].
    by destruct (Hp _ (ip_pid _ _ (cr_ipc _ _ _ (sy_crit _ _ _ Hs)) t th Ht Hne)). }
  split; [|by exists th]. intros Ha. destruct (sy_active _ _ _ Hs) as (th' & Hth' & Hon).
  rewrite Ha in Hth'. simplify_eq. by rewrite Hst in Hon.
Qed.

(** The machine after an exit. *)
Lemma exit_step m Q th : machine_ok m Q → not_idle (kern m) → conts m !! running m = None →
  threads (kern m) !! running m = Some th →
  ∃ m' l Q', step m (Some m') ∧ settle m (running m) (run_call Call_thread_exit (kern m)) = Some m' ∧
    machine_ok m' Q' ∧ Q !! NRq (priority th) = Some (QRun (running m :: l)) ∧ Q' = <[NRq (priority th) := QRun l]> Q ∧
    aget (sched_threads (kern m')) (pid th) = Some 0 ∧ no_pid (kern m') (running m).
Proof.
  intros Hm Hidle Hnone Hth. pose proof Hm as [Hs Hobjs Hconts]. pose proof (cr_kinv _ _ _ (sy_crit _ _ _ Hs)) as Hk.
  destruct (sy_active _ _ _ Hs) as (th0 & Hth0 & Hon). assert (th0 = th) as -> by congruence. clear Hth0.
  destruct (cr_first _ _ _ (sy_crit _ _ _ Hs) th Hth Hon) as (l & Hl).
  pose proof (ip_pid _ _ (cr_ipc _ _ _ (sy_crit _ _ _ Hs)) _ _ Hth ltac:(intros Hx; by rewrite Hx in Hon)) as Hslot.
  pose proof (aget_Some_range _ _ _ Hslot) as Hr. rewrite (ki_table_length _ _ Hk) in Hr.
  destruct (task_exit_run idle (kern m) Q th l Hs Hidle Hth Hl Hr) as (s' & k & Hrun & Hkk & Hs' & Hg & H0 & Hne & Hth').
  assert (settle m (running m) (run_call Call_thread_exit (kern m)) = Some (Machine s' (<[running m := k]> (conts m)))) as Hset
    by (cbn [run_call]; by rewrite Hrun).
  eexists _, l, _. split; [rewrite <- Hset; by apply step_call|]. split; [exact Hset|]. split.
  { split; cbn [kern conts]; [exact Hs'| |].
    - intros a Ha. apply elem_of_dom, (gr_queues _ _ _ _ Hg), elem_of_dom. by apply Hobjs.
    - intros t k' [[<- <-]|[_ Hk']]%lookup_insert_Some.
      + exists s', (<[NRq (priority th) := QRun l]> Q). split; [apply grows_refl|]. intros s2 Q2 Hs2 _ Ha2. rewrite Hkk. by exists Q2.
      + destruct (Hconts t k' Hk') as (s0 & Q0 & Hg0 & Hsafe). exists s0, Q0. split; [by eapply grows_trans|done]. }
  split; [done|]. split; [done|]. split; [exact H0|]. cbn [kern]. split; [apply elem_of_dom; by eexists|].
  intros p Hp. destruct (ki_thread _ _ Hk _ _ Hth) as (Ht0 & _).
  destruct (ki_table _ _ (cr_kinv _ _ _ (sy_crit _ _ _ Hs')) p _ Hp Ht0) as (th2 & Hth2 & Hp2).
  rewrite Hth' in Hth2. injection Hth2 as <-. cbn [pid set_status] in Hp2. subst p. rewrite Hp in H0. by injection H0.
Qed.

End System.

(** ** From the start of the system *)

Section Boot.
Variable thread_stack_init : Z → Z → Z → Z → Z.
Variable stale_flags : Z → Z.
Variables idle_stack idle_size main_stack main_size idle_thread main_trampoline : Z.

#[local] Abbreviation boot objs mem mboxes rmutexes :=
  (kernel_init thread_stack_init stale_flags idle_stack idle_size main_stack main_size
     idle_thread main_trampoline (kernel_reset objs mem mboxes rmutexes)).
#[local] Abbreviation idle := (tcb_addr idle_stack idle_size).
#[local] Abbreviation sys_step := (step thread_stack_init stale_flags idle).
#[local] Abbreviation running m := (sched_active_thread (kern m)).

Lemma booted_ok objs mem mboxes rmutexes s0 k0 m :
  image_ok idle_stack idle_size main_stack main_size objs mem mboxes →
  boot objs mem mboxes rmutexes = Yield s0 k0 →
  reachable thread_stack_init stale_flags idle objs (Machine s0 ∅) m →
  ∃ Q, machine_ok idle objs m Q.
Proof.
  intros Him Hboot Hm.
  destruct (kernel_init_runs thread_stack_init stale_flags idle_stack idle_size main_stack main_size
    idle_thread main_trampoline objs mem mboxes rmutexes Him)
    as (s & k & Q & Hrun & Hs & _ & _ & _ & _ & _ & _ & Hobjs).
  rewrite Hrun in Hboot. injection Hboot as -> _.
  destruct (reachable_grows thread_stack_init stale_flags idle objs (Machine s0 ∅) Q m) as (Q' & HQ' & _); [|done|by exists Q'].
  split; [done| |done]. intros a Ha. eexists. by apply Hobjs.
Qed.

(** C1: However the threads of a booted system make kernel calls with valid arguments,
    whose assertions hold and which keep the contract, no call faults: no null or
    dangling pointer is dereferenced, no array is overrun and no other assertion of
    the kernel fails, also in calls that are resumed long after they blocked.  In
    every reachable state the kernel invariant holds: the run queues and wait lists
    are intact, the bit cache is exact, and a runnable thread runs.  A call with
    valid arguments, whose assertion does not hold, stops there. *)
Theorem system_safe objs mem mboxes rmutexes s0 k0 m :
  image_ok idle_stack idle_size main_stack main_size objs mem mboxes →
  boot objs mem mboxes rmutexes = Yield s0 k0 →
  reachable thread_stack_init stale_flags idle objs (Machine s0 ∅) m →
  (∃ Q, sysinv idle (kern m) Q) ∧ (∀ o, sys_step objs m o → is_Some o) ∧
  ∀ c, args_ok idle objs (kern m) c → ¬ asserted (kern m) c →
    run_call thread_stack_init stale_flags c (kern m) = Fault.
Proof.
  intros Him Hboot Hm. destruct (booted_ok _ _ _ _ _ _ _ Him Hboot Hm) as [Q HQ].
  split; [by exists Q; apply HQ|]. split.
  - intros o Ho. destruct (step_ok _ _ _ _ m Q o HQ Ho) as (m' & _ & -> & _). by exists m'.
  - intros c. apply (assertion_faults _ _ idle objs _ Q), HQ.
Qed.

(** C13: A thread that exits in a booted system gives up its pid and its place in the
    run queue, and whatever the other threads do from then on it stays stopped and
    never runs again. *)
Theorem thread_exit_final objs mem mboxes rmutexes s0 k0 m th :
  image_ok idle_stack idle_size main_stack main_size objs mem mboxes →
  boot objs mem mboxes rmutexes = Yield s0 k0 →
  reachable thread_stack_init stale_flags idle objs (Machine s0 ∅) m →
  conts m !! running m = None → running m ≠ idle → threads (kern m) !! running m = Some th →
  ∃ m', sys_step objs m (Some m') ∧
    settle m (running m) (run_call thread_stack_init stale_flags Call_thread_exit (kern m)) = Some m' ∧
    (∃ Q l, sysinv idle (kern m) Q ∧ Q !! NRq (priority th) = Some (QRun (running m :: l)) ∧
       sysinv idle (kern m') (<[NRq (priority th) := QRun l]> Q)) ∧
    aget (sched_threads (kern m')) (pid th) = Some 0 ∧
    ∀ m2, reachable thread_stack_init stale_flags idle objs m' m2 →
      running m2 ≠ running m ∧ ∃ th2, threads (kern m2) !! running m = Some th2 ∧ status th2 = STATUS_STOPPED.
Proof.
  intros Him Hboot Hm Hnone Hidle Hth. destruct (booted_ok _ _ _ _ _ _ _ Him Hboot Hm) as [Q HQ].
  destruct (exit_step thread_stack_init stale_flags idle objs m Q th HQ Hidle Hnone Hth)
    as (m' & l & Q' & Hstep & Hset & HQ' & Hl & -> & H0 & Hno).
  exists m'. split; [done|]. split; [done|]. split; [exists Q, l; split; [apply HQ|]; split; [done|apply HQ']|].
  split; [done|]. intros m2 Hm2.
  destruct (reachable_grows _ _ _ _ m' _ m2 HQ' Hm2) as (Q2 & HQ2 & Hg). 
  apply (no_pid_stopped idle (kern m2) Q2); [apply HQ2|]. by eapply no_pid_grows.
Qed.
End Boot.
