(* ===== verification/Demo.v ===== *)
(** * A concrete system

    A small image is started by [kernel_init]; the theorems about the kernel are
    applied to the state in which its main thread runs. *)

From S2P Require Import Prelude Cib LinkedList Clist Kernel Sched KernelInv SchedProps ThreadCalls ThreadCreate Mutex Cond Rmutex ThreadFlags Mbox Msg MsgSafe System.

(** Two stacks, a mutex, a condition variable, a recursive mutex, an empty
    mailbox of four messages and a full one of two. *)
Definition demo_objs : list node :=
  [NMutex 100; NCond 200; NMutex 300; NReaders 400; NWriters 400; NReaders 500; NWriters 500].

Definition demo_mem : gmap Z msg_t :=
  list_to_map ((λ i, (i, Msg 0 7 i)) <$>
    [600; 616; 4000; 4016; 4032; 4048; 5000; 5016]).

Definition demo_mboxes : gmap Z mbox_t :=
  <[400 := Mbox (Cib 0 0 3) 4000]> (<[500 := Mbox (Cib 0 2 1) 5000]> ∅).

Definition demo_rmutexes : gmap Z rmutex_t := <[300 := Rmutex 0 0]> ∅.

Definition demo_reset : kernel := kernel_reset demo_objs demo_mem demo_mboxes demo_rmutexes.

Definition demo_boot : res unit :=
  kernel_init (λ _ _ stack size, stack + size) (λ _, 0) 4096 256 8192 512 1 2 demo_reset.

Definition demo : kernel := match demo_boot with Yield s _ => s | _ => demo_reset end.
Definition demo_idle : Z := tcb_addr 4096 256.
Definition demo_main : Z := tcb_addr 8192 512.


(** The control block of the main thread. *)
Definition demo_me : thread_t :=
  Thread STATUS_RUNNING THREAD_PRIORITY_MAIN 2 0 0 (Cib 0 0 (2 ^ 32 - 1)) 0 demo_main.

Ltac slots_by_cases := intros i Hi; unfold cib_size in Hi; cbn in Hi;
  match type of Hi with _ ≤ _ < ?n =>
    let n := eval vm_compute in n in change (0 ≤ i < n) in Hi;
    rewrite <- (elem_of_seqZ 0 n i) in Hi
  end; apply list_elem_of_In in Hi; cbn in Hi;
  repeat (destruct Hi as [<-|Hi]; [by eexists|]); done.

Lemma demo_image : image_ok 4096 256 8192 512 demo_objs demo_mem demo_mboxes.
Proof.
  split; [done|done|done|repeat constructor|].
  intros b mb Hb. unfold demo_mboxes in Hb.
  assert (mbox_ok demo_mem (Mbox (Cib 0 0 3) 4000)) as H4
    by (split; [by exists 2|slots_by_cases]).
  assert (mbox_ok demo_mem (Mbox (Cib 0 2 1) 5000)) as H5
    by (split; [by exists 1|slots_by_cases]).
  apply lookup_insert_Some in Hb as [[<- <-]|[_ Hb]]; [split; [done|unfold demo_objs; split; set_solver]|].
  apply lookup_insert_Some in Hb as [[<- <-]|[_ Hb]]; [split; [done|unfold demo_objs; split; set_solver]|].
  by rewrite lookup_empty in Hb.
Qed.

(** The facts about the booted system that the examples need. *)
Record demo_facts (Q : queues) : Prop := {
  df_inv : sysinv demo_idle demo Q;
  df_best : runs_best demo Q;
  df_main : Q !! NRq THREAD_PRIORITY_MAIN = Some (QRun [demo_main]);
  df_waiters : Q !! NMsgWaiters demo_main = Some (QWait []);
  df_objs a : a ∈ demo_objs → Q !! a = Some (static_queue a)
}.

Lemma demo_runs : ∃ Q, demo_facts Q.
Proof.
  destruct (kernel_init_runs (λ _ _ stack size, stack + size) (λ _, 0) 4096 256 8192 512 1 2
    demo_objs demo_mem demo_mboxes demo_rmutexes demo_image)
    as (s & k & Q & Hrun & Hs & Ha & Hp & Hmain & Hidle & Hbest & Hw & Hobjs).
  assert (demo = s) as Heq.
  { unfold demo, demo_boot, demo_reset. by rewrite Hrun. }
  exists Q. by split; rewrite ?Heq.
Qed.

Lemma demo_active : sched_active_thread demo = demo_main.
Proof. vm_compute. reflexivity. Qed.

Lemma demo_thread : threads demo !! sched_active_thread demo = Some demo_me.
Proof. vm_compute. reflexivity. Qed.

Lemma demo_not_idle : sched_active_thread demo ≠ demo_idle.
Proof. vm_compute. discriminate. Qed.

Lemma demo_mutex Q m : demo_facts Q → NMutex m ∈ demo_objs → Q !! NMutex m = Some (QMutex None).
Proof. intros HQ. apply (df_objs _ HQ). Qed.

Lemma demo_ready Q : demo_facts Q →
  Q !! NRq (priority demo_me) = Some (QRun (sched_active_thread demo :: [])).
Proof. intros HQ. rewrite demo_active. apply (df_main _ HQ). Qed.

(** ** Booting *)

Lemma kernel_init_boots_witness :
  ∃ s k Q, demo_boot = Yield s k ∧ sysinv demo_idle s Q ∧ sched_active_pid s = 2.
Proof.
  destruct (kernel_init_boots (λ _ _ stack size, stack + size) (λ _, 0) 4096 256 8192 512 1 2
    demo_objs demo_mem demo_mboxes demo_rmutexes demo_image) as (s & k & Q & Hrun & Hs & _ & Hp & _).
  exists s, k, Q. split; [exact Hrun|]. split; [exact Hs|exact Hp].
Defined.

Lemma demo_boots : ∃ s k,
  kernel_init (λ _ _ stack size, stack + size) (λ _, 0) 4096 256 8192 512 1 2
    (kernel_reset demo_objs demo_mem demo_mboxes demo_rmutexes) = Yield s k ∧ not_idle demo_idle s ∧ s = demo.
Proof.
  destruct (kernel_init_runs (λ _ _ stack size, stack + size) (λ _, 0) 4096 256 8192 512 1 2
    demo_objs demo_mem demo_mboxes demo_rmutexes demo_image) as (s & k & Q & Hrun & _ & Ha & _).
  exists s, k. split; [exact Hrun|]. split; [unfold not_idle; rewrite Ha; vm_compute; discriminate|].
  unfold demo, demo_boot, demo_reset. by rewrite Hrun.
Qed.

Lemma demo_rmutex : rmutexes demo !! 300 = Some (Rmutex 0 0).
Proof. vm_compute. reflexivity. Qed.

Lemma demo_mutex_obj : NMutex 100 ∈ demo_objs.
Proof. unfold demo_objs. set_solver. Qed.

(** The main thread takes a mutex; the next call does not fault either, and sending
    to itself stops at the assertion. *)
Lemma system_safe_witness :
  let step := step (λ _ _ stack size, stack + size) (λ _, 0) demo_idle demo_objs in
  ∃ s k m, kernel_init (λ _ _ stack size, stack + size) (λ _, 0) 4096 256 8192 512 1 2
      (kernel_reset demo_objs demo_mem demo_mboxes demo_rmutexes) = Yield s k ∧
    step (Machine s ∅) (Some m) ∧
    (∃ Q, sysinv demo_idle (kern m) Q) ∧ (∀ o, step m o → is_Some o) ∧
    run_call (λ _ _ stack size, stack + size) (λ _, 0) (Call_rmutex_unlock 300) s = Fault.
Proof.
  destruct demo_boots as (s & k & Hboot & Hidle & Hdemo). intros step.
  pose proof (step_call (λ _ _ stack size, stack + size) (λ _, 0) demo_idle demo_objs
    (Machine s ∅) (Call_mutex_lock 100) (lookup_empty _) (conj (conj demo_mutex_obj Hidle) (conj I I))) as Hstep.
  destruct (system_safe (λ _ _ stack size, stack + size) (λ _, 0) 4096 256 8192 512 1 2
    demo_objs demo_mem demo_mboxes demo_rmutexes s k (Machine s ∅) demo_image Hboot
    (reach_start _ _ _ _ _)) as (_ & Hsteps & Hassert).
  destruct (Hsteps _ Hstep) as [m Hm].
  rewrite Hm in Hstep. exists s, k, m. split; [exact Hboot|]. split; [exact Hstep|].
  destruct (system_safe (λ _ _ stack size, stack + size) (λ _, 0) 4096 256 8192 512 1 2
    demo_objs demo_mem demo_mboxes demo_rmutexes s k m demo_image Hboot
    (reach_step _ _ _ _ _ _ _ (reach_start _ _ _ _ _) Hstep)) as (H1 & H2 & _).
  split; [exact H1|]. split; [exact H2|].
  assert (rmutexes s !! 300 = Some (Rmutex 0 0)) as Hrm by (rewrite Hdemo; exact demo_rmutex).
  apply Hassert.
  - split; [unfold demo_objs; right; right; left|exists (Rmutex 0 0); exact Hrm].
  - intros Has. destruct (Has _ Hrm) as [_ Hlt]. exact (Z.lt_irrefl 0 Hlt).
Defined.

(** ** Threads *)

(** The only thread of its priority goes on after yielding. *)
Lemma thread_yield_round_robin_witness :
  stops (thread_yield demo) tt (λ switched s', sched_active_thread s' = demo_main ∧ switched = false).
Proof.
  destruct demo_runs as [Q HQ].
  destruct (thread_yield_round_robin demo_idle demo Q demo_me [] (df_inv _ HQ) (df_best _ HQ)
    demo_thread (demo_ready Q HQ)) as [(s' & H1 & H2 & H3 & H4)|(s' & k & H1 & Hk & H2 & H3 & H4)].
  - left. exists s'. split; [exact H1|]. split; [rewrite H3; exact demo_active|exact H4].
  - right. exists s', k. split; [exact H1|]. split; [exact Hk|].
    split; [rewrite H3; exact demo_active|exact H4].
Defined.

Lemma thread_wakeup_outcome_witness :
  thread_wakeup 2 demo = Done demo STATUS_NOT_FOUND ∧ thread_wakeup 77 demo = Done demo STATUS_NOT_FOUND.
Proof.
  destruct demo_runs as [Q HQ]. split.
  - apply (thread_wakeup_outcome demo_idle demo Q 2 (df_inv _ HQ) (df_best _ HQ)). right.
    intros th Hth. change (lookup_pid demo 2) with (sched_active_thread demo) in Hth.
    rewrite demo_thread in Hth. injection Hth as <-. discriminate.
  - apply (thread_wakeup_outcome demo_idle demo Q 77 (df_inv _ HQ) (df_best _ HQ)). left. reflexivity.
Defined.

(** When main exits, another thread runs, and main never again. *)
Lemma thread_exit_final_witness :
  ∃ s k m', kernel_init (λ _ _ stack size, stack + size) (λ _, 0) 4096 256 8192 512 1 2
      (kernel_reset demo_objs demo_mem demo_mboxes demo_rmutexes) = Yield s k ∧
    step (λ _ _ stack size, stack + size) (λ _, 0) demo_idle demo_objs (Machine s ∅) (Some m') ∧
    ∀ m2, reachable (λ _ _ stack size, stack + size) (λ _, 0) demo_idle demo_objs m' m2 →
      sched_active_thread (kern m2) ≠ sched_active_thread s.
Proof.
  destruct demo_boots as (s & k & Hboot & Hidle & Hdemo).
  assert (∃ th, threads s !! sched_active_thread s = Some th) as [th Hth] by (rewrite Hdemo; exists demo_me; exact demo_thread).
  destruct (thread_exit_final (λ _ _ stack size, stack + size) (λ _, 0) 4096 256 8192 512 1 2
    demo_objs demo_mem demo_mboxes demo_rmutexes s k (Machine s ∅) th demo_image Hboot (reach_start _ _ _ _ _)
    (lookup_empty _) Hidle Hth) as (m' & Hstep & _ & _ & _ & Hgone).
  exists s, k, m'. split; [exact Hboot|]. split; [exact Hstep|]. intros m2 Hm2. exact (proj1 (Hgone m2 Hm2)).
Defined.

(** ** Mutexes *)

Lemma mutex_lock_outcome_witness : ∃ s', mutex_lock 100 demo = Done s' tt ∧ mutex_trylock 100 demo = Done s' 1.
Proof.
  destruct demo_runs as [Q HQ].
  destruct (mutex_lock_outcome demo_idle demo Q 100 None demo_me (df_inv _ HQ)
    (demo_mutex Q 100 HQ ltac:(left)) demo_not_idle demo_thread) as (s' & H1 & H2 & _).
  exists s'. split; [exact H1|exact H2].
Defined.

Lemma mutex_unlock_outcome_witness : mutex_unlock 100 demo = Done demo tt.
Proof.
  destruct demo_runs as [Q HQ].
  exact (mutex_unlock_outcome demo_idle demo Q 100 None demo_me (df_inv _ HQ) (df_best _ HQ)
    (demo_mutex Q 100 HQ ltac:(left)) demo_thread).
Defined.

Lemma rmutex_nesting_witness :
  ∃ s1 s3, repeat_call 3 (rmutex_lock 300) demo = Done s1 tt ∧ rmutexes s1 !! 300 = Some (Rmutex 3 (sched_active_pid s1)) ∧
    rmutexes s3 !! 300 = Some (Rmutex 0 0).
Proof.
  destruct demo_runs as [Q HQ].
  destruct (rmutex_nesting demo_idle 2 demo Q 300 0 (df_inv _ HQ)
    (demo_mutex Q 300 HQ ltac:(right; right; left))) as (s1 & s2 & s3 & H1 & H2 & _ & _ & _ & _ & _ & H3).
  - vm_compute. reflexivity.
  - lia.
  - exists s1, s3. split; [exact H1|]. split; [exact H2|exact H3].
Defined.

Lemma cond_signal_outcome_witness :
  stops (_cond_signal 200 true demo) tt (λ switched s', switched = false ∧ sched_active_thread s' = demo_main).
Proof.
  destruct demo_runs as [Q HQ].
  assert (Q !! NCond 200 = Some (QWait [])) as Hc by (apply (df_objs _ HQ); right; left).
  destruct (cond_signal_outcome demo_idle demo Q 200 [] true demo_me (df_inv _ HQ) (df_best _ HQ) Hc demo_thread)
    as [(s' & H1 & Q' & _ & _ & _ & H3 & H4)|(s' & k & H1 & Hk & Q' & _ & _ & _ & H3 & H4)].
  - left. exists s'. split; [exact H1|]. split; [exact H3|rewrite H4; exact demo_active].
  - right. exists s', k. split; [exact H1|]. split; [exact Hk|]. split; [exact H3|rewrite H4; exact demo_active].
Defined.

(** ** Thread flags *)

Lemma thread_flags_set_outcome_witness :
  ∃ s', thread_flags_set demo_main 5 demo = Done s' tt ∧
    threads s' = <[demo_main := set_flags 5 demo_me]> (threads demo).
Proof.
  destruct demo_runs as [Q HQ].
  destruct (thread_flags_set_outcome demo_idle demo Q demo_main demo_me 5 demo_me
    (df_inv _ HQ) (df_best _ HQ) demo_thread demo_thread) as (s' & H1 & _ & H3).
  exists s'. split; [exact H1|exact H3].
Defined.

Lemma thread_flags_wait_any_outcome_witness :
  ∃ s' k, thread_flags_wait_any 5 demo = Yield s' k ∧ sched_active_thread s' ≠ demo_main.
Proof.
  destruct demo_runs as [Q HQ].
  destruct (thread_flags_wait_any_outcome demo_idle demo Q 5 demo_me (df_inv _ HQ) demo_thread demo_not_idle
    ltac:(done)) as (s' & k & Q' & H1 & _ & _ & H4 & _).
  rewrite demo_active in H4. exists s', k. split; [exact H1|exact H4].
Defined.

(** ** Mailboxes *)

Lemma demo_mbox Q b c array :
  demo_facts Q → NReaders b ∈ demo_objs → NWriters b ∈ demo_objs →
  mboxes demo !! b = Some (Mbox c array) → cib_wf c → mbox_at demo Q b (Mbox c array) [] [].
Proof. intros HQ Hr Hw Hb Hc. split; [done|done|by apply (df_objs _ HQ)..]. Qed.

Lemma demo_outside (n array msg : Z) : n = 3 ∨ n = 1 → msg < array → outside (Cib 0 0 n) array msg.
Proof.
  intros Hn Hm i Hi. unfold msg_addr, SIZEOF_MSG_T.
  assert (0 ≤ i) by apply Hi. lia.
Qed.

Lemma demo_cib_wf n : n = 3 ∨ n = 1 → cib_wf (Cib 0 0 n).
Proof.
  intros Hn. split; [done|]. split; [done|]. split.
  - destruct Hn as [-> | ->]; vm_compute; discriminate.
  - right. destruct Hn as [-> | ->]; [by exists 2|by exists 1].
Qed.

Lemma mbox_put_outcome_witness :
  ∃ s' mb', _mbox_put 400 600 true demo = Done s' 1 ∧
    ring_contents (mem s') (mbox_cib mb') (mbox_msg_array mb') = [Msg 2 7 600].
Proof.
  destruct demo_runs as [Q HQ].
  destruct (mbox_put_outcome demo_idle demo Q 400 (Mbox (Cib 0 0 3) 4000) [] [] 600 (Msg 0 7 600) demo_me true
    (df_inv _ HQ) (df_best _ HQ)
    (demo_mbox Q 400 _ _ HQ ltac:(set_solver) ltac:(set_solver) ltac:(reflexivity) (demo_cib_wf 3 ltac:(by left)))
    ltac:(reflexivity) (demo_outside 3 4000 600 ltac:(by left) ltac:(done)) demo_thread demo_not_idle)
    as (s' & mb' & H1 & _ & _ & H4).
  exists s', mb'. split; [exact H1|]. rewrite H4. vm_compute. reflexivity.
Defined.

Lemma mbox_get_outcome_witness : _mbox_get 400 600 false demo = Done demo 0.
Proof.
  destruct demo_runs as [Q HQ].
  exact (mbox_get_outcome demo_idle demo Q 400 (Mbox (Cib 0 0 3) 4000) [] [] 600 demo_me false
    (df_inv _ HQ) (df_best _ HQ)
    (demo_mbox Q 400 _ _ HQ ltac:(set_solver) ltac:(set_solver) ltac:(reflexivity) (demo_cib_wf 3 ltac:(by left)))
    ltac:(by eexists) (demo_outside 3 4000 600 ltac:(by left) ltac:(done)) demo_thread demo_not_idle).
Defined.

(** The full mailbox: a writer that is resumed overwrites the oldest message. *)
Lemma mbox_put_resumed_overruns_witness :
  ∃ s' mb', mbox_put_resumed 500 600 demo = Done s' 1 ∧ mboxes s' !! 500 = Some mb' ∧
    cib_avail (mbox_cib mb') = cib_size (mbox_cib mb') + 1 ∧ mem s' !! 5000 = Some (Msg 2 7 600).
Proof.
  destruct demo_runs as [Q HQ].
  destruct (mbox_put_resumed_overruns demo_idle demo Q 500 (Mbox (Cib 0 2 1) 5000) [] [] 600 (Msg 0 7 600)
    (df_inv _ HQ)) as (s' & mb' & H1 & H2 & H3 & H4).
  - apply (demo_mbox Q 500 _ _ HQ); [set_solver|set_solver|reflexivity|].
    split; [done|]. split; [done|]. split; [vm_compute; discriminate|right; by exists 1].
  - reflexivity.
  - reflexivity.
  - exists s', mb'. split; [exact H1|]. split; [exact H2|].
    split; [exact H3|exact H4].
Defined.

(** ** Messages *)

(** Sending to a thread that does not exist and waiting for its reply: the call
    returns -1, with the caller blocked for ever. *)
Lemma msg_send_receive_missing :
  match msg_send_receive 600 600 20 demo with
  | Done s' r => (r, status <$> threads s' !! sched_active_thread s') | _ => (0, None)
  end = (-1, Some STATUS_REPLY_BLOCKED).
Proof. vm_compute. reflexivity. Qed.

(** The idle thread (pid 1) has no queue and does not receive. *)
Lemma msg_send_outcome_witness :
  ∃ s', msg_send_gen 600 1 false demo = Done s' 0 ∧ mem s' !! 600 = Some (Msg 2 7 600).
Proof.
  destruct demo_runs as [Q HQ].
  destruct (msg_send_outcome demo_idle demo Q 600 (Msg 0 7 600) demo_me 1 demo_idle false
    (df_inv _ HQ) (df_best _ HQ) ltac:(vm_compute; reflexivity) demo_thread demo_not_idle
    ltac:(vm_compute; reflexivity) ltac:(vm_compute; discriminate))
    as (th & Hth & Hcase).
  assert (threads demo !! demo_idle =
    Some (Thread STATUS_PENDING THREAD_PRIORITY_IDLE 1 0 0 (Cib 0 0 (2 ^ 32 - 1)) 0 demo_idle)) as Hidle
    by (vm_compute; reflexivity).
  rewrite Hidle in Hth. injection Hth as <-.
  destruct Hcase as (s' & H1 & _ & H3). exists s'. split; [exact H1|]. rewrite H3. reflexivity.
Defined.

Lemma msg_receive_outcome_witness : _msg_receive 600 false demo = Done demo (-1).
Proof.
  destruct demo_runs as [Q HQ].
  exact (msg_receive_outcome demo_idle demo Q 600 demo_me [] false
    (df_inv _ HQ) (df_best _ HQ) demo_thread demo_not_idle ltac:(rewrite demo_active; exact (df_waiters _ HQ)) ltac:(by eexists)
    ltac:(split; [intros i Hi; change (0 ≤ i < 0) in Hi; lia|set_solver|done])).
Defined.
