(* ===== verification/Bytes.v ===== *)
(** * Bytes and the words they form

    Lemmas about 32-bit words in big-endian order and about exhaustive checks of
    byte functions, shared by the ciphers, hashes and byte-order conversions. *)

From S2P Require Import Prelude.

Abbreviation byte := (uint 8).

(** [(a << 24) ^ (b << 16) ^ (c << 8) ^ d] *)
Definition word4 (a b c d : Z) : Z :=
  Z.lxor (Z.lxor (Z.lxor (Z.shiftl a 24) (Z.shiftl b 16)) (Z.shiftl c 8)) d.

(** The bytes of a word, first the most significant one. *)
Definition bytes4 (x : Z) : list Z :=
  [u8 (Z.shiftr x 24); u8 (Z.shiftr x 16); u8 (Z.shiftr x 8); u8 x].

(** ** Bitwise operations on disjoint words *)

Lemma land_shiftl_low hi lo k : 0 ≤ k → uint k lo → Z.land (Z.shiftl hi k) lo = 0.
Proof.
  intros Hk Hlo. apply Z.bits_inj'. intros n Hn. rewrite Z.land_spec, Z.bits_0.
  destruct (Z.lt_ge_cases n k) as [Hnk|Hnk].
  - by rewrite Z.shiftl_spec_low.
  - by rewrite (testbit_lt_pow2 lo k), andb_false_r by done.
Qed.

Lemma lxor_shiftl hi lo k : 0 ≤ k → uint k lo → Z.lxor (Z.shiftl hi k) lo = hi * 2 ^ k + lo.
Proof.
  intros Hk Hlo. rewrite <- Z.add_nocarry_lxor by (by apply land_shiftl_low).
  by rewrite Z.shiftl_mul_pow2.
Qed.

Lemma lor_shiftl hi lo k : 0 ≤ k → uint k lo → Z.lor (Z.shiftl hi k) lo = hi * 2 ^ k + lo.
Proof.
  intros Hk Hlo. pose proof (land_shiftl_low hi lo k Hk Hlo) as H0.
  rewrite <- (Z.lxor_lor _ _ H0). by apply lxor_shiftl.
Qed.

Lemma bits_lt_pow2 x k : 0 ≤ k → 0 ≤ x → (∀ n, k ≤ n → Z.testbit x n = false) → uint k x.
Proof.
  intros Hk Hx Hbits. split; [done|]. destruct (decide (x = 0)) as [->|]; [apply Z.pow_pos_nonneg; lia|].
  apply Z.log2_lt_pow2; [lia|]. destruct (Z.lt_ge_cases (Z.log2 x) k) as [|Hge]; [done|].
  pose proof (Z.bit_log2 x ltac:(lia)) as Hlog. by rewrite Hbits in Hlog.
Qed.

Lemma lxor_range k x y : 0 ≤ k → uint k x → uint k y → uint k (Z.lxor x y).
Proof.
  intros Hk Hx Hy. apply bits_lt_pow2; [done|apply Z.lxor_nonneg; unfold uint in *; lia|].
  intros n Hn. by rewrite Z.lxor_spec, !(testbit_lt_pow2 _ k).
Qed.

Lemma land_range k x y : 0 ≤ k → uint k x → uint k (Z.land x y).
Proof.
  intros Hk Hx. apply bits_lt_pow2; [done|apply Z.land_nonneg; left; apply Hx|].
  intros n Hn. by rewrite Z.land_spec, (testbit_lt_pow2 x k).
Qed.

Lemma lor_range k x y : 0 ≤ k → uint k x → uint k y → uint k (Z.lor x y).
Proof.
  intros Hk Hx Hy. apply bits_lt_pow2; [done|apply Z.lor_nonneg; split; [apply Hx|apply Hy]|].
  intros n Hn. by rewrite Z.lor_spec, !(testbit_lt_pow2 _ k).
Qed.

#[export] Hint Resolve lxor_range lor_range : riot.

(** ** Words of four bytes *)

Lemma word4_value a b c d :
  byte b → byte c → byte d → word4 a b c d = a * 2 ^ 24 + b * 2 ^ 16 + c * 2 ^ 8 + d.
Proof.
  intros Hb Hc Hd. unfold word4, uint in *.
  rewrite !Z.lxor_assoc, (lxor_shiftl c d) by (unfold uint; lia).
  rewrite (lxor_shiftl b) by (unfold uint; lia). rewrite (lxor_shiftl a) by (unfold uint; lia). lia.
Qed.

Lemma word4_range a b c d : byte a → byte b → byte c → byte d → uint 32 (word4 a b c d).
Proof. intros. rewrite word4_value by done. unfold uint in *. lia. Qed.

Lemma word4_byte3 a b c d : byte b → byte c → byte d → Z.shiftr (word4 a b c d) 24 = a.
Proof. intros. rewrite word4_value, Z.shiftr_div_pow2 by done. unfold uint in *. Z.div_mod_to_equations; lia. Qed.

Lemma word4_byte2 a b c d : byte b → byte c → byte d → Z.land (Z.shiftr (word4 a b c d) 16) 0xff = b.
Proof.
  intros. rewrite word4_value, (land_mask 8), Z.shiftr_div_pow2 by done.
  unfold uint in *. Z.div_mod_to_equations; lia.
Qed.

Lemma word4_byte1 a b c d : byte b → byte c → byte d → Z.land (Z.shiftr (word4 a b c d) 8) 0xff = c.
Proof.
  intros. rewrite word4_value, (land_mask 8), Z.shiftr_div_pow2 by done.
  unfold uint in *. Z.div_mod_to_equations; lia.
Qed.

Lemma word4_byte0 a b c d : byte b → byte c → byte d → Z.land (word4 a b c d) 0xff = d.
Proof.
  intros. rewrite word4_value, (land_mask 8) by done. unfold uint in *. Z.div_mod_to_equations; lia.
Qed.

Lemma word4_split x : uint 32 x →
  ∃ a b c d, byte a ∧ byte b ∧ byte c ∧ byte d ∧ x = word4 a b c d.
Proof.
  intros Hx. exists (x / 2 ^ 24), (x / 2 ^ 16 mod 2 ^ 8), (x / 2 ^ 8 mod 2 ^ 8), (x mod 2 ^ 8).
  unfold uint in *. repeat split; try (Z.div_mod_to_equations; lia).
  rewrite word4_value by (unfold uint; Z.div_mod_to_equations; lia). Z.div_mod_to_equations; lia.
Qed.

Lemma word4_lxor a b c d a' b' c' d' :
  Z.lxor (word4 a b c d) (word4 a' b' c' d') =
  word4 (Z.lxor a a') (Z.lxor b b') (Z.lxor c c') (Z.lxor d d').
Proof.
  unfold word4. rewrite !Z.shiftl_lxor. apply Z.bits_inj'. intros n Hn.
  rewrite !Z.lxor_spec. by repeat destruct (Z.testbit _ n).
Qed.

Lemma word4_inj a b c d a' b' c' d' :
  byte b → byte c → byte d → byte b' → byte c' → byte d' →
  word4 a b c d = word4 a' b' c' d' → a = a' ∧ b = b' ∧ c = c' ∧ d = d'.
Proof. intros. rewrite !word4_value in * by done. unfold uint in *. lia. Qed.

Lemma bytes4_word4 a b c d : byte a → byte b → byte c → byte d → bytes4 (word4 a b c d) = [a; b; c; d].
Proof.
  intros. unfold bytes4, wrap. rewrite word4_value, !Z.shiftr_div_pow2 by done.
  unfold uint in *. f_equal; [|f_equal; [|f_equal; [|f_equal]]]; Z.div_mod_to_equations; lia.
Qed.

(** Selecting one byte of a word with a mask. *)
Lemma land_mask_shift x k : 0 ≤ k → Z.land x (Z.shiftl 0xff k) = Z.shiftl (Z.land (Z.shiftr x k) 0xff) k.
Proof.
  intros Hk. apply Z.bits_inj'. intros n Hn. rewrite Z.land_spec.
  destruct (Z.lt_ge_cases n k) as [Hnk|Hnk].
  - by rewrite !Z.shiftl_spec_low, andb_false_r.
  - rewrite !Z.shiftl_spec, Z.land_spec, Z.shiftr_spec by lia. by rewrite Z.sub_add.
Qed.

Section Masks.
Context (a b c d : Z) (Ha : byte a) (Hb : byte b) (Hc : byte c) (Hd : byte d).

Lemma word4_mask3 : Z.land (word4 a b c d) 0xff000000 = word4 a 0 0 0.
Proof.
  rewrite (land_mask_shift _ 24), word4_byte3, (land_mask 8), Z.mod_small by done.
  unfold word4. by rewrite !Z.shiftl_0_l, !Z.lxor_0_r.
Qed.

Lemma word4_mask2 : Z.land (word4 a b c d) 0x00ff0000 = word4 0 b 0 0.
Proof.
  rewrite (land_mask_shift _ 16), word4_byte2 by done.
  unfold word4. by rewrite !Z.shiftl_0_l, !Z.lxor_0_r, Z.lxor_0_l.
Qed.

Lemma word4_mask1 : Z.land (word4 a b c d) 0x0000ff00 = word4 0 0 c 0.
Proof.
  rewrite (land_mask_shift _ 8), word4_byte1 by done.
  unfold word4. by rewrite !Z.shiftl_0_l, !Z.lxor_0_r, !Z.lxor_0_l.
Qed.

Lemma word4_mask0 : Z.land (word4 a b c d) 0x000000ff = word4 0 0 0 d.
Proof.
  rewrite word4_byte0 by done. unfold word4. by rewrite !Z.shiftl_0_l, !Z.lxor_0_l.
Qed.
End Masks.

(** ** Exhaustive checks *)

Lemma byte_check (P : Z → bool) : forallb P (seqZ 0 256) = true → ∀ x, byte x → P x = true.
Proof.
  intros H x Hx. rewrite forallb_forall in H. apply H, list_elem_of_In, elem_of_seqZ. exact Hx.
Qed.
