(* ===== verification/Buffers.v ===== *)
(** * Byte buffers

    Reading and writing ranges of arrays, loops that fill an array, cutting data
    into blocks, and integers in big-endian order. *)

From S2P Require Import Prelude Bytes.

(** ** Ranges *)

(** The [n] cells from [o] on, and storing [bs] there; [None] is an access outside
    the array. *)
Definition load (a : list Z) (o n : Z) : option (list Z) :=
  if (0 <=? o) && (0 <=? n) && (o + n <=? Z.of_nat (length a))
  then Some (take (Z.to_nat n) (drop (Z.to_nat o) a)) else None.

Definition store (a : list Z) (o : Z) (bs : list Z) : option (list Z) :=
  if (0 <=? o) && (o + Z.of_nat (length bs) <=? Z.of_nat (length a))
  then Some (take (Z.to_nat o) a ++ bs ++ drop (Z.to_nat o + length bs) a) else None.

Lemma load_mid pre mid post :
  load (pre ++ mid ++ post) (Z.of_nat (length pre)) (Z.of_nat (length mid)) = Some mid.
Proof.
  unfold load. rewrite !length_app. repeat (rewrite (proj2 (Z.leb_le _ _)) by lia). cbn [andb].
  by rewrite !Nat2Z.id, drop_app_length, take_app_length.
Qed.

Lemma load_prefix mid post : load (mid ++ post) 0 (Z.of_nat (length mid)) = Some mid.
Proof. apply (load_mid [] mid post). Qed.

Lemma store_mid pre old bs post : length old = length bs →
  store (pre ++ old ++ post) (Z.of_nat (length pre)) bs = Some (pre ++ bs ++ post).
Proof.
  intros Hl. unfold store. rewrite !length_app. repeat (rewrite (proj2 (Z.leb_le _ _)) by lia). cbn [andb].
  rewrite !Nat2Z.id, take_app_length. do 3 f_equal.
  rewrite <- Hl, <- length_app, app_assoc. apply drop_app_length.
Qed.

Lemma store_prefix old bs post : length old = length bs → store (old ++ post) 0 bs = Some (bs ++ post).
Proof. intros Hl. by apply (store_mid [] old bs post). Qed.

Lemma store_nil a o : 0 ≤ o ≤ Z.of_nat (length a) → store a o [] = Some a.
Proof.
  intros Ho. unfold store. simpl length. repeat (rewrite (proj2 (Z.leb_le _ _)) by lia). cbn [andb app].
  by rewrite Nat.add_0_r, take_drop.
Qed.

Lemma aget_mid {A} (pre : list A) x post i : i = Z.of_nat (length pre) → aget (pre ++ x :: post) i = Some x.
Proof.
  intros ->. unfold aget. rewrite (proj2 (Z.leb_le _ _)) by lia.
  by rewrite Nat2Z.id, list_lookup_middle.
Qed.

Lemma aget_nat {A} (l : list A) (k : nat) : aget l (Z.of_nat k) = l !! k.
Proof. unfold aget. rewrite (proj2 (Z.leb_le _ _)) by lia. by rewrite Nat2Z.id. Qed.

Lemma aset_mid {A} (pre : list A) x y post i : i = Z.of_nat (length pre) →
  aset (pre ++ x :: post) i y = Some (pre ++ y :: post).
Proof.
  intros ->. rewrite aset_in by (rewrite length_app; simpl; lia).
  by rewrite Nat2Z.id, insert_app_r_alt, Nat.sub_diag by lia.
Qed.

(** ** Loops over an array

    [for (i = i0; i < i0 + n; ++i) a[o + i] = f(i);] where the right-hand side may
    read the array. *)
Fixpoint fill (n : nat) (i o : Z) (f : list Z → Z → option Z) (a : list Z) : option (list Z) :=
  match n with
  | O => Some a
  | S n => v ← f a i; a ← aset a (o + i) v; fill n (i + 1) o f a
  end.

Lemma fill_from f pre post : ∀ new2 old2 new1, length old2 = length new2 →
  (∀ k x, new2 !! k = Some x →
     f (pre ++ new1 ++ take k new2 ++ drop k old2 ++ post) (Z.of_nat (length new1 + k)) = Some x) →
  fill (length new2) (Z.of_nat (length new1)) (Z.of_nat (length pre)) f (pre ++ new1 ++ old2 ++ post) =
    Some (pre ++ new1 ++ new2 ++ post).
Proof.
  induction new2 as [|x new2 IH]; intros [|y old2] new1 Hl Hf; try done.
  cbn [length fill app]. injection Hl as Hl.
  pose proof (Hf 0%nat x eq_refl) as Hx. rewrite Nat.add_0_r in Hx. cbn [take drop app] in Hx. rewrite Hx.
  cbn [mbind option_bind]. rewrite app_assoc. cbn [app]. rewrite aset_mid by (rewrite length_app; lia).
  cbn [mbind option_bind].
  replace (Z.of_nat (length new1) + 1) with (Z.of_nat (length (new1 ++ [x]))) by (rewrite length_app; simpl; lia).
  replace ((pre ++ new1) ++ x :: old2 ++ post) with (pre ++ (new1 ++ [x]) ++ old2 ++ post)
    by (by rewrite <- !app_assoc).
  rewrite IH; [by rewrite <- !app_assoc|done|].
  intros k z Hk. specialize (Hf (S k) z Hk). rewrite length_app. cbn [length take drop app] in Hf |- *.
  replace (length new1 + 1 + k)%nat with (length new1 + S k)%nat by lia.
  rewrite <- Hf. f_equal. by rewrite <- !app_assoc.
Qed.

Lemma fill_ok f n o pre old new post : length old = length new → n = length new →
  o = Z.of_nat (length pre) →
  (∀ k x, new !! k = Some x → f (pre ++ take k new ++ drop k old ++ post) (Z.of_nat k) = Some x) →
  fill n 0 o f (pre ++ old ++ post) = Some (pre ++ new ++ post).
Proof. intros Hl -> -> Hf. by apply (fill_from f pre post new old []). Qed.

(** ** Exclusive or of byte strings *)

Definition xor_bytes (a b : list Z) : list Z := zip_with Z.lxor a b.

Lemma xor_bytes_length a b : length (xor_bytes a b) = min (length a) (length b).
Proof. apply length_zip_with. Qed.

Lemma xor_bytes_ok a b : Forall byte a → Forall byte b → Forall byte (xor_bytes a b).
Proof.
  intros Ha Hb. revert b Hb. induction Ha as [|x a Hx Ha IH]; intros b Hb; [constructor|].
  destruct Hb as [|y b Hy Hb]; [constructor|]. constructor; [by apply lxor_range|by apply IH].
Qed.

Lemma xor_bytes_cancel a b : (length b ≤ length a)%nat → xor_bytes a (xor_bytes a b) = b.
Proof.
  revert b. induction a as [|x a IH]; intros [|y b] Hl; simpl in *; try done; [lia|].
  f_equal; [|apply IH; lia]. by rewrite <- Z.lxor_assoc, Z.lxor_nilpotent, Z.lxor_0_l.
Qed.

Lemma xor_bytes_comm a b : xor_bytes a b = xor_bytes b a.
Proof.
  revert b. induction a as [|x a IH]; intros [|y b]; simpl; try done. f_equal; [apply Z.lxor_comm|apply IH].
Qed.

Lemma xor_bytes_cancel_r a b : (length a ≤ length b)%nat → xor_bytes (xor_bytes a b) b = a.
Proof. intros Hl. rewrite (xor_bytes_comm a b), xor_bytes_comm. by apply xor_bytes_cancel. Qed.

Lemma xor_bytes_zero a n : (length a ≤ n)%nat → xor_bytes a (replicate n 0) = a.
Proof.
  revert n. induction a as [|x a IH]; intros [|n] Hl; simpl in *; try done; [lia|].
  rewrite Z.lxor_0_r. f_equal. apply IH. lia.
Qed.

Lemma xor_bytes_lookup a b k x : xor_bytes a b !! k = Some x →
  ∃ u v, a !! k = Some u ∧ b !! k = Some v ∧ x = Z.lxor u v.
Proof. intros (u & v & -> & Hu & Hv)%lookup_zip_with_Some. eauto. Qed.

(** ** Blocks *)

(** Data in blocks of [n] bytes, the last one possibly shorter; no data is one
    empty block, as for the loops of the cipher modes. *)
Fixpoint chunks (fuel n : nat) (l : list Z) : list (list Z) :=
  match fuel with
  | O => []
  | S fuel => take n l :: match drop n l with [] => [] | r => chunks fuel n r end
  end.

Definition blocks (n : nat) (l : list Z) : list (list Z) := chunks (S (length l)) n l.

Lemma chunks_fuel n : (0 < n)%nat → ∀ f1 f2 l, (length l < f1)%nat → (length l < f2)%nat →
  chunks f1 n l = chunks f2 n l.
Proof.
  intros Hn. induction f1 as [|f1 IH]; intros [|f2] l H1 H2; [lia|lia|lia|]. cbn [chunks]. f_equal.
  destruct (drop n l) as [|x r] eqn:Hr; [done|].
  assert (length (x :: r) < length l)%nat.
  { rewrite <- Hr, length_drop. destruct l; [by rewrite drop_nil in Hr|simpl; lia]. }
  apply IH; lia.
Qed.

Lemma blocks_unfold n l : (0 < n)%nat →
  blocks n l = take n l :: match drop n l with [] => [] | r => blocks n r end.
Proof.
  intros Hn. unfold blocks at 1. cbn [chunks]. f_equal. destruct (drop n l) as [|x r] eqn:Hr; [done|].
  apply chunks_fuel; [done| |simpl; lia].
  rewrite <- Hr, length_drop. destruct l; [by rewrite drop_nil in Hr|simpl; lia].
Qed.

Lemma blocks_ind n (P : list Z → Prop) : (0 < n)%nat →
  (∀ l, (length l ≤ n)%nat → P l) → (∀ b r, length b = n → r ≠ [] → P r → P (b ++ r)) → ∀ l, P l.
Proof.
  intros Hn Hlast Hstep l. remember (length l) as k eqn:Hk. revert l Hk.
  induction k as [k IH] using lt_wf_ind. intros l ->.
  destruct (decide (length l ≤ n)%nat) as [|Hlong]; [by apply Hlast|].
  rewrite <- (take_drop n l). apply Hstep.
  - rewrite length_take. lia.
  - intros Hr. apply (f_equal length) in Hr. rewrite length_drop in Hr. simpl in Hr. lia.
  - eapply (IH (length (drop n l))); [rewrite length_drop; lia|done].
Qed.

Lemma blocks_last n l : (0 < n)%nat → (length l ≤ n)%nat → blocks n l = [l].
Proof. intros Hn Hl. rewrite blocks_unfold by done. by rewrite take_ge, drop_ge by done. Qed.

Lemma blocks_app n b r : (0 < n)%nat → length b = n → r ≠ [] → blocks n (b ++ r) = b :: blocks n r.
Proof.
  intros Hn Hb Hr. rewrite blocks_unfold by done. rewrite take_app_length', drop_app_length' by done.
  by destruct r.
Qed.

Lemma concat_blocks n l : (0 < n)%nat → concat (blocks n l) = l.
Proof.
  intros Hn. revert l. apply (blocks_ind n); [done|intros l Hl|intros b r Hb Hr IH].
  - rewrite blocks_last by done. apply app_nil_r.
  - rewrite blocks_app by done. cbn [concat]. by rewrite IH.
Qed.

(** ** Big-endian integers *)

Definition be_value (l : list Z) : Z := foldl (λ v x, v * 256 + x) 0 l.

Fixpoint be_bytes (n : nat) (v : Z) : list Z :=
  match n with O => [] | S n => be_bytes n (v / 256) ++ [v mod 256] end.

Lemma be_value_snoc l x : be_value (l ++ [x]) = be_value l * 256 + x.
Proof. unfold be_value. by rewrite foldl_app. Qed.

Lemma be_bytes_length n v : length (be_bytes n v) = n.
Proof. revert v. induction n as [|n IH]; intros v; [done|]. cbn [be_bytes]. rewrite length_app, IH. simpl. lia. Qed.

Lemma be_bytes_byte n v : Forall byte (be_bytes n v).
Proof.
  revert v. induction n as [|n IH]; intros v; [constructor|]. cbn [be_bytes].
  apply Forall_app. split; [apply IH|]. constructor; [|constructor]. apply Z.mod_pos_bound. lia.
Qed.

Lemma be_bytes_value l : Forall byte l → be_bytes (length l) (be_value l) = l.
Proof.
  induction l as [|x l IH] using rev_ind; intros Hl; [done|].
  apply Forall_app in Hl as [Hl [Hx _]%Forall_cons].
  rewrite length_app, Nat.add_comm. cbn [length Nat.add be_bytes]. rewrite be_value_snoc.
  unfold uint in Hx. change (2 ^ 8) with 256 in Hx.
  rewrite Z.div_add_l, (Z.div_small x), Z.add_0_r by lia.
  rewrite (Z.add_comm _ x), Z.mod_add, Z.mod_small by lia. by rewrite IH.
Qed.

Lemma be_value_bytes n v : be_value (be_bytes n v) = v mod 256 ^ Z.of_nat n.
Proof.
  revert v. induction n as [|n IH]; intros v; [symmetry; apply Z.mod_1_r|].
  cbn [be_bytes]. rewrite be_value_snoc, IH.
  rewrite Nat2Z.inj_succ, Z.pow_succ_r by lia.
  rewrite Z.rem_mul_r by (first [lia|apply Z.pow_pos_nonneg; lia]). ring.
Qed.

Lemma be_value_range l : Forall byte l → 0 ≤ be_value l < 256 ^ Z.of_nat (length l).
Proof.
  intros Hl. rewrite <- (be_bytes_value l Hl) at 1 2. rewrite be_value_bytes.
  apply Z.mod_pos_bound, Z.pow_pos_nonneg; lia.
Qed.

Lemma split_at {A} (l : list A) (k : nat) : (k ≤ length l)%nat → ∃ a b, l = a ++ b ∧ length a = k.
Proof. intros Hk. exists (take k l), (drop k l). rewrite take_drop, length_take. split; [done|lia]. Qed.
