(* ===== verification/AesSpec.v ===== *)
(** * The Advanced Encryption Standard (FIPS-197)

    The reference the cipher of sys/crypto/aes.c is compared with: the state is
    four columns of four bytes, the S-box is inversion in GF(2^8) followed by an
    affine map, and decryption applies the inverse transformations in reverse
    order. *)

From Stdlib Require Import Ring Bool.
From S2P Require Import Prelude Bytes.

(** ** The field GF(2^8) *)

Definition xtime (x : Z) : Z :=
  if Z.testbit x 7 then Z.lxor (Z.shiftl x 1) 0x11b else Z.shiftl x 1.

Fixpoint gmul_bits (n : nat) (a x : Z) : Z :=
  match n with
  | O => 0
  | S n => Z.lxor (if Z.odd a then x else 0) (gmul_bits n (Z.div2 a) (xtime x))
  end.

(** Product of bytes. *)
Definition gmul (a x : Z) : Z := gmul_bits 8 a x.

(** The inverse is the 254th power; it is [0] for [0]. *)
Definition ginv (x : Z) : Z :=
  let x2 := gmul x x in let x4 := gmul x2 x2 in let x8 := gmul x4 x4 in let x16 := gmul x8 x8 in
  let x32 := gmul x16 x16 in let x64 := gmul x32 x32 in let x128 := gmul x64 x64 in
  gmul x2 (gmul x4 (gmul x8 (gmul x16 (gmul x32 (gmul x64 x128))))).

Definition rotl8 (x k : Z) : Z := Z.lor (u8 (Z.shiftl x k)) (Z.shiftr x (8 - k)).

Definition sbox (x : Z) : Z :=
  let y := ginv x in
  Z.lxor y (Z.lxor (rotl8 y 1) (Z.lxor (rotl8 y 2) (Z.lxor (rotl8 y 3) (Z.lxor (rotl8 y 4) 0x63)))).

Definition inv_sbox (y : Z) : Z :=
  ginv (Z.lxor (rotl8 y 1) (Z.lxor (rotl8 y 3) (Z.lxor (rotl8 y 6) 0x05))).

#[global] Arguments sbox : simpl never.
#[global] Arguments inv_sbox : simpl never.
#[global] Arguments gmul : simpl never.

(** ** The state *)

Definition col : Type := Z * Z * Z * Z.
Definition state : Type := col * col * col * col.

Definition cxor (x y : col) : col :=
  let '(a, b, c, d) := x in let '(a', b', c', d') := y in
  (Z.lxor a a', Z.lxor b b', Z.lxor c c', Z.lxor d d').

Definition csub (f : Z → Z) (x : col) : col := let '(a, b, c, d) := x in (f a, f b, f c, f d).

Definition smap (f : col → col) (s : state) : state :=
  let '(c0, c1, c2, c3) := s in (f c0, f c1, f c2, f c3).

Definition add_round_key (k s : state) : state :=
  let '(c0, c1, c2, c3) := s in let '(k0, k1, k2, k3) := k in
  (cxor c0 k0, cxor c1 k1, cxor c2 k2, cxor c3 k3).

Definition sub_bytes : state → state := smap (csub sbox).
Definition inv_sub_bytes : state → state := smap (csub inv_sbox).

Definition shift_rows (s : state) : state :=
  let '((a0, b0, c0, d0), (a1, b1, c1, d1), (a2, b2, c2, d2), (a3, b3, c3, d3)) := s in
  ((a0, b1, c2, d3), (a1, b2, c3, d0), (a2, b3, c0, d1), (a3, b0, c1, d2)).

Definition inv_shift_rows (s : state) : state :=
  let '((a0, b0, c0, d0), (a1, b1, c1, d1), (a2, b2, c2, d2), (a3, b3, c3, d3)) := s in
  ((a0, b3, c2, d1), (a1, b0, c3, d2), (a2, b1, c0, d3), (a3, b2, c1, d0)).

(** The circulant matrix with first row [(p, q, r, t)]. *)
Definition circulant (p q r t : Z) (x : col) : col :=
  let '(a, b, c, d) := x in
  let dot p q r t := Z.lxor (gmul p a) (Z.lxor (gmul q b) (Z.lxor (gmul r c) (gmul t d))) in
  (dot p q r t, dot t p q r, dot r t p q, dot q r t p).

Definition mix_column : col → col := circulant 2 3 1 1.
Definition inv_mix_column : col → col := circulant 14 11 13 9.

Definition mix_columns : state → state := smap mix_column.
Definition inv_mix_columns : state → state := smap inv_mix_column.

(** ** The cipher and its inverse, given the round keys *)

Fixpoint enc_rounds (ks : list state) (s : state) : state :=
  match ks with
  | [] => s
  | [k] => add_round_key k (shift_rows (sub_bytes s))
  | k :: ks => enc_rounds ks (add_round_key k (mix_columns (shift_rows (sub_bytes s))))
  end.

Definition cipher (ks : list state) (s : state) : state :=
  match ks with [] => s | k :: ks => enc_rounds ks (add_round_key k s) end.

Fixpoint dec_rounds (ks : list state) (s : state) : state :=
  match ks with
  | [] => s
  | [k] => add_round_key k (inv_sub_bytes (inv_shift_rows s))
  | k :: ks => dec_rounds ks (inv_mix_columns (add_round_key k (inv_sub_bytes (inv_shift_rows s))))
  end.

Definition inv_cipher (ks : list state) (s : state) : state :=
  match reverse ks with [] => s | k :: ks => dec_rounds ks (add_round_key k s) end.

(** ** Key expansion for [nk] key words *)

Definition col0 : col := (0, 0, 0, 0).
Definition rot_word (x : col) : col := let '(a, b, c, d) := x in (b, c, d, a).
Definition rcon_word (i : nat) : col := (Nat.iter (i - 1) xtime 1, 0, 0, 0).

Definition next_word (nk : nat) (ws : list col) : col :=
  let i := length ws in
  let t := nth (i - 1) ws col0 in
  cxor (nth (i - nk) ws col0)
    (if (i mod nk =? 0)%nat then cxor (csub sbox (rot_word t)) (rcon_word (i / nk))
     else if (6 <? nk)%nat && (i mod nk =? 4)%nat then csub sbox t else t).

Fixpoint expand_key (nk n : nat) (ws : list col) : list col :=
  match n with O => ws | S n => expand_key nk n (ws ++ [next_word nk ws]) end.

Fixpoint round_keys (ws : list col) : list state :=
  match ws with w0 :: w1 :: w2 :: w3 :: ws => (w0, w1, w2, w3) :: round_keys ws | _ => [] end.

(** AES-128: 11 round keys from 4 key words. *)
Definition aes128_keys (key : state) : list state :=
  let '(k0, k1, k2, k3) := key in round_keys (expand_key 4 40 [k0; k1; k2; k3]).

(** ** Properties *)

Definition col_ok (x : col) : Prop := let '(a, b, c, d) := x in byte a ∧ byte b ∧ byte c ∧ byte d.
Definition state_ok (s : state) : Prop :=
  let '(c0, c1, c2, c3) := s in col_ok c0 ∧ col_ok c1 ∧ col_ok c2 ∧ col_ok c3.

Lemma xtime_lxor x y : xtime (Z.lxor x y) = Z.lxor (xtime x) (xtime y).
Proof.
  unfold xtime. rewrite Z.lxor_spec, Z.shiftl_lxor.
  apply Z.bits_inj'. intros n Hn. destruct (Z.testbit x 7), (Z.testbit y 7); simpl;
    rewrite ?Z.lxor_spec, ?Z.bits_0; ring.
Qed.

Lemma gmul_lxor a x y : gmul a (Z.lxor x y) = Z.lxor (gmul a x) (gmul a y).
Proof.
  unfold gmul. generalize 8%nat. intros n. revert a x y. induction n as [|n IH]; intros a x y; [done|].
  cbn [gmul_bits]. rewrite xtime_lxor, IH. apply Z.bits_inj'. intros i Hi.
  destruct (Z.odd a); rewrite ?Z.lxor_spec, ?Z.bits_0; ring.
Qed.

Lemma xtime_byte x : byte x → byte (xtime x).
Proof.
  intros Hx.
  pose proof (byte_check (λ x, (0 <=? xtime x) && (xtime x <? 2 ^ 8)) ltac:(vm_compute; reflexivity) x Hx) as H.
  apply andb_prop in H as [?%Z.leb_le ?%Z.ltb_lt]. done.
Qed.

Lemma gmul_byte a x : byte x → byte (gmul a x).
Proof.
  unfold gmul. generalize 8%nat. intros n. revert a x. induction n as [|n IH]; intros a x Hx; [done|].
  cbn [gmul_bits]. apply lxor_range; [done|destruct (Z.odd a); [done|]|by apply IH, xtime_byte]. by split.
Qed.

Lemma gmul_1 x : gmul 1 x = x.
Proof. unfold gmul. cbn. by rewrite Z.lxor_0_r. Qed.

Lemma gmul_ginv x : byte x → x ≠ 0 → gmul x (ginv x) = 1.
Proof.
  intros Hx H0. pose proof (byte_check (λ x, (x =? 0) || (gmul x (ginv x) =? 1))
    ltac:(vm_compute; reflexivity) x Hx) as H. cbn beta in H.
  by apply orb_prop in H as [?%Z.eqb_eq|?%Z.eqb_eq].
Qed.

Lemma sbox_byte x : byte x → byte (sbox x).
Proof.
  intros Hx. pose proof (byte_check (λ x, (0 <=? sbox x) && (sbox x <? 2 ^ 8))
    ltac:(vm_compute; reflexivity) x Hx) as H.
  apply andb_prop in H as [?%Z.leb_le ?%Z.ltb_lt]. done.
Qed.

Lemma inv_sbox_byte x : byte x → byte (inv_sbox x).
Proof.
  intros Hx. pose proof (byte_check (λ x, (0 <=? inv_sbox x) && (inv_sbox x <? 2 ^ 8))
    ltac:(vm_compute; reflexivity) x Hx) as H.
  apply andb_prop in H as [?%Z.leb_le ?%Z.ltb_lt]. done.
Qed.

Lemma inv_sbox_sbox x : byte x → inv_sbox (sbox x) = x.
Proof.
  intros Hx. pose proof (byte_check (λ x, inv_sbox (sbox x) =? x) ltac:(vm_compute; reflexivity) x Hx) as H.
  by apply Z.eqb_eq in H.
Qed.

(** The products of the two MixColumns matrices. *)
Definition mix_product (p q r t u v w z x : Z) : Z :=
  Z.lxor (gmul p (gmul u x)) (Z.lxor (gmul q (gmul v x)) (Z.lxor (gmul r (gmul w x)) (gmul t (gmul z x)))).

Lemma mix_products x : byte x →
  mix_product 14 11 13 9 2 1 1 3 x = x ∧ mix_product 14 11 13 9 3 2 1 1 x = 0 ∧
  mix_product 14 11 13 9 1 3 2 1 x = 0 ∧ mix_product 14 11 13 9 1 1 3 2 x = 0.
Proof.
  intros Hx. pose proof (byte_check (λ x, (mix_product 14 11 13 9 2 1 1 3 x =? x) &&
    (mix_product 14 11 13 9 3 2 1 1 x =? 0) && (mix_product 14 11 13 9 1 3 2 1 x =? 0) &&
    (mix_product 14 11 13 9 1 1 3 2 x =? 0)) ltac:(vm_compute; reflexivity) x Hx) as H.
  cbn beta in H.
  repeat match goal with H : _ && _ = true |- _ => apply andb_prop in H as [H ?] end.
  repeat match goal with H : _ = true |- _ => apply Z.eqb_eq in H end.
  split; [|split; [|split]]; assumption.
Qed.

(** Reordering sums in the field. *)
Ltac xor_solve :=
  apply Z.bits_inj'; intros ? _; rewrite ?Z.lxor_spec, ?Z.bits_0; ring.

Lemma sum4 a e e1 e2 e3 : e = a → e1 = 0 → e2 = 0 → e3 = 0 → Z.lxor e (Z.lxor e1 (Z.lxor e2 e3)) = a.
Proof. intros -> -> -> ->. by rewrite !Z.lxor_0_r. Qed.

Lemma inv_mix_mix x : col_ok x → inv_mix_column (mix_column x) = x.
Proof.
  destruct x as [[[a b] c] d]. intros (Ha & Hb & Hc & Hd). unfold inv_mix_column, mix_column, circulant.
  cbn beta zeta iota. rewrite !gmul_lxor.
  destruct (mix_products a Ha) as (Pa & Pa1 & Pa2 & Pa3), (mix_products b Hb) as (Pb & Pb1 & Pb2 & Pb3),
    (mix_products c Hc) as (Pc & Pc1 & Pc2 & Pc3), (mix_products d Hd) as (Pd & Pd1 & Pd2 & Pd3).
  unfold mix_product in *.
  f_equal; [f_equal; [f_equal|]|].
  - etrans; [|exact (sum4 _ _ _ _ _ Pa Pb1 Pc2 Pd3)]. xor_solve.
  - etrans; [|exact (sum4 _ _ _ _ _ Pb Pc1 Pd2 Pa3)]. xor_solve.
  - etrans; [|exact (sum4 _ _ _ _ _ Pc Pd1 Pa2 Pb3)]. xor_solve.
  - etrans; [|exact (sum4 _ _ _ _ _ Pd Pa1 Pb2 Pc3)]. xor_solve.
Qed.

(** ** The inverse cipher inverts the cipher *)

Lemma cxor_ok x y : col_ok x → col_ok y → col_ok (cxor x y).
Proof.
  destruct x as [[[? ?] ?] ?], y as [[[? ?] ?] ?]. intros (? & ? & ? & ?) (? & ? & ? & ?).
  split; [|split; [|split]]; by apply lxor_range.
Qed.

Lemma csub_ok f x : (∀ a, byte a → byte (f a)) → col_ok x → col_ok (csub f x).
Proof. destruct x as [[[? ?] ?] ?]. intros Hf (? & ? & ? & ?). split; [|split; [|split]]; by apply Hf. Qed.

Lemma lxor4_range k a b c d :
  0 ≤ k → uint k a → uint k b → uint k c → uint k d → uint k (Z.lxor a (Z.lxor b (Z.lxor c d))).
Proof. intros. repeat (apply lxor_range; [done|done|]). done. Qed.

Lemma mix_column_ok x : col_ok x → col_ok (mix_column x).
Proof.
  destruct x as [[[? ?] ?] ?]. intros (? & ? & ? & ?).
  split; [|split; [|split]]; apply lxor4_range; try (by apply gmul_byte); done.
Qed.

Lemma inv_mix_column_ok x : col_ok x → col_ok (inv_mix_column x).
Proof.
  destruct x as [[[? ?] ?] ?]. intros (? & ? & ? & ?).
  split; [|split; [|split]]; apply lxor4_range; try (by apply gmul_byte); done.
Qed.

Lemma smap_ok f s : (∀ x, col_ok x → col_ok (f x)) → state_ok s → state_ok (smap f s).
Proof. destruct s as [[[? ?] ?] ?]. intros Hf (? & ? & ? & ?). split; [|split; [|split]]; by apply Hf. Qed.

(** Name the sixteen bytes of a state. *)
Ltac open_state s :=
  destruct s as [[[[[[? ?] ?] ?] [[[? ?] ?] ?]] [[[? ?] ?] ?]] [[[? ?] ?] ?]].

Lemma add_round_key_ok k s : state_ok k → state_ok s → state_ok (add_round_key k s).
Proof.
  destruct s as [[[? ?] ?] ?], k as [[[? ?] ?] ?]. intros (? & ? & ? & ?) (? & ? & ? & ?).
  split; [|split; [|split]]; by apply cxor_ok.
Qed.

Lemma shift_rows_ok s : state_ok s → state_ok (shift_rows s).
Proof. open_state s. simpl. tauto. Qed.

Lemma inv_shift_rows_ok s : state_ok s → state_ok (inv_shift_rows s).
Proof. open_state s. simpl. tauto. Qed.

Lemma sub_bytes_ok s : state_ok s → state_ok (sub_bytes s).
Proof. apply smap_ok. intros x. by apply csub_ok, sbox_byte. Qed.

Lemma inv_sub_bytes_ok s : state_ok s → state_ok (inv_sub_bytes s).
Proof. apply smap_ok. intros x. by apply csub_ok, inv_sbox_byte. Qed.

Lemma add_round_key_twice k s : add_round_key k (add_round_key k s) = s.
Proof.
  open_state s. open_state k. simpl.
  by rewrite !Z.lxor_assoc, !Z.lxor_nilpotent, !Z.lxor_0_r.
Qed.

Lemma inv_sub_shift s : state_ok s → inv_sub_bytes (inv_shift_rows (shift_rows (sub_bytes s))) = s.
Proof.
  open_state s. cbn. intros Hs.
  rewrite !inv_sbox_sbox by tauto. done.
Qed.

Lemma inv_mix_columns_mix s : state_ok s → inv_mix_columns (mix_columns s) = s.
Proof. destruct s as [[[? ?] ?] ?]. intros (? & ? & ? & ?). simpl. by rewrite !inv_mix_mix. Qed.

Lemma dec_rounds_enc ks k R rest s :
  Forall state_ok ks → state_ok s → reverse ks = k :: R → rest ≠ [] →
  dec_rounds (R ++ rest) (add_round_key k (enc_rounds ks s)) = dec_rounds rest (shift_rows (sub_bytes s)).
Proof.
  intros Hks. revert k R rest s. induction Hks as [|k1 ks Hk1 Hks IH]; intros k R rest s Hs Hrev Hrest; [done|].
  rewrite reverse_cons in Hrev. destruct ks as [|k2 ks].
  - injection Hrev as -> <-. simpl. by rewrite add_round_key_twice.
  - destruct (reverse (k2 :: ks)) as [|k' R'] eqn:Hr.
    { apply (f_equal length) in Hr. by rewrite length_reverse in Hr. }
    injection Hrev as -> <-. rewrite <- app_assoc.
    assert (state_ok (shift_rows (sub_bytes s))) as Hss by (by apply shift_rows_ok, sub_bytes_ok).
    assert (state_ok (mix_columns (shift_rows (sub_bytes s)))) as Hm
      by (apply smap_ok; [by apply mix_column_ok|done]).
    change (enc_rounds (k1 :: k2 :: ks) s)
      with (enc_rounds (k2 :: ks) (add_round_key k1 (mix_columns (shift_rows (sub_bytes s))))).
    rewrite (IH k R' ([k1] ++ rest)) by (done || by apply add_round_key_ok).
    destruct rest as [|k3 rest]; [done|].
    change (dec_rounds ([k1] ++ k3 :: rest) ?x) with
      (dec_rounds (k3 :: rest) (inv_mix_columns (add_round_key k1 (inv_sub_bytes (inv_shift_rows x))))).
    rewrite inv_sub_shift, add_round_key_twice, inv_mix_columns_mix; [done|done|by apply add_round_key_ok].
Qed.

Lemma inv_cipher_cipher ks s : Forall state_ok ks → state_ok s → inv_cipher ks (cipher ks s) = s.
Proof.
  intros Hks Hs. unfold inv_cipher, cipher. destruct Hks as [|k ks Hk Hks]; [done|].
  rewrite reverse_cons. destruct ks as [|k1 ks].
  { simpl. apply add_round_key_twice. }
  destruct (reverse (k1 :: ks)) as [|k' R] eqn:Hr.
  { apply (f_equal length) in Hr. by rewrite length_reverse in Hr. }
  simpl app. cbn [app]. rewrite (dec_rounds_enc (k1 :: ks) k' R [k]); [|done|by apply add_round_key_ok|done|done].
  cbn [dec_rounds]. by rewrite inv_sub_shift, add_round_key_twice by (by apply add_round_key_ok).
Qed.

Lemma enc_rounds_ok ks s : Forall state_ok ks → state_ok s → state_ok (enc_rounds ks s).
Proof.
  intros Hks. revert s. induction Hks as [|k ks Hk Hks IH]; intros s Hs; [done|].
  destruct ks as [|k' ks]; [by apply add_round_key_ok, shift_rows_ok, sub_bytes_ok|].
  apply IH, add_round_key_ok; [done|].
  by apply smap_ok; [apply mix_column_ok|apply shift_rows_ok, sub_bytes_ok].
Qed.

Lemma cipher_ok ks s : Forall state_ok ks → state_ok s → state_ok (cipher ks s).
Proof. intros [|k ks' Hk Hks] Hs; [done|]. by apply enc_rounds_ok, add_round_key_ok. Qed.

Lemma dec_rounds_ok ks s : Forall state_ok ks → state_ok s → state_ok (dec_rounds ks s).
Proof.
  intros Hks. revert s. induction Hks as [|k ks Hk Hks IH]; intros s Hs; [done|].
  destruct ks as [|k' ks]; [by apply add_round_key_ok, inv_sub_bytes_ok, inv_shift_rows_ok|].
  apply IH, smap_ok; [apply inv_mix_column_ok|].
  by apply add_round_key_ok, inv_sub_bytes_ok, inv_shift_rows_ok.
Qed.

Lemma inv_cipher_ok ks s : Forall state_ok ks → state_ok s → state_ok (inv_cipher ks s).
Proof.
  intros Hks Hs. unfold inv_cipher. apply Forall_reverse in Hks.
  destruct Hks as [|k ks' Hk Hks]; [done|]. by apply dec_rounds_ok, add_round_key_ok.
Qed.
