(* ===== verification/Aes.v ===== *)
(** * AES (sys/crypto/aes.c)

    The table-driven cipher, in both table configurations
    (MODULE_CRYPTO_AES_PRECALCULATED or not) and with both round loops
    (MODULE_CRYPTO_AES_UNROLL or not), for AES-128 blocks; the key expansion for
    all key sizes.  An access outside an array is [None]. *)

From S2P Require Import Prelude Bytes AesTables.

(** ** The lookup macros *)

Record aes_tables := {
  te0 : Z → Z; te1 : Z → Z; te2 : Z → Z; te3 : Z → Z; te4 : Z → Z;
  td0 : Z → Z; td1 : Z → Z; td2 : Z → Z; td3 : Z → Z; td4 : Z → Z
}.

(** Table lookup; the code only uses bytes as indices. *)
Definition tab (t : list Z) (n : Z) : Z := nth (Z.to_nat n) t 0.

(** Without MODULE_CRYPTO_AES_PRECALCULATED. *)
Definition Td4u (n : Z) : Z := tab Td4_u8 n.

Definition computed_tables : aes_tables := {|
  te0 n := tab Te0 n;
  te1 n := Z.lor (Z.shiftr (tab Te0 n) 8) (u32 (Z.shiftl (tab Te0 n) 24));
  te2 n := Z.lor (Z.shiftr (tab Te0 n) 16) (u32 (Z.shiftl (tab Te0 n) 16));
  te3 n := Z.lor (Z.shiftr (tab Te0 n) 24) (u32 (Z.shiftl (tab Te0 n) 8));
  te4 n := Z.lor (Z.shiftr (Z.land (tab Te0 n) 0x00FFFF00) 8)
                 (u32 (Z.shiftl (Z.land (tab Te0 n) 0x00FFFF00) 8));
  td0 n := tab Td0 n;
  td1 n := Z.lor (Z.shiftr (tab Td0 n) 8) (u32 (Z.shiftl (tab Td0 n) 24));
  td2 n := Z.lor (Z.shiftr (tab Td0 n) 16) (u32 (Z.shiftl (tab Td0 n) 16));
  td3 n := Z.lor (Z.shiftr (tab Td0 n) 24) (u32 (Z.shiftl (tab Td0 n) 8));
  td4 n := Z.lor (Z.lor (Z.lor (Td4u n) (u32 (Z.shiftl (Td4u n) 8))) (u32 (Z.shiftl (Td4u n) 16)))
                 (u32 (Z.shiftl (Td4u n) 24))
|}.

(** With MODULE_CRYPTO_AES_PRECALCULATED. *)
Definition precalculated_tables : aes_tables := {|
  te0 := tab Te0; te1 := tab Te1; te2 := tab Te2; te3 := tab Te3; te4 := tab Te4;
  td0 := tab Td0; td1 := tab Td1; td2 := tab Td2; td3 := tab Td3; td4 := tab Td4
|}.

(** ** Loads and stores *)

(** [GETU32(pt + o)] *)
Definition GETU32 (pt : list Z) (o : Z) : option Z :=
  a ← aget pt o; b ← aget pt (o + 1); c ← aget pt (o + 2); d ← aget pt (o + 3);
  Some (word4 a b c d).

(** The four bytes [PUTU32] stores. *)
Definition PUTU32 (st : Z) : list Z := bytes4 st.

Definition AES_MAXNR : Z := 14.
Definition AES_BLOCK_SIZE : Z := 16.
Definition AES_KEY_SIZE : Z := 16.

Record AES_KEY := AesKey { rd_key : list Z; rounds : Z }.

(** Four words, the cipher state or a round key. *)
Definition words : Type := Z * Z * Z * Z.

Definition load4 (rk : list Z) (o : Z) : option words :=
  k0 ← aget rk o; k1 ← aget rk (o + 1); k2 ← aget rk (o + 2); k3 ← aget rk (o + 3);
  Some (k0, k1, k2, k3).

Section Code.
Variable T : aes_tables.

(** [n]-th byte of a word as a table index: [(x >> 24)], [(x >> 16) & 0xff], ... *)
#[local] Abbreviation ix3 x := (Z.shiftr x 24).
#[local] Abbreviation ix2 x := (Z.land (Z.shiftr x 16) 0xff).
#[local] Abbreviation ix1 x := (Z.land (Z.shiftr x 8) 0xff).
#[local] Abbreviation ix0 x := (Z.land x 0xff).

(** *** Key expansion *)

(** [rk[d] = rk[a] ^ SubWord(RotWord(rk[t])) ^ rcon[i]] *)
Definition core_step (rk : list Z) (d a t i : Z) : option (list Z) :=
  temp ← aget rk t; x ← aget rk a; rc ← aget rcon i;
  aset rk d
    (Z.lxor (Z.lxor (Z.lxor (Z.lxor (Z.lxor x
      (Z.land (te4 T (ix2 temp)) 0xff000000))
      (Z.land (te4 T (ix1 temp)) 0x00ff0000))
      (Z.land (te4 T (ix0 temp)) 0x0000ff00))
      (Z.land (te4 T (ix3 temp)) 0x000000ff))
      rc).

(** [rk[d] = rk[a] ^ SubWord(rk[t])] *)
Definition sub_step (rk : list Z) (d a t : Z) : option (list Z) :=
  temp ← aget rk t; x ← aget rk a;
  aset rk d
    (Z.lxor (Z.lxor (Z.lxor (Z.lxor x
      (Z.land (te4 T (ix3 temp)) 0xff000000))
      (Z.land (te4 T (ix2 temp)) 0x00ff0000))
      (Z.land (te4 T (ix1 temp)) 0x0000ff00))
      (Z.land (te4 T (ix0 temp)) 0x000000ff)).

(** [rk[d] = rk[a] ^ rk[b]] *)
Definition xor_step (rk : list Z) (d a b : Z) : option (list Z) :=
  x ← aget rk a; y ← aget rk b; aset rk d (Z.lxor x y).

(** The loop for [bits == 128]; [o] is the position of the pointer [rk]. *)
Fixpoint expand128 (fuel : nat) (rk : list Z) (o i : Z) : option (list Z) :=
  match fuel with
  | O => None
  | S fuel =>
      rk ← core_step rk (o + 4) o (o + 3) i;
      rk ← xor_step rk (o + 5) (o + 1) (o + 4);
      rk ← xor_step rk (o + 6) (o + 2) (o + 5);
      rk ← xor_step rk (o + 7) (o + 3) (o + 6);
      if i + 1 =? 10 then Some rk else expand128 fuel rk (o + 4) (i + 1)
  end.

Fixpoint expand192 (fuel : nat) (rk : list Z) (o i : Z) : option (list Z) :=
  match fuel with
  | O => None
  | S fuel =>
      rk ← core_step rk (o + 6) o (o + 5) i;
      rk ← xor_step rk (o + 7) (o + 1) (o + 6);
      rk ← xor_step rk (o + 8) (o + 2) (o + 7);
      rk ← xor_step rk (o + 9) (o + 3) (o + 8);
      if i + 1 =? 8 then Some rk else
      rk ← xor_step rk (o + 10) (o + 4) (o + 9);
      rk ← xor_step rk (o + 11) (o + 5) (o + 10);
      expand192 fuel rk (o + 6) (i + 1)
  end.

Fixpoint expand256 (fuel : nat) (rk : list Z) (o i : Z) : option (list Z) :=
  match fuel with
  | O => None
  | S fuel =>
      rk ← core_step rk (o + 8) o (o + 7) i;
      rk ← xor_step rk (o + 9) (o + 1) (o + 8);
      rk ← xor_step rk (o + 10) (o + 2) (o + 9);
      rk ← xor_step rk (o + 11) (o + 3) (o + 10);
      if i + 1 =? 7 then Some rk else
      rk ← sub_step rk (o + 12) (o + 4) (o + 11);
      rk ← xor_step rk (o + 13) (o + 5) (o + 12);
      rk ← xor_step rk (o + 14) (o + 6) (o + 13);
      rk ← xor_step rk (o + 15) (o + 7) (o + 14);
      expand256 fuel rk (o + 8) (i + 1)
  end.

(** [rk[j] = GETU32(userKey + 4 * j)] for the [n] words from [j] on. *)
Fixpoint load_key (n : nat) (userKey rk : list Z) (j : Z) : option (list Z) :=
  match n with
  | O => Some rk
  | S n => w ← GETU32 userKey (4 * j); rk ← aset rk j w; load_key n userKey rk (j + 1)
  end.

(** Null pointers are [None]. *)
Definition aes_set_encrypt_key (userKey : option (list Z)) (bits : Z) (key : option AES_KEY) :
    option (Z * option AES_KEY) :=
  match userKey, key with
  | Some userKey, Some k =>
      if negb (bits =? 128) && negb (bits =? 192) && negb (bits =? 256) then Some (-2, key)
      else
        let nr := if bits =? 128 then 10 else if bits =? 192 then 12 else 14 in
        rk ← load_key 4 userKey (rd_key k) 0;
        if bits =? 128 then rk ← expand128 10 rk 0 0; Some (0, Some (AesKey rk nr)) else
        rk ← load_key 2 userKey rk 4;
        if bits =? 192 then rk ← expand192 8 rk 0 0; Some (0, Some (AesKey rk nr)) else
        rk ← load_key 2 userKey rk 6;
        rk ← expand256 7 rk 0 0; Some (0, Some (AesKey rk nr))
  | _, _ => Some (-1, key)
  end.

(** Exchange the round keys at [i] and [j]. *)
Definition swap_words (rk : list Z) (i j : Z) : option (list Z) :=
  x ← aget rk i; y ← aget rk j; rk ← aset rk i y; aset rk j x.

(** [for (i = 0, j = 4 * rounds; i < j; i += 4, j -= 4)] *)
Fixpoint invert_order (fuel : nat) (rk : list Z) (i j : Z) : option (list Z) :=
  match fuel with
  | O => None
  | S fuel =>
      if i <? j then
        rk ← swap_words rk i j;
        rk ← swap_words rk (i + 1) (j + 1);
        rk ← swap_words rk (i + 2) (j + 2);
        rk ← swap_words rk (i + 3) (j + 3);
        invert_order fuel rk (i + 4) (j - 4)
      else Some rk
  end.

(** The inverse MixColumn transform of one word. *)
Definition inv_mix_word (x : Z) : Z :=
  Z.lxor (Z.lxor (Z.lxor
    (td0 T (Z.land (te4 T (ix3 x)) 0xff))
    (td1 T (Z.land (te4 T (ix2 x)) 0xff)))
    (td2 T (Z.land (te4 T (ix1 x)) 0xff)))
    (td3 T (Z.land (te4 T (ix0 x)) 0xff)).

Definition inv_mix_step (rk : list Z) (o : Z) : option (list Z) :=
  x ← aget rk o; aset rk o (inv_mix_word x).

(** [for (i = 1; i < rounds; i++) { rk += 4; ... }] *)
Fixpoint inv_mix_keys (fuel : nat) (rk : list Z) (o i nr : Z) : option (list Z) :=
  match fuel with
  | O => None
  | S fuel =>
      if i <? nr then
        let o := o + 4 in
        rk ← inv_mix_step rk o;
        rk ← inv_mix_step rk (o + 1);
        rk ← inv_mix_step rk (o + 2);
        rk ← inv_mix_step rk (o + 3);
        inv_mix_keys fuel rk o (i + 1) nr
      else Some rk
  end.

Definition aes_set_decrypt_key (userKey : option (list Z)) (bits : Z) (key : option AES_KEY) :
    option (Z * option AES_KEY) :=
  '(status, key) ← aes_set_encrypt_key userKey bits key;
  if status <? 0 then Some (status, key) else
  k ← key;
  rk ← invert_order 8 (rd_key k) 0 (4 * rounds k);
  rk ← inv_mix_keys 14 rk 0 1 (rounds k);
  Some (0, Some (AesKey rk (rounds k))).

(** *** Rounds *)

Definition te_word (a b c d k : Z) : Z :=
  Z.lxor (Z.lxor (Z.lxor (Z.lxor (te0 T (ix3 a)) (te1 T (ix2 b))) (te2 T (ix1 c))) (te3 T (ix0 d))) k.

Definition td_word (a b c d k : Z) : Z :=
  Z.lxor (Z.lxor (Z.lxor (Z.lxor (td0 T (ix3 a)) (td1 T (ix2 b))) (td2 T (ix1 c))) (td3 T (ix0 d))) k.

(** A full round with the round key at [rk + o]. *)
Definition enc_round (rk : list Z) (o : Z) (s : words) : option words :=
  let '(s0, s1, s2, s3) := s in
  '(k0, k1, k2, k3) ← load4 rk o;
  Some (te_word s0 s1 s2 s3 k0, te_word s1 s2 s3 s0 k1, te_word s2 s3 s0 s1 k2, te_word s3 s0 s1 s2 k3).

Definition dec_round (rk : list Z) (o : Z) (s : words) : option words :=
  let '(s0, s1, s2, s3) := s in
  '(k0, k1, k2, k3) ← load4 rk o;
  Some (td_word s0 s3 s2 s1 k0, td_word s1 s0 s3 s2 k1, td_word s2 s1 s0 s3 k2, td_word s3 s2 s1 s0 k3).

(** The rolled loop, two rounds per iteration; it ends with the state in
    [t0] .. [t3] and the pointer [rk] at the last round key. *)
Fixpoint round_loop (round : list Z → Z → words → option words)
    (fuel : nat) (rk : list Z) (o r : Z) (s : words) : option (words * Z) :=
  match fuel with
  | O => None
  | S fuel =>
      t ← round rk (o + 4) s;
      let o := o + 8 in
      if r - 1 =? 0 then Some (t, o) else
      s ← round rk o t;
      round_loop round fuel rk o (r - 1) s
  end.

(** The unrolled rounds. *)
Definition unrolled (round : list Z → Z → words → option words)
    (rk : list Z) (nr : Z) (s : words) : option (words * Z) :=
  t ← round rk 4 s; s ← round rk 8 t;
  t ← round rk 12 s; s ← round rk 16 t;
  t ← round rk 20 s; s ← round rk 24 t;
  t ← round rk 28 s; s ← round rk 32 t;
  t ← round rk 36 s;
  t ← (if 10 <? nr then
         s ← round rk 40 t; t ← round rk 44 s;
         if 12 <? nr then s ← round rk 48 t; round rk 52 s else Some t
       else Some t);
  Some (t, Z.shiftl nr 2).

Definition te_last (a b c d k : Z) : Z :=
  Z.lxor (Z.lxor (Z.lxor (Z.lxor
    (Z.land (te4 T (ix3 a)) 0xff000000)
    (Z.land (te4 T (ix2 b)) 0x00ff0000))
    (Z.land (te4 T (ix1 c)) 0x0000ff00))
    (Z.land (te4 T (ix0 d)) 0x000000ff)) k.

Definition td_last (a b c d k : Z) : Z :=
  Z.lxor (Z.lxor (Z.lxor (Z.lxor
    (Z.land (td4 T (ix3 a)) 0xff000000)
    (Z.land (td4 T (ix2 b)) 0x00ff0000))
    (Z.land (td4 T (ix1 c)) 0x0000ff00))
    (Z.land (td4 T (ix0 d)) 0x000000ff)) k.

(** The state of a block with the initial round key added. *)
Definition load_block (block rk : list Z) : option words :=
  '(k0, k1, k2, k3) ← load4 rk 0;
  b0 ← GETU32 block 0; b1 ← GETU32 block 4; b2 ← GETU32 block 8; b3 ← GETU32 block 12;
  Some (Z.lxor b0 k0, Z.lxor b1 k1, Z.lxor b2 k2, Z.lxor b3 k3).

(** *** Blocks *)

(** MODULE_CRYPTO_AES_UNROLL, and the uninitialised key schedule on the stack. *)
Variables (unroll : bool) (stale : AES_KEY).

Definition full_rounds (round : list Z → Z → words → option words) (rk : list Z) (nr : Z) (s : words) :=
  if unroll then unrolled round rk nr s else round_loop round 8 rk 0 (Z.shiftr nr 1) s.

(** The last round and its stores. *)
Definition enc_last (t k : words) : list Z :=
  let '(t0, t1, t2, t3) := t in let '(k0, k1, k2, k3) := k in
  PUTU32 (te_last t0 t1 t2 t3 k0) ++ PUTU32 (te_last t1 t2 t3 t0 k1) ++
  PUTU32 (te_last t2 t3 t0 t1 k2) ++ PUTU32 (te_last t3 t0 t1 t2 k3).

Definition dec_last (t k : words) : list Z :=
  let '(t0, t1, t2, t3) := t in let '(k0, k1, k2, k3) := k in
  PUTU32 (td_last t0 t3 t2 t1 k0) ++ PUTU32 (td_last t1 t0 t3 t2 k1) ++
  PUTU32 (td_last t2 t1 t0 t3 k2) ++ PUTU32 (td_last t3 t2 t1 t0 k3).

(** From the initial round key to the stores. *)
Definition process (round : list Z → Z → words → option words) (last : words → words → list Z)
    (key : AES_KEY) (block : list Z) : option (list Z) :=
  s ← load_block block (rd_key key);
  '(t, o) ← full_rounds round (rd_key key) (rounds key) s;
  k ← load4 (rd_key key) o;
  Some (last t k).

(** The result and the bytes written to [cipherBlock]. *)
Definition aes_encrypt (context plainBlock : list Z) : option (Z * list Z) :=
  '(res, aeskey) ← aes_set_encrypt_key (Some context) (AES_KEY_SIZE * 8) (Some stale);
  if res <? 0 then Some (res, []) else
  key ← aeskey;
  out ← process enc_round enc_last key plainBlock;
  Some (1, out).

Definition aes_decrypt (context cipherBlock : list Z) : option (Z * list Z) :=
  '(res, aeskey) ← aes_set_decrypt_key (Some context) (AES_KEY_SIZE * 8) (Some stale);
  if res <? 0 then Some (res, []) else
  key ← aeskey;
  out ← process dec_round dec_last key cipherBlock;
  Some (1, out).
End Code.

(** ** Initialisation *)

Definition CIPHERS_MAX_KEY_SIZE : Z := 20.
Definition CIPHER_ERR_BAD_CONTEXT_SIZE : Z := 0.
Definition CIPHER_INIT_SUCCESS : Z := 1.

(** [context[i] = key[f i]] for the [n] bytes from [i] on. *)
Fixpoint fill_context (n : nat) (f : Z → Z) (key context : list Z) (i : Z) : option (list Z) :=
  match n with
  | O => Some context
  | S n => x ← aget key (f i); context ← aset context i x; fill_context n f key context (i + 1)
  end.

(** The context has CIPHER_MAX_CONTEXT_SIZE bytes; [i % 0] has no value. *)
Definition aes_init (context key : list Z) (keySize : Z) : option (Z * list Z) :=
  if Z.of_nat (length context) <? AES_KEY_SIZE then Some (CIPHER_ERR_BAD_CONTEXT_SIZE, context) else
  if keySize <? CIPHERS_MAX_KEY_SIZE then
    if keySize =? 0 then None else
    c ← fill_context 20 (λ i, i mod keySize) key context 0; Some (CIPHER_INIT_SUCCESS, c)
  else c ← fill_context 20 (λ i, i) key context 0; Some (CIPHER_INIT_SUCCESS, c).

Example aes_fips197_vector :
  let key := seqZ 0 16 in
  let plain := (λ i, i * 17) <$> seqZ 0 16 in
  aes_encrypt computed_tables false (AesKey (replicate 60 0) 0) key plain =
  Some (1, [0x69; 0xc4; 0xe0; 0xd8; 0x6a; 0x7b; 0x04; 0x30; 0xd8; 0xcd; 0xb7; 0x80; 0x70; 0xb4; 0xc5; 0x5a]).
Proof. vm_compute. reflexivity. Qed.
