(* ===== verification/AesProof.v ===== *)
(** * AES implements FIPS-197

    The lookup tables hold the S-boxes and their products; the key expansion of
    all key sizes, both round loops and the block functions agree with [AesSpec]. *)

From Stdlib Require Import ZifyNat.
From S2P Require Import Prelude Bytes AesSpec AesTables Aes.

(** ** The tables *)

Definition pack (x : col) : Z := let '(a, b, c, d) := x in word4 a b c d.

(** What the tables hold, in terms of the S-box and products in GF(2^8). *)
Record tables_ok (T : aes_tables) : Prop := {
  ok_te0 x : byte x → te0 T x = let s := sbox x in word4 (gmul 2 s) s s (gmul 3 s);
  ok_te1 x : byte x → te1 T x = let s := sbox x in word4 (gmul 3 s) (gmul 2 s) s s;
  ok_te2 x : byte x → te2 T x = let s := sbox x in word4 s (gmul 3 s) (gmul 2 s) s;
  ok_te3 x : byte x → te3 T x = let s := sbox x in word4 s s (gmul 3 s) (gmul 2 s);
  ok_te4 x : byte x → te4 T x = let s := sbox x in word4 s s s s;
  ok_td0 x : byte x → td0 T x = let s := inv_sbox x in word4 (gmul 14 s) (gmul 9 s) (gmul 13 s) (gmul 11 s);
  ok_td1 x : byte x → td1 T x = let s := inv_sbox x in word4 (gmul 11 s) (gmul 14 s) (gmul 9 s) (gmul 13 s);
  ok_td2 x : byte x → td2 T x = let s := inv_sbox x in word4 (gmul 13 s) (gmul 11 s) (gmul 14 s) (gmul 9 s);
  ok_td3 x : byte x → td3 T x = let s := inv_sbox x in word4 (gmul 9 s) (gmul 13 s) (gmul 11 s) (gmul 14 s);
  ok_td4 x : byte x → td4 T x = let s := inv_sbox x in word4 s s s s
}.

(** Two functions that agree on all bytes. *)
Lemma byte_fun_eq (f g : Z → Z) :
  forallb (λ x, f x =? g x) (seqZ 0 256) = true → ∀ x, byte x → f x = g x.
Proof. intros H x Hx. pose proof (byte_check _ H x Hx) as E. by apply Z.eqb_eq in E. Qed.

Lemma computed_tables_ok : tables_ok computed_tables.
Proof. split; apply byte_fun_eq; vm_compute; reflexivity. Qed.

Lemma precalculated_tables_ok : tables_ok precalculated_tables.
Proof. split; apply byte_fun_eq; vm_compute; reflexivity. Qed.

(** ** Words and columns *)

Section Correct.
Context (T : aes_tables) (HT : tables_ok T).

#[local] Abbreviation ix3 x := (Z.shiftr x 24).
#[local] Abbreviation ix2 x := (Z.land (Z.shiftr x 16) 0xff).
#[local] Abbreviation ix1 x := (Z.land (Z.shiftr x 8) 0xff).
#[local] Abbreviation ix0 x := (Z.land x 0xff).

Lemma pack_cxor x y : Z.lxor (pack x) (pack y) = pack (cxor x y).
Proof. destruct x as [[[? ?] ?] ?], y as [[[? ?] ?] ?]. apply word4_lxor. Qed.

Lemma pack_ix a b c d : col_ok (a, b, c, d) →
  ix3 (pack (a, b, c, d)) = a ∧ ix2 (pack (a, b, c, d)) = b ∧
  ix1 (pack (a, b, c, d)) = c ∧ ix0 (pack (a, b, c, d)) = d.
Proof.
  intros (Ha & Hb & Hc & Hd). unfold pack.
  by rewrite word4_byte3, word4_byte2, word4_byte1, word4_byte0.
Qed.

(** Sums of words that each hold one byte. *)
Lemma word4_sum a b c d k :
  Z.lxor (Z.lxor (Z.lxor (Z.lxor (word4 a 0 0 0) (word4 0 b 0 0)) (word4 0 0 c 0)) (word4 0 0 0 d)) k =
  Z.lxor (word4 a b c d) k.
Proof. f_equal. by rewrite !word4_lxor, ?Z.lxor_0_r, ?Z.lxor_0_l. Qed.

Lemma te4_masks n : byte n →
  Z.land (te4 T n) 0xff000000 = word4 (sbox n) 0 0 0 ∧ Z.land (te4 T n) 0x00ff0000 = word4 0 (sbox n) 0 0 ∧
  Z.land (te4 T n) 0x0000ff00 = word4 0 0 (sbox n) 0 ∧ Z.land (te4 T n) 0x000000ff = word4 0 0 0 (sbox n).
Proof.
  intros Hn. pose proof (sbox_byte n Hn). rewrite (ok_te4 T HT n Hn). cbv zeta.
  by rewrite word4_mask3, word4_mask2, word4_mask1, word4_mask0.
Qed.

Lemma td4_masks n : byte n → byte (inv_sbox n) →
  Z.land (td4 T n) 0xff000000 = word4 (inv_sbox n) 0 0 0 ∧
  Z.land (td4 T n) 0x00ff0000 = word4 0 (inv_sbox n) 0 0 ∧
  Z.land (td4 T n) 0x0000ff00 = word4 0 0 (inv_sbox n) 0 ∧
  Z.land (td4 T n) 0x000000ff = word4 0 0 0 (inv_sbox n).
Proof.
  intros Hn Hs. rewrite (ok_td4 T HT n Hn). cbv zeta.
  by rewrite word4_mask3, word4_mask2, word4_mask1, word4_mask0.
Qed.

Lemma te4_bytes a b c d k : byte a → byte b → byte c → byte d →
  Z.lxor (Z.lxor (Z.lxor (Z.lxor (Z.land (te4 T a) 0xff000000) (Z.land (te4 T b) 0x00ff0000))
    (Z.land (te4 T c) 0x0000ff00)) (Z.land (te4 T d) 0x000000ff)) k =
  Z.lxor (pack (csub sbox (a, b, c, d))) k.
Proof.
  intros Ha Hb Hc Hd. rewrite (proj1 (te4_masks a Ha)), (proj1 (proj2 (te4_masks b Hb))),
    (proj1 (proj2 (proj2 (te4_masks c Hc)))), (proj2 (proj2 (proj2 (te4_masks d Hd)))).
  cbn [csub pack].
  apply word4_sum.
Qed.

Lemma td4_bytes a b c d k : byte a → byte b → byte c → byte d →
  byte (inv_sbox a) → byte (inv_sbox b) → byte (inv_sbox c) → byte (inv_sbox d) →
  Z.lxor (Z.lxor (Z.lxor (Z.lxor (Z.land (td4 T a) 0xff000000) (Z.land (td4 T b) 0x00ff0000))
    (Z.land (td4 T c) 0x0000ff00)) (Z.land (td4 T d) 0x000000ff)) k =
  Z.lxor (pack (csub inv_sbox (a, b, c, d))) k.
Proof.
  intros Ha Hb Hc Hd Ia Ib Ic Id. rewrite (proj1 (td4_masks a Ha Ia)), (proj1 (proj2 (td4_masks b Hb Ib))),
    (proj1 (proj2 (proj2 (td4_masks c Hc Ic)))), (proj2 (proj2 (proj2 (td4_masks d Hd Id)))).
  cbn [csub pack].
  apply word4_sum.
Qed.

(** The table sums of a round are MixColumns after SubBytes. *)
Lemma te_bytes a b c d k : byte a → byte b → byte c → byte d →
  Z.lxor (Z.lxor (Z.lxor (Z.lxor (te0 T a) (te1 T b)) (te2 T c)) (te3 T d)) k =
  Z.lxor (pack (mix_column (csub sbox (a, b, c, d)))) k.
Proof.
  intros Ha Hb Hc Hd. f_equal.
  rewrite (ok_te0 T HT a Ha), (ok_te1 T HT b Hb), (ok_te2 T HT c Hc), (ok_te3 T HT d Hd). cbv zeta.
  rewrite !word4_lxor. unfold mix_column, circulant, pack, csub. cbv beta zeta iota. rewrite !gmul_1.
  f_equal; xor_solve.
Qed.

Lemma td_bytes a b c d k : byte a → byte b → byte c → byte d →
  Z.lxor (Z.lxor (Z.lxor (Z.lxor (td0 T a) (td1 T b)) (td2 T c)) (td3 T d)) k =
  Z.lxor (pack (inv_mix_column (csub inv_sbox (a, b, c, d)))) k.
Proof.
  intros Ha Hb Hc Hd. f_equal.
  rewrite (ok_td0 T HT a Ha), (ok_td1 T HT b Hb), (ok_td2 T HT c Hc), (ok_td3 T HT d Hd). cbv zeta.
  rewrite !word4_lxor. unfold inv_mix_column, circulant, pack, csub. cbv beta zeta iota.
  f_equal; xor_solve.
Qed.

Section Columns.
Context (a0 b0 c0 d0 a1 b1 c1 d1 a2 b2 c2 d2 a3 b3 c3 d3 : Z) (k : col).
Context (H0 : col_ok (a0, b0, c0, d0)) (H1 : col_ok (a1, b1, c1, d1))
  (H2 : col_ok (a2, b2, c2, d2)) (H3 : col_ok (a3, b3, c3, d3)).
#[local] Abbreviation w0 := (pack (a0, b0, c0, d0)).
#[local] Abbreviation w1 := (pack (a1, b1, c1, d1)).
#[local] Abbreviation w2 := (pack (a2, b2, c2, d2)).
#[local] Abbreviation w3 := (pack (a3, b3, c3, d3)).

Lemma te_word_pack :
  te_word T w0 w1 w2 w3 (pack k) = pack (cxor (mix_column (csub sbox (a0, b1, c2, d3))) k).
Proof.
  destruct H0 as (? & ? & ? & ?), H1 as (? & ? & ? & ?), H2 as (? & ? & ? & ?), H3 as (? & ? & ? & ?).
  unfold te_word. cbn [pack]. rewrite word4_byte3, word4_byte2, word4_byte1, word4_byte0 by done.
  change (let '(a, b, c, d) := k in word4 a b c d) with (pack k).
  by rewrite te_bytes, pack_cxor.
Qed.

Lemma td_word_pack :
  td_word T w0 w1 w2 w3 (pack k) = pack (cxor (inv_mix_column (csub inv_sbox (a0, b1, c2, d3))) k).
Proof.
  destruct H0 as (? & ? & ? & ?), H1 as (? & ? & ? & ?), H2 as (? & ? & ? & ?), H3 as (? & ? & ? & ?).
  unfold td_word. cbn [pack]. rewrite word4_byte3, word4_byte2, word4_byte1, word4_byte0 by done.
  change (let '(a, b, c, d) := k in word4 a b c d) with (pack k).
  by rewrite td_bytes, pack_cxor.
Qed.

Lemma te_last_pack :
  te_last T w0 w1 w2 w3 (pack k) = pack (cxor (csub sbox (a0, b1, c2, d3)) k).
Proof.
  destruct H0 as (? & ? & ? & ?), H1 as (? & ? & ? & ?), H2 as (? & ? & ? & ?), H3 as (? & ? & ? & ?).
  unfold te_last. cbn [pack]. rewrite word4_byte3, word4_byte2, word4_byte1, word4_byte0 by done.
  change (let '(a, b, c, d) := k in word4 a b c d) with (pack k).
  by rewrite te4_bytes, pack_cxor.
Qed.

Lemma td_last_pack :
  td_last T w0 w1 w2 w3 (pack k) = pack (cxor (csub inv_sbox (a0, b1, c2, d3)) k).
Proof.
  destruct H0 as (? & ? & ? & ?), H1 as (? & ? & ? & ?), H2 as (? & ? & ? & ?), H3 as (? & ? & ? & ?).
  unfold td_last. cbn [pack]. rewrite word4_byte3, word4_byte2, word4_byte1, word4_byte0 by done.
  change (let '(a, b, c, d) := k in word4 a b c d) with (pack k).
  rewrite td4_bytes by (done || by apply inv_sbox_byte). apply pack_cxor.
Qed.
End Columns.

(** ** Rounds *)

Definition pack4 (s : state) : words := let '(c0, c1, c2, c3) := s in (pack c0, pack c1, pack c2, pack c3).

Definition enc_step (k s : state) : state := add_round_key k (mix_columns (shift_rows (sub_bytes s))).
(** A round of the equivalent inverse cipher. *)
Definition dec_step (k s : state) : state := add_round_key k (inv_mix_columns (inv_sub_bytes (inv_shift_rows s))).

Lemma enc_round_ok rk o k s : state_ok s → load4 rk o = Some (pack4 k) →
  enc_round T rk o (pack4 s) = Some (pack4 (enc_step k s)).
Proof.
  intros Hs Hk. destruct k as [[[k0 k1] k2] k3].
  open_state s. destruct Hs as (? & ? & ? & ?).
  unfold enc_round, pack4 at 1. rewrite Hk. cbn [mbind option_bind pack4].
  by rewrite !te_word_pack.
Qed.

Lemma dec_round_ok rk o k s : state_ok s → load4 rk o = Some (pack4 k) →
  dec_round T rk o (pack4 s) = Some (pack4 (dec_step k s)).
Proof.
  intros Hs Hk. destruct k as [[[k0 k1] k2] k3].
  open_state s. destruct Hs as (? & ? & ? & ?).
  unfold dec_round, pack4 at 1. rewrite Hk. cbn [mbind option_bind pack4].
  by rewrite !td_word_pack.
Qed.

Lemma enc_step_ok k s : state_ok k → state_ok s → state_ok (enc_step k s).
Proof.
  intros Hk Hs. apply add_round_key_ok; [done|]. apply smap_ok; [by apply mix_column_ok|].
  by apply shift_rows_ok, sub_bytes_ok.
Qed.

Lemma dec_step_ok k s : state_ok k → state_ok s → state_ok (dec_step k s).
Proof.
  intros Hk Hs. apply add_round_key_ok; [done|]. apply smap_ok; [by apply inv_mix_column_ok|].
  apply smap_ok; [intros x; by apply csub_ok, inv_sbox_byte|by apply inv_shift_rows_ok].
Qed.

(** The two round loops, for either direction. *)
Section Loops.
Context (round : list Z → Z → words → option words) (step : state → state → state).
Context (round_ok : ∀ rk o k s, state_ok s → load4 rk o = Some (pack4 k) →
  round rk o (pack4 s) = Some (pack4 (step k s))).
Context (step_ok : ∀ k s, state_ok k → state_ok s → state_ok (step k s)).

(** The round keys of a schedule with [nr] rounds. *)
Context (rk : list Z) (kk : nat → state) (nr : nat).
Context (Hkk : ∀ i, (i ≤ nr)%nat → load4 rk (4 * Z.of_nat i) = Some (pack4 (kk i)) ∧ state_ok (kk i)).

Fixpoint steps (j n : nat) (s : state) : state :=
  match n with O => s | S n => steps (S j) n (step (kk j) s) end.

Lemma round_at j s : (j ≤ nr)%nat → state_ok s →
  round rk (4 * Z.of_nat j) (pack4 s) = Some (pack4 (step (kk j) s)) ∧ state_ok (step (kk j) s).
Proof. intros Hj Hs. destruct (Hkk j Hj). split; [by apply round_ok|by apply step_ok]. Qed.

Lemma round_loop_ok r : ∀ fuel j s, (r < fuel)%nat → (j + 2 * S r ≤ nr)%nat → state_ok s →
  round_loop round fuel rk (4 * Z.of_nat j) (Z.of_nat (S r)) (pack4 s) =
    Some (pack4 (steps (S j) (S (2 * r)) s), 4 * Z.of_nat (j + 2 * S r)).
Proof.
  induction r as [|r IH]; intros fuel j s Hf Hj Hs; (destruct fuel as [|fuel]; [lia|]); cbn [round_loop].
  - destruct (round_at (S j) s) as [Hr _]; [lia|done|].
    replace (4 * Z.of_nat (S j)) with (4 * Z.of_nat j + 4) in Hr by lia. rewrite Hr. mred.
    change (Z.of_nat 1 - 1 =? 0) with true. cbn beta iota. repeat f_equal. lia.
  - destruct (round_at (S j) s) as [Hr Hs1]; [lia|done|].
    replace (4 * Z.of_nat (S j)) with (4 * Z.of_nat j + 4) in Hr by lia. rewrite Hr. mred.
    rewrite (proj2 (Z.eqb_neq _ _)) by lia.
    destruct (round_at (S (S j)) _ ltac:(lia) Hs1) as [Hr2 Hs2].
    replace (4 * Z.of_nat (S (S j))) with (4 * Z.of_nat j + 8) in Hr2 by lia. rewrite Hr2. mred.
    replace (4 * Z.of_nat j + 8) with (4 * Z.of_nat (S (S j))) by lia.
    replace (Z.of_nat (S (S r)) - 1) with (Z.of_nat (S r)) by lia.
    rewrite IH by (done || lia). replace (2 * S r)%nat with (S (S (2 * r))) by lia.
    replace (S (S j) + S (S (2 * r)))%nat with (j + 2 * S (S r))%nat by lia. done.
Qed.

Lemma unrolled_ok s : nr = 10%nat ∨ nr = 12%nat ∨ nr = 14%nat → state_ok s →
  unrolled round rk (Z.of_nat nr) (pack4 s) = Some (pack4 (steps 1 (nr - 1) s), 4 * Z.of_nat nr).
Proof.
  intros Hnr Hs. unfold unrolled.
  assert (∀ j, (j ≤ nr)%nat → ∀ s o, o = 4 * Z.of_nat j → state_ok s →
    round rk o (pack4 s) = Some (pack4 (step (kk j) s))) as Hr.
  { intros j Hj s' o -> Hs'. by apply round_at. }
  assert (∀ j s, (j ≤ nr)%nat → state_ok s → state_ok (step (kk j) s)) as Hok.
  { intros j s' Hj Hs'. by apply round_at. }
  rewrite (Hr 1%nat) by (lia || eauto). mred.
  rewrite (Hr 2%nat) by (lia || (repeat apply Hok; lia || done)). mred.
  rewrite (Hr 3%nat) by (lia || (repeat apply Hok; lia || done)). mred.
  rewrite (Hr 4%nat) by (lia || (repeat apply Hok; lia || done)). mred.
  rewrite (Hr 5%nat) by (lia || (repeat apply Hok; lia || done)). mred.
  rewrite (Hr 6%nat) by (lia || (repeat apply Hok; lia || done)). mred.
  rewrite (Hr 7%nat) by (lia || (repeat apply Hok; lia || done)). mred.
  rewrite (Hr 8%nat) by (lia || (repeat apply Hok; lia || done)). mred.
  rewrite (Hr 9%nat) by (lia || (repeat apply Hok; lia || done)). mred.
  rewrite Z.shiftl_mul_pow2 by lia. change (2 ^ 2) with 4. rewrite (Z.mul_comm _ 4).
  destruct Hnr as [Hnr|[Hnr|Hnr]]; rewrite Hnr; [done|..];
    (rewrite (Hr 10%nat) by (lia || (repeat apply Hok; lia || done)); mred;
     rewrite (Hr 11%nat) by (lia || (repeat apply Hok; lia || done)); mred).
  - done.
  - rewrite (Hr 12%nat) by (lia || (repeat apply Hok; lia || done)). mred.
    rewrite (Hr 13%nat) by (lia || (repeat apply Hok; lia || done)). done.
Qed.

(** Unrolled or not, the rounds are the same. *)
Lemma full_rounds_ok unroll s : nr = 10%nat ∨ nr = 12%nat ∨ nr = 14%nat → state_ok s →
  full_rounds unroll round rk (Z.of_nat nr) (pack4 s) = Some (pack4 (steps 1 (nr - 1) s), 4 * Z.of_nat nr).
Proof.
  intros Hnr Hs. unfold full_rounds. destruct unroll; [by apply unrolled_ok|].
  assert (∃ r, nr = (2 * S r)%nat ∧ (r < 8)%nat) as (r & Hr & Hr8)
    by (destruct Hnr as [->|[->| ->]]; [exists 4%nat|exists 5%nat|exists 6%nat]; lia).
  rewrite Hr, Z.shiftr_div_pow2 by lia.
  replace (Z.of_nat (2 * S r) / 2 ^ 1) with (Z.of_nat (S r)) by (change (2 ^ 1) with 2; Z.div_mod_to_equations; lia).
  rewrite (round_loop_ok r 8 0) by (done || lia). repeat f_equal; lia.
Qed.
End Loops.


(** ** Key expansion *)

(** The schedule holds the words [ws] and still unused cells. *)
Definition sched (ws : list col) (tl : list Z) : list Z := (pack <$> ws) ++ tl.

Lemma sched_get ws tl i : (i < length ws)%nat → aget (sched ws tl) (Z.of_nat i) = Some (pack (nth i ws col0)).
Proof.
  intros Hi. unfold aget, sched. rewrite (proj2 (Z.leb_le 0 _)), Nat2Z.id by lia.
  rewrite lookup_app_l by (by rewrite length_fmap). rewrite list_lookup_fmap.
  destruct (lookup_lt_is_Some_2 ws i Hi) as [w Hw]. by rewrite Hw, (nth_lookup_Some _ _ _ _ Hw).
Qed.

Lemma sched_put ws x tl w :
  aset (sched ws (x :: tl)) (Z.of_nat (length ws)) (pack w) = Some (sched (ws ++ [w]) tl).
Proof.
  unfold sched. rewrite aset_in by (rewrite length_app, length_fmap; simpl; lia). rewrite Nat2Z.id.
  rewrite insert_app_r_alt by (rewrite length_fmap; lia). rewrite length_fmap, Nat.sub_diag.
  by rewrite fmap_app, <- app_assoc.
Qed.

Lemma rcon_get i : (i < 10)%nat → aget rcon (Z.of_nat i) = Some (pack (rcon_word (S i))).
Proof. intros Hi. do 10 (destruct i as [|i]; [reflexivity|]). lia. Qed.

Lemma xtime_iter_byte n : byte (Nat.iter n xtime 1).
Proof. induction n; [done|]. by apply xtime_byte. Qed.

Lemma next_word_ok nk ws : Forall col_ok ws → col_ok (next_word nk ws).
Proof.
  intros Hws.
  assert (∀ i, col_ok (nth i ws col0)) as Hn.
  { intros i. destruct (nth_in_or_default i ws col0) as [Hin| ->]; [|done].
    rewrite Forall_forall in Hws. by apply Hws, list_elem_of_In. }
  unfold next_word. apply cxor_ok; [done|]. repeat case_match; try done.
  - apply cxor_ok; [apply csub_ok; [by apply sbox_byte|]|].
    + specialize (Hn (length ws - 1)%nat). destruct (nth _ ws col0) as [[[? ?] ?] ?].
      destruct Hn as (? & ? & ? & ?). done.
    + split; [apply xtime_iter_byte|done].
  - apply csub_ok; [by apply sbox_byte|done].
Qed.

(** One word of the schedule: the three kinds of steps of the code. *)
Section Step.
Context (nk : nat) (ws : list col) (x : Z) (tl : list Z) (d a t : Z).
Context (Hws : Forall col_ok ws) (Hnk : (0 < nk ≤ length ws)%nat).
Context (Hd : d = Z.of_nat (length ws)) (Ha : a = d - Z.of_nat nk) (Ht : t = d - 1).

Lemma get_a : aget (sched ws (x :: tl)) a = Some (pack (nth (length ws - nk) ws col0)).
Proof. rewrite Ha, Hd. replace (_ - _) with (Z.of_nat (length ws - nk)) by lia. apply sched_get. lia. Qed.

Lemma get_t : aget (sched ws (x :: tl)) t = Some (pack (nth (length ws - 1) ws col0)).
Proof. rewrite Ht, Hd. replace (_ - _) with (Z.of_nat (length ws - 1)) by lia. apply sched_get. lia. Qed.

Lemma col_ok_last : col_ok (nth (length ws - 1) ws col0).
Proof.
  rewrite Forall_forall in Hws. apply Hws, list_elem_of_In, nth_In. lia.
Qed.

Lemma core_step_ok i :
  (length ws mod nk = 0)%nat → (length ws / nk = S i)%nat → (i < 10)%nat →
  core_step T (sched ws (x :: tl)) d a t (Z.of_nat i) = Some (sched (ws ++ [next_word nk ws]) tl).
Proof.
  intros Hmod Hdiv Hi. unfold core_step. rewrite get_t, get_a, rcon_get by done. mred.
  rewrite Hd, <- (sched_put ws x tl). f_equal.
  unfold next_word. rewrite Hmod, Hdiv. cbn [Nat.eqb].
  set (y := nth (length ws - nk) ws col0). pose proof col_ok_last as Hok.
  destruct (nth (length ws - 1) ws col0) as [[[b0 b1] b2] b3]. destruct Hok as (? & ? & ? & ?).
  cbn [pack rot_word]. rewrite word4_byte3, word4_byte2, word4_byte1, word4_byte0 by done.
  rewrite <- !pack_cxor, <- (te4_bytes b1 b2 b3 b0) by done.
  xor_solve.
Qed.

Lemma sub_step_ok :
  (6 < nk)%nat → (length ws mod nk = 4)%nat →
  sub_step T (sched ws (x :: tl)) d a t = Some (sched (ws ++ [next_word nk ws]) tl).
Proof.
  intros H6 Hmod. unfold sub_step. rewrite get_t, get_a. mred.
  rewrite Hd, <- (sched_put ws x tl). f_equal.
  unfold next_word. rewrite Hmod. cbn [Nat.eqb]. rewrite (proj2 (Nat.ltb_lt 6 nk)) by done. cbn [andb].
  set (y := nth (length ws - nk) ws col0). pose proof col_ok_last as Hok.
  destruct (nth (length ws - 1) ws col0) as [[[b0 b1] b2] b3]. destruct Hok as (? & ? & ? & ?).
  cbn [pack]. rewrite word4_byte3, word4_byte2, word4_byte1, word4_byte0 by done.
  rewrite <- pack_cxor. change (csub sbox (b0, b1, b2, b3)) with (sbox b0, sbox b1, sbox b2, sbox b3).
  rewrite <- (Z.lxor_0_r (pack (sbox b0, sbox b1, sbox b2, sbox b3))).
  change (sbox b0, sbox b1, sbox b2, sbox b3) with (csub sbox (b0, b1, b2, b3)).
  rewrite <- (te4_bytes b0 b1 b2 b3) by done. xor_solve.
Qed.

Lemma xor_step_ok :
  (length ws mod nk ≠ 0)%nat → (6 < nk → length ws mod nk ≠ 4)%nat →
  xor_step (sched ws (x :: tl)) d a t = Some (sched (ws ++ [next_word nk ws]) tl).
Proof.
  intros H0 H4. unfold xor_step. rewrite get_t, get_a. mred.
  rewrite Hd, <- (sched_put ws x tl), pack_cxor. do 2 f_equal.
  unfold next_word. rewrite (proj2 (Nat.eqb_neq _ _)) by done.
  destruct (Nat.ltb_spec 6 nk) as [H6|]; [|done]. cbn [andb].
  by rewrite (proj2 (Nat.eqb_neq _ _)) by auto.
Qed.
End Step.

Lemma expand_key_add nk a b ws : expand_key nk (a + b) ws = expand_key nk b (expand_key nk a ws).
Proof. revert ws. induction a as [|a IH]; intros ws; [done|]. apply IH. Qed.

Lemma expand_key_ok nk n ws : Forall col_ok ws → Forall col_ok (expand_key nk n ws).
Proof.
  revert ws. induction n as [|n IH]; intros ws Hws; [done|]. apply IH, Forall_app. split; [done|].
  constructor; [by apply next_word_ok|done].
Qed.

Lemma expand_key_length nk n ws : length (expand_key nk n ws) = (length ws + n)%nat.
Proof. revert ws. induction n as [|n IH]; intros ws; simpl; [lia|]. rewrite IH, length_app. simpl. lia. Qed.

(** One more word of the schedule, in the code and in the standard. *)
Ltac nat_arith := rewrite ?expand_key_length; Zify.zify; Z.div_mod_to_equations; lia.

Lemma core_word nk n ws x tl d a t i :
  Forall col_ok ws → (0 < nk ≤ length ws)%nat → d = Z.of_nat (length ws + n) → a = d - Z.of_nat nk → t = d - 1 →
  ((length ws + n) mod nk = 0)%nat → ((length ws + n) / nk = S i)%nat → (i < 10)%nat →
  core_step T (sched (expand_key nk n ws) (x :: tl)) d a t (Z.of_nat i) =
    Some (sched (expand_key nk (S n) ws) tl).
Proof.
  intros Hws Hnk Hd Ha Ht Hm Hdiv Hi. replace (S n) with (n + 1)%nat by lia.
  rewrite expand_key_add. cbn [expand_key].
  apply core_step_ok; rewrite ?expand_key_length; try done; [by apply expand_key_ok|lia].
Qed.

Lemma sub_word nk n ws x tl d a t :
  Forall col_ok ws → (0 < nk ≤ length ws)%nat → d = Z.of_nat (length ws + n) → a = d - Z.of_nat nk → t = d - 1 →
  (6 < nk)%nat → ((length ws + n) mod nk = 4)%nat →
  sub_step T (sched (expand_key nk n ws) (x :: tl)) d a t = Some (sched (expand_key nk (S n) ws) tl).
Proof.
  intros Hws Hnk Hd Ha Ht H6 Hm. replace (S n) with (n + 1)%nat by lia.
  rewrite expand_key_add. cbn [expand_key].
  apply sub_step_ok; rewrite ?expand_key_length; try done; [by apply expand_key_ok|lia].
Qed.

Lemma xor_word nk n ws x tl d a t :
  Forall col_ok ws → (0 < nk ≤ length ws)%nat → d = Z.of_nat (length ws + n) → a = d - Z.of_nat nk → t = d - 1 →
  ((length ws + n) mod nk ≠ 0)%nat → (6 < nk → (length ws + n) mod nk ≠ 4)%nat →
  xor_step (sched (expand_key nk n ws) (x :: tl)) d a t = Some (sched (expand_key nk (S n) ws) tl).
Proof.
  intros Hws Hnk Hd Ha Ht H0 H4. replace (S n) with (n + 1)%nat by lia.
  rewrite expand_key_add. cbn [expand_key].
  apply xor_step_ok; rewrite ?expand_key_length; try done; lia.
Qed.

(** Take the next cell of the unused part. *)
Ltac next_cell tl := destruct tl as [|? tl]; [simpl in *; lia|].

Ltac word_by lem tl := next_cell tl; rewrite lem by first [done|lia|nat_arith]; mred.

(** One iteration of each loop. *)
Lemma expand128_round m i ws tl :
  (i < 10)%nat → length ws = (4 * S i)%nat → Forall col_ok ws → (4 ≤ length tl)%nat →
  expand128 T (S m) (sched ws tl) (4 * Z.of_nat i) (Z.of_nat i) =
    let rk := sched (expand_key 4 4 ws) (drop 4 tl) in
    if Z.of_nat i + 1 =? 10 then Some rk else expand128 T m rk (4 * Z.of_nat i + 4) (Z.of_nat i + 1).
Proof.
  intros Hi Hlen Hws Htl. change (sched ws tl) with (sched (expand_key 4 0 ws) tl).
  unfold expand128 at 1. fold (expand128 T).
  word_by core_word tl. do 3 word_by xor_word tl. done.
Qed.

Lemma expand192_round m i ws tl :
  (i < 8)%nat → length ws = (6 * S i)%nat → Forall col_ok ws → (4 ≤ length tl)%nat →
  (i + 1 ≠ 8 → 6 ≤ length tl)%nat →
  expand192 T (S m) (sched ws tl) (6 * Z.of_nat i) (Z.of_nat i) =
    if Z.of_nat i + 1 =? 8 then Some (sched (expand_key 6 4 ws) (drop 4 tl))
    else expand192 T m (sched (expand_key 6 6 ws) (drop 6 tl)) (6 * Z.of_nat i + 6) (Z.of_nat i + 1).
Proof.
  intros Hi Hlen Hws Htl Htl6. change (sched ws tl) with (sched (expand_key 6 0 ws) tl).
  unfold expand192 at 1. fold (expand192 T).
  word_by core_word tl. do 3 word_by xor_word tl.
  destruct (Z.eqb_spec (Z.of_nat i + 1) 8); [done|]. do 2 word_by xor_word tl. done.
Qed.

Lemma expand256_round m i ws tl :
  (i < 7)%nat → length ws = (8 * S i)%nat → Forall col_ok ws → (4 ≤ length tl)%nat →
  (i + 1 ≠ 7 → 8 ≤ length tl)%nat →
  expand256 T (S m) (sched ws tl) (8 * Z.of_nat i) (Z.of_nat i) =
    if Z.of_nat i + 1 =? 7 then Some (sched (expand_key 8 4 ws) (drop 4 tl))
    else expand256 T m (sched (expand_key 8 8 ws) (drop 8 tl)) (8 * Z.of_nat i + 8) (Z.of_nat i + 1).
Proof.
  intros Hi Hlen Hws Htl Htl8. change (sched ws tl) with (sched (expand_key 8 0 ws) tl).
  unfold expand256 at 1. fold (expand256 T).
  word_by core_word tl. do 3 word_by xor_word tl.
  destruct (Z.eqb_spec (Z.of_nat i + 1) 7); [done|]. word_by sub_word tl. do 3 word_by xor_word tl. done.
Qed.

Lemma expand128_ok m : ∀ i ws tl,
  (i + S m = 10)%nat → length ws = (4 * S i)%nat → Forall col_ok ws → (4 * S m ≤ length tl)%nat →
  expand128 T (S m) (sched ws tl) (4 * Z.of_nat i) (Z.of_nat i) =
    Some (sched (expand_key 4 (4 * S m) ws) (drop (4 * S m) tl)).
Proof.
  induction m as [|m IH]; intros i ws tl Hi Hlen Hws Htl; rewrite expand128_round by (done || lia); cbv zeta.
  - by rewrite (proj2 (Z.eqb_eq _ _)) by lia.
  - rewrite (proj2 (Z.eqb_neq _ _)) by lia.
    replace (4 * Z.of_nat i + 4) with (4 * Z.of_nat (S i)) by lia.
    replace (Z.of_nat i + 1) with (Z.of_nat (S i)) by lia.
    rewrite IH by (rewrite ?expand_key_length, ?length_drop; first [lia|by apply expand_key_ok]).
    rewrite <- expand_key_add, drop_drop. do 2 f_equal; f_equal; lia.
Qed.

Lemma expand192_ok m : ∀ i ws tl,
  (i + S m = 8)%nat → length ws = (6 * S i)%nat → Forall col_ok ws → (6 * m + 4 ≤ length tl)%nat →
  expand192 T (S m) (sched ws tl) (6 * Z.of_nat i) (Z.of_nat i) =
    Some (sched (expand_key 6 (6 * m + 4) ws) (drop (6 * m + 4) tl)).
Proof.
  induction m as [|m IH]; intros i ws tl Hi Hlen Hws Htl; rewrite expand192_round by (done || lia).
  - by rewrite (proj2 (Z.eqb_eq _ _)) by lia.
  - rewrite (proj2 (Z.eqb_neq _ _)) by lia.
    replace (6 * Z.of_nat i + 6) with (6 * Z.of_nat (S i)) by lia.
    replace (Z.of_nat i + 1) with (Z.of_nat (S i)) by lia.
    rewrite IH by (rewrite ?expand_key_length, ?length_drop; first [lia|by apply expand_key_ok]).
    rewrite <- expand_key_add, drop_drop. do 2 f_equal; f_equal; lia.
Qed.

Lemma expand256_ok m : ∀ i ws tl,
  (i + S m = 7)%nat → length ws = (8 * S i)%nat → Forall col_ok ws → (8 * m + 4 ≤ length tl)%nat →
  expand256 T (S m) (sched ws tl) (8 * Z.of_nat i) (Z.of_nat i) =
    Some (sched (expand_key 8 (8 * m + 4) ws) (drop (8 * m + 4) tl)).
Proof.
  induction m as [|m IH]; intros i ws tl Hi Hlen Hws Htl; rewrite expand256_round by (done || lia).
  - by rewrite (proj2 (Z.eqb_eq _ _)) by lia.
  - rewrite (proj2 (Z.eqb_neq _ _)) by lia.
    replace (8 * Z.of_nat i + 8) with (8 * Z.of_nat (S i)) by lia.
    replace (Z.of_nat i + 1) with (Z.of_nat (S i)) by lia.
    rewrite IH by (rewrite ?expand_key_length, ?length_drop; first [lia|by apply expand_key_ok]).
    rewrite <- expand_key_add, drop_drop. do 2 f_equal; f_equal; lia.
Qed.

(** ** Blocks of bytes *)

(** The [j]-th column of a block. *)
Definition col_at (l : list Z) (j : nat) : col :=
  (nth (4 * j) l 0, nth (4 * j + 1) l 0, nth (4 * j + 2) l 0, nth (4 * j + 3) l 0).

Lemma aget_nth (l : list Z) i : (i < length l)%nat → aget l (Z.of_nat i) = Some (nth i l 0).
Proof.
  intros Hi. unfold aget. rewrite (proj2 (Z.leb_le 0 _)), Nat2Z.id by lia.
  destruct (lookup_lt_is_Some_2 l i Hi) as [x Hx]. by rewrite Hx, (nth_lookup_Some _ _ _ _ Hx).
Qed.

Lemma GETU32_ok l j : (4 * j + 3 < length l)%nat → GETU32 l (4 * Z.of_nat j) = Some (pack (col_at l j)).
Proof.
  intros Hj. unfold GETU32.
  replace (4 * Z.of_nat j) with (Z.of_nat (4 * j)) by lia.
  replace (Z.of_nat (4 * j) + 1) with (Z.of_nat (4 * j + 1)) by lia.
  replace (Z.of_nat (4 * j) + 2) with (Z.of_nat (4 * j + 2)) by lia.
  replace (Z.of_nat (4 * j) + 3) with (Z.of_nat (4 * j + 3)) by lia.
  by rewrite !aget_nth by lia.
Qed.

Lemma col_at_ok l j : Forall byte l → col_ok (col_at l j).
Proof.
  intros Hl. assert (∀ i, byte (nth i l 0)) as Hn.
  { intros i. destruct (nth_in_or_default i l 0) as [Hin| ->]; [|done].
    rewrite Forall_forall in Hl. by apply Hl, list_elem_of_In. }
  split; [|split; [|split]]; apply Hn.
Qed.

Lemma load_key_ok n uk : ∀ ws tl, (4 * (length ws + n) ≤ length uk)%nat → (n ≤ length tl)%nat →
  load_key n uk (sched ws tl) (Z.of_nat (length ws)) =
    Some (sched (ws ++ (col_at uk <$> seq (length ws) n)) (drop n tl)).
Proof.
  induction n as [|n IH]; intros ws tl Huk Htl; cbn [load_key].
  { by rewrite app_nil_r. }
  destruct tl as [|x tl]; [simpl in Htl; lia|].
  rewrite GETU32_ok by lia. mred. rewrite sched_put. mred.
  assert (length (ws ++ [col_at uk (length ws)]) = S (length ws)) as Hlen
    by (rewrite length_app; simpl; lia).
  replace (Z.of_nat (length ws) + 1) with (Z.of_nat (length (ws ++ [col_at uk (length ws)]))) by lia.
  rewrite IH, Hlen, <- app_assoc; [done| |simpl in Htl; lia]. rewrite Hlen. lia.
Qed.

(** The key words of a user key. *)
Definition key_words (nk : nat) (uk : list Z) : list col := col_at uk <$> seq 0 nk.

Lemma key_words_ok nk uk : Forall byte uk → Forall col_ok (key_words nk uk).
Proof. intros Hu. apply Forall_fmap, Forall_true. intros j. by apply col_at_ok. Qed.

Lemma key_words_length nk uk : length (key_words nk uk) = nk.
Proof. unfold key_words. by rewrite length_fmap, length_seq. Qed.

Lemma load_key_more a n uk tl : (4 * (a + n) ≤ length uk)%nat → (n ≤ length tl)%nat →
  load_key n uk (sched (key_words a uk) tl) (Z.of_nat a) = Some (sched (key_words (a + n) uk) (drop n tl)).
Proof.
  intros Huk Htl. pose proof (load_key_ok n uk (key_words a uk) tl) as H. rewrite key_words_length in H.
  rewrite H by done. unfold key_words. by rewrite seq_app, fmap_app.
Qed.

(** The expanded key for [nk] key words: [4 * (nk + 7)] words. *)
Definition schedule_words (nk : nat) (uk : list Z) : list col :=
  expand_key nk (4 * (nk + 7) - nk) (key_words nk uk).

Lemma schedule_eq nk n m r uk rk :
  n = (4 * (nk + 7) - nk)%nat → m = (4 * (nk + 7))%nat → r = Z.of_nat nk + 6 →
  Some (0, Some (AesKey (sched (expand_key nk n (key_words nk uk)) (drop m rk)) r)) =
  Some (0, Some (AesKey (sched (schedule_words nk uk) (drop (4 * (nk + 7)) rk)) (Z.of_nat nk + 6))).
Proof. by intros -> -> ->. Qed.

Lemma set_encrypt_key_ok nk uk k :
  nk = 4%nat ∨ nk = 6%nat ∨ nk = 8%nat → Forall byte uk → (4 * nk ≤ length uk)%nat → length (rd_key k) = 60%nat →
  aes_set_encrypt_key T (Some uk) (32 * Z.of_nat nk) (Some k) =
    Some (0, Some (AesKey (sched (schedule_words nk uk) (drop (4 * (nk + 7)) (rd_key k))) (Z.of_nat nk + 6))).
Proof.
  intros Hnk Hb Huk Hrk. unfold aes_set_encrypt_key.
  change (rd_key k) with (sched (key_words 0 uk) (rd_key k)) at 1.
  destruct Hnk as [->|[->| ->]].
  - change (negb _ && negb _ && negb _) with false. cbn beta iota.
    change (_ =? 128) with true. cbn beta iota.
    rewrite (load_key_more 0) by lia. mred. cbn [Nat.add].
    pose proof (expand128_ok 9 0 (key_words 4 uk) (drop 4 (rd_key k))) as He.
    change (4 * Z.of_nat 0) with 0 in He. change (Z.of_nat 0) with 0 in He.
    rewrite He by (rewrite ?key_words_length, ?length_drop; first [lia|by apply key_words_ok]). mred.
    rewrite drop_drop. by apply schedule_eq.
  - change (negb _ && negb _ && negb _) with false. cbn beta iota.
    change (_ =? 128) with false. cbn beta iota.
    rewrite (load_key_more 0) by lia. mred. cbn [Nat.add].
    rewrite (load_key_more 4) by (rewrite ?length_drop; lia). mred. cbn [Nat.add].
    change (_ =? 192) with true. cbn beta iota.
    pose proof (expand192_ok 7 0 (key_words 6 uk) (drop 2 (drop 4 (rd_key k)))) as He.
    change (6 * Z.of_nat 0) with 0 in He. change (Z.of_nat 0) with 0 in He.
    rewrite He by (rewrite ?key_words_length, ?length_drop; first [lia|by apply key_words_ok]). mred.
    rewrite !drop_drop. by apply schedule_eq.
  - change (negb _ && negb _ && negb _) with false. cbn beta iota.
    change (_ =? 128) with false. cbn beta iota.
    rewrite (load_key_more 0) by lia. mred. cbn [Nat.add].
    rewrite (load_key_more 4) by (rewrite ?length_drop; lia). mred. cbn [Nat.add].
    change (_ =? 192) with false. cbn beta iota.
    rewrite (load_key_more 6) by (rewrite ?length_drop; lia). mred. cbn [Nat.add].
    pose proof (expand256_ok 6 0 (key_words 8 uk) (drop 2 (drop 2 (drop 4 (rd_key k))))) as He.
    change (8 * Z.of_nat 0) with 0 in He. change (Z.of_nat 0) with 0 in He.
    rewrite He by (rewrite ?key_words_length, ?length_drop; first [lia|by apply key_words_ok]). mred.
    rewrite !drop_drop. by apply schedule_eq.
Qed.

(** ** Round keys *)

(** The [i]-th round key of the words [ws]. *)
Definition key_at (ws : list col) (i : nat) : state :=
  (nth (4 * i) ws col0, nth (4 * i + 1) ws col0, nth (4 * i + 2) ws col0, nth (4 * i + 3) ws col0).

Lemma key_at_ok ws i : Forall col_ok ws → state_ok (key_at ws i).
Proof.
  intros Hws. assert (∀ i, col_ok (nth i ws col0)) as Hn.
  { intros j. destruct (nth_in_or_default j ws col0) as [Hin| ->]; [|done].
    rewrite Forall_forall in Hws. by apply Hws, list_elem_of_In. }
  split; [|split; [|split]]; apply Hn.
Qed.

Lemma load4_sched ws tl i : (4 * i + 3 < length ws)%nat →
  load4 (sched ws tl) (4 * Z.of_nat i) = Some (pack4 (key_at ws i)).
Proof.
  intros Hi. unfold load4.
  replace (4 * Z.of_nat i) with (Z.of_nat (4 * i)) by lia.
  replace (Z.of_nat (4 * i) + 1) with (Z.of_nat (4 * i + 1)) by lia.
  replace (Z.of_nat (4 * i) + 2) with (Z.of_nat (4 * i + 2)) by lia.
  replace (Z.of_nat (4 * i) + 3) with (Z.of_nat (4 * i + 3)) by lia.
  by rewrite !sched_get by lia.
Qed.

Lemma round_keys_at n : ∀ ws, length ws = (4 * n)%nat → round_keys ws = key_at ws <$> seq 0 n.
Proof.
  induction n as [|n IH]; intros ws Hlen.
  { by destruct ws. }
  destruct ws as [|w0 [|w1 [|w2 [|w3 ws]]]]; try (simpl in Hlen; lia).
  cbn [round_keys seq]. rewrite fmap_cons. f_equal. rewrite IH by (simpl in Hlen; lia).
  rewrite <- fmap_S_seq, <- list_fmap_compose. apply list_fmap_ext. intros _ j _. unfold compose, key_at.
  replace (4 * S j)%nat with (4 + 4 * j)%nat by lia. done.
Qed.

(** ** Encryption *)

Definition block_state (l : list Z) : state := (col_at l 0, col_at l 1, col_at l 2, col_at l 3).
Definition col_bytes (x : col) : list Z := let '(a, b, c, d) := x in [a; b; c; d].
Definition state_bytes (s : state) : list Z :=
  let '(c0, c1, c2, c3) := s in col_bytes c0 ++ col_bytes c1 ++ col_bytes c2 ++ col_bytes c3.

Lemma block_state_ok l : Forall byte l → state_ok (block_state l).
Proof. intros Hl. split; [|split; [|split]]; by apply col_at_ok. Qed.

Lemma state_bytes_block l : length l = 16%nat → state_bytes (block_state l) = l.
Proof. intros Hl. do 16 (destruct l as [|? l]; [done|]). by destruct l. Qed.

Lemma block_state_bytes s : block_state (state_bytes s) = s.
Proof. by open_state s. Qed.

Lemma state_bytes_ok s : state_ok s → Forall byte (state_bytes s).
Proof. open_state s. simpl. intros Hs. rewrite !Forall_cons, Forall_nil. tauto. Qed.

Lemma PUTU32_pack x : col_ok x → PUTU32 (pack x) = col_bytes x.
Proof. destruct x as [[[? ?] ?] ?]. intros (? & ? & ? & ?). by apply bytes4_word4. Qed.

Lemma load_block_ok l rk k : (16 ≤ length l)%nat → load4 rk 0 = Some (pack4 k) →
  load_block l rk = Some (pack4 (add_round_key k (block_state l))).
Proof.
  intros Hl Hk. unfold load_block. rewrite Hk. destruct k as [[[k0 k1] k2] k3]. cbn [mbind option_bind pack4].
  pose proof (GETU32_ok l 0 ltac:(lia)) as H0. pose proof (GETU32_ok l 1 ltac:(lia)) as H1.
  pose proof (GETU32_ok l 2 ltac:(lia)) as H2. pose proof (GETU32_ok l 3 ltac:(lia)) as H3.
  change (4 * Z.of_nat 0) with 0 in H0. change (4 * Z.of_nat 1) with 4 in H1.
  change (4 * Z.of_nat 2) with 8 in H2. change (4 * Z.of_nat 3) with 12 in H3.
  rewrite H0, H1, H2, H3. mred. rewrite !pack_cxor. done.
Qed.

Lemma steps_ok step kk nr j n s : (∀ k s, state_ok k → state_ok s → state_ok (step k s)) →
  (∀ i, (i ≤ nr)%nat → state_ok (kk i)) → (j + n ≤ S nr)%nat → state_ok s → state_ok (steps step kk j n s).
Proof.
  intros Hstep Hkk. revert j s. induction n as [|n IH]; intros j s Hn Hs; [done|]. apply IH; [lia|].
  apply Hstep; [apply Hkk; lia|done].
Qed.

Lemma enc_rounds_steps kk n : ∀ j s, enc_rounds (kk <$> seq j (S n)) s =
  add_round_key (kk (j + n)%nat) (shift_rows (sub_bytes (steps enc_step kk j n s))).
Proof.
  induction n as [|n IH]; intros j s.
  - cbn. by rewrite Nat.add_0_r.
  - change (enc_rounds (kk <$> seq j (S (S n))) s) with (enc_rounds (kk <$> seq (S j) (S n)) (enc_step (kk j) s)).
    rewrite IH. by replace (S j + n)%nat with (j + S n)%nat by lia.
Qed.

(** The last round and the stores. *)
Lemma enc_last_ok t k : state_ok t → state_ok k →
  enc_last T (pack4 t) (pack4 k) = state_bytes (add_round_key k (shift_rows (sub_bytes t))).
Proof.
  intros Ht Hk. pose proof (add_round_key_ok _ _ Hk (shift_rows_ok _ (sub_bytes_ok _ Ht))) as Hr.
  open_state t. destruct Ht as (? & ? & ? & ?). destruct k as [[[k0 k1] k2] k3]. cbn [pack4 enc_last].
  rewrite !te_last_pack by done.
  cbn [sub_bytes smap csub shift_rows add_round_key] in *. destruct Hr as (? & ? & ? & ?).
  by rewrite !PUTU32_pack by done.
Qed.

Lemma dec_last_ok t k : state_ok t → state_ok k →
  dec_last T (pack4 t) (pack4 k) = state_bytes (add_round_key k (inv_sub_bytes (inv_shift_rows t))).
Proof.
  intros Ht Hk. pose proof (add_round_key_ok _ _ Hk (inv_sub_bytes_ok _ (inv_shift_rows_ok _ Ht))) as Hr.
  open_state t. destruct Ht as (? & ? & ? & ?). destruct k as [[[k0 k1] k2] k3]. cbn [pack4 dec_last].
  rewrite !td_last_pack by done.
  cbn [inv_sub_bytes smap csub inv_shift_rows add_round_key] in *. destruct Hr as (? & ? & ? & ?).
  by rewrite !PUTU32_pack by done.
Qed.

(** Decryption with the round keys [kk], last one first. *)
Lemma dec_step_eq k s : add_round_key (inv_mix_columns k) (inv_mix_columns (inv_sub_bytes (inv_shift_rows s))) =
  inv_mix_columns (add_round_key k (inv_sub_bytes (inv_shift_rows s))).
Proof.
  open_state s. open_state k. cbn [inv_mix_columns smap inv_mix_column circulant inv_sub_bytes csub
    inv_shift_rows add_round_key cxor]. rewrite !gmul_lxor.
  repeat match goal with |- (_, _) = (_, _) => f_equal end; xor_solve.
Qed.

Lemma dec_rounds_steps kk n : ∀ j s, dec_rounds (kk <$> seq j (S n)) s =
  add_round_key (kk (j + n)%nat)
    (inv_sub_bytes (inv_shift_rows (steps dec_step (inv_mix_columns ∘ kk) j n s))).
Proof.
  induction n as [|n IH]; intros j s.
  - cbn. by rewrite Nat.add_0_r.
  - change (dec_rounds (kk <$> seq j (S (S n))) s) with (dec_rounds (kk <$> seq (S j) (S n))
      (inv_mix_columns (add_round_key (kk j) (inv_sub_bytes (inv_shift_rows s))))).
    rewrite IH, <- dec_step_eq. by replace (S j + n)%nat with (j + S n)%nat by lia.
Qed.

(** ** The decryption schedule *)

Lemma swap_words_ok rk i j : 0 ≤ i < Z.of_nat (length rk) → 0 ≤ j < Z.of_nat (length rk) → i ≠ j →
  ∃ rk', swap_words rk i j = Some rk' ∧ length rk' = length rk ∧
    ∀ k, 0 ≤ k → aget rk' k = aget rk (if decide (k = j) then i else if decide (k = i) then j else k).
Proof.
  intros Hi Hj Hne. unfold swap_words.
  destruct (aget_in rk i Hi) as [x Hx], (aget_in rk j Hj) as [y Hy]. rewrite Hx, Hy. mred.
  rewrite aset_in by done. mred. rewrite aset_in by (rewrite length_insert; done).
  eexists. split; [done|]. split; [by rewrite !length_insert|]. intros k Hk.
  rewrite !aget_insert by (rewrite ?length_insert; done || lia).
  repeat case_decide; subst; congruence.
Qed.

(** Decide conditions on indices. *)
Ltac decide_lia := repeat first [rewrite decide_True by lia | rewrite decide_False by lia].

(** Exchanging two round keys. *)
Lemma swap_block_ok rk a b : (a < b)%nat → (4 * b + 3 < length rk)%nat →
  let i := 4 * Z.of_nat a in let j := 4 * Z.of_nat b in
  ∃ rk1 rk2 rk3 rk4, swap_words rk i j = Some rk1 ∧ swap_words rk1 (i + 1) (j + 1) = Some rk2 ∧
    swap_words rk2 (i + 2) (j + 2) = Some rk3 ∧ swap_words rk3 (i + 3) (j + 3) = Some rk4 ∧
    length rk4 = length rk ∧
    ∀ c, load4 rk4 (4 * Z.of_nat c) =
      load4 rk (4 * Z.of_nat (if decide (c = a) then b else if decide (c = b) then a else c)).
Proof.
  intros Hab Hb i j. unfold i, j.
  destruct (swap_words_ok rk i j) as (rk1 & H1 & L1 & G1); [lia..|].
  destruct (swap_words_ok rk1 (i + 1) (j + 1)) as (rk2 & H2 & L2 & G2); [lia..|].
  destruct (swap_words_ok rk2 (i + 2) (j + 2)) as (rk3 & H3 & L3 & G3); [lia..|].
  destruct (swap_words_ok rk3 (i + 3) (j + 3)) as (rk4 & H4 & L4 & G4); [lia..|].
  exists rk1, rk2, rk3, rk4. do 4 (split; [done|]). split; [lia|].
  assert (∀ c t, 0 ≤ t < 4 → aget rk4 (4 * Z.of_nat c + t) =
    aget rk (4 * Z.of_nat (if decide (c = a) then b else if decide (c = b) then a else c) + t)) as Hg.
  { intros c t Ht. assert (t = 0 ∨ t = 1 ∨ t = 2 ∨ t = 3) as Hcases by lia. unfold i, j in *.
    destruct (decide (c = a)) as [->|Hca]; [|destruct (decide (c = b)) as [->|Hcb]];
      destruct Hcases as [->|[->|[->| ->]]];
      rewrite G4 by lia; decide_lia; rewrite G3 by lia; decide_lia;
      rewrite G2 by lia; decide_lia; rewrite G1 by lia; decide_lia; f_equal; lia. }
  intros c. unfold load4. pose proof (Hg c 0 ltac:(lia)) as G0. rewrite !Z.add_0_r in G0.
  by rewrite G0, !Hg by lia.
Qed.

Lemma invert_order_ok n : ∀ fuel rk a b,
  (n = b - a)%nat → (a ≤ S b)%nat → (n + 1 < 2 * fuel)%nat → (4 * b + 3 < length rk)%nat →
  ∃ rk', invert_order fuel rk (4 * Z.of_nat a) (4 * Z.of_nat b) = Some rk' ∧ length rk' = length rk ∧
    ∀ c, load4 rk' (4 * Z.of_nat c) =
      load4 rk (4 * Z.of_nat (if decide (a ≤ c ≤ b)%nat then a + b - c else c)).
Proof.
  induction (lt_wf n) as [n _ IH]. intros fuel rk a b Hn Hab Hf Hb.
  destruct fuel as [|fuel]; [lia|]. cbn [invert_order].
  destruct (Z.ltb_spec (4 * Z.of_nat a) (4 * Z.of_nat b)) as [Hlt|Hge].
  - destruct (swap_block_ok rk a b ltac:(lia) Hb) as (rk1 & rk2 & rk3 & rk4 & -> & H2 & H3 & H4 & L & G).
    mred. rewrite H2. mred. rewrite H3. mred. rewrite H4. mred.
    replace (4 * Z.of_nat a + 4) with (4 * Z.of_nat (S a)) by lia.
    replace (4 * Z.of_nat b - 4) with (4 * Z.of_nat (b - 1)) by lia.
    destruct (IH (b - 1 - S a)%nat ltac:(lia) fuel rk4 (S a) (b - 1)%nat) as (rk' & -> & L' & G'); [lia..|].
    exists rk'. split; [done|]. split; [lia|]. intros c. rewrite G', G. do 3 f_equal.
    repeat case_decide; lia.
  - exists rk. split; [done|]. split; [done|]. intros c. do 3 f_equal. case_decide; lia.
Qed.

Lemma inv_mix_word_pack x : col_ok x → inv_mix_word T (pack x) = pack (inv_mix_column x).
Proof.
  destruct x as [[[a b] c] d]. intros (Ha & Hb & Hc & Hd). unfold inv_mix_word. cbn [pack].
  rewrite word4_byte3, word4_byte2, word4_byte1, word4_byte0 by done.
  assert (∀ n, byte n → Z.land (te4 T n) 0xff = sbox n) as Hmask.
  { intros n Hn. rewrite (proj2 (proj2 (proj2 (te4_masks n Hn)))). unfold word4.
    by rewrite !Z.shiftl_0_l, !Z.lxor_0_l. }
  rewrite !Hmask by done.
  pose proof (td_bytes (sbox a) (sbox b) (sbox c) (sbox d) 0) as Htd. rewrite !Z.lxor_0_r in Htd.
  rewrite Htd by (by apply sbox_byte). cbn [csub]. by rewrite !inv_sbox_sbox by done.
Qed.

Definition inv_mix_words (x : words) : words :=
  let '(a, b, c, d) := x in (inv_mix_word T a, inv_mix_word T b, inv_mix_word T c, inv_mix_word T d).

Lemma inv_mix_step_ok rk o : 0 ≤ o < Z.of_nat (length rk) →
  ∃ rk', inv_mix_step T rk o = Some rk' ∧ length rk' = length rk ∧
    ∀ k, 0 ≤ k → aget rk' k = if decide (k = o) then inv_mix_word T <$> aget rk k else aget rk k.
Proof.
  intros Ho. unfold inv_mix_step. destruct (aget_in rk o Ho) as [x Hx]. rewrite Hx. mred.
  rewrite aset_in by done. eexists. split; [done|]. split; [by rewrite length_insert|].
  intros k Hk. rewrite aget_insert by done. repeat case_decide; subst; rewrite ?Hx; done || congruence.
Qed.

Lemma inv_mix_block_ok rk a : (4 * a + 3 < length rk)%nat →
  let o := 4 * Z.of_nat a in
  ∃ rk1 rk2 rk3 rk4, inv_mix_step T rk o = Some rk1 ∧ inv_mix_step T rk1 (o + 1) = Some rk2 ∧
    inv_mix_step T rk2 (o + 2) = Some rk3 ∧ inv_mix_step T rk3 (o + 3) = Some rk4 ∧
    length rk4 = length rk ∧
    ∀ c, load4 rk4 (4 * Z.of_nat c) =
      if decide (c = a) then inv_mix_words <$> load4 rk (4 * Z.of_nat c) else load4 rk (4 * Z.of_nat c).
Proof.
  intros Ha o. unfold o.
  destruct (inv_mix_step_ok rk o) as (rk1 & H1 & L1 & G1); [lia|].
  destruct (inv_mix_step_ok rk1 (o + 1)) as (rk2 & H2 & L2 & G2); [lia|].
  destruct (inv_mix_step_ok rk2 (o + 2)) as (rk3 & H3 & L3 & G3); [lia|].
  destruct (inv_mix_step_ok rk3 (o + 3)) as (rk4 & H4 & L4 & G4); [lia|].
  exists rk1, rk2, rk3, rk4. do 4 (split; [done|]). split; [lia|].
  assert (∀ c t, 0 ≤ t < 4 → aget rk4 (4 * Z.of_nat c + t) =
    if decide (c = a) then inv_mix_word T <$> aget rk (4 * Z.of_nat c + t) else aget rk (4 * Z.of_nat c + t)) as Hg.
  { intros c t Ht. rewrite G4, G3, G2, G1 by lia.
    assert (t = 0 ∨ t = 1 ∨ t = 2 ∨ t = 3) as Hcases by lia.
    destruct Hcases as [->|[->|[->| ->]]]; unfold o in *; repeat case_decide; done || lia. }
  intros c. unfold load4. pose proof (Hg c 0 ltac:(lia)) as G0. rewrite !Z.add_0_r in G0.
  rewrite G0, !Hg by lia. case_decide; [|done].
  destruct (aget rk _), (aget rk _), (aget rk _), (aget rk _); done.
Qed.

Lemma inv_mix_keys_ok n : ∀ fuel rk i nr,
  (nr = i + n)%nat → (0 < i)%nat → (n < fuel)%nat → (4 * nr ≤ length rk)%nat →
  ∃ rk', inv_mix_keys T fuel rk (4 * Z.of_nat (i - 1)) (Z.of_nat i) (Z.of_nat nr) = Some rk' ∧
    length rk' = length rk ∧
    ∀ c, load4 rk' (4 * Z.of_nat c) = if decide (i ≤ c < nr)%nat
      then inv_mix_words <$> load4 rk (4 * Z.of_nat c) else load4 rk (4 * Z.of_nat c).
Proof.
  induction n as [|n IH]; intros fuel rk i nr Hnr Hi Hf Hlen; (destruct fuel as [|fuel]; [lia|]); cbn [inv_mix_keys].
  - rewrite (proj2 (Z.ltb_ge _ _)) by lia. exists rk. split; [done|]. split; [done|].
    intros c. by rewrite decide_False by lia.
  - rewrite (proj2 (Z.ltb_lt _ _)) by lia. cbv zeta.
    replace (4 * Z.of_nat (i - 1) + 4) with (4 * Z.of_nat i) by lia.
    destruct (inv_mix_block_ok rk i ltac:(lia)) as (rk1 & rk2 & rk3 & rk4 & -> & H2 & H3 & H4 & L & G).
    mred. rewrite H2. mred. rewrite H3. mred. rewrite H4. mred.
    destruct (IH fuel rk4 (S i) nr ltac:(lia) ltac:(lia) ltac:(lia) ltac:(lia)) as (rk' & Hr & L' & G').
    replace (4 * Z.of_nat i) with (4 * Z.of_nat (S i - 1)) by lia.
    replace (Z.of_nat i + 1) with (Z.of_nat (S i)) by lia.
    exists rk'. split; [done|]. split; [lia|]. intros c. rewrite G', G.
    repeat case_decide; done || lia.
Qed.

(** ** The block functions *)

(** The round keys after [aes_set_encrypt_key]. *)
Lemma schedule_key_at nk uk tl i : Forall byte uk → (0 < nk ≤ 8)%nat → (i ≤ nk + 6)%nat →
  load4 (sched (schedule_words nk uk) tl) (4 * Z.of_nat i) = Some (pack4 (key_at (schedule_words nk uk) i)) ∧
  state_ok (key_at (schedule_words nk uk) i).
Proof.
  intros Hu Hnk Hi. split; [|by apply key_at_ok, expand_key_ok, key_words_ok].
  apply load4_sched. unfold schedule_words. rewrite expand_key_length, key_words_length. lia.
Qed.

Lemma aes128_keys_at uk : aes128_keys (block_state uk) = key_at (schedule_words 4 uk) <$> seq 0 11.
Proof.
  rewrite <- (round_keys_at 11)
    by (unfold schedule_words; by rewrite expand_key_length, key_words_length).
  unfold aes128_keys, block_state, schedule_words, key_words. f_equal.
Qed.

Lemma cipher_cons k ks s : cipher (k :: ks) s = enc_rounds ks (add_round_key k s).
Proof. done. Qed.

(** The code after the key setup, for any schedule of ten rounds. *)
Section Blocks.
Context (unroll : bool) (rk : list Z) (kk : nat → state).
Context (Hkk : ∀ i, (i ≤ 10)%nat → load4 rk (4 * Z.of_nat i) = Some (pack4 (kk i)) ∧ state_ok (kk i)).
Context (block : list Z) (Hblock : Forall byte block) (Hlen : (16 ≤ length block)%nat).

Lemma rounds_of_block round step :
  (∀ rk o k s, state_ok s → load4 rk o = Some (pack4 k) → round rk o (pack4 s) = Some (pack4 (step k s))) →
  (∀ k s, state_ok k → state_ok s → state_ok (step k s)) →
  let s0 := add_round_key (kk 0%nat) (block_state block) in let t := steps step kk 1 9 s0 in
  load_block block rk = Some (pack4 s0) ∧
  full_rounds unroll round rk 10 (pack4 s0) = Some (pack4 t, 40) ∧
  state_ok t ∧ load4 rk 40 = Some (pack4 (kk 10%nat)) ∧ state_ok (kk 10%nat).
Proof.
  intros Hround Hstep s0 t. destruct (Hkk 0%nat) as [H0 Hk0]; [lia|]. destruct (Hkk 10%nat) as [H10 Hk10]; [lia|].
  assert (state_ok s0) as Hs0 by (apply add_round_key_ok; [done|by apply block_state_ok]).
  split; [by apply load_block_ok|]. split.
  - exact (full_rounds_ok round step Hround Hstep rk kk 10 Hkk unroll s0 (or_introl eq_refl) Hs0).
  - split; [|by split]. apply (steps_ok step kk 10); [done|intros i Hi; by apply Hkk|lia|done].
Qed.

Lemma enc_block_ok : process unroll (enc_round T) (enc_last T) (AesKey rk 10) block =
  Some (state_bytes (cipher (kk <$> seq 0 11) (block_state block))).
Proof.
  destruct (rounds_of_block (enc_round T) enc_step enc_round_ok enc_step_ok) as (Hl & Hf & Ht & H10 & Hk10).
  unfold process. cbn [rd_key rounds]. rewrite Hl. mred. rewrite Hf. mred. rewrite H10. mred.
  change (seq 0 11) with (0%nat :: seq 1 10). rewrite fmap_cons, cipher_cons.
  rewrite (enc_rounds_steps kk 9 1). change (1 + 9)%nat with 10%nat.
  by rewrite <- (enc_last_ok _ _ Ht Hk10).
Qed.
End Blocks.

(** *** Decryption *)

(** The round keys of the equivalent inverse cipher with [nr] rounds. *)
Definition dec_key (kk : nat → state) (nr i : nat) : state :=
  if decide (0 < i < nr)%nat then inv_mix_columns (kk (nr - i)%nat) else kk (nr - i)%nat.

Lemma inv_mix_words_pack k : state_ok k → inv_mix_words (pack4 k) = pack4 (inv_mix_columns k).
Proof.
  destruct k as [[[k0 k1] k2] k3]. intros (? & ? & ? & ?). cbn [pack4 inv_mix_words].
  by rewrite !inv_mix_word_pack.
Qed.

Lemma set_decrypt_key_ok uk bits k rk nr kk :
  aes_set_encrypt_key T uk bits k = Some (0, Some (AesKey rk (Z.of_nat nr))) →
  (2 ≤ nr ≤ 14)%nat → (4 * nr + 3 < length rk)%nat →
  (∀ i, (i ≤ nr)%nat → load4 rk (4 * Z.of_nat i) = Some (pack4 (kk i)) ∧ state_ok (kk i)) →
  ∃ rk', aes_set_decrypt_key T uk bits k = Some (0, Some (AesKey rk' (Z.of_nat nr))) ∧
    ∀ i, (i ≤ nr)%nat → load4 rk' (4 * Z.of_nat i) = Some (pack4 (dec_key kk nr i)) ∧ state_ok (dec_key kk nr i).
Proof.
  intros Henc Hnr Hlen Hkk. unfold aes_set_decrypt_key. rewrite Henc. mred.
  change (0 <? 0) with false. cbn beta iota. mred. cbn [rd_key rounds].
  destruct (invert_order_ok nr 8 rk 0 nr) as (rk1 & H1 & L1 & G1); [lia..|].
  change (4 * Z.of_nat 0) with 0 in H1. rewrite H1. mred.
  destruct (inv_mix_keys_ok (nr - 1) 14 rk1 1 nr) as (rk2 & H2 & L2 & G2); [lia..|].
  change (4 * Z.of_nat (1 - 1)) with 0 in H2. change (Z.of_nat 1) with 1 in H2. rewrite H2. mred.
  exists rk2. split; [done|]. intros i Hi.
  destruct (Hkk (nr - i)%nat) as [Hl Hok]; [lia|].
  rewrite G2, G1, (decide_True (P := (0 ≤ i ≤ nr)%nat)) by lia. change (0 + nr - i)%nat with (nr - i)%nat. rewrite Hl.
  unfold dec_key. repeat case_decide; try lia.
  - split; [|apply smap_ok; [by apply inv_mix_column_ok|done]]. simpl. by rewrite inv_mix_words_pack.
  - by split.
Qed.

Lemma steps_ext step kk1 kk2 n : ∀ j s, (∀ i, (j ≤ i < j + n)%nat → kk1 i = kk2 i) →
  steps step kk1 j n s = steps step kk2 j n s.
Proof.
  induction n as [|n IH]; intros j s Heq; [done|]. cbn [steps]. rewrite Heq by lia.
  apply IH. intros i Hi. apply Heq. lia.
Qed.

Lemma inv_cipher_11 kk s : inv_cipher (kk <$> seq 0 11) s =
  dec_rounds ((λ i, kk (10 - i)%nat) <$> seq 1 10) (add_round_key (kk 10%nat) s).
Proof. done. Qed.

Lemma dec_block_ok unroll rk kk block :
  (∀ i, (i ≤ 10)%nat → load4 rk (4 * Z.of_nat i) = Some (pack4 (dec_key kk 10 i)) ∧ state_ok (dec_key kk 10 i)) →
  Forall byte block → (16 ≤ length block)%nat →
  process unroll (dec_round T) (dec_last T) (AesKey rk 10) block =
    Some (state_bytes (inv_cipher (kk <$> seq 0 11) (block_state block))).
Proof.
  intros Hkk Hb Hlen.
  destruct (rounds_of_block unroll rk (dec_key kk 10) Hkk block Hb Hlen (dec_round T) dec_step dec_round_ok dec_step_ok)
    as (Hl & Hf & Ht & H10 & Hk10).
  unfold process. cbn [rd_key rounds]. rewrite Hl. mred. rewrite Hf. mred. rewrite H10. mred.
  rewrite (dec_last_ok _ _ Ht Hk10), inv_cipher_11, (dec_rounds_steps (λ i, kk (10 - i)%nat) 9 1).
  rewrite (steps_ext dec_step (inv_mix_columns ∘ (λ i, kk (10 - i)%nat)) (dec_key kk 10) 9 1); [done|].
  intros i Hi. unfold dec_key. by rewrite decide_True by lia.
Qed.

(** The block functions after a successful key setup. *)
Lemma aes_encrypt_key unroll stale ctx plain key out :
  aes_set_encrypt_key T (Some ctx) (AES_KEY_SIZE * 8) (Some stale) = Some (0, Some key) →
  process unroll (enc_round T) (enc_last T) key plain = Some out →
  aes_encrypt T unroll stale ctx plain = Some (1, out).
Proof. intros Hkey Hout. unfold aes_encrypt. rewrite Hkey. simpl. by rewrite Hout. Qed.

Lemma aes_decrypt_key unroll stale ctx block key out :
  aes_set_decrypt_key T (Some ctx) (AES_KEY_SIZE * 8) (Some stale) = Some (0, Some key) →
  process unroll (dec_round T) (dec_last T) key block = Some out →
  aes_decrypt T unroll stale ctx block = Some (1, out).
Proof. intros Hkey Hout. unfold aes_decrypt. rewrite Hkey. simpl. by rewrite Hout. Qed.

Section Key.
Context (unroll : bool) (stale : AES_KEY) (ctx : list Z).
Context (Hstale : length (rd_key stale) = 60%nat) (Hctx : Forall byte ctx) (Hlen : (16 ≤ length ctx)%nat).

Lemma set_key_128 : aes_set_encrypt_key T (Some ctx) (AES_KEY_SIZE * 8) (Some stale) =
  Some (0, Some (AesKey (sched (schedule_words 4 ctx) (drop 44 (rd_key stale))) 10)).
Proof. apply (set_encrypt_key_ok 4); [by left|done|lia|done]. Qed.

Lemma key_at_128 i : (i ≤ 10)%nat →
  load4 (sched (schedule_words 4 ctx) (drop 44 (rd_key stale))) (4 * Z.of_nat i) =
    Some (pack4 (key_at (schedule_words 4 ctx) i)) ∧ state_ok (key_at (schedule_words 4 ctx) i).
Proof. intros Hi. apply schedule_key_at; [done|lia|lia]. Qed.

Lemma aes_encrypt_ok plain : Forall byte plain → (16 ≤ length plain)%nat →
  aes_encrypt T unroll stale ctx plain =
    Some (1, state_bytes (cipher (aes128_keys (block_state ctx)) (block_state plain))).
Proof.
  intros Hp Hplen. rewrite aes128_keys_at.
  exact (aes_encrypt_key _ _ _ _ _ _ set_key_128 (enc_block_ok unroll _ _ key_at_128 plain Hp Hplen)).
Qed.

Lemma aes_decrypt_ok block : Forall byte block → (16 ≤ length block)%nat →
  aes_decrypt T unroll stale ctx block =
    Some (1, state_bytes (inv_cipher (aes128_keys (block_state ctx)) (block_state block))).
Proof.
  intros Hb Hblen. rewrite aes128_keys_at.
  destruct (set_decrypt_key_ok _ _ _ _ 10 (key_at (schedule_words 4 ctx)) set_key_128) as (rk' & Hdec & Hkk).
  - lia.
  - unfold sched, schedule_words.
    rewrite length_app, length_fmap, expand_key_length, key_words_length, length_drop. lia.
  - apply key_at_128.
  - exact (aes_decrypt_key _ _ _ _ _ _ Hdec (dec_block_ok unroll rk' _ block Hkk Hb Hblen)).
Qed.

Lemma aes128_keys_ok : Forall state_ok (aes128_keys (block_state ctx)).
Proof.
  rewrite aes128_keys_at. apply Forall_fmap, Forall_forall. intros i Hi%elem_of_seq. apply key_at_128. lia.
Qed.
End Key.
End Correct.

(** ** Properties of the code *)

(** The two table configurations. *)
Definition tables_config (precalculated : bool) : aes_tables :=
  if precalculated then precalculated_tables else computed_tables.

Lemma tables_config_ok b : tables_ok (tables_config b).
Proof. destruct b; [apply precalculated_tables_ok|apply computed_tables_ok]. Qed.

(** A key context and the stack memory of the key schedule. *)
Definition aes_ctx_ok (ctx : list Z) (stale : AES_KEY) : Prop :=
  Forall byte ctx ∧ (16 ≤ length ctx)%nat ∧ length (rd_key stale) = 60%nat.

(** C32: In every configuration, with computed or precalculated tables and with rolled
    or unrolled rounds, [aes_encrypt] computes the FIPS-197 cipher and
    [aes_decrypt] its inverse cipher; neither depends on the uninitialised key
    schedule, and neither reads or writes outside its arrays. *)
Theorem aes_fips197 (precalculated unroll : bool) stale ctx block :
  aes_ctx_ok ctx stale → Forall byte block → (16 ≤ length block)%nat →
  let T := tables_config precalculated in let keys := aes128_keys (block_state ctx) in
  aes_encrypt T unroll stale ctx block = Some (1, state_bytes (cipher keys (block_state block))) ∧
  aes_decrypt T unroll stale ctx block = Some (1, state_bytes (inv_cipher keys (block_state block))).
Proof.
  intros (Hc & Hcl & Hst) Hb Hbl T keys. pose proof (tables_config_ok precalculated) as HT.
  split; [by apply aes_encrypt_ok|by apply aes_decrypt_ok].
Qed.

(** Decryption recovers every block from its encryption under the same key, also
    between builds of different configurations. *)
Theorem aes_decrypt_encrypt (p1 u1 p2 u2 : bool) stale1 stale2 ctx plain :
  aes_ctx_ok ctx stale1 → aes_ctx_ok ctx stale2 → Forall byte plain → length plain = 16%nat →
  ∃ c, aes_encrypt (tables_config p1) u1 stale1 ctx plain = Some (1, c) ∧ length c = 16%nat ∧ Forall byte c ∧
    aes_decrypt (tables_config p2) u2 stale2 ctx c = Some (1, plain).
Proof.
  intros (Hc & Hcl & Hst1) (_ & _ & Hst2) Hp Hpl.
  pose proof (aes128_keys_ok stale1 ctx Hst1 Hc Hcl) as Hkeys.
  pose proof (cipher_ok _ (block_state plain) Hkeys (block_state_ok _ Hp)) as Hok.
  eexists. split; [apply aes_encrypt_ok; [apply tables_config_ok|done..|lia]|].
  assert (length (state_bytes (cipher (aes128_keys (block_state ctx)) (block_state plain))) = 16%nat) as Hlen
    by (destruct (cipher _ _) as [[[[[[? ?] ?] ?] [[[? ?] ?] ?]] [[[? ?] ?] ?]] [[[? ?] ?] ?]]; done).
  split; [done|]. split; [by apply state_bytes_ok|].
  pose proof (aes_decrypt_ok (tables_config p2) (tables_config_ok p2) u2 stale2 ctx Hst2 Hc Hcl _
    (state_bytes_ok _ Hok)) as Hdec.
  rewrite block_state_bytes, (inv_cipher_cipher _ _ Hkeys (block_state_ok _ Hp)), state_bytes_block in Hdec by done.
  apply Hdec. by rewrite Hlen.
Qed.

(** The key schedule: for 128, 192 and 256 bits it is the FIPS-197 expansion and
    overwrites the first [4 * (rounds + 1)] words only; null pointers and other
    sizes are refused without effect. *)
Theorem aes_key_schedule (precalculated : bool) uk bits key nk :
  Forall byte uk → length (rd_key key) = 60%nat → nk = Z.to_nat (bits / 32) → (4 * nk ≤ length uk)%nat →
  let T := tables_config precalculated in
  aes_set_encrypt_key T None bits (Some key) = Some (-1, Some key) ∧
  aes_set_encrypt_key T (Some uk) bits None = Some (-1, None) ∧
  aes_set_encrypt_key T (Some uk) bits (Some key) =
    if (bits =? 128) || (bits =? 192) || (bits =? 256)
    then Some (0, Some (AesKey
      ((pack <$> expand_key nk (4 * (nk + 7) - nk) (key_words nk uk)) ++ drop (4 * (nk + 7)) (rd_key key))
      (Z.of_nat nk + 6)))
    else Some (-2, Some key).
Proof.
  intros Hu Hk Hnk Hlen T. split; [done|]. split; [done|].
  assert (∀ n, n = 4%nat ∨ n = 6%nat ∨ n = 8%nat → bits = 32 * Z.of_nat n →
    aes_set_encrypt_key T (Some uk) bits (Some key) = Some (0, Some (AesKey
      ((pack <$> expand_key nk (4 * (nk + 7) - nk) (key_words nk uk)) ++ drop (4 * (nk + 7)) (rd_key key))
      (Z.of_nat nk + 6)))) as Hset.
  { intros n Hn ->. assert (nk = n) as -> by (rewrite Hnk, Z.mul_comm, Z.div_mul, Nat2Z.id; lia).
    by apply set_encrypt_key_ok; [apply tables_config_ok|..]. }
  destruct (Z.eqb_spec bits 128) as [H1|H1]; [apply (Hset 4%nat); [by left|done]|].
  destruct (Z.eqb_spec bits 192) as [H2|H2]; [apply (Hset 6%nat); [by right; left|done]|].
  destruct (Z.eqb_spec bits 256) as [H3|H3]; [apply (Hset 8%nat); [by right; right|done]|].
  unfold aes_set_encrypt_key. by rewrite !(proj2 (Z.eqb_neq _ _)).
Qed.

(** The key and the block of FIPS-197, appendix C.1. *)
Definition fips_key : list Z := seqZ 0 16.
Definition fips_plain : list Z := (λ i, i * 17) <$> seqZ 0 16.
Definition fips_cipher : list Z :=
  [0x69; 0xc4; 0xe0; 0xd8; 0x6a; 0x7b; 0x04; 0x30; 0xd8; 0xcd; 0xb7; 0x80; 0x70; 0xb4; 0xc5; 0x5a].
Definition stale_key : AES_KEY := AesKey (replicate 60 7) 3.

Lemma fips_ctx_ok : aes_ctx_ok fips_key stale_key.
Proof. split; [repeat constructor; done|]. split; [vm_compute; lia|done]. Qed.

Lemma aes_fips197_witness :
  aes_encrypt precalculated_tables true stale_key fips_key fips_plain = Some (1, fips_cipher).
Proof.
  destruct (aes_fips197 true true stale_key fips_key fips_plain fips_ctx_ok) as [Henc _].
  - repeat constructor; done.
  - vm_compute. lia.
  - refine (eq_trans Henc _). vm_compute. reflexivity.
Defined.

Lemma aes_decrypt_encrypt_witness :
  ∃ c, aes_encrypt computed_tables false stale_key fips_key fips_plain = Some (1, c) ∧ length c = 16%nat ∧
    Forall byte c ∧ aes_decrypt precalculated_tables true stale_key fips_key c = Some (1, fips_plain).
Proof.
  apply (aes_decrypt_encrypt false false true true stale_key stale_key fips_key fips_plain fips_ctx_ok fips_ctx_ok).
  - repeat constructor; done.
  - reflexivity.
Defined.

Lemma aes_key_schedule_witness :
  aes_set_encrypt_key computed_tables (Some (seqZ 0 24)) 192 (Some stale_key) =
    Some (0, Some (AesKey ((pack <$> expand_key 6 46 (key_words 6 (seqZ 0 24))) ++ replicate 8 7) 12)).
Proof.
  refine (proj2 (proj2 (aes_key_schedule false (seqZ 0 24) 192 stale_key 6 _ _ _ _))).
  - repeat constructor; done.
  - reflexivity.
  - reflexivity.
  - vm_compute. lia.
Defined.
