(* ===== verification/Modes.v ===== *)
(** * Block cipher modes (sys/crypto/ciphers.c, helper.c, modes/)

    The cipher interface, the helpers, and the modes ECB, CBC and CTR.  The
    arrays a function reads and those it writes are distinct objects; offsets are
    within arrays, so that sums of type [size_t] do not overflow.  An access
    outside an array is [None]; so is running out of the fuel of a loop, which
    the theorems exclude. *)

From S2P Require Import Prelude Bytes Buffers AesTables Aes.

(** ** The cipher interface (ciphers.h) *)

Definition CIPHER_MAX_BLOCK_SIZE : Z := 16.
Definition CIPHER_ERR_INVALID_KEY_SIZE : Z := -3.
Definition CIPHER_ERR_INVALID_LENGTH : Z := -4.
Definition CIPHER_ERR_ENC_FAILED : Z := -5.
Definition CIPHER_ERR_DEC_FAILED : Z := -6.

(** The functions get the block of the size of the cipher they are pointed to and
    give the bytes they store. *)
Record cipher_interface_t := CipherInterface {
  block_size : Z;
  max_key_size : Z;
  init : list Z → list Z → Z → option (Z * list Z);
  encrypt : list Z → list Z → option (Z * list Z);
  decrypt : list Z → list Z → option (Z * list Z)
}.

Record cipher_t := Cipher { interface : cipher_interface_t; context : list Z }.

Definition cipher_init (cipher : cipher_t) (cipher_id : cipher_interface_t) (key : list Z) (key_size : Z) :
    option (Z * cipher_t) :=
  if max_key_size cipher_id <? key_size then Some (CIPHER_ERR_INVALID_KEY_SIZE, cipher)
  else
    '(r, c) ← init cipher_id (context cipher) key key_size;
    Some (r, Cipher cipher_id c).

Definition cipher_encrypt (cipher : cipher_t) (input : list Z) : option (Z * list Z) :=
  encrypt (interface cipher) (context cipher) input.

Definition cipher_decrypt (cipher : cipher_t) (input : list Z) : option (Z * list Z) :=
  decrypt (interface cipher) (context cipher) input.

Definition cipher_get_block_size (cipher : cipher_t) : Z := block_size (interface cipher).

(** CIPHER_AES_128, for a configuration of [Aes]. *)
Definition aes_interface (T : aes_tables) (unroll : bool) (stale : AES_KEY) : cipher_interface_t :=
  CipherInterface AES_BLOCK_SIZE AES_KEY_SIZE aes_init (aes_encrypt T unroll stale) (aes_decrypt T unroll stale).

(** ** Helpers (helper.c) *)

(** [b] is the index of the pointer of that name. *)
Fixpoint inc_ctr_loop (n : nat) (block : list Z) (b : Z) : option (list Z) :=
  match n with
  | O => Some block
  | S n =>
      x ← aget block b;
      let x := u8 (x + 1) in
      block ← aset block b x;
      if negb (x =? 0) then Some block else inc_ctr_loop n block (b - 1)
  end.

Definition crypto_block_inc_ctr (block : list Z) (L : Z) : option (list Z) :=
  inc_ctr_loop (Z.to_nat L) block 15.

Fixpoint equals_loop (n : nat) (a b : list Z) (i diff : Z) : option Z :=
  match n with
  | O => Some diff
  | S n => x ← aget a i; y ← aget b i; equals_loop n a b (i + 1) (Z.lor diff (Z.lxor x y))
  end.

(** [diff |= (diff >> k) | (diff << (8 - k))] for a byte. *)
Definition smear (diff k : Z) : Z :=
  u8 (Z.lor diff (Z.lor (Z.shiftr diff k) (Z.shiftl diff (8 - k)))).

Definition crypto_equals (a b : list Z) (len : Z) : option Z :=
  diff ← equals_loop (Z.to_nat len) a b 0 0;
  Some (u8 (smear (smear (smear diff 1) 2) 4 + 1)).

Definition crypto_secure_wipe (buf : list Z) (len : Z) : option (list Z) :=
  fill (Z.to_nat len) 0 0 (λ _ _, Some 0) buf.

(** ** ECB (modes/ecb.c) *)

Fixpoint ecb_loop (fuel : nat) (op : list Z → option (Z * list Z)) (err bs : Z)
    (input : list Z) (length : Z) (output : list Z) (offset : Z) : option (Z * list Z) :=
  match fuel with
  | O => None
  | S fuel =>
      block ← load input offset bs;
      '(r, out) ← op block;
      output ← store output offset out;
      if negb (r =? 1) then Some (err, output)
      else
        let offset := offset + bs in
        if offset <? length then ecb_loop fuel op err bs input length output offset
        else Some (i32 offset, output)
  end.

Definition cipher_encrypt_ecb (cipher : cipher_t) (input : list Z) (length : Z) (output : list Z) :
    option (Z * list Z) :=
  let bs := cipher_get_block_size cipher in
  if bs =? 0 then None
  else if negb (length mod bs =? 0) then Some (CIPHER_ERR_INVALID_LENGTH, output)
  else ecb_loop (S (Z.to_nat length)) (cipher_encrypt cipher) CIPHER_ERR_ENC_FAILED bs input length output 0.

Definition cipher_decrypt_ecb (cipher : cipher_t) (input : list Z) (length : Z) (output : list Z) :
    option (Z * list Z) :=
  let bs := cipher_get_block_size cipher in
  if bs =? 0 then None
  else if negb (length mod bs =? 0) then Some (CIPHER_ERR_INVALID_LENGTH, output)
  else ecb_loop (S (Z.to_nat length)) (cipher_decrypt cipher) CIPHER_ERR_DEC_FAILED bs input length output 0.

(** ** CBC (modes/cbc.c) *)

(** A pointer to the [iv] or into an array. *)
Inductive last_block := Iv | At (offset : Z).

Definition last_get (iv a : list Z) (last : last_block) (i : Z) : option Z :=
  match last with Iv => aget iv i | At o => aget a (o + i) end.

(** [a[o + i] ^= f(i)] *)
Definition xor_with (o : Z) (f : Z → option Z) (a : list Z) (i : Z) : option Z :=
  x ← aget a (o + i); y ← f i; Some (Z.lxor x y).

Fixpoint cbc_encrypt_loop (fuel : nat) (cipher : cipher_t) (bs : Z) (iv input : list Z) (length : Z)
    (output input_block : list Z) (last : last_block) (offset : Z) : option (Z * list Z) :=
  match fuel with
  | O => None
  | S fuel =>
      b ← load input offset bs;
      input_block ← store input_block 0 b;
      input_block ← fill (Z.to_nat bs) 0 0 (xor_with 0 (last_get iv output last)) input_block;
      block ← load input_block 0 bs;
      '(r, out) ← cipher_encrypt cipher block;
      output ← store output offset out;
      if negb (r =? 1) then Some (CIPHER_ERR_ENC_FAILED, output)
      else
        let last := At offset in
        let offset := offset + bs in
        if offset <? length
        then cbc_encrypt_loop fuel cipher bs iv input length output input_block last offset
        else Some (i32 offset, output)
  end.

Definition cipher_encrypt_cbc (cipher : cipher_t) (iv input : list Z) (length : Z) (output : list Z) :
    option (Z * list Z) :=
  let bs := cipher_get_block_size cipher in
  if bs =? 0 then None
  else if negb (length mod bs =? 0) then Some (CIPHER_ERR_INVALID_LENGTH, output)
  else cbc_encrypt_loop (S (Z.to_nat length)) cipher bs iv input length output
         (replicate (Z.to_nat CIPHER_MAX_BLOCK_SIZE) 0) Iv 0.

Fixpoint cbc_decrypt_loop (fuel : nat) (cipher : cipher_t) (bs : Z) (iv input : list Z) (length : Z)
    (output : list Z) (last : last_block) (offset : Z) : option (Z * list Z) :=
  match fuel with
  | O => None
  | S fuel =>
      input_block ← load input offset bs;
      '(r, out) ← cipher_decrypt cipher input_block;
      output ← store output offset out;
      if negb (r =? 1) then Some (CIPHER_ERR_DEC_FAILED, output)
      else
        output ← fill (Z.to_nat bs) 0 offset (xor_with offset (last_get iv input last)) output;
        let last := At offset in
        let offset := offset + bs in
        if offset <? length then cbc_decrypt_loop fuel cipher bs iv input length output last offset
        else Some (i32 offset, output)
  end.

Definition cipher_decrypt_cbc (cipher : cipher_t) (iv input : list Z) (length : Z) (output : list Z) :
    option (Z * list Z) :=
  let bs := cipher_get_block_size cipher in
  if bs =? 0 then None
  else if negb (length mod bs =? 0) then Some (CIPHER_ERR_INVALID_LENGTH, output)
  else cbc_decrypt_loop (S (Z.to_nat length)) cipher bs iv input length output Iv 0.

(** ** CTR (modes/ctr.c) *)

(** [(length - offset > bs) ? bs : length - offset] in a byte. *)
Definition input_size (length offset bs : Z) : Z :=
  u8 (if bs <? length - offset then bs else length - offset).

(** [output[offset + i] = stream_block[i] ^ input[offset + i]] *)
Definition xor_stream (stream_block input : list Z) (offset : Z) (_ : list Z) (i : Z) : option Z :=
  x ← aget stream_block i; y ← aget input (offset + i); Some (Z.lxor x y).

(** The result, the counter and the output. *)
Fixpoint ctr_loop (fuel : nat) (cipher : cipher_t) (bs nonce_len : Z) (nonce_counter stream_block input : list Z)
    (length : Z) (output : list Z) (offset : Z) : option (Z * list Z * list Z) :=
  match fuel with
  | O => None
  | S fuel =>
      b ← load nonce_counter 0 bs;
      '(r, out) ← cipher_encrypt cipher b;
      stream_block ← store stream_block 0 out;
      if negb (r =? 1) then Some (CIPHER_ERR_ENC_FAILED, nonce_counter, output)
      else
        let n := input_size length offset bs in
        output ← fill (Z.to_nat n) 0 offset (xor_stream stream_block input offset) output;
        let offset := offset + n in
        nonce_counter ← crypto_block_inc_ctr nonce_counter (bs - nonce_len);
        if offset <? length
        then ctr_loop fuel cipher bs nonce_len nonce_counter stream_block input length output offset
        else Some (i32 offset, nonce_counter, output)
  end.

Definition cipher_encrypt_ctr (cipher : cipher_t) (nonce_counter : list Z) (nonce_len : Z)
    (input : list Z) (length : Z) (output : list Z) : option (Z * list Z * list Z) :=
  ctr_loop (S (Z.to_nat length)) cipher (cipher_get_block_size cipher) nonce_len nonce_counter
    (replicate 16 0) input length output 0.

Definition cipher_decrypt_ctr := cipher_encrypt_ctr.
