(* ===== verification/ModesProof.v ===== *)
(** * Correctness of the cipher modes

    ECB, CBC and CTR over any cipher that satisfies the interface [BlockCipher],
    and AES as an instance of it. *)

From S2P Require Import Prelude Bytes Buffers AesSpec AesTables Aes AesProof Modes.

(** ** What the modes need of a cipher *)

Definition block_ok (n : nat) (b : list Z) : Prop := length b = n ∧ Forall byte b.

(** The cipher [c] has blocks of [n] bytes, which it encrypts by [E] and decrypts by
    [D]. *)
Class BlockCipher (c : cipher_t) (n : nat) (E D : list Z → list Z) : Prop := {
  bc_size : cipher_get_block_size c = Z.of_nat n;
  bc_range : (0 < n ≤ 16)%nat;
  bc_encrypt b : block_ok n b → cipher_encrypt c b = Some (1, E b);
  bc_decrypt b : block_ok n b → cipher_decrypt c b = Some (1, D b);
  bc_enc_ok b : block_ok n b → block_ok n (E b);
  bc_dec_ok b : block_ok n b → block_ok n (D b);
  bc_inv b : block_ok n b → D (E b) = b
}.

(** *** AES *)

Definition aes_E (ctx b : list Z) : list Z :=
  state_bytes (cipher (aes128_keys (block_state ctx)) (block_state b)).
Definition aes_D (ctx b : list Z) : list Z :=
  state_bytes (inv_cipher (aes128_keys (block_state ctx)) (block_state b)).

Lemma state_bytes_length s : length (state_bytes s) = 16%nat.
Proof. by destruct s as [[[[[[? ?] ?] ?] [[[? ?] ?] ?]] [[[? ?] ?] ?]] [[[? ?] ?] ?]]. Qed.

#[export] Instance aes_block_cipher p u stale ctx : aes_ctx_ok ctx stale →
  BlockCipher (Cipher (aes_interface (tables_config p) u stale) ctx) 16 (aes_E ctx) (aes_D ctx).
Proof.
  intros (Hc & Hcl & Hst). pose proof (tables_config_ok p) as HT.
  pose proof (aes128_keys_ok stale ctx Hst Hc Hcl) as Hkeys.
  split; [done|lia|intros b [Hb1 Hb2]..].
  - apply aes_encrypt_ok; [done..|lia].
  - apply aes_decrypt_ok; [done..|lia].
  - split; [apply state_bytes_length|]. by apply state_bytes_ok, cipher_ok, block_state_ok.
  - split; [apply state_bytes_length|]. by apply state_bytes_ok, inv_cipher_ok, block_state_ok.
  - unfold aes_E, aes_D. rewrite block_state_bytes, inv_cipher_cipher by (done || by apply block_state_ok).
    by apply state_bytes_block.
Qed.

Lemma xor_bytes_block n a b : block_ok n a → block_ok n b → block_ok n (xor_bytes a b).
Proof.
  intros [Ha1 Ha2] [Hb1 Hb2]. split; [rewrite xor_bytes_length; lia|by apply xor_bytes_ok].
Qed.

(** ** Data in full blocks *)

Lemma blocks_full n data : (0 < n)%nat → Forall byte data → data ≠ [] →
  Z.of_nat (length data) mod Z.of_nat n = 0 → Forall (block_ok n) (blocks n data).
Proof.
  intros Hn. revert data. refine (blocks_ind n (λ data, _) Hn _ _); [intros l Hl|intros b r Hb Hr IH].
  - intros Hby Hne Hmod. rewrite blocks_last by done. constructor; [|constructor]. split; [|done].
    destruct (decide (length l = n)) as [|Hx]; [done|]. rewrite Z.mod_small in Hmod by lia.
    destruct l; [done|simpl in Hmod; lia].
  - intros [Hb1 Hb2]%Forall_app _ Hmod. rewrite blocks_app by done. constructor; [done|].
    apply IH; [done|done|]. rewrite length_app, Hb, Nat2Z.inj_add in Hmod.
    rewrite <- Hmod, Z.add_mod, Z.mod_same, Z.add_0_l, Z.mod_mod by lia. done.
Qed.

Lemma blocks_nonempty n l : blocks n l ≠ [].
Proof. done. Qed.

Lemma concat_length_blocks n bl : Forall (block_ok n) bl →
  length (concat bl) = (length bl * n)%nat.
Proof.
  induction 1 as [|b bl [Hb _] _ IH]; [done|]. cbn [concat length]. rewrite length_app, IH, Hb. lia.
Qed.

(** Reading a cell that a [fill] has not reached yet, and cells in the middle. *)
Lemma aget_unfilled {A} (pre new old post : list A) k x :
  length old = length new → new !! k = Some x →
  aget (pre ++ take k new ++ drop k old ++ post) (Z.of_nat (length pre + k)) = old !! k.
Proof.
  intros Hl Hk. apply lookup_lt_Some in Hk. rewrite aget_nat, lookup_app_r, Nat.add_comm, Nat.add_sub by lia.
  rewrite lookup_app_r by (rewrite length_take; lia). rewrite length_take, Nat.min_l, Nat.sub_diag by lia.
  rewrite lookup_app_l by (rewrite length_drop; lia). by rewrite lookup_drop, Nat.add_0_r.
Qed.

Lemma aget_inside {A} (pre mid post : list A) k x :
  mid !! k = Some x → aget (pre ++ mid ++ post) (Z.of_nat (length pre + k)) = Some x.
Proof.
  intros Hk. rewrite aget_nat, lookup_app_r, Nat.add_comm, Nat.add_sub by lia.
  rewrite lookup_app_l; [done|]. by apply lookup_lt_Some in Hk.
Qed.

Lemma fill_xor g pre old src post : length src = length old →
  (∀ k x, src !! k = Some x → g (Z.of_nat k) = Some x) →
  fill (length old) 0 (Z.of_nat (length pre)) (xor_with (Z.of_nat (length pre)) g) (pre ++ old ++ post) =
    Some (pre ++ xor_bytes old src ++ post).
Proof.
  intros Hl Hg. assert (length (xor_bytes old src) = length old) as Hlen by (rewrite xor_bytes_length; lia).
  apply fill_ok; [lia|lia|done|]. intros k x Hk. unfold xor_with.
  rewrite <- Nat2Z.inj_add. rewrite (aget_unfilled pre _ old post k x) by (done || lia).
  apply xor_bytes_lookup in Hk as (u & v & Hu & Hv & ->). rewrite Hu. mred. by rewrite (Hg k v).
Qed.

(** A pointer to the block [prev]. *)
Definition last_at (iv a : list Z) (last : last_block) (prev : list Z) : Prop :=
  ∀ k x, prev !! k = Some x → last_get iv a last (Z.of_nat k) = Some x.

Lemma last_at_iv prev t a : last_at (prev ++ t) a Iv prev.
Proof. intros k x Hk. exact (aget_inside [] prev t k x Hk). Qed.

Lemma last_at_in iv pre mid post : last_at iv (pre ++ mid ++ post) (At (Z.of_nat (length pre))) mid.
Proof. intros k x Hk. simpl. rewrite <- Nat2Z.inj_add. by apply aget_inside. Qed.

Section Modes.
Context (c : cipher_t) (n : nat) (E D : list Z → list Z) `{HC : !BlockCipher c n E D}.

(** ** ECB *)

Lemma ecb_loop_ok op (F : list Z → list Z) err :
  (∀ b, block_ok n b → op b = Some (1, F b)) → (∀ b, block_ok n b → block_ok n (F b)) →
  ∀ bl fuel pre post pre_out old post_out, bl ≠ [] → Forall (block_ok n) bl → (length bl ≤ fuel)%nat →
    length pre_out = length pre → length old = length (concat bl) →
    let len := Z.of_nat (length pre + length (concat bl)) in
    ecb_loop fuel op err (Z.of_nat n) (pre ++ concat bl ++ post) len
      (pre_out ++ old ++ post_out) (Z.of_nat (length pre)) =
    Some (i32 len, pre_out ++ concat (F <$> bl) ++ post_out).
Proof.
  intros Hop HF. pose proof bc_range as Hn.
  induction bl as [|b bl IH]; intros fuel pre post pre_out old post_out Hne Hbl Hfuel Hpo Hold len; [done|].
  destruct fuel as [|fuel]; [simpl in Hfuel; lia|]. cbn [length] in Hfuel.
  apply Forall_cons in Hbl as [Hb Hbl]. pose proof Hb as [Hbn _]. pose proof (HF b Hb) as [HFn _].
  cbn [concat] in Hold |- *. rewrite length_app in Hold.
  destruct (split_at old n ltac:(lia)) as (o1 & o2 & -> & Ho1). rewrite length_app in Hold.
  rewrite <- !app_assoc. cbn [ecb_loop].
  rewrite <- Hbn at 1. rewrite load_mid. mred. rewrite Hop by done. mred.
  rewrite <- Hpo, store_mid by lia. mred. cbn [Z.eqb Pos.eqb negb].
  destruct bl as [|b2 bl].
  - unfold len. cbn [concat]. rewrite app_nil_r. rewrite (proj2 (Z.ltb_ge _ _)) by lia.
    destruct o2; [|simpl in Hold; lia]. cbn [fmap list_fmap concat]. rewrite !app_nil_r.
    do 2 f_equal. f_equal. lia.
  - rewrite (proj2 (Z.ltb_lt _ _)).
    2: { unfold len. cbn [concat]. rewrite !length_app.
         apply Forall_cons in Hbl as [[Hb2 _] _]. lia. }
    replace (Z.of_nat (length pre_out) + Z.of_nat n) with (Z.of_nat (length (pre ++ b)))
      by (rewrite length_app; lia).
    rewrite !app_assoc. rewrite <- !(app_assoc (pre ++ b)), <- !(app_assoc (pre_out ++ F b)).
    pose proof (IH fuel (pre ++ b) post (pre_out ++ F b) o2 post_out) as IH'.
    replace len with (Z.of_nat (length (pre ++ b) + length (concat (b2 :: bl))))
      by (unfold len; cbn [concat]; rewrite !length_app; lia).
    cbv zeta in IH'. rewrite IH' by (done || rewrite ?length_app; lia).
    cbn [fmap list_fmap concat]. by rewrite <- !app_assoc.
Qed.

(** ** CBC *)

Fixpoint cbc_enc (prev : list Z) (bl : list (list Z)) : list (list Z) :=
  match bl with
  | [] => []
  | b :: bl => let x := E (xor_bytes b prev) in x :: cbc_enc x bl
  end.

Fixpoint cbc_dec (prev : list Z) (bl : list (list Z)) : list (list Z) :=
  match bl with
  | [] => []
  | x :: bl => xor_bytes (D x) prev :: cbc_dec x bl
  end.

Lemma cbc_enc_ok bl : ∀ prev, block_ok n prev → Forall (block_ok n) bl → Forall (block_ok n) (cbc_enc prev bl).
Proof.
  induction bl as [|b bl IH]; intros prev Hp Hbl; [constructor|]. apply Forall_cons in Hbl as [Hb Hbl].
  assert (block_ok n (E (xor_bytes b prev))) by (by apply bc_enc_ok, xor_bytes_block).
  constructor; [done|by apply IH].
Qed.

Lemma cbc_dec_enc bl : ∀ prev, block_ok n prev → Forall (block_ok n) bl → cbc_dec prev (cbc_enc prev bl) = bl.
Proof.
  induction bl as [|b bl IH]; intros prev Hp Hbl; [done|]. apply Forall_cons in Hbl as [Hb Hbl].
  pose proof (xor_bytes_block n b prev Hb Hp) as Hx. cbn [cbc_enc cbc_dec].
  rewrite bc_inv by done. rewrite IH by (done || by apply bc_enc_ok). f_equal.
  rewrite xor_bytes_comm, (xor_bytes_comm b). apply xor_bytes_cancel. destruct Hb, Hp; lia.
Qed.

Lemma cbc_encrypt_loop_ok iv : ∀ bl fuel pre post pre_out old post_out ib last prev,
  bl ≠ [] → Forall (block_ok n) bl → (length bl ≤ fuel)%nat →
  length pre_out = length pre → length old = length (concat bl) → length ib = 16%nat →
  block_ok n prev → last_at iv (pre_out ++ old ++ post_out) last prev →
  let len := Z.of_nat (length pre + length (concat bl)) in
  cbc_encrypt_loop fuel c (Z.of_nat n) iv (pre ++ concat bl ++ post) len
    (pre_out ++ old ++ post_out) ib last (Z.of_nat (length pre)) =
  Some (i32 len, pre_out ++ concat (cbc_enc prev bl) ++ post_out).
Proof.
  pose proof bc_range as Hn.
  induction bl as [|b bl IH];
    intros fuel pre post pre_out old post_out ib last prev Hne Hbl Hfuel Hpo Hold Hib Hprev Hlast len; [done|].
  destruct fuel as [|fuel]; [simpl in Hfuel; lia|]. cbn [length] in Hfuel.
  apply Forall_cons in Hbl as [Hb Hbl]. pose proof Hb as [Hbn _].
  pose proof (xor_bytes_block n b prev Hb Hprev) as Hx. pose proof Hx as [Hxn _].
  pose proof (bc_enc_ok _ Hx) as Hy. pose proof Hy as [Hyn _].
  cbn [concat] in Hold |- *. rewrite length_app in Hold.
  destruct (split_at old n ltac:(lia)) as (o1 & o2 & -> & Ho1). rewrite length_app in Hold.
  destruct (split_at ib n ltac:(lia)) as (i1 & i2 & -> & Hi1). rewrite length_app in Hib.
  rewrite <- !app_assoc. cbn [cbc_encrypt_loop].
  rewrite <- Hbn at 1. rewrite load_mid. mred. rewrite store_prefix by lia. mred.
  rewrite Nat2Z.id. rewrite <- Hbn at 1. rewrite <- app_assoc in Hlast.
  rewrite (fill_xor _ [] b prev i2) by (done || destruct Hprev; lia). mred. cbn [app].
  rewrite <- Hxn at 1. rewrite load_prefix. mred. rewrite bc_encrypt by done. mred.
  rewrite <- Hpo, store_mid by lia. mred. cbn [Z.eqb Pos.eqb negb cbc_enc concat].
  destruct bl as [|b2 bl].
  - unfold len. cbn [concat]. rewrite app_nil_r. rewrite (proj2 (Z.ltb_ge _ _)) by lia.
    destruct o2; [|simpl in Hold; lia]. cbn [cbc_enc concat]. rewrite !app_nil_r.
    do 2 f_equal. f_equal. lia.
  - rewrite (proj2 (Z.ltb_lt _ _)).
    2: { unfold len. cbn [concat]. rewrite !length_app. apply Forall_cons in Hbl as [[Hb2 _] _]. lia. }
    set (y := E (xor_bytes b prev)) in *.
    pose proof (IH fuel (pre ++ b) post (pre_out ++ y) o2 post_out (xor_bytes b prev ++ i2)
      (At (Z.of_nat (length pre_out))) y) as IH'.
    cbv zeta in IH'. rewrite !length_app in IH'. rewrite <- !app_assoc in IH'.
    replace (Z.of_nat (length pre_out) + Z.of_nat n) with (Z.of_nat (length pre + length b)) by lia.
    replace len with (Z.of_nat (length pre + length b + length (concat (b2 :: bl))))
      by (unfold len; cbn [concat]; rewrite !length_app; lia).
    rewrite <- app_assoc. apply IH'; try done; try lia. apply last_at_in.
Qed.

Lemma cbc_decrypt_loop_ok iv : ∀ bl fuel pre post pre_out old post_out last prev,
  bl ≠ [] → Forall (block_ok n) bl → (length bl ≤ fuel)%nat →
  length pre_out = length pre → length old = length (concat bl) →
  block_ok n prev → last_at iv (pre ++ concat bl ++ post) last prev →
  let len := Z.of_nat (length pre + length (concat bl)) in
  cbc_decrypt_loop fuel c (Z.of_nat n) iv (pre ++ concat bl ++ post) len
    (pre_out ++ old ++ post_out) last (Z.of_nat (length pre)) =
  Some (i32 len, pre_out ++ concat (cbc_dec prev bl) ++ post_out).
Proof.
  pose proof bc_range as Hn.
  induction bl as [|b bl IH];
    intros fuel pre post pre_out old post_out last prev Hne Hbl Hfuel Hpo Hold Hprev Hlast len; [done|].
  destruct fuel as [|fuel]; [simpl in Hfuel; lia|]. cbn [length] in Hfuel.
  apply Forall_cons in Hbl as [Hb Hbl]. pose proof Hb as [Hbn _].
  pose proof (bc_dec_ok _ Hb) as Hy. pose proof Hy as [Hyn _].
  pose proof (xor_bytes_block n _ prev Hy Hprev) as Hx. pose proof Hx as [Hxn _].
  cbn [concat] in Hold, Hlast |- *. rewrite length_app in Hold.
  destruct (split_at old n ltac:(lia)) as (o1 & o2 & -> & Ho1). rewrite length_app in Hold.
  rewrite <- !app_assoc. rewrite <- app_assoc in Hlast. cbn [cbc_decrypt_loop].
  rewrite <- Hbn at 1. rewrite load_mid. mred. rewrite bc_decrypt by done. mred.
  rewrite <- Hpo, store_mid by lia. mred. cbn [Z.eqb Pos.eqb negb cbc_dec concat].
  rewrite Nat2Z.id. rewrite <- Hyn at 1.
  rewrite (fill_xor _ pre_out (D b) prev) by (done || destruct Hprev; lia). mred.
  destruct bl as [|b2 bl].
  - unfold len. cbn [concat]. rewrite app_nil_r. rewrite (proj2 (Z.ltb_ge _ _)) by lia.
    destruct o2; [|simpl in Hold; lia]. cbn [cbc_dec concat]. rewrite !app_nil_r.
    do 2 f_equal. f_equal. lia.
  - rewrite (proj2 (Z.ltb_lt _ _)).
    2: { unfold len. cbn [concat]. rewrite !length_app. apply Forall_cons in Hbl as [[Hb2 _] _]. lia. }
    pose proof (IH fuel (pre ++ b) post (pre_out ++ xor_bytes (D b) prev) o2 post_out
      (At (Z.of_nat (length pre_out))) b) as IH'.
    cbv zeta in IH'. rewrite !length_app in IH'. rewrite <- !app_assoc in IH'.
    replace (Z.of_nat (length pre_out) + Z.of_nat n) with (Z.of_nat (length pre + length b)) by lia.
    replace len with (Z.of_nat (length pre + length b + length (concat (b2 :: bl))))
      by (unfold len; cbn [concat]; rewrite !length_app; lia).
    rewrite <- app_assoc. apply IH'; try done; try lia. rewrite Hpo. apply last_at_in.
Qed.

(** *** The functions *)

(** Whole blocks of data in an [int]. *)
Definition whole_blocks (data : list Z) : Prop :=
  Forall byte data ∧ data ≠ [] ∧ Z.of_nat (length data) mod Z.of_nat n = 0 ∧ Z.of_nat (length data) < 2 ^ 31.

Lemma length_blocks_le data : (length (blocks n data) ≤ S (length data))%nat.
Proof.
  unfold blocks. generalize (S (length data)) as f. intros f. revert data.
  induction f as [|f IH]; intros data; cbn [chunks length]; [lia|].
  destruct (drop n data); cbn [length]; [lia|]. apply le_n_S, IH.
Qed.

Lemma i32_length (k : nat) : Z.of_nat k < 2 ^ 31 → i32 (Z.of_nat k) = Z.of_nat k.
Proof. intros Hk. apply swrap_small; lia. Qed.

Lemma encrypt_cbc_ok iv t data x old y :
  block_ok n iv → whole_blocks data → length old = length data →
  cipher_encrypt_cbc c (iv ++ t) (data ++ x) (Z.of_nat (length data)) (old ++ y) =
    Some (Z.of_nat (length data), concat (cbc_enc iv (blocks n data)) ++ y).
Proof.
  intros Hiv (Hby & Hne & Hmod & Hlen) Hold. pose proof bc_range as Hn.
  pose proof (blocks_full n data ltac:(lia) Hby Hne Hmod) as Hbl.
  unfold cipher_encrypt_cbc. rewrite bc_size, Hmod, (proj2 (Z.eqb_neq _ _)) by lia. cbn [Z.eqb negb].
  pose proof (cbc_encrypt_loop_ok (iv ++ t) (blocks n data) (S (length data)) [] x [] old y
    (replicate 16 0) Iv iv) as Hloop.
  cbn [length Nat.add app] in Hloop. rewrite (concat_blocks n data) in Hloop by lia. cbv zeta in Hloop.
  rewrite Nat2Z.id. rewrite i32_length in Hloop by done. apply Hloop; try done.
  - apply length_blocks_le.
  - apply (last_at_iv iv t).
Qed.

Lemma blocks_count bl : Forall (block_ok n) bl → (length bl ≤ length (concat bl))%nat.
Proof. intros Hbl. rewrite (concat_length_blocks n) by done. pose proof bc_range. nia. Qed.

Lemma cbc_enc_length bl : ∀ prev, length (cbc_enc prev bl) = length bl.
Proof. induction bl as [|b bl IH]; intros prev; [done|]. cbn [cbc_enc length]. by rewrite IH. Qed.

Lemma decrypt_cbc_ok iv t data x old y :
  block_ok n iv → whole_blocks data → length old = length data →
  cipher_decrypt_cbc c (iv ++ t) (concat (cbc_enc iv (blocks n data)) ++ x) (Z.of_nat (length data)) (old ++ y) =
    Some (Z.of_nat (length data), data ++ y).
Proof.
  intros Hiv (Hby & Hne & Hmod & Hlen) Hold. pose proof bc_range as Hn.
  pose proof (blocks_full n data ltac:(lia) Hby Hne Hmod) as Hbl.
  pose proof (cbc_enc_ok _ iv Hiv Hbl) as Hct.
  assert (length (concat (cbc_enc iv (blocks n data))) = length data) as Hl.
  { rewrite (concat_length_blocks n), cbc_enc_length, <- (concat_length_blocks n) by done.
    by rewrite concat_blocks by lia. }
  unfold cipher_decrypt_cbc. rewrite bc_size, Hmod, (proj2 (Z.eqb_neq _ _)) by lia. cbn [Z.eqb negb].
  pose proof (cbc_decrypt_loop_ok (iv ++ t) (cbc_enc iv (blocks n data)) (S (length data)) [] x [] old y Iv iv)
    as Hloop.
  cbn [length Nat.add app] in Hloop. cbv zeta in Hloop. rewrite Hl in Hloop.
  rewrite cbc_dec_enc, concat_blocks in Hloop by (done || lia).
  rewrite Nat2Z.id. rewrite i32_length in Hloop by done. apply Hloop; try done.
  - rewrite cbc_enc_length. apply length_blocks_le.
  - apply (last_at_iv iv t).
Qed.

Lemma encrypt_ecb_ok data x old y : whole_blocks data → length old = length data →
  cipher_encrypt_ecb c (data ++ x) (Z.of_nat (length data)) (old ++ y) =
    Some (Z.of_nat (length data), concat (E <$> blocks n data) ++ y).
Proof.
  intros (Hby & Hne & Hmod & Hlen) Hold. pose proof bc_range as Hn.
  pose proof (blocks_full n data ltac:(lia) Hby Hne Hmod) as Hbl.
  unfold cipher_encrypt_ecb. rewrite bc_size, Hmod, (proj2 (Z.eqb_neq _ _)) by lia. cbn [Z.eqb negb].
  pose proof (ecb_loop_ok (cipher_encrypt c) E CIPHER_ERR_ENC_FAILED bc_encrypt bc_enc_ok
    (blocks n data) (S (length data)) [] x [] old y) as Hloop.
  cbn [length Nat.add app] in Hloop. rewrite (concat_blocks n data) in Hloop by lia. cbv zeta in Hloop.
  rewrite Nat2Z.id. rewrite i32_length in Hloop by done. apply Hloop; try done. apply length_blocks_le.
Qed.

Lemma decrypt_ecb_ok data x old y : whole_blocks data → length old = length data →
  cipher_decrypt_ecb c (concat (E <$> blocks n data) ++ x) (Z.of_nat (length data)) (old ++ y) =
    Some (Z.of_nat (length data), data ++ y).
Proof.
  intros (Hby & Hne & Hmod & Hlen) Hold. pose proof bc_range as Hn.
  pose proof (blocks_full n data ltac:(lia) Hby Hne Hmod) as Hbl.
  assert (Forall (block_ok n) (E <$> blocks n data)) as Hct.
  { apply Forall_fmap. eapply Forall_impl; [exact Hbl|]. intros b. apply bc_enc_ok. }
  assert (length (concat (E <$> blocks n data)) = length data) as Hl.
  { rewrite (concat_length_blocks n), length_fmap, <- (concat_length_blocks n) by done.
    by rewrite concat_blocks by lia. }
  assert (D <$> (E <$> blocks n data) = blocks n data) as HDE.
  { rewrite <- list_fmap_compose. rewrite <- (list_fmap_id (blocks n data)) at 2.
    apply Forall_fmap_ext_1. eapply Forall_impl; [exact Hbl|]. intros b Hb. by apply bc_inv. }
  unfold cipher_decrypt_ecb. rewrite bc_size, Hmod, (proj2 (Z.eqb_neq _ _)) by lia. cbn [Z.eqb negb].
  pose proof (ecb_loop_ok (cipher_decrypt c) D CIPHER_ERR_DEC_FAILED bc_decrypt bc_dec_ok
    (E <$> blocks n data) (S (length data)) [] x [] old y) as Hloop.
  cbn [length Nat.add app] in Hloop. cbv zeta in Hloop. rewrite Hl, HDE, concat_blocks in Hloop by lia.
  rewrite Nat2Z.id. rewrite i32_length in Hloop by done. apply Hloop; try done.
  rewrite length_fmap. apply length_blocks_le.
Qed.

(** The loops test the length behind the first block: a length of 0 is taken for
    that of one block. *)
Lemma ecb_cbc_empty iv input out :
  cipher_encrypt_ecb c input 0 out = cipher_encrypt_ecb c input (Z.of_nat n) out ∧
  cipher_decrypt_ecb c input 0 out = cipher_decrypt_ecb c input (Z.of_nat n) out ∧
  cipher_encrypt_cbc c iv input 0 out = cipher_encrypt_cbc c iv input (Z.of_nat n) out ∧
  cipher_decrypt_cbc c iv input 0 out = cipher_decrypt_cbc c iv input (Z.of_nat n) out.
Proof.
  pose proof bc_range as Hn. unfold cipher_encrypt_ecb, cipher_decrypt_ecb, cipher_encrypt_cbc, cipher_decrypt_cbc.
  rewrite bc_size, (proj2 (Z.eqb_neq (Z.of_nat n) 0)), Zmod_0_l, Z_mod_same_full by lia. cbn [Z.eqb negb].
  cbn [ecb_loop cbc_encrypt_loop cbc_decrypt_loop]. rewrite Z.add_0_l, (proj2 (Z.ltb_ge (Z.of_nat n) 0)), Z.ltb_irrefl by lia.
  done.
Qed.

(** C33: ECB and CBC: encrypting data of one or more whole blocks stores the ECB or
    CBC ciphertext, returns its length, touches no other byte of the output and
    decrypting it restores the data; a length of 0 is processed like that of one
    block; lengths that are not whole blocks are refused. *)
Theorem ecb_cbc_roundtrip iv t data x old y old2 y2 :
  block_ok n iv → whole_blocks data → length old = length data → length old2 = length data →
  let len := Z.of_nat (length data) in
  let ecb := concat (E <$> blocks n data) in
  let cbc := concat (cbc_enc iv (blocks n data)) in
  cipher_encrypt_ecb c (data ++ x) len (old ++ y) = Some (len, ecb ++ y) ∧
  cipher_decrypt_ecb c (ecb ++ y) len (old2 ++ y2) = Some (len, data ++ y2) ∧
  cipher_encrypt_cbc c (iv ++ t) (data ++ x) len (old ++ y) = Some (len, cbc ++ y) ∧
  cipher_decrypt_cbc c (iv ++ t) (cbc ++ y) len (old2 ++ y2) = Some (len, data ++ y2) ∧
  (∀ input out, cipher_encrypt_ecb c input 0 out = cipher_encrypt_ecb c input (Z.of_nat n) out ∧
    cipher_decrypt_ecb c input 0 out = cipher_decrypt_ecb c input (Z.of_nat n) out ∧
    cipher_encrypt_cbc c (iv ++ t) input 0 out = cipher_encrypt_cbc c (iv ++ t) input (Z.of_nat n) out ∧
    cipher_decrypt_cbc c (iv ++ t) input 0 out = cipher_decrypt_cbc c (iv ++ t) input (Z.of_nat n) out) ∧
  ∀ bad out, bad mod Z.of_nat n ≠ 0 →
    cipher_encrypt_ecb c data bad out = Some (CIPHER_ERR_INVALID_LENGTH, out) ∧
    cipher_decrypt_ecb c data bad out = Some (CIPHER_ERR_INVALID_LENGTH, out) ∧
    cipher_encrypt_cbc c (iv ++ t) data bad out = Some (CIPHER_ERR_INVALID_LENGTH, out) ∧
    cipher_decrypt_cbc c (iv ++ t) data bad out = Some (CIPHER_ERR_INVALID_LENGTH, out).
Proof.
  intros Hiv Hdata Ho Ho2 len ecb cbc.
  split; [by apply encrypt_ecb_ok|]. split; [by apply decrypt_ecb_ok|].
  split; [by apply encrypt_cbc_ok|]. split; [by apply decrypt_cbc_ok|].
  split; [intros input out; by apply ecb_cbc_empty|].
  intros bad out Hbad. pose proof bc_range as Hn.
  unfold cipher_encrypt_ecb, cipher_decrypt_ecb, cipher_encrypt_cbc, cipher_decrypt_cbc.
  rewrite bc_size, (proj2 (Z.eqb_neq (Z.of_nat n) 0)), (proj2 (Z.eqb_neq _ 0) Hbad) by lia. done.
Qed.

End Modes.

(** *** On AES, with the key of FIPS-197 *)

Definition fips_aes : cipher_t := Cipher (aes_interface (tables_config true) true stale_key) fips_key.

#[export] Instance fips_aes_ok : BlockCipher fips_aes 16 (aes_E fips_key) (aes_D fips_key).
Proof. exact (aes_block_cipher true true stale_key fips_key fips_ctx_ok). Qed.

Lemma seqZ_block n : 0 ≤ n ≤ 256 → block_ok (Z.to_nat n) (seqZ 0 n).
Proof.
  intros Hn. split; [apply length_seqZ|]. apply Forall_forall. intros x [??]%elem_of_seqZ.
  unfold uint. lia.
Qed.

Lemma ecb_cbc_roundtrip_witness :
  ∃ ecb cbc, cipher_encrypt_ecb fips_aes (seqZ 0 32 ++ []) 32 (replicate 32 9 ++ [8]) = Some (32, ecb ++ [8]) ∧
    cipher_decrypt_ecb fips_aes (ecb ++ [8]) 32 (replicate 32 7 ++ [6]) = Some (32, seqZ 0 32 ++ [6]) ∧
    cipher_encrypt_cbc fips_aes (seqZ 0 16 ++ []) (seqZ 0 32 ++ []) 32 (replicate 32 9 ++ [8]) =
      Some (32, cbc ++ [8]) ∧
    cipher_decrypt_cbc fips_aes (seqZ 0 16 ++ []) (cbc ++ [8]) 32 (replicate 32 7 ++ [6]) =
      Some (32, seqZ 0 32 ++ [6]).
Proof.
  destruct (ecb_cbc_roundtrip fips_aes 16 (aes_E fips_key) (aes_D fips_key) (seqZ 0 16) [] (seqZ 0 32) []
    (replicate 32 9) [8] (replicate 32 7) [6]) as (H1 & H2 & H3 & H4 & _).
  - exact (seqZ_block 16 ltac:(lia)).
  - split; [exact (proj2 (seqZ_block 32 ltac:(lia)))|]. split; [discriminate|]. split; [reflexivity|].
    vm_compute. reflexivity.
  - reflexivity.
  - reflexivity.
  - eexists. eexists. split; [exact H1|]. split; [exact H2|]. split; [exact H3|exact H4].
Defined.
