(* ===== verification/CtrProof.v ===== *)
(** * Correctness of the helpers and of the counter mode

    The big-endian counter, the comparison in constant time, and CTR over ciphers
    with blocks of 16 bytes. *)

From S2P Require Import Prelude Bytes Buffers AesTables Aes AesProof Modes ModesProof.

(** ** The counter block *)

(** The counter block [ctr] with its last [L] bytes, as a big-endian number,
    advanced by [k] modulo [256^L]. *)
Definition ctr_at (L : nat) (ctr : list Z) (k : Z) : list Z :=
  take (16 - L) ctr ++ be_bytes L (be_value (drop (16 - L) ctr) + k).

Lemma be_bytes_mod m v k : be_bytes m (v mod 256 ^ Z.of_nat m + k) = be_bytes m (v + k).
Proof.
  rewrite <- (be_bytes_value (be_bytes m (v mod _ + k))), <- (be_bytes_value (be_bytes m (v + k)))
    by apply be_bytes_byte.
  by rewrite !be_bytes_length, !be_value_bytes, Zplus_mod_idemp_l.
Qed.

Lemma inc_ctr_loop_ok : ∀ lo pre post, Forall byte lo →
  inc_ctr_loop (length lo) (pre ++ lo ++ post) (Z.of_nat (length pre + length lo) - 1) =
    Some (pre ++ be_bytes (length lo) (be_value lo + 1) ++ post).
Proof.
  induction lo as [|x lo IH] using rev_ind; intros pre post Hlo; [done|].
  apply Forall_app in Hlo as [Hlo [Hx _]%Forall_cons]. unfold uint in Hx. change (2 ^ 8) with 256 in Hx.
  rewrite length_app, (Nat.add_comm (length lo)). cbn [length Nat.add inc_ctr_loop be_bytes].
  rewrite <- app_assoc. cbn [app]. rewrite app_assoc.
  rewrite (aget_mid (pre ++ lo)) by (rewrite length_app; lia). mred.
  rewrite aset_mid by (rewrite length_app; lia). mred. rewrite be_value_snoc.
  destruct (decide (x = 255)) as [->|Hne].
  - change (u8 (255 + 1)) with 0. cbn [Z.eqb negb].
    replace (be_value lo * 256 + 255 + 1) with ((be_value lo + 1) * 256) by lia.
    rewrite Z.div_mul, Z.mod_mul by lia.
    rewrite <- app_assoc. replace (Z.of_nat (length pre + S (length lo)) - 1 - 1)
      with (Z.of_nat (length pre + length lo) - 1) by lia.
    rewrite (IH pre (0 :: post)) by done. by rewrite <- app_assoc.
  - rewrite wrap_small by (unfold uint; lia). rewrite (proj2 (Z.eqb_neq _ _)) by lia. cbn [negb].
    rewrite <- Z.add_assoc, Z.div_add_l, (Z.div_small (x + 1)), Z.add_0_r by lia.
    rewrite be_bytes_value by done. rewrite (Z.add_comm _ (x + 1)), Z.mod_add, Z.mod_small by lia.
    by rewrite <- !app_assoc.
Qed.

Lemma inc_ctr_ok ctr L : block_ok 16 ctr → (L ≤ 16)%nat →
  crypto_block_inc_ctr ctr (Z.of_nat L) = Some (ctr_at L ctr 1).
Proof.
  intros [Hl Hb] HL. unfold crypto_block_inc_ctr, ctr_at. rewrite Nat2Z.id.
  pose proof (inc_ctr_loop_ok (drop (16 - L) ctr) (take (16 - L) ctr) []) as H.
  rewrite !app_nil_r, take_drop, length_drop, length_take, Hl in H.
  replace (16 - (16 - L))%nat with L in H by lia.
  replace (Z.of_nat ((16 - L) `min` 16 + L) - 1) with 15 in H by lia.
  apply H. by apply Forall_drop.
Qed.

Lemma ctr_at_ok L ctr k : block_ok 16 ctr → (L ≤ 16)%nat → block_ok 16 (ctr_at L ctr k).
Proof.
  intros [Hl Hb] HL. split.
  - unfold ctr_at. rewrite length_app, be_bytes_length, length_take. lia.
  - apply Forall_app. split; [by apply Forall_take|apply be_bytes_byte].
Qed.

Lemma ctr_at_0 L ctr : block_ok 16 ctr → (L ≤ 16)%nat → ctr_at L ctr 0 = ctr.
Proof.
  intros [Hl Hb] HL. unfold ctr_at. rewrite Z.add_0_r.
  replace L with (length (drop (16 - L) ctr)) at 2 by (rewrite length_drop; lia).
  rewrite be_bytes_value by (by apply Forall_drop). apply take_drop.
Qed.

Lemma ctr_at_add L ctr j k : block_ok 16 ctr → (L ≤ 16)%nat →
  ctr_at L (ctr_at L ctr j) k = ctr_at L ctr (j + k).
Proof.
  intros [Hl Hb] HL. unfold ctr_at at 1.
  assert (length (take (16 - L) ctr) = (16 - L)%nat) as Ht by (rewrite length_take; lia).
  unfold ctr_at at 1 2. rewrite take_app_length', drop_app_length' by done.
  unfold ctr_at. f_equal. rewrite be_value_bytes, be_bytes_mod. f_equal. lia.
Qed.

(** ** The comparison *)

Lemma smear_spec d : byte d → u8 (smear (smear (smear d 1) 2) 4 + 1) = b2z (d =? 0).
Proof.
  intros Hd. apply Z.eqb_eq.
  pose proof (byte_check (λ d, u8 (smear (smear (smear d 1) 2) 4 + 1) =? b2z (d =? 0)) ltac:(vm_compute; reflexivity)
    d Hd) as H. by cbn beta in H.
Qed.

Lemma lor_zero a b : Z.lor a b = 0 ↔ a = 0 ∧ b = 0.
Proof. apply Z.lor_eq_0_iff. Qed.

Lemma equals_loop_ok : ∀ u v pa qa pb qb d, length u = length v → length pa = length pb →
  Forall byte u → Forall byte v → byte d →
  ∃ r, equals_loop (length u) (pa ++ u ++ qa) (pb ++ v ++ qb) (Z.of_nat (length pa)) d = Some r ∧
    byte r ∧ (r = 0 ↔ d = 0 ∧ u = v).
Proof.
  induction u as [|x u IH]; intros [|y v] pa qa pb qb d Hl Hp Hu Hv Hd; try done.
  { exists d. split; [done|]. split; [done|]. tauto. }
  apply Forall_cons in Hu as [Hx Hu]. apply Forall_cons in Hv as [Hy Hv]. injection Hl as Hl.
  cbn [length equals_loop app]. rewrite (aget_mid pa) by reflexivity. mred. rewrite (aget_mid pb) by lia. mred.
  destruct (IH v (pa ++ [x]) qa (pb ++ [y]) qb (Z.lor d (Z.lxor x y))) as (r & Hr & Hrb & Hr0); try done.
  { rewrite !length_app. simpl. lia. }
  { apply lor_range; [done|done|]. by apply lxor_range. }
  exists r. rewrite <- !app_assoc in Hr. cbn [app] in Hr. rewrite length_app in Hr. cbn [length] in Hr.
  replace (Z.of_nat (length pa) + 1) with (Z.of_nat (length pa + 1)) by lia. split; [done|].
  split; [done|]. rewrite Hr0, Z.lor_eq_0_iff, Z.lxor_eq_0_iff. naive_solver.
Qed.

Lemma equals_ok u v qa qb : length u = length v → Forall byte u → Forall byte v →
  crypto_equals (u ++ qa) (v ++ qb) (Z.of_nat (length u)) = Some (b2z (bool_decide (u = v))).
Proof.
  intros Hl Hu Hv. unfold crypto_equals. rewrite Nat2Z.id.
  destruct (equals_loop_ok u v [] qa [] qb 0) as (r & Hr & Hrb & Hr0); try done.
  cbn [app length] in Hr. change (Z.of_nat 0) with 0 in Hr. rewrite Hr. mred. rewrite smear_spec by done.
  do 2 f_equal. destruct (Z.eqb_spec r 0); case_bool_decide; naive_solver.
Qed.

(** ** CTR *)

Section Ctr.
Context (c : cipher_t) (E D : list Z → list Z) `{HC : !BlockCipher c 16 E D}.
(** The counter takes the last [L] bytes of the counter block. *)
Context (L : nat) (HL : (L ≤ 16)%nat).

(** Block [k] of the data is combined with the encryption of the counter at [i + k]. *)
Fixpoint ctr_enc (ctr : list Z) (i : Z) (bl : list (list Z)) : list (list Z) :=
  match bl with
  | [] => []
  | b :: bl => xor_bytes (E (ctr_at L ctr i)) b :: ctr_enc ctr (i + 1) bl
  end.

Lemma fill_stream sb pre b tail pre_out old otail :
  (length b ≤ length sb)%nat → length old = length b → length pre_out = length pre →
  fill (length b) 0 (Z.of_nat (length pre)) (xor_stream sb (pre ++ b ++ tail) (Z.of_nat (length pre)))
    (pre_out ++ old ++ otail) = Some (pre_out ++ xor_bytes sb b ++ otail).
Proof.
  intros Hb Hold Hpo. assert (length (xor_bytes sb b) = length b) as Hl by (rewrite xor_bytes_length; lia).
  apply fill_ok; [lia|lia|lia|]. intros k x (u & v & Hu & Hv & ->)%xor_bytes_lookup.
  unfold xor_stream. rewrite aget_nat, Hu. mred. rewrite <- Nat2Z.inj_add.
  by rewrite (aget_inside pre b tail k v Hv).
Qed.

Lemma ctr_iter fuel ctr i sb pre b tail pre_out old otail len :
  block_ok 16 ctr → length sb = 16%nat → (length b ≤ 16)%nat → length old = length b →
  length pre_out = length pre → input_size len (Z.of_nat (length pre)) 16 = Z.of_nat (length b) →
  ctr_loop (S fuel) c 16 (16 - Z.of_nat L) (ctr_at L ctr i) sb (pre ++ b ++ tail) len
    (pre_out ++ old ++ otail) (Z.of_nat (length pre)) =
  let offset := Z.of_nat (length (pre ++ b)) in
  let out := pre_out ++ xor_bytes (E (ctr_at L ctr i)) b ++ otail in
  if offset <? len
  then ctr_loop fuel c 16 (16 - Z.of_nat L) (ctr_at L ctr (i + 1)) (E (ctr_at L ctr i)) (pre ++ b ++ tail) len out offset
  else Some (i32 offset, ctr_at L ctr (i + 1), out).
Proof.
  intros Hctr Hsb Hb Hold Hpo Hin. cbn [ctr_loop].
  pose proof (ctr_at_ok L ctr i Hctr HL) as Hci. pose proof Hci as [Hcl _].
  pose proof (bc_enc_ok _ Hci) as [Hel _].
  pose proof (load_prefix (ctr_at L ctr i) []) as Hload. rewrite app_nil_r, Hcl in Hload.
  change (Z.of_nat 16) with 16 in Hload. rewrite Hload. mred. rewrite bc_encrypt by done. mred.
  pose proof (store_prefix sb (E (ctr_at L ctr i)) [] ltac:(lia)) as Hst. rewrite !app_nil_r in Hst.
  rewrite Hst. mred. cbn [Z.eqb Pos.eqb negb]. rewrite Hin, Nat2Z.id.
  rewrite fill_stream by lia. mred.
  replace (16 - (16 - Z.of_nat L)) with (Z.of_nat L) by lia.
  rewrite inc_ctr_ok by done. mred. rewrite ctr_at_add by done.
  rewrite length_app, Nat2Z.inj_add. done.
Qed.

Lemma ctr_loop_ok ctr : block_ok 16 ctr → ∀ data fuel pre post pre_out old post_out sb i,
  (length data < fuel)%nat → length pre_out = length pre → length old = length data → length sb = 16%nat →
  let len := Z.of_nat (length pre + length data) in
  ctr_loop fuel c 16 (16 - Z.of_nat L) (ctr_at L ctr i) sb (pre ++ data ++ post) len
    (pre_out ++ old ++ post_out) (Z.of_nat (length pre)) =
  Some (i32 len, ctr_at L ctr (i + Z.of_nat (length (blocks 16 data))),
        pre_out ++ concat (ctr_enc ctr i (blocks 16 data)) ++ post_out).
Proof.
  intros Hctr. refine (blocks_ind 16 _ ltac:(lia) _ _).
  - intros data Hd fuel pre post pre_out old post_out sb i Hfuel Hpo Hold Hsb len.
    destruct fuel as [|fuel]; [lia|]. rewrite ctr_iter; try done.
    2: { unfold input_size, len. rewrite (proj2 (Z.ltb_ge _ _)) by lia. rewrite wrap_small; [lia|unfold uint; lia]. }
    cbv zeta. rewrite (proj2 (Z.ltb_ge _ _)) by (unfold len; rewrite length_app; lia).
    rewrite blocks_last by lia. cbn [ctr_enc concat length]. rewrite app_nil_r.
    do 3 f_equal. unfold len. f_equal. rewrite length_app. lia.
  - intros b r Hb Hr IH fuel pre post pre_out old post_out sb i Hfuel Hpo Hold Hsb len.
    rewrite length_app in Hfuel, Hold. destruct fuel as [|fuel]; [lia|].
    assert (0 < length r)%nat as Hrl by (destruct r; [done|simpl; lia]).
    destruct (split_at old 16 ltac:(lia)) as (o1 & o2 & -> & Ho1). rewrite length_app in Hold.
    rewrite <- !app_assoc. rewrite ctr_iter; try done; try lia.
    2: { unfold input_size, len. rewrite length_app. rewrite (proj2 (Z.ltb_lt _ _)) by lia.
         rewrite wrap_small; [lia|unfold uint; lia]. }
    cbv zeta. rewrite (proj2 (Z.ltb_lt _ _)) by (unfold len; rewrite !length_app; lia).
    pose proof (bc_enc_ok _ (ctr_at_ok L ctr i Hctr HL)) as [Hel _].
    set (y := xor_bytes (E (ctr_at L ctr i)) b).
    assert (length y = 16%nat) as Hy by (unfold y; rewrite xor_bytes_length; lia).
    pose proof (IH fuel (pre ++ b) post (pre_out ++ y) o2 post_out (E (ctr_at L ctr i)) (i + 1)) as IH'.
    cbv zeta in IH'. rewrite <- !app_assoc in IH'.
    replace len with (Z.of_nat (length (pre ++ b) + length r)) by (unfold len; rewrite !length_app; lia).
    rewrite IH' by (rewrite ?length_app; lia).
    rewrite blocks_app by (done || lia). cbn [ctr_enc concat length]. fold y. rewrite <- !app_assoc.
    do 3 f_equal. f_equal. lia.
Qed.

Lemma ctr_blocks_ok ctr : block_ok 16 ctr → ∀ data i,
  ctr_enc ctr i (blocks 16 (concat (ctr_enc ctr i (blocks 16 data)))) = blocks 16 data ∧
  length (concat (ctr_enc ctr i (blocks 16 data))) = length data.
Proof.
  intros Hctr. refine (blocks_ind 16 _ ltac:(lia) _ _).
  - intros data Hd i. pose proof (bc_enc_ok _ (ctr_at_ok L ctr i Hctr HL)) as [Hel _].
    rewrite (blocks_last 16 data) by lia. cbn [ctr_enc concat]. rewrite app_nil_r.
    assert (length (xor_bytes (E (ctr_at L ctr i)) data) = length data) as Hl by (rewrite xor_bytes_length; lia).
    rewrite blocks_last by lia. cbn [ctr_enc]. by rewrite xor_bytes_cancel by lia.
  - intros b r Hb Hr IH i. pose proof (bc_enc_ok _ (ctr_at_ok L ctr i Hctr HL)) as [Hel _].
    rewrite (blocks_app 16 b r) by (done || lia). cbn [ctr_enc concat].
    destruct (IH (i + 1)) as [IH1 IH2].
    assert (length (xor_bytes (E (ctr_at L ctr i)) b) = 16%nat) as Hl by (rewrite xor_bytes_length; lia).
    rewrite blocks_app; [|lia|done|].
    + cbn [ctr_enc]. rewrite IH1, xor_bytes_cancel by lia. split; [done|]. rewrite !length_app. lia.
    + intros Hnil. apply (f_equal length) in Hnil. rewrite IH2 in Hnil. by destruct r.
Qed.

(** The key stream combined with the data. *)
Definition ctr_crypt (ctr data : list Z) : list Z := concat (ctr_enc ctr 0 (blocks 16 data)).

Lemma ctr_crypt_length ctr data : block_ok 16 ctr → length (ctr_crypt ctr data) = length data.
Proof. intros Hctr. by apply ctr_blocks_ok. Qed.

Lemma ctr_crypt_twice ctr data : block_ok 16 ctr → ctr_crypt ctr (ctr_crypt ctr data) = data.
Proof.
  intros Hctr. unfold ctr_crypt. destruct (ctr_blocks_ok ctr Hctr data 0) as [-> _].
  by apply concat_blocks; lia.
Qed.

Lemma encrypt_ctr_ok ctr data x old y : block_ok 16 ctr → length old = length data →
  Z.of_nat (length data) < 2 ^ 31 →
  cipher_encrypt_ctr c ctr (16 - Z.of_nat L) (data ++ x) (Z.of_nat (length data)) (old ++ y) =
    Some (Z.of_nat (length data), ctr_at L ctr (Z.of_nat (length (blocks 16 data))), ctr_crypt ctr data ++ y).
Proof.
  intros Hctr Hold Hlen. unfold cipher_encrypt_ctr. rewrite bc_size, Nat2Z.id. change (Z.of_nat 16) with 16.
  rewrite <- (ctr_at_0 L ctr Hctr HL) at 1.
  rewrite (ctr_loop_ok ctr Hctr data (S (length data)) [] x [] old y) by (done || lia).
  cbn [length Nat.add app]. by rewrite i32_length, Z.add_0_l.
Qed.

(** C34: CTR: data of any length, also none, is combined with the key stream of the
    counter blocks, whose last [16 - nonce_len] bytes count the blocks modulo their
    range; the counter is left at the next block.  The same call decrypts. *)
Theorem ctr_roundtrip ctr data x old y old2 y2 :
  block_ok 16 ctr → length old = length data → length old2 = length data →
  Z.of_nat (length data) < 2 ^ 31 →
  let len := Z.of_nat (length data) in
  let ctr' := ctr_at L ctr (Z.of_nat (length (blocks 16 data))) in
  cipher_encrypt_ctr c ctr (16 - Z.of_nat L) (data ++ x) len (old ++ y) = Some (len, ctr', ctr_crypt ctr data ++ y) ∧
  cipher_decrypt_ctr c ctr (16 - Z.of_nat L) (ctr_crypt ctr data ++ y) len (old2 ++ y2) =
    Some (len, ctr', data ++ y2).
Proof.
  intros Hctr Ho Ho2 Hlen len ctr'. split; [by apply encrypt_ctr_ok|].
  pose proof (ctr_crypt_length ctr data Hctr) as Hcl.
  unfold cipher_decrypt_ctr. unfold len, ctr'. rewrite <- Hcl.
  rewrite (encrypt_ctr_ok ctr (ctr_crypt ctr data) y old2 y2) by (done || lia).
  rewrite ctr_crypt_twice by done. do 3 f_equal.
  assert (∀ i, length (blocks 16 (ctr_crypt ctr data)) = length (ctr_enc ctr i (blocks 16 (ctr_crypt ctr data)))) as Hlc.
  { intros i. generalize (blocks 16 (ctr_crypt ctr data)) as bl. intros bl. revert i.
    induction bl as [|b bl IH]; intros i; [done|]. cbn [ctr_enc length]. by rewrite (IH (i + 1)). }
  rewrite (Hlc 0). unfold ctr_crypt. by rewrite (proj1 (ctr_blocks_ok ctr Hctr data 0)).
Qed.
End Ctr.

(** The 13 bytes of a nonce leave a counter of 3 bytes. *)
Lemma ctr_roundtrip_witness :
  ∃ ct ctr', cipher_encrypt_ctr fips_aes (replicate 16 255) (16 - Z.of_nat 3) (seqZ 0 20 ++ []) 20
      (replicate 20 9 ++ [8]) = Some (20, ctr', ct ++ [8]) ∧
    take 13 ctr' = replicate 13 255 ∧ drop 13 ctr' = [0; 0; 1] ∧
    cipher_decrypt_ctr fips_aes (replicate 16 255) (16 - Z.of_nat 3) (ct ++ [8]) 20 (replicate 20 7 ++ [6]) =
      Some (20, ctr', seqZ 0 20 ++ [6]).
Proof.
  destruct (ctr_roundtrip fips_aes (aes_E fips_key) (aes_D fips_key) 3 ltac:(lia) (replicate 16 255) (seqZ 0 20) []
    (replicate 20 9) [8] (replicate 20 7) [6]) as (H1 & H2).
  - split; [reflexivity|]. apply Forall_replicate. done.
  - reflexivity.
  - reflexivity.
  - vm_compute. reflexivity.
  - eexists. eexists. split; [exact H1|]. split; [vm_compute; reflexivity|].
    split; [vm_compute; reflexivity|exact H2].
Defined.
