(* ===== verification/Ccm.v ===== *)
(** * CCM (sys/crypto/modes/ccm.c)

    Counter mode with CBC-MAC, on top of the counter mode of [Modes].  The
    comparison of a [uint8_t] offset with a length of type [size_t] is modelled with
    its wrap-around: the loop of [ccm_compute_cbc_mac] is a step function, so that
    its failure to end on long inputs can be stated. *)

From S2P Require Import Prelude Bytes Buffers AesTables Aes Modes.

Definition CCM_ERR_INVALID_CBC_MAC : Z := -3.
Definition CCM_ERR_INVALID_DATA_LENGTH : Z := -3.
Definition CCM_ERR_INVALID_LENGTH_ENCODING : Z := -4.
Definition CCM_ERR_INVALID_MAC_LENGTH : Z := -5.

(** [sizeof(size_t)] on a 64-bit target. *)
Definition SIZEOF_SIZE_T : Z := 8.

(** ** The CBC-MAC *)

(** One iteration of the loop, on the offset and the [mac]: it goes on, or ends
    with a result. *)
Inductive mac_step_result := MacGoOn (offset : Z) (mac : list Z) | MacEnd (ret : Z) (mac : list Z).

Definition mac_step (cipher : cipher_t) (bs : Z) (input : list Z) (length offset : Z) (mac : list Z) :
    option mac_step_result :=
  let n := input_size length offset bs in
  mac ← fill (Z.to_nat n) 0 0 (xor_with 0 (λ i, aget input (offset + i))) mac;
  b ← load mac 0 bs;
  '(r, mac_enc) ← cipher_encrypt cipher b;
  if negb (r =? 1) then Some (MacEnd CIPHER_ERR_ENC_FAILED mac)
  else
    mac ← store mac 0 mac_enc;
    let offset := u8 (offset + n) in
    if offset <? length then Some (MacGoOn offset mac) else Some (MacEnd offset mac).

Fixpoint mac_loop (fuel : nat) (cipher : cipher_t) (bs : Z) (input : list Z) (length offset : Z) (mac : list Z) :
    option (Z * list Z) :=
  match fuel with
  | O => None
  | S fuel =>
      r ← mac_step cipher bs input length offset mac;
      match r with
      | MacGoOn offset mac => mac_loop fuel cipher bs input length offset mac
      | MacEnd ret mac => Some (ret, mac)
      end
  end.

(** The result and the [mac], whose 16 bytes are [iv] at first. *)
Definition ccm_compute_cbc_mac (cipher : cipher_t) (iv input : list Z) (length : Z) : option (Z * list Z) :=
  mac ← load iv 0 16;
  mac_loop (S (Z.to_nat length)) cipher (cipher_get_block_size cipher) input length 0 mac.

(** ** The first block *)

(** [for (i = 15; i > 16 - L; --i)]: the result is the rest of the length. *)
Fixpoint len_loop (fuel : nat) (X1 : list Z) (L i plaintext_len : Z) : option (list Z * Z) :=
  match fuel with
  | O => None
  | S fuel =>
      if 16 - L <? i then
        X1 ← aset X1 i (Z.land plaintext_len 0xff);
        len_loop fuel X1 L (u8 (i - 1)) (Z.shiftr plaintext_len 8)
      else Some (X1, plaintext_len)
  end.

Definition ccm_create_mac_iv (cipher : cipher_t) (auth_data_len M L : Z) (nonce : list Z)
    (nonce_len plaintext_len : Z) : option (Z * list Z) :=
  let X1 := replicate 16 0 in
  let M_ := u8 (Z.quot (M - 2) 2) in
  let L_ := u8 (L - 1) in
  X1 ← aset X1 0 (u8 (64 * b2z (0 <? auth_data_len) + 8 * M_ + L_));
  n ← load nonce 0 (Z.min nonce_len (15 - L));
  X1 ← store X1 1 n;
  '(X1, plaintext_len) ← len_loop 17 X1 L 15 plaintext_len;
  if 0 <? plaintext_len then Some (CIPHER_ERR_INVALID_LENGTH, X1)
  else
    b ← load X1 0 (cipher_get_block_size cipher);
    '(r, out) ← cipher_encrypt cipher b;
    X1 ← store X1 0 out;
    if negb (r =? 1) then Some (CIPHER_ERR_ENC_FAILED, X1) else Some (0, X1).

(** ** Additional data *)

Section Ccm.
(** The content of the uninitialised array [auth_data_encoded]. *)
Variable stale : list Z.

Definition ccm_compute_adata_mac (cipher : cipher_t) (auth_data : list Z) (auth_data_len : Z) (X1 : list Z) :
    option (Z * list Z) :=
  if 0 <? auth_data_len then
    if auth_data_len <=? 0xFEFF then
      e ← aset stale 1 (Z.land auth_data_len 0xFF);
      e ← aset e 0 (Z.land (Z.shiftr auth_data_len 8) 0xFF);
      a ← load auth_data 0 auth_data_len;
      e ← store e 2 a;
      '(len, X1) ← ccm_compute_cbc_mac cipher X1 e (auth_data_len + 2);
      if len <? 0 then Some (-1, X1) else Some (0, X1)
    else Some (-1, X1)
  else Some (0, X1).

Definition _fits_in_nbytes (value num_bytes : Z) : bool :=
  Z.shiftr value (8 * Z.min SIZEOF_SIZE_T num_bytes - 1) <=? 1.

(** The checks of the parameters. *)
Definition ccm_params (mac_length length_encoding input_len : Z) : option Z :=
  if negb (mac_length mod 2 =? 0) || (mac_length <? 4) || (16 <? mac_length)
  then Some CCM_ERR_INVALID_MAC_LENGTH
  else if (length_encoding <? 2) || (8 <? length_encoding) || negb (_fits_in_nbytes input_len length_encoding)
  then Some CCM_ERR_INVALID_LENGTH_ENCODING
  else None.

(** The counter block for the first stream block. *)
Definition ccm_counter (length_encoding : Z) (nonce : list Z) (nonce_len : Z) : option (list Z) :=
  c ← aset (replicate 16 0) 0 (u8 (length_encoding - 1));
  n ← load nonce 0 (Z.min (i32 nonce_len) (i32 (15 - length_encoding)));
  store c 1 n.

(** [mac[i] ^ stream_block[i]] *)
Definition xor_at (a : list Z) (o : Z) (stream_block : list Z) (_ : list Z) (i : Z) : option Z :=
  x ← aget a (o + i); y ← aget stream_block i; Some (Z.lxor x y).

(** The MAC over additional data and plaintext; a negative result is an error. *)
Definition ccm_mac (cipher : cipher_t) (auth_data : list Z) (auth_data_len mac_length length_encoding : Z)
    (nonce : list Z) (nonce_len : Z) (plain : list Z) (plain_len : Z) : option (Z * list Z) :=
  '(r, mac_iv) ← ccm_create_mac_iv cipher (u8 auth_data_len) mac_length length_encoding
                   nonce (u8 nonce_len) plain_len;
  if r <? 0 then Some (CCM_ERR_INVALID_DATA_LENGTH, replicate 16 0) else
  '(len, mac_iv) ← ccm_compute_adata_mac cipher auth_data auth_data_len mac_iv;
  if len <? 0 then Some (len, replicate 16 0) else
  ccm_compute_cbc_mac cipher mac_iv plain plain_len.

(** The first stream block, and the message in counter mode: the length (or a
    negative error), the stream block and the output. *)
Definition ccm_stream (cipher : cipher_t) (length_encoding : Z) (nonce : list Z) (nonce_len : Z)
    (input : list Z) (len : Z) (output : list Z) : option (Z * list Z * list Z) :=
  let bs := cipher_get_block_size cipher in
  nonce_counter ← ccm_counter length_encoding nonce nonce_len;
  '(r, nonce_counter, stream_block) ←
    cipher_encrypt_ctr cipher nonce_counter bs (replicate 16 0) bs (replicate 16 0);
  if r <? 0 then Some (r, stream_block, output) else
  nonce_counter ← crypto_block_inc_ctr nonce_counter (i32 (bs - nonce_len));
  '(r, _, output) ← cipher_encrypt_ctr cipher nonce_counter (u8 nonce_len) input len output;
  Some (r, stream_block, output).

Definition cipher_encrypt_ccm (cipher : cipher_t) (auth_data : list Z)
    (auth_data_len mac_length length_encoding : Z) (nonce : list Z) (nonce_len : Z)
    (input : list Z) (input_len : Z) (output : list Z) : option (Z * list Z) :=
  match ccm_params mac_length length_encoding input_len with
  | Some err => Some (err, output)
  | None =>
      '(len, mac) ← ccm_mac cipher auth_data auth_data_len mac_length length_encoding
                      nonce nonce_len input input_len;
      if len <? 0 then Some (len, output) else
      '(len, stream_block, output) ← ccm_stream cipher length_encoding nonce nonce_len input input_len output;
      if len <? 0 then Some (len, output) else
      output ← fill (Z.to_nat mac_length) 0 len (xor_at mac 0 stream_block) output;
      Some (len + mac_length, output)
  end.

Definition cipher_decrypt_ccm (cipher : cipher_t) (auth_data : list Z)
    (auth_data_len mac_length length_encoding : Z) (nonce : list Z) (nonce_len : Z)
    (input : list Z) (input_len : Z) (plain : list Z) : option (Z * list Z) :=
  match ccm_params mac_length length_encoding input_len with
  | Some err => Some (err, plain)
  | None =>
      let plain_len := u8 (input_len - mac_length) in
      '(len, stream_block, plain) ← ccm_stream cipher length_encoding nonce nonce_len input plain_len plain;
      if len <? 0 then Some (len, plain) else
      '(len, mac) ← ccm_mac cipher auth_data auth_data_len mac_length length_encoding
                      nonce nonce_len plain plain_len;
      if len <? 0 then Some (len, plain) else
      mac_recv ← fill (Z.to_nat mac_length) 0 0 (xor_at input len stream_block) (replicate 16 0);
      eq ← crypto_equals mac_recv mac mac_length;
      if eq =? 0 then Some (CCM_ERR_INVALID_CBC_MAC, plain) else Some (plain_len, plain)
  end.
End Ccm.
