(* ===== verification/CcmProof.v ===== *)
(** * Correctness of CCM

    CCM over ciphers with blocks of 16 bytes, for messages of less than 256 bytes;
    the CBC-MAC of longer ones never ends. *)

From S2P Require Import Prelude Bytes Buffers AesTables Aes AesProof Modes ModesProof CtrProof Ccm.

Section Ccm.
Context (c : cipher_t) (E D : list Z → list Z) `{HC : !BlockCipher c 16 E D}.

(** ** The CBC-MAC *)

(** A block, possibly short, added to the chaining value. *)
Definition xor_pad (mac b : list Z) : list Z :=
  xor_bytes (take (length b) mac) b ++ drop (length b) mac.

Definition cbc_mac (mac : list Z) (bl : list (list Z)) : list Z :=
  foldl (λ mac b, E (xor_pad mac b)) mac bl.

Lemma xor_pad_ok mac b : block_ok 16 mac → Forall byte b → (length b ≤ 16)%nat → block_ok 16 (xor_pad mac b).
Proof.
  intros [Hl Hm] Hb Hbl. unfold xor_pad. split.
  - rewrite length_app, xor_bytes_length, length_take, length_drop. lia.
  - apply Forall_app. split; [apply xor_bytes_ok; [by apply Forall_take|done]|by apply Forall_drop].
Qed.

(** One iteration of the loop. *)
Lemma mac_step_ok pre b tail len mac :
  block_ok 16 mac → Forall byte b → (length b ≤ 16)%nat →
  input_size len (Z.of_nat (length pre)) 16 = Z.of_nat (length b) →
  mac_step c 16 (pre ++ b ++ tail) len (Z.of_nat (length pre)) mac =
    let mac' := E (xor_pad mac b) in
    let offset := u8 (Z.of_nat (length pre) + Z.of_nat (length b)) in
    Some (if offset <? len then MacGoOn offset mac' else MacEnd offset mac').
Proof.
  intros Hmac Hb Hbl Hin. pose proof Hmac as [Hml _]. pose proof (xor_pad_ok mac b Hmac Hb Hbl) as Hx.
  pose proof Hx as [Hxl _]. pose proof (bc_enc_ok _ Hx) as [Hel _].
  unfold mac_step. rewrite Hin, Nat2Z.id.
  pose proof (fill_xor (λ i, aget (pre ++ b ++ tail) (Z.of_nat (length pre) + i)) []
    (take (length b) mac) b (drop (length b) mac)) as Hfill.
  cbn [app length] in Hfill. change (Z.of_nat 0) with 0 in Hfill.
  rewrite length_take, Hml, Nat.min_l, take_drop in Hfill by lia. rewrite Hfill.
  2: done.
  2: { intros k x Hk. rewrite <- Nat2Z.inj_add. by apply aget_inside. }
  mred. fold (xor_pad mac b).
  pose proof (load_prefix (xor_pad mac b) []) as Hload. rewrite app_nil_r, Hxl in Hload.
  change (Z.of_nat 16) with 16 in Hload. rewrite Hload. mred. rewrite bc_encrypt by done. mred.
  pose proof (store_prefix (xor_pad mac b) (E (xor_pad mac b)) [] ltac:(lia)) as Hst. rewrite !app_nil_r in Hst.
  cbn [Z.eqb Pos.eqb negb]. rewrite Hst. mred. by case_match.
Qed.

Lemma mac_loop_ok : ∀ data fuel pre post mac, Forall byte data → (length data < fuel)%nat → block_ok 16 mac →
  let len := Z.of_nat (length pre + length data) in len < 256 →
  mac_loop fuel c 16 (pre ++ data ++ post) len (Z.of_nat (length pre)) mac =
    Some (len, cbc_mac mac (blocks 16 data)).
Proof.
  refine (blocks_ind 16 _ ltac:(lia) _ _).
  - intros data Hd fuel pre post mac Hby Hfuel Hmac len Hlen. destruct fuel as [|fuel]; [lia|]. cbn [mac_loop].
    rewrite mac_step_ok; try done.
    2: { unfold input_size, len. rewrite (proj2 (Z.ltb_ge _ _)) by lia. rewrite wrap_small; [lia|unfold uint; lia]. }
    cbv zeta. rewrite wrap_small by (unfold uint; lia).
    rewrite (proj2 (Z.ltb_ge _ _)) by lia. mred. rewrite blocks_last by lia. cbn [cbc_mac foldl].
    do 2 f_equal. lia.
  - intros b r Hb Hr IH fuel pre post mac [Hby1 Hby2]%Forall_app Hfuel Hmac len Hlen.
    rewrite length_app in Hfuel. destruct fuel as [|fuel]; [lia|]. cbn [mac_loop].
    assert (0 < length r)%nat as Hrl by (destruct r; [done|simpl; lia]). unfold len in *. rewrite length_app in *.
    rewrite <- app_assoc. rewrite mac_step_ok; try done; try lia.
    2: { unfold input_size. rewrite (proj2 (Z.ltb_lt _ _)) by lia. rewrite wrap_small; [lia|unfold uint; lia]. }
    cbv zeta. rewrite wrap_small by (unfold uint; lia).
    rewrite (proj2 (Z.ltb_lt _ _)) by lia. mred. rewrite blocks_app by (done || lia). cbn [cbc_mac foldl].
    fold (cbc_mac (E (xor_pad mac b)) (blocks 16 r)).
    assert (block_ok 16 (E (xor_pad mac b))) as Hm' by (apply bc_enc_ok, xor_pad_ok; [done|done|lia]).
    pose proof (IH fuel (pre ++ b) post (E (xor_pad mac b)) Hby2 ltac:(lia) Hm') as IH'. cbv zeta in IH'.
    rewrite length_app, <- app_assoc in IH'. rewrite <- Nat2Z.inj_add.
    replace (length pre + (length b + length r))%nat with (length pre + length b + length r)%nat by lia.
    apply IH'. lia.
Qed.

Lemma cbc_mac_ok bl : ∀ mac, block_ok 16 mac → Forall (λ b, Forall byte b ∧ (length b ≤ 16)%nat) bl →
  block_ok 16 (cbc_mac mac bl).
Proof.
  induction bl as [|b bl IH]; intros mac Hm Hbl; [done|]. apply Forall_cons in Hbl as [[Hb Hl] Hbl].
  cbn [cbc_mac foldl]. apply IH; [by apply bc_enc_ok, xor_pad_ok|done].
Qed.

Lemma blocks_short : ∀ data, Forall byte data → Forall (λ b, Forall byte b ∧ (length b ≤ 16)%nat) (blocks 16 data).
Proof.
  refine (blocks_ind 16 _ ltac:(lia) _ _).
  - intros l Hl Hby. rewrite blocks_last by lia. by constructor; [|constructor].
  - intros b r Hb Hr IH [Hb1 Hb2]%Forall_app. rewrite blocks_app by (done || lia).
    constructor; [split; [done|lia]|by apply IH].
Qed.

Lemma compute_cbc_mac_ok iv data post : block_ok 16 iv → Forall byte data → Z.of_nat (length data) < 256 →
  ccm_compute_cbc_mac c iv (data ++ post) (Z.of_nat (length data)) =
    Some (Z.of_nat (length data), cbc_mac iv (blocks 16 data)).
Proof.
  intros Hiv Hd Hlen. pose proof Hiv as [Hil _]. unfold ccm_compute_cbc_mac.
  pose proof (load_prefix iv []) as Hload. rewrite app_nil_r, Hil in Hload.
  change (Z.of_nat 16) with 16 in Hload. rewrite Hload. mred.
  rewrite bc_size. change (Z.of_nat 16) with 16. rewrite Nat2Z.id.
  apply (mac_loop_ok data (S (length data)) [] post iv); try done. lia.
Qed.

(** *** Long inputs *)

(** The state after [k] iterations. *)
Fixpoint mac_iter (k : nat) (input : list Z) (len : Z) (mac : list Z) : option mac_step_result :=
  match k with
  | O => Some (MacGoOn 0 mac)
  | S k => r ← mac_iter k input len mac;
           match r with
           | MacGoOn offset mac => mac_step c (cipher_get_block_size c) input len offset mac
           | MacEnd ret mac => Some (MacEnd ret mac)
           end
  end.

Lemma mac_step_long data mac o : Forall byte data → 256 ≤ Z.of_nat (length data) → block_ok 16 mac → 0 ≤ o < 16 →
  ∃ mac', block_ok 16 mac' ∧
    mac_step c (cipher_get_block_size c) data (Z.of_nat (length data)) (16 * o) mac =
      Some (MacGoOn (16 * ((o + 1) mod 16)) mac').
Proof.
  intros Hd Hlen Hmac Ho. rewrite bc_size. change (Z.of_nat 16) with 16.
  destruct (split_at data (Z.to_nat (16 * o)) ltac:(lia)) as (pre & r & Heq & Hpre).
  assert (length data = length pre + length r)%nat as Hld by (by rewrite Heq, length_app).
  destruct (split_at r 16 ltac:(lia)) as (b & tail & -> & Hb).
  rewrite Heq in Hd. apply Forall_app in Hd as [_ [Hbb _]%Forall_app].
  exists (E (xor_pad mac b)). split; [apply bc_enc_ok, xor_pad_ok; [done|done|lia]|].
  pose proof (mac_step_ok pre b tail (Z.of_nat (length data)) mac Hmac Hbb ltac:(lia)) as Hstep.
  replace (16 * o) with (Z.of_nat (length pre)) by lia. rewrite Heq at 1. rewrite Hstep.
  - cbv zeta. rewrite Hb, Hpre. change (Z.of_nat 16) with 16. rewrite Z2Nat.id by lia.
    assert (u8 (16 * o + 16) = 16 * ((o + 1) mod 16)) as ->.
    { unfold wrap. change (2 ^ 8) with (16 * 16).
      replace (16 * o + 16) with (16 * (o + 1)) by lia. by rewrite Z.mul_mod_distr_l. }
    pose proof (Z.mod_pos_bound (o + 1) 16). by rewrite (proj2 (Z.ltb_lt _ _)) by lia.
  - unfold input_size. rewrite Hb. destruct (Z.ltb_spec 16 (Z.of_nat (length data) - Z.of_nat (length pre))).
    + done.
    + rewrite wrap_small; [lia|unfold uint; lia].
Qed.

(** C36: The CBC-MAC of 256 or more bytes never ends: after any number of iterations
    the 8-bit offset is a multiple of 16 below 256, never the length, so that no
    amount of fuel gives a result. *)
Theorem ccm_mac_diverges iv data :
  block_ok 16 iv → Forall byte data → 256 ≤ Z.of_nat (length data) →
  (∀ k, ∃ mac, block_ok 16 mac ∧
     mac_iter k data (Z.of_nat (length data)) iv = Some (MacGoOn (16 * (Z.of_nat k mod 16)) mac)) ∧
  ∀ fuel mac offset, block_ok 16 mac → 0 ≤ offset < 16 →
    mac_loop fuel c (cipher_get_block_size c) data (Z.of_nat (length data)) (16 * offset) mac = None.
Proof.
  intros Hiv Hd Hlen. split.
  - induction k as [|k (mac & Hmac & Hk)]; [by exists iv|]. cbn [mac_iter]. rewrite Hk. mred.
    destruct (mac_step_long data mac (Z.of_nat k mod 16) Hd Hlen Hmac) as (mac' & Hm' & ->);
      [apply Z.mod_pos_bound; lia|].
    exists mac'. split; [done|]. rewrite Zplus_mod_idemp_l. do 4 f_equal. lia.
  - induction fuel as [|fuel IH]; intros mac o Hmac Ho; [done|]. cbn [mac_loop].
    destruct (mac_step_long data mac o Hd Hlen Hmac Ho) as (mac' & Hm' & ->). mred.
    apply IH; [done|]. apply Z.mod_pos_bound. lia.
Qed.

(** ** The first block *)

Lemma land_ff x : Z.land x 0xff = x mod 256.
Proof. apply (land_mask 8). lia. Qed.

Lemma shiftr8 x : Z.shiftr x 8 = x / 256.
Proof. by rewrite Z.shiftr_div_pow2 by lia. Qed.

(** The length field is written from its end. *)
Lemma len_loop_ok L : 2 ≤ L ≤ 8 → ∀ lo fuel pre post p, (length lo < fuel)%nat →
  Z.of_nat (length pre) = 17 - L → (length lo ≤ 15)%nat → 0 ≤ p →
  len_loop fuel (pre ++ lo ++ post) L (Z.of_nat (length pre + length lo) - 1) p =
    Some (pre ++ be_bytes (length lo) p ++ post, p / 256 ^ Z.of_nat (length lo)).
Proof.
  intros HL. induction lo as [|x lo IH] using rev_ind; intros fuel pre post p Hfuel Hpre Hlo Hp;
    (destruct fuel as [|fuel]; [lia|]); cbn [len_loop].
  { cbn [length]. rewrite (proj2 (Z.ltb_ge _ _)) by lia. by rewrite Z.div_1_r. }
  rewrite length_app in *. cbn [length] in *. rewrite (proj2 (Z.ltb_lt _ _)) by lia.
  rewrite <- app_assoc. cbn [app]. rewrite app_assoc.
  rewrite aset_mid by (rewrite length_app; lia). mred. rewrite land_ff, shiftr8, <- app_assoc.
  rewrite wrap_small by (unfold uint; lia).
  replace (Z.of_nat (length pre + (length lo + 1)) - 1 - 1) with (Z.of_nat (length pre + length lo) - 1) by lia.
  rewrite IH by (first [lia|by apply Z.div_pos; lia]).
  rewrite Nat.add_1_r. cbn [be_bytes]. rewrite <- app_assoc. cbn [app].
  rewrite Z.div_div by (first [lia|apply Z.pow_pos_nonneg; lia]).
  by rewrite Nat2Z.inj_succ, Z.pow_succ_r by lia.
Qed.

(** The part of the nonce that is used. *)
Definition ccm_nonce (L : Z) (nonce : list Z) (nonce_len : Z) : list Z :=
  take (Z.to_nat (Z.min nonce_len (15 - L))) nonce.

Definition padded (m : nat) (l : list Z) : list Z := l ++ replicate (m - length l) 0.

(** [B_0] and the counter block [A_0] of RFC 3610. *)
Definition ccm_b0 (adata : bool) (M L : Z) (N : list Z) (plain_len : Z) : list Z :=
  (64 * b2z adata + 8 * ((M - 2) / 2) + (L - 1)) ::
  padded (Z.to_nat (15 - L)) N ++ be_bytes (Z.to_nat L) plain_len.

Definition ccm_a0 (L : Z) (N : list Z) : list Z := (L - 1) :: padded 15 N.

(** Parameters the functions accept, for a message of [plain_len] bytes. *)
Record ccm_ok (M L : Z) (nonce : list Z) (nonce_len plain_len adata_len : Z) : Prop := {
  co_mac : M mod 2 = 0 ∧ 4 ≤ M ≤ 16;
  co_len : 2 ≤ L ≤ 8;
  co_nonce : 0 ≤ nonce_len ≤ 16 ∧ Z.min nonce_len (15 - L) ≤ Z.of_nat (length nonce);
  co_nonce_bytes : Forall byte nonce;
  co_plain : 0 ≤ plain_len < 256;
  co_adata : 0 ≤ adata_len ≤ 24
}.

Lemma store_over o pre old bs post : o = Z.of_nat (length pre) → length old = length bs →
  store (pre ++ old ++ post) o bs = Some (pre ++ bs ++ post).
Proof. intros ->. apply store_mid. Qed.

Lemma ccm_nonce_load L nonce nonce_len : 0 ≤ Z.min nonce_len (15 - L) ≤ Z.of_nat (length nonce) →
  load nonce 0 (Z.min nonce_len (15 - L)) = Some (ccm_nonce L nonce nonce_len) ∧
  Z.of_nat (length (ccm_nonce L nonce nonce_len)) = Z.min nonce_len (15 - L).
Proof.
  intros Hn. set (k := Z.min nonce_len (15 - L)) in *. unfold ccm_nonce. fold k.
  split; [|rewrite length_take; lia]. unfold load. rewrite Z.add_0_l.
  repeat (rewrite (proj2 (Z.leb_le _ _)) by lia). done.
Qed.

Section Params.
Context (M L : Z) (nonce : list Z) (nonce_len plain_len adata_len : Z).
Context (Hok : ccm_ok M L nonce nonce_len plain_len adata_len).

#[local] Abbreviation N := (ccm_nonce L nonce nonce_len).

Lemma ccm_nonce_ok : load nonce 0 (Z.min nonce_len (15 - L)) = Some N ∧
  Z.of_nat (length N) = Z.min nonce_len (15 - L) ∧ Forall byte N.
Proof.
  destruct Hok as [_ HL [Hn1 Hn2] Hby _ _].
  destruct (ccm_nonce_load L nonce nonce_len) as [H1 H2]; [lia|]. split; [done|]. split; [done|].
  by apply Forall_take.
Qed.

Lemma padded_length m l : (length l ≤ m)%nat → length (padded m l) = m.
Proof. intros Hl. unfold padded. rewrite length_app, length_replicate. lia. Qed.

Lemma padded_bytes m l : Forall byte l → Forall byte (padded m l).
Proof. intros Hl. apply Forall_app. split; [done|]. apply Forall_replicate. done. Qed.

Lemma ccm_b0_ok adata : block_ok 16 (ccm_b0 adata M L N plain_len).
Proof.
  destruct ccm_nonce_ok as (_ & Hl & Hb). destruct Hok as [[Hm1 Hm2] HL _ _ _ _]. split.
  - cbn [length ccm_b0]. rewrite length_app, padded_length, be_bytes_length by lia. lia.
  - constructor.
    + assert (1 ≤ (M - 2) / 2 ≤ 7) by (split; [apply Z.div_le_lower_bound|apply Z.div_le_upper_bound]; lia).
      unfold uint. destruct adata; simpl b2z; lia.
    + apply Forall_app. split; [by apply padded_bytes|apply be_bytes_byte].
Qed.

Lemma ccm_a0_ok : block_ok 16 (ccm_a0 L N).
Proof.
  destruct ccm_nonce_ok as (_ & Hl & Hb). destruct Hok as [_ HL _ _ _ _]. split.
  - cbn [length ccm_a0]. rewrite padded_length by lia. done.
  - constructor; [unfold uint; lia|by apply padded_bytes].
Qed.

(** The zeros after the stored part of a nonce. *)
Lemma store_nonce x : store (x :: replicate 15 0) 1 N = Some (x :: padded 15 N).
Proof.
  destruct ccm_nonce_ok as (_ & Hl & _). destruct Hok as [_ HL _ _ _ _].
  replace (replicate 15 0) with (replicate (length N) 0 ++ replicate (15 - length N) 0)
    by (rewrite <- replicate_add; f_equal; lia).
  apply (store_over 1 [x] (replicate (length N) 0) N); [done|apply length_replicate].
Qed.

Lemma padded_split : padded 15 N = padded (Z.to_nat (15 - L)) N ++ [0] ++ replicate (Z.to_nat (L - 1)) 0.
Proof.
  destruct ccm_nonce_ok as (_ & Hl & _). destruct Hok as [_ HL _ _ _ _].
  unfold padded. rewrite <- app_assoc. f_equal. change [0] with (replicate 1 0).
  rewrite <- !replicate_add. f_equal. lia.
Qed.

Lemma be_bytes_small m v : 0 ≤ v < 256 ^ Z.of_nat m → be_bytes (S m) v = 0 :: be_bytes m v.
Proof.
  revert v. induction m as [|m IH]; intros v Hv.
  - cbn [be_bytes app]. change (256 ^ Z.of_nat 0) with 1 in Hv. by replace v with 0 by lia.
  - change (be_bytes (S (S m)) v) with (be_bytes (S m) (v / 256) ++ [v mod 256]).
    rewrite Nat2Z.inj_succ, Z.pow_succ_r in Hv by lia.
    rewrite IH; [done|]. split; [apply Z.div_pos; lia|apply Z.div_lt_upper_bound; lia].
Qed.

Lemma create_mac_iv_ok alen : uint 8 alen →
  ccm_create_mac_iv c alen M L nonce (u8 nonce_len) plain_len =
    Some (0, E (ccm_b0 (0 <? alen) M L N plain_len)).
Proof.
  intros Ha. destruct ccm_nonce_ok as (Hload & Hl & Hb). pose proof (ccm_b0_ok (0 <? alen)) as Hb0.
  pose proof Hok as [[Hm1 Hm2] HL [Hn _] _ Hp _]. unfold ccm_create_mac_iv.
  assert (u8 nonce_len = nonce_len) as -> by (apply wrap_small; unfold uint; lia).
  assert (1 ≤ (M - 2) / 2 ≤ 7) as Hq by (split; [apply Z.div_le_lower_bound|apply Z.div_le_upper_bound]; lia).
  rewrite Z.quot_div_nonneg by lia.
  rewrite (wrap_small 8 ((M - 2) / 2)), (wrap_small 8 (L - 1)) by (unfold uint; lia).
  change (replicate 16 0) with ([] ++ 0 :: replicate 15 0). rewrite aset_mid by done. mred. cbn [app].
  rewrite Hload. mred. rewrite wrap_small.
  2: { unfold uint. destruct (0 <? alen); simpl b2z; lia. }
  set (x := 64 * _ + _ + _). rewrite store_nonce. mred. rewrite padded_split.
  set (P := padded (Z.to_nat (15 - L)) N).
  assert (length P = Z.to_nat (15 - L)) as HP by (apply padded_length; lia).
  pose proof (len_loop_ok L HL (replicate (Z.to_nat (L - 1)) 0) 17 (x :: P ++ [0]) [] plain_len) as Hloop.
  cbn [length app] in Hloop. rewrite length_app, length_replicate, HP in Hloop. cbn [length] in Hloop.
  replace (Z.of_nat (S (Z.to_nat (15 - L) + 1) + Z.to_nat (L - 1)) - 1) with 15 in Hloop by lia.
  rewrite !app_nil_r, <- app_assoc in Hloop. rewrite Hloop by lia. mred.
  assert (256 ^ 1 ≤ 256 ^ Z.of_nat (Z.to_nat (L - 1))) as Hpow by (apply Z.pow_le_mono_r; lia).
  change (256 ^ 1) with 256 in Hpow.
  rewrite Z.div_small by lia. change (0 <? 0) with false. cbn iota.
  assert (x :: (P ++ [0]) ++ be_bytes (Z.to_nat (L - 1)) plain_len = ccm_b0 (0 <? alen) M L N plain_len) as Heq.
  { unfold ccm_b0. fold x P. rewrite <- app_assoc. do 2 f_equal. cbn [app].
    rewrite <- be_bytes_small by lia. f_equal. lia. }
  rewrite Heq. pose proof Hb0 as [Hb0l _]. rewrite bc_size.
  pose proof (load_prefix (ccm_b0 (0 <? alen) M L N plain_len) []) as Hld. rewrite app_nil_r, Hb0l in Hld.
  rewrite Hld. mred. rewrite bc_encrypt by done. mred.
  pose proof (bc_enc_ok _ Hb0) as [Hel _].
  pose proof (store_prefix (ccm_b0 (0 <? alen) M L N plain_len) (E (ccm_b0 (0 <? alen) M L N plain_len)) []
    ltac:(lia)) as Hst. rewrite !app_nil_r in Hst. rewrite Hst. done.
Qed.


(** ** The MAC *)

(** The content of the uninitialised array [auth_data_encoded]. *)
Context (stale : list Z) (Hstale : length stale = 26%nat).

(** The chaining value after the additional data, preceded by its length. *)
Definition adata_mac (X1 adata : list Z) : list Z :=
  match adata with
  | [] => X1
  | _ => cbc_mac X1 (blocks 16 (be_bytes 2 (Z.of_nat (length adata)) ++ adata))
  end.

Lemma adata_mac_ok X1 adata : block_ok 16 X1 → Forall byte adata → block_ok 16 (adata_mac X1 adata).
Proof.
  intros HX Ha. destruct adata as [|a adata]; [done|]. apply cbc_mac_ok; [done|]. apply blocks_short.
  apply Forall_app. split; [apply be_bytes_byte|done].
Qed.

Lemma compute_adata_mac_ok X1 adata rest : block_ok 16 X1 → Forall byte adata → (length adata ≤ 24)%nat →
  ccm_compute_adata_mac stale c (adata ++ rest) (Z.of_nat (length adata)) X1 = Some (0, adata_mac X1 adata).
Proof.
  intros HX Ha Hl. unfold ccm_compute_adata_mac, adata_mac.
  destruct adata as [|a0 adata0]; [done|]. set (adata := a0 :: adata0) in *.
  assert (0 < length adata)%nat by (simpl; lia).
  rewrite (proj2 (Z.ltb_lt _ _)), (proj2 (Z.leb_le _ _)) by lia.
  destruct stale as [|s0 [|s1 st]]; [done|done|]. cbn [length] in Hstale.
  rewrite (aset_mid [s0] s1 _ st) by done. mred. cbn [app].
  match goal with |- context [aset (s0 :: ?l) 0 ?v] =>
    pose proof (aset_mid [] s0 v l 0 eq_refl) as Hset end.
  cbn [app] in Hset. rewrite Hset. mred. clear Hset.
  rewrite land_ff, shiftr8, land_ff.
  rewrite load_prefix. mred.
  destruct (split_at st (length adata) ltac:(lia)) as (old & post & -> & Hold).
  match goal with |- context [store (?x :: ?y :: _)] =>
    pose proof (store_over 2 [x; y] old adata post eq_refl Hold) as Hst;
    change [x; y] with (be_bytes 2 (Z.of_nat (length adata))) in Hst;
    change (x :: y :: old ++ post) with (be_bytes 2 (Z.of_nat (length adata)) ++ old ++ post)
  end.
  set (e := be_bytes 2 (Z.of_nat (length adata))) in *. rewrite Hst, app_assoc. mred. clear Hst.
  replace (Z.of_nat (length adata) + 2) with (Z.of_nat (length (e ++ adata)))
    by (rewrite length_app; unfold e; rewrite be_bytes_length; lia).
  rewrite compute_cbc_mac_ok; [|done| |].
  - mred. by rewrite (proj2 (Z.ltb_ge _ _)) by lia.
  - apply Forall_app. split; [apply be_bytes_byte|done].
  - rewrite length_app. unfold e. rewrite be_bytes_length. lia.
Qed.

(** The authentication value of additional data and a plaintext, 16 bytes. *)
Definition ccm_t (adata plain : list Z) : list Z :=
  cbc_mac (adata_mac (E (ccm_b0 (0 <? Z.of_nat (length adata)) M L N (Z.of_nat (length plain)))) adata)
    (blocks 16 plain).
End Params.

Section Message.
Context (M L : Z) (nonce : list Z) (nonce_len : Z) (adata plain : list Z).
Context (stale : list Z) (Hstale : length stale = 26%nat).
Context (Hok : ccm_ok M L nonce nonce_len (Z.of_nat (length plain)) (Z.of_nat (length adata))).
Context (Hadata : Forall byte adata) (Hplain : Forall byte plain).

#[local] Abbreviation N := (ccm_nonce L nonce nonce_len).
#[local] Abbreviation len := (Z.of_nat (length plain)).
#[local] Abbreviation T := (ccm_t M L nonce nonce_len adata plain).

Lemma ccm_b0_mac_ok :
  block_ok 16 (adata_mac (E (ccm_b0 (0 <? Z.of_nat (length adata)) M L N len)) adata).
Proof. apply adata_mac_ok; [|done]. apply bc_enc_ok. by eapply ccm_b0_ok. Qed.

Lemma ccm_t_ok : block_ok 16 T.
Proof. apply cbc_mac_ok; [apply ccm_b0_mac_ok|by apply blocks_short]. Qed.

Lemma ccm_mac_ok arest prest :
  ccm_mac stale c (adata ++ arest) (Z.of_nat (length adata)) M L nonce nonce_len (plain ++ prest) len =
    Some (len, T).
Proof.
  pose proof Hok as [_ _ _ _ Hp Ha]. unfold ccm_mac.
  assert (u8 (Z.of_nat (length adata)) = Z.of_nat (length adata)) as -> by (apply wrap_small; unfold uint; lia).
  rewrite (create_mac_iv_ok M L nonce nonce_len len _ Hok) by (unfold uint; lia). mred.
  change (0 <? 0) with false. cbn iota.
  rewrite compute_adata_mac_ok; [|done|by eapply bc_enc_ok, ccm_b0_ok|done|lia].
  mred. change (0 <? 0) with false. cbn iota.
  apply compute_cbc_mac_ok; [apply ccm_b0_mac_ok|done|lia].
Qed.

(** ** The key stream *)

Definition counter_bytes : nat := Z.to_nat (16 - nonce_len).

(** The first stream block, and the counter block of the message. *)
Definition ccm_s0 : list Z := E (ccm_a0 L N).
Definition ccm_ctr : list Z := ctr_at counter_bytes (ccm_a0 L N) 1.

Lemma counter_bytes_le : (counter_bytes ≤ 16)%nat.
Proof. unfold counter_bytes. pose proof (co_nonce _ _ _ _ _ _ Hok). lia. Qed.

Lemma ccm_ctr_ok : block_ok 16 ccm_ctr.
Proof. apply ctr_at_ok; [by eapply ccm_a0_ok|apply counter_bytes_le]. Qed.

Lemma ccm_stream_ok data x old y :
  Z.of_nat (length data) < 256 → length old = length data →
  ccm_stream c L nonce nonce_len (data ++ x) (Z.of_nat (length data)) (old ++ y) =
    Some (Z.of_nat (length data), ccm_s0, ctr_crypt E counter_bytes ccm_ctr data ++ y).
Proof.
  intros Hd Hold. pose proof Hok as [_ HL [Hn1 Hn2] _ _ _].
  pose proof (ccm_a0_ok M L nonce nonce_len len _ Hok) as Ha0.
  destruct (ccm_nonce_ok M L nonce nonce_len len _ Hok) as (Hload & _).
  unfold ccm_stream, ccm_counter. rewrite bc_size. change (Z.of_nat 16) with 16.
  pose proof (aset_mid [] 0 (u8 (L - 1)) (replicate 15 0) 0 eq_refl) as Hset. cbn [app] in Hset.
  change (0 :: replicate 15 0) with (replicate 16 0) in Hset. rewrite Hset. mred.
  rewrite (wrap_small 8 (L - 1)) by (unfold uint; lia).
  rewrite (swrap_small 32 nonce_len), (swrap_small 32 (15 - L)) by lia. rewrite Hload. mred.
  rewrite (store_nonce M L nonce nonce_len len _ Hok). mred. fold (ccm_a0 L N).
  pose proof (encrypt_ctr_ok c E D 0 ltac:(lia) (ccm_a0 L N) (replicate 16 0) [] (replicate 16 0) [] Ha0 eq_refl
    ltac:(done)) as Hfirst.
  rewrite !app_nil_r in Hfirst. change (16 - Z.of_nat 0) with 16 in Hfirst.
  change (Z.of_nat (length (replicate 16 0))) with 16 in Hfirst. rewrite Hfirst. mred.
  change (16 <? 0) with false. cbn iota. rewrite (blocks_last 16 (replicate 16 0)) by (simpl; lia).
  assert (ctr_at 0 (ccm_a0 L N) (Z.of_nat (length [replicate 16 0])) = ccm_a0 L N) as ->.
  { unfold ctr_at. rewrite take_ge by (destruct Ha0; lia). apply app_nil_r. }
  rewrite (swrap_small 32 (16 - nonce_len)) by lia.
  replace (16 - nonce_len) with (Z.of_nat counter_bytes) by (unfold counter_bytes; lia).
  rewrite inc_ctr_ok by (done || apply counter_bytes_le). mred. fold ccm_ctr.
  rewrite (wrap_small 8 nonce_len) by (unfold uint; lia).
  replace nonce_len with (16 - Z.of_nat counter_bytes) at 1 by (unfold counter_bytes; lia).
  rewrite (encrypt_ctr_ok c E D counter_bytes counter_bytes_le ccm_ctr data x old y ccm_ctr_ok Hold) by lia. mred.
  do 2 f_equal. f_equal. unfold ctr_crypt. rewrite (blocks_last 16 (replicate 16 0)) by (simpl; lia).
  cbn [ctr_enc concat]. rewrite app_nil_r. unfold ccm_s0.
  rewrite ctr_at_0 by (done || lia). apply xor_bytes_zero. destruct (bc_enc_ok _ Ha0). lia.
Qed.

(** The encrypted authentication value. *)
Definition ccm_tag : list Z := xor_bytes (take (Z.to_nat M) T) (take (Z.to_nat M) ccm_s0).

Lemma ccm_s0_ok : block_ok 16 ccm_s0.
Proof. apply bc_enc_ok. by eapply ccm_a0_ok. Qed.

Lemma ccm_tag_length : length ccm_tag = Z.to_nat M.
Proof.
  unfold ccm_tag. rewrite xor_bytes_length, !length_take. pose proof ccm_t_ok as [-> _]. pose proof ccm_s0_ok as [-> _].
  pose proof (co_mac _ _ _ _ _ _ Hok). lia.
Qed.

Lemma ccm_tag_bytes : Forall byte ccm_tag.
Proof.
  apply xor_bytes_ok; apply Forall_take; [apply (proj2 ccm_t_ok)|apply (proj2 ccm_s0_ok)].
Qed.

Lemma ccm_params_ok l : 0 ≤ l < 512 → ccm_params M L l = None.
Proof.
  intros Hl. pose proof Hok as [[Hm1 Hm2] HL _ _ _ _]. unfold ccm_params.
  rewrite Hm1, !(proj2 (Z.ltb_ge _ _)) by lia. cbn [Z.eqb negb orb].
  unfold _fits_in_nbytes, SIZEOF_SIZE_T.
  rewrite Z.shiftr_div_pow2, Z.div_small by (lia || (split; [lia|]; apply Z.lt_le_trans with (2 ^ 15); [lia|];
    apply Z.pow_le_mono_r; lia)).
  done.
Qed.

(** [M] bytes of two blocks combined, into an array at [o]. *)
Lemma fill_xor_at sb pre m post old : length m = Z.to_nat M → length sb = 16%nat → M ≤ 16 → 0 ≤ M →
  length old = Z.to_nat M →
  ∀ apre apost, fill (Z.to_nat M) 0 (Z.of_nat (length pre)) (xor_at (apre ++ m ++ apost) (Z.of_nat (length apre)) sb)
    (pre ++ old ++ post) = Some (pre ++ xor_bytes m (take (Z.to_nat M) sb) ++ post).
Proof.
  intros Hm Hsb HM HM0 Hold apre apost.
  assert (length (xor_bytes m (take (Z.to_nat M) sb)) = Z.to_nat M) as Hl
    by (rewrite xor_bytes_length, length_take; lia).
  apply fill_ok; [lia|lia|done|]. intros k x (u & v & Hu & Hv & ->)%xor_bytes_lookup.
  unfold xor_at. rewrite <- Nat2Z.inj_add. rewrite (aget_inside apre m apost k u Hu). mred.
  rewrite aget_nat. apply lookup_take_Some in Hv as [Hv _]. by rewrite Hv.
Qed.

Lemma ccm_encrypt_ok arest prest old told y :
  length old = length plain → length told = Z.to_nat M →
  cipher_encrypt_ccm stale c (adata ++ arest) (Z.of_nat (length adata)) M L nonce nonce_len
    (plain ++ prest) len (old ++ told ++ y) =
    Some (len + M, ctr_crypt E counter_bytes ccm_ctr plain ++ ccm_tag ++ y).
Proof.
  intros Ho Ht. pose proof Hok as [[_ HM] _ _ _ Hp _]. unfold cipher_encrypt_ccm.
  rewrite ccm_params_ok, ccm_mac_ok by lia. mred. rewrite (proj2 (Z.ltb_ge _ _)) by lia.
  rewrite ccm_stream_ok by (done || lia). mred. rewrite (proj2 (Z.ltb_ge _ _)) by lia.
  set (ct := ctr_crypt _ _ _ _).
  assert (length ct = length plain) as Hct
    by exact (ctr_crypt_length c E D _ counter_bytes_le ccm_ctr plain ccm_ctr_ok).
  pose proof ccm_s0_ok as [Hs _]. pose proof ccm_t_ok as [HT _].
  pose proof (fill_xor_at ccm_s0 ct (take (Z.to_nat M) T) y told ltac:(rewrite length_take; lia) Hs
    ltac:(lia) ltac:(lia) Ht [] (drop (Z.to_nat M) T)) as Hf.
  cbn [app length] in Hf. rewrite take_drop, Hct in Hf. change (Z.of_nat 0) with 0 in Hf. rewrite Hf. done.
Qed.

(** The received tag decides. *)
Lemma ccm_decrypt_ok arest old y tag irest : length old = length plain →
  length tag = Z.to_nat M → Forall byte tag →
  cipher_decrypt_ccm stale c (adata ++ arest) (Z.of_nat (length adata)) M L nonce nonce_len
    (ctr_crypt E counter_bytes ccm_ctr plain ++ tag ++ irest) (len + M) (old ++ y) =
    Some (if decide (tag = ccm_tag) then len else CCM_ERR_INVALID_CBC_MAC, plain ++ y).
Proof.
  intros Ho Ht Htb. pose proof Hok as [[_ HM] _ _ _ Hp _]. unfold cipher_decrypt_ccm.
  rewrite ccm_params_ok by lia. replace (len + M - M) with len by lia.
  rewrite (wrap_small 8 len) by (unfold uint; lia). set (ct := ctr_crypt _ _ _ _).
  assert (length ct = length plain) as Hct
    by exact (ctr_crypt_length c E D _ counter_bytes_le ccm_ctr plain ccm_ctr_ok).
  rewrite <- Hct. rewrite ccm_stream_ok by lia. mred. rewrite (proj2 (Z.ltb_ge _ _)) by lia.
  replace (ctr_crypt E counter_bytes ccm_ctr ct) with plain 
    by (symmetry; exact (ctr_crypt_twice c E D _ counter_bytes_le ccm_ctr plain ccm_ctr_ok)).
  rewrite Hct, ccm_mac_ok. mred. rewrite (proj2 (Z.ltb_ge _ _)) by lia.
  pose proof ccm_s0_ok as [Hs Hsb]. pose proof ccm_t_ok as [HT HTb].
  pose proof (fill_xor_at ccm_s0 [] tag (replicate (16 - Z.to_nat M) 0) (replicate (Z.to_nat M) 0) Ht Hs
    ltac:(lia) ltac:(lia) ltac:(apply length_replicate) ct irest) as Hf.
  cbn [app length] in Hf. rewrite <- replicate_add, Hct in Hf. change (Z.of_nat 0) with 0 in Hf.
  replace (Z.to_nat M + (16 - Z.to_nat M))%nat with 16%nat in Hf by lia. rewrite Hf. mred.
  set (sb := take (Z.to_nat M) ccm_s0).
  assert (length sb = Z.to_nat M) as Hsbl by (unfold sb; rewrite length_take; lia).
  pose proof (equals_ok (xor_bytes tag sb) (take (Z.to_nat M) T) (replicate (16 - Z.to_nat M) 0)
    (drop (Z.to_nat M) T)) as Heq.
  rewrite xor_bytes_length, length_take, Ht, Hsbl, HT, take_drop in Heq.
  replace (Z.of_nat (Z.to_nat M `min` Z.to_nat M)) with M in Heq by lia. rewrite Heq.
  2: lia. 2: { apply xor_bytes_ok; [done|by apply Forall_take]. } 2: by apply Forall_take.
  mred. case_bool_decide as Hd; [rewrite decide_True|rewrite decide_False]; try done.
  - unfold ccm_tag. fold sb. rewrite <- Hd, xor_bytes_cancel_r; [done|lia].
  - intros ->. apply Hd. unfold ccm_tag. fold sb.
    apply xor_bytes_cancel_r. rewrite length_take. lia.
Qed.
End Message.

(** C35: CCM of a message of less than 256 bytes with at most 24 bytes of additional
    data: encryption stores the counter-mode ciphertext and the encrypted CBC-MAC,
    returns the total length and touches no other byte; decryption of this ciphertext
    with any tag restores the plaintext, and accepts exactly when the tag is the
    encrypted CBC-MAC. *)
Theorem ccm_roundtrip stale M L nonce nonce_len adata plain :
  length stale = 26%nat →
  ccm_ok M L nonce nonce_len (Z.of_nat (length plain)) (Z.of_nat (length adata)) →
  Forall byte adata → Forall byte plain →
  let len := Z.of_nat (length plain) in let alen := Z.of_nat (length adata) in
  let ct := ctr_crypt E (counter_bytes nonce_len) (ccm_ctr L nonce nonce_len) plain in
  let mac := ccm_tag M L nonce nonce_len adata plain in
  (∀ arest prest old told y, length old = length plain → length told = Z.to_nat M →
     cipher_encrypt_ccm stale c (adata ++ arest) alen M L nonce nonce_len (plain ++ prest) len
       (old ++ told ++ y) = Some (len + M, ct ++ mac ++ y)) ∧
  ∀ arest old y tag irest, length old = length plain → length tag = Z.to_nat M → Forall byte tag →
    cipher_decrypt_ccm stale c (adata ++ arest) alen M L nonce nonce_len (ct ++ tag ++ irest) (len + M)
      (old ++ y) = Some (if decide (tag = mac) then len else CCM_ERR_INVALID_CBC_MAC, plain ++ y).
Proof.
  intros Hst Hok Ha Hp len alen ct mac. split.
  - intros. by apply ccm_encrypt_ok.
  - intros. by apply ccm_decrypt_ok.
Qed.
End Ccm.

Lemma ccm_mac_diverges_witness :
  (∃ mac, mac_iter fips_aes 17 (replicate 256 1) 256 (seqZ 0 16) = Some (MacGoOn 16 mac)) ∧
  ∀ fuel, mac_loop fuel fips_aes (cipher_get_block_size fips_aes) (replicate 256 1) 256 0 (seqZ 0 16) = None.
Proof.
  destruct (ccm_mac_diverges fips_aes (aes_E fips_key) (aes_D fips_key) (seqZ 0 16) (replicate 256 1)) as [Hi H].
  - exact (seqZ_block 16 ltac:(lia)).
  - apply Forall_replicate. done.
  - rewrite length_replicate. lia.
  - split.
    + destruct (Hi 17%nat) as (mac & _ & Hmac). exists mac. exact Hmac.
    + intros fuel. exact (H fuel (seqZ 0 16) 0 (seqZ_block 16 ltac:(lia)) ltac:(lia)).
Defined.

Lemma demo_ccm_ok : ccm_ok 8 2 (seqZ 0 13) 13 20 3.
Proof.
  split; [done|lia|vm_compute; done| |lia|lia]. exact (proj2 (seqZ_block 13 ltac:(lia))).
Qed.

(** An 8-byte tag, a length field of 2 bytes and a nonce of 13. *)
Lemma ccm_roundtrip_witness :
  ∃ ct tag, cipher_encrypt_ccm (replicate 26 5) fips_aes (seqZ 0 3 ++ []) 3 8 2 (seqZ 0 13) 13 (seqZ 0 20 ++ []) 20
      (replicate 20 9 ++ replicate 8 9 ++ []) = Some (20 + 8, ct ++ tag ++ []) ∧
    cipher_decrypt_ccm (replicate 26 5) fips_aes (seqZ 0 3 ++ []) 3 8 2 (seqZ 0 13) 13 (ct ++ tag ++ []) (20 + 8)
      (replicate 20 7 ++ []) = Some (20, seqZ 0 20 ++ []).
Proof.
  destruct (ccm_roundtrip fips_aes (aes_E fips_key) (aes_D fips_key) (replicate 26 5) 8 2 (seqZ 0 13) 13
    (seqZ 0 3) (seqZ 0 20)) as [Henc Hdec].
  - reflexivity.
  - exact demo_ccm_ok.
  - exact (proj2 (seqZ_block 3 ltac:(lia))).
  - exact (proj2 (seqZ_block 20 ltac:(lia))).
  - pose proof (Henc [] [] (replicate 20 9) (replicate 8 9) [] eq_refl eq_refl) as H1.
    eexists. eexists. split; [exact H1|].
    rewrite Hdec.
    + rewrite decide_True by reflexivity. reflexivity.
    + reflexivity.
    + eapply (ccm_tag_length fips_aes (aes_E fips_key) (aes_D fips_key)); try exact demo_ccm_ok.
      * exact (length_replicate 26 5).
      * exact (proj2 (seqZ_block 3 ltac:(lia))).
      * exact (proj2 (seqZ_block 20 ltac:(lia))).
    + eapply (ccm_tag_bytes fips_aes (aes_E fips_key) (aes_D fips_key)); try exact demo_ccm_ok.
      * exact (proj2 (seqZ_block 3 ltac:(lia))).
      * exact (proj2 (seqZ_block 20 ltac:(lia))).
Defined.
