(* ===== verification/Sha256.v ===== *)
(** * SHA-256 (sys/hashes/sha256.c)

    The incremental hash, HMAC and hash chains, on a little-endian target.  A
    vector of words that is accessed as bytes is converted where the code casts
    its pointer; [aligned] says whether both pointers of [be32enc_vect] are
    aligned.  Local arrays that are not initialised hold [stale]. *)

From S2P Require Import Prelude Bytes Buffers.

Definition SHA256_DIGEST_LENGTH : Z := 32.
Definition SHA256_INTERNAL_BLOCK_SIZE : Z := 64.

Record sha256_context_t := Sha256Ctx { state : list Z; count : list Z; buf : list Z }.
Record hmac_context_t := HmacCtx { c_in : sha256_context_t; c_out : sha256_context_t }.
Record sha256_chain_idx_elm_t := ChainElm { index : Z; element : list Z }.

(** ** Byte order *)

(** A word in memory, and the word a memory holds. *)
Definition le_word (b0 b1 b2 b3 : Z) : Z := word4 b3 b2 b1 b0.
Definition le_bytes (x : Z) : list Z := rev (bytes4 x).

Definition bswap32 (x : Z) : Z :=
  Z.lor (Z.lor (Z.shiftl (Z.land x 0xff) 24) (Z.shiftl (Z.land x 0xff00) 8))
    (Z.lor (Z.land (Z.shiftr x 8) 0xff00) (Z.shiftr x 24)).

(** Reading bytes as words, and words as bytes. *)
Fixpoint be32dec_vect (aligned : bool) (src : list Z) : list Z :=
  match src with
  | b0 :: b1 :: b2 :: b3 :: src =>
      (if aligned then bswap32 (le_word b0 b1 b2 b3) else le_word b3 b2 b1 b0) :: be32dec_vect aligned src
  | _ => []
  end.

Fixpoint be32enc_vect (aligned : bool) (src : list Z) : list Z :=
  match src with
  | x :: src => (if aligned then le_bytes (bswap32 x) else rev (le_bytes x)) ++ be32enc_vect aligned src
  | [] => []
  end.

(** ** The compression function *)

Definition Ch (x y z : Z) : Z := Z.lxor (Z.land x (Z.lxor y z)) z.
Definition Maj (x y z : Z) : Z := Z.lor (Z.land x (Z.lor y z)) (Z.land y z).
Definition SHR (x n : Z) : Z := Z.shiftr x n.
Definition ROTR (x n : Z) : Z := Z.lor (Z.shiftr x n) (u32 (Z.shiftl x (32 - n))).
Definition S0 (x : Z) : Z := Z.lxor (Z.lxor (ROTR x 2) (ROTR x 13)) (ROTR x 22).
Definition S1 (x : Z) : Z := Z.lxor (Z.lxor (ROTR x 6) (ROTR x 11)) (ROTR x 25).
Definition s0 (x : Z) : Z := Z.lxor (Z.lxor (ROTR x 7) (ROTR x 18)) (SHR x 3).
Definition s1 (x : Z) : Z := Z.lxor (Z.lxor (ROTR x 17) (ROTR x 19)) (SHR x 10).

Definition K : list Z :=
  concat [
    [0x428a2f98; 0x71374491; 0xb5c0fbcf; 0xe9b5dba5];
    [0x3956c25b; 0x59f111f1; 0x923f82a4; 0xab1c5ed5];
    [0xd807aa98; 0x12835b01; 0x243185be; 0x550c7dc3];
    [0x72be5d74; 0x80deb1fe; 0x9bdc06a7; 0xc19bf174];
    [0xe49b69c1; 0xefbe4786; 0x0fc19dc6; 0x240ca1cc];
    [0x2de92c6f; 0x4a7484aa; 0x5cb0a9dc; 0x76f988da];
    [0x983e5152; 0xa831c66d; 0xb00327c8; 0xbf597fc7];
    [0xc6e00bf3; 0xd5a79147; 0x06ca6351; 0x14292967];
    [0x27b70a85; 0x2e1b2138; 0x4d2c6dfc; 0x53380d13];
    [0x650a7354; 0x766a0abb; 0x81c2c92e; 0x92722c85];
    [0xa2bfe8a1; 0xa81a664b; 0xc24b8b70; 0xc76c51a3];
    [0xd192e819; 0xd6990624; 0xf40e3585; 0x106aa070];
    [0x19a4c116; 0x1e376c08; 0x2748774c; 0x34b0bcb5];
    [0x391c0cb3; 0x4ed8aa4a; 0x5b9cca4f; 0x682e6ff3];
    [0x748f82ee; 0x78a5636f; 0x84c87814; 0x8cc70208];
    [0x90befffa; 0xa4506ceb; 0xbef9a3f7; 0xc67178f2]].

(** [W[i] = s1(W[i - 2]) + W[i - 7] + s0(W[i - 15]) + W[i - 16]] for [n] indices from [i]. *)
Fixpoint schedule_loop (n : nat) (i : Z) (W : list Z) : option (list Z) :=
  match n with
  | O => Some W
  | S n =>
      w2 ← aget W (i - 2);
      w7 ← aget W (i - 7);
      w15 ← aget W (i - 15);
      w16 ← aget W (i - 16);
      W ← aset W i (u32 (s1 w2 + w7 + s0 w15 + w16));
      schedule_loop n (i + 1) W
  end.

Definition mix_step (W : list Z) (i : Z) (S : list Z) : option (list Z) :=
  e ← aget S ((68 - i) mod 8);
  f ← aget S ((69 - i) mod 8);
  g ← aget S ((70 - i) mod 8);
  h ← aget S ((71 - i) mod 8);
  w ← aget W i;
  k ← aget K i;
  let t0 := u32 (h + S1 e + Ch e f g + w + k) in
  a ← aget S ((64 - i) mod 8);
  b ← aget S ((65 - i) mod 8);
  c ← aget S ((66 - i) mod 8);
  d ← aget S ((67 - i) mod 8);
  let t1 := u32 (S0 a + Maj a b c) in
  S ← aset S ((67 - i) mod 8) (u32 (d + t0));
  aset S ((71 - i) mod 8) (u32 (t0 + t1)).

Fixpoint mix_loop (n : nat) (W : list Z) (i : Z) (S : list Z) : option (list Z) :=
  match n with
  | O => Some S
  | Datatypes.S n => S ← mix_step W i S; mix_loop n W (i + 1) S
  end.

Section Sha256.
(** The uninitialised array [W], and the alignment of each kind of access. *)
Variable stale : list Z.
Variable aligned : bool.

Definition sha256_transform (state block : list Z) : option (list Z) :=
  W ← store stale 0 (be32dec_vect aligned block);
  W ← schedule_loop 48 16 W;
  S ← mix_loop 64 W 0 state;
  fill 8 0 0 (λ st i, x ← aget st i; y ← aget S i; Some (u32 (x + y))) state.

(** ** The incremental hash *)

Definition PAD : list Z := 0x80 :: replicate 63 0.

Definition sha256_init : sha256_context_t → sha256_context_t := λ ctx,
  Sha256Ctx [0x6A09E667; 0xBB67AE85; 0x3C6EF372; 0xA54FF53A; 0x510E527F; 0x9B05688C; 0x1F83D9AB; 0x5BE0CD19]
    [0; 0] (buf ctx).

(** [while (len >= 64)]: the state and the rest of the data. *)
Fixpoint transform_loop (fuel : nat) (st data : list Z) (src len : Z) : option (list Z * Z * Z) :=
  match fuel with
  | O => None
  | Datatypes.S fuel =>
      if 64 <=? len then
        b ← load data src 64;
        st ← sha256_transform st b;
        transform_loop fuel st data (src + 64) (len - 64)
      else Some (st, src, len)
  end.

Definition sha256_update (ctx : sha256_context_t) (data : list Z) (len : Z) : option sha256_context_t :=
  c1 ← aget (count ctx) 1;
  c0 ← aget (count ctx) 0;
  let r := Z.land (Z.shiftr c1 3) 0x3f in
  let bitlen1 := u32 (Z.shiftl (u32 len) 3) in
  let bitlen0 := Z.shiftr (u32 len) 29 in
  let c1 := u32 (c1 + bitlen1) in
  let c0 := if c1 <? bitlen1 then u32 (c0 + 1) else c0 in
  let c0 := u32 (c0 + bitlen0) in
  if len <? 64 - r then
    if 0 <? len then
      d ← load data 0 len;
      b ← store (buf ctx) r d;
      Some (Sha256Ctx (state ctx) [c0; c1] b)
    else Some (Sha256Ctx (state ctx) [c0; c1] (buf ctx))
  else
    d ← load data 0 (64 - r);
    b ← store (buf ctx) r d;
    st ← sha256_transform (state ctx) b;
    '(st, src, len) ← transform_loop (S (Z.to_nat len)) st data (64 - r) (len - (64 - r));
    d ← load data src len;
    b ← store b 0 d;
    Some (Sha256Ctx st [c0; c1] b).

Definition sha256_pad (ctx : sha256_context_t) : option sha256_context_t :=
  let len := be32enc_vect aligned (count ctx) in
  c1 ← aget (count ctx) 1;
  let r := Z.land (Z.shiftr c1 3) 0x3f in
  let plen := if r <? 56 then 56 - r else 120 - r in
  ctx ← sha256_update ctx PAD plen;
  sha256_update ctx len 8.

(** The digest and the cleared context. *)
Definition sha256_final (ctx : sha256_context_t) : option (list Z * sha256_context_t) :=
  ctx ← sha256_pad ctx;
  Some (be32enc_vect aligned (state ctx), Sha256Ctx (replicate 8 0) (replicate 2 0) (replicate 64 0)).

(** The digest; [ctx] is the uninitialised context. *)
Definition sha256 (ctx : sha256_context_t) (data : list Z) (len : Z) : option (list Z) :=
  c ← sha256_update (sha256_init ctx) data len;
  '(digest, _) ← sha256_final c;
  Some digest.

(** ** HMAC *)

Definition hmac_sha256_init (ctx : hmac_context_t) (c : sha256_context_t) (key : list Z) (key_length : Z) :
    option hmac_context_t :=
  let k := replicate 64 0 in
  k ← (if SHA256_INTERNAL_BLOCK_SIZE <? key_length
       then d ← sha256 c key key_length; store k 0 d
       else d ← load key 0 key_length; store k 0 d);
  o_key_pad ← fill 64 0 0 (λ _ i, x ← aget k i; Some (Z.lxor 0x5c x)) (replicate 64 0);
  i_key_pad ← fill 64 0 0 (λ _ i, x ← aget k i; Some (Z.lxor 0x36 x)) (replicate 64 0);
  i ← sha256_update (sha256_init (c_in ctx)) i_key_pad SHA256_INTERNAL_BLOCK_SIZE;
  o ← sha256_update (sha256_init (c_out ctx)) o_key_pad SHA256_INTERNAL_BLOCK_SIZE;
  Some (HmacCtx i o).

Definition hmac_sha256_update (ctx : hmac_context_t) (data : list Z) (len : Z) : option hmac_context_t :=
  c ← sha256_update (c_in ctx) data len;
  Some (HmacCtx c (c_out ctx)).

Definition hmac_sha256_final (ctx : hmac_context_t) : option (list Z * hmac_context_t) :=
  '(tmp, i) ← sha256_final (c_in ctx);
  o ← sha256_update (c_out ctx) tmp SHA256_DIGEST_LENGTH;
  '(digest, o) ← sha256_final o;
  Some (digest, HmacCtx i o).

Definition hmac_sha256 (ctx : hmac_context_t) (c : sha256_context_t) (key : list Z) (key_length : Z)
    (data : list Z) (len : Z) : option (list Z) :=
  ctx ← hmac_sha256_init ctx c key key_length;
  ctx ← hmac_sha256_update ctx data len;
  '(digest, _) ← hmac_sha256_final ctx;
  Some digest.

(** ** Hash chains *)

Section Chain.
Variable c : sha256_context_t.

Definition sha256_inplace (element : list Z) : option (list Z) := sha256 c element SHA256_DIGEST_LENGTH.

Fixpoint inplace_loop (n : nat) (element : list Z) : option (list Z) :=
  match n with
  | O => Some element
  | Datatypes.S n => element ← sha256_inplace element; inplace_loop n element
  end.

Definition sha256_chain (seed : list Z) (seed_length elements : Z) : option (list Z) :=
  if elements <? 2 then None
  else
    tmp ← sha256 c seed seed_length;
    inplace_loop (Z.to_nat (elements - 1)) tmp.

(** The loop over the waypoints when all elements are stored. *)
Fixpoint store_loop (n : nat) (i : Z) (waypoints : list sha256_chain_idx_elm_t) :
    option (list sha256_chain_idx_elm_t) :=
  match n with
  | O => Some waypoints
  | Datatypes.S n =>
      w ← aget waypoints (i - 1);
      e ← sha256 c (element w) SHA256_DIGEST_LENGTH;
      waypoints ← aset waypoints i (ChainElm i e);
      store_loop n (i + 1) waypoints
  end.

(** The loop over the waypoints at a distance of [streak]. *)
Fixpoint streak_loop (n : nat) (j streak index : Z) (tmp : list Z) (waypoints : list sha256_chain_idx_elm_t) :
    option (Z * list Z * list sha256_chain_idx_elm_t) :=
  match n with
  | O => Some (index, tmp, waypoints)
  | Datatypes.S n =>
      tmp ← inplace_loop (Z.to_nat streak) tmp;
      let index := index + streak in
      waypoints ← aset waypoints j (ChainElm index tmp);
      streak_loop n (j + 1) streak index tmp waypoints
  end.

(** The tail, the waypoints and their last used index. *)
Definition sha256_chain_with_waypoints (seed : list Z) (seed_length elements : Z)
    (waypoints : list sha256_chain_idx_elm_t) (waypoints_length : Z) :
    option (list Z * list sha256_chain_idx_elm_t * Z) :=
  if (elements <? 2) || negb (1 <? waypoints_length) then None
  else if elements <=? waypoints_length then
    e ← sha256 c seed seed_length;
    waypoints ← aset waypoints 0 (ChainElm 0 e);
    waypoints ← store_loop (Z.to_nat (elements - 1)) 1 waypoints;
    w ← aget waypoints (elements - 1);
    Some (element w, waypoints, elements - 1)
  else
    let streak := elements / waypoints_length in
    tmp ← sha256 c seed seed_length;
    tmp ← inplace_loop (Z.to_nat (streak - 1)) tmp;
    waypoints ← aset waypoints 0 (ChainElm (streak - 1) tmp);
    '(index, tmp, waypoints) ← streak_loop (Z.to_nat (waypoints_length - 1)) 1 streak (streak - 1) tmp waypoints;
    tmp ← inplace_loop (Z.to_nat (elements - 1 - index)) tmp;
    Some (tmp, waypoints, waypoints_length - 1).

Definition sha256_chain_verify_element (element : list Z) (element_index : Z) (tail_element : list Z)
    (chain_length : Z) : option Z :=
  let delta_count := i32 (chain_length - element_index) in
  if delta_count <? 1 then None
  else
    tmp ← inplace_loop (Z.to_nat (delta_count - 1)) element;
    tail ← load tail_element 0 SHA256_DIGEST_LENGTH;
    Some (b2z (negb (bool_decide (tmp = tail)))).
End Chain.
End Sha256.
