(* ===== verification/Sha256Proof.v ===== *)
(** * Correctness of SHA-256

    The hash of FIPS 180-4 (with its constants computed from the primes), HMAC of
    RFC 2104, and the agreement of the incremental code with them. *)

From S2P Require Import Prelude Bytes Buffers Sha256.

(** ** The specification *)

Definition not32 (x : Z) : Z := 2 ^ 32 - 1 - x.
Definition rotr (n x : Z) : Z := (x * 2 ^ (32 - n)) mod 2 ^ 32 + x / 2 ^ n.
Definition ch (x y z : Z) : Z := Z.lxor (Z.land x y) (Z.land (not32 x) z).
Definition maj (x y z : Z) : Z := Z.lxor (Z.lxor (Z.land x y) (Z.land x z)) (Z.land y z).
Definition Sigma0 (x : Z) : Z := Z.lxor (Z.lxor (rotr 2 x) (rotr 13 x)) (rotr 22 x).
Definition Sigma1 (x : Z) : Z := Z.lxor (Z.lxor (rotr 6 x) (rotr 11 x)) (rotr 25 x).
Definition sigma0 (x : Z) : Z := Z.lxor (Z.lxor (rotr 7 x) (rotr 18 x)) (x / 2 ^ 3).
Definition sigma1 (x : Z) : Z := Z.lxor (Z.lxor (rotr 17 x) (rotr 19 x)) (x / 2 ^ 10).

(** The first 32 bits of the fractional parts of the square and cube roots of the
    first primes. *)
Fixpoint iroot (bits : nat) (k n acc : Z) : Z :=
  match bits with
  | O => acc
  | S b => let acc' := acc + 2 ^ Z.of_nat b in iroot b k n (if acc' ^ k <=? n then acc' else acc)
  end.

Definition primes : list Z :=
  filter (λ p, bool_decide (Forall (λ d, p mod d ≠ 0) (seqZ 2 (p - 2)))) (seqZ 2 310).

Definition fips_K : list Z := (λ p, iroot 40 3 (p * 2 ^ 96) 0 mod 2 ^ 32) <$> primes.
Definition fips_H0 : list Z := (λ p, iroot 40 2 (p * 2 ^ 64) 0 mod 2 ^ 32) <$> take 8 primes.

(** The message schedule of a block of 16 words. *)
Fixpoint schedule (n : nat) (W : list Z) : list Z :=
  match n with
  | O => W
  | S n =>
      let t := length W in
      schedule n (W ++ [(sigma1 (W !!! (t - 2)%nat) + W !!! (t - 7)%nat + sigma0 (W !!! (t - 15)%nat) +
                         W !!! (t - 16)%nat) mod 2 ^ 32])
  end.

Definition round (v : list Z) (wk : Z * Z) : list Z :=
  match v with
  | [a; b; c; d; e; f; g; h] =>
      let t1 := h + Sigma1 e + ch e f g + wk.1 + wk.2 in
      let t2 := Sigma0 a + maj a b c in
      [(t1 + t2) mod 2 ^ 32; a; b; c; (d + t1) mod 2 ^ 32; e; f; g]
  | _ => v
  end.

Fixpoint be_words (bs : list Z) : list Z :=
  match bs with
  | b0 :: b1 :: b2 :: b3 :: bs => be_value [b0; b1; b2; b3] :: be_words bs
  | _ => []
  end.

Definition compress (H block : list Z) : list Z :=
  zip_with (λ x y, (x + y) mod 2 ^ 32) H
    (foldl round H (zip (schedule 48 (be_words block)) fips_K)).

(** The hash value after [n] blocks. *)
Fixpoint absorb (n : nat) (H bs : list Z) : list Z :=
  match n with
  | O => H
  | S n => absorb n (compress H (take 64 bs)) (drop 64 bs)
  end.

Definition sha_padding (len : Z) : list Z :=
  0x80 :: replicate (Z.to_nat ((55 - len) mod 64)) 0 ++ be_bytes 8 (8 * len).

Definition sha_padded (m : list Z) : list Z := m ++ sha_padding (Z.of_nat (length m)).

Definition SHA256 (m : list Z) : list Z :=
  concat (be_bytes 4 <$> absorb (length (sha_padded m) / 64) fips_H0 (sha_padded m)).

(** HMAC, for a key of at most a block after hashing long ones. *)
Definition hmac_key (key : list Z) : list Z :=
  let k := if decide (64 < length key)%nat then SHA256 key else key in
  k ++ replicate (64 - length k) 0.

Definition HMAC (key m : list Z) : list Z :=
  SHA256 ((Z.lxor 0x5c <$> hmac_key key) ++ SHA256 ((Z.lxor 0x36 <$> hmac_key key) ++ m)).

(** ** The functions of words *)

Lemma K_ok : K = fips_K.
Proof. vm_compute. reflexivity. Qed.

Lemma H0_ok : fips_H0 = [0x6A09E667; 0xBB67AE85; 0x3C6EF372; 0xA54FF53A; 0x510E527F; 0x9B05688C; 0x1F83D9AB; 0x5BE0CD19].
Proof. vm_compute. reflexivity. Qed.

Abbreviation word := (uint 32).

Lemma not32_bit x n : word x → 0 ≤ n < 32 → Z.testbit (not32 x) n = negb (Z.testbit x n).
Proof.
  unfold uint. intros Hx Hn. assert (not32 x = Z.lnot x mod 2 ^ 32) as ->.
  { unfold not32. pose proof (Z.lnot_eq_pred_opp x). apply Z.mod_unique with (q := -1); [left; lia|lia]. }
  by rewrite Z.mod_pow2_bits_low, Z.lnot_spec by lia.
Qed.

(** Words that agree on the bits below 32. *)
Lemma word_ext x y : word x → word y → (∀ n, 0 ≤ n < 32 → Z.testbit x n = Z.testbit y n) → x = y.
Proof.
  intros Hx Hy Hb. apply Z.bits_inj'. intros n Hn. destruct (Z.lt_ge_cases n 32); [by apply Hb|].
  by rewrite !(testbit_lt_pow2 _ 32) by done.
Qed.

#[local] Hint Extern 1 (word (Z.lxor _ _)) => apply lxor_range : core.
#[local] Hint Extern 1 (word (Z.land _ _)) => apply land_range : core.
#[local] Hint Extern 1 (word (Z.lor _ _)) => apply lor_range : core.
#[local] Hint Extern 1 (0 ≤ 32) => lia : core.

Lemma not32_word x : word x → word (not32 x).
Proof. unfold not32, uint. lia. Qed.

Lemma Ch_ok x y z : word x → word y → word z → Ch x y z = ch x y z.
Proof.
  intros Hx Hy Hz. pose proof (not32_word x Hx). apply word_ext; unfold Ch, ch; auto 6.
  intros n Hn. rewrite !Z.lxor_spec, !Z.land_spec, Z.lxor_spec, not32_bit by done.
  by destruct (Z.testbit x n), (Z.testbit y n), (Z.testbit z n).
Qed.

Lemma Maj_ok x y z : Maj x y z = maj x y z.
Proof.
  apply Z.bits_inj'. intros n Hn. unfold Maj, maj. rewrite Z.lor_spec, !Z.lxor_spec, !Z.land_spec, Z.lor_spec.
  by destruct (Z.testbit x n), (Z.testbit y n), (Z.testbit z n).
Qed.

Lemma ROTR_ok x n : word x → 0 < n < 32 → ROTR x n = rotr n x.
Proof.
  unfold uint. intros Hx Hn. unfold ROTR, rotr. rewrite Z.shiftl_mul_pow2 by lia. unfold wrap.
  assert (2 ^ 32 = 2 ^ n * 2 ^ (32 - n)) as Hp by (rewrite <- Z.pow_add_r by lia; f_equal; lia).
  pose proof (Z.pow_pos_nonneg 2 n ltac:(lia) ltac:(lia)). pose proof (Z.pow_pos_nonneg 2 (32 - n) ltac:(lia) ltac:(lia)).
  assert ((x * 2 ^ (32 - n)) mod 2 ^ 32 = x mod 2 ^ n * 2 ^ (32 - n)) as -> by (rewrite Hp; by apply Z.mul_mod_distr_r; lia).
  rewrite Z.lor_comm, <- Z.shiftl_mul_pow2, lor_shiftl, Z.shiftr_div_pow2, Z.shiftl_mul_pow2 by first [lia|
    rewrite Z.shiftr_div_pow2 by lia; split; [apply Z.div_pos; lia|apply Z.div_lt_upper_bound; lia]]. done.
Qed.

Lemma rotr_word n x : word x → 0 < n < 32 → word (rotr n x).
Proof.
  intros Hx Hn. rewrite <- ROTR_ok by done. unfold ROTR. apply lor_range; [lia| |apply wrap_range; lia].
  rewrite Z.shiftr_div_pow2 by lia. unfold uint in *.
  pose proof (Z.pow_pos_nonneg 2 n ltac:(lia) ltac:(lia)).
  split; [apply Z.div_pos; lia|]. apply Z.le_lt_trans with x; [apply Z.div_le_upper_bound; nia|lia].
Qed.

Lemma S0_ok x : word x → S0 x = Sigma0 x.
Proof. intros Hx. unfold S0, Sigma0. by rewrite !ROTR_ok by (done || lia). Qed.

Lemma S1_ok x : word x → S1 x = Sigma1 x.
Proof. intros Hx. unfold S1, Sigma1. by rewrite !ROTR_ok by (done || lia). Qed.

Lemma s0_ok x : word x → s0 x = sigma0 x.
Proof. intros Hx. unfold s0, sigma0, SHR. by rewrite !ROTR_ok, Z.shiftr_div_pow2 by (done || lia). Qed.

Lemma s1_ok x : word x → s1 x = sigma1 x.
Proof. intros Hx. unfold s1, sigma1, SHR. by rewrite !ROTR_ok, Z.shiftr_div_pow2 by (done || lia). Qed.

(** ** Byte order *)

Lemma be_value4 a b c d : byte a → byte b → byte c → byte d → be_value [a; b; c; d] = word4 a b c d.
Proof. intros. rewrite word4_value by done. cbn. lia. Qed.

Lemma be_bytes4 x : word x → be_bytes 4 x = bytes4 x.
Proof.
  intros Hx. destruct (word4_split x Hx) as (a & b & c & d & Ha & Hb & Hc & Hd & ->).
  rewrite bytes4_word4, <- be_value4 by done. apply (be_bytes_value [a; b; c; d]). by rewrite !Forall_cons.
Qed.

Lemma bswap32_word4 a b c d : byte a → byte b → byte c → byte d → bswap32 (word4 a b c d) = word4 d c b a.
Proof.
  intros Ha Hb Hc Hd. unfold bswap32. rewrite word4_byte0 by done.
  change 0xff00 with (Z.shiftl 0xff 8). rewrite !land_mask_shift, word4_byte1 by (done || lia).
  rewrite Z.shiftr_shiftr by lia. change (8 + 8) with 16. rewrite word4_byte2, word4_byte3 by done.
  rewrite Z.shiftl_shiftl by lia. change (8 + 8) with 16. unfold uint in *.
  rewrite <- Z.lor_assoc, (lor_shiftl b a) by (unfold uint; lia).
  rewrite (lor_shiftl c), (lor_shiftl d), word4_value by (unfold uint; lia). lia.
Qed.

Lemma be32dec_ok aligned bs : Forall byte bs → be32dec_vect aligned bs = be_words bs.
Proof.
  intros Hbs. remember (length bs) as n eqn:Hn. revert bs Hbs Hn.
  induction n as [n IH] using lt_wf_ind. intros bs Hbs ->.
  destruct bs as [|b0 [|b1 [|b2 [|b3 bs]]]]; [done..|].
  do 4 (apply Forall_cons in Hbs as [? Hbs]). cbn [be32dec_vect be_words]. f_equal.
  - rewrite be_value4 by done. unfold le_word. destruct aligned; [by apply bswap32_word4|done].
  - apply (IH (length bs)); [simpl; lia|done|done].
Qed.

Lemma be32enc_ok aligned ws : Forall word ws → be32enc_vect aligned ws = concat (be_bytes 4 <$> ws).
Proof.
  induction 1 as [|x ws Hx Hws IH]; [done|]. cbn [be32enc_vect fmap list_fmap concat]. rewrite IH. f_equal.
  rewrite be_bytes4 by done. unfold le_bytes. destruct aligned; [|apply rev_involutive].
  destruct (word4_split x Hx) as (a & b & c & d & Ha & Hb & Hc & Hd & ->).
  by rewrite bswap32_word4, !bytes4_word4.
Qed.

Lemma be_words_word bs : Forall byte bs → Forall word (be_words bs).
Proof.
  intros Hbs. remember (length bs) as n eqn:Hn. revert bs Hbs Hn.
  induction n as [n IH] using lt_wf_ind. intros bs Hbs ->.
  destruct bs as [|b0 [|b1 [|b2 [|b3 bs]]]]; [constructor..|].
  do 4 (apply Forall_cons in Hbs as [? Hbs]). cbn [be_words]. constructor.
  - rewrite be_value4 by done. by apply word4_range.
  - apply (IH (length bs)); [simpl; lia|done|done].
Qed.

Lemma be_words_length bs n : length bs = (4 * n)%nat → length (be_words bs) = n.
Proof.
  revert bs. induction n as [|n IH]; intros bs Hl; [by destruct bs|].
  destruct bs as [|b0 [|b1 [|b2 [|b3 bs]]]]; simpl in Hl; try lia. cbn [be_words length]. f_equal. apply IH. lia.
Qed.

(** ** The compression function *)

Lemma mod_word x : word (x mod 2 ^ 32).
Proof. apply Z.mod_pos_bound. lia. Qed.

Lemma lookup_word W t : Forall word W → (t < length W)%nat → word (W !!! t).
Proof.
  intros HW Ht. apply (proj1 (Forall_forall _ _) HW), list_elem_of_lookup_2 with t.
  by apply list_lookup_lookup_total_lt.
Qed.

Lemma aget_total {A} `{!Inhabited A} (W rest : list A) i t : i = Z.of_nat t → (t < length W)%nat →
  aget (W ++ rest) i = Some (W !!! t).
Proof.
  intros -> Ht. rewrite aget_nat, lookup_app_l by done. by apply list_lookup_lookup_total_lt.
Qed.

(** The array holds the words so far, and rest of it is not yet initialised. *)
Lemma schedule_loop_ok n : ∀ W rest, length rest = n → (16 ≤ length W)%nat → Forall word W →
  schedule_loop n (Z.of_nat (length W)) (W ++ rest) = Some (schedule n W) ∧ Forall word (schedule n W) ∧
  length (schedule n W) = (length W + n)%nat.
Proof.
  induction n as [|n IH]; intros W rest Hl HW Hword.
  { destruct rest; [|done]. cbn [schedule_loop schedule]. by rewrite app_nil_r, Nat.add_0_r. }
  destruct rest as [|x rest]; [done|]. cbn [schedule_loop schedule].
  rewrite (aget_total W _ (Z.of_nat (length W) - 2) (length W - 2)) by lia. mred.
  rewrite (aget_total W _ (Z.of_nat (length W) - 7) (length W - 7)) by lia. mred.
  rewrite (aget_total W _ (Z.of_nat (length W) - 15) (length W - 15)) by lia. mred.
  rewrite (aget_total W _ (Z.of_nat (length W) - 16) (length W - 16)) by lia. mred.
  rewrite aset_mid by done. mred. rewrite s0_ok, s1_ok by (apply lookup_word; [done|lia]).
  set (v := (_ + _ + _ + _) mod 2 ^ 32). unfold wrap. fold v.
  replace (Z.of_nat (length W) + 1) with (Z.of_nat (length (W ++ [v]))) by (rewrite length_app; simpl; lia).
  replace (W ++ v :: rest) with ((W ++ [v]) ++ rest) by (by rewrite <- app_assoc).
  destruct (IH (W ++ [v]) rest) as (H1 & H2 & H3).
  - simpl in Hl. lia.
  - rewrite length_app. lia.
  - apply Forall_app. split; [done|]. repeat constructor; apply mod_word.
  - rewrite H1, H3, length_app. simpl. split; [done|]. split; [done|lia].
Qed.

(** The working variables at round [i]: the array is rotated instead of moved. *)
Definition rotated (i : nat) (v : list Z) : list Z :=
  let k := (i mod 8)%nat in drop k v ++ take k v.


Lemma mix_step_ok W (i : nat) a b c d e f g h w k :
  word a → word b → word c → word d → word e → word f → word g → word h →
  aget W (Z.of_nat i) = Some w → aget K (Z.of_nat i) = Some k →
  mix_step W (Z.of_nat i) (rotated i [a; b; c; d; e; f; g; h]) =
    Some (rotated (S i) (round [a; b; c; d; e; f; g; h] (w, k))).
Proof.
  intros Ha Hb Hc Hd He Hf Hg Hh Hw Hk.
  assert (∀ j, (j - Z.of_nat i) mod 8 = (j - Z.of_nat (i mod 8)) mod 8) as Hmod.
  { intros j. rewrite Nat2Z.inj_mod. change (Z.of_nat 8) with 8. by rewrite Zminus_mod_idemp_r. }
  assert (S i mod 8 = S (i mod 8) mod 8)%nat as Hs
    by (rewrite <- (Nat.add_1_l i), <- (Nat.add_1_l (i mod 8)); by rewrite Nat.Div0.add_mod_idemp_r).
  unfold mix_step, rotated. rewrite Hs, !Hmod, Hw, Hk. cbn [round fst snd].
  rewrite <- S1_ok, <- S0_ok, <- Ch_ok, <- Maj_ok by done.
  set (t1 := h + S1 e + Ch e f g + w + k). set (t2 := S0 a + Maj a b c).
  assert (u32 (u32 t1 + u32 t2) = (t1 + t2) mod 2 ^ 32) as E1 by (rewrite wrap_add_idem_l, wrap_add_idem_r; done).
  assert (u32 (d + u32 t1) = (d + t1) mod 2 ^ 32) as E2 by (rewrite wrap_add_idem_r; done).
  pose proof (Nat.mod_upper_bound i 8 ltac:(lia)) as Hlt. revert Hlt. generalize (i mod 8)%nat as r. intros r Hlt.
  do 8 (destruct r as [|r]; [
    repeat match goal with |- context [(?x - Z.of_nat ?y) mod 8] =>
      let v := eval vm_compute in ((x - Z.of_nat y) mod 8) in change ((x - Z.of_nat y) mod 8) with v end;
    rewrite <- E1, <- E2; subst t1 t2; cbv -[wrap Z.add S1 S0 Ch Maj]; reflexivity|]). lia.
Qed.

(** Eight words. *)
Definition hash_ok (v : list Z) : Prop := length v = 8%nat ∧ Forall word v.

Lemma hash_ok_inv v : hash_ok v → ∃ a b c d e f g h, v = [a; b; c; d; e; f; g; h] ∧
  word a ∧ word b ∧ word c ∧ word d ∧ word e ∧ word f ∧ word g ∧ word h.
Proof.
  intros [Hl Hw]. destruct v as [|a [|b [|c [|d [|e [|f [|g [|h [|]]]]]]]]]; try done.
  repeat (apply Forall_cons in Hw as [? Hw]). by exists a, b, c, d, e, f, g, h.
Qed.

Lemma round_ok v wk : hash_ok v → hash_ok (round v wk).
Proof.
  intros (a & b & c & d & e & f & g & h & -> & ?)%hash_ok_inv. split; [done|].
  cbn [round]. rewrite !Forall_cons. pose proof mod_word. intuition.
Qed.

Lemma rounds_ok l : ∀ v, hash_ok v → hash_ok (foldl round v l).
Proof. induction l as [|wk l IH]; intros v Hv; [done|]. cbn [foldl]. apply IH. by apply round_ok. Qed.

Lemma rotated_0 v : rotated 0 v = v.
Proof. apply app_nil_r. Qed.

Lemma rotated_64 v : rotated 64 v = v.
Proof. apply app_nil_r. Qed.

Lemma mix_loop_ok W2 : ∀ W1 K1 K2 v, K = K1 ++ K2 → length W1 = length K1 → length W2 = length K2 → hash_ok v →
  mix_loop (length W2) (W1 ++ W2) (Z.of_nat (length W1)) (rotated (length W1) v) =
    Some (rotated (length W1 + length W2) (foldl round v (zip W2 K2))).
Proof.
  induction W2 as [|w W2 IH]; intros W1 K1 [|k K2] v HK Hl1 Hl2 Hv; try done; [by rewrite Nat.add_0_r|].
  cbn [length mix_loop]. destruct (hash_ok_inv v Hv) as (a & b & c & d & e & f & g & h & -> & ?).
  rewrite (mix_step_ok _ _ a b c d e f g h w k); [|intuition..| |].
  2: by apply aget_mid. 2: { rewrite HK. apply aget_mid. by rewrite Hl1. }
  mred. cbn [zip zip_with foldl].
  pose proof (IH (W1 ++ [w]) (K1 ++ [k]) K2 (round [a; b; c; d; e; f; g; h] (w, k))) as IH'.
  rewrite !length_app in IH'. cbn [length] in IH'. rewrite <- !app_assoc, !Nat.add_1_r in IH'. cbn [app] in IH'.
  replace (Z.of_nat (length W1) + 1) with (Z.of_nat (S (length W1))) by lia.
  replace (length W1 + S (length W2))%nat with (S (length W1) + length W2)%nat by lia.
  apply IH'; [done|lia|simpl in Hl2; lia|by apply round_ok].
Qed.

Lemma mix_all W H : length W = 64%nat → hash_ok H → mix_loop 64 W 0 H = Some (foldl round H (zip W fips_K)).
Proof.
  intros HW HH. pose proof (mix_loop_ok W [] [] K H eq_refl eq_refl HW HH) as Hmix.
  cbn [length app] in Hmix. by rewrite HW, Nat.add_0_l, rotated_0, rotated_64, Nat2Z.inj_0, K_ok in Hmix.
Qed.

Lemma zip_add_ok H v : hash_ok H → length v = 8%nat → hash_ok (zip_with (λ x y, (x + y) mod 2 ^ 32) H v).
Proof.
  intros [Hl _] Hv. split; [rewrite length_zip_with; lia|]. apply Forall_forall. intros x Hx.
  apply elem_of_lookup_zip_with in Hx as (i & y & z & -> & _). apply mod_word.
Qed.

Section Alignment.
(** The uninitialised array and the alignment of the pointers. *)
Context (stale : list Z) (Hstale : length stale = 64%nat) (aligned : bool).

Definition block64 (b : list Z) : Prop := length b = 64%nat ∧ Forall byte b.

Lemma transform_ok H b : hash_ok H → block64 b →
  sha256_transform stale aligned H b = Some (compress H b) ∧ hash_ok (compress H b).
Proof.
  intros HH [Hbl Hb]. unfold sha256_transform. rewrite be32dec_ok by done.
  pose proof (be_words_length b 16 Hbl) as Hwl. pose proof (be_words_word b Hb) as Hww.
  destruct (split_at stale 16 ltac:(lia)) as (old & rest & Hst & Hold).
  assert (length rest = 48%nat) as Hrest by (rewrite Hst, length_app in Hstale; lia).
  rewrite Hst, store_prefix by lia. mred.
  destruct (schedule_loop_ok 48 (be_words b) rest Hrest ltac:(lia) Hww) as (Hs & Hsw & Hsl).
  unfold compress. revert Hs Hsw Hsl. generalize (schedule 48 (be_words b)). intros W Hs Hsw Hsl.
  assert (Z.of_nat (length (be_words b)) = 16) as E16 by lia. rewrite E16 in Hs. rewrite Hs. mred. rewrite (mix_all W H) by (done || lia). mred.
  set (v := foldl round H (zip W fips_K)).
  assert (hash_ok v) as Hv by by apply rounds_ok.
  split; [|apply zip_add_ok; [done|apply Hv]].
  pose proof Hv as [Hvl _]. pose proof HH as [HHl _].
  pose proof (fill_ok (λ st i, x ← aget st i; y ← aget v i; Some (u32 (x + y))) 8 0 [] H
    (zip_with (λ x y, (x + y) mod 2 ^ 32) H v) []) as Hf.
  rewrite !app_nil_r in Hf. apply Hf; [rewrite length_zip_with; lia..|done|].
  intros k x Hk. apply lookup_zip_with_Some in Hk as (y & z & -> & Hy & Hz).
  cbn [app]. rewrite !aget_nat. rewrite app_nil_r.
  rewrite lookup_app_r by (rewrite length_take, length_zip_with; lia).
  rewrite length_take, length_zip_with, lookup_drop.
  apply lookup_lt_Some in Hy as Hlt. rewrite Nat.min_l by lia. rewrite Nat.sub_diag, Nat.add_0_r, Hy. mred. by rewrite Hz.
Qed.

(** ** Absorbing blocks *)

Lemma absorb_app n m a b : ∀ H, length a = (64 * n)%nat → absorb (n + m) H (a ++ b) = absorb m (absorb n H a) b.
Proof.
  revert a. induction n as [|n IH]; intros a H Ha; [by destruct a|].
  destruct (split_at a 64 ltac:(lia)) as (x & y & -> & Hx). cbn [Nat.add absorb].
  rewrite <- app_assoc, !take_app_length', !drop_app_length' by done. apply IH.
  rewrite length_app in Ha. lia.
Qed.

Lemma absorb_1 H b : length b = 64%nat → absorb 1 H b = compress H b.
Proof. intros Hb. cbn [absorb]. by rewrite take_ge by lia. Qed.

Lemma absorb_ok n : ∀ H a, hash_ok H → Forall byte a → length a = (64 * n)%nat → hash_ok (absorb n H a).
Proof.
  induction n as [|n IH]; intros H a HH Ha Hl; [done|]. cbn [absorb].
  apply IH; [|by apply Forall_drop|rewrite length_drop; lia]. apply transform_ok; [done|].
  split; [rewrite length_take; lia|by apply Forall_take].
Qed.

Lemma transform_loop_ok k : ∀ fuel pre d t tail H, hash_ok H → Forall byte d → length d = (64 * k)%nat →
  (length t < 64)%nat → (k < fuel)%nat →
  transform_loop stale aligned fuel H (pre ++ d ++ t ++ tail) (Z.of_nat (length pre)) (Z.of_nat (length (d ++ t))) =
    Some (absorb k H d, Z.of_nat (length (pre ++ d)), Z.of_nat (length t)).
Proof.
  induction k as [|k IH]; intros [|fuel] pre d t tail H HH Hd Hl Ht Hf; try lia; cbn [transform_loop].
  - destruct d; [|done]. cbn [app absorb]. rewrite (proj2 (Z.leb_gt _ _)) by lia. by rewrite app_nil_r.
  - destruct (split_at d 64 ltac:(lia)) as (x & y & -> & Hx). apply Forall_app in Hd as [Hdx Hdy].
    rewrite !length_app in *. rewrite (proj2 (Z.leb_le _ _)) by lia.
    rewrite <- !app_assoc. pose proof (load_mid pre x (y ++ t ++ tail)) as Hload. rewrite Hx in Hload.
    change (Z.of_nat 64) with 64 in Hload. rewrite Hload. mred.
    destruct (transform_ok H x HH ltac:(done)) as [-> HH']. mred.
    replace (Z.of_nat (length pre) + 64) with (Z.of_nat (length (pre ++ x))) by (rewrite length_app; lia).
    replace (Z.of_nat (length x + length y + length t) - 64) with (Z.of_nat (length (y ++ t)))
      by (rewrite length_app; lia).
    rewrite (app_assoc pre x). rewrite (IH fuel (pre ++ x) y t tail) by (done || lia).
    rewrite !length_app. cbn [absorb]. rewrite take_app_length', drop_app_length' by done.
    by rewrite Nat.add_assoc.
Qed.

(** ** The incremental hash *)

(** The context after the bytes [m]. *)
Definition ctx_ok (ctx : sha256_context_t) (m : list Z) : Prop :=
  Forall byte m ∧ ∃ n q r old c0 c1,
    m = q ++ r ∧ length q = (64 * n)%nat ∧ (length r < 64)%nat ∧
    state ctx = absorb n fips_H0 q ∧ buf ctx = r ++ old ∧ length (buf ctx) = 64%nat ∧
    count ctx = [c0; c1] ∧ word c0 ∧ word c1 ∧
    c0 * 2 ^ 32 + c1 = (8 * Z.of_nat (length m)) mod 2 ^ 64.

Lemma H0_hash_ok : hash_ok fips_H0.
Proof. rewrite H0_ok. split; [done|]. rewrite !Forall_cons. unfold uint. repeat split; lia || constructor. Qed.

Lemma init_ok ctx : length (buf ctx) = 64%nat → ctx_ok (sha256_init ctx) [].
Proof.
  intros Hb. split; [constructor|]. exists 0%nat, [], [], (buf ctx), 0, 0.
  cbn [sha256_init state count buf absorb]. rewrite H0_ok.
  split_and!; first [done|cbn [length]; lia].
Qed.

(** The number of bytes in the buffer. *)
Lemma fill_level c0 c1 (n : nat) (q r : list Z) : length q = (64 * n)%nat → (length r < 64)%nat → word c0 → word c1 →
  c0 * 2 ^ 32 + c1 = (8 * Z.of_nat (length (q ++ r))) mod 2 ^ 64 →
  Z.land (Z.shiftr c1 3) 0x3f = Z.of_nat (length r).
Proof.
  unfold uint. intros Hq Hr H0 H1 Hc. change 0x3f with (2 ^ 6 - 1). rewrite land_mask, Z.shiftr_div_pow2 by lia.
  rewrite length_app, Hq in Hc. set (A := Z.of_nat (64 * n + length r)) in *.
  pose proof (Z.div_mod (8 * A) (2 ^ 64) ltac:(lia)) as E. rewrite <- Hc in E.
  set (u := 8 * A / 2 ^ 64) in *.
  assert (c1 = 8 * (A - u * 2 ^ 61 - c0 * 2 ^ 29)) as -> by lia.
  rewrite Z.mul_comm, Z.div_mul by lia. symmetry.
  apply Z.mod_unique with (q := Z.of_nat n - u * 2 ^ 55 - c0 * 2 ^ 23); [left; lia|]. unfold A. lia.
Qed.

(** Counting bits in two words. *)
Lemma count_ok c0 c1 A (len : Z) : word c0 → word c1 → c0 * 2 ^ 32 + c1 = (8 * A) mod 2 ^ 64 → 0 ≤ A → 0 ≤ len < 2 ^ 32 →
  let b1 := u32 (Z.shiftl (u32 len) 3) in
  let b0 := Z.shiftr (u32 len) 29 in
  let c1' := u32 (c1 + b1) in
  let c0' := u32 ((if c1' <? b1 then u32 (c0 + 1) else c0) + b0) in
  word c0' ∧ word c1' ∧ c0' * 2 ^ 32 + c1' = (8 * (A + len)) mod 2 ^ 64.
Proof.
  unfold uint. intros H0 H1 Hc HA Hlen. cbv zeta. rewrite (wrap_small 32 len) by (unfold uint; lia).
  rewrite Z.shiftl_mul_pow2, Z.shiftr_div_pow2 by lia.
  pose proof (wrap_range 32 (len * 2 ^ 3) ltac:(lia)) as Hb1. unfold uint in Hb1.
  assert (8 * len = len / 2 ^ 29 * 2 ^ 32 + wrap 32 (len * 2 ^ 3)) as Hsplit.
  { unfold wrap. change (2 ^ 32) with (2 ^ 29 * 2 ^ 3). rewrite Z.mul_mod_distr_r by lia.
    pose proof (Z.div_mod len (2 ^ 29) ltac:(lia)). lia. }
  assert (0 ≤ len / 2 ^ 29 < 8) as Hb0 by (split; [apply Z.div_pos|apply Z.div_lt_upper_bound]; lia).
  set (b1 := wrap 32 (len * 2 ^ 3)) in *. set (b0 := len / 2 ^ 29) in *.
  split; [apply wrap_range; lia|]. split; [apply wrap_range; lia|].
  rewrite Z.mul_add_distr_l, <- Zplus_mod_idemp_l, <- Hc, Hsplit.
  assert (∃ cy, (cy = 0 ∨ cy = 1) ∧ u32 (c1 + b1) = c1 + b1 - cy * 2 ^ 32 ∧
    (if u32 (c1 + b1) <? b1 then u32 (c0 + 1) else c0) = u32 (c0 + cy)) as (cy & Hcy & E1 & ->).
  { destruct (Z.lt_ge_cases (c1 + b1) (2 ^ 32)).
    - exists 0. rewrite wrap_small, (proj2 (Z.ltb_ge _ _)) by (unfold uint; lia).
      rewrite Z.add_0_r, wrap_small by (unfold uint; lia). split; [by left|]. split; [lia|done].
    - assert (u32 (c1 + b1) = c1 + b1 - 2 ^ 32) as ->.
      { symmetry. apply Z.mod_unique with (q := 1); [left; lia|lia]. }
      exists 1. rewrite (proj2 (Z.ltb_lt _ _)) by lia. split; [by right|]. split; [lia|done]. }
  rewrite E1, wrap_add_idem_l. unfold wrap.
  pose proof (Z.div_mod (c0 + cy + b0) (2 ^ 32) ltac:(lia)) as E.
  pose proof (Z.mod_pos_bound (c0 + cy + b0) (2 ^ 32) ltac:(lia)) as B.
  assert (0 ≤ c1 + b1 - cy * 2 ^ 32 < 2 ^ 32) as B1 by (rewrite <- E1; apply wrap_range; lia).
  apply Z.mod_unique with (q := (c0 + cy + b0) / 2 ^ 32); [left; lia|]. lia.
Qed.

Lemma split_blocks (l : list Z) : ∃ a t k, l = a ++ t ∧ length a = (64 * k)%nat ∧ (length t < 64)%nat.
Proof.
  pose proof (Nat.div_mod_eq (length l) 64). pose proof (Nat.mod_upper_bound (length l) 64 ltac:(lia)).
  destruct (split_at l (64 * (length l / 64)) ltac:(lia)) as (a & t & Hl & Ha).
  exists a, t, (length l / 64)%nat. split; [done|]. split; [done|].
  assert (length l = length a + length t)%nat by (by rewrite Hl, length_app). lia.
Qed.

Lemma update_ok ctx m d rest : ctx_ok ctx m → Forall byte d → Z.of_nat (length d) < 2 ^ 32 →
  ∃ ctx', sha256_update stale aligned ctx (d ++ rest) (Z.of_nat (length d)) = Some ctx' ∧ ctx_ok ctx' (m ++ d).
Proof.
  intros (Hm & n & q & r & old & c0 & c1 & Hmqr & Hq & Hr & Hst & Hbuf & Hbl & Hcnt & Hc0 & Hc1 & Hc) Hd Hlen.
  subst m. apply Forall_app in Hm as Hqr. destruct Hqr as [Hqb Hrb].
  pose proof (count_ok c0 c1 _ (Z.of_nat (length d)) Hc0 Hc1 Hc ltac:(lia) ltac:(lia)) as Hcount.
  cbv zeta in Hcount. unfold sha256_update. rewrite Hcnt, Hst, Hbuf. cbn [aget].
  change (aget [c0; c1] 1) with (Some c1). change (aget [c0; c1] 0) with (Some c0). mred. cbv zeta.
  rewrite (fill_level c0 c1 n q r) by done.
  match type of Hcount with uint 32 ?x ∧ uint 32 ?y ∧ _ => set (c0' := x) in *; set (c1' := y) in * end.
  destruct Hcount as (Hw0 & Hw1 & Hcount).
  rewrite Hbuf, length_app in Hbl.
  assert (∀ st b n' q' r' old', (q ++ r) ++ d = q' ++ r' → length q' = (64 * n')%nat → (length r' < 64)%nat →
    st = absorb n' fips_H0 q' → b = r' ++ old' → length b = 64%nat → ctx_ok (Sha256Ctx st [c0'; c1'] b) ((q ++ r) ++ d)) as Hok.
  { intros st b n' q' r' old' E1 E2 E3 E4 E5 E6. split; [by apply Forall_app|].
    exists n', q', r', old', c0', c1'. split_and!; try done.
    by rewrite Hcount, (length_app (q ++ r)), Nat2Z.inj_add. }
  remember ((q ++ r) ++ d) as M eqn:HM in Hok |- *.
  destruct (Z.ltb_spec (Z.of_nat (length d)) (64 - Z.of_nat (length r))) as [Hlt|Hge].
  - destruct (split_at old (length d) ltac:(lia)) as (o1 & o2 & -> & Ho1). rewrite length_app in Hbl.
    destruct (Z.ltb_spec 0 (Z.of_nat (length d))) as [Hpos|H0].
    + rewrite load_prefix. mred. rewrite store_mid by done. mred. eexists. split; [done|].
      apply (Hok _ _ n q (r ++ d) o2); try done.
      * by rewrite HM, <- app_assoc.
      * rewrite length_app. lia.
      * by rewrite <- app_assoc.
      * rewrite !length_app. lia.
    + destruct d; [|simpl in H0; lia]. eexists. split; [done|]. apply (Hok _ _ n q r (o1 ++ o2)); try done.
      * rewrite HM. apply app_nil_r.
      * rewrite !length_app. lia.
  - destruct (split_at d (64 - length r) ltac:(lia)) as (d1 & d2 & Hd12 & Hd1).
    destruct (split_blocks d2) as (a & t & k & Hd2 & Ha & Ht). subst d2.
    assert (length d = length d1 + length (a ++ t))%nat as Hdl by (by rewrite Hd12, length_app).
    rewrite Hd12. rewrite <- !app_assoc.
    replace (64 - Z.of_nat (length r)) with (Z.of_nat (length d1)) by lia. rewrite load_prefix. mred.
    pose proof (store_mid r old d1 [] ltac:(lia)) as Hstore. rewrite !app_nil_r in Hstore. rewrite Hstore. mred.
    rewrite Hd12 in Hd. apply Forall_app in Hd as [Hdb1 [Hab Htb]%Forall_app].
    assert (block64 (r ++ d1)) as Hblk by (split; [rewrite length_app; lia|by apply Forall_app]).
    pose proof (absorb_ok n fips_H0 q H0_hash_ok Hqb Hq) as Hh.
    destruct (transform_ok _ _ Hh Hblk) as [-> Hh']. mred.
    pose proof (transform_loop_ok k (S (Z.to_nat (Z.of_nat (length d)))) d1 a t rest _ Hh' Hab Ha Ht ltac:(rewrite length_app in Hdl; lia)) as Hloop.
    replace (Z.of_nat (length (d1 ++ a ++ t)) - Z.of_nat (length d1)) with (Z.of_nat (length (a ++ t)))
      by (rewrite (length_app d1); lia).
    replace (length (d1 ++ a ++ t)) with (length d) by (by rewrite Hd12).
    rewrite Hloop. mred. rewrite (app_assoc d1), load_mid. mred.
    destruct (split_at (r ++ d1) (length t) ltac:(destruct Hblk; lia)) as (b1 & b2 & Hb12 & Hb1).
    destruct Hblk as [Hblk1 Hblk2]. rewrite Hb12 in Hblk1 |- *.
    rewrite store_prefix by done. mred. eexists. split; [done|].
    apply (Hok _ _ (n + (1 + k))%nat (q ++ (r ++ d1) ++ a) t b2); try done.
    + rewrite HM, Hd12. by rewrite <- !app_assoc.
    + rewrite !length_app in *. lia.
    + rewrite absorb_app by done. rewrite absorb_app by (rewrite Hb12; lia).
      by rewrite absorb_1, Hb12 by (rewrite Hb12; lia).
    + rewrite length_app in *. lia.
Qed.

(** ** Padding and the digest *)

Lemma be_bytes_wrap n v : be_bytes n (v mod 256 ^ Z.of_nat n) = be_bytes n v.
Proof. rewrite <- be_value_bytes, <- (be_bytes_length n v) at 1. apply be_bytes_value, be_bytes_byte. Qed.

Lemma be_bytes_word c1 n c0 : word c1 → be_bytes (n + 4) (c0 * 2 ^ 32 + c1) = be_bytes n c0 ++ be_bytes 4 c1.
Proof.
  unfold uint. intros Hc. rewrite Nat.add_comm. cbn [Nat.add be_bytes app].
  assert ((c0 * 2 ^ 32 + c1) / 256 / 256 / 256 / 256 = c0) as -> by (Z.div_mod_to_equations; lia).
  rewrite <- !app_assoc. cbn [app]. f_equal. repeat (f_equal; try by Z.div_mod_to_equations; lia).
Qed.

Lemma PAD_split n : (0 < n ≤ 64)%nat → PAD = (0x80 :: replicate (n - 1) 0) ++ replicate (64 - n) 0.
Proof. intros Hn. cbn [app]. unfold PAD. rewrite <- replicate_add. do 2 f_equal. lia. Qed.

Lemma pad_ok ctx m : ctx_ok ctx m → 8 * Z.of_nat (length m) < 2 ^ 64 →
  ∃ ctx', sha256_pad stale aligned ctx = Some ctx' ∧ ctx_ok ctx' (sha_padded m).
Proof.
  intros Hok Hlen. pose proof Hok as (_ & n & q & r & old & c0 & c1 & -> & Hq & Hr & _ & _ & _ & Hcnt & Hc0 & Hc1 & Hc).
  unfold sha256_pad. rewrite Hcnt. change (aget [c0; c1] 1) with (Some c1). mred. cbv zeta.
  rewrite (fill_level c0 c1 n q r) by done.
  assert (be32enc_vect aligned [c0; c1] = be_bytes 8 (8 * Z.of_nat (length (q ++ r)))) as ->.
  { rewrite be32enc_ok by (by rewrite !Forall_cons). cbn [fmap list_fmap concat]. rewrite app_nil_r.
    rewrite <- (be_bytes_word c1 4 c0 Hc1), Hc. apply be_bytes_wrap. }
  set (z := Z.to_nat ((55 - Z.of_nat (length (q ++ r))) mod 64)).
  pose proof (Z.mod_pos_bound (55 - Z.of_nat (length (q ++ r))) 64 ltac:(lia)) as Hz.
  assert ((if Z.of_nat (length r) <? 56 then 56 - Z.of_nat (length r) else 120 - Z.of_nat (length r)) =
    Z.of_nat (length (0x80 :: replicate z 0))) as ->.
  { cbn [length]. rewrite length_replicate. unfold z. rewrite Nat2Z.inj_succ, Z2Nat.id by lia.
    rewrite length_app, Hq. destruct (Z.ltb_spec (Z.of_nat (length r)) 56).
    - rewrite <- (Z.mod_unique_pos _ 64 (- Z.of_nat n) (55 - Z.of_nat (length r))) by lia. lia.
    - rewrite <- (Z.mod_unique_pos _ 64 (- Z.of_nat n - 1) (119 - Z.of_nat (length r))) by lia. lia. }
  rewrite (PAD_split (S z)) by (unfold z; lia). rewrite Nat.sub_1_r. cbn [Nat.pred].
  assert (Forall byte (0x80 :: replicate z 0)) as Hpb.
  { constructor; [unfold uint; lia|]. apply Forall_replicate. unfold uint; lia. }
  destruct (update_ok ctx _ (0x80 :: replicate z 0) (replicate (64 - S z) 0) Hok Hpb) as (ctx1 & -> & Hok1).
  { cbn [length]. rewrite length_replicate. unfold z. lia. }
  mred. pose proof (update_ok ctx1 _ (be_bytes 8 (8 * Z.of_nat (length (q ++ r)))) [] Hok1 (be_bytes_byte _ _)) as Hu.
  rewrite be_bytes_length, app_nil_r in Hu. destruct Hu as (ctx2 & Hu & Hok2); [lia|].
  exists ctx2. split; [exact Hu|]. by rewrite <- app_assoc in Hok2.
Qed.

Lemma sha_padded_length m : ∃ k, length (sha_padded m) = (64 * k)%nat.
Proof.
  unfold sha_padded, sha_padding. rewrite length_app. cbn [length].
  rewrite length_app, length_replicate, be_bytes_length.
  pose proof (Z.div_mod (55 - Z.of_nat (length m)) 64 ltac:(lia)).
  pose proof (Z.mod_pos_bound (55 - Z.of_nat (length m)) 64 ltac:(lia)).
  exists (Z.to_nat (1 - (55 - Z.of_nat (length m)) / 64)). lia.
Qed.

Definition cleared : sha256_context_t := Sha256Ctx (replicate 8 0) (replicate 2 0) (replicate 64 0).

Lemma final_ok ctx m : ctx_ok ctx m → 8 * Z.of_nat (length m) < 2 ^ 64 →
  sha256_final stale aligned ctx = Some (SHA256 m, cleared).
Proof.
  intros Hok Hlen. destruct (pad_ok ctx m Hok Hlen) as (ctx' & Hpad & Hm & n & q & r & old & c0 & c1 & E & Hq & Hr & Hst & _).
  unfold sha256_final. rewrite Hpad. mred. rewrite Hst.
  destruct (sha_padded_length m) as [k Hk]. rewrite E, length_app in Hk.
  assert (r = []) as -> by (destruct r; [done|simpl in *; lia]). rewrite app_nil_r in E.
  unfold SHA256. rewrite E, Hq, Nat.mul_comm, Nat.div_mul by lia.
  rewrite be32enc_ok; [done|]. apply (absorb_ok n fips_H0 q H0_hash_ok); [by rewrite <- E|lia].
Qed.

(** A client that hashes the pieces [ds] one after the other. *)
Fixpoint updates (ctx : sha256_context_t) (ds : list (list Z)) : option sha256_context_t :=
  match ds with
  | [] => Some ctx
  | d :: ds => ctx ← sha256_update stale aligned ctx d (Z.of_nat (length d)); updates ctx ds
  end.

Definition piece (d : list Z) : Prop := Forall byte d ∧ Z.of_nat (length d) < 2 ^ 32.

Lemma update_all ctx m d : ctx_ok ctx m → piece d →
  ∃ ctx', sha256_update stale aligned ctx d (Z.of_nat (length d)) = Some ctx' ∧ ctx_ok ctx' (m ++ d).
Proof. intros Hok [Hd Hl]. pose proof (update_ok ctx m d [] Hok Hd Hl) as Hu. by rewrite app_nil_r in Hu. Qed.

Lemma updates_ok ds : ∀ ctx m, ctx_ok ctx m → Forall piece ds →
  ∃ ctx', updates ctx ds = Some ctx' ∧ ctx_ok ctx' (m ++ concat ds).
Proof.
  induction ds as [|d ds IH]; intros ctx m Hok Hds.
  - exists ctx. by rewrite app_nil_r.
  - apply Forall_cons in Hds as [Hd Hds]. destruct (update_all ctx m d Hok Hd) as (c1 & Hu & Hok1).
    destruct (IH c1 _ Hok1 Hds) as (c2 & Hu2 & Hok2). exists c2. cbn [updates concat]. rewrite Hu. mred.
    by rewrite app_assoc.
Qed.

Lemma sha256_ok c d : length (buf c) = 64%nat → piece d →
  sha256 stale aligned c d (Z.of_nat (length d)) = Some (SHA256 d).
Proof.
  intros Hc Hd. destruct (update_all _ [] d (init_ok c Hc) Hd) as (c1 & Hu & Hok1).
  unfold sha256. rewrite Hu. mred. destruct Hd as [_ Hl]. by rewrite (final_ok c1 d Hok1) by lia.
Qed.

Lemma SHA256_length m : Forall byte m → length (SHA256 m) = 32%nat ∧ Forall byte (SHA256 m).
Proof.
  intros Hm. destruct (sha_padded_length m) as [k Hk]. unfold SHA256. rewrite Hk, Nat.mul_comm, Nat.div_mul by lia.
  assert (Forall byte (sha_padded m)) as Hp.
  { unfold sha_padded, sha_padding. apply Forall_app. split; [done|]. constructor; [unfold uint; lia|].
    apply Forall_app. split; [apply Forall_replicate; unfold uint; lia|apply be_bytes_byte]. }
  destruct (absorb_ok k fips_H0 _ H0_hash_ok Hp Hk) as [Hl _]. revert Hl. generalize (absorb k fips_H0 (sha_padded m)).
  intros ws Hl. do 9 (destruct ws as [|? ws]; try done). split; [done|].
  apply Forall_concat, Forall_forall. intros x (y & -> & _)%list_elem_of_fmap. apply be_bytes_byte.
Qed.

Lemma SHA256_piece m : Forall byte m → piece (SHA256 m).
Proof. intros [Hl Hb]%SHA256_length. split; [done|lia]. Qed.

(** ** HMAC *)

Lemma hmac_key_length key : Forall byte key → length (hmac_key key) = 64%nat ∧ Forall byte (hmac_key key).
Proof.
  intros Hkey. unfold hmac_key. rewrite length_app, length_replicate. destruct (SHA256_length key Hkey) as [Hl Hb].
  split; [case_decide; lia|]. apply Forall_app. split; [by case_decide|]. apply Forall_replicate. unfold uint; lia.
Qed.

Lemma key_pad_ok k x : length k = 64%nat →
  fill 64 0 0 (λ _ i, y ← aget k i; Some (Z.lxor x y)) (replicate 64 0) = Some (Z.lxor x <$> k).
Proof.
  intros Hk. pose proof (fill_ok (λ _ i, y ← aget k i; Some (Z.lxor x y)) 64 0 [] (replicate 64 0) (Z.lxor x <$> k) []) as Hf.
  rewrite !app_nil_r in Hf. apply Hf; [by rewrite length_fmap|by rewrite length_fmap|done|].
  intros i y Hi. rewrite list_lookup_fmap in Hi. rewrite aget_nat. destruct (k !! i); [|done]. exact Hi.
Qed.

Lemma hmac_init_ok ctx c key : length (buf c) = 64%nat → length (buf (c_in ctx)) = 64%nat →
  length (buf (c_out ctx)) = 64%nat → piece key →
  ∃ ctx', hmac_sha256_init stale aligned ctx c key (Z.of_nat (length key)) = Some ctx' ∧
    ctx_ok (c_in ctx') (Z.lxor 0x36 <$> hmac_key key) ∧ ctx_ok (c_out ctx') (Z.lxor 0x5c <$> hmac_key key).
Proof.
  intros Hc Hi Ho Hkey. pose proof Hkey as [Hkb _]. destruct (SHA256_length key Hkb) as [Hsl _].
  unfold hmac_sha256_init. cbv zeta.
  assert ((if SHA256_INTERNAL_BLOCK_SIZE <? Z.of_nat (length key)
    then d ← sha256 stale aligned c key (Z.of_nat (length key)); store (replicate 64 0) 0 d
    else d ← load key 0 (Z.of_nat (length key)); store (replicate 64 0) 0 d) = Some (hmac_key key)) as ->.
  { assert (∀ l : list Z, (length l ≤ 64)%nat → store (replicate 64 0) 0 l = Some (l ++ replicate (64 - length l) 0)) as Hst.
    { intros l Hl. replace 64%nat with (length l + (64 - length l))%nat at 1 by lia.
      rewrite replicate_add. apply store_prefix. apply length_replicate. }
    unfold hmac_key, SHA256_INTERNAL_BLOCK_SIZE. destruct (Z.ltb_spec 64 (Z.of_nat (length key))) as [Hlong|Hshort].
    - rewrite sha256_ok by done. mred. rewrite Hst by lia. rewrite decide_True by lia. done.
    - pose proof (load_prefix key []) as Hload. rewrite app_nil_r in Hload. rewrite Hload. mred.
      rewrite Hst by lia. rewrite decide_False by lia. done. }
  mred. destruct (hmac_key_length key Hkb) as [Hkl Hkb']. rewrite !key_pad_ok by done. mred.
  assert (∀ x, byte x → piece (Z.lxor x <$> hmac_key key)) as Hpad.
  { intros x Hx. split; [|rewrite length_fmap; lia]. apply Forall_fmap. eapply Forall_impl; [exact Hkb'|].
    intros y Hy. cbn. apply lxor_range; by try lia. }
  assert (∀ x, SHA256_INTERNAL_BLOCK_SIZE = Z.of_nat (length (Z.lxor x <$> hmac_key key))) as Hpl
    by (intros x; rewrite length_fmap, Hkl; done).
  destruct (update_all _ [] _ (init_ok _ Hi) (Hpad 0x36 ltac:(unfold uint; lia))) as (i & Hui & Hoki).
  rewrite (Hpl 0x36), Hui. mred.
  destruct (update_all _ [] _ (init_ok _ Ho) (Hpad 0x5c ltac:(unfold uint; lia))) as (o & Huo & Hoko).
  rewrite <- (Hpl 0x36), (Hpl 0x5c), Huo. mred. eauto.
Qed.

Fixpoint hmac_updates (ctx : hmac_context_t) (ds : list (list Z)) : option hmac_context_t :=
  match ds with
  | [] => Some ctx
  | d :: ds => ctx ← hmac_sha256_update stale aligned ctx d (Z.of_nat (length d)); hmac_updates ctx ds
  end.

Lemma hmac_updates_ok ds ctx : hmac_updates ctx ds = i ← updates (c_in ctx) ds; Some (HmacCtx i (c_out ctx)).
Proof.
  revert ctx. induction ds as [|d ds IH]; intros ctx; [by destruct ctx|].
  cbn [hmac_updates updates]. unfold hmac_sha256_update.
  destruct (sha256_update stale aligned (c_in ctx) d (Z.of_nat (length d))) as [i|]; mred; [|done].
  apply (IH (HmacCtx i (c_out ctx))).
Qed.

Lemma hmac_final_ok ctx key m : Forall byte key → Forall byte m → 8 * (64 + Z.of_nat (length m)) < 2 ^ 64 →
  ctx_ok (c_in ctx) ((Z.lxor 0x36 <$> hmac_key key) ++ m) → ctx_ok (c_out ctx) (Z.lxor 0x5c <$> hmac_key key) →
  hmac_sha256_final stale aligned ctx = Some (HMAC key m, HmacCtx cleared cleared).
Proof.
  intros Hkb Hm Hl Hi Ho. destruct (hmac_key_length key Hkb) as [Hkl _].
  unfold hmac_sha256_final. rewrite (final_ok _ _ Hi) by (rewrite length_app, length_fmap, Hkl; lia). mred.
  destruct Hi as [Hib _]. destruct (SHA256_length _ Hib) as [Hsl Hsb].
  destruct (update_all _ _ _ Ho (SHA256_piece _ Hib)) as (o & Hu & Hok).
  unfold SHA256_DIGEST_LENGTH. rewrite Hsl in Hu. change (Z.of_nat 32) with 32 in Hu. rewrite Hu. mred.
  rewrite (final_ok _ _ Hok) by (rewrite length_app, length_fmap, Hkl, Hsl; lia). done.
Qed.

(** ** Chains *)

(** The element with index [i] of the chain of [seed]. *)
Definition chain_elem (seed : list Z) (i : nat) : list Z := Nat.iter (S i) SHA256 seed.

Definition digest_ok (e : list Z) : Prop := length e = 32%nat ∧ Forall byte e.

Lemma SHA256_digest_ok m : Forall byte m → digest_ok (SHA256 m).
Proof. apply SHA256_length. Qed.

Section Chains.
Context (c : sha256_context_t) (Hc : length (buf c) = 64%nat).

Lemma digest_sha256 e : digest_ok e → sha256 stale aligned c e SHA256_DIGEST_LENGTH = Some (SHA256 e).
Proof.
  intros [Hl Hb]. pose proof (sha256_ok c e Hc) as H. rewrite Hl in H. apply H. split; [done|lia].
Qed.

Lemma inplace_loop_ok n : ∀ e, digest_ok e →
  inplace_loop stale aligned c n e = Some (Nat.iter n SHA256 e) ∧ digest_ok (Nat.iter n SHA256 e).
Proof.
  induction n as [|n IH]; intros e He; [done|]. cbn [inplace_loop]. unfold sha256_inplace.
  rewrite digest_sha256 by done. mred. rewrite Nat.iter_succ_r. apply IH, SHA256_digest_ok, He.
Qed.

Lemma chain_elem_ok seed i : Forall byte seed → digest_ok (chain_elem seed i).
Proof. intros Hs. induction i as [|i IH]; apply SHA256_digest_ok; [done|apply IH]. Qed.

Lemma chain_elem_add seed i n : Nat.iter n SHA256 (chain_elem seed i) = chain_elem seed (n + i).
Proof. unfold chain_elem. by rewrite <- Nat.iter_add, Nat.add_succ_r. Qed.

Lemma chain_elem_S seed i : SHA256 (chain_elem seed i) = chain_elem seed (S i).
Proof. reflexivity. Qed.

Lemma inplace_chain seed n i : Forall byte seed →
  inplace_loop stale aligned c n (chain_elem seed i) = Some (chain_elem seed (n + i)).
Proof. intros Hs. rewrite <- chain_elem_add. apply inplace_loop_ok, chain_elem_ok, Hs. Qed.

(** The waypoints [k] of which hold the elements at [idx 0 ..]. *)
Definition holds (seed : list Z) (ws : list sha256_chain_idx_elm_t) (k : nat) (idx : nat → nat) : Prop :=
  ∀ j, (j < k)%nat → ws !! j = Some (ChainElm (Z.of_nat (idx j)) (chain_elem seed (idx j))).

Lemma holds_snoc seed ws k idx : holds seed ws k idx → (k < length ws)%nat →
  ∃ ws', aset ws (Z.of_nat k) (ChainElm (Z.of_nat (idx k)) (chain_elem seed (idx k))) = Some ws' ∧
    length ws' = length ws ∧ holds seed ws' (S k) idx.
Proof.
  intros Hh Hk. rewrite aset_in by lia. rewrite Nat2Z.id. eexists. split; [done|]. split; [apply length_insert|].
  intros j Hj. destruct (decide (j = k)) as [->|]; [by apply list_lookup_insert_eq|].
  rewrite list_lookup_insert_ne by done. apply Hh. lia.
Qed.

Lemma store_loop_ok seed n : Forall byte seed → ∀ i ws, (0 < i)%nat → (i + n ≤ length ws)%nat → holds seed ws i id →
  ∃ ws', store_loop stale aligned c n (Z.of_nat i) ws = Some ws' ∧ length ws' = length ws ∧ holds seed ws' (i + n) id.
Proof.
  intros Hs. induction n as [|n IH]; intros i ws Hi Hl Hh; [exists ws; by rewrite Nat.add_0_r|]. cbn [store_loop].
  replace (Z.of_nat i - 1) with (Z.of_nat (i - 1)) by lia.
  rewrite aget_nat, (Hh (i - 1)%nat) by lia. unfold id. mred. cbn [element].
  rewrite digest_sha256 by by apply chain_elem_ok. mred.
  destruct (holds_snoc seed ws i id Hh ltac:(lia)) as (ws1 & Hset & Hl1 & Hh1).
  rewrite chain_elem_S. replace (S (i - 1)) with i by lia. unfold id in Hset. rewrite Hset. mred.
  replace (Z.of_nat i + 1) with (Z.of_nat (S i)) by lia.
  destruct (IH (S i) ws1 ltac:(lia) ltac:(lia) Hh1) as (ws2 & Hloop & Hl2 & Hh2).
  exists ws2. split; [exact Hloop|]. split; [lia|]. by rewrite Nat.add_succ_r.
Qed.

Lemma streak_loop_ok seed streak n : Forall byte seed → (0 < streak)%nat →
  let idx := λ j, (streak * S j - 1)%nat in
  ∀ j ws, (0 < j)%nat → (j + n ≤ length ws)%nat → holds seed ws j idx →
  ∃ ws', streak_loop stale aligned c n (Z.of_nat j) (Z.of_nat streak) (Z.of_nat (idx (j - 1)%nat))
      (chain_elem seed (idx (j - 1)%nat)) ws =
    Some (Z.of_nat (idx (j + n - 1)%nat), chain_elem seed (idx (j + n - 1)%nat), ws') ∧
    length ws' = length ws ∧ holds seed ws' (j + n) idx.
Proof.
  intros Hs Hstreak idx. induction n as [|n IH]; intros j ws Hj Hl Hh; [exists ws; by rewrite Nat.add_0_r|].
  cbn [streak_loop]. rewrite Nat2Z.id, inplace_chain by done. mred.
  assert (streak + idx (j - 1) = idx j)%nat as E by (unfold idx; destruct j; [lia|]; nia).
  rewrite E, <- Nat2Z.inj_add, (Nat.add_comm (idx _)), E.
  destruct (holds_snoc seed ws j idx Hh ltac:(lia)) as (ws1 & Hset & Hl1 & Hh1). rewrite Hset. mred.
  replace (Z.of_nat j + 1) with (Z.of_nat (S j)) by lia.
  destruct (IH (S j) ws1 ltac:(lia) ltac:(lia) Hh1) as (ws2 & Hloop & Hl2 & Hh2).
  rewrite Nat.sub_succ, Nat.sub_0_r in Hloop. rewrite Nat.add_succ_comm in *.
  exists ws2. split; [exact Hloop|]. split; [lia|done].
Qed.

Lemma chain_tail seed n : piece seed → (2 ≤ n)%nat →
  sha256_chain stale aligned c seed (Z.of_nat (length seed)) (Z.of_nat n) = Some (chain_elem seed (n - 1)).
Proof.
  intros Hseed Hn. unfold sha256_chain. rewrite (proj2 (Z.ltb_ge _ _)) by lia. rewrite sha256_ok by done. mred.
  replace (Z.to_nat (Z.of_nat n - 1)) with (n - 1)%nat by lia.
  pose proof (inplace_chain seed (n - 1) 0 (proj1 Hseed)) as H. by rewrite Nat.add_0_r in H.
Qed.

(** The result of the call with waypoints. *)
Definition waypoints_spec (seed : list Z) (n : nat) (ws : list sha256_chain_idx_elm_t) (last : nat)
    (res : option (list Z * list sha256_chain_idx_elm_t * Z)) : Prop :=
  ∃ ws', res = Some (chain_elem seed (n - 1), ws', Z.of_nat last) ∧ length ws' = length ws ∧
    ∀ j, (j ≤ last)%nat → ∃ i, (i < n)%nat ∧ ws' !! j = Some (ChainElm (Z.of_nat i) (chain_elem seed i)).

Lemma waypoints_all seed n ws : Forall byte seed → (2 ≤ n ≤ length ws)%nat →
  waypoints_spec seed n ws (n - 1)
    (ws ← aset ws 0 (ChainElm 0 (SHA256 seed));
     ws ← store_loop stale aligned c (Z.to_nat (Z.of_nat n - 1)) 1 ws;
     w ← aget ws (Z.of_nat n - 1);
     Some (element w, ws, Z.of_nat n - 1)).
Proof.
  intros Hs Hn. destruct (holds_snoc seed ws 0 id ltac:(intros j Hj; lia) ltac:(lia)) as (ws1 & Hset & Hl1 & Hh1).
  unfold id in Hset. change (Z.of_nat 0) with 0 in Hset. change (SHA256 seed) with (chain_elem seed 0).
  rewrite Hset. mred. replace (Z.to_nat (Z.of_nat n - 1)) with (n - 1)%nat by lia.
  destruct (store_loop_ok seed (n - 1) Hs 1 ws1 ltac:(lia) ltac:(lia) Hh1) as (ws2 & Hloop & Hl2 & Hh2).
  change (Z.of_nat 1) with 1 in Hloop. rewrite Hloop. mred.
  replace (Z.of_nat n - 1) with (Z.of_nat (n - 1)) by lia.
  rewrite aget_nat, (Hh2 (n - 1)%nat) by lia. mred. cbn [element].
  exists ws2. split; [done|]. split; [lia|]. intros j Hj. exists j. split; [lia|]. apply Hh2. lia.
Qed.

Lemma waypoints_few seed n ws wl (k := (n / wl)%nat) : Forall byte seed → (2 ≤ wl ≤ length ws)%nat → (wl < n)%nat →
  waypoints_spec seed n ws (wl - 1)
    (tmp ← inplace_loop stale aligned c (Z.to_nat (Z.of_nat k - 1)) (SHA256 seed);
     ws ← aset ws 0 (ChainElm (Z.of_nat k - 1) tmp);
     '(index, tmp, ws) ← streak_loop stale aligned c (Z.to_nat (Z.of_nat wl - 1)) 1 (Z.of_nat k) (Z.of_nat k - 1) tmp ws;
     tmp ← inplace_loop stale aligned c (Z.to_nat (Z.of_nat n - 1 - index)) tmp;
     Some (tmp, ws, Z.of_nat wl - 1)).
Proof.
  intros Hs Hwl Hn. assert (0 < k ∧ k * wl ≤ n)%nat as [Hk Hkn].
  { unfold k. split; [apply Nat.div_str_pos; lia|]. rewrite Nat.mul_comm. apply Nat.Div0.mul_div_le. }
  set (idx := λ j, (k * S j - 1)%nat).
  replace (Z.to_nat (Z.of_nat k - 1)) with (idx 0%nat) by (unfold idx; lia).
  change (SHA256 seed) with (chain_elem seed 0). rewrite inplace_chain by done. mred. rewrite Nat.add_0_r.
  destruct (holds_snoc seed ws 0 idx ltac:(intros j Hj; lia) ltac:(lia)) as (ws1 & Hset & Hl1 & Hh1).
  replace (Z.of_nat k - 1) with (Z.of_nat (idx 0%nat)) by (unfold idx; lia).
  change (Z.of_nat 0) with 0 in Hset. rewrite Hset. mred.
  replace (Z.to_nat (Z.of_nat wl - 1)) with (wl - 1)%nat by lia.
  destruct (streak_loop_ok seed k (wl - 1) Hs Hk 1 ws1 ltac:(lia) ltac:(lia) Hh1) as (ws2 & Hloop & Hl2 & Hh2).
  change (Z.of_nat 1) with 1 in Hloop. rewrite Nat.sub_diag in Hloop. unfold idx at 1 2. rewrite Hloop. mred.
  assert (k * S (1 + (wl - 1) - 1) - 1 = idx (wl - 1))%nat as -> by (unfold idx; f_equal; lia).
  assert (idx (wl - 1) ≤ n - 1)%nat as Hlast by (unfold idx; replace (S (wl - 1)) with wl by lia; lia).
  replace (Z.to_nat (Z.of_nat n - 1 - Z.of_nat (idx (wl - 1)%nat))) with (n - 1 - idx (wl - 1))%nat by lia.
  rewrite inplace_chain by done. mred. rewrite Nat.sub_add by done.
  exists ws2. split; [do 2 f_equal; lia|]. split; [lia|].
  intros j Hj. exists (idx j). split; [unfold idx in *; nia|]. apply Hh2. lia.
Qed.

Lemma waypoints_ok seed n ws wl : piece seed → (2 ≤ n)%nat → (2 ≤ wl ≤ length ws)%nat →
  waypoints_spec seed n ws (if decide (n ≤ wl)%nat then n - 1 else wl - 1)%nat
    (sha256_chain_with_waypoints stale aligned c seed (Z.of_nat (length seed)) (Z.of_nat n) ws (Z.of_nat wl)).
Proof.
  intros Hseed Hn Hwl. unfold sha256_chain_with_waypoints.
  rewrite (proj2 (Z.ltb_ge _ _)), (proj2 (Z.ltb_lt _ _)) by lia. cbn [orb negb]. rewrite sha256_ok by done.
  destruct (Z.leb_spec (Z.of_nat n) (Z.of_nat wl)) as [Hall|Hfew]; mred.
  - rewrite decide_True by lia. apply waypoints_all; [apply Hseed|lia].
  - rewrite decide_False, <- Nat2Z.inj_div by lia. apply waypoints_few; [apply Hseed|lia..].
Qed.

Lemma verify_ok e i tail n : digest_ok e → digest_ok tail → (i < n)%nat → Z.of_nat (n - i) < 2 ^ 31 →
  sha256_chain_verify_element stale aligned c e (Z.of_nat i) tail (Z.of_nat n) =
    Some (b2z (negb (bool_decide (Nat.iter (n - 1 - i) SHA256 e = tail)))).
Proof.
  intros He [Ht _] Hi Hni. unfold sha256_chain_verify_element.
  replace (Z.of_nat n - Z.of_nat i) with (Z.of_nat (n - i)) by lia.
  assert (i32 (Z.of_nat (n - i)) = Z.of_nat (n - i)) as -> by (apply swrap_small; lia).
  rewrite (proj2 (Z.ltb_ge _ _)) by lia. replace (Z.to_nat (Z.of_nat (n - i) - 1)) with (n - 1 - i)%nat by lia.
  rewrite (proj1 (inplace_loop_ok _ _ He)). mred.
  pose proof (load_prefix tail []) as Hload. rewrite app_nil_r, Ht in Hload.
  unfold SHA256_DIGEST_LENGTH. change 32 with (Z.of_nat 32). rewrite Hload. done.
Qed.
End Chains.
End Alignment.

(** ** Examples *)

Definition ex_stale : list Z := replicate 64 7.
Definition ex_ctx : sha256_context_t := Sha256Ctx (replicate 8 1) (replicate 2 1) (replicate 64 1).

Lemma small_piece d : forallb (λ x, (0 <=? x) && (x <? 256)) d = true → (Z.of_nat (length d) <? 2 ^ 32) = true → piece d.
Proof.
  intros Hb Hl. split; [|lia]. apply Forall_forall. intros x Hx. rewrite forallb_forall in Hb.
  apply list_elem_of_In, Hb in Hx. unfold uint. lia.
Qed.

Example SHA256_abc : SHA256 [97; 98; 99] =
  [186; 120; 22; 191; 143; 1; 207; 234; 65; 65; 64; 222; 93; 174; 34; 35; 176; 3; 97; 163; 150; 23; 122; 156; 180; 16; 255; 97; 242; 0; 21; 173].
Proof. vm_compute. reflexivity. Qed.

Example HMAC_key_abc : HMAC [107; 101; 121] [97; 98; 99] =
  [156; 25; 110; 50; 220; 1; 117; 248; 111; 75; 28; 184; 146; 137; 214; 97; 157; 230; 190; 230; 153; 228; 195; 120; 230; 131; 9; 237; 151; 161; 166; 171].
Proof. vm_compute. reflexivity. Qed.

(** ** The claims *)

(** C40: Hashing the pieces of a message one after the other, each of less than
    [2^32] bytes, gives its SHA-256, the digest of FIPS 180-4, for every way of cutting the message and either alignment,
    and clears the context; hashing in one call gives the same. *)
Theorem sha256_correct stale aligned c ds :
  length stale = 64%nat → length (buf c) = 64%nat → Forall piece ds → 8 * Z.of_nat (length (concat ds)) < 2 ^ 64 →
  (∃ c', updates stale aligned (sha256_init c) ds = Some c' ∧
     sha256_final stale aligned c' = Some (SHA256 (concat ds), cleared)) ∧
  ∀ d, d ∈ ds → sha256 stale aligned c d (Z.of_nat (length d)) = Some (SHA256 d).
Proof.
  intros Hst Hc Hds Hl. split.
  - destruct (updates_ok stale Hst aligned ds _ [] (init_ok stale Hst c Hc) Hds) as (c' & Hu & Hok).
    exists c'. split; [done|]. by apply (final_ok stale Hst).
  - intros d Hd. apply (sha256_ok stale Hst); [done..|]. by apply (proj1 (Forall_forall _ _) Hds).
Qed.

Lemma sha256_correct_witness :
  ∃ c', updates ex_stale true (sha256_init ex_ctx) [[97]; []; [98; 99]] = Some c' ∧
    sha256_final ex_stale true c' = Some (SHA256 (concat [[97]; []; [98; 99]]), cleared).
Proof.
  apply (sha256_correct ex_stale true ex_ctx [[97]; []; [98; 99]]); [done|done| |].
  - repeat (apply Forall_cons_2; [apply small_piece; reflexivity|]). apply Forall_nil_2.
  - cbn [concat length app]. lia.
Defined.

(** HMAC over the pieces of a message is the HMAC of RFC 2104 with SHA-256 for
    keys of any length, and clears both contexts; the one-call function agrees. *)
Theorem hmac_correct stale aligned ctx c key ds :
  length stale = 64%nat → length (buf c) = 64%nat → length (buf (c_in ctx)) = 64%nat →
  length (buf (c_out ctx)) = 64%nat → piece key → Forall piece ds →
  8 * (64 + Z.of_nat (length (concat ds))) < 2 ^ 64 →
  (∃ c1 c2, hmac_sha256_init stale aligned ctx c key (Z.of_nat (length key)) = Some c1 ∧
     hmac_updates stale aligned c1 ds = Some c2 ∧
     hmac_sha256_final stale aligned c2 = Some (HMAC key (concat ds), HmacCtx cleared cleared)) ∧
  ∀ d, ds = [d] →
    hmac_sha256 stale aligned ctx c key (Z.of_nat (length key)) d (Z.of_nat (length d)) = Some (HMAC key d).
Proof.
  intros Hst Hc Hi Ho Hkey Hds Hl.
  destruct (hmac_init_ok stale Hst aligned ctx c key Hc Hi Ho Hkey) as (c1 & Hinit & Hi1 & Ho1).
  destruct (updates_ok stale Hst aligned ds _ _ Hi1 Hds) as (i & Hu & Hi2).
  assert (Forall byte (concat ds)) as Hb.
  { apply Forall_concat. eapply Forall_impl; [exact Hds|]. by intros d [Hd _]. }
  assert (hmac_updates stale aligned c1 ds = Some (HmacCtx i (c_out c1))) as Hu1 by (by rewrite hmac_updates_ok, Hu).
  assert (hmac_sha256_final stale aligned (HmacCtx i (c_out c1)) = Some (HMAC key (concat ds), HmacCtx cleared cleared))
    as Hf by (apply (hmac_final_ok stale Hst); [apply Hkey|done..]).
  split; [by eauto 6|]. intros d ->. unfold hmac_sha256. rewrite Hinit. mred.
  cbn [hmac_updates] in Hu1. destruct (hmac_sha256_update stale aligned c1 d _) as [c2|]; [|done].
  injection Hu1 as ->. mred. rewrite Hf. mred. cbn [concat]. by rewrite app_nil_r.
Qed.

Lemma hmac_correct_witness :
  hmac_sha256 ex_stale false (HmacCtx ex_ctx ex_ctx) ex_ctx [107; 101; 121] 3 [97; 98; 99] 3 =
    Some (HMAC [107; 101; 121] [97; 98; 99]).
Proof.
  apply (hmac_correct ex_stale false (HmacCtx ex_ctx ex_ctx) ex_ctx [107; 101; 121] [[97; 98; 99]]); try done.
  - apply small_piece; reflexivity.
  - repeat (apply Forall_cons_2; [apply small_piece; reflexivity|]). apply Forall_nil_2.
Defined.

(** A chain of n elements ends in the n-fold hash of the seed; with waypoints the
    tail is the same and every stored waypoint is the element of its index; an
    element is verified exactly when hashing it up to the end gives the tail, which
    holds of the elements of the chain. *)
Theorem chain_correct stale aligned c seed n :
  length stale = 64%nat → length (buf c) = 64%nat → piece seed → (2 ≤ n)%nat →
  let chain := λ i, chain_elem seed i in
  sha256_chain stale aligned c seed (Z.of_nat (length seed)) (Z.of_nat n) = Some (chain (n - 1)%nat) ∧
  (∀ ws wl, (2 ≤ wl ≤ length ws)%nat →
     let last := (if decide (n ≤ wl)%nat then n - 1 else wl - 1)%nat in
     ∃ ws', sha256_chain_with_waypoints stale aligned c seed (Z.of_nat (length seed)) (Z.of_nat n) ws
         (Z.of_nat wl) = Some (chain (n - 1)%nat, ws', Z.of_nat last) ∧ length ws' = length ws ∧
       ∀ j, (j ≤ last)%nat → ∃ i, (i < n)%nat ∧ ws' !! j = Some (ChainElm (Z.of_nat i) (chain i))) ∧
  ∀ i, (i < n)%nat → Z.of_nat (n - i) < 2 ^ 31 →
    (∀ e tail, digest_ok e → digest_ok tail →
       sha256_chain_verify_element stale aligned c e (Z.of_nat i) tail (Z.of_nat n) =
         Some (b2z (negb (bool_decide (Nat.iter (n - 1 - i) SHA256 e = tail))))) ∧
    sha256_chain_verify_element stale aligned c (chain i) (Z.of_nat i) (chain (n - 1)%nat) (Z.of_nat n) = Some 0.
Proof.
  intros Hst Hc Hseed Hn chain. pose proof Hseed as [Hs _].
  split; [by apply (chain_tail stale Hst)|]. split; [intros ws wl Hwl; by apply (waypoints_ok stale Hst)|].
  intros i Hi Hni. split; [intros e tail He Ht; by apply (verify_ok stale Hst)|].
  rewrite (verify_ok stale Hst) by (done || by apply (chain_elem_ok stale Hst aligned)). unfold chain. rewrite chain_elem_add.
  by rewrite bool_decide_true by (f_equal; lia).
Qed.

Lemma chain_correct_witness :
  sha256_chain ex_stale true ex_ctx [115; 101; 101; 100] 4 5 = Some (chain_elem [115; 101; 101; 100] 4).
Proof.
  apply (chain_correct ex_stale true ex_ctx [115; 101; 101; 100] 5); [done|done| |lia].
  apply small_piece; reflexivity.
Defined.
