(* ===== verification/Pktbuf.v ===== *)
(** * The packet buffer (sys/net/gnrc/pktbuf_static, pktbuf, pkt)

    The memory of the network stack: a first-fit allocator whose list of unused
    chunks lies in the buffer itself, and the packets, lists of snips with a count
    of users, which lie in it too.  The buffer is an array of bytes; structures are
    read and written at their offsets for a 64-bit little-endian target.  [base] is
    the address of the array [_pktbuf].  An access outside the array, an assertion
    that fails, taking the mutex twice, and a loop that runs out of fuel are
    [None]. *)

From S2P Require Import Prelude Bytes Buffers.

(** ** State *)

Record pktbuf := Pktbuf { _pktbuf : list Z; _first_unused : Z; _mutex : bool }.

Definition B (A : Type) : Type := pktbuf → option (A * pktbuf).

#[export] Instance B_ret : MRet B := λ A a s, Some (a, s).
#[export] Instance B_bind : MBind B := λ A C f m s, '(a, s') ← m s; f a s'.

Definition set_pktbuf v s := Pktbuf v (_first_unused s) (_mutex s).
Definition set_first_unused v s := Pktbuf (_pktbuf s) v (_mutex s).
Definition set_mutex v s := Pktbuf (_pktbuf s) (_first_unused s) v.

Definition bget {A} (f : pktbuf → A) : B A := λ s, Some (f s, s).
Definition bmodify (f : pktbuf → pktbuf) : B unit := λ s, Some (tt, f s).
Definition bfault {A} : B A := λ _, None.
Definition bassert (b : bool) : B unit := if b then mret tt else bfault.

(** [mutex_lock] and [mutex_unlock]: a thread that holds the mutex must not take it again. *)
Definition mutex_lock_pktbuf : B unit := l ← bget _mutex; bassert (negb l);; bmodify (set_mutex true).
Definition mutex_unlock_pktbuf : B unit := bmodify (set_mutex false).

(** Integers of [n] bytes in memory. *)
Definition le_bytes (n : nat) (v : Z) : list Z := rev (be_bytes n v).
Definition le_value (l : list Z) : Z := be_value (rev l).

Definition ENOMEM : Z := 12.
Definition sizeof_unused : Z := 16.
Definition sizeof_pktsnip : Z := 32.

(** Where the data to copy comes from: a null pointer, an object outside the buffer,
    or a pointer into the buffer. *)
Inductive source := SNull | SOut (bs : list Z) | SIn (p : Z).

Section Code.
Variables base GNRC_PKTBUF_SIZE : Z.

Definition peek (p n : Z) : B (list Z) := λ s, l ← load (_pktbuf s) (p - base) n; Some (l, s).
Definition poke (p : Z) (bs : list Z) : B unit :=
  λ s, m ← store (_pktbuf s) (p - base) bs; Some (tt, set_pktbuf m s).

Definition get_word (p : Z) (n : nat) : B Z := l ← peek p (Z.of_nat n); mret (le_value l).
Definition set_word (p : Z) (n : nat) (v : Z) : B unit := poke p (le_bytes n v).

(** [memcpy]; nothing is accessed when [n] is 0. *)
Definition memcpy (dst : Z) (src : source) (n : Z) : B unit :=
  if n =? 0 then mret tt
  else
    match src with
    | SNull => bfault
    | SOut bs => match load bs 0 n with Some d => poke dst d | None => bfault end
    | SIn p => d ← peek p n; poke dst d
    end.

(** The fields of [_unused_t] and [gnrc_pktsnip_t]. *)
Definition unused_next (p : Z) : B Z := get_word p 8.
Definition set_unused_next (p v : Z) : B unit := set_word p 8 v.
Definition unused_size (p : Z) : B Z := get_word (p + 8) 4.
Definition set_unused_size (p v : Z) : B unit := set_word (p + 8) 4 v.

Definition snip_next (p : Z) : B Z := get_word p 8.
Definition set_snip_next (p v : Z) : B unit := set_word p 8 v.
Definition snip_data (p : Z) : B Z := get_word (p + 8) 8.
Definition set_snip_data (p v : Z) : B unit := set_word (p + 8) 8 v.
Definition snip_size (p : Z) : B Z := get_word (p + 16) 8.
Definition set_snip_size (p v : Z) : B unit := set_word (p + 16) 8 v.
Definition snip_users (p : Z) : B Z := get_word (p + 24) 4.
Definition set_snip_users (p v : Z) : B unit := set_word (p + 24) 4 v.
Definition snip_type (p : Z) : B Z := v ← get_word (p + 28) 4; mret (i32 v).
Definition set_snip_type (p v : Z) : B unit := set_word (p + 28) 4 (u32 v).

(** The loops visit distinct chunks and snips. *)
Definition fuel : nat := S (Z.to_nat GNRC_PKTBUF_SIZE).

(** ** The allocator *)

Definition _pktbuf_contains (ptr : Z) : bool := u32 (ptr - base) <? GNRC_PKTBUF_SIZE.

Definition _align (size : Z) : Z := Z.land (u64 (size + (sizeof_unused - 1))) (u64 (Z.lnot (sizeof_unused - 1))).

Definition gnrc_pktbuf_init : B unit :=
  mutex_lock_pktbuf;;
  bmodify (set_first_unused base);;
  f ← bget _first_unused;
  set_unused_next f 0;;
  set_unused_size f GNRC_PKTBUF_SIZE;;
  mutex_unlock_pktbuf.

Fixpoint alloc_loop (fuel : nat) (size prev ptr : Z) : B (Z * Z) :=
  match fuel with
  | O => bfault
  | S fuel =>
      if ptr =? 0 then mret (prev, ptr)
      else
        psize ← unused_size ptr;
        if psize <? size then n ← unused_next ptr; alloc_loop fuel size ptr n else mret (prev, ptr)
  end.

Definition _pktbuf_alloc (size : Z) : B Z :=
  first ← bget _first_unused;
  let size := _align size in
  '(prev, ptr) ← alloc_loop fuel size 0 first;
  if ptr =? 0 then mret 0
  else
    psize ← unused_size ptr;
    (if u64 (psize - size) <? sizeof_unused then
       n ← unused_next ptr;
       if prev =? 0 then bmodify (set_first_unused n) else set_unused_next prev n
     else
       let new := ptr + size in
       (if GNRC_PKTBUF_SIZE <? new - base + sizeof_unused then bmodify (set_first_unused 0)
        else if prev =? 0 then bmodify (set_first_unused new)
        else set_unused_next prev new);;
       n ← unused_next ptr;
       set_unused_next new n;;
       psize ← unused_size ptr;
       set_unused_size new (u32 (psize - size)));;
    mret ptr.

Definition _too_small_hole (a b : Z) : B bool :=
  asize ← unused_size a;
  mret (u64 (b - (a + asize)) <? sizeof_unused).

Definition _merge (a b : Z) : B Z :=
  bassert (negb (b =? 0));;
  n ← unused_next b;
  set_unused_next a n;;
  bsize ← unused_size b;
  set_unused_size a (u32 (bsize + (b - a)));;
  mret a.

Fixpoint free_loop (fuel : nat) (data prev ptr : Z) : B (Z * Z) :=
  match fuel with
  | O => bfault
  | S fuel =>
      if negb (ptr =? 0) && (ptr <? data) then n ← unused_next ptr; free_loop fuel data ptr n
      else mret (prev, ptr)
  end.

Definition _pktbuf_free (data size : Z) : B unit :=
  if negb (_pktbuf_contains data) then mret tt
  else
    first ← bget _first_unused;
    '(prev, ptr) ← free_loop fuel data 0 first;
    set_unused_next data ptr;;
    set_unused_size data (u32 (_align size));;
    nsize ← unused_size data;
    let bytes_at_end := u64 ((base + GNRC_PKTBUF_SIZE) - (data + nsize)) in
    (if bytes_at_end <? sizeof_unused then set_unused_size data (u32 (nsize + bytes_at_end)) else mret tt);;
    new ← (if prev =? 0 then bmodify (set_first_unused data);; mret data
           else
             set_unused_next prev data;;
             t ← _too_small_hole prev data;
             if (t : bool) then _merge prev data else mret data);
    n ← unused_next new;
    if negb (n =? 0) then
      t ← _too_small_hole new n;
      if (t : bool) then _merge new n;; mret tt else mret tt
    else mret tt.

Definition gnrc_pktbuf_is_empty : B bool :=
  first ← bget _first_unused;
  if first =? base then sz ← unused_size first; mret (sz =? GNRC_PKTBUF_SIZE) else mret false.

Fixpoint sane_loop (fuel : nat) (ptr : Z) : B bool :=
  match fuel with
  | O => bfault
  | S fuel =>
      if ptr =? 0 then mret true
      else if (ptr <=? base) && (base + GNRC_PKTBUF_SIZE <=? ptr) then mret false
      else
        n ← unused_next ptr;
        if negb (n =? 0) && (n <=? ptr) then mret false
        else
          sz ← unused_size ptr;
          if ((n =? 0) || (u64 (n - ptr) <? sz)) &&
             (negb (n =? 0) || negb (sz =? u64 (GNRC_PKTBUF_SIZE - (ptr - base)))) then mret false
          else sane_loop fuel n
  end.

Definition gnrc_pktbuf_is_sane : B bool := first ← bget _first_unused; sane_loop fuel first.

(** ** Packets *)

Definition _set_pktsnip (pkt next data size type : Z) : B unit :=
  set_snip_next pkt next;;
  set_snip_data pkt data;;
  set_snip_size pkt size;;
  set_snip_type pkt type;;
  set_snip_users pkt 1.

Definition _create_snip (next : Z) (data : source) (size type : Z) : B Z :=
  pkt ← _pktbuf_alloc sizeof_pktsnip;
  if pkt =? 0 then mret 0
  else if 0 <? size then
    _data ← _pktbuf_alloc size;
    if _data =? 0 then _pktbuf_free pkt sizeof_pktsnip;; mret 0
    else
      (match data with SNull => mret tt | _ => memcpy _data data size end);;
      _set_pktsnip pkt next _data size type;;
      mret pkt
  else
    _set_pktsnip pkt next 0 size type;;
    mret pkt.

Definition gnrc_pktbuf_add (next : Z) (data : source) (size type : Z) : B Z :=
  if GNRC_PKTBUF_SIZE <? size then mret 0
  else
    mutex_lock_pktbuf;;
    pkt ← _create_snip next data size type;
    mutex_unlock_pktbuf;;
    mret pkt.

(** The test at the start of [gnrc_pktbuf_mark]. *)
Definition mark_refused (pkt size : Z) : B bool :=
  if (size =? 0) || (pkt =? 0) then mret true
  else
    psize ← snip_size pkt;
    if psize <? size then mret true
    else d ← snip_data pkt; mret (d =? 0).

(** The part that moves the data: whether it succeeded, and the marked data. *)
Definition mark_move (pkt marked_snip size : Z) : B (option Z) :=
  new_data_marked ← _pktbuf_alloc size;
  if new_data_marked =? 0 then
    _pktbuf_free marked_snip sizeof_pktsnip;;
    mret None
  else
    psize ← snip_size pkt;
    new_data_rest ← _pktbuf_alloc (psize - size);
    if new_data_rest =? 0 then
      _pktbuf_free marked_snip sizeof_pktsnip;;
      _pktbuf_free new_data_marked size;;
      mret None
    else
      d ← snip_data pkt;
      memcpy new_data_marked (SIn d) size;;
      memcpy new_data_rest (SIn (d + size)) (psize - size);;
      _pktbuf_free d psize;;
      set_snip_data marked_snip new_data_marked;;
      set_snip_data pkt new_data_rest;;
      mret (Some new_data_marked).

Definition gnrc_pktbuf_mark (pkt size type : Z) : B Z :=
  let required_new_size := _align size in
  mutex_lock_pktbuf;;
  refused ← mark_refused pkt size;
  if refused : bool then mutex_unlock_pktbuf;; mret 0
  else
    marked_snip ← _pktbuf_alloc sizeof_pktsnip;
    if marked_snip =? 0 then mutex_unlock_pktbuf;; mret 0
    else
      psize ← snip_size pkt;
      moved ← (if negb (psize =? size) && (size <? required_new_size)
               then mark_move pkt marked_snip size
               else
                 d ← snip_data pkt;
                 set_snip_data pkt (if negb (psize =? size) then d + size else 0);;
                 mret (Some d));
      match moved with
      | None => mutex_unlock_pktbuf;; mret 0
      | Some new_data_marked =>
          psize ← snip_size pkt;
          set_snip_size pkt (psize - size);;
          next ← snip_next pkt;
          _set_pktsnip marked_snip next new_data_marked size type;;
          set_snip_next pkt marked_snip;;
          mutex_unlock_pktbuf;;
          mret marked_snip
      end.

Definition source_of (p : Z) : source := if p =? 0 then SNull else SIn p.

Definition gnrc_pktbuf_realloc_data (pkt size : Z) : B Z :=
  let aligned_size := _align size in
  mutex_lock_pktbuf;;
  bassert (negb (pkt =? 0));;
  psize ← snip_size pkt;
  data ← snip_data pkt;
  bassert ((psize =? 0) && (data =? 0) || (0 <? psize) && negb (data =? 0) && _pktbuf_contains data);;
  if size =? psize then mutex_unlock_pktbuf;; mret 0
  else
    ok ← (if (size =? 0) && negb (data =? 0) then
            _pktbuf_free data psize;;
            set_snip_data pkt 0;;
            mret true
          else if psize <? size then
            new_data ← _pktbuf_alloc size;
            if new_data =? 0 then mret false
            else
              (if negb (data =? 0) then memcpy new_data (SIn data) (if psize <? size then psize else size)
               else mret tt);;
              _pktbuf_free data psize;;
              set_snip_data pkt new_data;;
              mret true
          else if aligned_size <? _align psize then
            _pktbuf_free (data + aligned_size) (u64 (psize - aligned_size));;
            mret true
          else mret true);
    if ok : bool then
      set_snip_size pkt size;;
      mutex_unlock_pktbuf;;
      mret 0
    else mutex_unlock_pktbuf;; mret ENOMEM.

Fixpoint hold_loop (fuel : nat) (pkt num : Z) : B unit :=
  match fuel with
  | O => bfault
  | S fuel =>
      if pkt =? 0 then mret tt
      else
        users ← snip_users pkt;
        set_snip_users pkt (u32 (users + num));;
        next ← snip_next pkt;
        hold_loop fuel next num
  end.

Definition gnrc_pktbuf_hold (pkt num : Z) : B unit :=
  mutex_lock_pktbuf;;
  hold_loop fuel pkt num;;
  mutex_unlock_pktbuf.

Fixpoint release_loop (fuel : nat) (pkt : Z) : B unit :=
  match fuel with
  | O => bfault
  | S fuel =>
      if pkt =? 0 then mret tt
      else
        bassert (_pktbuf_contains pkt);;
        users ← snip_users pkt;
        bassert (0 <? users);;
        tmp ← snip_next pkt;
        (if users =? 1 then
           set_snip_users pkt 0;;
           data ← snip_data pkt;
           size ← snip_size pkt;
           _pktbuf_free data size;;
           _pktbuf_free pkt sizeof_pktsnip
         else set_snip_users pkt (u32 (users - 1)));;
        release_loop fuel tmp
  end.

Definition _release_error_locked (pkt : Z) : B unit := release_loop fuel pkt.

Definition gnrc_pktbuf_release (pkt : Z) : B unit :=
  mutex_lock_pktbuf;;
  _release_error_locked pkt;;
  mutex_unlock_pktbuf.

Definition gnrc_pktbuf_start_write (pkt : Z) : B Z :=
  mutex_lock_pktbuf;;
  if pkt =? 0 then mutex_unlock_pktbuf;; mret 0
  else
    users ← snip_users pkt;
    if 1 <? users then
      next ← snip_next pkt;
      data ← snip_data pkt;
      size ← snip_size pkt;
      type ← snip_type pkt;
      new ← _create_snip next (source_of data) size type;
      (if negb (new =? 0) then set_snip_users pkt (u32 (users - 1)) else mret tt);;
      mutex_unlock_pktbuf;;
      mret new
    else mutex_unlock_pktbuf;; mret pkt.

(** ** Walking over a packet *)

Fixpoint len_loop (fuel : nat) (pkt len : Z) : B Z :=
  match fuel with
  | O => bfault
  | S fuel =>
      if pkt =? 0 then mret len
      else size ← snip_size pkt; next ← snip_next pkt; len_loop fuel next (u64 (len + size))
  end.

Definition gnrc_pkt_len (pkt : Z) : B Z := len_loop fuel pkt 0.

Fixpoint upto_loop (fuel : nat) (pkt type len : Z) : B Z :=
  match fuel with
  | O => bfault
  | S fuel =>
      if pkt =? 0 then mret len
      else
        size ← snip_size pkt;
        t ← snip_type pkt;
        if t =? type then mret (u64 (len + size))
        else next ← snip_next pkt; upto_loop fuel next type (u64 (len + size))
  end.

Definition gnrc_pkt_len_upto (pkt type : Z) : B Z := upto_loop fuel pkt type 0.

Fixpoint count_loop (fuel : nat) (pkt count : Z) : B Z :=
  match fuel with
  | O => bfault
  | S fuel =>
      if pkt =? 0 then mret count else next ← snip_next pkt; count_loop fuel next (u64 (count + 1))
  end.

Definition gnrc_pkt_count (pkt : Z) : B Z := count_loop fuel pkt 0.

Fixpoint search_loop (fuel : nat) (pkt type : Z) : B Z :=
  match fuel with
  | O => bfault
  | S fuel =>
      if pkt =? 0 then mret pkt
      else
        t ← snip_type pkt;
        if negb (t =? type) then next ← snip_next pkt; search_loop fuel next type else mret pkt
  end.

Definition gnrc_pktsnip_search_type (pkt type : Z) : B Z := search_loop fuel pkt type.

(** Copying the payloads, the last one first. *)
Fixpoint copy_loop (fuel : nat) (tmp new size type : Z) : B unit :=
  match fuel with
  | O => bfault
  | S fuel =>
      if tmp =? 0 then mret tt
      else
        ndata ← snip_data new;
        tsize ← snip_size tmp;
        tdata ← snip_data tmp;
        memcpy (ndata + (size - tsize)) (source_of tdata) tsize;;
        t ← snip_type tmp;
        if t =? type then mret tt
        else next ← snip_next tmp; copy_loop fuel next new (u64 (size - tsize)) type
  end.

Definition gnrc_pktbuf_duplicate_upto (pkt type : Z) : B Z :=
  mutex_lock_pktbuf;;
  users ← snip_users pkt;
  let is_shared := 1 <? users in
  size ← gnrc_pkt_len_upto pkt type;
  target ← gnrc_pktsnip_search_type pkt type;
  next ← (if target =? 0 then mret 0 else snip_next target);
  new ← _create_snip next SNull size type;
  if new =? 0 then mutex_unlock_pktbuf;; mret 0
  else
    copy_loop fuel pkt new size type;;
    (if negb (target =? 0) then set_snip_next target 0 else mret tt);;
    _release_error_locked pkt;;
    (if is_shared && negb (target =? 0) then set_snip_next target next else mret tt);;
    mutex_unlock_pktbuf;;
    mret new.

(** ** Changing a packet's list of snips (gnrc_pktbuf.c) *)

(** The loop of [LL_DELETE] and [LL_REPLACE_ELEM]: the node before [el], or the last one. *)
Fixpoint before_loop (fuel : nat) (tmp el : Z) : B Z :=
  match fuel with
  | O => bfault
  | S fuel =>
      n ← snip_next tmp;
      if negb (n =? 0) && negb (n =? el) then before_loop fuel n el else mret tmp
  end.

Definition LL_DELETE (head del : Z) : B Z :=
  if head =? del then snip_next head
  else
    tmp ← before_loop fuel head del;
    n ← snip_next tmp;
    (if negb (n =? 0) then dn ← snip_next del; set_snip_next tmp dn else mret tt);;
    mret head.

Definition LL_REPLACE_ELEM (head el add : Z) : B Z :=
  bassert (negb (head =? 0));;
  bassert (negb (el =? 0));;
  bassert (negb (add =? 0));;
  en ← snip_next el;
  set_snip_next add en;;
  if head =? el then mret add
  else
    tmp ← before_loop fuel head el;
    n ← snip_next tmp;
    (if negb (n =? 0) then set_snip_next tmp add else mret tt);;
    mret head.

(** [LL_SEARCH_SCALAR(head, out, next, NULL)]: the last snip. *)
Fixpoint last_loop (fuel : nat) (out : Z) : B Z :=
  match fuel with
  | O => bfault
  | S fuel =>
      if out =? 0 then mret out
      else n ← snip_next out; if n =? 0 then mret out else last_loop fuel n
  end.

Definition gnrc_pktbuf_remove_snip (pkt snip : Z) : B Z :=
  pkt ← LL_DELETE pkt snip;
  set_snip_next snip 0;;
  gnrc_pktbuf_release snip;;
  mret pkt.

Definition gnrc_pktbuf_replace_snip (pkt old add : Z) : B Z :=
  tail ← snip_next add;
  pkt ← (if negb (tail =? 0) then
           back ← last_loop fuel tail;
           pkt ← LL_REPLACE_ELEM pkt old add;
           n ← snip_next add;
           set_snip_next back n;;
           set_snip_next add tail;;
           mret pkt
         else LL_REPLACE_ELEM pkt old add);
  set_snip_next old 0;;
  gnrc_pktbuf_release old;;
  mret pkt.

Fixpoint reverse_loop (fuel : nat) (reversed ptr : Z) : B Z :=
  match fuel with
  | O => bfault
  | S fuel =>
      if ptr =? 0 then mret reversed
      else
        pkt ← gnrc_pktbuf_start_write ptr;
        if pkt =? 0 then
          gnrc_pktbuf_release reversed;;
          gnrc_pktbuf_release ptr;;
          mret 0
        else
          next ← snip_next pkt;
          set_snip_next pkt reversed;;
          reverse_loop fuel pkt next
  end.

Definition gnrc_pktbuf_reverse_snips (pkt : Z) : B Z := reverse_loop fuel 0 pkt.

Fixpoint merge_loop (fuel : nat) (pkt ptr offset : Z) : B unit :=
  match fuel with
  | O => bfault
  | S fuel =>
      if ptr =? 0 then mret tt
      else
        pdata ← snip_data pkt;
        data ← snip_data ptr;
        size ← snip_size ptr;
        memcpy (pdata + offset) (source_of data) size;;
        next ← snip_next ptr;
        merge_loop fuel pkt next (u64 (offset + size))
  end.

Definition gnrc_pktbuf_merge (pkt : Z) : B Z :=
  offset ← snip_size pkt;
  size ← gnrc_pkt_len pkt;
  psize ← snip_size pkt;
  if psize =? size then mret 0
  else
    res ← gnrc_pktbuf_realloc_data pkt size;
    if negb (res =? 0) then mret res
    else
      next ← snip_next pkt;
      merge_loop fuel pkt next offset;;
      next ← snip_next pkt;
      gnrc_pktbuf_release next;;
      set_snip_next pkt 0;;
      mret res.
End Code.
