(* ===== verification/PktbufAlloc.v ===== *)
(** * The allocator of the packet buffer

    The buffer is cut into allocated blocks and unused chunks; the list of unused
    chunks is sorted, and no two of them touch.  Allocation takes the first chunk
    that fits, freeing gives a block back, and both keep this and the contents of
    all other blocks. *)

From stdpp Require Import sorting.
From S2P Require Import Prelude Bytes Buffers Pktbuf.

(** ** Memory *)

Lemma le_bytes_length n v : length (le_bytes n v) = n.
Proof. unfold le_bytes. by rewrite length_rev, be_bytes_length. Qed.

Lemma le_value_bytes n v : uint (8 * Z.of_nat n) v → le_value (le_bytes n v) = v.
Proof.
  intros Hv. unfold le_value, le_bytes. rewrite rev_involutive, be_value_bytes. apply Z.mod_small.
  unfold uint in Hv. by rewrite Z.pow_mul_r in Hv by lia.
Qed.

(** The array after storing [bs] at [o]. *)
Definition put (m : list Z) (o : Z) (bs : list Z) : list Z := default m (store m o bs).

Definition fits (m : list Z) (o n : Z) : Prop := 0 ≤ o ∧ 0 ≤ n ∧ o + n ≤ Z.of_nat (length m).

Lemma store_put m o bs : fits m o (Z.of_nat (length bs)) → store m o bs = Some (put m o bs).
Proof.
  unfold fits, put, store. intros (H1 & H2 & H3). by rewrite !(proj2 (Z.leb_le _ _)) by lia.
Qed.

Lemma put_length m o bs : length (put m o bs) = length m.
Proof.
  unfold put, store. destruct ((0 <=? o) && (o + Z.of_nat (length bs) <=? Z.of_nat (length m))) eqn:E; [|done].
  apply andb_true_iff in E as [H1%Z.leb_le H2%Z.leb_le]. cbn [default from_option id]. rewrite !length_app, length_take, length_drop. lia.
Qed.

Lemma load_fits m o n : fits m o n → load m o n = Some (take (Z.to_nat n) (drop (Z.to_nat o) m)).
Proof. unfold fits, load. intros (H1 & H2 & H3). by rewrite !(proj2 (Z.leb_le _ _)) by lia. Qed.

Lemma load_Some m o n l : load m o n = Some l → fits m o n ∧ length l = Z.to_nat n.
Proof.
  unfold load, fits. destruct (_ && _) eqn:E; [|done].
  apply andb_true_iff in E as [[H1%Z.leb_le H2%Z.leb_le]%andb_true_iff H3%Z.leb_le].
  intros [= <-]. split; [done|]. rewrite length_take, length_drop. lia.
Qed.

Lemma load_put_same m o bs : fits m o (Z.of_nat (length bs)) → load (put m o bs) o (Z.of_nat (length bs)) = Some bs.
Proof.
  intros Hf. pose proof (store_put m o bs Hf) as Hs. destruct Hf as (H1 & H2 & H3). unfold store in Hs.
  rewrite !(proj2 (Z.leb_le _ _)) in Hs by lia. injection Hs as <-.
  pose proof (load_mid (take (Z.to_nat o) m) bs (drop (Z.to_nat o + length bs) m)) as H.
  rewrite length_take in H. by replace (Z.of_nat (Z.to_nat o `min` length m)) with o in H by lia.
Qed.

Lemma put_lookup m o bs i : 0 ≤ i → ¬ (o ≤ i < o + Z.of_nat (length bs)) →
  put m o bs !! Z.to_nat i = m !! Z.to_nat i.
Proof.
  intros Hi Hn. unfold put, store.
  destruct ((0 <=? o) && (o + Z.of_nat (length bs) <=? Z.of_nat (length m))) eqn:E; [|done].
  apply andb_true_iff in E as [H1%Z.leb_le H2%Z.leb_le]. cbn [default from_option id].
  destruct (Z.lt_ge_cases i o).
  - rewrite lookup_app_l by (rewrite length_take; lia). apply lookup_take_lt. lia.
  - rewrite lookup_app_r, length_take by (rewrite length_take; lia).
    rewrite lookup_app_r by lia. rewrite lookup_drop. f_equal. lia.
Qed.

Lemma load_ext m m' o n : length m' = length m →
  (∀ i, o ≤ i < o + n → 0 ≤ i → m' !! Z.to_nat i = m !! Z.to_nat i) → load m' o n = load m o n.
Proof.
  intros Hl Hi. unfold load. rewrite Hl. destruct (_ && _) eqn:E; [|done].
  apply andb_true_iff in E as [[H1%Z.leb_le H2%Z.leb_le]%andb_true_iff H3%Z.leb_le].
  f_equal. apply list_eq. intros k. destruct (decide (k < Z.to_nat n)%nat).
  - rewrite !lookup_take_lt, !lookup_drop by done.
    specialize (Hi (o + Z.of_nat k)). replace (Z.to_nat (o + Z.of_nat k)) with (Z.to_nat o + k)%nat in Hi by lia.
    apply Hi; lia.
  - by rewrite !lookup_take_ge by lia.
Qed.

Lemma load_put_other m o bs o' n : o' + n ≤ o ∨ o + Z.of_nat (length bs) ≤ o' →
  load (put m o bs) o' n = load m o' n.
Proof. intros Hd. apply load_ext; [apply put_length|]. intros i Hi H0. apply put_lookup; lia. Qed.

(** The memory [m'] differs from [m] only where [W] holds. *)
Definition agree (W : Z → Prop) (m m' : list Z) : Prop :=
  length m' = length m ∧ ∀ i, 0 ≤ i → ¬ W i → m' !! Z.to_nat i = m !! Z.to_nat i.

Lemma agree_refl W m : agree W m m.
Proof. done. Qed.

Lemma agree_trans (W W1 W2 : Z → Prop) m1 m2 m3 : agree W1 m1 m2 → agree W2 m2 m3 →
  (∀ i, W1 i → W i) → (∀ i, W2 i → W i) → agree W m1 m3.
Proof.
  intros [Hl1 H1] [Hl2 H2] HW1 HW2. split; [congruence|]. intros i Hi HW. rewrite H2, H1; eauto.
Qed.

Lemma agree_put (W : Z → Prop) m m' o bs : agree W m m' → (∀ i, o ≤ i < o + Z.of_nat (length bs) → W i) →
  agree W m (put m' o bs).
Proof.
  intros [Hl H] HW. split; [by rewrite put_length|]. intros i Hi Hn. rewrite put_lookup; [by apply H|done|].
  intros Hin. by apply Hn, HW.
Qed.

Lemma agree_load W m m' o n : agree W m m' → (∀ i, o ≤ i < o + n → ¬ W i) → load m' o n = load m o n.
Proof. intros [Hl H] Hd. apply load_ext; [done|]. intros i Hi H0. apply H; [done|]. by apply Hd. Qed.

(** An integer of [n] bytes at [o]. *)
Definition word_at (m : list Z) (o : Z) (n : nat) (v : Z) : Prop :=
  load m o (Z.of_nat n) = Some (le_bytes n v) ∧ uint (8 * Z.of_nat n) v.

Definition put_word (m : list Z) (o : Z) (n : nat) (v : Z) : list Z := put m o (le_bytes n v).

Lemma word_put_same m o n v : fits m o (Z.of_nat n) → uint (8 * Z.of_nat n) v → word_at (put_word m o n v) o n v.
Proof.
  intros Hf Hv. split; [|done]. unfold put_word.
  pose proof (load_put_same m o (le_bytes n v)) as H. rewrite le_bytes_length in H. by apply H.
Qed.

Lemma word_put_other m o n v o' n' v' : o' + Z.of_nat n' ≤ o ∨ o + Z.of_nat n ≤ o' →
  word_at m o' n' v' → word_at (put_word m o n v) o' n' v'.
Proof.
  intros Hd [Hl Hv]. split; [|done]. unfold put_word. by rewrite load_put_other by (rewrite le_bytes_length; lia).
Qed.

Lemma word_agree W m m' o n v : agree W m m' → (∀ i, o ≤ i < o + Z.of_nat n → ¬ W i) →
  word_at m o n v → word_at m' o n v.
Proof. intros Ha Hd [Hl Hv]. split; [|done]. by rewrite (agree_load W m m'). Qed.

Lemma agree_put_word (W : Z → Prop) m m' o n v : agree W m m' → (∀ i, o ≤ i < o + Z.of_nat n → W i) →
  agree W m (put_word m' o n v).
Proof. intros Ha HW. apply agree_put; [done|]. by rewrite le_bytes_length. Qed.

Lemma put_word_length m o n v : length (put_word m o n v) = length m.
Proof. apply put_length. Qed.

(** ** Running computations *)

Lemma bbind_ok {A C} (m : B A) (f : A → B C) s a s' : m s = Some (a, s') → (m ≫= f) s = f a s'.
Proof. intros Hm. unfold mbind, B_bind. by rewrite Hm. Qed.

Lemma bb_assoc {A C D} (m : B A) (f : A → B C) (g : C → B D) s : ((m ≫= f) ≫= g) s = (m ≫= (λ a, f a ≫= g)) s.
Proof. unfold mbind, B_bind. by destruct (m s) as [[a s']|]. Qed.

Lemma bb_ret {A C} (a : A) (f : A → B C) s : ((mret a : B A) ≫= f) s = f a s.
Proof. done. Qed.

Lemma bb_get {A C} (p : pktbuf → A) (f : A → B C) s : (bget p ≫= f) s = f (p s) s.
Proof. done. Qed.

Lemma bb_modify {C} g (f : unit → B C) s : (bmodify g ≫= f) s = f tt (g s).
Proof. done. Qed.

Lemma bb_assert {C} b (f : unit → B C) s : b = true → (bassert b ≫= f) s = f tt s.
Proof. by intros ->. Qed.

Lemma bb_if {A C} (b : bool) (m1 m2 : B A) (f : A → B C) s :
  ((if b then m1 else m2) ≫= f) s = if b then (m1 ≫= f) s else (m2 ≫= f) s.
Proof. by destruct b. Qed.

Section Access.
Context (base : Z).

Lemma bb_get_word {C} p o n v (f : Z → B C) m fu l : p = base + o → word_at m o n v →
  (get_word base p n ≫= f) (Pktbuf m fu l) = f v (Pktbuf m fu l).
Proof.
  intros -> [Hl Hv]. apply bbind_ok. unfold get_word, peek, mbind, B_bind. cbn [_pktbuf].
  replace (base + o - base) with o by lia. rewrite Hl. mred. unfold mret, B_ret. by rewrite le_value_bytes.
Qed.

Lemma bb_set_word {C} p o n v (f : unit → B C) m fu l : p = base + o → fits m o (Z.of_nat n) →
  (set_word base p n v ≫= f) (Pktbuf m fu l) = f tt (Pktbuf (put_word m o n v) fu l).
Proof.
  intros -> Hf. apply bbind_ok. unfold set_word, poke. cbn [_pktbuf].
  replace (base + o - base) with o by lia. by rewrite store_put by (by rewrite le_bytes_length).
Qed.
End Access.

(** ** Chunks *)

(** A buffer at a 64-bit address; its size is a multiple of the size of a chunk
    header, and the null pointer is not taken for a pointer into it. *)
Class BufferConf (base SIZE : Z) : Prop := {
  conf_base : 0 < base;
  conf_end : base + SIZE ≤ 2 ^ 64;
  conf_size : 0 < SIZE < 2 ^ 32;
  conf_align : (16 | SIZE);
  conf_null : SIZE ≤ u32 (0 - base)
}.

Definition chunk : Type := Z * Z.

Definition disj (x y : chunk) : Prop := x.1 + x.2 ≤ y.1 ∨ y.1 + y.2 ≤ x.1.

(** [x] lies before [y], and does not touch it. *)
Definition before (x y : chunk) : Prop := x.1 + x.2 < y.1.

Definition total (l : list chunk) : Z := foldr (λ c t, c.2 + t) 0 l.

Lemma total_app a b : total (a ++ b) = total a + total b.
Proof. unfold total. induction a as [|c a IH]; cbn [app foldr]; lia. Qed.

Lemma total_perm a b : a ≡ₚ b → total a = total b.
Proof. induction 1; unfold total in *; cbn [foldr]; lia. Qed.

#[export] Instance total_proper : Proper ((≡ₚ) ==> eq) total.
Proof. intros a b. apply total_perm. Qed.

(** Pairwise disjoint chunks, in any order. *)
Fixpoint disjoint_all (l : list chunk) : Prop :=
  match l with [] => True | c :: l => Forall (disj c) l ∧ disjoint_all l end.

Lemma disj_sym x y : disj x y → disj y x.
Proof. unfold disj. lia. Qed.

Lemma disjoint_perm a b : a ≡ₚ b → disjoint_all a → disjoint_all b.
Proof.
  induction 1 as [|x l1 l2 Hp IH|x y l|l1 l2 l3 Hp1 IH1 Hp2 IH2]; cbn [disjoint_all]; [done| | |by eauto].
  - intros [Hx Hl]. split; [by rewrite <- Hp|by apply IH].
  - intros [[Hyx Hy]%Forall_cons [Hx Hl]]. split; [constructor; [by apply disj_sym|done]|done].
Qed.

#[export] Instance disjoint_all_proper : Proper ((≡ₚ) ==> iff) disjoint_all.
Proof. intros a b Hp. split; by apply disjoint_perm. Qed.

Lemma disjoint_app a b : disjoint_all (a ++ b) ↔ disjoint_all a ∧ disjoint_all b ∧ Forall (λ x, Forall (disj x) b) a.
Proof.
  induction a as [|x a IH]; cbn [app disjoint_all]; [rewrite Forall_nil; tauto|].
  rewrite Forall_app, Forall_cons, IH. tauto.
Qed.

Lemma _align_spec size : 0 ≤ size < 2 ^ 63 → _align size = (size + 15) / 16 * 16.
Proof.
  intros Hs. unfold _align, sizeof_unused. rewrite wrap_small by (unfold uint; lia).
  change (u64 (Z.lnot (16 - 1))) with (Z.shiftl (Z.ones 60) 4).
  assert (∀ x, 0 ≤ x < 2 ^ 64 → Z.land x (Z.shiftl (Z.ones 60) 4) = x / 16 * 16) as H.
  { intros x Hx. rewrite <- (Z.mul_1_l 16) at 2. change (x / 16 * (1 * 16)) with (x / 2 ^ 4 * 2 ^ 4).
    rewrite <- Z.shiftr_div_pow2, <- Z.shiftl_mul_pow2 by lia. apply Z.bits_inj'. intros n Hn.
    rewrite Z.land_spec. destruct (Z.lt_ge_cases n 4).
    - by rewrite !Z.shiftl_spec_low, andb_false_r by lia.
    - rewrite !Z.shiftl_spec, Z.shiftr_spec, Z.sub_add by lia.
      rewrite Z.testbit_ones_nonneg by lia. destruct (Z.ltb_spec (n - 4) 60); [by rewrite andb_true_r|].
      by rewrite (testbit_lt_pow2 x 64) by lia. }
  apply H. lia.
Qed.

Lemma align_bounds size : 0 ≤ size < 2 ^ 63 → size ≤ _align size < size + 16 ∧ (16 | _align size).
Proof.
  intros Hs. rewrite _align_spec by done. split; [Z.div_mod_to_equations; lia|]. by exists ((size + 15) / 16).
Qed.

Lemma align_id n : (16 | n) → 0 ≤ n < 2 ^ 63 → _align n = n.
Proof. intros [k ->] Hn. rewrite _align_spec by lia. Z.div_mod_to_equations; lia. Qed.

Section Allocator.
Context (base SIZE : Z) `{!BufferConf base SIZE}.

Definition chunk_ok (c : chunk) : Prop := 0 ≤ c.1 ∧ (16 | c.1) ∧ (16 | c.2) ∧ 0 < c.2 ∧ c.1 + c.2 ≤ SIZE.

(** The address of the first chunk of a list whose last chunk points to [nx]. *)
Definition addr (cs : list chunk) (nx : Z) : Z := match cs with [] => nx | c :: _ => base + c.1 end.

(** The list in memory. *)
Fixpoint seg (m : list Z) (cs : list chunk) (nx : Z) : Prop :=
  match cs with
  | [] => True
  | c :: r => word_at m c.1 8 (addr r nx) ∧ word_at m (c.1 + 8) 4 c.2 ∧ seg m r nx
  end.

Lemma addr_app a b nx : addr (a ++ b) nx = addr a (addr b nx).
Proof. by destruct a. Qed.

Lemma seg_app m a b nx : seg m (a ++ b) nx ↔ seg m a (addr b nx) ∧ seg m b nx.
Proof. induction a as [|c a IH]; cbn [app seg]; [tauto|]. rewrite IH, addr_app. tauto. Qed.

Lemma seg_agree W m m' cs nx : agree W m m' → Forall (λ c, ∀ i, c.1 ≤ i < c.1 + 16 → ¬ W i) cs →
  seg m cs nx → seg m' cs nx.
Proof.
  intros Ha. induction 1 as [|c cs Hc Hcs IH]; cbn [seg]; [done|]. intros (H1 & H2 & H3).
  split_and!; [| |by apply IH]; (eapply word_agree; [exact Ha| |done]; intros i Hi; apply Hc; lia).
Qed.

(** ** The invariant of the allocator *)

(** A partition of the buffer, in any order. *)
Record parts (l : list chunk) : Prop := {
  pt_ok : Forall chunk_ok l;
  pt_disj : disjoint_all l;
  pt_total : total l = SIZE
}.

Lemma parts_perm l l' : l ≡ₚ l' → parts l → parts l'.
Proof. intros Hp [H1 H2 H3]. split; by rewrite <- Hp. Qed.

#[local] Instance parts_proper : Proper ((≡ₚ) ==> iff) parts.
Proof. intros a b Hp. split; by apply parts_perm. Qed.

(** Two pieces side by side are one piece. *)
Lemma parts_split o n1 n2 l : (16 | n1) → (16 | n2) → 0 < n1 → 0 < n2 →
  parts ((o, n1 + n2) :: l) ↔ parts ((o, n1) :: (o + n1, n2) :: l).
Proof.
  intros D1 D2 P1 P2. split; intros [H4 H5 H7]; cbn [disjoint_all total foldr] in *.
  - apply Forall_cons in H4 as [(A1 & A2 & A3 & A4 & A5) H4]. cbn [fst snd] in *.
    destruct H5 as [H5 H5']. rewrite Forall_forall in H5. unfold disj in H5. cbn [fst snd] in H5.
    split; cbn [total foldr disjoint_all fst snd]; [| |lia].
    + rewrite !Forall_cons. unfold chunk_ok. cbn [fst snd]. split_and!; try done; try lia. by apply Z.divide_add_r.
    + split; [constructor; [unfold disj; cbn [fst snd]; lia|]|split; [|done]]; apply Forall_forall; intros x Hx;
        specialize (H5 x Hx); unfold disj; cbn [fst snd]; lia.
  - apply Forall_cons in H4 as [(A1 & A2 & A3 & A4 & A5) H4].
    apply Forall_cons in H4 as [(B1 & B2 & B3 & B4 & B5) H4]. cbn [fst snd] in *.
    destruct H5 as ([_ H5]%Forall_cons & H6' & H5'). rewrite Forall_forall in H5, H6'. unfold disj in H5, H6'. cbn [fst snd] in *.
    split; cbn [total foldr disjoint_all fst snd]; [| |lia].
    + rewrite !Forall_cons. unfold chunk_ok. cbn [fst snd]. split_and!; try done; try lia. by apply Z.divide_add_r.
    + split; [|done]. apply Forall_forall. intros x Hx. specialize (H5 x Hx). specialize (H6' x Hx).
      rewrite Forall_forall in H4. destruct (H4 x Hx) as (C1 & C2 & C3 & C4 & C5).
      unfold disj. cbn [fst snd]. lia.
Qed.

(** The blocks [bl] and the unused chunks [cs]. *)
Record layout (bl cs : list chunk) : Prop := {
  ly_parts : parts (bl ++ cs);
  ly_sorted : StronglySorted before cs
}.

(** The blocks [bl] are allocated, the chunks [cs] are unused. *)
Record alloc_inv (bl cs : list chunk) (m : list Z) (first : Z) : Prop := {
  ai_layout : layout bl cs;
  ai_length : Z.of_nat (length m) = SIZE;
  ai_first : first = addr cs 0;
  ai_seg : seg m cs 0
}.

Lemma layout_perm bl bl' cs : bl ≡ₚ bl' → layout bl cs → layout bl' cs.
Proof. intros Hp [H1 H2]. split; [by rewrite <- Hp|done]. Qed.

Lemma layout_split o n1 n2 bl cs : (16 | n1) → (16 | n2) → 0 < n1 → 0 < n2 →
  layout ((o, n1 + n2) :: bl) cs ↔ layout ((o, n1) :: (o + n1, n2) :: bl) cs.
Proof.
  intros D1 D2 P1 P2. split; intros [H1 H2]; (split; [|done]); by apply (parts_split o n1 n2 (bl ++ cs)).
Qed.

(** ** Walking over the list *)

Lemma chunk_ge c : chunk_ok c → 16 ≤ c.2.
Proof. intros (_ & _ & [k Hk] & H & _). lia. Qed.

Fixpoint last_addr (prev : Z) (a : list chunk) : Z :=
  match a with [] => prev | c :: a => last_addr (base + c.1) a end.

Lemma last_addr_snoc prev a c : last_addr prev (a ++ [c]) = base + c.1.
Proof. revert prev. induction a as [|d a IH]; intros prev; [done|]. apply IH. Qed.

Lemma addr_pos c : chunk_ok c → (base + c.1 =? 0) = false.
Proof. pose proof conf_base as Hb. intros (H & _). apply Z.eqb_neq. lia. Qed.

Lemma length_total cs : Forall chunk_ok cs → Z.of_nat (length cs) ≤ total cs.
Proof.
  unfold total. induction 1 as [|c cs Hc Hcs IH]; [done|]. pose proof (chunk_ge c Hc). cbn [length foldr]. lia.
Qed.

Lemma layout_fuel bl a r : layout bl (a ++ r) → (length a < fuel SIZE)%nat.
Proof.
  intros [[Hok _ Ht] _]. apply Forall_app in Hok as [Hbl [Ha Hr]%Forall_app]. unfold fuel.
  rewrite total_app, total_app in Ht. pose proof (length_total bl Hbl). pose proof (length_total a Ha).
  pose proof (length_total r Hr). lia.
Qed.

Lemma alloc_loop_ok size m fu l a : ∀ fuel prev r, seg m (a ++ r) 0 → Forall chunk_ok (a ++ r) →
  Forall (λ c, c.2 < size) a → match r with [] => True | c :: _ => size ≤ c.2 end → (length a < fuel)%nat →
  alloc_loop base fuel size prev (addr (a ++ r) 0) (Pktbuf m fu l) = Some ((last_addr prev a, addr r 0), Pktbuf m fu l).
Proof.
  induction a as [|c a IH]; intros [|fuel] prev r Hseg Hok Ha Hr Hf; try (cbn [length] in Hf; lia); cbn [alloc_loop app].
  - destruct r as [|c r]; [done|]. apply Forall_cons in Hok as [Hc _]. destruct Hseg as (_ & Hsz & _).
    cbn [app addr last_addr]. rewrite addr_pos by done.
    unfold unused_size. rewrite (bb_get_word base _ (c.1 + 8) 4 c.2) by (done || lia).
    by rewrite (proj2 (Z.ltb_ge _ _)) by done.
  - apply Forall_cons in Hok as [Hc Hok]. apply Forall_cons in Ha as [Hs Ha]. destruct Hseg as (Hnx & Hsz & Hseg).
    cbn [addr last_addr]. rewrite addr_pos by done. unfold unused_size, unused_next.
    rewrite (bb_get_word base _ (c.1 + 8) 4 c.2) by (done || lia). rewrite (proj2 (Z.ltb_lt _ _)) by done.
    rewrite (bb_get_word base _ c.1 8 (addr (a ++ r) 0)) by done. apply IH; try done. cbn [length] in Hf. lia.
Qed.

Lemma free_loop_ok data m fu l a : ∀ fuel prev r, seg m (a ++ r) 0 → Forall chunk_ok (a ++ r) →
  Forall (λ c, base + c.1 < data) a → match r with [] => True | c :: _ => data ≤ base + c.1 end → (length a < fuel)%nat →
  free_loop base fuel data prev (addr (a ++ r) 0) (Pktbuf m fu l) = Some ((last_addr prev a, addr r 0), Pktbuf m fu l).
Proof.
  induction a as [|c a IH]; intros [|fuel] prev r Hseg Hok Ha Hr Hf; try (cbn [length] in Hf; lia); cbn [free_loop app].
  - destruct r as [|c r]; [done|]. cbn [addr last_addr].
    rewrite (proj2 (Z.ltb_ge _ _)) by done. by rewrite andb_false_r.
  - apply Forall_cons in Hok as [Hc Hok]. apply Forall_cons in Ha as [Hs Ha]. destruct Hseg as (Hnx & Hsz & Hseg).
    cbn [addr last_addr]. rewrite addr_pos, (proj2 (Z.ltb_lt _ _)) by done. cbn [negb andb]. unfold unused_next.
    rewrite (bb_get_word base _ c.1 8 (addr (a ++ r) 0)) by done. apply IH; try done. cbn [length] in Hf. lia.
Qed.

(** The bytes of chunks. *)
Definition inside (cs : list chunk) (i : Z) : Prop := ∃ c, c ∈ cs ∧ c.1 ≤ i < c.1 + c.2.

Lemma inside_mono cs cs' i : cs ⊆ cs' → inside cs i → inside cs' i.
Proof. intros Hsub (c & Hc & Hi). exists c. split; [by apply Hsub|done]. Qed.

Lemma header_fits m c : Z.of_nat (length m) = SIZE → chunk_ok c → fits m c.1 8 ∧ fits m (c.1 + 8) 4.
Proof. intros Hl Hc. pose proof (chunk_ge c Hc). destruct Hc as (H1 & _ & _ & _ & H5). unfold fits. lia. Qed.

Lemma addr_range cs : Forall chunk_ok cs → uint (8 * Z.of_nat 8) (addr cs 0).
Proof.
  pose proof conf_base as Hb. pose proof conf_end as He. unfold uint. change (8 * Z.of_nat 8) with 64.
  intros [|c cs' Hc _]; cbn [addr]; [lia|]. pose proof (chunk_ge c Hc). destruct Hc as (Hc1 & _ & _ & _ & Hc5). lia.
Qed.

(** Making the predecessor [prev] point to [x]. *)
Definition link (prev x : Z) : B unit :=
  if prev =? 0 then bmodify (set_first_unused x) else set_unused_next base prev x.

Lemma link_ok {C} a nx x (f : unit → B C) m l : Z.of_nat (length m) = SIZE → Forall chunk_ok a →
  disjoint_all a → seg m a nx → uint (8 * Z.of_nat 8) x →
  ∃ m', (link (last_addr 0 a) x ≫= f) (Pktbuf m (addr a nx) l) = f tt (Pktbuf m' (addr a x) l) ∧
    seg m' a x ∧ agree (inside a) m m'.
Proof.
  intros Hl Hok Hd Hseg Hx. unfold link. destruct a as [|c a _] using rev_ind.
  - exists m. split; [done|]. split; [done|]. apply agree_refl.
  - apply Forall_app in Hok as [Hok [Hc _]%Forall_cons]. rewrite last_addr_snoc, addr_pos by done.
    apply seg_app in Hseg as [Hseg (Hnx & Hsz & _)]. cbn [addr] in Hseg.
    destruct (header_fits m c Hl Hc) as [Hf _]. pose proof (chunk_ge c Hc) as Hge.
    exists (put_word m c.1 8 x).
    assert (agree (λ i, c.1 ≤ i < c.1 + 8) m (put_word m c.1 8 x)) as Hag
      by (apply agree_put_word; [apply agree_refl|done]).
    split; [|split].
    + unfold set_unused_next. rewrite (bb_set_word base _ c.1) by done.
      by rewrite !addr_app.
    + apply seg_app. cbn [addr]. split; [|split_and!; [by apply word_put_same|apply word_put_other; [lia|done]|done]].
      eapply seg_agree; [exact Hag| |exact Hseg]. apply disjoint_app in Hd as (_ & _ & Hd).
      apply Forall_forall. intros d Hdin i Hi. rewrite Forall_forall in Hd, Hok. specialize (Hd d Hdin).
      apply Forall_cons in Hd as [Hd _]. pose proof (chunk_ge d (Hok d Hdin)). unfold disj in Hd. lia.
    + apply agree_put_word; [apply agree_refl|]. intros i Hi. exists c. split; [|lia].
      apply elem_of_app. right. by left.
Qed.

(** ** Allocation *)

Definition rest (o n k : Z) : list chunk := if k =? n then [] else [(o + n, k - n)].

Lemma layout_alloc bl a o n k r : layout bl (a ++ (o, k) :: r) → (16 | n) → 0 < n ≤ k →
  layout ((o, n) :: bl) (a ++ rest o n k ++ r).
Proof.
  intros [Hp Hs] Hn Hk. rewrite app_assoc, <- Permutation_middle, <- app_assoc in Hp.
  apply StronglySorted_app in Hs as (Har & Ha & [Hor Hr]%StronglySorted_cons).
  unfold rest. destruct (Z.eqb_spec k n) as [->|Hkn].
  - split; [done|]. apply StronglySorted_app_2; [|done|done]. intros x y Hx Hy. apply Har; [done|by right].
  - cbn [app]. split.
    + cbn [app]. rewrite app_assoc, <- Permutation_middle, <- app_assoc. apply parts_split; try (done || lia).
      * destruct Hp as [[(_ & _ & Hk16 & _) _]%Forall_cons _ _]. by apply Z.divide_sub_r.
      * by replace (n + (k - n)) with k by lia.
    + apply StronglySorted_app_2; [|done|].
      * intros x y Hx [->|Hy]%elem_of_cons; [|by apply Har; [|right]].
        specialize (Har x (o, k) Hx ltac:(by left)). unfold before in *. cbn [fst snd] in *. lia.
      * apply StronglySorted_cons. split; [|done]. eapply Forall_impl; [exact Hor|]. intros y Hy.
        unfold before in *. cbn [fst snd] in *. lia.
Qed.

Lemma seg_disjoint_agree m m' a cs nx : agree (inside a) m m' → Forall chunk_ok cs →
  Forall (λ x, Forall (disj x) cs) a → seg m cs nx → seg m' cs nx.
Proof.
  intros Hag Hok Hd. apply (seg_agree (inside a)); [done|]. apply Forall_forall. intros c Hc i Hi (d & Hin & Hdi).
  rewrite Forall_forall in Hd, Hok. specialize (Hd d Hin). rewrite Forall_forall in Hd. specialize (Hd c Hc).
  pose proof (chunk_ge c (Hok c Hc)). unfold disj in Hd. lia.
Qed.

(** The code after the search, for a chunk [(o, k)] that fits. *)
Definition take_chunk (prev ptr size : Z) : B Z :=
  psize ← unused_size base ptr;
  (if u64 (psize - size) <? sizeof_unused then
     n ← unused_next base ptr;
     link prev n
   else
     let new := ptr + size in
     (if SIZE <? new - base + sizeof_unused then bmodify (set_first_unused 0) else link prev new);;
     n ← unused_next base ptr;
     set_unused_next base new n;;
     psize ← unused_size base ptr;
     set_unused_size base new (u32 (psize - size)));;
  mret ptr.

Lemma take_chunk_ok m l a o n k r : Z.of_nat (length m) = SIZE → Forall chunk_ok (a ++ (o, k) :: r) →
  disjoint_all (a ++ (o, k) :: r) → seg m (a ++ (o, k) :: r) 0 → (16 | n) → 0 < n ≤ k →
  ∃ m', take_chunk (last_addr 0 a) (base + o) n (Pktbuf m (addr (a ++ (o, k) :: r) 0) l) =
      Some (base + o, Pktbuf m' (addr (a ++ rest o n k ++ r) 0) l) ∧
    seg m' (a ++ rest o n k ++ r) 0 ∧ agree (inside (a ++ [(o, k)])) m m'.
Proof.
  intros Hl Hok Hd Hseg Hn Hnk. pose proof conf_size as Hsz. pose proof conf_base as Hb. pose proof conf_end as He.
  apply Forall_app in Hok as [Hoka Hokr]. pose proof Hokr as [Hoko Hokr']%Forall_cons.
  apply disjoint_app in Hd as (Hda & [Hdor Hdr] & Hdar).
  apply seg_app in Hseg as [Hsa (Hnx & Hksz & Hsr)]. cbn [addr fst snd] in *.
  destruct Hoko as (Ho0 & Ho16 & Hk16 & Hk0 & Hok). cbn [fst snd] in *.
  assert (Forall (λ x, Forall (disj x) r) a) as Hdar'.
  { eapply Forall_impl; [exact Hdar|]. by intros x [_ ?]%Forall_cons. }
  unfold take_chunk, unused_size. rewrite (bb_get_word base _ (o + 8) 4 k) by (done || lia).
  rewrite addr_app. cbn [addr fst]. rewrite bb_if. rewrite wrap_small by (unfold uint; lia). unfold rest.
  destruct (Z.eqb_spec k n) as [->|Hne].
  - rewrite Z.sub_diag. cbn [Z.ltb Z.compare]. rewrite bb_assoc.
    unfold unused_next. rewrite (bb_get_word base _ o 8 (addr r 0)) by done.
    destruct (link_ok a (base + o) (addr r 0) (λ _, mret (base + o)) m l Hl Hoka Hda Hsa (addr_range r Hokr'))
      as (m1 & -> & Hs1 & Hag1).
    exists m1. cbn [app]. split; [by rewrite addr_app|]. split.
    + apply seg_app. split; [done|]. by eapply seg_disjoint_agree.
    + eapply agree_trans; [exact Hag1|apply agree_refl| |done]. intros i. apply inside_mono. set_solver.
  - assert (16 ≤ k - n ∧ 16 ≤ n) as [Hge Hge'].
    { destruct Hn as [u ->], Hk16 as [v ->]. lia. }
    rewrite (proj2 (Z.ltb_ge (k - n) _)) by (unfold sizeof_unused; lia). cbv zeta. rewrite bb_assoc.
    rewrite (proj2 (Z.ltb_ge SIZE _)) by (unfold sizeof_unused; lia).
    set (K := λ _ : unit, _). destruct (link_ok a (base + o) (base + o + n) K m l Hl Hoka Hda Hsa) as (m1 & -> & Hs1 & Hag1).
    { unfold uint. change (8 * Z.of_nat 8) with 64. lia. }
    assert (∀ i, inside a i → ¬ o ≤ i < o + k) as Hia.
    { intros i (c & Hc & Hi) Hi'. rewrite Forall_forall in Hdar. specialize (Hdar c Hc).
      apply Forall_cons in Hdar as [Hdar _]. unfold disj in Hdar. cbn [fst snd] in Hdar. lia. }
    assert (word_at m1 o 8 (addr r 0)) as Hnx1.
    { eapply word_agree; [exact Hag1| |exact Hnx]. intros i Hi Hin. apply (Hia i Hin). lia. }
    assert (word_at m1 (o + 8) 4 k) as Hk1.
    { eapply word_agree; [exact Hag1| |exact Hksz]. intros i Hi Hin. apply (Hia i Hin). lia. }
    assert (Z.of_nat (length m1) = SIZE) as Hl1 by (destruct Hag1 as [-> _]; done).
    subst K. cbn beta. rewrite bb_assoc. unfold unused_next. rewrite (bb_get_word base _ o 8 (addr r 0)) by done.
    rewrite bb_assoc. unfold set_unused_next. rewrite (bb_set_word base _ (o + n)) by (unfold fits; lia).
    set (m2 := put_word m1 (o + n) 8 (addr r 0)).
    assert (Z.of_nat (length m2) = SIZE) as Hl2 by (unfold m2; by rewrite put_word_length).
    rewrite bb_assoc. unfold unused_size, set_unused_size.
    rewrite (bb_get_word base _ (o + 8) 4 k) by (lia || (apply word_put_other; [lia|done])).
    rewrite (bb_set_word base _ (o + n + 8)) by (unfold fits; lia). rewrite wrap_small by (unfold uint; lia).
    set (m3 := put_word m2 (o + n + 8) 4 (k - n)). exists m3. rewrite addr_app. cbn [addr app fst].
    split; [by rewrite Z.add_assoc|].
    assert (agree (λ i, o ≤ i < o + k) m1 m3) as Hag3.
    { apply agree_put_word; [apply agree_put_word; [apply agree_refl|]|]; intros i Hi; lia. }
    split.
    + apply seg_app. cbn [addr fst snd seg]. split; [|split_and!].
      * rewrite Z.add_assoc. eapply seg_agree; [exact Hag3| |exact Hs1]. apply Forall_forall. intros c Hc i Hi.
        rewrite Forall_forall in Hoka. pose proof (chunk_ge c (Hoka c Hc)). apply Hia. exists c. split; [done|lia].
      * apply word_put_other; [lia|]. apply word_put_same; [unfold fits; lia|by apply addr_range].
      * apply word_put_same; [unfold fits; lia|unfold uint; change (8 * Z.of_nat 4) with 32; lia].
      * eapply seg_agree; [exact Hag3| |by eapply seg_disjoint_agree]. apply Forall_forall. intros c Hc i Hi.
        rewrite Forall_forall in Hdor, Hokr'. pose proof (chunk_ge c (Hokr' c Hc)). specialize (Hdor c Hc).
        unfold disj in Hdor. cbn [fst snd] in Hdor. lia.
    + eapply agree_trans; [exact Hag1|exact Hag3| |].
      * intros i. apply inside_mono. set_solver.
      * intros i Hi. exists (o, k). split; [set_solver|done].
Qed.

Lemma first_fit n (cs : list chunk) : Forall (λ c, c.2 < n) cs ∨
  ∃ a o k r, cs = a ++ (o, k) :: r ∧ Forall (λ c, c.2 < n) a ∧ n ≤ k.
Proof.
  induction cs as [|[o k] cs [IH|(a & o' & k' & r & -> & Ha & Hk)]]; [by left| |].
  - destruct (Z.lt_ge_cases k n); [left; by constructor|right]. exists [], o, k, cs. by split_and!.
  - destruct (Z.lt_ge_cases k n).
    + right. exists ((o, k) :: a), o', k', r. split; [done|]. split; [by constructor|done].
    + right. exists [], o, k, (a ++ (o', k') :: r). by split_and!.
Qed.

(** The outcome of an allocation of [n] bytes, a multiple of 16: refused because no
    chunk is large enough, or the start of the first one that is. *)
Definition alloc_result (n : Z) (bl cs : list chunk) (m : list Z) (first p : Z) (cs' : list chunk) (m' : list Z)
    (first' : Z) : Prop :=
  (p = 0 ∧ Forall (λ c, c.2 < n) cs ∧ cs' = cs ∧ m' = m ∧ first' = first) ∨
  (∃ a o k r, p = base + o ∧ 0 ≤ o ∧ cs = a ++ (o, k) :: r ∧ Forall (λ c, c.2 < n) a ∧ n ≤ k ∧
     cs' = a ++ rest o n k ++ r ∧ alloc_inv ((o, n) :: bl) cs' m' first' ∧ agree (inside cs) m m').

Lemma alloc_ok size bl cs m first l : alloc_inv bl cs m first → 0 < size < 2 ^ 63 →
  ∃ p cs' m' first', _pktbuf_alloc base SIZE size (Pktbuf m first l) = Some (p, Pktbuf m' first' l) ∧
    alloc_result (_align size) bl cs m first p cs' m' first'.
Proof.
  intros [Hly Hl -> Hseg] Hsize. destruct (align_bounds size ltac:(lia)) as [Hn Hn16].
  set (n := _align size) in *. pose proof (ly_parts _ _ Hly) as Hp.
  pose proof (pt_ok _ Hp) as Hok. apply Forall_app in Hok as [_ Hok].
  pose proof (pt_disj _ Hp) as Hd. apply disjoint_app in Hd as (_ & Hd & _).
  unfold _pktbuf_alloc. rewrite bb_get. cbn [_first_unused]. cbv zeta. fold n.
  destruct (first_fit n cs) as [Hnone|(a & o & k & r & -> & Ha & Hk)].
  - exists 0, cs, m, (addr cs 0). split; [|by left]. rewrite <- (app_nil_r cs) at 1.
    rewrite (bbind_ok _ _ _ (last_addr 0 cs, 0) (Pktbuf m (addr cs 0) l)); [done|].
    apply (alloc_loop_ok n m (addr cs 0) l cs _ 0 []); rewrite ?app_nil_r; try done.
    apply (layout_fuel bl cs []). by rewrite app_nil_r.
  - pose proof (layout_fuel _ _ _ Hly) as Hf.
    assert (chunk_ok (o, k)) as Hoko by (rewrite Forall_app, Forall_cons in Hok; tauto).
    assert (0 ≤ o) as Ho by apply Hoko.
    rewrite (bbind_ok _ _ _ (last_addr 0 a, base + o) (Pktbuf m (addr (a ++ (o, k) :: r) 0) l)).
    2: { apply (alloc_loop_ok n m _ l a _ 0 ((o, k) :: r)); done. }
    destruct (take_chunk_ok m l a o n k r Hl Hok Hd Hseg Hn16 ltac:(lia)) as (m' & Htake & Hseg' & Hag).
    exists (base + o), (a ++ rest o n k ++ r), m', (addr (a ++ rest o n k ++ r) 0). split.
    + rewrite <- Htake. pose proof (addr_pos (o, k) Hoko) as E. cbn [fst] in E. by rewrite E.
    + right. exists a, o, k, r. split_and!; try done.
      * split; [apply layout_alloc; [done|done|lia]|destruct Hag as [-> _]; done|done|done].
      * eapply agree_trans; [exact Hag|apply agree_refl| |done]. intros i. apply inside_mono. set_solver.
Qed.

(** Blocks keep their contents. *)
Lemma block_kept bl cs m m' o n : layout bl cs → (o, n) ∈ bl → agree (inside cs) m m' →
  ∀ o' n', o ≤ o' → o' + n' ≤ o + n → load m' o' n' = load m o' n'.
Proof.
  intros [Hp _] Hin Hag o' n' Ho Hn. apply (agree_load (inside cs)); [done|]. intros i Hi (c & Hc & Hci).
  pose proof (pt_disj _ Hp) as Hd. apply disjoint_app in Hd as (_ & _ & Hd). rewrite Forall_forall in Hd.
  specialize (Hd (o, n) Hin). rewrite Forall_forall in Hd. specialize (Hd c Hc). unfold disj in Hd. cbn [fst snd] in Hd. lia.
Qed.

(** ** Freeing *)

Lemma divide_small d : (16 | d) → 0 ≤ d → (d <? sizeof_unused) = (d =? 0).
Proof. intros [k ->] Hd. unfold sizeof_unused. destruct (Z.ltb_spec (k * 16) 16), (Z.eqb_spec (k * 16) 0); lia. Qed.

(** Two chunks leave a hole that is too small exactly when they touch. *)
Lemma hole_ok {C} m fu l p j q w (f : bool → B C) : word_at m (p + 8) 4 j → chunk_ok (p, j) → chunk_ok (q, w) → p + j ≤ q →
  (_too_small_hole base (base + p) (base + q) ≫= f) (Pktbuf m fu l) = f (p + j =? q) (Pktbuf m fu l).
Proof.
  intros Hj (A1 & A2 & A3 & A4 & A5) (B1 & B2 & B3 & B4 & B5) Hpq. cbn [fst snd] in *.
  pose proof conf_size. pose proof conf_base. unfold _too_small_hole, unused_size. rewrite bb_assoc.
  rewrite (bb_get_word base _ (p + 8) 4 j) by (done || lia). rewrite bb_ret.
  replace (base + q - (base + p + j)) with (q - (p + j)) by lia. rewrite wrap_small by (unfold uint; lia).
  rewrite divide_small by first [lia|apply Z.divide_sub_r; [done|by apply Z.divide_add_r]].
  f_equal. destruct (Z.eqb_spec (q - (p + j)) 0), (Z.eqb_spec (p + j) q); lia.
Qed.

Lemma merge_ok {C} m fu l a q w w2 r (f : Z → B C) : Z.of_nat (length m) = SIZE →
  Forall chunk_ok (a ++ (q, w) :: (q + w, w2) :: r) → disjoint_all (a ++ (q, w) :: (q + w, w2) :: r) →
  seg m (a ++ (q, w) :: (q + w, w2) :: r) 0 →
  ∃ m', (_merge base (base + q) (base + (q + w)) ≫= f) (Pktbuf m fu l) = f (base + q) (Pktbuf m' fu l) ∧
    seg m' (a ++ (q, w + w2) :: r) 0 ∧ agree (inside [(q, w)]) m m'.
Proof.
  intros Hl Hok Hd Hseg. apply Forall_app in Hok as [Hoka [Hq [Hq2 Hokr]%Forall_cons]%Forall_cons].
  apply disjoint_app in Hd as (_ & (Hdq & Hdq2 & _) & Hda).
  apply seg_app in Hseg as [Hsa (Hqn & Hqw & Hq2n & Hq2w & Hsr)]. cbn [addr fst snd] in *.
  pose proof (chunk_ge _ Hq) as Gq. pose proof (chunk_ge _ Hq2) as Gq2. cbn [fst snd] in *.
  pose proof (addr_pos _ Hq2) as Eq2. cbn [fst] in Eq2. pose proof conf_size.
  destruct Hq as (A1 & A2 & A3 & A4 & A5), Hq2 as (B1 & B2 & B3 & B4 & B5). cbn [fst snd] in *.
  unfold _merge. rewrite !bb_assoc, bb_assert by (by rewrite Eq2). cbn beta.
  rewrite bb_assoc. unfold unused_next. rewrite (bb_get_word base _ (q + w) 8 (addr r 0)) by done.
  rewrite bb_assoc. unfold set_unused_next. rewrite (bb_set_word base _ q) by (unfold fits; lia).
  rewrite bb_assoc. unfold unused_size. rewrite (bb_get_word base _ (q + w + 8) 4 w2) by (lia || (apply word_put_other; [lia|done])).
  rewrite bb_assoc. unfold set_unused_size. rewrite (bb_set_word base _ (q + 8)) by (unfold fits; rewrite ?put_word_length; lia).
  rewrite bb_ret. replace (w2 + (base + (q + w) - (base + q))) with (w + w2) by lia.
  rewrite wrap_small by (unfold uint; lia).
  set (m' := put_word (put_word m q 8 (addr r 0)) (q + 8) 4 (w + w2)). exists m'. split; [done|].
  assert (agree (λ i, q ≤ i < q + 16) m m') as Hag.
  { apply agree_put_word; [apply agree_put_word; [apply agree_refl|]|]; intros i Hi; lia. }
  assert (∀ cs, Forall chunk_ok cs → Forall (disj (q, w)) cs → ∀ nx, seg m cs nx → seg m' cs nx) as Hkeep.
  { intros cs Hcs Hdc nx. apply (seg_agree _ _ _ _ _ Hag). apply Forall_forall. intros c Hc i Hi.
    rewrite Forall_forall in Hcs, Hdc. pose proof (chunk_ge c (Hcs c Hc)). specialize (Hdc c Hc).
    unfold disj in Hdc. cbn [fst snd] in Hdc. lia. }
  split.
  - apply seg_app. cbn [addr seg fst snd]. split_and!.
    + apply Hkeep; [done| |done]. eapply Forall_impl; [exact Hda|]. intros x [Hx _]%Forall_cons. by apply disj_sym.
    + apply word_put_other; [lia|]. apply word_put_same; [unfold fits; lia|by apply addr_range].
    + apply word_put_same; [unfold fits; rewrite put_word_length; lia|unfold uint; change (8 * Z.of_nat 4) with 32; lia].
    + apply Hkeep; [done|by apply Forall_cons in Hdq as [_ Hdq]|done].
  - eapply agree_trans; [exact Hag|apply agree_refl| |done]. intros i Hi. exists (q, w).
    cbn beta in Hi. split; [by apply list_elem_of_singleton|cbn [fst snd]; lia].
Qed.

Definition free_left (prev data : Z) : B Z :=
  if prev =? 0 then bmodify (set_first_unused data);; mret data
  else
    set_unused_next base prev data;;
    t ← _too_small_hole base prev data;
    if (t : bool) then _merge base prev data else mret data.

Definition free_right (new : Z) : B unit :=
  n ← unused_next base new;
  if negb (n =? 0) then
    t ← _too_small_hole base new n;
    if (t : bool) then _merge base new n;; mret tt else mret tt
  else mret tt.

Lemma sorted_before a o : Forall chunk_ok a → StronglySorted before a → Forall (λ c, c.1 + c.2 ≤ o) a →
  (∀ a' c, a = a' ++ [c] → c.1 + c.2 ≠ o) → Forall (λ c, c.1 + c.2 < o) a.
Proof.
  intros Hok Hs Hle Hlast. destruct a as [|c a _] using rev_ind; [constructor|].
  apply Forall_app in Hle as [_ [Hc _]%Forall_cons]. specialize (Hlast a c eq_refl).
  apply Forall_app in Hok as [_ [Hcok _]%Forall_cons]. pose proof (chunk_ge c Hcok).
  apply Forall_app. split; [|constructor; [lia|constructor]]. apply Forall_forall. intros x Hx.
  pose proof (StronglySorted_app_1_elem_of before a [c] x c Hs Hx ltac:(by left)) as Hb. unfold before in Hb. lia.
Qed.

Lemma free_left_ok m l a o n r nx : Z.of_nat (length m) = SIZE → Forall chunk_ok (a ++ (o, n) :: r) →
  disjoint_all (a ++ (o, n) :: r) → StronglySorted before a → Forall (λ c, c.1 + c.2 ≤ o) a →
  seg m a nx → seg m ((o, n) :: r) 0 →
  ∃ a1 q w m', free_left (last_addr 0 a) (base + o) (Pktbuf m (addr a nx) l) =
      Some (base + q, Pktbuf m' (addr (a1 ++ (q, w) :: r) 0) l) ∧
    seg m' (a1 ++ (q, w) :: r) 0 ∧ agree (inside (a ++ [(o, n)])) m m' ∧
    (a1 = a ∧ q = o ∧ w = n ∧ Forall (λ c, c.1 + c.2 < o) a ∨
     ∃ j, a = a1 ++ [(q, j)] ∧ q + j = o ∧ w = j + n).
Proof.
  intros Hl Hok Hd Hs Hle Hsa Hsr. pose proof Hok as [Hoka [Hoo Hor]%Forall_cons]%Forall_app.
  pose proof Hd as (Hda & _ & Hdar)%disjoint_app.
  assert (uint (8 * Z.of_nat 8) (base + o)) as Ho64 by (apply (addr_range [(o, n)]); by constructor).
  assert (∀ m' : list Z, agree (inside a) m m' → seg m' a (base + o) → seg m' (a ++ (o, n) :: r) 0) as Hsegs.
  { intros m' Hag Hsa'. apply seg_app. split; [done|].
    apply (seg_disjoint_agree m m' a); [done|by constructor|done|done]. }
  assert (∀ i, inside a i → inside (a ++ [(o, n)]) i) as Hin by (intros i; apply inside_mono; set_solver).
  unfold free_left. destruct a as [|[p j] a _] using rev_ind.
  - exists [], o, n, m. cbn [last_addr app]. split; [done|]. split; [done|]. split; [apply agree_refl|left]. by split_and!.
  - pose proof Hok as [[_ [Hop _]%Forall_cons]%Forall_app _]%Forall_app.
    rewrite last_addr_snoc, (addr_pos (p, j)) by done. cbn [fst].
    set (K := λ _ : unit, _ : B Z).
    destruct (link_ok (a ++ [(p, j)]) nx (base + o) K m l Hl Hoka Hda Hsa Ho64) as (m1 & Hrun & Hs1 & Hag1).
    unfold link in Hrun. rewrite last_addr_snoc, (addr_pos (p, j)) in Hrun by done. cbn [fst] in Hrun. rewrite Hrun.
    specialize (Hsegs m1 Hag1 Hs1). subst K. cbn beta. pose proof Hle as [_ [Hpo _]%Forall_cons]%Forall_app. cbn [fst snd] in Hpo.
    apply seg_app in Hs1 as [_ (_ & Hpj & _)]. cbn [fst snd] in Hpj.
    rewrite (hole_ok _ _ _ p j o n) by done. destruct (Z.eqb_spec (p + j) o) as [<-|Hne].
    + assert (Z.of_nat (length m1) = SIZE) as Hl1 by (destruct Hag1 as [-> _]; done).
      rewrite <- !app_assoc in Hsegs, Hok, Hd. cbn [app] in *.
      destruct (merge_ok m1 (addr (a ++ [(p, j)]) (base + (p + j))) l a p j n r mret Hl1 Hok Hd Hsegs) as (m2 & Hm & Hs2 & Hag2).
      exists a, p, (j + n), m2. split; [|split_and!; [done| |right; by exists j]].
      * transitivity ((mret (base + p) : B Z) (Pktbuf m2 (addr (a ++ [(p, j)]) (base + (p + j))) l)); [|by rewrite !addr_app].
        rewrite <- Hm. unfold mbind, B_bind. destruct (_merge _ _ _ _) as [[x s']|]; done.
      * eapply agree_trans; [exact Hag1|exact Hag2|exact Hin|]. intros i. apply inside_mono. set_solver.
    + exists (a ++ [(p, j)]), o, n, m1. split; [by rewrite !addr_app|]. split; [done|]. split.
      * eapply agree_trans; [exact Hag1|apply agree_refl|exact Hin|done].
      * left. split_and!; try done. apply sorted_before; [done..|].
        intros a' c [_ <-]%app_inj_tail. done.
Qed.

Lemma free_right_ok m fu l a q w r : Z.of_nat (length m) = SIZE → Forall chunk_ok (a ++ (q, w) :: r) →
  disjoint_all (a ++ (q, w) :: r) → Forall (λ c, q + w ≤ c.1) r → StronglySorted before r →
  seg m (a ++ (q, w) :: r) 0 →
  ∃ w' r' m', free_right (base + q) (Pktbuf m fu l) = Some (tt, Pktbuf m' fu l) ∧
    seg m' (a ++ (q, w') :: r') 0 ∧ agree (inside [(q, w)]) m m' ∧ Forall (λ c, q + w' < c.1) r' ∧
    (w' = w ∧ r' = r ∨ ∃ w2, r = (q + w, w2) :: r' ∧ w' = w + w2).
Proof.
  intros Hl Hok Hd Hle Hs Hseg. pose proof Hseg as [_ (Hqn & Hqw & _)]%seg_app. cbn [fst snd] in Hqn, Hqw.
  pose proof Hok as [_ [Hq Hor]%Forall_cons]%Forall_app.
  unfold free_right, unused_next. rewrite (bb_get_word base _ q 8 (addr r 0)) by done.
  destruct r as [|[q2 w2] r].
  - exists w, [], m. split; [done|]. split; [done|]. split; [apply agree_refl|]. split; [constructor|by left].
  - cbn [addr fst]. apply Forall_cons in Hor as [Hq2 Hor]. apply Forall_cons in Hle as [Hqq2 Hle]. cbn [fst] in Hqq2.
    pose proof (addr_pos _ Hq2) as E2. cbn [fst] in E2. rewrite E2. cbn [negb].
    rewrite (hole_ok _ _ _ q w q2 w2) by done. apply StronglySorted_cons in Hs as [Hs2 Hs].
    assert (Forall (λ c, q2 + w2 < c.1) r) as Hlt.
    { eapply Forall_impl; [exact Hs2|]. intros c Hc. exact Hc. }
    destruct (Z.eqb_spec (q + w) q2) as [<-|Hne].
    + destruct (merge_ok m fu l a q w w2 r (λ _, mret tt) Hl Hok Hd Hseg) as (m' & -> & Hs' & Hag).
      exists (w + w2), r, m'. split; [done|]. split; [done|]. split; [done|]. split; [|right; by exists w2].
      eapply Forall_impl; [exact Hlt|]. cbn beta. lia.
    + exists w, ((q2, w2) :: r), m. split; [done|]. split; [done|]. split; [apply agree_refl|]. split; [|by left].
      constructor; [cbn [fst]; lia|]. eapply Forall_impl; [exact Hlt|]. cbn beta. intros c Hc. pose proof (chunk_ge _ Hq2) as G.
      cbn [snd] in G. lia.
Qed.

(** Where a block lies among the chunks. *)
Lemma split_at_block bl o n cs : layout ((o, n) :: bl) cs →
  ∃ a r, cs = a ++ r ∧ Forall (λ c, c.1 + c.2 ≤ o) a ∧ Forall (λ c, o + n ≤ c.1) r.
Proof.
  intros [Hp Hs]. cbn [app] in Hp. pose proof (pt_ok _ Hp) as [_ [_ Hok]%Forall_app]%Forall_cons.
  pose proof (pt_disj _ Hp) as [[_ Hd]%Forall_app _]. clear Hp.
  induction cs as [|c cs IH]; [by exists [], []|]. apply Forall_cons in Hd as [Hdc Hd]. apply Forall_cons in Hok as [Hc Hok].
  apply StronglySorted_cons in Hs as [Hcs Hs]. pose proof (chunk_ge c Hc). unfold disj in Hdc. cbn [fst snd] in Hdc.
  destruct Hdc as [Hoc|Hco].
  - exists [], (c :: cs). split_and!; [done|constructor|]. constructor; [done|]. eapply Forall_impl; [exact Hcs|].
    intros d Hd'. unfold before in Hd'. lia.
  - destruct (IH Hs Hok Hd) as (a & r & -> & Ha & Hr). exists (c :: a), r. split; [done|]. split; [by constructor|done].
Qed.

(** The chunks when the block [(o, n)] has been joined with the chunk before it,
    and those when the result has been joined with the chunk after it. *)
Record freed (bl a r : list chunk) (q w : Z) : Prop := {
  fr_parts : parts ((q, w) :: bl ++ a ++ r);
  fr_sorted : StronglySorted before (a ++ r);
  fr_before : Forall (λ c, c.1 + c.2 < q) a
}.

Lemma freed_left bl a r o n a1 q w : layout ((o, n) :: bl) (a ++ r) →
  (a1 = a ∧ q = o ∧ w = n ∧ Forall (λ c, c.1 + c.2 < o) a ∨ ∃ j, a = a1 ++ [(q, j)] ∧ q + j = o ∧ w = j + n) →
  freed bl a1 r q w ∧ q + w = o + n.
Proof.
  intros [Hp Hs] Hleft. cbn [app] in Hp.
  pose proof (pt_ok _ Hp) as [(_ & _ & Hn16 & Hn0 & _) [_ [Hoka _]%Forall_app]%Forall_app]%Forall_cons. cbn [snd] in Hn16, Hn0.
  destruct Hleft as [(-> & -> & -> & Hlt)|(j & -> & Hqj & ->)]; [by split|]. split; [|lia].
  apply Forall_app in Hoka as [_ [(_ & _ & Hj16 & Hj0 & _) _]%Forall_cons]. cbn [snd] in Hj16, Hj0.
  rewrite <- app_assoc in Hs, Hp. cbn [app] in Hs, Hp. split.
  - apply parts_split; [done..|]. rewrite Hqj. revert Hp. apply parts_perm.
    rewrite (app_assoc bl a1), <- Permutation_middle. rewrite <- app_assoc. apply perm_swap.
  - apply StronglySorted_app in Hs as (H1 & H2 & [_ H3]%StronglySorted_cons).
    apply StronglySorted_app_2; [|done|done]. intros x y Hx Hy. apply H1; [done|by right].
  - apply Forall_forall. intros x Hx.
    exact (StronglySorted_app_1_elem_of before a1 ((q, j) :: r) x (q, j) Hs Hx ltac:(by left)).
Qed.

Lemma freed_right bl a r q w w' r' : freed bl a r q w →
  (w' = w ∧ r' = r ∨ ∃ w2, r = (q + w, w2) :: r' ∧ w' = w + w2) → freed bl a r' q w'.
Proof.
  intros [Hp Hs Ha] [[-> ->]|(w2 & -> & ->)]; [done|].
  pose proof (pt_ok _ Hp) as [(_ & _ & Hw16 & Hw0 & _) [_ [_ [H2 _]%Forall_cons]%Forall_app]%Forall_app]%Forall_cons.
  destruct H2 as (_ & _ & H16 & H0 & _). cbn [snd] in *. split; [| |done].
  - apply parts_split; [done..|]. revert Hp. apply parts_perm.
    rewrite (app_assoc bl a), <- Permutation_middle. by rewrite <- app_assoc.
  - apply StronglySorted_app in Hs as (H1 & H2 & [_ H3]%StronglySorted_cons).
    apply StronglySorted_app_2; [|done|done]. intros x y Hx Hy. apply H1; [done|by right].
Qed.

Lemma freed_layout bl a r q w : freed bl a r q w → Forall (λ c, q + w < c.1) r → layout bl (a ++ (q, w) :: r).
Proof.
  intros [Hp Hs Ha] Hr. split; [by rewrite app_assoc, <- Permutation_middle, <- app_assoc|].
  apply StronglySorted_app in Hs as (H1 & H2 & H3). apply StronglySorted_app_2; [|done|by apply StronglySorted_cons].
  intros x y Hx [->|Hy]%elem_of_cons; [|by apply H1]. rewrite Forall_forall in Ha. apply Ha, Hx.
Qed.

Lemma freed_ok bl a r q w : freed bl a r q w → Forall chunk_ok (a ++ (q, w) :: r) ∧ disjoint_all (a ++ (q, w) :: r).
Proof.
  intros [[Hok Hd _] _ _]. apply Forall_cons in Hok as [Hq [_ [Ha Hr]%Forall_app]%Forall_app].
  destruct Hd as [[_ Hqd]%Forall_app (_ & Hd & _)%disjoint_app]. split.
  - apply Forall_app. split; [done|by constructor].
  - rewrite <- Permutation_middle. by split.
Qed.

Lemma contains_in o : 0 ≤ o < SIZE → _pktbuf_contains base SIZE (base + o) = true.
Proof.
  intros Ho. pose proof conf_size. unfold _pktbuf_contains. replace (base + o - base) with o by lia.
  rewrite wrap_small by (unfold uint; lia). apply Z.ltb_lt. lia.
Qed.

Lemma contains_null : _pktbuf_contains base SIZE 0 = false.
Proof. apply Z.ltb_ge. apply conf_null. Qed.

Lemma free_null size s : _pktbuf_free base SIZE 0 size s = Some (tt, s).
Proof. unfold _pktbuf_free. by rewrite contains_null. Qed.

(** The code before the lists are joined, writing the header of the freed block. *)
Lemma write_header {C} m fu l o n nx size (f : unit → B C) : Z.of_nat (length m) = SIZE → chunk_ok (o, n) →
  _align size = n → uint (8 * Z.of_nat 8) nx →
  ∃ m', (set_unused_next base (base + o) nx;;
      set_unused_size base (base + o) (u32 (_align size));;
      nsize ← unused_size base (base + o);
      let bytes_at_end := u64 ((base + SIZE) - (base + o + nsize)) in
      (if bytes_at_end <? sizeof_unused then set_unused_size base (base + o) (u32 (nsize + bytes_at_end)) else mret tt) ≫= f)
      (Pktbuf m fu l) = f tt (Pktbuf m' fu l) ∧
    word_at m' o 8 nx ∧ word_at m' (o + 8) 4 n ∧ agree (λ i, o ≤ i < o + 16) m m'.
Proof.
  intros Hl Ho Hsize Hnx. pose proof (chunk_ge _ Ho) as Hge. destruct Ho as (A1 & A2 & A3 & A4 & A5). cbn [fst snd] in *.
  pose proof conf_size. pose proof conf_base.
  unfold set_unused_next, set_unused_size, unused_size. rewrite (bb_set_word base _ o) by (unfold fits; lia).
  rewrite Hsize, wrap_small by (unfold uint; lia).
  rewrite (bb_set_word base _ (o + 8)) by (unfold fits; rewrite ?put_word_length; lia).
  set (m2 := put_word (put_word m o 8 nx) (o + 8) 4 n).
  assert (Z.of_nat (length m2) = SIZE) as Hl2 by (unfold m2; rewrite !put_word_length; done).
  assert (uint (8 * Z.of_nat 4) n) as Hn32 by (unfold uint; change (8 * Z.of_nat 4) with 32; lia).
  assert (word_at m2 o 8 nx) as H1 by (apply word_put_other; [lia|]; apply word_put_same; [unfold fits; lia|done]).
  assert (word_at m2 (o + 8) 4 n) as H2 by (apply word_put_same; [unfold fits; rewrite put_word_length; lia|done]).
  assert (agree (λ i, o ≤ i < o + 16) m m2) as H3.
  { apply agree_put_word; [apply agree_put_word; [apply agree_refl|]|]; intros i Hi; lia. }
  rewrite (bb_get_word base _ (o + 8) 4 n) by (done || lia). cbv zeta.
  replace (base + SIZE - (base + o + n)) with (SIZE - (o + n)) by lia. rewrite wrap_small by (unfold uint; lia).
  rewrite divide_small by first [lia|apply Z.divide_sub_r; [apply conf_align|by apply Z.divide_add_r]].
  destruct (Z.eqb_spec (SIZE - (o + n)) 0) as [E|E].
  - rewrite E, Z.add_0_r, wrap_small by (unfold uint; lia).
    rewrite (bb_set_word base _ (o + 8)) by (unfold fits; lia).
    exists (put_word m2 (o + 8) 4 n). split; [done|]. split; [by apply word_put_other; [lia|]|].
    split; [by apply word_put_same; [unfold fits; lia|]|]. apply agree_put_word; [done|]. intros i Hi. lia.
  - rewrite bb_ret. by exists m2.
Qed.

Lemma free_ok size bl cs m first l o n : alloc_inv ((o, n) :: bl) cs m first → _align size = n →
  ∃ cs' m' first', _pktbuf_free base SIZE (base + o) size (Pktbuf m first l) = Some (tt, Pktbuf m' first' l) ∧
    alloc_inv bl cs' m' first' ∧ agree (inside ((o, n) :: cs)) m m'.
Proof.
  intros [Hly Hl -> Hseg] Hsize. destruct (split_at_block bl o n cs Hly) as (a & r & -> & Hao & Hor).
  pose proof (ly_parts _ _ Hly) as Hp. cbn [app] in Hp.
  pose proof (pt_ok _ Hp) as [Hoo [_ [Hoka Hokr]%Forall_app]%Forall_app]%Forall_cons.
  pose proof (pt_disj _ Hp) as [[_ [Hda Hdr]%Forall_app]%Forall_app (_ & (Hdja & Hdjr & Hdar)%disjoint_app & _)%disjoint_app].
  pose proof (ly_sorted _ _ Hly) as (_ & Hsa & Hsr)%StronglySorted_app.
  apply seg_app in Hseg as [Hsega Hsegr]. pose proof (chunk_ge _ Hoo) as Hge.
  unfold _pktbuf_free. rewrite contains_in by (destruct Hoo as (? & _ & _ & ? & ?); cbn [fst snd] in *; lia).
  cbn [negb]. rewrite bb_get. cbn [_first_unused].
  rewrite (bbind_ok _ _ _ (last_addr 0 a, addr r 0) (Pktbuf m (addr (a ++ r) 0) l)).
  2: { apply (free_loop_ok (base + o) m _ l a _ 0 r).
    - by apply seg_app.
    - by apply Forall_app.
    - apply Forall_forall. intros c Hc. rewrite Forall_forall in Hao, Hoka. specialize (Hao c Hc).
      pose proof (chunk_ge c (Hoka c Hc)). lia.
    - destruct r as [|c r]; [done|]. apply Forall_cons in Hor as [Hc _]. cbn [snd] in Hge. lia.
    - by apply (layout_fuel _ _ _ Hly). }
  cbv beta iota.
  destruct (write_header m (addr (a ++ r) 0) l o n (addr r 0) size
    (λ _, new ← free_left (last_addr 0 a) (base + o); free_right new) Hl Hoo Hsize (addr_range r Hokr))
    as (m1 & Hrun1 & Hnx1 & Hn1 & Hag1).
  assert (Z.of_nat (length m1) = SIZE) as Hl1 by (destruct Hag1 as [-> _]; done).
  assert (∀ cs nx, Forall chunk_ok cs → Forall (disj (o, n)) cs → seg m cs nx → seg m1 cs nx) as Hkeep.
  { intros cs nx Hcs Hdc. apply (seg_agree _ _ _ _ _ Hag1). apply Forall_forall. intros c Hc i Hi.
    rewrite Forall_forall in Hcs, Hdc. pose proof (chunk_ge c (Hcs c Hc)). specialize (Hdc c Hc).
    unfold disj in Hdc. cbn [fst snd] in *. lia. }
  assert (Forall chunk_ok (a ++ (o, n) :: r)) as Hok' by (apply Forall_app; split; [done|by constructor]).
  assert (disjoint_all (a ++ (o, n) :: r)) as Hd'.
  { rewrite <- Permutation_middle. split; [by apply Forall_app|by apply disjoint_app]. }
  destruct (free_left_ok m1 l a o n r (addr r 0) Hl1 Hok' Hd' Hsa Hao (Hkeep _ _ Hoka Hda Hsega))
    as (a1 & q & w & m2 & Hrun2 & Hseg2 & Hag2 & Hleft).
  { cbn [seg fst snd]. split_and!; [done..|by apply Hkeep]. }
  destruct (freed_left bl a r o n a1 q w Hly Hleft) as [Hfr Hqw].
  assert (Z.of_nat (length m2) = SIZE) as Hl2 by (destruct Hag2 as [-> _]; done).
  destruct (freed_ok _ _ _ _ _ Hfr) as [Hok2 Hd2].
  destruct (free_right_ok m2 (addr (a1 ++ (q, w) :: r) 0) l a1 q w r Hl2 Hok2 Hd2) as
    (w' & r' & m3 & Hrun3 & Hseg3 & Hag3 & Hr' & Hright); [by rewrite Hqw|done|done|].
  pose proof (freed_layout _ _ _ _ _ (freed_right _ _ _ _ _ _ _ Hfr Hright) Hr') as Hly'.
  exists (a1 ++ (q, w') :: r'), m3, (addr (a1 ++ (q, w) :: r) 0). split; [|split].
  - etransitivity; [exact Hrun1|].
    rewrite addr_app, (bbind_ok _ _ _ _ _ Hrun2). exact Hrun3.
  - split; [done|destruct Hag3 as [-> _]; done|by rewrite !addr_app|done].
  - assert (∀ i, inside (a ++ [(o, n)]) i → inside ((o, n) :: a ++ r) i) as Hsub by (intros i; apply inside_mono; set_solver).
    assert (∀ i, o ≤ i < o + 16 → inside ((o, n) :: a ++ r) i) as Hsub1.
    { intros i Hi. exists (o, n). split; [by left|]. cbn [fst snd] in *. lia. }
    set (W := inside ((o, n) :: a ++ r)) in *. apply (agree_trans W W (inside [(q, w)]) m m2 m3); [|done|done|].
    + by apply (agree_trans W (λ i, o ≤ i < o + 16) (inside (a ++ [(o, n)])) m m1 m2).
    + intros i (c & ->%list_elem_of_singleton & Hi). cbn [fst snd] in Hi.
      destruct Hleft as [(-> & -> & -> & _)|(j & -> & Hqj & ->)]; [exists (o, n); split; [by left|done]|].
      destruct (Z.lt_ge_cases i o).
      * exists (q, j). split; [set_solver|cbn [fst snd]; lia].
      * exists (o, n). split; [by left|cbn [fst snd]; lia].
Qed.

(** ** The empty buffer, and its checks *)

Lemma sorted_total cs : ∀ lo, StronglySorted before cs → Forall chunk_ok cs → Forall (λ c, lo ≤ c.1) cs → lo ≤ SIZE →
  total cs ≤ SIZE - lo.
Proof.
  induction cs as [|c cs IH]; intros lo Hs Hok Hlo HS; cbn [total foldr]; [lia|].
  apply StronglySorted_cons in Hs as [Hc Hs]. apply Forall_cons in Hok as [(H1 & _ & _ & H4 & H5) Hok].
  apply Forall_cons in Hlo as [Hlo _]. fold (total cs).
  assert (Forall (λ d, c.1 + c.2 ≤ d.1) cs) as Hle.
  { eapply Forall_impl; [exact Hc|]. intros d Hd. unfold before in Hd. lia. }
  specialize (IH (c.1 + c.2) Hs Hok Hle). lia.
Qed.

Lemma layout_nil cs : layout [] cs → cs = [(0, SIZE)].
Proof.
  intros [[Hok _ Ht] Hs]. cbn [app] in *. pose proof conf_size as HS. destruct cs as [|c [|d r]]; cbn [total foldr] in Ht; [lia| |].
  - apply Forall_cons in Hok as [(H1 & _ & _ & H4 & H5) _]. destruct c as [o n]; cbn [fst snd] in *. f_equal. f_equal; lia.
  - apply StronglySorted_cons in Hs as [Hc Hs]. apply Forall_cons in Hok as [(H1 & _ & _ & H4 & H5) Hok].
    pose proof Hok as [(D1 & _ & _ & D4 & D5) _]%Forall_cons.
    pose proof Hc as [Hcd _]%Forall_cons. unfold before in Hcd.
    assert (Forall (λ x, c.1 + c.2 + 1 ≤ x.1) (d :: r)) as Hle.
    { eapply Forall_impl; [exact Hc|]. intros x Hx. unfold before in Hx. lia. }
    pose proof (sorted_total (d :: r) (c.1 + c.2 + 1) Hs Hok Hle) as Hb. cbn [total foldr] in Hb. lia.
Qed.

Lemma layout_full bl r : layout bl ((0, SIZE) :: r) → bl = [].
Proof.
  intros [[Hok _ Ht] _]. rewrite total_app in Ht. cbn [total foldr snd] in Ht. fold (total r) in Ht.
  apply Forall_app in Hok as [Hbl [_ Hr]%Forall_cons]. pose proof (length_total r Hr). pose proof (length_total bl Hbl).
  destruct bl; [done|]. cbn [length] in *. lia.
Qed.

Lemma pktbuf_init_ok m first : Z.of_nat (length m) = SIZE →
  ∃ m', gnrc_pktbuf_init base SIZE (Pktbuf m first false) = Some (tt, Pktbuf m' base false) ∧
    alloc_inv [] [(0, SIZE)] m' base.
Proof.
  intros Hl. pose proof conf_size as HS. pose proof conf_align as HA.
  assert (chunk_ok (0, SIZE)) as Hok by (split_and!; cbn [fst snd]; try done; try lia; apply Z.divide_0_r).
  pose proof (chunk_ge _ Hok) as HG. cbn [snd] in HG.
  unfold gnrc_pktbuf_init, mutex_lock_pktbuf. rewrite !bb_assoc, bb_get. cbn [_mutex negb].
  rewrite bb_assoc, bb_assert by done. cbn beta. rewrite bb_modify. unfold set_mutex. cbn [_pktbuf _first_unused].
  rewrite bb_modify. unfold set_first_unused. cbn [_pktbuf _mutex]. rewrite bb_get. cbn [_first_unused].
  unfold set_unused_next, set_unused_size. rewrite (bb_set_word base _ 0) by (unfold fits; lia).
  rewrite (bb_set_word base _ 8) by (unfold fits; rewrite ?put_word_length; lia).
  exists (put_word (put_word m 0 8 0) 8 4 SIZE). split; [reflexivity|]. split.
  - split; [|repeat constructor]. split; cbn [app total foldr snd]; [by constructor|split; [constructor|done]|lia].
  - by rewrite !put_word_length.
  - cbn [addr fst]. lia.
  - cbn [seg addr fst snd]. split_and!; [| |done].
    + apply word_put_other; [lia|]. apply word_put_same; [unfold fits; lia|unfold uint; lia].
    + apply word_put_same; [unfold fits; rewrite put_word_length; lia|unfold uint; change (8 * Z.of_nat 4) with 32; lia].
Qed.

Lemma is_empty_ok bl cs m first l : alloc_inv bl cs m first →
  gnrc_pktbuf_is_empty base SIZE (Pktbuf m first l) = Some (bool_decide (bl = []), Pktbuf m first l).
Proof.
  intros [Hly Hl -> Hseg]. unfold gnrc_pktbuf_is_empty. rewrite bb_get. cbn [_first_unused].
  pose proof conf_size as HS. pose proof conf_base as HB. destruct cs as [|[o n] r].
  - cbn [addr]. rewrite (proj2 (Z.eqb_neq 0 base)) by lia. rewrite bool_decide_false; [done|].
    intros ->. apply layout_nil in Hly. done.
  - cbn [addr fst]. destruct Hseg as (Hnx & Hn & _). cbn [fst snd] in Hnx, Hn.
    destruct (Z.eqb_spec (base + o) base) as [Ho|Ho].
    + assert (o = 0) as -> by lia. unfold unused_size. rewrite (bb_get_word base _ 8 4 n) by (done || lia).
      destruct (Z.eqb_spec n SIZE) as [->|Hne].
      * apply layout_full in Hly as ->. done.
      * rewrite bool_decide_false; [done|]. intros ->. apply layout_nil in Hly. congruence.
    + rewrite bool_decide_false; [done|]. intros ->. apply layout_nil in Hly. injection Hly as -> _ _. lia.
Qed.

(** The check asks for more than the invariant: that the last unused chunk reaches
    the end of the buffer. *)
Definition ends (cs : list chunk) : bool :=
  match last cs with Some c => c.1 + c.2 =? SIZE | None => true end.

Lemma sane_loop_ok m fu l cs : ∀ fuel, Forall chunk_ok cs → StronglySorted before cs → seg m cs 0 →
  (length cs < fuel)%nat →
  sane_loop base SIZE fuel (addr cs 0) (Pktbuf m fu l) = Some (ends cs, Pktbuf m fu l).
Proof.
  induction cs as [|[o n] r IH]; intros [|fuel] Hok Hs Hseg Hf; try (cbn [length] in Hf; lia); [done|].
  pose proof conf_size as HS. pose proof conf_base as HB. pose proof conf_end as HE.
  apply Forall_cons in Hok as [Hc Hok]. apply StronglySorted_cons in Hs as [Hcs Hs].
  destruct Hseg as (Hnx & Hn & Hseg). cbn [sane_loop addr fst snd] in *.
  pose proof (addr_pos _ Hc) as E. cbn [fst] in E. rewrite E. pose proof (chunk_ge _ Hc) as HG.
  destruct Hc as (A1 & A2 & A3 & A4 & A5). cbn [fst snd] in *.
  rewrite (proj2 (Z.leb_gt (base + SIZE) (base + o))), andb_false_r by lia.
  unfold unused_next, unused_size. rewrite (bb_get_word base _ o 8 (addr r 0)) by done.
  assert (negb (addr r 0 =? 0) && (addr r 0 <=? base + o) = false) as ->.
  { destruct r as [|d r]; [done|]. apply Forall_cons in Hcs as [Hd _]. unfold before in Hd. cbn [addr fst snd] in *.
    rewrite (proj2 (Z.leb_gt _ _)) by lia. apply andb_false_r. }
  rewrite (bb_get_word base _ (o + 8) 4 n) by (done || lia).
  replace (base + o - base) with o by lia. rewrite (wrap_small 64 (SIZE - o)) by (unfold uint; lia).
  destruct r as [|d r].
  - cbn [addr]. rewrite Z.eqb_refl. cbn [orb andb negb]. unfold ends. cbn [last fst snd].
    destruct (Z.eqb_spec n (SIZE - o)) as [->|Hne]; cbn [negb].
    + rewrite Z.add_sub_assoc, Z.add_simpl_l, Z.eqb_refl.
      apply (IH fuel Hok Hs Hseg). cbn [length] in *. lia.
    + rewrite (proj2 (Z.eqb_neq _ _)) by lia. done.
  - pose proof Hok as [Hd _]%Forall_cons. cbn [addr]. pose proof (addr_pos d Hd) as Ed. rewrite Ed.
    destruct Hd as (D1 & D2 & D3 & D4 & D5). apply Forall_cons in Hcs as [Hb _]. unfold before in Hb. cbn [fst snd] in Hb.
    rewrite wrap_small by (unfold uint; lia). rewrite (proj2 (Z.ltb_ge _ _)) by lia. cbn [orb andb].
    apply (IH fuel Hok Hs Hseg). cbn [length] in *. lia.
Qed.

Lemma is_sane_ok bl cs m first l : alloc_inv bl cs m first →
  gnrc_pktbuf_is_sane base SIZE (Pktbuf m first l) = Some (ends cs, Pktbuf m first l).
Proof.
  intros [Hly Hl -> Hseg]. unfold gnrc_pktbuf_is_sane. rewrite bb_get. cbn [_first_unused].
  apply sane_loop_ok; [|apply Hly|done|].
  - by pose proof (pt_ok _ (ly_parts _ _ Hly)) as [_ ?]%Forall_app.
  - apply (layout_fuel bl cs []). by rewrite app_nil_r.
Qed.
End Allocator.
