(* ===== verification/PktbufHeap.v ===== *)
(** * Snips in the packet buffer

    The snips of all packets, as a map from addresses to their contents; the
    invariant says that the allocated blocks are those of the snips and of [bl],
    blocks whose contents are not fixed.  Blocks are allocated, written, turned
    into snips and back, and freed. *)

From S2P Require Import Prelude Bytes Buffers Pktbuf PktbufAlloc.

Record snip := Snip { sn_next : Z; sn_data : Z; sn_bytes : list Z; sn_users : Z; sn_type : Z }.

Definition with_next (v : Z) (sn : snip) : snip := Snip v (sn_data sn) (sn_bytes sn) (sn_users sn) (sn_type sn).
Definition with_users (v : Z) (sn : snip) : snip := Snip (sn_next sn) (sn_data sn) (sn_bytes sn) v (sn_type sn).
Definition with_data (d : Z) (bs : list Z) (sn : snip) : snip := Snip (sn_next sn) d bs (sn_users sn) (sn_type sn).

Definition sn_size (sn : snip) : Z := Z.of_nat (length (sn_bytes sn)).

Section Heap.
Context (base SIZE : Z) `{!BufferConf base SIZE}.
Abbreviation alloc_inv := (alloc_inv base SIZE).
Abbreviation layout := (layout SIZE).

(** The blocks of a snip. *)
Definition data_blocks (d : Z) (bs : list Z) : list chunk :=
  if decide (bs = []) then [] else [(d - base, _align (Z.of_nat (length bs)))].

Definition snip_blocks (p : Z) (sn : snip) : list chunk :=
  (p - base, sizeof_pktsnip) :: data_blocks (sn_data sn) (sn_bytes sn).

Definition blocks (h : gmap Z snip) : list chunk := concat ((λ x, snip_blocks x.1 x.2) <$> map_to_list h).

Lemma blocks_insert h p sn : h !! p = None → blocks (<[p := sn]> h) ≡ₚ snip_blocks p sn ++ blocks h.
Proof. intros Hp. unfold blocks. by rewrite map_to_list_insert. Qed.

Lemma blocks_delete h p sn : h !! p = Some sn → blocks h ≡ₚ snip_blocks p sn ++ blocks (delete p h).
Proof. intros Hp. rewrite <- (insert_delete_id h p sn Hp) at 1. apply blocks_insert, lookup_delete_eq. Qed.

Lemma blocks_elem h p sn c : h !! p = Some sn → c ∈ snip_blocks p sn → c ∈ blocks h.
Proof. intros Hp Hc. rewrite (blocks_delete h p sn Hp). apply elem_of_app. by left. Qed.

(** The snip [sn] at [p] in memory. *)
Record snip_at (m : list Z) (p : Z) (sn : snip) : Prop := {
  sa_next : word_at m (p - base) 8 (sn_next sn);
  sa_data : word_at m (p - base + 8) 8 (sn_data sn);
  sa_size : word_at m (p - base + 16) 8 (sn_size sn);
  sa_users : word_at m (p - base + 24) 4 (sn_users sn);
  sa_type : word_at m (p - base + 28) 4 (u32 (sn_type sn));
  sa_type_range : - 2 ^ 31 ≤ sn_type sn < 2 ^ 31;
  sa_used : 0 < sn_users sn;
  sa_null : sn_bytes sn = [] → sn_data sn = 0;
  sa_bytes : sn_bytes sn ≠ [] → load m (sn_data sn - base) (sn_size sn) = Some (sn_bytes sn)
}.

(** The part of memory in [o .. o+n-1] is the same. *)
Definition same (m m' : list Z) (c : chunk) : Prop :=
  ∀ o n, c.1 ≤ o → o + n ≤ c.1 + c.2 → load m' o n = load m o n.

Lemma same_word m m' c o n v : same m m' c → c.1 ≤ o → o + Z.of_nat n ≤ c.1 + c.2 → word_at m o n v → word_at m' o n v.
Proof. intros Hs H1 H2 [Hl Hv]. split; [|done]. by rewrite Hs. Qed.

Lemma agree_same W m m' c : agree W m m' → (∀ i, c.1 ≤ i < c.1 + c.2 → ¬ W i) → same m m' c.
Proof. intros Ha Hd o n Ho Hn. apply (agree_load W); [done|]. intros i Hi. apply Hd. lia. Qed.

Lemma snip_at_same m m' p sn : Forall (same m m') (snip_blocks p sn) → sn_size sn < 2 ^ 63 →
  snip_at m p sn → snip_at m' p sn.
Proof.
  intros [Hp Hd]%Forall_cons Hsize [H1 H2 H3 H4 H5 H6 H7 H8 H9].
  split; try done; try (eapply same_word; [exact Hp| | |done]; cbn [fst snd]; unfold sizeof_pktsnip; lia).
  intros Hne. specialize (H9 Hne). unfold data_blocks in Hd. rewrite decide_False in Hd by done.
  apply Forall_cons in Hd as [Hd _]. rewrite Hd; [done|cbn [fst snd]; lia..|].
  cbn [fst snd]. pose proof (align_bounds (sn_size sn)) as Hal. unfold sn_size in *. lia.
Qed.

(** ** The invariant *)

Record heap_inv (bl : list chunk) (h : gmap Z snip) (cs : list chunk) (m : list Z) (first : Z) : Prop := {
  hi_alloc : alloc_inv (bl ++ blocks h) cs m first;
  hi_snips : ∀ p sn, h !! p = Some sn → snip_at m p sn;
  hi_sizes : ∀ p sn, h !! p = Some sn → sn_size sn < 2 ^ 63
}.

Lemma heap_layout bl h cs m first : heap_inv bl h cs m first → layout (bl ++ blocks h) cs.
Proof. intros [[Hl _ _ _] _ _]. exact Hl. Qed.

Lemma heap_ok bl h cs m first : heap_inv bl h cs m first →
  Forall (chunk_ok SIZE) (bl ++ blocks h) ∧ disjoint_all (bl ++ blocks h) ∧ Z.of_nat (length m) = SIZE.
Proof.
  intros [[[Hp _] Hm _ _] _ _]. split_and!; [|by apply (pt_disj _ _) in Hp as [? _]%disjoint_app|done].
  by pose proof (pt_ok _ _ Hp) as [? _]%Forall_app.
Qed.

Lemma heap_perm bl bl' h cs m first : bl ≡ₚ bl' → heap_inv bl h cs m first → heap_inv bl' h cs m first.
Proof.
  intros Hp [[Hl H1 H2 H3] H4 H5]. split; [split|..]; try done. eapply layout_perm; [|exact Hl]. by rewrite Hp.
Qed.

(** Blocks that lie outside the memory written. *)
Lemma disjoint_same W m m' bl (l : list chunk) : agree W m m' → (∀ i, W i → ∃ c, c ∈ l ∧ c.1 ≤ i < c.1 + c.2) →
  Forall (λ x, Forall (disj x) bl) l → Forall (same m m') bl.
Proof.
  intros Ha HW Hd. apply Forall_forall. intros x Hx. apply (agree_same W); [done|]. intros i Hi Hw.
  destruct (HW i Hw) as (c & Hc & Hci). rewrite Forall_forall in Hd. specialize (Hd c Hc).
  rewrite Forall_forall in Hd. specialize (Hd x Hx). unfold disj in Hd. lia.
Qed.

Lemma snips_same m m' (h : gmap Z snip) : Forall (same m m') (blocks h) → (∀ p sn, h !! p = Some sn → sn_size sn < 2 ^ 63) →
  (∀ p sn, h !! p = Some sn → snip_at m p sn) → ∀ p sn, h !! p = Some sn → snip_at m' p sn.
Proof.
  intros Hs Hsize Hat p sn Hp. apply (snip_at_same m); [|by eapply Hsize|by apply Hat].
  apply Forall_forall. intros c Hc. rewrite Forall_forall in Hs. apply Hs. by eapply blocks_elem.
Qed.

(** ** Allocating and freeing *)

Lemma heap_alloc bl h cs m first l size : heap_inv bl h cs m first → 0 < size < 2 ^ 63 →
  ∃ p cs' m' first', _pktbuf_alloc base SIZE size (Pktbuf m first l) = Some (p, Pktbuf m' first' l) ∧
    (p = 0 ∧ Forall (λ c, c.2 < _align size) cs ∧ cs' = cs ∧ m' = m ∧ first' = first ∨
     ∃ o, p = base + o ∧ 0 ≤ o ∧ heap_inv ((o, _align size) :: bl) h cs' m' first' ∧ Forall (same m m') bl ∧
       ∃ a k r, cs = a ++ (o, k) :: r ∧ _align size ≤ k ∧ cs' = a ++ rest o (_align size) k ++ r).
Proof.
  intros [Ha Hs Hz] Hsize. destruct (alloc_ok base SIZE size _ _ _ _ l Ha Hsize) as (p & cs' & m' & first' & Hrun & Hres).
  exists p, cs', m', first'. split; [done|]. destruct Hres as [(-> & Hno & -> & -> & ->)|(a & o & k & r & -> & Ho & -> & _ & Hk & -> & Hai & Hag)].
  - left. done.
  - right. exists o. split; [done|]. split; [done|].
    assert (Forall (same m m') (bl ++ blocks h)) as Hsame.
    { pose proof (ai_layout _ _ _ _ _ _ Ha) as Hly.
      apply Forall_forall. intros c Hc o' n' Ho' Hn'. destruct c as [co cn].
      by apply (block_kept SIZE (bl ++ blocks h) (a ++ (o, k) :: r) m m' co cn). }
    apply Forall_app in Hsame as [Hs1 Hs2]. split; [|split; [done|by exists a, k, r]].
    split; [done| |done]. by apply (snips_same m).
Qed.

Lemma heap_free bl h cs m first l o n size : heap_inv ((o, n) :: bl) h cs m first → _align size = n →
  ∃ cs' m' first', _pktbuf_free base SIZE (base + o) size (Pktbuf m first l) = Some (tt, Pktbuf m' first' l) ∧
    heap_inv bl h cs' m' first' ∧ Forall (same m m') bl.
Proof.
  intros [Ha Hs Hz] Hsize. cbn [app] in Ha.
  destruct (free_ok base SIZE size _ _ _ _ l _ _ Ha Hsize) as (cs' & m' & first' & Hrun & Hai & Hag).
  exists cs', m', first'. split; [done|].
  assert (Forall (same m m') (bl ++ blocks h)) as Hsame.
  { apply (disjoint_same (inside ((o, n) :: cs)) m m' _ ((o, n) :: cs)); [done|done|].
    pose proof (pt_disj _ _ (ly_parts _ _ _ (ai_layout _ _ _ _ _ _ Ha))) as [Hd1 (_ & _ & Hd2)%disjoint_app].
    constructor; [by apply Forall_app in Hd1 as [? _]|]. apply Forall_forall. intros c Hc. apply Forall_forall. intros x Hx.
    rewrite Forall_forall in Hd2. specialize (Hd2 x Hx). rewrite Forall_forall in Hd2. apply disj_sym, Hd2, Hc. }
  apply Forall_app in Hsame as [Hs1 Hs2]. split; [|done]. split; [done| |done]. by apply (snips_same m).
Qed.

(** Writing into a block. *)
Lemma heap_write bl h cs m first m' c : heap_inv (c :: bl) h cs m first → agree (λ i, c.1 ≤ i < c.1 + c.2) m m' →
  heap_inv (c :: bl) h cs m' first ∧ Forall (same m m') bl.
Proof.
  intros [[Hly Hl Hf Hseg] Hs Hz] Hag. cbn [app] in Hly.
  pose proof (ly_parts _ _ _ Hly) as Hp. pose proof (pt_disj _ _ Hp) as [[Hd Hdc]%Forall_app _].
  pose proof (pt_ok _ _ Hp) as [_ [_ Hok]%Forall_app]%Forall_cons.
  assert (Forall (same m m') (bl ++ blocks h)) as Hsame.
  { apply (disjoint_same _ m m' _ [c] Hag); [|by constructor]. intros i Hi. exists c. split; [by left|done]. }
  apply Forall_app in Hsame as [Hs1 Hs2]. split; [|done]. split; [split|by apply (snips_same m)|done]; try done.
  - destruct Hag as [-> _]. done.
  - eapply seg_agree; [exact Hag| |exact Hseg]. apply Forall_forall. intros d Hd' i Hi.
    rewrite Forall_forall in Hdc, Hok. specialize (Hdc d Hd'). pose proof (chunk_ge SIZE d (Hok d Hd')).
    unfold disj in Hdc. lia.
Qed.

(** Turning a snip into its blocks, and blocks into a snip. *)
Lemma heap_elim bl h cs m first p sn : h !! p = Some sn → heap_inv bl h cs m first →
  heap_inv (snip_blocks p sn ++ bl) (delete p h) cs m first ∧ snip_at m p sn.
Proof.
  intros Hp [[Hly Hl Hf Hseg] Hs Hz]. split; [|by apply Hs]. split; [split|..]; try done.
  - eapply layout_perm; [|exact Hly]. rewrite (blocks_delete h p sn Hp). rewrite !app_assoc. f_equiv. apply Permutation_app_comm.
  - intros q sq [_ Hq]%lookup_delete_Some. by apply Hs.
  - intros q sq [_ Hq]%lookup_delete_Some. by eapply Hz.
Qed.

Lemma heap_intro bl h cs m first p sn : heap_inv (snip_blocks p sn ++ bl) h cs m first → snip_at m p sn → sn_size sn < 2 ^ 63 →
  h !! p = None ∧ heap_inv bl (<[p := sn]> h) cs m first.
Proof.
  intros Hinv Hat Hsize. pose proof (heap_ok _ _ _ _ _ Hinv) as (Hok & Hd & _).
  destruct Hinv as [[Hly Hl Hf Hseg] Hs Hz].
  assert (h !! p = None) as Hnone.
  { destruct (h !! p) as [sq|] eqn:Hq; [|done]. exfalso. cbn [snip_blocks app disjoint_all] in Hd. destruct Hd as [Hd _].
    rewrite Forall_forall in Hd. specialize (Hd (p - base, sizeof_pktsnip)).
    assert ((p - base, sizeof_pktsnip) ∈ data_blocks (sn_data sn) (sn_bytes sn) ++ bl ++ blocks h) as Hin.
    { rewrite !elem_of_app. right. right. eapply blocks_elem; [exact Hq|by left]. }
    rewrite <- app_assoc in Hd. specialize (Hd Hin). unfold disj, sizeof_pktsnip in Hd. cbn [fst snd] in Hd. lia. }
  split; [done|]. split; [split|..]; try done.
  - eapply layout_perm; [|exact Hly]. rewrite (blocks_insert h p sn Hnone). rewrite !app_assoc. f_equiv. apply Permutation_app_comm.
  - intros q sq [[<- <-]|[_ Hq]]%lookup_insert_Some; [done|by apply Hs].
  - intros q sq [[<- <-]|[_ Hq]]%lookup_insert_Some; [done|by eapply Hz].
Qed.

(** ** Reading and writing snips *)

Section Fields.
Context {C : Type} (m : list Z) (fu : Z) (l : bool) (p : Z) (sn : snip) (Hat : snip_at m p sn).
Implicit Types f : Z → B C.

Lemma bb_snip_next f : (snip_next base p ≫= f) (Pktbuf m fu l) = f (sn_next sn) (Pktbuf m fu l).
Proof. apply (bb_get_word base _ (p - base)); [lia|apply Hat]. Qed.

Lemma bb_snip_data f : (snip_data base p ≫= f) (Pktbuf m fu l) = f (sn_data sn) (Pktbuf m fu l).
Proof. apply (bb_get_word base _ (p - base + 8)); [lia|apply Hat]. Qed.

Lemma bb_snip_size f : (snip_size base p ≫= f) (Pktbuf m fu l) = f (sn_size sn) (Pktbuf m fu l).
Proof. apply (bb_get_word base _ (p - base + 16)); [lia|apply Hat]. Qed.

Lemma bb_snip_users f : (snip_users base p ≫= f) (Pktbuf m fu l) = f (sn_users sn) (Pktbuf m fu l).
Proof. apply (bb_get_word base _ (p - base + 24)); [lia|apply Hat]. Qed.

Lemma bb_snip_type f : (snip_type base p ≫= f) (Pktbuf m fu l) = f (sn_type sn) (Pktbuf m fu l).
Proof.
  unfold snip_type. rewrite bb_assoc, (bb_get_word base _ (p - base + 28) 4 (u32 (sn_type sn))) by (apply Hat || lia).
  rewrite bb_ret. f_equal. pose proof (sa_type_range _ _ _ Hat) as Hr. unfold swrap, wrap.
  rewrite Zplus_mod_idemp_l, Z.mod_small by lia. lia.
Qed.
End Fields.

Lemma desc_fits m p sn bl h cs first : heap_inv bl h cs m first → h !! p = Some sn →
  0 ≤ p - base ∧ p - base + 32 ≤ SIZE ∧ p ≠ 0 ∧ uint 64 p.
Proof.
  intros Hinv Hp. pose proof (heap_ok _ _ _ _ _ Hinv) as ([_ Hok]%Forall_app & _ & _).
  rewrite Forall_forall in Hok. specialize (Hok (p - base, sizeof_pktsnip)).
  destruct Hok as (H1 & _ & _ & _ & H5); [by eapply blocks_elem; [exact Hp|left]|]. unfold sizeof_pktsnip in H5. cbn [fst snd] in *.
  pose proof conf_base. pose proof conf_end. unfold uint. lia.
Qed.

(** Changing the fields of a snip but not its data. *)
Lemma heap_modify bl h cs m first p sn sn' m' : heap_inv bl h cs m first → h !! p = Some sn →
  agree (λ i, p - base ≤ i < p - base + 32) m m' →
  (snip_at m p sn → snip_at m' p sn') → sn_bytes sn' = sn_bytes sn → sn_data sn' = sn_data sn →
  heap_inv bl (<[p := sn']> h) cs m' first ∧ Forall (same m m') bl.
Proof.
  intros Hinv Hp Hag Hat Hb Hd. assert (sn_size sn' < 2 ^ 63) as Hz.
  { unfold sn_size. rewrite Hb. by apply (hi_sizes _ _ _ _ _ Hinv p). }
  destruct (heap_elim _ _ _ _ _ p sn Hp Hinv) as [Hraw Hsn]. cbn [snip_blocks app] in Hraw.
  destruct (heap_write _ _ _ _ _ m' (p - base, sizeof_pktsnip) Hraw Hag) as [Hraw' Hsame].
  apply Forall_app in Hsame as [_ Hsame]. split; [|done].
  rewrite <- insert_delete_eq. apply heap_intro; [|by apply Hat|done].
  unfold snip_blocks. rewrite Hb, Hd. exact Hraw'.
Qed.

(** The fields of a descriptor after a word of it was written. *)
Lemma data_same m m' p sn bl h cs first : heap_inv bl h cs m first → h !! p = Some sn →
  agree (λ i, p - base ≤ i < p - base + 32) m m' → sn_bytes sn ≠ [] →
  load m' (sn_data sn - base) (sn_size sn) = load m (sn_data sn - base) (sn_size sn).
Proof.
  intros Hinv Hp Hag Hne. pose proof (hi_sizes _ _ _ _ _ Hinv p sn Hp) as Hz.
  destruct (heap_elim _ _ _ _ _ p sn Hp Hinv) as [Hraw _]. cbn [snip_blocks app] in Hraw.
  destruct (heap_write _ _ _ _ _ m' (p - base, sizeof_pktsnip) Hraw Hag) as [_ [Hs _]%Forall_app].
  unfold data_blocks in Hs. rewrite decide_False in Hs by done. apply Forall_cons in Hs as [Hs _].
  apply Hs; cbn [fst snd]; [lia|]. pose proof (align_bounds (sn_size sn)). unfold sn_size in *. lia.
Qed.

Lemma set_snip_next_ok {C} bl h cs m first l p sn v (f : unit → B C) : heap_inv bl h cs m first → h !! p = Some sn → uint 64 v →
  ∃ m', (set_snip_next base p v ≫= f) (Pktbuf m first l) = f tt (Pktbuf m' first l) ∧
    heap_inv bl (<[p := with_next v sn]> h) cs m' first ∧ Forall (same m m') bl.
Proof.
  intros Hinv Hp Hv. pose proof (desc_fits _ _ _ _ _ _ _ Hinv Hp) as (F1 & F2 & _ & _).
  pose proof (heap_ok _ _ _ _ _ Hinv) as (_ & _ & Hlen).
  set (m' := put_word m (p - base) 8 v). exists m'. split; [apply bb_set_word; [lia|unfold fits; lia]|].
  assert (agree (λ i, p - base ≤ i < p - base + 32) m m') as Hag by (apply agree_put_word; [apply agree_refl|lia]).
  apply (heap_modify bl h cs m first p sn); [done..| |done|done]. intros [H1 H2 H3 H4 H5 H6 H7 H8 H9].
  split; try done; try (apply word_put_other; [lia|done]).
  - apply word_put_same; [unfold fits; lia|done].
  - intros Hne. change (sn_data (with_next v sn)) with (sn_data sn). change (sn_size (with_next v sn)) with (sn_size sn).
    rewrite (data_same m m' p sn bl h cs first) by done. by apply H9.
Qed.

Lemma set_users_ok {C} bl h cs m first l p sn v (f : unit → B C) : heap_inv bl h cs m first → h !! p = Some sn → 0 < v < 2 ^ 32 →
  ∃ m', (set_snip_users base p v ≫= f) (Pktbuf m first l) = f tt (Pktbuf m' first l) ∧
    heap_inv bl (<[p := with_users v sn]> h) cs m' first ∧ Forall (same m m') bl.
Proof.
  intros Hinv Hp Hv. pose proof (desc_fits _ _ _ _ _ _ _ Hinv Hp) as (F1 & F2 & _ & _).
  pose proof (heap_ok _ _ _ _ _ Hinv) as (_ & _ & Hlen).
  set (m' := put_word m (p - base + 24) 4 v). exists m'. split; [apply bb_set_word; [lia|unfold fits; lia]|].
  assert (agree (λ i, p - base ≤ i < p - base + 32) m m') as Hag by (apply agree_put_word; [apply agree_refl|lia]).
  apply (heap_modify bl h cs m first p sn); [done..| |done|done]. intros [H1 H2 H3 H4 H5 H6 H7 H8 H9].
  split; try done; try (apply word_put_other; [lia|done]).
  - apply (word_put_same m (p - base + 24) 4 v); [unfold fits; lia|unfold uint; change (8 * Z.of_nat 4) with 32; lia].
  - cbn. lia.
  - intros Hne. change (sn_data (with_users v sn)) with (sn_data sn). change (sn_size (with_users v sn)) with (sn_size sn).
    rewrite (data_same m m' p sn bl h cs first) by done. by apply H9.
Qed.

(** Writing a whole descriptor into a block. *)
Lemma set_pktsnip_ok {C} bl h cs m first l o next data bs type (f : unit → B C) :
  heap_inv ((o, sizeof_pktsnip) :: data_blocks data bs ++ bl) h cs m first →
  uint 64 next → uint 64 data → Z.of_nat (length bs) < 2 ^ 63 → - 2 ^ 31 ≤ type < 2 ^ 31 →
  (bs = [] → data = 0) → (bs ≠ [] → load m (data - base) (Z.of_nat (length bs)) = Some bs) →
  let sn := Snip next data bs 1 type in
  ∃ m', (_set_pktsnip base (base + o) next data (Z.of_nat (length bs)) type ≫= f) (Pktbuf m first l) = f tt (Pktbuf m' first l) ∧
    h !! (base + o) = None ∧ heap_inv bl (<[base + o := sn]> h) cs m' first ∧ Forall (same m m') bl.
Proof.
  intros Hinv Hnext Hdata Hsize Htype Hnull Hbytes sn.
  pose proof (heap_ok _ _ _ _ _ Hinv) as ([(F1 & _ & _ & _ & F2) _]%Forall_cons & _ & Hlen). cbn [fst snd] in F1, F2.
  unfold sizeof_pktsnip in F2.
  unfold _set_pktsnip, set_snip_next, set_snip_data, set_snip_size, set_snip_type, set_snip_users.
  rewrite bb_assoc, (bb_set_word base _ o) by (unfold fits; lia).
  rewrite bb_assoc, (bb_set_word base _ (o + 8)) by (unfold fits; rewrite ?put_word_length; lia).
  rewrite bb_assoc, (bb_set_word base _ (o + 16)) by (unfold fits; rewrite ?put_word_length; lia).
  rewrite bb_assoc, (bb_set_word base _ (o + 28)) by (unfold fits; rewrite ?put_word_length; lia).
  rewrite (bb_set_word base _ (o + 24)) by (unfold fits; rewrite ?put_word_length; lia).
  match goal with |- ∃ m', f tt (Pktbuf ?x _ _) = _ ∧ _ => set (m' := x) end. exists m'. split; [done|].
  assert (agree (λ i, o ≤ i < o + 32) m m') as Hag.
  { repeat (apply agree_put_word; [|lia]). apply agree_refl. }
  destruct (heap_write _ _ _ _ _ m' (o, sizeof_pktsnip) Hinv Hag) as [Hraw Hsame].
  apply Forall_app in Hsame as [Hsd Hsame].
  assert (snip_at m' (base + o) sn) as Hat.
  { assert (base + o - base = o) as Eo by lia. unfold uint in *. subst m'.
    split; rewrite ?Eo; cbn [sn_next sn_data sn_size sn_bytes sn_users sn_type sn]; try done.
    - do 4 (apply word_put_other; [lia|]). apply word_put_same; [unfold fits; lia|done].
    - do 3 (apply word_put_other; [lia|]). apply word_put_same; [unfold fits; rewrite ?put_word_length; lia|done].
    - do 2 (apply word_put_other; [lia|]). apply word_put_same; [unfold fits; rewrite ?put_word_length; lia|].
      unfold uint, sn_size. cbn [sn_bytes sn]. change (8 * Z.of_nat 8) with 64. lia.
    - apply word_put_same; [unfold fits; rewrite ?put_word_length; lia|unfold uint; change (8 * Z.of_nat 4) with 32; lia].
    - apply word_put_other; [lia|]. apply word_put_same; [unfold fits; rewrite ?put_word_length; lia|].
      apply wrap_range. lia.
    - intros Hne. unfold sn_size. cbn [sn_bytes sn]. rewrite <- (Hbytes Hne).
      unfold data_blocks in Hsd. rewrite decide_False in Hsd by done. apply Forall_cons in Hsd as [Hsd _].
      apply Hsd; cbn [fst snd]; [lia|]. pose proof (align_bounds (Z.of_nat (length bs))). lia. }
  destruct (heap_intro bl h cs m' first (base + o) sn) as [Hnone Hinv']; [| |done|done].
  - cbn [snip_blocks app sn_data sn_bytes sn]. replace (base + o - base) with o by lia. exact Hraw.
  - done.
Qed.
End Heap.
