(* ===== verification/PktbufProof.v ===== *)
(** * Correctness of the packet buffer

    What the calls of the packet buffer do to the snips: every call keeps the
    invariant, accesses no memory outside the buffer, releases the mutex, and
    changes the packets as its description says. *)

From stdpp Require Import sorting.
From S2P Require Import Prelude Bytes Buffers Pktbuf PktbufAlloc PktbufHeap.

(** ** Copying *)

Lemma load_split m o n c : load m o n = Some c →
  ∃ pre post, m = pre ++ c ++ post ∧ o = Z.of_nat (length pre) ∧ n = Z.of_nat (length c).
Proof.
  intros Hload. destruct (load_Some _ _ _ _ Hload) as [(H1 & H2 & H3) _]. rewrite (load_fits m o n) in Hload by done.
  injection Hload as <-. exists (take (Z.to_nat o) m), (drop (Z.to_nat n) (drop (Z.to_nat o) m)).
  split; [by rewrite !take_drop|]. rewrite !length_take, length_drop. lia.
Qed.

Lemma load_sub m o n pre bs post : load m o n = Some (pre ++ bs ++ post) →
  load m (o + Z.of_nat (length pre)) (Z.of_nat (length bs)) = Some bs.
Proof.
  intros (a & b & -> & -> & _)%load_split.
  replace (a ++ (pre ++ bs ++ post) ++ b) with ((a ++ pre) ++ bs ++ post ++ b) by (by rewrite <- !app_assoc).
  rewrite <- Nat2Z.inj_add, <- length_app. apply load_mid.
Qed.

Lemma store_length a k bs a' : store a k bs = Some a' → length a' = length a.
Proof. intros H. pose proof (put_length a k bs) as Hp. unfold put in Hp. by rewrite H in Hp. Qed.

(** Writing into a part of a range. *)
Lemma load_put_inside m o n c k bs : load m o n = Some c → 0 ≤ k → k + Z.of_nat (length bs) ≤ n →
  load (put m (o + k) bs) o n = store c k bs.
Proof.
  intros (pre & post & -> & -> & ->)%load_split Hk Hn.
  destruct (split_at c (Z.to_nat k) ltac:(lia)) as (c1 & c2 & -> & Hc1). rewrite length_app in Hn.
  destruct (split_at c2 (length bs) ltac:(lia)) as (old & c3 & -> & Hold).
  replace k with (Z.of_nat (length c1)) by lia. rewrite store_mid by done.
  unfold put. replace (Z.of_nat (length pre) + Z.of_nat (length c1)) with (Z.of_nat (length (pre ++ c1))) by (rewrite length_app; lia).
  replace (pre ++ (c1 ++ old ++ c3) ++ post) with ((pre ++ c1) ++ old ++ c3 ++ post) by (by rewrite <- !app_assoc).
  rewrite store_mid by done. cbn [default from_option id].
  replace ((pre ++ c1) ++ bs ++ c3 ++ post) with (pre ++ (c1 ++ bs ++ c3) ++ post) by (by rewrite <- !app_assoc).
  replace (length (c1 ++ old ++ c3)) with (length (c1 ++ bs ++ c3)) by (rewrite !length_app; lia). apply load_mid.
Qed.

(** Permutations of lists with the same tail. *)
Ltac perm_find x l pre r :=
  lazymatch r with
  | x :: ?post => apply (@Permutation_cons_app chunk l pre post x)
  | ?y :: ?r' => perm_find x l (pre ++ [y]) r'
  end.

Ltac perm_cons :=
  cbn [app];
  lazymatch goal with
  | |- ?l ≡ₚ ?l => reflexivity
  | |- ?x :: ?l ≡ₚ ?r => perm_find x l (@nil chunk) r; perm_cons
  end.

Section Packets.
Context (base SIZE : Z) `{!BufferConf base SIZE}.
Abbreviation heap_inv := (heap_inv base SIZE).
Abbreviation snip_at := (snip_at base).
Abbreviation blocks := (blocks base).

(** The data of a source, when the snips are [h]. *)
Definition source_ok (h : gmap Z snip) (src : source) (bs : list Z) : Prop :=
  match src with
  | SNull => True
  | SOut l => load l 0 (Z.of_nat (length bs)) = Some bs
  | SIn p => ∃ q sn pre post, h !! q = Some sn ∧ sn_bytes sn = pre ++ bs ++ post ∧
      p = sn_data sn + Z.of_nat (length pre)
  end.

(** Copying a source into the block [(o, n)], at offset [k] of its contents [c]. *)
Lemma memcpy_ok bl h cs m first l o n c k dst src bs :
  heap_inv ((o, n) :: bl) h cs m first → load m o (Z.of_nat (length c)) = Some c → Z.of_nat (length c) ≤ n →
  dst = base + o + k → 0 ≤ k → k + Z.of_nat (length bs) ≤ Z.of_nat (length c) →
  (bs ≠ [] → source_ok h src bs ∧ src ≠ SNull) →
  ∃ m' c', memcpy base dst src (Z.of_nat (length bs)) (Pktbuf m first l) = Some (tt, Pktbuf m' first l) ∧
    heap_inv ((o, n) :: bl) h cs m' first ∧ Forall (same m m') bl ∧
    store c k bs = Some c' ∧ load m' o (Z.of_nat (length c)) = Some c'.
Proof.
  intros Hinv Hc Hcn -> Hk Hkn Hsrc. unfold memcpy. destruct (Z.eqb_spec (Z.of_nat (length bs)) 0) as [E|E].
  - destruct bs; [|done]. exists m, c. split; [done|]. split; [done|]. split; [by apply Forall_forall|].
    split; [|done]. apply store_nil. lia.
  - destruct Hsrc as [Hsrc Hnn]; [by intros ->|].
    pose proof (heap_ok _ _ _ _ _ _ _ Hinv) as ([(F1 & _ & _ & _ & F2) _]%Forall_cons & _ & Hlen). cbn [fst snd] in F1, F2.
    set (m' := put m (o + k) bs).
    assert (poke base (base + o + k) bs (Pktbuf m first l) = Some (tt, Pktbuf m' first l)) as Hpoke.
    { unfold poke. cbn [_pktbuf]. replace (base + o + k - base) with (o + k) by lia.
      rewrite store_put by (unfold fits; lia). done. }
    assert (agree (λ i, o ≤ i < o + n) m m') as Hag by (apply agree_put; [apply agree_refl|lia]).
    destruct (heap_write _ _ _ _ _ _ _ m' (o, n) Hinv Hag) as [Hinv' Hsame].
    pose proof (load_put_inside m o _ c k bs Hc Hk Hkn) as Hload.
    fold m' in Hload. exists m', (put c k bs). rewrite Hload, store_put by (unfold fits; lia). split; [|done].
    destruct src as [|out|q]; [done| |].
    + cbn [source_ok] in Hsrc. rewrite Hsrc. exact Hpoke.
    + destruct Hsrc as (q' & sn & pre & post & Hq & Hbs & ->).
      pose proof (sa_bytes _ _ _ _ (hi_snips _ _ _ _ _ _ _ Hinv q' sn Hq)) as Hb.
      rewrite (bbind_ok _ _ _ bs (Pktbuf m first l)); [done|].
      unfold peek. cbn [_pktbuf]. replace (sn_data sn + Z.of_nat (length pre) - base) with (sn_data sn - base + Z.of_nat (length pre)) by lia.
      rewrite (load_sub m (sn_data sn - base) (sn_size sn) pre bs post); [done|]. rewrite <- Hbs. apply Hb.
      intros E0. rewrite E0 in Hbs. destruct pre; [|done]. by destruct bs.
Qed.

(** ** Adding snips *)

(** The outcome of making a snip: none, or a new one with one user and the data. *)
Definition created (h : gmap Z snip) (next : Z) (src : source) (bs : list Z) (type : Z) (p : Z) (h' : gmap Z snip) : Prop :=
  p = 0 ∧ h' = h ∨
  p ≠ 0 ∧ h !! p = None ∧ ∃ d bs', length bs' = length bs ∧ (src ≠ SNull → bs' = bs) ∧
    h' = <[p := Snip next d bs' 1 type]> h.

Lemma room_mono (cs : list chunk) n n' : Forall (λ c, c.2 < n) cs → n ≤ n' → Forall (λ c, c.2 < n') cs.
Proof. intros H Hn. eapply Forall_impl; [exact H|]. cbn beta. lia. Qed.

Lemma rest_room (cs a r : list chunk) o n1 n2 k : cs = a ++ (o, k) :: r → Forall (λ c, c.2 < n2) (a ++ rest o n1 k ++ r) →
  0 < n1 → 0 < n2 → Forall (λ c, c.2 < n1 + n2) cs.
Proof.
  intros -> [Ha [Ho Hr]%Forall_app]%Forall_app H1 H2.
  assert (∀ l : list chunk, Forall (λ c, c.2 < n2) l → Forall (λ c, c.2 < n1 + n2) l) as Hmono.
  { intros l Hl. eapply Forall_impl; [exact Hl|]. cbn beta. lia. }
  apply Forall_app. split; [by apply Hmono|]. constructor; [|by apply Hmono]. cbn [snd].
  unfold rest in Ho. destruct (Z.eqb_spec k n1); [lia|]. apply Forall_cons in Ho as [Ho _]. cbn [snd] in Ho. lia.
Qed.

Lemma load_block bl h cs m first o n k : heap_inv ((o, n) :: bl) h cs m first → 0 ≤ k ≤ n →
  ∃ c, load m o k = Some c ∧ Z.of_nat (length c) = k.
Proof.
  intros Hinv Hk. pose proof (heap_ok _ _ _ _ _ _ _ Hinv) as ([(F1 & _ & _ & _ & F2) _]%Forall_cons & _ & Hlen).
  cbn [fst snd] in F1, F2. assert (fits m o k) as Hf by (unfold fits; lia).
  exists (take (Z.to_nat k) (drop (Z.to_nat o) m)). split; [by apply load_fits|].
  rewrite length_take, length_drop. lia.
Qed.

Lemma pointer_range o n bl h cs m first : heap_inv ((o, n) :: bl) h cs m first → uint 64 (base + o) ∧ base + o ≠ 0.
Proof.
  intros Hinv. pose proof (heap_ok _ _ _ _ _ _ _ Hinv) as ([(F1 & _ & _ & F3 & F2) _]%Forall_cons & _ & _). cbn [fst snd] in *.
  pose proof conf_base. pose proof conf_end. unfold uint. lia.
Qed.

Lemma store_all c bs : length bs = length c → store c 0 bs = Some bs.
Proof. intros Hl. pose proof (store_prefix c bs [] (eq_sym Hl)) as H. by rewrite !app_nil_r in H. Qed.

Lemma align_pktsnip : _align sizeof_pktsnip = sizeof_pktsnip.
Proof. reflexivity. Qed.

Lemma create_snip_ok bl h cs m first l next src bs type : heap_inv bl h cs m first → uint 64 next →
  Z.of_nat (length bs) < 2 ^ 63 → - 2 ^ 31 ≤ type < 2 ^ 31 → (bs ≠ [] → source_ok h src bs) →
  ∃ p h' cs' m' first', _create_snip base SIZE next src (Z.of_nat (length bs)) type (Pktbuf m first l) =
      Some (p, Pktbuf m' first' l) ∧
    heap_inv bl h' cs' m' first' ∧ created h next src bs type p h' ∧ Forall (same m m') bl ∧
    (p = 0 → Forall (λ c, c.2 < sizeof_pktsnip + _align (Z.of_nat (length bs))) cs).
Proof.
  intros Hinv Hnext Hsize Htype Hsrc. unfold _create_snip.
  destruct (heap_alloc base SIZE bl h cs m first l sizeof_pktsnip Hinv ltac:(unfold sizeof_pktsnip; lia))
    as (p & cs1 & m1 & f1 & Hrun1 & Hres1). rewrite (bbind_ok _ _ _ _ _ Hrun1). rewrite align_pktsnip in Hres1.
  pose proof (align_bounds (Z.of_nat (length bs)) ltac:(lia)) as [Hal _].
  destruct Hres1 as [(-> & Hno & -> & -> & ->)|(o & -> & Ho & Hinv1 & Hsame1 & a & k & r & Hcs & Hk & Hcs1)].
  { exists 0, h, cs, m, first. split; [done|]. split; [done|]. split; [by left|]. split; [by apply Forall_forall|].
    intros _. eapply Forall_impl; [exact Hno|]. cbn beta. unfold sizeof_pktsnip. lia. }
  destruct (pointer_range _ _ _ _ _ _ _ Hinv1) as [Hp64 Hp0]. rewrite (proj2 (Z.eqb_neq _ _) Hp0).
  destruct (Z.ltb_spec 0 (Z.of_nat (length bs))) as [Hpos|Hzero].
  2: { assert (bs = []) as -> by (destruct bs; [done|cbn [length] in *; lia]). cbn [length Z.of_nat] in *.
    destruct (set_pktsnip_ok base SIZE bl h cs1 m1 f1 l o next 0 [] type (λ _, mret (base + o))) as (m2 & Hrun2 & Hnone & Hinv2 & Hsame2);
      try done; try (unfold uint; lia). cbv zeta in *.
    eexists (base + o), _, cs1, m2, f1. split; [exact Hrun2|]. split; [exact Hinv2|].
    split; [right; split; [done|]; split; [done|]; by exists 0, []|]. split; [|done].
    apply Forall_forall. intros c Hc o' n' Ho' Hn'. rewrite Forall_forall in Hsame1, Hsame2.
    by rewrite (Hsame2 c Hc), (Hsame1 c Hc). }
  destruct (heap_alloc base SIZE _ h cs1 m1 f1 l (Z.of_nat (length bs)) Hinv1 ltac:(lia))
    as (d & cs2 & m2 & f2 & Hrun2 & Hres2). rewrite (bbind_ok _ _ _ _ _ Hrun2).
  destruct Hres2 as [(-> & Hno & -> & -> & ->)|(od & -> & Hod & Hinv2 & Hsame2 & _)].
  - cbn [Z.eqb].
    destruct (heap_free base SIZE bl h cs1 m1 f1 l o sizeof_pktsnip sizeof_pktsnip Hinv1 align_pktsnip)
      as (cs3 & m3 & f3 & Hrun3 & Hinv3 & Hsame3). rewrite (bbind_ok _ _ _ _ _ Hrun3).
    exists 0, h, cs3, m3, f3. split; [done|]. split; [done|]. split; [by left|]. split.
    + apply Forall_forall. intros c Hc o' n' Ho' Hn'. rewrite Forall_forall in Hsame1, Hsame3.
      by rewrite (Hsame3 c Hc), (Hsame1 c Hc).
    + intros _. eapply rest_room; [exact Hcs|rewrite Hcs1 in Hno; exact Hno|unfold sizeof_pktsnip; lia|lia].
  - destruct (pointer_range _ _ _ _ _ _ _ Hinv2) as [Hd64 Hd0]. rewrite (proj2 (Z.eqb_neq _ _) Hd0).
    set (n := _align (Z.of_nat (length bs))) in *.
    destruct (load_block _ _ _ _ _ od n (Z.of_nat (length bs)) Hinv2 ltac:(lia)) as (c & Hc & Hcl).
    assert (∃ m3 bs', (∀ (K : unit → B Z), ((match src with SNull => mret tt | _ => memcpy base (base + od) src (Z.of_nat (length bs)) end) ≫= K)
        (Pktbuf m2 f2 l) = K tt (Pktbuf m3 f2 l)) ∧ heap_inv ((od, n) :: (o, sizeof_pktsnip) :: bl) h cs2 m3 f2 ∧
      Forall (same m2 m3) ((o, sizeof_pktsnip) :: bl) ∧ length bs' = length bs ∧ (src ≠ SNull → bs' = bs) ∧
      load m3 od (Z.of_nat (length bs')) = Some bs') as (m3 & bs' & Hrun3 & Hinv3 & Hsame3 & Hlen & Hbs & Hload).
    { assert (bs ≠ []) as Hne by (intros ->; done). specialize (Hsrc Hne). destruct src as [|out|q].
      - exists m2, c. split; [done|]. split; [done|]. split; [by apply Forall_forall|]. rewrite Hcl. split; [lia|by split].
      - destruct (memcpy_ok _ h cs2 m2 f2 l od n c 0 (base + od) (SOut out) bs Hinv2) as (m3 & c' & Hr & Hi & Hs & Hst & Hl);
          try done; try lia; [by rewrite Hcl|].
        rewrite store_all in Hst by lia. injection Hst as <-.
        exists m3, bs. split; [intros K; by apply bbind_ok|]. split_and!; try done. by rewrite <- Hcl.
      - destruct (memcpy_ok _ h cs2 m2 f2 l od n c 0 (base + od) (SIn q) bs Hinv2) as (m3 & c' & Hr & Hi & Hs & Hst & Hl);
          try done; try lia; [by rewrite Hcl|].
        rewrite store_all in Hst by lia. injection Hst as <-.
        exists m3, bs. split; [intros K; by apply bbind_ok|]. split_and!; try done. by rewrite <- Hcl. }
    rewrite Hrun3.
    assert (bs' ≠ []) as Hne' by (intros ->; cbn [length] in *; lia).
    destruct (set_pktsnip_ok base SIZE bl h cs2 m3 f2 l o next (base + od) bs' type (λ _, mret (base + o))) as (m4 & Hrun4 & Hnone & Hinv4 & Hsame4);
      try done; [|lia|by replace (base + od - base) with od by lia|].
    { unfold data_blocks. rewrite decide_False by done. replace (base + od - base) with od by lia. rewrite Hlen. fold n.
      eapply heap_perm; [|exact Hinv3]. apply perm_swap. }
    rewrite Hlen in Hrun4. cbv zeta in *. eexists (base + o), _, cs2, m4, f2. split; [exact Hrun4|]. split; [exact Hinv4|].
    split; [right; split; [done|]; split; [done|]; by exists (base + od), bs'|]. split; [|done].
    apply Forall_cons in Hsame2 as [_ Hsame2]. apply Forall_cons in Hsame3 as [_ Hsame3].
    apply Forall_forall. intros x Hx o' n' Ho' Hn'. rewrite Forall_forall in Hsame1, Hsame2, Hsame3, Hsame4.
    by rewrite (Hsame4 x Hx), (Hsame3 x Hx), (Hsame2 x Hx), (Hsame1 x Hx).
Qed.

Lemma same_trans m1 m2 m3 (bl : list chunk) : Forall (same m1 m2) bl → Forall (same m2 m3) bl → Forall (same m1 m3) bl.
Proof.
  intros H1 H2. apply Forall_forall. intros c Hc o n Ho Hn. rewrite Forall_forall in H1, H2.
  by rewrite (H2 c Hc), (H1 c Hc).
Qed.

Lemma same_refl m (bl : list chunk) : Forall (same m m) bl.
Proof. by apply Forall_forall. Qed.

(** ** Packets *)

(** The snips [l] of the packet at [p]. *)
Fixpoint chain (h : gmap Z snip) (p : Z) (l : list Z) : Prop :=
  match l with
  | [] => p = 0
  | q :: l => p = q ∧ ∃ sn, h !! q = Some sn ∧ chain h (sn_next sn) l
  end.

Lemma chain_lookup h p l q : chain h p l → q ∈ l → is_Some (h !! q).
Proof.
  revert p. induction l as [|r l IH]; intros p Hc Hq; [by apply elem_of_nil in Hq|].
  destruct Hc as (-> & sn & Hr & Hc). apply elem_of_cons in Hq as [->|Hq]; [by eexists|by eapply IH].
Qed.

Lemma chain_ext h h' l : ∀ p, (∀ q, q ∈ l → sn_next <$> h' !! q = sn_next <$> h !! q) → chain h p l → chain h' p l.
Proof.
  induction l as [|q l IH]; intros p Hn Hc; [done|]. destruct Hc as (-> & sn & Hq & Hc). split; [done|].
  pose proof (Hn q ltac:(by left)) as E. rewrite Hq in E. destruct (h' !! q) as [sn'|]; [|done].
  injection E as E. exists sn'. split; [done|]. rewrite E. apply IH; [|done]. intros r Hr. apply Hn. by right.
Qed.

Section Null.
Context (h : gmap Z snip) (H0 : h !! 0 = None).

Lemma chain_det p l l' : chain h p l → chain h p l' → l = l'.
Proof using H0.
  revert p l'. induction l as [|q l IH]; intros p [|q' l'] H1 H2; [done| | |].
  - destruct H2 as (-> & sn & Hq & _). cbn in H1. congruence.
  - destruct H1 as (-> & sn & Hq & _). cbn in H2. congruence.
  - destruct H1 as (-> & sn & Hq & H1), H2 as (<- & sn' & Hq' & H2). f_equal. apply (IH (sn_next sn)); congruence.
Qed.

Lemma chain_suffix p l q : chain h p l → q ∈ l → ∃ l1 l2, l = l1 ++ q :: l2 ∧ chain h q (q :: l2).
Proof using.
  revert p. induction l as [|r l IH]; intros p Hc Hq; [by apply elem_of_nil in Hq|].
  pose proof Hc as (-> & sn & Hr & Hc'). apply elem_of_cons in Hq as [->|Hq]; [by exists [], l|].
  destruct (IH _ Hc' Hq) as (l1 & l2 & -> & Hl2). by exists (r :: l1), l2.
Qed.

Lemma chain_NoDup p l : chain h p l → NoDup l.
Proof using H0.
  revert p. induction l as [|q l IH]; intros p Hc; [constructor|]. pose proof Hc as (-> & sn & Hq & Hc').
  constructor; [|by eapply IH]. intros Hin. destruct (chain_suffix _ _ _ Hc' Hin) as (l1 & l2 & -> & Hc2).
  pose proof (chain_det _ _ _ Hc Hc2) as E. apply (f_equal length) in E. cbn [length] in E. rewrite length_app in E.
  cbn [length] in E. lia.
Qed.
End Null.

Lemma heap_null bl h cs m first : heap_inv bl h cs m first → h !! 0 = None.
Proof.
  intros Hinv. destruct (h !! 0) as [sn|] eqn:E; [|done]. exfalso.
  pose proof (desc_fits _ _ _ _ _ _ _ _ _ Hinv E) as (_ & _ & H & _). done.
Qed.

Lemma blocks_length h : (size h ≤ length (blocks h))%nat.
Proof.
  induction h as [|p sn h Hp IH] using map_ind; [rewrite map_size_empty; lia|].
  rewrite (blocks_insert base h p sn Hp), map_size_insert_None by done. cbn [snip_blocks app length].
  rewrite length_app. lia.
Qed.

Lemma chain_fuel bl h cs m first p l : heap_inv bl h cs m first → chain h p l → (length l < fuel SIZE)%nat.
Proof.
  intros Hinv Hc. pose proof (chain_NoDup h (heap_null _ _ _ _ _ Hinv) p l Hc) as Hnd.
  assert (length l ≤ size h)%nat as H1.
  { rewrite <- size_dom. rewrite <- (size_list_to_set (C:=gset Z) l) by done. apply subseteq_size.
    intros q Hq%elem_of_list_to_set. apply elem_of_dom. by eapply chain_lookup. }
  pose proof (blocks_length h) as H2. pose proof (ly_parts _ _ _ (heap_layout _ _ _ _ _ _ _ Hinv)) as [Hok _ Ht].
  pose proof (length_total SIZE _ Hok) as H3. rewrite Ht, !length_app in H3. unfold fuel. lia.
Qed.

(** ** Holding and releasing *)

Definition hold_one (num : Z) (h : gmap Z snip) (q : Z) : gmap Z snip :=
  alter (λ sn, with_users (sn_users sn + num) sn) q h.

Definition release_one (h : gmap Z snip) (q : Z) : gmap Z snip :=
  match h !! q with
  | Some sn => if decide (sn_users sn = 1) then delete q h else <[q := with_users (sn_users sn - 1) sn]> h
  | None => h
  end.

Lemma hold_loop_ok num l : ∀ fuel p h cs m first b, heap_inv [] h cs m first → chain h p l → NoDup l → (length l < fuel)%nat →
  0 ≤ num → (∀ q sn, q ∈ l → h !! q = Some sn → sn_users sn + num < 2 ^ 32) →
  ∃ m', hold_loop base fuel p num (Pktbuf m first b) = Some (tt, Pktbuf m' first b) ∧
    heap_inv [] (foldl (hold_one num) h l) cs m' first.
Proof.
  induction l as [|q l IH]; intros [|fuel] p h cs m first b Hinv Hc Hnd Hf Hnum Hu; try (cbn [length] in Hf; lia); cbn [hold_loop].
  - cbn in Hc. subst p. by exists m.
  - destruct Hc as (-> & sn & Hq & Hc). apply NoDup_cons in Hnd as [Hql Hnd].
    pose proof (hi_snips _ _ _ _ _ _ _ Hinv q sn Hq) as Hat.
    pose proof (desc_fits _ _ _ _ _ _ _ _ _ Hinv Hq) as (_ & _ & Hq0 & _). rewrite (proj2 (Z.eqb_neq _ _) Hq0).
    rewrite (bb_snip_users base m first b q sn Hat).
    pose proof (Hu q sn ltac:(by left) Hq) as Hlt. pose proof (sa_used _ _ _ _ Hat) as Hpos.
    rewrite wrap_small by (unfold uint; lia).
    set (sn' := with_users (sn_users sn + num) sn).
    destruct (set_users_ok base SIZE [] h cs m first b q sn (sn_users sn + num)
      (λ _, next ← snip_next base q; hold_loop base fuel next num) Hinv Hq ltac:(lia)) as (m1 & -> & Hinv1 & _).
    fold sn' in Hinv1. pose proof (hi_snips _ _ _ _ _ _ _ Hinv1 q sn' ltac:(apply lookup_insert_eq)) as Hat1.
    rewrite (bb_snip_next base m1 first b q sn' Hat1). cbn [foldl].
    assert (hold_one num h q = <[q := sn']> h) as ->.
    { unfold hold_one. apply map_eq. intros r. destruct (decide (r = q)) as [->|].
      - by rewrite lookup_alter_eq, lookup_insert_eq, Hq.
      - by rewrite lookup_alter_ne, lookup_insert_ne. }
    apply IH; try done; [|cbn [length] in Hf; lia|].
    + eapply chain_ext; [|exact Hc]. intros r Hr. rewrite lookup_insert_ne; [done|]. by intros ->.
    + intros r sr Hr. rewrite lookup_insert_ne by (by intros ->). apply Hu. by right.
Qed.

(** Freeing the last user's snip. *)
Lemma free_snip_ok {C} bl h cs m first l p sn (f : unit → B C) : heap_inv bl h cs m first → h !! p = Some sn →
  ∃ cs' m' first', ((set_snip_users base p 0;;
      data ← snip_data base p;
      size ← snip_size base p;
      _pktbuf_free base SIZE data size;;
      _pktbuf_free base SIZE p sizeof_pktsnip) ≫= f) (Pktbuf m first l) = f tt (Pktbuf m' first' l) ∧
    heap_inv bl (delete p h) cs' m' first' ∧ Forall (same m m') bl.
Proof.
  intros Hinv Hp. pose proof (desc_fits _ _ _ _ _ _ _ _ _ Hinv Hp) as (F1 & F2 & _ & _).
  pose proof (heap_ok _ _ _ _ _ _ _ Hinv) as (_ & _ & Hlen).
  destruct (heap_elim _ _ _ _ _ _ _ p sn Hp Hinv) as [Hraw [H1 H2 H3 H4 H5 H6 H7 H8 H9]]. cbn [snip_blocks app] in Hraw.
  rewrite bb_assoc. unfold set_snip_users. rewrite (bb_set_word base _ (p - base + 24)) by (unfold fits; lia).
  set (m1 := put_word m (p - base + 24) 4 0).
  assert (agree (λ i, p - base ≤ i < p - base + 32) m m1) as Hag by (apply agree_put_word; [apply agree_refl|lia]).
  destruct (heap_write _ _ _ _ _ _ _ m1 (p - base, sizeof_pktsnip) Hraw Hag) as [Hraw1 [_ Hsame1]%Forall_app].
  rewrite bb_assoc. unfold snip_data. rewrite (bb_get_word base _ (p - base + 8) 8 (sn_data sn)) by (lia || (apply word_put_other; [lia|done])).
  rewrite bb_assoc. unfold snip_size. rewrite (bb_get_word base _ (p - base + 16) 8 (sn_size sn)) by (lia || (apply word_put_other; [lia|done])).
  rewrite bb_assoc.
  assert (∃ cs2 m2 first2, _pktbuf_free base SIZE (sn_data sn) (sn_size sn) (Pktbuf m1 first l) = Some (tt, Pktbuf m2 first2 l) ∧
    heap_inv ((p - base, sizeof_pktsnip) :: bl) (delete p h) cs2 m2 first2 ∧ Forall (same m1 m2) bl) as (cs2 & m2 & f2 & Hrun2 & Hraw2 & Hsame2).
  { unfold data_blocks in Hraw1. case_decide as Hb.
    - rewrite (H8 Hb), free_null by done. exists cs, m1, first. split; [done|]. split; [done|apply same_refl].
    - eapply heap_perm in Hraw1; [|apply perm_swap].
      destruct (heap_free _ _ _ _ _ _ _ l _ _ (sn_size sn) Hraw1 eq_refl) as (cs2 & m2 & f2 & Hrun & Hi & [_ Hs]%Forall_cons).
      replace (base + (sn_data sn - base)) with (sn_data sn) in Hrun by lia. by exists cs2, m2, f2. }
  rewrite (bbind_ok _ _ _ _ _ Hrun2).
  destruct (heap_free _ _ _ _ _ _ _ l _ _ sizeof_pktsnip Hraw2 align_pktsnip) as (cs3 & m3 & f3 & Hrun3 & Hi3 & Hs3).
  replace (base + (p - base)) with p in Hrun3 by lia. rewrite (bbind_ok _ _ _ _ _ Hrun3).
  exists cs3, m3, f3. split; [done|]. split; [done|]. eapply same_trans; [|exact Hs3]. by eapply same_trans.
Qed.

Lemma release_one_other h q r : r ≠ q → release_one h q !! r = h !! r.
Proof.
  intros Hr. unfold release_one. destruct (h !! q); [|done].
  case_decide; [by apply lookup_delete_ne|by apply lookup_insert_ne].
Qed.

Lemma release_loop_ok l : ∀ fuel p bl h cs m first b, heap_inv bl h cs m first → chain h p l → NoDup l → (length l < fuel)%nat →
  ∃ cs' m' first', release_loop base SIZE fuel p (Pktbuf m first b) = Some (tt, Pktbuf m' first' b) ∧
    heap_inv bl (foldl release_one h l) cs' m' first' ∧ Forall (same m m') bl.
Proof.
  induction l as [|q l IH]; intros [|fuel] p bl h cs m first b Hinv Hc Hnd Hf; try (cbn [length] in Hf; lia); cbn [release_loop].
  - cbn in Hc. subst p. exists cs, m, first. split; [done|]. split; [done|apply same_refl].
  - destruct Hc as (-> & sn & Hq & Hc). apply NoDup_cons in Hnd as [Hql Hnd].
    pose proof (hi_snips _ _ _ _ _ _ _ Hinv q sn Hq) as Hat.
    pose proof (desc_fits _ _ _ _ _ _ _ _ _ Hinv Hq) as (F1 & F2 & Hq0 & _). rewrite (proj2 (Z.eqb_neq _ _) Hq0).
    pose proof conf_size as HS.
    assert (_pktbuf_contains base SIZE q = true) as Hin.
    { pose proof (contains_in base SIZE (q - base) ltac:(lia)) as Hin. by replace (base + (q - base)) with q in Hin by lia. }
    rewrite bb_assert by done. cbn beta. rewrite (bb_snip_users base m first b q sn Hat).
    pose proof (sa_used _ _ _ _ Hat) as Hpos. rewrite bb_assert by (by apply Z.ltb_lt).
    cbn beta. rewrite (bb_snip_next base m first b q sn Hat). cbn [foldl].
    assert (chain (release_one h q) (sn_next sn) l) as Hc'.
    { eapply chain_ext; [|exact Hc]. intros r Hr. rewrite release_one_other; [done|]. by intros ->. }
    assert (∃ cs1 m1 first1, ((if sn_users sn =? 1 then
           set_snip_users base q 0;;
           data ← snip_data base q;
           size ← snip_size base q;
           _pktbuf_free base SIZE data size;;
           _pktbuf_free base SIZE q sizeof_pktsnip
         else set_snip_users base q (u32 (sn_users sn - 1))) ≫= λ _, release_loop base SIZE fuel (sn_next sn)) (Pktbuf m first b) =
        release_loop base SIZE fuel (sn_next sn) (Pktbuf m1 first1 b) ∧
      heap_inv bl (release_one h q) cs1 m1 first1 ∧ Forall (same m m1) bl) as (cs1 & m1 & f1 & Hrun1 & Hinv1 & Hs1).
    { unfold release_one. rewrite Hq. rewrite bb_if. destruct (Z.eqb_spec (sn_users sn) 1) as [E|E].
      - rewrite decide_True by done. by apply (free_snip_ok bl h cs m first b q sn).
      - rewrite decide_False by done. pose proof (sa_users _ _ _ _ Hat) as [_ Hu]. unfold uint in Hu.
        change (8 * Z.of_nat 4) with 32 in Hu. rewrite wrap_small by (unfold uint; lia).
        destruct (set_users_ok base SIZE bl h cs m first b q sn (sn_users sn - 1)
          (λ _, release_loop base SIZE fuel (sn_next sn)) Hinv Hq ltac:(lia)) as (m1 & Hrun & Hi & Hs).
        by exists cs, m1, first. }
    destruct (IH fuel (sn_next sn) bl _ cs1 m1 f1 b Hinv1 Hc' Hnd ltac:(cbn [length] in Hf; lia)) as (cs2 & m2 & f2 & Hrun2 & Hi2 & Hs2).
    exists cs2, m2, f2. split; [by rewrite Hrun1|]. split; [done|]. by eapply same_trans.
Qed.

(** ** The calls with the mutex *)

Lemma lock_ok {C} m first (f : unit → B C) :
  (mutex_lock_pktbuf ≫= f) (Pktbuf m first false) = f tt (Pktbuf m first true).
Proof. done. Qed.

Lemma unlock_ok {C} m first b (f : unit → B C) :
  (mutex_unlock_pktbuf ≫= f) (Pktbuf m first b) = f tt (Pktbuf m first false).
Proof. done. Qed.

Lemma hold_ok h cs m first p l num : heap_inv [] h cs m first → chain h p l → 0 ≤ num →
  (∀ q sn, q ∈ l → h !! q = Some sn → sn_users sn + num < 2 ^ 32) →
  ∃ m', gnrc_pktbuf_hold base SIZE p num (Pktbuf m first false) = Some (tt, Pktbuf m' first false) ∧
    heap_inv [] (foldl (hold_one num) h l) cs m' first.
Proof.
  intros Hinv Hc Hnum Hu. unfold gnrc_pktbuf_hold. rewrite lock_ok.
  destruct (hold_loop_ok num l (fuel SIZE) p h cs m first true Hinv Hc (chain_NoDup _ (heap_null _ _ _ _ _ Hinv) _ _ Hc)
    (chain_fuel _ _ _ _ _ _ _ Hinv Hc) Hnum Hu) as (m' & Hrun & Hi).
  exists m'. by rewrite (bbind_ok _ _ _ _ _ Hrun).
Qed.

Lemma release_ok bl h cs m first p l : heap_inv bl h cs m first → chain h p l →
  ∃ cs' m' first', gnrc_pktbuf_release base SIZE p (Pktbuf m first false) = Some (tt, Pktbuf m' first' false) ∧
    heap_inv bl (foldl release_one h l) cs' m' first' ∧ Forall (same m m') bl.
Proof.
  intros Hinv Hc. unfold gnrc_pktbuf_release. rewrite lock_ok. unfold _release_error_locked.
  destruct (release_loop_ok l (fuel SIZE) p bl h cs m first true Hinv Hc (chain_NoDup _ (heap_null _ _ _ _ _ Hinv) _ _ Hc)
    (chain_fuel _ _ _ _ _ _ _ Hinv Hc)) as (cs' & m' & f' & Hrun & Hi & Hs).
  exists cs', m', f'. by rewrite (bbind_ok _ _ _ _ _ Hrun).
Qed.

Lemma add_ok h cs m first next src bs type : heap_inv [] h cs m first → uint 64 next → - 2 ^ 31 ≤ type < 2 ^ 31 →
  Z.of_nat (length bs) ≤ SIZE → (bs ≠ [] → source_ok h src bs) →
  ∃ p h' cs' m' first', gnrc_pktbuf_add base SIZE next src (Z.of_nat (length bs)) type (Pktbuf m first false) =
      Some (p, Pktbuf m' first' false) ∧
    heap_inv [] h' cs' m' first' ∧ created h next src bs type p h' ∧
    (p = 0 → Forall (λ c, c.2 < sizeof_pktsnip + _align (Z.of_nat (length bs))) cs).
Proof.
  intros Hinv Hnext Htype Hsize Hsrc. pose proof conf_size as HS. unfold gnrc_pktbuf_add.
  rewrite (proj2 (Z.ltb_ge _ _)) by done. rewrite lock_ok.
  destruct (create_snip_ok [] h cs m first true next src bs type Hinv Hnext ltac:(lia) Htype Hsrc)
    as (p & h' & cs' & m' & f' & Hrun & Hi & Hcr & _ & Hno).
  exists p, h', cs', m', f'. rewrite (bbind_ok _ _ _ _ _ Hrun), unlock_ok. done.
Qed.

(** The data of a snip as a source. *)
Lemma source_of_ok bl h cs m first q sn : heap_inv bl h cs m first → h !! q = Some sn → sn_bytes sn ≠ [] →
  source_of (sn_data sn) = SIn (sn_data sn) ∧ source_ok h (source_of (sn_data sn)) (sn_bytes sn).
Proof.
  intros Hinv Hq Hne. pose proof (heap_ok _ _ _ _ _ _ _ Hinv) as ([_ Hok]%Forall_app & _ & _).
  assert (sn_data sn ≠ 0) as Hd.
  { pose proof conf_base. rewrite Forall_forall in Hok. specialize (Hok (sn_data sn - base, _align (sn_size sn))).
    destruct Hok as (H1 & _); [|cbn [fst] in H1; lia]. eapply blocks_elem; [exact Hq|]. right. unfold data_blocks.
    rewrite decide_False by done. by left. }
  unfold source_of. rewrite (proj2 (Z.eqb_neq _ _) Hd). split; [done|].
  exists q, sn, [], []. split; [done|]. split; [by rewrite app_nil_r|cbn; lia].
Qed.

(** The outcome of write-protecting a snip: itself, a copy, or nothing. *)
Definition protected (h : gmap Z snip) (p : Z) (sn : snip) (q : Z) (h' : gmap Z snip) : Prop :=
  sn_users sn = 1 ∧ q = p ∧ h' = h ∨
  1 < sn_users sn ∧ (q = 0 ∧ h' = h ∨
    q ≠ 0 ∧ h !! q = None ∧ ∃ d, h' = <[p := with_users (sn_users sn - 1) sn]>
      (<[q := Snip (sn_next sn) d (sn_bytes sn) 1 (sn_type sn)]> h)).

Lemma start_write_ok bl h cs m first p sn : heap_inv bl h cs m first → h !! p = Some sn →
  ∃ q h' cs' m' first', gnrc_pktbuf_start_write base SIZE p (Pktbuf m first false) = Some (q, Pktbuf m' first' false) ∧
    heap_inv bl h' cs' m' first' ∧ protected h p sn q h' ∧ Forall (same m m') bl ∧
    (q = 0 → Forall (λ c, c.2 < sizeof_pktsnip + _align (sn_size sn)) cs).
Proof.
  intros Hinv Hp. pose proof (hi_snips _ _ _ _ _ _ _ Hinv p sn Hp) as Hat.
  pose proof (desc_fits _ _ _ _ _ _ _ _ _ Hinv Hp) as (_ & _ & Hp0 & _).
  unfold gnrc_pktbuf_start_write. rewrite lock_ok, (proj2 (Z.eqb_neq _ _) Hp0).
  rewrite (bb_snip_users base m first true p sn Hat). pose proof (sa_used _ _ _ _ Hat) as Hu.
  destruct (Z.ltb_spec 1 (sn_users sn)) as [Hshared|Hown].
  2: { rewrite unlock_ok. exists p, h, cs, m, first. split; [done|]. split; [done|]. split; [left; split; [lia|done]|].
    split; [apply same_refl|done]. }
  rewrite (bb_snip_next base m first true p sn Hat), (bb_snip_data base m first true p sn Hat),
    (bb_snip_size base m first true p sn Hat), (bb_snip_type base m first true p sn Hat).
  destruct (create_snip_ok bl h cs m first true (sn_next sn) (source_of (sn_data sn)) (sn_bytes sn) (sn_type sn) Hinv)
    as (q & h' & cs' & m' & f' & Hrun & Hi & Hcr & Hs & Hno).
  { apply Hat. } { by apply (hi_sizes _ _ _ _ _ _ _ Hinv p). } { apply Hat. }
  { intros Hne. by eapply source_of_ok. }
  unfold sn_size. rewrite (bbind_ok _ _ _ _ _ Hrun).
  destruct Hcr as [(-> & ->)|(Hq0 & Hnone & d & bs' & Hlen & Hbs & ->)].
  - cbn [Z.eqb negb]. rewrite bb_ret, unlock_ok. exists 0, h, cs', m', f'. split; [done|]. split; [done|].
    split; [right; split; [lia|by left]|done].
  - rewrite (proj2 (Z.eqb_neq _ _) Hq0). cbn [negb].
    assert (bs' = sn_bytes sn) as ->.
    { destruct (decide (sn_bytes sn = [])) as [E|E].
      - rewrite E in *. by destruct bs'.
      - apply Hbs. destruct (source_of_ok _ _ _ _ _ _ _ Hinv Hp E) as [-> _]. done. }
    pose proof (sa_users _ _ _ _ Hat) as [_ Hur]. unfold uint in Hur. change (8 * Z.of_nat 4) with 32 in Hur.
    rewrite wrap_small by (unfold uint; lia).
    set (K := λ _ : unit, _ : B Z).
    destruct (set_users_ok base SIZE bl _ cs' m' f' true p sn (sn_users sn - 1) K Hi) as (m2 & Hrun2 & Hi2 & Hs2);
      [rewrite lookup_insert_ne; [done|congruence]|lia|].
    eexists q, _, cs', m2, f'. split; [etransitivity; [exact Hrun2|]; subst K; cbn beta; by rewrite unlock_ok|].
    split; [exact Hi2|]. split; [|split; [by eapply same_trans|done]].
    right. split; [lia|]. right. split; [done|]. split; [done|]. by exists d.
Qed.

(** ** Marking *)

(** The fields of the descriptor at [p]. *)
Record desc_at (m : list Z) (p next data size users type : Z) : Prop := {
  da_next : word_at m (p - base) 8 next;
  da_data : word_at m (p - base + 8) 8 data;
  da_size : word_at m (p - base + 16) 8 size;
  da_users : word_at m (p - base + 24) 4 users;
  da_type : word_at m (p - base + 28) 4 (u32 type)
}.

Lemma snip_desc m p sn : snip_at m p sn → desc_at m p (sn_next sn) (sn_data sn) (sn_size sn) (sn_users sn) (sn_type sn).
Proof. by intros []. Qed.

Lemma desc_same m m' p a b c d e : same m m' (p - base, sizeof_pktsnip) → desc_at m p a b c d e → desc_at m' p a b c d e.
Proof.
  intros Hs [H1 H2 H3 H4 H5]. split; (eapply same_word; [exact Hs| | |done]); cbn [fst snd]; unfold sizeof_pktsnip; lia.
Qed.

Lemma raw_write {C} bl h cs m first l p dst k n v (f : unit → B C) : heap_inv ((p - base, sizeof_pktsnip) :: bl) h cs m first →
  dst = p + k → 0 ≤ k → k + Z.of_nat n ≤ sizeof_pktsnip →
  (set_word base dst n v ≫= f) (Pktbuf m first l) = f tt (Pktbuf (put_word m (p - base + k) n v) first l) ∧
  heap_inv ((p - base, sizeof_pktsnip) :: bl) h cs (put_word m (p - base + k) n v) first ∧
  Forall (same m (put_word m (p - base + k) n v)) bl.
Proof.
  intros Hinv -> Hk Hkn. pose proof (heap_ok _ _ _ _ _ _ _ Hinv) as ([(F1 & _ & _ & _ & F2) _]%Forall_cons & _ & Hlen).
  cbn [fst snd] in *. split.
  - apply bb_set_word; [lia|unfold fits; lia].
  - apply heap_write; [done|]. apply agree_put_word; [apply agree_refl|]. cbn [fst snd]. lia.
Qed.

Lemma word_put_desc m p k v a b c d e : fits m (p - base) 32 → desc_at m p a b c d e →
  (k = 0 → uint 64 v → desc_at (put_word m (p - base + k) 8 v) p v b c d e) ∧
  (k = 8 → uint 64 v → desc_at (put_word m (p - base + k) 8 v) p a v c d e) ∧
  (k = 16 → uint 64 v → desc_at (put_word m (p - base + k) 8 v) p a b v d e).
Proof.
  unfold fits. intros Hf [H1 H2 H3 H4 H5]. split_and!; intros -> Hv; split;
    first [apply word_put_other; [lia|done]|rewrite ?Z.add_0_r; apply word_put_same; [unfold fits; lia|done]].
Qed.

Lemma heap_split bl h cs m first o n1 n2 : (16 | n1) → (16 | n2) → 0 < n1 → 0 < n2 →
  heap_inv ((o, n1 + n2) :: bl) h cs m first ↔ heap_inv ((o, n1) :: (o + n1, n2) :: bl) h cs m first.
Proof.
  intros H1 H2 P1 P2. split; intros [[Hly Hl Hf Hseg] Hs Hz]; (split; [split|..]; try done);
    by apply (layout_split SIZE o n1 n2 (bl ++ blocks h) cs).
Qed.

Lemma align_add s r : (16 | s) → 0 ≤ s → 0 ≤ r → s + r < 2 ^ 63 → _align (s + r) = s + _align r.
Proof. intros [k ->] Hs Hr Hsr. rewrite !_align_spec by lia. Z.div_mod_to_equations; lia. Qed.

(** The memory when the marked data [b1] and the rest [b2] of the data of [p] have
    their blocks, and [o] is the block of the new descriptor. *)
Record marked (bl : list chunk) (h : gmap Z snip) (p o : Z) (sn : snip) (b1 b2 : list Z) (d1 d2 : Z)
    (cs : list chunk) (m : list Z) (first : Z) : Prop := {
  mk_inv : heap_inv ((p - base, sizeof_pktsnip) :: data_blocks base d2 b2 ++ (o, sizeof_pktsnip) ::
    data_blocks base d1 b1 ++ bl) (delete p h) cs m first;
  mk_desc : desc_at m p (sn_next sn) d2 (sn_size sn) (sn_users sn) (sn_type sn);
  mk_null : b2 = [] → d2 = 0;
  mk_rest : b2 ≠ [] → load m (d2 - base) (Z.of_nat (length b2)) = Some b2;
  mk_data : load m (d1 - base) (Z.of_nat (length b1)) = Some b1;
  mk_ptr : uint 64 d1
}.

Lemma mark_in_place {C} bl h cs m first l p o sn b1 b2 (f : option Z → B C) :
  heap_inv ((o, sizeof_pktsnip) :: bl) h cs m first → h !! p = Some sn →
  sn_bytes sn = b1 ++ b2 → b1 ≠ [] → (b2 = [] ∨ _align (Z.of_nat (length b1)) = Z.of_nat (length b1)) →
  ∃ d1 d2 m', ((d ← snip_data base p;
      set_snip_data base p (if negb (sn_size sn =? Z.of_nat (length b1)) then d + Z.of_nat (length b1) else 0);;
      mret (Some d)) ≫= f) (Pktbuf m first l) = f (Some d1) (Pktbuf m' first l) ∧
    marked bl h p o sn b1 b2 d1 d2 cs m' first ∧ Forall (same m m') bl.
Proof.
  intros Hinv Hp Hb Hb1 Hcase. pose proof (hi_sizes _ _ _ _ _ _ _ Hinv p sn Hp) as Hz.
  assert (Z.of_nat (length b1) + Z.of_nat (length b2) = sn_size sn) as Hlen.
  { unfold sn_size. rewrite Hb, length_app. lia. }
  assert (sn_bytes sn ≠ []) as Hne by (rewrite Hb; by destruct b1).
  assert (0 < Z.of_nat (length b1)) as Hpos by (destruct b1; [done|cbn [length]; lia]).
  pose proof (desc_fits _ _ _ _ _ _ _ _ _ Hinv Hp) as (F1 & F2 & _ & _).
  pose proof (heap_ok _ _ _ _ _ _ _ Hinv) as ([_ [_ Hok]%Forall_app]%Forall_cons & _ & Hml).
  assert (chunk_ok SIZE (sn_data sn - base, _align (sn_size sn))) as (D1 & _ & D3 & D4 & D5).
  { rewrite Forall_forall in Hok. apply Hok. eapply blocks_elem; [exact Hp|]. right. unfold data_blocks.
    rewrite decide_False by done. by left. }
  cbn [fst snd] in D1, D3, D4, D5.
  destruct (heap_elim _ _ _ _ _ _ _ p sn Hp Hinv) as [Hraw Hat]. cbn [snip_blocks app] in Hraw.
  pose proof (sa_bytes _ _ _ _ Hat Hne) as Hload. rewrite Hb in Hload.
  pose proof (load_sub m (sn_data sn - base) (sn_size sn) [] b1 b2 Hload) as Hl1. cbn [length Z.of_nat] in Hl1. rewrite Z.add_0_r in Hl1.
  pose proof (load_sub m (sn_data sn - base) (sn_size sn) b1 b2 []) as Hl2. rewrite app_nil_r in Hl2. specialize (Hl2 Hload).
  pose proof conf_base as HB. pose proof conf_end as HE.
  pose proof (align_bounds (sn_size sn) ltac:(unfold sn_size in *; lia)) as [Hal _].
  set (d2 := if negb (sn_size sn =? Z.of_nat (length b1)) then sn_data sn + Z.of_nat (length b1) else 0).
  assert (b2 = [] ∧ d2 = 0 ∨ b2 ≠ [] ∧ d2 = sn_data sn + Z.of_nat (length b1)) as Hd2.
  { unfold d2. destruct b2 as [|x b2]; [left|right]; (split; [done|]).
    - rewrite (proj2 (Z.eqb_eq _ _)); [done|]. cbn [length] in Hlen. lia.
    - rewrite (proj2 (Z.eqb_neq _ _)); [done|]. cbn [length] in Hlen. lia. }
  assert (uint 64 d2) as Hd264.
  { unfold uint. destruct Hd2 as [[_ ->]|[Hb2 ->]]; [lia|]. destruct b2; [done|cbn [length] in Hlen; lia]. }
  assert (heap_inv ((p - base, sizeof_pktsnip) :: data_blocks base d2 b2 ++ (o, sizeof_pktsnip) ::
    data_blocks base (sn_data sn) b1 ++ bl) (delete p h) cs m first) as Hraw'.
  { unfold data_blocks in *. rewrite decide_False in Hraw by done. rewrite (decide_False (P := b1 = [])) by done.
    destruct Hd2 as [[-> ->]|[Hb2 ->]].
    - rewrite decide_True by done. rewrite app_nil_r in Hb. rewrite Hb in Hraw. cbn [app] in *.
      eapply heap_perm; [|exact Hraw]. apply perm_skip, perm_swap.
    - destruct Hcase as [->|Ha1]; [done|]. rewrite decide_False by done.
      change (Z.of_nat (length (sn_bytes sn))) with (sn_size sn) in Hraw. rewrite <- Hlen in Hraw.
      assert (16 | Z.of_nat (length b1)) as H16.
      { rewrite <- Ha1. apply align_bounds. lia. }
      rewrite align_add in Hraw by (done || lia). cbn [app] in *. rewrite Ha1.
      pose proof (align_bounds (Z.of_nat (length b2)) ltac:(lia)) as [A1 A2].
      assert (0 < Z.of_nat (length b2)) by (destruct b2; [done|cbn [length]; lia]).
      eapply heap_perm in Hraw; [|apply perm_swap]. apply heap_split in Hraw; [|done|done|lia|lia].
      replace (sn_data sn - base + Z.of_nat (length b1)) with (sn_data sn + Z.of_nat (length b1) - base) in Hraw by lia.
      eapply heap_perm; [|exact Hraw].
      perm_cons. }
  destruct (raw_write _ _ _ m first l p (p + 8) 8 8 d2 (λ _, (mret (Some (sn_data sn)) : B _) ≫= f) Hraw' eq_refl ltac:(lia) ltac:(unfold sizeof_pktsnip; lia))
    as (Hrun & Hraw2 & Hsame).
  exists (sn_data sn), d2. eexists. split; [|split].
  - rewrite bb_assoc, (bb_snip_data base m first l p sn Hat), bb_assoc. fold d2. unfold set_snip_data. exact Hrun.
  - apply Forall_app in Hsame as [Hsd2 [_ [Hsd1 _]%Forall_app]%Forall_cons].
    destruct (word_put_desc m p 8 d2 _ _ _ _ _ ltac:(unfold fits; lia) (snip_desc _ _ _ Hat)) as (_ & Hdesc & _).
    split; [exact Hraw2|by apply Hdesc| | | |].
    + intros ->. destruct Hd2 as [[_ ->]|[? _]]; done.
    + intros Hb2. destruct Hd2 as [[? _]|[_ E]]; [done|]. unfold data_blocks in Hsd2. rewrite decide_False in Hsd2 by done.
      apply Forall_cons in Hsd2 as [Hsd2 _]. rewrite Hsd2; [|cbn [fst snd]; lia..|].
      * rewrite E. by replace (sn_data sn + Z.of_nat (length b1) - base) with (sn_data sn - base + Z.of_nat (length b1)) by lia.
      * cbn [fst snd]. pose proof (align_bounds (Z.of_nat (length b2))). lia.
    + unfold data_blocks in Hsd1. rewrite decide_False in Hsd1 by done. apply Forall_cons in Hsd1 as [Hsd1 _].
      rewrite Hsd1; [done|cbn [fst snd]; lia|]. cbn [fst snd]. pose proof (align_bounds (Z.of_nat (length b1))). lia.
    + apply Hat.
  - by apply Forall_app in Hsame as [_ [_ [_ ?]%Forall_app]%Forall_cons].
Qed.

(** Copying into a new block, all of it. *)
Lemma memcpy_new bl h cs m first l o n src bs : heap_inv ((o, n) :: bl) h cs m first → Z.of_nat (length bs) ≤ n →
  (bs ≠ [] → source_ok h src bs ∧ src ≠ SNull) →
  ∃ m', memcpy base (base + o) src (Z.of_nat (length bs)) (Pktbuf m first l) = Some (tt, Pktbuf m' first l) ∧
    heap_inv ((o, n) :: bl) h cs m' first ∧ Forall (same m m') bl ∧ load m' o (Z.of_nat (length bs)) = Some bs.
Proof.
  intros Hinv Hn Hsrc. destruct (load_block _ _ _ _ _ o n (Z.of_nat (length bs)) Hinv ltac:(lia)) as (c & Hc & Hcl).
  destruct (memcpy_ok bl h cs m first l o n c 0 (base + o) src bs Hinv) as (m' & c' & Hrun & Hi & Hs & Hst & Hl);
    try done; try lia; [by rewrite Hcl|].
  rewrite store_all in Hst by lia. injection Hst as <-. exists m'. by rewrite Hcl in Hl.
Qed.

Lemma same_load m m' (bl : list chunk) c o n : Forall (same m m') bl → c ∈ bl → c.1 ≤ o → o + n ≤ c.1 + c.2 → load m' o n = load m o n.
Proof. intros Hs Hc Ho Hn. rewrite Forall_forall in Hs. by apply (Hs c Hc). Qed.

Lemma mark_move_ok bl h cs m first l p o sn b1 b2 : heap_inv ((o, sizeof_pktsnip) :: bl) h cs m first → h !! p = Some sn →
  sn_bytes sn = b1 ++ b2 → b1 ≠ [] → b2 ≠ [] →
  ∃ r cs' m' first', mark_move base SIZE p (base + o) (Z.of_nat (length b1)) (Pktbuf m first l) = Some (r, Pktbuf m' first' l) ∧
    Forall (same m m') bl ∧
    (r = None ∧ heap_inv bl h cs' m' first' ∧
       Forall (λ c, c.2 < _align (Z.of_nat (length b1)) + _align (Z.of_nat (length b2))) cs ∨
     ∃ d1 d2, r = Some d1 ∧ marked bl h p o sn b1 b2 d1 d2 cs' m' first').
Proof.
  intros Hinv Hp Hb Hb1 Hb2. pose proof (hi_sizes _ _ _ _ _ _ _ Hinv p sn Hp) as Hz.
  assert (sn_size sn - Z.of_nat (length b1) = Z.of_nat (length b2)) as Hlen.
  { unfold sn_size. rewrite Hb, length_app. lia. }
  assert (0 < Z.of_nat (length b1)) as Hpos1 by (destruct b1; [done|cbn [length]; lia]).
  assert (0 < Z.of_nat (length b2)) as Hpos2 by (destruct b2; [done|cbn [length]; lia]).
  unfold mark_move.
  destruct (heap_alloc base SIZE _ h cs m first l (Z.of_nat (length b1)) Hinv ltac:(lia)) as (q1 & cs1 & m1 & f1 & Hrun1 & Hres1).
  rewrite (bbind_ok _ _ _ _ _ Hrun1). pose proof (align_bounds (Z.of_nat (length b1)) ltac:(lia)) as [A1 _].
  pose proof (align_bounds (Z.of_nat (length b2)) ltac:(lia)) as [A2 _].
  destruct Hres1 as [(-> & Hno & -> & -> & ->)|(o1 & -> & _ & Hinv1 & Hs1 & a1 & k1 & r1 & Hcs & Hk & Hcs1)].
  { cbn [Z.eqb]. destruct (heap_free base SIZE bl h cs m first l o _ sizeof_pktsnip Hinv align_pktsnip) as (cs' & m' & f' & Hrun & Hi & Hs).
    rewrite (bbind_ok _ _ _ _ _ Hrun). exists None, cs', m', f'. split; [done|]. split; [done|]. left. split_and!; [done..|]. eapply room_mono; [exact Hno|lia]. }
  destruct (pointer_range _ _ _ _ _ _ _ Hinv1) as [Hq164 Hq10]. rewrite (proj2 (Z.eqb_neq _ _) Hq10).
  pose proof (hi_snips _ _ _ _ _ _ _ Hinv1 p sn Hp) as Hat1. rewrite (bb_snip_size base m1 f1 l p sn Hat1), Hlen.
  destruct (heap_alloc base SIZE _ h cs1 m1 f1 l (Z.of_nat (length b2)) Hinv1 ltac:(lia)) as (q2 & cs2 & m2 & f2 & Hrun2 & Hres2).
  rewrite (bbind_ok _ _ _ _ _ Hrun2). destruct Hres2 as [(-> & Hno & -> & -> & ->)|(o2 & -> & _ & Hinv2 & Hs2 & _)].
  { cbn [Z.eqb]. eapply heap_perm in Hinv1; [|apply perm_swap].
    destruct (heap_free base SIZE _ h cs1 m1 f1 l o _ sizeof_pktsnip Hinv1 align_pktsnip) as (cs3 & m3 & f3 & Hrun3 & Hi3 & Hs3).
    rewrite (bbind_ok _ _ _ _ _ Hrun3).
    destruct (heap_free base SIZE _ h cs3 m3 f3 l o1 _ (Z.of_nat (length b1)) Hi3 eq_refl) as (cs4 & m4 & f4 & Hrun4 & Hi4 & Hs4).
    rewrite (bbind_ok _ _ _ _ _ Hrun4). exists None, cs4, m4, f4. split; [done|].
    split; [|left; split_and!; [done..|]; subst cs1; by eapply rest_room; [done|done|lia..]].
    apply Forall_cons in Hs1 as [_ Hs1]. apply Forall_cons in Hs3 as [_ Hs3]. eapply same_trans; [|exact Hs4]. by eapply same_trans. }
  destruct (pointer_range _ _ _ _ _ _ _ Hinv2) as [Hq264 Hq20]. rewrite (proj2 (Z.eqb_neq _ _) Hq20).
  pose proof (hi_snips _ _ _ _ _ _ _ Hinv2 p sn Hp) as Hat2. rewrite (bb_snip_data base m2 f2 l p sn Hat2).
  set (n1 := _align (Z.of_nat (length b1))) in *. set (n2 := _align (Z.of_nat (length b2))) in *.
  eapply heap_perm in Hinv2; [|apply perm_swap].
  destruct (memcpy_new _ h cs2 m2 f2 l o1 n1 (SIn (sn_data sn)) b1 Hinv2 ltac:(lia)) as (m3 & Hrun3 & Hinv3 & Hs3 & Hl3).
  { intros _. split; [|done]. exists p, sn, [], b2. split; [done|]. split; [done|]. cbn. lia. }
  rewrite (bbind_ok _ _ _ _ _ Hrun3). eapply heap_perm in Hinv3; [|apply perm_swap].
  destruct (memcpy_new _ h cs2 m3 f2 l o2 n2 (SIn (sn_data sn + Z.of_nat (length b1))) b2 Hinv3 ltac:(lia)) as (m4 & Hrun4 & Hinv4 & Hs4 & Hl4).
  { intros _. split; [|done]. exists p, sn, b1, []. split; [done|]. by rewrite app_nil_r. }
  rewrite (bbind_ok _ _ _ _ _ Hrun4).
  assert (load m4 o1 (Z.of_nat (length b1)) = Some b1) as Hl41.
  { rewrite <- Hl3. apply (same_load m3 m4 _ (o1, n1) _ _ Hs4); [by left|cbn [fst snd]; lia..]. }
  destruct (heap_elim _ _ _ _ _ _ _ p sn Hp Hinv4) as [Hraw4 Hat4].
  unfold snip_blocks, data_blocks in Hraw4. rewrite decide_False in Hraw4 by (rewrite Hb; by destruct b1). cbn [app] in Hraw4.
  eapply heap_perm in Hraw4; [|apply perm_swap]. change (Z.of_nat (length (sn_bytes sn))) with (sn_size sn) in Hraw4.
  destruct (heap_free base SIZE _ _ cs2 m4 f2 l _ _ (sn_size sn) Hraw4 eq_refl) as (cs5 & m5 & f5 & Hrun5 & Hraw5 & Hs5).
  replace (base + (sn_data sn - base)) with (sn_data sn) in Hrun5 by lia.
  rewrite (bbind_ok _ _ _ _ _ Hrun5).
  pose proof (desc_same _ _ _ _ _ _ _ _ ltac:(by apply Forall_cons in Hs5 as [H5 _]; exact H5) (snip_desc _ _ _ Hat4)) as Hdesc5.
  assert (load m5 o1 (Z.of_nat (length b1)) = Some b1 ∧ load m5 o2 (Z.of_nat (length b2)) = Some b2) as [Hl51 Hl52].
  { split; [rewrite <- Hl41; apply (same_load m4 m5 _ (o1, n1) _ _ Hs5); [set_solver|cbn [fst snd]; lia..]|].
    rewrite <- Hl4. apply (same_load m4 m5 _ (o2, n2) _ _ Hs5); [set_solver|cbn [fst snd]; lia..]. }
  assert (heap_inv ((base + o - base, sizeof_pktsnip) :: (p - base, sizeof_pktsnip) :: (o1, n1) :: (o2, n2) :: bl) (delete p h) cs5 m5 f5) as Hraw5'.
  { replace (base + o - base) with o by lia. eapply heap_perm; [|exact Hraw5]. perm_cons. }
  destruct (raw_write _ _ cs5 m5 f5 l (base + o) (base + o + 8) 8 8 (base + o1)
    (λ _, set_snip_data base p (base + o2);; (mret (Some (base + o1)) : B _)) Hraw5' eq_refl ltac:(lia) ltac:(unfold sizeof_pktsnip; lia))
    as (Hrun6 & Hraw6 & Hs6).
  set (m6 := put_word m5 (base + o - base + 8) 8 (base + o1)) in *.
  pose proof (desc_same _ _ _ _ _ _ _ _ ltac:(by apply Forall_cons in Hs6 as [H6 _]; exact H6) Hdesc5) as Hdesc6.
  eapply heap_perm in Hraw6; [|apply perm_swap].
  destruct (raw_write _ _ cs5 m6 f5 l p (p + 8) 8 8 (base + o2) (λ _, (mret (Some (base + o1)) : B _)) Hraw6 eq_refl ltac:(lia)
    ltac:(unfold sizeof_pktsnip; lia)) as (Hrun7 & Hraw7 & Hs7).
  set (m7 := put_word m6 (p - base + 8) 8 (base + o2)) in *.
  pose proof (desc_fits _ _ _ _ _ _ _ _ _ Hinv Hp) as (F1 & F2 & _ & _).
  pose proof (heap_ok _ _ _ _ _ _ _ Hraw6) as (_ & _ & Hml).
  destruct (word_put_desc m6 p 8 (base + o2) _ _ _ _ _ ltac:(unfold fits; lia) Hdesc6) as (_ & Hdesc7 & _).
  exists (Some (base + o1)), cs5, m7, f5. split; [etransitivity; [exact Hrun6|exact Hrun7]|]. split.
  - apply Forall_cons in Hs1 as [_ Hs1]. do 2 apply Forall_cons in Hs2 as [_ Hs2]. do 2 apply Forall_cons in Hs3 as [_ Hs3].
    do 2 apply Forall_cons in Hs4 as [_ Hs4]. do 4 apply Forall_cons in Hs5 as [_ Hs5].
    do 3 apply Forall_cons in Hs6 as [_ Hs6]. do 3 apply Forall_cons in Hs7 as [_ Hs7].
    repeat (eapply same_trans; [eassumption|]). apply same_refl.
  - right. exists (base + o1), (base + o2). split; [done|].
    assert (∀ x, base + x - base = x) as Ebase by (intros x; lia).
    split; [|by apply Hdesc7|by intros ->| | |done].
    + unfold data_blocks. rewrite !decide_False by done. rewrite !Ebase in *. fold n1 n2. cbn [app].
      eapply heap_perm; [|exact Hraw7]. perm_cons.
    + intros _. rewrite Ebase, <- Hl52. transitivity (load m6 o2 (Z.of_nat (length b2))).
      * apply (same_load m6 m7 _ (o2, n2) _ _ Hs7); [set_solver|cbn [fst snd]; lia..].
      * apply (same_load m5 m6 _ (o2, n2) _ _ Hs6); [set_solver|cbn [fst snd]; lia..].
    + rewrite Ebase, <- Hl51. transitivity (load m6 o1 (Z.of_nat (length b1))).
      * apply (same_load m6 m7 _ (o1, n1) _ _ Hs7); [set_solver|cbn [fst snd]; lia..].
      * apply (same_load m5 m6 _ (o1, n1) _ _ Hs6); [set_solver|cbn [fst snd]; lia..].
Qed.

Lemma perm_two (x y : chunk) (a b l : list chunk) : x :: a ++ y :: b ++ l ≡ₚ y :: b ++ x :: a ++ l.
Proof.
  rewrite <- (Permutation_middle a), <- (Permutation_middle b), perm_swap. do 2 apply perm_skip.
  rewrite !app_assoc. f_equiv. apply Permutation_app_comm.
Qed.

Lemma mark_finish bl h cs m first p o sn b1 b2 d1 d2 type : h !! p = Some sn → sn_bytes sn = b1 ++ b2 →
  marked bl h p o sn b1 b2 d1 d2 cs m first → b1 ≠ [] → sn_size sn < 2 ^ 63 →
  - 2 ^ 31 ≤ sn_type sn < 2 ^ 31 → 0 < sn_users sn → - 2 ^ 31 ≤ type < 2 ^ 31 →
  ∃ m', (psize ← snip_size base p;
      set_snip_size base p (psize - Z.of_nat (length b1));;
      next ← snip_next base p;
      _set_pktsnip base (base + o) next d1 (Z.of_nat (length b1)) type;;
      set_snip_next base p (base + o);;
      mutex_unlock_pktbuf;;
      mret (base + o)) (Pktbuf m first true) = Some (base + o, Pktbuf m' first false) ∧
    p ≠ base + o ∧ h !! (base + o) = None ∧
    heap_inv bl (<[p := Snip (base + o) d2 b2 (sn_users sn) (sn_type sn)]>
      (<[base + o := Snip (sn_next sn) d1 b1 1 type]> h)) cs m' first ∧ Forall (same m m') bl.
Proof.
  intros Hp Hb [Hinv Hdesc Hnull Hrest Hdata Hptr] Hb1 Hz Htr Hus Htype.
  pose proof (heap_ok _ _ _ _ _ _ _ Hinv) as ([(F1 & _ & _ & _ & F2) _]%Forall_cons & Hdisj & Hml).
  unfold sizeof_pktsnip in F2. cbn [fst snd] in F1, F2.
  assert (fits m (p - base) 32) as Hfit by (unfold fits; lia).
  assert (sn_size sn - Z.of_nat (length b1) = Z.of_nat (length b2)) as Hlen.
  { unfold sn_size. rewrite Hb, length_app. lia. }
  unfold snip_size. rewrite (bb_get_word base _ (p - base + 16) 8 (sn_size sn)) by (apply Hdesc || lia). rewrite Hlen.
  destruct (word_put_desc m p 16 (Z.of_nat (length b2)) _ _ _ _ _ Hfit Hdesc) as (_ & _ & Hdesc1).
  specialize (Hdesc1 eq_refl ltac:(unfold uint; lia)).
  unfold set_snip_size. set (K := λ _ : unit, _ : B Z).
  destruct (raw_write _ _ cs m first true p (p + 16) 16 8 (Z.of_nat (length b2)) K Hinv eq_refl ltac:(lia) ltac:(unfold sizeof_pktsnip; lia))
    as (Hrun1 & Hinv1 & Hs1). rewrite Hrun1. subst K. cbn beta.
  set (m1 := put_word m (p - base + 16) 8 (Z.of_nat (length b2))) in *.
  unfold snip_next. rewrite (bb_get_word base _ (p - base) 8 (sn_next sn)) by (apply Hdesc1 || lia).
  assert (heap_inv ((o, sizeof_pktsnip) :: data_blocks base d1 b1 ++ (p - base, sizeof_pktsnip) :: data_blocks base d2 b2 ++ bl)
    (delete p h) cs m1 first) as Hinv1' by (eapply heap_perm; [apply perm_two|exact Hinv1]).
  apply Forall_app in Hs1 as [Hs1d2 [_ [Hs1d1 Hs1]%Forall_app]%Forall_cons].
  set (K := λ _ : unit, _ : B Z).
  destruct (set_pktsnip_ok base SIZE _ _ cs m1 first true o (sn_next sn) d1 b1 type K Hinv1') as (m2 & Hrun2 & Hnone & Hinv2 & Hs2);
    try done; [apply Hdesc1|unfold sn_size in Hz; rewrite Hb, length_app in Hz; lia| |].
  { intros _. rewrite <- Hdata. unfold data_blocks in Hs1d1. rewrite decide_False in Hs1d1 by done.
    eapply (same_load m m1 _ _ _ _ Hs1d1); [by left|cbn [fst snd]; lia|]. cbn [fst snd].
    pose proof (align_bounds (Z.of_nat (length b1))). unfold sn_size in Hz. rewrite Hb, length_app in Hz. lia. }
  rewrite Hrun2. subst K. cbv beta zeta in *.
  pose proof Hs2 as [Hs2p [Hs2d2 Hs2']%Forall_app]%Forall_cons.
  pose proof (desc_same _ _ _ _ _ _ _ _ Hs2p Hdesc1) as Hdesc2.
  assert (uint 64 (base + o)) as Ho64 by (eapply pointer_range; exact Hinv1').
  destruct (word_put_desc m2 p 0 (base + o) _ _ _ _ _ ltac:(pose proof (heap_ok _ _ _ _ _ _ _ Hinv2); unfold fits; lia) Hdesc2) as (Hdesc3 & _ & _).
  specialize (Hdesc3 eq_refl Ho64).
  unfold set_snip_next. set (K := λ _ : unit, _ : B Z).
  destruct (raw_write _ _ cs m2 first true p p 0 8 (base + o) K Hinv2 ltac:(lia) ltac:(lia) ltac:(unfold sizeof_pktsnip; lia))
    as (Hrun3 & Hinv3 & Hs3). rewrite Hrun3. subst K. cbn beta. rewrite unlock_ok.
  set (m3 := put_word m2 (p - base + 0) 8 (base + o)) in *. exists m3. split; [done|].
  apply Forall_app in Hs3 as [Hs3d2 Hs3].
  assert (p ≠ base + o) as Hpo.
  { intros ->. destruct Hdisj as [Hd _]. rewrite !Forall_app, Forall_cons in Hd. destruct Hd as [[_ [Hd _]] _].
    unfold disj, sizeof_pktsnip in Hd. cbn [fst snd] in Hd. lia. }
  split; [done|]. split; [by rewrite lookup_delete_ne in Hnone|].
  destruct (heap_intro base SIZE bl (<[base + o := Snip (sn_next sn) d1 b1 1 type]> (delete p h)) cs m3 first p
    (Snip (base + o) d2 b2 (sn_users sn) (sn_type sn))) as [_ Hinv4].
  - exact Hinv3.
  - destruct Hdesc3 as [E1 E2 E3 E4 E5]. split; try done. cbn [sn_bytes sn_data sn_size].
    intros Hne. specialize (Hrest Hne). unfold data_blocks in Hs1d2, Hs2d2, Hs3d2. rewrite decide_False in Hs1d2, Hs2d2, Hs3d2 by done.
    assert (Z.of_nat (length b2) ≤ _align (Z.of_nat (length b2))) as Hal by (apply align_bounds; unfold sn_size in *; lia).
    assert (Forall (same m m3) [(d2 - base, _align (Z.of_nat (length b2)))]) as Hsd.
    { eapply same_trans; [exact Hs1d2|]. by eapply same_trans. }
    unfold sn_size. cbn [sn_bytes]. rewrite <- Hrest. eapply (same_load m m3 _ _ _ _ Hsd); [by left|cbn [fst snd]; lia..].
  - unfold sn_size in *. cbn [sn_bytes]. lia.
  - split; [|eapply same_trans; [exact Hs1|]; by eapply same_trans].
    rewrite insert_insert_ne in Hinv4 by done. rewrite insert_delete_eq in Hinv4. by rewrite insert_insert_ne.
Qed.

(** The outcome of marking the first bytes [b1] of the data of [p]: nothing, or a
    snip with them after [p], which keeps the rest [b2]. *)
Definition marked_off (h : gmap Z snip) (p : Z) (sn : snip) (b1 b2 : list Z) (type q : Z) (h' : gmap Z snip) : Prop :=
  q = 0 ∧ h' = h ∨
  q ≠ 0 ∧ h !! q = None ∧ ∃ d1 d2, h' = <[p := Snip q d2 b2 (sn_users sn) (sn_type sn)]>
    (<[q := Snip (sn_next sn) d1 b1 1 type]> h).

Lemma mark_refused_ok bl h cs m first l p sn size : heap_inv bl h cs m first → h !! p = Some sn → 0 ≤ size →
  mark_refused base p size (Pktbuf m first l) =
    Some (bool_decide (size = 0 ∨ sn_size sn < size), Pktbuf m first l).
Proof.
  intros Hinv Hp Hsize. pose proof (hi_snips _ _ _ _ _ _ _ Hinv p sn Hp) as Hat.
  pose proof (desc_fits _ _ _ _ _ _ _ _ _ Hinv Hp) as (_ & _ & Hp0 & _).
  unfold mark_refused. rewrite (proj2 (Z.eqb_neq _ _) Hp0), orb_false_r.
  destruct (Z.eqb_spec size 0) as [->|E]; [by rewrite bool_decide_true by (by left)|].
  rewrite (bb_snip_size base m first l p sn Hat).
  destruct (Z.ltb_spec (sn_size sn) size); [by rewrite bool_decide_true by (by right)|].
  rewrite (bb_snip_data base m first l p sn Hat). rewrite bool_decide_false by lia.
  assert (sn_bytes sn ≠ []) as Hne by (intros E0; unfold sn_size in *; rewrite E0 in *; cbn [length] in *; lia).
  destruct (source_of_ok _ _ _ _ _ _ _ Hinv Hp Hne) as [E1 _]. unfold source_of in E1.
  by destruct (sn_data sn =? 0).
Qed.

Lemma mark_ok h cs m first p sn b1 b2 type : heap_inv [] h cs m first → h !! p = Some sn →
  sn_bytes sn = b1 ++ b2 → b1 ≠ [] → - 2 ^ 31 ≤ type < 2 ^ 31 →
  ∃ q h' cs' m' first', gnrc_pktbuf_mark base SIZE p (Z.of_nat (length b1)) type (Pktbuf m first false) =
      Some (q, Pktbuf m' first' false) ∧
    heap_inv [] h' cs' m' first' ∧ marked_off h p sn b1 b2 type q h' ∧
    (q = 0 → Forall (λ c, c.2 < sizeof_pktsnip + (_align (Z.of_nat (length b1)) + _align (Z.of_nat (length b2)))) cs).
Proof.
  intros Hinv Hp Hb Hb1 Htype. pose proof (hi_snips _ _ _ _ _ _ _ Hinv p sn Hp) as Hat.
  pose proof (hi_sizes _ _ _ _ _ _ _ Hinv p sn Hp) as Hz.
  assert (Z.of_nat (length b1) + Z.of_nat (length b2) = sn_size sn) as Hlen.
  { unfold sn_size. rewrite Hb, length_app. lia. }
  assert (0 < Z.of_nat (length b1)) as Hpos by (destruct b1; [done|cbn [length]; lia]).
  unfold gnrc_pktbuf_mark. cbv zeta. rewrite lock_ok.
  rewrite (bbind_ok _ _ _ _ _ (mark_refused_ok _ _ _ _ _ true p sn (Z.of_nat (length b1)) Hinv Hp ltac:(lia))).
  rewrite bool_decide_false by lia. cbn beta iota.
  destruct (heap_alloc base SIZE _ h cs m first true sizeof_pktsnip Hinv ltac:(unfold sizeof_pktsnip; lia)) as (q & cs1 & m1 & f1 & Hrun1 & Hres1).
  rewrite (bbind_ok _ _ _ _ _ Hrun1), align_pktsnip in *.
  pose proof (align_bounds (Z.of_nat (length b1)) ltac:(lia)) as [A1 _].
  pose proof (align_bounds (Z.of_nat (length b2)) ltac:(lia)) as [A2 _].
  destruct Hres1 as [(-> & Hno & -> & -> & ->)|(o & -> & _ & Hinv1 & _ & a1 & k1 & r1 & Hcs & Hk & Hcs1)].
  { cbn [Z.eqb]. rewrite unlock_ok. exists 0, h, cs, m, first. split; [done|]. split; [done|]. split; [by left|].
    intros _. eapply room_mono; [exact Hno|lia]. }
  destruct (pointer_range _ _ _ _ _ _ _ Hinv1) as [_ Hq0]. rewrite (proj2 (Z.eqb_neq _ _) Hq0).
  pose proof (hi_snips _ _ _ _ _ _ _ Hinv1 p sn Hp) as Hat1. rewrite (bb_snip_size base m1 f1 true p sn Hat1).
  set (Fin := λ moved : option Z, _ : B Z).
  assert (∀ d1 d2 cs2 m2 f2, marked [] h p o sn b1 b2 d1 d2 cs2 m2 f2 →
    ∃ q h' cs' m' first', Fin (Some d1) (Pktbuf m2 f2 true) = Some (q, Pktbuf m' first' false) ∧
      heap_inv [] h' cs' m' first' ∧ marked_off h p sn b1 b2 type q h' ∧
      (q = 0 → Forall (λ c, c.2 < sizeof_pktsnip + (_align (Z.of_nat (length b1)) + _align (Z.of_nat (length b2)))) cs)) as Hfin.
  { intros d1 d2 cs2 m2 f2 Hmk.
    destruct (mark_finish [] h cs2 m2 f2 p o sn b1 b2 d1 d2 type Hp Hb Hmk Hb1 Hz ltac:(apply Hat) ltac:(apply Hat) Htype)
      as (m3 & Hrun3 & Hpo & Hnone & Hinv3 & _).
    eexists (base + o), _, cs2, m3, f2. split; [exact Hrun3|]. split; [exact Hinv3|].
    split; [|done]. right. split; [done|]. split; [done|]. by exists d1, d2. }
  rewrite bb_if. destruct (negb (sn_size sn =? Z.of_nat (length b1)) && (Z.of_nat (length b1) <? _align (Z.of_nat (length b1)))) eqn:E.
  - apply andb_true_iff in E as [E1%negb_true_iff%Z.eqb_neq E2].
    assert (b2 ≠ []) as Hb2 by (intros ->; cbn [length] in Hlen; lia).
    destruct (mark_move_ok [] h cs1 m1 f1 true p o sn b1 b2 Hinv1 Hp Hb Hb1 Hb2) as (r & cs2 & m2 & f2 & Hrun2 & _ & Hres2).
    rewrite (bbind_ok _ _ _ _ _ Hrun2). destruct Hres2 as [(-> & Hinv2 & Hno)|(d1 & d2 & -> & Hmk)].
    + subst Fin. cbn beta iota. rewrite unlock_ok. exists 0, h, cs2, m2, f2. split; [done|]. split; [done|].
      split; [by left|]. intros _. subst cs1. by eapply rest_room; [done|done|unfold sizeof_pktsnip; lia..].
    + by eapply Hfin.
  - destruct (mark_in_place [] h cs1 m1 f1 true p o sn b1 b2 Fin Hinv1 Hp Hb Hb1) as (d1 & d2 & m2 & Hrun2 & Hmk & _).
    + pose proof (align_bounds (Z.of_nat (length b1)) ltac:(lia)) as [Hal _].
      apply andb_false_iff in E as [E%negb_false_iff%Z.eqb_eq|E%Z.ltb_ge].
      * left. destruct b2; [done|]. cbn [length] in Hlen. lia.
      * right. lia.
    + rewrite Hrun2. by eapply Hfin.
Qed.

(** ** Resizing *)

(** The memory when the data of [p] is [bs], at [d], but its size is not yet changed. *)
Record resized (bl : list chunk) (h : gmap Z snip) (p : Z) (sn : snip) (d : Z) (bs : list Z)
    (cs : list chunk) (m : list Z) (first : Z) : Prop := {
  rz_inv : heap_inv ((p - base, sizeof_pktsnip) :: data_blocks base d bs ++ bl) (delete p h) cs m first;
  rz_desc : desc_at m p (sn_next sn) d (sn_size sn) (sn_users sn) (sn_type sn);
  rz_null : bs = [] → d = 0;
  rz_data : bs ≠ [] → load m (d - base) (Z.of_nat (length bs)) = Some bs
}.

Lemma block_nonempty d bs : bs ≠ [] → data_blocks base d bs = [(d - base, _align (Z.of_nat (length bs)))].
Proof. intros Hne. unfold data_blocks. by rewrite decide_False. Qed.

(** Writing the data pointer of a descriptor whose blocks are [l]. *)
Lemma write_data {C} l h cs m first b p d0 d a sz us ty (f : unit → B C) :
  heap_inv ((p - base, sizeof_pktsnip) :: l) h cs m first → desc_at m p a d0 sz us ty → uint 64 d →
  ∃ m', (set_snip_data base p d ≫= f) (Pktbuf m first b) = f tt (Pktbuf m' first b) ∧
    heap_inv ((p - base, sizeof_pktsnip) :: l) h cs m' first ∧ desc_at m' p a d sz us ty ∧ Forall (same m m') l.
Proof.
  intros Hinv Hdesc Hd. pose proof (heap_ok _ _ _ _ _ _ _ Hinv) as ([(F1 & _ & _ & _ & F2) _]%Forall_cons & _ & Hml).
  cbn [fst snd] in F1, F2. unfold sizeof_pktsnip in F2.
  destruct (raw_write l h cs m first b p (p + 8) 8 8 d f Hinv eq_refl ltac:(lia) ltac:(unfold sizeof_pktsnip; lia)) as (Hrun & Hi & Hs).
  destruct (word_put_desc m p 8 d _ _ _ _ _ ltac:(unfold fits; lia) Hdesc) as (_ & Hdesc' & _).
  eexists. split; [exact Hrun|]. split; [exact Hi|]. split; [by apply Hdesc'|exact Hs].
Qed.

Lemma free_data_ok bl h cs m first l d bs sz : heap_inv (data_blocks base d bs ++ bl) h cs m first →
  sz = Z.of_nat (length bs) → (bs = [] → d = 0) →
  ∃ cs' m' first', _pktbuf_free base SIZE d sz (Pktbuf m first l) = Some (tt, Pktbuf m' first' l) ∧
    heap_inv bl h cs' m' first' ∧ Forall (same m m') bl.
Proof.
  intros Hinv -> Hnull. destruct (decide (bs = [])) as [Hb|Hb].
  - rewrite (Hnull Hb), free_null by done. exists cs, m, first. split; [done|]. split; [|apply same_refl].
    unfold data_blocks in Hinv. by rewrite decide_True in Hinv.
  - rewrite block_nonempty in Hinv by done.
    destruct (heap_free base SIZE bl h cs m first l _ _ (Z.of_nat (length bs)) Hinv eq_refl) as (cs' & m' & f' & Hrun & Hi & Hs).
    replace (base + (d - base)) with d in Hrun by lia. by exists cs', m', f'.
Qed.

(** The part of [gnrc_pktbuf_realloc_data] between the tests and the change of the size. *)
Definition realloc_move (pkt size psize data : Z) : B bool :=
  if (size =? 0) && negb (data =? 0) then
    _pktbuf_free base SIZE data psize;;
    set_snip_data base pkt 0;;
    mret true
  else if psize <? size then
    new_data ← _pktbuf_alloc base SIZE size;
    if new_data =? 0 then mret false
    else
      (if negb (data =? 0) then memcpy base new_data (SIn data) (if psize <? size then psize else size)
       else mret tt);;
      _pktbuf_free base SIZE data psize;;
      set_snip_data base pkt new_data;;
      mret true
  else if _align size <? _align psize then
    _pktbuf_free base SIZE (data + _align size) (u64 (psize - _align size));;
    mret true
  else mret true.

Lemma data_null bl h cs m first p sn : heap_inv bl h cs m first → h !! p = Some sn →
  (sn_data sn =? 0) = bool_decide (sn_bytes sn = []).
Proof.
  intros Hinv Hp. destruct (decide (sn_bytes sn = [])) as [E|E].
  - rewrite bool_decide_true by done. apply Z.eqb_eq. by apply (sa_null _ _ _ _ (hi_snips _ _ _ _ _ _ _ Hinv p sn Hp)).
  - rewrite bool_decide_false by done. destruct (source_of_ok _ _ _ _ _ _ _ Hinv Hp E) as [H _]. unfold source_of in H.
    by destruct (sn_data sn =? 0).
Qed.

(** Freeing the data of a snip and giving it other data. *)
Lemma replace_data l0 h cs m first b p sn d bs : heap_inv l0 h cs m first → h !! p = Some sn → uint 64 d →
  data_blocks base d bs ⊆+ l0 → (bs = [] → d = 0) → (bs ≠ [] → load m (d - base) (Z.of_nat (length bs)) = Some bs) →
  Z.of_nat (length bs) < 2 ^ 63 →
  ∃ cs' m' first', (_pktbuf_free base SIZE (sn_data sn) (sn_size sn);; set_snip_data base p d;; (mret true : B bool))
      (Pktbuf m first b) = Some (true, Pktbuf m' first' b) ∧
    heap_inv ((p - base, sizeof_pktsnip) :: l0) (delete p h) cs' m' first' ∧
    desc_at m' p (sn_next sn) d (sn_size sn) (sn_users sn) (sn_type sn) ∧
    (bs ≠ [] → load m' (d - base) (Z.of_nat (length bs)) = Some bs).
Proof.
  intros Hinv Hp Hd Hsub Hnull Hload Hbs.
  destruct (heap_elim _ _ _ _ _ _ _ p sn Hp Hinv) as [Hraw Hat]. unfold snip_blocks in Hraw. cbn [app] in Hraw.
  assert (heap_inv (data_blocks base (sn_data sn) (sn_bytes sn) ++ (p - base, sizeof_pktsnip) :: l0) (delete p h) cs m first) as Hraw1.
  { eapply heap_perm; [|exact Hraw]. apply Permutation_middle. }
  destruct (free_data_ok _ _ _ _ _ b _ _ (sn_size sn) Hraw1 eq_refl (sa_null _ _ _ _ Hat)) as (cs1 & m1 & f1 & Hrun1 & Hi1 & Hs1).
  apply Forall_cons in Hs1 as [Hs1p Hs1].
  pose proof (desc_same _ _ _ _ _ _ _ _ Hs1p (snip_desc _ _ _ Hat)) as Hdesc1.
  destruct (write_data _ _ _ _ _ b p _ d _ _ _ _ (λ _, mret true) Hi1 Hdesc1 Hd) as (m2 & Hrun2 & Hi2 & Hdesc2 & Hs2).
  exists cs1, m2, f1. split; [by rewrite (bbind_ok _ _ _ _ _ Hrun1)|]. split; [done|]. split; [done|].
  intros Hne. rewrite <- (Hload Hne). rewrite block_nonempty in Hsub by done.
  assert ((d - base, _align (Z.of_nat (length bs))) ∈ l0) as Hin.
  { eapply elem_of_submseteq; [|exact Hsub]. by left. }
  pose proof (same_trans _ _ _ _ Hs1 Hs2) as Hs. pose proof (align_bounds (Z.of_nat (length bs)) ltac:(lia)).
  eapply (same_load m m2 _ _ _ _ Hs Hin); cbn [fst snd]; lia.
Qed.

Lemma realloc_empty h cs m first l p sn : heap_inv [] h cs m first → h !! p = Some sn → sn_bytes sn ≠ [] →
  ∃ cs' m' first', realloc_move p 0 (sn_size sn) (sn_data sn) (Pktbuf m first l) = Some (true, Pktbuf m' first' l) ∧
    resized [] h p sn 0 [] cs' m' first'.
Proof.
  intros Hinv Hp Hne. unfold realloc_move. rewrite (data_null _ _ _ _ _ _ _ Hinv Hp), bool_decide_false by done. cbn [Z.eqb negb andb].
  destruct (replace_data [] h cs m first l p sn 0 [] Hinv Hp) as (cs' & m' & f' & Hrun & Hi & Hdesc & _); try done.
  exists cs', m', f'. by split.
Qed.

Lemma realloc_grow h cs m first l p sn size : heap_inv [] h cs m first → h !! p = Some sn → sn_size sn < size < 2 ^ 63 →
  ∃ r cs' m' first', realloc_move p size (sn_size sn) (sn_data sn) (Pktbuf m first l) = Some (r, Pktbuf m' first' l) ∧
    (r = false ∧ heap_inv [] h cs' m' first' ∧ Forall (λ c, c.2 < _align size) cs ∨
     r = true ∧ ∃ d extra, Z.of_nat (length (sn_bytes sn ++ extra)) = size ∧
       resized [] h p sn d (sn_bytes sn ++ extra) cs' m' first').
Proof.
  intros Hinv Hp Hsize. assert (0 ≤ sn_size sn) as Hz by (unfold sn_size; lia).
  unfold realloc_move. rewrite (proj2 (Z.eqb_neq size 0)), (proj2 (Z.ltb_lt _ _)) by lia. cbn [andb].
  destruct (heap_alloc base SIZE _ h cs m first l size Hinv ltac:(lia)) as (q & cs1 & m1 & f1 & Hrun1 & Hres1).
  rewrite (bbind_ok _ _ _ _ _ Hrun1). destruct Hres1 as [(-> & Hno & -> & -> & ->)|(o & -> & _ & Hinv1 & _ & _)].
  { exists false, cs, m, first. split; [done|by left]. }
  destruct (pointer_range _ _ _ _ _ _ _ Hinv1) as [Hq64 Hq0]. rewrite (proj2 (Z.eqb_neq _ _) Hq0).
  pose proof (align_bounds size ltac:(lia)) as [Hal _]. set (n := _align size) in *.
  destruct (load_block _ _ _ _ _ o n size Hinv1 ltac:(lia)) as (c & Hc & Hcl).
  assert (∃ m2 extra, ((if negb (sn_data sn =? 0) then memcpy base (base + o) (SIn (sn_data sn)) (sn_size sn) else mret tt)
      (Pktbuf m1 f1 l) = Some (tt, Pktbuf m2 f1 l)) ∧ heap_inv [(o, n)] h cs1 m2 f1 ∧
      Z.of_nat (length (sn_bytes sn ++ extra)) = size ∧ load m2 o size = Some (sn_bytes sn ++ extra)) as (m2 & extra & Hrun2 & Hinv2 & Hlen & Hload).
  { rewrite (data_null _ _ _ _ _ _ _ Hinv1 Hp). case_bool_decide as E; cbn [negb].
    - exists m1, c. rewrite E. by split_and!.
    - destruct (split_at c (length (sn_bytes sn)) ltac:(unfold sn_size in *; lia)) as (c1 & extra & -> & Hc1).
      destruct (memcpy_ok [] h cs1 m1 f1 l o n (c1 ++ extra) 0 (base + o) (SIn (sn_data sn)) (sn_bytes sn) Hinv1)
        as (m2 & c' & Hrun & Hi & _ & Hst & Hl); try lia; [by rewrite Hcl|unfold sn_size in *; lia| |].
      { intros _. split; [|done]. exists p, sn, [], []. split; [done|]. split; [by rewrite app_nil_r|cbn; lia]. }
      rewrite store_prefix in Hst by done. injection Hst as <-.
      exists m2, extra. split; [done|]. split; [done|]. rewrite Hcl in Hl. split; [|done].
      rewrite length_app in *. lia. }
  rewrite (bbind_ok _ _ _ _ _ Hrun2).
  assert (sn_bytes sn ++ extra ≠ []) as Hne by (intros E; rewrite E in Hlen; cbn [length] in Hlen; lia).
  assert (base + o - base = o) as Eo by lia.
  destruct (replace_data [(o, n)] h cs1 m2 f1 l p sn (base + o) (sn_bytes sn ++ extra) Hinv2 Hp Hq64)
    as (cs' & m' & f' & Hrun3 & Hi & Hdesc & Hl); try done; try lia.
  - rewrite block_nonempty, Hlen, Eo by done. done.
  - intros _. by rewrite Hlen, Eo.
  - exists true, cs', m', f'. split; [exact Hrun3|]. right. split; [done|]. exists (base + o), extra. split; [done|].
    split; [|done|done|done]. rewrite block_nonempty, Hlen, Eo by done. exact Hi.
Qed.

Lemma realloc_shrink h cs m first l p sn bs rest : heap_inv [] h cs m first → h !! p = Some sn →
  sn_bytes sn = bs ++ rest → bs ≠ [] →
  ∃ cs' m' first', realloc_move p (Z.of_nat (length bs)) (sn_size sn) (sn_data sn) (Pktbuf m first l) =
      Some (true, Pktbuf m' first' l) ∧ resized [] h p sn (sn_data sn) bs cs' m' first'.
Proof.
  intros Hinv Hp Hb Hne. pose proof (hi_sizes _ _ _ _ _ _ _ Hinv p sn Hp) as Hz.
  assert (Z.of_nat (length bs) + Z.of_nat (length rest) = sn_size sn) as Hlen by (unfold sn_size; rewrite Hb, length_app; lia).
  assert (0 < Z.of_nat (length bs)) as Hpos by (destruct bs; [done|cbn [length]; lia]).
  assert (sn_bytes sn ≠ []) as Hne' by (rewrite Hb; by destruct bs).
  unfold realloc_move. rewrite (proj2 (Z.eqb_neq _ 0)), (proj2 (Z.ltb_ge _ _)) by lia. cbn [andb].
  destruct (heap_elim _ _ _ _ _ _ _ p sn Hp Hinv) as [Hraw Hat]. unfold snip_blocks in Hraw.
  rewrite block_nonempty in Hraw by done. cbn [app] in Hraw. change (Z.of_nat (length (sn_bytes sn))) with (sn_size sn) in Hraw.
  pose proof (sa_bytes _ _ _ _ Hat Hne') as Hload. rewrite Hb in Hload.
  pose proof (load_sub m _ (sn_size sn) [] bs rest Hload) as Hl1. cbn [length Z.of_nat] in Hl1. rewrite Z.add_0_r in Hl1.
  pose proof (align_bounds (Z.of_nat (length bs)) ltac:(lia)) as [A1 A2].
  pose proof (align_bounds (sn_size sn) ltac:(lia)) as [B1 B2].
  destruct (Z.ltb_spec (_align (Z.of_nat (length bs))) (_align (sn_size sn))) as [Hlt|Hge].
  - set (s := _align (Z.of_nat (length bs))) in *.
    assert (s < sn_size sn) as Hs by (destruct A2 as [u Hu], B2 as [v Hv]; lia).
    rewrite wrap_small by (unfold uint; lia).
    assert (_align (sn_size sn) = s + _align (sn_size sn - s)) as Hsplit.
    { rewrite <- align_add by (done || lia). f_equal. lia. }
    pose proof (align_bounds (sn_size sn - s) ltac:(lia)) as [C1 C2].
    rewrite Hsplit in Hraw. eapply heap_perm in Hraw; [|apply perm_swap]. apply heap_split in Hraw; [|done|done|lia|lia].
    eapply heap_perm in Hraw; [|apply perm_swap].
    destruct (heap_free base SIZE _ _ cs m first l _ _ (sn_size sn - s) Hraw eq_refl) as (cs' & m' & f' & Hrun & Hi & Hsame).
    replace (base + (sn_data sn - base + s)) with (sn_data sn + s) in Hrun by lia.
    exists cs', m', f'. split; [by rewrite (bbind_ok _ _ _ _ _ Hrun)|].
    pose proof Hsame as [Hsd [Hsp _]%Forall_cons]%Forall_cons. split.
    + rewrite block_nonempty by done. fold s. eapply heap_perm; [apply perm_swap|exact Hi].
    + apply (desc_same _ _ _ _ _ _ _ _ Hsp). by apply snip_desc.
    + done.
    + intros _. rewrite <- Hl1. apply Hsd; cbn [fst snd]; lia.
  - exists cs, m, first. split; [done|]. split; [|by apply snip_desc|done|done].
    rewrite block_nonempty by done.
    assert (_align (Z.of_nat (length bs)) = _align (sn_size sn)) as ->; [|exact Hraw].
    rewrite !_align_spec in * by lia. apply Z.le_antisymm; [|done].
    apply Z.mul_le_mono_nonneg_r; [lia|]. apply Z.div_le_mono; lia.
Qed.

(** The outcome of resizing the data of [p]: no room for more, or [size] bytes that
    begin with the old ones, or with which the old ones begin. *)
Definition resized_to (h : gmap Z snip) (p : Z) (sn : snip) (size r : Z) (h' : gmap Z snip) : Prop :=
  r = ENOMEM ∧ sn_size sn < size ∧ h' = h ∨
  r = 0 ∧ ∃ d bs, h' = <[p := with_data d bs sn]> h ∧ Z.of_nat (length bs) = size ∧
    (bs `prefix_of` sn_bytes sn ∨ sn_bytes sn `prefix_of` bs).

Lemma realloc_finish h cs m first p sn d bs : h !! p = Some sn → resized [] h p sn d bs cs m first →
  Z.of_nat (length bs) < 2 ^ 63 → - 2 ^ 31 ≤ sn_type sn < 2 ^ 31 → 0 < sn_users sn →
  ∃ m', (set_snip_size base p (Z.of_nat (length bs));; mutex_unlock_pktbuf;; (mret 0 : B Z)) (Pktbuf m first true) =
      Some (0, Pktbuf m' first false) ∧
    heap_inv [] (<[p := with_data d bs sn]> h) cs m' first.
Proof.
  intros Hp [Hinv Hdesc Hnull Hdata] Hlen Htype Husers.
  pose proof (heap_ok _ _ _ _ _ _ _ Hinv) as ([(F1 & _ & _ & _ & F2) _]%Forall_cons & _ & Hml).
  cbn [fst snd] in F1, F2. unfold sizeof_pktsnip in F2. set (K := λ _ : unit, _ : B Z).
  destruct (raw_write _ _ cs m first true p (p + 16) 16 8 (Z.of_nat (length bs)) K Hinv eq_refl ltac:(lia) ltac:(unfold sizeof_pktsnip; lia))
    as (Hrun & Hi & Hs).
  destruct (word_put_desc m p 16 (Z.of_nat (length bs)) _ _ _ _ _ ltac:(unfold fits; lia) Hdesc) as (_ & _ & Hdesc').
  destruct (Hdesc' eq_refl ltac:(unfold uint; lia)) as [E1 E2 E3 E4 E5]. clear Hdesc'.
  set (m' := put_word m (p - base + 16) 8 (Z.of_nat (length bs))) in *. exists m'. split; [exact Hrun|].
  destruct (heap_intro base SIZE [] (delete p h) cs m' first p (with_data d bs sn)) as [_ Hi'].
  - exact Hi.
  - split; try done. cbn [sn_bytes sn_data with_data]. intros Hne. unfold sn_size. cbn [sn_bytes with_data].
    rewrite <- (Hdata Hne). rewrite block_nonempty in Hs by done. cbn [app] in Hs.
    pose proof (align_bounds (Z.of_nat (length bs))). eapply (same_load m m' _ _ _ _ Hs); [by left|cbn [fst snd]; lia..].
  - exact Hlen.
  - by rewrite insert_delete_eq in Hi'.
Qed.

Lemma realloc_ok h cs m first p sn size : heap_inv [] h cs m first → h !! p = Some sn → 0 ≤ size < 2 ^ 63 →
  ∃ r h' cs' m' first', gnrc_pktbuf_realloc_data base SIZE p size (Pktbuf m first false) = Some (r, Pktbuf m' first' false) ∧
    heap_inv [] h' cs' m' first' ∧ resized_to h p sn size r h' ∧
    (r = ENOMEM → Forall (λ c, c.2 < _align size) cs).
Proof.
  intros Hinv Hp Hsize. pose proof (hi_snips _ _ _ _ _ _ _ Hinv p sn Hp) as Hat.
  pose proof (desc_fits _ _ _ _ _ _ _ _ _ Hinv Hp) as (_ & _ & Hp0 & _).
  unfold gnrc_pktbuf_realloc_data. cbv zeta. rewrite lock_ok, bb_assert by (by rewrite (proj2 (Z.eqb_neq _ _) Hp0)). cbn beta.
  rewrite (bb_snip_size base m first true p sn Hat), (bb_snip_data base m first true p sn Hat).
  rewrite bb_assert.
  2: { rewrite (data_null _ _ _ _ _ _ _ Hinv Hp). case_bool_decide as E.
    - unfold sn_size. by rewrite E.
    - cbn [negb]. rewrite andb_true_r, andb_false_r, orb_false_l. apply andb_true_iff. split.
      + apply Z.ltb_lt. unfold sn_size. destruct (sn_bytes sn); [done|cbn [length]; lia].
      + destruct (heap_elim _ _ _ _ _ _ _ p sn Hp Hinv) as [Hraw _]. unfold snip_blocks in Hraw. rewrite block_nonempty in Hraw by done.
        pose proof (heap_ok _ _ _ _ _ _ _ Hraw) as ([_ [(F1 & _ & _ & F3 & F2) _]%Forall_cons]%Forall_cons & _ & _). cbn [fst snd] in *.
        pose proof (contains_in base SIZE (sn_data sn - base) ltac:(lia)) as Hin.
        by replace (base + (sn_data sn - base)) with (sn_data sn) in Hin by lia. }
  cbn beta. destruct (Z.eqb_spec size (sn_size sn)) as [->|Hne].
  { rewrite unlock_ok. exists 0, h, cs, m, first. split; [done|]. split; [done|]. split; [right|done]. split; [done|].
    exists (sn_data sn), (sn_bytes sn). split; [|split; [done|by left]].
    rewrite <- (insert_id h p sn Hp) at 1. f_equal. by destruct sn. }
  change (if (size =? 0) && negb (sn_data sn =? 0) then _ else _) with (realloc_move p size (sn_size sn) (sn_data sn)).
  assert (∀ d bs cs2 m2 f2, resized [] h p sn d bs cs2 m2 f2 → Z.of_nat (length bs) = size →
    (bs `prefix_of` sn_bytes sn ∨ sn_bytes sn `prefix_of` bs) →
    ∃ r h' cs' m' first', (set_snip_size base p size;; mutex_unlock_pktbuf;; (mret 0 : B Z)) (Pktbuf m2 f2 true) = Some (r, Pktbuf m' first' false) ∧
      heap_inv [] h' cs' m' first' ∧ resized_to h p sn size r h' ∧ (r = ENOMEM → Forall (λ c, c.2 < _align size) cs)) as Hfin.
  { intros d bs cs2 m2 f2 Hrz <- Hpre.
    destruct (realloc_finish h cs2 m2 f2 p sn d bs Hp Hrz ltac:(lia) ltac:(apply Hat) ltac:(apply Hat)) as (m' & Hrun & Hi).
    eexists 0, _, cs2, m', f2. split; [exact Hrun|]. split; [exact Hi|]. split; [right|done]. split; [done|]. by exists d, bs. }
  destruct (Z.lt_ge_cases (sn_size sn) size) as [Hgrow|Hle].
  - destruct (realloc_grow h cs m first true p sn size Hinv Hp ltac:(lia)) as (r & cs2 & m2 & f2 & Hrun & [(-> & Hi & Hno)|(-> & d & extra & Hlen & Hrz)]);
      rewrite (bbind_ok _ _ _ _ _ Hrun); cbn beta iota.
    + rewrite unlock_ok. exists ENOMEM, h, cs2, m2, f2. split; [done|]. split; [done|]. split; [by left|done].
    + eapply Hfin; [exact Hrz|done|]. right. by apply prefix_app_r.
  - destruct (Z.eq_dec size 0) as [->|Hsz].
    + assert (sn_bytes sn ≠ []) as Hb by (intros E; unfold sn_size in *; rewrite E in *; done).
      destruct (realloc_empty h cs m first true p sn Hinv Hp Hb) as (cs2 & m2 & f2 & Hrun & Hrz).
      rewrite (bbind_ok _ _ _ _ _ Hrun). cbn beta iota. eapply Hfin; [exact Hrz|done|left; apply prefix_nil].
    + destruct (split_at (sn_bytes sn) (Z.to_nat size) ltac:(unfold sn_size in *; lia)) as (bs & rest & Hb & Hl).
      destruct (realloc_shrink h cs m first true p sn bs rest Hinv Hp Hb) as (cs2 & m2 & f2 & Hrun & Hrz); [by intros ->; cbn [length] in *; lia|].
      replace (Z.of_nat (length bs)) with size in Hrun by lia. rewrite (bbind_ok _ _ _ _ _ Hrun). cbn beta iota.
      eapply Hfin; [exact Hrz|lia|]. left. rewrite Hb. by apply prefix_app_r.
Qed.
End Packets.
