(* ===== verification/PktbufPackets.v ===== *)
(** * Packets

    The calls that walk over a packet or change its list of snips: length, search,
    removing, replacing and reversing snips, joining a packet into one snip. *)

From stdpp Require Import sorting.
From S2P Require Import Prelude Bytes Buffers Pktbuf PktbufAlloc PktbufHeap PktbufProof.

Implicit Types h : gmap Z snip.

(** The data of the snips [l], in their order. *)
Definition bytes_of (h : gmap Z snip) (q : Z) : list Z := from_option sn_bytes [] (h !! q).
Definition content (h : gmap Z snip) (l : list Z) : list Z := concat (bytes_of h <$> l).

Lemma content_app h a b : content h (a ++ b) = content h a ++ content h b.
Proof. unfold content. by rewrite fmap_app, concat_app. Qed.

Lemma content_ext h h' l : (∀ q, q ∈ l → bytes_of h' q = bytes_of h q) → content h' l = content h l.
Proof.
  intros Hl. unfold content. f_equal. apply list_fmap_ext. intros i q Hq. apply Hl. by eapply list_elem_of_lookup_2.
Qed.

Section Packets.
Context (base SIZE : Z) `{!BufferConf base SIZE}.
Abbreviation heap_inv := (heap_inv base SIZE).
Abbreviation blocks := (blocks base).

(** ** Walking *)

Lemma content_total h l : NoDup l → (∀ q, q ∈ l → is_Some (h !! q)) → (∀ q sn, h !! q = Some sn → sn_size sn < 2 ^ 63) →
  Forall (chunk_ok SIZE) (blocks h) → Z.of_nat (length (content h l)) ≤ total (blocks h).
Proof.
  intros Hnd. revert h. induction Hnd as [|q l Hql Hnd IH]; intros h Hl Hz Hok.
  - pose proof (length_total SIZE _ Hok) as Ht. cbn [content fmap list_fmap concat length Z.of_nat] in *. lia.
  - destruct (Hl q ltac:(by left)) as [sn Hq]. pose proof (blocks_delete base h q sn Hq) as Hp.
    rewrite Hp in Hok. apply Forall_app in Hok as [Hoks Hokd]. rewrite Hp, total_app.
    specialize (IH (delete q h)). assert (Z.of_nat (length (content (delete q h) l)) ≤ total (blocks (delete q h))) as Hi.
    { apply IH; [| |done].
      - intros r Hr. rewrite lookup_delete_ne by (by intros ->). apply Hl. by right.
      - intros r sr [_ Hr]%lookup_delete_Some. by eapply Hz. }
    rewrite (content_ext h (delete q h)) in Hi.
    2: { intros r Hr. unfold bytes_of. rewrite lookup_delete_ne; [done|]. by intros ->. }
    unfold content in *. cbn [fmap list_fmap concat]. rewrite length_app.
    assert (Z.of_nat (length (bytes_of h q)) ≤ total (snip_blocks base q sn)); [|lia].
    unfold bytes_of. rewrite Hq. cbn [from_option]. unfold snip_blocks, sizeof_pktsnip. cbn [total foldr snd].
    specialize (Hz q sn Hq). unfold data_blocks. case_decide as Hb; cbn [foldr snd].
    + rewrite Hb. cbn [length]. lia.
    + pose proof (align_bounds (sn_size sn)) as Hal. unfold sn_size in *. lia.
Qed.

Lemma content_length bl h cs m first l : heap_inv bl h cs m first → NoDup l → (∀ q, q ∈ l → is_Some (h !! q)) →
  Z.of_nat (length (content h l)) ≤ SIZE.
Proof.
  intros Hinv Hnd Hl. pose proof (ly_parts _ _ _ (heap_layout _ _ _ _ _ _ _ Hinv)) as [Hok _ Ht].
  rewrite !total_app in Ht. rewrite !Forall_app in Hok. destruct Hok as [[Hbl Hbh] Hcs].
  pose proof (length_total SIZE _ Hbl). pose proof (length_total SIZE _ Hcs).
  pose proof (content_total h l Hnd Hl (hi_sizes _ _ _ _ _ _ _ Hinv) Hbh). lia.
Qed.

(** A loop over the snips of a packet, with what it needs of each snip. *)
Lemma pkt_len_loop_ok bl h cs m first b l : ∀ fuel p len, heap_inv bl h cs m first → chain h p l → (length l < fuel)%nat →
  0 ≤ len → len + Z.of_nat (length (content h l)) < 2 ^ 64 →
  len_loop base fuel p len (Pktbuf m first b) = Some (len + Z.of_nat (length (content h l)), Pktbuf m first b).
Proof.
  induction l as [|q l IH]; intros [|fuel] p len Hinv Hc Hf Hlen Hsum; try (cbn [length] in Hf; lia); cbn [len_loop].
  - cbn in Hc. subst p. cbn. by rewrite Z.add_0_r.
  - destruct Hc as (-> & sn & Hq & Hc). pose proof (hi_snips _ _ _ _ _ _ _ Hinv q sn Hq) as Hat.
    pose proof (desc_fits _ _ _ _ _ _ _ _ _ Hinv Hq) as (_ & _ & Hq0 & _). rewrite (proj2 (Z.eqb_neq _ _) Hq0).
    rewrite (bb_snip_size base m first b q sn Hat), (bb_snip_next base m first b q sn Hat).
    unfold content in *. cbn [fmap list_fmap concat] in *. unfold bytes_of at 1 in Hsum. unfold bytes_of at 1. rewrite Hq in *.
    cbn [from_option] in *. rewrite length_app in *. change (Z.of_nat (length (sn_bytes sn))) with (sn_size sn) in *.
    assert (0 ≤ sn_size sn) by (unfold sn_size; lia). rewrite Nat2Z.inj_add in *. change (Z.of_nat (length (sn_bytes sn))) with (sn_size sn) in *.
    rewrite wrap_small by (unfold uint; lia). rewrite (IH fuel (sn_next sn)) by (done || cbn [length] in Hf; lia).
    do 2 f_equal. lia.
Qed.

Lemma pkt_len_ok bl h cs m first b p l : heap_inv bl h cs m first → chain h p l →
  gnrc_pkt_len base SIZE p (Pktbuf m first b) = Some (Z.of_nat (length (content h l)), Pktbuf m first b).
Proof.
  intros Hinv Hc. pose proof (chain_NoDup _ (heap_null _ _ _ _ _ _ _ Hinv) _ _ Hc) as Hnd.
  pose proof (content_length _ _ _ _ _ l Hinv Hnd ltac:(intros q; by eapply chain_lookup)) as Hlen.
  pose proof conf_size. unfold gnrc_pkt_len. rewrite (pkt_len_loop_ok bl h cs m first b l) by (done || lia || by eapply chain_fuel). done.
Qed.

Lemma count_loop_ok bl h cs m first b l : ∀ fuel p n, heap_inv bl h cs m first → chain h p l → (length l < fuel)%nat →
  0 ≤ n → n + Z.of_nat (length l) < 2 ^ 64 →
  count_loop base fuel p n (Pktbuf m first b) = Some (n + Z.of_nat (length l), Pktbuf m first b).
Proof.
  induction l as [|q l IH]; intros [|fuel] p n Hinv Hc Hf Hn Hsum; try (cbn [length] in Hf; lia); cbn [count_loop].
  - cbn in Hc. subst p. cbn. by rewrite Z.add_0_r.
  - destruct Hc as (-> & sn & Hq & Hc). pose proof (hi_snips _ _ _ _ _ _ _ Hinv q sn Hq) as Hat.
    pose proof (desc_fits _ _ _ _ _ _ _ _ _ Hinv Hq) as (_ & _ & Hq0 & _). rewrite (proj2 (Z.eqb_neq _ _) Hq0).
    rewrite (bb_snip_next base m first b q sn Hat). cbn [length] in *.
    rewrite wrap_small by (unfold uint; lia). rewrite (IH fuel (sn_next sn)) by (done || lia). do 2 f_equal. lia.
Qed.

Lemma pkt_count_ok bl h cs m first b p l : heap_inv bl h cs m first → chain h p l →
  gnrc_pkt_count base SIZE p (Pktbuf m first b) = Some (Z.of_nat (length l), Pktbuf m first b).
Proof.
  intros Hinv Hc. pose proof (chain_fuel _ _ _ _ _ _ _ _ _ Hinv Hc) as Hf. unfold gnrc_pkt_count.
  pose proof conf_size. rewrite (count_loop_ok bl h cs m first b l) by (done || (unfold fuel in Hf; lia)). done.
Qed.

Definition has_type (h : gmap Z snip) (type q : Z) : bool :=
  match h !! q with Some sn => sn_type sn =? type | None => false end.

(** The first snip of a type, or the null pointer. *)
Fixpoint first_of_type (h : gmap Z snip) (type : Z) (l : list Z) : Z :=
  match l with [] => 0 | q :: l => if has_type h type q then q else first_of_type h type l end.

Lemma search_loop_ok bl h cs m first b type l : ∀ fuel p, heap_inv bl h cs m first → chain h p l → (length l < fuel)%nat →
  search_loop base fuel p type (Pktbuf m first b) = Some (first_of_type h type l, Pktbuf m first b).
Proof.
  induction l as [|q l IH]; intros [|fuel] p Hinv Hc Hf; try (cbn [length] in Hf; lia); cbn [search_loop first_of_type].
  - cbn in Hc. by subst p.
  - destruct Hc as (-> & sn & Hq & Hc). pose proof (hi_snips _ _ _ _ _ _ _ Hinv q sn Hq) as Hat.
    pose proof (desc_fits _ _ _ _ _ _ _ _ _ Hinv Hq) as (_ & _ & Hq0 & _). rewrite (proj2 (Z.eqb_neq _ _) Hq0).
    rewrite (bb_snip_type base m first b q sn Hat). unfold has_type. rewrite Hq. destruct (sn_type sn =? type); [done|]. cbn [negb].
    rewrite (bb_snip_next base m first b q sn Hat). apply IH; [done|done|cbn [length] in Hf; lia].
Qed.

Lemma search_type_ok bl h cs m first b type p l : heap_inv bl h cs m first → chain h p l →
  gnrc_pktsnip_search_type base SIZE p type (Pktbuf m first b) = Some (first_of_type h type l, Pktbuf m first b).
Proof. intros Hinv Hc. eapply search_loop_ok; [done|done|by eapply chain_fuel]. Qed.

(** ** Reversing *)

Lemma release_one_some h q sn : h !! q = Some sn →
  release_one h q = if decide (sn_users sn = 1) then delete q h else <[q := with_users (sn_users sn - 1) sn]> h.
Proof. intros Hq. unfold release_one. by rewrite Hq. Qed.

Lemma release_deleted (l : list Z) : ∀ h : gmap Z snip, NoDup l → (∀ q, q ∈ l → ∃ sn, h !! q = Some sn ∧ sn_users sn = 1) →
  foldl release_one h l = foldr delete h l.
Proof.
  induction l as [|q l IH]; intros h Hnd Hl; [done|]. apply NoDup_cons in Hnd as [Hql Hnd]. cbn [foldl foldr].
  destruct (Hl q ltac:(by left)) as (sn & Hq & Hu).
  assert (release_one h q = delete q h) as -> by (unfold release_one; rewrite Hq; by rewrite decide_True).
  rewrite IH; [|done|].
  - clear. induction l as [|r l IH]; [done|]. cbn [foldr]. by rewrite IH, delete_delete.
  - intros r Hr. rewrite lookup_delete_ne by (by intros ->). apply Hl. by right.
Qed.

Lemma foldr_delete_lookup (h : gmap Z snip) l q : q ∉ l → foldr delete h l !! q = h !! q.
Proof.
  induction l as [|r l IH]; intros Hq; [done|]. apply not_elem_of_cons in Hq as [Hqr Hq]. cbn [foldr].
  rewrite lookup_delete_ne by congruence. by apply IH.
Qed.

Lemma foldr_delete_insert (h : gmap Z snip) l q sn : q ∉ l → foldr delete (<[q := sn]> h) l = <[q := sn]> (foldr delete h l).
Proof.
  induction l as [|r l IH]; intros Hq; [done|]. apply not_elem_of_cons in Hq as [Hqr Hq]. cbn [foldr].
  by rewrite IH, delete_insert_ne by congruence.
Qed.

Lemma foldl_release_lookup l q : ∀ h, q ∉ l → foldl release_one h l !! q = h !! q.
Proof.
  induction l as [|r l IH]; intros h Hq; [done|]. apply not_elem_of_cons in Hq as [Hqr Hq]. cbn [foldl].
  rewrite IH by done. by apply release_one_other.
Qed.

(** What of a snip matters to the user: its data and its type. *)
Definition view (h : gmap Z snip) (q : Z) : option (list Z * Z) := (λ sn, (sn_bytes sn, sn_type sn)) <$> h !! q.

Lemma view_ext h h' (l : list Z) : (∀ q, q ∈ l → h' !! q = h !! q) → view h' <$> l = view h <$> l.
Proof. intros Hl. apply list_fmap_ext. intros i q Hq%list_elem_of_lookup_2. unfold view. by rewrite Hl. Qed.

(** The snips [lr], reversed so far, and [lp], still to come; [done] are those that
    were reversed. *)
Record reversing (h0 h : gmap Z snip) (reversed ptr : Z) (lr lp dn : list Z) : Prop := {
  rv_chain : chain h reversed lr;
  rv_rest : chain h ptr lp;
  rv_own : ∀ q, q ∈ lr → ∃ sn, h !! q = Some sn ∧ sn_users sn = 1;
  rv_disj : ∀ q, q ∈ lp → q ∉ lr;
  rv_same : ∀ q, q ∈ lp → h !! q = h0 !! q;
  rv_others : foldr delete h lr = foldl release_one h0 dn;
  rv_view : view h <$> lr = reverse (view h0 <$> dn)
}.

(** One step: [q] is used itself, or the copy [r] instead of it. *)
Lemma reversing_step h0 h h1 reversed q lr lp dn sn r : reversing h0 h reversed q lr (q :: lp) dn →
  NoDup (dn ++ q :: lp) → NoDup lr → h !! 0 = None → h !! q = Some sn → protected h q sn r h1 → r ≠ 0 →
  ∃ sr, h1 !! r = Some sr ∧ sn_next sr = sn_next sn ∧
    reversing h0 (<[r := with_next reversed sr]> h1) r (sn_next sn) (r :: lr) lp (dn ++ [q]).
Proof.
  intros [Hc Hp Hown Hdisj Hsame Hoth Hview] Hnd Hndr H0 Hq Hprot Hr0.
  apply NoDup_app in Hnd as (Hnd1 & Hnd2 & [Hqlp Hndlp]%NoDup_cons).
  pose proof (Hdisj q ltac:(by left)) as Hqlr. pose proof (Hsame q ltac:(by left)) as Hq0. rewrite Hq in Hq0.
  destruct Hp as (_ & sn' & Hq' & Hp). rewrite Hq in Hq'. injection Hq' as <-.
  assert (q ∉ dn) as Hqdn by (intros Hin; apply (Hnd2 q Hin); by left).
  assert (∀ x, x ∈ lp → x ≠ q) as Hlpq by (by intros x Hx ->).
  assert (∃ sr, h1 !! r = Some sr ∧ sn_next sr = sn_next sn ∧ sn_users sr = 1 ∧ sn_bytes sr = sn_bytes sn ∧
    sn_type sr = sn_type sn ∧ (r ∉ lr) ∧ (r ∉ lp) ∧ (∀ x, x ∈ (lr ++ lp) → h1 !! x = h !! x) ∧
    delete r (foldr delete h1 lr) = release_one (foldl release_one h0 dn) q) as
    (sr & Hsr & Hn & Hu & Hb & Ht & Hrlr & Hrlp & Hkeep & Hdel).
  { assert (foldl release_one h0 dn !! q = Some sn) as Hdq by (rewrite foldl_release_lookup; done).
    rewrite (release_one_some _ _ _ Hdq). destruct Hprot as [(Hu & -> & ->)|(Hu & [[-> _]|(_ & Hnone & d & ->)])]; [|done|].
    - exists sn. rewrite decide_True by done. split_and!; try done. by rewrite Hoth.
    - rewrite decide_False by lia.
      assert (r ≠ q) as Hrq by congruence.
      assert (∀ x, x ∈ (lr ++ lp) → x ≠ r ∧ x ≠ q) as Hx.
      { intros x [Hx|Hx]%elem_of_app; (split; [|by intros ->]); intros ->.
        - destruct (Hown r Hx) as (? & ? & _). congruence.
        - destruct (chain_lookup _ _ _ r Hp Hx) as [? ?]. congruence. }
      eexists. rewrite lookup_insert_ne, lookup_insert_eq by done. split; [done|]. cbn [sn_next sn_users sn_bytes sn_type].
      split_and!; try done; [by intros Hin; destruct (Hx r); [apply elem_of_app; by left|]|
        by intros Hin; destruct (Hx r); [apply elem_of_app; by right|]| |].
      + intros x Hin. destruct (Hx x Hin). by rewrite !lookup_insert_ne.
      + rewrite !foldr_delete_insert; [|by intros Hin; destruct (Hx r); [apply elem_of_app; by left|]|done].
        rewrite delete_insert_ne, delete_insert_eq by done.
        rewrite delete_id; [by rewrite Hoth|]. rewrite foldr_delete_lookup; [done|].
        intros Hin. destruct (Hx r); [apply elem_of_app; by left|done]. }
  exists sr. split; [done|]. split; [done|].
  assert (∀ x, x ∈ (lr ++ lp) → <[r := with_next reversed sr]> h1 !! x = h !! x) as Hkeep'.
  { intros x Hx. rewrite lookup_insert_ne; [by apply Hkeep|]. intros ->. by apply elem_of_app in Hx as [|]. }
  split.
  - split; [done|]. exists (with_next reversed sr). split; [apply lookup_insert_eq|]. cbn [sn_next with_next].
    eapply chain_ext; [|exact Hc]. intros x Hx. by rewrite Hkeep' by (apply elem_of_app; by left).
  - eapply chain_ext; [|exact Hp]. intros x Hx. by rewrite Hkeep' by (apply elem_of_app; by right).
  - intros x [->|Hx]%elem_of_cons; [by eexists; rewrite lookup_insert_eq|].
    rewrite Hkeep' by (apply elem_of_app; by left). by apply Hown.
  - intros x Hx [->|Hin]%elem_of_cons; [done|]. apply (Hdisj x); [by right|done].
  - intros x Hx. rewrite Hkeep' by (apply elem_of_app; by right). apply Hsame. by right.
  - cbn [foldr]. rewrite foldr_delete_insert, delete_insert_eq, Hdel by done. by rewrite foldl_app.
  - rewrite fmap_app, reverse_app. cbn [fmap list_fmap]. rewrite reverse_singleton. cbn [app]. f_equal.
    + unfold view at 1 2. rewrite lookup_insert_eq, <- Hq0. cbn. by rewrite Hb, Ht.
    + rewrite <- Hview. apply view_ext. intros x Hx. apply Hkeep'. apply elem_of_app. by left.
Qed.

(** The outcome of reversing the packet [l]: the packet is released, or the new one
    has its data in reverse order, in snips of its own. *)
Definition reversed_to (h : gmap Z snip) (l : list Z) (r : Z) (h' : gmap Z snip) : Prop :=
  r = 0 ∧ l ≠ [] ∧ h' = foldl release_one h l ∨
  ∃ l', chain h' r l' ∧ (∀ q, q ∈ l' → ∃ sn, h' !! q = Some sn ∧ sn_users sn = 1) ∧
    view h' <$> l' = reverse (view h <$> l) ∧ foldr delete h' l' = foldl release_one h l.

Lemma reverse_loop_ok h0 lp : ∀ fuel h cs m first reversed ptr lr dn, heap_inv [] h cs m first →
  reversing h0 h reversed ptr lr lp dn → NoDup (dn ++ lp) → uint 64 reversed → (length lp < fuel)%nat →
  ∃ r h' cs' m' first', reverse_loop base SIZE fuel reversed ptr (Pktbuf m first false) = Some (r, Pktbuf m' first' false) ∧
    heap_inv [] h' cs' m' first' ∧ reversed_to h0 (dn ++ lp) r h'.
Proof.
  induction lp as [|q lp IH]; intros [|fuel] h cs m first reversed ptr lr dn Hinv Hrv Hnd Hrev Hf; try (cbn [length] in Hf; lia); cbn [reverse_loop].
  - destruct Hrv as [Hc Hp Hown Hdisj Hsame Hoth Hview]. cbn in Hp. subst ptr. cbn [Z.eqb].
    exists reversed, h, cs, m, first. split; [done|]. split; [done|]. right. exists lr. rewrite app_nil_r. by split_and!.
  - pose proof (heap_null _ _ _ _ _ _ _ Hinv) as H0. pose proof (rv_rest _ _ _ _ _ _ _ Hrv) as (-> & sn & Hq & Hp).
    pose proof (desc_fits _ _ _ _ _ _ _ _ _ Hinv Hq) as (_ & _ & Hq0 & _). rewrite (proj2 (Z.eqb_neq _ _) Hq0).
    destruct (start_write_ok base SIZE [] h cs m first q sn Hinv Hq) as (r & h1 & cs1 & m1 & f1 & Hrun1 & Hinv1 & Hprot & _ & _).
    rewrite (bbind_ok _ _ _ _ _ Hrun1). pose proof (chain_NoDup h H0 _ _ (rv_chain _ _ _ _ _ _ _ Hrv)) as Hndr.
    destruct (Z.eqb_spec r 0) as [->|Hr0].
    + assert (h1 = h) as ->.
      { destruct Hprot as [(_ & E & _)|(_ & [[_ ->]|(E & _)])]; [congruence|done|done]. }
      destruct (release_ok base SIZE [] h cs1 m1 f1 reversed lr Hinv1 (rv_chain _ _ _ _ _ _ _ Hrv)) as (cs2 & m2 & f2 & Hrun2 & Hinv2 & _).
      rewrite (bbind_ok _ _ _ _ _ Hrun2).
      rewrite (release_deleted lr h Hndr (rv_own _ _ _ _ _ _ _ Hrv)) in Hinv2.
      assert (chain (foldr delete h lr) q (q :: lp)) as Hc2.
      { eapply chain_ext; [|apply (rv_rest _ _ _ _ _ _ _ Hrv)]. intros x Hx.
        by rewrite foldr_delete_lookup by (by apply (rv_disj _ _ _ _ _ _ _ Hrv)). }
      destruct (release_ok base SIZE [] _ cs2 m2 f2 q (q :: lp) Hinv2 Hc2) as (cs3 & m3 & f3 & Hrun3 & Hinv3 & _).
      rewrite (bbind_ok _ _ _ _ _ Hrun3). eexists 0, _, cs3, m3, f3. split; [done|]. split; [exact Hinv3|].
      left. split; [done|]. split; [by destruct dn|]. rewrite (rv_others _ _ _ _ _ _ _ Hrv). by rewrite foldl_app.
    + destruct (reversing_step h0 h h1 reversed q lr lp dn sn r Hrv Hnd Hndr H0 Hq Hprot Hr0) as (sr & Hsr & Hn & Hrv').
      pose proof (hi_snips _ _ _ _ _ _ _ Hinv1 r sr Hsr) as Hatr. rewrite (bb_snip_next base m1 f1 false r sr Hatr).
      destruct (set_snip_next_ok base SIZE [] h1 cs1 m1 f1 false r sr reversed (λ _, reverse_loop base SIZE fuel r (sn_next sr)) Hinv1 Hsr Hrev)
        as (m2 & Hrun2 & Hinv2 & _). rewrite Hrun2, Hn.
      pose proof (desc_fits _ _ _ _ _ _ _ _ _ Hinv1 Hsr) as (_ & _ & _ & Hr64).
      destruct (IH fuel _ cs1 m2 f1 r (sn_next sn) (r :: lr) (dn ++ [q]) Hinv2 Hrv') as (r' & h' & cs' & m' & f' & Hrun3 & Hinv3 & Hres);
        [by rewrite <- app_assoc|done|cbn [length] in Hf; lia|].
      rewrite <- app_assoc in Hres. by exists r', h', cs', m', f'.
Qed.

Lemma reverse_snips_ok h cs m first p l : heap_inv [] h cs m first → chain h p l →
  ∃ r h' cs' m' first', gnrc_pktbuf_reverse_snips base SIZE p (Pktbuf m first false) = Some (r, Pktbuf m' first' false) ∧
    heap_inv [] h' cs' m' first' ∧ reversed_to h l r h'.
Proof.
  intros Hinv Hc. apply (reverse_loop_ok h l (fuel SIZE) h cs m first 0 p [] []); try done.
  - split; try done; [by intros q Hq%elem_of_nil|by intros q _ Hq%elem_of_nil].
  - by apply (chain_NoDup h (heap_null _ _ _ _ _ _ _ Hinv) p).
  - by eapply chain_fuel.
Qed.

(** ** Removing *)

Lemma chain_split h a b : ∀ p, chain h p (a ++ b) → ∃ r, chain h r b ∧
  (∀ h' r' b', (∀ q, q ∈ a → ∀ a1 a2, a = a1 ++ q :: a2 → a2 ≠ [] → sn_next <$> h' !! q = sn_next <$> h !! q) →
     (∀ q a1, a = a1 ++ [q] → sn_next <$> h' !! q = Some r') → chain h' r' b' →
     chain h' (match a with [] => r' | q :: _ => q end) (a ++ b')).
Proof.
  induction a as [|q a IH]; intros p Hc; [exists p; split; [done|]; by intros h' r' b' _ _ Hb|].
  destruct Hc as (-> & sn & Hq & Hc). destruct (IH _ Hc) as (r & Hb & Hre). exists r. split; [done|].
  intros h' r' b' Hin Hlast Hb'. cbn [app chain]. split; [done|].
  destruct a as [|q' a].
  - specialize (Hlast q [] eq_refl). destruct (h' !! q) as [sn'|]; [|done]. injection Hlast as Hl. exists sn'. split; [done|].
    by rewrite Hl.
  - specialize (Hin q ltac:(by left) [] (q' :: a) eq_refl ltac:(done)) as Hq'. rewrite Hq in Hq'.
    destruct (h' !! q) as [sn'|]; [|done]. injection Hq' as E. exists sn'. split; [done|]. rewrite E.
    assert (sn_next sn = q') as -> by (by destruct Hc). apply (Hre h' r' b'); [| |done].
    + intros x Hx a1 a2 Ha Hne. apply (Hin x ltac:(by right) (q :: a1) a2); [by rewrite Ha|done].
    + intros x a1 Ha. apply (Hlast x (q :: a1)). by rewrite Ha.
Qed.

Lemma before_loop_ok bl h cs m first b t el l2 l1 : ∀ fuel p, heap_inv bl h cs m first →
  chain h p (l1 ++ t :: el :: l2) → el ∉ l1 → (length l1 < fuel)%nat →
  before_loop base fuel p el (Pktbuf m first b) = Some (t, Pktbuf m first b).
Proof.
  induction l1 as [|q l1 IH]; intros [|fuel] p Hinv Hc Hel Hf; try (cbn [length] in Hf; lia); cbn [before_loop].
  - destruct Hc as (-> & sn & Hq & Hn & sn' & Hel' & _). rewrite (bb_snip_next base m first b t sn (hi_snips _ _ _ _ _ _ _ Hinv t sn Hq)).
    rewrite Hn, Z.eqb_refl, andb_false_r. done.
  - apply not_elem_of_cons in Hel as [Helq Hel]. destruct Hc as (-> & sn & Hq & Hc).
    rewrite (bb_snip_next base m first b q sn (hi_snips _ _ _ _ _ _ _ Hinv q sn Hq)).
    assert (∃ x l', l1 ++ t :: el :: l2 = x :: l' ∧ x ≠ el) as (x & l' & El & Hx).
    { destruct l1 as [|x l1]; [|apply not_elem_of_cons in Hel as [? _]; by exists x, (l1 ++ t :: el :: l2)].
      exists t, (el :: l2). split; [done|]. intros ->. pose proof (chain_NoDup h (heap_null _ _ _ _ _ _ _ Hinv) _ _ Hc) as Hnd.
      cbn [app] in Hnd. apply NoDup_cons in Hnd as [Hnd _]. apply Hnd. by left. }
    pose proof Hc as Hc'. rewrite El in Hc'. destruct Hc' as (Hnx & sx & Hsx & _).
    pose proof (desc_fits _ _ _ _ _ _ _ _ _ Hinv Hsx) as (_ & _ & Hx0 & _).
    rewrite Hnx, (proj2 (Z.eqb_neq _ _) Hx0), (proj2 (Z.eqb_neq _ _) Hx). cbn [negb andb]. rewrite <- Hnx.
    apply IH; try done. cbn [length] in Hf. lia.
Qed.

(** The snip before [del] made to point to [n]. *)
Definition relink (h : gmap Z snip) (l1 : list Z) (n : Z) : gmap Z snip :=
  match last l1 with Some t => alter (with_next n) t h | None => h end.

Definition head_of (l1 : list Z) (n : Z) : Z := match l1 with [] => n | q :: _ => q end.

Lemma relink_other h l1 n q : q ∉ l1 → relink h l1 n !! q = h !! q.
Proof.
  unfold relink. destruct (last l1) as [t|] eqn:Ht; [|done]. intros Hq. apply lookup_alter_ne.
  intros ->. apply Hq. by apply last_Some_elem_of.
Qed.

Lemma relink_app h h' p a b n b' : chain h p (a ++ b) → NoDup a →
  (∀ q, q ∈ a → sn_next <$> h' !! q = sn_next <$> relink h a n !! q) → chain h' n b' → chain h' (head_of a n) (a ++ b').
Proof.
  intros Hc Hnd Hh' Hb'. destruct (chain_split h a b p Hc) as (r & _ & Hre). pose proof (Hre h' n b') as H. apply H; clear H Hre; [| |done].
  - intros q Hq a1 a2 Ha Hne. rewrite Hh' by done. unfold relink.
    destruct (last a) as [t|] eqn:Ht; [|done]. rewrite lookup_alter_ne; [done|]. intros ->.
    apply last_Some in Ht as (l' & Hl'). rewrite Ha in Hl'. destruct a2 as [|x a2 _] using rev_ind; [done|].
    rewrite app_comm_cons, app_assoc in Hl'. apply app_inj_tail in Hl' as [_ ->].
    rewrite Ha in Hnd. apply NoDup_app in Hnd as (_ & _ & [Hnd _]%NoDup_cons). apply Hnd, elem_of_app. right. by left.
  - intros q a1 ->. rewrite Hh' by (apply elem_of_app; right; by left). unfold relink. rewrite last_snoc, lookup_alter_eq.
    assert (is_Some (h !! q)) as [sq ->] by (eapply chain_lookup; [exact Hc|rewrite !elem_of_app; left; right; by left]). done.
Qed.

Lemma relink_chain h p l1 del l2 sn h' : chain h p (l1 ++ del :: l2) → NoDup (l1 ++ del :: l2) → h !! del = Some sn →
  (∀ q, q ∈ (l1 ++ l2) → sn_next <$> h' !! q = sn_next <$> relink h l1 (sn_next sn) !! q) →
  chain h' (head_of l1 (sn_next sn)) (l1 ++ l2).
Proof.
  intros Hc Hnd Hdel Hh'. destruct (chain_split h l1 (del :: l2) p Hc) as (r & (-> & sn' & Hr & Hc2) & _).
  rewrite Hdel in Hr. injection Hr as <-. apply NoDup_app in Hnd as (Hnd1 & Hnd2 & _).
  apply (relink_app h h' p l1 (del :: l2)); [done|done| |].
  - intros q Hq. apply Hh'. apply elem_of_app. by left.
  - eapply chain_ext; [|exact Hc2]. intros q Hq. rewrite Hh' by (apply elem_of_app; by right).
    rewrite relink_other; [done|]. intros Hin. apply (Hnd2 q Hin). by right.
Qed.

Lemma delete_ok {C} h cs m first b p l1 del l2 sn (f : Z → B C) : heap_inv [] h cs m first →
  chain h p (l1 ++ del :: l2) → h !! del = Some sn →
  ∃ m', (LL_DELETE base SIZE p del ≫= f) (Pktbuf m first b) = f (head_of l1 (sn_next sn)) (Pktbuf m' first b) ∧
    heap_inv [] (relink h l1 (sn_next sn)) cs m' first.
Proof.
  intros Hinv Hc Hdel. pose proof (chain_NoDup h (heap_null _ _ _ _ _ _ _ Hinv) _ _ Hc) as Hnd.
  pose proof (hi_snips _ _ _ _ _ _ _ Hinv del sn Hdel) as Hat. unfold LL_DELETE.
  destruct l1 as [|t l1 _] using rev_ind.
  - destruct Hc as [-> _]. rewrite bb_if, Z.eqb_refl, (bb_snip_next base m first b del sn Hat). by exists m.
  - apply NoDup_app in Hnd as (Hnd1 & Hnd2 & _).
    assert (del ∉ (l1 ++ [t])) as Hdl by (intros Hin; apply (Hnd2 del Hin); by left).
    assert (∃ l', l1 ++ [t] = p :: l') as [l' Hl'].
    { destruct l1 as [|q l1]; destruct Hc as [-> _]; by eexists. }
    assert (head_of (l1 ++ [t]) (sn_next sn) = p) as -> by (by rewrite Hl').
    assert (p ≠ del) as Hpd by (intros ->; apply Hdl; rewrite Hl'; by left).
    rewrite bb_if, (proj2 (Z.eqb_neq _ _) Hpd), bb_assoc. rewrite <- app_assoc in Hc. cbn [app] in Hc.
    assert (length l1 < fuel SIZE)%nat as Hf.
    { pose proof (chain_fuel base SIZE _ _ _ _ _ _ _ Hinv Hc) as Hf. rewrite length_app in Hf. lia. }
    rewrite (bbind_ok _ _ _ _ _ (before_loop_ok [] h cs m first b t del l2 l1 (fuel SIZE) p Hinv Hc
      ltac:(intros Hin; apply Hdl, elem_of_app; by left) Hf)).
    assert (∃ st, h !! t = Some st ∧ sn_next st = del) as (st & Hst & Hnt).
    { destruct (chain_split h l1 _ p Hc) as (r & (-> & st & Hst & Hn & _) & _). by exists st. }
    rewrite bb_assoc, (bb_snip_next base m first b t st (hi_snips _ _ _ _ _ _ _ Hinv t st Hst)), Hnt, bb_assoc, bb_if.
    pose proof (desc_fits _ _ _ _ _ _ _ _ _ Hinv Hdel) as (_ & _ & Hd0 & _). rewrite (proj2 (Z.eqb_neq _ _) Hd0). cbn [negb].
    rewrite bb_assoc, (bb_snip_next base m first b del sn Hat).
    destruct (set_snip_next_ok base SIZE [] h cs m first b t st (sn_next sn) (λ _, (mret p : B Z) ≫= f) Hinv Hst ltac:(apply Hat)) as (m' & Hrun & Hi & _).
    exists m'. split; [exact Hrun|]. unfold relink. rewrite last_snoc.
    assert (alter (with_next (sn_next sn)) t h = <[t := with_next (sn_next sn) st]> h) as ->; [|done].
    apply map_eq. intros x. destruct (decide (x = t)) as [->|].
    + by rewrite lookup_alter_eq, lookup_insert_eq, Hst.
    + by rewrite lookup_alter_ne, lookup_insert_ne.
Qed.

(** Clearing the pointer of a snip that was taken out, and releasing it. *)
Lemma detach_ok h cs m first old so pkt : heap_inv [] h cs m first → h !! old = Some so →
  ∃ cs' m' first', (set_snip_next base old 0;; gnrc_pktbuf_release base SIZE old;; (mret pkt : B Z)) (Pktbuf m first false) =
      Some (pkt, Pktbuf m' first' false) ∧
    heap_inv [] (release_one (<[old := with_next 0 so]> h) old) cs' m' first'.
Proof.
  intros Hinv Hold. set (K := λ _ : unit, _ : B Z).
  destruct (set_snip_next_ok base SIZE [] h cs m first false old so 0 K Hinv Hold ltac:(unfold uint; lia)) as (m2 & Hrun2 & Hinv2 & _).
  rewrite Hrun2. subst K. cbn beta.
  destruct (release_ok base SIZE [] _ cs m2 first old [old] Hinv2) as (cs3 & m3 & f3 & Hrun3 & Hinv3 & _).
  { split; [done|]. exists (with_next 0 so). split; [apply lookup_insert_eq|done]. }
  rewrite (bbind_ok _ _ _ _ _ Hrun3). by exists cs3, m3, f3.
Qed.

Lemma remove_snip_ok h cs m first p l1 del l2 sn : heap_inv [] h cs m first → chain h p (l1 ++ del :: l2) → h !! del = Some sn →
  ∃ cs' m' first', gnrc_pktbuf_remove_snip base SIZE p del (Pktbuf m first false) =
      Some (head_of l1 (sn_next sn), Pktbuf m' first' false) ∧
    let h' := release_one (<[del := with_next 0 sn]> (relink h l1 (sn_next sn))) del in
    heap_inv [] h' cs' m' first' ∧ chain h' (head_of l1 (sn_next sn)) (l1 ++ l2).
Proof.
  intros Hinv Hc Hdel. pose proof (chain_NoDup h (heap_null _ _ _ _ _ _ _ Hinv) _ _ Hc) as Hnd.
  assert ((del ∉ l1) ∧ (del ∉ l2)) as [Hd1 Hd2].
  { apply NoDup_app in Hnd as (_ & Hnd2 & [Hnd3 _]%NoDup_cons). split; [|done]. intros Hin. apply (Hnd2 del Hin). by left. }
  unfold gnrc_pktbuf_remove_snip. set (K := λ pkt : Z, _ : B Z).
  destruct (delete_ok h cs m first false p l1 del l2 sn K Hinv Hc Hdel) as (m1 & Hrun1 & Hinv1). rewrite Hrun1. subst K. cbn beta.
  assert (relink h l1 (sn_next sn) !! del = Some sn) as Hdel1 by (by rewrite relink_other).
  destruct (detach_ok _ cs m1 first del sn (head_of l1 (sn_next sn)) Hinv1 Hdel1) as (cs2 & m2 & f2 & Hrun2 & Hinv2).
  exists cs2, m2, f2. split; [exact Hrun2|]. cbv zeta. split; [done|].
  eapply relink_chain; [done|done|done|]. intros q Hq.
  assert (q ≠ del) as Hqd by (intros ->; by apply elem_of_app in Hq as [|]).
  rewrite release_one_other by done. by rewrite lookup_insert_ne by done.
Qed.

(** ** Joining a packet *)

Lemma release_one_insert h p sn q : q ≠ p → release_one (<[p := sn]> h) q = <[p := sn]> (release_one h q).
Proof.
  intros Hq. unfold release_one. rewrite lookup_insert_ne by done. destruct (h !! q); [|done].
  case_decide; [by apply delete_insert_ne|by apply insert_insert_ne].
Qed.

Lemma foldl_release_insert l p sn : ∀ h, p ∉ l → foldl release_one (<[p := sn]> h) l = <[p := sn]> (foldl release_one h l).
Proof.
  induction l as [|q l IH]; intros h Hp; [done|]. apply not_elem_of_cons in Hp as [Hpq Hp]. cbn [foldl].
  by rewrite release_one_insert, IH.
Qed.

Lemma bb_desc_data {C} m first b p a d sz us ty (f : Z → B C) : desc_at base m p a d sz us ty →
  (snip_data base p ≫= f) (Pktbuf m first b) = f d (Pktbuf m first b).
Proof. intros Hdesc. apply (bb_get_word base _ (p - base + 8)); [lia|apply Hdesc]. Qed.

(** Copying the data of the snips [l] behind the first bytes [c1] of the data of [p]. *)
Lemma merge_loop_ok h cs first b p d n a sz us ty l : ∀ fuel m ptr c1 mid,
  heap_inv [(d - base, n); (p - base, sizeof_pktsnip)] h cs m first → desc_at base m p a d sz us ty →
  load m (d - base) (Z.of_nat (length (c1 ++ mid))) = Some (c1 ++ mid) → Z.of_nat (length (c1 ++ mid)) ≤ n →
  chain h ptr l → (length l < fuel)%nat → length mid = length (content h l) → n < 2 ^ 63 →
  ∃ m', merge_loop base fuel p ptr (Z.of_nat (length c1)) (Pktbuf m first b) = Some (tt, Pktbuf m' first b) ∧
    heap_inv [(d - base, n); (p - base, sizeof_pktsnip)] h cs m' first ∧ desc_at base m' p a d sz us ty ∧
    load m' (d - base) (Z.of_nat (length (c1 ++ mid))) = Some (c1 ++ content h l).
Proof.
  induction l as [|q l IH]; intros [|fuel] m ptr c1 mid Hinv Hdesc Hload Hn Hc Hf Hlen Hn63; try (cbn [length] in Hf; lia); cbn [merge_loop].
  - cbn in Hc. subst ptr. destruct mid; [|done]. exists m. by split_and!.
  - destruct Hc as (-> & sn & Hq & Hc). pose proof (hi_snips _ _ _ _ _ _ _ Hinv q sn Hq) as Hat.
    pose proof (desc_fits _ _ _ _ _ _ _ _ _ Hinv Hq) as (_ & _ & Hq0 & _). rewrite (proj2 (Z.eqb_neq _ _) Hq0).
    rewrite (bb_desc_data m first b p a d sz us ty _ Hdesc).
    rewrite (bb_snip_data base m first b q sn Hat), (bb_snip_size base m first b q sn Hat).
    assert (content h (q :: l) = sn_bytes sn ++ content h l) as Econt.
    { unfold content. cbn [fmap list_fmap concat]. unfold bytes_of at 1. by rewrite Hq. }
    rewrite Econt in *. rewrite length_app in Hlen.
    destruct (split_at mid (length (sn_bytes sn)) ltac:(lia)) as (mid1 & mid2 & -> & Hmid1). rewrite length_app in Hlen.
    rewrite !length_app in Hn.
    destruct (memcpy_ok base SIZE [(p - base, sizeof_pktsnip)] h cs m first b (d - base) n (c1 ++ mid1 ++ mid2) (Z.of_nat (length c1))
      (d + Z.of_nat (length c1)) (source_of (sn_data sn)) (sn_bytes sn) Hinv Hload) as (m1 & c' & Hrun & Hi & Hs & Hst & Hl);
      [rewrite !length_app; lia|lia|lia|rewrite !length_app; lia| |].
    { intros Hne. destruct (source_of_ok base SIZE _ _ _ _ _ _ _ Hinv Hq Hne) as [E ?]. split; [done|]. by rewrite E. }
    rewrite store_mid in Hst by done. injection Hst as <-.
    unfold sn_size at 1. rewrite (bbind_ok _ _ _ _ _ Hrun).
    pose proof (hi_snips _ _ _ _ _ _ _ Hi q sn Hq) as Hat1. rewrite (bb_snip_next base m1 first b q sn Hat1).
    apply Forall_cons in Hs as [Hs _]. pose proof (desc_same base _ _ _ _ _ _ _ _ Hs Hdesc) as Hdesc1.
    rewrite wrap_small by (unfold uint, sn_size; lia).
    assert (length (c1 ++ mid1 ++ mid2) = length ((c1 ++ sn_bytes sn) ++ mid2)) as El by (rewrite !length_app; lia).
    rewrite El in Hl. rewrite app_assoc in Hl.
    destruct (IH fuel m1 (sn_next sn) (c1 ++ sn_bytes sn) mid2 Hi Hdesc1 Hl) as (m2 & Hrun2 & Hi2 & Hdesc2 & Hl2);
      try done; [rewrite !length_app; lia|cbn [length] in Hf; lia|lia|].
    exists m2. unfold sn_size. rewrite length_app, Nat2Z.inj_add in Hrun2. split; [exact Hrun2|]. split; [done|]. split; [done|].
    rewrite El, app_assoc. exact Hl2.
Qed.

(** The outcome of joining the packet [p :: l]. *)
Definition merged (h : gmap Z snip) (p : Z) (sn : snip) (l : list Z) (r : Z) (h' : gmap Z snip) : Prop :=
  content h l = [] ∧ r = 0 ∧ h' = h ∨
  content h l ≠ [] ∧ r = ENOMEM ∧ h' = h ∨
  r = 0 ∧ ∃ d, h' = <[p := Snip 0 d (content h (p :: l)) (sn_users sn) (sn_type sn)]> (foldl release_one h l).

Lemma merge_all_ok h cs m first p sn l : heap_inv [] h cs m first → chain h p (p :: l) → h !! p = Some sn →
  ∃ r h' cs' m' first', gnrc_pktbuf_merge base SIZE p (Pktbuf m first false) = Some (r, Pktbuf m' first' false) ∧
    heap_inv [] h' cs' m' first' ∧ merged h p sn l r h'.
Proof.
  intros Hinv Hc Hp. pose proof (chain_NoDup h (heap_null _ _ _ _ _ _ _ Hinv) _ _ Hc) as Hnd.
  pose proof Hnd as [Hpl _]%NoDup_cons. pose proof (hi_snips _ _ _ _ _ _ _ Hinv p sn Hp) as Hat.
  pose proof (content_length _ _ _ _ _ (p :: l) Hinv Hnd ltac:(intros q; by eapply chain_lookup)) as Hlen. pose proof conf_size as HS.
  assert (content h (p :: l) = sn_bytes sn ++ content h l) as Econt.
  { unfold content. cbn [fmap list_fmap concat]. unfold bytes_of at 1. by rewrite Hp. }
  unfold gnrc_pktbuf_merge. rewrite (bb_snip_size base m first false p sn Hat).
  rewrite (bbind_ok _ _ _ _ _ (pkt_len_ok [] h cs m first false p (p :: l) Hinv Hc)).
  rewrite (bb_snip_size base m first false p sn Hat). rewrite Econt, length_app in *.
  destruct (Z.eqb_spec (sn_size sn) (Z.of_nat (length (sn_bytes sn) + length (content h l)))) as [E|E].
  { assert (content h l = []) as El by (unfold sn_size in E; destruct (content h l); [done|cbn [length] in E; lia]).
    exists 0, h, cs, m, first. split; [done|]. split; [done|by left]. }
  assert (content h l ≠ []) as Hne by (intros El; rewrite El in E; unfold sn_size in E; cbn [length] in E; lia).
  destruct (realloc_ok base SIZE h cs m first p sn (Z.of_nat (length (sn_bytes sn) + length (content h l))) Hinv Hp ltac:(lia))
    as (r & h1 & cs1 & m1 & f1 & Hrun1 & Hinv1 & Hres & _). rewrite (bbind_ok _ _ _ _ _ Hrun1).
  destruct Hres as [(-> & _ & ->)|(-> & d & bs & -> & Hbs & Hpre)].
  { cbn [Z.eqb negb]. exists ENOMEM, h, cs1, m1, f1. split; [done|]. split; [done|]. right. by left. }
  cbn [Z.eqb negb].
  assert (∃ mid, bs = sn_bytes sn ++ mid) as [mid ->].
  { destruct Hpre as [[k Hk]|[k Hk]]; [|by exists k]. apply (f_equal length) in Hk. rewrite length_app in Hk.
    destruct (content h l); [done|cbn [length] in Hbs; lia]. }
  rewrite length_app in Hbs. assert (length mid = length (content h l)) as Hmid by lia.
  set (sn1 := with_data d (sn_bytes sn ++ mid) sn) in *.
  pose proof (hi_snips _ _ _ _ _ _ _ Hinv1 p sn1 ltac:(apply lookup_insert_eq)) as Hat1.
  rewrite (bb_snip_next base m1 f1 false p sn1 Hat1).
  destruct (heap_elim base SIZE [] _ cs1 m1 f1 p sn1 ltac:(apply lookup_insert_eq) Hinv1) as [Hraw _].
  rewrite delete_insert_eq in Hraw. unfold snip_blocks in Hraw. cbn [sn_data sn_bytes with_data sn1] in Hraw.
  assert (sn_bytes sn ++ mid ≠ []) as Hne2 by (intros E2; apply Hne; destruct (content h l), mid; try done; by apply app_nil in E2 as [_ ?]).
  rewrite block_nonempty in Hraw by done. cbn [app] in Hraw. eapply heap_perm in Hraw; [|apply perm_swap].
  set (n := _align (Z.of_nat (length (sn_bytes sn ++ mid)))) in *.
  pose proof (align_bounds (Z.of_nat (length (sn_bytes sn ++ mid))) ltac:(rewrite length_app; lia)) as [Hal _]. fold n in Hal.
  rewrite length_app in Hal.
  assert (chain (delete p h) (sn_next sn) l) as Hcd.
  { destruct Hc as (_ & sn' & Hp' & Hc). rewrite Hp in Hp'. injection Hp' as <-. eapply chain_ext; [|exact Hc].
    intros q Hq. rewrite lookup_delete_ne; [done|]. by intros ->. }
  assert (content (delete p h) l = content h l) as Ecd.
  { apply content_ext. intros q Hq. unfold bytes_of. rewrite lookup_delete_ne; [done|]. by intros ->. }
  destruct (merge_loop_ok (delete p h) cs1 f1 false p d n (sn_next sn) (sn_size sn1) (sn_users sn) (sn_type sn) l (fuel SIZE) m1 (sn_next sn)
    (sn_bytes sn) mid Hraw (snip_desc base _ _ _ Hat1)) as (m2 & Hrun2 & Hraw2 & Hdesc2 & Hl2).
  { by apply (sa_bytes _ _ _ _ Hat1). } { rewrite length_app. lia. } { done. }
  { eapply (chain_fuel base SIZE); [exact Hraw|exact Hcd]. } { by rewrite Ecd. } { lia. }
  unfold sn_size at 1. rewrite (bbind_ok _ _ _ _ _ Hrun2). rewrite Ecd in Hl2.
  set (sn2 := with_data d (sn_bytes sn ++ content h l) sn).
  assert (length (sn_bytes sn ++ mid) = length (sn_bytes sn ++ content h l)) as El by (rewrite !length_app; lia).
  destruct (heap_intro base SIZE [] (delete p h) cs1 m2 f1 p sn2) as [_ Hinv2].
  { unfold snip_blocks. cbn [sn_data sn_bytes with_data sn2]. rewrite block_nonempty by (by intros [_ ?]%app_eq_nil).
    cbn [app]. rewrite <- El. eapply heap_perm; [apply perm_swap|exact Hraw2]. }
  { destruct Hdesc2 as [E1 E2 E3 E4 E5]. split; cbn [sn_next sn_data sn_bytes sn_users sn_type with_data sn2]; try done; try apply Hat.
    - unfold sn_size. cbn [sn_bytes with_data sn2]. rewrite <- El. exact E3.
    - by intros [_ ?]%app_eq_nil.
    - intros _. unfold sn_size. cbn [sn_bytes with_data sn2]. by rewrite <- El. }
  { unfold sn_size. cbn [sn_bytes with_data sn2]. rewrite length_app. lia. }
  rewrite insert_delete_eq in Hinv2.
  pose proof (hi_snips _ _ _ _ _ _ _ Hinv2 p sn2 ltac:(apply lookup_insert_eq)) as Hat2.
  rewrite (bb_snip_next base m2 f1 false p sn2 Hat2). cbn [sn_next with_data sn2].
  assert (chain (<[p := sn2]> h) (sn_next sn) l) as Hc2.
  { eapply chain_ext; [|exact Hcd]. intros q Hq. rewrite lookup_insert_ne, lookup_delete_ne; [done| |]; by intros ->. }
  destruct (release_ok base SIZE [] _ cs1 m2 f1 (sn_next sn) l Hinv2 Hc2) as (cs3 & m3 & f3 & Hrun3 & Hinv3 & _).
  rewrite (bbind_ok _ _ _ _ _ Hrun3). rewrite foldl_release_insert in Hinv3 by done.
  destruct (set_snip_next_ok base SIZE [] _ cs3 m3 f3 false p sn2 0 (λ _, mret 0) Hinv3 ltac:(apply lookup_insert_eq) ltac:(unfold uint; lia))
    as (m4 & Hrun4 & Hinv4 & _). rewrite Hrun4.
  eexists 0, _, cs3, m4, f3. split; [done|]. split; [exact Hinv4|]. right. right. split; [done|].
  exists d. rewrite insert_insert_eq, Econt. done.
Qed.
End Packets.
