(* ===== verification/PktbufEdit.v ===== *)
(** * Replacing snips and duplicating the front of a packet

    [gnrc_pktbuf_replace_snip], which puts a list of snips in the place of one, and
    [gnrc_pktbuf_duplicate_upto], which joins the snips up to one of a given type
    in a new snip. *)

From S2P Require Import Prelude Bytes Buffers Pktbuf PktbufAlloc PktbufHeap PktbufProof PktbufPackets.

Implicit Types h : gmap Z snip.

Lemma alter_some (f : snip → snip) h t st : h !! t = Some st → alter f t h = <[t := f st]> h.
Proof.
  intros Ht. apply map_eq. intros x. destruct (decide (x = t)) as [->|].
  - by rewrite lookup_alter_eq, lookup_insert_eq, Ht.
  - by rewrite lookup_alter_ne, lookup_insert_ne.
Qed.

(** The snips up to the first one of a type, and the first one's successor. *)
Fixpoint upto (h : gmap Z snip) (type : Z) (l : list Z) : list Z :=
  match l with [] => [] | q :: l => q :: if has_type h type q then [] else upto h type l end.

Section Edit.
Context (base SIZE : Z) `{!BufferConf base SIZE}.
Abbreviation heap_inv := (heap_inv base SIZE).

(** ** Replacing *)

Lemma replace_elem_ok {C} h cs m first b p l1 old l2 so add sa (f : Z → B C) : heap_inv [] h cs m first →
  chain h p (l1 ++ old :: l2) → h !! old = Some so → h !! add = Some sa → add ∉ (l1 ++ old :: l2) →
  ∃ m', (LL_REPLACE_ELEM base SIZE p old add ≫= f) (Pktbuf m first b) = f (head_of l1 add) (Pktbuf m' first b) ∧
    heap_inv [] (relink (<[add := with_next (sn_next so) sa]> h) l1 add) cs m' first.
Proof.
  intros Hinv Hc Hold Hadd Hnin. pose proof (desc_fits _ _ _ _ _ _ _ _ _ Hinv Hold) as (_ & _ & Ho0 & _).
  pose proof (desc_fits _ _ _ _ _ _ _ _ _ Hinv Hadd) as (_ & _ & Ha0 & Ha64).
  pose proof (hi_snips _ _ _ _ _ _ _ Hinv old so Hold) as Hat. pose proof (chain_NoDup h (heap_null _ _ _ _ _ _ _ Hinv) _ _ Hc) as Hnd.
  assert (p ≠ 0) as Hp0.
  { destruct l1 as [|q l1]; destruct Hc as (-> & sn & Hq & _); [done|]. by destruct (desc_fits _ _ _ _ _ _ _ _ _ Hinv Hq) as (_ & _ & ? & _). }
  unfold LL_REPLACE_ELEM. rewrite bb_assoc, bb_assert by (by rewrite (proj2 (Z.eqb_neq _ _) Hp0)). cbn beta.
  rewrite bb_assoc, bb_assert by (by rewrite (proj2 (Z.eqb_neq _ _) Ho0)). cbn beta.
  rewrite bb_assoc, bb_assert by (by rewrite (proj2 (Z.eqb_neq _ _) Ha0)). cbn beta.
  rewrite bb_assoc, (bb_snip_next base m first b old so Hat), bb_assoc.
  set (K := λ _ : unit, _ : B C).
  destruct (set_snip_next_ok base SIZE [] h cs m first b add sa (sn_next so) K Hinv Hadd ltac:(apply Hat)) as (m1 & Hrun1 & Hinv1 & _).
  rewrite Hrun1. subst K. cbn beta. rewrite bb_if. set (h1 := <[add := with_next (sn_next so) sa]> h) in *.
  assert (∀ q, q ∈ (l1 ++ old :: l2) → h1 !! q = h !! q) as Hsame by (intros q Hq; unfold h1; rewrite lookup_insert_ne; [done|by intros ->]).
  destruct l1 as [|t l1 _] using rev_ind.
  - destruct Hc as [-> _]. rewrite Z.eqb_refl. by exists m1.
  - apply NoDup_app in Hnd as (_ & Hnd2 & _).
    assert (old ∉ (l1 ++ [t])) as Hol by (intros Hin; apply (Hnd2 old Hin); by left).
    assert (∃ l', l1 ++ [t] = p :: l') as [l' Hl'] by (destruct l1 as [|q l1]; destruct Hc as [-> _]; by eexists).
    assert (p ≠ old) as Hpo by (intros ->; apply Hol; rewrite Hl'; by left).
    rewrite (proj2 (Z.eqb_neq _ _) Hpo), bb_assoc.
    assert (chain h1 p (l1 ++ t :: old :: l2)) as Hc1.
    { rewrite <- app_assoc in Hc, Hsame. cbn [app] in Hc, Hsame. eapply chain_ext; [|exact Hc]. intros q Hq. by rewrite Hsame. }
    assert (length l1 < fuel SIZE)%nat as Hf.
    { pose proof (chain_fuel base SIZE _ _ _ _ _ _ _ Hinv1 Hc1) as Hf. rewrite length_app in Hf. lia. }
    rewrite (bbind_ok _ _ _ _ _ (before_loop_ok base SIZE [] h1 cs m1 first b t old l2 l1 (fuel SIZE) p Hinv1 Hc1
      ltac:(intros Hin; apply Hol, elem_of_app; by left) Hf)).
    assert (∃ st, h1 !! t = Some st ∧ sn_next st = old) as (st & Hst & Hnt).
    { destruct (chain_split h1 l1 _ p Hc1) as (r & (-> & st & Hst & Hn & _) & _). by exists st. }
    rewrite bb_assoc, (bb_snip_next base m1 first b t st (hi_snips _ _ _ _ _ _ _ Hinv1 t st Hst)), Hnt, bb_assoc, bb_if.
    rewrite (proj2 (Z.eqb_neq _ _) Ho0). cbn [negb].
    destruct (set_snip_next_ok base SIZE [] h1 cs m1 first b t st add (λ _, (mret p : B Z) ≫= f) Hinv1 Hst Ha64) as (m' & Hrun & Hi & _).
    exists m'. split; [rewrite Hl'; exact Hrun|]. unfold relink. rewrite last_snoc. by rewrite (alter_some _ _ _ _ Hst).
Qed.

Lemma last_loop_ok bl h cs m first b l q : ∀ fuel p, heap_inv bl h cs m first → chain h p (l ++ [q]) → (length l < fuel)%nat →
  last_loop base fuel p (Pktbuf m first b) = Some (q, Pktbuf m first b).
Proof.
  induction l as [|r l IH]; intros [|fuel] p Hinv Hc Hf; try (cbn [length] in Hf; lia); cbn [last_loop].
  - destruct Hc as (-> & sn & Hq & Hn). pose proof (desc_fits _ _ _ _ _ _ _ _ _ Hinv Hq) as (_ & _ & Hq0 & _).
    rewrite (proj2 (Z.eqb_neq _ _) Hq0), (bb_snip_next base m first b q sn (hi_snips _ _ _ _ _ _ _ Hinv q sn Hq)).
    cbn in Hn. by rewrite Hn.
  - destruct Hc as (-> & sn & Hq & Hc). pose proof (desc_fits _ _ _ _ _ _ _ _ _ Hinv Hq) as (_ & _ & Hq0 & _).
    rewrite (proj2 (Z.eqb_neq _ _) Hq0), (bb_snip_next base m first b r sn (hi_snips _ _ _ _ _ _ _ Hinv r sn Hq)).
    assert (sn_next sn ≠ 0) as Hn0.
    { destruct l as [|x l]; destruct Hc as (-> & sx & Hx & _); by destruct (desc_fits _ _ _ _ _ _ _ _ _ Hinv Hx) as (_ & _ & ? & _). }
    rewrite (proj2 (Z.eqb_neq _ _) Hn0). apply IH; [done|done|cbn [length] in Hf; lia].
Qed.

Lemma relink_insert h l n q x : q ∉ l → relink (<[q := x]> h) l n = <[q := x]> (relink h l n).
Proof.
  intros Hq. unfold relink. destruct (last l) as [t|] eqn:Ht; [|done]. rewrite alter_insert_ne; [done|].
  intros ->. by apply Hq, last_Some_elem_of.
Qed.

Lemma relink_lookup h l n q : relink h l n !! q = if decide (last l = Some q) then with_next n <$> h !! q else h !! q.
Proof.
  unfold relink. destruct (last l) as [t|]; [|by rewrite decide_False]. case_decide as E.
  - injection E as ->. by rewrite lookup_alter_eq.
  - rewrite lookup_alter_ne; [done|]. by intros ->.
Qed.

(** The packet after [old] was replaced by the snips [la]. *)
Definition replaced (h : gmap Z snip) (l1 : list Z) (old : Z) (so : snip) (la : list Z) (add : Z) : gmap Z snip :=
  release_one (<[old := with_next 0 so]> (relink (relink h la (sn_next so)) l1 add)) old.

Lemma replaced_chain h p l1 old l2 so la add : chain h p (l1 ++ old :: l2) → NoDup (l1 ++ old :: l2) → h !! old = Some so →
  chain h add la → NoDup la → la ≠ [] → (∀ q, q ∈ la → q ∉ (l1 ++ old :: l2)) →
  chain (replaced h l1 old so la add) (head_of l1 add) (l1 ++ la ++ l2).
Proof.
  intros Hc Hnd Hold Hca Hnda Hne Hdisj. destruct (chain_split h l1 (old :: l2) p Hc) as (r & (-> & so' & Hr & Hc2) & _).
  rewrite Hold in Hr. injection Hr as <-. apply NoDup_app in Hnd as (Hnd1 & Hnd2 & [Hol2 _]%NoDup_cons).
  assert (∀ q, q ≠ old → replaced h l1 old so la add !! q = relink (relink h la (sn_next so)) l1 add !! q) as Hkeep.
  { intros q Hq. unfold replaced. by rewrite release_one_other, lookup_insert_ne by done. }
  assert (∀ q, q ∈ l1 → q ∉ la) as H1a by (intros q Hq Hin; apply (Hdisj q Hin), elem_of_app; by left).
  assert (∀ q, q ∈ l1 → q ≠ old) as H1o by (intros q Hq ->; apply (Hnd2 old Hq); by left).
  assert (∀ q, q ∈ la → (q ∉ l1) ∧ q ≠ old) as Ha.
  { intros q Hq. specialize (Hdisj q Hq). rewrite not_elem_of_app, not_elem_of_cons in Hdisj. tauto. }
  apply (relink_app h _ p l1 (old :: l2)); [done|done| |].
  - intros q Hq. rewrite Hkeep by by apply H1o. rewrite !(relink_lookup _ l1). destruct (decide (last l1 = Some q)); by rewrite relink_other by by apply H1a.
  - assert (add = head_of la (sn_next so)) as Eadd by (destruct la; [done|by destruct Hca]). rewrite Eadd at 2.
    apply (relink_app h _ add la []); [by rewrite app_nil_r|done| |].
    + intros q Hq. destruct (Ha q Hq) as [Hq1 Hqo]. by rewrite Hkeep, relink_other by done.
    + eapply chain_ext; [|exact Hc2]. intros q Hq.
      assert (q ≠ old) by (by intros ->).
      assert (q ∉ l1) by (intros Hin; apply (Hnd2 q Hin); by right).
      assert (q ∉ la) by (intros Hin; apply (Hdisj q Hin), elem_of_app; right; by right).
      by rewrite Hkeep, !relink_other by done.
Qed.

Lemma replace_snip_ok h cs m first p l1 old l2 so la add : heap_inv [] h cs m first →
  chain h p (l1 ++ old :: l2) → h !! old = Some so → chain h add la → la ≠ [] → (∀ q, q ∈ la → q ∉ (l1 ++ old :: l2)) →
  ∃ cs' m' first', gnrc_pktbuf_replace_snip base SIZE p old add (Pktbuf m first false) =
      Some (head_of l1 add, Pktbuf m' first' false) ∧
    heap_inv [] (replaced h l1 old so la add) cs' m' first' ∧ chain (replaced h l1 old so la add) (head_of l1 add) (l1 ++ la ++ l2).
Proof.
  intros Hinv Hc Hold Hca Hne Hdisj. pose proof (heap_null _ _ _ _ _ _ _ Hinv) as H0.
  pose proof (chain_NoDup h H0 _ _ Hc) as Hnd. pose proof (chain_NoDup h H0 _ _ Hca) as Hnda.
  pose proof (replaced_chain h p l1 old l2 so la add Hc Hnd Hold Hca Hnda Hne Hdisj) as Hfin.
  destruct la as [|a la]; [done|]. pose proof Hca as (-> & sa & Hadd & Hct). clear Hne.
  pose proof (Hdisj a ltac:(by left)) as Hna. pose proof Hnda as [Hala _]%NoDup_cons.
  assert (old ≠ a) as Hoa by (intros <-; apply Hna, elem_of_app; right; by left).
  assert (old ∉ l1) as Hol1 by (apply NoDup_app in Hnd as (_ & Hnd2 & _); intros Hin; apply (Hnd2 old Hin); by left).
  assert (a ∉ l1) as Hal1 by (intros Hin; apply Hna, elem_of_app; by left).
  unfold gnrc_pktbuf_replace_snip. rewrite (bb_snip_next base m first false a sa (hi_snips _ _ _ _ _ _ _ Hinv a sa Hadd)).
  rewrite bb_if. unfold replaced in *. destruct la as [|q la _] using rev_ind.
  - cbn in Hct. rewrite Hct. cbn [Z.eqb negb]. set (K := λ pkt : Z, _ : B Z).
    destruct (replace_elem_ok h cs m first false p l1 old l2 so a sa K Hinv Hc Hold Hadd Hna) as (m1 & Hrun1 & Hinv1).
    rewrite Hrun1. subst K. cbn beta.
    destruct (detach_ok base SIZE _ cs m1 first old so (head_of l1 a) Hinv1) as (cs2 & m2 & f2 & Hrun2 & Hinv2).
    { by rewrite relink_other, lookup_insert_ne by done. }
    exists cs2, m2, f2. split; [exact Hrun2|]. split; [|done]. unfold relink at 2. cbn [last].
    by rewrite (alter_some _ _ _ _ Hadd).
  - assert (sn_next sa ≠ 0) as Hn0.
    { destruct la as [|x la]; destruct Hct as (-> & sx & Hx & _); by destruct (desc_fits _ _ _ _ _ _ _ _ _ Hinv Hx) as (_ & _ & ? & _). }
    rewrite (proj2 (Z.eqb_neq _ _) Hn0). cbn [negb]. rewrite bb_assoc.
    assert (length la < fuel SIZE)%nat as Hf.
    { pose proof (chain_fuel base SIZE _ _ _ _ _ _ _ Hinv Hct) as Hf. rewrite length_app in Hf. lia. }
    rewrite (bbind_ok _ _ _ _ _ (last_loop_ok [] h cs m first false la q (fuel SIZE) (sn_next sa) Hinv Hct Hf)).
    rewrite bb_assoc. set (K := λ pkt : Z, _ : B Z).
    destruct (replace_elem_ok h cs m first false p l1 old l2 so a sa K Hinv Hc Hold Hadd Hna) as (m1 & Hrun1 & Hinv1).
    rewrite Hrun1. subst K. cbn beta. rewrite bb_assoc.
    rewrite relink_insert in Hinv1 by done. set (h1 := <[a := with_next (sn_next so) sa]> (relink h l1 a)) in *.
    pose proof (hi_snips _ _ _ _ _ _ _ Hinv1 a _ (lookup_insert_eq _ _ _)) as Hat1.
    rewrite (bb_snip_next base m1 first false a _ Hat1). cbn [sn_next with_next]. rewrite bb_assoc. set (K := λ _ : unit, _ : B Z).
    assert (q ∈ (la ++ [q])) as Hqla by (apply elem_of_app; right; by left).
    assert (q ≠ a) as Hqa by (by intros ->).
    pose proof (Hdisj q ltac:(by right)) as Hnq.
    assert (q ∉ l1) as Hql1 by (intros Hin; apply Hnq, elem_of_app; by left).
    assert (q ≠ old) as Hqo by (intros ->; apply Hnq, elem_of_app; right; by left).
    destruct (chain_lookup _ _ _ q Hct Hqla) as [sq Hq].
    assert (h1 !! q = Some sq) as Hq1 by (unfold h1; by rewrite lookup_insert_ne, relink_other by done).
    pose proof (hi_snips _ _ _ _ _ _ _ Hinv old so Hold) as Hato.
    destruct (set_snip_next_ok base SIZE [] h1 cs m1 first false q sq (sn_next so) K Hinv1 Hq1 ltac:(apply Hato)) as (m2 & Hrun2 & Hinv2 & _).
    rewrite Hrun2. subst K. cbn beta. rewrite bb_assoc. set (K := λ _ : unit, _ : B Z).
    set (h2 := <[q := with_next (sn_next so) sq]> h1) in *.
    assert (h2 !! a = Some (with_next (sn_next so) sa)) as Ha2 by (unfold h2; rewrite lookup_insert_ne by done; apply lookup_insert_eq).
    destruct (set_snip_next_ok base SIZE [] h2 cs m2 first false a _ (sn_next sa) K Hinv2 Ha2
      ltac:(apply (hi_snips _ _ _ _ _ _ _ Hinv a sa Hadd))) as (m3 & Hrun3 & Hinv3 & _).
    rewrite Hrun3. subst K. cbn beta. rewrite bb_ret.
    assert (<[a := with_next (sn_next sa) (with_next (sn_next so) sa)]> h2 = relink (relink h (a :: la ++ [q]) (sn_next so)) l1 a) as E.
    { unfold relink at 2. rewrite app_comm_cons, last_snoc, (alter_some _ _ _ _ Hq), relink_insert by done.
      unfold h2, h1. rewrite insert_insert_ne by done. rewrite insert_insert_eq. f_equal. apply insert_id.
      rewrite relink_other by done. rewrite Hadd. by destruct sa. }
    rewrite E in Hinv3.
    destruct (detach_ok base SIZE _ cs m3 first old so (head_of l1 a) Hinv3) as (cs4 & m4 & f4 & Hrun4 & Hinv4).
    { unfold relink at 2. rewrite app_comm_cons, last_snoc. by rewrite relink_other, lookup_alter_ne by done. }
    exists cs4, m4, f4. by split; [exact Hrun4|].
Qed.

(** ** Duplicating *)

Lemma upto_prefix h type l : ∃ l', l = upto h type l ++ l'.
Proof.
  induction l as [|q l [l' IH]]; [by exists []|]. cbn [upto]. destruct (has_type h type q).
  - by exists l.
  - exists l'. cbn [app]. by rewrite <- IH.
Qed.

Lemma upto_loop_ok bl h cs m first b type l : ∀ fuel p len, heap_inv bl h cs m first → chain h p l → (length l < fuel)%nat →
  0 ≤ len → len + Z.of_nat (length (content h (upto h type l))) < 2 ^ 64 →
  upto_loop base fuel p type len (Pktbuf m first b) =
    Some (len + Z.of_nat (length (content h (upto h type l))), Pktbuf m first b).
Proof.
  induction l as [|q l IH]; intros [|fuel] p len Hinv Hc Hf Hlen Hsum; try (cbn [length] in Hf; lia); cbn [upto_loop].
  - cbn in Hc. subst p. cbn. by rewrite Z.add_0_r.
  - destruct Hc as (-> & sn & Hq & Hc). pose proof (hi_snips _ _ _ _ _ _ _ Hinv q sn Hq) as Hat.
    pose proof (desc_fits _ _ _ _ _ _ _ _ _ Hinv Hq) as (_ & _ & Hq0 & _). rewrite (proj2 (Z.eqb_neq _ _) Hq0).
    rewrite (bb_snip_size base m first b q sn Hat), (bb_snip_type base m first b q sn Hat).
    assert (has_type h type q = (sn_type sn =? type)) as Ety by (unfold has_type; by rewrite Hq).
    assert (∀ l', content h (q :: l') = sn_bytes sn ++ content h l') as Econt.
    { intros l'. unfold content. cbn [fmap list_fmap concat]. unfold bytes_of at 1. by rewrite Hq. }
    cbn [upto] in *. rewrite Econt, length_app, Nat2Z.inj_add in *. rewrite Ety in *.
    change (Z.of_nat (length (sn_bytes sn))) with (sn_size sn) in *. assert (0 ≤ sn_size sn) by (unfold sn_size; lia).
    rewrite wrap_small by (unfold uint; lia). destruct (sn_type sn =? type).
    + cbn [content fmap list_fmap concat length]. unfold mret, B_ret. do 2 f_equal. cbn. lia.
    + rewrite (bb_snip_next base m first b q sn Hat), (IH fuel (sn_next sn)) by (done || cbn [length] in Hf; lia). do 2 f_equal. lia.
Qed.

Lemma len_upto_ok bl h cs m first b type p l : heap_inv bl h cs m first → chain h p l →
  gnrc_pkt_len_upto base SIZE p type (Pktbuf m first b) =
    Some (Z.of_nat (length (content h (upto h type l))), Pktbuf m first b).
Proof.
  intros Hinv Hc. pose proof (chain_NoDup h (heap_null _ _ _ _ _ _ _ Hinv) _ _ Hc) as Hnd. destruct (upto_prefix h type l) as [l' El].
  pose proof (content_length base SIZE _ _ _ _ _ l Hinv Hnd ltac:(intros q; by eapply chain_lookup)) as Hlen.
  rewrite El, content_app, length_app in Hlen. pose proof conf_size. unfold gnrc_pkt_len_upto.
  rewrite (upto_loop_ok bl h cs m first b type l) by (done || lia || by eapply chain_fuel). done.
Qed.

(** The payloads of the snips [l], the last one first. *)
Abbreviation back h l := (content h (reverse l)).

Lemma back_cons h q l : back h (q :: l) = back h l ++ bytes_of h q.
Proof. rewrite reverse_cons, content_app. cbn. by rewrite app_nil_r. Qed.

Lemma back_length h l : length (back h l) = length (content h l).
Proof.
  induction l as [|q l IH]; [done|]. rewrite back_cons, length_app, IH. unfold content. cbn [fmap list_fmap concat]. rewrite length_app. lia.
Qed.

(** Filling the data of the new snip from its end. *)
Lemma copy_loop_ok h cs first b new d n a sz us ty type l : ∀ fuel m ptr mid c2,
  heap_inv [(d - base, n); (new - base, sizeof_pktsnip)] h cs m first → desc_at base m new a d sz us ty →
  load m (d - base) (Z.of_nat (length (mid ++ c2))) = Some (mid ++ c2) → Z.of_nat (length (mid ++ c2)) ≤ n →
  chain h ptr l → (length l < fuel)%nat → length mid = length (content h (upto h type l)) → n < 2 ^ 63 →
  ∃ m', copy_loop base fuel ptr new (Z.of_nat (length mid)) type (Pktbuf m first b) = Some (tt, Pktbuf m' first b) ∧
    heap_inv [(d - base, n); (new - base, sizeof_pktsnip)] h cs m' first ∧ desc_at base m' new a d sz us ty ∧
    load m' (d - base) (Z.of_nat (length (mid ++ c2))) = Some (back h (upto h type l) ++ c2).
Proof.
  induction l as [|q l IH]; intros [|fuel] m ptr mid c2 Hinv Hdesc Hload Hn Hc Hf Hlen Hn63; try (cbn [length] in Hf; lia); cbn [copy_loop].
  - cbn in Hc. subst ptr. destruct mid; [|done]. exists m. by split_and!.
  - destruct Hc as (-> & sn & Hq & Hc). pose proof (hi_snips _ _ _ _ _ _ _ Hinv q sn Hq) as Hat.
    pose proof (desc_fits _ _ _ _ _ _ _ _ _ Hinv Hq) as (_ & _ & Hq0 & _). rewrite (proj2 (Z.eqb_neq _ _) Hq0).
    rewrite (bb_desc_data base m first b new a d sz us ty _ Hdesc).
    rewrite (bb_snip_size base m first b q sn Hat), (bb_snip_data base m first b q sn Hat).
    assert (has_type h type q = (sn_type sn =? type)) as Ety by (unfold has_type; by rewrite Hq).
    assert (bytes_of h q = sn_bytes sn) as Eb by (unfold bytes_of; by rewrite Hq).
    cbn [upto] in *. rewrite Ety in *. set (l1 := if sn_type sn =? type then [] else upto h type l) in *.
    rewrite back_cons, Eb. rewrite <- back_length, back_cons, Eb, length_app, back_length in Hlen.
    destruct (split_at mid (length (content h l1)) ltac:(lia)) as (mid1 & mid2 & -> & Hmid1). rewrite length_app in Hlen.
    rewrite !length_app in Hn. rewrite length_app, Nat2Z.inj_add. unfold sn_size.
    replace (Z.of_nat (length mid1) + Z.of_nat (length mid2) - Z.of_nat (length (sn_bytes sn))) with (Z.of_nat (length mid1)) by lia.
    rewrite <- app_assoc in *.
    destruct (memcpy_ok base SIZE [(new - base, sizeof_pktsnip)] h cs m first b (d - base) n (mid1 ++ mid2 ++ c2) (Z.of_nat (length mid1))
      (d + Z.of_nat (length mid1)) (source_of (sn_data sn)) (sn_bytes sn) Hinv Hload) as (m1 & c' & Hrun & Hi & Hs & Hst & Hl);
      [rewrite !length_app; lia|lia|lia|rewrite !length_app; lia| |].
    { intros Hne. destruct (source_of_ok base SIZE _ _ _ _ _ _ _ Hinv Hq Hne) as [E ?]. split; [done|]. by rewrite E. }
    rewrite store_mid in Hst by lia. injection Hst as <-. rewrite (bbind_ok _ _ _ _ _ Hrun).
    pose proof (hi_snips _ _ _ _ _ _ _ Hi q sn Hq) as Hat1. rewrite (bb_snip_type base m1 first b q sn Hat1).
    apply Forall_cons in Hs as [Hs _]. pose proof (desc_same base _ _ _ _ _ _ _ _ Hs Hdesc) as Hdesc1.
    assert (length (mid1 ++ mid2 ++ c2) = length (mid1 ++ sn_bytes sn ++ c2)) as El by (rewrite !length_app; lia).
    subst l1. destruct (sn_type sn =? type).
    + exists m1. destruct mid1; [|done]. by split_and!.
    + rewrite (bb_snip_next base m1 first b q sn Hat1), wrap_small by (unfold uint; lia). rewrite El in *.
      destruct (IH fuel m1 (sn_next sn) mid1 (sn_bytes sn ++ c2) Hi Hdesc1 Hl) as (m2 & Hrun2 & Hi2 & Hdesc2 & Hl2);
        try done; [rewrite !length_app; lia|cbn [length] in Hf; lia|].
      exists m2. rewrite <- app_assoc. by split_and!.
Qed.

Lemma upto_ext h h' type l : (∀ q, q ∈ l → sn_type <$> h' !! q = sn_type <$> h !! q) → upto h' type l = upto h type l.
Proof.
  induction l as [|q l IH]; intros Hs; [done|]. cbn [upto]. rewrite IH by (intros r Hr; apply Hs; by right).
  specialize (Hs q ltac:(by left)). unfold has_type. destruct (h' !! q), (h !! q); try done. by injection Hs as ->.
Qed.

Lemma first_of_type_ext h h' type l : (∀ q, q ∈ l → sn_type <$> h' !! q = sn_type <$> h !! q) →
  first_of_type h' type l = first_of_type h type l.
Proof.
  induction l as [|q l IH]; intros Hs; [done|]. cbn [first_of_type]. rewrite IH by (intros r Hr; apply Hs; by right).
  specialize (Hs q ltac:(by left)). unfold has_type. destruct (h' !! q), (h !! q); try done. by injection Hs as ->.
Qed.

(** Nothing is copied when there is no data. *)
Lemma copy_nothing h cs m first b new sn type l : ∀ fuel ptr, heap_inv [] h cs m first → h !! new = Some sn →
  chain h ptr l → (length l < fuel)%nat → content h (upto h type l) = [] →
  copy_loop base fuel ptr new 0 type (Pktbuf m first b) = Some (tt, Pktbuf m first b).
Proof.
  induction l as [|q l IH]; intros [|fuel] ptr Hinv Hnew Hc Hf Hnil; try (cbn [length] in Hf; lia); cbn [copy_loop].
  - cbn in Hc. by subst ptr.
  - destruct Hc as (-> & sq & Hq & Hc). pose proof (hi_snips _ _ _ _ _ _ _ Hinv q sq Hq) as Hat.
    pose proof (desc_fits _ _ _ _ _ _ _ _ _ Hinv Hq) as (_ & _ & Hq0 & _). rewrite (proj2 (Z.eqb_neq _ _) Hq0).
    rewrite (bb_snip_data base m first b new sn (hi_snips _ _ _ _ _ _ _ Hinv new sn Hnew)).
    rewrite (bb_snip_size base m first b q sq Hat), (bb_snip_data base m first b q sq Hat).
    assert (has_type h type q = (sn_type sq =? type)) as Ety by (unfold has_type; by rewrite Hq).
    cbn [upto] in Hnil. rewrite Ety in Hnil. unfold content in Hnil. cbn [fmap list_fmap concat] in Hnil.
    apply app_eq_nil in Hnil as [Hb Hnil]. unfold bytes_of in Hb. rewrite Hq in Hb. cbn [from_option] in Hb.
    unfold sn_size. rewrite Hb. cbn [length Z.of_nat].
    rewrite (bbind_ok _ _ _ tt (Pktbuf m first b)) by reflexivity.
    rewrite (bb_snip_type base m first b q sq Hat). destruct (sn_type sq =? type); [done|].
    rewrite (bb_snip_next base m first b q sq Hat). apply IH; try done. cbn [length] in Hf. lia.
Qed.

(** The new snip after the payloads were copied to it. *)
Lemma fill_data_ok h cs m first new next d bs type ty p l : h !! new = None → chain h p l → is_Some (h !! p) →
  heap_inv [] (<[new := Snip next d bs 1 ty]> h) cs m first → length bs = length (content h (upto h type l)) →
  ∃ m', copy_loop base (fuel SIZE) p new (Z.of_nat (length bs)) type (Pktbuf m first true) = Some (tt, Pktbuf m' first true) ∧
    heap_inv [] (<[new := Snip next d (back h (upto h type l)) 1 ty]> h) cs m' first.
Proof.
  intros Hnew Hc Hp Hinv Hbs. set (sn := Snip next d bs 1 ty) in *.
  pose proof (chain_lookup h p l) as Hlook.
  assert (∀ q, q ∈ l → <[new := sn]> h !! q = h !! q) as Hsame.
  { intros q Hq. rewrite lookup_insert_ne; [done|]. intros ->. destruct (Hlook q Hc Hq). congruence. }
  assert (chain (<[new := sn]> h) p l) as Hc1 by (eapply chain_ext; [|exact Hc]; intros q Hq; by rewrite Hsame).
  destruct (decide (bs = [])) as [->|Hne].
  - assert (content h (upto h type l) = []) as E by (by destruct (content h (upto h type l))).
    exists m. assert (back h (upto h type l) = []) as -> by (apply nil_length_inv; by rewrite back_length, E).
    split; [|done]. cbn [length Z.of_nat].
    apply (copy_nothing _ cs m first true new sn type l _ p Hinv); [apply lookup_insert_eq|done|by eapply (chain_fuel base SIZE)|].
    rewrite (upto_ext h) by (intros q Hq; by rewrite Hsame). rewrite <- E. apply content_ext. intros q Hq. unfold bytes_of. rewrite Hsame; [done|].
    destruct (upto_prefix h type l) as [l' ->]. apply elem_of_app. by left.
  - destruct (heap_elim base SIZE [] _ cs m first new sn (lookup_insert_eq _ _ _) Hinv) as [Hraw Hat].
    rewrite delete_insert_id in Hraw by done. unfold snip_blocks in Hraw. cbn [sn_data sn_bytes sn] in Hraw.
    rewrite block_nonempty in Hraw by done. cbn [app] in Hraw. eapply heap_perm in Hraw; [|apply perm_swap].
    set (n := _align (Z.of_nat (length bs))) in *.
    pose proof (hi_sizes _ _ _ _ _ _ _ Hinv new sn (lookup_insert_eq _ _ _)) as Hsz. unfold sn_size in Hsz. cbn [sn_bytes sn] in Hsz.
    pose proof (align_bounds (Z.of_nat (length bs)) ltac:(lia)) as [Hal _]. fold n in Hal.
    pose proof (heap_ok _ _ _ _ _ _ _ Hraw) as ([(_ & _ & _ & _ & Hend) _]%Forall_cons & _ & _). cbn [fst snd] in Hend.
    pose proof conf_size as HS. pose proof (heap_ok _ _ _ _ _ _ _ Hraw) as ([(Hst0 & _) _]%Forall_cons & _ & _). cbn [fst] in Hst0.
    destruct (copy_loop_ok h cs first true new d n next (sn_size sn) 1 ty type l (fuel SIZE) m p bs [] Hraw (snip_desc base _ _ _ Hat))
      as (m2 & Hrun2 & Hraw2 & Hdesc2 & Hl2); rewrite ?app_nil_r in *; try done; try lia.
    { by apply (sa_bytes _ _ _ _ Hat). } { by eapply (chain_fuel base SIZE). }
    exists m2. split; [done|]. set (c := back h (upto h type l)) in *.
    assert (length c = length bs) as Ec by (unfold c; by rewrite back_length).
    apply heap_intro; [|destruct Hdesc2 as [E1 E2 E3 E4 E5]; split|]; cbn [sn_next sn_data sn_bytes sn_users sn_type] in *;
      try done; try apply Hat.
    + unfold snip_blocks. cbn [sn_data sn_bytes]. rewrite block_nonempty by (intros E0; rewrite E0 in Ec; by destruct bs).
      cbn [app]. rewrite Ec. eapply heap_perm; [apply perm_swap|exact Hraw2].
    + unfold sn_size in *. cbn [sn_bytes sn] in *. by rewrite Ec.
    + intros E0. rewrite E0 in Ec. by destruct bs.
    + intros _. unfold sn_size. cbn [sn_bytes]. by rewrite Ec.
    + unfold sn_size. cbn [sn_bytes]. lia.
Qed.

Lemma type_split h type l : first_of_type h type l = 0 ∧ upto h type l = l ∨
  ∃ l1 t l2, l = l1 ++ t :: l2 ∧ first_of_type h type l = t ∧ upto h type l = l1 ++ [t].
Proof.
  induction l as [|q l IH]; [by left|]. cbn [first_of_type upto]. destruct (has_type h type q).
  - right. by exists [], q, l.
  - destruct IH as [[-> ->]|(l1 & t & l2 & -> & -> & ->)]; [by left|]. right. by exists (q :: l1), t, l2.
Qed.

Lemma release_with_next h t v st : h !! t = Some st →
  release_one (<[t := with_next v st]> h) t =
  if decide (sn_users st = 1) then release_one h t else <[t := with_next v (with_users (sn_users st - 1) st)]> (release_one h t).
Proof.
  intros Ht. unfold release_one. rewrite lookup_insert_eq, Ht. cbn [sn_users with_next]. case_decide.
  - by rewrite delete_insert_eq.
  - rewrite !insert_insert_eq. by destruct st.
Qed.

(** Cutting the packet after its snip [t], releasing the front, and joining the
    packet again if its snips have other users. *)
Lemma cut_ok h cs m first p l1 t l2 st shared r : heap_inv [] h cs m first → chain h p (l1 ++ t :: l2) → h !! t = Some st →
  shared = bool_decide (1 < sn_users st) →
  ∃ cs' m' first', (set_snip_next base t 0;; _release_error_locked base SIZE p;;
      (if shared && negb (t =? 0) then set_snip_next base t (sn_next st) else mret tt);; mutex_unlock_pktbuf;; (mret r : B Z))
      (Pktbuf m first true) = Some (r, Pktbuf m' first' false) ∧
    heap_inv [] (foldl release_one h (l1 ++ [t])) cs' m' first'.
Proof.
  intros Hinv Hc Ht ->. pose proof (chain_NoDup h (heap_null _ _ _ _ _ _ _ Hinv) _ _ Hc) as (Hnd1 & Hnd2 & Hnd3)%NoDup_app.
  apply NoDup_cons in Hnd3 as [Htl2 _]. pose proof (desc_fits _ _ _ _ _ _ _ _ _ Hinv Ht) as (_ & _ & Ht0 & _).
  pose proof (hi_snips _ _ _ _ _ _ _ Hinv t st Ht) as Hat.
  assert (t ∉ l1) as Htl1 by (intros Hin; apply (Hnd2 t Hin); by left).
  set (K := λ _ : unit, _ : B Z).
  destruct (set_snip_next_ok base SIZE [] h cs m first true t st 0 K Hinv Ht ltac:(unfold uint; lia)) as (m1 & Hrun1 & Hinv1 & _).
  rewrite Hrun1. subst K. cbn beta. set (h1 := <[t := with_next 0 st]> h) in *.
  assert (chain h1 p (l1 ++ [t])) as Hc1.
  { assert (p = head_of l1 t) as Ep by (destruct l1; by destruct Hc). rewrite Ep. apply (relink_app h h1 p l1 (t :: l2)).
    - done.
    - done.
    - intros q Hq. unfold h1. rewrite lookup_insert_ne by (by intros ->). rewrite relink_lookup.
      destruct (decide (last l1 = Some q)) as [E|E]; [|done].
      apply last_Some in E as [l' ->]. rewrite <- app_assoc in Hc. destruct (chain_split h l' _ _ Hc) as (x & (-> & sq & Hq' & Hn) & _).
      rewrite Hq'. cbn in Hn. destruct Hn as [Hn _]. cbn. by rewrite Hn.
    - split; [done|]. exists (with_next 0 st). split; [apply lookup_insert_eq|done]. }
  destruct (release_loop_ok base SIZE (l1 ++ [t]) (fuel SIZE) p [] h1 cs m1 first true Hinv1 Hc1) as (cs2 & m2 & f2 & Hrun2 & Hinv2 & _).
  { apply NoDup_app. split; [done|]. split; [|by apply NoDup_singleton]. intros q Hq ->%list_elem_of_singleton. by apply Htl1. }
  { by eapply (chain_fuel base SIZE). }
  unfold _release_error_locked. rewrite (bbind_ok _ _ _ _ _ Hrun2), bb_if. rewrite foldl_app in *. cbn [foldl] in *.
  unfold h1 in Hinv2. rewrite foldl_release_insert in Hinv2 by done.
  assert (foldl release_one h l1 !! t = Some st) as Ht' by (by rewrite foldl_release_lookup).
  rewrite (release_with_next _ _ _ _ Ht') in Hinv2. pose proof (sa_used _ _ _ _ Hat) as Hu. case_decide as E.
  - rewrite bool_decide_false by lia. by exists cs2, m2, f2.
  - rewrite bool_decide_true, (proj2 (Z.eqb_neq _ _) Ht0) by lia. cbn [negb andb].
    set (K := λ _ : unit, _ : B Z).
    destruct (set_snip_next_ok base SIZE [] _ cs2 m2 f2 true t _ (sn_next st) K Hinv2 (lookup_insert_eq _ _ _) ltac:(apply Hat))
      as (m3 & Hrun3 & Hinv3 & _). rewrite Hrun3. subst K. cbn beta.
    exists cs2, m3, f2. split; [done|]. rewrite insert_insert_eq in Hinv3. unfold release_one at 1. rewrite Ht', decide_False by done.
    unfold release_one at 1 in Hinv3. rewrite Ht', decide_False, insert_insert_eq in Hinv3 by done. by destruct st.
Qed.

(** The first snip and the one of the type searched for are both shared, or neither is. *)
Definition same_sharing (h : gmap Z snip) (p t : Z) : Prop :=
  ∀ sp st, h !! p = Some sp → h !! t = Some st → (1 < sn_users sp ↔ 1 < sn_users st).

(** The outcome of duplicating the front of the packet [l]: nothing, or a new snip [r]
    with the payloads of the front in front of the rest of the packet. *)
Definition duplicated (h : gmap Z snip) (type : Z) (l : list Z) (r : Z) (h' : gmap Z snip) : Prop :=
  r = 0 ∧ h' = h ∨
  r ≠ 0 ∧ h !! r = None ∧ ∃ d rest, l = upto h type l ++ rest ∧
    h' = <[r := Snip (head_of rest 0) d (back h (upto h type l)) 1 type]> (foldl release_one h (upto h type l)).

Lemma duplicate_finish h cs m first p l type sp r next : heap_inv [] h cs m first → chain h p l → h !! p = Some sp →
  same_sharing h p (first_of_type h type l) →
  from_option sn_next 0 (h !! first_of_type h type l) = next →
  let target := first_of_type h type l in
  (∃ rest, l = upto h type l ++ rest ∧ head_of rest 0 = next) ∧
  ∃ cs' m' first', ((if negb (target =? 0) then set_snip_next base target 0 else mret tt);;
      _release_error_locked base SIZE p;;
      (if (1 <? sn_users sp) && negb (target =? 0) then set_snip_next base target next else mret tt);;
      mutex_unlock_pktbuf;;
      (mret r : B Z)) (Pktbuf m first true) = Some (r, Pktbuf m' first' false) ∧
    heap_inv [] (foldl release_one h (upto h type l)) cs' m' first'.
Proof.
  intros Hinv Hc Hp Hsh Hnext. cbv zeta. pose proof (heap_null _ _ _ _ _ _ _ Hinv) as H0.
  destruct (type_split h type l) as [[E1 E2]|(l1 & t & l2 & El & E1 & E2)]; rewrite E1 in *; rewrite E2.
  - rewrite H0 in Hnext. cbn in Hnext. subst next. split; [exists []; by rewrite app_nil_r|].
    cbn [Z.eqb negb]. rewrite bb_ret, andb_false_r.
    destruct (release_loop_ok base SIZE l (fuel SIZE) p [] h cs m first true Hinv Hc (chain_NoDup h H0 _ _ Hc)) as (cs2 & m2 & f2 & Hrun2 & Hinv2 & _).
    { by eapply (chain_fuel base SIZE). }
    unfold _release_error_locked. rewrite (bbind_ok _ _ _ _ _ Hrun2). by exists cs2, m2, f2.
  - subst l. destruct (chain_split h l1 _ _ Hc) as (x & (-> & st & Ht & Hn) & _). rewrite Ht in Hnext. cbn in Hnext. subst next.
    pose proof (desc_fits _ _ _ _ _ _ _ _ _ Hinv Ht) as (_ & _ & Ht0 & _). split.
    + exists l2. rewrite <- app_assoc. split; [done|]. destruct l2; by destruct Hn.
    + rewrite bb_if, !(proj2 (Z.eqb_neq t 0) Ht0). cbn [negb]. specialize (Hsh sp st Hp Ht).
      destruct (cut_ok h cs m first p l1 t l2 st (1 <? sn_users sp) r Hinv Hc Ht) as (cs' & m' & f' & Hrun & Hi).
      { destruct (Z.ltb_spec 1 (sn_users sp)); case_bool_decide; try done; lia. }
      rewrite (proj2 (Z.eqb_neq t 0) Ht0) in Hrun. by exists cs', m', f'.
Qed.

Lemma duplicate_ok h cs m first p l type sp : heap_inv [] h cs m first → chain h p l → h !! p = Some sp →
  - 2 ^ 31 ≤ type < 2 ^ 31 → same_sharing h p (first_of_type h type l) →
  ∃ r h' cs' m' first', gnrc_pktbuf_duplicate_upto base SIZE p type (Pktbuf m first false) = Some (r, Pktbuf m' first' false) ∧
    heap_inv [] h' cs' m' first' ∧ duplicated h type l r h'.
Proof.
  intros Hinv Hc Hp Htype Hsh. pose proof (heap_null _ _ _ _ _ _ _ Hinv) as H0.
  set (next := from_option sn_next 0 (h !! first_of_type h type l)).
  destruct (upto_prefix h type l) as [l' El].
  pose proof (content_length base SIZE _ _ _ _ _ l Hinv (chain_NoDup h H0 _ _ Hc) ltac:(intros q; by eapply chain_lookup)) as Hlen.
  rewrite El, content_app, length_app in Hlen. pose proof conf_size as HS.
  unfold gnrc_pktbuf_duplicate_upto. rewrite lock_ok.
  rewrite (bb_snip_users base m first true p sp (hi_snips _ _ _ _ _ _ _ Hinv p sp Hp)). cbv zeta.
  rewrite (bbind_ok _ _ _ _ _ (len_upto_ok [] h cs m first true type p l Hinv Hc)).
  rewrite (bbind_ok _ _ _ _ _ (search_type_ok base SIZE [] h cs m first true type p l Hinv Hc)).
  rewrite (bbind_ok _ _ _ next (Pktbuf m first true)).
  2: { unfold next. destruct (type_split h type l) as [[E1 E2]|(l1 & t & l2 & E & E1 & E2)]; rewrite E1; [by rewrite H0|].
    rewrite E in Hc. destruct (chain_split h l1 _ _ Hc) as (x & (-> & st & Ht & Hn) & _). rewrite Ht.
    pose proof (desc_fits _ _ _ _ _ _ _ _ _ Hinv Ht) as (_ & _ & Ht0 & _). rewrite (proj2 (Z.eqb_neq _ _) Ht0).
    pose proof (bb_snip_next base m first true t st (hi_snips _ _ _ _ _ _ _ Hinv t st Ht) mret) as Hr.
    unfold mbind, B_bind in Hr. by destruct (snip_next base t _) as [[? ?]|]. }
  assert (uint 64 next) as Hn64.
  { unfold next. destruct (h !! first_of_type h type l) as [st|] eqn:Ht; [|by unfold uint; cbn].
    apply (hi_snips _ _ _ _ _ _ _ Hinv _ st Ht). }
  destruct (create_snip_ok base SIZE [] h cs m first true next SNull (content h (upto h type l)) type Hinv Hn64 ltac:(lia) Htype ltac:(done))
    as (r & h1 & cs1 & m1 & f1 & Hrun1 & Hinv1 & Hcr & _ & _).
  rewrite (bbind_ok _ _ _ _ _ Hrun1). destruct Hcr as [[-> ->]|(Hr0 & Hrn & d & bs & Hbs & _ & ->)].
  { cbn [Z.eqb]. rewrite unlock_ok. exists 0, h, cs1, m1, f1. split; [done|]. split; [done|by left]. }
  rewrite (proj2 (Z.eqb_neq _ _) Hr0).
  destruct (fill_data_ok h cs1 m1 f1 r next d bs type type p l Hrn Hc ltac:(by eexists) Hinv1 Hbs) as (m2 & Hrun2 & Hinv2).
  rewrite Hbs in Hrun2. rewrite (bbind_ok _ _ _ _ _ Hrun2).
  set (c := back h (upto h type l)) in *. set (h2 := <[r := Snip next d c 1 type]> h) in *.
  assert (∀ q, q ≠ r → h2 !! q = h !! q) as Hsame by (intros q Hq; unfold h2; by rewrite lookup_insert_ne).
  assert (∀ q, q ∈ l → q ≠ r) as Hlr by (intros q Hq ->; destruct (chain_lookup _ _ _ _ Hc Hq); congruence).
  assert (∀ q, h !! q ≠ None → q ≠ r) as Hhr by (by intros q Hq ->).
  assert (chain h2 p l) as Hc2 by (eapply chain_ext; [|exact Hc]; intros q Hq; by rewrite Hsame by by apply Hlr).
  assert (upto h2 type l = upto h type l) as Eup by (apply upto_ext; intros q Hq; by rewrite Hsame by by apply Hlr).
  assert (first_of_type h2 type l = first_of_type h type l) as Efst by (apply first_of_type_ext; intros q Hq; by rewrite Hsame by by apply Hlr).
  assert (first_of_type h type l ≠ r) as Htr.
  { destruct (type_split h type l) as [[E1 _]|(l1 & t & l2 & E & E1 & _)]; rewrite E1; [done|]. apply Hlr. rewrite E, elem_of_app. right. by left. }
  assert (h2 !! p = Some sp) as Hp2 by (rewrite Hsame; [done|]; apply Hhr; by rewrite Hp).
  destruct (duplicate_finish h2 cs1 m2 f1 p l type sp r next Hinv2 Hc2 Hp2) as ((rest & Hrest & Hhd) & cs3 & m3 & f3 & Hrun3 & Hinv3).
  { rewrite Efst. intros sp' st' Hsp' Hst'. rewrite Hsame in Hst' by done. rewrite Hsame in Hsp' by (apply Hhr; by rewrite Hp). by apply Hsh. }
  { rewrite Efst, Hsame by done. done. }
  rewrite Efst in Hrun3. rewrite Eup in *. eexists r, _, cs3, m3, f3. split; [exact Hrun3|]. split; [exact Hinv3|].
  right. split; [done|]. split; [done|]. exists d, rest. split; [done|]. rewrite Hhd. unfold h2. apply foldl_release_insert.
  intros Hin. apply (Hlr r); [|done]. rewrite El. apply elem_of_app. by left.
Qed.
End Edit.
