(* ===== verification/PktbufSpec.v ===== *)
(** * What the packet buffer promises its users

    The abstract state of the buffer: the snips, by address, and the unused chunks.
    [valid] says when a call may be made and [effect] what it does to the snips; the
    code refines this specification.  A user of the buffer is a program that makes
    calls and goes on with their results; programs that are correct against the
    specification run without a fault on the code. *)

From S2P Require Import Prelude Bytes Buffers Pktbuf PktbufAlloc PktbufHeap PktbufProof PktbufPackets PktbufEdit.

Implicit Types h : gmap Z snip.

(** The calls of the interface; [bs] is the data that is given, of the size passed. *)
Inductive call :=
  | Add (next : Z) (src : source) (bs : list Z) (type : Z)
  | Mark (pkt size type : Z)
  | ReallocData (pkt size : Z)
  | Hold (pkt num : Z)
  | Release (pkt : Z)
  | StartWrite (pkt : Z)
  | Len (pkt : Z)
  | LenUpto (pkt type : Z)
  | Count (pkt : Z)
  | SearchType (pkt type : Z)
  | DuplicateUpto (pkt type : Z)
  | RemoveSnip (pkt snip : Z)
  | ReplaceSnip (pkt old add : Z)
  | ReverseSnips (pkt : Z)
  | Merge (pkt : Z)
  | IsEmpty.

(** A user of the buffer. *)
Inductive prog := Done (r : Z) | Call (c : call) (k : Z → prog).

Section Spec.
Context (base SIZE : Z).

Definition run_call (c : call) : B Z :=
  match c with
  | Add next src bs type => gnrc_pktbuf_add base SIZE next src (Z.of_nat (length bs)) type
  | Mark pkt size type => gnrc_pktbuf_mark base SIZE pkt size type
  | ReallocData pkt size => gnrc_pktbuf_realloc_data base SIZE pkt size
  | Hold pkt num => gnrc_pktbuf_hold base SIZE pkt num;; mret 0
  | Release pkt => gnrc_pktbuf_release base SIZE pkt;; mret 0
  | StartWrite pkt => gnrc_pktbuf_start_write base SIZE pkt
  | Len pkt => gnrc_pkt_len base SIZE pkt
  | LenUpto pkt type => gnrc_pkt_len_upto base SIZE pkt type
  | Count pkt => gnrc_pkt_count base SIZE pkt
  | SearchType pkt type => gnrc_pktsnip_search_type base SIZE pkt type
  | DuplicateUpto pkt type => gnrc_pktbuf_duplicate_upto base SIZE pkt type
  | RemoveSnip pkt snip => gnrc_pktbuf_remove_snip base SIZE pkt snip
  | ReplaceSnip pkt old add => gnrc_pktbuf_replace_snip base SIZE pkt old add
  | ReverseSnips pkt => gnrc_pktbuf_reverse_snips base SIZE pkt
  | Merge pkt => gnrc_pktbuf_merge base SIZE pkt
  | IsEmpty => b ← gnrc_pktbuf_is_empty base SIZE; mret (b2z b)
  end.

Definition nettype (type : Z) : Prop := - 2 ^ 31 ≤ type < 2 ^ 31.

(** When a call may be made. *)
Definition valid (h : gmap Z snip) (c : call) : Prop :=
  match c with
  | Add next src bs type =>
      uint 64 next ∧ nettype type ∧ (Z.of_nat (length bs) ≤ SIZE → bs ≠ [] → source_ok h src bs)
  | Mark pkt size type => is_Some (h !! pkt) ∧ 0 ≤ size ∧ nettype type
  | ReallocData pkt size => is_Some (h !! pkt) ∧ 0 ≤ size < 2 ^ 63
  | Hold pkt num => 0 ≤ num ∧ ∃ l, chain h pkt l ∧ ∀ q sn, q ∈ l → h !! q = Some sn → sn_users sn + num < 2 ^ 32
  | Release pkt | Len pkt | LenUpto pkt _ | Count pkt | SearchType pkt _ | ReverseSnips pkt => ∃ l, chain h pkt l
  | StartWrite pkt => pkt = 0 ∨ is_Some (h !! pkt)
  | DuplicateUpto pkt type =>
      is_Some (h !! pkt) ∧ nettype type ∧ ∃ l, chain h pkt l ∧ same_sharing h pkt (first_of_type h type l)
  | RemoveSnip pkt snip => ∃ l1 l2, chain h pkt (l1 ++ snip :: l2)
  | ReplaceSnip pkt old add => ∃ l1 l2 la,
      chain h pkt (l1 ++ old :: l2) ∧ chain h add la ∧ la ≠ [] ∧ ∀ q, q ∈ la → q ∉ (l1 ++ old :: l2)
  | Merge pkt => ∃ l, chain h pkt (pkt :: l)
  | IsEmpty => True
  end.

(** No unused chunk has [n] bytes. *)
Definition no_room (cs : list chunk) (n : Z) : Prop := Forall (λ c, c.2 < n) cs.

(** The snips after a call that returns [r], when [cs] are the unused chunks before it. *)
Definition effect (h : gmap Z snip) (cs : list chunk) (c : call) (r : Z) (h' : gmap Z snip) : Prop :=
  match c with
  | Add next src bs type =>
      if decide (SIZE < Z.of_nat (length bs)) then r = 0 ∧ h' = h
      else created h next src bs type r h' ∧ (r = 0 → no_room cs (sizeof_pktsnip + _align (Z.of_nat (length bs))))
  | Mark pkt size type => ∀ sn, h !! pkt = Some sn →
      if decide (size = 0 ∨ sn_size sn < size) then r = 0 ∧ h' = h
      else marked_off h pkt sn (take (Z.to_nat size) (sn_bytes sn)) (drop (Z.to_nat size) (sn_bytes sn)) type r h' ∧
        (r = 0 → no_room cs (sizeof_pktsnip + (_align size + _align (sn_size sn - size))))
  | ReallocData pkt size => ∀ sn, h !! pkt = Some sn →
      resized_to h pkt sn size r h' ∧ (r = ENOMEM → no_room cs (_align size))
  | Hold pkt num => r = 0 ∧ ∀ l, chain h pkt l → h' = foldl (hold_one num) h l
  | Release pkt => r = 0 ∧ ∀ l, chain h pkt l → h' = foldl release_one h l
  | StartWrite pkt => pkt = 0 ∧ r = 0 ∧ h' = h ∨
      ∃ sn, h !! pkt = Some sn ∧ protected h pkt sn r h' ∧ (r = 0 → no_room cs (sizeof_pktsnip + _align (sn_size sn)))
  | Len pkt => h' = h ∧ ∀ l, chain h pkt l → r = Z.of_nat (length (content h l))
  | LenUpto pkt type => h' = h ∧ ∀ l, chain h pkt l → r = Z.of_nat (length (content h (upto h type l)))
  | Count pkt => h' = h ∧ ∀ l, chain h pkt l → r = Z.of_nat (length l)
  | SearchType pkt type => h' = h ∧ ∀ l, chain h pkt l → r = first_of_type h type l
  | DuplicateUpto pkt type => ∀ l, chain h pkt l → duplicated h type l r h'
  | RemoveSnip pkt snip => ∀ l1 l2 sn, chain h pkt (l1 ++ snip :: l2) → h !! snip = Some sn →
      r = head_of l1 (sn_next sn) ∧ chain h' r (l1 ++ l2) ∧
      h' = release_one (<[snip := with_next 0 sn]> (relink h l1 (sn_next sn))) snip
  | ReplaceSnip pkt old add => ∀ l1 l2 la so, chain h pkt (l1 ++ old :: l2) → h !! old = Some so → chain h add la →
      r = head_of l1 add ∧ chain h' r (l1 ++ la ++ l2) ∧ h' = replaced h l1 old so la add
  | ReverseSnips pkt => ∀ l, chain h pkt l → reversed_to h l r h'
  | Merge pkt => ∀ l sn, chain h pkt (pkt :: l) → h !! pkt = Some sn → merged h pkt sn l r h'
  | IsEmpty => h' = h ∧ r = b2z (bool_decide (h = ∅))
  end.

(** A program is correct for the postcondition [Q]: every call is valid, whatever the
    calls before it returned. *)
Fixpoint correct (h : gmap Z snip) (cs : list chunk) (p : prog) (Q : Z → gmap Z snip → Prop) : Prop :=
  match p with
  | Done r => Q r h
  | Call c k => valid h c ∧
      ∀ r h' cs', effect h cs c r h' → layout SIZE (blocks base h') cs' → correct h' cs' (k r) Q
  end.

Fixpoint run_prog (p : prog) : B Z :=
  match p with Done r => mret r | Call c k => r ← run_call c; run_prog (k r) end.

Context `{!BufferConf base SIZE}.
Abbreviation heap_inv := (heap_inv base SIZE).

Lemma blocks_empty h : bool_decide (blocks base h = []) = bool_decide (h = ∅).
Proof.
  apply bool_decide_ext. split; [|by intros ->]. intros E. pose proof (blocks_length base h) as Hl. rewrite E in Hl.
  apply map_size_empty_inv. cbn [length] in Hl. lia.
Qed.

Lemma heap_start m first : Z.of_nat (length m) = SIZE →
  ∃ m', gnrc_pktbuf_init base SIZE (Pktbuf m first false) = Some (tt, Pktbuf m' base false) ∧ heap_inv [] ∅ [(0, SIZE)] m' base.
Proof.
  intros Hl. destruct (pktbuf_init_ok base SIZE m first Hl) as (m' & Hrun & Hi). exists m'. split; [done|].
  split; [exact Hi|by intros p sn Hp..].
Qed.

(** ** The calls implement their specification *)

Definition implements (c : call) : Prop := ∀ h cs m first, heap_inv [] h cs m first → valid h c →
  ∃ r h' cs' m' first', run_call c (Pktbuf m first false) = Some (r, Pktbuf m' first' false) ∧
    heap_inv [] h' cs' m' first' ∧ effect h cs c r h'.

Lemma chain_same h cs m first p l l' : heap_inv [] h cs m first → chain h p l → chain h p l' → l = l'.
Proof. intros Hinv. by apply chain_det, (heap_null base SIZE [] h cs m first). Qed.

Lemma split_unique (x : Z) l1 l2 l1' l2' : NoDup (l1 ++ x :: l2) → l1 ++ x :: l2 = l1' ++ x :: l2' → l1 = l1' ∧ l2 = l2'.
Proof.
  revert l1'. induction l1 as [|y l1 IH]; intros [|z l1'] Hnd E; cbn [app] in *.
  - by injection E as ->.
  - injection E as -> ->. apply NoDup_cons in Hnd as [Hnd _]. destruct Hnd. apply elem_of_app. right. by left.
  - injection E as -> <-. apply NoDup_cons in Hnd as [Hnd _]. destruct Hnd. apply elem_of_app. right. by left.
  - injection E as -> E. apply NoDup_cons in Hnd as [_ Hnd]. by destruct (IH _ Hnd E) as [-> ->].
Qed.

(** Calls that only read. *)
Lemma reads (m : B Z) h cs mem first r (P : Z → gmap Z snip → Prop) : m (Pktbuf mem first false) = Some (r, Pktbuf mem first false) →
  heap_inv [] h cs mem first → P r h →
  ∃ r' h' cs' m' first', m (Pktbuf mem first false) = Some (r', Pktbuf m' first' false) ∧ heap_inv [] h' cs' m' first' ∧ P r' h'.
Proof. intros Hrun Hinv HP. by exists r, h, cs, mem, first. Qed.

Lemma walks_implement pkt type :
  implements (Len pkt) ∧ implements (LenUpto pkt type) ∧ implements (Count pkt) ∧ implements (SearchType pkt type) ∧ implements IsEmpty.
Proof.
  split_and!; intros h cs m first Hinv Hv; cbn [valid run_call effect] in *.
  - destruct Hv as [l Hc]. eapply (reads _ h cs m first _ (λ r h', _)); [by eapply pkt_len_ok|done|]. split; [done|].
    intros l' Hc'. by rewrite (chain_same _ _ _ _ _ _ _ Hinv Hc' Hc).
  - destruct Hv as [l Hc]. eapply (reads _ h cs m first _ (λ r h', _)); [by eapply len_upto_ok|done|]. split; [done|].
    intros l' Hc'. by rewrite (chain_same _ _ _ _ _ _ _ Hinv Hc' Hc).
  - destruct Hv as [l Hc]. eapply (reads _ h cs m first _ (λ r h', _)); [by eapply pkt_count_ok|done|]. split; [done|].
    intros l' Hc'. by rewrite (chain_same _ _ _ _ _ _ _ Hinv Hc' Hc).
  - destruct Hv as [l Hc]. eapply (reads _ h cs m first _ (λ r h', _)); [by eapply search_type_ok|done|]. split; [done|].
    intros l' Hc'. by rewrite (chain_same _ _ _ _ _ _ _ Hinv Hc' Hc).
  - apply (reads _ h cs m first (b2z (bool_decide (h = ∅))) (λ r h', h' = h ∧ r = b2z (bool_decide (h = ∅)))); [|done|done].
    rewrite (bbind_ok _ _ _ _ _ (is_empty_ok base SIZE _ _ _ _ false (hi_alloc _ _ _ _ _ _ _ Hinv))). by rewrite <- blocks_empty.
Qed.

Lemma counts_implement pkt num : implements (Hold pkt num) ∧ implements (Release pkt) ∧ implements (ReverseSnips pkt).
Proof.
  split_and!; intros h cs m first Hinv Hv; cbn [valid run_call effect] in *.
  - destruct Hv as (Hnum & l & Hc & Hu). destruct (hold_ok base SIZE h cs m first pkt l num Hinv Hc Hnum Hu) as (m' & Hrun & Hi).
    rewrite (bbind_ok _ _ _ _ _ Hrun). eexists 0, _, cs, m', first. split; [done|]. split; [done|]. split; [done|].
    intros l' Hc'. by rewrite (chain_same _ _ _ _ _ _ _ Hinv Hc' Hc).
  - destruct Hv as [l Hc]. destruct (release_ok base SIZE [] h cs m first pkt l Hinv Hc) as (cs' & m' & f' & Hrun & Hi & _).
    rewrite (bbind_ok _ _ _ _ _ Hrun). eexists 0, _, cs', m', f'. split; [done|]. split; [done|]. split; [done|].
    intros l' Hc'. by rewrite (chain_same _ _ _ _ _ _ _ Hinv Hc' Hc).
  - destruct Hv as [l Hc]. destruct (reverse_snips_ok base SIZE h cs m first pkt l Hinv Hc) as (r & h' & cs' & m' & f' & Hrun & Hi & Hres).
    exists r, h', cs', m', f'. split; [done|]. split; [done|]. intros l' Hc'. by rewrite (chain_same _ _ _ _ _ _ _ Hinv Hc' Hc).
Qed.

Lemma snip_calls_implement next src bs pkt size type : implements (Add next src bs type) ∧ implements (Mark pkt size type) ∧
  implements (ReallocData pkt size) ∧ implements (StartWrite pkt).
Proof.
  split_and!; intros h cs m first Hinv Hv; cbn [valid run_call effect] in *.
  - destruct Hv as (Hn & Ht & Hsrc). case_decide as Hbig.
    + exists 0, h, cs, m, first. split; [|done]. unfold gnrc_pktbuf_add. by rewrite (proj2 (Z.ltb_lt _ _)).
    + destruct (add_ok base SIZE h cs m first next src bs type Hinv Hn Ht ltac:(lia) ltac:(intros; apply Hsrc; [lia|done]))
        as (r & h' & cs' & m' & f' & Hrun & Hi & Hcr & Hno). by exists r, h', cs', m', f'.
  - destruct Hv as ([sn Hp] & Hs & Ht). destruct (decide (size = 0 ∨ sn_size sn < size)) as [Href|Hok].
    + exists 0, h, cs, m, first. split; [|split; [done|]]; [|intros sn' Hp'; rewrite Hp in Hp'; injection Hp' as <-; by rewrite decide_True].
      unfold gnrc_pktbuf_mark. cbv zeta. rewrite lock_ok.
      rewrite (bbind_ok _ _ _ _ _ (mark_refused_ok base SIZE _ _ _ _ _ true pkt sn size Hinv Hp Hs)). by rewrite bool_decide_true.
    + assert (0 < size ≤ sn_size sn) as Hsz by lia. unfold sn_size in Hsz.
      destruct (mark_ok base SIZE h cs m first pkt sn (take (Z.to_nat size) (sn_bytes sn)) (drop (Z.to_nat size) (sn_bytes sn)) type Hinv Hp)
        as (r & h' & cs' & m' & f' & Hrun & Hi & Hres & Hno); [by rewrite take_drop| |done|].
      { intros E. apply (f_equal length) in E. rewrite length_take in E. cbn [length] in E. lia. }
      rewrite length_take in Hrun, Hno. rewrite length_drop in Hno.
      replace (Z.of_nat (Z.to_nat size `min` length (sn_bytes sn))) with size in Hrun, Hno by lia.
      replace (Z.of_nat (length (sn_bytes sn) - Z.to_nat size)) with (sn_size sn - size) in Hno by (unfold sn_size; lia).
      exists r, h', cs', m', f'. split; [done|]. split; [done|]. intros sn' Hp'. rewrite Hp in Hp'. injection Hp' as <-. by rewrite decide_False.
  - destruct Hv as ([sn Hp] & Hs). destruct (realloc_ok base SIZE h cs m first pkt sn size Hinv Hp Hs) as (r & h' & cs' & m' & f' & Hrun & Hi & Hres & Hno).
    exists r, h', cs', m', f'. split; [done|]. split; [done|]. intros sn' Hp'. rewrite Hp in Hp'. injection Hp' as <-. done.
  - destruct Hv as [->|[sn Hp]].
    + exists 0, h, cs, m, first. split; [done|]. split; [done|by left].
    + destruct (start_write_ok base SIZE [] h cs m first pkt sn Hinv Hp) as (r & h' & cs' & m' & f' & Hrun & Hi & Hres & _ & Hno).
      exists r, h', cs', m', f'. split; [done|]. split; [done|]. right. by exists sn.
Qed.

Lemma edits_implement pkt snip old add type : implements (RemoveSnip pkt snip) ∧ implements (ReplaceSnip pkt old add) ∧
  implements (Merge pkt) ∧ implements (DuplicateUpto pkt type).
Proof.
  split_and!; intros h cs m first Hinv Hv; cbn [valid run_call effect] in *.
  - destruct Hv as (l1 & l2 & Hc). destruct (chain_lookup h pkt _ snip Hc ltac:(apply elem_of_app; right; by left)) as [sn Hsn].
    destruct (remove_snip_ok base SIZE h cs m first pkt l1 snip l2 sn Hinv Hc Hsn) as (cs' & m' & f' & Hrun & Hi & Hres).
    eexists _, _, cs', m', f'. split; [done|]. split; [done|]. intros l1' l2' sn' Hc' Hsn'.
    rewrite Hsn in Hsn'. injection Hsn' as <-. pose proof (chain_same _ _ _ _ _ _ _ Hinv Hc Hc') as E.
    apply split_unique in E as [-> ->]; [done|]. exact (chain_NoDup h (heap_null base SIZE _ _ _ _ _ Hinv) _ _ Hc).
  - destruct Hv as (l1 & l2 & la & Hc & Hca & Hne & Hd). destruct (chain_lookup h pkt _ old Hc ltac:(apply elem_of_app; right; by left)) as [so Hso].
    destruct (replace_snip_ok base SIZE h cs m first pkt l1 old l2 so la add Hinv Hc Hso Hca Hne Hd) as (cs' & m' & f' & Hrun & Hi & Hres).
    eexists _, _, cs', m', f'. split; [done|]. split; [done|]. intros l1' l2' la' so' Hc' Hso' Hca'.
    rewrite Hso in Hso'. injection Hso' as <-. pose proof (chain_same _ _ _ _ _ _ _ Hinv Hc Hc') as E.
    rewrite (chain_same _ _ _ _ _ _ _ Hinv Hca' Hca).
    apply split_unique in E as [-> ->]; [done|]. exact (chain_NoDup h (heap_null base SIZE _ _ _ _ _ Hinv) _ _ Hc).
  - destruct Hv as (l & Hc). pose proof Hc as (_ & sn & Hp & _).
    destruct (merge_all_ok base SIZE h cs m first pkt sn l Hinv Hc Hp) as (r & h' & cs' & m' & f' & Hrun & Hi & Hres).
    exists r, h', cs', m', f'. split; [done|]. split; [done|]. intros l' sn' Hc' Hp'. rewrite Hp in Hp'. injection Hp' as <-.
    pose proof (chain_same _ _ _ _ _ _ _ Hinv Hc' Hc) as E. by injection E as ->.
  - destruct Hv as ([sp Hp] & Ht & l & Hc & Hsh).
    destruct (duplicate_ok base SIZE h cs m first pkt l type sp Hinv Hc Hp Ht Hsh) as (r & h' & cs' & m' & f' & Hrun & Hi & Hres).
    exists r, h', cs', m', f'. split; [done|]. split; [done|]. intros l' Hc'. by rewrite (chain_same _ _ _ _ _ _ _ Hinv Hc' Hc).
Qed.

Lemma call_implements c : implements c.
Proof.
  destruct c as [next src bs type|pkt size type|pkt size|pkt num|pkt|pkt|pkt|pkt type|pkt|pkt type|pkt type|pkt snip|pkt old add|pkt|pkt|].
  - by destruct (snip_calls_implement next src bs 0 0 type) as (? & _).
  - by destruct (snip_calls_implement 0 SNull [] pkt size type) as (_ & ? & _).
  - by destruct (snip_calls_implement 0 SNull [] pkt size 0) as (_ & _ & ? & _).
  - by destruct (counts_implement pkt num) as (? & _).
  - by destruct (counts_implement pkt 0) as (_ & ? & _).
  - by destruct (snip_calls_implement 0 SNull [] pkt 0 0) as (_ & _ & _ & ?).
  - by destruct (walks_implement pkt 0) as (? & _).
  - by destruct (walks_implement pkt type) as (_ & ? & _).
  - by destruct (walks_implement pkt 0) as (_ & _ & ? & _).
  - by destruct (walks_implement pkt type) as (_ & _ & _ & ? & _).
  - by destruct (edits_implement pkt 0 0 0 type) as (_ & _ & _ & ?).
  - by destruct (edits_implement pkt snip 0 0 0) as (? & _).
  - by destruct (edits_implement pkt 0 old add 0) as (_ & ? & _).
  - by destruct (counts_implement pkt 0) as (_ & _ & ?).
  - by destruct (edits_implement pkt 0 0 0 0) as (_ & _ & ? & _).
  - by destruct (walks_implement 0 0) as (_ & _ & _ & _ & ?).
Qed.

Lemma run_correct (Q : Z → gmap Z snip → Prop) p : ∀ h cs m first, heap_inv [] h cs m first → correct h cs p Q →
  ∃ r h' cs' m' first', run_prog p (Pktbuf m first false) = Some (r, Pktbuf m' first' false) ∧
    heap_inv [] h' cs' m' first' ∧ Q r h'.
Proof.
  induction p as [r|c k IH]; intros h cs m first Hinv Hc; cbn [run_prog correct] in *.
  - by exists r, h, cs, m, first.
  - destruct Hc as [Hv Hk]. destruct (call_implements c h cs m first Hinv Hv) as (r & h1 & cs1 & m1 & f1 & Hrun & Hi & He).
    rewrite (bbind_ok _ _ _ _ _ Hrun). apply (IH r h1 cs1); [done|]. apply (Hk _ _ _ He). apply (heap_layout _ _ _ _ _ _ _ Hi).
Qed.

End Spec.

(** ** The properties *)

Section Claims.
Context (base SIZE : Z).
Abbreviation heap_inv := (heap_inv base SIZE).

(** The allocator.  On a buffer whose allocated blocks are [bl] and whose unused chunks are [cs], [_pktbuf_alloc]
    returns null only when no unused chunk is large enough, and otherwise the start of the first chunk that is,
    rounded up to whole chunk headers, writing to unused memory only; [_pktbuf_free] of an allocated block of that
    size gives its memory back, joined with its neighbours, so that unused chunks never touch; a pointer outside the
    buffer is not freed; the buffer is reported empty exactly when nothing is allocated; and the sanity check
    succeeds exactly when there is no unused chunk or the last one reaches the end of the buffer. *)
Theorem pktbuf_alloc_correct (Hconf : BufferConf base SIZE) bl cs m first l : alloc_inv base SIZE bl cs m first →
  (∀ size, 0 < size < 2 ^ 63 → ∃ p cs' m' first',
     _pktbuf_alloc base SIZE size (Pktbuf m first l) = Some (p, Pktbuf m' first' l) ∧
     alloc_result base SIZE (_align size) bl cs m first p cs' m' first') ∧
  (∀ o n size bl', bl ≡ₚ (o, n) :: bl' → _align size = n → ∃ cs' m' first',
     _pktbuf_free base SIZE (base + o) size (Pktbuf m first l) = Some (tt, Pktbuf m' first' l) ∧
     alloc_inv base SIZE bl' cs' m' first' ∧ agree (inside ((o, n) :: cs)) m m') ∧
  (∀ p size, _pktbuf_contains base SIZE p = false → _pktbuf_free base SIZE p size (Pktbuf m first l) = Some (tt, Pktbuf m first l)) ∧
  gnrc_pktbuf_is_empty base SIZE (Pktbuf m first l) = Some (bool_decide (bl = []), Pktbuf m first l) ∧
  gnrc_pktbuf_is_sane base SIZE (Pktbuf m first l) = Some (ends SIZE cs, Pktbuf m first l).
Proof.
  intros Hinv. split_and!.
  - intros size Hs. by apply alloc_ok.
  - intros o n size bl' Hp Hn. apply (free_ok base SIZE size bl' cs m first l o n); [|exact Hn]. destruct Hinv as [Hly H1 H2 H3].
    split; [by eapply layout_perm|done..].
  - intros p size Hp. unfold _pktbuf_free. by rewrite Hp.
  - by eapply is_empty_ok.
  - by eapply is_sane_ok.
Qed.

(** C19: Every call of the interface implements its specification: when the snips in memory are [h], [cs] are the
    unused chunks and the call is valid, it returns without a fault (no assertion fails, no access is outside the
    buffer, the mutex is free again, every loop ends), the memory is well formed again, and the result and the new
    snips are those of [effect].  In particular data is never lost or changed by another snip's calls, a snip is
    freed when its last user releases it, and adding, marking, resizing and copying on write fail only when no unused
    chunk has room for everything they allocate. *)
Theorem pktbuf_calls_refine (Hconf : BufferConf base SIZE) c h cs m first : heap_inv [] h cs m first → valid SIZE h c →
  ∃ r h' cs' m' first', run_call base SIZE c (Pktbuf m first false) = Some (r, Pktbuf m' first' false) ∧
    heap_inv [] h' cs' m' first' ∧ effect SIZE h cs c r h'.
Proof. by apply call_implements. Qed.

(** C20: Programs that are correct against the specification of the calls run on the code: after [gnrc_pktbuf_init] on
    memory with any contents, the program ends without a fault, with a result and snips as its postcondition says,
    the memory is well formed, and the buffer is empty, one unused chunk again, exactly when no snip is left. *)
Theorem pktbuf_programs_safe (Hconf : BufferConf base SIZE) (Q : Z → gmap Z snip → Prop) p m first : Z.of_nat (length m) = SIZE →
  correct base SIZE ∅ [(0, SIZE)] p Q →
  ∃ r h cs m' first', (gnrc_pktbuf_init base SIZE;; run_prog base SIZE p) (Pktbuf m first false) = Some (r, Pktbuf m' first' false) ∧
    heap_inv [] h cs m' first' ∧ Q r h ∧
    gnrc_pktbuf_is_empty base SIZE (Pktbuf m' first' false) = Some (bool_decide (h = ∅), Pktbuf m' first' false) ∧
    (h = ∅ → cs = [(0, SIZE)]).
Proof.
  intros Hl Hc. destruct (heap_start base SIZE m first Hl) as (m1 & Hrun1 & Hi1). rewrite (bbind_ok _ _ _ _ _ Hrun1).
  destruct (run_correct base SIZE Q p ∅ _ m1 base Hi1 Hc) as (r & h & cs & m2 & f2 & Hrun2 & Hi2 & HQ).
  exists r, h, cs, m2, f2. split; [done|]. split; [done|]. split; [done|]. split.
  - rewrite (is_empty_ok base SIZE _ _ _ _ false (hi_alloc _ _ _ _ _ _ _ Hi2)). by rewrite <- (blocks_empty base).
  - intros ->. apply (layout_nil base SIZE). exact (heap_layout base SIZE [] ∅ cs m2 f2 Hi2).
Qed.
End Claims.

(** ** Applications *)

Definition demo_base : Z := 2147487744.

Lemma demo_conf : BufferConf demo_base 256.
Proof. split; [done|done|done|by exists 16|done]. Qed.

Lemma pktbuf_alloc_correct_witness : ∃ m cs' m' first',
  _pktbuf_alloc demo_base 256 20 (Pktbuf m demo_base false) = Some (demo_base, Pktbuf m' first' false) ∧
  alloc_inv demo_base 256 [(0, 32)] cs' m' first'.
Proof.
  destruct (@pktbuf_init_ok demo_base 256 demo_conf (replicate 256 0) 0 eq_refl) as (m & _ & Hinv). exists m.
  destruct (pktbuf_alloc_correct demo_base 256 demo_conf [] [(0, 256)] m demo_base false Hinv) as (Ha & _).
  destruct (Ha 20 ltac:(lia)) as (p & cs' & m' & f' & Hrun & [(_ & Hno & _)|(a & o & k & r & -> & _ & Ecs & _ & _ & _ & Hi & _)]).
  - apply Forall_cons in Hno as [Hno _]. exfalso. by vm_compute in Hno.
  - exists cs', m', f'. destruct a as [|x a]; [|by destruct a]. injection Ecs as <- _ _. by split.
Defined.

(** A packet of four bytes is added, held and released, its first two bytes marked, and released again. *)
Definition demo_prog : prog :=
  Call (Add 0 (SOut [1; 2; 3; 4]) [1; 2; 3; 4] 7) (λ p,
    if p =? 0 then Done 0
    else Call (Hold p 1) (λ _, Call (Release p) (λ _, Call (Mark p 2 8) (λ _, Call (Len p) (λ n,
           Call (Release p) (λ _, Call IsEmpty (λ e, Done (n + e)))))))).

Lemma chain_one p sn : sn_next sn = 0 → chain {[p := sn]} p [p].
Proof. intros Hn. split; [done|]. exists sn. by rewrite lookup_singleton_eq. Qed.

Lemma demo_correct : correct demo_base 256 ∅ [(0, 256)] demo_prog (λ r h, r = 5 ∧ h = ∅).
Proof.
  split; [split_and!; [done|done|by intros _ _]|]. intros p h cs [Hadd Hroom] _.
  destruct Hadd as [[-> _]|(Hp & _ & d & bs & _ & Hbs & ->)].
  { specialize (Hroom eq_refl). apply Forall_cons in Hroom as [Hno _]. exfalso. by vm_compute in Hno. }
  rewrite (Hbs ltac:(done)), (proj2 (Z.eqb_neq _ _) Hp). clear Hroom Hbs bs. change (<[p := ?x]> ∅) with ({[p := x]} : gmap Z snip).
  split.
  { split; [done|]. exists [p]. split; [by apply chain_one|]. intros q sn ->%list_elem_of_singleton. rewrite lookup_singleton_eq.
    by intros [= <-]. }
  intros r1 h1 cs1 [_ Hh1] _. specialize (Hh1 [p] ltac:(by apply chain_one)). cbn [foldl] in Hh1. unfold hold_one in Hh1.
  rewrite alter_singleton_eq in Hh1. cbn in Hh1. subst h1.
  split; [exists [p]; by apply chain_one|].
  intros r2 h2 cs2 [_ Hh2] _. specialize (Hh2 [p] ltac:(by apply chain_one)). cbn [foldl] in Hh2.
  rewrite (release_one_some _ _ _ (lookup_singleton_eq _ _)) in Hh2. rewrite decide_False in Hh2 by done.
  rewrite insert_singleton_eq in Hh2. subst h2.
  split; [split; [by exists (Snip 0 d [1; 2; 3; 4] 1 7); rewrite lookup_singleton_eq|done]|].
  intros q h3 cs3 Hm _. destruct (Hm _ (lookup_singleton_eq _ _)) as [Hmark _]. clear Hm. cbn in Hmark.
  assert (∃ l, chain h3 p l ∧ Z.of_nat (length (content h3 l)) = 4 ∧ foldl release_one h3 l = ∅) as (l & Hc & Hlen & Hrel).
  { destruct Hmark as [[_ ->]|(Hq & Hnone & d1 & d2 & ->)].
    - exists [p]. split; [by apply chain_one|]. unfold content, bytes_of. cbn [fmap list_fmap foldl].
      rewrite (release_one_some _ _ _ (lookup_singleton_eq _ _)), lookup_singleton_eq. split; [done|].
      rewrite decide_True by done. by rewrite delete_singleton_eq.
    - assert (q ≠ p) as Hqp by (intros ->; by rewrite lookup_singleton_eq in Hnone).
      rewrite (insert_insert_ne _ p q), insert_singleton_eq by done.
      exists [p; q]. split.
      + split; [done|]. eexists. rewrite lookup_insert_ne, lookup_singleton_eq by done. split; [done|]. split; [done|].
        eexists. by rewrite lookup_insert_eq.
      + unfold content, bytes_of. cbn [fmap list_fmap foldl]. rewrite lookup_insert_eq, lookup_insert_ne, lookup_singleton_eq by done.
        split; [done|]. rewrite (release_one_insert _ q) by done. rewrite (release_one_some _ _ _ (lookup_singleton_eq _ _)).
        cbn [sn_users]. rewrite decide_True by done. rewrite delete_singleton_eq.
        rewrite (release_one_some _ _ _ (lookup_insert_eq _ _ _)). cbn [sn_users]. rewrite decide_True by done. by rewrite delete_insert_eq, delete_empty. }
  clear Hmark. split; [by exists l|]. intros n h4 cs4 [-> Hn] _. rewrite (Hn l Hc), Hlen.
  split; [by exists l|]. intros r5 h5 cs5 [_ Hh5] _. rewrite (Hh5 l Hc), Hrel.
  split; [done|]. intros e h6 cs6 [-> ->] _. by split.
Qed.

Lemma pktbuf_programs_safe_witness : ∃ m' first',
  (gnrc_pktbuf_init demo_base 256;; run_prog demo_base 256 demo_prog) (Pktbuf (replicate 256 165) 0 false) =
    Some (5, Pktbuf m' first' false) ∧
  gnrc_pktbuf_is_empty demo_base 256 (Pktbuf m' first' false) = Some (true, Pktbuf m' first' false).
Proof.
  destruct (pktbuf_programs_safe demo_base 256 demo_conf _ demo_prog (replicate 256 165) 0 eq_refl demo_correct)
    as (r & h & cs & m' & f' & Hrun & _ & (-> & ->) & He & _).
  exists m', f'. by split.
Defined.

(** A snip is added to the empty buffer. *)
Lemma pktbuf_calls_refine_witness : ∃ m p h' cs' m' first',
  run_call demo_base 256 (Add 0 SNull [0; 0; 0] 1) (Pktbuf m demo_base false) = Some (p, Pktbuf m' first' false) ∧
  heap_inv demo_base 256 [] h' cs' m' first' ∧ p ≠ 0 ∧ size h' = 1%nat.
Proof.
  destruct (@heap_start demo_base 256 demo_conf (replicate 256 0) 0 eq_refl) as (m & _ & Hinv). exists m.
  destruct (pktbuf_calls_refine demo_base 256 demo_conf (Add 0 SNull [0; 0; 0] 1) ∅ [(0, 256)] m demo_base Hinv)
    as (p & h' & cs' & m' & f' & Hrun & Hi & [[-> _]|(Hp & _ & d & bs & _ & _ & ->)] & Hno); [done| |].
  - specialize (Hno eq_refl). apply Forall_cons in Hno as [Hno _]. exfalso. by vm_compute in Hno.
  - eexists p, _, cs', m', f'. split; [exact Hrun|]. split; [exact Hi|]. split; [done|]. by rewrite map_size_insert_None.
Defined.

(** ** Outside the specification *)

(** [gnrc_pktbuf_duplicate_upto] without [same_sharing].  A snip that is not shared is put in front of a packet that
    is: the duplication cuts the packet of the other user, and its tail is never freed. *)
Definition duplicate_cuts : B (list Z) :=
  gnrc_pktbuf_init demo_base 512;;
  rest ← gnrc_pktbuf_add demo_base 512 0 (SOut [9]) 1 3;
  pkt ← gnrc_pktbuf_add demo_base 512 rest (SOut [1]) 1 5;
  gnrc_pktbuf_hold demo_base 512 pkt 1;;
  front ← gnrc_pktbuf_add demo_base 512 pkt (SOut [2]) 1 6;
  n0 ← gnrc_pkt_count demo_base 512 pkt;
  new ← gnrc_pktbuf_duplicate_upto demo_base 512 front 5;
  n1 ← gnrc_pkt_count demo_base 512 pkt;
  gnrc_pktbuf_release demo_base 512 new;;
  gnrc_pktbuf_release demo_base 512 pkt;;
  e ← gnrc_pktbuf_is_empty demo_base 512;
  mret [n0; n1; b2z e].

Lemma duplicate_cuts_shared_packet : fst <$> duplicate_cuts (Pktbuf (replicate 512 0) 0 false) = Some [2; 1; 0].
Proof. vm_compute. reflexivity. Qed.

(** The front is shared and the snip searched for is not: it is freed, and its pointer is written afterwards, into
    the list of unused chunks. *)
Definition duplicate_overwrites : B (list Z) :=
  gnrc_pktbuf_init demo_base 512;;
  rest ← gnrc_pktbuf_add demo_base 512 0 (SOut [9]) 1 3;
  pkt ← gnrc_pktbuf_add demo_base 512 rest (SOut [1]) 1 5;
  front ← gnrc_pktbuf_add demo_base 512 pkt (SOut [2]) 1 6;
  gnrc_pktbuf_hold demo_base 512 front 1;;
  gnrc_pktbuf_release demo_base 512 pkt;;
  s0 ← gnrc_pktbuf_is_sane demo_base 512;
  new ← gnrc_pktbuf_duplicate_upto demo_base 512 front 5;
  s1 ← gnrc_pktbuf_is_sane demo_base 512;
  mret [b2z s0; b2z s1].

Lemma duplicate_overwrites_unused_list : fst <$> duplicate_overwrites (Pktbuf (replicate 512 0) 0 false) = Some [1; 0].
Proof. vm_compute. reflexivity. Qed.

(** [_pktbuf_contains] keeps 32 bits of the distance: a pointer 4 GiB behind the buffer counts as one into it. *)
Lemma contains_truncates : _pktbuf_contains demo_base 256 (demo_base + 2 ^ 32 + 8) = true.
Proof. reflexivity. Qed.

(** The size of a chunk wraps to 0: data of the 15 largest sizes is taken to need no room. *)
Lemma align_wraps : _align (2 ^ 64 - 15) = 0.
Proof. reflexivity. Qed.
