(* ===== verification/Riscv.v ===== *)
(** * The RISC-V hart: traps, context switches, the lazy floating-point context
      (cpu/riscv_common, cpu/sifive_common/plic)

    The state of a hart, the assembly code of intr.S as a program of the
    instructions it uses, with an interpreter, and the C functions of riscv_cpu.c,
    fpu_context.h and riscv_plic.c on the same state.  The memory consists of
    64-bit words at aligned addresses; an access to an address that is not mapped
    or not aligned is stuck, a call of [core_panic] (or a failed assertion) ends in
    [Panicked].

    Configuration: a 64-bit hart with compressed instructions and double-precision
    floating point ([USE_LAZY_FPU_CONTEXT], [RV_FPU_DOUBLE_PRECISION]). *)

From S2P Require Import Prelude.

(** ** Registers *)

(** The integer registers x0 .. x31 by number, and those the code names. *)
Definition ra : nat := 1.
Definition sp : nat := 2.
Definition gp : nat := 3.
Definition tp : nat := 4.
Definition t (n : nat) : nat := if (n <? 3)%nat then 5 + n else 25 + n.
Definition s (n : nat) : nat := if (n <? 2)%nat then 8 + n else 16 + n.
Definition a (n : nat) : nat := 10 + n.

(** The registers of [struct context_switch_frame] behind [pc], in its order. *)
Definition frame_regs : list nat :=
  [s 0; s 1; s 2; s 3; s 4; s 5; s 6; s 7; s 8; s 9; s 10; s 11;
   ra; tp; t 0; t 1; t 2; t 3; t 4; t 5; t 6;
   a 0; a 1; a 2; a 3; a 4; a 5; a 6; a 7].

Definition pc_OFFSET : Z := 0.
(** [s0_OFFSET] = 8, ..., [a7_OFFSET] = 232. *)
Definition reg_OFFSET (i : nat) : Z := 8 + 8 * Z.of_nat i.
Definition a7_OFFSET : Z := 232.
Definition CONTEXT_FRAME_SIZE : Z := a7_OFFSET + 8.
Definition SP_OFFSET_IN_THREAD : Z := 0.

(** The registers a C function preserves. *)
Definition callee_saved : list nat :=
  [sp; gp; s 0; s 1; s 2; s 3; s 4; s 5; s 6; s 7; s 8; s 9; s 10; s 11].

(** ** Constants of encoding.h and riscv_arch.h *)

Definition MSTATUS_MIE : Z := 0x8.
Definition MSTATUS_MPIE : Z := 0x80.
Definition MSTATUS_MPP : Z := 0x1800.
Definition MSTATUS_FS : Z := 0x6000.
Definition MSTATUS_SD : Z := 0x8000000000000000.
Definition MSTATUS_DEFAULT : Z := Z.lor MSTATUS_MPP MSTATUS_MPIE.

Definition IRQ_M_SOFT : Z := 3.
Definition IRQ_M_TIMER : Z := 7.
Definition IRQ_M_EXT : Z := 11.
Definition MIP_MSIP : Z := Z.shiftl 1 IRQ_M_SOFT.
Definition MIP_MTIP : Z := Z.shiftl 1 IRQ_M_TIMER.
Definition MIP_MEIP : Z := Z.shiftl 1 IRQ_M_EXT.
Definition CAUSE_ILLEGAL_INSTRUCTION : Z := 2.
Definition MCAUSE_INT : Z := 0x8000000000000000.
Definition MCAUSE_CAUSE : Z := 0x7FFFFFFFFFFFFFFF.
Definition IRQ_SW_CAUSE : Z := Z.shiftl 1 63 + 3.
Definition CLINT_CTRL_ADDR : Z := 0x02000000.

Definition MASK_CSRRW : Z := 0x707f.
Definition MATCH_CSRRW : Z := 0x1073.
Definition MATCH_CSRRS : Z := 0x2073.
Definition MATCH_CSRRC : Z := 0x3073.
Definition MATCH_CSRRWI : Z := 0x5073.
Definition MATCH_CSRRSI : Z := 0x6073.
Definition MATCH_CSRRCI : Z := 0x7073.
Definition CSR_FFLAGS : Z := 1.
Definition CSR_FRM : Z := 2.
Definition CSR_FCSR : Z := 3.

Definition INSN_32BIT_MASK : Z := 3.
Definition INSN_FLOAD_SUFFIX : Z := 1.
Definition INSN_FSTORE_SUFFIX : Z := 9.
Definition INSN_FOPR_SUFFIX : Z := 20.
Definition INSN_FMADD_SUFFIX : Z := 16.
Definition INSN_FMSUB_SUFFIX : Z := 17.
Definition INSN_FNMSUB_SUFFIX : Z := 18.
Definition INSN_FNMADD_SUFFIX : Z := 19.
Definition INSN_SYSTEM_SUFFIX : Z := 28.
Definition INSNC_MASK : Z := 0xE003.
Definition INSNC_FLD : Z := 0x2000.
Definition INSNC_FSW : Z := 0xA000.
Definition INSNC_FLDSP : Z := 0x2002.
Definition INSNC_FSDSP : Z := 0xA002.

Definition STACK_MARKER : Z := 0xEEEEEEEE77777777.
Definition PLIC_NUM_INTERRUPTS : Z := 52.

(** [struct fpu_context]: 32 registers of 8 bytes, then [fcsr]. *)
Definition FPU_REGS : nat := 32.
Definition fcsr_OFFSET : Z := 256.

(** ** The kernel, seen from the hart

    What the code here calls and reads of the kernel: [sched_active_thread],
    [sched_context_switch_request], [sched_run], [timer_isr]; and the interrupt
    controller, whose claim register hands out the number of a pending interrupt
    and which is told when it has been handled.  [None] is a fault of the callee. *)
Class Kern (K : Type) := {
  k_active : K → Z;
  k_request : K → Z;
  k_sched_run : K → option K;
  k_timer_isr : K → option K;
  PLIC_claim_interrupt : K → Z * K;
  PLIC_complete_interrupt : Z → K → K
}.

Section Hart.
Context {K : Type} `{!Kern K}.

Definition external_isr_ptr_t : Type := Z → K → option K.

(** The state: registers and CSRs, the software interrupt of the CLINT, the
    floating-point registers, memory, the variables of riscv_cpu.c and
    riscv_plic.c, the member [fpucontext] of each thread. *)
Record hart := Hart {
  x : list Z;
  pc : Z;
  mepc : Z; mcause : Z; mstatus : Z; mie : Z;
  msip : Z;
  f : list Z; fcsr : Z;
  memory : gmap Z Z;
  __in_isr : Z;
  fpu_owner_thread : Z;
  fpucontext : gmap Z Z;
  thread_pid : gmap Z Z;
  _ext_isrs : list external_isr_ptr_t;
  kern : K
}.

Definition set_x v h := Hart v (pc h) (mepc h) (mcause h) (mstatus h) (mie h) (msip h) (f h) (fcsr h) (memory h)
  (__in_isr h) (fpu_owner_thread h) (fpucontext h) (thread_pid h) (_ext_isrs h) (kern h).
Definition set_pc v h := Hart (x h) v (mepc h) (mcause h) (mstatus h) (mie h) (msip h) (f h) (fcsr h) (memory h)
  (__in_isr h) (fpu_owner_thread h) (fpucontext h) (thread_pid h) (_ext_isrs h) (kern h).
Definition set_mepc v h := Hart (x h) (pc h) v (mcause h) (mstatus h) (mie h) (msip h) (f h) (fcsr h) (memory h)
  (__in_isr h) (fpu_owner_thread h) (fpucontext h) (thread_pid h) (_ext_isrs h) (kern h).
Definition set_mcause v h := Hart (x h) (pc h) (mepc h) v (mstatus h) (mie h) (msip h) (f h) (fcsr h) (memory h)
  (__in_isr h) (fpu_owner_thread h) (fpucontext h) (thread_pid h) (_ext_isrs h) (kern h).
Definition set_mstatus v h := Hart (x h) (pc h) (mepc h) (mcause h) v (mie h) (msip h) (f h) (fcsr h) (memory h)
  (__in_isr h) (fpu_owner_thread h) (fpucontext h) (thread_pid h) (_ext_isrs h) (kern h).
Definition set_mie v h := Hart (x h) (pc h) (mepc h) (mcause h) (mstatus h) v (msip h) (f h) (fcsr h) (memory h)
  (__in_isr h) (fpu_owner_thread h) (fpucontext h) (thread_pid h) (_ext_isrs h) (kern h).
Definition set_msip v h := Hart (x h) (pc h) (mepc h) (mcause h) (mstatus h) (mie h) v (f h) (fcsr h) (memory h)
  (__in_isr h) (fpu_owner_thread h) (fpucontext h) (thread_pid h) (_ext_isrs h) (kern h).
Definition set_f v h := Hart (x h) (pc h) (mepc h) (mcause h) (mstatus h) (mie h) (msip h) v (fcsr h) (memory h)
  (__in_isr h) (fpu_owner_thread h) (fpucontext h) (thread_pid h) (_ext_isrs h) (kern h).
Definition set_fcsr v h := Hart (x h) (pc h) (mepc h) (mcause h) (mstatus h) (mie h) (msip h) (f h) v (memory h)
  (__in_isr h) (fpu_owner_thread h) (fpucontext h) (thread_pid h) (_ext_isrs h) (kern h).
Definition set_memory v h := Hart (x h) (pc h) (mepc h) (mcause h) (mstatus h) (mie h) (msip h) (f h) (fcsr h) v
  (__in_isr h) (fpu_owner_thread h) (fpucontext h) (thread_pid h) (_ext_isrs h) (kern h).
Definition set_in_isr v h := Hart (x h) (pc h) (mepc h) (mcause h) (mstatus h) (mie h) (msip h) (f h) (fcsr h) (memory h)
  v (fpu_owner_thread h) (fpucontext h) (thread_pid h) (_ext_isrs h) (kern h).
Definition set_fpu_owner_thread v h := Hart (x h) (pc h) (mepc h) (mcause h) (mstatus h) (mie h) (msip h) (f h) (fcsr h)
  (memory h) (__in_isr h) v (fpucontext h) (thread_pid h) (_ext_isrs h) (kern h).
Definition set_fpucontext v h := Hart (x h) (pc h) (mepc h) (mcause h) (mstatus h) (mie h) (msip h) (f h) (fcsr h) (memory h)
  (__in_isr h) (fpu_owner_thread h) v (thread_pid h) (_ext_isrs h) (kern h).
Definition set_thread_pid v h := Hart (x h) (pc h) (mepc h) (mcause h) (mstatus h) (mie h) (msip h) (f h) (fcsr h) (memory h)
  (__in_isr h) (fpu_owner_thread h) (fpucontext h) v (_ext_isrs h) (kern h).
Definition set_ext_isrs v h := Hart (x h) (pc h) (mepc h) (mcause h) (mstatus h) (mie h) (msip h) (f h) (fcsr h)
  (memory h) (__in_isr h) (fpu_owner_thread h) (fpucontext h) (thread_pid h) v (kern h).
Definition set_kern v h := Hart (x h) (pc h) (mepc h) (mcause h) (mstatus h) (mie h) (msip h) (f h) (fcsr h) (memory h)
  (__in_isr h) (fpu_owner_thread h) (fpucontext h) (thread_pid h) (_ext_isrs h) v.

(** ** Computations *)

Inductive outcome (A : Type) := Ok (v : A) (h : hart) | Panicked | Stuck.
#[global] Arguments Ok {A} v h.
#[global] Arguments Panicked {A}.
#[global] Arguments Stuck {A}.

Definition H (A : Type) : Type := hart → outcome A.

#[export] Instance H_ret : MRet H := λ A v h, Ok v h.
#[export] Instance H_bind : MBind H := λ A B g m h,
  match m h with Ok v h' => g v h' | Panicked => Panicked | Stuck => Stuck end.

Definition hget {A} (p : hart → A) : H A := λ h, Ok (p h) h.
Definition hmodify (g : hart → hart) : H unit := λ h, Ok tt (g h).
Definition core_panic {A} : H A := λ _, Panicked.
Definition stuck {A} : H A := λ _, Stuck.
Definition hlift {A} (o : option A) : H A := λ h, match o with Some v => Ok v h | None => Stuck end.
Definition hassert (b : bool) : H unit := if b then mret tt else core_panic.

(** A 64-bit access. *)
Definition load (p : Z) : H Z := λ h, hlift (if p mod 8 =? 0 then memory h !! p else None) h.
Definition store (p v : Z) : H unit := λ h,
  if (p mod 8 =? 0) && bool_decide (is_Some (memory h !! p)) then Ok tt (set_memory (<[p := v]> (memory h)) h) else Stuck.

Definition reg (r : nat) : H Z := hget (λ h, x h !!! r).
Definition set_reg (r : nat) (v : Z) : H unit := hmodify (λ h, set_x (<[r := v]> (x h)) h).

(** Calls of the kernel. *)
Definition kcall (g : K → option K) : H unit :=
  k ← hget kern; k' ← hlift (g k); hmodify (set_kern k').

(** ** CSRs

    [mstatus] is kept without the read-only bit SD, which says that the
    floating-point unit is dirty, i.e. that both bits of FS are set. *)

Definition read_mstatus (h : hart) : Z :=
  if Z.land (mstatus h) MSTATUS_FS =? MSTATUS_FS then Z.lor (mstatus h) MSTATUS_SD else mstatus h.
Definition csrs_mstatus (m : Z) : H unit := hmodify (λ h, set_mstatus (Z.lor (mstatus h) m) h).
Definition csrc_mstatus (m : Z) : H unit := hmodify (λ h, set_mstatus (Z.ldiff (mstatus h) m) h).

Definition RV_FPU_ENABLE : H unit := csrs_mstatus MSTATUS_FS.
Definition RV_FPU_DISABLE : H unit := csrc_mstatus MSTATUS_FS.
Definition RV_IS_FPU_DIRTY : H bool := m ← hget read_mstatus; mret (negb (Z.land m MSTATUS_SD =? 0)).

(** What the hart does when it takes a trap, and [mret]. *)
Definition take_trap (cause : Z) (h : hart) : hart :=
  let m := mstatus h in
  let m' := Z.lor (Z.ldiff m (Z.lor MSTATUS_MIE MSTATUS_MPIE)) (if Z.land m MSTATUS_MIE =? 0 then 0 else MSTATUS_MPIE) in
  set_mstatus m' (set_mcause cause (set_mepc (pc h) h)).

Definition trap_return (h : hart) : hart :=
  let m := mstatus h in
  let m' := Z.lor (Z.ldiff m (Z.lor MSTATUS_MIE MSTATUS_MPIE))
                  (Z.lor MSTATUS_MPIE (if Z.land m MSTATUS_MPIE =? 0 then 0 else MSTATUS_MIE)) in
  set_mstatus m' (set_pc (mepc h) h).

(** ** The lazy floating-point context (riscv_cpu.c) *)

(** [fsd ft0, 0(ctx)], ..., [fsd fa7, 248(ctx)]. *)
Fixpoint fstore_regs (regs : list Z) (p : Z) : H unit :=
  match regs with [] => mret tt | r :: regs => store p r;; fstore_regs regs (p + 8) end.

Fixpoint fload_regs (n : nat) (p : Z) : H (list Z) :=
  match n with O => mret [] | S n => r ← load p; regs ← fload_regs n (p + 8); mret (r :: regs) end.

(** [thread->fpucontext]. *)
Definition thread_fpucontext (thread : Z) : H Z := m ← hget fpucontext; hlift (m !! thread).

Definition fpu_insn_trap : H unit :=
  dirty ← RV_IS_FPU_DIRTY;
  if dirty : bool then core_panic
  else
    k ← hget kern;
    restoreCtx ← thread_fpucontext (k_active k);
    isr ← hget __in_isr;
    if (restoreCtx =? 0) || negb (isr =? 0) then core_panic
    else
      RV_FPU_ENABLE;;
      owner ← hget fpu_owner_thread;
      (if negb (owner =? 0) then
         fpu_owner_ctx ← thread_fpucontext owner;
         hassert (negb (fpu_owner_ctx =? 0));;
         regs ← hget f;
         fstore_regs regs fpu_owner_ctx;;
         (* frcsr %0 with the member as an input: the value read is dropped *)
         load (fpu_owner_ctx + fcsr_OFFSET);;
         mret tt
       else mret tt);;
      k ← hget kern;
      hmodify (set_fpu_owner_thread (k_active k));;
      regs ← fload_regs FPU_REGS restoreCtx;
      hmodify (set_f regs);;
      c ← load (restoreCtx + fcsr_OFFSET);
      hmodify (set_fcsr (c mod 256)).

Definition illegal_system_insn_trap (insn : Z) : H unit :=
  let op := Z.land insn MASK_CSRRW in
  if (op =? MATCH_CSRRW) || (op =? MATCH_CSRRS) || (op =? MATCH_CSRRC) ||
     (op =? MATCH_CSRRWI) || (op =? MATCH_CSRRSI) || (op =? MATCH_CSRRCI) then
    let csr := Z.shiftr insn 20 in
    if (csr =? CSR_FFLAGS) || (csr =? CSR_FRM) || (csr =? CSR_FCSR) then fpu_insn_trap else core_panic
  else core_panic.

Definition illegal_insn32_jumptable (insn : Z) : H unit :=
  let op := Z.shiftr (Z.land insn 0x7F) 2 in
  if (op =? INSN_FLOAD_SUFFIX) || (op =? INSN_FSTORE_SUFFIX) || (op =? INSN_FOPR_SUFFIX) || (op =? INSN_FMADD_SUFFIX) ||
     (op =? INSN_FMSUB_SUFFIX) || (op =? INSN_FNMSUB_SUFFIX) || (op =? INSN_FNMADD_SUFFIX) then fpu_insn_trap
  else if op =? INSN_SYSTEM_SUFFIX then illegal_system_insn_trap insn
  else core_panic.

Definition illegal_insn16_jumptable (insn : Z) : H unit :=
  let op := Z.land insn INSNC_MASK in
  if (op =? INSNC_FLD) || (op =? INSNC_FSW) || (op =? INSNC_FLDSP) || (op =? INSNC_FSDSP) then fpu_insn_trap
  else core_panic.

(** [misa] is the value of that CSR. *)
Definition fpu_init (misa : Z) : H unit :=
  RV_FPU_DISABLE;;
  (if negb (misa =? 0) && (Z.land misa (Z.shiftl 1 3) =? 0) then core_panic else mret tt);;
  hmodify (set_fpu_owner_thread 0).

Fixpoint zero_words (n : nat) (p : Z) : H unit :=
  match n with O => mret tt | S n => store p 0;; zero_words n (p + 8) end.

Definition thread_fpu_context_init (fc pid : Z) : H unit :=
  owner ← hget fpu_owner_thread;
  (if negb (owner =? 0) then
     pids ← hget thread_pid;
     p ← hlift (pids !! owner);
     if p =? pid then hmodify (set_fpu_owner_thread 0) else mret tt
   else mret tt);;
  if negb (fc =? 0) then zero_words (S FPU_REGS) fc else mret tt.

(** ** External interrupts (riscv_plic.c) *)

Definition null_isr : external_isr_ptr_t := λ _ k, Some k.

Definition rv_plic_init : H unit := hmodify (set_ext_isrs (replicate (Z.to_nat PLIC_NUM_INTERRUPTS) null_isr)).

Definition rv_plic_hanlde_isr : H unit :=
  k ← hget kern;
  let '(intNum, k') := PLIC_claim_interrupt k in
  hmodify (set_kern k');;
  (if (0 <? intNum) && (intNum <? PLIC_NUM_INTERRUPTS) then
     isrs ← hget _ext_isrs;
     isr ← hlift (aget isrs intNum);
     kcall (isr intNum)
   else mret tt);;
  kcall (λ k, Some (PLIC_complete_interrupt intNum k)).

Definition set_external_isr_cb (intNum : Z) (cbFunc : external_isr_ptr_t) : H unit :=
  if (0 <? intNum) && (intNum <? PLIC_NUM_INTERRUPTS) then
    isrs ← hget _ext_isrs;
    isrs ← hlift (aset isrs intNum cbFunc);
    hmodify (set_ext_isrs isrs)
  else mret tt.

(** ** Traps *)

Section Trap.
(** The code in memory, as 16-bit units; the register values a C function leaves
    in the registers it need not preserve; the top of the stack of the interrupt
    handlers. *)
Variable text : Z → Z.
Variable clobber : hart → nat → Z.
Variable _sp : Z.

Definition handle_interrupt (mcause : Z) : H unit :=
  hmodify (set_in_isr 1);;
  fpuStat ← RV_IS_FPU_DIRTY;
  RV_FPU_DISABLE;;
  (let cause := Z.land mcause MCAUSE_CAUSE in
   if cause =? IRQ_M_TIMER then kcall k_timer_isr
   else if cause =? IRQ_M_EXT then rv_plic_hanlde_isr
   else core_panic);;
  (if fpuStat : bool then RV_FPU_ENABLE else mret tt);;
  hmodify (set_in_isr 0).

Definition handle_illegal_instruction : H unit :=
  mepc ← hget mepc;
  if Z.land mepc 3 =? 0 then
    let insn := text mepc + Z.shiftl (text (mepc + 2)) 16 in
    if Z.land insn INSN_32BIT_MASK =? INSN_32BIT_MASK then illegal_insn32_jumptable insn
    else illegal_insn16_jumptable (u16 insn)
  else
    let insn := text mepc in
    if Z.land insn INSN_32BIT_MASK =? INSN_32BIT_MASK then
      illegal_insn32_jumptable (insn + Z.shiftl (text (mepc + 2)) 16)
    else illegal_insn16_jumptable (u16 insn).

Definition handle_trap (mcause : Z) : H unit :=
  if Z.land mcause MCAUSE_INT =? MCAUSE_INT then handle_interrupt mcause
  else if mcause =? CAUSE_ILLEGAL_INSTRUCTION then handle_illegal_instruction
  else core_panic.

(** A context switch is asked for by the software interrupt. *)
Definition thread_yield_higher : H unit := hmodify (set_msip 1).

(** *** The assembly code (intr.S) *)

Inductive label := trap_exit | context_switch | no_sp_save | thread_return.

#[export] Instance label_eq_dec : EqDecision label.
Proof. solve_decision. Defined.

Inductive cfun := C_handle_trap | C_sched_run.
Inductive variable := V_sched_active_thread | V_sched_context_switch_request | V_fpu_owner_thread.
Inductive csr := CSR_mepc | CSR_mcause | CSR_mstatus.

Inductive instr :=
  | ADDI (rd rs : nat) (imm : Z)
  | MV (rd rs : nat)
  | LI (rd : nat) (imm : Z)
  | REG_S (rs : nat) (off : Z) (base : nat)
  | REG_L (rd : nat) (off : Z) (base : nat)
  | SW_ZERO (base : nat)
  | LOAD_VAR (rd : nat) (v : variable)
  | CSRR (rd : nat) (c : csr)
  | CSRW (c : csr) (rs : nat)
  | CSRS (c : csr) (rs : nat)
  | CSRC (c : csr) (rs : nat)
  | BEQ (rs1 rs2 : nat) (l : label)
  | BNE (rs1 rs2 : nat) (l : label)
  | BEQZ (rs : nat) (l : label)
  | BNEZ (rs : nat) (l : label)
  | J (l : label)
  | CALL (g : cfun)
  | MRET
  | LABEL (l : label).

(** [REG_S s0, s0_OFFSET(sp)] .. [REG_S a7, a7_OFFSET(sp)] and the same loads. *)
Definition save_regs : list instr := imap (λ i r, REG_S r (reg_OFFSET i) sp) frame_regs.
Definition restore_regs : list instr := imap (λ i r, REG_L r (reg_OFFSET i) sp) frame_regs.

Definition trap_entry_code : list instr :=
  [ADDI sp sp (- CONTEXT_FRAME_SIZE)] ++ save_regs ++
  [CSRR (a 0) CSR_mcause;
   MV (s 1) sp;
   LI sp _sp;
   ADDI sp sp (-8);
   LI (t 0) IRQ_SW_CAUSE;
   BEQ (a 0) (t 0) context_switch;
   CALL C_handle_trap;
   LOAD_VAR (a 0) V_sched_context_switch_request;
   BNEZ (a 0) context_switch;
   MV sp (s 1)].

Definition trap_exit_code : list instr :=
  [LABEL trap_exit] ++ restore_regs ++
  [ADDI sp sp CONTEXT_FRAME_SIZE;
   MRET].

Definition context_switch_code : list instr :=
  [LABEL context_switch;
   LI (t 0) CLINT_CTRL_ADDR;
   SW_ZERO (t 0);
   CSRR (a 0) CSR_mepc;
   REG_S (a 0) pc_OFFSET (s 1);
   LI (t 0) MSTATUS_FS;
   CSRC CSR_mstatus (t 0);
   LOAD_VAR (t 0) V_sched_active_thread;
   BEQZ (t 0) no_sp_save;
   REG_S (s 1) SP_OFFSET_IN_THREAD (t 0);
   LABEL no_sp_save;
   CALL C_sched_run;
   LOAD_VAR tp V_sched_active_thread;
   REG_L sp SP_OFFSET_IN_THREAD tp;
   REG_L (a 0) pc_OFFSET sp;
   LOAD_VAR (t 0) V_fpu_owner_thread;
   BNE (t 0) tp thread_return;
   LI (t 0) MSTATUS_FS;
   CSRS CSR_mstatus (t 0);
   LABEL thread_return;
   CSRW CSR_mepc (a 0);
   J trap_exit].

Definition trap_code : list instr := trap_entry_code ++ trap_exit_code ++ context_switch_code.

Fixpoint find_label (l : label) (code : list instr) : option (list instr) :=
  match code with
  | [] => None
  | LABEL l' :: code => if decide (l = l') then Some code else find_label l code
  | _ :: code => find_label l code
  end.

Definition variable_value (v : variable) (h : hart) : Z :=
  match v with
  | V_sched_active_thread => k_active (kern h)
  | V_sched_context_switch_request => k_request (kern h)
  | V_fpu_owner_thread => fpu_owner_thread h
  end.

Definition csr_value (c : csr) (h : hart) : Z :=
  match c with CSR_mepc => mepc h | CSR_mcause => mcause h | CSR_mstatus => read_mstatus h end.

Definition set_csr (c : csr) (v : Z) (h : hart) : hart :=
  match c with CSR_mepc => set_mepc v h | CSR_mcause => set_mcause v h | CSR_mstatus => set_mstatus v h end.

(** A call: the function on its arguments, and the registers it does not preserve. *)
Definition call (g : cfun) : H unit :=
  (match g with
   | C_handle_trap => cause ← reg (a 0); handle_trap cause
   | C_sched_run => kcall k_sched_run
   end);;
  hmodify (λ h, set_x (imap (λ r v, if bool_decide (r ∈ 0%nat :: callee_saved) then v else clobber h r) (x h)) h).

(** The instructions that do not transfer control. *)
Definition exec_instr (i : instr) : H unit :=
  match i with
  | ADDI rd rs imm => v ← reg rs; set_reg rd (u64 (v + imm))
  | MV rd rs => v ← reg rs; set_reg rd v
  | LI rd imm => set_reg rd imm
  | REG_S rs off base => v ← reg rs; p ← reg base; store (u64 (p + off)) v
  | REG_L rd off base => p ← reg base; v ← load (u64 (p + off)); set_reg rd v
  | SW_ZERO base => p ← reg base; if p =? CLINT_CTRL_ADDR then hmodify (set_msip 0) else stuck
  | LOAD_VAR rd v => v ← hget (variable_value v); set_reg rd v
  | CSRR rd c => v ← hget (csr_value c); set_reg rd v
  | CSRW c rs => v ← reg rs; hmodify (set_csr c v)
  | CSRS c rs => v ← reg rs; hmodify (λ h, set_csr c (Z.lor (match c with CSR_mstatus => mstatus h | _ => csr_value c h end) v) h)
  | CSRC c rs => v ← reg rs; hmodify (λ h, set_csr c (Z.ldiff (match c with CSR_mstatus => mstatus h | _ => csr_value c h end) v) h)
  | CALL g => call g
  | _ => mret tt
  end.

(** Whether an instruction jumps. *)
Definition branch (i : instr) : H (option label) :=
  match i with
  | BEQ r1 r2 l => v1 ← reg r1; v2 ← reg r2; mret (if v1 =? v2 then Some l else None)
  | BNE r1 r2 l => v1 ← reg r1; v2 ← reg r2; mret (if v1 =? v2 then None else Some l)
  | BEQZ r l => v ← reg r; mret (if v =? 0 then Some l else None)
  | BNEZ r l => v ← reg r; mret (if v =? 0 then None else Some l)
  | J l => mret (Some l)
  | _ => mret None
  end.

(** Executing [code], a rest of [trap_code], up to [mret]. *)
Fixpoint exec (fuel : nat) (code : list instr) : H unit :=
  match fuel, code with
  | S fuel, MRET :: _ => hmodify trap_return
  | S fuel, i :: code =>
      exec_instr i;;
      l ← branch i;
      match l with
      | Some l => code ← hlift (find_label l trap_code); exec fuel code
      | None => exec fuel code
      end
  | _, _ => stuck
  end.

(** The whole handler; no instruction is executed twice. *)
Definition trap_entry : H unit := exec (length trap_code) trap_code.
End Trap.

(** ** Starting threads *)

(** The loop over the frame, from [a7] down to the register behind [pc]. *)
Fixpoint zero_down (n : nat) (p : Z) : H unit :=
  match n with O => mret tt | S n => store p 0;; zero_down n (p - 8) end.

Definition thread_stack_init (sched_task_exit task_func arg stack_start stack_size : Z) : H Z :=
  let stk_top := u64 (stack_start + stack_size) in
  let stk_top := u64 (stk_top - 8) in
  store stk_top STACK_MARKER;;
  let stk_top := Z.land stk_top (u64 (Z.lnot 0xf)) in
  let stk_top := u64 (stk_top - CONTEXT_FRAME_SIZE) in
  let sf := stk_top in
  zero_down (length frame_regs) (sf + a7_OFFSET);;
  store (sf + pc_OFFSET) task_func;;
  store (sf + reg_OFFSET 21) arg;;
  store (sf + reg_OFFSET 12) sched_task_exit;;
  mret stk_top.

(** What [thread_create_with_fp] does with the control block of the new thread
    that concerns the hart. *)
Definition thread_create_context (sched_task_exit thread pid stack stacksize fc function arg : Z) : H unit :=
  hmodify (λ h, set_thread_pid (<[thread := pid]> (thread_pid h)) h);;
  sp ← thread_stack_init sched_task_exit function arg stack stacksize;
  store (thread + SP_OFFSET_IN_THREAD) sp;;
  thread_fpu_context_init fc pid;;
  hmodify (λ h, set_fpucontext (<[thread := fc]> (fpucontext h)) h).

(** [cpu_init]; the largest value of [mtimecmp] and the address of [trap_entry] in
    [mtvec] are not part of the state. *)
Definition cpu_init : H unit :=
  hmodify (set_mie 0);;
  rv_plic_init;;
  hmodify (λ h, set_mie (Z.lor (mie h) MIP_MSIP) h);;
  hmodify (λ h, set_mie (Z.lor (mie h) MIP_MTIP) h);;
  hmodify (λ h, set_mie (Z.lor (mie h) MIP_MEIP) h);;
  csrs_mstatus MSTATUS_DEFAULT.

(** Interrupts on and off. *)
Definition irq_enable_csr : H Z :=
  m ← hget read_mstatus; csrs_mstatus MSTATUS_MIE;; mret (Z.land m MSTATUS_MIE).
Definition irq_disable_csr : H Z :=
  m ← hget read_mstatus; csrc_mstatus MSTATUS_MIE;; mret (Z.land m MSTATUS_MIE).
Definition irq_restore_csr (state : Z) : H unit :=
  if negb (Z.land state MSTATUS_MIE =? 0) then csrs_mstatus MSTATUS_MIE else csrc_mstatus MSTATUS_MIE.
End Hart.
#[global] Arguments hart K : clear implicits.
