(* ===== verification/RiscvProof.v ===== *)
(** * Traps and context switches: the registers of every thread are kept

    What the assembly code does, run by its interpreter: a trap that does not
    switch returns to the interrupted code with all registers as they were; a
    context switch saves the registers of the thread that ran and continues
    another one with the registers it was suspended with. *)

From S2P Require Import Prelude Riscv.

(** ** Words in memory *)

Fixpoint mput (m : gmap Z Z) (p : Z) (ws : list Z) : gmap Z Z :=
  match ws with [] => m | w :: ws => mput (<[p := w]> m) (p + 8) ws end.

Fixpoint mget (m : gmap Z Z) (p : Z) (n : nat) : option (list Z) :=
  match n with O => Some [] | S n => w ← m !! p; ws ← mget m (p + 8) n; Some (w :: ws) end.

(** The address [q] is one of the [n] words from [p]. *)
Definition among (p : Z) (n : nat) (q : Z) : Prop := ∃ i, 0 ≤ i < Z.of_nat n ∧ q = p + 8 * i.

#[export] Instance among_dec p n q : Decision (among p n q).
Proof.
  destruct (decide ((q - p) mod 8 = 0 ∧ p ≤ q < p + 8 * Z.of_nat n)) as [H|H].
  - left. exists ((q - p) / 8). Z.div_mod_to_equations; lia.
  - right. intros (i & Hi & ->). apply H. replace (p + 8 * i - p) with (i * 8) by lia. rewrite Z.mod_mul by done. lia.
Defined.

Definition mapped (m : gmap Z Z) (p : Z) (n : nat) : Prop := ∀ q, among p n q → is_Some (m !! q).

Lemma among_head p n : among p (S n) p.
Proof. exists 0. lia. Qed.

Lemma among_tail p n q : among (p + 8) n q → among p (S n) q.
Proof. intros (i & Hi & ->). exists (i + 1). lia. Qed.

Lemma among_cons p n q : among p (S n) q → q = p ∨ among (p + 8) n q.
Proof.
  intros (i & Hi & ->). destruct (decide (i = 0)) as [->|]; [left; lia|]. right. exists (i - 1). lia.
Qed.

Lemma among_not_head p n : ¬ among (p + 8) n p.
Proof. intros (i & Hi & E). lia. Qed.

Lemma mapped_cons m p n : mapped m p (S n) → is_Some (m !! p) ∧ mapped m (p + 8) n.
Proof. intros Hm. split; [apply Hm, among_head|]. intros q Hq. by apply Hm, among_tail. Qed.

Lemma mput_other m p ws q : ¬ among p (length ws) q → mput m p ws !! q = m !! q.
Proof.
  revert m p. induction ws as [|w ws IH]; intros m p Hq; [done|]. cbn [mput length] in *.
  rewrite IH by (intros Hin; by apply Hq, among_tail). apply lookup_insert_ne. intros ->. apply Hq, among_head.
Qed.

Lemma mput_is_Some m p ws q : is_Some (m !! q) → is_Some (mput m p ws !! q).
Proof.
  revert m p. induction ws as [|w ws IH]; intros m p Hq; [done|]. cbn [mput]. apply IH. apply lookup_insert_is_Some. 
  destruct (decide (p = q)); [by left|by right].
Qed.

Lemma mget_mput m p ws : mget (mput m p ws) p (length ws) = Some ws.
Proof.
  revert m p. induction ws as [|w ws IH]; intros m p; [done|]. cbn [mput length mget].
  rewrite mput_other by apply among_not_head. rewrite lookup_insert_eq. cbn [mbind option_bind]. by rewrite IH.
Qed.

Lemma mget_ext m m' p n : (∀ q, among p n q → m' !! q = m !! q) → mget m' p n = mget m p n.
Proof.
  revert p. induction n as [|n IH]; intros p Hq; [done|]. cbn [mget]. rewrite (Hq p) by apply among_head.
  rewrite IH; [done|]. intros q Hin. by apply Hq, among_tail.
Qed.

Lemma mget_length m p n ws : mget m p n = Some ws → length ws = n.
Proof.
  revert p ws. induction n as [|n IH]; intros p ws Hg; cbn [mget] in Hg; [by injection Hg as <-|].
  destruct (m !! p) as [w|]; [|done]. cbn in Hg. destruct (mget m (p + 8) n) as [ws'|] eqn:E; [|done]. injection Hg as <-.
  cbn [length]. f_equal. by eapply IH.
Qed.

Lemma mget_mapped m p n : mapped m p n → ∃ ws, mget m p n = Some ws.
Proof.
  revert p. induction n as [|n IH]; intros p Hm; [by exists []|]. apply mapped_cons in Hm as [[w Hw] Hm].
  destruct (IH _ Hm) as [ws Hws]. exists (w :: ws). cbn [mget]. by rewrite Hw, Hws.
Qed.

Lemma mget_is_mapped m p n ws : mget m p n = Some ws → mapped m p n.
Proof.
  revert p ws. induction n as [|n IH]; intros p ws Hg q Hq; [destruct Hq as (i & Hi & _); lia|]. cbn [mget] in Hg.
  destruct (m !! p) as [w|] eqn:Ep; [|done]. cbn in Hg. destruct (mget m (p + 8) n) as [ws'|] eqn:E; [|done].
  apply among_cons in Hq as [->|Hq]; [by eexists|]. by eapply IH.
Qed.

(** ** Running computations *)

Section Proofs.
Context {K : Type} `{!Kern K} (text : Z → Z) (clobber : hart K → nat → Z) (_sp : Z).
Abbreviation hart := (hart K).
Abbreviation exec := (exec text clobber _sp).
Abbreviation exec_instr := (exec_instr text clobber).
Abbreviation trap_code := (trap_code _sp).
Implicit Types h : hart.

Lemma hb_ok {A B} (m : H A) (g : A → H B) h v h' : m h = Ok v h' → (m ≫= g) h = g v h'.
Proof. intros E. unfold mbind, H_bind. by rewrite E. Qed.

Lemma hb_assoc {A B C} (m : H A) (g : A → H B) (g' : B → H C) h : ((m ≫= g) ≫= g') h = (m ≫= (λ v, g v ≫= g')) h.
Proof. unfold mbind, H_bind. by destruct (m h). Qed.

Lemma load_ok {B} p v (g : Z → H B) h : p mod 8 = 0 → memory h !! p = Some v → (load p ≫= g) h = g v h.
Proof. intros Hp Hv. apply hb_ok. unfold load. rewrite (proj2 (Z.eqb_eq _ _) Hp). by rewrite Hv. Qed.

Lemma store_ok p v h : p mod 8 = 0 → is_Some (memory h !! p) → store p v h = Ok tt (set_memory (<[p := v]> (memory h)) h).
Proof. intros Hp Hv. unfold store. rewrite (proj2 (Z.eqb_eq _ _) Hp). by rewrite bool_decide_true. Qed.

(** ** Straight-line code *)

Definition straight (i : instr) : bool :=
  match i with BEQ _ _ _ | BNE _ _ _ | BEQZ _ _ | BNEZ _ _ | J _ | MRET => false | _ => true end.

Fixpoint run (l : list instr) : H unit :=
  match l with [] => mret tt | i :: l => exec_instr i;; run l end.

Lemma exec_straight l code : ∀ n h, forallb straight l = true →
  exec (length l + n) (l ++ code) h = (run l;; exec n code) h.
Proof.
  induction l as [|i l IH]; intros n h Hs; [done|]. cbn [forallb] in Hs. apply andb_true_iff in Hs as [Hi Hs].
  cbn [length app run Nat.add Riscv.exec].
  assert (exec (S (length l + n)) (i :: l ++ code) h = (exec_instr i;; exec (length l + n) (l ++ code)) h) as E.
  { destruct i; try done; cbn [Riscv.exec branch]; unfold mbind, H_bind; destruct (exec_instr _ h); done. }
  cbn [Riscv.exec] in E. rewrite E. rewrite hb_assoc. unfold mbind, H_bind. destruct (exec_instr i h); [|done..]. apply IH, Hs.
Qed.

Lemma run_app l1 l2 h : run (l1 ++ l2) h = (run l1;; run l2) h.
Proof.
  revert h. induction l1 as [|i l1 IH]; intros h; [done|]. cbn [app run]. rewrite hb_assoc. unfold mbind, H_bind.
  destruct (exec_instr i h); [|done..]. apply IH.
Qed.

(** ** Saving and restoring registers *)

Definition saved (x : list Z) : list Z := (λ r, x !!! r) <$> frame_regs.

(** Writing the values [ws] to the registers [rs]. *)
Fixpoint fill (x : list Z) (rs : list nat) (ws : list Z) : list Z :=
  match rs, ws with r :: rs, w :: ws => fill (<[r := w]> x) rs ws | _, _ => x end.

Lemma offset_ok F k : F mod 8 = 0 → 0 ≤ F → F + reg_OFFSET k < 2 ^ 64 →
  u64 (F + reg_OFFSET k) = F + reg_OFFSET k ∧ (F + reg_OFFSET k) mod 8 = 0.
Proof.
  intros Hm H0 Hlt. unfold reg_OFFSET in *. split; [apply wrap_small; unfold uint; lia|]. Z.div_mod_to_equations; lia.
Qed.

Lemma save_loop rs : ∀ k h F, x h !!! sp = F → F mod 8 = 0 → 0 ≤ F → F + reg_OFFSET (k + length rs) ≤ 2 ^ 64 →
  mapped (memory h) (F + reg_OFFSET k) (length rs) →
  run (imap (λ i r, REG_S r (reg_OFFSET (k + i)) sp) rs) h =
    Ok tt (set_memory (mput (memory h) (F + reg_OFFSET k) ((λ r, x h !!! r) <$> rs)) h).
Proof.
  induction rs as [|r rs IH]; intros k h F HF Hm H0 Hlt Hmap; [by destruct h|].
  rewrite imap_cons, Nat.add_0_r. cbn [run fmap list_fmap length mput] in *. apply mapped_cons in Hmap as [Hp Hmap].
  assert (F + reg_OFFSET k < 2 ^ 64) as Hlt' by (unfold reg_OFFSET in *; lia).
  destruct (offset_ok F k Hm H0 Hlt') as [Hu Ha].
  assert (exec_instr (REG_S r (reg_OFFSET k) sp) h = Ok tt (set_memory (<[F + reg_OFFSET k := x h !!! r]> (memory h)) h)) as E.
  { cbn [Riscv.exec_instr]. unfold reg, hget. unfold mbind, H_bind. rewrite HF, Hu. by apply store_ok. }
  rewrite (hb_ok _ _ _ _ _ E). set (h1 := set_memory _ h).
  assert (F + reg_OFFSET k + 8 = F + reg_OFFSET (S k)) as Ek by (unfold reg_OFFSET; lia). rewrite Ek in *.
  rewrite (imap_ext _ (λ i r, REG_S r (reg_OFFSET (S k + i)) sp)) by (intros i r' _; cbn [compose]; by rewrite Nat.add_succ_r).
  rewrite (IH (S k) h1 F HF Hm H0); [done| |].
  - by rewrite Nat.add_succ_r in Hlt.
  - intros q Hq. unfold h1. cbn [memory set_memory]. apply lookup_insert_is_Some'. right. by apply Hmap.
Qed.

Lemma restore_loop rs : ∀ k h F ws, x h !!! sp = F → F mod 8 = 0 → 0 ≤ F → F + reg_OFFSET (k + length rs) ≤ 2 ^ 64 →
  sp ∉ rs → mget (memory h) (F + reg_OFFSET k) (length rs) = Some ws →
  run (imap (λ i r, REG_L r (reg_OFFSET (k + i)) sp) rs) h = Ok tt (set_x (fill (x h) rs ws) h).
Proof.
  induction rs as [|r rs IH]; intros k h F ws HF Hm H0 Hlt Hsp Hg; [by destruct h|].
  apply not_elem_of_cons in Hsp as [Hr Hsp]. rewrite imap_cons, Nat.add_0_r. cbn [run length mget] in *.
  destruct (memory h !! (F + reg_OFFSET k)) as [w|] eqn:Hw; [|done]. cbn [mbind option_bind] in Hg.
  assert (F + reg_OFFSET k < 2 ^ 64) as Hlt' by (unfold reg_OFFSET in *; lia).
  destruct (offset_ok F k Hm H0 Hlt') as [Hu Ha].
  assert (exec_instr (REG_L r (reg_OFFSET k) sp) h = Ok tt (set_x (<[r := w]> (x h)) h)) as E.
  { cbn [Riscv.exec_instr]. unfold reg, hget. unfold mbind at 1. unfold H_bind. rewrite HF, Hu. by rewrite (load_ok _ w). }
  rewrite (hb_ok _ _ _ _ _ E). set (h1 := set_x _ h).
  assert (F + reg_OFFSET k + 8 = F + reg_OFFSET (S k)) as Ek by (unfold reg_OFFSET; lia). rewrite Ek in *.
  destruct (mget (memory h) (F + reg_OFFSET (S k)) (length rs)) as [ws'|] eqn:Hws; [|done]. injection Hg as <-. cbn [fill].
  rewrite (imap_ext _ (λ i r, REG_L r (reg_OFFSET (S k + i)) sp)) by (intros i r' _; cbn [compose]; by rewrite Nat.add_succ_r).
  rewrite (IH (S k) h1 F ws'); [done| |done|done| |done|done].
  - unfold h1. cbn [x set_x]. by rewrite list_lookup_total_insert_ne.
  - by rewrite Nat.add_succ_r in Hlt.
Qed.

(** A frame at [F] that fits below 2^64. *)
Record frame_ok (F : Z) : Prop := { fr_align : F mod 8 = 0; fr_low : 0 ≤ F; fr_high : F + CONTEXT_FRAME_SIZE < 2 ^ 64 }.

Lemma frame_addr F : frame_ok F → 0 ≤ F < 2 ^ 64.
Proof. intros [_ H0 H1]. unfold CONTEXT_FRAME_SIZE, a7_OFFSET in H1. lia. Qed.

Lemma frame_end F : F + CONTEXT_FRAME_SIZE < 2 ^ 64 → F + reg_OFFSET (0 + length frame_regs) ≤ 2 ^ 64.
Proof. assert (reg_OFFSET (0 + length frame_regs) = CONTEXT_FRAME_SIZE) as -> by reflexivity. lia. Qed.

Lemma save_regs_ok h F : frame_ok F → x h !!! sp = F → mapped (memory h) (F + 8) 29 →
  run save_regs h = Ok tt (set_memory (mput (memory h) (F + 8) (saved (x h))) h).
Proof. intros [H1 H2 H3] HF Hmap. apply (save_loop frame_regs 0 h F); try done. by apply frame_end. Qed.

Lemma restore_regs_ok h F ws : frame_ok F → x h !!! sp = F → mget (memory h) (F + 8) 29 = Some ws →
  run restore_regs h = Ok tt (set_x (fill (x h) frame_regs ws) h).
Proof.
  intros [H1 H2 H3] HF Hg. apply (restore_loop frame_regs 0 h F); try done; [by apply frame_end|compute_done].
Qed.

Lemma fill_other rs : ∀ x ws r, r ∉ rs → fill x rs ws !!! r = x !!! r.
Proof.
  induction rs as [|r' rs IH]; intros x [|w ws] r Hr; try done. apply not_elem_of_cons in Hr as [Hr Hrs]. cbn [fill].
  rewrite IH by done. by apply list_lookup_total_insert_ne.
Qed.

Lemma fill_length rs : ∀ x ws, length (fill x rs ws) = length x.
Proof. induction rs as [|r rs IH]; intros x [|w ws]; try done. cbn [fill]. rewrite IH. apply length_insert. Qed.

Lemma fill_saved rs : ∀ x ws, NoDup rs → (∀ r, r ∈ rs → (r < length x)%nat) → length ws = length rs →
  (λ r, fill x rs ws !!! r) <$> rs = ws.
Proof.
  induction rs as [|r rs IH]; intros x [|w ws] Hnd Hlt Hl; try done. apply NoDup_cons in Hnd as [Hr Hnd]. cbn [fill fmap list_fmap].
  rewrite fill_other by done. rewrite list_lookup_total_insert_eq by (apply Hlt; by left). f_equal.
  apply IH; [done| |by injection Hl]. intros r' Hr'. rewrite length_insert. apply Hlt. by right.
Qed.

Lemma frame_regs_small r : r ∈ frame_regs → (r < 32)%nat.
Proof. intros Hr. assert (Forall (λ r, (r < 32)%nat) frame_regs) as H by (compute_done). by eapply Forall_forall in H. Qed.

Lemma saved_fill x ws : length x = 32%nat → length ws = 29%nat → saved (fill x frame_regs ws) = ws.
Proof.
  intros Hx Hw. apply fill_saved; [compute_done| |done]. intros r Hr. rewrite Hx. by apply frame_regs_small.
Qed.

(** The registers are those in the frame, the stack pointer, the global pointer and x0. *)
Lemma registers_eq x x' : length x = 32%nat → length x' = 32%nat → saved x = saved x' →
  x !!! 0%nat = x' !!! 0%nat → x !!! gp = x' !!! gp → x !!! sp = x' !!! sp → x = x'.
Proof.
  intros Hl Hl' Hs H0 Hg Hsp. apply list_eq. intros i. destruct (decide (i < 32)%nat) as [Hi|Hi].
  2: { rewrite !lookup_ge_None_2; [done|lia..]. }
  rewrite (list_lookup_lookup_total_lt x), (list_lookup_lookup_total_lt x') by lia. f_equal.
  assert (i ∈ 0%nat :: gp :: sp :: frame_regs) as Hin.
  { assert (Forall (λ i, i ∈ 0%nat :: gp :: sp :: frame_regs) (seq 0 32)) as Hall by (compute_done).
    eapply Forall_forall in Hall; [exact Hall|]. apply elem_of_seq. lia. }
  rewrite !elem_of_cons in Hin. destruct Hin as [->|[->|[->|Hin]]]; [done..|].
  unfold saved in Hs. clear -Hs Hin. revert Hs. induction frame_regs as [|r rs IH]; [by apply elem_of_nil in Hin|].
  cbn [fmap list_fmap]. intros Hs. injection Hs as Hr Hs. apply elem_of_cons in Hin as [->|Hin]; [done|by apply IH].
Qed.

(** ** Single instructions *)

Section Instructions.
Context {B : Type} (g : unit → @H K B) (h : hart).

Lemma i_addi rd rs imm : (exec_instr (ADDI rd rs imm) ≫= g) h = g tt (set_x (<[rd := u64 (x h !!! rs + imm)]> (x h)) h).
Proof. done. Qed.
Lemma i_mv rd rs : (exec_instr (MV rd rs) ≫= g) h = g tt (set_x (<[rd := x h !!! rs]> (x h)) h).
Proof. done. Qed.
Lemma i_li rd v : (exec_instr (LI rd v) ≫= g) h = g tt (set_x (<[rd := v]> (x h)) h).
Proof. done. Qed.
Lemma i_csrr rd c : (exec_instr (CSRR rd c) ≫= g) h = g tt (set_x (<[rd := csr_value c h]> (x h)) h).
Proof. done. Qed.
Lemma i_var rd v : (exec_instr (LOAD_VAR rd v) ≫= g) h = g tt (set_x (<[rd := variable_value v h]> (x h)) h).
Proof. done. Qed.
Lemma i_csrw_mepc rs : (exec_instr (CSRW CSR_mepc rs) ≫= g) h = g tt (set_mepc (x h !!! rs) h).
Proof. done. Qed.
Lemma i_csrc rs : (exec_instr (CSRC CSR_mstatus rs) ≫= g) h = g tt (set_mstatus (Z.ldiff (mstatus h) (x h !!! rs)) h).
Proof. done. Qed.
Lemma i_csrs rs : (exec_instr (CSRS CSR_mstatus rs) ≫= g) h = g tt (set_mstatus (Z.lor (mstatus h) (x h !!! rs)) h).
Proof. done. Qed.
Lemma i_label l : (exec_instr (LABEL l) ≫= g) h = g tt h.
Proof. done. Qed.
Lemma i_sw r : x h !!! r = CLINT_CTRL_ADDR → (exec_instr (SW_ZERO r) ≫= g) h = g tt (set_msip 0 h).
Proof. intros E. apply hb_ok. cbn [Riscv.exec_instr]. unfold reg, hget, mbind, H_bind. by rewrite E. Qed.

Lemma i_store rs off b p : x h !!! b = p → u64 (p + off) = p + off → (p + off) mod 8 = 0 → is_Some (memory h !! (p + off)) →
  (exec_instr (REG_S rs off b) ≫= g) h = g tt (set_memory (<[p + off := x h !!! rs]> (memory h)) h).
Proof.
  intros Hb Hu Hm Hs. apply hb_ok. cbn [Riscv.exec_instr]. unfold reg, hget, mbind, H_bind. rewrite Hb, Hu. by apply store_ok.
Qed.

Lemma i_load rd off b p v : x h !!! b = p → u64 (p + off) = p + off → (p + off) mod 8 = 0 → memory h !! (p + off) = Some v →
  (exec_instr (REG_L rd off b) ≫= g) h = g tt (set_x (<[rd := v]> (x h)) h).
Proof.
  intros Hb Hu Hm Hs. apply hb_ok. cbn [Riscv.exec_instr]. unfold reg, hget. unfold mbind at 1. unfold H_bind. rewrite Hb, Hu.
  by rewrite (load_ok _ v).
Qed.

(** At the address in the register itself. *)
Lemma i_store0 rs b p : x h !!! b = p → 0 ≤ p < 2 ^ 64 → p mod 8 = 0 → is_Some (memory h !! p) →
  (exec_instr (REG_S rs 0 b) ≫= g) h = g tt (set_memory (<[p := x h !!! rs]> (memory h)) h).
Proof.
  intros Hb Hp Hm Hs. rewrite (i_store _ _ _ p); rewrite ?Z.add_0_r; try done. by apply wrap_small.
Qed.

Lemma i_load0 rd b p v : x h !!! b = p → 0 ≤ p < 2 ^ 64 → p mod 8 = 0 → memory h !! p = Some v →
  (exec_instr (REG_L rd 0 b) ≫= g) h = g tt (set_x (<[rd := v]> (x h)) h).
Proof.
  intros Hb Hp Hm Hs. apply (i_load _ _ _ p); rewrite ?Z.add_0_r; try done. by apply wrap_small.
Qed.
End Instructions.

(** Executing one instruction that does not jump. *)
Lemma e_step n i code h : straight i = true → exec (S n) (i :: code) h = (exec_instr i;; exec n code) h.
Proof.
  intros Hi. transitivity ((run [i];; exec n code) h); [apply (exec_straight [i] code n h); cbn; by rewrite Hi|].
  cbn [run]. by rewrite hb_assoc.
Qed.

(** A branch that is taken, and one that is not. *)
Lemma e_jump n i l code code' h : branch i h = Ok (Some l) h → exec_instr i h = Ok tt h → find_label l trap_code = Some code' →
  match i with MRET => False | _ => True end → exec (S n) (i :: code) h = exec n code' h.
Proof.
  intros Hb Hi Hl Hm. assert (exec (S n) (i :: code) h = (exec_instr i;; l ← branch i;
    match l with Some l => code ← hlift (find_label l trap_code); exec n code | None => exec n code end) h) as -> by (by destruct i).
  rewrite (hb_ok _ _ _ _ _ Hi), (hb_ok _ _ _ _ _ Hb). rewrite Hl. done.
Qed.

Lemma e_next n i code h : branch i h = Ok None h → exec_instr i h = Ok tt h →
  match i with MRET => False | _ => True end → exec (S n) (i :: code) h = exec n code h.
Proof.
  intros Hb Hi Hm. assert (exec (S n) (i :: code) h = (exec_instr i;; l ← branch i;
    match l with Some l => code ← hlift (find_label l trap_code); exec n code | None => exec n code end) h) as -> by (by destruct i).
  by rewrite (hb_ok _ _ _ _ _ Hi), (hb_ok _ _ _ _ _ Hb).
Qed.

(** Executing the instructions [l], which are [k] and do not jump. *)
Lemma e_run k n l code h : forallb straight l = true → length l = k → (k ≤ n)%nat →
  exec n (l ++ code) h = (run l;; exec (n - k) code) h.
Proof. intros Hs <- Hn. rewrite <- exec_straight by done. do 2 f_equal. lia. Qed.

(** ** Leaving the handler *)

(** [X] has the registers [ws] of a frame, the stack pointer [S], and x0 and gp of [X0]. *)
Record regs_are (X X0 ws : list Z) (S : Z) : Prop := {
  ra_length : length X = 32%nat;
  ra_saved : saved X = ws;
  ra_zero : X !!! 0%nat = X0 !!! 0%nat;
  ra_gp : X !!! gp = X0 !!! gp;
  ra_sp : X !!! sp = S
}.

Lemma exit_ok n code h F ws : length (x h) = 32%nat → x h !!! sp = F → frame_ok F → mget (memory h) (F + 8) 29 = Some ws →
  ∃ X, exec (31 + n) (restore_regs ++ [ADDI sp sp CONTEXT_FRAME_SIZE] ++ MRET :: code) h = Ok tt (trap_return (set_x X h)) ∧
    regs_are X (x h) ws (F + CONTEXT_FRAME_SIZE).
Proof.
  intros Hl HF Hok Hg. pose proof (mget_length _ _ _ _ Hg) as Hws.
  change (31 + n)%nat with (length restore_regs + S (S n))%nat.
  rewrite exec_straight by done. rewrite (hb_ok _ _ _ _ _ (restore_regs_ok h F ws Hok HF Hg)).
  cbn [app]. rewrite e_step by done. rewrite i_addi. cbn [x set_x Riscv.exec].
  exists (<[sp := F + CONTEXT_FRAME_SIZE]> (fill (x h) frame_regs ws)).
  rewrite fill_other, HF by compute_done. split.
  - rewrite wrap_small by (destruct Hok; unfold uint, CONTEXT_FRAME_SIZE, a7_OFFSET in *; lia). by destruct h.
  - assert (length (fill (x h) frame_regs ws) = 32%nat) as Hlf by (by rewrite fill_length).
    split.
    + by rewrite length_insert.
    + etransitivity; [|by apply (saved_fill (x h))]. apply list_fmap_ext. intros i r Hr%list_elem_of_lookup_2.
      apply list_lookup_total_insert_ne. intros <-. revert Hr. compute_done.
    + rewrite list_lookup_total_insert_ne by done. apply fill_other. compute_done.
    + rewrite list_lookup_total_insert_ne by done. apply fill_other. compute_done.
    + apply list_lookup_total_insert_eq. rewrite Hlf. unfold sp. lia.
Qed.

(** ** A context switch *)

Lemma imap_total (g : nat → Z → Z) l r : (r < length l)%nat → imap g l !!! r = g r (l !!! r).
Proof.
  intros Hr. apply list_lookup_total_correct. rewrite list_lookup_imap. by rewrite (list_lookup_lookup_total_lt l r Hr).
Qed.

(** [g] keeps the registers: what a call does to them. *)
Definition called (h : hart) : hart :=
  set_x (imap (λ r v, if bool_decide (r ∈ 0%nat :: callee_saved) then v else clobber h r) (x h)) h.

Lemma called_kept h r : length (x h) = 32%nat → bool_decide (r ∈ 0%nat :: callee_saved) = true → x (called h) !!! r = x h !!! r.
Proof.
  intros Hl Hr. unfold called. cbn [x set_x]. rewrite imap_total; [by rewrite Hr|]. apply bool_decide_eq_true in Hr. rewrite Hl.
  assert (Forall (λ r, (r < 32)%nat) (0%nat :: callee_saved)) as Hall by (compute_done). by eapply Forall_forall in Hall.
Qed.

Lemma called_length h : length (x (called h)) = length (x h).
Proof. unfold called. cbn [x set_x]. apply length_imap. Qed.

Definition FS_off (m : Z) : Z := Z.ldiff m MSTATUS_FS.
Definition FS_on (m : Z) : Z := Z.lor m MSTATUS_FS.

(** The memory when the context at [F] has been given to the active thread [A]. *)
Definition suspend_memory (m : gmap Z Z) (A F pc : Z) : gmap Z Z :=
  let m := <[F + pc_OFFSET := pc]> m in if A =? 0 then m else <[A + SP_OFFSET_IN_THREAD := F]> m.

(** Words of the handler's code that come behind a label. *)
Lemma find_context_switch : find_label context_switch trap_code = Some (tail context_switch_code).
Proof. done. Qed.
Lemma find_trap_exit : find_label trap_exit trap_code = Some (tail trap_exit_code ++ context_switch_code).
Proof. done. Qed.

(** [p] is the address of a thread: it is aligned and its stack pointer is in memory. *)
Record tcb_ok (m : gmap Z Z) (T : Z) : Prop := {
  tcb_align : T mod 8 = 0; tcb_low : 0 < T; tcb_high : T < 2 ^ 64; tcb_mapped : is_Some (m !! T)
}.

Ltac hart_cbn := cbn [x set_x pc mepc set_mepc mcause mstatus set_mstatus msip set_msip memory set_memory kern set_kern
  fpu_owner_thread csr_value variable_value __in_isr mie f fcsr fpucontext thread_pid _ext_isrs].

Ltac regs :=
  hart_cbn; repeat first [ rewrite list_lookup_total_insert_ne by done
    | rewrite list_lookup_total_insert_eq by (rewrite ?length_insert; cbv [t s a sp tp gp ra Nat.ltb Nat.leb Nat.add]; lia) ]; try done.

Tactic Notation "step" open_constr(lem) := rewrite e_step by done; rewrite lem; hart_cbn.

(** The code behind [no_sp_save]. *)
Definition resume_code : list instr := skipn 11 context_switch_code.

Lemma e_return n h F' pc' ws :
  length (x h) = 32%nat → x h !!! sp = F' → x h !!! a 0 = pc' → frame_ok F' → mget (memory h) (F' + 8) 29 = Some ws →
  ∃ X, exec (33 + n) [CSRW CSR_mepc (a 0); J trap_exit] h =
    Ok tt (trap_return (set_x X (set_mepc pc' h))) ∧ regs_are X (x h) ws (F' + CONTEXT_FRAME_SIZE).
Proof.
  intros Hl HF' Hpc Hok' Hws. cbn [Nat.add]. step i_csrw_mepc. rewrite Hpc.
  rewrite (e_jump _ _ trap_exit _ (tail trap_exit_code ++ context_switch_code)) by done.
  exact (exit_ok n context_switch_code (set_mepc pc' h) F' ws Hl HF' Hok' Hws).
Qed.

Lemma call_sched_run {B} (g : unit → @H K B) h k' : k_sched_run (kern h) = Some k' →
  (exec_instr (CALL C_sched_run) ≫= g) h = g tt (called (set_kern k' h)).
Proof.
  intros E. apply hb_ok. cbn [Riscv.exec_instr]. unfold call, kcall, hget, hlift, hmodify, mbind, H_bind. by rewrite E.
Qed.

Lemma resume_ok n h k' F' pc' ws :
  length (x h) = 32%nat → k_sched_run (kern h) = Some k' → tcb_ok (memory h) (k_active k') →
  memory h !! k_active k' = Some F' → frame_ok F' → memory h !! F' = Some pc' → mget (memory h) (F' + 8) 29 = Some ws →
  ∃ X, exec (42 + n) resume_code h =
    Ok tt (trap_return (set_x X (set_mepc pc' (set_mstatus
      (if fpu_owner_thread h =? k_active k' then FS_on (mstatus h) else mstatus h) (set_kern k' h))))) ∧
    regs_are X (x h) ws (F' + CONTEXT_FRAME_SIZE).
Proof.
  intros Hl Hrun [HA0 HA1 HA2 HA3] HsF' Hok' Hpc' Hws. cbn [resume_code skipn context_switch_code Nat.add].
  rewrite e_step by done. rewrite (call_sched_run _ _ _ Hrun). set (h1 := called (set_kern k' h)).
  assert (length (x h1) = 32%nat) as Hl1 by (unfold h1; by rewrite called_length).
  step i_var. change (kern h1) with k'.
  step (i_load0 _ _ _ _ (k_active k') F'); [|regs|lia|done|done].
  step (i_load0 _ _ _ _ F' pc'); [|regs|by apply frame_addr|apply fr_align, Hok'|done].
  step i_var. change (fpu_owner_thread h1) with (fpu_owner_thread h). set (X0 := <[t 0:=_]> _).
  assert (length X0 = 32%nat) as HlX0 by (unfold X0; by rewrite !length_insert).
  assert (X0 !!! t 0 = fpu_owner_thread h ∧ X0 !!! tp = k_active k' ∧ X0 !!! a 0 = pc' ∧ X0 !!! sp = F' ∧
    X0 !!! 0%nat = x h !!! 0%nat ∧ X0 !!! gp = x h !!! gp) as (E1 & E2 & E3 & E4 & E5 & E6).
  { unfold X0. repeat split; regs; by apply (called_kept (set_kern k' h)). }
  clearbody X0.
  assert (∀ X, regs_are X X0 ws (F' + CONTEXT_FRAME_SIZE) → regs_are X (x h) ws (F' + CONTEXT_FRAME_SIZE)) as Hregs.
  { intros X [? ? ? ? ?]. split; congruence. }
  match goal with |- context [Riscv.exec _ _ _ _ _ ?h2] => set (h2' := h2) end.
  assert (branch (BNE (t 0) tp thread_return) h2' =
    Ok (if fpu_owner_thread h =? k_active k' then None else Some thread_return) h2') as Hb.
  { unfold h2'. cbn [branch]. unfold reg, hget, mbind, H_bind. hart_cbn. by rewrite E1, E2. }
  destruct (fpu_owner_thread h =? k_active k').
  - rewrite e_next by done. unfold h2'. step i_li. step i_csrs. step i_label.
    match goal with |- context [Riscv.exec _ _ _ _ _ ?h2] => destruct (e_return n h2 F' pc' ws) as (X & E & Hr) end;
      [by regs; rewrite length_insert|by regs|by regs|done|done|].
    exists X. split; [|apply Hregs; destruct Hr as [? ? Hz Hg ?]; split; try done; [rewrite Hz|rewrite Hg]; by regs].
    etransitivity; [exact E|]. hart_cbn. by regs.
  - rewrite (e_jump _ _ thread_return _ [CSRW CSR_mepc (a 0); J trap_exit]) by done.
    destruct (e_return (3 + n) h2' F' pc' ws) as (X & E & Hr); [done..|].
    exists X. split; [|by apply Hregs]. etransitivity; [exact E|]. by destruct h.
Qed.

(** The hart behind a switch to [k_active k'], suspended at [F'] with program counter [pc']. *)
Definition switched (F : Z) (k' : K) (pc' : Z) (X : list Z) (h : hart) : hart :=
  trap_return (set_x X (set_mepc pc' (set_mstatus
    (if fpu_owner_thread h =? k_active k' then FS_on (FS_off (mstatus h)) else FS_off (mstatus h))
    (set_kern k' (set_memory (suspend_memory (memory h) (k_active (kern h)) F (mepc h)) (set_msip 0 h)))))).

(** The thread [N] is suspended in memory [m]: its stack pointer, its program
    counter, its registers. *)
Record suspended (m : gmap Z Z) (N F' pc' : Z) (ws : list Z) : Prop := {
  su_tcb : tcb_ok m N;
  su_sp : m !! N = Some F';
  su_frame : frame_ok F';
  su_pc : m !! F' = Some pc';
  su_regs : mget m (F' + 8) 29 = Some ws
}.

Lemma switch_ok n h F k' F' pc' ws :
  length (x h) = 32%nat → x h !!! s 1 = F → frame_ok F → is_Some (memory h !! F) →
  (k_active (kern h) = 0 ∨ tcb_ok (memory h) (k_active (kern h))) → k_sched_run (kern h) = Some k' →
  suspended (suspend_memory (memory h) (k_active (kern h)) F (mepc h)) (k_active k') F' pc' ws →
  ∃ X, exec (52 + n) (tail context_switch_code) h = Ok tt (switched F k' pc' X h) ∧
    regs_are X (x h) ws (F' + CONTEXT_FRAME_SIZE).
Proof.
  intros Hl HF Hok HmF HA Hrun [HN HsF' Hok' Hpc' Hws]. unfold switched. set (A := k_active (kern h)) in *.
  set (m' := suspend_memory _ _ _ _) in *. cbn [context_switch_code tail Nat.add].
  pose proof (frame_addr F Hok) as HF64. pose proof (fr_align F Hok) as HF8.
  step i_li. rewrite e_step by done. rewrite i_sw by by regs.
  step i_csrr. step (i_store0 _ _ _ _ F); [|by regs|done..].
  step i_li. step i_csrc. step i_var.
  set (X0 := <[t 0:=k_active (kern h)]> _).
  assert (length X0 = 32%nat ∧ X0 !!! t 0 = A ∧ X0 !!! s 1 = F ∧ X0 !!! 0%nat = x h !!! 0%nat ∧ X0 !!! gp = x h !!! gp)
    as (HlX0 & E1 & E2 & E3 & E4) by (unfold X0; rewrite !length_insert; repeat split; by regs).
  clearbody X0.
  match goal with |- context [Riscv.exec _ _ _ _ _ ?h2] => assert (h2 = set_x X0 (set_mstatus (FS_off (mstatus h))
    (set_memory (<[F := mepc h]> (memory h)) (set_msip 0 h)))) as -> by (regs; by destruct h) end.
  set (h1 := set_x X0 _).
  assert (∀ X, regs_are X X0 ws (F' + CONTEXT_FRAME_SIZE) → regs_are X (x h) ws (F' + CONTEXT_FRAME_SIZE)) as Hregs.
  { intros X [? ? ? ? ?]. split; congruence. }
  assert (branch (BEQZ (t 0) no_sp_save) h1 = Ok (if A =? 0 then Some no_sp_save else None) h1) as Hb.
  { unfold h1. cbn [branch]. unfold reg, hget, mbind, H_bind. hart_cbn. by rewrite E1. }
  assert (m' = if A =? 0 then memory h1 else <[A := F]> (memory h1)) as Em.
  { unfold m', suspend_memory, pc_OFFSET, SP_OFFSET_IN_THREAD. by rewrite !Z.add_0_r. }
  clearbody m'. destruct (A =? 0) eqn:EA.
  - rewrite (e_jump _ _ no_sp_save _ resume_code) by done. subst m'.
    destruct (resume_ok (2 + n) h1 k' F' pc' ws) as (X & E & Hr); [done..|].
    exists X. split; [exact E|by apply Hregs].
  - apply Z.eqb_neq in EA. destruct HA as [HA|[HA1 HA2 HA3 HA4]]; [done|].
    rewrite e_next by done. unfold h1. step (i_store0 _ _ _ _ A); [|done|lia|done|by apply lookup_insert_is_Some'; right].
    step i_label. rewrite E2. subst m'.
    match goal with |- context [Riscv.exec _ _ _ _ _ ?h2] => destruct (resume_ok n h2 k' F' pc' ws) as (X & E & Hr) end; [done..|].
    exists X. split; [exact E|by apply Hregs].
Qed.

(** ** Entering the handler *)

(** The state in which the C code runs: the registers have been saved. *)
Definition entered (F : Z) (h : hart) : hart := set_memory (mput (memory h) (F + 8) (saved (x h))) h.

(** The registers there. *)
Record entry_regs (X : list Z) (F : Z) (h : hart) : Prop := {
  er_length : length X = 32%nat;
  er_s1 : X !!! s 1 = F;
  er_a0 : X !!! a 0 = mcause h;
  er_zero : X !!! 0%nat = x h !!! 0%nat;
  er_gp : X !!! gp = x h !!! gp
}.

Definition handle_code : list instr := skipn 36 trap_code.

Lemma entry_ok n h F : length (x h) = 32%nat → frame_ok F → x h !!! sp = F + CONTEXT_FRAME_SIZE →
  mapped (memory h) (F + 8) 29 →
  ∃ X, entry_regs X F h ∧ exec (36 + n) trap_code h =
    exec n (if mcause h =? IRQ_SW_CAUSE then tail context_switch_code else handle_code) (set_x X (entered F h)).
Proof.
  intros Hl Hok Hsp Hmap.
  change (exec (36 + n) trap_code h) with (exec (S (length save_regs + (6 + n))) (ADDI sp sp (- CONTEXT_FRAME_SIZE) :: save_regs ++ skipn 30 trap_code) h).
  step i_addi.
  assert (u64 (x h !!! sp + - CONTEXT_FRAME_SIZE) = F) as ->.
  { rewrite Hsp. rewrite wrap_small; unfold uint; [lia|]. pose proof (frame_addr F Hok). lia. }
  set (h0 := set_x (<[sp := F]> (x h)) h). rewrite exec_straight by done.
  assert (x h0 !!! sp = F) as E0 by (unfold h0; by regs). rewrite (hb_ok _ _ _ _ _ (save_regs_ok h0 F Hok E0 Hmap)).
  assert (saved (x h0) = saved (x h)) as ->.
  { unfold h0. hart_cbn. apply list_fmap_ext. intros i r Hr%list_elem_of_lookup_2. apply list_lookup_total_insert_ne. intros <-. revert Hr. compute_done. }
  change (set_memory _ h0) with (set_x (<[sp := F]> (x h)) (entered F h)). clear h0 E0. set (h0 := entered F h).
  assert (mcause h0 = mcause h ∧ x h0 = x h) as [Ec Ex] by done. rewrite <- Ex in *. clearbody h0.
  change (skipn 30 trap_code) with ([CSRR (a 0) CSR_mcause; MV (s 1) sp; LI sp _sp; ADDI sp sp (-8); LI (t 0) IRQ_SW_CAUSE;
    BEQ (a 0) (t 0) context_switch] ++ handle_code). cbn [app Nat.add].
  step i_csrr. step i_mv. step i_li. step i_addi. step i_li.
  set (X := <[t 0:=IRQ_SW_CAUSE]> _).
  assert (entry_regs X F h ∧ X !!! t 0 = IRQ_SW_CAUSE) as [HX Ht].
  { unfold X. split; [split|]; rewrite ?length_insert, ?Ex in *; by regs. }
  clearbody X. exists X. split; [done|].
  match goal with |- context [Riscv.exec _ _ _ _ _ ?h2] => change h2 with (set_x X h0) end.
  assert (branch (BEQ (a 0) (t 0) context_switch) (set_x X h0) =
    Ok (if mcause h =? IRQ_SW_CAUSE then Some context_switch else None) (set_x X h0)) as Hb.
  { cbn [branch]. unfold reg, hget, mbind, H_bind. hart_cbn. by rewrite (er_a0 _ _ _ HX), Ht. }
  destruct (mcause h =? IRQ_SW_CAUSE); [by apply (e_jump _ _ context_switch)|by apply e_next].
Qed.

(** ** Computations that leave the registers alone *)

Definition with_x {A} (X : list Z) (o : @outcome K A) : @outcome K A :=
  match o with Ok v h => Ok v (set_x X h) | Panicked => Panicked | Stuck => Stuck end.

Definition xfree {A} (m : @H K A) : Prop := ∀ X h, m (set_x X h) = with_x X (m h).

Lemma xfree_ret {A} (v : A) : xfree (mret v).
Proof. done. Qed.
Lemma xfree_bind {A B} (m : H A) (g : A → H B) : xfree m → (∀ v, xfree (g v)) → xfree (m ≫= g).
Proof. intros Hm Hg X h. unfold mbind, H_bind. rewrite Hm. destruct (m h) as [v h'| |]; try done. apply Hg. Qed.
Lemma xfree_get {A} (p : hart → A) : (∀ X h, p (set_x X h) = p h) → xfree (hget p).
Proof. intros Hp X h. unfold hget. cbn. by rewrite Hp. Qed.
Lemma xfree_modify g : (∀ X h, g (set_x X h) = set_x X (g h)) → xfree (hmodify g).
Proof. intros Hg X h. unfold hmodify. cbn. by rewrite Hg. Qed.
Lemma xfree_lift {A} (o : option A) : xfree (hlift o).
Proof. intros X h. by destruct o. Qed.
Lemma xfree_panic {A} : xfree (core_panic (A:=A)).
Proof. done. Qed.
Lemma xfree_if {A} (b : bool) (m m' : H A) : xfree m → xfree m' → xfree (if b then m else m').
Proof. by destruct b. Qed.
Lemma xfree_load p : xfree (load p).
Proof. intros X h. unfold load. apply xfree_lift. Qed.
Lemma xfree_store p v : xfree (store p v).
Proof. intros X h. unfold store. cbn [memory set_x]. by destruct (_ && _). Qed.

Lemma xfree_fstore ws : ∀ p, xfree (fstore_regs ws p).
Proof. induction ws as [|w ws IH]; intros p; cbn; [apply xfree_ret|]. apply xfree_bind; [apply xfree_store|done]. Qed.
Lemma xfree_fload n : ∀ p, xfree (fload_regs n p).
Proof.
  induction n as [|n IH]; intros p; cbn; [apply xfree_ret|]. apply xfree_bind; [apply xfree_load|]. intros r.
  apply xfree_bind; [done|]. intros rs. apply xfree_ret.
Qed.

Ltac xfree :=
  repeat match goal with
  | |- xfree (_ ≫= _) => apply xfree_bind; [|intros ?]
  | |- xfree (mret _) => apply xfree_ret
  | |- xfree (hget _) => by apply xfree_get
  | |- xfree (hmodify _) => by apply xfree_modify
  | |- xfree (hlift _) => apply xfree_lift
  | |- xfree core_panic => apply xfree_panic
  | |- xfree (load _) => apply xfree_load
  | |- xfree (store _ _) => apply xfree_store
  | |- xfree (fstore_regs _ _) => apply xfree_fstore
  | |- xfree (fload_regs _ _) => apply xfree_fload
  | |- xfree (if _ then _ else _) => apply xfree_if
  | |- xfree (let '(_, _) := ?p in _) => destruct p
  | |- xfree ?m => let m' := eval hnf in m in change m with m'
  end.

Lemma fpu_insn_trap_xfree : xfree fpu_insn_trap.
Proof. unfold fpu_insn_trap, RV_IS_FPU_DIRTY, RV_FPU_ENABLE, csrs_mstatus, thread_fpucontext, hassert. xfree. Qed.

Lemma handle_trap_xfree c : xfree (handle_trap text c).
Proof.
  unfold handle_trap, handle_interrupt, handle_illegal_instruction, illegal_insn32_jumptable, illegal_insn16_jumptable,
    illegal_system_insn_trap, RV_IS_FPU_DIRTY, RV_FPU_ENABLE, RV_FPU_DISABLE, rv_plic_hanlde_isr, kcall, csrs_mstatus, csrc_mstatus.
  xfree; apply fpu_insn_trap_xfree.
Qed.

Lemma handle_trap_x c h h' : handle_trap text c h = Ok tt h' → x h' = x h.
Proof.
  intros E. pose proof (handle_trap_xfree c (x h) h) as Hx. assert (set_x (x h) h = h) as E0 by (by destruct h).
  rewrite E0, E in Hx. injection Hx as Hx. by rewrite Hx.
Qed.

Lemma call_handle_trap {B} (g : unit → @H K B) X h h' : X !!! a 0 = mcause h → handle_trap text (mcause h) h = Ok tt h' →
  (exec_instr (CALL C_handle_trap) ≫= g) (set_x X h) = g tt (called (set_x X h')).
Proof.
  intros HX E. apply hb_ok. cbn [Riscv.exec_instr]. unfold call, reg, hget, mbind, H_bind. hart_cbn. rewrite HX.
  rewrite (handle_trap_xfree _ X h), E. done.
Qed.

(** What a trap finds: registers, room for a frame on the stack. *)
Record trap_ok (h : hart) (F : Z) : Prop := {
  to_length : length (x h) = 32%nat;
  to_sp : x h !!! sp = F + CONTEXT_FRAME_SIZE;
  to_frame : frame_ok F;
  to_mapped : mapped (memory h) F 30
}.

(** The handler up to the decision whether to switch. *)
Lemma handle_ok n h F h2 : trap_ok h F → mcause h ≠ IRQ_SW_CAUSE → handle_trap text (mcause h) (entered F h) = Ok tt h2 →
  ∃ X, length X = 32%nat ∧ X !!! s 1 = F ∧ X !!! 0%nat = x h !!! 0%nat ∧ X !!! gp = x h !!! gp ∧
    exec (39 + n) trap_code h =
    exec n (if k_request (kern h2) =? 0 then skipn 3 handle_code else tail context_switch_code) (set_x X h2).
Proof.
  intros [Hl Hsp Hok Hmap] Hc E. change 30%nat with (S 29) in Hmap. apply mapped_cons in Hmap as [_ Hmap].
  destruct (entry_ok (3 + n) h F Hl Hok Hsp Hmap) as (X & [Xl X1 X2 X3 X4] & Ee). apply Z.eqb_neq in Hc. rewrite Hc in Ee.
  change (39 + n)%nat with (36 + (3 + n))%nat. rewrite Ee. change handle_code with (CALL C_handle_trap ::
    LOAD_VAR (a 0) V_sched_context_switch_request :: BNEZ (a 0) context_switch :: skipn 3 handle_code). cbn [Nat.add].
  rewrite e_step by done. rewrite (call_handle_trap _ X (entered F h) h2 X2 E). set (h3 := called (set_x X h2)).
  step i_var. change (kern h3) with (kern h2). set (h4 := set_x _ h3).
  exists (<[a 0 := k_request (kern h2)]> (x h3)).
  assert (length (x h3) = 32%nat ∧ x h3 !!! s 1 = F ∧ x h3 !!! 0%nat = x h !!! 0%nat ∧ x h3 !!! gp = x h !!! gp) as (Hl3 & H1 & H2 & H3).
  { unfold h3. rewrite called_length, !called_kept by done. done. }
  rewrite length_insert. split_and!; [done|by regs..|].
  assert (x h4 !!! a 0 = k_request (kern h2)) as Ha by (unfold h4; by regs).
  assert (branch (BNEZ (a 0) context_switch) h4 = Ok (if k_request (kern h2) =? 0 then None else Some context_switch) h4) as Hb.
  { cbn [branch]. unfold reg, hget, mbind, H_bind. by rewrite Ha. }
  destruct (k_request (kern h2) =? 0); [by rewrite e_next|by rewrite (e_jump _ _ context_switch _ (tail context_switch_code))].
Qed.

(** A trap that does not switch: the registers are as they were. *)
Lemma trap_handled h F h2 : trap_ok h F → mcause h ≠ IRQ_SW_CAUSE → handle_trap text (mcause h) (entered F h) = Ok tt h2 →
  k_request (kern h2) = 0 → mget (memory h2) (F + 8) 29 = Some (saved (x h)) →
  trap_entry text clobber _sp h = Ok tt (trap_return h2).
Proof.
  intros Hok Hc E Hr Hg. destruct (handle_ok 55 h F h2 Hok Hc E) as (X & Xl & X1 & X2 & X3 & Ee). rewrite Hr, Z.eqb_refl in Ee.
  change (skipn 3 handle_code) with (MV sp (s 1) :: LABEL trap_exit :: restore_regs ++ [ADDI sp sp CONTEXT_FRAME_SIZE] ++ MRET :: context_switch_code) in Ee.
  change (trap_entry text clobber _sp h) with (exec (39 + 55) trap_code h). rewrite Ee. step i_mv. step i_label.
  pose proof (handle_trap_x _ _ _ E) as Hx2. destruct Hok as [Hl Hsp Hf _].
  match goal with |- context [Riscv.exec _ _ _ _ _ ?h'] =>
    destruct (exit_ok 22 context_switch_code h' F (saved (x h))) as (X' & E' & [H1 H2 H3 H4 H5]) end;
    [hart_cbn; by rewrite length_insert|by regs|done|done|].
  etransitivity; [exact E'|]. hart_cbn. revert H3 H4. regs. intros H3 H4.
  assert (X' = x h2) as -> by (rewrite Hx2; cbn; apply registers_eq; congruence). by destruct h2.
Qed.

(** The memory in which the context at [F] may be suspended: the thread that
    leaves the processor is none, or one with a control block. *)
Record leaving_ok (h : hart) (F : Z) : Prop := {
  lv_active : k_active (kern h) = 0 ∨ tcb_ok (memory h) (k_active (kern h));
  lv_pc : is_Some (memory h !! F)
}.

(** A trap that switches, after the C code or at once. *)
Lemma trap_switches n h h2 F k' F' pc' ws X0 : frame_ok F → length X0 = 32%nat → X0 !!! s 1 = F →
  X0 !!! 0%nat = x h !!! 0%nat → X0 !!! gp = x h !!! gp → leaving_ok h2 F → k_sched_run (kern h2) = Some k' →
  suspended (suspend_memory (memory h2) (k_active (kern h2)) F (mepc h2)) (k_active k') F' pc' ws →
  ∃ X, exec (52 + n) (tail context_switch_code) (set_x X0 h2) = Ok tt (switched F k' pc' X h2) ∧
    regs_are X (x h) ws (F' + CONTEXT_FRAME_SIZE).
Proof.
  intros Hf Hl H1 H0 Hg [HA HF] Hrun Hs.
  destruct (switch_ok n (set_x X0 h2) F k' F' pc' ws) as (X & E & Hr); [done..|]. exists X. split; [exact E|].
  destruct Hr as [? ? Ez Eg ?]. revert Ez Eg. hart_cbn. intros. split; congruence.
Qed.

Lemma trap_handled_switch h F h2 k' F' pc' ws : trap_ok h F → mcause h ≠ IRQ_SW_CAUSE →
  handle_trap text (mcause h) (entered F h) = Ok tt h2 → k_request (kern h2) ≠ 0 → leaving_ok h2 F →
  k_sched_run (kern h2) = Some k' →
  suspended (suspend_memory (memory h2) (k_active (kern h2)) F (mepc h2)) (k_active k') F' pc' ws →
  ∃ X, trap_entry text clobber _sp h = Ok tt (switched F k' pc' X h2) ∧ regs_are X (x h) ws (F' + CONTEXT_FRAME_SIZE).
Proof.
  intros Hok Hc E Hr Hlv Hrun Hs. destruct (handle_ok 55 h F h2 Hok Hc E) as (X & Xl & X1 & X2 & X3 & Ee).
  apply Z.eqb_neq in Hr. rewrite Hr in Ee. change (trap_entry text clobber _sp h) with (exec (39 + 55) trap_code h). rewrite Ee.
  apply (trap_switches 3); try done; apply Hok.
Qed.

Lemma trap_soft h F k' F' pc' ws : trap_ok h F → mcause h = IRQ_SW_CAUSE → leaving_ok (entered F h) F →
  k_sched_run (kern h) = Some k' →
  suspended (suspend_memory (memory (entered F h)) (k_active (kern h)) F (mepc h)) (k_active k') F' pc' ws →
  ∃ X, trap_entry text clobber _sp h = Ok tt (switched F k' pc' X (entered F h)) ∧ regs_are X (x h) ws (F' + CONTEXT_FRAME_SIZE).
Proof.
  intros [Hl Hsp Hf Hmap] Hc Hlv Hrun Hs. change 30%nat with (S 29) in Hmap. apply mapped_cons in Hmap as [_ Hmap].
  destruct (entry_ok 58 h F Hl Hf Hsp Hmap) as (X & [Xl X1 X2 X3 X4] & Ee). rewrite Hc, Z.eqb_refl in Ee.
  change (trap_entry text clobber _sp h) with (exec (36 + 58) trap_code h). rewrite Ee.
  by apply (trap_switches 6).
Qed.
End Proofs.
