(* ===== verification/RiscvDecode.v ===== *)
(** * Which instructions reach the floating-point trap

    The jump tables of riscv_cpu.c against the formats of the instruction set:
    the handler hands over the floating-point unit for the instructions of the
    extensions F and D, their compressed forms and the accesses to the
    floating-point control and status registers, and panics on all others. *)

From S2P Require Import Prelude Bytes Riscv RiscvProof.

(** ** The formats

    The fields of a 32-bit instruction, and of a compressed one. *)
Definition opcode (insn : Z) : Z := insn mod 2 ^ 7.
Definition funct3 (insn : Z) : Z := insn / 2 ^ 12 mod 2 ^ 3.
Definition csr_field (insn : Z) : Z := insn / 2 ^ 20.
Definition quadrant (insn : Z) : Z := insn mod 2 ^ 2.
Definition cfunct3 (insn : Z) : Z := insn / 2 ^ 13 mod 2 ^ 3.

Definition LOAD_FP : Z := 0x07.
Definition STORE_FP : Z := 0x27.
Definition MADD : Z := 0x43.
Definition MSUB : Z := 0x47.
Definition NMSUB : Z := 0x4b.
Definition NMADD : Z := 0x4f.
Definition OP_FP : Z := 0x53.
Definition SYSTEM : Z := 0x73.

(** The instructions CSRRW, CSRRS, CSRRC and their immediate forms. *)
Definition csr_access (insn : Z) : bool := (opcode insn =? SYSTEM) && bool_decide (funct3 insn ∈ [1; 2; 3; 5; 6; 7]).

Definition fp_insn32 (insn : Z) : bool :=
  bool_decide (opcode insn ∈ [LOAD_FP; STORE_FP; OP_FP; MADD; MSUB; NMSUB; NMADD]) ||
  csr_access insn && bool_decide (csr_field insn ∈ [CSR_FFLAGS; CSR_FRM; CSR_FCSR]).

(** C.FLD, C.FSD, C.FLDSP, C.FSDSP. *)
Definition fp_insn16 (insn : Z) : bool := bool_decide ((quadrant insn, cfunct3 insn) ∈ [(0, 1); (0, 5); (2, 1); (2, 5)]).

(** The instruction at [pc], as 16-bit parcels. *)
Definition fp_insn (text : Z → Z) (pc : Z) : bool :=
  if quadrant (text pc) =? 3 then fp_insn32 (text pc + text (pc + 2) * 2 ^ 16) else fp_insn16 (text pc).

Section Decode.
Context {K : Type} `{!Kern K} (text : Z → Z).
Implicit Types h : hart K.

(** ** Masks as fields *)

Lemma land_shiftl v c lo : 0 ≤ lo → Z.land v (Z.shiftl c lo) = Z.shiftl (Z.land (Z.shiftr v lo) c) lo.
Proof.
  intros Hlo. apply Z.bits_inj'. intros i Hi. rewrite Z.land_spec. destruct (Z.lt_ge_cases i lo) as [Hl|Hl].
  - by rewrite !Z.shiftl_spec_low, andb_false_r.
  - rewrite !Z.shiftl_spec, Z.land_spec, Z.shiftr_spec by lia. do 2 f_equal. lia.
Qed.

(** A mask of two fields. *)
Lemma land_fields v lo n k : 0 ≤ k ≤ lo → 0 ≤ n →
  Z.land v (Z.lor (Z.shiftl (Z.ones n) lo) (Z.ones k)) = v / 2 ^ lo mod 2 ^ n * 2 ^ lo + v mod 2 ^ k.
Proof.
  intros Hk Hn. rewrite Z.land_lor_distr_r, land_shiftl by lia. rewrite !Z.land_ones, Z.shiftr_div_pow2 by lia.
  apply lor_shiftl; [lia|]. unfold uint. pose proof (Z.mod_pos_bound v (2 ^ k)) as Hb.
  assert (2 ^ k ≤ 2 ^ lo) by (apply Z.pow_le_mono_r; lia). pose proof (Z.pow_pos_nonneg 2 k). lia.
Qed.

Lemma land_csr v : Z.land v MASK_CSRRW = funct3 v * 2 ^ 12 + opcode v.
Proof. exact (land_fields v 12 3 7 ltac:(lia) ltac:(lia)). Qed.

Lemma land_cmask v : Z.land v INSNC_MASK = cfunct3 v * 2 ^ 13 + quadrant v.
Proof. exact (land_fields v 13 3 2 ltac:(lia) ltac:(lia)). Qed.

Lemma land_quadrant v : Z.land v INSN_32BIT_MASK = quadrant v.
Proof. exact (Z.land_ones v 2 ltac:(lia)). Qed.

Lemma shiftr_opcode v : Z.shiftr (Z.land v 0x7F) 2 = opcode v / 4.
Proof. change 0x7F with (Z.ones 7). by rewrite Z.land_ones, Z.shiftr_div_pow2. Qed.

Lemma field_bounds v : 0 ≤ opcode v < 128 ∧ 0 ≤ funct3 v < 8 ∧ 0 ≤ cfunct3 v < 8 ∧ 0 ≤ quadrant v < 4.
Proof. unfold opcode, funct3, cfunct3, quadrant. split_and!; apply Z.mod_pos_bound; done. Qed.

(** ** The jump tables *)

(** A comparison with each of several constants. *)
Fixpoint one_of (v : Z) (cs : list Z) : bool := match cs with [] => false | c :: cs => (v =? c) || one_of v cs end.

Lemma one_of_elem v cs : bool_decide (v ∈ cs) = one_of v cs.
Proof.
  induction cs as [|c cs IH]; [done|]. cbn [one_of]. rewrite <- IH. destruct (Z.eqb_spec v c) as [->|Hne]; cbn [orb].
  - apply bool_decide_true. by left.
  - apply bool_decide_ext. rewrite elem_of_cons. naive_solver.
Qed.

Lemma system_decodes insn h : opcode insn = SYSTEM →
  illegal_system_insn_trap insn h = (if fp_insn32 insn then fpu_insn_trap else core_panic) h.
Proof.
  intros Hop. unfold illegal_system_insn_trap, fp_insn32, csr_access. rewrite land_csr, Hop, Z.shiftr_div_pow2 by lia.
  fold (csr_field insn). rewrite !one_of_elem. cbn [one_of]. rewrite !orb_false_r, !orb_assoc.
  destruct (field_bounds insn) as (_ & Hb & _). generalize dependent (funct3 insn). intros v Hb.
  assert (v = 0 ∨ v = 1 ∨ v = 2 ∨ v = 3 ∨ v = 4 ∨ v = 5 ∨ v = 6 ∨ v = 7) as Hv by lia.
  by destruct Hv as [->|[->|[->|[->|[->|[->|[->| ->]]]]]]].
Qed.

Lemma insn32_decodes insn h : quadrant insn = 3 →
  illegal_insn32_jumptable insn h = (if fp_insn32 insn then fpu_insn_trap else core_panic) h.
Proof.
  intros Hq. unfold illegal_insn32_jumptable. rewrite shiftr_opcode.
  assert (opcode insn mod 4 = 3) as Hop.
  { unfold opcode, quadrant in *. rewrite <- Hq. change (2 ^ 2) with 4. apply Z.mod_mod_divide. by exists 32. }
  destruct (field_bounds insn) as (Hb & _). destruct (Z.eqb_spec (opcode insn) SYSTEM) as [Hs|Hs].
  - rewrite Hs. by apply system_decodes.
  - unfold fp_insn32, csr_access. rewrite (proj2 (Z.eqb_neq _ _) Hs), orb_false_r, one_of_elem.
    generalize dependent (opcode insn). intros v Hmod Hb Hs.
    assert (v = 4 * (v / 4) + 3) as Hv by (pose proof (Z.div_mod v 4); lia).
    assert (∀ c, (v =? 4 * c + 3) = (v / 4 =? c)) as Hc.
    { intros c. destruct (Z.eqb_spec (v / 4) c) as [E|E]; [apply Z.eqb_eq|apply Z.eqb_neq]; lia. }
    cbn [one_of]. rewrite (Hc 1 : (v =? LOAD_FP) = _), (Hc 9 : (v =? STORE_FP) = _), (Hc 20 : (v =? OP_FP) = _),
      (Hc 16 : (v =? MADD) = _), (Hc 17 : (v =? MSUB) = _), (Hc 18 : (v =? NMSUB) = _), (Hc 19 : (v =? NMADD) = _).
    rewrite orb_false_r, !orb_assoc. destruct (_ || _); [done|].
    change INSN_SYSTEM_SUFFIX with 28. rewrite <- (Hc 28 : (v =? SYSTEM) = _). by rewrite (proj2 (Z.eqb_neq _ _) Hs).
Qed.

Lemma insn16_decodes insn h : illegal_insn16_jumptable insn h = (if fp_insn16 insn then fpu_insn_trap else core_panic) h.
Proof.
  unfold illegal_insn16_jumptable, fp_insn16. rewrite land_cmask. destruct (field_bounds insn) as (_ & _ & Hc & Hq).
  generalize dependent (cfunct3 insn). intros c Hc. generalize dependent (quadrant insn). intros q Hq.
  assert (c = 0 ∨ c = 1 ∨ c = 2 ∨ c = 3 ∨ c = 4 ∨ c = 5 ∨ c = 6 ∨ c = 7) as Hv by lia.
  assert (q = 0 ∨ q = 1 ∨ q = 2 ∨ q = 3) as Hw by lia.
  by destruct Hv as [->|[->|[->|[->|[->|[->|[->| ->]]]]]]], Hw as [->|[->|[->| ->]]].
Qed.

Lemma quadrant_parcels lo hi : quadrant (lo + hi * 2 ^ 16) = quadrant lo.
Proof. unfold quadrant. replace (lo + hi * 2 ^ 16) with (lo + hi * 2 ^ 14 * 2 ^ 2) by lia. by rewrite Z.mod_add. Qed.

(** The handler of illegal instructions: the instruction at [mepc], aligned to four
    bytes or to two, compressed or not. *)
Theorem handle_illegal_instruction_decodes h : (∀ p, uint 16 (text p)) →
  handle_illegal_instruction text h = (if fp_insn text (mepc h) then fpu_insn_trap else core_panic) h.
Proof.
  intros Ht. unfold handle_illegal_instruction. rewrite (hb_ok _ _ _ (mepc h) h) by done.
  rewrite !land_quadrant, !Z.shiftl_mul_pow2 by lia. rewrite quadrant_parcels.
  assert (u16 (text (mepc h)) = text (mepc h)) as Hu by (apply wrap_small, Ht).
  assert (u16 (text (mepc h) + text (mepc h + 2) * 2 ^ 16) = text (mepc h)) as Hu2.
  { rewrite <- Hu at 2. unfold u16, wrap. apply Z.mod_add. lia. }
  change INSN_32BIT_MASK with 3. unfold fp_insn.
  destruct (quadrant (mepc h) =? 0); destruct (Z.eqb_spec (quadrant (text (mepc h))) 3) as [Hq|Hq].
  - apply insn32_decodes. by rewrite quadrant_parcels.
  - rewrite Hu2. apply insn16_decodes.
  - apply insn32_decodes. by rewrite quadrant_parcels.
  - rewrite Hu. apply insn16_decodes.
Qed.
End Decode.
