(* ===== verification/RiscvContexts.v ===== *)
(** * Every thread has a processor of its own

    An abstract machine in which each thread has its own registers, integer and
    floating-point, and the proof that the hart implements it: the trap handler of
    intr.S with the C functions it calls, saved frames on the stacks of the threads
    and one floating-point unit handed from thread to thread. *)

From S2P Require Import Prelude Riscv RiscvProof RiscvDecode.

(** ** The abstract machine *)

(** What a thread continues with. *)
Record context := Context_ { c_pc : Z; c_sp : Z; c_regs : list Z }.

Record machine (K : Type) := Machine {
  cur : context;
  ctxs : gmap Z context;
  fps : gmap Z (list Z);
  interrupts : bool;
  isrs : list (@external_isr_ptr_t K);
  mkern : K
}.
#[global] Arguments Machine {K}.
#[global] Arguments cur {K}.
#[global] Arguments ctxs {K}.
#[global] Arguments fps {K}.
#[global] Arguments interrupts {K}.
#[global] Arguments isrs {K}.
#[global] Arguments mkern {K}.

Set Default Proof Using "Type".

Section Contexts.
Context {K : Type} `{!Kern K} (text : Z → Z) (clobber : hart K → nat → Z) (_sp : Z).
Abbreviation hart := (hart K).
Abbreviation machine := (machine K).
Implicit Types (h : hart) (m : machine).

Definition set_mkern (k : K) m : machine := Machine (cur m) (ctxs m) (fps m) (interrupts m) (isrs m) k.

(** The thread that runs is suspended, unless it is none; the one the scheduler
    selects continues. *)
Definition switch m : option machine :=
  let cs := if k_active (mkern m) =? 0 then ctxs m else <[k_active (mkern m) := cur m]> (ctxs m) in
  k ← k_sched_run (mkern m);
  c ← cs !! k_active k;
  Some (Machine c (delete (k_active k) cs) (fps m) (interrupts m) (isrs m) k).

(** The service routine of an interrupt. *)
Definition external (isrs : list (@external_isr_ptr_t K)) (k : K) : option K :=
  let '(n, k) := PLIC_claim_interrupt k in
  k ← (if (0 <? n) && (n <? PLIC_NUM_INTERRUPTS) then isr ← aget isrs n; isr n k else Some k);
  Some (PLIC_complete_interrupt n k).

Definition service (cause : Z) (isrs : list (@external_isr_ptr_t K)) (k : K) : option K :=
  if cause =? IRQ_M_TIMER then k_timer_isr k else if cause =? IRQ_M_EXT then external isrs k else None.

(** Behind a service routine: a switch when the kernel has asked for one. *)
Definition afterwards m : option machine := if k_request (mkern m) =? 0 then Some m else switch m.

(** An interrupt with number [cause]. *)
Definition interrupt (cause : Z) m : option machine :=
  if cause =? IRQ_M_SOFT then switch m
  else k ← service cause (isrs m) (mkern m); afterwards (set_mkern k m).

(** The traps the handler returns from, and the value of [mcause]. *)
Inductive trap := Interrupt (cause : Z) | FpInsn.

Definition trap_cause (e : trap) : Z :=
  match e with Interrupt cause => 2 ^ 63 + cause | FpInsn => CAUSE_ILLEGAL_INSTRUCTION end.

(** For the machine, a floating-point instruction is no event at all: each thread
    that has floating-point registers may use them. *)
Definition has_fpu m : bool := negb (k_active (mkern m) =? 0) && bool_decide (is_Some (fps m !! k_active (mkern m))).

Definition trapped (e : trap) m : option machine :=
  match e with
  | Interrupt cause => interrupt cause m
  | FpInsn => if has_fpu m && fp_insn text (c_pc (cur m)) && (k_request (mkern m) =? 0) then Some m else None
  end.

(** ** The layout of memory

    Each address has one use: a place on the stack of a thread, a member of a
    control block, a place in the floating-point context of a thread. *)
Inductive zone := Stack (T : Z) | Slot | Fpu (T : Z) | Elsewhere.
Variable zone_of : Z → zone.

Record fpu_area (h : hart) (T fc : Z) : Prop := {
  fa_context : fpucontext h !! T = Some fc;
  fa_null : fc ≠ 0;
  fa_align : fc mod 8 = 0;
  fa_mapped : mapped (memory h) fc 33;
  fa_zone : ∀ q, among fc 33 q → zone_of q = Fpu T
}.

(** The bits FS and SD of [mstatus]. *)
Definition fs (v : Z) (on : bool) : Prop := Z.land v MSTATUS_FS = (if on then MSTATUS_FS else 0) ∧ Z.land v MSTATUS_SD = 0.

(** A thread with context [c] is suspended. *)
Definition parked (mem : gmap Z Z) (T : Z) (c : context) : Prop :=
  zone_of T = Slot ∧
  ∃ F, suspended mem T F (c_pc c) (c_regs c) ∧ c_sp c = F + CONTEXT_FRAME_SIZE ∧ ∀ q, among F 30 q → zone_of q = Stack T.

(** The hart implements the machine: all but the registers of the running thread. *)
Record implements (m : machine) (h : hart) : Prop := {
  im_kern : kern h = mkern m;
  im_isrs : _ext_isrs h = isrs m;
  im_in_isr : __in_isr h = 0;
  im_active : k_active (mkern m) = 0 ∨
    tcb_ok (memory h) (k_active (mkern m)) ∧ zone_of (k_active (mkern m)) = Slot ∧ ctxs m !! k_active (mkern m) = None;
  im_ctxs : ∀ T c, ctxs m !! T = Some c → parked (memory h) T c;
  im_fs : ∃ on, fs (mstatus h) on ∧
    (on = true → fpu_owner_thread h ≠ 0 ∧ (k_active (mkern m) = fpu_owner_thread h ∨ k_active (mkern m) = 0) ∧
      ctxs m !! fpu_owner_thread h = None);
  im_f : length (f h) = FPU_REGS;
  im_owner : fpu_owner_thread h = 0 ∨ is_Some (fps m !! fpu_owner_thread h);
  im_fps : ∀ T ws, fps m !! T = Some ws → T ≠ 0 ∧ ∃ fc, fpu_area h T fc ∧
    if decide (fpu_owner_thread h = T) then f h = ws else mget (memory h) fc 32 = Some ws
}.

(** The registers of the running thread, the global pointer being [G]. *)
Record continues (c : context) (G : Z) (h : hart) : Prop := {
  co_length : length (x h) = 32%nat;
  co_zero : x h !!! 0%nat = 0;
  co_gp : x h !!! gp = G;
  co_sp : x h !!! sp = c_sp c;
  co_regs : saved (x h) = c_regs c
}.

(** Between traps. *)
Record runs (G : Z) (m : machine) (h : hart) : Prop := {
  ru_implements : implements m h;
  ru_continues : continues (cur m) G h;
  ru_pc : pc h = c_pc (cur m);
  ru_interrupts : Z.testbit (mstatus h) 3 = interrupts m
}.

(** The room for a frame on the current stack, which belongs to the running
    thread, or to no thread that is suspended. *)
Record room (m : machine) (h : hart) (F : Z) : Prop := {
  rm_sp : x h !!! sp = F + CONTEXT_FRAME_SIZE;
  rm_frame : frame_ok F;
  rm_mapped : mapped (memory h) F 30;
  rm_zone : ∃ T, (∀ q, among F 30 q → zone_of q = Stack T) ∧ ctxs m !! T = None ∧
    (k_active (mkern m) = 0 ∨ k_active (mkern m) = T)
}.

(** Arithmetic with division, from the hypotheses on numbers. *)
Ltac divmod := try clear text; try clear clobber; try clear zone_of; Z.div_mod_to_equations; lia.

(** ** The status register *)

Lemma ldiff_land_disjoint a b c : Z.land b c = 0 → Z.land (Z.ldiff a b) c = Z.land a c.
Proof.
  intros Hbc. apply Z.bits_inj'. intros i Hi. apply (f_equal (λ v, Z.testbit v i)) in Hbc.
  rewrite Z.land_spec, Z.bits_0 in Hbc. rewrite !Z.land_spec, Z.ldiff_spec.
  destruct (Z.testbit a i), (Z.testbit b i), (Z.testbit c i); done.
Qed.

Lemma lor_land_disjoint a b c : Z.land b c = 0 → Z.land (Z.lor a b) c = Z.land a c.
Proof. intros Hbc. by rewrite Z.land_lor_distr_l, Hbc, Z.lor_0_r. Qed.

Lemma ldiff_land_within a b c : Z.ldiff c b = 0 → Z.land (Z.ldiff a b) c = 0.
Proof.
  intros Hbc. apply Z.bits_inj'. intros i Hi. apply (f_equal (λ v, Z.testbit v i)) in Hbc.
  rewrite Z.ldiff_spec, Z.bits_0 in Hbc. rewrite !Z.land_spec, Z.ldiff_spec, Z.bits_0.
  destruct (Z.testbit a i), (Z.testbit b i), (Z.testbit c i); done.
Qed.

(** The changes of the other bits. *)
Lemma fs_update a on d : fs a on → Z.land d MSTATUS_FS = 0 → Z.land d MSTATUS_SD = 0 →
  fs (Z.lor (Z.ldiff a (Z.lor MSTATUS_MIE MSTATUS_MPIE)) d) on.
Proof. intros [H1 H2] H3 H4. split; rewrite lor_land_disjoint, ldiff_land_disjoint; done. Qed.

Lemma fs_take_trap h c on : fs (mstatus h) on → fs (mstatus (take_trap c h)) on.
Proof. intros Hf. cbn. apply fs_update; [done|by destruct (_ =? 0)..]. Qed.

Lemma fs_trap_return h on : fs (mstatus h) on → fs (mstatus (trap_return h)) on.
Proof. intros Hf. cbn. apply fs_update; [done|by destruct (_ =? 0)..]. Qed.

Lemma fs_disable a on : fs a on → fs (FS_off a) false.
Proof. intros [H1 H2]. split; [by apply ldiff_land_within|]. unfold FS_off. by rewrite ldiff_land_disjoint. Qed.

Lemma fs_enable a on : fs a on → fs (FS_on a) true.
Proof.
  intros [H1 H2]. unfold FS_on. split.
  - rewrite Z.land_lor_distr_l, Z.land_diag, H1. by destruct on.
  - by rewrite lor_land_disjoint.
Qed.

Lemma FS_off_bit a i : Z.testbit MSTATUS_FS i = false → Z.testbit (FS_off a) i = Z.testbit a i.
Proof. intros Hi. unfold FS_off. rewrite Z.ldiff_spec, Hi. by rewrite andb_true_r. Qed.
Lemma FS_on_bit a i : Z.testbit MSTATUS_FS i = false → Z.testbit (FS_on a) i = Z.testbit a i.
Proof. intros Hi. unfold FS_on. rewrite Z.lor_spec, Hi. by rewrite orb_false_r. Qed.

Lemma land_bit a i : 0 ≤ i → (Z.land a (2 ^ i) =? 0) = negb (Z.testbit a i).
Proof.
  intros Hi. assert (Z.land a (2 ^ i) = if Z.testbit a i then 2 ^ i else 0) as ->.
  { apply Z.bits_inj'. intros j Hj. rewrite Z.land_spec, Z.pow2_bits_eqb by done. destruct (Z.eqb_spec i j) as [<-|Hne].
    - destruct (Z.testbit a i); [by rewrite Z.pow2_bits_true|by rewrite Z.bits_0].
    - rewrite andb_false_r. destruct (Z.testbit a i); [by rewrite Z.pow2_bits_false|by rewrite Z.bits_0]. }
  destruct (Z.testbit a i); [|done]. apply Z.eqb_neq. pose proof (Z.pow_pos_nonneg 2 i). lia.
Qed.

(** The interrupt enable bit is put aside and comes back. *)
Lemma bit_take_trap h c : Z.testbit (mstatus (take_trap c h)) 7 = Z.testbit (mstatus h) 3.
Proof.
  cbn [take_trap mstatus set_mstatus]. change MSTATUS_MIE with (2 ^ 3) at 2. rewrite land_bit by done.
  rewrite Z.lor_spec, Z.ldiff_spec. destruct (Z.testbit (mstatus h) 3); cbn; by rewrite andb_false_r.
Qed.

Lemma bit_trap_return h : Z.testbit (mstatus (trap_return h)) 3 = Z.testbit (mstatus h) 7.
Proof.
  cbn [trap_return mstatus set_mstatus]. change MSTATUS_MPIE with (2 ^ 7) at 3. rewrite land_bit by done.
  rewrite Z.lor_spec, Z.ldiff_spec. destruct (Z.testbit (mstatus h) 7); cbn; by rewrite andb_false_r.
Qed.

Lemma is_dirty h on : fs (mstatus h) on → RV_IS_FPU_DIRTY h = Ok on h.
Proof.
  intros [H1 H2]. unfold RV_IS_FPU_DIRTY, hget, mbind, H_bind, read_mstatus, mret, H_ret. rewrite H1. destruct on; cbn [andb].
  - rewrite Z.eqb_refl. rewrite Z.land_lor_distr_l, Z.land_diag, H2. done.
  - change (0 =? MSTATUS_FS) with false. cbv iota. by rewrite H2.
Qed.

(** ** Changes of memory *)

(** [mem'] differs from [mem] only on the stack of [T] and in control blocks. *)
Record stack_write (T : Z) (mem mem' : gmap Z Z) : Prop := {
  sw_kept : ∀ q, zone_of q ≠ Stack T → zone_of q ≠ Slot → mem' !! q = mem !! q;
  sw_mapped : ∀ q, is_Some (mem !! q) → is_Some (mem' !! q)
}.

Lemma tcb_ok_kept mem mem' T : tcb_ok mem T → (∀ q, is_Some (mem !! q) → is_Some (mem' !! q)) → tcb_ok mem' T.
Proof. intros [H1 H2 H3 H4] Hm. split; auto. Qed.

Lemma mapped_kept mem mem' p n : mapped mem p n → (∀ q, is_Some (mem !! q) → is_Some (mem' !! q)) → mapped mem' p n.
Proof. intros Hp Hm q Hq. by apply Hm, Hp. Qed.

Lemma parked_kept mem mem' T T' c : parked mem T c → T ≠ T' → stack_write T' mem mem' → mem' !! T = mem !! T → parked mem' T c.
Proof.
  intros (Hz & F & [Ht Hs Hf Hp Hr] & Hsp & Hq) Hne [Hk Hm] HT. split; [done|]. exists F. split_and!; [|done|done].
  assert (∀ q, among F 30 q → mem' !! q = mem !! q) as Hsame.
  { intros q Hin. apply Hk; rewrite (Hq q Hin); congruence. }
  split; [by eapply tcb_ok_kept|by rewrite HT|done| |].
  - rewrite Hsame; [done|]. apply among_head.
  - rewrite (mget_ext mem); [done|]. intros q Hin. by apply Hsame, among_tail.
Qed.

Lemma fpu_area_kept h h' T fc : fpu_area h T fc → fpucontext h' = fpucontext h →
  (∀ q, is_Some (memory h !! q) → is_Some (memory h' !! q)) → fpu_area h' T fc.
Proof. intros [H1 H2 H3 H4 H5] Hc Hm. split; [by rewrite Hc|done..|by eapply mapped_kept|done]. Qed.

(** The first 32 words of an area. *)
Lemma fpu_area_among h T fc q : fpu_area h T fc → among fc 32 q → zone_of q = Fpu T.
Proof. intros Ha (i & Hi & ->). apply (fa_zone _ _ _ Ha). exists i. lia. Qed.

Lemma fps_kept h h' T ws owner : fpucontext h' = fpucontext h → f h' = f h → stack_write T (memory h) (memory h') →
  ∀ T', (∃ fc, fpu_area h T' fc ∧ if decide (owner = T') then f h = ws else mget (memory h) fc 32 = Some ws) →
  ∃ fc, fpu_area h' T' fc ∧ if decide (owner = T') then f h' = ws else mget (memory h') fc 32 = Some ws.
Proof.
  intros Hc Hf [Hk Hm] T' (fc & Ha & Hv). exists fc. split; [by eapply fpu_area_kept|].
  destruct (decide _); [by rewrite Hf|]. rewrite (mget_ext (memory h)); [done|]. intros q Hq.
  pose proof (fpu_area_among h T' fc q Ha Hq) as Hz. apply Hk; by rewrite Hz.
Qed.

(** What is not part of the relation may change, and the stack of the thread that runs. *)
Lemma implements_update m h h' T : implements m h → stack_write T (memory h) (memory h') → ctxs m !! T = None →
  (∀ T, is_Some (ctxs m !! T) → memory h' !! T = memory h !! T) →
  kern h' = kern h → _ext_isrs h' = _ext_isrs h → __in_isr h' = __in_isr h → f h' = f h →
  fpu_owner_thread h' = fpu_owner_thread h → fpucontext h' = fpucontext h →
  (∀ on, fs (mstatus h) on → fs (mstatus h') on) → implements m h'.
Proof.
  intros [H1 H2 H3 H4 H5 (on & H6 & H6') H7 H8 H9] Hw HT Hslots Ek Ei Ein Ef Eo Ec Hfs.
  split; rewrite ?Ek, ?Ei, ?Ein, ?Ef, ?Eo; try done.
  - destruct H4 as [?|(? & ? & ?)]; [by left|right]. split_and!; [|done|done]. eapply tcb_ok_kept; [done|apply Hw].
  - intros T' c Hc. eapply parked_kept; [by apply H5| |exact Hw|by apply Hslots]. intros ->. congruence.
  - exists on. split; [by apply Hfs|done].
  - intros T' ws HT'. destruct (H9 T' ws HT') as [Hne Hv]. split; [done|]. rewrite <- Ef. by eapply fps_kept.
Qed.

Lemma stack_write_refl T mem : stack_write T mem mem.
Proof. by split. Qed.

Lemma implements_same m h h' : implements m h → memory h' = memory h → 
  kern h' = kern h → _ext_isrs h' = _ext_isrs h → __in_isr h' = __in_isr h → f h' = f h →
  fpu_owner_thread h' = fpu_owner_thread h → fpucontext h' = fpucontext h →
  (∀ on, fs (mstatus h) on → fs (mstatus h') on) → implements m h'.
Proof.
  intros Hi Em. intros. destruct (exist_fresh (dom (ctxs m))) as [T HT]. apply not_elem_of_dom in HT.
  apply (implements_update m h h' T); try done; [rewrite Em; apply stack_write_refl|by rewrite Em].
Qed.

(** ** Entering *)

Lemma mput_stack_write T F ws mem n : length ws = n → (∀ q, among F (S n) q → zone_of q = Stack T) →
  stack_write T mem (mput mem (F + 8) ws).
Proof.
  intros <- Hq. split; intros q; [|apply mput_is_Some]. intros Hz _. apply mput_other. intros Hin. apply Hz, Hq, among_tail, Hin.
Qed.

Lemma entered_implements m h F c : implements m h → room m h F → implements m (entered F (take_trap c h)).
Proof.
  intros Him [_ Hf Hmap (T & Hz & HT & _)]. assert (∀ X : list Z, length (saved X) = 29%nat) as Hl by done.
  pose proof (mput_stack_write T F (saved (x h)) (memory h) 29 (Hl _) Hz) as Hw.
  apply (implements_update m h _ T); try done; [|intros on; apply fs_take_trap].
  intros T' [c' Hc']. destruct (im_ctxs _ _ Him T' c' Hc') as [HS Hp]. apply (mput_other (memory h)).
  intros Hin. apply among_tail, Hz in Hin. congruence.
Qed.

(** ** The context of the thread that leaves the processor *)

(** In the handler: the frame at [F] holds the registers. *)
Record framed (m : machine) (h : hart) (F : Z) : Prop := {
  fd_mepc : mepc h = c_pc (cur m);
  fd_sp : c_sp (cur m) = F + CONTEXT_FRAME_SIZE;
  fd_frame : frame_ok F;
  fd_mapped : mapped (memory h) F 30;
  fd_regs : mget (memory h) (F + 8) 29 = Some (c_regs (cur m));
  fd_zone : ∃ T, (∀ q, among F 30 q → zone_of q = Stack T) ∧ ctxs m !! T = None ∧
    (k_active (mkern m) = 0 ∨ k_active (mkern m) = T)
}.

(** The suspended threads, the one that leaves included. *)
Definition all_parked (m : machine) : gmap Z context :=
  if k_active (mkern m) =? 0 then ctxs m else <[k_active (mkern m) := cur m]> (ctxs m).

Lemma suspend_lookup mem A F pc q : q ≠ F → (A ≠ 0 → q ≠ A) → suspend_memory mem A F pc !! q = mem !! q.
Proof.
  intros HF HA. unfold suspend_memory, pc_OFFSET, SP_OFFSET_IN_THREAD. rewrite !Z.add_0_r.
  destruct (Z.eqb_spec A 0) as [HA0|HA0]; [by rewrite lookup_insert_ne|].
  rewrite lookup_insert_ne by (intros <-; by apply HA). by rewrite lookup_insert_ne.
Qed.

Lemma suspend_is_Some mem A F pc q : is_Some (mem !! q) → is_Some (suspend_memory mem A F pc !! q).
Proof.
  intros Hq. unfold suspend_memory. destruct (A =? 0); repeat (apply lookup_insert_is_Some'; right); done.
Qed.

Lemma suspend_write m h F T pc : implements m h → (∀ q, among F 30 q → zone_of q = Stack T) →
  stack_write T (memory h) (suspend_memory (memory h) (k_active (mkern m)) F pc).
Proof.
  intros Him Hz. split; [|intros q; apply suspend_is_Some]. intros q HT HS. apply suspend_lookup.
  - intros ->. apply HT, Hz, among_head.
  - intros HA ->. destruct (im_active _ _ Him) as [?|(_ & ? & _)]; done.
Qed.

Lemma suspend_parked m h F : implements m h → framed m h F → ∀ T c, all_parked m !! T = Some c →
  parked (suspend_memory (memory h) (k_active (mkern m)) F (mepc h)) T c.
Proof.
  intros Him [Hpc Hsp Hf Hmap Hregs (Tz & Hz & HTz & HA)] T c Hc. set (mem' := suspend_memory _ _ _ _).
  pose proof (suspend_write m h F Tz (mepc h) Him Hz) as Hw.
  assert (∀ T c, ctxs m !! T = Some c → parked mem' T c) as Hothers.
  { intros T' c' Hc'. pose proof (im_ctxs _ _ Him T' c' Hc') as Hp. eapply parked_kept; [exact Hp| |exact Hw|].
    - intros ->. congruence.
    - apply suspend_lookup; [|intros _ ->].
      + intros ->. destruct Hp as [Hp _]. by rewrite (Hz F (among_head F 29)) in Hp.
      + destruct (im_active _ _ Him) as [E|(_ & _ & E)]; [|congruence].
        destruct Hp as (_ & ? & [[] _ _ _ _] & _). lia. }
  unfold all_parked in Hc. destruct (Z.eqb_spec (k_active (mkern m)) 0) as [HA0|HA0]; [by apply Hothers|].
  destruct (decide (k_active (mkern m) = T)) as [<-|Hne].
  2: { rewrite lookup_insert_ne in Hc by done. by apply Hothers. }
  rewrite lookup_insert_eq in Hc. injection Hc as <-. destruct HA as [?|HA]; [done|]. subst Tz.
  destruct (im_active _ _ Him) as [?|(Ht & HS & _)]; [done|]. split; [done|]. exists F. split_and!; [|done|done].
  assert (∀ q, among F 30 q → q ≠ k_active (mkern m)) as Hne.
  { intros q Hq ->. by rewrite (Hz _ Hq) in HS. }
  split; [eapply tcb_ok_kept; [done|apply Hw]| |done| |].
  - unfold mem', suspend_memory. rewrite (proj2 (Z.eqb_neq _ _) HA0). rewrite Z.add_0_r. apply lookup_insert_eq.
  - unfold mem', suspend_memory. rewrite (proj2 (Z.eqb_neq _ _) HA0). unfold pc_OFFSET, SP_OFFSET_IN_THREAD. rewrite !Z.add_0_r.
    rewrite lookup_insert_ne by (apply not_eq_sym, Hne, (among_head F 29)). rewrite lookup_insert_eq. by f_equal.
  - rewrite (mget_ext (memory h)); [done|]. intros q Hq. apply suspend_lookup; [|intros _; by apply Hne, among_tail].
    intros ->. by eapply among_not_head.
Qed.

(** ** A switch *)

Lemma fs_switched F k pc X h on : fs (mstatus h) on →
  fs (mstatus (switched F k pc X h)) (fpu_owner_thread h =? k_active k).
Proof.
  intros Hon. unfold switched. apply fs_trap_return. cbn [mstatus set_x set_mepc set_mstatus].
  apply fs_disable in Hon. destruct (fpu_owner_thread h =? k_active k); [by eapply fs_enable|done].
Qed.

Lemma switch_implements m m' h F : implements m h → framed m h F → switch m = Some m' →
  ∃ k' F', k_sched_run (kern h) = Some k' ∧
    suspended (suspend_memory (memory h) (k_active (kern h)) F (mepc h)) (k_active k') F' (c_pc (cur m')) (c_regs (cur m')) ∧
    c_sp (cur m') = F' + CONTEXT_FRAME_SIZE ∧ ∀ X, implements m' (switched F k' (c_pc (cur m')) X h).
Proof.
  intros Him Hfd Hsw. pose proof (suspend_parked m h F Him Hfd) as Hall. pose proof (fd_zone _ _ _ Hfd) as (Tz & Hz & _).
  pose proof (suspend_write m h F Tz (mepc h) Him Hz) as Hw. unfold switch in Hsw. fold (all_parked m) in Hsw.
  destruct (k_sched_run (mkern m)) as [k'|] eqn:Hrun; [|done]. cbn [mbind option_bind] in Hsw.
  destruct (all_parked m !! k_active k') as [c|] eqn:Hc; [|done]. cbn [mbind option_bind] in Hsw. injection Hsw as <-.
  destruct (Hall _ _ Hc) as (HS & F' & Hsus & Hsp & Hq). exists k', F'. cbn [cur]. rewrite (im_kern _ _ Him).
  split_and!; [done..|]. intros X. destruct Him as [H1 H2 H3 H4 H5 (on & H6 & H6') H7 H8 H9].
  assert (memory (switched F k' (c_pc c) X h) = suspend_memory (memory h) (k_active (mkern m)) F (mepc h)) as Em.
  { unfold switched. cbn. by rewrite H1. }
  split; rewrite ?Em; cbn [mkern isrs ctxs fps]; try done.
  - right. split_and!; [by apply Hsus|done|apply lookup_delete_eq].
  - intros T c' [Hne Hc']%lookup_delete_Some. by apply Hall.
  - exists (fpu_owner_thread h =? k_active k'). split; [by eapply fs_switched|]. intros Ho%Z.eqb_eq.
    change (fpu_owner_thread (switched F k' (c_pc c) X h)) with (fpu_owner_thread h). rewrite Ho.
    split_and!; [destruct Hsus as [[_ ? _ _] _ _ _ _]; lia|by left|apply lookup_delete_eq].
  - intros T ws HT. destruct (H9 T ws HT) as [Hne Hv]. split; [done|]. rewrite <- Em.
    change (fpu_owner_thread (switched F k' (c_pc c) X h)) with (fpu_owner_thread h).
    eapply fps_kept; [..|exact Hv]; [done..|]. rewrite Em. exact Hw.
Qed.

Lemma switch_interrupts m m' : switch m = Some m' → interrupts m' = interrupts m.
Proof.
  unfold switch. fold (all_parked m). destruct (k_sched_run _) as [k|]; [|done]. cbn.
  destruct (all_parked m !! k_active k); [|done]. by intros [= <-].
Qed.

(** From the end of the C code, or the beginning of the switch, to the thread that continues. *)
Lemma switched_runs G m m' h F F' k' X X0 : (∀ X, implements m' (switched F k' (c_pc (cur m')) X h)) →
  c_sp (cur m') = F' + CONTEXT_FRAME_SIZE → regs_are X X0 (c_regs (cur m')) (F' + CONTEXT_FRAME_SIZE) →
  X0 !!! 0%nat = 0 → X0 !!! gp = G → Z.testbit (mstatus h) 7 = interrupts m → interrupts m' = interrupts m →
  runs G m' (switched F k' (c_pc (cur m')) X h).
Proof.
  intros Him Hsp [R1 R2 R3 R4 R5] HX0 HG Hie Hie'. split; [apply Him| |done|].
  - split; [done| | | |done]; [by change (X !!! 0%nat = 0); rewrite R3|by change (X !!! gp = G); rewrite R4|].
    change (X !!! sp = c_sp (cur m')). by rewrite R5.
  - unfold switched. rewrite bit_trap_return. cbn [mstatus set_x set_mepc set_mstatus]. rewrite Hie', <- Hie.
    destruct (_ =? _); by rewrite ?FS_on_bit, FS_off_bit.
Qed.

(** ** Interrupts *)

Lemma kcall_ok (g : K → option K) k h : g (kern h) = Some k → kcall g h = Ok tt (set_kern k h).
Proof. intros E. unfold kcall, hget, hlift, hmodify, mbind, H_bind. by rewrite E. Qed.

Lemma plic_ok h k : external (_ext_isrs h) (kern h) = Some k → rv_plic_hanlde_isr h = Ok tt (set_kern k h).
Proof.
  unfold external, rv_plic_hanlde_isr, kcall, hget, hmodify, hlift, mbind, H_bind, option_bind, mret, H_ret.
  destruct (PLIC_claim_interrupt (kern h)) as [n k1]. destruct (_ && _).
  - cbn. change (_ext_isrs (set_kern k1 h)) with (_ext_isrs h).
    change (@aget (Z → K → option K) (_ext_isrs h) n) with (@aget (@external_isr_ptr_t K) (_ext_isrs h) n).
    destruct (aget (_ext_isrs h) n) as [isr|]; cbn; [|done].
    change (kern (set_kern k1 h)) with k1. destruct (isr n k1) as [k2|]; cbn; [|done]. by intros [= <-].
  - by intros [= <-].
Qed.

Definition served (on : bool) (k : K) h : hart :=
  set_in_isr 0 (set_mstatus (if on then FS_on (FS_off (mstatus h)) else FS_off (mstatus h)) (set_kern k (set_in_isr 1 h))).

Lemma handle_interrupt_ok cause on k h : fs (mstatus h) on → service cause (_ext_isrs h) (kern h) = Some k →
  handle_trap text (2 ^ 63 + cause) h = Ok tt (served on k h).
Proof.
  intros Hon Hs. assert (cause = IRQ_M_TIMER ∨ cause = IRQ_M_EXT) as Hc.
  { unfold service in Hs. destruct (Z.eqb_spec cause IRQ_M_TIMER); [by left|]. destruct (Z.eqb_spec cause IRQ_M_EXT); [by right|done]. }
  assert (handle_trap text (2 ^ 63 + cause) h = handle_interrupt (2 ^ 63 + cause) h) as -> by (by destruct Hc as [->| ->]).
  unfold handle_interrupt. set (h1 := set_in_isr 1 h).
  assert (RV_IS_FPU_DIRTY h1 = Ok on h1) as Hd by (by apply is_dirty).
  unfold mbind at 1, H_bind. cbn [hmodify]. fold h1. rewrite (hb_ok _ _ _ _ _ Hd).
  set (h2 := set_mstatus (FS_off (mstatus h)) h1).
  assert (RV_FPU_DISABLE h1 = Ok tt h2) as Hdis by done. rewrite (hb_ok _ _ _ _ _ Hdis).
  match goal with |- (?mm ≫= ?g) _ = _ => assert (mm h2 = Ok tt (set_kern k h2)) as Hk end.
  { destruct Hc as [-> | ->].
    - change (k_timer_isr (kern h) = Some k) in Hs. exact (kcall_ok k_timer_isr k h2 Hs).
    - change (external (_ext_isrs h) (kern h) = Some k) in Hs. by apply plic_ok. }
  rewrite (hb_ok _ _ _ _ _ Hk). by destruct on.
Qed.

Lemma served_implements m h k on : implements m h → fs (mstatus h) on → k_active k = k_active (mkern m) →
  implements (set_mkern k m) (served on k h).
Proof.
  intros [H1 H2 H3 H4 H5 (on' & H6 & H6') H7 H8 H9] Hon Hk. split; try done.
  - cbn [mkern set_mkern]. rewrite Hk. done.
  - cbn [mkern set_mkern]. rewrite Hk. exists on'. split; [|done].
    assert (on' = on) as ->. { destruct H6 as [E _], Hon as [E' _]. rewrite E in E'. by destruct on', on. }
    apply fs_disable in H6. cbn. destruct on; [by eapply fs_enable|done].
  - intros T ws HT. destruct (H9 T ws HT) as (Hne & fc & [] & Hv). split; [done|]. by exists fc.
Qed.

(** The state in which the C code runs. *)
Lemma entered_framed m h F c G : room m h F → continues (cur m) G h → pc h = c_pc (cur m) →
  framed m (entered F (take_trap c h)) F.
Proof.
  intros [Hsp Hf Hmap Hz] [_ _ _ Hsp' Hregs] Hpc. assert (length (saved (x h)) = 29%nat) as Hl by done.
  split; try done; [congruence| |].
  - intros q Hq. apply mput_is_Some. by apply Hmap.
  - change (mget (mput (memory h) (F + 8) (saved (x h))) (F + 8) 29 = Some (c_regs (cur m))). rewrite <- Hregs, <- Hl. apply mget_mput.
Qed.

Lemma framed_leaving m h F : implements m h → framed m h F → leaving_ok h F.
Proof.
  intros Him Hfd. split; [|apply (fd_mapped _ _ _ Hfd), (among_head F 29)]. rewrite (im_kern _ _ Him).
  destruct (im_active _ _ Him) as [?|(? & _)]; auto.
Qed.

Lemma room_trap_ok m h F c G : room m h F → continues (cur m) G h → trap_ok (take_trap c h) F.
Proof. by intros [] []. Qed.

Lemma trap_return_implements m h : implements m h → implements m (trap_return h).
Proof. intros Him. apply (implements_same m h); try done. intros on. apply fs_trap_return. Qed.

(** The way out of the handler, the C code having led to [h2], which implements [m2]. *)
Lemma afterwards_ok G m m2 m' h F c h2 : implements m2 h2 → framed m2 h2 F → room m h F → continues (cur m) G h →
  cur m2 = cur m → Z.testbit (mstatus h2) 7 = interrupts m2 → c ≠ IRQ_SW_CAUSE →
  handle_trap text c (entered F (take_trap c h)) = Ok tt h2 → afterwards m2 = Some m' →
  ∃ h', trap_entry text clobber _sp (take_trap c h) = Ok tt h' ∧ runs G m' h'.
Proof.
  intros Him Hfd Hroom Hco Hcur Hie Hc Hh Haft. pose proof (room_trap_ok m h F c G Hroom Hco) as Hok.
  pose proof (handle_trap_x _ _ _ _ Hh) as Hx. change (x h2 = x h) in Hx. unfold afterwards in Haft. rewrite <- (im_kern _ _ Him) in Haft.
  destruct (Z.eqb_spec (k_request (kern h2)) 0) as [Hreq|Hreq].
  - injection Haft as <-. exists (trap_return h2). split.
    + eapply trap_handled; [exact Hok|exact Hc|exact Hh|exact Hreq|]. rewrite (fd_regs _ _ _ Hfd), Hcur. f_equal. symmetry. apply Hco.
    + split; [by apply trap_return_implements|rewrite Hcur; destruct Hco; split; change (x (trap_return h2)) with (x h2); by rewrite Hx|apply Hfd|by rewrite bit_trap_return].
  - destruct (switch_implements m2 m' h2 F Him Hfd Haft) as (k' & F' & Hrun & Hsus & Hsp & Hsw).
    destruct (trap_handled_switch text clobber _sp (take_trap c h) F h2 k' F' _ _ Hok Hc Hh Hreq
      (framed_leaving _ _ _ Him Hfd) Hrun Hsus) as (X & E & Hr).
    eexists. split; [exact E|]. eapply switched_runs; [exact Hsw|exact Hsp|exact Hr|apply Hco|apply Hco|exact Hie|].
    by eapply switch_interrupts.
Qed.

(** An interrupt with cause [cause] in a state that implements the machine leads
    to one that implements the machine after that interrupt. *)
Lemma interrupt_ok G m m' h F cause : runs G m h → room m h F → interrupt cause m = Some m' →
  (∀ k, service cause (isrs m) (mkern m) = Some k → k_active k = k_active (mkern m)) →
  ∃ h', trap_entry text clobber _sp (take_trap (2 ^ 63 + cause) h) = Ok tt h' ∧ runs G m' h'.
Proof.
  intros [Him Hco Hpc Hie] Hroom Hint Hserv. set (c := 2 ^ 63 + cause).
  pose proof (entered_implements m h F c Him Hroom) as Him1. pose proof (entered_framed m h F c G Hroom Hco Hpc) as Hfd.
  pose proof (bit_take_trap h c) as Hbit. rewrite Hie in Hbit. unfold interrupt in Hint. destruct (Z.eqb_spec cause IRQ_M_SOFT) as [->|Hne].
  - destruct (switch_implements m m' _ F Him1 Hfd Hint) as (k' & F' & Hrun & Hsus & Hsp & Hsw).
    destruct (trap_soft text clobber _sp (take_trap c h) F k' F' _ _ (room_trap_ok m h F c G Hroom Hco) eq_refl
      (framed_leaving _ _ _ Him1 Hfd) Hrun Hsus) as (X & E & Hr).
    eexists. split; [exact E|]. eapply switched_runs; [exact Hsw|exact Hsp|exact Hr|apply Hco|apply Hco|exact Hbit|].
    by eapply switch_interrupts.
  - destruct (service cause (isrs m) (mkern m)) as [k|] eqn:Hs; [|done]. cbn in Hint.
    destruct (im_fs _ _ Him1) as (on & Hon & _). specialize (Hserv k eq_refl).
    assert (c ≠ IRQ_SW_CAUSE) as Hc by (unfold c; intros E; apply Hne; change IRQ_SW_CAUSE with (2 ^ 63 + 3) in E; change IRQ_M_SOFT with 3; lia).
    eapply afterwards_ok; [by apply (served_implements m _ k on Him1 Hon)|destruct Hfd; split; try done; cbn [mkern set_mkern ctxs]; by rewrite Hserv|exact Hroom|exact Hco|done| |exact Hc| |exact Hint].
    + cbn [interrupts set_mkern]. rewrite <- Hbit. cbn [mstatus served set_in_isr set_mstatus]. destruct on; by rewrite ?FS_on_bit, FS_off_bit.
    + apply handle_interrupt_ok; [done|]. by rewrite (im_isrs _ _ Him1), (im_kern _ _ Him1).
Qed.

(** ** The floating-point unit changes hands *)

Lemma fstore_ok ws : ∀ p h, p mod 8 = 0 → mapped (memory h) p (length ws) →
  fstore_regs ws p h = Ok tt (set_memory (mput (memory h) p ws) h).
Proof.
  induction ws as [|w ws IH]; intros p h Hp Hm; [by destruct h|]. cbn [fstore_regs mput length] in *.
  apply mapped_cons in Hm as [Hw Hm]. rewrite (hb_ok _ _ _ _ _ (store_ok p w h Hp Hw)).
  rewrite IH; [done|divmod|]. eapply mapped_kept; [exact Hm|].
  intros q Hq. apply lookup_insert_is_Some'. by right.
Qed.

Lemma fload_ok n : ∀ p ws h, p mod 8 = 0 → mget (memory h) p n = Some ws → fload_regs n p h = Ok ws h.
Proof.
  induction n as [|n IH]; intros p ws h Hp Hg; cbn [fload_regs mget] in *; [by injection Hg as <-|].
  destruct (memory h !! p) as [w|] eqn:Hw; [|done]. cbn [mbind option_bind] in Hg. rewrite (load_ok p w) by done.
  destruct (mget (memory h) (p + 8) n) as [ws'|] eqn:E; [|done]. injection Hg as <-.
  rewrite (hb_ok _ _ _ ws' h); [done|]. apply IH; [divmod|done].
Qed.

Lemma load_area_ok {B} h T fc (g : Z → @H K B) : fpu_area h T fc → ∃ v, (load (fc + fcsr_OFFSET) ≫= g) h = g v h.
Proof.
  intros [_ _ Ha Hm _]. destruct (Hm (fc + fcsr_OFFSET)) as [v Hv]; [exists 32; unfold fcsr_OFFSET; lia|].
  exists v. apply load_ok; [|done]. unfold fcsr_OFFSET. divmod.
Qed.

Lemma area_unique h T fc fc' : fpu_area h T fc → fpu_area h T fc' → fc = fc'.
Proof. intros Ha Ha'. pose proof (fa_context _ _ _ Ha). pose proof (fa_context _ _ _ Ha'). congruence. Qed.

(** The part of [fpu_insn_trap] that saves the registers of the owner. *)
Definition save_owner (owner : Z) : @H K unit :=
  if negb (owner =? 0) then
    fpu_owner_ctx ← thread_fpucontext owner;
    hassert (negb (fpu_owner_ctx =? 0));;
    regs ← hget f;
    fstore_regs regs fpu_owner_ctx;;
    load (fpu_owner_ctx + fcsr_OFFSET);;
    mret tt
  else mret tt.

(** [mem'] differs from [mem] only in the floating-point context of [T]. *)
Record fpu_write (T : Z) (mem mem' : gmap Z Z) : Prop := {
  fw_kept : ∀ q, zone_of q ≠ Fpu T → mem' !! q = mem !! q;
  fw_mapped : ∀ q, is_Some (mem !! q) → is_Some (mem' !! q)
}.

Lemma mget_mput_32 mem p ws : length ws = 32%nat → mget (mput mem p ws) p 32 = Some ws.
Proof. intros <-. apply mget_mput. Qed.

Lemma save_owner_ok m h v : implements m h →
  ∃ mem', save_owner (fpu_owner_thread h) (set_mstatus v h) = Ok tt (set_memory mem' (set_mstatus v h)) ∧
  fpu_write (fpu_owner_thread h) (memory h) mem' ∧
  (∀ fc, fpu_owner_thread h ≠ 0 → fpu_area h (fpu_owner_thread h) fc → mget mem' fc 32 = Some (f h)) ∧
  ∀ fc, fpu_area h (fpu_owner_thread h) fc → mem' !! (fc + fcsr_OFFSET) = memory h !! (fc + fcsr_OFFSET).
Proof.
  intros Him. unfold save_owner. set (h1 := set_mstatus v h). set (o := fpu_owner_thread h) in *. destruct (Z.eqb_spec o 0) as [Ho|Ho]; cbn [negb].
  { exists (memory h). split_and!; [by destruct h|by split|done|done]. }
  destruct (im_owner _ _ Him) as [?|[ws Hws]]; [done|]. fold o in Hws. destruct (im_fps _ _ Him _ _ Hws) as (_ & fc & Ha & _).
  assert (thread_fpucontext o h1 = Ok fc h1) as Ec.
  { unfold thread_fpucontext, hget, hlift, mbind, H_bind. change (fpucontext h1) with (fpucontext h). by rewrite (fa_context _ _ _ Ha). }
  rewrite (hb_ok _ _ _ _ _ Ec). rewrite (proj2 (Z.eqb_neq _ _) (fa_null _ _ _ Ha)).
  pose proof (im_f _ _ Him) as Hf. change FPU_REGS with 32%nat in Hf.
  assert (mapped (memory h) fc (length (f h))) as Hmap.
  { rewrite Hf. intros q (i & Hi & ->). apply (fa_mapped _ _ _ Ha). exists i. lia. }
  pose proof (fstore_ok (f h) fc h1 (fa_align _ _ _ Ha) Hmap) as Hst. exists (mput (memory h) fc (f h)).
  split_and!.
  - unfold hassert, hget. cbn [negb]. unfold mbind at 1 2, H_bind. cbn [mret H_ret]. rewrite (hb_ok _ _ _ _ _ Hst).
    match goal with |- (load _ ≫= ?g) ?h' = _ => destruct (load_area_ok h' o fc g) as [w E] end;
      [|etransitivity; [exact E|done]].
    eapply fpu_area_kept; [exact Ha|done|]. intros q. apply mput_is_Some.
  - split; [|intros q; apply mput_is_Some]. intros q Hq. apply mput_other. rewrite Hf. intros Hin. by apply Hq, (fpu_area_among h o fc).
  - intros fc' _ Ha'. rewrite (area_unique h o fc' fc Ha' Ha). by apply mget_mput_32.
  - intros fc' Ha'. rewrite (area_unique h o fc' fc Ha' Ha). apply mput_other. rewrite Hf. intros (i & Hi & Ei).
    unfold fcsr_OFFSET in Ei. lia.
Qed.
Lemma parked_fpu mem mem' T T' c : parked mem T c → fpu_write T' mem mem' → parked mem' T c.
Proof.
  intros (Hz & F & [Ht Hs Hf Hp Hr] & Hsp & Hq) [Hk Hm]. split; [done|]. exists F. split_and!; [|done|done].
  assert (∀ q, among F 30 q → mem' !! q = mem !! q) as Hsame by (intros q Hin; apply Hk; by rewrite (Hq q Hin)).
  split; [by eapply tcb_ok_kept|by rewrite Hk; rewrite ?Hz|done| |].
  - rewrite Hsame; [done|]. apply among_head.
  - rewrite (mget_ext mem); [done|]. intros q Hin. by apply Hsame, among_tail.
Qed.

(** The unit belongs to the running thread, whose registers are in it. *)
Definition owned (T : Z) (mem' : gmap Z Z) (ws : list Z) (v : Z) (h : hart) : hart :=
  set_fcsr v (set_f ws (set_fpu_owner_thread T (set_memory mem' (set_mstatus (FS_on (mstatus h)) h)))).

Lemma owned_implements m h mem' ws v : implements m h → fs (mstatus h) false → k_active (mkern m) ≠ 0 →
  fps m !! k_active (mkern m) = Some ws → fpu_write (fpu_owner_thread h) (memory h) mem' →
  (∀ fc, fpu_owner_thread h ≠ 0 → fpu_area h (fpu_owner_thread h) fc → mget mem' fc 32 = Some (f h)) → length ws = FPU_REGS →
  implements m (owned (k_active (mkern m)) mem' ws v h).
Proof.
  intros [H1 H2 H3 H4 H5 H6 H7 H8 H9] Hoff HA Hws Hw Hsaved Hl. set (T := k_active (mkern m)) in *. split; try done.
  - right. destruct H4 as [?|(? & ? & ?)]; [done|]. split_and!; [|done|done]. eapply tcb_ok_kept; [done|apply Hw].
  - intros T' c Hc. eapply parked_fpu; [by apply H5|exact Hw].
  - exists true. split; [by eapply fs_enable|]. intros _. split_and!; [done|by left|]. by destruct H4 as [?|(_ & _ & ?)].
  - by right; exists ws.
  - intros T' ws' HT'. destruct (H9 _ _ HT') as (Hne & fc & Ha & Hv). split; [done|]. exists fc.
    split; [eapply fpu_area_kept; [exact Ha|done|apply Hw]|].
    change (if decide (T = T') then ws = ws' else mget mem' fc 32 = Some ws').
    destruct (decide (T = T')) as [<-|HneT]; [congruence|]. destruct (decide (fpu_owner_thread h = T')) as [Ho|Ho].
    + subst ws'. rewrite <- Ho in *. by apply Hsaved.
    + rewrite (mget_ext (memory h)); [done|]. intros q Hq. apply Hw. rewrite (fpu_area_among h T' fc q Ha Hq). congruence.
Qed.

Lemma fps_length m h ws : implements m h → fps m !! k_active (mkern m) = Some ws → length ws = FPU_REGS.
Proof.
  intros Him Hws. destruct (im_fps _ _ Him _ _ Hws) as (_ & fc & _ & Hv). destruct (decide _); [subst; apply Him|].
  by apply mget_length in Hv.
Qed.

Lemma fpu_insn_trap_ok m h ws : implements m h → fs (mstatus h) false → k_active (mkern m) ≠ 0 →
  fps m !! k_active (mkern m) = Some ws → ∃ mem' v,
  fpu_insn_trap h = Ok tt (owned (k_active (mkern m)) mem' ws v h) ∧ fpu_write (fpu_owner_thread h) (memory h) mem' ∧
  implements m (owned (k_active (mkern m)) mem' ws v h) ∧
  ∀ fc, fpu_area h (fpu_owner_thread h) fc → mem' !! (fc + fcsr_OFFSET) = memory h !! (fc + fcsr_OFFSET).
Proof.
  intros Him Hoff HA Hws. unfold fpu_insn_trap. rewrite (hb_ok _ _ _ _ _ (is_dirty h false Hoff)). cbv iota.
  destruct (im_fps _ _ Him _ _ Hws) as (_ & fc & Harea & Hval). set (T := k_active (mkern m)) in *.
  assert (hget kern h = Ok (mkern m) h) as Ek by (unfold hget; by rewrite (im_kern _ _ Him)). rewrite (hb_ok _ _ _ _ _ Ek).
  assert (thread_fpucontext T h = Ok fc h) as Ec.
  { unfold thread_fpucontext, hget, hlift, mbind, H_bind. by rewrite (fa_context _ _ _ Harea). }
  fold T. rewrite (hb_ok _ _ _ _ _ Ec).
  assert (hget __in_isr h = Ok 0 h) as Ei by (unfold hget; by rewrite (im_in_isr _ _ Him)). rewrite (hb_ok _ _ _ _ _ Ei).
  rewrite (proj2 (Z.eqb_neq _ _) (fa_null _ _ _ Harea)). cbn [orb negb Z.eqb].
  set (h1 := set_mstatus (FS_on (mstatus h)) h). assert (RV_FPU_ENABLE h = Ok tt h1) as Een by done. rewrite (hb_ok _ _ _ _ _ Een).
  assert (hget fpu_owner_thread h1 = Ok (fpu_owner_thread h) h1) as Eo by done. rewrite (hb_ok _ _ _ _ _ Eo).
  destruct (save_owner_ok m h (FS_on (mstatus h)) Him) as (mem' & Es & Hw & Hsaved & Hfcsr). fold h1 in Es.
  fold (save_owner (fpu_owner_thread h)). rewrite (hb_ok _ _ _ _ _ Es).
  set (h2 := set_memory mem' h1). assert (hget kern h2 = Ok (mkern m) h2) as Ek2.
  { unfold hget. change (kern h2) with (kern h). by rewrite (im_kern _ _ Him). }
  rewrite (hb_ok _ _ _ _ _ Ek2).
  set (h3 := set_fpu_owner_thread T h2).
  assert (hmodify (set_fpu_owner_thread (k_active (mkern m))) h2 = Ok tt h3) as Em by done. rewrite (hb_ok _ _ _ _ _ Em).
  assert (fload_regs FPU_REGS fc h3 = Ok ws h3) as El.
  { apply fload_ok; [apply Harea|]. destruct (decide (fpu_owner_thread h = T)) as [E|E].
    - subst ws. apply Hsaved; rewrite E; [done|exact Harea].
    - change (mget mem' fc 32 = Some ws). rewrite (mget_ext (memory h)); [done|]. intros q Hq. apply Hw.
      rewrite (fpu_area_among h T fc q Harea Hq). congruence. }
  rewrite (hb_ok _ _ _ _ _ El). set (h4 := set_f ws h3).
  assert (hmodify (set_f ws) h3 = Ok tt h4) as E4 by done. rewrite (hb_ok _ _ _ _ _ E4).
  match goal with |- context [(load _ ≫= ?g) _] => destruct (load_area_ok h4 T fc g) as [v Ev] end.
  { eapply fpu_area_kept; [exact Harea|done|apply Hw]. }
  exists mem', (v mod 256). split_and!; [exact Ev|exact Hw| |exact Hfcsr].
  eapply owned_implements; [done..|]. by eapply fps_length.
Qed.

(** The status register of the thread that loses the unit is not saved: its
    context keeps the word it had. *)
Lemma fcsr_not_saved m h ws fc : implements m h → fs (mstatus h) false → k_active (mkern m) ≠ 0 →
  fps m !! k_active (mkern m) = Some ws → fpu_area h (fpu_owner_thread h) fc →
  ∃ h2, fpu_insn_trap h = Ok tt h2 ∧ memory h2 !! (fc + fcsr_OFFSET) = memory h !! (fc + fcsr_OFFSET).
Proof.
  intros Him Hoff HA Hws Ha. destruct (fpu_insn_trap_ok m h ws Him Hoff HA Hws) as (mem' & v & E & _ & _ & Hk).
  eexists. split; [exact E|by apply Hk].
Qed.

Lemma handle_trap_illegal h : handle_trap text CAUSE_ILLEGAL_INSTRUCTION h = handle_illegal_instruction text h.
Proof. done. Qed.

(** A floating-point instruction of the running thread that finds the unit off:
    the handler hands the unit over and the instruction is executed again, on the
    registers of its thread; the machine has not moved. *)
Lemma fp_trap_transparent G m h F ws : runs G m h → room m h F → fs (mstatus h) false → k_active (mkern m) ≠ 0 →
  fps m !! k_active (mkern m) = Some ws → k_request (mkern m) = 0 →
  (∀ p, uint 16 (text p)) → fp_insn text (c_pc (cur m)) = true →
  ∃ h', trap_entry text clobber _sp (take_trap CAUSE_ILLEGAL_INSTRUCTION h) = Ok tt h' ∧ runs G m h' ∧
    fs (mstatus h') true ∧ fpu_owner_thread h' = k_active (mkern m) ∧ f h' = ws.
Proof.
  intros [Him Hco Hpc Hie] Hroom Hoff HA Hws Hreq Htext Hfp. set (c := CAUSE_ILLEGAL_INSTRUCTION).
  pose proof (entered_implements m h F c Him Hroom) as Him1. pose proof (entered_framed m h F c G Hroom Hco Hpc) as Hfd.
  pose proof (bit_take_trap h c) as Hbit. rewrite Hie in Hbit. set (h1 := entered F (take_trap c h)) in *.
  assert (fs (mstatus h1) false) as Hoff1 by (by apply fs_take_trap).
  destruct (fpu_insn_trap_ok m h1 ws Him1 Hoff1 HA Hws) as (mem' & v & Et & Hw & Him2 & _). set (h2 := owned _ _ _ _ _) in *.
  assert (handle_trap text c h1 = Ok tt h2) as Hh.
  { unfold c. rewrite handle_trap_illegal, handle_illegal_instruction_decodes, (fd_mepc _ _ _ Hfd), Hfp by done. exact Et. }
  exists (trap_return h2). pose proof (fd_zone _ _ _ Hfd) as (Tz & Hz & _).
  assert (mget mem' (F + 8) 29 = Some (saved (x h))) as Hg.
  { rewrite (mget_ext (memory h1)); [rewrite (fd_regs _ _ _ Hfd); f_equal; symmetry; apply Hco|].
    intros q Hq%among_tail. apply Hw. by rewrite (Hz q Hq). }
  assert (fs (mstatus (trap_return h2)) true) as Hon by (apply fs_trap_return; by eapply fs_enable).
  split_and!; [|split|done..].
  - apply (trap_handled text clobber _sp (take_trap c h) F h2); [by eapply room_trap_ok|done|exact Hh| |exact Hg].
    by rewrite (im_kern _ _ Him2).
  - by apply trap_return_implements.
  - by destruct Hco; split.
  - apply Hfd.
  - rewrite bit_trap_return, <- Hbit. change (mstatus h2) with (FS_on (mstatus h1)). by rewrite FS_on_bit.
Qed.

(** When a trap happens: service routines do not choose who runs; a floating-point
    instruction traps when the unit is off. *)
Definition trap_allowed (e : trap) m h : Prop :=
  match e with
  | Interrupt cause => ∀ k, service cause (isrs m) (mkern m) = Some k → k_active k = k_active (mkern m)
  | FpInsn => fs (mstatus h) false ∧ ∀ p, uint 16 (text p)
  end.

Lemma trapped_fp m m' : trapped FpInsn m = Some m' → m' = m ∧ k_active (mkern m) ≠ 0 ∧ k_request (mkern m) = 0 ∧
  fp_insn text (c_pc (cur m)) = true ∧ ∃ ws, fps m !! k_active (mkern m) = Some ws.
Proof.
  cbn [trapped]. unfold has_fpu. destruct (Z.eqb_spec (k_active (mkern m)) 0); [done|].
  destruct (fps m !! k_active (mkern m)) as [ws|]; [rewrite bool_decide_true by done|done].
  destruct (fp_insn _ _); [|done]. destruct (Z.eqb_spec (k_request (mkern m)) 0); [|done]. intros [= <-]. eauto 10.
Qed.

(** C7: The hart refines the machine: a trap the machine can take is handled by the
    code to the end, and leaves the hart in a state that implements the machine
    behind the trap. *)
Theorem trap_refines G m m' h F e : runs G m h → room m h F → trap_allowed e m h → trapped e m = Some m' →
  ∃ h', trap_entry text clobber _sp (take_trap (trap_cause e) h) = Ok tt h' ∧ runs G m' h' ∧
    (e = FpInsn → fs (mstatus h') true ∧ fps m !! k_active (mkern m) = Some (f h')).
Proof.
  intros Hr Hroom Hal Htr. destruct e as [cause|].
  - destruct (interrupt_ok G m m' h F cause Hr Hroom Htr Hal) as (h' & E & Hr'). by exists h'.
  - destruct Hal as [Hoff Ht]. apply trapped_fp in Htr as (-> & HA & Hreq & Hfp & ws & Hws).
    destruct (fp_trap_transparent G m h F ws Hr Hroom Hoff HA Hws Hreq Ht Hfp) as (h' & E & Hr' & Hon & _ & Hf).
    exists h'. split_and!; [done..|]. intros _. by rewrite Hf.
Qed.

(** ** Starting a thread *)

(** The registers a thread starts with: its argument, the function to return to. *)
Definition start_regs (arg exit : Z) : list Z := <[12%nat := exit]> (<[21%nat := arg]> (replicate 29 0)).

Definition start_context (task_func arg exit top : Z) : context :=
  Context_ task_func (top + CONTEXT_FRAME_SIZE) (start_regs arg exit).

Lemma mget_intro mem ws : ∀ p, (∀ i w, ws !! i = Some w → mem !! (p + 8 * Z.of_nat i) = Some w) → mget mem p (length ws) = Some ws.
Proof.
  induction ws as [|w ws IH]; intros p Hws; [done|]. cbn [mget length].
  pose proof (Hws 0%nat w eq_refl) as H0. rewrite Z.mul_0_r, Z.add_0_r in H0. rewrite H0. cbn [mbind option_bind].
  rewrite IH; [done|]. intros i w' Hi. rewrite <- (Hws (S i) w' Hi). f_equal. lia.
Qed.

Lemma zero_down_ok n : ∀ p h, p mod 8 = 0 → mapped (memory h) (p - 8 * (Z.of_nat n - 1)) n →
  ∃ mem', zero_down n p h = Ok tt (set_memory mem' h) ∧
    (∀ q, among (p - 8 * (Z.of_nat n - 1)) n q → mem' !! q = Some 0) ∧
    (∀ q, ¬ among (p - 8 * (Z.of_nat n - 1)) n q → mem' !! q = memory h !! q).
Proof.
  induction n as [|n IH]; intros p h Hp Hm.
  { exists (memory h). split_and!; [by destruct h| |done]. intros q (i & Hi & _). lia. }
  assert (is_Some (memory h !! p)) as Hw by (apply Hm; exists (Z.of_nat n); lia).
  cbn [zero_down]. rewrite (hb_ok _ _ _ _ _ (store_ok p 0 h Hp Hw)). set (h1 := set_memory _ h).
  assert (p - 8 - 8 * (Z.of_nat n - 1) = p - 8 * (Z.of_nat (S n) - 1)) as E by lia.
  destruct (IH (p - 8) h1) as (mem' & Er & H0 & H1).
  - divmod.
  - rewrite E. intros q (i & Hi & ->). apply lookup_insert_is_Some'. right. apply Hm. exists i. lia.
  - rewrite E in *. exists mem'. split_and!; [exact Er| |].
    + intros q (i & Hi & ->). destruct (decide (i = Z.of_nat n)) as [->|Hne]; [|apply H0; exists i; lia].
      rewrite H1 by (intros (j & Hj & Ej); lia). replace (p - _ + _) with p by lia. apply lookup_insert_eq.
    + intros q Hq. rewrite H1 by (intros (i & Hi & ->); apply Hq; exists i; lia). apply lookup_insert_ne.
      intros ->. apply Hq. exists (Z.of_nat n). lia.
Qed.

(** A place for a stack: [size] bytes from [start]. *)
Record stack_ok (h : hart) (T start size : Z) : Prop := {
  sk_align : (start + size) mod 8 = 0;
  sk_low : 0 ≤ start;
  sk_high : start + size < 2 ^ 64;
  sk_size : CONTEXT_FRAME_SIZE + 24 ≤ size;
  sk_mapped : ∀ q, q mod 8 = 0 → start ≤ q < start + size → is_Some (memory h !! q) ∧ zone_of q = Stack T
}.

Lemma align_16 v : uint 64 v → Z.land v (u64 (Z.lnot 0xf)) = v / 16 * 16.
Proof.
  intros Hv. change (u64 (Z.lnot 0xf)) with (Z.shiftl (Z.ones 60) 4). rewrite land_shiftl, Z.land_ones, Z.shiftr_div_pow2, Z.shiftl_mul_pow2 by lia.
  f_equal. apply Z.mod_small. unfold uint in Hv. change (2 ^ 64) with (2 ^ 60 * 16) in Hv. change (2 ^ 4) with 16. divmod.
Qed.

(** The stack a thread starts with. *)
Record initial_stack (mem mem' : gmap Z Z) (start size top task_func arg exit : Z) : Prop := {
  is_align : top mod 16 = 0;
  is_inside : start ≤ top ∧ top + CONTEXT_FRAME_SIZE < start + size;
  is_pc : mem' !! top = Some task_func;
  is_regs : mget mem' (top + 8) 29 = Some (start_regs arg exit);
  is_kept : ∀ q, ¬ (q mod 8 = 0 ∧ start ≤ q < start + size) → mem' !! q = mem !! q;
  is_mapped : ∀ q, is_Some (mem !! q) → is_Some (mem' !! q)
}.

(** The last three stores of [thread_stack_init]. *)
Definition with_entry (mem : gmap Z Z) (top task_func arg exit : Z) : gmap Z Z :=
  <[top + reg_OFFSET 12 := exit]> (<[top + reg_OFFSET 21 := arg]> (<[top + pc_OFFSET := task_func]> mem)).

Lemma with_entry_regs mem top task_func arg exit : (∀ q, among (top + 8) 29 q → mem !! q = Some 0) →
  with_entry mem top task_func arg exit !! top = Some task_func ∧
  mget (with_entry mem top task_func arg exit) (top + 8) 29 = Some (start_regs arg exit).
Proof.
  intros H0. assert (∀ q, q ≠ top + 104 → q ≠ top + 176 → q ≠ top → with_entry mem top task_func arg exit !! q = mem !! q) as Hoth.
  { intros q H1 H2 H3. unfold with_entry. change (reg_OFFSET 12) with 104. change (reg_OFFSET 21) with 176. change pc_OFFSET with 0.
    by rewrite !lookup_insert_ne by lia. }
  assert (with_entry mem top task_func arg exit !! (top + 104) = Some exit) as He by apply lookup_insert_eq.
  assert (with_entry mem top task_func arg exit !! (top + 176) = Some arg) as Ha.
  { unfold with_entry. rewrite lookup_insert_ne by (change (reg_OFFSET 12) with 104; lia). apply lookup_insert_eq. }
  split.
  - unfold with_entry. change (reg_OFFSET 12) with 104. change (reg_OFFSET 21) with 176. change pc_OFFSET with 0.
    rewrite !lookup_insert_ne, Z.add_0_r by lia. apply lookup_insert_eq.
  - change 29%nat with (length (start_regs arg exit)). apply mget_intro. intros i w Hi.
    assert (i < 29)%nat as Hlt by (apply lookup_lt_Some in Hi; exact Hi). unfold start_regs in Hi.
    destruct (decide (i = 12%nat)) as [->|H12]; [injection Hi as <-; by rewrite <- He; f_equal; lia|].
    destruct (decide (i = 21%nat)) as [->|H21]; [injection Hi as <-; by rewrite <- Ha; f_equal; lia|].
    rewrite !list_lookup_insert_ne in Hi by lia. apply lookup_replicate in Hi as [-> _].
    rewrite Hoth by lia. apply H0. exists (Z.of_nat i). lia.
Qed.

Lemma thread_stack_init_ok h T start size task_func arg exit : stack_ok h T start size →
  ∃ top mem', thread_stack_init exit task_func arg start size h = Ok top (set_memory mem' h) ∧
    initial_stack (memory h) mem' start size top task_func arg exit.
Proof.
  intros [Ha Hlow Hhigh Hsize Hmap]. unfold thread_stack_init. change CONTEXT_FRAME_SIZE with 240 in *.
  rewrite (wrap_small 64 (start + size)) by (unfold uint; lia). set (e := start + size - 8).
  assert (e mod 8 = 0) as He by (unfold e; divmod).
  assert (u64 e = e) as -> by (apply wrap_small; unfold uint; lia).
  rewrite align_16 by (unfold uint; lia). set (top := e / 16 * 16 - 240).
  assert (e - 8 ≤ top + 240 ≤ e ∧ top mod 16 = 0) as [Hb Htop] by (unfold top; divmod).
  assert (u64 top = top) as -> by (apply wrap_small; unfold uint; lia).
  assert (is_Some (memory h !! e)) as Hme by (apply Hmap; [done|lia]). rewrite (hb_ok _ _ _ _ _ (store_ok e STACK_MARKER h He Hme)).
  set (h1 := set_memory _ h). assert (mapped (memory h1) top 30) as Hm1.
  { intros q (i & Hi & ->). apply lookup_insert_is_Some'. right. apply Hmap; [divmod|lia]. }
  destruct (zero_down_ok 29 (top + a7_OFFSET) h1) as (mem1 & Ez & H0 & H1).
  { unfold a7_OFFSET. divmod. }
  { intros q (i & Hi & ->). apply Hm1. exists (i + 1). unfold a7_OFFSET. lia. }
  replace (top + a7_OFFSET - 8 * (Z.of_nat 29 - 1)) with (top + 8) in H0, H1 by (unfold a7_OFFSET; lia).
  change (length frame_regs) with 29%nat. rewrite (hb_ok _ _ _ _ _ Ez). set (h2 := set_memory mem1 h1).
  assert (∀ q, is_Some (memory h !! q) → is_Some (mem1 !! q)) as Hmono.
  { intros q Hq. destruct (decide (among (top + 8) 29 q)) as [Hin|Hin]; [by rewrite H0|]. rewrite H1 by done.
    apply lookup_insert_is_Some'. by right. }
  assert (∀ h' k v, 0 ≤ k < 30 → (∀ q, is_Some (mem1 !! q) → is_Some (memory h' !! q)) →
    store (top + 8 * k) v h' = Ok tt (set_memory (<[top + 8 * k := v]> (memory h')) h')) as Hst.
  { intros h' k v Hk Hm. apply store_ok; [divmod|]. apply Hm, Hmono, Hmap; [divmod|lia]. }
  change (top + pc_OFFSET) with (top + 8 * 0). change (top + reg_OFFSET 21) with (top + 8 * 22). change (top + reg_OFFSET 12) with (top + 8 * 13).
  rewrite (hb_ok _ _ _ _ _ (Hst h2 0 task_func ltac:(lia) ltac:(done))).
  assert (∀ q (mem : gmap Z Z) p v, is_Some (mem !! q) → is_Some (<[p := v]> mem !! q)) as Hins.
  { intros. apply lookup_insert_is_Some'. by right. }
  erewrite hb_ok by (apply Hst; [lia|intros q Hq; apply Hins, Hq]).
  erewrite hb_ok by (apply Hst; [lia|intros q Hq; apply Hins, Hins, Hq]).
  exists top, (with_entry mem1 top task_func arg exit). split; [done|].
  destruct (with_entry_regs mem1 top task_func arg exit H0) as [Hpc Hregs].
  split; [done|unfold CONTEXT_FRAME_SIZE, a7_OFFSET; lia|done|done| |].
  - intros q Hq. unfold with_entry. change (reg_OFFSET 12) with 104. change (reg_OFFSET 21) with 176. change pc_OFFSET with 0.
    rewrite !lookup_insert_ne by (intros <-; apply Hq; clear -Htop Hb Hsize Hlow; split; [divmod|lia]).
    rewrite H1 by (intros (i & Hi & ->); apply Hq; clear -Htop Hb Hsize Hlow Hi; split; [divmod|lia]).
    apply lookup_insert_ne. intros <-. apply Hq. split; [done|lia].
  - intros q Hq. by apply Hins, Hins, Hins, Hmono.
Qed.

(** The floating-point registers of the machine. *)
Definition set_fps (v : gmap Z (list Z)) (m : machine) : machine := Machine (cur m) (ctxs m) v (interrupts m) (isrs m) (mkern m).

Definition add_thread (T : Z) (c : context) (m : machine) : machine :=
  Machine (cur m) (<[T := c]> (ctxs m)) (fps m) (interrupts m) (isrs m) (mkern m).

Lemma add_thread_implements m h T c : implements m h → parked (memory h) T c → k_active (mkern m) ≠ T →
  fpu_owner_thread h ≠ T → implements (add_thread T c m) h.
Proof.
  intros [H1 H2 H3 H4 H5 (on & H6 & H6') H7 H8 H9] Hp HT Ho. split; try done.
  - destruct H4 as [?|(? & ? & ?)]; [by left|right]. split_and!; [done|done|]. cbn. by rewrite lookup_insert_ne.
  - intros T' c' Hc. cbn [ctxs add_thread] in Hc. apply lookup_insert_Some in Hc as [[<- <-]|[Hne Hc]]; [done|by apply H5].
  - exists on. split; [done|]. intros Hon. destruct (H6' Hon) as (? & ? & ?). split_and!; [done..|]. cbn. by rewrite lookup_insert_ne.
Qed.

(** Nothing is known of the registers of [T] any more. *)
Lemma forget_fps m h T : implements m h → fpu_owner_thread h ≠ T → implements (set_fps (delete T (fps m)) m) h.
Proof.
  intros [H1 H2 H3 H4 H5 H6 H7 H8 H9] Ho. split; try done.
  - destruct H8 as [?|?]; [by left|right]. cbn [fps set_fps]. by rewrite lookup_delete_ne.
  - intros T' ws. cbn [fps set_fps]. intros [Hne HT]%lookup_delete_Some. by apply H9.
Qed.

(** The unit is taken from its owner, which will not run again. *)
Lemma disown m h : implements m h → fs (mstatus h) false →
  implements (set_fps (delete (fpu_owner_thread h) (fps m)) m) (set_fpu_owner_thread 0 h).
Proof.
  intros [H1 H2 H3 H4 H5 (on & H6 & H6') H7 H8 H9] Hoff. split; try done.
  - exists false. split; [done|]. done.
  - by left.
  - intros T ws. cbn [fps set_fps]. intros [Hne HT]%lookup_delete_Some. destruct (H9 T ws HT) as (HT0 & fc & [] & Hv). split; [done|].
    exists fc. split; [done|]. rewrite decide_False in Hv by done. by rewrite decide_False.
Qed.

(** A context that belongs to no thread yet is written and given to [T]. *)
Lemma fresh_context m h h' T : implements m h → fps m !! T = None → fpu_write T (memory h) (memory h') →
  (∀ T', T' ≠ T → fpucontext h' !! T' = fpucontext h !! T') →
  kern h' = kern h → _ext_isrs h' = _ext_isrs h → __in_isr h' = __in_isr h → f h' = f h →
  fpu_owner_thread h' = fpu_owner_thread h → mstatus h' = mstatus h → implements m h'.
Proof.
  intros [H1 H2 H3 H4 H5 H6 H7 H8 H9] HT Hw Hc Ek Ei Ein Ef Eo Em. pose proof Hw as [Hk Hm].
  split; rewrite ?Ek, ?Ei, ?Ein, ?Ef, ?Eo, ?Em; try done.
  - destruct H4 as [?|(? & ? & ?)]; [by left|right]. split_and!; [by eapply tcb_ok_kept|done|done].
  - intros T' c Hc'. eapply parked_fpu; [by apply H5|done].
  - intros T' ws HT'. destruct (H9 T' ws HT') as (Hne & fc & Ha & Hv). split; [done|].
    assert (T' ≠ T) as HneT by congruence. exists fc. split.
    + destruct Ha as [A1 A2 A3 A4 A5]. split; [by rewrite Hc|done|done|by eapply mapped_kept|done].
    + destruct (decide _); [done|]. rewrite (mget_ext (memory h)); [done|]. intros q Hq. apply Hk.
      rewrite (fpu_area_among h T' fc q Ha Hq). congruence.
Qed.

Lemma know_fps m h T fc ws : implements m h → T ≠ 0 → fpu_owner_thread h ≠ T → fpu_area h T fc →
  mget (memory h) fc 32 = Some ws → implements (set_fps (<[T := ws]> (fps m)) m) h.
Proof.
  intros [H1 H2 H3 H4 H5 H6 H7 H8 H9] HT Ho Ha Hg. split; try done.
  - destruct H8 as [?|?]; [by left|right]. cbn [fps set_fps]. by rewrite lookup_insert_ne.
  - intros T' ws' HT'. cbn [fps set_fps] in HT'. apply lookup_insert_Some in HT' as [[<- <-]|[Hne HT']]; [|by apply H9].
    split; [done|]. exists fc. by rewrite decide_False.
Qed.

Lemma mget_prefix mem p n k ws : mget mem p (n + k) = Some ws → mget mem p n = Some (take n ws).
Proof.
  revert p ws. induction n as [|n IH]; intros p ws Hg; [done|]. cbn [mget Nat.add] in *.
  destruct (mem !! p) as [w|]; [|done]. cbn in *. destruct (mget mem (p + 8) (n + k)) as [ws'|] eqn:E; [|done].
  injection Hg as <-. by rewrite (IH _ _ E).
Qed.

Lemma zero_words_ok n : ∀ p h, p mod 8 = 0 → mapped (memory h) p n →
  zero_words n p h = Ok tt (set_memory (mput (memory h) p (replicate n 0)) h).
Proof.
  induction n as [|n IH]; intros p h Hp Hm; [by destruct h|]. cbn [zero_words mput replicate].
  apply mapped_cons in Hm as [Hw Hm]. rewrite (hb_ok _ _ _ _ _ (store_ok p 0 h Hp Hw)).
  rewrite IH; [done|divmod|]. eapply mapped_kept; [exact Hm|].
  intros q Hq. apply lookup_insert_is_Some'. by right.
Qed.
(** The thread [T] is new: it has a control block, room for its floating-point
    registers if it is to have any, and a pid no running thread has. *)
Record new_thread (m : machine) (h : hart) (T pid fc : Z) : Prop := {
  nt_tcb : tcb_ok (memory h) T;
  nt_slot : zone_of T = Slot;
  nt_ctxs : ctxs m !! T = None;
  nt_active : k_active (mkern m) ≠ T;
  nt_owner : fpu_owner_thread h ≠ 0 → ∃ p, thread_pid h !! fpu_owner_thread h = Some p ∧
    (p = pid ∨ fpu_owner_thread h = T → fs (mstatus h) false);
  nt_fpu : fc = 0 ∨ fc mod 8 = 0 ∧ mapped (memory h) fc 33 ∧ ∀ q, among fc 33 q → zone_of q = Fpu T
}.

(** The owner of the unit that loses it to the new thread: an exited one with its
    pid, or with the same control block. *)
Definition loses_fpu (h : hart) (T pid : Z) : Z :=
  if bool_decide (<[T := pid]> (thread_pid h) !! fpu_owner_thread h = Some pid) then fpu_owner_thread h else 0.

(** The machine with the new thread, whose floating-point registers are zero. *)
Definition start_thread (gone T : Z) (c : context) (fc : Z) (m : machine) : machine :=
  add_thread T c (set_fps (let v := delete gone (fps m) in if fc =? 0 then delete T v else <[T := replicate 32 0]> v) m).

(** Filling the stack and storing the stack pointer. *)
Lemma start_stack_ok m h T start size task_func arg exit : implements m h → tcb_ok (memory h) T → zone_of T = Slot →
  ctxs m !! T = None → stack_ok h T start size →
  ∃ top mem', thread_stack_init exit task_func arg start size h = Ok top (set_memory mem' h) ∧
    is_Some (mem' !! T) ∧ top mod 16 = 0 ∧
    let h' := set_memory (<[T := top]> mem') h in
    implements m h' ∧ parked (memory h') T (start_context task_func arg exit top) ∧
    stack_write T (memory h) (memory h').
Proof.
  intros Him Ht HS Hnone Hsk.
  destruct (thread_stack_init_ok h T start size task_func arg exit Hsk) as (top & mem' & E & [Ha Hin Hpc Hregs Hk Hm]).
  exists top, mem'. split_and!; [exact E|apply Hm, Ht|exact Ha|].
  assert (stack_write T (memory h) (<[T := top]> mem')) as Hw.
  { split; [|intros q Hq; apply lookup_insert_is_Some'; right; by apply Hm]. intros q Hz Hs.
    rewrite lookup_insert_ne by congruence. apply Hk. intros [Hq8 Hq]. by apply Hz, (sk_mapped _ _ _ _ Hsk). }
  assert (∀ q, among top 30 q → q mod 8 = 0 ∧ start ≤ q < start + size) as Hframe.
  { intros q (i & Hi & ->). unfold CONTEXT_FRAME_SIZE, a7_OFFSET in Hin. split; [divmod|lia]. }
  assert (∀ q, among top 30 q → zone_of q = Stack T) as Hz by (intros q Hq; apply (sk_mapped _ _ _ _ Hsk); by apply Hframe).
  assert (∀ q, among top 30 q → <[T := top]> mem' !! q = mem' !! q) as Hsame.
  { intros q Hq. apply lookup_insert_ne. intros <-. apply Hz in Hq. congruence. }
  split_and!; [| |exact Hw].
  - apply (implements_update m h _ T); try done. intros T' HT'. destruct HT' as [c Hc].
    destruct (im_ctxs _ _ Him T' c Hc) as [HS' _]. cbn. rewrite lookup_insert_ne by congruence. apply Hk. intros [Hq8 Hq].
    destruct (sk_mapped _ _ _ _ Hsk T' Hq8 Hq) as [_ Hbad]. congruence.
  - split; [done|]. exists top. split_and!; [|done|exact Hz]. pose proof (sk_high _ _ _ _ Hsk). pose proof (sk_low _ _ _ _ Hsk). split.
    + eapply tcb_ok_kept; [done|apply Hw].
    + apply lookup_insert_eq.
    + split; [divmod|lia|lia].
    + etransitivity; [apply Hsame, (among_head top 29)|exact Hpc].
    + etransitivity; [|exact Hregs]. apply mget_ext. intros q Hq. by apply Hsame, among_tail.
Qed.

(** The floating-point part. *)
Definition fpu_part (T pid fc : Z) : @H K unit :=
  thread_fpu_context_init fc pid;; hmodify (λ h, set_fpucontext (<[T := fc]> (fpucontext h)) h).

Lemma disown_ok m h T pid : implements m h → T ≠ 0 → thread_pid h !! T = Some pid →
  (fpu_owner_thread h ≠ 0 → ∃ p, thread_pid h !! fpu_owner_thread h = Some p ∧ (p = pid → fs (mstatus h) false)) →
  let gone := if bool_decide (thread_pid h !! fpu_owner_thread h = Some pid) then fpu_owner_thread h else 0 in
  ∃ o, (if negb (fpu_owner_thread h =? 0) then
     pids ← hget thread_pid;
     p ← hlift (pids !! fpu_owner_thread h);
     if p =? pid then hmodify (set_fpu_owner_thread 0) else mret tt
   else mret tt) h = Ok tt (set_fpu_owner_thread o h) ∧ o ≠ T ∧
   implements (set_fps (delete gone (fps m)) m) (set_fpu_owner_thread o h).
Proof.
  intros Him HT0 HT Hown gone.
  assert (implements (set_fps (delete 0 (fps m)) m) h) as Him0.
  { rewrite delete_id; [by destruct m|]. destruct (fps m !! 0) as [ws|] eqn:E; [|done]. by destruct (im_fps _ _ Him 0 ws E). }
  assert (set_fpu_owner_thread (fpu_owner_thread h) h = h) as Eself by (by destruct h).
  destruct (Z.eqb_spec (fpu_owner_thread h) 0) as [Ho|Ho]; cbn [negb].
  - exists 0. rewrite Ho in Eself. rewrite Eself. split_and!; [done|done|].
    assert (gone = 0) as -> by (unfold gone; rewrite Ho; case_bool_decide; done). done.
  - destruct (Hown Ho) as (p & Hp & Hoff). unfold gone. rewrite Hp. unfold hget, hlift, mbind, H_bind. rewrite Hp.
    destruct (Z.eqb_spec p pid) as [->|Hne].
    + exists 0. rewrite bool_decide_true by done. split_and!; [done|done|]. apply disown; auto.
    + exists (fpu_owner_thread h). rewrite bool_decide_false by (intros [= ->]; done). rewrite Eself. split_and!; [done|congruence|done].
Qed.

Lemma fpu_part_ok m h T pid fc : implements m h → T ≠ 0 → thread_pid h !! T = Some pid →
  (fpu_owner_thread h ≠ 0 → ∃ p, thread_pid h !! fpu_owner_thread h = Some p ∧ (p = pid → fs (mstatus h) false)) →
  (fc = 0 ∨ fc mod 8 = 0 ∧ mapped (memory h) fc 33 ∧ ∀ q, among fc 33 q → zone_of q = Fpu T) →
  let gone := if bool_decide (thread_pid h !! fpu_owner_thread h = Some pid) then fpu_owner_thread h else 0 in
  ∃ h', fpu_part T pid fc h = Ok tt h' ∧ fpu_owner_thread h' ≠ T ∧ fpu_write T (memory h) (memory h') ∧
    implements (set_fps (let v := delete gone (fps m) in if fc =? 0 then delete T v else <[T := replicate 32 0]> v) m) h'.
Proof.
  intros Him HT0 HT Hown Hfc gone. destruct (disown_ok m h T pid Him HT0 HT Hown) as (o & E & Ho & Him1). fold gone in Him1.
  unfold fpu_part, thread_fpu_context_init. rewrite hb_assoc.
  rewrite (hb_ok (hget fpu_owner_thread) _ h (fpu_owner_thread h) h) by done. rewrite hb_assoc, (hb_ok _ _ _ _ _ E).
  set (h1 := set_fpu_owner_thread o h) in *. set (v := delete gone (fps m)) in *.
  assert (implements (set_fps (delete T v) m) h1) as Him2 by (by apply (forget_fps _ h1 T Him1)).
  set (h2 := set_fpucontext (<[T := fc]> (fpucontext h1)) : hart → hart).
  assert (∀ T', T' ≠ T → <[T := fc]> (fpucontext h1) !! T' = fpucontext h1 !! T') as Hctx by (intros T' HT'; by apply lookup_insert_ne).
  destruct (Z.eqb_spec fc 0) as [Hfc0|Hfc0]; cbn [negb].
  - exists (h2 h1). split_and!; [done|exact Ho|by split|].
    apply (fresh_context (set_fps (delete T v) m) h1 (h2 h1) T); try done; first [apply lookup_delete_eq|by split].
  - destruct Hfc as [?|(Ha & Hmap & Hz)]; [done|].
    rewrite (hb_ok _ _ _ _ _ (zero_words_ok (S FPU_REGS) fc h1 Ha Hmap)). set (mem' := mput (memory h1) fc _).
    assert (fpu_write T (memory h) mem') as Hw.
    { split; [|intros q; apply mput_is_Some]. intros q Hq. apply mput_other. intros Hin. by apply Hq, Hz. }
    exists (h2 (set_memory mem' h1)). split_and!; [done|exact Ho|exact Hw|].
    assert (implements (set_fps (delete T v) m) (h2 (set_memory mem' h1))) as Him3.
    { apply (fresh_context _ h1 _ T); try done. apply lookup_delete_eq. }
    pose proof (know_fps _ _ T fc (replicate 32 0) Him3 HT0 Ho) as Hk. cbn [fps set_fps] in Hk. rewrite insert_delete_eq in Hk.
    apply Hk.
    + split; [apply lookup_insert_eq|done|done| |done]. intros q Hq. apply mput_is_Some, Hmap, Hq.
    + apply (mget_prefix mem' fc 32 1 (replicate 33 0)). apply (mget_mput (memory h1) fc (replicate 33 0)).
Qed.

(** C10: Creating a thread: behind the part of [thread_create_with_fp] that concerns
    the hart, the machine has the new thread; it will start at its function, with
    its argument, a stack pointer aligned to 16 bytes, [sched_task_exit] to return
    to, and floating-point registers that are zero. *)
Theorem thread_create_refines m h T pid fc start size function arg exit : implements m h → new_thread m h T pid fc →
  stack_ok h T start size →
  ∃ top h', thread_create_context exit T pid start size fc function arg h = Ok tt h' ∧ top mod 16 = 0 ∧
    implements (start_thread (loses_fpu h T pid) T (start_context function arg exit top) fc m) h'.
Proof.
  intros Him [Ht HS Hnone Hact Hown Hfc] Hsk. set (h1 := set_thread_pid (<[T := pid]> (thread_pid h)) h).
  assert (implements m h1) as Him1.
  { destruct Him as [H1 H2 H3 H4 H5 H6 H7 H8 H9]. split; try done. intros T' ws HT'. destruct (H9 T' ws HT') as (? & fc' & [] & ?).
    split; [done|]. by exists fc'. }
  assert (stack_ok h1 T start size) as Hsk1 by (by destruct Hsk). 
  destruct (start_stack_ok m h1 T start size function arg exit Him1 Ht HS Hnone Hsk1) as (top & mem' & E & HT & Ha & Him2 & Hp & Hw).
  set (h2 := set_memory (<[T := top]> mem') h1) in *. assert (T ≠ 0) as HT0 by (destruct Ht; lia).
  destruct (fpu_part_ok m h2 T pid fc Him2 HT0) as (h3 & E3 & Ho3 & Hw3 & Him3).
  - apply lookup_insert_eq.
  - intros Hne. destruct (Hown Hne) as (p & Hp' & Hoff). change (fpu_owner_thread h2) with (fpu_owner_thread h).
    change (thread_pid h2) with (<[T := pid]> (thread_pid h)). destruct (decide (T = fpu_owner_thread h)) as [ET|HneT].
    + exists pid. split; [rewrite <- ET; apply lookup_insert_eq|]. intros _. apply Hoff. by right.
    + exists p. split; [by rewrite lookup_insert_ne|]. intros Hpid. apply Hoff. by left.
  - destruct Hfc as [?|(H1 & H2 & H3)]; [by left|right]. split_and!; [done| |done]. eapply mapped_kept; [exact H2|apply Hw].
  - exists top, h3. split_and!; [|exact Ha|].
    + unfold thread_create_context. rewrite (hb_ok (hmodify _) _ h tt h1) by done. rewrite (hb_ok _ _ _ _ _ E).
      unfold SP_OFFSET_IN_THREAD. rewrite Z.add_0_r.
      rewrite (hb_ok _ _ _ _ _ (store_ok T top (set_memory mem' h1) (tcb_align _ _ Ht) HT)). exact E3.
    + apply add_thread_implements; [exact Him3|eapply parked_fpu; [exact Hp|exact Hw3]|exact Hact|exact Ho3].
Qed.

(** ** Executions

    What the running thread does between two traps: it changes its registers, its
    stack and memory of no use to the handler, its floating-point registers when
    the unit is on, and the state of the kernel; it may leave the processor for
    good ([sched_task_exit]). *)
Record thread_moves (m : machine) (h : hart) (m' : machine) (h' : hart) : Prop := {
  tm_length : length (x h') = 32%nat;
  tm_zero : x h' !!! 0%nat = 0;
  tm_gp : x h' !!! gp = x h !!! gp;
  tm_fs : ∀ on, fs (mstatus h) on → fs (mstatus h') on;
  tm_memory : ∃ T, (k_active (mkern m) = 0 ∨ k_active (mkern m) = T) ∧ ctxs m !! T = None ∧
    (∀ q, zone_of q ≠ Stack T → zone_of q ≠ Elsewhere → memory h' !! q = memory h !! q) ∧
    (∀ q, is_Some (memory h !! q) → is_Some (memory h' !! q));
  tm_isrs : _ext_isrs h' = _ext_isrs h;
  tm_in_isr : __in_isr h' = 0;
  tm_owner : fpu_owner_thread h' = fpu_owner_thread h;
  tm_fpucontext : fpucontext h' = fpucontext h;
  tm_active : k_active (kern h') = k_active (kern h) ∨ k_active (kern h') = 0;
  tm_f : length (f h') = FPU_REGS ∧ (f h' = f h ∨ fs (mstatus h) true);
  tm_machine : m' = Machine (Context_ (pc h') (x h' !!! sp) (saved (x h'))) (ctxs m)
    (if decide (f h' = f h) then fps m else <[fpu_owner_thread h := f h']> (fps m))
    (Z.testbit (mstatus h') 3) (isrs m) (kern h')
}.

Inductive step : machine * hart → machine * hart → Prop :=
  | step_thread m h m' h' : thread_moves m h m' h' → step (m, h) (m', h')
  | step_trap m h m' h' F e :
      room m h F → trap_allowed e m h → trapped e m = Some m' →
      trap_entry text clobber _sp (take_trap (trap_cause e) h) = Ok tt h' → step (m, h) (m', h').

Lemma parked_elsewhere mem mem' T T' c : parked mem T c → T ≠ T' →
  (∀ q, zone_of q ≠ Stack T' → zone_of q ≠ Elsewhere → mem' !! q = mem !! q) →
  (∀ q, is_Some (mem !! q) → is_Some (mem' !! q)) → parked mem' T c.
Proof.
  intros (Hz & F & [Ht Hs Hf Hp Hr] & Hsp & Hq) Hne Hk Hm. split; [done|]. exists F. split_and!; [|done|done].
  assert (∀ q, among F 30 q → mem' !! q = mem !! q) as Hsame.
  { intros q Hin. apply Hk; rewrite (Hq q Hin); congruence. }
  split; [by eapply tcb_ok_kept|by rewrite Hk; rewrite ?Hz|done| |].
  - rewrite Hsame; [done|]. apply among_head.
  - rewrite (mget_ext mem); [done|]. intros q Hin. by apply Hsame, among_tail.
Qed.

(** The floating-point registers of the threads when the running one computes. *)
Lemma fps_moves m h h' : implements m h → fpu_owner_thread h' = fpu_owner_thread h → fpucontext h' = fpucontext h →
  (∀ q, (∃ T, zone_of q = Fpu T) → memory h' !! q = memory h !! q) → (∀ q, is_Some (memory h !! q) → is_Some (memory h' !! q)) →
  let fps' := if decide (f h' = f h) then fps m else <[fpu_owner_thread h := f h']> (fps m) in
  (f h' = f h ∨ fpu_owner_thread h ≠ 0) →
  (fpu_owner_thread h' = 0 ∨ is_Some (fps' !! fpu_owner_thread h')) ∧
  ∀ T ws, fps' !! T = Some ws → T ≠ 0 ∧ ∃ fc, fpu_area h' T fc ∧
    if decide (fpu_owner_thread h' = T) then f h' = ws else mget (memory h') fc 32 = Some ws.
Proof.
  intros Him Eo Ec Hk Hm fps' Hf. rewrite Eo. set (o := fpu_owner_thread h) in *.
  assert (∀ T ws, fps m !! T = Some ws → T ≠ 0 ∧ ∃ fc, fpu_area h' T fc ∧ (o ≠ T → mget (memory h') fc 32 = Some ws)) as Hold.
  { intros T ws HT. destruct (im_fps _ _ Him T ws HT) as (Hne & fc & Ha & Hv). fold o in Hv. split; [done|]. exists fc.
    split; [by eapply fpu_area_kept|]. intros HoT. rewrite decide_False in Hv by done. rewrite (mget_ext (memory h)); [done|].
    intros q Hq. apply Hk. exists T. by eapply fpu_area_among. }
  pose proof (im_owner _ _ Him) as Ho. fold o in Ho. unfold fps'. destruct (decide (f h' = f h)) as [Ef|Ef].
  - split; [done|]. intros T ws HT. destruct (Hold T ws HT) as (Hne & fc & Ha & Hv). split; [done|]. exists fc. split; [done|].
    destruct (decide (o = T)) as [<-|HoT]; [|by apply Hv].
    destruct (im_fps _ _ Him o ws HT) as (_ & fc' & _ & Hv'). fold o in Hv'. rewrite decide_True in Hv' by done. congruence.
  - destruct Hf as [?|Hne0]; [done|]. destruct Ho as [?|[ws0 Hws0]]; [done|].
    split; [right; exists (f h'); apply lookup_insert_eq|]. intros T ws HT.
    apply lookup_insert_Some in HT as [[<- <-]|[HoT HT]].
    + destruct (Hold _ _ Hws0) as (Hne & fc & Ha & _). split; [done|]. exists fc. by rewrite decide_True.
    + destruct (Hold _ _ HT) as (Hne & fc & Ha & Hv). split; [done|]. exists fc. split; [done|].
      rewrite decide_False by done. by apply Hv.
Qed.

Lemma thread_moves_runs G m h m' h' : runs G m h → thread_moves m h m' h' → runs G m' h'.
Proof.
  intros [Him [? ? Hgp ? ?] Hpc Hie] Hmv. pose proof Him as [H1 H2 H3 H4 H5 (on & H6 & H6') H7 H8 H9].
  destruct Hmv as [M1 M2 M3 M4 (T & MT & MT0 & Mk & Mm) M5 M6 M7 M8 M9 [M10 M11] ->].
  assert (k_active (kern h') = 0 ∨ k_active (kern h') = k_active (mkern m)) as Hact by (rewrite <- H1; destruct M9 as [E|E]; [by right|by left]).
  assert (f h' = f h ∨ fpu_owner_thread h ≠ 0) as Hf.
  { destruct M11 as [?|Hon]; [by left|right]. apply H6'. destruct H6 as [E _], Hon as [E' _]. rewrite E in E'. by destruct on. }
  destruct (fps_moves m h h' Him M7 M8) as [Hfo Hfps]; [|done|done|].
  { intros q [T' Hq]. apply Mk; congruence. }
  split; [|split; try done; congruence|done|done]. split; cbn [mkern isrs ctxs fps]; try done; [congruence|..].
  - destruct Hact as [?|E]; [by left|]. rewrite E. destruct H4 as [?|(Ht & Hz & Hn)]; [by left|right].
    split_and!; [by eapply tcb_ok_kept|done|done].
  - intros T' c Hc. eapply parked_elsewhere; [by apply H5| |exact Mk|exact Mm]. intros ->. congruence.
  - exists on. split; [by apply M4|]. intros Hon. destruct (H6' Hon) as (Hne & Ho & Hoc). rewrite M7. split_and!; [done| |done].
    destruct Hact as [?|E]; [by right|]. by rewrite E.
Qed.

(** Every state of an execution implements the machine. *)
Lemma step_runs G s s' : step s s' → runs G s.1 s.2 → runs G s'.1 s'.2.
Proof.
  intros Hst. destruct Hst as [m h m' h' Hmv|m h m' h' F e Hroom Hal Htr Htrap]; cbn [fst snd]; intros Hr.
  - by eapply thread_moves_runs.
  - destruct e as [cause|].
    + destruct (interrupt_ok G m m' h F cause Hr Hroom Htr Hal) as (h2 & E & Hr'). unfold trap_cause in Htrap. rewrite Htrap in E.
      by injection E as ->.
    + destruct Hal as [Hoff Ht]. apply trapped_fp in Htr as (-> & HA & Hreq & Hfp & ws & Hws).
      destruct (fp_trap_transparent G m h F ws Hr Hroom Hoff HA Hws Hreq Ht Hfp) as (h2 & E & Hr' & _).
      unfold trap_cause in Htrap. rewrite Htrap in E. by injection E as ->.
Qed.

Lemma steps_run G s s' : rtc step s s' → runs G s.1 s.2 → runs G s'.1 s'.2.
Proof. induction 1; eauto using step_runs. Qed.

(** A thread that is suspended. *)
Lemma parked_nonzero m h T c : implements m h → ctxs m !! T = Some c → T ≠ 0 ∧ k_active (mkern m) ≠ T.
Proof.
  intros Him Hc. destruct (im_ctxs _ _ Him T c Hc) as (_ & F & [[_ ? _ _] _ _ _ _] & _). split; [lia|]. intros E.
  destruct (im_active _ _ Him) as [?|(_ & _ & ?)]; [lia|congruence].
Qed.

Lemma switch_kept m m' T c : switch m = Some m' → ctxs m !! T = Some c → k_active (mkern m) ≠ T → fps m' = fps m ∧
  if decide (k_active (mkern m') = T) then cur m' = c else ctxs m' !! T = Some c.
Proof.
  intros Hsw Hc Hne. unfold switch in Hsw. fold (all_parked m) in Hsw. destruct (k_sched_run (mkern m)) as [k'|]; [|done].
  cbn in Hsw. destruct (all_parked m !! k_active k') as [c'|] eqn:Hc'; [|done]. injection Hsw as <-. split; [done|].
  assert (all_parked m !! T = Some c) as HT.
  { unfold all_parked. destruct (_ =? 0); [done|]. by rewrite lookup_insert_ne. }
  cbn [mkern cur ctxs]. destruct (decide (k_active k' = T)) as [E|HneT]; [congruence|]. by rewrite lookup_delete_ne.
Qed.

(** One step: what a suspended thread will continue with stays, and when the step
    takes the thread up again, it continues with that. *)
Lemma step_kept G m h m' h' T c : runs G m h → step (m, h) (m', h') → ctxs m !! T = Some c →
  fps m' !! T = fps m !! T ∧ if decide (k_active (mkern m') = T) then cur m' = c else ctxs m' !! T = Some c.
Proof.
  intros Hr Hst Hc. destruct (parked_nonzero m h T c (ru_implements _ _ _ Hr) Hc) as [HT0 HTA].
  inversion Hst as [m1 h1 m2 h2 Hmv|m1 h1 m2 h2 F e Hroom Hk Hint Htrap]; subst; [|destruct e as [cause|]].
  - pose proof (ru_implements _ _ _ Hr) as Him. destruct Hmv as [_ _ _ _ _ _ _ _ _ Hact [_ Hf] ->]. cbn [mkern ctxs fps cur].
    split.
    + destruct (decide (f h' = f h)) as [|Ef]; [done|]. destruct Hf as [?|Hon]; [done|].
      destruct (im_fs _ _ Him) as (on & Hon' & Ho). assert (on = true) as ->.
      { destruct Hon as [E _], Hon' as [E' _]. rewrite E in E'. by destruct on. }
      destruct (Ho eq_refl) as (_ & _ & Hn). apply lookup_insert_ne. congruence.
    + rewrite decide_False; [done|]. rewrite <- (im_kern _ _ Him) in HTA. destruct Hact as [E|E]; congruence.
  - cbn [trapped trap_allowed] in *. unfold interrupt in Hint. destruct (cause =? IRQ_M_SOFT).
    + destruct (switch_kept _ _ T c Hint Hc HTA) as [-> Hk']. done.
    + destruct (service cause (isrs m) (mkern m)) as [k|] eqn:Es; [|done]. cbn in Hint. specialize (Hk k eq_refl).
      unfold afterwards in Hint. destruct (_ =? 0).
      * injection Hint as <-. split; [done|]. cbn [mkern set_mkern ctxs]. rewrite Hk. by rewrite decide_False.
      * destruct (switch_kept (set_mkern k m) m' T c Hint) as [-> Hk']; [done|cbn; congruence|done].
  - apply trapped_fp in Hint as [-> _]. split; [done|]. by rewrite decide_False.
Qed.

(** Steps during which [T] does not run. *)
Definition step_without (T : Z) (s s' : machine * hart) : Prop := step s s' ∧ k_active (mkern s'.1) ≠ T.

Lemma steps_without_kept G T c s s' : rtc (step_without T) s s' → runs G s.1 s.2 → ctxs s.1 !! T = Some c →
  runs G s'.1 s'.2 ∧ ctxs s'.1 !! T = Some c ∧ fps s'.1 !! T = fps s.1 !! T.
Proof.
  induction 1 as [s|s1 s2 s3 [Hst Hne] _ IH]; [done|]. intros Hr Hc. destruct s1 as [m1 h1], s2 as [m2 h2].
  pose proof (step_runs G _ _ Hst Hr) as Hr2. destruct (step_kept G _ _ _ _ T c Hr Hst Hc) as [Hf Hk].
  rewrite decide_False in Hk by done. destruct (IH Hr2 Hk) as (? & ? & Hf'). split_and!; [done..|]. cbn [fst] in *. by rewrite Hf'.
Qed.

(** C8: However long a thread has been suspended and whatever ran in between: when it
    runs again, it continues at its program counter, with its registers, and its
    floating-point registers are those it had. *)
Theorem thread_resumes G m h m1 h1 m2 h2 T c : runs G m h → ctxs m !! T = Some c →
  rtc (step_without T) (m, h) (m1, h1) → step (m1, h1) (m2, h2) → k_active (kern h2) = T →
  pc h2 = c_pc c ∧ x h2 !!! sp = c_sp c ∧ saved (x h2) = c_regs c ∧ fps m2 !! T = fps m !! T.
Proof.
  intros Hr Hc Hsteps Hst HT. destruct (steps_without_kept G T c _ _ Hsteps Hr Hc) as (Hr1 & Hc1 & Hf1). cbn [fst snd] in *.
  pose proof (step_runs G _ _ Hst Hr1) as Hr2. cbn [fst snd] in Hr2. destruct (step_kept G _ _ _ _ T c Hr1 Hst Hc1) as [Hf2 Hk].
  rewrite (im_kern _ _ (ru_implements _ _ _ Hr2)) in HT. rewrite decide_True in Hk by done.
  destruct Hr2 as [_ [_ _ _ Hsp Hregs] Hpc _]. subst c. split_and!; [done..|congruence].
Qed.
End Contexts.
