(* ===== verification/RiscvKernel.v ===== *)
(** * The scheduler on the hart

    The kernel of [Kernel] and [Sched] as the callee of the assembly code: the
    software interrupt lets the best runnable thread continue where it was
    suspended.  The theorems about the hart at a concrete system. *)

From S2P Require Import Prelude Cib LinkedList Clist Kernel Sched KernelInv SchedProps ThreadCalls ThreadCreate System Demo Riscv RiscvProof RiscvDecode RiscvContexts.

Section RiscvKernel.
(** The service routine of the timer and the interrupt controller. *)
Variable timer_isr : kernel → option kernel.
Variable claim : kernel → Z * kernel.
Variable complete : Z → kernel → kernel.

#[local] Instance kernel_Kern : Kern kernel := {|
  k_active := sched_active_thread;
  k_request := sched_context_switch_request;
  k_sched_run s := match sched_run s with Done s' _ => Some s' | _ => None end;
  k_timer_isr := timer_isr;
  PLIC_claim_interrupt := claim;
  PLIC_complete_interrupt := complete
|}.

Variable text : Z → Z.
Variable clobber : hart kernel → nat → Z.
Variable _sp : Z.
Variable zone_of : Z → zone.

(** C9: The software interrupt with the kernel in a consistent state in which some
    thread is runnable, and every runnable thread has a context: the thread at the
    head of the first queue that is not empty runs, with its own context. *)
Theorem soft_interrupt_runs_best G (m : machine kernel) (h : hart kernel) F Q :
  runs zone_of G m h → room zone_of m h F → kinv (mkern m) Q → (∃ t, runnable (mkern m) t) →
  (∀ t, runnable (mkern m) t → t = sched_active_thread (mkern m) ∨ is_Some (ctxs m !! t)) →
  ∃ p t h' m', next_ready Q p t ∧
    trap_entry text clobber _sp (take_trap (2 ^ 63 + IRQ_M_SOFT) h) = Ok tt h' ∧ runs zone_of G m' h' ∧
    sched_active_thread (kern h') = t ∧
    (if decide (t = sched_active_thread (mkern m)) then cur m' = cur m else ctxs m !! t = Some (cur m')).
Proof.
  intros Hr Hroom Hk (t0 & th0 & Ht0 & Hon0) Hctx.
  destruct (kinv_next_ready (mkern m) Q Hk) as (p & t & Hlsb & Hnext); [by exists t0, th0|].
  destruct (sched_run_ok (mkern m) Q p t Hk Hlsb Hnext) as (th & Ht & _ & Hon & Hrun & _).
  destruct (ki_thread _ _ Hk _ _ Ht) as (Hne & _).
  set (act := sched_active_thread (mkern m)) in *.
  assert (∃ k', k_sched_run (mkern m) = Some k' ∧ sched_active_thread k' = t) as (k' & Hk' & Hact).
  { cbn. rewrite Hrun. destruct (decide (act = t)) as [E|E]; eexists; (split; [reflexivity|]); [exact E|reflexivity]. }
  assert (∃ c, all_parked m !! t = Some c ∧ if decide (t = act) then c = cur m else ctxs m !! t = Some c) as (c & Hc & Hcase).
  { unfold all_parked. change (k_active (mkern m)) with act. destruct (decide (t = act)) as [E|E].
    - exists (cur m). split; [|done]. rewrite <- E. rewrite (proj2 (Z.eqb_neq _ _) Hne). apply lookup_insert_eq.
    - destruct (Hctx t) as [?|[c Hc]]; [by exists th|done|]. exists c. split; [|done].
      destruct (act =? 0); [done|]. by rewrite lookup_insert_ne. }
  set (m' := Machine c (delete t (all_parked m)) (fps m) (interrupts m) (isrs m) k').
  assert (interrupt IRQ_M_SOFT m = Some m') as Hint.
  { unfold interrupt. cbn [Z.eqb IRQ_M_SOFT]. unfold switch. fold (all_parked m). rewrite Hk'. cbn [mbind option_bind].
    change (k_active k') with (sched_active_thread k'). rewrite Hact, Hc. done. }
  destruct (interrupt_ok text clobber _sp zone_of G m m' h F IRQ_M_SOFT Hr Hroom Hint) as (h' & E & Hr'); [done|].
  exists p, t, h', m'. split_and!; [done|exact E|exact Hr'| |by destruct (decide (t = act))].
  rewrite (im_kern _ _ _ (ru_implements _ _ _ _ Hr')). exact Hact.
Qed.
End RiscvKernel.

(** ** A concrete system

    The image of [Demo]: the main thread has put itself to sleep, the idle thread
    is suspended.  The main thread has a floating-point context. *)

Module Image.

Definition asleep : kernel := match sched_set_status demo_main STATUS_SLEEPING demo with Done s _ => s | _ => demo end.

#[local] Instance Kern_demo : Kern kernel := kernel_Kern Some (λ k, (0, k)) (λ _ k, k).

(** [fld ft0, 0(a0)] at 9000. *)
Definition text (p : Z) : Z := if p =? 9000 then 0x3007 else if p =? 9002 then 0x5 else 0x13.
Definition clobber (h : hart kernel) (r : nat) : Z := 77.
Definition _sp : Z := 60000.
Definition new : Z := 50000.

Definition zone_of (p : Z) : zone :=
  if (p =? demo_idle) || (p =? demo_main) || (p =? new) then Slot
  else if (10000 <=? p) && (p <? 11000) then Stack demo_idle
  else if (20000 <=? p) && (p <? 21000) then Stack demo_main
  else if (30000 <=? p) && (p <? 31000) then Fpu demo_main
  else if (40000 <=? p) && (p <? 41000) then Stack new
  else if (45000 <=? p) && (p <? 46000) then Fpu new
  else Elsewhere.

Definition region (p : Z) (ws : list Z) : list (Z * Z) := imap (λ i w, (p + 8 * Z.of_nat i, w)) ws.

Definition idle_regs : list Z := seqZ 100 29.
Definition main_fp : list Z := seqZ 1 32.

Definition words : gmap Z Z := list_to_map
  ([(demo_idle, 10000); (demo_main, 0); (new, 0)] ++ region 10000 (7000 :: idle_regs) ++ region 20000 (replicate 30 0) ++
   region 30000 (main_fp ++ [0]) ++ region 40000 (replicate 64 0) ++ region 45000 (replicate 33 5)).

Definition registers : list Z := <[2%nat := 20240]> (seqZ 0 32).

Definition state (k : kernel) : hart kernel :=
  Hart registers 9000 0 0 0x1808 0x888 1 (replicate 32 7) 0 words 0 0 {[demo_main := 30000; demo_idle := 0]}
    {[demo_main := 2; demo_idle := 1]} (replicate 52 null_isr) k.

Definition idle_context : context := Context_ 7000 10240 idle_regs.
Definition main_context : context := Context_ 9000 20240 (saved registers).

Definition machine (k : kernel) : RiscvContexts.machine kernel :=
  Machine main_context {[demo_idle := idle_context]} {[demo_main := main_fp]} true (replicate 52 null_isr) k.

#[export] Instance zone_eq_dec : EqDecision zone.
Proof. solve_decision. Defined.

(** The addresses of the words of an area, and what holds of all of them. *)
Definition addresses (p : Z) (n : nat) : list Z := (λ i, p + 8 * Z.of_nat i) <$> seq 0 n.

Lemma among_all (P : Z → Prop) `{∀ q, Decision (P q)} p n : forallb (λ q, bool_decide (P q)) (addresses p n) = true →
  ∀ q, among p n q → P q.
Proof.
  intros Hall q (i & Hi & ->). rewrite forallb_forall in Hall. apply (bool_decide_eq_true (P _)), Hall.
  apply list_elem_of_In, list_elem_of_fmap. exists (Z.to_nat i). split; [lia|].
  apply elem_of_seq. lia.
Qed.

Ltac by_words := match goal with |- ∀ q, among ?p ?n q → @?P q => apply (among_all P p n) end; vm_compute; reflexivity.

Lemma idle_parked : parked zone_of words demo_idle idle_context.
Proof.
  split; [done|]. exists 10000. split_and!; [|done|by_words]. split; [split; try done; by eexists|done|done|done|].
  vm_compute. reflexivity.
Qed.

Lemma main_area k : fpu_area zone_of (state k) demo_main 30000.
Proof. split; [done|done|done|unfold mapped; by_words|by_words]. Qed.

Lemma image_runs k : sched_active_thread k = demo_main → runs zone_of 3 (machine k) (state k).
Proof.
  intros Hk. split; [|split; done|done|done]. split; try done.
  - right. cbn [mkern machine]. change (k_active k) with (sched_active_thread k). rewrite Hk.
    split_and!; [split; try done; by eexists|done|by vm_compute].
  - intros T c Hc. cbn [ctxs machine] in Hc. apply lookup_singleton_Some in Hc as [<- <-]. exact idle_parked.
  - exists false. split; [by split|done].
  - by left.
  - intros T ws HT. cbn [fps machine] in HT. apply lookup_singleton_Some in HT as [<- <-]. split; [done|].
    exists 30000. split; [apply main_area|]. rewrite decide_False by done. vm_compute. reflexivity.
Qed.

Lemma image_room k : sched_active_thread k = demo_main → room zone_of (machine k) (state k) 20000.
Proof.
  intros Hk. split; [done|done|unfold mapped; by_words|]. exists demo_main. split_and!; [by_words|by vm_compute|by right].
Qed.

Lemma asleep_active : sched_active_thread asleep = demo_main.
Proof. vm_compute. reflexivity. Qed.

Lemma text_parcels p : uint 16 (text p).
Proof. unfold text. destruct (p =? 9000), (p =? 9002); split; done. Qed.

(** The instruction at 9000 loads a floating-point register: the trap gives the
    main thread its registers. *)
Lemma trap_refines_witness : ∃ h', trap_entry text clobber _sp (take_trap CAUSE_ILLEGAL_INSTRUCTION (state demo)) = Ok tt h' ∧
  pc h' = 9000 ∧ f h' = main_fp.
Proof.
  assert (trapped text FpInsn (machine demo) = Some (machine demo)) as Ht.
  { unfold trapped. assert (has_fpu (machine demo) && fp_insn text (c_pc (cur (machine demo))) &&
      (k_request (mkern (machine demo)) =? 0) = true) as -> by (vm_compute; reflexivity). reflexivity. }
  destruct (trap_refines text clobber _sp zone_of 3 (machine demo) (machine demo) (state demo) 20000 FpInsn
    (image_runs demo demo_active) (image_room demo demo_active)) as (h' & E & Hr & Hf).
  - split; [by split|exact text_parcels].
  - exact Ht.
  - exists h'. split; [exact E|]. split; [exact (ru_pc _ _ _ _ Hr)|]. destruct (Hf eq_refl) as [_ Hws].
    assert (fps (machine demo) !! k_active (mkern (machine demo)) = Some main_fp) as Hm by (vm_compute; reflexivity).
    rewrite Hm in Hws. by injection Hws as <-.
Defined.

(** The main thread computes on, then the software interrupt lets the idle thread continue. *)
Definition registers1 : list Z := <[10%nat := 4242]> registers.
Definition state1 (k : kernel) : hart kernel := set_x registers1 (state k).
Definition machine1 (k : kernel) : RiscvContexts.machine kernel :=
  Machine (Context_ 9000 20240 (saved registers1)) {[demo_idle := idle_context]} {[demo_main := main_fp]} true (replicate 52 null_isr) k.

Lemma moves1 k : sched_active_thread k = demo_main → thread_moves zone_of (machine k) (state k) (machine1 k) (state1 k).
Proof.
  intros Hk. split; try done.
  - exists demo_main. split_and!; [by right|by vm_compute|done|done].
  - by left.
  - split; [done|by left].
Qed.

Lemma room1 k : sched_active_thread k = demo_main → room zone_of (machine1 k) (state1 k) 20000.
Proof. intros Hk. by destruct (image_room k Hk). Qed.

Definition machine2 (k : kernel) : RiscvContexts.machine kernel :=
  Machine idle_context (delete demo_idle (<[demo_main := Context_ 9000 20240 (saved registers1)]> {[demo_idle := idle_context]}))
    {[demo_main := main_fp]} true (replicate 52 null_isr) k.

Lemma interrupt1 k k' : sched_active_thread k = demo_main → sched_run k = Done k' 1 → sched_active_thread k' = demo_idle →
  interrupt IRQ_M_SOFT (machine1 k) = Some (machine2 k').
Proof.
  intros Hk Hrun Hk'. unfold interrupt. cbn [Z.eqb IRQ_M_SOFT]. unfold switch.
  change (k_active (mkern (machine1 k))) with (sched_active_thread k). rewrite Hk. change (demo_main =? 0) with false. cbv iota.
  assert (k_sched_run (mkern (machine1 k)) = Some k') as -> by (cbn; by rewrite Hrun).
  cbn [mbind option_bind]. change (k_active k') with (sched_active_thread k'). rewrite Hk'.
  rewrite lookup_insert_ne by done. cbn [ctxs machine1]. by rewrite lookup_singleton_eq.
Qed.

(** The scheduler chooses the idle thread. *)
Lemma asleep_switches : ∃ k', sched_run asleep = Done k' 1 ∧ sched_active_thread k' = demo_idle.
Proof.
  assert (match sched_run asleep with Done k' r => (r =? 1) && (sched_active_thread k' =? demo_idle) | _ => false end = true) as Hrun
    by (vm_compute; reflexivity).
  destruct (sched_run asleep) as [|k' r|]; [done| |done]. apply andb_prop in Hrun as [Hr Ha]. apply Z.eqb_eq in Hr, Ha.
  subst r. by exists k'.
Qed.

Lemma thread_resumes_witness : ∃ h2, trap_entry text clobber _sp (take_trap (2 ^ 63 + IRQ_M_SOFT) (state1 asleep)) = Ok tt h2 ∧
  pc h2 = 7000 ∧ x h2 !!! Riscv.sp = 10240 ∧ saved (x h2) = idle_regs.
Proof.
  destruct asleep_switches as (k' & Hrun & Hk'). pose proof asleep_active as Ha. generalize dependent asleep. intros k Hrun Ha.
  pose proof (moves1 k Ha) as Hmv. pose proof (thread_moves_runs zone_of 3 _ _ _ _ (image_runs k Ha) Hmv) as Hr1.
  assert (interrupt IRQ_M_SOFT (machine1 k) = Some (machine2 k')) as Hint by (by apply interrupt1).
  destruct (interrupt_ok text clobber _sp zone_of 3 _ _ _ 20000 IRQ_M_SOFT Hr1 (room1 k Ha) Hint) as (h2 & E & Hr2); [done|].
  exists h2. split; [exact E|].
  destruct (thread_resumes text clobber _sp zone_of 3 (machine k) (state k) (machine1 k) (state1 k) (machine2 k') h2 demo_idle idle_context
    (image_runs k Ha)) as (Hpc & Hsp & Hregs & _).
  - apply lookup_singleton_eq.
  - apply rtc_once. split; [by apply step_thread|]. cbn [fst mkern machine1]. change (k_active k) with (sched_active_thread k). by rewrite Ha.
  - apply (step_trap _ _ _ _ _ _ _ _ 20000 (Interrupt IRQ_M_SOFT)); [by apply room1|done|exact Hint|exact E].
  - rewrite (im_kern _ _ _ (ru_implements _ _ _ _ Hr2)). exact Hk'.
  - split; [exact Hpc|]. split; [exact Hsp|exact Hregs].
Defined.

(** Only the idle thread can run. *)
Lemma asleep_runnable t : runnable asleep t ↔ t = demo_idle.
Proof.
  split.
  - intros (th & Ht & Hon).
    assert (forallb (λ p, negb (on_runqueue (status p.2)) || (p.1 =? demo_idle)) (map_to_list (threads asleep)) = true) as Hall
      by (vm_compute; reflexivity).
    rewrite forallb_forall in Hall. apply elem_of_map_to_list, list_elem_of_In in Ht. specialize (Hall _ Ht). cbn in Hall.
    rewrite Hon in Hall. by apply Z.eqb_eq.
  - intros ->. eexists. split; vm_compute; reflexivity.
Qed.

Lemma asleep_kinv : ∃ Q, kinv asleep Q.
Proof.
  destruct demo_runs as [Q HQ]. pose proof (cr_kinv _ _ _ (sy_crit _ _ _ (df_inv _ HQ))) as Hk.
  pose proof demo_thread as Hth. rewrite demo_active in Hth.
  destruct (set_status_block demo Q demo_main demo_me STATUS_SLEEPING [] Hk Hth eq_refl eq_refl (df_main _ HQ))
    as (h & c & Hset & Hk' & _).
  eexists. unfold asleep. rewrite Hset. exact Hk'.
Qed.

Lemma soft_interrupt_runs_best_witness :
  ∃ h', trap_entry text clobber _sp (take_trap (2 ^ 63 + IRQ_M_SOFT) (state asleep)) = Ok tt h' ∧
    pc h' = 7000 ∧ sched_active_thread (kern h') = demo_idle.
Proof.
  destruct asleep_kinv as [Q Hk]. pose proof asleep_active as Hact. pose proof asleep_runnable as Hrun.
  generalize dependent asleep. intros k Hk Hact Hrun.
  destruct (soft_interrupt_runs_best Some (λ k, (0, k)) (λ _ k, k) text clobber _sp zone_of 3 (machine k) (state k) 20000 Q
    (image_runs k Hact) (image_room k Hact) Hk) as (p & t & h' & m' & (Hp & [l Hl] & _) & E & Hr & Ht & Hc).
  - exists demo_idle. by apply Hrun.
  - intros t Ht%Hrun. right. rewrite Ht. by eexists.
  - assert (t = demo_idle) as Eq.
    { destruct (ki_mem _ _ Hk _ _ t Hl ltac:(by left)) as (th & Hth & Hon & _). apply Hrun. exists th. split; [exact Hth|exact Hon]. }
    cbn [mkern machine ctxs] in Hc. rewrite Hact, Eq, decide_False, lookup_singleton_eq in Hc by done. injection Hc as Hc.
    exists h'. split; [exact E|]. split; [|by rewrite Ht].
    rewrite (ru_pc _ _ _ _ Hr), <- Hc. reflexivity.
Defined.

(** A third thread, with a floating-point context. *)
Lemma new_ok k : sched_active_thread k = demo_main → new_thread zone_of (machine k) (state k) new 3 45000.
Proof.
  intros Hk. split.
  - split; try done.
  - done.
  - by vm_compute.
  - change (sched_active_thread k ≠ new). by rewrite Hk.
  - done.
  - right. split_and!; [done|unfold mapped; by_words|by_words].
Qed.

Lemma thread_create_refines_witness : ∃ top h', thread_create_context 333 new 3 40000 512 45000 8000 42 (state demo) = Ok tt h' ∧
  top mod 16 = 0 ∧
  implements zone_of (start_thread 0 new (Context_ 8000 (top + 240) (start_regs 42 333)) 45000 (machine demo)) h'.
Proof.
  destruct (thread_create_refines zone_of (machine demo) (state demo) new 3 45000 40000 512 8000 42 333
    (ru_implements _ _ _ _ (image_runs demo demo_active))) as (top & h' & E & Ha & Him).
  - apply new_ok, demo_active.
  - assert (∀ q, among 40000 64 q → is_Some (words !! q) ∧ zone_of q = Stack new) as Hwords by by_words.
    split; try done. intros q Hq Hr. apply Hwords. exists ((q - 40000) / 8). Z.div_mod_to_equations; lia.
  - exists top, h'. split; [exact E|]. split; [exact Ha|exact Him].
Defined.
End Image.
