(* ===== verification/ByteMem.v ===== *)
(** * Memory of bytes

    C code over buffers: a computation reads and writes a map from addresses to
    bytes.  An access to an address that is not mapped is a [Fault], a failed
    assertion [Failed].  [bytes_at] says what is stored, [poke] is the memory after
    storing. *)

From S2P Require Import Prelude Bytes.

(** ** Computations *)

Inductive result (A : Type) := Done (v : A) (m : gmap Z Z) | Failed | Fault.
#[global] Arguments Done {A} v m.
#[global] Arguments Failed {A}.
#[global] Arguments Fault {A}.

Definition M (A : Type) : Type := gmap Z Z → result A.

#[export] Instance M_ret : MRet M := λ A v m, Done v m.
#[export] Instance M_bind : MBind M := λ A B g c m,
  match c m with Done v m' => g v m' | Failed => Failed | Fault => Fault end.

Definition fault {A} : M A := λ _, Fault.
Definition massert (b : bool) : M unit := λ m, if b then Done tt m else Failed.
Definition lift {A} (o : option A) : M A := λ m, match o with Some v => Done v m | None => Fault end.

(** The null pointer. *)
Definition NULL : Z := 0.

(** A byte, and a range of bytes. *)
Definition rd (p : Z) : M Z := λ m, match m !! p with Some v => Done v m | None => Fault end.
Definition wr (p v : Z) : M unit := λ m, match m !! p with Some _ => Done tt (<[p := u8 v]> m) | None => Fault end.

Fixpoint rds (n : nat) (p : Z) : M (list Z) :=
  match n with O => mret [] | S n => v ← rd p; vs ← rds n (p + 1); mret (v :: vs) end.
Fixpoint wrs (p : Z) (vs : list Z) : M unit :=
  match vs with [] => mret tt | v :: vs => wr p v;; wrs (p + 1) vs end.

Definition memcpy (dst src n : Z) : M unit := vs ← rds (Z.to_nat n) src; wrs dst vs.

(** ** What is stored *)

Abbreviation len l := (Z.of_nat (length l)).

(** A list of constant bytes. *)
Ltac bytes := repeat (apply Forall_cons; split; [unfold uint; lia|]); apply Forall_nil; exact I.

(** The bytes [bs] at [p]. *)
Definition bytes_at (m : gmap Z Z) (p : Z) (bs : list Z) : Prop := ∀ i x, bs !! i = Some x → m !! (p + Z.of_nat i) = Some x.

Lemma bytes_at_cons m p b bs : bytes_at m p (b :: bs) ↔ m !! p = Some b ∧ bytes_at m (p + 1) bs.
Proof.
  split.
  - intros Hat. split; [rewrite <- (Z.add_0_r p); by apply (Hat 0%nat)|].
    intros i x Hi. rewrite <- (Hat (S i) x Hi). f_equal. lia.
  - intros [Hb Hat] [|i] x Hi; [injection Hi as <-; by rewrite Z.add_0_r|].
    rewrite <- (Hat i x Hi). f_equal. lia.
Qed.

Lemma bytes_at_app m p a b : bytes_at m p (a ++ b) ↔ bytes_at m p a ∧ bytes_at m (p + len a) b.
Proof.
  revert p. induction a as [|x a IH]; intros p.
  - cbn. rewrite Z.add_0_r. split; [|by intros [_ ?]]. intros ?. split; [|done]. by intros ? ? ?.
  - cbn [app length]. rewrite !bytes_at_cons, IH.
    replace (p + 1 + len a) with (p + Z.of_nat (S (length a))) by lia. tauto.
Qed.

Lemma bytes_at_nil m p : bytes_at m p [].
Proof. by intros ? ? ?. Qed.
#[export] Hint Resolve bytes_at_nil : riot.

Lemma rd_ok m p v : m !! p = Some v → rd p m = Done v m.
Proof. unfold rd. by intros ->. Qed.

Lemma bind_done {A B} (c : M A) (g : A → M B) m v m' : c m = Done v m' → (c ≫= g) m = g v m'.
Proof. unfold mbind, M_bind. by intros ->. Qed.

Lemma rds_ok m p bs n : n = length bs → bytes_at m p bs → rds n p m = Done bs m.
Proof.
  intros -> . revert p. induction bs as [|b bs IH]; intros p Hat; [done|]. apply bytes_at_cons in Hat as [Hb Hat].
  cbn [rds length]. rewrite (bind_done _ _ _ _ _ (rd_ok _ _ _ Hb)), (bind_done _ _ _ _ _ (IH _ Hat)). done.
Qed.

(** ** Writing to memory *)

(** [bs] written at [p]. *)
Fixpoint poke (m : gmap Z Z) (p : Z) (bs : list Z) : gmap Z Z :=
  match bs with [] => m | b :: bs => poke (<[p := b]> m) (p + 1) bs end.

(** The [n] bytes at [p] exist. *)
Definition mapped (m : gmap Z Z) (p n : Z) : Prop := ∀ q, p ≤ q < p + n → is_Some (m !! q).

Lemma poke_app m p a b : poke m p (a ++ b) = poke (poke m p a) (p + len a) b.
Proof.
  revert m p. induction a as [|x a IH]; intros m p; cbn [app poke length]; [by rewrite Z.add_0_r|].
  rewrite IH. f_equal. lia.
Qed.

Lemma poke_outside m p bs q : ¬ (p ≤ q < p + len bs) → poke m p bs !! q = m !! q.
Proof.
  revert m p. induction bs as [|b bs IH]; intros m p Hq; [done|]. cbn [poke length] in *.
  rewrite IH by lia. apply lookup_insert_ne. lia.
Qed.

Lemma bytes_at_poke m p bs : bytes_at (poke m p bs) p bs.
Proof.
  revert m p. induction bs as [|b bs IH]; intros m p; [apply bytes_at_nil|]. cbn [poke]. apply bytes_at_cons. split; [|apply IH].
  rewrite poke_outside by lia. apply lookup_insert_eq.
Qed.

Lemma bytes_at_agree m m' p bs : bytes_at m p bs → (∀ q, p ≤ q < p + len bs → m' !! q = m !! q) → bytes_at m' p bs.
Proof.
  intros Hat Hm i x Hi. rewrite Hm by (apply lookup_lt_Some in Hi; lia). by apply Hat.
Qed.

Lemma bytes_at_poke_other m p bs q cs : bytes_at m q cs → q + len cs ≤ p ∨ p + len bs ≤ q → bytes_at (poke m p bs) q cs.
Proof. intros Hat Hd. apply (bytes_at_agree m); [done|]. intros z Hz. apply poke_outside. lia. Qed.

Lemma mapped_poke m p bs q n : mapped m q n → mapped (poke m p bs) q n.
Proof.
  intros Hm. revert m p Hm. induction bs as [|b bs IH]; intros m p Hm; [done|]. cbn [poke]. apply IH.
  intros z Hz. destruct (decide (z = p)) as [->|]; [rewrite lookup_insert_eq; eauto|rewrite lookup_insert_ne by done; by apply Hm].
Qed.

Lemma mapped_sub m p n q k : mapped m p n → p ≤ q → q + k ≤ p + n → mapped m q k.
Proof. intros Hm ?? z Hz. apply Hm. lia. Qed.

Lemma bytes_at_mapped m p bs : bytes_at m p bs → mapped m p (len bs).
Proof.
  intros Hat q Hq. destruct (lookup_lt_is_Some_2 bs (Z.to_nat (q - p)) ltac:(lia)) as [x Hx].
  exists x. rewrite <- (Hat _ _ Hx). f_equal. lia.
Qed.

Lemma wr_ok m p v : mapped m p 1 → byte v → wr p v m = Done tt (<[p := v]> m).
Proof. intros Hm Hv. unfold wr. destruct (Hm p ltac:(lia)) as [x ->]. by rewrite wrap_small. Qed.

Lemma wrs_ok m p bs : mapped m p (len bs) → Forall byte bs → wrs p bs m = Done tt (poke m p bs).
Proof.
  revert m p. induction bs as [|b bs IH]; intros m p Hm Hb; [done|]. apply Forall_cons in Hb as [Hb Hbs]. cbn [wrs poke length] in *.
  rewrite (bind_done _ _ _ _ _ (wr_ok m p b ltac:(by eapply mapped_sub; [exact Hm|lia|lia]) Hb)).
  apply IH; [|done]. apply (mapped_poke m p [b]). by eapply mapped_sub; [exact Hm|lia|lia].
Qed.

Lemma bytes_memcpy_ok m dst src bs n : n = len bs → bytes_at m src bs → mapped m dst n → Forall byte bs →
  memcpy dst src n m = Done tt (poke m dst bs).
Proof.
  intros -> Hat Hm Hb. unfold memcpy. rewrite (bind_done _ _ _ _ _ (rds_ok m src bs (Z.to_nat (len bs)) ltac:(lia) Hat)).
  by apply wrs_ok.
Qed.

Lemma insert_poke m p bs q v : ¬ (p ≤ q < p + len bs) → <[q := v]> (poke m p bs) = poke (<[q := v]> m) p bs.
Proof.
  revert m p. induction bs as [|b bs IH]; intros m p Hq; [done|]. cbn [poke length] in *.
  rewrite IH by lia. f_equal. apply insert_insert_ne. lia.
Qed.

Lemma poke_poke m p a b : length a = length b → poke (poke m p a) p b = poke m p b.
Proof.
  revert m p b. induction a as [|x a IH]; intros m p [|y b] Hl; try done. cbn [poke]. injection Hl as Hl.
  rewrite insert_poke by lia. rewrite insert_insert_eq. by apply IH.
Qed.
