(* ===== verification/Base64.v ===== *)
(** * Base64 (sys/base64/base64.c, sys/include/base64.h)

    Encoding and decoding, over the memory of [ByteMem], against the encoding of
    RFC 4648 by groups of three bytes. *)

From S2P Require Import Prelude Bytes ByteMem.

(** ** The code *)

Definition BASE64_SUCCESS : Z := 0.
Definition BASE64_ERROR_BUFFER_OUT : Z := -1.
Definition BASE64_ERROR_BUFFER_OUT_SIZE : Z := -2.
Definition BASE64_ERROR_DATA_IN : Z := -3.
Definition BASE64_ERROR_DATA_IN_SIZE : Z := -4.

Definition BASE64_CAPITAL_UPPER_BOUND : Z := 25.
Definition BASE64_SMALL_UPPER_BOUND : Z := 51.
Definition BASE64_NUMBER_UPPER_BOUND : Z := 61.
Definition BASE64_PLUS : Z := 62.
Definition BASE64_SLASH : Z := 63.
Definition BASE64_EQUALS : Z := 0xFE.
Definition BASE64_NOT_DEFINED : Z := 0xFF.

Definition base64_estimate_decode_size (base64_in_size : Z) : Z := u64 (base64_in_size / 4 * 3).
Definition base64_estimate_encode_size (data_in_size : Z) : Z := u64 (4 * (u64 (data_in_size + 2) / 3)).

(** Characters: '/' is 47, '+' 43, 'A' 65, 'Z' 90, 'a' 97, 'z' 122, '0' 48, '9' 57,
    '=' 61. *)
Definition getsymbol (code : Z) : Z :=
  if code =? BASE64_SLASH then 47
  else if code =? BASE64_PLUS then 43
  else if code <=? BASE64_CAPITAL_UPPER_BOUND then code + 65
  else if code <=? BASE64_SMALL_UPPER_BOUND then code + (122 - BASE64_SMALL_UPPER_BOUND)
  else if code <=? BASE64_NUMBER_UPPER_BOUND then code + (57 - BASE64_NUMBER_UPPER_BOUND)
  else BASE64_NOT_DEFINED.

Definition getcode (symbol : Z) : Z :=
  if symbol =? 47 then BASE64_SLASH
  else if symbol =? 43 then BASE64_PLUS
  else if symbol =? 61 then BASE64_EQUALS
  else if symbol <? 48 then BASE64_NOT_DEFINED
  else if (symbol <=? 57) && (48 <=? symbol) then symbol + (BASE64_NUMBER_UPPER_BOUND - 57)
  else if (symbol <=? 90) && (65 <=? symbol) then symbol - 65
  else if (symbol <=? 122) && (97 <=? symbol) then symbol + (BASE64_SMALL_UPPER_BOUND - 122)
  else BASE64_NOT_DEFINED.

(** The loop over the data: [njump], [nLst] and the position in the output. *)
Fixpoint encode_loop (fuel : nat) (in_ data_in_size out i njump nLst pos : Z) : M (Z * Z * Z) :=
  match fuel with
  | O => fault
  | S fuel =>
      if i <? i32 data_in_size then
        let njump := njump + 1 in
        tmpval ← rd (in_ + i);
        let nNum := u8 (Z.shiftr tmpval (2 * njump)) in
        if njump =? 4 then
          let nNum := u8 (Z.shiftl nLst (8 - 2 * njump)) in
          wr (out + pos) (getsymbol nNum);;
          encode_loop fuel in_ data_in_size out i 0 0 (pos + 1)
        else
          let nNum := u8 (nNum + Z.shiftl nLst (8 - 2 * njump)) in
          let nLst := Z.land tmpval (Z.shiftl 1 (njump * 2) - 1) in
          wr (out + pos) (getsymbol nNum);;
          encode_loop fuel in_ data_in_size out (i + 1) njump nLst (pos + 1)
      else mret (njump, nLst, pos)
  end.

Fixpoint pad_loop (fuel : nat) (out pos : Z) : M Z :=
  match fuel with
  | O => fault
  | S fuel => if negb (Z.rem pos 4 =? 0) then wr (out + pos) 61;; pad_loop fuel out (pos + 1) else mret pos
  end.

(** The result and [*base64_out_size]. *)
Definition base64_encode (data_in data_in_size base64_out base64_out_size : Z) : M (Z * Z) :=
  let required_size := base64_estimate_encode_size data_in_size in
  if data_in =? NULL then mret (BASE64_ERROR_DATA_IN, base64_out_size)
  else if data_in_size <? 1 then mret (BASE64_ERROR_DATA_IN_SIZE, base64_out_size)
  else if base64_out_size <? required_size then mret (BASE64_ERROR_BUFFER_OUT_SIZE, required_size)
  else if base64_out =? NULL then mret (BASE64_ERROR_BUFFER_OUT, base64_out_size)
  else
    '(njump, nLst, pos) ← encode_loop (Z.to_nat (2 * data_in_size + 1)) data_in data_in_size base64_out 0 0 0 0;
    let njump := njump + 1 in
    let nNum := u8 (Z.shiftl nLst (8 - 2 * njump)) in
    wr (base64_out + pos) (getsymbol nNum);;
    pos ← pad_loop 4 base64_out (pos + 1);
    mret (BASE64_SUCCESS, pos).

(** The loop over the text: the last code, the last byte and the position. *)
Fixpoint decode_loop (fuel : nat) (in_ base64_in_size out i code nNum nLst mask pos : Z) : M (Z * Z * Z) :=
  match fuel with
  | O => fault
  | S fuel =>
      if i <? i32 base64_in_size then
        c ← rd (in_ + i);
        let code := getcode c in
        if (code =? BASE64_NOT_DEFINED) || (code =? BASE64_EQUALS)
        then decode_loop fuel in_ base64_in_size out (i + 1) code nNum nLst mask pos
        else
          let nm := Z.shiftl 0xFF (2 * mask) in
          let nNum := u8 (nLst + Z.shiftr (Z.land code (Z.land 0xFF nm)) (2 * mask)) in
          let nLst := Z.shiftl (Z.land code (Z.land 0xFF (Z.lnot nm))) (8 - 2 * mask) in
          pos ← (if negb (mask =? 3) then wr (out + pos) nNum;; mret (pos + 1) else mret pos);
          decode_loop fuel in_ base64_in_size out (i + 1) code nNum nLst (if mask =? 0 then 3 else mask - 1) pos
      else mret (code, nNum, pos)
  end.

(** The result and [*data_out_size]. *)
Definition base64_decode (base64_in base64_in_size data_out data_out_size : Z) : M (Z * Z) :=
  let required_size := base64_estimate_decode_size base64_in_size in
  if base64_in =? NULL then mret (BASE64_ERROR_DATA_IN, data_out_size)
  else if base64_in_size <? 4 then mret (BASE64_ERROR_DATA_IN_SIZE, data_out_size)
  else if data_out_size <? required_size then mret (BASE64_ERROR_BUFFER_OUT_SIZE, required_size)
  else if data_out =? NULL then mret (BASE64_ERROR_BUFFER_OUT, data_out_size)
  else
    c ← rd base64_in;
    let nLst := Z.shiftl (getcode c) 2 in
    '(code, nNum, pos) ← decode_loop (Z.to_nat base64_in_size) base64_in base64_in_size data_out 1 0 0 nLst 2 0;
    (if code =? BASE64_EQUALS then wr (data_out + pos) nNum else mret tt);;
    mret (BASE64_SUCCESS, pos).

(** ** The encoding *)

(** The codes of 6 bits of some bytes. *)
Fixpoint sextets (bs : list Z) : list Z :=
  match bs with
  | [] => []
  | [a] => [a / 4; a mod 4 * 16]
  | [a; b] => [a / 4; a mod 4 * 16 + b / 16; b mod 16 * 4]
  | a :: b :: c :: bs => a / 4 :: a mod 4 * 16 + b / 16 :: b mod 16 * 4 + c / 64 :: c mod 64 :: sextets bs
  end.

(** The bytes of some codes; bits that do not fill a byte are dropped. *)
Fixpoint octets (cs : list Z) : list Z :=
  match cs with
  | a :: b :: c :: d :: cs => a * 4 + b / 16 :: b mod 16 * 16 + c / 4 :: c mod 4 * 64 + d :: octets cs
  | [a; b; c] => [a * 4 + b / 16; b mod 16 * 16 + c / 4]
  | [a; b] => [a * 4 + b / 16]
  | _ => []
  end.

Definition upper : list Z := seqZ 65 26.
Definition lower : list Z := seqZ 97 26.
Definition digits : list Z := seqZ 48 10.
Definition alphabet : list Z := upper ++ lower ++ digits ++ [43; 47].
Definition symbol (code : Z) : Z := alphabet !!! Z.to_nat code.

Definition padding (bs : list Z) : list Z := replicate (Z.to_nat ((- len bs) mod 3)) 61.
Definition base64_text (bs : list Z) : list Z := (symbol <$> sextets bs) ++ padding bs.

(** The codes of the characters that are in the alphabet. *)
Definition text_codes (text : list Z) : list Z := filter (λ c, c < 64) (getcode <$> text).

(** ** Induction by groups *)

Lemma triples_ind (P : list Z → Prop) : P [] → (∀ a, P [a]) → (∀ a b, P [a; b]) →
  (∀ a b c r, P r → P (a :: b :: c :: r)) → ∀ l, P l.
Proof.
  intros H0 H1 H2 H3. fix IH 1. intros [|a [|b [|c r]]]; [apply H0|apply H1|apply H2|apply H3, IH].
Qed.

Lemma quads_ind (P : list Z → Prop) : P [] → (∀ a, P [a]) → (∀ a b, P [a; b]) → (∀ a b c, P [a; b; c]) →
  (∀ a b c d r, P r → P (a :: b :: c :: d :: r)) → ∀ l, P l.
Proof.
  intros H0 H1 H2 H3 H4. fix IH 1. intros [|a [|b [|c [|d r]]]]; [apply H0|apply H1|apply H2|apply H3|apply H4, IH].
Qed.

(** ** The alphabet *)

Abbreviation code := (uint 6).

Lemma code_check (P : Z → bool) : forallb P (seqZ 0 64) = true → ∀ x, code x → P x = true.
Proof. intros H x Hx. rewrite forallb_forall in H. apply H, list_elem_of_In, elem_of_seqZ. exact Hx. Qed.

Lemma getsymbol_ok c : code c → getsymbol c = symbol c.
Proof. intros Hc. apply Z.eqb_eq. apply (code_check (λ c, getsymbol c =? symbol c)); [vm_compute; reflexivity|done]. Qed.

Lemma getcode_symbol c : code c → getcode (symbol c) = c.
Proof. intros Hc. apply Z.eqb_eq. apply (code_check (λ c, getcode (symbol c) =? c)); [vm_compute; reflexivity|done]. Qed.

Lemma symbol_byte c : code c → byte (symbol c).
Proof.
  intros Hc. assert ((0 <=? symbol c) && (symbol c <? 256) = true) as [H1%Z.leb_le H2%Z.ltb_lt]%andb_prop; [|by split].
  apply (code_check (λ c, (0 <=? symbol c) && (symbol c <? 256))); [vm_compute; reflexivity|done].
Qed.

(** ** Groups *)

Lemma sextets_code bs : Forall byte bs → Forall code (sextets bs).
Proof.
  induction bs as [|a|a b|a b c r IH] using triples_ind; intros Hb; cbn [sextets];
    repeat match goal with H : Forall byte (_ :: _) |- _ => apply Forall_cons in H as [? H] end; unfold uint in *;
    repeat (apply Forall_cons; split; [unfold uint; Z.div_mod_to_equations; lia|]); [constructor..|by apply IH].
Qed.

Lemma octets_sextets bs : Forall byte bs → octets (sextets bs) = bs.
Proof.
  induction bs as [|a|a b|a b c r IH] using triples_ind; intros Hb; cbn [sextets octets]; [done|..];
    repeat match goal with H : Forall byte (_ :: _) |- _ => apply Forall_cons in H as [? H] end; unfold uint in *.
  - f_equal. Z.div_mod_to_equations. lia.
  - f_equal; [|f_equal]; Z.div_mod_to_equations; lia.
  - rewrite IH by done. f_equal; [|f_equal; [|f_equal]]; Z.div_mod_to_equations; lia.
Qed.

Lemma sextets_length bs : len (sextets bs) + len (padding bs) = 4 * ((len bs + 2) / 3).
Proof.
  unfold padding. rewrite length_replicate, Z2Nat.id by (Z.div_mod_to_equations; lia).
  induction bs as [|a|a b|a b c r IH] using triples_ind; [done..|]. cbn [sextets length] in *. Z.div_mod_to_equations. lia.
Qed.

(** ** Encoding *)

Section Encoding.
Context (in_ n out : Z).

(** One round for the first three bytes of a group, and the round that only writes
    what is left of them. *)
Lemma encode_round fuel i njump nLst pos t m : i < i32 n → m !! (in_ + i) = Some t → 0 ≤ njump < 3 → byte t →
  mapped m (out + pos) 1 → let k := 2 * (njump + 1) in let c := t / 2 ^ k + nLst * 2 ^ (8 - k) in code c →
  encode_loop (S fuel) in_ n out i njump nLst pos m =
    encode_loop fuel in_ n out (i + 1) (njump + 1) (t mod 2 ^ k) (pos + 1) (<[out + pos := symbol c]> m).
Proof.
  intros Hi Ht Hj Hb Hm k c Hc. cbn [encode_loop]. rewrite (proj2 (Z.ltb_lt _ _)) by done.
  rewrite (bind_done _ _ _ _ _ (rd_ok _ _ _ Ht)). cbn beta. rewrite (proj2 (Z.eqb_neq (njump + 1) 4)) by lia.
  rewrite Z.shiftr_div_pow2, (Z.shiftl_mul_pow2 nLst) by lia. fold k. rewrite (wrap_small 8 (t / 2 ^ k)).
  2: { unfold uint in *. split; [apply Z.div_pos; lia|]. apply Z.le_lt_trans with t; [|lia]. apply Z.div_le_upper_bound; nia. }
  fold c. rewrite (wrap_small 8 c) by (unfold uint in *; lia). rewrite getsymbol_ok by done.
  rewrite (bind_done _ _ _ _ _ (wr_ok m (out + pos) (symbol c) Hm (symbol_byte c Hc))). cbn beta.
  rewrite Z.shiftl_1_l. replace ((njump + 1) * 2) with k by (unfold k; lia). by rewrite land_mask by lia.
Qed.

Lemma encode_left fuel i nLst pos t m : i < i32 n → m !! (in_ + i) = Some t → code nLst → mapped m (out + pos) 1 →
  encode_loop (S fuel) in_ n out i 3 nLst pos m = encode_loop fuel in_ n out i 0 0 (pos + 1) (<[out + pos := symbol nLst]> m).
Proof.
  intros Hi Ht Hc Hm. cbn [encode_loop]. rewrite (proj2 (Z.ltb_lt _ _)) by done.
  rewrite (bind_done _ _ _ _ _ (rd_ok _ _ _ Ht)). cbn beta. change (3 + 1) with 4. change (4 =? 4) with true. cbn iota.
  change (8 - 2 * 4) with 0. rewrite Z.shiftl_0_r, (wrap_small 8 nLst) by (unfold uint in *; lia). rewrite getsymbol_ok by done.
  by rewrite (bind_done _ _ _ _ _ (wr_ok m (out + pos) (symbol nLst) Hm (symbol_byte nLst Hc))).
Qed.

(** The codes of up to three bytes of a group, and what is left of the last. *)
Fixpoint group (j left : Z) (l : list Z) : list Z * Z :=
  match l with
  | [] => ([], left)
  | t :: l => let k := 2 * (j + 1) in let '(cs, left') := group (j + 1) (t mod 2 ^ k) l in (t / 2 ^ k + left * 2 ^ (8 - k) :: cs, left')
  end.

Lemma group_length j left l : length (group j left l).1 = length l.
Proof.
  revert j left. induction l as [|t l IH]; intros j left; [done|]. cbn [group].
  specialize (IH (j + 1) (t mod 2 ^ (2 * (j + 1)))). destruct (group _ _ _) as [cs ?]. cbn in *. by rewrite IH.
Qed.

Lemma encode_group fuel : ∀ l i j left pos m, 0 ≤ j → j + len l ≤ 3 → 0 ≤ left < 2 ^ (2 * j) → i + len l ≤ i32 n →
  bytes_at m (in_ + i) l → Forall byte l → mapped m (out + pos) (len l) →
  in_ + i + len l ≤ out + pos ∨ out + pos + len l ≤ in_ + i →
  encode_loop (length l + fuel) in_ n out i j left pos m =
    encode_loop fuel in_ n out (i + len l) (j + len l) (group j left l).2 (pos + len l)
      (poke m (out + pos) (symbol <$> (group j left l).1)).
Proof.
  induction l as [|t l IH]; intros i j left pos m Hj Hjl Hleft Hi Hat Hby Hm Hd; cbn [length] in *.
  { cbn. by rewrite !Z.add_0_r. }
  apply bytes_at_cons in Hat as [Ht Hat]. apply Forall_cons in Hby as [Hb Hby]. cbn [Nat.add].
  assert (code (t / 2 ^ (2 * (j + 1)) + left * 2 ^ (8 - 2 * (j + 1)))) as Hc.
  { unfold uint in *. assert (j = 0 ∨ j = 1 ∨ j = 2) as [->|[->| ->]] by lia; cbn in *; Z.div_mod_to_equations; lia. }
  rewrite (encode_round _ i j left pos t m) by (done || lia || by eapply mapped_sub; [exact Hm|lia|lia]).
  rewrite IH; [|lia|lia| |lia| |done| |lia].
  - cbn [group]. destruct (group (j + 1) _ l) as [cs left']. cbn [fst snd fmap list_fmap poke].
    replace (i + 1 + len l) with (i + Z.of_nat (S (length l))) by lia. replace (j + 1 + len l) with (j + Z.of_nat (S (length l))) by lia.
    replace (pos + 1 + len l) with (pos + Z.of_nat (S (length l))) by lia. by rewrite Z.add_assoc.
  - apply Z.mod_pos_bound, Z.pow_pos_nonneg; lia.
  - rewrite Z.add_assoc. apply (bytes_at_poke_other m (out + pos) [_]); [done|cbn; lia].
  - rewrite Z.add_assoc. apply (mapped_poke m (out + pos) [_]). eapply mapped_sub; [exact Hm|lia|lia].
Qed.

#[local] Ltac group_codes := cbn -[Z.div Z.modulo]; repeat (apply (f_equal2 cons); [Z.div_mod_to_equations; lia|]); reflexivity.
#[local] Ltac last_group := first [done|cbn in *; lia|eapply mapped_sub; [eassumption|lia|cbn; lia]].

(** What the loop writes, and what is left for the last character. *)
Lemma encode_loop_ok : ∀ r pre pos fuel m, r ≠ [] → bytes_at m in_ (pre ++ r) → Forall byte r → n = len (pre ++ r) → n < 2 ^ 30 →
  mapped m (out + pos) (len (sextets r)) → in_ + n ≤ out + pos ∨ out + pos + len (sextets r) ≤ in_ → (2 * length r < fuel)%nat →
  ∃ cs njump nLst, encode_loop fuel in_ n out (len pre) 0 0 pos m = Done (njump, nLst, pos + len cs) (poke m (out + pos) (symbol <$> cs)) ∧
    sextets r = cs ++ [nLst * 2 ^ (8 - 2 * (njump + 1))] ∧ 1 ≤ njump ≤ 3.
Proof.
  assert (∀ l pre pos fuel m, (length l ≤ 3)%nat → n = len (pre ++ l) → n < 2 ^ 30 → bytes_at m in_ (pre ++ l) → Forall byte l → (length l < fuel)%nat →
    mapped m (out + pos) (len l) → in_ + n ≤ out + pos ∨ out + pos + len l ≤ in_ →
    encode_loop fuel in_ n out (len pre) 0 0 pos m =
      Done (len l, (group 0 0 l).2, pos + len (group 0 0 l).1) (poke m (out + pos) (symbol <$> (group 0 0 l).1))) as Hlast.
  { intros l pre pos fuel m Hl Hn Hlt Hat Hby Hf Hm Hd. apply bytes_at_app in Hat as [_ Hat]. rewrite length_app in Hn.
    assert (i32 n = n) as Hi by (apply swrap_small; lia).
    replace fuel with (length l + S (fuel - length l - 1))%nat by lia.
    rewrite (encode_group _ l) by (done || lia). rewrite group_length. cbn [encode_loop]. rewrite (proj2 (Z.ltb_ge _ _)) by lia. done. }
  intros r. induction r as [|a|a b|a b c r IH] using triples_ind; intros pre pos fuel m Hr Hat Hby Hn Hlt Hm Hd Hf; [done|..].
  - exists (group 0 0 [a]).1, 1, (group 0 0 [a]).2. rewrite (Hlast [a]) by last_group. split_and!; [done|group_codes|lia|lia].
  - exists (group 0 0 [a; b]).1, 2, (group 0 0 [a; b]).2. rewrite (Hlast [a; b]) by last_group. split_and!; [done|group_codes|lia|lia].
  - destruct (decide (r = [])) as [->|Hr'].
    { exists (group 0 0 [a; b; c]).1, 3, (group 0 0 [a; b; c]).2. rewrite (Hlast [a; b; c]) by last_group.
      split_and!; [done|group_codes|lia|lia]. }
    cbn [sextets length] in *. rewrite length_app in Hn. cbn [length] in Hn. assert (i32 n = n) as Hi by (apply swrap_small; lia).
    apply (Forall_app byte [a; b; c]) in Hby as [Habc Hby].
    assert (bytes_at m (in_ + len pre) [a; b; c]) as Hat3 by (by apply bytes_at_app in Hat as [_ [Hat _]%(bytes_at_app _ _ [a; b; c])]).
    replace fuel with (3 + S (fuel - 4))%nat by lia.
    pose proof (encode_group (S (fuel - 4)) [a; b; c] (len pre) 0 0 pos m) as Eg. cbn [length Nat.add] in Eg |- *. rewrite Eg; clear Eg;
      [|lia|cbn; lia|cbn; lia|cbn; lia|done|done|eapply mapped_sub; [exact Hm|lia|cbn; lia]|cbn; lia].
    set (g := group 0 0 [a; b; c]). change (0 + Z.of_nat 3) with 3.
    assert (code g.2) as Hg. { unfold g. cbn -[Z.modulo]. apply (Z.mod_pos_bound _ (2 ^ 6)). lia. }
    assert (len g.1 = 3) as Hgl by done. set (m1 := poke m (out + pos) (symbol <$> g.1)).
    set (q := symbol <$> g.1 ++ [g.2]). assert (len q = 4) as Hq by done.
    assert (<[out + (pos + 3) := symbol g.2]> m1 = poke m (out + pos) q) as Em.
    { unfold q, m1. rewrite fmap_app, poke_app, length_fmap, Hgl. by rewrite <- Z.add_assoc. }
    assert (bytes_at m1 in_ (pre ++ a :: b :: c :: r)) as Hat1.
    { apply bytes_at_poke_other; [done|]. rewrite length_fmap, length_app in *. cbn [length] in *. lia. }
    destruct r as [|d r]; [done|]. rewrite (encode_left _ _ _ _ d).
    2: { cbn [length] in Hn. lia. }
    2: { apply bytes_at_app in Hat1 as [_ Hat1]. rewrite Z.add_assoc. apply (Hat1 3%nat). done. }
    2: done.
    2: { apply mapped_poke. eapply mapped_sub; [exact Hm|lia|lia]. }
    change (Z.of_nat 3) with 3. rewrite Em.
    destruct (IH (pre ++ [a; b; c]) (pos + 4) (fuel - 4)%nat (poke m (out + pos) q)) as (cs & nj & l & E & Ecs & Hnj).
    + done.
    + rewrite <- app_assoc. apply bytes_at_poke_other; [done|]. rewrite length_app. cbn [length app] in *. lia.
    + done.
    + rewrite !length_app. cbn [length] in *. lia.
    + done.
    + apply mapped_poke. eapply mapped_sub; [exact Hm|lia|lia].
    + lia.
    + cbn [length] in *. lia.
    + exists (g.1 ++ [g.2] ++ cs), nj, l. rewrite length_app in E. cbn [length] in E.
      replace (len pre + 3) with (Z.of_nat (length pre + 3)) by lia. replace (pos + 3 + 1) with (pos + 4) by lia. rewrite E. split_and!.
      * f_equal; [|rewrite (app_assoc g.1), fmap_app, poke_app; fold q; rewrite Hq; f_equal; lia].
        rewrite !length_app. f_equal. cbn [length]. lia.
      * rewrite Ecs. group_codes.
      * lia.
      * lia.
Qed.
End Encoding.

Lemma pad_loop_ok out : ∀ k fuel pos m, 0 ≤ pos → Z.of_nat k = (- pos) mod 4 → (k < fuel)%nat → mapped m (out + pos) (Z.of_nat k) →
  pad_loop fuel out pos m = Done (pos + Z.of_nat k) (poke m (out + pos) (replicate k 61)).
Proof.
  induction k as [|k IH]; intros [|fuel] pos m Hpos Hk Hf Hm; try lia; cbn [pad_loop replicate poke].
  - rewrite (proj2 (Z.eqb_eq _ 0)) by (rewrite Z.rem_mod_nonneg by lia; Z.div_mod_to_equations; lia). cbn. by rewrite Z.add_0_r.
  - rewrite (proj2 (Z.eqb_neq _ 0)) by (rewrite Z.rem_mod_nonneg by lia; Z.div_mod_to_equations; lia). cbn [negb].
    rewrite (bind_done _ _ _ _ _ (wr_ok m (out + pos) 61 ltac:(eapply mapped_sub; [exact Hm|lia|lia]) ltac:(unfold uint; lia))).
    rewrite IH by (try (rewrite Z.add_assoc; apply (mapped_poke m (out + pos) [_]); eapply mapped_sub; [exact Hm|lia|lia]);
      Z.div_mod_to_equations; lia). rewrite Z.add_assoc. f_equal. lia.
Qed.

Lemma text_length bs : len (base64_text bs) = 4 * ((len bs + 2) / 3).
Proof. unfold base64_text. rewrite length_app, length_fmap, <- sextets_length. lia. Qed.

(** With arguments in order and enough room the text of the data is stored. *)
Lemma base64_encode_ok data bs out cap m : data ≠ NULL → out ≠ NULL → 0 < len bs < 2 ^ 30 → Forall byte bs → bytes_at m data bs →
  len (base64_text bs) ≤ cap → mapped m out (len (base64_text bs)) →
  data + len bs ≤ out ∨ out + len (base64_text bs) ≤ data →
  base64_encode data (len bs) out cap m = Done (BASE64_SUCCESS, len (base64_text bs)) (poke m out (base64_text bs)).
Proof.
  intros Hd0 Ho0 Hn Hby Hat Hcap Hm Hd. unfold base64_encode. rewrite (proj2 (Z.eqb_neq data NULL)), (proj2 (Z.ltb_ge _ 1)) by (done || lia).
  rewrite (proj2 (Z.ltb_ge cap _)), (proj2 (Z.eqb_neq out NULL)); [|done|].
  2: { unfold base64_estimate_encode_size. rewrite (wrap_small 64 (len bs + 2)) by (unfold uint; lia).
       rewrite <- text_length, wrap_small; [done|]. rewrite text_length. unfold uint. Z.div_mod_to_equations; lia. }
  assert (len (base64_text bs) = len (sextets bs) + len (padding bs)) as Hl by (rewrite text_length, sextets_length; done).
  assert (len (padding bs) = (- len bs) mod 3) as Hpad by (unfold padding; rewrite length_replicate, Z2Nat.id; [done|Z.div_mod_to_equations; lia]).
  destruct (encode_loop_ok data (len bs) out bs [] 0 (Z.to_nat (2 * len bs + 1)) m) as (cs & njump & nLst & E & Ecs & Hj);
    [destruct bs; [cbn in Hn; lia|done]|done|done|done|lia|rewrite Z.add_0_r; eapply mapped_sub; [exact Hm|lia|lia]|lia|lia|].
  change (Z.of_nat (length [])) with 0 in E. rewrite (bind_done _ _ _ _ _ E). cbn beta iota zeta. clear E. rewrite Z.add_0_r, Z.add_0_l.
  rewrite Z.shiftl_mul_pow2 by lia. set (c := nLst * _) in *. pose proof (sextets_code bs Hby) as Hcode.
  rewrite Ecs in Hcode. apply Forall_app in Hcode as [_ [Hc _]%Forall_cons].
  assert (len cs + 1 = len (sextets bs)) as Hcs by (rewrite Ecs, length_app; cbn; lia).
  rewrite (wrap_small 8 c), getsymbol_ok by (done || unfold uint in *; lia).
  rewrite (bind_done _ _ _ _ _ (wr_ok _ (out + len cs) (symbol c) ltac:(apply mapped_poke; eapply mapped_sub; [exact Hm|lia|lia]) (symbol_byte c Hc))).
  set (m1 := <[_ := _]> _). assert (m1 = poke m out (symbol <$> sextets bs)) as ->.
  { rewrite Ecs, fmap_app, poke_app, length_fmap. done. }
  pose proof (pad_loop_ok out (length (padding bs)) 4 (len cs + 1) (poke m out (symbol <$> sextets bs))) as Ep.
  rewrite (bind_done _ _ _ _ _ (Ep ltac:(lia) ltac:(pose proof (sextets_length bs); Z.div_mod_to_equations; lia)
    ltac:(Z.div_mod_to_equations; lia) ltac:(apply mapped_poke; eapply mapped_sub; [exact Hm|lia|lia]))).
  unfold mret, M_ret, base64_text. rewrite poke_app, length_fmap, Hcs. f_equal; [f_equal; unfold base64_text in Hl; lia|].
  f_equal. unfold padding. by rewrite length_replicate.
Qed.

(** ** Decoding *)

(** The bytes a sequence of codes gives from a state, and the last one computed. *)
Fixpoint decoded (nNum nLst mask : Z) (cs : list Z) : list Z * Z :=
  match cs with
  | [] => ([], nNum)
  | c :: cs =>
      let nm := Z.shiftl 0xFF (2 * mask) in
      let b := u8 (nLst + Z.shiftr (Z.land c (Z.land 0xFF nm)) (2 * mask)) in
      let left := Z.shiftl (Z.land c (Z.land 0xFF (Z.lnot nm))) (8 - 2 * mask) in
      let '(bs, last) := decoded b left (if mask =? 0 then 3 else mask - 1) cs in
      ((if mask =? 3 then [] else [b]) ++ bs, last)
  end.

Lemma getcode_cases c : (getcode c <? 64) = negb ((getcode c =? BASE64_NOT_DEFINED) || (getcode c =? BASE64_EQUALS)).
Proof.
  unfold getcode, BASE64_SLASH, BASE64_PLUS, BASE64_EQUALS, BASE64_NOT_DEFINED, BASE64_NUMBER_UPPER_BOUND, BASE64_SMALL_UPPER_BOUND.
  ztest; cbn; ztest.
Qed.

Lemma decode_loop_ok in_ n out : ∀ r fuel i code nNum nLst mask pos m, bytes_at m (in_ + i) r → i + len r = i32 n → (length r < fuel)%nat →
  let d := decoded nNum nLst mask (text_codes r) in
  mapped m (out + pos) (len d.1) → in_ + i + len r ≤ out + pos ∨ out + pos + len d.1 ≤ in_ + i →
  decode_loop fuel in_ n out i code nNum nLst mask pos m =
    Done (default code (last (getcode <$> r)), d.2, pos + len d.1) (poke m (out + pos) d.1).
Proof.
  induction r as [|c r IH]; intros [|fuel] i code nNum nLst mask pos m Hat Hi Hf; cbn zeta; try (cbn in Hf; lia).
  - intros _ _. cbn in *. rewrite (proj2 (Z.ltb_ge _ _)) by lia. by rewrite Z.add_0_r.
  - apply bytes_at_cons in Hat as [Hc Hat]. cbn [length] in *. cbn [decode_loop]. rewrite (proj2 (Z.ltb_lt _ _)) by lia.
    rewrite (bind_done _ _ _ _ _ (rd_ok _ _ _ Hc)). cbn beta zeta. unfold text_codes. cbn [fmap list_fmap].
    fold (fmap getcode r : list Z). rewrite filter_cons.
    assert (∀ x, default x (last (getcode c :: (getcode <$> r))) = default (getcode c) (last (getcode <$> r))) as Elast.
    { intros x. rewrite last_cons. by destruct (last _). }
    pose proof (getcode_cases c) as Hcase. destruct ((getcode c =? _) || _); cbn [negb] in Hcase.
    + rewrite decide_False by (apply Z.ltb_ge in Hcase; lia). intros Hm Hd.
      rewrite IH by (rewrite ?Z.add_assoc; done || lia || (fold (text_codes r) in Hd; lia)). by rewrite Elast.
    + rewrite decide_True by (by apply Z.ltb_lt). fold (text_codes r). cbn [decoded].
      set (b := u8 _). set (left := Z.shiftl _ (8 - _)). set (mask' := if mask =? 0 then 3 else mask - 1).
      destruct (decoded b left mask' (text_codes r)) as [bs l] eqn:Ed. cbn [fst snd]. intros Hm Hd.
      destruct (mask =? 3); cbn [negb app length] in *.
      * rewrite (bind_done _ _ m pos m eq_refl). rewrite (IH fuel (i + 1)) by (rewrite ?Ed, ?Z.add_assoc; cbn; done || lia).
        rewrite Ed, Elast. done.
      * rewrite (bind_done _ _ m (pos + 1) (<[out + pos := b]> m)).
        2: { rewrite (bind_done _ _ _ _ _ (wr_ok m (out + pos) b ltac:(eapply mapped_sub; [exact Hm|lia|lia]) ltac:(by apply wrap_range))). done. }
        rewrite (IH fuel (i + 1)).
        -- rewrite Ed, Elast. cbn [fst snd poke]. rewrite Z.add_assoc. f_equal. f_equal. lia.
        -- rewrite Z.add_assoc. apply (bytes_at_poke_other m (out + pos) [_]); [done|cbn; lia].
        -- lia.
        -- lia.
        -- rewrite Ed, Z.add_assoc. apply (mapped_poke m (out + pos) [_]). eapply mapped_sub; [exact Hm|cbn; lia|cbn; lia].
        -- rewrite Ed. cbn. lia.
Qed.

(** The masks of the four states. *)
Lemma masks c : code c →
  Z.shiftr (Z.land c (Z.land 0xFF (Z.shiftl 0xFF 4))) 4 = c / 16 ∧ Z.shiftl (Z.land c (Z.land 0xFF (Z.lnot (Z.shiftl 0xFF 4)))) 4 = c mod 16 * 16 ∧
  Z.shiftr (Z.land c (Z.land 0xFF (Z.shiftl 0xFF 2))) 2 = c / 4 ∧ Z.shiftl (Z.land c (Z.land 0xFF (Z.lnot (Z.shiftl 0xFF 2)))) 6 = c mod 4 * 64 ∧
  Z.shiftr (Z.land c (Z.land 0xFF (Z.shiftl 0xFF 0))) 0 = c ∧ Z.shiftl (Z.land c (Z.land 0xFF (Z.lnot (Z.shiftl 0xFF 0)))) 8 = 0 ∧
  Z.shiftr (Z.land c (Z.land 0xFF (Z.shiftl 0xFF 6))) 6 = 0 ∧ Z.shiftl (Z.land c (Z.land 0xFF (Z.lnot (Z.shiftl 0xFF 6)))) 2 = c * 4.
Proof.
  intros Hc. split_and!; revert c Hc; refine (λ c Hc, proj1 (Z.eqb_eq _ _) (code_check (λ c, _ =? _) _ c Hc)); vm_compute; reflexivity.
Qed.

Lemma decoded_2 nNum a b cs : code a → code b →
  decoded nNum (a * 4) 2 (b :: cs) = let '(bs, l) := decoded (a * 4 + b / 16) (b mod 16 * 16) 1 cs in (a * 4 + b / 16 :: bs, l).
Proof.
  intros Ha Hb. cbn [decoded]. change (2 * 2) with 4. change (8 - 4) with 4. destruct (masks b Hb) as (-> & -> & _).
  rewrite wrap_small by (unfold uint in *; Z.div_mod_to_equations; lia). done.
Qed.

Lemma decoded_1 nNum b c cs : code c → let B := b mod 16 * 16 + c / 4 in
  decoded nNum (b mod 16 * 16) 1 (c :: cs) = let '(bs, l) := decoded B (c mod 4 * 64) 0 cs in (B :: bs, l).
Proof.
  intros Hc B. cbn [decoded]. change (2 * 1) with 2. change (8 - 2) with 6. destruct (masks c Hc) as (_ & _ & -> & -> & _). fold B.
  rewrite (wrap_small 8 B) by (unfold B, uint in *; Z.div_mod_to_equations; lia). done.
Qed.

Lemma decoded_0 nNum c d cs : code d → let C := c mod 4 * 64 + d in
  decoded nNum (c mod 4 * 64) 0 (d :: cs) = let '(bs, l) := decoded C 0 3 cs in (C :: bs, l).
Proof.
  intros Hd C. cbn [decoded]. change (2 * 0) with 0. change (8 - 0) with 8. destruct (masks d Hd) as (_ & _ & _ & _ & -> & -> & _). fold C.
  rewrite (wrap_small 8 C) by (unfold C, uint in *; Z.div_mod_to_equations; lia). done.
Qed.

Lemma decoded_3 nNum a cs : code a → decoded nNum 0 3 (a :: cs) = decoded 0 (a * 4) 2 cs.
Proof.
  intros Ha. cbn [decoded]. change (2 * 3) with 6. change (8 - 6) with 2. destruct (masks a Ha) as (_ & _ & _ & _ & _ & _ & -> & ->).
  change (u8 (0 + 0)) with 0. change (3 =? 0) with false. cbn. by destruct (decoded _ _ _ _).
Qed.

Lemma decoded_octets cs : ∀ nNum a, code a → Forall code cs →
  (decoded nNum (a * 4) 2 cs).1 = octets (a :: cs) ∧
  (len cs mod 4 ≠ 0 → last (octets (a :: cs)) = Some (decoded nNum (a * 4) 2 cs).2).
Proof.
  induction cs as [|b|b c|b c d|b c d e r IH] using quads_ind; intros nNum a Ha Hcs;
    repeat match goal with H : Forall code (_ :: _) |- _ => apply Forall_cons in H as [? H] end.
  - done.
  - rewrite decoded_2 by done. done.
  - rewrite decoded_2, decoded_1 by done. done.
  - rewrite decoded_2, decoded_1, decoded_0 by done. done.
  - rewrite decoded_2, decoded_1, decoded_0, decoded_3 by done. destruct (IH 0 e) as [E1 E2]; [done|done|].
    destruct (decoded 0 (e * 4) 2 r) as [bs l]. cbn [fst snd] in *. change (octets (a :: b :: c :: d :: e :: r)) with
      (a * 4 + b / 16 :: b mod 16 * 16 + c / 4 :: c mod 4 * 64 + d :: octets (e :: r)). rewrite <- E1 in *. split; [done|].
    intros Hl. cbn [length] in *. rewrite !last_cons, E2; [done|]. Z.div_mod_to_equations; lia.
Qed.

Lemma decoded_byte cs : ∀ nNum nLst mask, byte nNum → byte (decoded nNum nLst mask cs).2.
Proof.
  induction cs as [|c cs IH]; intros nNum nLst mask Hb; [done|]. cbn [decoded].
  match goal with |- context [decoded ?b ?l ?k cs] => pose proof (IH b l k) as Hx; destruct (decoded b l k cs) end.
  apply Hx. by apply wrap_range.
Qed.

Lemma getcode_equals c : (getcode c =? BASE64_EQUALS) = (c =? 61).
Proof.
  unfold getcode, BASE64_SLASH, BASE64_PLUS, BASE64_EQUALS, BASE64_NOT_DEFINED, BASE64_NUMBER_UPPER_BOUND, BASE64_SMALL_UPPER_BOUND.
  ztest; cbn; ztest.
Qed.

Lemma text_codes_code text : Forall byte text → Forall code (text_codes text).
Proof.
  intros Hb. unfold text_codes. apply Forall_forall. intros x [Hx Hin]%list_elem_of_filter.
  apply list_elem_of_fmap in Hin as (c & -> & Hc). split; [|done]. pose proof (proj1 (Forall_forall _ _) Hb c Hc) as Hbc.
  apply Z.leb_le. apply (byte_check (λ c, 0 <=? getcode c)); [vm_compute; reflexivity|done].
Qed.

(** Characters that are not in the alphabet are ignored, but for the first one; what
    is stored does not depend on the room the caller states.  When the text ends with
    '=' one byte more is written. *)
Lemma base64_decode_ok src text dst cap m : src ≠ NULL → dst ≠ NULL → 4 ≤ len text < 2 ^ 31 → Forall byte text → bytes_at m src text →
  getcode (text !!! 0%nat) < 64 → len text / 4 * 3 ≤ cap →
  let bs := octets (text_codes text) in
  let more := bool_decide (last text = Some 61) in
  mapped m dst (len bs + b2z more) → src + len text ≤ dst ∨ dst + len bs ≤ src →
  ∃ x, base64_decode src (len text) dst cap m =
      Done (BASE64_SUCCESS, len bs) (poke m dst (bs ++ if more then [x] else [])) ∧
    (len (text_codes text) mod 4 ≠ 1 → last bs = Some x).
Proof.
  intros Hs0 Hd0 Hlen Hby Hat Hfirst Hcap bs more Hm Hd. pose proof (text_codes_code text Hby) as Hcode.
  unfold base64_decode. rewrite (proj2 (Z.eqb_neq src NULL)), (proj2 (Z.ltb_ge _ 4)) by (done || lia).
  rewrite (proj2 (Z.ltb_ge cap _)), (proj2 (Z.eqb_neq dst NULL)); [|done|].
  2: { unfold base64_estimate_decode_size. rewrite wrap_small; [done|]. unfold uint. Z.div_mod_to_equations; lia. }
  destruct text as [|c0 r]; [cbn in Hlen; lia|]. cbn in Hfirst. pose proof Hat as [Hc0 Hr]%bytes_at_cons.
  rewrite (bind_done _ _ _ _ _ (rd_ok _ _ _ Hc0)). cbn beta zeta. rewrite Z.shiftl_mul_pow2 by lia. change (2 ^ 2) with 4.
  assert (text_codes (c0 :: r) = getcode c0 :: text_codes r) as Ecs.
  { unfold text_codes. cbn [fmap list_fmap]. by rewrite filter_cons, decide_True by done. }
  unfold bs in *. rewrite Ecs in *. apply Forall_cons in Hcode as [Hg Hcode]. clear Hfirst.
  destruct (decoded_octets (text_codes r) 0 (getcode c0) Hg Hcode) as [E1 E2].
  pose proof (decode_loop_ok src (len (c0 :: r)) dst r (Z.to_nat (len (c0 :: r))) 1 0 0 (getcode c0 * 4) 2 0 m Hr) as Hloop.
  cbn zeta in Hloop. rewrite E1 in Hloop. set (n := len (c0 :: r)) in *. assert (n = 1 + len r) as Hn by (unfold n; cbn [length]; lia).
  rewrite (bind_done _ _ _ _ _ (Hloop ltac:(rewrite swrap_small by lia; lia) ltac:(lia)
    ltac:(rewrite Z.add_0_r; eapply mapped_sub; [exact Hm|lia|unfold b2z; destruct more; lia]) ltac:(lia))). cbn beta iota.
  set (x := (decoded _ _ _ _).2) in *. rewrite Z.add_0_r, Z.add_0_l. set (os := octets (getcode c0 :: _)) in *.
  assert ((default 0 (last (getcode <$> r)) =? BASE64_EQUALS) = more) as ->.
  { unfold more. rewrite fmap_last, last_cons. destruct (last r) as [l|] eqn:El; cbn.
    - rewrite getcode_equals. destruct (Z.eqb_spec l 61) as [->|]; [by rewrite bool_decide_true|by rewrite bool_decide_false by congruence].
    - apply last_None in El as ->. cbn in Hlen, n. lia. }
  exists x. split; [|intros Hmod; apply E2; cbn [length] in Hmod; Z.div_mod_to_equations; lia].
  rewrite poke_app. destruct more; cbn [poke]; [|reflexivity].
  rewrite (bind_done _ _ _ tt (<[dst + len os := x]> (poke m dst os))); [reflexivity|].
  apply wr_ok; [apply mapped_poke; eapply mapped_sub; [exact Hm|lia|cbn; lia]|by apply decoded_byte].
Qed.

(** ** Round trip *)

Lemma text_codes_text bs : Forall byte bs → text_codes (base64_text bs) = sextets bs.
Proof.
  intros Hb. unfold text_codes, base64_text. rewrite fmap_app, filter_app.
  assert (filter (λ c, c < 64) (getcode <$> padding bs) = []) as ->.
  { unfold padding. by induction (Z.to_nat _). }
  rewrite app_nil_r. pose proof (sextets_code bs Hb) as Hc. induction Hc as [|c cs Hc _ IH]; [done|].
  cbn [fmap list_fmap]. rewrite getcode_symbol by done. rewrite filter_cons, decide_True by (unfold uint in Hc; lia). by rewrite IH.
Qed.

Lemma base64_text_byte bs : Forall byte bs → Forall byte (base64_text bs).
Proof.
  intros Hb. unfold base64_text. apply Forall_app. split.
  - apply Forall_fmap. eapply Forall_impl; [by apply sextets_code|]. intros c Hc. by apply symbol_byte.
  - apply Forall_replicate. unfold uint. lia.
Qed.

Lemma base64_text_first bs : 0 < len bs → Forall byte bs → getcode (base64_text bs !!! 0%nat) < 64.
Proof.
  intros Hl Hb. unfold base64_text. pose proof (sextets_code bs Hb) as Hc. destruct bs as [|a [|b [|c r]]]; [cbn in Hl; lia|..];
    cbn [sextets fmap list_fmap app] in *; apply Forall_cons in Hc as [Hc _]; cbn; rewrite getcode_symbol by done; apply Hc.
Qed.

Lemma base64_text_padded bs : 0 < len bs → Forall byte bs → (last (base64_text bs) = Some 61 ↔ len bs mod 3 ≠ 0).
Proof.
  intros Hl Hb. unfold base64_text, padding. destruct (decide (len bs mod 3 = 0)) as [E|E].
  - replace ((- len bs) mod 3) with 0 by (Z.div_mod_to_equations; lia). cbn [Z.to_nat replicate]. rewrite app_nil_r.
    split; [|done]. rewrite fmap_last. intros Hx. destruct (last (sextets bs)) as [c|] eqn:Ec; [|done]. cbn in Hx. injection Hx as Hx.
    apply last_Some in Ec as [l El]. pose proof (sextets_code bs Hb) as Hc. rewrite El in Hc. apply Forall_app in Hc as [_ [Hc _]%Forall_cons].
    pose proof (getcode_symbol c Hc) as Hg. rewrite Hx in Hg. unfold uint in Hc. vm_compute in Hg. lia.
  - replace (Z.to_nat ((- len bs) mod 3)) with (S (Z.to_nat ((- len bs) mod 3 - 1))) by (Z.div_mod_to_equations; lia).
    rewrite replicate_S_end, app_assoc, last_snoc. done.
Qed.

(** C26: Encoding non-empty data stores the text of RFC 4648 or reports the size it
    needs; decoding the text gives the data back, wherever it was copied to.  After a text with padding
    the last byte is written once more. *)
Theorem base64_roundtrip data bs out cap m : data ≠ NULL → out ≠ NULL → 0 < len bs < 2 ^ 30 → Forall byte bs → bytes_at m data bs →
  let text := base64_text bs in
  mapped m out (len text) → data + len bs ≤ out ∨ out + len text ≤ data →
  base64_encode data (len bs) out cap m =
    (if cap <? len text then Done (BASE64_ERROR_BUFFER_OUT_SIZE, len text) m else Done (BASE64_SUCCESS, len text) (poke m out text)) ∧
  ∀ m' src dst cap', src ≠ NULL → dst ≠ NULL → bytes_at m' src text → len text / 4 * 3 ≤ cap' → mapped m' dst (len text / 4 * 3) →
    src + len text ≤ dst ∨ dst + len bs ≤ src →
    base64_decode src (len text) dst cap' m' =
      Done (BASE64_SUCCESS, len bs) (poke m' dst (bs ++ if decide (len bs mod 3 = 0) then [] else [default 0 (last bs)])).
Proof.
  intros Hd0 Ho0 Hn Hby Hat text Hm Hd. assert (len text = 4 * ((len bs + 2) / 3)) as Hl by apply text_length. split.
  - destruct (Z.ltb_spec cap (len text)) as [Hc|Hc]; [|by apply base64_encode_ok].
    unfold base64_encode. rewrite (proj2 (Z.eqb_neq data NULL)), (proj2 (Z.ltb_ge _ 1)) by (done || lia).
    assert (base64_estimate_encode_size (len bs) = len text) as ->; [|by rewrite (proj2 (Z.ltb_lt _ _))].
    unfold base64_estimate_encode_size. rewrite (wrap_small 64 (len bs + 2)) by (unfold uint; lia). rewrite <- Hl, wrap_small; [done|].
    unfold uint. Z.div_mod_to_equations. lia.
  - intros m' src dst cap' Hs0 Hdst0 Hat' Hcap Hm' Hd'.
    pose proof (text_codes_text bs Hby) as Etc. fold text in Etc. pose proof (octets_sextets bs Hby) as Eo.
    pose proof (base64_text_padded bs ltac:(lia) Hby) as Hpad. fold text in Hpad.
    destruct (base64_decode_ok src text dst cap' m') as (x & E & Hx);
      [done|done|Z.div_mod_to_equations; lia|by apply base64_text_byte|done|apply base64_text_first; [lia|done]|done|..]; rewrite Etc, Eo in *.
    + eapply mapped_sub; [exact Hm'|lia|]. case_bool_decide as Hb; cbn [b2z]; [apply Hpad in Hb|]; Z.div_mod_to_equations; lia.
    + done.
    + rewrite E. do 3 f_equal. destruct (decide (len bs mod 3 = 0)) as [Hb|Hb];
        [rewrite bool_decide_false by (by intros ?%Hpad); done|].
      rewrite bool_decide_true by (by apply Hpad). rewrite Hx; [done|]. pose proof (sextets_length bs) as Hs.
      unfold padding in Hs. rewrite length_replicate in Hs. Z.div_mod_to_equations; lia.
Qed.

(** ** Concrete texts *)

Definition foob : list Z := [102; 111; 111; 98].

Lemma base64_roundtrip_witness :
  let m := poke (poke ∅ 1000 foob) 2000 (replicate 8 0) in
  base64_encode 1000 4 2000 8 m = Done (BASE64_SUCCESS, 8) (poke m 2000 [90; 109; 57; 118; 89; 103; 61; 61]) ∧
  base64_decode 2000 8 3000 6 (poke (poke m 2000 (base64_text foob)) 3000 (replicate 6 0)) =
    Done (BASE64_SUCCESS, 4) (poke (poke (poke m 2000 (base64_text foob)) 3000 (replicate 6 0)) 3000 (foob ++ [98])).
Proof.
  intros m. destruct (base64_roundtrip 1000 foob 2000 8 m) as [E D].
  - done.
  - done.
  - cbn. lia.
  - unfold foob. bytes.
  - apply bytes_at_poke_other; [apply bytes_at_poke|cbn; lia].
  - exact (bytes_at_mapped m 2000 (replicate 8 0) (bytes_at_poke _ _ _)).
  - cbn. lia.
  - split; [exact E|].
    apply (D (poke (poke m 2000 (base64_text foob)) 3000 (replicate 6 0)) 2000 3000 6); [done|done| |vm_compute; discriminate| |vm_compute; by left].
    + apply bytes_at_poke_other; [apply bytes_at_poke|vm_compute; by left].
    + exact (bytes_at_mapped _ 3000 (replicate 6 0) (bytes_at_poke _ _ _)).
Defined.

(** Without padding the estimate of the size is too small: seven characters need five
    bytes, the code asks for three. *)
Lemma base64_decode_overrun :
  let m := poke (poke ∅ 1000 (take 7 (base64_text [102; 111; 111; 98; 97]))) 2000 [0; 0; 0] in
  base64_decode 1000 7 2000 3 m = Fault.
Proof. vm_compute. reflexivity. Qed.

(** A first character that is not in the alphabet is not ignored: a line feed before
    the text of [foo] changes the bytes. *)
Lemma base64_decode_first :
  let m := poke (poke ∅ 1000 (10 :: base64_text [102; 111; 111])) 2000 (replicate 8 0) in
  match (base64_decode 1000 5 2000 8;; rds 3 2000) m with Done bs _ => bs | _ => [] end = [253; 153; 189].
Proof. vm_compute. reflexivity. Qed.
