(* ===== verification/Fmt.v ===== *)
(** * Formatting numbers (sys/fmt/fmt.c, sys/include/fmt.h)

    Decimal, hexadecimal and fixed-point output to a buffer, and reading numbers,
    over the memory of [ByteMem].  A null [out] makes the functions return the
    length only.  A loop that looks for the end of a string gets the size of the
    memory as its fuel, which is enough: it reads another address in every round.

    [FMT_USE_MEMMOVE] is 1.  The formatting of [float] and the output to the console
    are not modelled. *)

From S2P Require Import Prelude Bytes Buffers ByteMem.

(** "0123456789ABCDEF" *)
Definition _hex_chars : list Z := seqZ 48 10 ++ seqZ 65 6.
Definition _tenmap : list Z := [0; 10; 100; 1000; 10000; 100000; 1000000; 10000000].
Definition TENMAP_SIZE : Z := Z.of_nat (length _tenmap).

Definition _is_digit (c : Z) : bool := (48 <=? c) && (c <=? 57).
Definition _is_upper (c : Z) : bool := (65 <=? c) && (c <=? 90).
Definition _to_lower (c : Z) : Z := u8 (97 + (c - 65)).

(** ** Hexadecimal *)

Definition fmt_byte_hex (out byte : Z) : M Z :=
  (if negb (out =? NULL) then
     h ← lift (aget _hex_chars (Z.shiftr byte 4));
     wr out h;;
     l ← lift (aget _hex_chars (Z.land byte 0x0F));
     wr (out + 1) l
   else mret tt);;
  mret 2.

Fixpoint bytes_hex_loop (n : nat) (out ptr : Z) : M unit :=
  match n with
  | O => mret tt
  | S n => b ← rd ptr; k ← fmt_byte_hex out b; bytes_hex_loop n (out + k) (ptr + 1)
  end.

Definition fmt_bytes_hex (out ptr n : Z) : M Z :=
  (if negb (out =? NULL) then bytes_hex_loop (Z.to_nat n) out ptr else mret tt);;
  mret (u64 (n * 2)).

(** The function that reads [ptr[i]] is a parameter: [ptr] is in memory, or the address
    of a local variable. *)
Fixpoint hex_reverse_loop (i : nat) (out : Z) (ptr : Z → M Z) : M unit :=
  match i with
  | O => mret tt
  | S i => b ← ptr (Z.of_nat i); k ← fmt_byte_hex out b; hex_reverse_loop i (out + k) ptr
  end.

Definition fmt_bytes_hex_reverse (out : Z) (ptr : Z → M Z) (n : Z) : M Z :=
  hex_reverse_loop (Z.to_nat n) out ptr;;
  mret (u64 (Z.shiftl n 1)).

(** The bytes of a variable on a little-endian target. *)
Definition var_byte (val : Z) (i : Z) : M Z := mret (u8 (Z.shiftr val (8 * i))).
Definition fmt_u16_hex (out val : Z) : M Z := fmt_bytes_hex_reverse out (var_byte val) 2.
Definition fmt_u32_hex (out val : Z) : M Z := fmt_bytes_hex_reverse out (var_byte val) 4.
Definition fmt_u64_hex (out val : Z) : M Z := fmt_bytes_hex_reverse out (var_byte val) 8.

(** The divisors are 200, 100, 50 and 25. *)
Fixpoint mod25_loop (fuel : nat) (divisor x : Z) : Z :=
  match fuel with
  | O => x
  | S fuel => if 25 <=? divisor then mod25_loop fuel (Z.shiftr divisor 1) (if divisor <=? x then u8 (x - divisor) else x) else x
  end.

Definition _byte_mod25 (x : Z) : Z := mod25_loop 8 200 x.
Definition _hex_nib (nib : Z) : Z := _byte_mod25 (u8 (Z.land nib 0x1f + 9)).

Definition fmt_hex_byte (hex : Z) : M Z :=
  h ← rd hex;
  l ← rd (hex + 1);
  mret (u8 (Z.lor (Z.shiftl (_hex_nib h) 4) (_hex_nib l))).

(** ** Strings *)

Fixpoint strlen_loop (fuel : nat) (str tmp : Z) : M Z :=
  match fuel with
  | O => fault
  | S fuel => c ← rd tmp; if negb (c =? 0) then strlen_loop fuel str (tmp + 1) else mret (tmp - str)
  end.
Definition fmt_strlen (str : Z) : M Z := λ m, strlen_loop (S (size m)) str str m.

(** [*tmp && maxlen--]: the character is read before the length is looked at. *)
Fixpoint strnlen_loop (fuel : nat) (str tmp maxlen : Z) : M Z :=
  match fuel with
  | O => fault
  | S fuel =>
      c ← rd tmp;
      if negb (c =? 0) && negb (maxlen =? 0) then strnlen_loop fuel str (tmp + 1) (maxlen - 1) else mret (tmp - str)
  end.
Definition fmt_strnlen (str maxlen : Z) : M Z := λ m, strnlen_loop (S (size m)) str str maxlen m.

Fixpoint str_loop (fuel : nat) (out str len : Z) : M Z :=
  match fuel with
  | O => fault
  | S fuel => c ← rd str; if negb (c =? 0) then wr out c;; str_loop fuel (out + 1) (str + 1) (len + 1) else mret len
  end.
Definition fmt_str (out str : Z) : M Z :=
  if out =? NULL then fmt_strlen str else λ m, str_loop (S (size m)) out str 0 m.

Definition fmt_char (out c : Z) : M Z := (if negb (out =? NULL) then wr out c else mret tt);; mret 1.

Fixpoint to_lower_loop (fuel : nat) (out str len : Z) : M Z :=
  match fuel with
  | O => fault
  | S fuel =>
      c ← rd str;
      if negb (c =? 0) then
        out ← (if _is_upper c then
                 if negb (out =? NULL) then wr out (_to_lower c);; mret (out + 1) else mret out
               else if negb (out =? NULL) then wr out c;; mret (out + 1) else mret out);
        to_lower_loop fuel out (str + 1) (len + 1)
      else mret len
  end.
Definition fmt_to_lower (out str : Z) : M Z :=
  if str =? NULL then mret 0 else λ m, to_lower_loop (S (size m)) out str 0 m.

Fixpoint hex_bytes_loop (n : nat) (out hex : Z) : M unit :=
  match n with
  | O => mret tt
  | S n => b ← fmt_hex_byte hex; wr out b;; hex_bytes_loop n (out + 1) (hex + 2)
  end.

Definition fmt_hex_bytes (out hex : Z) : M Z :=
  len ← fmt_strlen hex;
  if negb (Z.land len 1 =? 0) then mret 0
  else
    let final_len := Z.shiftr len 1 in
    hex_bytes_loop (Z.to_nat final_len) out hex;;
    mret final_len.

(** Padding on the left. *)
Definition fmt_lpad (out in_len pad_len pad_char : Z) : M Z :=
  if pad_len <=? in_len then mret in_len
  else
    (if negb (out =? NULL) then
       let n := pad_len - in_len in
       memcpy (out + n) out in_len;;
       wrs out (replicate (Z.to_nat n) pad_char)
     else mret tt);;
    mret pad_len.

(** ** Decimal *)

Fixpoint width_loop (fuel : nat) (tmp val len : Z) : Z :=
  match fuel with
  | O => len
  | S fuel => if tmp <=? val then width_loop fuel (u32 (tmp * 10)) val (len + 1) else len
  end.

Fixpoint digit_loop (fuel : nat) (ptr val : Z) : M unit :=
  match fuel with
  | O => fault
  | S fuel =>
      wr (ptr - 1) (val mod 10 + 48);;
      if negb (val / 10 =? 0) then digit_loop fuel (ptr - 1) (val / 10) else mret tt
  end.

Definition fmt_u32_dec (out val : Z) : M Z :=
  let len := if 1000000000 <=? val then 10 else width_loop 10 10 val 1 in
  (if negb (out =? NULL) then digit_loop 10 (out + len) val else mret tt);;
  mret len.

Definition fmt_u16_dec (out val : Z) : M Z := fmt_u32_dec out val.

(** The digits to the base 10000, the least significant first. *)
Definition dec_chunks (val : Z) : list Z :=
  let d0 := Z.land val 0xFFFF in
  let d1 := Z.land (Z.shiftr val 16) 0xFFFF in
  let d2 := Z.land (Z.shiftr val 32) 0xFFFF in
  let d3 := Z.land (Z.shiftr val 48) 0xFFFF in
  let d0 := u32 (656 * d3 + 7296 * d2 + 5536 * d1 + d0) in
  let q := d0 / 10000 in
  let d0 := d0 mod 10000 in
  let d1 := u32 (q + 7671 * d3 + 9496 * d2 + 6 * d1) in
  let q := d1 / 10000 in
  let d1 := d1 mod 10000 in
  let d2 := u32 (q + 4749 * d3 + 42 * d2) in
  let q := d2 / 10000 in
  let d2 := d2 mod 10000 in
  let d3 := u32 (q + 281 * d3) in
  let q := d3 / 10000 in
  let d3 := d3 mod 10000 in
  [d0; d1; d2; d3; q].

Fixpoint first_loop (first : nat) (d : list Z) : nat :=
  match first with
  | O => O
  | S first' => if d !!! first =? 0 then first_loop first' d else first
  end.

Fixpoint chunk_loop (first : nat) (d : list Z) (out : Z) : M unit :=
  match first with
  | O => mret tt
  | S first =>
      let x := d !!! first in
      (if negb (x =? 0) then tmp ← fmt_u32_dec NULL x; fmt_u32_dec (out + (4 - tmp)) x;; mret tt else mret tt);;
      chunk_loop first d (out + 4)
  end.

Definition fmt_u64_dec (out val : Z) : M Z :=
  let d := dec_chunks val in
  let first := first_loop 4 d in
  len ← fmt_u32_dec out (d !!! first);
  let total_len := len + Z.of_nat first * 4 in
  (if negb (out =? NULL) then
     let out := out + len in
     wrs out (replicate (Z.to_nat (total_len - len)) 48);;
     chunk_loop first d out
   else mret tt);;
  mret total_len.

Definition fmt_s64_dec (out val : Z) : M Z :=
  let negative := b2z (val <? 0) in
  out' ← (if val <? 0 then if negb (out =? NULL) then wr out 45;; mret (out + 1) else mret out else mret out);
  let sval := if val <? 0 then u64 (- u64 val) else u64 val in
  n ← fmt_u64_dec out' sval;
  mret (n + negative).

Definition fmt_s32_dec (out val : Z) : M Z :=
  let negative := b2z (val <? 0) in
  out' ← (if val <? 0 then if negb (out =? NULL) then wr out 45;; mret (out + 1) else mret out else mret out);
  let sval := if val <? 0 then u32 (- u32 val) else u32 val in
  n ← fmt_u32_dec out' sval;
  mret (n + negative).

Definition fmt_s16_dec (out val : Z) : M Z := fmt_s32_dec out val.

(** Fixed point. *)
Definition fmt_s32_dfp (out val fp_digits : Z) : M Z :=
  massert (- TENMAP_SIZE <? fp_digits);;
  if fp_digits =? 0 then fmt_s32_dec out val
  else if 0 <? fp_digits then
    pos ← fmt_s32_dec out val;
    (if negb (out =? NULL) then wrs (out + pos) (replicate (Z.to_nat fp_digits) 48) else mret tt);;
    mret (u32 (pos + fp_digits))
  else
    let fp_digits := - fp_digits in
    e ← lift (aget _tenmap fp_digits);
    let abs := Z.quot val e in
    let div := i32 (u32 (val - u32 (abs * e))) in
    let div := if div <? 0 then - div else div in
    pos ← (if (abs =? 0) && (val <? 0) then (if negb (out =? NULL) then wr out 45 else mret tt);; mret 1 else mret 0);
    pos ← (if out =? NULL then n ← fmt_s32_dec NULL abs; mret (pos + (n + 1))
           else
             n ← fmt_s32_dec (out + pos) abs;
             let pos := pos + n in
             wr (out + pos) 46;;
             let pos := pos + 1 in
             div_len ← fmt_s32_dec (out + pos) div;
             fmt_lpad (out + pos) div_len fp_digits 48;;
             mret pos);
    mret (pos + fp_digits).

Definition fmt_s16_dfp (out val fp_digits : Z) : M Z := fmt_s32_dfp out val fp_digits.

(** ** Reading *)

Fixpoint scn_dec_loop (n : nat) (str res : Z) : M Z :=
  match n with
  | O => mret res
  | S n =>
      c ← rd str;
      if negb (_is_digit c) then mret res
      else scn_dec_loop n (str + 1) (u32 (u32 (res * 10) + (c - 48)))
  end.
Definition scn_u32_dec (str n : Z) : M Z := scn_dec_loop (Z.to_nat n) str 0.

Fixpoint scn_hex_loop (n : nat) (str res : Z) : M Z :=
  match n with
  | O => mret res
  | S n =>
      c ← rd str;
      if negb (_is_digit c) then
        let c := if _is_upper c then _to_lower c else c in
        if (c =? 0) || (102 <? c) then mret res
        else scn_hex_loop n (str + 1) (u32 (Z.lor (u32 (Z.shiftl res 4)) (c - 97 + 0xa)))
      else scn_hex_loop n (str + 1) (u32 (Z.lor (u32 (Z.shiftl res 4)) (c - 48)))
  end.
Definition scn_u32_hex (str n : Z) : M Z := scn_hex_loop (Z.to_nat n) str 0.
