(* ===== verification/FmtProof.v ===== *)
(** * Formatting numbers: what is written

    The decimal digits of a number, and the proofs that the functions of [Fmt] write
    them and read them back. *)

From S2P Require Import Prelude Bytes Buffers ByteMem Fmt.

(** ** Decimal digits *)

(** The digits without leading zeros, of a number below [10 ^ fuel]. *)
Fixpoint decimal_below (fuel : nat) (v : Z) : list Z :=
  match fuel with
  | O => []
  | S fuel => if v <? 10 then [48 + v] else decimal_below fuel (v / 10) ++ [48 + v mod 10]
  end.

Definition decimal (v : Z) : list Z := decimal_below 20 v.

(** With a sign. *)
Definition signed (v : Z) : list Z := if v <? 0 then 45 :: decimal (- v) else decimal v.

(** Exactly [k] digits. *)
Fixpoint digits (k : nat) (v : Z) : list Z :=
  match k with O => [] | S k => digits k (v / 10) ++ [48 + v mod 10] end.

(** The number a sequence of digits stands for. *)
Definition value (cs : list Z) : Z := foldl (λ a c, a * 10 + (c - 48)) 0 cs.

Definition digit (c : Z) : Prop := 48 ≤ c ≤ 57.

Lemma pow10_S k : 10 ^ Z.of_nat (S k) = 10 * 10 ^ Z.of_nat k.
Proof. rewrite Nat2Z.inj_succ, Z.pow_succ_r by lia. done. Qed.

Lemma pow10_pos k : 0 < 10 ^ Z.of_nat k.
Proof. apply Z.pow_pos_nonneg; lia. Qed.

Lemma div10_lt v k : 0 ≤ v < 10 ^ Z.of_nat (S k) → 0 ≤ v / 10 < 10 ^ Z.of_nat k.
Proof. rewrite pow10_S. pose proof (pow10_pos k). intros. split; [apply Z.div_pos; lia|]. apply Z.div_lt_upper_bound; lia. Qed.

Lemma decimal_below_S f v : decimal_below (S f) v = if v <? 10 then [48 + v] else decimal_below f (v / 10) ++ [48 + v mod 10].
Proof. done. Qed.

#[local] Opaque decimal_below.

Lemma decimal_below_enough f g v : 0 ≤ v < 10 ^ Z.of_nat f → v < 10 ^ Z.of_nat g → (0 < f)%nat → (0 < g)%nat →
  decimal_below f v = decimal_below g v.
Proof.
  revert g v. induction f as [|f IH]; intros [|g] v Hf Hg H1 H2; try lia. rewrite !decimal_below_S.
  destruct (Z.ltb_spec v 10); [done|]. pose proof (div10_lt v f Hf). pose proof (div10_lt v g ltac:(lia)).
  destruct f; [cbn in Hf; lia|]. destruct g; [cbn in Hg; lia|]. rewrite (IH (S g)) by (done || lia). done.
Qed.

Lemma decimal_small v : 0 ≤ v < 10 → decimal v = [48 + v].
Proof. intros Hv. unfold decimal. rewrite (decimal_below_S 19). by rewrite (proj2 (Z.ltb_lt _ _)) by lia. Qed.

Lemma decimal_10 v : 10 ≤ v < 10 ^ 20 → decimal v = decimal (v / 10) ++ [48 + v mod 10].
Proof.
  intros Hv. unfold decimal. rewrite (decimal_below_S 19). rewrite (proj2 (Z.ltb_ge _ _)) by lia.
  rewrite (decimal_below_enough 19 20); [done| | |lia|lia]; [change (10 ^ Z.of_nat 19) with (10 ^ 19)|change (10 ^ Z.of_nat 20) with (10 ^ 20)];
    Z.div_mod_to_equations; lia.
Qed.

Lemma decimal_induction (P : Z → Prop) : (∀ v, 0 ≤ v < 10 → P v) → (∀ v, 10 ≤ v < 10 ^ 20 → P (v / 10) → P v) → ∀ v, 0 ≤ v < 10 ^ 20 → P v.
Proof.
  intros H0 H1. intros v Hv. assert (∀ k : nat, ∀ v, 0 ≤ v < 10 ^ 20 → v < 10 ^ Z.of_nat k → P v) as H; [|exact (H 20%nat v Hv (proj2 Hv))].
  clear v Hv. induction k as [|k IH]; intros v Hv Hk; [cbn in Hk; apply H0; lia|].
  destruct (Z.lt_ge_cases v 10) as [|]; [apply H0; lia|]. apply H1; [lia|]. pose proof (div10_lt v k ltac:(lia)).
  apply IH; [|lia]. Z.div_mod_to_equations; lia.
Qed.

Lemma decimal_digits v : 0 ≤ v < 10 ^ 20 → Forall digit (decimal v).
Proof.
  revert v. apply decimal_induction; intros v Hv.
  - rewrite decimal_small by done. repeat constructor; lia.
  - intros IH. rewrite decimal_10 by done. apply Forall_app. split; [done|]. repeat constructor; Z.div_mod_to_equations; lia.
Qed.

Lemma value_snoc cs c : value (cs ++ [c]) = value cs * 10 + (c - 48).
Proof. unfold value. by rewrite foldl_app. Qed.

Lemma decimal_value v : 0 ≤ v < 10 ^ 20 → value (decimal v) = v.
Proof.
  revert v. apply decimal_induction; intros v Hv.
  - rewrite decimal_small by done. unfold value. cbn. lia.
  - intros IH. rewrite decimal_10, value_snoc, IH by done. Z.div_mod_to_equations; lia.
Qed.

(** The length is the least one that is enough. *)
Lemma decimal_length k v : (0 < k)%nat → 0 ≤ v < 10 ^ 20 → (len (decimal v) ≤ Z.of_nat k ↔ v < 10 ^ Z.of_nat k).
Proof.
  intros Hk Hv. revert k Hk. revert v Hv. refine (decimal_induction _ _ _); intros v Hv.
  - intros k Hk. rewrite decimal_small by done. cbn. pose proof (Z.pow_le_mono_r 10 1 (Z.of_nat k)). lia.
  - intros IH k Hk. rewrite decimal_10, length_app by done. cbn [length]. destruct k as [|[|k]]; [lia| |].
    + specialize (IH 1%nat ltac:(lia)). cbn in *. assert (decimal (v / 10) ≠ []) as Hne; [|destruct (decimal (v / 10)); cbn in *; [done|lia]].
      intros E. rewrite E in IH. cbn in IH. unfold decimal in E. rewrite (decimal_below_S 19) in E. destruct (_ <? _); [done|]. by apply app_eq_nil in E as [].
    + specialize (IH (S k) ltac:(lia)). rewrite (pow10_S (S k)). pose proof (pow10_pos (S k)). split.
      * intros Hl. assert (v / 10 < 10 ^ Z.of_nat (S k)) by (apply IH; lia). Z.div_mod_to_equations; lia.
      * intros Hl. assert (len (decimal (v / 10)) ≤ Z.of_nat (S k)); [|lia]. apply IH. apply Z.div_lt_upper_bound; lia.
Qed.

Lemma decimal_nonempty v : decimal v ≠ [].
Proof. unfold decimal. rewrite (decimal_below_S 19). destruct (_ <? _); [done|]. by intros [_ ?]%app_eq_nil. Qed.

Lemma digits_S k v : digits (S k) v = digits k (v / 10) ++ [48 + v mod 10].
Proof. done. Qed.

Lemma digits_length k v : length (digits k v) = k.
Proof. revert v. induction k as [|k IH]; intros v; [done|]. cbn [digits]. rewrite length_app, IH. cbn. lia. Qed.

Lemma digits_byte k v : Forall byte (digits k v).
Proof.
  revert v. induction k as [|k IH]; intros v; [constructor|]. cbn [digits]. apply Forall_app. split; [done|].
  repeat constructor; unfold uint; Z.div_mod_to_equations; lia.
Qed.

Lemma decimal_byte v : 0 ≤ v < 10 ^ 20 → Forall byte (decimal v).
Proof. intros Hv. eapply Forall_impl; [by apply decimal_digits|]. unfold digit, uint. lia. Qed.

(** A fixed number of digits is the number behind zeros. *)
Lemma digits_decimal v : 0 ≤ v < 10 ^ 20 → ∀ k, v < 10 ^ Z.of_nat k → (0 < k)%nat →
  digits k v = replicate (k - length (decimal v)) 48 ++ decimal v.
Proof.
  assert (∀ k, digits k 0 = replicate k 48) as H0.
  { induction k as [|k IH]; [done|]. cbn [digits]. rewrite Z.div_0_l, IH by lia. by rewrite replicate_S_end. }
  revert v. refine (decimal_induction _ _ _); intros v Hv.
  - intros [|k] Hk H; [lia|]. rewrite decimal_small by done. cbn [digits length]. rewrite Z.div_small, H0, Z.mod_small by lia.
    by rewrite Nat.sub_succ, Nat.sub_0_r.
  - intros IH [|[|k]] Hk H; [lia|cbn in Hk; lia|]. rewrite digits_S, (IH (S k)).
    + rewrite (decimal_10 v), length_app by done. cbn [length]. rewrite app_assoc. do 3 f_equal. lia.
    + apply (div10_lt v (S k)). lia.
    + lia.
Qed.

(** Four more digits. *)
Lemma decimal_chunk hi lo : 0 < hi → 0 ≤ lo < 10000 → hi * 10000 + lo < 10 ^ 20 → decimal (hi * 10000 + lo) = decimal hi ++ digits 4 lo.
Proof.
  intros Hhi Hlo Hlt. cbn [digits].
  rewrite (decimal_10 (hi * 10000 + lo)), (decimal_10 ((hi * 10000 + lo) / 10)), (decimal_10 ((hi * 10000 + lo) / 10 / 10)),
    (decimal_10 ((hi * 10000 + lo) / 10 / 10 / 10)) by (Z.div_mod_to_equations; lia).
  replace ((hi * 10000 + lo) / 10 / 10 / 10 / 10) with hi by (Z.div_mod_to_equations; lia).
  rewrite <- !app_assoc. cbn [app]. f_equal. repeat (apply (f_equal2 cons); [Z.div_mod_to_equations; lia|]). done.
Qed.

(** ** Writing decimals *)

Lemma poke_same m p bs : bytes_at m p bs → poke m p bs = m.
Proof.
  revert p. induction bs as [|b bs IH]; intros p Hat; [done|]. apply bytes_at_cons in Hat as [Hb Hat]. cbn [poke].
  rewrite insert_id by done. by apply IH.
Qed.

Lemma digit_loop_ok : ∀ fuel ptr v m, (0 < fuel)%nat → 0 ≤ v < 10 ^ Z.of_nat fuel → 
  let n := len (decimal_below fuel v) in mapped m (ptr - n) n →
  digit_loop fuel ptr v m = Done tt (poke m (ptr - n) (decimal_below fuel v)).
Proof.
  induction fuel as [|fuel IH]; intros ptr v m Hf Hv; cbn zeta; [lia|]. rewrite decimal_below_S. intros Hm. cbn [digit_loop].
  pose proof (div10_lt v fuel Hv) as Hdiv.
  rewrite (bind_done _ _ m tt (<[ptr - 1 := 48 + v mod 10]> m)).
  2: { rewrite Z.add_comm. apply wr_ok; [|unfold uint; Z.div_mod_to_equations; lia].
       eapply mapped_sub; [exact Hm| |lia]. destruct (v <? 10); [done|]. rewrite length_app. cbn [length]. lia. }
  destruct (Z.ltb_spec v 10) as [Hlt|Hge].
  - rewrite Z.div_small, Z.mod_small by lia. done.
  - rewrite (proj2 (Z.eqb_neq _ 0)) by (Z.div_mod_to_equations; lia). cbn [negb]. rewrite length_app in *. cbn [length] in *.
    rewrite IH; [|destruct fuel; [cbn in Hv; lia|lia]|done|].
    + set (ds := decimal_below fuel (v / 10)). rewrite <- (insert_poke m (ptr - 1 - len ds) ds (ptr - 1)) by lia. rewrite poke_app.
      replace (ptr - Z.of_nat (length ds + 1)) with (ptr - 1 - len ds) by lia. by replace (ptr - 1 - len ds + len ds) with (ptr - 1) by lia.
    + apply (mapped_poke m (ptr - 1) [_]). eapply mapped_sub; [exact Hm|lia|lia].
Qed.

Lemma digit_count_ok : ∀ fuel (k : nat) v, (0 < k)%nat → k = 1%nat ∨ 10 ^ Z.of_nat (k - 1) ≤ v → 0 ≤ v < 10 ^ 9 → (9 < fuel + k)%nat → (k ≤ 9)%nat →
  width_loop fuel (10 ^ Z.of_nat k) v (Z.of_nat k) = len (decimal v).
Proof.
  induction fuel as [|fuel IH]; intros k v Hk Hlow Hv Hf Hk9; [lia|]. cbn [width_loop].
  assert (10 ^ Z.of_nat k ≤ 10 ^ 9) as Hp by (apply Z.pow_le_mono_r; lia). pose proof (pow10_pos k) as Hpos.
  assert (v < 10 ^ 20) as Hv20 by lia.
  destruct (Z.leb_spec (10 ^ Z.of_nat k) v) as [Hle|Hgt].
  - assert (k ≠ 9%nat) as Hk8 by (intros ->; change (10 ^ Z.of_nat 9) with (10 ^ 9) in Hle; lia).
    assert (10 ^ Z.of_nat k ≤ 10 ^ 8) as Hp8 by (apply Z.pow_le_mono_r; lia).
    rewrite wrap_small by (unfold uint; lia). rewrite Z.mul_comm, <- pow10_S. replace (Z.of_nat k + 1) with (Z.of_nat (S k)) by lia.
    apply IH; [lia| |done|lia|lia]. right. by rewrite Nat.sub_succ, Nat.sub_0_r.
  - assert (len (decimal v) ≤ Z.of_nat k) by (apply decimal_length; [done|lia|done]).
    destruct (decide (k = 1%nat)) as [->|Hk1].
    { pose proof (decimal_nonempty v). destruct (decimal v); [done|]. cbn [length] in *. lia. }
    assert (¬ len (decimal v) ≤ Z.of_nat (k - 1)); [|lia]. rewrite decimal_length by lia. destruct Hlow; [done|lia].
Qed.

(** What a formatting function does with the characters [cs]. *)
Definition formats (f : Z → M Z) (cs : list Z) : Prop :=
  (∀ m, f NULL m = Done (len cs) m) ∧
  ∀ out m, 0 < out → mapped m out (len cs) → f out m = Done (len cs) (poke m out cs).

Lemma fmt_u32_dec_ok v : uint 32 v → formats (λ out, fmt_u32_dec out v) (decimal v).
Proof.
  intros Hv. unfold uint in Hv. assert ((if 1000000000 <=? v then 10 else width_loop 10 10 v 1) = len (decimal v)) as Elen.
  { destruct (Z.leb_spec 1000000000 v).
    - assert (len (decimal v) ≤ Z.of_nat 10) by (apply decimal_length; [lia|lia|change (10 ^ Z.of_nat 10) with (10 ^ 10); lia]).
      assert (¬ len (decimal v) ≤ Z.of_nat 9); [|lia]. rewrite decimal_length by lia. change (10 ^ Z.of_nat 9) with (10 ^ 9). lia.
    - refine (digit_count_ok 10 1 v _ _ _ _ _); [lia|by left|lia|lia|lia]. }
  split.
  - intros m. unfold fmt_u32_dec. rewrite Elen. done.
  - intros out m Hout Hm. unfold fmt_u32_dec. rewrite Elen, (proj2 (Z.eqb_neq out NULL)) by (unfold NULL; lia). cbn [negb].
    assert (decimal v = decimal_below 10 v) as Eb.
    { apply decimal_below_enough; [change (10 ^ Z.of_nat 20) with (10 ^ 20); lia|change (10 ^ Z.of_nat 10) with (10 ^ 10); lia|lia|lia]. }
    pose proof (digit_loop_ok 10 (out + len (decimal v)) v m ltac:(lia)) as Hloop. cbn zeta in Hloop. rewrite <- Eb in Hloop.
    rewrite Z.add_simpl_r in Hloop. rewrite (bind_done _ _ _ _ _ (Hloop ltac:(change (10 ^ Z.of_nat 10) with (10 ^ 10); lia) Hm)). done.
Qed.

Definition chunk (d : Z) : Prop := 0 ≤ d < 10000.

(** The digits of the chunks below [first], and the number they are part of. *)
Fixpoint chunk_text (first : nat) (d : list Z) : list Z :=
  match first with O => [] | S first => digits 4 (d !!! first) ++ chunk_text first d end.
Fixpoint horner (first : nat) (d : list Z) (hi : Z) : Z :=
  match first with O => hi | S first => horner first d (hi * 10000 + d !!! first) end.

Lemma horner_ge first d hi : Forall chunk d → 0 ≤ hi → (first ≤ length d)%nat → hi ≤ horner first d hi.
Proof.
  intros Hd. revert hi. induction first as [|first IH]; intros hi Hhi Hl; cbn [horner]; [done|].
  assert (chunk (d !!! first)) as [Hc _] by (apply (Forall_lookup_total_1 _ _ _ Hd); lia).
  set (x := d !!! first) in *. assert (0 ≤ hi * 10000 + x) as H0 by lia. specialize (IH (hi * 10000 + x) H0). lia.
Qed.

Lemma horner_decimal first d hi : Forall chunk d → 0 < hi → (first ≤ length d)%nat → horner first d hi < 10 ^ 20 →
  decimal (horner first d hi) = decimal hi ++ chunk_text first d.
Proof.
  intros Hd. revert hi. induction first as [|first IH]; intros hi Hhi Hl Hlt; cbn [horner chunk_text] in *; [by rewrite app_nil_r|].
  assert (chunk (d !!! first)) as Hc by (apply (Forall_lookup_total_1 _ _ _ Hd); lia). unfold chunk in Hc.
  set (x := d !!! first) in *. assert (0 ≤ hi * 10000 + x) as H0 by lia. pose proof (horner_ge first d _ Hd H0 ltac:(lia)).
  rewrite IH, decimal_chunk by lia. by rewrite <- app_assoc.
Qed.

Lemma chunk_sum a0 a1 a2 a3 q0 r0 q1 r1 q2 r2 q3 r3 :
  656 * a3 + 7296 * a2 + 5536 * a1 + a0 = 10000 * q0 + r0 → q0 + 7671 * a3 + 9496 * a2 + 6 * a1 = 10000 * q1 + r1 →
  q1 + 4749 * a3 + 42 * a2 = 10000 * q2 + r2 → q2 + 281 * a3 = 10000 * q3 + r3 →
  a0 + 2 ^ 16 * a1 + 2 ^ 32 * a2 + 2 ^ 48 * a3 = (((q3 * 10000 + r3) * 10000 + r2) * 10000 + r1) * 10000 + r0.
Proof. lia. Qed.

Lemma chunks_ok v : uint 64 v → ∃ d0 d1 d2 d3 d4, dec_chunks v = [d0; d1; d2; d3; d4] ∧ Forall chunk [d0; d1; d2; d3; d4] ∧
  v = horner 4 [d0; d1; d2; d3; d4] d4.
Proof.
  intros Hv. unfold uint in Hv. unfold dec_chunks. change 0xFFFF with (2 ^ 16 - 1). rewrite !land_mask, !Z.shiftr_div_pow2 by lia.
  set (a0 := v mod _). set (a1 := (v / 2 ^ 16) mod _). set (a2 := (v / 2 ^ 32) mod _). set (a3 := (v / 2 ^ 48) mod _).
  assert (v = a0 + 2 ^ 16 * a1 + 2 ^ 32 * a2 + 2 ^ 48 * a3 ∧ uint 16 a0 ∧ uint 16 a1 ∧ uint 16 a2 ∧ uint 16 a3) as (Ev & H0 & H1 & H2 & H3).
  { unfold a0, a1, a2, a3, uint. Z.div_mod_to_equations. lia. }
  clearbody a0 a1 a2 a3. unfold uint in *.
  rewrite (wrap_small 32 (656 * a3 + 7296 * a2 + 5536 * a1 + a0)) by (unfold uint; lia).
  set (x0 := 656 * a3 + 7296 * a2 + 5536 * a1 + a0). assert (0 ≤ x0 / 10000 < 100000) as Hq0 by (unfold x0; Z.div_mod_to_equations; lia).
  rewrite (wrap_small 32 (x0 / 10000 + 7671 * a3 + 9496 * a2 + 6 * a1)) by (unfold uint; lia).
  set (x1 := x0 / 10000 + 7671 * a3 + 9496 * a2 + 6 * a1). assert (0 ≤ x1 / 10000 < 200000) as Hq1 by (unfold x1; Z.div_mod_to_equations; lia).
  rewrite (wrap_small 32 (x1 / 10000 + 4749 * a3 + 42 * a2)) by (unfold uint; lia).
  set (x2 := x1 / 10000 + 4749 * a3 + 42 * a2). assert (0 ≤ x2 / 10000 < 200000) as Hq2 by (unfold x2; Z.div_mod_to_equations; lia).
  rewrite (wrap_small 32 (x2 / 10000 + 281 * a3)) by (unfold uint; lia). set (x3 := x2 / 10000 + 281 * a3).
  eexists _, _, _, _, _. split; [reflexivity|]. split.
  - repeat (apply Forall_cons; split; [unfold chunk, x3; Z.div_mod_to_equations; lia|]). constructor.
  - cbn [horner lookup_total list_lookup_total]. rewrite Ev. unfold x3.
    apply (chunk_sum a0 a1 a2 a3 (x0 / 10000) _ (x1 / 10000) _ (x2 / 10000)); apply Z.div_mod; lia.
Qed.

Lemma first_loop_ok d v : ∀ k, v = horner k d (d !!! k) →
  let f := first_loop k d in v = horner f d (d !!! f) ∧ (f = 0%nat ∨ d !!! f ≠ 0) ∧ (f ≤ k)%nat.
Proof.
  induction k as [|k IH]; intros Hv; cbn zeta; cbn [first_loop]; [by split_and!; [|left|]|].
  destruct (Z.eqb_spec (d !!! S k) 0) as [E|E]; [|split_and!; [done|by right|done]].
  cbn [horner] in Hv. rewrite E in Hv. destruct (IH Hv) as (H1 & H2 & H3). split_and!; [done..|lia].
Qed.

Lemma chunk_text_length first d : length (chunk_text first d) = (4 * first)%nat.
Proof. induction first as [|first IH]; [done|]. cbn [chunk_text]. rewrite length_app, digits_length, IH. lia. Qed.

Lemma chunk_text_byte first d : Forall byte (chunk_text first d).
Proof. induction first as [|first IH]; [constructor|]. cbn [chunk_text]. apply Forall_app. split; [apply digits_byte|done]. Qed.

Lemma digits_4_decimal x : chunk x → digits 4 x = replicate (4 - length (decimal x)) 48 ++ decimal x ∧ (length (decimal x) ≤ 4)%nat.
Proof.
  unfold chunk. intros Hx. split; [apply digits_decimal; [lia|cbn; lia|lia]|].
  assert (len (decimal x) ≤ Z.of_nat 4); [|lia]. apply decimal_length; [lia|lia|cbn; lia].
Qed.

(** A chunk, right-aligned over zeros. *)
Lemma chunk_step_ok x out m : chunk x → 0 < out → bytes_at m out (replicate 4 48) →
  (if negb (x =? 0) then tmp ← fmt_u32_dec NULL x; fmt_u32_dec (out + (4 - tmp)) x;; mret tt else mret tt) m = Done tt (poke m out (digits 4 x)).
Proof.
  intros Hx Hout Hat. destruct (digits_4_decimal x Hx) as [E Hl]. unfold chunk in Hx. destruct (Z.eqb_spec x 0) as [->|Hne]; cbn [negb].
  - change (digits 4 0) with (replicate 4 48). by rewrite poke_same.
  - destruct (fmt_u32_dec_ok x ltac:(unfold uint; lia)) as [Hn Hw]. rewrite (bind_done _ _ _ _ _ (Hn m)). cbn beta.
    rewrite (bind_done _ _ _ _ _ (Hw (out + (4 - len (decimal x))) m ltac:(lia)
      ltac:(eapply mapped_sub; [exact (bytes_at_mapped _ _ _ Hat)|lia|rewrite length_replicate; lia]))).
    replace (out + (4 - len (decimal x))) with (out + Z.of_nat (4 - length (decimal x))) by lia.
    unfold mret, M_ret. rewrite E, poke_app, (poke_same m out (replicate _ _)), length_replicate; [done|].
    replace 4%nat with (4 - length (decimal x) + length (decimal x))%nat in Hat at 1 by lia.
    rewrite replicate_add in Hat. by apply bytes_at_app in Hat as [Hat _].
Qed.

Lemma chunk_loop_ok d : Forall chunk d → ∀ first out m, (first ≤ length d)%nat → 0 < out → bytes_at m out (replicate (4 * first) 48) →
  chunk_loop first d out m = Done tt (poke m out (chunk_text first d)).
Proof.
  intros Hd. induction first as [|first IH]; intros out m Hl Hout Hat; [done|]. cbn [chunk_loop chunk_text].
  replace (4 * S first)%nat with (4 + 4 * first)%nat in Hat by lia. rewrite replicate_add in Hat. apply bytes_at_app in Hat as [H4 Hat].
  assert (chunk (d !!! first)) as Hc by (apply (Forall_lookup_total_1 _ _ _ Hd); lia).
  rewrite (bind_done _ _ _ _ _ (chunk_step_ok _ out m Hc Hout H4)).
  rewrite IH; [|lia|lia|]; [by rewrite poke_app, digits_length|].
  rewrite length_replicate in Hat. apply bytes_at_poke_other; [done|]. rewrite length_replicate, digits_length. lia.
Qed.

Lemma fmt_u64_dec_ok v : uint 64 v → formats (λ out, fmt_u64_dec out v) (decimal v).
Proof.
  intros Hv. destruct (chunks_ok v Hv) as (d0 & d1 & d2 & d3 & d4 & Ed & Hd & Ev). unfold fmt_u64_dec. rewrite Ed.
  set (d := [d0; d1; d2; d3; d4]) in *. destruct (first_loop_ok d v 4 Ev) as (Ef & Hf & Hf4). cbn zeta in *.
  set (f := first_loop 4 d) in *. clearbody f. unfold uint in Hv. assert (length d = 5%nat) as Hld by done.
  assert (chunk (d !!! f)) as Hc by (apply (Forall_lookup_total_1 _ _ _ Hd); lia).
  assert (decimal v = decimal (d !!! f) ++ chunk_text f d) as ->.
  { destruct Hf as [E0|Hne]; [rewrite Ef, E0; cbn [horner chunk_text]; by rewrite app_nil_r|].
    rewrite Ef. apply horner_decimal; [done|unfold chunk in Hc; lia|lia|lia]. }
  assert (uint 32 (d !!! f)) as Hu by (unfold chunk, uint in *; lia). destruct (fmt_u32_dec_ok (d !!! f) Hu) as [Hnull Hout].
  assert (len (decimal (d !!! f)) + Z.of_nat f * 4 = len (decimal (d !!! f) ++ chunk_text f d)) as El.
  { rewrite length_app, chunk_text_length. lia. }
  split.
  - intros m. rewrite (bind_done _ _ _ _ _ (Hnull m)). cbn beta zeta. rewrite El. done.
  - intros out m Ho Hm. rewrite <- El in Hm. rewrite (bind_done _ _ _ _ _ (Hout out m Ho ltac:(eapply mapped_sub; [exact Hm|lia|lia]))).
    cbn beta zeta. rewrite (proj2 (Z.eqb_neq out NULL)) by (unfold NULL; lia). cbn [negb]. rewrite Z.add_simpl_l.
    set (l := len (decimal (d !!! f))) in *. set (m1 := poke m out _).
    replace (Z.to_nat (Z.of_nat f * 4)) with (4 * f)%nat by lia.
    rewrite (bind_done _ _ m1 tt (poke m1 (out + l) (chunk_text f d))).
    + unfold mret, M_ret. rewrite El. f_equal. unfold m1. by rewrite poke_app.
    + rewrite (bind_done _ _ _ tt (poke m1 (out + l) (replicate (4 * f) 48))).
      * rewrite (chunk_loop_ok d Hd) by (try apply bytes_at_poke; lia). f_equal. apply poke_poke.
        by rewrite length_replicate, chunk_text_length.
      * apply wrs_ok; [apply mapped_poke; eapply mapped_sub; [exact Hm|lia|rewrite length_replicate; lia]|].
        apply Forall_replicate. unfold uint. lia.
Qed.

(** ** Signs *)

Lemma put_sign_ok f v cs : formats f cs →
  formats (λ out, out' ← (if v <? 0 then if negb (out =? NULL) then wr out 45;; mret (out + 1) else mret out else mret out);
                  n ← f out'; mret (n + b2z (v <? 0))) ((if v <? 0 then [45] else []) ++ cs).
Proof.
  intros [Hnull Hout]. destruct (v <? 0); cbn [b2z app length]; split.
  - intros m. rewrite (bind_done _ _ m NULL m eq_refl). rewrite (bind_done _ _ _ _ _ (Hnull m)). unfold mret, M_ret. f_equal. cbn [length]. lia.
  - intros out m Ho Hm. cbn [length] in *. rewrite (proj2 (Z.eqb_neq out NULL)) by (unfold NULL; lia). cbn [negb].
    rewrite (bind_done _ _ m (out + 1) (<[out := 45]> m)).
    2: { rewrite (bind_done _ _ _ _ _ (wr_ok m out 45 ltac:(eapply mapped_sub; [exact Hm|lia|lia]) ltac:(unfold uint; lia))). done. }
    rewrite (bind_done _ _ _ _ _ (Hout (out + 1) (<[out := 45]> m) ltac:(lia)
      ltac:(apply (mapped_poke m out [_]); eapply mapped_sub; [exact Hm|lia|lia]))). unfold mret, M_ret. f_equal. lia.
  - intros m. rewrite (bind_done _ _ m NULL m eq_refl). rewrite (bind_done _ _ _ _ _ (Hnull m)). unfold mret, M_ret. by rewrite Z.add_0_r.
  - intros out m Ho Hm. rewrite (bind_done _ _ m out m eq_refl). rewrite (bind_done _ _ _ _ _ (Hout out m Ho Hm)).
    unfold mret, M_ret. by rewrite Z.add_0_r.
Qed.

Lemma signed_split v : signed v = (if v <? 0 then [45] else []) ++ decimal (Z.abs v).
Proof. unfold signed. destruct (Z.ltb_spec v 0); cbn [app]; [rewrite Z.abs_neq by lia|rewrite Z.abs_eq by lia]; done. Qed.

Lemma sval_ok w v : 1 < w → - 2 ^ (w - 1) ≤ v < 2 ^ (w - 1) → (if v <? 0 then wrap w (- wrap w v) else wrap w v) = Z.abs v.
Proof.
  intros Hw Hv. assert (2 ^ w = 2 * 2 ^ (w - 1)) as E by (rewrite <- Z.pow_succ_r by lia; f_equal; lia).
  destruct (Z.ltb_spec v 0).
  - rewrite Z.abs_neq by lia. rewrite <- (Z.sub_0_l (wrap w v)), wrap_sub_idem_r. apply wrap_small. unfold uint. lia.
  - rewrite Z.abs_eq by lia. apply wrap_small. unfold uint. lia.
Qed.

Lemma fmt_s32_dec_ok v : - 2 ^ 31 ≤ v < 2 ^ 31 → formats (λ out, fmt_s32_dec out v) (signed v).
Proof.
  intros Hv. rewrite signed_split. unfold fmt_s32_dec. cbn zeta. rewrite (sval_ok 32 v) by lia.
  apply (put_sign_ok (λ out, fmt_u32_dec out (Z.abs v))), fmt_u32_dec_ok. unfold uint. lia.
Qed.

Lemma fmt_s64_dec_ok v : - 2 ^ 63 ≤ v < 2 ^ 63 → formats (λ out, fmt_s64_dec out v) (signed v).
Proof.
  intros Hv. rewrite signed_split. unfold fmt_s64_dec. cbn zeta. rewrite (sval_ok 64 v) by lia.
  apply (put_sign_ok (λ out, fmt_u64_dec out (Z.abs v))), fmt_u64_dec_ok. unfold uint. lia.
Qed.

(** ** Fixed point *)

Lemma poke_over m p a b : (length a ≤ length b)%nat → poke (poke m p a) p b = poke m p b.
Proof.
  intros Hl. rewrite <- (take_drop (length a) b), !poke_app. rewrite poke_poke; [done|]. rewrite length_take. lia.
Qed.

Lemma poke_comm m p a q b : p + len a ≤ q ∨ q + len b ≤ p → poke (poke m p a) q b = poke (poke m q b) p a.
Proof.
  revert m q. induction b as [|x b IH]; intros m q Hd; [done|]. cbn [poke length] in *.
  rewrite insert_poke by lia. apply IH. lia.
Qed.

Lemma fmt_lpad_ok out cs k m : 0 < out → bytes_at m out cs → Forall byte cs → mapped m out k → len cs ≤ k →
  fmt_lpad out (len cs) k 48 m = Done k (poke m out (replicate (Z.to_nat k - length cs) 48 ++ cs)).
Proof.
  intros Ho Hat Hby Hm Hl. unfold fmt_lpad. destruct (Z.leb_spec k (len cs)).
  - replace (Z.to_nat k - length cs)%nat with 0%nat by lia. cbn [replicate app]. rewrite poke_same by done.
    unfold mret, M_ret. f_equal. lia.
  - rewrite (proj2 (Z.eqb_neq out NULL)) by (unfold NULL; lia). cbn [negb]. set (n := k - len cs).
    assert (Z.to_nat n = Z.to_nat k - length cs)%nat as En by lia.
    rewrite (bind_done _ _ m tt (poke m out (replicate (Z.to_nat k - length cs) 48 ++ cs))); [done|].
    rewrite (bind_done _ _ _ tt (poke m (out + n) cs)).
    + rewrite En, wrs_ok.
      * rewrite poke_comm, poke_app by (rewrite length_replicate; lia). rewrite length_replicate. do 3 f_equal. lia.
      * rewrite length_replicate. apply mapped_poke. eapply mapped_sub; [exact Hm|lia|lia].
      * apply Forall_replicate. unfold uint. lia.
    + apply bytes_memcpy_ok; [done|done| |done]. eapply mapped_sub; [exact Hm|lia|lia].
Qed.

(** The characters of a fixed-point number. *)
Definition fixed (v fp : Z) : list Z :=
  if 0 <=? fp then signed v ++ replicate (Z.to_nat fp) 48
  else let e := 10 ^ (- fp) in
    (if v <? 0 then [45] else []) ++ decimal (Z.abs v / e) ++ [46] ++ digits (Z.to_nat (- fp)) (Z.abs v mod e).

Lemma tenmap_ok k : 1 ≤ k < 8 → aget _tenmap k = Some (10 ^ k).
Proof.
  intros Hk. assert (k = 1 ∨ k = 2 ∨ k = 3 ∨ k = 4 ∨ k = 5 ∨ k = 6 ∨ k = 7) as H by lia.
  by repeat (destruct H as [->|H]; [reflexivity|]); subst.
Qed.

(** Integer part and fraction, as the code computes them. *)
Lemma fraction_ok v e : - 2 ^ 31 ≤ v < 2 ^ 31 → 10 ≤ e < 2 ^ 30 →
  let abs := Z.quot v e in let div := i32 (u32 (v - u32 (abs * e))) in
  (if div <? 0 then - div else div) = Z.abs v mod e ∧ - 2 ^ 31 ≤ abs < 2 ^ 31 ∧
  (if (abs =? 0) && (v <? 0) then [45] else []) ++ signed abs = (if v <? 0 then [45] else []) ++ decimal (Z.abs v / e).
Proof.
  intros Hv He abs div. assert (div = v - abs * e ∧ Z.abs abs = Z.abs v / e ∧ Z.abs (v - abs * e) = Z.abs v mod e ∧ (v < 0 → abs ≤ 0) ∧ (0 ≤ v → 0 ≤ abs))
    as (Ed & Ea & Er & Hneg & Hpos).
  { assert (abs = if v <? 0 then - (Z.abs v / e) else Z.abs v / e) as Eabs.
    { unfold abs. destruct (Z.ltb_spec v 0).
      - rewrite Z.abs_neq by lia. replace v with (- - v) at 1 by lia. rewrite Z.quot_opp_l, Z.quot_div_nonneg by lia. done.
      - rewrite Z.abs_eq, Z.quot_div_nonneg by lia. done. }
    pose proof (Z.div_mod (Z.abs v) e ltac:(lia)) as Edm. pose proof (Z.mod_pos_bound (Z.abs v) e ltac:(lia)).
    assert (0 ≤ Z.abs v / e) by (apply Z.div_pos; lia).
    assert (Z.abs (v - abs * e) = Z.abs v mod e) as Er by (rewrite Eabs; destruct (Z.ltb_spec v 0); lia).
    split_and!; [|rewrite Eabs; destruct (Z.ltb_spec v 0); lia|done|rewrite Eabs; destruct (Z.ltb_spec v 0); lia..].
    unfold div. rewrite wrap_sub_idem_r. unfold wrap, swrap. change (2 ^ (32 - 1)) with (2 ^ 31).
    rewrite Zplus_mod_idemp_l. rewrite Z.mod_small; lia. }
  rewrite Ed. split; [destruct (Z.ltb_spec (v - abs * e) 0); lia|].
  assert (Z.abs v / e ≤ Z.abs v / 10) by (apply Z.div_le_compat_l; lia).
  split; [Z.div_mod_to_equations; lia|]. rewrite signed_split, <- Ea, app_assoc. f_equal.
  destruct (Z.ltb_spec v 0), (Z.eqb_spec abs 0), (Z.ltb_spec abs 0); cbn; try done; lia.
Qed.

Lemma signed_length v : - 2 ^ 31 ≤ v < 2 ^ 31 → len (signed v) ≤ 12.
Proof.
  intros Hv. rewrite signed_split, length_app. assert (len (decimal (Z.abs v)) ≤ Z.of_nat 10); [|destruct (v <? 0); cbn [length]; lia].
  apply decimal_length; [lia|lia|]. change (10 ^ Z.of_nat 10) with (10 ^ 10). lia.
Qed.

Lemma signed_pos v : 0 ≤ v → signed v = decimal v.
Proof. intros Hv. unfold signed. by rewrite (proj2 (Z.ltb_ge _ _)). Qed.

(** The part of [fmt_s32_dfp] for digits behind the point. *)
Lemma dfp_point_ok v k : - 2 ^ 31 ≤ v < 2 ^ 31 → 1 ≤ k < 8 → formats (λ out, fmt_s32_dfp out v (- k)) (fixed v (- k)).
Proof.
  intros Hv Hk. assert (10 ^ 1 ≤ 10 ^ k ≤ 10 ^ 7) as He by (split; apply Z.pow_le_mono_r; lia).
  destruct (fraction_ok v (10 ^ k) Hv ltac:(lia)) as (Efrac & Habs & Esign). cbn zeta in Efrac, Habs, Esign.
  pose proof (Z.mod_pos_bound (Z.abs v) (10 ^ k) ltac:(lia)) as Hfr.
  assert (fixed v (- k) = (if (Z.quot v (10 ^ k) =? 0) && (v <? 0) then [45] else []) ++ signed (Z.quot v (10 ^ k)) ++ [46] ++
    digits (Z.to_nat k) (Z.abs v mod 10 ^ k)) as Efix.
  { unfold fixed. rewrite (proj2 (Z.leb_gt 0 (- k))), Z.opp_involutive by lia. cbn zeta. by rewrite !app_assoc, Esign. }
  rewrite Efix. clear Efix Esign. set (fr := Z.abs v mod 10 ^ k) in *. set (ab := Z.quot v (10 ^ k)) in *. set (b := (ab =? 0) && (v <? 0)).
  destruct (fmt_s32_dec_ok ab Habs) as [Hnull Hout]. destruct (fmt_s32_dec_ok fr ltac:(lia)) as [_ Hfrac].
  rewrite signed_pos in Hfrac by lia.
  assert (digits (Z.to_nat k) fr = replicate (Z.to_nat k - length (decimal fr)) 48 ++ decimal fr) as Edig
    by (apply digits_decimal; rewrite ?Z2Nat.id by lia; lia).
  assert (len (decimal fr) ≤ k) as Hlf by (rewrite <- (Z2Nat.id k) by lia; apply decimal_length; rewrite ?Z2Nat.id; lia).
  unfold fmt_s32_dfp, TENMAP_SIZE. change (Z.of_nat (length _tenmap)) with 8.
  rewrite (proj2 (Z.ltb_lt (- (8)) (- k))), (proj2 (Z.eqb_neq (- k) 0)), (proj2 (Z.ltb_ge 0 (- k))) by lia. rewrite Z.opp_involutive, tenmap_ok by done.
  cbn zeta. split.
  - intros m. rewrite (bind_done _ _ m tt m eq_refl), (bind_done _ _ m (10 ^ k) m eq_refl). fold ab. fold b.
    rewrite (bind_done _ _ m (b2z b) m) by (by destruct b). change (NULL =? NULL) with true. cbn iota.
    rewrite (bind_done _ _ m (b2z b + (len (signed ab) + 1)) m) by (by rewrite (bind_done _ _ _ _ _ (Hnull m))).
    unfold mret, M_ret. f_equal. rewrite !length_app, digits_length. destruct b; cbn [length b2z]; lia.
  - intros out m Ho Hm. rewrite (bind_done _ _ m tt m eq_refl), (bind_done _ _ m (10 ^ k) m eq_refl). fold ab. rewrite Efrac. fold b.
    rewrite (proj2 (Z.eqb_neq out NULL)) by (unfold NULL; lia). cbn [negb]. rewrite !length_app, digits_length in Hm. cbn [length] in Hm.
    set (s0 := if b then [45] else []) in *. set (m0 := poke m out s0).
    rewrite (bind_done _ _ m (len s0) m0).
    2: { unfold m0, s0 in *. destruct b; [|done]. cbn [length] in *.
         rewrite (bind_done _ _ _ _ _ (wr_ok m out 45 ltac:(eapply mapped_sub; [exact Hm|lia|lia]) ltac:(unfold uint; lia))). done. }
    set (s1 := signed ab) in *. set (m1 := poke m0 (out + len s0) s1).
    rewrite !length_app, digits_length. cbn [length].
    rewrite (bind_done _ _ m0 (len s0 + len s1 + 1) (poke m out (s0 ++ s1 ++ [46] ++ digits (Z.to_nat k) fr))).
    { unfold mret, M_ret. f_equal. lia. }
    assert (∀ p n m', out ≤ p → p + n ≤ out + Z.of_nat (length s0 + (length s1 + (1 + Z.to_nat k))) → (∀ p n, mapped m p n → mapped m' p n) → mapped m' p n)
      as Hsub by (intros p n m' H1 H2 Hk'; apply Hk'; eapply mapped_sub; [exact Hm|lia|lia]).
    rewrite (bind_done _ _ _ _ _ (Hout (out + len s0) m0 ltac:(lia) ltac:(apply Hsub; [lia|lia|intros; by apply mapped_poke]))). cbn beta zeta. fold m1.
    set (p := out + (len s0 + len s1)). set (m2 := poke m1 p [46]).
    rewrite (bind_done _ _ _ tt m2).
    2: { apply wr_ok; [|unfold uint; lia]. apply Hsub; [lia|lia|]. intros; by do 2 apply mapped_poke. }
    replace (out + (len s0 + len s1 + 1)) with (p + 1) by (unfold p; lia). set (m3 := poke m2 (p + 1) (decimal fr)).
    assert (∀ p n, mapped m p n → mapped m2 p n) as Hm2 by (intros; by do 3 apply mapped_poke).
    rewrite (bind_done _ _ _ _ _ (Hfrac (p + 1) m2 ltac:(lia) ltac:(apply Hsub; [lia|lia|exact Hm2]))). cbn beta. fold m3.
    rewrite (bind_done _ _ _ k (poke m3 (p + 1) (digits (Z.to_nat k) fr))).
    + unfold mret, M_ret. f_equal. unfold m3. rewrite poke_over by (rewrite digits_length; lia).
      rewrite (poke_app m out s0), (poke_app _ _ s1), (poke_app _ _ [46]). fold m0. fold m1. cbn [length].
      replace (out + len s0 + len s1) with p by (unfold p; lia). done.
    + rewrite Edig. apply fmt_lpad_ok; [lia|apply bytes_at_poke|apply decimal_byte; lia| |done].
      apply Hsub; [lia|lia|]. intros; by apply mapped_poke, Hm2.
Qed.

Lemma fmt_s32_dfp_ok v fp : - 2 ^ 31 ≤ v < 2 ^ 31 → -8 < fp < 2 ^ 31 → formats (λ out, fmt_s32_dfp out v fp) (fixed v fp).
Proof.
  intros Hv Hfp. destruct (Z.lt_ge_cases fp 0) as [Hneg|Hpos].
  { replace fp with (- - fp) by lia. apply dfp_point_ok; lia. }
  destruct (fmt_s32_dec_ok v Hv) as [Hnull Hout]. pose proof (signed_length v Hv) as Hl.
  unfold fixed. rewrite (proj2 (Z.leb_le 0 fp)) by done. unfold fmt_s32_dfp, TENMAP_SIZE. change (Z.of_nat (length _tenmap)) with 8.
  rewrite (proj2 (Z.ltb_lt (- (8)) fp)) by lia. destruct (Z.eqb_spec fp 0) as [->|Hne].
  - cbn [Z.to_nat replicate]. rewrite app_nil_r. split; [apply Hnull|apply Hout].
  - rewrite (proj2 (Z.ltb_lt 0 fp)) by lia. split.
    + intros m. rewrite (bind_done _ _ m tt m eq_refl), (bind_done _ _ _ _ _ (Hnull m)). cbn beta.
      rewrite (bind_done _ _ m tt m eq_refl). unfold mret, M_ret. f_equal. rewrite length_app, length_replicate, wrap_small; [lia|unfold uint; lia].
    + intros out m Ho Hm. rewrite length_app, length_replicate in *. rewrite (bind_done _ _ m tt m eq_refl).
      rewrite (bind_done _ _ _ _ _ (Hout out m Ho ltac:(eapply mapped_sub; [exact Hm|lia|lia]))). cbn beta.
      rewrite (proj2 (Z.eqb_neq out NULL)) by (unfold NULL; lia). cbn [negb]. rewrite poke_app.
      rewrite (bind_done _ _ _ tt (poke (poke m out (signed v)) (out + len (signed v)) (replicate (Z.to_nat fp) 48))).
      * unfold mret, M_ret. f_equal. rewrite wrap_small; [lia|unfold uint; lia].
      * apply wrs_ok; [rewrite length_replicate; apply mapped_poke; eapply mapped_sub; [exact Hm|lia|lia]|].
        apply Forall_replicate. unfold uint. lia.
Qed.

(** ** Reading decimals *)

Lemma is_digit_ok c : _is_digit c = true ↔ digit c.
Proof. unfold _is_digit, digit. rewrite andb_true_iff, !Z.leb_le. done. Qed.

Lemma scn_dec_loop_ok rest : (∀ c, head rest = Some c → ¬ digit c) → ∀ cs a str m, Forall digit cs → bytes_at m str (cs ++ rest) →
  scn_dec_loop (length (cs ++ rest)) str (u32 a) m = Done (u32 (foldl (λ a c, a * 10 + (c - 48)) a cs)) m.
Proof.
  intros Hrest. induction cs as [|c cs IH]; intros a str m Hd Hat; cbn [app length foldl] in *.
  - destruct rest as [|c rest]; [done|]. cbn [length scn_dec_loop]. apply bytes_at_cons in Hat as [Hc _].
    rewrite (bind_done _ _ _ _ _ (rd_ok _ _ _ Hc)). cbn beta. specialize (Hrest c eq_refl). rewrite <- is_digit_ok in Hrest.
    by destruct (_is_digit c).
  - apply Forall_cons in Hd as [Hc Hd]. apply bytes_at_cons in Hat as [Hc' Hat]. cbn [scn_dec_loop].
    rewrite (bind_done _ _ _ _ _ (rd_ok _ _ _ Hc')). cbn beta. rewrite (proj2 (is_digit_ok c)) by done. cbn [negb].
    rewrite wrap_add_idem_l. assert (u32 (u32 a * 10 + (c - 48)) = u32 (a * 10 + (c - 48))) as ->; [|by apply IH].
    unfold wrap. rewrite <- Zplus_mod_idemp_l, Zmult_mod_idemp_l, Zplus_mod_idemp_l. done.
Qed.

Lemma scn_u32_dec_ok cs rest str m : Forall digit cs → (∀ c, head rest = Some c → ¬ digit c) → bytes_at m str (cs ++ rest) →
  scn_u32_dec str (len (cs ++ rest)) m = Done (u32 (value cs)) m.
Proof. intros Hd Hr Hat. unfold scn_u32_dec. rewrite Nat2Z.id. by apply (scn_dec_loop_ok rest Hr cs 0). Qed.

(** ** Hexadecimal *)

Definition hex_char (n : Z) : Z := if n <? 10 then 48 + n else 55 + n.
Definition hex_of (b : Z) : list Z := [hex_char (b / 16); hex_char (b mod 16)].
Definition hex_text (bs : list Z) : list Z := concat (hex_of <$> bs).

(** Hexadecimal characters of either case, and what they stand for. *)
Definition hex_digit (c : Z) : Prop := 48 ≤ c ≤ 57 ∨ 65 ≤ c ≤ 70 ∨ 97 ≤ c ≤ 102.
Definition nib (c : Z) : Z := if c <=? 57 then c - 48 else if c <=? 70 then c - 55 else c - 87.
Fixpoint unhex (cs : list Z) : list Z :=
  match cs with a :: b :: cs => nib a * 16 + nib b :: unhex cs | _ => [] end.

Lemma hex_char_ok n : 0 ≤ n < 16 → aget _hex_chars n = Some (hex_char n) ∧ hex_digit (hex_char n) ∧ nib (hex_char n) = n ∧ byte (hex_char n).
Proof.
  intros Hn. split_and!; [|unfold hex_char, hex_digit, nib, uint; ztest..].
  assert (n = 0 ∨ n = 1 ∨ n = 2 ∨ n = 3 ∨ n = 4 ∨ n = 5 ∨ n = 6 ∨ n = 7 ∨ n = 8 ∨ n = 9 ∨ n = 10 ∨ n = 11 ∨ n = 12 ∨ n = 13 ∨ n = 14 ∨ n = 15) as H by lia.
  by repeat (destruct H as [->|H]; [reflexivity|]); subst.
Qed.

Lemma byte_hex_nibbles b : byte b → 0 ≤ b / 16 < 16 ∧ 0 ≤ b mod 16 < 16.
Proof. unfold uint. intros Hb. Z.div_mod_to_equations. lia. Qed.

Lemma fmt_byte_hex_ok b : byte b → formats (λ out, fmt_byte_hex out b) (hex_of b).
Proof.
  intros Hb. destruct (byte_hex_nibbles b Hb) as [Hh Hl]. unfold fmt_byte_hex, hex_of. change 0x0F with (2 ^ 4 - 1).
  rewrite Z.shiftr_div_pow2, land_mask by lia. change (2 ^ 4) with 16. split; [done|]. intros out m Ho Hm. cbn [length] in Hm.
  destruct (hex_char_ok _ Hh) as (-> & _ & _ & Bh). destruct (hex_char_ok _ Hl) as (-> & _ & _ & Bl).
  rewrite (proj2 (Z.eqb_neq out NULL)) by (unfold NULL; lia). cbn [negb].
  set (h := hex_char (b / 16)) in *. set (l := hex_char (b mod 16)) in *.
  rewrite (bind_done _ _ m tt (poke m out [h; l])); [done|]. rewrite (bind_done _ _ m h m eq_refl).
  rewrite (bind_done _ _ _ _ _ (wr_ok m out h ltac:(eapply mapped_sub; [exact Hm|lia|lia]) Bh)).
  rewrite (bind_done _ _ _ l (<[out := h]> m) eq_refl).
  apply wr_ok; [|done]. apply (mapped_poke m out [_]). eapply mapped_sub; [exact Hm|lia|lia].
Qed.

Lemma hex_text_cons b bs : hex_text (b :: bs) = hex_of b ++ hex_text bs.
Proof. done. Qed.

Lemma hex_text_length bs : length (hex_text bs) = (2 * length bs)%nat.
Proof. induction bs as [|b bs IH]; [done|]. rewrite hex_text_cons, length_app, IH. cbn. lia. Qed.

Lemma hex_text_digits bs : Forall byte bs → Forall hex_digit (hex_text bs).
Proof.
  induction 1 as [|b bs Hb _ IH]; [constructor|]. rewrite hex_text_cons. apply Forall_app. split; [|done].
  destruct (byte_hex_nibbles b Hb) as [Hh Hl]. apply Forall_cons. split; [by apply hex_char_ok|]. apply Forall_cons. split; [by apply hex_char_ok|constructor].
Qed.

Lemma unhex_text bs : Forall byte bs → unhex (hex_text bs) = bs.
Proof.
  induction 1 as [|b bs Hb _ IH]; [done|]. rewrite hex_text_cons. destruct (byte_hex_nibbles b Hb) as [Hh Hl]. cbn [hex_of app unhex].
  destruct (hex_char_ok _ Hh) as (_ & _ & -> & _). destruct (hex_char_ok _ Hl) as (_ & _ & -> & _). rewrite IH. f_equal.
  Z.div_mod_to_equations; lia.
Qed.

Lemma bytes_hex_loop_ok bs : Forall byte bs → ∀ out ptr m, 0 < out → bytes_at m ptr bs → mapped m out (2 * len bs) →
  ptr + len bs ≤ out ∨ out + 2 * len bs ≤ ptr → bytes_hex_loop (length bs) out ptr m = Done tt (poke m out (hex_text bs)).
Proof.
  induction 1 as [|b bs Hb Hbs IH]; intros out ptr m Ho Hat Hm Hd; [done|]. cbn [length bytes_hex_loop] in *.
  apply bytes_at_cons in Hat as [Hc Hat]. rewrite (bind_done _ _ _ _ _ (rd_ok _ _ _ Hc)). cbn beta.
  destruct (fmt_byte_hex_ok b Hb) as [_ Hhex]. rewrite (bind_done _ _ _ _ _ (Hhex out m Ho ltac:(eapply mapped_sub; [exact Hm|lia|cbn; lia]))).
  cbn beta. change (len (hex_of b)) with 2. rewrite IH.
  - by rewrite hex_text_cons, poke_app.
  - lia.
  - apply bytes_at_poke_other; [done|]. change (len (hex_of b)) with 2. lia.
  - apply mapped_poke. eapply mapped_sub; [exact Hm|lia|lia].
  - lia.
Qed.

Lemma fmt_bytes_hex_ok bs out ptr m : Forall byte bs → 0 < out → len bs < 2 ^ 63 → bytes_at m ptr bs → mapped m out (2 * len bs) →
  ptr + len bs ≤ out ∨ out + 2 * len bs ≤ ptr → fmt_bytes_hex out ptr (len bs) m = Done (2 * len bs) (poke m out (hex_text bs)).
Proof.
  intros Hby Ho Hlen Hat Hm Hd. unfold fmt_bytes_hex. rewrite (proj2 (Z.eqb_neq out NULL)) by (unfold NULL; lia). cbn [negb].
  rewrite Nat2Z.id, (bind_done _ _ _ _ _ (bytes_hex_loop_ok bs Hby out ptr m Ho Hat Hm Hd)). unfold mret, M_ret. f_equal.
  rewrite wrap_small by (unfold uint; lia). lia.
Qed.

(** ** The end of a string *)

Lemma bytes_at_size m p bs : bytes_at m p bs → (length bs ≤ size m)%nat.
Proof.
  intros Hat. set (ps := (λ i, p + Z.of_nat i) <$> seq 0 (length bs)). rewrite <- size_dom.
  assert (size (list_to_set ps : gset Z) = length bs) as <-.
  { rewrite size_list_to_set; [unfold ps; by rewrite length_fmap, length_seq|]. unfold ps. apply NoDup_fmap_2; [|apply NoDup_seq]. intros i j. lia. }
  apply subseteq_size. intros q [i [-> Hi]]%elem_of_list_to_set%list_elem_of_fmap. apply elem_of_dom. apply elem_of_seq in Hi.
  destruct (lookup_lt_is_Some_2 bs i ltac:(lia)) as [x Hx]. exists x. by apply Hat.
Qed.

Lemma strlen_loop_ok str m : ∀ cs tmp fuel, Forall (λ c, c ≠ 0) cs → bytes_at m tmp (cs ++ [0]) → (length cs < fuel)%nat →
  strlen_loop fuel str tmp m = Done (tmp + len cs - str) m.
Proof.
  induction cs as [|c cs IH]; intros tmp [|fuel] Hcs Hat Hf; try (cbn in Hf; lia); cbn [app length strlen_loop] in *;
    apply bytes_at_cons in Hat as [Hc Hat]; rewrite (bind_done _ _ _ _ _ (rd_ok _ _ _ Hc)); cbn beta.
  - cbn. unfold mret, M_ret. f_equal. lia.
  - apply Forall_cons in Hcs as [Hn Hcs]. rewrite (proj2 (Z.eqb_neq c 0)) by done. cbn [negb]. rewrite IH by (done || lia). f_equal. lia.
Qed.

Lemma fmt_strlen_ok str cs m : Forall (λ c, c ≠ 0) cs → bytes_at m str (cs ++ [0]) → fmt_strlen str m = Done (len cs) m.
Proof.
  intros Hcs Hat. unfold fmt_strlen. pose proof (bytes_at_size _ _ _ Hat) as Hs. rewrite length_app in Hs. cbn in Hs.
  rewrite (strlen_loop_ok str m cs str) by (done || lia). f_equal. lia.
Qed.

(** ** Reading hexadecimals *)

Lemma nib_range c : hex_digit c → 0 ≤ nib c < 16.
Proof. unfold hex_digit, nib. intros. ztest. Qed.

Lemma hex_nib_ok c : hex_digit c → _hex_nib c = nib c.
Proof.
  intros Hc. assert (byte c) as Hb by (unfold hex_digit, uint in *; lia).
  pose (P := λ c, negb ((48 <=? c) && (c <=? 57) || (65 <=? c) && (c <=? 70) || (97 <=? c) && (c <=? 102)) || (_hex_nib c =? nib c)).
  assert (P c = true) as HP by (apply (byte_check P); [vm_compute; reflexivity|done]).
  unfold P in HP. apply orb_true_iff in HP as [HP|HP%Z.eqb_eq]; [|done]. apply negb_true_iff in HP. unfold hex_digit in Hc.
  exfalso. destruct (Z.leb_spec 48 c), (Z.leb_spec c 57), (Z.leb_spec 65 c), (Z.leb_spec c 70), (Z.leb_spec 97 c), (Z.leb_spec c 102); cbn in HP; try done; lia.
Qed.

Lemma fmt_hex_byte_ok a b hex m : hex_digit a → hex_digit b → m !! hex = Some a → m !! (hex + 1) = Some b →
  fmt_hex_byte hex m = Done (nib a * 16 + nib b) m.
Proof.
  intros Ha Hb Ea Eb. unfold fmt_hex_byte. rewrite (bind_done _ _ _ _ _ (rd_ok _ _ _ Ea)), (bind_done _ _ _ _ _ (rd_ok _ _ _ Eb)).
  rewrite !hex_nib_ok by done. pose proof (nib_range a Ha). pose proof (nib_range b Hb). unfold mret, M_ret. f_equal.
  rewrite lor_shiftl by (unfold uint; lia). change (2 ^ 4) with 16. apply wrap_small. unfold uint. lia.
Qed.

Lemma hex_bytes_loop_ok : ∀ n cs out hex m, length cs = (2 * n)%nat → Forall hex_digit cs → bytes_at m hex cs → mapped m out (Z.of_nat n) →
  hex + len cs ≤ out ∨ out + Z.of_nat n ≤ hex → hex_bytes_loop n out hex m = Done tt (poke m out (unhex cs)).
Proof.
  induction n as [|n IH]; intros cs out hex m Hl Hcs Hat Hm Hd; [by destruct cs|].
  destruct cs as [|a [|b cs]]; cbn [length] in *; [lia|lia|]. cbn [hex_bytes_loop unhex poke].
  apply Forall_cons in Hcs as [Ha [Hb Hcs]%Forall_cons]. apply bytes_at_cons in Hat as [Ea [Eb Hat]%bytes_at_cons].
  rewrite (bind_done _ _ _ _ _ (fmt_hex_byte_ok a b hex m Ha Hb Ea Eb)). cbn beta.
  rewrite (bind_done _ _ _ _ _ (wr_ok m out (nib a * 16 + nib b) ltac:(eapply mapped_sub; [exact Hm|lia|lia])
    ltac:(pose proof (nib_range a Ha); pose proof (nib_range b Hb); unfold uint; lia))).
  apply IH; [lia|done| | |lia].
  - replace (hex + 2) with (hex + 1 + 1) by lia. apply (bytes_at_poke_other m out [_]); [done|cbn; lia].
  - apply (mapped_poke m out [_]). eapply mapped_sub; [exact Hm|lia|lia].
Qed.

Lemma fmt_hex_bytes_ok cs out hex m : Forall hex_digit cs → bytes_at m hex (cs ++ [0]) →
  if Z.odd (len cs) then fmt_hex_bytes out hex m = Done 0 m
  else mapped m out (len cs / 2) → hex + len cs ≤ out ∨ out + len cs / 2 ≤ hex →
    fmt_hex_bytes out hex m = Done (len cs / 2) (poke m out (unhex cs)).
Proof.
  intros Hcs Hat. assert (Forall (λ c, c ≠ 0) cs) as Hn by (eapply Forall_impl; [exact Hcs|unfold hex_digit; lia]).
  unfold fmt_hex_bytes. rewrite (bind_done _ _ _ _ _ (fmt_strlen_ok hex cs m Hn Hat)). cbn beta zeta.
  assert (Z.land (len cs) 1 = len cs mod 2) as -> by (apply (land_mask 1); lia). rewrite Zmod_odd.
  destruct (Z.odd (len cs)) eqn:Eo; [done|]. intros Hm Hd. change (negb (0 =? 0)) with false. cbn iota.
  rewrite Z.shiftr_div_pow2 by lia. change (2 ^ 1) with 2. apply bytes_at_app in Hat as [Hat _].
  assert (len cs mod 2 = 0) as Hmod by (rewrite Zmod_odd, Eo; done).
  rewrite (bind_done _ _ _ _ _ (hex_bytes_loop_ok (Z.to_nat (len cs / 2)) cs out hex m ltac:(Z.div_mod_to_equations; lia) Hcs Hat
    ltac:(rewrite Z2Nat.id by (apply Z.div_pos; lia); done) ltac:(rewrite Z2Nat.id by (apply Z.div_pos; lia); done))). done.
Qed.

(** ** Numbers in hexadecimal *)

Lemma be_bytes_cons n v : be_bytes (S n) v = (v / 256 ^ Z.of_nat n) mod 256 :: be_bytes n v.
Proof.
  revert v. induction n as [|n IH]; intros v; [cbn [be_bytes app]; by rewrite Z.div_1_r|].
  change (be_bytes (S (S n)) v) with (be_bytes (S n) (v / 256) ++ [v mod 256]). rewrite IH. cbn [app].
  rewrite Z.div_div, <- Z.pow_succ_r, <- Nat2Z.inj_succ by lia. done.
Qed.

Lemma hex_reverse_loop_ok v : ∀ n out m, 0 < out → mapped m out (2 * Z.of_nat n) →
  hex_reverse_loop n out (var_byte v) m = Done tt (poke m out (hex_text (be_bytes n v))).
Proof.
  induction n as [|n IH]; intros out m Ho Hm; [done|]. rewrite be_bytes_cons. set (b := (v / 256 ^ Z.of_nat n) mod 256).
  assert (byte b) as Hb by (apply Z.mod_pos_bound; lia).
  cbn [hex_reverse_loop]. rewrite (bind_done _ _ m b m).
  2: { unfold var_byte, mret, M_ret, wrap. rewrite Z.shiftr_div_pow2 by lia. rewrite Z.pow_mul_r by lia. done. }
  destruct (fmt_byte_hex_ok b Hb) as [_ Hhex]. rewrite (bind_done _ _ _ _ _ (Hhex out m Ho ltac:(eapply mapped_sub; [exact Hm|lia|cbn; lia]))).
  cbn beta. change (len (hex_of b)) with 2. rewrite IH; [|lia|].
  - by rewrite hex_text_cons, poke_app.
  - apply mapped_poke. eapply mapped_sub; [exact Hm|lia|lia].
Qed.

Lemma fmt_hex_reverse_ok n v out m : (n ≤ 8)%nat → 0 < out → mapped m out (2 * Z.of_nat n) →
  fmt_bytes_hex_reverse out (var_byte v) (Z.of_nat n) m = Done (2 * Z.of_nat n) (poke m out (hex_text (be_bytes n v))).
Proof.
  intros Hn Ho Hm. unfold fmt_bytes_hex_reverse. rewrite Nat2Z.id, (bind_done _ _ _ _ _ (hex_reverse_loop_ok v n out m Ho Hm)).
  unfold mret, M_ret. f_equal. rewrite Z.shiftl_mul_pow2, wrap_small by (unfold uint; lia). lia.
Qed.

Lemma scn_hex_step a c : hex_digit c → u32 (Z.lor (u32 (Z.shiftl (u32 a) 4)) (nib c)) = u32 (a * 16 + nib c).
Proof.
  intros Hc%nib_range. assert (u32 (Z.shiftl (u32 a) 4) = Z.shiftl (a mod 2 ^ 28) 4) as ->.
  { rewrite !Z.shiftl_mul_pow2 by lia. unfold wrap. change (2 ^ 4) with 16. Z.div_mod_to_equations. lia. }
  rewrite lor_shiftl by (unfold uint; lia). unfold wrap. change (2 ^ 4) with 16. Z.div_mod_to_equations. lia.
Qed.

Lemma scn_hex_loop_ok : ∀ cs a str m, Forall hex_digit cs → bytes_at m str cs →
  scn_hex_loop (length cs) str (u32 a) m = Done (u32 (foldl (λ a c, a * 16 + nib c) a cs)) m.
Proof.
  induction cs as [|c cs IH]; intros a str m Hcs Hat; [done|]. apply Forall_cons in Hcs as [Hc Hcs]. apply bytes_at_cons in Hat as [Ec Hat].
  cbn [length scn_hex_loop foldl]. rewrite (bind_done _ _ _ _ _ (rd_ok _ _ _ Ec)). cbn beta. pose proof (scn_hex_step a c Hc) as Hstep.
  rewrite <- (IH (a * 16 + nib c) (str + 1) m Hcs Hat), <- Hstep. unfold hex_digit, nib in *. clear Hstep IH.
  destruct (_is_digit c) eqn:Ed; cbn [negb].
  - apply is_digit_ok in Ed. unfold digit in Ed. by rewrite (proj2 (Z.leb_le c 57)) by lia.
  - assert (57 < c) as Hgt. { assert (¬ digit c) as Hnd by (rewrite <- is_digit_ok; by rewrite Ed). unfold digit in Hnd. lia. }
    rewrite (proj2 (Z.leb_gt c 57)) by done. unfold _is_upper, _to_lower.
    destruct (Z.leb_spec c 70).
    + rewrite (proj2 (Z.leb_le 65 c)), (proj2 (Z.leb_le c 90)) by lia. cbn [andb]. rewrite wrap_small by (unfold uint; lia).
      rewrite (proj2 (Z.eqb_neq _ 0)), (proj2 (Z.ltb_ge 102 _)) by lia. cbn [orb]. do 3 f_equal. lia.
    + rewrite (proj2 (Z.leb_gt c 90)), andb_false_r by lia.
      rewrite (proj2 (Z.eqb_neq _ 0)), (proj2 (Z.ltb_ge 102 _)) by lia. cbn [orb]. do 3 f_equal. lia.
Qed.

Lemma hex_text_value bs : Forall byte bs → ∀ a, foldl (λ a c, a * 16 + nib c) a (hex_text bs) = foldl (λ v x, v * 256 + x) a bs.
Proof.
  induction 1 as [|b bs Hb _ IH]; intros a; [done|]. rewrite hex_text_cons. cbn [hex_of app foldl].
  destruct (byte_hex_nibbles b Hb) as [Hh Hl]. destruct (hex_char_ok _ Hh) as (_ & _ & -> & _). destruct (hex_char_ok _ Hl) as (_ & _ & -> & _).
  rewrite IH. f_equal. Z.div_mod_to_equations; lia.
Qed.

Lemma scn_u32_hex_ok bs str m : Forall byte bs → bytes_at m str (hex_text bs) →
  scn_u32_hex str (2 * len bs) m = Done (u32 (be_value bs)) m.
Proof.
  intros Hby Hat. unfold scn_u32_hex. replace (Z.to_nat (2 * len bs)) with (length (hex_text bs)) by (rewrite hex_text_length; lia).
  rewrite (scn_hex_loop_ok _ 0) by (done || by apply hex_text_digits). by rewrite hex_text_value.
Qed.

Lemma str_loop_ok : ∀ cs out str n m fuel, Forall (λ c, c ≠ 0) cs → Forall byte cs → bytes_at m str (cs ++ [0]) → mapped m out (len cs) →
  str + len cs < out ∨ out + len cs ≤ str → (length cs < fuel)%nat → str_loop fuel out str n m = Done (n + len cs) (poke m out cs).
Proof.
  induction cs as [|c cs IH]; intros out str n m [|fuel] Hn Hb Hat Hm Hd Hf; try (cbn in Hf; lia); cbn [app length str_loop poke] in *;
    apply bytes_at_cons in Hat as [Hc Hat]; rewrite (bind_done _ _ _ _ _ (rd_ok _ _ _ Hc)); cbn beta.
  - cbn. unfold mret, M_ret. by rewrite Z.add_0_r.
  - apply Forall_cons in Hn as [Hc0 Hn]. apply Forall_cons in Hb as [Hcb Hb]. rewrite (proj2 (Z.eqb_neq c 0)) by done. cbn [negb].
    rewrite (bind_done _ _ _ _ _ (wr_ok m out c ltac:(eapply mapped_sub; [exact Hm|lia|lia]) Hcb)).
    rewrite IH; [f_equal; lia|done|done| | |lia|lia].
    + apply (bytes_at_poke_other m out [_]); [done|]. rewrite length_app. cbn [length]. lia.
    + apply (mapped_poke m out [_]). eapply mapped_sub; [exact Hm|lia|lia].
Qed.

(** Copying a string without its end. *)
Lemma fmt_str_ok str cs m : Forall (λ c, c ≠ 0) cs → Forall byte cs → bytes_at m str (cs ++ [0]) →
  fmt_str NULL str m = Done (len cs) m ∧
  ∀ out, 0 < out → mapped m out (len cs) → str + len cs < out ∨ out + len cs ≤ str → fmt_str out str m = Done (len cs) (poke m out cs).
Proof.
  intros Hn Hb Hat. split; [by apply fmt_strlen_ok|]. intros out Ho Hm Hd. unfold fmt_str. rewrite (proj2 (Z.eqb_neq out NULL)) by (unfold NULL; lia).
  pose proof (bytes_at_size _ _ _ Hat) as Hs. rewrite length_app in Hs. cbn in Hs. by rewrite (str_loop_ok cs) by (done || lia).
Qed.

(** ** The functions of the library *)

(** C27: The decimal functions write the digits of their argument, without leading zeros,
    with a sign, or with a decimal point, and for a null buffer return the length
    only; reading up to a character that is no digit gives the number back. *)
Theorem fmt_decimal_correct :
  (∀ v, 0 ≤ v < 10 ^ 20 → Forall digit (decimal v) ∧ value (decimal v) = v ∧ ∀ k, (0 < k)%nat → (len (decimal v) ≤ Z.of_nat k ↔ v < 10 ^ Z.of_nat k)) ∧
  (∀ v, uint 32 v → formats (λ out, fmt_u32_dec out v) (decimal v)) ∧
  (∀ v, uint 64 v → formats (λ out, fmt_u64_dec out v) (decimal v)) ∧
  (∀ v, - 2 ^ 31 ≤ v < 2 ^ 31 → formats (λ out, fmt_s32_dec out v) (signed v)) ∧
  (∀ v, - 2 ^ 63 ≤ v < 2 ^ 63 → formats (λ out, fmt_s64_dec out v) (signed v)) ∧
  (∀ v fp, - 2 ^ 31 ≤ v < 2 ^ 31 → -8 < fp < 2 ^ 31 → formats (λ out, fmt_s32_dfp out v fp) (fixed v fp)) ∧
  (∀ v rest str m, uint 32 v → (∀ c, head rest = Some c → ¬ digit c) → bytes_at m str (decimal v ++ rest) →
     scn_u32_dec str (len (decimal v ++ rest)) m = Done v m).
Proof.
  split_and!.
  - intros v Hv. split_and!; [by apply decimal_digits|by apply decimal_value|]. intros k Hk. by apply decimal_length.
  - exact fmt_u32_dec_ok.
  - exact fmt_u64_dec_ok.
  - exact fmt_s32_dec_ok.
  - exact fmt_s64_dec_ok.
  - exact fmt_s32_dfp_ok.
  - intros v rest str m Hv Hrest Hat. assert (0 ≤ v < 10 ^ 20) as Hv' by (unfold uint in Hv; lia).
    rewrite scn_u32_dec_ok by (done || by apply decimal_digits). by rewrite decimal_value, wrap_small.
Qed.

(** Bytes written in hexadecimal are read back by [fmt_hex_bytes], and a number by
    [scn_u32_hex]. *)
Theorem fmt_hex_roundtrip bs ptr out m : Forall byte bs → 0 < out → len bs < 2 ^ 63 → bytes_at m ptr bs → mapped m out (2 * len bs) →
  ptr + len bs ≤ out ∨ out + 2 * len bs ≤ ptr →
  fmt_bytes_hex out ptr (len bs) m = Done (2 * len bs) (poke m out (hex_text bs)) ∧
  (∀ m' hex dst, bytes_at m' hex (hex_text bs ++ [0]) → mapped m' dst (len bs) → hex + 2 * len bs ≤ dst ∨ dst + len bs ≤ hex →
     fmt_hex_bytes dst hex m' = Done (len bs) (poke m' dst bs)) ∧
  (∀ v m' hex, uint 32 v → 0 < hex → mapped m' hex 8 →
     let m2 := poke m' hex (hex_text (be_bytes 4 v)) in fmt_u32_hex hex v m' = Done 8 m2 ∧ scn_u32_hex hex 8 m2 = Done v m2).
Proof.
  intros Hby Ho Hlen Hat Hm Hd. split_and!.
  - by apply fmt_bytes_hex_ok.
  - intros m' hex dst Hat' Hm' Hd'. pose proof (fmt_hex_bytes_ok (hex_text bs) dst hex m' (hex_text_digits bs Hby) Hat') as H.
    assert (len (hex_text bs) = 2 * len bs) as El by (rewrite hex_text_length; lia). rewrite El in H.
    rewrite Z.odd_mul in H. cbn [Z.odd andb] in H. rewrite (Z.mul_comm 2), Z.div_mul, unhex_text in H by done. apply H; [done|lia].
  - intros v m' hex Hv Hh Hm' m2. split; [exact (fmt_hex_reverse_ok 4 v hex m' ltac:(lia) Hh Hm')|].
    pose proof (scn_u32_hex_ok (be_bytes 4 v) hex m2 (be_bytes_byte 4 v) (bytes_at_poke _ _ _)) as H. rewrite be_bytes_length in H. change (2 * Z.of_nat 4) with 8 in H.
    rewrite H. rewrite be_value_bytes. change (256 ^ Z.of_nat 4) with (2 ^ 32). unfold uint in Hv. rewrite (Z.mod_small v), wrap_small by (unfold uint; lia).
    done.
Qed.

(** ** Concrete numbers *)

Lemma fmt_decimal_correct_witness :
  let m := poke ∅ 1000 (replicate 20 0) in
  decimal 18446744073709551615 = [49; 56; 52; 52; 54; 55; 52; 52; 48; 55; 51; 55; 48; 57; 53; 53; 49; 54; 49; 53] ∧
  fmt_u64_dec 1000 18446744073709551615 m = Done 20 (poke m 1000 (decimal 18446744073709551615)) ∧
  fmt_s32_dfp 1000 (-5) (-3) m = Done 6 (poke m 1000 [45; 48; 46; 48; 48; 53]).
Proof.
  intros m. destruct fmt_decimal_correct as (_ & _ & H64 & _ & _ & Hfp & _).
  assert (mapped m 1000 20) as Hm by exact (bytes_at_mapped m 1000 (replicate 20 0) (bytes_at_poke _ _ _)).
  split; [vm_compute; reflexivity|]. split.
  - apply (proj2 (H64 18446744073709551615 ltac:(unfold uint; lia))); [lia|exact Hm].
  - apply (proj2 (Hfp (-5) (-3) ltac:(lia) ltac:(lia))); [lia|]. apply (mapped_sub m 1000 20); [exact Hm|lia|vm_compute; discriminate].
Defined.

Lemma fmt_hex_roundtrip_witness :
  let m := poke (poke ∅ 500 [0xDE; 0xAD]) 1000 (replicate 4 0) in
  fmt_bytes_hex 1000 500 2 m = Done 4 (poke m 1000 [68; 69; 65; 68]) ∧
  let m' := poke (poke ∅ 1000 ([68; 69; 65; 68] ++ [0])) 2000 [0; 0] in fmt_hex_bytes 2000 1000 m' = Done 2 (poke m' 2000 [0xDE; 0xAD]).
Proof.
  intros m. destruct (fmt_hex_roundtrip [0xDE; 0xAD] 500 1000 m) as (E & D & _).
  - bytes.
  - lia.
  - cbn. lia.
  - apply bytes_at_poke_other; [apply bytes_at_poke|cbn; lia].
  - exact (bytes_at_mapped m 1000 (replicate 4 0) (bytes_at_poke _ _ _)).
  - cbn. lia.
  - split; [exact E|]. intros m'. apply (D m' 1000 2000).
    + apply bytes_at_poke_other; [apply bytes_at_poke|cbn; lia].
    + exact (bytes_at_mapped m' 2000 [0; 0] (bytes_at_poke _ _ _)).
    + cbn. lia.
Defined.

(** With a null buffer, [fmt_u32_hex] writes to the address 2. *)
Lemma fmt_u32_hex_null : fmt_u32_hex NULL 0 ∅ = Fault ∧
  fmt_u32_hex NULL 0 (poke ∅ 2 (replicate 6 7)) = Done 8 (poke ∅ 2 (replicate 6 48)).
Proof. split; vm_compute; reflexivity. Qed.

(** [fmt_strnlen] reads the character behind the last one it may consider. *)
Lemma fmt_strnlen_overread : fmt_strnlen 1000 2 (poke ∅ 1000 [65; 66]) = Fault.
Proof. vm_compute. reflexivity. Qed.

(** [scn_u32_hex] does not stop at a character below 'a' that is no digit. *)
Lemma scn_u32_hex_separator : let m := poke ∅ 1000 [49; 44; 50] in scn_u32_hex 1000 3 m = Done 0xFFFFFD52 m.
Proof. vm_compute. reflexivity. Qed.
