(* ===== verification/Coap.v ===== *)
(** * CoAP messages (sys/net/application_layer/nanocoap/nanocoap.c,
      sys/include/net/nanocoap.h)

    Parsing and building messages, the options, blockwise transfer and the dispatch
    of requests.  The memory is that of [ByteMem]; an access to an option outside
    [pkt->options] is a [Fault], too.  Data behind a pointer to constants (the
    value of an option, a string without its final 0, the payload of a reply) is
    passed as the list of its bytes; everything in packet buffers is in memory.

    Little-endian target, [MODULE_GCOAP] not compiled. *)

From S2P Require Import Prelude Bytes Buffers ByteMem.

(** ** Constants *)

(** Error numbers of the C library. *)
Definition EBADMSG : Z := 77.
Definition ENOSPC : Z := 28.
Definition ENOMEM : Z := 12.

Definition COAP_REQ : Z := 0.
Definition COAP_MATCH_SUBTREE : Z := 0x8000.
Definition COAP_FORMAT_NONE : Z := 0xFFFF.
Definition NANOCOAP_NOPTS_MAX : Z := 16.
Definition NANOCOAP_URI_MAX : Z := 64.
Definition NANOCOAP_BLOCK_SIZE_EXP_MAX : Z := 6.
Definition COAP_OPT_FINISH_PAYLOAD : Z := 1.
Definition COAP_OPT_LOCATION_PATH : Z := 8.
Definition COAP_OPT_URI_PATH : Z := 11.
Definition COAP_OPT_CONTENT_FORMAT : Z := 12.
Definition COAP_OPT_URI_QUERY : Z := 15.
Definition COAP_OPT_LOCATION_QUERY : Z := 20.
Definition COAP_OPT_BLOCK2 : Z := 23.
Definition COAP_OPT_BLOCK1 : Z := 27.
Definition COAP_TYPE_CON : Z := 0.
Definition COAP_TYPE_NON : Z := 1.
Definition COAP_TYPE_ACK : Z := 2.
Definition COAP_TYPE_RST : Z := 3.
Definition COAP_CODE_EMPTY : Z := 0.
Definition COAP_CODE_205 : Z := Z.lor (Z.shiftl 2 5) 5.
Definition COAP_CODE_BAD_OPTION : Z := Z.lor (Z.shiftl 4 5) 2.
Definition COAP_CODE_404 : Z := Z.lor (Z.shiftl 4 5) 4.
Definition COAP_FORMAT_LINK : Z := 40.
Definition COAP_BLOCKWISE_NUM_OFF : Z := 4.
Definition COAP_BLOCKWISE_SZX_MASK : Z := 7.

Definition sizeof_coap_hdr : Z := 4.

(** ** Data *)

Record coap_optpos_t := Optpos { opt_num : Z; offset : Z }.

Record coap_pkt_t := Pkt {
  hdr : Z;
  token : Z;
  payload : Z;
  payload_len : Z;
  options_len : Z;
  options : list coap_optpos_t
}.

Definition set_token v p := Pkt (hdr p) v (payload p) (payload_len p) (options_len p) (options p).
Definition set_payload v p := Pkt (hdr p) (token p) v (payload_len p) (options_len p) (options p).
Definition set_payload_len v p := Pkt (hdr p) (token p) (payload p) v (options_len p) (options p).
Definition set_options_len v p := Pkt (hdr p) (token p) (payload p) (payload_len p) v (options p).
Definition set_options v p := Pkt (hdr p) (token p) (payload p) (payload_len p) (options_len p) v.

Record coap_block1_t := Block1 { blk_offset : Z; blk_blknum : Z; blk_szx : Z; blk_more : Z }.

Record coap_block_slicer_t := Slicer { start : Z; end_ : Z; cur : Z; opt : Z }.
Definition set_cur v s := Slicer (start s) (end_ s) v (opt s).
Definition set_opt v s := Slicer (start s) (end_ s) (cur s) v.

(** ** Header fields (nanocoap.h) *)

Definition coap_code (cls detail : Z) : Z := u8 (Z.lor (Z.shiftl cls 5) detail).
Definition coap_get_code_class (pkt : coap_pkt_t) : M Z := c ← rd (hdr pkt + 1); mret (Z.shiftr c 5).
Definition coap_get_code_detail (pkt : coap_pkt_t) : M Z := c ← rd (hdr pkt + 1); mret (Z.land c 0x1f).
Definition coap_get_code (pkt : coap_pkt_t) : M Z :=
  cls ← coap_get_code_class pkt; detail ← coap_get_code_detail pkt; mret (cls * 100 + detail).
Definition coap_get_code_raw (pkt : coap_pkt_t) : M Z := rd (hdr pkt + 1).
(** [ntohs(pkt->hdr->id)]. *)
Definition coap_get_id (pkt : coap_pkt_t) : M Z := b ← rds 2 (hdr pkt + 2); mret (be_value b).
Definition coap_get_token_len (pkt : coap_pkt_t) : M Z := c ← rd (hdr pkt); mret (Z.land c 0xf).
Definition coap_get_total_hdr_len (pkt : coap_pkt_t) : M Z := n ← coap_get_token_len pkt; mret (sizeof_coap_hdr + n).
Definition coap_get_type (pkt : coap_pkt_t) : M Z := c ← rd (hdr pkt); mret (Z.shiftr (Z.land c 0x30) 4).
Definition coap_get_ver (pkt : coap_pkt_t) : M Z := c ← rd (hdr pkt); mret (Z.shiftr (Z.land c 0x60) 6).
Definition coap_hdr_data_ptr (hdr : Z) : Z := hdr + sizeof_coap_hdr.
Definition coap_hdr_set_code (hdr code : Z) : M unit := wr (hdr + 1) code.
Definition coap_hdr_set_type (hdr type : Z) : M unit :=
  massert (Z.ldiff type 3 =? 0);;
  c ← rd hdr;
  wr hdr (Z.ldiff c 0x30);;
  c ← rd hdr;
  wr hdr (Z.lor c (Z.shiftl type 4)).
Definition coap_szx2size (szx : Z) : Z := Z.shiftl 1 (szx + 4).
Definition coap_method2flag (code : Z) : Z := Z.shiftl 1 (code - 1).

(** ** Option deltas and lengths *)

(** The value, negative for an error, and the position behind it. *)
Definition _decode_value (val pkt_pos pkt_end : Z) : M (Z * Z) :=
  let left := u64 (pkt_end - pkt_pos) in
  if val =? 13 then
    if left <? 1 then mret (- ENOSPC, pkt_pos)
    else delta ← rd pkt_pos; mret (delta + 13, pkt_pos + 1)
  else if val =? 14 then
    if left <? 2 then mret (- ENOSPC, pkt_pos)
    else delta ← rds 2 pkt_pos; mret (be_value delta + 269, pkt_pos + 2)
  else if val =? 15 then mret (- EBADMSG, pkt_pos)
  else mret (val, pkt_pos).

Definition _decode_uint (pkt_pos nbytes : Z) : M Z :=
  massert ((0 <=? nbytes) && (nbytes <=? 4));;
  b ← rds (Z.to_nat nbytes) pkt_pos;
  mret (be_value b).

(** [while(tmp) { size++; tmp >>= 8; }] *)
Fixpoint uint_size (fuel : nat) (tmp : Z) : nat :=
  match fuel with O => O | S fuel => if tmp =? 0 then O else S (uint_size fuel (Z.shiftr tmp 8)) end.

(** The bytes [_encode_uint] leaves at the start of [*val]; it returns their
    number. *)
Definition _encode_uint (val : Z) : list Z :=
  let size := uint_size 4 val in
  drop (4 - size) (bytes4 val).

(** What [_put_delta_optlen] returns. *)
Definition put_delta_end (offset val : Z) : Z :=
  if val <? 13 then offset else if val <? 256 + 13 then offset + 1 else offset + 2.

Definition _put_delta_optlen (buf offset shift val : Z) : M Z :=
  b ← rd buf;
  (if val <? 13 then
     wr buf (Z.lor b (Z.shiftl val shift))
   else if val <? 256 + 13 then
     wr buf (Z.lor b (Z.shiftl 13 shift));;
     wr (buf + offset) (val - 13)
   else
     wr buf (Z.lor b (Z.shiftl 14 shift));;
     wrs (buf + offset) (be_bytes 2 (u16 (val - 269))));;
  mret (put_delta_end offset val).

(** ** Parsing *)

(** The loop over the options: the value returned early (0 when the loop ends), the
    packet, the position and the number of options. *)
Fixpoint parse_options (fuel : nat) (buf len : Z) (pkt : coap_pkt_t) (pkt_pos option_count option_nr : Z) :
    M (Z * coap_pkt_t * Z * Z) :=
  match fuel with
  | O => fault
  | S fuel =>
      let pkt_end := buf + len in
      if pkt_pos =? pkt_end then mret (0, pkt, pkt_pos, option_count)
      else
        let option_start := pkt_pos in
        option_byte ← rd pkt_pos;
        let pkt_pos := pkt_pos + 1 in
        if option_byte =? 0xff then
          mret (0, set_payload_len (u16 (buf + len - pkt_pos)) (set_payload pkt_pos pkt), pkt_pos, option_count)
        else
          '(option_delta, pkt_pos) ← _decode_value (Z.shiftr option_byte 4) pkt_pos pkt_end;
          if option_delta <? 0 then mret (- EBADMSG, pkt, pkt_pos, option_count)
          else
            '(option_len, pkt_pos) ← _decode_value (Z.land option_byte 0xf) pkt_pos pkt_end;
            if option_len <? 0 then mret (- EBADMSG, pkt, pkt_pos, option_count)
            else
              let option_nr := u32 (option_nr + option_delta) in
              if negb (option_delta =? 0) && (NANOCOAP_NOPTS_MAX <=? option_count)
              then mret (- ENOMEM, pkt, pkt_pos, option_count)
              else
                '(pkt, option_count) ←
                  (if negb (option_delta =? 0) then
                     opts ← lift (aset (options pkt) option_count (Optpos (u16 option_nr) (u16 (option_start - buf))));
                     mret (set_options opts pkt, option_count + 1)
                   else mret (pkt, option_count));
                let pkt_pos := pkt_pos + option_len in
                if buf + len <? pkt_pos then mret (- EBADMSG, pkt, pkt_pos, option_count)
                else parse_options fuel buf len pkt pkt_pos option_count option_nr
  end.

(** The result and the packet, which the code writes through its pointer. *)
Definition coap_parse (pkt : coap_pkt_t) (buf len : Z) : M (Z * coap_pkt_t) :=
  let pkt := Pkt buf (token pkt) (payload pkt) (payload_len pkt) (options_len pkt) (options pkt) in
  let pkt_pos := coap_hdr_data_ptr buf in
  let pkt := set_payload_len 0 (set_payload NULL pkt) in
  tkl ← coap_get_token_len pkt;
  let pkt := set_token (if tkl =? 0 then NULL else pkt_pos) pkt in
  let pkt_pos := pkt_pos + tkl in
  '(r, pkt, pkt_pos, option_count) ← parse_options (S (Z.to_nat len)) buf len pkt pkt_pos 0 0;
  if r <? 0 then mret (r, pkt)
  else
    let pkt := set_options_len (u16 option_count) pkt in
    mret (0, if payload pkt =? NULL then set_payload pkt_pos pkt else pkt).

(** ** Reading options *)

Fixpoint find_option_loop (opt_count : nat) (pkt : coap_pkt_t) (i : Z) (num : Z) : M Z :=
  match opt_count with
  | O => mret NULL
  | S opt_count =>
      o ← lift (aget (options pkt) i);
      if opt_num o =? num then mret (hdr pkt + offset o) else find_option_loop opt_count pkt (i + 1) num
  end.

Definition coap_find_option (pkt : coap_pkt_t) (num : Z) : M Z :=
  find_option_loop (Z.to_nat (options_len pkt)) pkt 0 num.

(** The position of the value, the delta and the length; [None] is NULL, and the
    variables of the caller are not written. *)
Definition _parse_option (pkt : coap_pkt_t) (pkt_pos : Z) : M (option (Z * Z * Z)) :=
  let hdr_end := payload pkt in
  if pkt_pos =? hdr_end then mret None
  else
    option_byte ← rd pkt_pos;
    '(delta, pkt_pos) ← _decode_value (Z.shiftr option_byte 4) (pkt_pos + 1) hdr_end;
    '(opt_len, pkt_pos) ← _decode_value (Z.land option_byte 0xf) pkt_pos hdr_end;
    mret (Some (pkt_pos, u16 delta, opt_len)).

(** The result, and [*target] when it is written. *)
Definition coap_get_option_uint (pkt : coap_pkt_t) (num : Z) : M (Z * option Z) :=
  opt_pos ← coap_find_option pkt num;
  if negb (opt_pos =? NULL) then
    o ← _parse_option pkt opt_pos;
    let '(pkt_pos, option_len) := match o with Some (p, _, l) => (p, l) | None => (NULL, 0) end in
    if 0 <=? option_len then
      if 4 <? option_len then mret (- ENOSPC, None)
      else v ← _decode_uint pkt_pos option_len; mret (0, Some v)
    else mret (- EBADMSG, None)
  else mret (-1, None).

(** The start of the value (NULL at the end), the new [*optpos], and [*opt_len]. *)
Definition coap_iterate_option (pkt : coap_pkt_t) (optpos : Z) (first : bool) : M (Z * Z * Z) :=
  o ← _parse_option pkt optpos;
  match o with
  | Some (data_start, delta, opt_len) =>
      if first || (delta =? 0) then mret (data_start, data_start + opt_len, opt_len)
      else mret (NULL, NULL, opt_len)
  | None => mret (NULL, NULL, 0)
  end.

Definition coap_get_content_type (pkt : coap_pkt_t) : M Z :=
  opt_pos ← coap_find_option pkt COAP_OPT_CONTENT_FORMAT;
  if negb (opt_pos =? NULL) then
    o ← _parse_option pkt opt_pos;
    let '(pkt_pos, option_len) := match o with Some (p, _, l) => (p, l) | None => (NULL, 0) end in
    if option_len =? 0 then mret 0
    else if option_len =? 1 then rd pkt_pos
    else if option_len =? 2 then b ← rds 2 pkt_pos; mret (be_value b)
    else mret COAP_FORMAT_NONE
  else mret COAP_FORMAT_NONE.

(** The do-while loop: [None] for -ENOSPC, else the new [target] and what is
    [left] (here [room]). *)
Fixpoint get_string_loop (fuel : nat) (pkt : coap_pkt_t) (opt_pos target room : Z) (first : bool) (separator : Z) :
    M (option (Z * Z)) :=
  match fuel with
  | O => fault
  | S fuel =>
      '(part_start, opt_pos, opt_len) ← coap_iterate_option pkt opt_pos first;
      if negb (part_start =? NULL) then
        if room <? u32 (opt_len + 1) then mret None
        else
          wr target separator;;
          memcpy (target + 1) part_start opt_len;;
          let target := target + 1 + opt_len in
          let room := u32 (room - (opt_len + 1)) in
          if opt_pos =? NULL then mret (Some (target, room))
          else get_string_loop fuel pkt opt_pos target room false separator
      else
        if opt_pos =? NULL then mret (Some (target, room))
        else get_string_loop fuel pkt opt_pos target room true separator
  end.

Definition coap_opt_get_string (pkt : coap_pkt_t) (optnum target max_len separator : Z) : M Z :=
  massert (1 <? max_len);;
  opt_pos ← coap_find_option pkt optnum;
  if opt_pos =? NULL then
    wr target separator;;
    wr (target + 1) 0;;
    mret 2
  else
    let room := u32 (max_len - 1) in
    o ← get_string_loop (S (Z.to_nat max_len)) pkt opt_pos target room true separator;
    match o with
    | None => mret (- ENOSPC)
    | Some (target, room) => wr target 0;; mret (i32 (max_len - room))
    end.

Definition slash : Z := 47.
Definition ampersand : Z := 38.
Definition coap_get_location_path pkt target max_len := coap_opt_get_string pkt COAP_OPT_LOCATION_PATH target max_len slash.
Definition coap_get_location_query pkt target max_len :=
  coap_opt_get_string pkt COAP_OPT_LOCATION_QUERY target max_len ampersand.
Definition coap_get_uri_path pkt target := coap_opt_get_string pkt COAP_OPT_URI_PATH target NANOCOAP_URI_MAX slash.
Definition coap_get_uri_query pkt target := coap_opt_get_string pkt COAP_OPT_URI_QUERY target NANOCOAP_URI_MAX ampersand.

(** The result, [*blknum] and [*szx]. *)
Definition coap_get_blockopt (pkt : coap_pkt_t) (option : Z) : M (Z * Z * Z) :=
  optpos ← coap_find_option pkt option;
  if optpos =? NULL then mret (-1, 0, 0)
  else
    o ← _parse_option pkt optpos;
    '(data_start, _, option_len) ← lift o;
    blkopt ← _decode_uint data_start option_len;
    mret (if negb (Z.land blkopt 8 =? 0) then 1 else 0,
          Z.shiftr blkopt COAP_BLOCKWISE_NUM_OFF, Z.land blkopt COAP_BLOCKWISE_SZX_MASK).

Definition coap_get_block1 (pkt : coap_pkt_t) : M (Z * coap_block1_t) :=
  '(more, blknum, szx) ← coap_get_blockopt pkt COAP_OPT_BLOCK1;
  let offset := if 0 <=? more then u32 (Z.shiftl blknum (szx + 4)) else 0 in
  mret (b2z (0 <=? more), Block1 offset blknum szx more).

Definition coap_get_block2 (pkt : coap_pkt_t) (block2 : coap_block1_t) : M (Z * coap_block1_t) :=
  '(more, blknum, szx) ← coap_get_blockopt pkt COAP_OPT_BLOCK2;
  mret (b2z (0 <=? more), Block1 (blk_offset block2) blknum szx more).

(** ** Writing options *)

Definition coap_put_option (buf lastonum onum : Z) (odata : list Z) : M Z :=
  let olen := Z.of_nat (length odata) in
  massert (lastonum <=? onum);;
  let delta := onum - lastonum in
  wr buf 0;;
  n ← _put_delta_optlen buf 1 4 delta;
  n ← _put_delta_optlen buf n 0 olen;
  wrs (buf + n) odata;;
  mret (n + olen).

(** The bytes of [content_type] in the order of the target. *)
Definition coap_put_option_ct (buf lastonum content_type : Z) : M Z :=
  if content_type =? 0 then coap_put_option buf lastonum COAP_OPT_CONTENT_FORMAT []
  else if content_type <=? 255 then coap_put_option buf lastonum COAP_OPT_CONTENT_FORMAT [u8 content_type]
  else coap_put_option buf lastonum COAP_OPT_CONTENT_FORMAT [u8 content_type; u8 (Z.shiftr content_type 8)].

Fixpoint size2szx_loop (fuel : nat) (size szx : Z) : Z :=
  match fuel with
  | O => szx
  | S fuel => if size =? 0 then szx else size2szx_loop fuel (Z.shiftr size 1) (szx + 1)
  end.

Definition _size2szx (size : Z) : M Z :=
  massert (size <=? 1024);;
  let szx := size2szx_loop 64 size 0 in
  massert (5 <=? szx);;
  mret (szx - 5).

Fixpoint blknum_loop (fuel : nat) (start blksize blknum : Z) : M Z :=
  match fuel with
  | O => fault
  | S fuel => if 0 <? start then blknum_loop fuel (u64 (start - blksize)) blksize (u32 (blknum + 1)) else mret blknum
  end.

Definition _slicer_blknum (slicer : coap_block_slicer_t) : M Z :=
  let blksize := u64 (end_ slicer - start slicer) in
  blknum_loop (S (Z.to_nat (start slicer))) (start slicer) blksize 0.

Definition coap_put_option_block (buf lastonum blknum szx : Z) (more : bool) (option : Z) : M Z :=
  let blkopt := u32 (Z.lor (Z.lor (Z.shiftl blknum 4) szx) (if more then 8 else 0)) in
  coap_put_option buf lastonum option (_encode_uint blkopt).

Definition coap_put_option_block1 buf lastonum blknum szx more :=
  coap_put_option_block buf lastonum blknum szx more COAP_OPT_BLOCK1.

Definition coap_put_block1_ok (pkt_pos : Z) (block1 : coap_block1_t) (lastonum : Z) : M Z :=
  if 1 <=? blk_more block1
  then coap_put_option_block1 pkt_pos lastonum (blk_blknum block1) (blk_szx block1) (negb (blk_more block1 =? 0))
  else mret 0.

Definition coap_opt_put_block2 (buf lastonum : Z) (slicer : coap_block_slicer_t) (more : bool) :
    M (Z * coap_block_slicer_t) :=
  szx ← _size2szx (u64 (end_ slicer - start slicer));
  blknum ← _slicer_blknum slicer;
  n ← coap_put_option_block buf lastonum blknum szx more COAP_OPT_BLOCK2;
  mret (n, set_opt buf slicer).

(** A string with its final 0. *)
Definition string_at (string : list Z) (i : nat) : option Z := (string ++ [0]) !! i.

(** The inner loop over a string, up to a separator or the end: what is left of
    [len], and the position. *)
Fixpoint scan_part (string : list Z) (separator : Z) (len : nat) (uripos : nat) : option (nat * nat) :=
  match len with
  | O => Some (O, uripos)
  | S len =>
      c ← string_at string uripos;
      if (c =? separator) || (c =? 0) then Some (len, uripos) else scan_part string separator len (S uripos)
  end.

(** One round of the outer loop: the rest of [len], the position, the part. *)
Definition next_part (string : list Z) (separator : Z) (len uripos : nat) : option (nat * nat * list Z) :=
  c ← string_at string uripos;
  let part_start := if c =? separator then S uripos else uripos in
  '(len, uripos) ← scan_part string separator len part_start;
  Some (len, uripos, take (uripos - part_start) (drop part_start string)).

Fixpoint put_string_loop (fuel : nat) (string : list Z) (separator optnum : Z) (len uripos : nat) (bufpos lastonum : Z) :
    M Z :=
  match fuel, len with
  | _, O => mret bufpos
  | O, _ => fault
  | S fuel, _ =>
      '(len, uripos, part) ← lift (next_part string separator len uripos);
      if negb (length part =? 0)%nat || ((separator =? slash) && (lastonum =? optnum)) then
        n ← coap_put_option bufpos lastonum optnum part;
        put_string_loop fuel string separator optnum len uripos (bufpos + n) optnum
      else put_string_loop fuel string separator optnum len uripos bufpos lastonum
  end.

Definition coap_opt_put_string (buf lastonum optnum : Z) (string : list Z) (separator : Z) : M Z :=
  if (length string =? 0)%nat then mret 0
  else
    bufpos ← put_string_loop (length string) string separator optnum (length string) 0 buf lastonum;
    mret (bufpos - buf).

Definition coap_opt_put_location_path buf lastonum location :=
  coap_opt_put_string buf lastonum COAP_OPT_LOCATION_PATH location slash.
Definition coap_opt_put_location_query buf lastonum location :=
  coap_opt_put_string buf lastonum COAP_OPT_LOCATION_QUERY location ampersand.
Definition coap_opt_put_uri_path buf lastonum uri := coap_opt_put_string buf lastonum COAP_OPT_URI_PATH uri slash.
Definition coap_opt_put_uri_query buf lastonum uri := coap_opt_put_string buf lastonum COAP_OPT_URI_QUERY uri ampersand.

(** ** Building messages *)

(** [hdr] is cleared, its fields are written, and the token behind it. *)
Definition coap_build_hdr (hdr type token token_len code id : Z) : M Z :=
  massert (Z.ldiff type 0x3 =? 0);;
  massert (Z.ldiff token_len 0x1f =? 0);;
  wrs hdr [0; 0; 0; 0];;
  wr hdr (Z.lor (Z.lor (Z.shiftl 1 6) (Z.shiftl type 4)) token_len);;
  wr (hdr + 1) code;;
  wrs (hdr + 2) (be_bytes 2 id);;
  (if negb (token_len =? 0) then memcpy (coap_hdr_data_ptr hdr) token token_len else mret tt);;
  mret (sizeof_coap_hdr + token_len).

Definition coap_pkt_init (buf len header_len : Z) : coap_pkt_t :=
  Pkt buf (buf + sizeof_coap_hdr) (buf + header_len) (u16 (len - header_len)) 0
    (replicate (Z.to_nat NANOCOAP_NOPTS_MAX) (Optpos 0 0)).

Definition _add_opt_pkt (pkt : coap_pkt_t) (optnum : Z) (val : list Z) : M (Z * coap_pkt_t) :=
  let val_len := Z.of_nat (length val) in
  if NANOCOAP_NOPTS_MAX <=? options_len pkt then mret (- ENOSPC, pkt)
  else
    lastonum ← (if negb (options_len pkt =? 0)
                then o ← lift (aget (options pkt) (options_len pkt - 1)); mret (opt_num o) else mret 0);
    massert (lastonum <=? optnum);;
    let optlen := put_delta_end 1 (optnum - lastonum) in
    let optlen := optlen + put_delta_end 0 val_len in
    let optlen := optlen + val_len in
    if payload_len pkt <? optlen then mret (- ENOSPC, pkt)
    else
      coap_put_option (payload pkt) lastonum optnum val;;
      opts ← lift (aset (options pkt) (options_len pkt) (Optpos optnum (u16 (payload pkt - hdr pkt))));
      mret (optlen, Pkt (hdr pkt) (token pkt) (payload pkt + optlen) (u16 (payload_len pkt - optlen))
                        (u16 (options_len pkt + 1)) opts).

Fixpoint add_string_loop (fuel : nat) (pkt : coap_pkt_t) (string : list Z) (separator optnum : Z)
    (unread_len uripos : nat) (write_len : Z) : M (Z * coap_pkt_t) :=
  match fuel, unread_len with
  | _, O => mret (write_len, pkt)
  | O, _ => fault
  | S fuel, _ =>
      '(unread_len, uripos, part) ← lift (next_part string separator unread_len uripos);
      if negb (length part =? 0)%nat || ((separator =? slash) && negb (write_len =? 0)) then
        '(optlen, pkt) ← _add_opt_pkt pkt optnum part;
        if optlen <? 0 then mret (optlen, pkt)
        else add_string_loop fuel pkt string separator optnum unread_len uripos (write_len + optlen)
      else add_string_loop fuel pkt string separator optnum unread_len uripos write_len
  end.

Definition coap_opt_add_string (pkt : coap_pkt_t) (optnum : Z) (string : list Z) (separator : Z) : M (Z * coap_pkt_t) :=
  if (length string =? 0)%nat then mret (0, pkt)
  else add_string_loop (length string) pkt string separator optnum (length string) 0 0.

Definition coap_opt_add_opaque (pkt : coap_pkt_t) (optnum : Z) (val : list Z) : M (Z * coap_pkt_t) :=
  _add_opt_pkt pkt optnum val.
Definition coap_opt_add_uint (pkt : coap_pkt_t) (optnum value : Z) : M (Z * coap_pkt_t) :=
  _add_opt_pkt pkt optnum (_encode_uint value).
Definition coap_opt_add_format (pkt : coap_pkt_t) (format : Z) : M (Z * coap_pkt_t) :=
  coap_opt_add_uint pkt COAP_OPT_CONTENT_FORMAT format.

Definition coap_opt_finish (pkt : coap_pkt_t) (flags : Z) : M (Z * coap_pkt_t) :=
  if negb (Z.land flags COAP_OPT_FINISH_PAYLOAD =? 0) then
    if payload_len pkt =? 0 then mret (- ENOSPC, pkt)
    else
      wr (payload pkt) 0xFF;;
      let pkt := set_payload_len (payload_len pkt - 1) (set_payload (payload pkt + 1) pkt) in
      mret (payload pkt - hdr pkt, pkt)
  else
    let pkt := set_payload_len 0 pkt in
    mret (payload pkt - hdr pkt, pkt).

Definition coap_get_len (pkt : coap_pkt_t) : M Z :=
  n ← coap_get_token_len pkt;
  let pktlen := sizeof_coap_hdr + n in
  mret (if negb (payload pkt =? NULL) then u32 (pktlen + (payload_len pkt + 1)) else pktlen).

(** ** Replies *)

Definition coap_build_reply (pkt : coap_pkt_t) (code rbuf rlen payload_len : Z) : M Z :=
  tkl ← coap_get_token_len pkt;
  let len := sizeof_coap_hdr + tkl in
  if rlen <? u32 (len + payload_len) then mret (- ENOSPC)
  else
    type ← (if negb (code =? 0) then
              t ← coap_get_type pkt;
              mret (if t =? COAP_TYPE_CON then COAP_TYPE_ACK else COAP_TYPE_NON)
            else mret COAP_TYPE_RST);
    id ← coap_get_id pkt;
    coap_build_hdr rbuf type (token pkt) tkl code id;;
    coap_hdr_set_type rbuf type;;
    coap_hdr_set_code rbuf code;;
    mret (u32 (len + payload_len)).

Definition coap_reply_simple (pkt : coap_pkt_t) (code buf len ct : Z) (payload : list Z) : M Z :=
  let payload_len := Z.of_nat (length payload) in
  n ← coap_get_total_hdr_len pkt;
  let payload_start := buf + n in
  bufpos ← (if negb (payload_len =? 0) then
              k ← coap_put_option_ct payload_start 0 (u16 ct);
              wr (payload_start + k) 0xff;;
              mret (payload_start + k + 1)
            else mret payload_start);
  res ← coap_build_reply pkt code buf (u32 len) (u32 (bufpos - payload_start + payload_len));
  (if negb (payload_len =? 0) && (0 <? res) then wrs bufpos payload else mret tt);;
  mret res.

(** ** Blockwise transfer *)

Definition coap_block2_init (pkt : coap_pkt_t) : M coap_block_slicer_t :=
  '(r, blknum, szx) ← coap_get_blockopt pkt COAP_OPT_BLOCK2;
  let szx := if (0 <=? r) && (NANOCOAP_BLOCK_SIZE_EXP_MAX - 4 <? szx) then NANOCOAP_BLOCK_SIZE_EXP_MAX - 4 else szx in
  let start := u32 (blknum * coap_szx2size szx) in
  mret (Slicer start (start + coap_szx2size szx) 0 NULL).

Definition coap_block2_finish (slicer : coap_block_slicer_t) : M coap_block_slicer_t :=
  massert (negb (opt slicer =? NULL));;
  b ← rd (opt slicer);
  '(delta, _) ← _decode_value (Z.shiftr b 4) (opt slicer + 1) (opt slicer + 3);
  let more := end_ slicer <? cur slicer in
  '(_, slicer) ← coap_opt_put_block2 (opt slicer) (u16 (COAP_OPT_BLOCK2 - u16 delta)) slicer more;
  mret slicer.

Definition coap_block2_build_reply (pkt : coap_pkt_t) (code rbuf rlen payload_len : Z) (slicer : coap_block_slicer_t) : M Z :=
  if cur slicer <? start slicer then coap_build_reply pkt COAP_CODE_BAD_OPTION rbuf rlen 0
  else coap_block2_finish slicer;; coap_build_reply pkt code rbuf rlen payload_len.

Definition coap_blockwise_put_char (slicer : coap_block_slicer_t) (bufpos c : Z) : M (Z * coap_block_slicer_t) :=
  if (start slicer <=? cur slicer) && (cur slicer <? end_ slicer)
  then wr bufpos c;; mret (1, set_cur (u64 (cur slicer + 1)) slicer)
  else mret (0, set_cur (u64 (cur slicer + 1)) slicer).

Definition coap_blockwise_put_bytes (slicer : coap_block_slicer_t) (bufpos : Z) (c : list Z) :
    M (Z * coap_block_slicer_t) :=
  let len := Z.of_nat (length c) in
  let str_offset := if cur slicer <? start slicer then start slicer - cur slicer else 0 in
  let slicer' := set_cur (u64 (cur slicer + len)) slicer in
  if (end_ slicer <=? cur slicer) || (len <? str_offset) then mret (0, slicer')
  else
    let str_len := if end_ slicer <=? u64 (cur slicer + len)
                   then u64 (end_ slicer - (cur slicer + str_offset)) else len - str_offset in
    bs ← lift (load c str_offset str_len);
    wrs bufpos bs;;
    mret (str_len, slicer').

(** ** Requests *)

(** The path is a string; the function a handler stands for has the packet, the
    buffer of the response with its size and the context as arguments. *)
Record coap_resource_t := Resource {
  path : list Z;
  methods : Z;
  handler : coap_pkt_t → Z → Z → Z → M Z;
  context : Z
}.

(** [strcmp] and [strncmp] of the string at [p] with a string. *)
Fixpoint strcmp (p : Z) (string : list Z) : M Z :=
  match string with
  | [] => rd p
  | d :: string => c ← rd p; if c =? d then strcmp (p + 1) string else mret (c - d)
  end.

Fixpoint strncmp (p : Z) (string : list Z) : M Z :=
  match string with
  | [] => mret 0
  | d :: string => c ← rd p; if c =? d then strncmp (p + 1) string else mret (c - d)
  end.

Definition coap_match_path (resource : coap_resource_t) (uri : Z) : M Z :=
  if negb (Z.land (methods resource) COAP_MATCH_SUBTREE =? 0)
  then strncmp uri (path resource) else strcmp uri (path resource).

Section Requests.
(** The resources of the application; the address of the local array [uri]. *)
Variable coap_resources : list coap_resource_t.
Variable uri : Z.

(** The loop over the resources; [None] when no handler was called. *)
Fixpoint dispatch_loop (resources : list coap_resource_t) (pkt : coap_pkt_t) (method_flag resp_buf resp_buf_len : Z) :
    M (option Z) :=
  match resources with
  | [] => mret None
  | resource :: resources =>
      if Z.land (methods resource) method_flag =? 0
      then dispatch_loop resources pkt method_flag resp_buf resp_buf_len
      else
        res ← coap_match_path resource uri;
        if 0 <? res then dispatch_loop resources pkt method_flag resp_buf resp_buf_len
        else if res <? 0 then mret None
        else r ← handler resource pkt resp_buf resp_buf_len (context resource); mret (Some r)
  end.

Definition coap_handle_req (pkt : coap_pkt_t) (resp_buf resp_buf_len : Z) : M Z :=
  cls ← coap_get_code_class pkt;
  if negb (cls =? COAP_REQ) then mret (- EBADMSG)
  else
    code ← coap_get_code_raw pkt;
    if code =? 0 then coap_build_reply pkt COAP_CODE_EMPTY resp_buf resp_buf_len 0
    else
      detail ← coap_get_code_detail pkt;
      let method_flag := coap_method2flag detail in
      n ← coap_get_uri_path pkt uri;
      if n <=? 0 then mret (- EBADMSG)
      else
        r ← dispatch_loop coap_resources pkt method_flag resp_buf resp_buf_len;
        match r with
        | Some r => mret r
        | None => coap_build_reply pkt COAP_CODE_404 resp_buf resp_buf_len 0
        end.

Definition comma : Z := 44.
Definition less : Z := 60.
Definition greater : Z := 62.

Fixpoint links_loop (resources : list coap_resource_t) (first : bool) (slicer : coap_block_slicer_t) (bufpos : Z) :
    M (Z * coap_block_slicer_t) :=
  match resources with
  | [] => mret (bufpos, slicer)
  | resource :: resources =>
      '(n, slicer) ← (if first then mret (0, slicer) else coap_blockwise_put_char slicer bufpos comma);
      let bufpos := bufpos + n in
      '(n, slicer) ← coap_blockwise_put_char slicer bufpos less;
      let bufpos := bufpos + n in
      '(n, slicer) ← coap_blockwise_put_bytes slicer bufpos (path resource);
      let bufpos := bufpos + n in
      '(n, slicer) ← coap_blockwise_put_char slicer bufpos greater;
      links_loop resources false slicer (bufpos + n)
  end.

Definition coap_well_known_core_default_handler (pkt : coap_pkt_t) (buf len ctx : Z) : M Z :=
  slicer ← coap_block2_init pkt;
  n ← coap_get_total_hdr_len pkt;
  let payload := buf + n in
  let bufpos := payload in
  n ← coap_put_option_ct bufpos 0 COAP_FORMAT_LINK;
  let bufpos := bufpos + n in
  '(n, slicer) ← coap_opt_put_block2 bufpos COAP_OPT_CONTENT_FORMAT slicer true;
  let bufpos := bufpos + n in
  wr bufpos 0xff;;
  '(bufpos, slicer) ← links_loop coap_resources true slicer (bufpos + 1);
  let payload_len := u32 (bufpos - payload) in
  coap_block2_build_reply pkt COAP_CODE_205 buf (u32 len) payload_len slicer.
End Requests.
