(* ===== verification/CoapParse.v ===== *)
(** * Parsing CoAP messages

    The grammar of messages as their encoding: that of RFC 7252, section 3, and the
    looser one that [coap_parse] implements; and the proof that it accepts exactly
    the encodings of the latter, stays inside the buffer and describes the
    message. *)

From S2P Require Import Prelude Bytes Buffers ByteMem Coap.

(** ** Messages *)

(** A delta or a length: its half byte and the bytes that extend it. *)
Definition nibble (v : Z) : Z := if v <? 13 then v else if v <? 269 then 13 else 14.
Definition extension (v : Z) : list Z :=
  if v <? 13 then [] else if v <? 269 then [v - 13] else be_bytes 2 (v - 269).

(** An option: the delta of its number, and its value. *)
Definition option_bytes (o : Z * list Z) : list Z :=
  (nibble o.1 * 16 + nibble (len o.2)) :: extension o.1 ++ extension (len o.2) ++ o.2.
Definition options_bytes (os : list (Z * list Z)) : list Z := concat (option_bytes <$> os).

Record message := Message {
  m_header : list Z;
  m_token : list Z;
  m_options : list (Z * list Z);
  m_payload : option (list Z)
}.

Definition payload_bytes (p : option (list Z)) : list Z :=
  match p with None => [] | Some bs => 0xff :: bs end.

Definition message_bytes (msg : message) : list Z :=
  m_header msg ++ m_token msg ++ options_bytes (m_options msg) ++ payload_bytes (m_payload msg).

(** What fits the encoding. *)
Definition field (v : Z) : Prop := 0 ≤ v < 65805.
Definition wf_option (o : Z * list Z) : Prop := field o.1 ∧ len o.2 < 65805.

Definition token_length (bs : list Z) : Z := Z.land (bs !!! 0%nat) 0xf.

(** The messages of the code. *)
Record wf_message (msg : message) : Prop := {
  wf_header : length (m_header msg) = 4%nat;
  wf_token : token_length (m_header msg) = len (m_token msg);
  wf_options : Forall wf_option (m_options msg)
}.

(** Those of the standard: version 1; a token of at most 8 bytes; a payload behind
    a marker; option numbers of 16 bits; and nothing behind the header when the
    code is that of an empty message. *)
Record rfc_message (msg : message) : Prop := {
  rfc_wf : wf_message msg;
  rfc_version : Z.shiftr (m_header msg !!! 0%nat) 6 = 1;
  rfc_token : len (m_token msg) ≤ 8;
  rfc_payload : m_payload msg ≠ Some [];
  rfc_numbers : foldr Z.add 0 (fst <$> m_options msg) < 2 ^ 16;
  rfc_empty : m_header msg !!! 1%nat = 0 → m_token msg = [] ∧ m_options msg = [] ∧ m_payload msg = None
}.

(** The entries of [pkt->options]: the options with a number of their own. *)
Fixpoint entries (nr off : Z) (os : list (Z * list Z)) : list coap_optpos_t :=
  match os with
  | [] => []
  | o :: os => (if o.1 =? 0 then [] else [Optpos (u16 (nr + o.1)) off]) ++
      entries (nr + o.1) (off + len (option_bytes o)) os
  end.

(** Those options with their true numbers. *)
Fixpoint numbers (nr : Z) (os : list (Z * list Z)) : list Z :=
  match os with
  | [] => []
  | o :: os => (if o.1 =? 0 then [] else [nr + o.1]) ++ numbers (nr + o.1) os
  end.

(** How a packet describes a message in the buffer at [buf]. *)
Record describes (buf : Z) (msg : message) (pkt : coap_pkt_t) : Prop := {
  de_hdr : hdr pkt = buf;
  de_token : token pkt = if decide (m_token msg = []) then NULL else buf + 4;
  de_options : ∃ rest, options pkt = entries 0 (4 + len (m_token msg)) (m_options msg) ++ rest;
  de_options_len : options_len pkt = len (entries 0 (4 + len (m_token msg)) (m_options msg));
  de_payload : payload pkt = buf + len (message_bytes msg) - len (default [] (m_payload msg));
  de_payload_len : payload_len pkt = len (default [] (m_payload msg))
}.

(** ** The encoding of a field *)

Lemma nibble_range v : field v → 0 ≤ nibble v < 15.
Proof. unfold field, nibble. intros. ztest. Qed.

Lemma extension_bytes v : field v → Forall byte (extension v).
Proof.
  unfold field, extension. intros Hv. destruct (Z.ltb_spec v 13); [constructor|].
  destruct (Z.ltb_spec v 269); [repeat constructor; unfold uint; lia|apply be_bytes_byte].
Qed.

Lemma extension_length v : len (extension v) = if v <? 13 then 0 else if v <? 269 then 1 else 2.
Proof. unfold extension. ztest. Qed.

Lemma be_value2 a b : be_value [a; b] = a * 256 + b.
Proof. unfold be_value. cbn. lia. Qed.

Lemma field_split v v' x y : field v → field v' → nibble v = nibble v' → extension v ++ x = extension v' ++ y → v = v' ∧ x = y.
Proof.
  unfold field, nibble, extension. intros Hv Hv' Hn E. ztest; try (split; [lia|done]).
  - injection E as E1 E2. split; [lia|done].
  - cbn [be_bytes app] in E. injection E as E1 E2 E3. split; [|done]. Z.div_mod_to_equations. lia.
Qed.

Lemma option_head o o' x y : wf_option o → wf_option o' → option_bytes o ++ x = option_bytes o' ++ y → o = o' ∧ x = y.
Proof.
  intros [Hd Hl] [Hd' Hl'] E. unfold option_bytes in E. cbn [app] in E. injection E as E1 E2.
  assert (field (len o.2)) as Hf by (unfold field; lia). assert (field (len o'.2)) as Hf' by (unfold field; lia).
  pose proof (nibble_range _ Hd). pose proof (nibble_range _ Hd'). pose proof (nibble_range _ Hf). pose proof (nibble_range _ Hf').
  rewrite <- !app_assoc in E2. apply field_split in E2 as [Ed E2]; [|done|done|lia].
  apply field_split in E2 as [El E2]; [|done|done|lia]. apply app_inj_1 in E2 as [Ev ->]; [|lia].
  destruct o, o'. cbn in *. by subst.
Qed.

Lemma option_byte_not_marker o : wf_option o → nibble o.1 * 16 + nibble (len o.2) ≠ 0xff.
Proof.
  intros [Hd Hl]. assert (field (len o.2)) as Hf by (unfold field; lia).
  pose proof (nibble_range _ Hd). pose proof (nibble_range _ Hf). lia.
Qed.

Lemma options_bytes_cons o os : options_bytes (o :: os) = option_bytes o ++ options_bytes os.
Proof. done. Qed.

Lemma options_bytes_app os os' : options_bytes (os ++ os') = options_bytes os ++ options_bytes os'.
Proof. unfold options_bytes. by rewrite fmap_app, concat_app. Qed.

(** The encoding determines the message. *)
Lemma options_inj os os' p p' : Forall wf_option os → Forall wf_option os' →
  options_bytes os ++ payload_bytes p = options_bytes os' ++ payload_bytes p' → os = os' ∧ p = p'.
Proof.
  intros Hw. revert os'. induction Hw as [|o os Ho Hw IH]; intros os' Hw' E.
  - destruct Hw' as [|o' os' Ho' _].
    + destruct p, p'; cbn in E; try done. by injection E as ->.
    + exfalso. rewrite options_bytes_cons in E. unfold option_bytes in E.
      destruct p; [|done]. injection E as E _. by apply (option_byte_not_marker o' Ho').
  - destruct Hw' as [|o' os' Ho' Hw'].
    + exfalso. rewrite options_bytes_cons in E. unfold option_bytes in E.
      destruct p'; [|done]. injection E as E _. by apply (option_byte_not_marker o Ho).
    + rewrite !options_bytes_cons, <- !app_assoc in E. apply option_head in E as [-> E]; [|done|done].
      destruct (IH _ Hw' E) as [-> ->]. done.
Qed.

Lemma message_inj msg msg' : wf_message msg → wf_message msg' → message_bytes msg = message_bytes msg' → msg = msg'.
Proof.
  intros [H1 H2 H3] [H1' H2' H3'] E. unfold message_bytes in E. apply app_inj_1 in E as [Eh E]; [|lia].
  rewrite Eh in H2. apply app_inj_1 in E as [Et E]; [|lia]. apply options_inj in E as [Eo Ep]; [|done|done].
  destruct msg, msg'. cbn in *. by subst.
Qed.

(** ** Decoding a field *)

Lemma decode_ok m v p e rest : field v → bytes_at m p (extension v ++ rest) → e = p + len (extension v ++ rest) → e - p < 2 ^ 64 →
  _decode_value (nibble v) p e m = Done (v, p + len (extension v)) m.
Proof.
  intros Hv Hat -> Hlen. unfold _decode_value. rewrite wrap_small by (unfold uint; lia).
  replace (p + len (extension v ++ rest) - p) with (len (extension v) + len rest) by (rewrite length_app; lia).
  rewrite extension_length. pose proof (nibble_range v Hv) as Hn. apply bytes_at_app in Hat as [Hat _].
  unfold field in Hv. unfold nibble, extension in *. ztest.
  - by rewrite Z.add_0_r.
  - apply bytes_at_cons in Hat as [Hb _]. rewrite (bind_done _ _ _ _ _ (rd_ok _ _ _ Hb)). cbn. unfold mret, M_ret. do 2 f_equal. lia.
  - rewrite (bind_done _ _ _ _ _ (rds_ok m p (be_bytes 2 (v - 269)) 2 eq_refl Hat)). cbn beta.
    rewrite be_value_bytes, Z.mod_small by (cbn; lia). unfold mret, M_ret. do 2 f_equal. lia.
Qed.

(** Any half byte and any bytes that follow: either they encode a field, or the
    value is negative and they do not. *)
Lemma decode_any m n p e rest : 0 ≤ n < 16 → bytes_at m p rest → Forall byte rest → e = p + len rest → e - p < 2 ^ 64 →
  (∃ v rest', field v ∧ n = nibble v ∧ rest = extension v ++ rest' ∧ _decode_value n p e m = Done (v, p + len (extension v)) m) ∨
  (∃ r, r < 0 ∧ _decode_value n p e m = Done (r, p) m ∧ ∀ v rest', field v → n = nibble v → rest ≠ extension v ++ rest').
Proof.
  intros Hn Hat Hb He Hlen.
  assert (∀ v rest', field v → n = nibble v → rest = extension v ++ rest' →
    ∃ v rest', field v ∧ n = nibble v ∧ rest = extension v ++ rest' ∧ _decode_value n p e m = Done (v, p + len (extension v)) m) as Hok.
  { intros v rest' Hv -> ->. exists v, rest'. split_and!; [done..|]. by eapply decode_ok. }
  assert (_decode_value n p e m = (if n =? 13 then if len rest <? 1 then Done (- ENOSPC, p) m else (delta ← rd p; mret (delta + 13, p + 1)) m
    else if n =? 14 then if len rest <? 2 then Done (- ENOSPC, p) m else (delta ← rds 2 p; mret (be_value delta + 269, p + 2)) m
    else if n =? 15 then Done (- EBADMSG, p) m else Done (n, p) m)) as E.
  { unfold _decode_value. rewrite wrap_small by (unfold uint; lia). replace (e - p) with (len rest) by lia. by ztest. }
  destruct (Z.lt_ge_cases n 13) as [|]; [left; apply (Hok n rest); unfold field, nibble, extension; ztest|].
  destruct (Z.eq_dec n 13) as [->|].
  - destruct rest as [|a rest].
    + right. exists (- ENOSPC). split_and!; [done|by rewrite E|]. unfold nibble, extension. intros v rest' Hv. ztest.
    + left. apply Forall_cons in Hb as [Ha _]. unfold uint in Ha. apply (Hok (a + 13) rest); unfold field, nibble, extension; ztest.
      cbn. f_equal. lia.
  - destruct (Z.eq_dec n 14) as [->|].
    + destruct rest as [|a [|b rest]].
      1, 2: right; exists (- ENOSPC); split_and!; [done|by rewrite E|]; unfold nibble, extension; intros v rest' Hv; ztest.
      left. apply Forall_cons in Hb as [Ha [Hb _]%Forall_cons]. unfold uint in Ha, Hb.
      apply (Hok (a * 256 + b + 269) rest); unfold field, nibble, extension; ztest.
      cbn [be_bytes app]. do 2 f_equal; [|f_equal]; Z.div_mod_to_equations; lia.
    + right. exists (- EBADMSG). assert (n = 15) as -> by lia. split_and!; [done|by rewrite E|].
      intros v rest' Hv Hnv. pose proof (nibble_range v Hv). lia.
Qed.

(** ** The loop over the options *)

Lemma u16_u32 v : u16 (u32 v) = u16 v.
Proof. unfold wrap. apply mod_mod_pow2. lia. Qed.

Lemma entries_length_le nr off os : (length (entries nr off os) ≤ length os)%nat.
Proof.
  revert nr off. induction os as [|o os IH]; intros nr off; [done|]. cbn [entries]. rewrite length_app. cbn [length].
  specialize (IH (nr + o.1) (off + len (option_bytes o))). destruct (o.1 =? 0); cbn [length]; lia.
Qed.

(** The options run out of entries: 16 are taken and the header of another option
    follows. *)
Definition too_many (nr off : Z) (room : Z) (rest : list Z) : Prop :=
  ∃ os d l rest', Forall wf_option os ∧ len (entries nr off os) = room ∧ field d ∧ d ≠ 0 ∧ field l ∧
    rest = options_bytes os ++ (nibble d * 16 + nibble l) :: extension d ++ extension l ++ rest'.

(** The packet behind a successful loop. *)
Record filled (pkt pkt' : coap_pkt_t) (done old es : list coap_optpos_t) (pl : option (list Z)) (pos' e : Z) : Prop := {
  fi_hdr : hdr pkt' = hdr pkt;
  fi_token : token pkt' = token pkt;
  fi_options : options pkt' = done ++ es ++ drop (length es) old;
  fi_payload : match pl with
    | None => payload pkt' = payload pkt ∧ payload_len pkt' = payload_len pkt ∧ pos' = e
    | Some bs => payload pkt' = e - len bs ∧ payload_len pkt' = len bs
    end
}.

Lemma byte_nibbles b : byte b → Z.shiftr b 4 * 16 + Z.land b 0xf = b ∧ 0 ≤ Z.shiftr b 4 < 16 ∧ 0 ≤ Z.land b 0xf < 16.
Proof.
  unfold uint. intros Hb. rewrite Z.shiftr_div_pow2 by lia. change 0xf with (2 ^ 4 - 1). rewrite land_mask by lia.
  change (2 ^ 4) with 16. Z.div_mod_to_equations. lia.
Qed.

(** What the decoding of an option header comes to. *)
Inductive header_case (m : gmap Z Z) (b pos e : Z) (rest : list Z) : Prop :=
  | header_ok d l rest' : field d → field l → b = nibble d * 16 + nibble l → rest = extension d ++ extension l ++ rest' →
      _decode_value (Z.shiftr b 4) pos e m = Done (d, pos + len (extension d)) m →
      _decode_value (Z.land b 0xf) (pos + len (extension d)) e m =
        Done (l, pos + len (extension d) + len (extension l)) m → header_case m b pos e rest
  | header_bad1 r : r < 0 → _decode_value (Z.shiftr b 4) pos e m = Done (r, pos) m →
      (∀ d l rest', field d → field l → b :: rest ≠ (nibble d * 16 + nibble l) :: extension d ++ extension l ++ rest') →
      header_case m b pos e rest
  | header_bad2 d r : 0 ≤ d → r < 0 → _decode_value (Z.shiftr b 4) pos e m = Done (d, pos + len (extension d)) m →
      _decode_value (Z.land b 0xf) (pos + len (extension d)) e m = Done (r, pos + len (extension d)) m →
      (∀ d l rest', field d → field l → b :: rest ≠ (nibble d * 16 + nibble l) :: extension d ++ extension l ++ rest') →
      header_case m b pos e rest.

Lemma header_cases m b pos e rest : byte b → bytes_at m pos rest → Forall byte rest → e = pos + len rest → len rest < 2 ^ 64 →
  header_case m b pos e rest.
Proof.
  intros Hb Hat Hall He Hlt. destruct (byte_nibbles b Hb) as (Eb & Hh & Hl).
  assert (∀ d l, field d → field l → b = nibble d * 16 + nibble l → Z.shiftr b 4 = nibble d ∧ Z.land b 0xf = nibble l) as Hnib.
  { intros d l Hd Hf ->. pose proof (nibble_range _ Hd). pose proof (nibble_range _ Hf). lia. }
  destruct (decode_any m _ pos e rest Hh Hat Hall He ltac:(lia)) as [(d & rest1 & Hd & En & -> & E1)|(r & Hr & E1 & Hno)].
  - apply bytes_at_app in Hat as [_ Hat]. apply Forall_app in Hall as [_ Hall]. rewrite length_app in He, Hlt.
    destruct (decode_any m _ (pos + len (extension d)) e rest1 Hl Hat Hall ltac:(lia) ltac:(lia))
      as [(l & rest2 & Hf & Em & -> & E2)|(r & Hr & E2 & Hno)].
    + eapply header_ok; [exact Hd|exact Hf| |done|done|done]. lia.
    + eapply header_bad2; [|exact Hr|exact E1|exact E2|]; [unfold field in Hd; lia|].
      intros d' l' rest' Hd' Hl' E. injection E as E0 E. destruct (Hnib _ _ Hd' Hl' E0) as [En' Em'].
      apply field_split in E as [-> E]; [|done|done|congruence]. by apply (Hno l' rest').
  - eapply header_bad1; [exact Hr|exact E1|]. intros d' l' rest' Hd' Hl' E. injection E as E0 E.
    destruct (Hnib _ _ Hd' Hl' E0) as [En' Em']. by apply (Hno d' (extension l' ++ rest')).
Qed.

(** Bytes that begin with an option begin with its header. *)
Lemma options_header b rest os pl : b ≠ 0xff → b :: rest = options_bytes os ++ payload_bytes pl → Forall wf_option os →
  ∃ o os', os = o :: os' ∧ wf_option o ∧
    b :: rest = (nibble o.1 * 16 + nibble (len o.2)) :: extension o.1 ++ extension (len o.2) ++ o.2 ++ options_bytes os' ++ payload_bytes pl.
Proof.
  intros Hb E Hw. destruct Hw as [|o os' Ho Hw].
  - destruct pl; [|done]. cbn in E. by injection E as ->.
  - exists o, os'. split_and!; [done|done|]. rewrite E, options_bytes_cons. unfold option_bytes. cbn [app]. by rewrite <- !app_assoc.
Qed.

(** Recording an option. *)
Lemma record_entry taken old (pkt : coap_pkt_t) d nr off m : options pkt = taken ++ old → length (taken ++ old) = 16%nat →
  negb (d =? 0) && (NANOCOAP_NOPTS_MAX <=? len taken) = false →
  let es := if d =? 0 then [] else [Optpos (u16 (nr + d)) (u16 off)] in
  (if negb (d =? 0) then
     opts ← lift (aset (options pkt) (len taken) (Optpos (u16 (u32 (u32 nr + d))) (u16 off)));
     mret (set_options opts pkt, len taken + 1)
   else mret (pkt, len taken)) m =
    Done (set_options (taken ++ es ++ drop (length es) old) pkt, len (taken ++ es)) m.
Proof.
  intros Hopts Hlen Hroom. rewrite wrap_add_idem_l, u16_u32. destruct (Z.eqb_spec d 0) as [->|Hd]; cbn [negb andb] in *.
  - cbn [app length]. rewrite drop_0, app_nil_r. unfold mret, M_ret, set_options. rewrite <- Hopts. by destruct pkt.
  - unfold NANOCOAP_NOPTS_MAX in Hroom. apply Z.leb_gt in Hroom. rewrite length_app in Hlen.
    destruct old as [|o old]; [cbn in Hlen; lia|]. rewrite Hopts, (aset_mid taken o _ old) by done. cbn.
    rewrite drop_0, length_app. cbn [length].
    replace (Z.of_nat (length taken + 1)) with (len taken + 1) by lia. done.
Qed.

(** How the loop ends for the bytes [rest]. *)
Inductive loop_end (pkt : coap_pkt_t) (taken old : list coap_optpos_t) (nr off e : Z) (rest : list Z) :
    Z → coap_pkt_t → Z → Z → Prop :=
  | end_ok os pl pkt' pos' : Forall wf_option os → rest = options_bytes os ++ payload_bytes pl →
      len taken + len (entries nr off os) ≤ 16 → filled pkt pkt' taken old (entries nr off os) pl pos' e →
      loop_end pkt taken old nr off e rest 0 pkt' pos' (len taken + len (entries nr off os))
  | end_many pkt' pos' count' : too_many nr off (16 - len taken) rest →
      loop_end pkt taken old nr off e rest (- ENOMEM) pkt' pos' count'
  | end_bad pkt' pos' count' : (∀ os pl, Forall wf_option os → rest ≠ options_bytes os ++ payload_bytes pl) →
      loop_end pkt taken old nr off e rest (- EBADMSG) pkt' pos' count'.

(** An option in front. *)
Lemma loop_end_cons pkt taken old nr off e o rest es r pkt' pos' count' : wf_option o →
  es = (if o.1 =? 0 then [] else [Optpos (u16 (nr + o.1)) off]) →
  loop_end (set_options (taken ++ es ++ drop (length es) old) pkt) (taken ++ es) (drop (length es) old)
    (nr + o.1) (off + len (option_bytes o)) e rest r pkt' pos' count' →
  loop_end pkt taken old nr off e (option_bytes o ++ rest) r pkt' pos' count'.
Proof.
  intros Ho Hes Hend.
  assert (∀ os, entries nr off (o :: os) = es ++ entries (nr + o.1) (off + len (option_bytes o)) os) as Ees by (intros os; by rewrite Hes).
  destruct Hend as [os pl pkt' pos' Hw -> Hle [F1 F2 F3 F4]|pkt' pos' count' (os & d & l & rest3 & Hw & Hroom & Hd & Hd0 & Hl & ->)|pkt' pos' count' Hbad].
  - replace (len (taken ++ es) + len (entries (nr + o.1) (off + len (option_bytes o)) os)) with (len taken + len (entries nr off (o :: os)))
      by (rewrite Ees, !length_app; lia).
    apply (end_ok _ _ _ _ _ _ _ (o :: os) pl); [by constructor|by rewrite options_bytes_cons, <- app_assoc|rewrite Ees, !length_app in *; lia|].
    split; [done|done| |done]. by rewrite F3, Ees, length_app, drop_drop, <- !app_assoc.
  - apply end_many. exists (o :: os), d, l, rest3. rewrite Ees, options_bytes_cons, <- app_assoc, !length_app in *.
    split_and!; [by constructor|lia|done..].
  - apply end_bad. intros os pl Hw E. destruct (option_bytes o ++ rest) as [|b bs] eqn:Eb; [done|].
    assert (b ≠ 0xff) as Hb by (injection Eb as <- _; by apply option_byte_not_marker).
    destruct (options_header _ _ _ _ Hb E Hw) as (o' & os' & -> & Ho' & _).
    rewrite <- Eb, options_bytes_cons, <- app_assoc in E. apply Forall_cons in Hw as [_ Hw].
    apply option_head in E as [_ E]; [|done|done]. by apply (Hbad os' pl).
Qed.

(** A header that cannot be decoded, or announces more bytes than there are. *)
Lemma no_options b rest : b ≠ 0xff →
  (∀ d l rest', field d → field l → b :: rest ≠ (nibble d * 16 + nibble l) :: extension d ++ extension l ++ rest') →
  ∀ os pl, Forall wf_option os → b :: rest ≠ options_bytes os ++ payload_bytes pl.
Proof.
  intros Hb Hno os pl Hw E. destruct (options_header _ _ _ _ Hb E Hw) as (o & os' & -> & [Hod Hol] & E').
  apply (Hno o.1 (len o.2) (o.2 ++ options_bytes os' ++ payload_bytes pl) Hod); [unfold field; lia|done].
Qed.

Lemma no_room b d l rest : b ≠ 0xff → field d → field l → b = nibble d * 16 + nibble l → len rest < l →
  ∀ os pl, Forall wf_option os → b :: extension d ++ extension l ++ rest ≠ options_bytes os ++ payload_bytes pl.
Proof.
  intros Hb Hd Hl Eb Hlt os pl Hw E. destruct (options_header _ _ _ _ Hb E Hw) as (o & os' & -> & [Hod Hol] & E').
  injection E' as E0 E'. assert (field (len o.2)) as Hf by (unfold field; lia).
  pose proof (nibble_range _ Hd). pose proof (nibble_range _ Hl). pose proof (nibble_range _ Hod). pose proof (nibble_range _ Hf).
  apply field_split in E' as [-> E']; [|done|done|lia]. apply field_split in E' as [-> E']; [|done|done|lia].
  subst rest. rewrite length_app in Hlt. lia.
Qed.

(** One round with a header that can be decoded. *)
Lemma parse_options_round fuel m buf blen pkt taken old pos nr b d l : blen < 2 ^ 16 → buf ≤ pos < buf + blen →
  options pkt = taken ++ old → length (taken ++ old) = 16%nat → m !! pos = Some b → b ≠ 0xff → field d → field l →
  _decode_value (Z.shiftr b 4) (pos + 1) (buf + blen) m = Done (d, pos + 1 + len (extension d)) m →
  _decode_value (Z.land b 0xf) (pos + 1 + len (extension d)) (buf + blen) m =
    Done (l, pos + 1 + len (extension d) + len (extension l)) m →
  let es := if d =? 0 then [] else [Optpos (u16 (nr + d)) (pos - buf)] in
  let pos' := pos + 1 + len (extension d) + len (extension l) + l in
  parse_options (S fuel) buf blen pkt pos (len taken) (u32 nr) m =
    (if negb (d =? 0) && (NANOCOAP_NOPTS_MAX <=? len taken) then
       mret (- ENOMEM, pkt, pos + 1 + len (extension d) + len (extension l), len taken)
     else if buf + blen <? pos' then
       mret (- EBADMSG, set_options (taken ++ es ++ drop (length es) old) pkt, pos', len (taken ++ es))
     else parse_options fuel buf blen (set_options (taken ++ es ++ drop (length es) old) pkt) pos' (len (taken ++ es)) (u32 (nr + d))) m.
Proof.
  intros Hblen Hpos Hopts Hlen Hb Hmark Hd Hl E1 E2 es pos'. cbn [parse_options].
  rewrite (proj2 (Z.eqb_neq _ _)) by lia. rewrite (bind_done _ _ _ _ _ (rd_ok _ _ _ Hb)). cbn beta.
  rewrite (proj2 (Z.eqb_neq b 0xff)) by done.
  rewrite (bind_done _ _ _ _ _ E1). cbn beta iota. rewrite (proj2 (Z.ltb_ge d 0)) by (unfold field in Hd; lia).
  rewrite (bind_done _ _ _ _ _ E2). cbn beta iota. rewrite (proj2 (Z.ltb_ge l 0)) by (unfold field in Hl; lia).
  destruct (negb (d =? 0) && (NANOCOAP_NOPTS_MAX <=? len taken)) eqn:Hroom; [done|].
  rewrite (bind_done _ _ _ _ _ (record_entry taken old pkt d nr _ m Hopts Hlen Hroom)). cbn beta iota zeta.
  by rewrite (wrap_add_idem_l 32), (wrap_small 16 (pos - buf)) by (unfold uint; lia).
Qed.

Lemma parse_options_ok m buf blen : ∀ rest fuel pkt taken old pos nr, 0 < buf → blen < 2 ^ 16 →
  bytes_at m pos rest → Forall byte rest → buf + blen = pos + len rest → buf ≤ pos →
  options pkt = taken ++ old → length (taken ++ old) = 16%nat → (length rest < fuel)%nat →
  ∃ r pkt' pos' count', parse_options fuel buf blen pkt pos (len taken) (u32 nr) m = Done (r, pkt', pos', count') m ∧
    loop_end pkt taken old nr (pos - buf) (buf + blen) rest r pkt' pos' count'.
Proof.
  intros rest. remember (length rest) as k eqn:Hk. revert rest Hk. induction k as [k IH] using lt_wf_ind.
  intros rest -> fuel pkt taken old pos nr Hbuf Hblen Hat Hall Hend Hpos Hopts Hlen Hfuel.
  destruct fuel as [|fuel]; [lia|].
  destruct rest as [|b rest].
  { cbn [parse_options]. rewrite (proj2 (Z.eqb_eq _ _)) by (cbn in Hend; lia). eexists _, _, _, _. split; [done|].
    rewrite length_app in Hlen. replace (len taken) with (len taken + len (entries nr (pos - buf) [])) by (cbn; lia).
    apply (end_ok _ _ _ _ _ _ _ [] None); [constructor|done|cbn; lia|]. split; [done|done|done|]. cbn in Hend. split_and!; [done|done|lia]. }
  apply bytes_at_cons in Hat as [Hb Hat]. apply Forall_cons in Hall as [Hbyte Hall]. cbn [length] in Hend, Hfuel, IH.
  destruct (Z.eq_dec b 0xff) as [->|Hmark].
  { cbn [parse_options]. rewrite (proj2 (Z.eqb_neq _ _)) by lia. rewrite (bind_done _ _ _ _ _ (rd_ok _ _ _ Hb)).
    cbn beta. change (0xff =? 0xff) with true. cbn iota. eexists _, _, _, _. split; [done|].
    rewrite length_app in Hlen. replace (len taken) with (len taken + len (entries nr (pos - buf) [])) by (cbn; lia).
    apply (end_ok _ _ _ _ _ _ _ [] (Some rest)); [constructor|done|cbn; lia|]. split; [done|done|done|]. cbn.
    rewrite wrap_small by (unfold uint; lia). lia. }
  destruct (header_cases m b (pos + 1) (buf + blen) rest Hbyte Hat Hall ltac:(lia) ltac:(lia))
    as [d l rest' Hd Hl Eb -> E1 E2|r Hr E1 Hno|d r Hd Hr E1 E2 Hno].
  2, 3: cbn [parse_options]; rewrite (proj2 (Z.eqb_neq _ _)) by lia; rewrite (bind_done _ _ _ _ _ (rd_ok _ _ _ Hb));
    cbn beta; rewrite (proj2 (Z.eqb_neq b 0xff)) by done; rewrite (bind_done _ _ _ _ _ E1); cbn beta iota.
  2: { rewrite (proj2 (Z.ltb_lt r 0)) by done. eexists _, _, _, _. split; [done|]. by apply end_bad, no_options. }
  2: { rewrite (proj2 (Z.ltb_ge d 0)) by done. rewrite (bind_done _ _ _ _ _ E2). cbn beta iota.
       rewrite (proj2 (Z.ltb_lt r 0)) by done. eexists _, _, _, _. split; [done|]. by apply end_bad, no_options. }
  rewrite (parse_options_round fuel m buf blen pkt taken old pos nr b d l) by (done || lia).
  set (es := if d =? 0 then [] else _). rewrite !length_app in Hend, Hfuel. rewrite !length_app in IH.
  destruct (negb (d =? 0) && (NANOCOAP_NOPTS_MAX <=? len taken)) eqn:Hroom.
  { eexists _, _, _, _. split; [done|]. apply end_many. apply andb_prop in Hroom as [Hd0 Hroom]. apply Z.leb_le in Hroom.
    unfold NANOCOAP_NOPTS_MAX in Hroom. rewrite length_app in Hlen. exists [], d, l, rest'. cbn [entries length].
    split_and!; [constructor|lia|done|by destruct (Z.eqb_spec d 0)|done|by rewrite Eb]. }
  destruct (Z.ltb_spec (buf + blen) (pos + 1 + len (extension d) + len (extension l) + l)) as [Hover|Hfit].
  { eexists _, _, _, _. split; [done|]. apply end_bad, (no_room b d l rest'); [done..|lia]. }
  assert (∃ v rest2, rest' = v ++ rest2 ∧ len v = l) as (v & rest2 & -> & Hv).
  { destruct (split_at rest' (Z.to_nat l)) as (v & rest2 & -> & Hv); [unfold field in Hl; lia|].
    exists v, rest2. split; [done|unfold field in Hl; lia]. }
  assert (b :: extension d ++ extension l ++ v ++ rest2 = option_bytes (d, v) ++ rest2) as Eo.
  { rewrite Eb. unfold option_bytes. cbn [fst snd app]. by rewrite Hv, <- !app_assoc. }
  assert (len (option_bytes (d, v)) = 1 + len (extension d) + len (extension l) + l) as Elen.
  { unfold option_bytes. cbn [fst snd length]. rewrite !length_app, Hv. lia. }
  apply bytes_at_app in Hat as [_ [_ [_ Hat]%bytes_at_app]%bytes_at_app].
  apply Forall_app in Hall as [_ [_ [_ Hall]%Forall_app]%Forall_app]. rewrite length_app in Hend, Hfuel, IH.
  rewrite Hv in Hat.
  edestruct (IH (length rest2)) with (rest := rest2) (fuel := fuel) (taken := taken ++ es) (old := drop (length es) old)
    (pos := pos + 1 + len (extension d) + len (extension l) + l) (nr := nr + d)
    (pkt := set_options (taken ++ es ++ drop (length es) old) pkt) as (r & pkt' & pos' & count' & Erec & Hcase);
    [lia|done|done|done|done|done|lia|lia|cbn; by rewrite app_assoc| |lia|].
  { rewrite !length_app, length_drop. rewrite length_app in Hlen. subst es. unfold NANOCOAP_NOPTS_MAX in Hroom.
    destruct (d =? 0); cbn [length]; [lia|]. cbn [negb andb] in Hroom. apply Z.leb_gt in Hroom. lia. }
  rewrite Erec, Eo. eexists _, _, _, _. split; [done|]. apply (loop_end_cons _ _ _ _ _ _ (d, v) _ es);
    [split; cbn; [done|unfold field in Hl; lia]|done|].
  by replace (pos - buf + len (option_bytes (d, v))) with (pos + 1 + len (extension d) + len (extension l) + l - buf) by lia.
Qed.

(** ** The parser *)

Lemma token_length_ok m buf bs : bytes_at m buf bs → (0 < length bs)%nat → m !! buf = Some (bs !!! 0%nat).
Proof. destruct bs as [|b bs]; cbn; [lia|]. intros [Hb _]%bytes_at_cons. done. Qed.

Lemma land_15_range b : 0 ≤ Z.land b 0xf < 16.
Proof. change 0xf with (2 ^ 4 - 1). rewrite land_mask by lia. apply Z.mod_pos_bound. done. Qed.

Lemma filled_describes buf msg pkt pkt' old es pos' : 0 < buf → hdr pkt = buf →
  token pkt = (if decide (m_token msg = []) then NULL else buf + 4) → payload pkt = NULL → payload_len pkt = 0 →
  es = entries 0 (4 + len (m_token msg)) (m_options msg) → len es ≤ 16 →
  filled pkt pkt' [] old es (m_payload msg) pos' (buf + len (message_bytes msg)) →
  let pkt' := set_options_len (u16 (len es)) pkt' in
  describes buf msg (if payload pkt' =? NULL then set_payload pos' pkt' else pkt').
Proof.
  intros Hbuf Hh Ht Hp Hpl -> Hle [F1 F2 F3 F4]. rewrite wrap_small by (unfold uint; lia). cbn [set_options_len payload].
  destruct (Z.eqb_spec (payload pkt') NULL) as [E|E]; (split;
    cbn [hdr token options options_len payload payload_len set_payload set_options_len];
    [congruence|congruence|rewrite F3; cbn [app]; eauto|done| |]).
  - destruct (m_payload msg) as [bs|] eqn:Hm; [|cbn; lia]. exfalso. destruct F4 as [F4 _].
    rewrite F4 in E. unfold NULL, message_bytes in E. rewrite Hm, !length_app in E. cbn [payload_bytes length] in E. lia.
  - destruct (m_payload msg); [apply F4|]. destruct F4 as (_ & -> & _). done.
  - destruct (m_payload msg); [apply F4|]. destruct F4 as [F4 _]. by rewrite F4 in E.
  - destruct (m_payload msg); [apply F4|]. destruct F4 as (_ & -> & _). done.
Qed.

Lemma coap_parse_cases pkt buf bs m : 0 < buf → bytes_at m buf bs → Forall byte bs →
  4 + token_length bs ≤ len bs < 2 ^ 16 → len (options pkt) = NANOCOAP_NOPTS_MAX →
  ∃ r pkt', coap_parse pkt buf (len bs) m = Done (r, pkt') m ∧
    ((r = 0 ∧ ∃ msg, wf_message msg ∧ bs = message_bytes msg ∧ describes buf msg pkt') ∨
     (r = - ENOMEM ∧ too_many 0 (4 + token_length bs) 16 (drop (Z.to_nat (4 + token_length bs)) bs)) ∨
     (r = - EBADMSG ∧ ∀ msg, wf_message msg → bs ≠ message_bytes msg)).
Proof.
  intros Hbuf Hat Hall Hlen Hopts. unfold NANOCOAP_NOPTS_MAX in Hopts.
  pose proof (land_15_range (bs !!! 0%nat)) as Htkl. fold (token_length bs) in Htkl.
  set (tkl := token_length bs) in *.
  assert (∃ h t rest, bs = h ++ t ++ rest ∧ length h = 4%nat ∧ len t = tkl) as (h & t & rest & -> & Hh & Ht).
  { destruct (split_at bs 4) as (h & r & -> & Hh); [lia|]. rewrite length_app in Hlen.
    destruct (split_at r (Z.to_nat tkl)) as (t & rest & -> & Ht); [lia|]. exists h, t, rest. split_and!; [done|done|lia]. }
  assert (token_length h = tkl) as Htok.
  { subst tkl. unfold token_length. by rewrite (lookup_total_app_l h (t ++ rest) 0) by lia. }
  pose proof Hat as Hat0. apply bytes_at_app in Hat as [_ Hat]. apply bytes_at_app in Hat as [_ Hat].
  apply Forall_app in Hall as [_ Hall]. apply Forall_app in Hall as [_ Hall].
  unfold coap_parse, coap_get_token_len. cbn [hdr set_payload_len set_payload token payload payload_len options_len options].
  rewrite (bind_done _ _ m tkl m).
  2:{ rewrite (bind_done _ _ _ _ _ (rd_ok _ _ _ (token_length_ok m buf _ Hat0 ltac:(lia)))). done. }
  cbn beta zeta. rewrite !length_app in *.
  set (pkt1 := set_token _ _). set (pos := coap_hdr_data_ptr buf + tkl).
  assert (pos = buf + 4 + tkl) as Hp by (unfold pos, coap_hdr_data_ptr, sizeof_coap_hdr; lia).
  destruct (parse_options_ok m buf (Z.of_nat (length h + (length t + length rest))) rest (S (Z.to_nat (Z.of_nat (length h + (length t + length rest)))))
    pkt1 [] (options pkt) pos 0) as (r & pkt' & pos' & count' & E & Hcase); [done|lia| |done|lia|lia|done|cbn [app]; lia|lia|].
  { replace pos with (buf + len h + len t) by lia. done. }
  cbn [length Nat2Z.inj] in E. change (Z.of_nat 0) with 0 in E, Hcase. change (u32 0) with 0 in E. rewrite (bind_done _ _ _ _ _ E).
  cbn beta iota. replace (pos - buf) with (4 + tkl) in Hcase by lia.
  replace (Z.to_nat (4 + tkl)) with (length h + length t)%nat by lia.
  assert (drop (length h + length t) (h ++ t ++ rest) = rest) as -> by (rewrite app_assoc, <- length_app; apply drop_app_length).
  destruct Hcase as [os pl pkt' pos' Hw -> Hle Hfi|pkt' pos' count' Htoo|pkt' pos' count' Hbad].
  - cbn [Z.ltb Z.compare]. eexists _, _. split; [done|]. left. split; [done|]. exists (Message h t os pl).
    rewrite <- Ht in *. split_and!; [by split|done|]. cbn [length] in *. change (Z.of_nat 0) with 0 in *. cbn [Z.add] in *.
    apply (filled_describes buf (Message h t os pl) pkt1 pkt' (options pkt)); [done|done| |done|done|done|done| ].
    + unfold pkt1. cbn [token set_token m_token]. destruct t; [by rewrite (proj2 (Z.eqb_eq _ _)) by (cbn in Ht; lia)|]. rewrite decide_False by done.
      by rewrite (proj2 (Z.eqb_neq _ _)) by (cbn in Ht; lia).
    + unfold message_bytes. cbn [m_header m_token m_options m_payload]. rewrite !length_app in *. exact Hfi.
  - cbn. eexists _, _. split; [done|]. right. left. done.
  - cbn. eexists _, _. split; [done|]. right. right. split; [done|]. intros msg [W1 W2 W3] Em. unfold message_bytes in Em.
    apply app_inj_1 in Em as [Eh Em]; [|lia]. rewrite Eh in Htok. apply app_inj_1 in Em as [_ Em]; [|lia].
    by apply (Hbad (m_options msg) (m_payload msg)).
Qed.

(** ** Parsing a well-formed message *)

Lemma too_many_entries nr off room os pl : Forall wf_option os → too_many nr off room (options_bytes os ++ payload_bytes pl) →
  room < len (entries nr off os).
Proof.
  intros Hw (os' & d & l & rest & Hw' & <- & Hd & Hd0 & Hl & E). revert nr off os Hw E.
  induction Hw' as [|o' os' Ho' Hw' IH]; intros nr off os Hw E.
  - cbn [options_bytes fmap list_fmap concat app] in E. pose proof (nibble_range _ Hd) as Hnd. pose proof (nibble_range _ Hl) as Hnl.
    symmetry in E. destruct (options_header (nibble d * 16 + nibble l) _ os pl ltac:(lia) E Hw) as (o & os2 & -> & [Hod Hol] & E').
    injection E' as E0 E'. assert (field (len o.2)) as Hf by (unfold field; lia).
    pose proof (nibble_range _ Hod). pose proof (nibble_range _ Hf).
    apply field_split in E' as [-> _]; [|done|done|lia]. cbn [entries length]. rewrite (proj2 (Z.eqb_neq o.1 0)) by done.
    rewrite length_app. cbn [length]. lia.
  - rewrite options_bytes_cons, <- app_assoc in E. destruct Hw as [|o os Ho Hw].
    + destruct pl; [|done]. unfold option_bytes in E. cbn in E. injection E as E0 _.
      by destruct (option_byte_not_marker o' Ho').
    + rewrite options_bytes_cons, <- app_assoc in E. apply option_head in E as [-> E]; [|done|done].
      cbn [entries]. rewrite !length_app. specialize (IH (nr + o'.1) (off + len (option_bytes o')) os Hw E). lia.
Qed.

Lemma token_length_message msg : wf_message msg → token_length (message_bytes msg) = len (m_token msg).
Proof. intros [W1 <- _]. unfold message_bytes, token_length. by rewrite lookup_total_app_l by lia. Qed.

Lemma coap_parse_message pkt buf msg m : 0 < buf → wf_message msg → bytes_at m buf (message_bytes msg) →
  Forall byte (message_bytes msg) → len (message_bytes msg) < 2 ^ 16 → len (options pkt) = NANOCOAP_NOPTS_MAX →
  len (entries 0 (4 + len (m_token msg)) (m_options msg)) ≤ 16 →
  ∃ pkt', coap_parse pkt buf (len (message_bytes msg)) m = Done (0, pkt') m ∧ describes buf msg pkt'.
Proof.
  intros Hbuf Hw Hat Hby Hlen Hopts Hcount. pose proof (token_length_message msg Hw) as Htok.
  destruct (coap_parse_cases pkt buf (message_bytes msg) m) as (r & pkt' & E & Hcase); [done|done|done| |done|].
  - rewrite Htok. split; [|done]. destruct Hw as [W1 _ _]. unfold message_bytes. rewrite !length_app. lia.
  - exists pkt'. destruct Hcase as [(-> & msg' & Hw' & Em & Hde)|[(-> & Hmany)|(-> & Hno)]].
    + apply message_inj in Em as ->; done.
    + exfalso. destruct Hw as [W1 W2 W3]. rewrite Htok in Hmany. unfold message_bytes in Hmany.
      rewrite app_assoc, drop_app_length' in Hmany by (rewrite length_app; lia).
      apply too_many_entries in Hmany; [lia|done].
    + by destruct (Hno msg Hw).
Qed.

(** The numbers of the standard's messages are stored as they are. *)
Lemma entries_numbers os : ∀ nr off, Forall wf_option os → 0 ≤ nr → nr + foldr Z.add 0 (fst <$> os) < 2 ^ 16 →
  opt_num <$> entries nr off os = numbers nr os.
Proof.
  induction os as [|o os IH]; intros nr off Hw Hnr Hsum; [done|]. apply Forall_cons in Hw as [[Hd _] Hw].
  cbn [fmap list_fmap foldr] in Hsum. unfold field in Hd.
  assert (0 ≤ foldr Z.add 0 (fst <$> os)) as Hpos.
  { clear -Hw. induction Hw as [|o os [Ho _] _ IH]; cbn [fmap list_fmap foldr]; unfold field in *; lia. }
  cbn [entries numbers]. rewrite fmap_app. f_equal; [|apply IH; [done|lia|lia]].
  destruct (o.1 =? 0); [done|]. cbn. by rewrite wrap_small by (unfold uint; lia).
Qed.

(** C21: For a buffer with room for the header and the token it announces, [coap_parse]
    reads only the buffer and writes nothing.  It accepts exactly the messages of the
    code's grammar whose options have at most 16 different numbers, and the packet
    then describes the message; among them are those of RFC 7252, whose option
    numbers it stores unchanged.  Else the bytes are no message, not even one of the
    looser grammar, or have too many options. *)
Theorem coap_parse_correct pkt buf bs m : 0 < buf → bytes_at m buf bs → Forall byte bs →
  4 + token_length bs ≤ len bs < 2 ^ 16 → len (options pkt) = NANOCOAP_NOPTS_MAX →
  ∃ r pkt', coap_parse pkt buf (len bs) m = Done (r, pkt') m ∧
    (∀ msg, wf_message msg → bs = message_bytes msg → len (entries 0 (4 + len (m_token msg)) (m_options msg)) ≤ 16 →
       r = 0 ∧ describes buf msg pkt') ∧
    (∀ msg, rfc_message msg → bs = message_bytes msg → len (numbers 0 (m_options msg)) ≤ 16 →
       r = 0 ∧ describes buf msg pkt' ∧
       take (length (numbers 0 (m_options msg))) (opt_num <$> options pkt') = numbers 0 (m_options msg)) ∧
    (r = 0 → ∃ msg, wf_message msg ∧ bs = message_bytes msg ∧ describes buf msg pkt') ∧
    (r ≠ 0 → r = - ENOMEM ∧ too_many 0 (4 + token_length bs) 16 (drop (Z.to_nat (4 + token_length bs)) bs) ∨
             r = - EBADMSG ∧ ∀ msg, wf_message msg → bs ≠ message_bytes msg).
Proof.
  intros Hbuf Hat Hall Hlen Hopts. destruct (coap_parse_cases pkt buf bs m Hbuf Hat Hall Hlen Hopts) as (r & pkt' & E & Hcase).
  exists r, pkt'. split; [done|].
  assert (∀ msg, wf_message msg → bs = message_bytes msg → len (entries 0 (4 + len (m_token msg)) (m_options msg)) ≤ 16 →
    r = 0 ∧ describes buf msg pkt') as Hok.
  { intros msg Hw -> Hle. destruct (coap_parse_message pkt buf msg m) as (pkt2 & E2 & Hde); [done..|lia|done|done|].
    rewrite E in E2. by injection E2 as -> ->. }
  split; [done|]. split.
  - intros msg [Hw _ _ _ Hsum _] Ebs Hle.
    pose proof (entries_numbers _ 0 (4 + len (m_token msg)) (wf_options _ Hw) ltac:(lia) ltac:(lia)) as En.
    rewrite <- En, length_fmap in Hle |- *. destruct (Hok msg Hw Ebs Hle) as [-> Hde]. split; [done|]. split; [done|].
    destruct (de_options _ _ _ Hde) as [rest ->]. rewrite fmap_app. by rewrite take_app_length' by by rewrite length_fmap.
  - destruct Hcase as [(-> & msg & Hw & -> & Hde)|[(-> & Hmany)|(-> & Hno)]]; (split; [try done|try done]); [by exists msg|by left|by right].
Qed.
