(* ===== verification/CoapOptions.v ===== *)
(** * Reading the options of a CoAP message

    Finding an option, iterating over the options of one number, and collecting
    their values as a string. *)

From S2P Require Import Prelude Bytes Buffers ByteMem Coap CoapParse.

(** ** The options of a number *)

Definition last_number (os : list (Z * list Z)) : Z := foldr Z.add 0 os.*1.

Fixpoint numbered (nr : Z) (os : list (Z * list Z)) : list (Z * list Z) :=
  match os with [] => [] | o :: os => (nr + o.1, o.2) :: numbered (nr + o.1) os end.

(** The values of the options with number [n]. *)
Definition values (n : Z) (os : list (Z * list Z)) : list (list Z) := (filter (λ o, o.1 = n) (numbered 0 os)).*2.

(** The values up to the next option with a number of its own. *)
Fixpoint repeated (os : list (Z * list Z)) : list (list Z) :=
  match os with [] => [] | o :: os => if o.1 =? 0 then o.2 :: repeated os else [] end.

Lemma last_number_cons o os : last_number (o :: os) = o.1 + last_number os.
Proof. done. Qed.

Lemma last_number_nonneg os : Forall wf_option os → 0 ≤ last_number os.
Proof. induction 1 as [|o os [Ho _] _ IH]; [done|]. rewrite last_number_cons. unfold field in Ho. lia. Qed.

Lemma numbered_above n nr os : Forall wf_option os → n < nr → filter (λ o, o.1 = n) (numbered nr os) = [].
Proof.
  intros Hw. revert nr. induction Hw as [|o os [Ho _] _ IH]; intros nr Hn; [done|]. cbn [numbered]. unfold field in Ho.
  rewrite filter_cons, decide_False by (cbn; lia). apply IH. lia.
Qed.

Lemma numbered_repeated nr os : Forall wf_option os → (filter (λ o, o.1 = nr) (numbered nr os)).*2 = repeated os.
Proof.
  induction 1 as [|o os [Ho _] Hw IH]; [done|]. cbn [numbered repeated]. rewrite filter_cons. unfold field in Ho. cbn [fst].
  destruct (Z.eqb_spec o.1 0) as [E|E].
  - rewrite E, Z.add_0_r, decide_True by done. cbn [fmap list_fmap snd]. by rewrite IH.
  - rewrite decide_False by lia. rewrite numbered_above by (done || lia). done.
Qed.

(** Searching the entries. *)
Lemma find_loop_ok m pkt n : ∀ os taken rest nr off, Forall wf_option os → 0 ≤ nr → nr ≠ n → nr + last_number os < 2 ^ 16 →
  options pkt = taken ++ entries nr off os ++ rest →
  (∃ pre o post, os = pre ++ o :: post ∧ nr + last_number pre + o.1 = n ∧ o.1 ≠ 0 ∧
     (filter (λ o, o.1 = n) (numbered nr os)).*2 = o.2 :: repeated post ∧
     find_option_loop (length (entries nr off os)) pkt (len taken) n m = Done (hdr pkt + off + len (options_bytes pre)) m) ∨
  (filter (λ o, o.1 = n) (numbered nr os) = [] ∧
     find_option_loop (length (entries nr off os)) pkt (len taken) n m = Done NULL m).
Proof.
  induction os as [|o os IH]; intros taken rest nr off Hw Hnr Hn Hlast Hopts; [by right|].
  apply Forall_cons in Hw as [[Ho Hv] Hw]. rewrite last_number_cons in Hlast. pose proof (last_number_nonneg os Hw) as Hnn.
  unfold field in Ho. cbn [numbered entries] in *. rewrite filter_cons. cbn [fst].
  destruct (Z.eqb_spec o.1 0) as [E|E].
  - rewrite E, Z.add_0_r in *. rewrite decide_False by lia. cbn [app] in *.
    destruct (IH taken rest nr (off + len (option_bytes o)) Hw Hnr Hn ltac:(lia) Hopts)
      as [(pre & o' & post & -> & Hsum & Hd & Hf & Hfind)|[Hf Hfind]]; [left|by right].
    exists (o :: pre), o', post. rewrite last_number_cons, E. split_and!; [done|lia|done|done|]. rewrite Hfind.
    rewrite options_bytes_cons, length_app. f_equal. lia.
  - cbn [app length find_option_loop] in *. rewrite Hopts.
    rewrite (aget_mid taken (Optpos (u16 (nr + o.1)) off)) by done. cbn [opt_num offset].
    rewrite wrap_small by (unfold uint; lia).
    assert ((lift (Some (Optpos (nr + o.1) off)) ≫= λ o0, if opt_num o0 =? n then mret (hdr pkt + offset o0) else
      find_option_loop (length (entries (nr + o.1) (off + len (option_bytes o)) os)) pkt (len taken + 1) n) m =
      (if nr + o.1 =? n then mret (hdr pkt + off) else
      find_option_loop (length (entries (nr + o.1) (off + len (option_bytes o)) os)) pkt (len taken + 1) n) m) as -> by done.
    destruct (Z.eqb_spec (nr + o.1) n) as [En|En].
    + left. exists [], o, os. rewrite decide_True by done. subst n. cbn [fmap list_fmap snd]. rewrite numbered_repeated by done.
      split_and!; [done|cbn; lia|done|done|]. unfold mret, M_ret. f_equal. cbn. lia.
    + rewrite decide_False by done.
      replace (len taken + 1) with (len (taken ++ [Optpos (u16 (nr + o.1)) off])) by (rewrite length_app; cbn; lia).
      destruct (IH (taken ++ [Optpos (u16 (nr + o.1)) off]) rest (nr + o.1) (off + len (option_bytes o)) Hw ltac:(lia) En ltac:(lia))
        as [(pre & o' & post & -> & Hsum & Hd & Hf & Hfind)|[Hf Hfind]]; [by rewrite Hopts, <- app_assoc|left|by right].
      exists (o :: pre), o', post. rewrite last_number_cons. split_and!; [done|lia|done|done|]. rewrite Hfind.
      rewrite options_bytes_cons, length_app. f_equal. lia.
Qed.

(** Where the options of a message lie. *)
Lemma option_at m buf msg pkt : describes buf msg pkt → bytes_at m buf (message_bytes msg) → wf_message msg →
  ∀ pre o post, m_options msg = pre ++ o :: post → ∃ rest,
    bytes_at m (buf + 4 + len (m_token msg) + len (options_bytes pre)) (option_bytes o ++ options_bytes post ++ rest) ∧
    payload pkt = buf + 4 + len (m_token msg) + len (options_bytes pre) + len (option_bytes o ++ options_bytes post ++ rest) ∧
    (rest = [] ∨ rest = [0xff]).
Proof.
  intros [D1 D2 D3 D4 D5 D6] Hat [W1 W2 W3] pre o post Ho. unfold message_bytes in *. rewrite Ho, options_bytes_app, options_bytes_cons in *.
  rewrite !length_app in D5. apply bytes_at_app in Hat as [_ [_ Hat]%bytes_at_app]. rewrite <- app_assoc in Hat. apply bytes_at_app in Hat as [_ Hat].
  rewrite W1 in Hat. rewrite <- app_assoc in Hat. change (Z.of_nat 4) with 4 in Hat.
  destruct (m_payload msg) as [p|]; cbn [payload_bytes from_option length] in *; unfold id in *.
  - exists [0xff]. split_and!; [|rewrite !length_app; cbn [length]; lia|by right].
    replace (option_bytes o ++ options_bytes post ++ 255 :: p) with ((option_bytes o ++ options_bytes post ++ [255]) ++ p) in Hat
      by (by rewrite <- !app_assoc). by apply bytes_at_app in Hat as [Hat _].
  - exists []. split_and!; [done|rewrite !length_app; cbn [length]; lia|by left].
Qed.

(** ** Decoding an option in place *)

Lemma option_bytes_length o : len (option_bytes o) = 1 + len (extension o.1) + len (extension (len o.2)) + len o.2.
Proof. unfold option_bytes. cbn [length]. rewrite !length_app. lia. Qed.

Lemma option_byte_nibbles o : wf_option o →
  Z.shiftr (nibble o.1 * 16 + nibble (len o.2)) 4 = nibble o.1 ∧ Z.land (nibble o.1 * 16 + nibble (len o.2)) 0xf = nibble (len o.2).
Proof.
  intros [Hd Hl]. assert (field (len o.2)) as Hf by (unfold field; lia).
  pose proof (nibble_range _ Hd). pose proof (nibble_range _ Hf).
  destruct (byte_nibbles (nibble o.1 * 16 + nibble (len o.2))); unfold uint; lia.
Qed.

Lemma parse_option_ok m pkt p o rest : wf_option o → o.1 < 2 ^ 16 → bytes_at m p (option_bytes o ++ rest) →
  payload pkt = p + len (option_bytes o ++ rest) → len (option_bytes o ++ rest) < 2 ^ 64 →
  _parse_option pkt p m = Done (Some (p + len (option_bytes o) - len o.2, o.1, len o.2)) m.
Proof.
  intros Ho Ho16 Hat Hp Hlen. destruct (option_byte_nibbles o Ho) as [En El]. pose proof Ho as [Hd Hl].
  assert (field (len o.2)) as Hf by (unfold field; lia).
  pose proof (option_bytes_length o) as Hol. unfold _parse_option.
  rewrite (proj2 (Z.eqb_neq _ _)) by (rewrite Hp, length_app; lia).
  unfold option_bytes in Hat, Hp, Hlen. cbn [app] in Hat, Hp, Hlen. apply bytes_at_cons in Hat as [Hb Hat].
  cbn [length] in Hp, Hlen. rewrite <- app_assoc in Hat, Hp, Hlen.
  rewrite (bind_done _ _ _ _ _ (rd_ok _ _ _ Hb)). cbn beta. rewrite En, El.
  rewrite (bind_done _ _ _ _ _ (decode_ok m o.1 (p + 1) (payload pkt) _ Hd Hat ltac:(lia) ltac:(lia))). cbn beta iota.
  apply bytes_at_app in Hat as [_ Hat]. rewrite length_app, <- app_assoc in Hp, Hlen. rewrite <- app_assoc in Hat.
  rewrite (bind_done _ _ _ _ _ (decode_ok m (len o.2) (p + 1 + len (extension o.1)) (payload pkt) _ Hf Hat ltac:(lia) ltac:(lia))).
  cbn beta iota. rewrite wrap_small by (unfold uint, field in *; lia). unfold mret, M_ret. rewrite Hol. do 4 f_equal. lia.
Qed.

(** At the end of the options, with or without a payload, the delta is not 0. *)
Lemma parse_option_end m pkt p rest : bytes_at m p rest → payload pkt = p + len rest → rest = [] ∨ rest = [0xff] →
  _parse_option pkt p m = Done None m ∨
  ∃ q delta l, _parse_option pkt p m = Done (Some (q, delta, l)) m ∧ delta ≠ 0.
Proof.
  intros Hat Hp [->| ->].
  - left. unfold _parse_option. by rewrite (proj2 (Z.eqb_eq _ _)) by (cbn in Hp; lia).
  - right. exists (p + 1), (u16 (- EBADMSG)), (- EBADMSG). split; [|done]. unfold _parse_option.
    rewrite (proj2 (Z.eqb_neq _ _)) by (cbn in Hp; lia). apply bytes_at_cons in Hat as [Hb _].
    by rewrite (bind_done _ _ _ _ _ (rd_ok _ _ _ Hb)).
Qed.

(** ** Collecting the values of a number *)

(** [separator] before each value. *)
Definition joined (separator : Z) (vs : list (list Z)) : list Z := concat ((λ v, separator :: v) <$> vs).

Lemma joined_cons separator v vs : joined separator (v :: vs) = separator :: v ++ joined separator vs.
Proof. done. Qed.

(** The values the loop takes from here on. *)
Definition taken_values (first : bool) (os : list (Z * list Z)) : list (list Z) :=
  match os with o :: os => if first then o.2 :: repeated os else repeated (o :: os) | [] => [] end.

Definition wf_value (o : Z * list Z) : Prop := wf_option o ∧ o.1 < 2 ^ 16 ∧ Forall byte o.2.

Lemma wf_value_option os : Forall wf_value os → Forall wf_option os.
Proof. intros Hw. eapply Forall_impl; [exact Hw|]. by intros ? []. Qed.

(** Iterating: the value here, or the end of the values. *)
Lemma iterate_ok m pkt p os rest (first : bool) : 0 < p → Forall wf_value os → (first = true → os ≠ []) →
  bytes_at m p (options_bytes os ++ rest) → payload pkt = p + len (options_bytes os ++ rest) →
  len (options_bytes os ++ rest) < 2 ^ 64 → rest = [] ∨ rest = [0xff] →
  match os with
  | o :: _ => if first || (o.1 =? 0)
      then coap_iterate_option pkt p first m = Done (p + len (option_bytes o) - len o.2, p + len (option_bytes o), len o.2) m
      else ∃ l, coap_iterate_option pkt p first m = Done (NULL, NULL, l) m
  | [] => ∃ l, coap_iterate_option pkt p first m = Done (NULL, NULL, l) m
  end.
Proof.
  intros Hp0 Hw Hfirst Hat Hp Hlen Hrest. unfold coap_iterate_option. destruct Hw as [|o os (Ho & Ho16 & _) Hw].
  - destruct first; [by destruct (Hfirst eq_refl)|]. destruct (parse_option_end m pkt p rest Hat Hp Hrest) as [E|(q & d & l & E & Hd)];
      rewrite (bind_done _ _ _ _ _ E); [by eexists|]. cbn [orb]. rewrite (proj2 (Z.eqb_neq d 0)) by done. by eexists.
  - rewrite options_bytes_cons, <- app_assoc in *.
    rewrite (bind_done _ _ _ _ _ (parse_option_ok m pkt p o _ Ho Ho16 Hat Hp Hlen)).
    destruct (first || (o.1 =? 0)); [|by eexists]. unfold mret, M_ret. do 2 f_equal. f_equal. lia.
Qed.

Lemma get_string_loop_ok pkt separator rest : byte separator → ∀ fuel os p m t room (first : bool),
  0 < p → Forall wf_value os → (first = true → os ≠ []) →
  bytes_at m p (options_bytes os ++ rest) → payload pkt = p + len (options_bytes os ++ rest) →
  len (options_bytes os ++ rest) < 2 ^ 64 → rest = [] ∨ rest = [0xff] →
  0 ≤ room < 2 ^ 31 → mapped m t room → t + room ≤ p ∨ p + len (options_bytes os ++ rest) ≤ t → (Z.to_nat room < fuel)%nat →
  let out := joined separator (taken_values first os) in
  if len out <=? room then get_string_loop fuel pkt p t room first separator m = Done (Some (t + len out, room - len out)) (poke m t out)
  else ∃ m', get_string_loop fuel pkt p t room first separator m = Done None m' ∧ ∀ q, ¬ (t ≤ q < t + room) → m' !! q = m !! q.
Proof.
  intros Hsep. induction fuel as [|fuel IH]; intros os p m t room first Hp0 Hw Hfirst Hat Hp Hlen Hrest Hroom Hmap Hdis Hfuel; [lia|].
  cbn zeta. cbn [get_string_loop].
  pose proof (iterate_ok m pkt p os rest first Hp0 Hw Hfirst Hat Hp Hlen Hrest) as Hit.
  assert (∀ l, coap_iterate_option pkt p first m = Done (NULL, NULL, l) m → taken_values first os = [] →
    if len (joined separator (taken_values first os)) <=? room
    then get_string_loop (S fuel) pkt p t room first separator m =
      Done (Some (t + len (joined separator (taken_values first os)), room - len (joined separator (taken_values first os))))
        (poke m t (joined separator (taken_values first os)))
    else ∃ m', get_string_loop (S fuel) pkt p t room first separator m = Done None m' ∧ ∀ q, ¬ (t ≤ q < t + room) → m' !! q = m !! q) as Hstop.
  { intros l E ->. cbn [joined fmap list_fmap concat length poke]. rewrite (proj2 (Z.leb_le _ _)) by lia. cbn [get_string_loop].
    rewrite (bind_done _ _ _ _ _ E). cbn. by rewrite Z.add_0_r, Z.sub_0_r. }
  destruct Hw as [|o os (Ho & Ho16 & Hob) Hw]; [destruct Hit as [l E]; by apply (Hstop l)|].
  destruct (first || (o.1 =? 0)) eqn:Hhere.
  2: { apply orb_false_elim in Hhere as [-> Hd]. destruct Hit as [l E]. apply (Hstop l); [done|]. cbn. by rewrite Hd. }
  clear Hstop. assert (taken_values first (o :: os) = o.2 :: taken_values false os) as ->.
  { assert (taken_values false os = repeated os) as -> by by destruct os. destruct first; [done|]. cbn [orb] in Hhere. cbn. by rewrite Hhere. }
  rewrite joined_cons. set (out := joined separator (taken_values false os)).
  rewrite options_bytes_cons, <- app_assoc in Hat, Hp, Hlen, Hdis. rewrite length_app in Hp, Hlen, Hdis.
  pose proof (option_bytes_length o) as Hol. destruct Ho as [_ Hol2].
  rewrite (bind_done _ _ _ _ _ Hit). cbn beta iota. rewrite (proj2 (Z.eqb_neq _ NULL)) by (unfold NULL; lia). cbn [negb].
  rewrite wrap_small by (unfold uint; lia). cbn [length]. rewrite length_app.
  destruct (Z.ltb_spec room (len o.2 + 1)) as [Hsmall|Hbig].
  { rewrite (proj2 (Z.leb_gt _ _)) by lia. by exists m. }
  rewrite (bind_done _ _ _ _ _ (wr_ok m t separator ltac:(by eapply mapped_sub; [exact Hmap|lia|lia]) Hsep)).
  pose proof Hat as [Hat1 Hat2]%bytes_at_app.
  assert (bytes_at m (p + len (option_bytes o) - len o.2) o.2) as Hv.
  { unfold option_bytes in Hat1. apply bytes_at_cons in Hat1 as [_ Hat1]. apply bytes_at_app in Hat1 as [_ [_ Hat1]%bytes_at_app].
    rewrite Hol. by replace (p + (1 + len (extension o.1) + len (extension (len o.2)) + len o.2) - len o.2)
      with (p + 1 + len (extension o.1) + len (extension (len o.2))) by lia. }
  change (<[t:=separator]> m) with (poke m t [separator]).
  rewrite (bind_done _ _ _ _ _ (bytes_memcpy_ok (poke m t [separator]) (t + 1) (p + len (option_bytes o) - len o.2) o.2 (len o.2) eq_refl
    ltac:(apply bytes_at_poke_other; [exact Hv|cbn [length]; lia])
    ltac:(apply mapped_poke; by eapply mapped_sub; [exact Hmap|lia|lia]) Hob)). cbn beta.
  rewrite (proj2 (Z.eqb_neq _ NULL)) by (unfold NULL; lia). rewrite wrap_small by (unfold uint; lia).
  assert (poke (poke m t [separator]) (t + 1) o.2 = poke m t (separator :: o.2)) as -> by done.
  assert (len (separator :: o.2) = 1 + len o.2) as Hl1 by (cbn [length]; lia).
  opose proof* (IH os (p + len (option_bytes o)) (poke m t (separator :: o.2)) (t + 1 + len o.2) (room - (len o.2 + 1)) false) as IH';
    [lia|done|done|apply bytes_at_poke_other; [done|lia]|lia|lia|done|lia|
     apply mapped_poke; by eapply mapped_sub; [exact Hmap|lia|lia]|lia|lia|].
  clear IH. cbn zeta in IH'. fold out in IH'.
  destruct (Z.leb_spec (len out) (room - (len o.2 + 1))).
  - rewrite (proj2 (Z.leb_le _ _)) by lia. rewrite IH'. change (separator :: o.2 ++ out) with ((separator :: o.2) ++ out). rewrite poke_app, Hl1.
    replace (t + 1 + len o.2 + len out) with (t + Z.of_nat (S (length o.2 + length out))) by lia.
    replace (room - (len o.2 + 1) - len out) with (room - Z.of_nat (S (length o.2 + length out))) by lia.
    by replace (t + 1 + len o.2) with (t + (1 + len o.2)) by lia.
  - rewrite (proj2 (Z.leb_gt _ _)) by lia. destruct IH' as (m' & E & Hm'). exists m'. split; [done|]. intros q Hq.
    rewrite Hm' by lia. apply poke_outside. lia.
Qed.

(** ** Received messages *)

(** A message in memory and the packet that describes it, as [coap_parse] leaves
    it. *)
Record received (m : gmap Z Z) (buf : Z) (msg : message) (pkt : coap_pkt_t) : Prop := {
  rc_describes : describes buf msg pkt;
  rc_buf : 0 < buf;
  rc_bytes : bytes_at m buf (message_bytes msg);
  rc_byte : Forall byte (message_bytes msg);
  rc_wf : wf_message msg;
  rc_length : len (message_bytes msg) < 2 ^ 16;
  rc_numbers : last_number (m_options msg) < 2 ^ 16
}.

Lemma delta_le_last os o : Forall wf_option os → o ∈ os → o.1 ≤ last_number os.
Proof.
  induction 1 as [|o' os [Ho _] Hw IH]; [by intros ?%elem_of_nil|]. rewrite last_number_cons.
  pose proof (last_number_nonneg os Hw). intros [->|Hin]%elem_of_cons; [lia|]. unfold field in Ho. specialize (IH Hin). lia.
Qed.

Lemma received_values m buf msg pkt : received m buf msg pkt → Forall wf_value (m_options msg).
Proof.
  intros [_ _ _ Hb [_ _ Hw] _ Hn]. apply Forall_forall. intros o Ho. split_and!.
  - by apply (proj1 (Forall_forall _ _) Hw).
  - pose proof (delta_le_last _ _ Hw Ho). lia.
  - unfold message_bytes in Hb. apply Forall_app in Hb as [_ [_ [Hb _]%Forall_app]%Forall_app].
    apply list_elem_of_split in Ho as (pre & post & Ho). rewrite Ho, options_bytes_app, options_bytes_cons in Hb.
    apply Forall_app in Hb as [_ [Hb _]%Forall_app]. unfold option_bytes in Hb. apply Forall_cons in Hb as [_ Hb].
    by apply Forall_app in Hb as [_ [_ Hb]%Forall_app].
Qed.

(** Finding the first option of a number. *)
Lemma coap_find_option_ok m buf msg pkt n : received m buf msg pkt → 0 < n →
  (∃ pre o post, m_options msg = pre ++ o :: post ∧ last_number pre + o.1 = n ∧
     values n (m_options msg) = o.2 :: repeated post ∧
     coap_find_option pkt n m = Done (buf + 4 + len (m_token msg) + len (options_bytes pre)) m) ∨
  (values n (m_options msg) = [] ∧ coap_find_option pkt n m = Done NULL m).
Proof.
  intros [[D1 D2 [rest D3] D4 D5 D6] Hb Hat Hby [W1 W2 W3] Hl Hn] Hn0. unfold coap_find_option. rewrite D4, Nat2Z.id.
  destruct (find_loop_ok m pkt n (m_options msg) [] rest 0 (4 + len (m_token msg)) W3 ltac:(lia) ltac:(lia) Hn D3)
    as [(pre & o & post & E & Hsum & Hd & Hv & Hfind)|[Hv Hfind]]; [left|right].
  - exists pre, o, post. split_and!; [done|lia|done|]. change (len []) with 0 in Hfind. rewrite Hfind, D1. f_equal. lia.
  - unfold values. by rewrite Hv.
Qed.

(** The string for the options of number [n]: their values with the separator in
    front of each, the separator alone when there are none.  It is stored when it
    fits with its final 0; else nothing outside the room for it is written. *)
Theorem coap_opt_get_string_ok m buf msg pkt n target max_len separator :
  received m buf msg pkt → 0 < n → byte separator → 1 < max_len < 2 ^ 31 → mapped m target max_len →
  target + max_len ≤ buf ∨ buf + len (message_bytes msg) ≤ target →
  let vs := values n (m_options msg) in
  let out := match vs with [] => [separator] | _ => joined separator vs end in
  if len out <? max_len then
    coap_opt_get_string pkt n target max_len separator m = Done (len out + 1) (poke m target (out ++ [0]))
  else ∃ m', coap_opt_get_string pkt n target max_len separator m = Done (- ENOSPC) m' ∧
    ∀ q, ¬ (target ≤ q < target + max_len) → m' !! q = m !! q.
Proof.
  intros Hr Hn Hsep Hmax Hmap Hdis. cbn zeta. unfold coap_opt_get_string, massert.
  rewrite (proj2 (Z.ltb_lt 1 max_len)) by lia. rewrite (bind_done _ _ m tt m eq_refl).
  pose proof (received_values _ _ _ _ Hr) as Hwv.
  destruct (coap_find_option_ok m buf msg pkt n Hr Hn) as [(pre & o & post & Ho & _ & -> & Hfind)|[-> Hfind]];
    rewrite (bind_done _ _ _ _ _ Hfind).
  - destruct Hr as [Hde Hb Hat Hby Hwf Hl _].
    destruct (option_at m buf msg pkt Hde Hat Hwf pre o post Ho) as (rest & Hat' & Hp & Hrest).
    rewrite (proj2 (Z.eqb_neq _ NULL)) by (unfold NULL; lia). rewrite wrap_small by (unfold uint; lia).
    rewrite Ho in Hwv. apply Forall_app in Hwv as [_ Hwv].
    assert (4 + len (m_token msg) + len (options_bytes pre) + len (option_bytes o ++ options_bytes post ++ rest) ≤ len (message_bytes msg)) as Hmb.
    { destruct Hde as [_ _ _ _ D5 _]. unfold message_bytes in *. rewrite Ho, options_bytes_app, options_bytes_cons, !length_app in *.
      destruct Hwf as [W1 _ _]. lia. }
    opose proof* (get_string_loop_ok pkt separator rest Hsep (S (Z.to_nat max_len)) (o :: post)
      (buf + 4 + len (m_token msg) + len (options_bytes pre)) m target (max_len - 1) true) as Hloop;
      [lia|done|done|by rewrite options_bytes_cons, <- app_assoc|by rewrite options_bytes_cons, <- app_assoc|
       rewrite options_bytes_cons, <- app_assoc; lia|done|lia|by eapply mapped_sub; [exact Hmap|lia|lia]|
       rewrite options_bytes_cons, <- app_assoc; lia|lia|].
    cbn zeta in Hloop. cbn [taken_values] in Hloop. set (out := joined separator (o.2 :: repeated post)) in *.
    destruct (Z.leb_spec (len out) (max_len - 1)).
    + rewrite (proj2 (Z.ltb_lt _ _)) by lia. rewrite (bind_done _ _ _ _ _ Hloop). cbn beta iota.
      rewrite (bind_done _ _ _ tt (poke m target (out ++ [0]))).
      * unfold mret, M_ret. f_equal. rewrite swrap_small by lia. lia.
      * rewrite wr_ok; [by rewrite poke_app|apply mapped_poke; by eapply mapped_sub; [exact Hmap|lia|lia]|unfold uint; lia].
    + rewrite (proj2 (Z.ltb_ge _ _)) by lia. destruct Hloop as (m' & E & Hm'). rewrite (bind_done _ _ _ _ _ E).
      exists m'. split; [done|]. intros q Hq. apply Hm'. lia.
  - cbn [length]. rewrite (proj2 (Z.ltb_lt _ _)) by lia. rewrite (proj2 (Z.eqb_eq NULL NULL)) by done.
    rewrite (bind_done _ _ _ _ _ (wr_ok m target separator ltac:(by eapply mapped_sub; [exact Hmap|lia|lia]) Hsep)).
    change (<[target:=separator]> m) with (poke m target [separator]).
    rewrite (bind_done _ _ _ _ _ (wr_ok _ (target + 1) 0
      ltac:(apply mapped_poke; by eapply mapped_sub; [exact Hmap|lia|lia]) ltac:(unfold uint; lia))). done.
Qed.
