(* ===== verification/CoapBuild.v ===== *)
(** * Building CoAP messages

    The functions that write headers and options produce the encoding of
    [CoapParse], so that [coap_parse] gives the message back. *)

From S2P Require Import Prelude Bytes Buffers ByteMem Coap CoapParse CoapOptions.

(** ** Writing an option *)

Lemma put_delta_end_ok offset v : put_delta_end offset v = offset + len (extension v).
Proof. unfold put_delta_end. rewrite extension_length. change (256 + 13) with 269. ztest. Qed.

Lemma put_delta_optlen_ok m buf offset shift v b : field v → m !! buf = Some b → 0 < offset → mapped m (buf + offset) (len (extension v)) →
  _put_delta_optlen buf offset shift v m =
    Done (offset + len (extension v)) (poke (<[buf := u8 (Z.lor b (Z.shiftl (nibble v) shift))]> m) (buf + offset) (extension v)).
Proof.
  intros Hv Hb Hoff Hmap. unfold _put_delta_optlen. rewrite (bind_done _ _ _ _ _ (rd_ok _ _ _ Hb)). cbn beta.
  rewrite put_delta_end_ok. change (256 + 13) with 269.
  assert (∀ x, wr buf x m = Done tt (<[buf := u8 x]> m)) as Hwr by (intros x; unfold wr; by rewrite Hb).
  assert (∀ x, mapped (<[buf := x]> m) (buf + offset) (len (extension v))) as Hmap' by (intros x; by apply (mapped_poke m buf [x])).
  pose proof (extension_bytes v Hv) as Hby. unfold field, nibble, extension in *.
  destruct (Z.ltb_spec v 13); [by rewrite (bind_done _ _ _ _ _ (Hwr _))|].
  destruct (Z.ltb_spec v 269); (erewrite bind_done; [done|]); rewrite (bind_done _ _ _ _ _ (Hwr _)).
  - apply Forall_cons in Hby as [Hby _]. by rewrite wr_ok.
  - rewrite wrap_small by (unfold uint; lia). by apply wrs_ok.
Qed.

(** [coap_put_option] writes the encoding of the option and returns its length. *)
Lemma coap_put_option_ok m buf lastonum onum odata : field (onum - lastonum) → len odata < 65805 → Forall byte odata →
  mapped m buf (len (option_bytes (onum - lastonum, odata))) →
  coap_put_option buf lastonum onum odata m =
    Done (len (option_bytes (onum - lastonum, odata))) (poke m buf (option_bytes (onum - lastonum, odata))).
Proof.
  intros Hd Hl Hby Hmap. set (o := (onum - lastonum, odata)) in *. assert (len (option_bytes o) = 1 + len (extension (onum - lastonum)) + len (extension (len odata)) + len odata) as Hol
    by apply (option_bytes_length o).
  assert (field (len odata)) as Hf by (unfold field; lia).
  pose proof (nibble_range _ Hd) as Hnd. pose proof (nibble_range _ Hf) as Hnl.
  unfold coap_put_option, massert. rewrite (proj2 (Z.leb_le lastonum onum)) by (unfold field in Hd; lia).
  rewrite (bind_done _ _ m tt m eq_refl).
  rewrite (bind_done _ _ _ _ _ (wr_ok m buf 0 ltac:(by eapply mapped_sub; [exact Hmap|lia|lia]) ltac:(unfold uint; lia))).
  set (m1 := <[buf := 0]> m). assert (∀ q n, mapped m q n → mapped m1 q n) as Hm1 by (intros q n; apply (mapped_poke m buf [0])).
  rewrite (bind_done _ _ _ _ _ (put_delta_optlen_ok m1 buf 1 4 (onum - lastonum) 0 Hd (lookup_insert_eq _ _ _) ltac:(lia)
    ltac:(apply Hm1; eapply mapped_sub; [exact Hmap|lia|lia]))). cbn beta.
  set (b1 := u8 (Z.lor 0 (Z.shiftl (nibble (onum - lastonum)) 4))).
  set (m2 := poke (<[buf := b1]> m1) (buf + 1) (extension (onum - lastonum))).
  assert (∀ q n, mapped m q n → mapped m2 q n) as Hm2.
  { intros q n Hq. apply mapped_poke, (mapped_poke m1 buf [b1]), Hm1, Hq. }
  assert (m2 !! buf = Some b1) as Hb1 by (unfold m2; rewrite poke_outside by lia; apply lookup_insert_eq).
  rewrite (bind_done _ _ _ _ _ (put_delta_optlen_ok m2 buf (1 + len (extension (onum - lastonum))) 0 (len odata) b1 Hf Hb1 ltac:(lia)
    ltac:(apply Hm2; eapply mapped_sub; [exact Hmap|lia|lia]))). cbn beta.
  set (b2 := u8 (Z.lor b1 (Z.shiftl (nibble (len odata)) 0))).
  assert (b2 = nibble (onum - lastonum) * 16 + nibble (len odata)) as Eb.
  { unfold b2, b1. rewrite Z.lor_0_l, Z.shiftl_0_r, (wrap_small 8 (Z.shiftl _ 4)) by (unfold uint; rewrite Z.shiftl_mul_pow2 by lia; lia).
    rewrite (lor_shiftl _ _ 4) by (unfold uint; lia). apply wrap_small. unfold uint. lia. }
  rewrite (bind_done _ _ _ _ _ (wrs_ok (poke (<[buf := b2]> m2) (buf + (1 + len (extension (onum - lastonum)))) (extension (len odata)))
    (buf + (1 + len (extension (onum - lastonum)) + len (extension (len odata)))) odata
    ltac:(apply mapped_poke, (mapped_poke m2 buf [b2]), Hm2; eapply mapped_sub; [exact Hmap|lia|lia]) Hby)).
  unfold mret, M_ret. rewrite Hol.
  assert (poke (poke (<[buf := b2]> m2) (buf + (1 + len (extension (onum - lastonum)))) (extension (len odata)))
    (buf + (1 + len (extension (onum - lastonum)) + len (extension (len odata)))) odata = poke m buf (option_bytes o)) as ->.
  { unfold m2, m1. rewrite insert_poke by lia. rewrite !insert_insert_eq, Eb. unfold option_bytes. cbn [fst snd o poke]. rewrite !poke_app.
    by rewrite !Z.add_assoc. }
  done.
Qed.

(** ** Messages under construction *)

(** The entries [coap_opt_add_opaque] and its siblings make: one for each option. *)
Fixpoint built_entries (nr off : Z) (os : list (Z * list Z)) : list coap_optpos_t :=
  match os with
  | [] => []
  | o :: os => Optpos (nr + o.1) off :: built_entries (nr + o.1) (off + len (option_bytes o)) os
  end.

(** The first bytes [front] and the options [os] are in the buffer of [cap] bytes at
    [buf], and the packet says so. *)
Record building (m : gmap Z Z) (buf cap : Z) (front : list Z) (os : list (Z * list Z)) (pkt : coap_pkt_t) : Prop := {
  bu_hdr : hdr pkt = buf;
  bu_payload : payload pkt = buf + len (front ++ options_bytes os);
  bu_payload_len : payload_len pkt = cap - len (front ++ options_bytes os);
  bu_options_len : options_len pkt = len os;
  bu_options : ∃ rest, options pkt = built_entries 0 (len front) os ++ rest ∧ length (options pkt) = 16%nat;
  bu_wf : Forall wf_option os;
  bu_bytes : bytes_at m buf (front ++ options_bytes os);
  bu_fits : len (front ++ options_bytes os) ≤ cap < 2 ^ 16;
  bu_mapped : mapped m buf cap
}.

Lemma built_entries_length nr off os : length (built_entries nr off os) = length os.
Proof. revert nr off. induction os as [|o os IH]; intros nr off; [done|]. cbn. by rewrite IH. Qed.

Lemma built_entries_snoc nr off os o : built_entries nr off (os ++ [o]) =
  built_entries nr off os ++ [Optpos (nr + last_number os + o.1) (off + len (options_bytes os))].
Proof.
  revert nr off. induction os as [|o' os IH]; intros nr off.
  - cbn. do 2 f_equal; lia.
  - cbn [app built_entries]. rewrite IH, last_number_cons, options_bytes_cons, length_app. do 4 f_equal; lia.
Qed.

Lemma options_bytes_snoc os o : options_bytes (os ++ [o]) = options_bytes os ++ option_bytes o.
Proof. rewrite options_bytes_app, options_bytes_cons. by rewrite app_nil_r. Qed.

Lemma last_number_snoc os o : last_number (os ++ [o]) = last_number os + o.1.
Proof. induction os as [|o' os IH]; [cbn; lia|]. cbn [app]. rewrite !last_number_cons, IH. lia. Qed.

(** The number of the last option. *)
Lemma last_entry os nr off rest : os ≠ [] → ∃ q,
  aget (built_entries nr off os ++ rest) (len os - 1) = Some (Optpos (nr + last_number os) q).
Proof.
  induction os as [|o os _] using rev_ind; [done|]. intros _. rewrite built_entries_snoc, last_number_snoc, length_app, <- app_assoc.
  exists (off + len (options_bytes os)). cbn [app]. rewrite aget_mid by (rewrite built_entries_length; cbn [length]; lia). do 2 f_equal. lia.
Qed.

(** Adding an option: the option is encoded behind those before it; when there is
    no room for it or for its entry, nothing changes. *)
Lemma add_option_ok m buf cap front os pkt optnum val : building m buf cap front os pkt → last_number os ≤ optnum < 2 ^ 16 →
  len val < 65805 → Forall byte val →
  let o := (optnum - last_number os, val) in
  if (16 <=? len os) || (cap <? len (front ++ options_bytes (os ++ [o])))
  then _add_opt_pkt pkt optnum val m = Done (- ENOSPC, pkt) m
  else ∃ pkt', _add_opt_pkt pkt optnum val m = Done (len (option_bytes o), pkt') (poke m (payload pkt) (option_bytes o)) ∧
    building (poke m (payload pkt) (option_bytes o)) buf cap front (os ++ [o]) pkt' ∧ token pkt' = token pkt.
Proof.
  intros [B1 B2 B3 B4 (rest & B5 & B6) B7 B8 B9 B10] Hnum Hval Hby o. unfold _add_opt_pkt. rewrite B4. unfold NANOCOAP_NOPTS_MAX.
  destruct (Z.leb_spec 16 (len os)) as [|Hroom]; [done|]. cbn [orb].
  pose proof (last_number_nonneg os B7) as Hnn.
  rewrite (bind_done _ _ m (last_number os) m).
  2: { destruct (Z.eqb_spec (len os) 0) as [E|E]; cbn [negb]; [by destruct os|].
       rewrite B5. destruct (last_entry os 0 (len front) rest) as [q ->]; [by destruct os|]. done. }
  unfold massert. rewrite (proj2 (Z.leb_le _ _)) by lia. rewrite (bind_done _ _ m tt m eq_refl).
  rewrite !put_delta_end_ok. assert (field o.1) as Hd by (unfold field, o; cbn; lia).
  assert (wf_option o) as Ho by done.
  assert (len (option_bytes o) = 1 + len (extension (optnum - last_number os)) + len (extension (len val)) + len val) as Hol
    by apply (option_bytes_length o).
  replace (1 + len (extension (optnum - last_number os)) + (0 + len (extension (len val))) + len val) with (len (option_bytes o)) by lia.
  rewrite options_bytes_snoc, B3, !length_app in *.
  destruct (Z.ltb_spec cap (Z.of_nat (length front + (length (options_bytes os) + length (option_bytes o))))) as [Hfull|Hfit].
  { by rewrite (proj2 (Z.ltb_lt _ _)) by lia. }
  rewrite (proj2 (Z.ltb_ge _ _)) by lia.
  assert (mapped m (payload pkt) (len (option_bytes o))) as Hmap by (eapply mapped_sub; [exact B10|lia|lia]).
  rewrite (bind_done _ _ _ _ _ (coap_put_option_ok m (payload pkt) _ optnum val Hd Hval Hby Hmap)). fold o.
  assert (length (built_entries 0 (len front) os) = length os) as Hbl by apply built_entries_length.
  destruct rest as [|e rest]; [rewrite B5, app_nil_r in B6; lia|]. rewrite B5.
  rewrite (aset_mid _ e (Optpos optnum (u16 (payload pkt - hdr pkt))) rest) by lia.
  eexists. split; [done|]. split; [|done].
  assert (u16 (payload pkt - hdr pkt) = len front + len (options_bytes os)) as -> by (rewrite B1, B2; rewrite wrap_small; unfold uint; lia).
  split; cbn [hdr payload payload_len options_len options].
  - done.
  - rewrite options_bytes_snoc, !length_app, B2. lia.
  - rewrite options_bytes_snoc, !length_app, wrap_small by (unfold uint; lia). lia.
  - rewrite length_app, wrap_small by (unfold uint; lia). cbn [length]. lia.
  - exists rest. rewrite built_entries_snoc, <- app_assoc. split; [|rewrite B5 in B6; rewrite length_app in *; cbn [length] in *; lia].
    cbn [app]. do 3 f_equal. unfold o. cbn [fst]. lia.
  - apply Forall_app. by split; [|constructor].
  - rewrite options_bytes_snoc, app_assoc. apply bytes_at_app. split.
    + apply bytes_at_poke_other; [done|]. rewrite length_app. lia.
    + rewrite length_app. replace (buf + Z.of_nat (length front + length (options_bytes os))) with (payload pkt) by lia. apply bytes_at_poke.
  - rewrite options_bytes_snoc, !length_app. lia.
  - by apply mapped_poke.
Qed.

(** ** Headers *)

(** The header of a message: version 1, type and token length; code; id. *)
Definition header_bytes (type tkl code id : Z) : list Z := (64 + type * 16 + tkl) :: code :: be_bytes 2 id.

Lemma header_byte type tkl : 0 ≤ type < 4 → 0 ≤ tkl < 16 →
  Z.lor (Z.lor (Z.shiftl 1 6) (Z.shiftl type 4)) tkl = 64 + type * 16 + tkl.
Proof.
  intros Ht Hk. assert (Z.lor (Z.shiftl 1 6) (Z.shiftl type 4) = Z.shiftl (4 + type) 4) as ->.
  { assert (type = 0 ∨ type = 1 ∨ type = 2 ∨ type = 3) as [->|[->|[->| ->]]] by lia; done. }
  rewrite (lor_shiftl _ _ 4) by (unfold uint; lia). lia.
Qed.

Lemma ldiff_small v n : 0 ≤ n → uint n v → Z.ldiff v (2 ^ n - 1) = 0.
Proof.
  intros Hn Hv. apply Z.bits_inj'. intros i Hi. rewrite Z.ldiff_spec, Z.bits_0.
  replace (2 ^ n - 1) with (Z.ones n) by (rewrite Z.ones_equiv; lia).
  destruct (Z.lt_ge_cases i n); [by rewrite Z.ones_spec_low, andb_false_r by lia|].
  by rewrite (testbit_lt_pow2 v n) by done.
Qed.

(** [coap_build_hdr] writes the header and copies the token, which may lie anywhere
    but in the header. *)
Lemma coap_build_hdr_ok m hdr type tp tok code id : 0 ≤ type < 4 → byte code → uint 16 id → len tok < 16 → Forall byte tok →
  bytes_at m tp tok → tp + len tok ≤ hdr ∨ hdr + 4 ≤ tp → mapped m hdr (4 + len tok) →
  coap_build_hdr hdr type tp (len tok) code id m =
    Done (4 + len tok) (poke m hdr (header_bytes type (len tok) code id ++ tok)).
Proof.
  intros Ht Hc Hid Hl Hby Hat Hdis Hmap. unfold coap_build_hdr, massert.
  assert (Z.ldiff type 3 = 0) as -> by (apply (ldiff_small type 2); unfold uint; lia). rewrite (bind_done _ _ m tt m eq_refl).
  assert (Z.ldiff (len tok) 0x1f = 0) as -> by (apply (ldiff_small (len tok) 5); unfold uint; lia). rewrite (bind_done _ _ m tt m eq_refl).
  assert (∀ q n, hdr ≤ q → q + n ≤ hdr + 4 + len tok → mapped m q n) as Hsub by (intros q n ??; by eapply mapped_sub; [exact Hmap|lia|lia]).
  set (b := 64 + type * 16 + len tok).
  rewrite (bind_done _ _ _ _ _ (wrs_ok m hdr [0; 0; 0; 0] ltac:(by apply Hsub; cbn; lia) ltac:(bytes))).
  set (m1 := poke m hdr [0; 0; 0; 0]). rewrite header_byte by lia. fold b.
  rewrite (bind_done _ _ _ _ _ (wr_ok m1 hdr b ltac:(by apply mapped_poke, Hsub; lia) ltac:(unfold uint, b; lia))).
  change (<[hdr:=b]> m1) with (poke m1 hdr [b]).
  rewrite (bind_done _ _ _ _ _ (wr_ok (poke m1 hdr [b]) (hdr + 1) code ltac:(by apply mapped_poke, mapped_poke, Hsub; lia) Hc)).
  change (<[hdr + 1:=code]> (poke m1 hdr [b])) with (poke m1 hdr [b; code]).
  rewrite (bind_done _ _ _ _ _ (wrs_ok (poke m1 hdr [b; code]) (hdr + 2) (be_bytes 2 id)
    ltac:(by apply mapped_poke, mapped_poke, Hsub; cbn; lia) (be_bytes_byte 2 id))).
  assert (poke (poke m1 hdr [b; code]) (hdr + 2) (be_bytes 2 id) = poke m hdr (header_bytes type (len tok) code id)) as ->.
  { transitivity (poke m1 hdr (header_bytes type (len tok) code id)); [|by apply poke_poke]. unfold header_bytes. fold b.
    change (b :: code :: be_bytes 2 id) with ([b; code] ++ be_bytes 2 id). by rewrite (poke_app m1). }
  set (h := header_bytes _ _ _ _). assert (len h = 4) as Hh by done.
  rewrite (bind_done _ _ _ tt (poke (poke m hdr h) (hdr + 4) tok)).
  - rewrite poke_app, Hh. done.
  - destruct (Z.eqb_spec (len tok) 0) as [E|E]; cbn [negb]; [by destruct tok|]. unfold coap_hdr_data_ptr, sizeof_coap_hdr.
    apply bytes_memcpy_ok; [done| |apply mapped_poke, Hsub; lia|done]. apply bytes_at_poke_other; [done|]. rewrite Hh. lia.
Qed.

Lemma header_token_length type tkl code id : 0 ≤ type < 4 → 0 ≤ tkl < 16 → token_length (header_bytes type tkl code id) = tkl.
Proof.
  intros Ht Hk. unfold token_length, header_bytes. cbn. change 15 with (2 ^ 4 - 1). rewrite land_mask by lia.
  change (2 ^ 4) with 16. Z.div_mod_to_equations. lia.
Qed.

Lemma header_bytes_byte type tkl code id : 0 ≤ type < 4 → 0 ≤ tkl < 16 → byte code → Forall byte (header_bytes type tkl code id).
Proof.
  intros Ht Hk Hc. unfold header_bytes. constructor; [unfold uint; lia|]. constructor; [done|]. apply be_bytes_byte.
Qed.

(** ** A whole message *)

(** The options in order of their numbers, through [coap_opt_add_opaque]. *)
Fixpoint add_options (pkt : coap_pkt_t) (opts : list (Z * list Z)) : M (Z * coap_pkt_t) :=
  match opts with
  | [] => mret (0, pkt)
  | (optnum, val) :: opts =>
      '(r, pkt) ← coap_opt_add_opaque pkt optnum val;
      if r <? 0 then mret (r, pkt) else add_options pkt opts
  end.

(** How a message is built with these functions: the header, the packet, the
    options, the end of the options, and the payload as far as there is room. *)
Definition build_message (buf cap type token token_len code id : Z) (opts : list (Z * list Z)) (pl : list Z) : M Z :=
  n ← coap_build_hdr buf type token token_len code id;
  '(r, pkt) ← add_options (coap_pkt_init buf cap n) opts;
  if r <? 0 then mret r
  else
    '(n, pkt) ← coap_opt_finish pkt (if bool_decide (pl = []) then 0 else COAP_OPT_FINISH_PAYLOAD);
    if n <? 0 then mret n
    else if payload_len pkt <? len pl then mret (- ENOSPC)
    else wrs (payload pkt) pl;; mret (n + len pl).

Lemma add_options_ok buf cap front : ∀ os pre m pkt, building m buf cap front pre pkt → Forall wf_option os →
  last_number (pre ++ os) < 2 ^ 16 → Forall (λ o, Forall byte o.2) os →
  if (len (pre ++ os) <=? 16) && (len (front ++ options_bytes (pre ++ os)) <=? cap) then
    ∃ pkt', add_options pkt (numbered (last_number pre) os) m = Done (0, pkt') (poke m (payload pkt) (options_bytes os)) ∧
      building (poke m (payload pkt) (options_bytes os)) buf cap front (pre ++ os) pkt' ∧ token pkt' = token pkt
  else ∃ m' pkt', add_options pkt (numbered (last_number pre) os) m = Done (- ENOSPC, pkt') m' ∧ mapped m' buf cap.
Proof.
  induction os as [|o os IH]; intros pre m pkt Hbu Hw Hlast Hby.
  - rewrite app_nil_r in *. pose proof Hbu as [B1 B2 B3 B4 (rest & B5 & B6) B7 B8 B9 B10].
    rewrite B5, length_app, built_entries_length in B6. rewrite (proj2 (Z.leb_le _ _)), (proj2 (Z.leb_le _ _)) by lia. cbn [andb].
    exists pkt. done.
  - apply Forall_cons in Hw as [Ho Hw]. apply Forall_cons in Hby as [Hb Hby]. pose proof Ho as [Hd Hl]. unfold field in Hd.
    replace (pre ++ o :: os) with ((pre ++ [o]) ++ os) in * by (by rewrite <- app_assoc).
    assert (last_number ((pre ++ [o]) ++ os) = last_number pre + o.1 + last_number os) as Hsum.
    { clear. induction pre as [|o' pre IH]; cbn [app]; rewrite ?last_number_cons; [done|]. rewrite IH. lia. }
    pose proof (last_number_nonneg os Hw) as Hnn.
    pose proof (add_option_ok m buf cap front pre pkt (last_number pre + o.1) o.2 Hbu ltac:(lia) Hl Hb) as Hadd. cbn zeta in Hadd.
    replace (last_number pre + o.1 - last_number pre, o.2) with o in Hadd by (destruct o; cbn; f_equal; lia).
    cbn [numbered add_options]. unfold coap_opt_add_opaque.
    destruct ((16 <=? len pre) || (cap <? len (front ++ options_bytes (pre ++ [o])))) eqn:Hfull.
    + assert ((len ((pre ++ [o]) ++ os) <=? 16) && (len (front ++ options_bytes ((pre ++ [o]) ++ os)) <=? cap) = false) as ->.
      { rewrite !options_bytes_app, !length_app in *. cbn [length] in *. apply orb_prop in Hfull as [Hf|Hf]; [apply Z.leb_le in Hf|apply Z.ltb_lt in Hf].
        - by rewrite (proj2 (Z.leb_gt _ 16)) by lia.
        - rewrite (proj2 (Z.leb_gt _ cap)) by lia. apply andb_false_r. }
      rewrite (bind_done _ _ _ _ _ Hadd). cbn. exists m, pkt. split; [done|apply Hbu].
    + destruct Hadd as (pkt1 & E & Hbu1 & Htok). rewrite (bind_done _ _ _ _ _ E). cbn beta iota.
      rewrite (proj2 (Z.ltb_ge _ 0)) by lia.
      specialize (IH (pre ++ [o]) _ pkt1 Hbu1 Hw Hlast Hby). rewrite last_number_snoc in IH.
      destruct ((len ((pre ++ [o]) ++ os) <=? 16) && (len (front ++ options_bytes ((pre ++ [o]) ++ os)) <=? cap)).
      * destruct IH as (pkt' & E' & Hbu' & Htok'). exists pkt'.
        assert (poke (poke m (payload pkt) (option_bytes o)) (payload pkt1) (options_bytes os) = poke m (payload pkt) (options_bytes (o :: os))) as Ep.
        { rewrite options_bytes_cons, poke_app. f_equal. destruct Hbu as [_ -> _ _ _ _ _ _ _], Hbu1 as [_ -> _ _ _ _ _ _ _].
          rewrite options_bytes_snoc, !length_app. lia. }
        rewrite Ep in *. split_and!; [done|done|congruence].
      * destruct IH as (m' & pkt' & E' & Hm'). by exists m', pkt'.
Qed.

(** What is in a buffer behind [coap_build_hdr] and [coap_pkt_init]. *)
Lemma pkt_init_building m buf cap front : front ≠ [] → bytes_at m buf front → len front ≤ cap < 2 ^ 16 → mapped m buf cap →
  building m buf cap front [] (coap_pkt_init buf cap (len front)).
Proof.
  intros Hf Hat Hcap Hmap. change (options_bytes []) with (@nil Z). split; cbn [hdr payload payload_len options_len options coap_pkt_init];
    try change (options_bytes []) with (@nil Z); rewrite ?app_nil_r; try done.
  - rewrite wrap_small; unfold uint; lia.
  - by exists (replicate 16 (Optpos 0 0)).
Qed.

Lemma entries_le_options off os : len (entries 0 off os) ≤ len os.
Proof. pose proof (entries_length_le 0 off os). lia. Qed.

Lemma option_bytes_byte o : wf_option o → Forall byte o.2 → Forall byte (option_bytes o).
Proof.
  intros [Hd Hl] Hb. assert (field (len o.2)) as Hf by (unfold field; lia).
  pose proof (nibble_range _ Hd). pose proof (nibble_range _ Hf). unfold option_bytes. constructor; [unfold uint; lia|].
  apply Forall_app. split; [by apply extension_bytes|]. apply Forall_app. split; [by apply extension_bytes|done].
Qed.

Lemma options_bytes_byte os : Forall wf_option os → Forall (λ o, Forall byte o.2) os → Forall byte (options_bytes os).
Proof.
  induction 1 as [|o os Ho _ IH]; intros Hb; [constructor|]. apply Forall_cons in Hb as [Ho' Hb].
  rewrite options_bytes_cons. apply Forall_app. split; [by apply option_bytes_byte|by apply IH].
Qed.

(** The end of a message: the marker and the payload, when there is one. *)
Lemma finish_ok m buf cap front os pkt pl : building m buf cap front os pkt → Forall byte pl →
  let full := front ++ options_bytes os ++ payload_bytes (if bool_decide (pl = []) then None else Some pl) in
  (∃ m', ('(n, pkt) ← coap_opt_finish pkt (if bool_decide (pl = []) then 0 else COAP_OPT_FINISH_PAYLOAD);
    if n <? 0 then mret n
    else if payload_len pkt <? len pl then mret (- ENOSPC)
    else wrs (payload pkt) pl;; mret (n + len pl)) m = Done (if len full <=? cap then len full else - ENOSPC) m' ∧
    (len full ≤ cap → m' = poke m (payload pkt) (payload_bytes (if bool_decide (pl = []) then None else Some pl)))).
Proof.
  intros [B1 B2 B3 B4 _ _ _ B8 B10] Hby. cbn zeta. unfold coap_opt_finish. destruct (decide (pl = [])) as [->|Hpl].
  - rewrite bool_decide_true by done. cbn [payload_bytes] in *. change (Z.land 0 COAP_OPT_FINISH_PAYLOAD =? 0) with true. cbn [negb].
    rewrite (bind_done _ _ _ _ _ eq_refl). cbn beta iota. cbn [payload hdr payload_len set_payload_len length].
    rewrite app_nil_r. rewrite B2, B1. rewrite (proj2 (Z.ltb_ge _ 0)) by lia. rewrite (proj2 (Z.leb_le _ cap)) by lia.
    change (0 <? Z.of_nat 0) with false. cbn [wrs]. exists m. split; [|done]. rewrite (bind_done _ _ _ _ _ eq_refl).
    unfold mret, M_ret. f_equal. lia.
  - rewrite bool_decide_false by done. cbn [payload_bytes]. set (full := front ++ options_bytes os ++ 255 :: pl). change (Z.land COAP_OPT_FINISH_PAYLOAD COAP_OPT_FINISH_PAYLOAD =? 0) with false.
    cbn [negb]. assert (len full = len (front ++ options_bytes os) + 1 + len pl) as Hfull.
    { subst full. rewrite app_assoc, length_app. cbn [length]. lia. }
    assert (0 < len pl) as Hpl0 by (destruct pl; [done|cbn; lia]).
    destruct (Z.eqb_spec (payload_len pkt) 0) as [E|E].
    { rewrite (bind_done _ _ _ _ _ eq_refl). cbn. rewrite (proj2 (Z.leb_gt _ cap)) by lia. exists m. split; [done|lia]. }
    assert (∀ q n, payload pkt ≤ q → q + n ≤ buf + cap → mapped m q n) as Hsub by (intros q n ??; eapply mapped_sub; [exact B10|lia|lia]).
    rewrite (bind_done _ _ m (payload pkt + 1 - buf, set_payload_len (payload_len pkt - 1) (set_payload (payload pkt + 1) pkt)) (poke m (payload pkt) [0xff])).
    2: { rewrite (bind_done _ _ _ _ _ (wr_ok m (payload pkt) 0xff ltac:(apply Hsub; lia) ltac:(unfold uint; lia))).
         cbn [payload hdr set_payload set_payload_len]. by rewrite B1. }
    cbn beta iota. cbn [payload payload_len set_payload set_payload_len]. rewrite (proj2 (Z.ltb_ge _ 0)) by lia.
    destruct (Z.leb_spec (len full) cap).
    + rewrite (proj2 (Z.ltb_ge _ _)) by lia.
      rewrite (bind_done _ _ _ _ _ (wrs_ok (poke m (payload pkt) [0xff]) (payload pkt + 1) pl ltac:(apply mapped_poke, Hsub; lia) Hby)).
      eexists. split; [|intros _; reflexivity]. unfold mret, M_ret. f_equal. lia.
    + rewrite (proj2 (Z.ltb_lt _ _)) by lia. eexists. split; [done|lia].
Qed.

(** C22: What is built is what is parsed.  A message built with the functions for
    headers, options and payload is the encoding of its parts, when its options
    have entries and it fits the buffer (else the functions answer -ENOSPC), and
    [coap_parse] describes the same parts. *)
Theorem coap_build_parse m buf cap type tp tok code id os pl :
  0 < buf → 0 ≤ type < 4 → byte code → uint 16 id →
  len tok < 16 → Forall byte tok → bytes_at m tp tok → tp + len tok ≤ buf ∨ buf + 4 ≤ tp →
  Forall wf_option os → Forall (λ o, Forall byte o.2) os → last_number os < 2 ^ 16 → Forall byte pl →
  4 + len tok ≤ cap < 2 ^ 16 → mapped m buf cap →
  let msg := Message (header_bytes type (len tok) code id) tok os (if bool_decide (pl = []) then None else Some pl) in
  if (len os <=? 16) && (len (message_bytes msg) <=? cap) then
    let m' := poke m buf (message_bytes msg) in
    build_message buf cap type tp (len tok) code id (numbered 0 os) pl m = Done (len (message_bytes msg)) m' ∧
    ∀ pkt, len (options pkt) = NANOCOAP_NOPTS_MAX →
      ∃ pkt', coap_parse pkt buf (len (message_bytes msg)) m' = Done (0, pkt') m' ∧ received m' buf msg pkt'
  else ∃ m', build_message buf cap type tp (len tok) code id (numbered 0 os) pl m = Done (- ENOSPC) m'.
Proof.
  intros Hbuf Ht Hc Hid Htok Htb Hat Hdis Hw Hob Hlast Hplb Hcap Hmap. cbn zeta. set (h := header_bytes type (len tok) code id).
  set (pay := if bool_decide (pl = []) then None else Some pl). unfold build_message.
  assert (len h = 4) as Hh by done.
  rewrite (bind_done _ _ _ _ _ (coap_build_hdr_ok m buf type tp tok code id Ht Hc Hid Htok Htb Hat Hdis
    ltac:(eapply mapped_sub; [exact Hmap|lia|lia]))). fold h.
  set (m1 := poke m buf (h ++ tok)). assert (len (h ++ tok) = 4 + len tok) as Hht by (rewrite length_app; lia). rewrite <- Hht.
  assert (building m1 buf cap (h ++ tok) [] (coap_pkt_init buf cap (len (h ++ tok)))) as Hbu.
  { apply pkt_init_building; [done|apply bytes_at_poke|lia|by apply mapped_poke]. }
  pose proof (add_options_ok buf cap (h ++ tok) os [] m1 _ Hbu Hw Hlast Hob) as Hadd. cbn [app] in Hadd.
  change (last_number []) with 0 in Hadd. unfold message_bytes. cbn [m_header m_token m_options m_payload]. rewrite (app_assoc h tok).
  assert (payload (coap_pkt_init buf cap (len (h ++ tok))) = buf + len (h ++ tok)) as Epay by done. rewrite Epay in Hadd.
  destruct ((len os <=? 16) && (len ((h ++ tok) ++ options_bytes os) <=? cap)) eqn:Hfit.
  - destruct Hadd as (pkt1 & E & Hbu1 & _). rewrite (bind_done _ _ _ _ _ E). cbn beta iota. change (0 <? 0) with false. cbn iota.
    apply andb_prop in Hfit as [Hn Hfit]. rewrite Hn. cbn [andb].
    destruct (finish_ok _ buf cap (h ++ tok) os pkt1 pl Hbu1 Hplb) as (m' & Efin & Hm'). fold pay in Efin, Hm'.
    destruct (Z.leb_spec (len ((h ++ tok) ++ options_bytes os ++ payload_bytes pay)) cap) as [Hle|Hgt]; [|eauto].
    assert (poke m buf ((h ++ tok) ++ options_bytes os ++ payload_bytes pay) = m') as ->.
    { rewrite Hm' by done. destruct Hbu1 as [_ -> _ _ _ _ _ _ _]. unfold m1. by rewrite app_assoc, (poke_app m buf (_ ++ _)), (poke_app m buf). }
    split; [done|]. intros pkt Hpkt. rewrite <- (app_assoc h tok).
    set (msg := Message h tok os pay).
    assert (token_length h = len tok) as Htl by (apply header_token_length; lia).
    assert (wf_message msg) as Hwf by (by split).
    assert (m' = poke m buf (message_bytes msg)) as Em.
    { rewrite Hm' by done. destruct Hbu1 as [_ -> _ _ _ _ _ _ _]. unfold m1, message_bytes. cbn [m_header m_token m_options m_payload msg].
      rewrite (app_assoc h tok), app_assoc. by rewrite (poke_app m buf (_ ++ _)), (poke_app m buf (h ++ tok)). }
    assert (bytes_at m' buf (message_bytes msg)) as Hatm by (rewrite Em; apply bytes_at_poke).
    assert (Forall byte (message_bytes msg)) as Hbm.
    { unfold message_bytes. cbn [m_header m_token m_options m_payload msg]. apply Forall_app. split; [apply header_bytes_byte; [lia|lia|done]|].
      apply Forall_app. split; [done|]. apply Forall_app. split; [by apply options_bytes_byte|]. unfold pay.
      destruct (bool_decide (pl = [])); cbn [payload_bytes]; [constructor|]. constructor; [unfold uint; lia|done]. }
    assert (len (message_bytes msg) < 2 ^ 16) as Hlm by (unfold message_bytes; cbn [m_header m_token m_options m_payload msg]; rewrite app_assoc; lia).
    destruct (coap_parse_message pkt buf msg m' Hbuf Hwf Hatm Hbm Hlm Hpkt) as (pkt' & Ep & Hde).
    { pose proof (entries_le_options (4 + len tok) os). apply Z.leb_le in Hn. cbn [m_token m_options msg]. lia. }
    exists pkt'. split; [exact Ep|]. by split.
  - destruct Hadd as (m' & pkt1 & E & _). rewrite (bind_done _ _ _ _ _ E). cbn beta iota. change (- ENOSPC <? 0) with true. cbn iota.
    assert ((len os <=? 16) && (len ((h ++ tok) ++ options_bytes os ++ payload_bytes pay) <=? cap) = false) as ->; [|eauto].
    apply andb_false_iff in Hfit as [->|Hfit]; [done|]. apply Z.leb_gt in Hfit. rewrite (proj2 (Z.leb_gt _ cap)); [apply andb_false_r|].
    rewrite app_assoc, length_app. lia.
Qed.
