(* ===== verification/CoapStrings.v ===== *)
(** * Paths of CoAP messages

    A path such as [/a/b] is split into options, one for each part, and read back
    from them. *)

From S2P Require Import Prelude Bytes Buffers ByteMem Coap CoapParse CoapOptions CoapBuild.

(** A part of a string: not empty, without the separator and the final 0. *)
Definition part (separator : Z) (s : list Z) : Prop := s ≠ [] ∧ Forall (λ c, byte c ∧ c ≠ separator ∧ c ≠ 0) s.

Lemma string_at_mid pre c post : string_at (pre ++ c :: post) (length pre) = Some c.
Proof. unfold string_at. rewrite <- app_assoc. cbn [app]. by rewrite list_lookup_middle. Qed.

Lemma string_at_end s : string_at s (length s) = Some 0.
Proof. unfold string_at. by rewrite list_lookup_middle. Qed.

Lemma scan_part_succ string separator n pos : scan_part string separator (S n) pos =
  (c ← string_at string pos; if (c =? separator) || (c =? 0) then Some (n, pos) else scan_part string separator n (S pos)).
Proof. done. Qed.

(** Scanning stops at the next separator or the end. *)
Lemma scan_part_ok separator rest : ∀ seg pre, Forall (λ c, byte c ∧ c ≠ separator ∧ c ≠ 0) seg → rest = [] ∨ (∃ r, rest = separator :: r) →
  scan_part (pre ++ seg ++ rest) separator (S (length seg + length rest)) (length pre) = Some (length rest, length pre + length seg)%nat.
Proof.
  induction seg as [|c seg IH]; intros pre Hs Hr.
  - cbn [app length Nat.add]. rewrite scan_part_succ. destruct Hr as [->|[r ->]].
    + rewrite app_nil_r, string_at_end. mred. rewrite Z.eqb_refl, orb_true_r. cbn. do 2 f_equal. lia.
    + rewrite string_at_mid. mred. rewrite Z.eqb_refl. cbn [orb]. do 2 f_equal. lia.
  - apply Forall_cons in Hs as [(_ & Hc1 & Hc2) Hs]. cbn [app length Nat.add].
    rewrite scan_part_succ, string_at_mid. mred.
    rewrite (proj2 (Z.eqb_neq c separator)), (proj2 (Z.eqb_neq c 0)) by done. cbn [orb].
    specialize (IH (pre ++ [c]) Hs Hr). rewrite <- app_assoc, length_app in IH. cbn [app length] in IH.
    replace (S (length pre)) with (length pre + 1)%nat by lia. rewrite IH. do 2 f_equal. lia.
Qed.

Lemma next_part_ok separator pre seg rest : Forall (λ c, byte c ∧ c ≠ separator ∧ c ≠ 0) seg → rest = [] ∨ (∃ r, rest = separator :: r) →
  next_part (pre ++ separator :: seg ++ rest) separator (S (length seg + length rest)) (length pre) =
    Some (length rest, length pre + 1 + length seg, seg)%nat.
Proof.
  intros Hs Hr. unfold next_part. rewrite string_at_mid. mred. rewrite Z.eqb_refl.
  pose proof (scan_part_ok separator rest seg (pre ++ [separator]) Hs Hr) as E. rewrite <- app_assoc, length_app in E. cbn [app length] in E.
  replace (S (length pre)) with (length pre + 1)%nat by lia. rewrite E. mred.
  replace (length pre + 1 + length seg - (length pre + 1))%nat with (length seg) by lia.
  assert (drop (length pre + 1) (pre ++ separator :: seg ++ rest) = seg ++ rest) as ->.
  { change (separator :: seg ++ rest) with ([separator] ++ (seg ++ rest)). rewrite app_assoc. apply drop_app_length'. rewrite length_app. done. }
  by rewrite take_app_length.
Qed.

Lemma joined_rest separator segs : joined separator segs = [] ∨ ∃ r, joined separator segs = separator :: r.
Proof. destruct segs as [|s segs]; [by left|right]. rewrite joined_cons. eauto. Qed.

(** The options of the parts. *)
Definition part_options (delta : Z) (segs : list (list Z)) : list (Z * list Z) :=
  match segs with [] => [] | s :: segs => (delta, s) :: ((λ s, (0, s)) <$> segs) end.

Lemma part_options_cons delta s segs : part_options delta (s :: segs) = (delta, s) :: part_options 0 segs.
Proof. by destruct segs. Qed.

Lemma put_string_loop_ok separator optnum : ∀ segs pre fuel m bufpos lastonum, Forall (part separator) segs →
  Forall (λ s, len s < 65805) segs → field (optnum - lastonum) → (length (joined separator segs) ≤ fuel)%nat →
  mapped m bufpos (len (options_bytes (part_options (optnum - lastonum) segs))) →
  put_string_loop fuel (pre ++ joined separator segs) separator optnum (length (joined separator segs)) (length pre) bufpos lastonum m =
    Done (bufpos + len (options_bytes (part_options (optnum - lastonum) segs)))
      (poke m bufpos (options_bytes (part_options (optnum - lastonum) segs))).
Proof.
  induction segs as [|s segs IH]; intros pre fuel m bufpos lastonum Hp Hl Hd Hfuel Hmap.
  - cbn. rewrite Z.add_0_r. by destruct fuel.
  - apply Forall_cons in Hp as [[Hs0 Hs] Hp]. apply Forall_cons in Hl as [Hls Hl]. rewrite part_options_cons in *.
    rewrite options_bytes_cons, !length_app in *. rewrite joined_cons in *. cbn [length] in *. rewrite length_app in *.
    destruct fuel as [|fuel]; [lia|]. cbn [put_string_loop].
    rewrite (next_part_ok separator pre s _ Hs (joined_rest separator segs)).
    erewrite (bind_done (lift _)); [|reflexivity]. cbn beta iota. rewrite (proj2 (Nat.eqb_neq (length s) 0)) by (by destruct s). cbn [negb orb].
    assert (Forall byte s) as Hbs by (eapply Forall_impl; [exact Hs|]; by intros ? []).
    rewrite (bind_done _ _ _ _ _ (coap_put_option_ok m bufpos lastonum optnum s Hd Hls Hbs ltac:(eapply mapped_sub; [exact Hmap|lia|lia]))).
    set (ob := option_bytes (optnum - lastonum, s)) in *.
    specialize (IH (pre ++ separator :: s) fuel (poke m bufpos ob) (bufpos + len ob) optnum Hp Hl).
    rewrite <- app_assoc, length_app in IH. cbn [app length] in IH. rewrite Z.sub_diag in IH.
    replace (length pre + 1 + length s)%nat with (length pre + S (length s))%nat by lia. rewrite IH.
    + rewrite poke_app. f_equal. lia.
    + unfold field. lia.
    + lia.
    + apply mapped_poke. eapply mapped_sub; [exact Hmap|lia|lia].
Qed.

(** Splitting a path into options. *)
Lemma coap_opt_put_string_ok m buf lastonum optnum separator segs : segs ≠ [] → Forall (part separator) segs →
  Forall (λ s, len s < 65805) segs → field (optnum - lastonum) →
  mapped m buf (len (options_bytes (part_options (optnum - lastonum) segs))) →
  coap_opt_put_string buf lastonum optnum (joined separator segs) separator m =
    Done (len (options_bytes (part_options (optnum - lastonum) segs)))
      (poke m buf (options_bytes (part_options (optnum - lastonum) segs))).
Proof.
  intros Hne Hp Hl Hd Hmap. unfold coap_opt_put_string. rewrite (proj2 (Nat.eqb_neq _ 0)) by (destruct segs; [done|by rewrite joined_cons]).
  rewrite (bind_done _ _ _ _ _ (put_string_loop_ok separator optnum segs [] _ m buf lastonum Hp Hl Hd (le_n _) Hmap)).
  unfold mret, M_ret. f_equal. lia.
Qed.

Lemma part_options_wf delta segs : field delta → Forall (λ s, len s < 65805) segs → Forall wf_option (part_options delta segs).
Proof.
  intros Hd Hl. destruct Hl as [|s segs Hs Hl]; [constructor|]. cbn [part_options]. constructor; [done|].
  apply Forall_fmap. eapply Forall_impl; [exact Hl|]. intros v Hv. split; [cbn; unfold field; lia|done].
Qed.

Lemma part_options_last delta segs : last_number (part_options delta segs) = if bool_decide (segs = []) then 0 else delta.
Proof.
  destruct segs as [|s segs]; [done|]. rewrite bool_decide_false by done. cbn [part_options]. rewrite last_number_cons. cbn [fst].
  assert (last_number ((λ s, (0, s)) <$> segs) = 0) as ->; [|lia]. induction segs as [|s' segs IH]; [done|]. cbn [fmap list_fmap]. by rewrite last_number_cons.
Qed.

Lemma repeated_parts segs : repeated ((λ s, (0, s)) <$> segs) = segs.
Proof. induction segs as [|s segs IH]; [done|]. cbn. by rewrite IH. Qed.

Lemma part_options_values delta segs : 0 < delta → Forall (λ s, len s < 65805) segs → field delta → values delta (part_options delta segs) = segs.
Proof.
  intros H0 Hl Hd. pose proof (part_options_wf delta segs Hd Hl) as Hw. destruct segs as [|s segs]; [done|]. cbn [part_options] in *.
  apply Forall_cons in Hw as [_ Hw]. unfold values. cbn [numbered]. rewrite filter_cons. cbn [fst snd Z.add]. rewrite decide_True by done.
  cbn [fmap list_fmap]. f_equal. by rewrite numbered_repeated, repeated_parts.
Qed.

(** Part options have one entry. *)
Lemma part_options_entries delta off segs : (length (entries 0 off (part_options delta segs)) ≤ 1)%nat.
Proof.
  destruct segs as [|s segs]; [cbn; lia|]. cbn [part_options entries]. rewrite length_app.
  assert (∀ nr off, entries nr off ((λ s, (0, s)) <$> segs) = []) as ->.
  { clear. induction segs as [|s segs IH]; intros nr off; [done|]. cbn. by rewrite IH. }
  destruct ((delta, s).1 =? 0); cbn; lia.
Qed.

(** A request with a path, built by [coap_build_hdr] and [coap_opt_put_uri_path]. *)
Definition build_request (buf type token token_len code id : Z) (path : list Z) : M Z :=
  n ← coap_build_hdr buf type token token_len code id;
  k ← coap_opt_put_uri_path (buf + n) 0 path;
  mret (n + k).

(** The path of a request comes back from the options it was split into: the
    request is parsed, and [coap_get_uri_path] stores the same string when it has
    room for it and answers -ENOSPC else. *)
Theorem coap_uri_path_roundtrip m buf type tp tok code id segs :
  0 < buf → 0 ≤ type < 4 → byte code → uint 16 id →
  len tok < 16 → Forall byte tok → bytes_at m tp tok → tp + len tok ≤ buf ∨ buf + 4 ≤ tp →
  segs ≠ [] → Forall (part slash) segs →
  let path := joined slash segs in
  let msg := Message (header_bytes type (len tok) code id) tok (part_options COAP_OPT_URI_PATH segs) None in
  len (message_bytes msg) < 2 ^ 16 → mapped m buf (len (message_bytes msg)) →
  let m' := poke m buf (message_bytes msg) in
  build_request buf type tp (len tok) code id path m = Done (len (message_bytes msg)) m' ∧
  ∀ pkt target, len (options pkt) = NANOCOAP_NOPTS_MAX → mapped m target NANOCOAP_URI_MAX →
    target + NANOCOAP_URI_MAX ≤ buf ∨ buf + len (message_bytes msg) ≤ target →
    ∃ pkt', coap_parse pkt buf (len (message_bytes msg)) m' = Done (0, pkt') m' ∧
      if len path <? NANOCOAP_URI_MAX
      then coap_get_uri_path pkt' target m' = Done (len path + 1) (poke m' target (path ++ [0]))
      else ∃ m2, coap_get_uri_path pkt' target m' = Done (- ENOSPC) m2.
Proof.
  intros Hbuf Ht Hc Hid Htok Htb Hat Hdis Hne Hp path msg Hlen Hmap m'. set (h := header_bytes type (len tok) code id) in *.
  set (os := part_options COAP_OPT_URI_PATH segs) in *. assert (len h = 4) as Hh by done.
  assert (message_bytes msg = (h ++ tok) ++ options_bytes os) as Em.
  { unfold message_bytes. cbn [m_header m_token m_options m_payload msg payload_bytes]. by rewrite app_nil_r, app_assoc. }
  assert (Forall (λ s, len s < 65805) segs) as Hl.
  { apply Forall_forall. intros s Hs. rewrite Em, length_app in Hlen.
    enough (len s ≤ len (options_bytes os)) by lia. subst os. clear - Hs. generalize COAP_OPT_URI_PATH. revert Hs.
    induction segs as [|s' segs IH]; [by intros ?%elem_of_nil|]. intros Hs d. rewrite part_options_cons, options_bytes_cons, length_app.
    apply elem_of_cons in Hs as [->|Hs]; [pose proof (option_bytes_length (d, s')) as E; cbn [snd] in E; lia|].
    specialize (IH Hs 0). lia. }
  assert (field COAP_OPT_URI_PATH) as Hf by (unfold field, COAP_OPT_URI_PATH; lia).
  pose proof (part_options_wf _ segs Hf Hl) as Hw. fold os in Hw.
  assert (Forall (λ o, Forall byte o.2) os) as Hob.
  { subst os. clear - Hp. generalize COAP_OPT_URI_PATH. induction Hp as [|s segs [_ Hs] _ IH]; intros d; [constructor|]. rewrite part_options_cons.
    constructor; [|apply IH]. eapply Forall_impl; [exact Hs|]. by intros ? []. }
  assert (token_length h = len tok) as Htl by (apply header_token_length; lia).
  assert (wf_message msg) as Hwf by (by split).
  assert (Forall byte (message_bytes msg)) as Hbm.
  { rewrite Em. apply Forall_app. split; [|by apply options_bytes_byte]. apply Forall_app. split; [apply header_bytes_byte; [lia|lia|done]|done]. }
  rewrite Em, !length_app in Hmap. split.
  - unfold build_request. rewrite (bind_done _ _ _ _ _ (coap_build_hdr_ok m buf type tp tok code id Ht Hc Hid Htok Htb Hat Hdis
      ltac:(eapply mapped_sub; [exact Hmap|lia|lia]))). fold h. unfold coap_opt_put_uri_path.
    rewrite (bind_done _ _ _ (len (options_bytes os)) m').
    + unfold mret, M_ret. f_equal. rewrite Em, !length_app. lia.
    + unfold path. rewrite coap_opt_put_string_ok; [|done|done|done|by rewrite Z.sub_0_r|rewrite Z.sub_0_r; apply mapped_poke; eapply mapped_sub; [exact Hmap|lia|fold os; lia]].
      rewrite Z.sub_0_r. fold os. unfold m'. rewrite Em, (poke_app m buf (h ++ tok)), length_app.
      by replace (buf + Z.of_nat (length h + length tok)) with (buf + (4 + len tok)) by lia.
  - intros pkt target Hpkt Hmt Hd. assert (bytes_at m' buf (message_bytes msg)) as Hatm by apply bytes_at_poke.
    destruct (coap_parse_message pkt buf msg m' Hbuf Hwf Hatm Hbm Hlen Hpkt) as (pkt' & E & Hde).
    { pose proof (part_options_entries COAP_OPT_URI_PATH (4 + len tok) segs). cbn [m_token m_options msg]. fold os in H. lia. }
    exists pkt'. split; [done|].
    assert (received m' buf msg pkt') as Hr.
    { split; try done. cbn [m_options msg]. unfold os. rewrite part_options_last, bool_decide_false by done. unfold COAP_OPT_URI_PATH. lia. }
    pose proof (coap_opt_get_string_ok m' buf msg pkt' COAP_OPT_URI_PATH target NANOCOAP_URI_MAX slash Hr) as Hget.
    cbn zeta in Hget. cbn [m_options msg] in Hget. unfold os in Hget. rewrite part_options_values in Hget by done.
    assert (match segs with [] => [slash] | _ :: _ => joined slash segs end = path) as Hpath by by destruct segs. rewrite Hpath in Hget.
    unfold coap_get_uri_path. specialize (Hget ltac:(done) ltac:(unfold uint, slash; lia) ltac:(unfold NANOCOAP_URI_MAX; lia)
      ltac:(by apply mapped_poke) Hd). destruct (len path <? NANOCOAP_URI_MAX); [done|]. destruct Hget as (m2 & E2 & _). eauto.
Qed.
