(* ===== verification/CoapServer.v ===== *)
(** * Serving CoAP requests

    Replies, the dispatch of a request to the resource of its path, and the window
    of a block of a larger payload. *)

From Stdlib Require Import Sorting.Sorted.
From S2P Require Import Prelude Bytes Buffers ByteMem Coap CoapParse CoapOptions CoapBuild.

(** ** Replies *)

Definition message_type (msg : message) : Z := Z.shiftr (Z.land (m_header msg !!! 0%nat) 0x30) 4.
Definition message_code (msg : message) : Z := m_header msg !!! 1%nat.
Definition message_id (msg : message) : Z := be_value (drop 2 (m_header msg)).

(** The reply to a confirmable message is an acknowledgement, to an empty one a
    reset; id and token are those of the message. *)
Definition reply_type (msg : message) (code : Z) : Z :=
  if code =? 0 then COAP_TYPE_RST else if message_type msg =? COAP_TYPE_CON then COAP_TYPE_ACK else COAP_TYPE_NON.

Definition reply_bytes (msg : message) (code : Z) : list Z :=
  header_bytes (reply_type msg code) (len (m_token msg)) code (message_id msg) ++ m_token msg.

(** The header of a received message in memory. *)
Lemma received_header m buf msg pkt : received m buf msg pkt → ∃ b0 b1 b2 b3, m_header msg = [b0; b1; b2; b3] ∧
  byte b0 ∧ byte b1 ∧ byte b2 ∧ byte b3 ∧
  m !! buf = Some b0 ∧ m !! (buf + 1) = Some b1 ∧ bytes_at m (buf + 2) [b2; b3] ∧ bytes_at m (buf + 4) (m_token msg) ∧
  Z.land b0 0xf = len (m_token msg) ∧ Forall byte (m_token msg).
Proof.
  intros [_ _ Hat Hby [W1 W2 _] _ _]. unfold message_bytes in *. destruct (m_header msg) as [|b0 [|b1 [|b2 [|b3 []]]]]; try done.
  exists b0, b1, b2, b3. cbn [app] in *. repeat (apply Forall_cons in Hby as [? Hby]). apply Forall_app in Hby as [Hby _].
  apply bytes_at_cons in Hat as [M0 Hat]. apply bytes_at_cons in Hat as [M1 Hat].
  replace (buf + 1 + 1) with (buf + 2) in Hat by lia.
  change (b2 :: b3 :: m_token msg ++ options_bytes (m_options msg) ++ payload_bytes (m_payload msg))
    with ([b2; b3] ++ m_token msg ++ options_bytes (m_options msg) ++ payload_bytes (m_payload msg)) in Hat.
  apply bytes_at_app in Hat as [M2 Hat]. replace (buf + 2 + len [b2; b3]) with (buf + 4) in Hat by (cbn; lia).
  apply bytes_at_app in Hat as [M4 _]. split_and!; done.
Qed.

Lemma get_token_len_ok m buf msg pkt : received m buf msg pkt → coap_get_token_len pkt m = Done (len (m_token msg)) m.
Proof.
  intros Hr. destruct (received_header _ _ _ _ Hr) as (b0 & b1 & b2 & b3 & E & _ & _ & _ & _ & H0 & _ & _ & _ & Hl & _).
  unfold coap_get_token_len. rewrite (de_hdr _ _ _ (rc_describes _ _ _ _ Hr)), (bind_done _ _ _ _ _ (rd_ok _ _ _ H0)). by rewrite Hl.
Qed.

Lemma get_code_ok m buf msg pkt : received m buf msg pkt →
  coap_get_code_class pkt m = Done (Z.shiftr (message_code msg) 5) m ∧ coap_get_code_raw pkt m = Done (message_code msg) m ∧
  coap_get_code_detail pkt m = Done (Z.land (message_code msg) 0x1f) m ∧ byte (message_code msg).
Proof.
  intros Hr. destruct (received_header _ _ _ _ Hr) as (b0 & b1 & b2 & b3 & E & _ & Hb1 & _ & _ & _ & H1 & _).
  unfold coap_get_code_class, coap_get_code_raw, coap_get_code_detail, message_code. rewrite (de_hdr _ _ _ (rc_describes _ _ _ _ Hr)), E.
  rewrite !(bind_done _ _ _ _ _ (rd_ok _ _ _ H1)). split_and!; [done|by apply rd_ok|done|done].
Qed.

Lemma land_30_range b : 0 ≤ Z.shiftr (Z.land b 0x30) 4 < 4.
Proof.
  rewrite Z.shiftr_land. change (Z.shiftr 0x30 4) with (2 ^ 2 - 1). rewrite land_mask by lia. apply Z.mod_pos_bound. done.
Qed.

(** Clearing and setting the type of a header that has it already changes nothing. *)
Lemma set_type_same type tkl : 0 ≤ type < 4 → 0 ≤ tkl < 16 →
  u8 (Z.lor (u8 (Z.ldiff (64 + type * 16 + tkl) 0x30)) (Z.shiftl type 4)) = 64 + type * 16 + tkl.
Proof.
  intros Ht Hk. assert (∀ i j : nat, (i < 4)%nat → (j < 16)%nat → let t := Z.of_nat i in let k := Z.of_nat j in
    u8 (Z.lor (u8 (Z.ldiff (64 + t * 16 + k) 0x30)) (Z.shiftl t 4)) = 64 + t * 16 + k) as Hall.
  { intros i j Hi Hj. do 4 (destruct i as [|i]; [do 16 (destruct j as [|j]; [done|]); lia|]). lia. }
  specialize (Hall (Z.to_nat type) (Z.to_nat tkl) ltac:(lia) ltac:(lia)). cbn zeta in Hall. by rewrite !Z2Nat.id in Hall by lia.
Qed.

Lemma wr_some m p v x : m !! p = Some x → wr p v m = Done tt (<[p := u8 v]> m).
Proof. unfold wr. by intros ->. Qed.

(** [coap_build_reply] writes the header and the token of the reply; the buffer may
    be the one of the request. *)
Lemma coap_build_reply_ok m buf msg pkt code rbuf rlen plen : received m buf msg pkt → byte code → 0 ≤ plen < 2 ^ 31 →
  rbuf ≤ buf ∨ buf + len (message_bytes msg) ≤ rbuf → mapped m rbuf (len (reply_bytes msg code)) →
  coap_build_reply pkt code rbuf rlen plen m =
    if rlen <? len (reply_bytes msg code) + plen then Done (- ENOSPC) m
    else Done (len (reply_bytes msg code) + plen) (poke m rbuf (reply_bytes msg code)).
Proof.
  intros Hr Hc Hp Hdis Hmap. destruct (received_header _ _ _ _ Hr) as (b0 & b1 & b2 & b3 & E & _ & _ & Hb2 & Hb3 & H0 & H1 & H2 & H4 & Hl & Htb).
  pose proof (rc_describes _ _ _ _ Hr) as Hde. pose proof (de_hdr _ _ _ Hde) as Hhdr.
  assert (len (m_token msg) < 16) as Htk by (rewrite <- Hl; apply land_15_range).
  unfold coap_build_reply. rewrite (bind_done _ _ _ _ _ (get_token_len_ok _ _ _ _ Hr)). cbn beta.
  set (tok := m_token msg) in *. assert (len (reply_bytes msg code) = 4 + len tok) as Hrl by (unfold reply_bytes; rewrite length_app; fold tok; change (length (header_bytes (reply_type msg code) (len tok) code (message_id msg))) with 4%nat; lia).
  rewrite Hrl in *. unfold sizeof_coap_hdr. rewrite wrap_small by (unfold uint; lia).
  destruct (rlen <? 4 + len tok + plen); [done|].
  rewrite (bind_done _ _ m (reply_type msg code) m).
  2: { unfold reply_type. destruct (code =? 0); [done|]. cbn [negb]. unfold coap_get_type, message_type. rewrite Hhdr, E.
       erewrite bind_done; [|by rewrite (bind_done _ _ _ _ _ (rd_ok _ _ _ H0))]. done. }
  set (type := reply_type msg code). assert (0 ≤ type < 4) as Ht.
  { unfold type, reply_type, COAP_TYPE_RST, COAP_TYPE_ACK, COAP_TYPE_NON. destruct (code =? 0), (message_type msg =? COAP_TYPE_CON); lia. }
  rewrite (bind_done _ _ m (message_id msg) m).
  2: { unfold coap_get_id, message_id. rewrite Hhdr, E. by rewrite (bind_done _ _ _ _ _ (rds_ok m (buf + 2) [b2; b3] 2 eq_refl H2)). }
  assert (uint 16 (message_id msg)) as Hid by (unfold message_id; rewrite E; cbn [drop]; rewrite be_value2; unfold uint in *; lia).
  assert (bytes_at m (token pkt) tok ∧ (token pkt + len tok ≤ rbuf ∨ rbuf + 4 ≤ token pkt) ∨ tok = []) as Htok.
  { rewrite (de_token _ _ _ Hde). case_decide as Htk0; [by right|left]. split; [done|]. destruct Hdis as [|Hd]; [right; lia|left].
    unfold message_bytes in Hd. rewrite E, !length_app in Hd. cbn [length] in Hd. fold tok in Hd. lia. }
  assert (coap_build_hdr rbuf type (token pkt) (len tok) code (message_id msg) m = Done (4 + len tok) (poke m rbuf (reply_bytes msg code))) as Ehdr.
  { unfold reply_bytes. fold type tok. destruct Htok as [[Hat Hd]|Htok].
    - by apply coap_build_hdr_ok.
    - rewrite Htok in *. assert (∀ tp tp', coap_build_hdr rbuf type tp (len (@nil Z)) code (message_id msg) m = coap_build_hdr rbuf type tp' (len (@nil Z)) code (message_id msg) m) as Hany by done.
      rewrite (Hany _ (rbuf + 4)). apply coap_build_hdr_ok; try done. right. lia. }
  rewrite (bind_done _ _ _ _ _ Ehdr). set (m1 := poke m rbuf (reply_bytes msg code)).
  assert (bytes_at m1 rbuf (reply_bytes msg code)) as Hat1 by apply bytes_at_poke.
  unfold reply_bytes in Hat1. fold type tok in Hat1. unfold header_bytes in Hat1. cbn [app] in Hat1.
  apply bytes_at_cons in Hat1 as [Hr0 Hat1]. apply bytes_at_cons in Hat1 as [Hr1 _].
  set (h0 := 64 + type * 16 + len tok) in *.
  rewrite (bind_done _ _ _ tt m1).
  - rewrite (bind_done _ _ _ tt m1); [done|].
    unfold coap_hdr_set_code. rewrite (wr_some _ _ _ _ Hr1). by rewrite wrap_small, insert_id.
  - unfold coap_hdr_set_type, massert. assert (Z.ldiff type 3 = 0) as -> by (apply (ldiff_small type 2); unfold uint; lia).
    rewrite (bind_done _ _ m1 tt m1 eq_refl), (bind_done _ _ _ _ _ (rd_ok _ _ _ Hr0)). cbn beta.
    rewrite (bind_done _ _ _ _ _ (wr_some _ _ _ _ Hr0)), (bind_done _ _ _ _ _ (rd_ok _ _ _ (lookup_insert_eq _ _ _))). cbn beta.
    rewrite (wr_some _ _ _ _ (lookup_insert_eq _ _ _)), insert_insert_eq.
    unfold h0. rewrite set_type_same by lia. fold h0. by rewrite insert_id.
Qed.

(** ** Comparing paths *)

(** The string up to a 0 byte. *)
Fixpoint c_string (s : list Z) : list Z := match s with [] => [] | c :: s => if c =? 0 then [] else c :: c_string s end.

(** What [strcmp] and [strncmp] return for a string and a path. *)
Fixpoint compare_strings (u p : list Z) : Z :=
  match u, p with
  | [], [] => 0
  | [], d :: _ => - d
  | c :: _, [] => c
  | c :: u, d :: p => if c =? d then compare_strings u p else c - d
  end.

Fixpoint compare_prefix (u p : list Z) : Z :=
  match u, p with
  | _, [] => 0
  | [], d :: _ => - d
  | c :: u, d :: p => if c =? d then compare_prefix u p else c - d
  end.

Definition path_bytes (p : list Z) : Prop := Forall (λ c, 0 < c < 256) p.

Lemma c_string_end s : ∃ rest, s ++ [0] = c_string s ++ 0 :: rest.
Proof.
  induction s as [|c s [rest IH]]; [by exists []|]. cbn [c_string app]. destruct (Z.eqb_spec c 0) as [->|]; [by exists (s ++ [0])|].
  exists rest. cbn [app]. by rewrite IH.
Qed.

Lemma c_string_nonzero s : Forall (λ c, c ≠ 0) (c_string s).
Proof. induction s as [|c s IH]; [constructor|]. cbn. destruct (Z.eqb_spec c 0); by constructor. Qed.

Lemma strcmp_ok m u rest : ∀ p q, bytes_at m q (u ++ 0 :: rest) → path_bytes p → Forall (λ c, c ≠ 0) u →
  strcmp q p m = Done (compare_strings u p) m ∧ strncmp q p m = Done (compare_prefix u p) m.
Proof.
  induction u as [|c u IH]; intros [|d p] q Hat Hp Hu; cbn [strcmp strncmp compare_strings compare_prefix app] in *;
    apply bytes_at_cons in Hat as [Hc Hat].
  - split; [by apply rd_ok|done].
  - rewrite !(bind_done _ _ _ _ _ (rd_ok _ _ _ Hc)). apply Forall_cons in Hp as [Hd _]. rewrite (proj2 (Z.eqb_neq 0 d)) by lia. done.
  - split; [by apply rd_ok|done].
  - rewrite !(bind_done _ _ _ _ _ (rd_ok _ _ _ Hc)). apply Forall_cons in Hp as [_ Hp]. apply Forall_cons in Hu as [_ Hu].
    destruct (c =? d); [by apply IH|done].
Qed.

(** Whether a resource answers for a path. *)
Definition subtree (r : coap_resource_t) : bool := negb (Z.land (methods r) COAP_MATCH_SUBTREE =? 0).
Definition answers (u : list Z) (r : coap_resource_t) : Prop := if subtree r then path r `prefix_of` u else path r = u.

#[export] Instance answers_dec u r : Decision (answers u r).
Proof. unfold answers. destruct (subtree r); apply _. Defined.

Lemma compare_strings_eq u p : path_bytes p → Forall (λ c, c ≠ 0) u → compare_strings u p = 0 ↔ p = u.
Proof.
  revert p. induction u as [|c u IH]; intros [|d p] Hp Hu; cbn; try done.
  - apply Forall_cons in Hp as [Hd _]. split; [lia|done].
  - apply Forall_cons in Hu as [Hc _]. split; [by intros ->|done].
  - apply Forall_cons in Hp as [Hd Hp]. apply Forall_cons in Hu as [Hc Hu]. destruct (Z.eqb_spec c d) as [->|Hne].
    + rewrite IH by done. split; [by intros ->|by intros [= ->]].
    + split; [lia|by intros [= -> _]].
Qed.

Lemma compare_prefix_eq u p : path_bytes p → compare_prefix u p = 0 ↔ p `prefix_of` u.
Proof.
  revert p. induction u as [|c u IH]; intros [|d p] Hp; cbn.
  - split; [intros _; apply prefix_nil|done].
  - apply Forall_cons in Hp as [Hd _]. split; [lia|by intros ?%prefix_nil_inv].
  - split; [intros _; apply prefix_nil|done].
  - apply Forall_cons in Hp as [Hd Hp]. destruct (Z.eqb_spec c d) as [->|Hne].
    + rewrite IH by done. split; [apply prefix_cons|apply prefix_cons_inv_2].
    + split; [lia|]. intros ?%prefix_cons_inv_1. by subst.
Qed.

(** Behind a path that is larger, in an ordered list, no resource answers. *)
Lemma smaller_later u p1 p2 : path_bytes p1 → path_bytes p2 → path_bytes u →
  compare_strings u p1 < 0 ∨ compare_prefix u p1 < 0 → compare_strings p1 p2 ≤ 0 → p2 ≠ u ∧ ¬ p2 `prefix_of` u.
Proof.
  revert p1 p2. induction u as [|c u IH]; intros p1 p2 H1 H2 Hu Hlt Hle; destruct H1 as [|d p1 Hd H1], H2 as [|e p2 He H2];
    try (apply Forall_cons in Hu as [Hc Hu]); cbn in *; try lia.
  - split; [done|by intros ?%prefix_nil_inv].
  - destruct (Z.eqb_spec c d) as [->|Hcd].
    + destruct (Z.eqb_spec d e) as [->|Hde].
      * destruct (IH p1 p2 H1 H2 Hu Hlt Hle) as [Hn Hp]. split; [by intros [= ->]|by intros ?%prefix_cons_inv_2].
      * split; [by intros [= -> _]|by intros ?%prefix_cons_inv_1].
    + destruct (Z.eqb_spec d e) as [->|Hde].
      * split; [by intros [= -> _]|]. intros ?%prefix_cons_inv_1. by subst.
      * assert (c ≠ e) by lia. split; [by intros [= -> _]|]. intros ?%prefix_cons_inv_1. by subst.
Qed.

Lemma c_string_path s : Forall byte s → path_bytes (c_string s).
Proof.
  induction 1 as [|c s Hc _ IH]; [constructor|]. cbn. destruct (Z.eqb_spec c 0); [constructor|]. constructor; [|done]. unfold uint in Hc. lia.
Qed.

Lemma match_path_ok m uri u rest r : bytes_at m uri (u ++ 0 :: rest) → path_bytes u → path_bytes (path r) →
  ∃ c, coap_match_path r uri m = Done c m ∧ (c = 0 ↔ answers u r) ∧
    (c < 0 → compare_strings u (path r) < 0 ∨ compare_prefix u (path r) < 0).
Proof.
  intros Hat Hu Hp. assert (Forall (λ c, c ≠ 0) u) as Hnz by (eapply Forall_impl; [exact Hu|]; cbn; lia).
  destruct (strcmp_ok m u rest (path r) uri Hat Hp Hnz) as [E1 E2]. unfold coap_match_path, answers, subtree.
  destruct (Z.land (methods r) COAP_MATCH_SUBTREE =? 0); cbn [negb].
  - exists (compare_strings u (path r)). split_and!; [done|by apply compare_strings_eq|by left].
  - exists (compare_prefix u (path r)). split_and!; [done|by apply compare_prefix_eq|by right].
Qed.

(** ** Requests *)

(** The resource of a path for a method: the first that answers and allows it. *)
Definition serves (flag : Z) (u : list Z) (r : coap_resource_t) : Prop := Z.land (methods r) flag ≠ 0 ∧ answers u r.

#[export] Instance serves_dec flag u r : Decision (serves flag u r) := _.

Definition find_resource (flag : Z) (u : list Z) (rs : list coap_resource_t) : option coap_resource_t :=
  snd <$> list_find (serves flag u) rs.

(** The resources are ordered by their paths. *)
Definition ordered_resources (rs : list coap_resource_t) : Prop :=
  Forall (λ r, path_bytes (path r)) rs ∧ StronglySorted (λ r1 r2, compare_strings (path r1) (path r2) ≤ 0) rs.

Lemma find_resource_cons flag u r rs : find_resource flag u (r :: rs) = if decide (serves flag u r) then Some r else find_resource flag u rs.
Proof. unfold find_resource. cbn [list_find]. case_decide; [done|]. by destruct (list_find _ rs) as [[]|]. Qed.

Lemma find_resource_none flag u rs : Forall (λ r, ¬ serves flag u r) rs → find_resource flag u rs = None.
Proof. induction 1 as [|r rs Hr _ IH]; [done|]. by rewrite find_resource_cons, decide_False. Qed.

(** Stopping at the first larger path misses no resource. *)
Lemma dispatch_loop_ok m uri u rest pkt flag rbuf rlen rs : bytes_at m uri (u ++ 0 :: rest) → path_bytes u → ordered_resources rs →
  dispatch_loop uri rs pkt flag rbuf rlen m =
    match find_resource flag u rs with
    | Some r => (v ← handler r pkt rbuf rlen (context r); mret (Some v)) m
    | None => Done None m
    end.
Proof.
  intros Hat Hu [Hp Hsort]. induction Hsort as [|r rs Hsort IH Hle]; [done|]. apply Forall_cons in Hp as [Hpr Hp].
  cbn [dispatch_loop]. rewrite find_resource_cons. destruct (Z.eqb_spec (Z.land (methods r) flag) 0) as [E|E].
  { rewrite decide_False by (intros [? _]; done). by apply IH. }
  destruct (match_path_ok m uri u rest r Hat Hu Hpr) as (c & Em & Hc & Hlt). rewrite (bind_done _ _ _ _ _ Em). cbn beta.
  destruct (Z.ltb_spec 0 c).
  { rewrite decide_False by (intros [_ Ha%Hc]; lia). by apply IH. }
  destruct (Z.ltb_spec c 0) as [Hneg|].
  - rewrite decide_False by (intros [_ Ha%Hc]; lia). rewrite find_resource_none; [done|].
    apply Forall_forall. intros r2 Hr2 [_ Ha]. apply (proj1 (Forall_forall _ _) Hle) in Hr2 as Hle2.
    apply (proj1 (Forall_forall _ _) Hp) in Hr2 as Hp2. destruct (smaller_later u (path r) (path r2) Hpr Hp2 Hu (Hlt Hneg) Hle2) as [Hn1 Hn2].
    unfold answers in Ha. destruct (subtree r2); done.
  - by rewrite decide_True by (split; [done|apply Hc; lia]).
Qed.

(** A received message is still there when other memory is written. *)
Lemma received_poke m buf msg pkt p bs : received m buf msg pkt → p + len bs ≤ buf ∨ buf + len (message_bytes msg) ≤ p →
  received (poke m p bs) buf msg pkt.
Proof. intros [Hde Hb Hat Hby Hwf Hl Hn] Hd. split; try done. apply bytes_at_poke_other; [done|lia]. Qed.

(** The path a request asks for. *)
Definition request_path (msg : message) : list Z :=
  match values COAP_OPT_URI_PATH (m_options msg) with [] => [slash] | _ => joined slash (values COAP_OPT_URI_PATH (m_options msg)) end.

(** The answer without a handler. *)
Definition answer (msg : message) (code rbuf rlen : Z) (m : gmap Z Z) : result Z :=
  if rlen <? len (reply_bytes msg code) then Done (- ENOSPC) m
  else Done (len (reply_bytes msg code)) (poke m rbuf (reply_bytes msg code)).

Lemma answer_ok m buf msg pkt code rbuf rlen : received m buf msg pkt → byte code →
  rbuf ≤ buf ∨ buf + len (message_bytes msg) ≤ rbuf → mapped m rbuf (4 + len (m_token msg)) →
  coap_build_reply pkt code rbuf rlen 0 m = answer msg code rbuf rlen m.
Proof.
  intros Hr Hc Hd Hmap. assert (len (reply_bytes msg code) = 4 + len (m_token msg)) as Hl.
  { unfold reply_bytes. rewrite length_app. change (length (header_bytes _ _ _ _)) with 4%nat. lia. }
  rewrite (coap_build_reply_ok m buf msg pkt code rbuf rlen 0 Hr Hc) by (done || lia || by rewrite Hl). unfold answer. by rewrite Z.add_0_r.
Qed.

Lemma joined_byte separator vs : byte separator → Forall (Forall byte) vs → Forall byte (joined separator vs).
Proof.
  intros Hs. induction 1 as [|v vs Hv _ IH]; [constructor|]. rewrite joined_cons. constructor; [done|]. apply Forall_app. by split.
Qed.

Lemma numbered_values nr os : Forall wf_value os → Forall (λ o, Forall byte o.2) (numbered nr os).
Proof. intros Hw. revert nr. induction Hw as [|o os (_ & _ & Ho) _ IH]; intros nr; [constructor|]. by constructor. Qed.

Lemma request_path_byte m buf msg pkt : received m buf msg pkt → Forall byte (request_path msg).
Proof.
  intros Hr%received_values. unfold request_path. assert (byte slash) as Hs by (unfold uint, slash; lia).
  assert (Forall (Forall byte) (values COAP_OPT_URI_PATH (m_options msg))) as Hv.
  { unfold values. apply Forall_fmap, Forall_forall. intros o [_ Ho]%list_elem_of_filter. apply (numbered_values 0) in Hr.
    by apply (proj1 (Forall_forall _ _) Hr). }
  destruct (values _ _) as [|v vs]; [by constructor|]. by apply joined_byte.
Qed.

(** C23: A request is answered by the handler of the first resource that answers for its
    path and allows its method, called behind the path was stored in the local
    array; without one the answer is 4.04.  An empty message is answered by a
    reset; what is no request, or has a path that is too long, is refused. *)
Theorem coap_handle_req_ok resources uri m buf msg pkt rbuf rlen :
  received m buf msg pkt → ordered_resources resources → mapped m uri NANOCOAP_URI_MAX →
  uri + NANOCOAP_URI_MAX ≤ buf ∨ buf + len (message_bytes msg) ≤ uri →
  rbuf ≤ buf ∨ buf + len (message_bytes msg) ≤ rbuf → mapped m rbuf (4 + len (m_token msg)) →
  let code := message_code msg in
  let p := request_path msg in
  let m1 := poke m uri (p ++ [0]) in
  let run := coap_handle_req resources uri pkt rbuf rlen m in
  if negb (Z.shiftr code 5 =? COAP_REQ) then run = Done (- EBADMSG) m
  else if code =? 0 then run = answer msg COAP_CODE_EMPTY rbuf rlen m
  else if NANOCOAP_URI_MAX <=? len p then
    ∃ m', run = Done (- EBADMSG) m' ∧ ∀ q, ¬ (uri ≤ q < uri + NANOCOAP_URI_MAX) → m' !! q = m !! q
  else match find_resource (coap_method2flag (Z.land code 0x1f)) (c_string p) resources with
  | Some r => run = handler r pkt rbuf rlen (context r) m1
  | None => run = answer msg COAP_CODE_404 rbuf rlen m1
  end.
Proof.
  intros Hr Hord Hmu Hdu Hdr Hmr. cbn zeta. destruct (get_code_ok m buf msg pkt Hr) as (Ecls & Eraw & Edet & Hcb).
  unfold coap_handle_req. rewrite (bind_done _ _ _ _ _ Ecls). cbn beta. destruct (Z.shiftr (message_code msg) 5 =? COAP_REQ); cbn [negb]; [|done].
  rewrite (bind_done _ _ _ _ _ Eraw). cbn beta. destruct (message_code msg =? 0).
  { by apply (answer_ok m buf). }
  rewrite (bind_done _ _ _ _ _ Edet). cbn beta zeta. set (flag := coap_method2flag _).
  pose proof (coap_opt_get_string_ok m buf msg pkt COAP_OPT_URI_PATH uri NANOCOAP_URI_MAX slash Hr ltac:(done)
    ltac:(unfold uint, slash; lia) ltac:(unfold NANOCOAP_URI_MAX; lia) Hmu Hdu) as Hget. cbn zeta in Hget. fold (request_path msg) in Hget.
  rewrite Z.leb_antisym. set (p := request_path msg) in *. unfold coap_get_uri_path.
  destruct (Z.ltb_spec (len p) NANOCOAP_URI_MAX) as [Hlen|Hlen]; cbn [negb].
  - rewrite (bind_done _ _ _ _ _ Hget). cbn beta. rewrite (proj2 (Z.leb_gt _ 0)) by lia.
    set (m1 := poke m uri (p ++ [0])). destruct (c_string_end p) as [rest Erest].
    assert (bytes_at m1 uri (c_string p ++ 0 :: rest)) as Hat by (rewrite <- Erest; apply bytes_at_poke).
    assert (len (p ++ [0]) = len p + 1) as Hl1 by (rewrite length_app; cbn; lia).
    pose proof (dispatch_loop_ok m1 uri (c_string p) rest pkt flag rbuf rlen resources Hat (c_string_path p (request_path_byte _ _ _ _ Hr)) Hord) as Hdisp.
    destruct (find_resource flag (c_string p) resources) as [r|].
    + unfold mbind at 1, M_bind at 1. rewrite Hdisp. unfold mbind, M_bind, mret, M_ret. by destruct (handler r pkt rbuf rlen (context r) m1).
    + rewrite (bind_done _ _ _ _ _ Hdisp). apply (answer_ok m1 buf); try done; [|by apply mapped_poke].
      apply received_poke; [done|unfold NANOCOAP_URI_MAX in *; lia].
  - destruct Hget as (m' & E & Hm'). rewrite (bind_done _ _ _ _ _ E). cbn beta. change (- ENOSPC <=? 0) with true. by exists m'.
Qed.
