(* ===== verification/CoapBlock.v ===== *)
(** * Blockwise transfer of CoAP payloads

    The slicer cuts the window of a block out of a payload that is produced piece by
    piece; the block option; and the list of resources as a blockwise payload. *)

From S2P Require Import Prelude Bytes Buffers ByteMem Coap CoapParse CoapOptions CoapBuild CoapServer.

(** ** The window of a block *)

Definition window (s e : nat) (l : list Z) : list Z := take (e - s) (drop s l).

Lemma window_app s e out bs : (s ≤ e)%nat →
  window s e (out ++ bs) = window s e out ++ take (e - max s (length out)) (drop (s - length out) bs).
Proof.
  intros Hse. unfold window. rewrite drop_app, take_app, length_drop. f_equal. f_equal. lia.
Qed.

(** The windows of successive blocks of [b] bytes make up the payload. *)
Lemma windows_concat b l n : concat ((λ k, window (k * b) (S k * b) l) <$> seq 0 n) = take (n * b) l.
Proof.
  induction n as [|n IH]; [done|]. rewrite seq_S, fmap_app, concat_app, IH. cbn [fmap list_fmap concat]. rewrite app_nil_r. unfold window.
  replace (S (0 + n) * b - (0 + n) * b)%nat with b by lia. replace (S n * b)%nat with (n * b + b)%nat by lia.
  rewrite <- (take_drop (n * b) (take (n * b + b) l)), take_take, Nat.min_l by lia. f_equal.
  rewrite skipn_firstn_comm. f_equal. lia.
Qed.

(** The pieces the functions of the slicer are called with. *)
Inductive piece := Char (c : Z) | Chunk (bs : list Z).
Definition piece_bytes (p : piece) : list Z := match p with Char c => [c] | Chunk bs => bs end.

Definition put_piece (slicer : coap_block_slicer_t) (bufpos : Z) (p : piece) : M (Z * coap_block_slicer_t) :=
  match p with Char c => coap_blockwise_put_char slicer bufpos c | Chunk bs => coap_blockwise_put_bytes slicer bufpos bs end.

Fixpoint put_pieces (slicer : coap_block_slicer_t) (bufpos : Z) (ps : list piece) : M (Z * coap_block_slicer_t) :=
  match ps with
  | [] => mret (bufpos, slicer)
  | p :: ps => '(n, slicer) ← put_piece slicer bufpos p; put_pieces slicer (bufpos + n) ps
  end.

(** A slicer behind [out]. *)
Record slicing (s e : nat) (out : list Z) (slicer : coap_block_slicer_t) : Prop := {
  sl_start : start slicer = Z.of_nat s;
  sl_end : end_ slicer = Z.of_nat e;
  sl_cur : cur slicer = len out;
  sl_order : (s ≤ e)%nat
}.

Lemma put_piece_ok s e out slicer bufpos p m : slicing s e out slicer → len out + len (piece_bytes p) < 2 ^ 63 →
  Forall byte (piece_bytes p) →
  let w := take (e - max s (length out)) (drop (s - length out) (piece_bytes p)) in
  mapped m bufpos (len w) →
  put_piece slicer bufpos p m = Done (len w, set_cur (len (out ++ piece_bytes p)) slicer) (poke m bufpos w).
Proof.
  intros [S1 S2 S3 S4] Hlt Hby w Hmap. destruct p as [c|bs]; cbn [put_piece piece_bytes] in *.
  - unfold coap_blockwise_put_char. rewrite S1, S2, S3, length_app, wrap_small by (unfold uint; cbn in *; lia).
    replace (len out + 1) with (Z.of_nat (length out + length [c])) by (cbn; lia).
    destruct (Z.leb_spec (Z.of_nat s) (len out)); destruct (Z.ltb_spec (len out) (Z.of_nat e)); cbn [andb].
    + assert (w = [c]) as Hw. { unfold w. replace (s - length out)%nat with 0%nat by lia. rewrite drop_0. apply take_ge. cbn. lia. }
      rewrite Hw in *. apply Forall_cons in Hby as [Hc _]. by rewrite (bind_done _ _ _ _ _ (wr_ok m bufpos c Hmap Hc)).
    + assert (w = []) as -> by (unfold w; replace (e - max s (length out))%nat with 0%nat by lia; done). done.
    + assert (w = []) as -> by (unfold w; rewrite drop_ge by (cbn; lia); apply take_nil). done.
    + lia.
  - unfold coap_blockwise_put_bytes. rewrite S1, S2, S3, length_app, wrap_small by (unfold uint; lia).
    replace (len out + len bs) with (Z.of_nat (length out + length bs)) by lia.
    assert ((if len out <? Z.of_nat s then Z.of_nat s - len out else 0) = Z.of_nat (s - length out)) as -> by (ztest).
    destruct (Z.leb_spec (Z.of_nat e) (len out)); cbn [orb].
    { assert (w = []) as -> by (unfold w; replace (e - max s (length out))%nat with 0%nat by lia; done). done. }
    destruct (Z.ltb_spec (len bs) (Z.of_nat (s - length out))).
    { assert (w = []) as -> by (unfold w; rewrite drop_ge by lia; apply take_nil). done. }
    assert ((if Z.of_nat e <=? Z.of_nat (length out + length bs) then u64 (Z.of_nat e - (len out + Z.of_nat (s - length out)))
      else len bs - Z.of_nat (s - length out)) = len w) as ->.
    { unfold w. rewrite length_take, length_drop. destruct (Z.leb_spec (Z.of_nat e) (Z.of_nat (length out + length bs))); [rewrite wrap_small by (unfold uint; lia)|]; lia. }
    assert (load bs (Z.of_nat (s - length out)) (len w) = Some w) as ->.
    { unfold load. assert (length w ≤ length bs - (s - length out))%nat as Hwl by (unfold w; rewrite length_take, length_drop; lia).
      repeat (rewrite (proj2 (Z.leb_le _ _)) by lia). cbn [andb]. rewrite !Nat2Z.id. f_equal. unfold w at 2.
      unfold w at 1. rewrite length_take. destruct (decide (e - s `max` length out ≤ length (drop (s - length out) bs)))%nat.
      - by rewrite Nat.min_l by lia.
      - rewrite Nat.min_r by lia. by rewrite !take_ge by lia. }
    erewrite (bind_done (lift _)); [|reflexivity].
    assert (Forall byte w) as Hw by (unfold w; by apply Forall_take, Forall_drop).
    by rewrite (bind_done _ _ _ _ _ (wrs_ok m bufpos w Hmap Hw)).
Qed.

Lemma put_pieces_ok s e : ∀ ps out slicer bufpos m, slicing s e out slicer →
  len out + len (concat (piece_bytes <$> ps)) < 2 ^ 63 → Forall byte (concat (piece_bytes <$> ps)) →
  ∃ w, window s e (out ++ concat (piece_bytes <$> ps)) = window s e out ++ w ∧
    (mapped m bufpos (len w) →
     put_pieces slicer bufpos ps m = Done (bufpos + len w, set_cur (len (out ++ concat (piece_bytes <$> ps))) slicer) (poke m bufpos w)).
Proof.
  induction ps as [|p ps IH]; intros out slicer bufpos m Hs Hlt Hby.
  - exists []. cbn. rewrite !app_nil_r. split; [done|]. intros _. rewrite Z.add_0_r. unfold mret, M_ret. do 2 f_equal.
    destruct Hs as [_ _ <- _]. by destruct slicer.
  - cbn [fmap list_fmap concat] in *. rewrite length_app in Hlt. apply Forall_app in Hby as [Hp Hby].
    set (w1 := take (e - max s (length out)) (drop (s - length out) (piece_bytes p))).
    set (sl := set_cur (len (out ++ piece_bytes p)) slicer).
    assert (slicing s e (out ++ piece_bytes p) sl) as Hs1 by (destruct Hs; by split).
    destruct (IH (out ++ piece_bytes p) sl (bufpos + len w1) (poke m bufpos w1) Hs1) as (w2 & Hw2 & E2); [rewrite length_app; lia|done|].
    exists (w1 ++ w2). rewrite (app_assoc out). split; [by rewrite Hw2, window_app, <- app_assoc by apply Hs|].
    intros Hmap. rewrite length_app in Hmap.
    cbn [put_pieces]. rewrite (bind_done _ _ _ _ _ (put_piece_ok s e out slicer bufpos p m Hs ltac:(lia) Hp ltac:(eapply mapped_sub; [exact Hmap|lia|fold w1; lia]))).
    cbn beta iota zeta. fold w1 sl. rewrite E2 by (apply mapped_poke; eapply mapped_sub; [exact Hmap|lia|lia]).
    rewrite poke_app, (length_app w1). unfold sl, set_cur. cbn [start end_ opt].
    by replace (bufpos + len w1 + len w2) with (bufpos + Z.of_nat (length w1 + length w2)) by lia.
Qed.

(** C24: However a payload is cut into pieces, the slicer writes exactly the bytes of the
    window, and knows the length of the payload in the end; and the windows of
    successive blocks are the payload. *)
Theorem coap_blockwise_window s e opt ps bufpos m : (s ≤ e)%nat →
  let all := concat (piece_bytes <$> ps) in
  len all < 2 ^ 63 → Forall byte all → mapped m bufpos (len (window s e all)) →
  put_pieces (Slicer (Z.of_nat s) (Z.of_nat e) 0 opt) bufpos ps m =
    Done (bufpos + len (window s e all), Slicer (Z.of_nat s) (Z.of_nat e) (len all) opt) (poke m bufpos (window s e all)) ∧
  ∀ b n, (0 < b)%nat → (length all ≤ n * b)%nat → concat ((λ k, window (k * b) (S k * b) all) <$> seq 0 n) = all.
Proof.
  intros Hse all Hlt Hby Hmap. split.
  - destruct (put_pieces_ok s e ps [] (Slicer (Z.of_nat s) (Z.of_nat e) 0 opt) bufpos m) as (w & Hw & E); [by split|done|done|].
    assert (window s e [] = []) as E0 by (unfold window; by rewrite drop_nil, take_nil). rewrite E0 in Hw. cbn [app] in Hw. fold all in Hw, E.
    rewrite Hw in *. rewrite E by done. done.
  - intros b n Hb Hn. rewrite windows_concat. by apply take_ge.
Qed.

(** ** Integers as option values *)

Lemma uint_size_bounds v : uint 32 v → (uint_size 4 v ≤ 4)%nat ∧ v < 256 ^ Z.of_nat (uint_size 4 v) ∧ (v = 0 ↔ uint_size 4 v = 0%nat).
Proof.
  unfold uint. change (2 ^ 32) with 4294967296. intros Hv. cbn [uint_size]. rewrite !Z.shiftr_shiftr, !Z.shiftr_div_pow2 by lia.
  change (2 ^ (8 + 8 + 8)) with 16777216. change (2 ^ (8 + 8)) with 65536. change (2 ^ 8) with 256.
  assert (∀ n : nat, (n ≤ 4)%nat → v < 256 ^ Z.of_nat n → (v = 0 ↔ n = 0%nat) →
    (n ≤ 4)%nat ∧ v < 256 ^ Z.of_nat n ∧ (v = 0 ↔ n = 0%nat)) as Hsplit by done.
  destruct (Z.eqb_spec v 0) as [->|]; [by apply (Hsplit 0%nat); [lia|..]|].
  destruct (Z.eqb_spec (v / 256) 0); [apply (Hsplit 1%nat); [lia|change (256 ^ Z.of_nat 1) with 256; Z.div_mod_to_equations; lia|lia]|].
  destruct (Z.eqb_spec (v / 65536) 0); [apply (Hsplit 2%nat); [lia|change (256 ^ Z.of_nat 2) with 65536; Z.div_mod_to_equations; lia|lia]|].
  destruct (Z.eqb_spec (v / 16777216) 0).
  - apply (Hsplit 3%nat); [lia|change (256 ^ Z.of_nat 3) with 16777216; Z.div_mod_to_equations; lia|lia].
  - apply (Hsplit 4%nat); [lia|change (256 ^ Z.of_nat 4) with 4294967296; lia|lia].
Qed.

Lemma encode_uint_ok v : uint 32 v → _encode_uint v = be_bytes (uint_size 4 v) v ∧ be_value (_encode_uint v) = v ∧
  Forall byte (_encode_uint v) ∧ len (_encode_uint v) ≤ 4 ∧ (v = 0 ↔ len (_encode_uint v) = 0).
Proof.
  intros Hv. destruct (uint_size_bounds v Hv) as (Hle & Hlt & H0).
  assert (_encode_uint v = be_bytes (uint_size 4 v) v) as E.
  { unfold _encode_uint, bytes4, wrap. rewrite !Z.shiftr_div_pow2 by lia.
    change (2 ^ 24) with 16777216. change (2 ^ 16) with 65536. change (2 ^ 8) with 256.
    assert (v / 256 / 256 = v / 65536) as E2 by (rewrite Z.div_div by lia; done).
    assert (v / 65536 / 256 = v / 16777216) as E3 by (rewrite Z.div_div by lia; done).
    destruct (uint_size 4 v) as [|[|[|[|[|]]]]]; [| | | | |lia]; cbn [be_bytes drop Nat.sub app]; rewrite ?E2, ?E3; done. }
  rewrite E, be_bytes_length. split_and!; [done| |apply be_bytes_byte|lia|lia].
  rewrite be_value_bytes. apply Z.mod_small. unfold uint in Hv. lia.
Qed.

(** ** The block option *)

(** The block a message asks for: its number and the exponent of its size, at most
    that of the largest block; the first of the smallest blocks without the option. *)
Definition requested_block (msg : message) : Z * Z :=
  match values COAP_OPT_BLOCK2 (m_options msg) with
  | [] => (0, 0)
  | v :: _ => (Z.shiftr (be_value v) 4, Z.min (Z.land (be_value v) 7) (NANOCOAP_BLOCK_SIZE_EXP_MAX - 4))
  end.

Definition block_size (szx : Z) : Z := 2 ^ (szx + 4).

(** Where the requested block starts, and where the 32-bit multiplication of the code
    has it start: for the largest block numbers it wraps around. *)
Definition requested_start (msg : message) : Z := let '(num, szx) := requested_block msg in num * block_size szx.
Definition block_start (msg : message) : Z := u32 (requested_start msg).

Definition block_value (num szx : Z) (more : bool) : Z := num * 16 + szx + (if more then 8 else 0).

Lemma decode_uint_ok m p v : bytes_at m p v → len v ≤ 4 → _decode_uint p (len v) m = Done (be_value v) m.
Proof.
  intros Hat Hl. unfold _decode_uint, massert. rewrite !(proj2 (Z.leb_le _ _)) by lia. rewrite (bind_done _ _ m tt m eq_refl).
  by rewrite (bind_done _ _ _ _ _ (rds_ok m p v _ (Nat2Z.id _) Hat)).
Qed.

(** The first value of a number, where [_parse_option] finds it. *)
Lemma find_first_ok m buf msg pkt n : received m buf msg pkt → 0 < n →
  match values n (m_options msg) with
  | [] => coap_find_option pkt n m = Done NULL m
  | v :: _ => ∃ p q d, coap_find_option pkt n m = Done p m ∧ p ≠ NULL ∧
      _parse_option pkt p m = Done (Some (q, d, len v)) m ∧ bytes_at m q v
  end.
Proof.
  intros Hr Hn. destruct (coap_find_option_ok m buf msg pkt n Hr Hn) as [(pre & o & post & Ho & Hsum & -> & Hfind)|[-> Hfind]]; [|done].
  destruct (option_at m buf msg pkt (rc_describes _ _ _ _ Hr) (rc_bytes _ _ _ _ Hr) (rc_wf _ _ _ _ Hr) pre o post Ho) as (rest & Hat & Hp & _).
  pose proof (received_values _ _ _ _ Hr) as Hw. rewrite Ho in Hw. apply Forall_app in Hw as [_ [(Hwo & Hd16 & _) _]%Forall_cons].
  set (p := buf + 4 + len (m_token msg) + len (options_bytes pre)) in *. destruct Hr as [Hde Hb _ _ Hwf Hlen _].
  assert (len (option_bytes o ++ options_bytes post ++ rest) < 2 ^ 64) as Hlt.
  { destruct Hde as [_ _ _ _ D5 _]. unfold p in Hp. lia. }
  exists p, (p + len (option_bytes o) - len o.2), o.1. split_and!; [done|unfold p, NULL; lia|by apply (parse_option_ok m pkt p o (options_bytes post ++ rest))|].
  apply bytes_at_app in Hat as [Hat _]. pose proof (option_bytes_length o) as Hol. unfold option_bytes in Hat.
  apply bytes_at_cons in Hat as [_ Hat]. apply bytes_at_app in Hat as [_ [_ Hat]%bytes_at_app].
  replace (p + len (option_bytes o) - len o.2) with (p + 1 + len (extension o.1) + len (extension (len o.2))) by lia. done.
Qed.

Lemma get_blockopt_ok m buf msg pkt n : received m buf msg pkt → 0 < n →
  match values n (m_options msg) with
  | [] => coap_get_blockopt pkt n m = Done (-1, 0, 0) m
  | v :: _ => len v ≤ 4 → coap_get_blockopt pkt n m =
      Done (if negb (Z.land (be_value v) 8 =? 0) then 1 else 0, Z.shiftr (be_value v) 4, Z.land (be_value v) 7) m
  end.
Proof.
  intros Hr Hn. pose proof (find_first_ok m buf msg pkt n Hr Hn) as Hf. unfold coap_get_blockopt. destruct (values n (m_options msg)) as [|v vs].
  - by rewrite (bind_done _ _ _ _ _ Hf).
  - destruct Hf as (p & q & d & E1 & Hp & E2 & Hat). intros Hl. rewrite (bind_done _ _ _ _ _ E1). rewrite (proj2 (Z.eqb_neq p NULL)) by done.
    rewrite (bind_done _ _ _ _ _ E2). erewrite (bind_done (lift _)); [|reflexivity]. cbn beta iota.
    by rewrite (bind_done _ _ _ _ _ (decode_uint_ok m q v Hat Hl)).
Qed.

(** A block option that can be read. *)
Definition block_ok (msg : message) : Prop := match values COAP_OPT_BLOCK2 (m_options msg) with [] => True | v :: _ => len v ≤ 4 end.

Lemma land_7_range v : 0 ≤ Z.land v 7 < 8.
Proof. change 7 with (2 ^ 3 - 1). rewrite land_mask by lia. apply Z.mod_pos_bound. done. Qed.

Lemma requested_szx msg : 0 ≤ (requested_block msg).2 ≤ 2.
Proof.
  unfold requested_block. destruct (values _ _) as [|v _]; cbn [snd]; [lia|]. pose proof (land_7_range (be_value v)).
  unfold NANOCOAP_BLOCK_SIZE_EXP_MAX. lia.
Qed.

Lemma block2_init_ok m buf msg pkt : received m buf msg pkt → block_ok msg →
  coap_block2_init pkt m = Done (Slicer (block_start msg) (block_start msg + block_size (requested_block msg).2) 0 NULL) m.
Proof.
  intros Hr Hok. pose proof (get_blockopt_ok m buf msg pkt COAP_OPT_BLOCK2 Hr ltac:(done)) as E. unfold coap_block2_init, block_start, requested_start, requested_block, block_ok in *.
  destruct (values COAP_OPT_BLOCK2 (m_options msg)) as [|v vs].
  - rewrite (bind_done _ _ _ _ _ E). done.
  - rewrite (bind_done _ _ _ _ _ (E Hok)). cbn beta iota zeta. unfold NANOCOAP_BLOCK_SIZE_EXP_MAX. pose proof (land_7_range (be_value v)).
    assert ((0 <=? (if negb (Z.land (be_value v) 8 =? 0) then 1 else 0)) = true) as -> by by destruct (negb _).
    cbn [andb snd]. assert ((if 6 - 4 <? Z.land (be_value v) 7 then 6 - 4 else Z.land (be_value v) 7) = Z.min (Z.land (be_value v) 7) (6 - 4)) as -> by (ztest).
    unfold coap_szx2size, block_size. rewrite Z.shiftl_1_l. done.
Qed.

(** The number of the block from its start. *)
Lemma blknum_loop_ok b k fuel n m : 0 < b → 0 ≤ k → k * b < 2 ^ 64 → 0 ≤ n → n + k < 2 ^ 32 → (Z.to_nat k < fuel)%nat →
  blknum_loop fuel (k * b) b n m = Done (n + k) m.
Proof.
  intros Hb Hk. revert n fuel. pattern k. apply natlike_ind; [|clear k Hk|done].
  - intros n fuel _ Hn _ Hf. destruct fuel as [|fuel]; [lia|]. cbn. unfold mret, M_ret. f_equal. lia.
  - intros k Hk IH n fuel Hlt Hn Hn32 Hf. destruct fuel as [|fuel]; [lia|]. cbn [blknum_loop].
    rewrite (proj2 (Z.ltb_lt 0 _)) by nia. replace (Z.succ k * b - b) with (k * b) by lia.
    rewrite !wrap_small by (unfold uint; nia). rewrite IH by lia. f_equal. lia.
Qed.

Lemma slicer_blknum_ok k szx cur opt m : 0 ≤ szx ≤ 2 → 0 ≤ k < 2 ^ 28 →
  let b := block_size szx in _slicer_blknum (Slicer (k * b) (k * b + b) cur opt) m = Done k m.
Proof.
  intros Hs Hk b. assert (b = 16 ∨ b = 32 ∨ b = 64) as Hb.
  { unfold b, block_size. assert (szx = 0 ∨ szx = 1 ∨ szx = 2) as [->|[->| ->]] by lia; auto. }
  unfold _slicer_blknum. cbn [start end_]. rewrite wrap_small by (unfold uint; lia). replace (k * b + b - k * b) with b by lia.
  rewrite blknum_loop_ok by nia. f_equal. 
Qed.

Lemma size2szx_ok szx m : 0 ≤ szx ≤ 2 → _size2szx (block_size szx) m = Done szx m.
Proof. intros Hs. assert (szx = 0 ∨ szx = 1 ∨ szx = 2) as [->|[->| ->]] by lia; done. Qed.

Lemma block_value_range k szx more : 0 ≤ szx ≤ 2 → 0 ≤ k < 2 ^ 28 → uint 32 (block_value k szx more).
Proof. unfold uint, block_value. destruct more; lia. Qed.

Lemma block_value_bits k szx (more : bool) : 0 ≤ szx ≤ 2 → 0 ≤ k < 2 ^ 28 →
  u32 (Z.lor (Z.lor (Z.shiftl k 4) szx) (if more then 8 else 0)) = block_value k szx more.
Proof.
  intros Hs Hk. pose proof (block_value_range k szx more Hs Hk) as Hr.
  rewrite <- Z.lor_assoc. assert (Z.lor szx (if more then 8 else 0) = szx + (if more then 8 else 0)) as ->.
  { assert (szx = 0 ∨ szx = 1 ∨ szx = 2) as [->|[->| ->]] by lia; by destruct more. }
  rewrite (lor_shiftl k _ 4) by (unfold uint; destruct more; lia). change (2 ^ 4) with 16.
  rewrite Z.add_assoc. unfold block_value in Hr. by apply wrap_small.
Qed.

(** The option as [coap_opt_put_block2] writes it. *)
Definition block_option (delta k szx : Z) (more : bool) : Z * list Z := (delta, _encode_uint (block_value k szx more)).

Lemma put_block2_ok k szx cur opt0 more buf lastonum m : 0 ≤ szx ≤ 2 → 0 ≤ k < 2 ^ 28 → field (COAP_OPT_BLOCK2 - lastonum) →
  let b := block_size szx in let o := block_option (COAP_OPT_BLOCK2 - lastonum) k szx more in
  mapped m buf (len (option_bytes o)) →
  coap_opt_put_block2 buf lastonum (Slicer (k * b) (k * b + b) cur opt0) more m =
    Done (len (option_bytes o), Slicer (k * b) (k * b + b) cur buf) (poke m buf (option_bytes o)).
Proof.
  intros Hs Hk Hd b o Hmap. unfold coap_opt_put_block2. cbn [start end_].
  assert (u64 (k * b + b - k * b) = block_size szx) as ->.
  { replace (k * b + b - k * b) with b by lia. unfold b, block_size. assert (szx = 0 ∨ szx = 1 ∨ szx = 2) as [->|[->| ->]] by lia; done. }
  rewrite (bind_done _ _ _ _ _ (size2szx_ok szx m Hs)), (bind_done _ _ _ _ _ (slicer_blknum_ok k szx cur opt0 m Hs Hk)).
  destruct (encode_uint_ok (block_value k szx more) (block_value_range k szx more Hs Hk)) as (_ & _ & Hby & Hl & _).
  rewrite (bind_done _ _ _ (len (option_bytes o)) (poke m buf (option_bytes o))); [done|].
  unfold coap_put_option_block. rewrite block_value_bits by done. apply coap_put_option_ok; [done|lia|done|done].
Qed.

(** The flag for more blocks does not change the length of the option, unless the
    value is 0 without it. *)
Lemma block_option_length delta k szx more : 0 ≤ szx ≤ 2 → 0 ≤ k < 2 ^ 28 → block_value k szx more ≠ 0 →
  len (option_bytes (block_option delta k szx more)) = len (option_bytes (block_option delta k szx true)).
Proof.
  intros Hs Hk Hne. rewrite !option_bytes_length. unfold block_option. cbn [fst snd].
  assert (length (_encode_uint (block_value k szx more)) = length (_encode_uint (block_value k szx true))) as ->; [|done].
  destruct (encode_uint_ok _ (block_value_range k szx more Hs Hk)) as (-> & _).
  destruct (encode_uint_ok _ (block_value_range k szx true Hs Hk)) as (-> & _). rewrite !be_bytes_length.
  cbn [uint_size]. rewrite (proj2 (Z.eqb_neq _ 0)) by done. rewrite (proj2 (Z.eqb_neq (block_value k szx true) 0)) by (unfold block_value; lia).
  assert (Z.shiftr (block_value k szx more) 8 = Z.shiftr (block_value k szx true) 8) as ->; [|done].
  rewrite !Z.shiftr_div_pow2 by lia. change (2 ^ 8) with 256. unfold block_value. destruct more; [done|]. Z.div_mod_to_equations. lia.
Qed.

Lemma block_option_max delta k szx more : delta = 11 → 0 ≤ szx ≤ 2 → 0 ≤ k < 2 ^ 28 →
  1 ≤ len (option_bytes (block_option delta k szx more)) ≤ 5.
Proof.
  intros -> Hs Hk. rewrite option_bytes_length. unfold block_option. cbn [fst snd].
  destruct (encode_uint_ok _ (block_value_range k szx more Hs Hk)) as (_ & _ & _ & Hl & _). unfold extension. ztest.
Qed.

(** ** The list of resources *)

(** The pieces of the list of links: [<path>], separated by commas. *)
Fixpoint link_pieces (first : bool) (rs : list coap_resource_t) : list piece :=
  match rs with
  | [] => []
  | r :: rs => (if first then [] else [Char comma]) ++ [Char less; Chunk (path r); Char greater] ++ link_pieces false rs
  end.

Definition links (rs : list coap_resource_t) : list Z := concat (piece_bytes <$> link_pieces true rs).

Lemma links_loop_pieces rs : ∀ first slicer bufpos m, links_loop rs first slicer bufpos m = put_pieces slicer bufpos (link_pieces first rs) m.
Proof.
  induction rs as [|r rs IH]; intros first slicer bufpos m; [done|]. cbn [links_loop link_pieces]. unfold mbind, M_bind.
  destruct first; cbn [app put_pieces put_piece]; unfold mbind, M_bind, mret, M_ret; rewrite ?Z.add_0_r;
    repeat (case_match; simplify_eq; try done); by rewrite IH.
Qed.

Lemma links_byte rs : Forall (λ r, Forall byte (path r)) rs → Forall byte (links rs).
Proof.
  intros Hp. unfold links. generalize true. induction Hp as [|r rs Hr _ IH]; intros first; [constructor|].
  cbn [link_pieces]. rewrite !fmap_app, !concat_app. apply Forall_app. split; [destruct first; cbn; unfold comma; bytes|].
  apply Forall_app. split; [|apply IH]. cbn. unfold less, greater. constructor; [unfold uint; lia|]. apply Forall_app. split; [done|bytes].
Qed.

(** The reply with the block of the list that starts at [s]. *)
Definition links_reply (msg : message) (rs : list coap_resource_t) (s : Z) : message :=
  let szx := (requested_block msg).2 in let e := s + block_size szx in
  Message (header_bytes (reply_type msg COAP_CODE_205) (len (m_token msg)) COAP_CODE_205 (message_id msg)) (m_token msg)
    [(COAP_OPT_CONTENT_FORMAT, [COAP_FORMAT_LINK]);
     block_option (COAP_OPT_BLOCK2 - COAP_OPT_CONTENT_FORMAT) (s / block_size szx) szx (e <? len (links rs))]
    (Some (window (Z.to_nat s) (Z.to_nat e) (links rs))).

Lemma block_size_cases szx : 0 ≤ szx ≤ 2 → block_size szx = 16 ∨ block_size szx = 32 ∨ block_size szx = 64.
Proof. intros Hs. unfold block_size. assert (szx = 0 ∨ szx = 1 ∨ szx = 2) as [->|[->| ->]] by lia; auto. Qed.

Lemma block_start_multiple msg : let b := block_size (requested_block msg).2 in
  block_start msg = block_start msg / b * b ∧ 0 ≤ block_start msg < 2 ^ 32 ∧ 0 ≤ block_start msg / b < 2 ^ 28.
Proof.
  intros b. pose proof (requested_szx msg) as Hs. pose proof (block_size_cases _ Hs) as Hb. fold b in Hb.
  assert (0 ≤ block_start msg < 2 ^ 32) as Hr by (unfold block_start; destruct (requested_block msg); apply wrap_range; lia).
  assert (block_start msg mod b = 0) as Hm.
  { unfold b, block_start, requested_start in *. clear Hr. destruct (requested_block msg) as [num szx]. cbn [snd] in *.
    assert (∃ i, 2 ^ 32 = i * block_size szx) as [i Hi]
      by (destruct Hb as [E|[E|E]]; rewrite E; [by exists (2 ^ 28)|by exists (2 ^ 27)|by exists (2 ^ 26)]).
    unfold wrap. rewrite Z.mod_mod_divide by (by exists i). apply Z.mod_mul. lia. }
  split_and!; [|lia|lia| |]; destruct Hb as [E|[E|E]]; rewrite E in *; Z.div_mod_to_equations; lia.
Qed.

Lemma requested_start_nonneg m buf msg pkt : received m buf msg pkt → 0 ≤ requested_start msg.
Proof.
  intros Hr. pose proof (numbered_values 0 _ (received_values _ _ _ _ Hr)) as Hb.
  unfold requested_start, requested_block, values, block_size.
  destruct (filter (λ o, o.1 = COAP_OPT_BLOCK2) (numbered 0 (m_options msg))) as [|o os] eqn:E; cbn [fmap list_fmap]; [done|].
  assert (Forall byte o.2) as Ho.
  { rewrite Forall_forall in Hb. apply Hb. eapply (list_elem_of_filter (λ o, o.1 = COAP_OPT_BLOCK2)). rewrite E. by left. }
  apply be_value_range in Ho. apply Z.mul_nonneg_nonneg; [apply Z.shiftr_nonneg; lia|by apply Z.pow_nonneg].
Qed.

(** The memory when the payload of the list has been written at [p]. *)
Definition links_memory (m : gmap Z Z) (p : Z) (o wd : list Z) : gmap Z Z :=
  let ct := option_bytes (COAP_OPT_CONTENT_FORMAT, [COAP_FORMAT_LINK]) in
  poke (poke (poke (poke m p ct) (p + 2) o) (p + 2 + len o) [0xff]) (p + 2 + len o + 1) wd.

Lemma window_length s e l : (len (window s e l) ≤ Z.of_nat (e - s))%Z.
Proof. unfold window. rewrite length_take. lia. Qed.

(** The handler up to the reply. *)
Lemma links_prepared rs m buf msg pkt rbuf rlen ctx : received m buf msg pkt → block_ok msg →
  Forall (λ r, Forall byte (path r)) rs → len (links rs) < 2 ^ 31 →
  let szx := (requested_block msg).2 in let b := block_size szx in let s := block_start msg in let k := s / b in
  let o := option_bytes (block_option 11 k szx true) in let wd := window (Z.to_nat s) (Z.to_nat (s + b)) (links rs) in
  let p := rbuf + 4 + len (m_token msg) in
  mapped m p (2 + len o + 1 + b) →
  coap_well_known_core_default_handler rs pkt rbuf rlen ctx m =
    coap_block2_build_reply pkt COAP_CODE_205 rbuf (u32 rlen) (2 + len o + 1 + len wd) (Slicer s (s + b) (len (links rs)) (p + 2))
      (links_memory m p o wd).
Proof.
  intros Hr Hok Hpaths Hlen szx b s k o wd p Hmap. pose proof (requested_szx msg) as Hs. fold szx in Hs.
  pose proof (block_size_cases szx Hs) as Hb. fold b in Hb. destruct (block_start_multiple msg) as (Hk & Hsr & Hkr). fold szx b s k in Hk, Hsr, Hkr.
  assert (1 ≤ len o ≤ 5) as Ho by by apply block_option_max.
  assert (len wd ≤ b) as Hwd by (pose proof (window_length (Z.to_nat s) (Z.to_nat (s + b)) (links rs)); unfold wd; lia).
  assert (∀ q n, p ≤ q → q + n ≤ p + (2 + len o + 1 + b) → mapped m q n) as Hsub by (intros q n ??; eapply mapped_sub; [exact Hmap|lia|lia]).
  unfold coap_well_known_core_default_handler. rewrite (bind_done _ _ _ _ _ (block2_init_ok m buf msg pkt Hr Hok)). fold szx b s.
  unfold coap_get_total_hdr_len. rewrite (bind_done _ _ m (4 + len (m_token msg)) m) by (by rewrite (bind_done _ _ _ _ _ (get_token_len_ok m buf msg pkt Hr))).
  cbn zeta. replace (rbuf + (4 + len (m_token msg))) with p by (unfold p; lia).
  set (ct := option_bytes (COAP_OPT_CONTENT_FORMAT, [COAP_FORMAT_LINK])).
  rewrite (bind_done _ _ m 2 (poke m p ct)).
  2: { change (coap_put_option_ct p 0 COAP_FORMAT_LINK m) with (coap_put_option p 0 COAP_OPT_CONTENT_FORMAT [COAP_FORMAT_LINK] m).
       rewrite coap_put_option_ok; [done|unfold field, COAP_OPT_CONTENT_FORMAT; lia|cbn; lia|unfold COAP_FORMAT_LINK; bytes|exact (Hsub p 2 ltac:(lia) ltac:(lia))]. }
  set (m1 := poke m p ct). assert (mapped m1 (p + 2) (len o)) as Hmo by (apply mapped_poke, Hsub; lia).
  assert (Slicer s (s + b) 0 NULL = Slicer (k * b) (k * b + b) 0 NULL) as -> by by rewrite <- Hk.
  rewrite (bind_done _ _ _ _ _ (put_block2_ok k szx 0 NULL true (p + 2) COAP_OPT_CONTENT_FORMAT m1 Hs Hkr
    ltac:(unfold field, COAP_OPT_BLOCK2, COAP_OPT_CONTENT_FORMAT; lia) Hmo)).
  cbn beta iota. change (COAP_OPT_BLOCK2 - COAP_OPT_CONTENT_FORMAT) with 11. fold o b.
  rewrite (bind_done _ _ _ _ _ (wr_ok (poke m1 (p + 2) o) (p + 2 + len o) 0xff ltac:(apply mapped_poke, mapped_poke, Hsub; lia) ltac:(unfold uint; lia))).
  change (<[p + 2 + len o:=255]> (poke m1 (p + 2) o)) with (poke (poke m1 (p + 2) o) (p + 2 + len o) [0xff]).
  set (m3 := poke (poke m1 (p + 2) o) (p + 2 + len o) [255]).
  destruct (put_pieces_ok (Z.to_nat s) (Z.to_nat (s + b)) (link_pieces true rs) [] (Slicer (k * b) (k * b + b) 0 (p + 2)) (p + 2 + len o + 1) m3)
    as (w & Hw & Eput); [split; cbn [start end_ cur length]; rewrite <- ?Hk; lia|unfold links in Hlen; cbn [length]; lia|by apply links_byte|].
  assert (window (Z.to_nat s) (Z.to_nat (s + b)) [] = []) as E0 by (unfold window; by rewrite drop_nil, take_nil).
  rewrite E0 in Hw. cbn [app] in Hw, Eput. fold (links rs) in Hw, Eput. fold wd in Hw. subst w.
  unfold mbind at 1, M_bind at 1. rewrite links_loop_pieces, Eput by (do 3 apply mapped_poke; apply Hsub; lia).
  cbn [set_cur start end_ opt]. rewrite <- Hk. rewrite (wrap_small 32 (p + 2 + len o + 1 + len wd - p)) by (unfold uint; lia).
  replace (p + 2 + len o + 1 + len wd - p) with (2 + len o + 1 + len wd) by lia. done.
Qed.

(** Rewriting the block option when the length of the payload is known. *)
Lemma block2_finish_ok k szx c q more0 m : 0 ≤ szx ≤ 2 → 0 ≤ k < 2 ^ 28 → q ≠ NULL →
  let b := block_size szx in let o := option_bytes (block_option 11 k szx (k * b + b <? c)) in
  bytes_at m q (option_bytes (block_option 11 k szx more0)) → mapped m q (len o) →
  coap_block2_finish (Slicer (k * b) (k * b + b) c q) m = Done (Slicer (k * b) (k * b + b) c q) (poke m q o).
Proof.
  intros Hs Hk Hq b o Hat Hmap. destruct (encode_uint_ok _ (block_value_range k szx more0 Hs Hk)) as (_ & _ & _ & Hl & _).
  assert (wf_option (block_option 11 k szx more0)) as Hwo by (split; cbn [fst snd block_option]; [unfold field; lia|lia]).
  destruct (option_byte_nibbles _ Hwo) as [En _]. unfold option_bytes in Hat. apply bytes_at_cons in Hat as [Hb _].
  unfold coap_block2_finish, massert. cbn [opt end_ cur]. rewrite (proj2 (Z.eqb_neq q NULL)) by done. cbn [negb].
  rewrite (bind_done _ _ m tt m eq_refl), (bind_done _ _ _ _ _ (rd_ok _ _ _ Hb)). cbn beta. rewrite En.
  change (nibble (block_option 11 k szx more0).1) with 11. rewrite (bind_done _ _ m (11, q + 1) m eq_refl). cbn beta iota zeta.
  change (u16 (COAP_OPT_BLOCK2 - u16 11)) with 12.
  rewrite (bind_done _ _ _ _ _ (put_block2_ok k szx c q (k * b + b <? c) q 12 m Hs Hk ltac:(unfold field, COAP_OPT_BLOCK2; lia) Hmap)). done.
Qed.

(** The bytes of the reply: the header, the token, the content format, the block
    option and, after the marker, the window of the links. *)
Lemma links_reply_bytes msg rs s :
  let szx := (requested_block msg).2 in let b := block_size szx in
  message_bytes (links_reply msg rs s) =
    reply_bytes msg COAP_CODE_205 ++ option_bytes (COAP_OPT_CONTENT_FORMAT, [COAP_FORMAT_LINK]) ++
    option_bytes (block_option 11 (s / b) szx (s + b <? len (links rs))) ++ [0xff] ++
    window (Z.to_nat s) (Z.to_nat (s + b)) (links rs).
Proof.
  intros szx b. unfold links_reply, message_bytes, reply_bytes. cbn [m_header m_token m_options m_payload payload_bytes].
  fold szx b. change (COAP_OPT_BLOCK2 - COAP_OPT_CONTENT_FORMAT) with 11. rewrite !options_bytes_cons.
  change (options_bytes []) with (@nil Z). rewrite app_nil_r. by rewrite <- !app_assoc.
Qed.

(** The result [run] of serving the block of the list that starts at [s]: 4.02 behind
    the end of the list, else the reply or -ENOSPC.  Where the value of its block
    option is 0, nothing is said. *)
Definition served (rs : list coap_resource_t) (msg : message) (rbuf rlen s : Z) (run : result Z) : Prop :=
  let szx := (requested_block msg).2 in let b := block_size szx in
  let reply := links_reply msg rs s in
  if len (links rs) <? s then ∃ m', run = answer msg COAP_CODE_BAD_OPTION rbuf rlen m'
  else block_value (s / b) szx (s + b <? len (links rs)) ≠ 0 →
    if rlen <? len (message_bytes reply) then ∃ m', run = Done (- ENOSPC) m'
    else ∃ m', run = Done (len (message_bytes reply)) m' ∧ bytes_at m' rbuf (message_bytes reply).

(** The room the handler needs, whatever the size of the buffer it is told. *)
Definition reply_room (msg : message) : Z := 4 + len (m_token msg) + 8 + block_size (requested_block msg).2.

Lemma well_known_core_served rs m buf msg pkt rbuf rlen ctx : received m buf msg pkt → block_ok msg →
  Forall (λ r, Forall byte (path r)) rs → len (links rs) < 2 ^ 31 →
  0 < rbuf → mapped m rbuf (reply_room msg) → rbuf + reply_room msg ≤ buf ∨ buf + len (message_bytes msg) ≤ rbuf → 0 ≤ rlen < 2 ^ 32 →
  served rs msg rbuf rlen (block_start msg) (coap_well_known_core_default_handler rs pkt rbuf rlen ctx m).
Proof.
  intros Hr Hok Hpaths Hlen Hrb0 Hmap Hdis Hrl. unfold served. set (run := coap_well_known_core_default_handler _ _ _ _ _ _).
  set (szx := (requested_block msg).2). set (b := block_size szx). set (s := block_start msg). set (room := reply_room msg) in *.
  set (reply := links_reply msg rs s). unfold reply_room in room. fold szx b in room. cbn zeta.
  pose proof (requested_szx msg) as Hs. fold szx in Hs.
  pose proof (block_size_cases szx Hs) as Hb. fold b in Hb. destruct (block_start_multiple msg) as (Hk & Hsr & Hkr). fold szx b s in Hk, Hsr, Hkr.
  set (k := s / b) in *. set (o := option_bytes (block_option 11 k szx true)).
  assert (1 ≤ len o ≤ 5) as Ho by by apply block_option_max.
  set (wd := window (Z.to_nat s) (Z.to_nat (s + b)) (links rs)). set (p := rbuf + 4 + len (m_token msg)).
  assert (len wd ≤ b) as Hwd by (pose proof (window_length (Z.to_nat s) (Z.to_nat (s + b)) (links rs)); unfold wd; lia).
  assert (run = coap_block2_build_reply pkt COAP_CODE_205 rbuf (u32 rlen) (2 + len o + 1 + len wd) (Slicer s (s + b) (len (links rs)) (p + 2))
    (links_memory m p o wd)) as ->.
  { apply (links_prepared rs m buf msg pkt rbuf rlen ctx Hr Hok Hpaths Hlen).
    eapply mapped_sub; [exact Hmap|lia|unfold room; fold szx b s k o; lia]. }
  rewrite (wrap_small 32 rlen) by done. set (m4 := links_memory m p o wd).
  assert (len (option_bytes (COAP_OPT_CONTENT_FORMAT, [COAP_FORMAT_LINK])) = 2) as Hct by done.
  assert (received m4 buf msg pkt) as Hr4 by (unfold m4, links_memory; do 4 (apply received_poke; [|cbn [length]; unfold room in Hdis; unfold p; lia]); done).
  assert (mapped m4 rbuf room) as Hm4 by (unfold m4, links_memory; by do 4 apply mapped_poke).
  unfold coap_block2_build_reply. cbn [cur start]. destruct (Z.ltb_spec (len (links rs)) s) as [Hbehind|Hin].
  { exists m4. apply (answer_ok m4 buf); try done; [unfold room in Hdis; lia|]. eapply mapped_sub; [exact Hm4|lia|unfold room; lia]. }
  intros Hv0. set (more := s + b <? len (links rs)) in *. set (o2 := option_bytes (block_option 11 k szx more)).
  assert (len o2 = len o) as Ho2 by by apply block_option_length.
  assert (coap_block2_finish (Slicer s (s + b) (len (links rs)) (p + 2)) m4 =
    Done (Slicer s (s + b) (len (links rs)) (p + 2)) (poke m4 (p + 2) o2)) as Efin.
  { assert (p + 2 ≠ NULL) as Hp0. { unfold NULL, p. lia. }
    assert (bytes_at m4 (p + 2) o) as Hat4.
    { unfold m4, links_memory. do 2 (apply bytes_at_poke_other; [|cbn [length]; lia]). apply bytes_at_poke. }
    pose proof (block2_finish_ok k szx (len (links rs)) (p + 2) true m4 Hs Hkr Hp0) as E. cbn zeta in E. fold b in E. rewrite <- Hk in E.
    apply E; [exact Hat4|]. fold more o2. eapply mapped_sub; [exact Hm4|unfold p; lia|unfold room, p; lia]. }
  rewrite (bind_done _ _ _ _ _ Efin). set (m5 := poke m4 (p + 2) o2).
  assert (received m5 buf msg pkt) as Hr5 by (apply received_poke; [done|unfold room in Hdis; unfold p; lia]).
  assert (len (reply_bytes msg COAP_CODE_205) = 4 + len (m_token msg)) as Hrb.
  { unfold reply_bytes. rewrite length_app. change (length (header_bytes _ _ _ _)) with 4%nat. lia. }
  pose proof (links_reply_bytes msg rs s) as Erep. cbn zeta in Erep. fold reply szx b s k more wd o2 in Erep.
  assert (len (message_bytes reply) = len (reply_bytes msg COAP_CODE_205) + (2 + len o + 1 + len wd)) as Hlr.
  { rewrite Erep, !length_app. cbn [length]. lia. }
  rewrite (coap_build_reply_ok m5 buf msg pkt COAP_CODE_205 rbuf rlen (2 + len o + 1 + len wd) Hr5 ltac:(done) ltac:(lia) ltac:(unfold room in Hdis; lia)
    ltac:(apply mapped_poke; eapply mapped_sub; [exact Hm4|lia|unfold room; lia])).
  rewrite Hlr. destruct (rlen <? _); [by exists m5|]. eexists. split; [done|]. rewrite Erep.
  apply bytes_at_app. split; [apply bytes_at_poke|]. rewrite Hrb. apply bytes_at_poke_other; [|rewrite Hrb; lia].
  replace (rbuf + (4 + len (m_token msg))) with p by (unfold p; lia). apply bytes_at_app. rewrite Hct. unfold m5, m4, links_memory. split.
  { do 4 (apply bytes_at_poke_other; [|cbn [length]; lia]). apply bytes_at_poke. }
  apply bytes_at_app. split; [apply bytes_at_poke|]. apply bytes_at_poke_other; [|lia]. rewrite Ho2. apply bytes_at_app. split.
  - apply bytes_at_poke_other; [apply bytes_at_poke|cbn [length]; lia].
  - cbn [length]. apply bytes_at_poke.
Qed.

(** A block option that is too long fails an assertion. *)
Lemma block_option_assert rs m buf msg pkt rbuf rlen ctx : received m buf msg pkt → ¬ block_ok msg →
  coap_well_known_core_default_handler rs pkt rbuf rlen ctx m = Failed.
Proof.
  intros Hr Hok. assert (coap_get_blockopt pkt COAP_OPT_BLOCK2 m = Failed) as E.
  { pose proof (find_first_ok m buf msg pkt COAP_OPT_BLOCK2 Hr ltac:(done)) as Hf. unfold block_ok in Hok.
    destruct (values COAP_OPT_BLOCK2 (m_options msg)) as [|v vs]; [by destruct Hok|].
    destruct Hf as (p & q & d & E1 & Hp & E2 & Hat). unfold coap_get_blockopt.
    rewrite (bind_done _ _ _ _ _ E1), (proj2 (Z.eqb_neq p NULL)), (bind_done _ _ _ _ _ E2) by done.
    assert (_decode_uint q (len v) m = Failed) as E3.
    { unfold _decode_uint, massert. rewrite (proj2 (Z.leb_gt _ 4)) by lia. by rewrite andb_false_r. }
    unfold mbind, M_bind. cbn [lift option_bind mret]. by rewrite E3. }
  unfold coap_well_known_core_default_handler, coap_block2_init, mbind, M_bind. by rewrite E.
Qed.

(** C25: Given a buffer with room for a whole block, the reply carries the block of the
    list that the request asks for, with the block option saying whether more
    follow; a block behind the end of the list is refused.  Where the start of the
    block does not fit in 32 bits, the block at the start modulo 2^32 is served
    instead.  A block option of more than 4 bytes fails an assertion, and nothing is
    said of a reply whose block option has the value 0. *)
Theorem coap_well_known_core_ok rs m buf msg pkt rbuf rlen ctx : received m buf msg pkt →
  Forall (λ r, Forall byte (path r)) rs → len (links rs) < 2 ^ 31 →
  0 < rbuf → mapped m rbuf (reply_room msg) → rbuf + reply_room msg ≤ buf ∨ buf + len (message_bytes msg) ≤ rbuf → 0 ≤ rlen < 2 ^ 32 →
  let run := coap_well_known_core_default_handler rs pkt rbuf rlen ctx m in
  (block_ok msg → requested_start msg < 2 ^ 32 → served rs msg rbuf rlen (requested_start msg) run) ∧
  (block_ok msg → 2 ^ 32 ≤ requested_start msg → served rs msg rbuf rlen (requested_start msg mod 2 ^ 32) run) ∧
  (¬ block_ok msg → run = Failed).
Proof.
  intros Hr Hpaths Hlen Hrb0 Hmap Hdis Hrl run.
  assert (block_ok msg → served rs msg rbuf rlen (block_start msg) run) as Hserved by (intros Hok; by apply (well_known_core_served rs m buf)).
  split; [|split; [by auto|by apply (block_option_assert rs m buf)]].
  intros Hok Hlt. specialize (Hserved Hok). unfold block_start in Hserved. rewrite wrap_small in Hserved; [done|].
  split; [|done]. by apply requested_start_nonneg with (m := m) (buf := buf) (pkt := pkt).
Qed.
