(* ===== verification/CoapDemo.v ===== *)
(** * CoAP on concrete messages

    A request in memory, the theorems applied to it, and computations that show
    where the code departs from what it means to do. *)

From Stdlib Require Import Sorting.Sorted.
From S2P Require Import Prelude Bytes Buffers ByteMem Coap CoapParse CoapOptions CoapBuild CoapServer CoapBlock.

(** ** A request

    GET of /.well-known/core, confirmable, with a token of two bytes, asking for
    block 1 of 16 bytes. *)
Definition well_known : list Z := [46; 119; 101; 108; 108; 45; 107; 110; 111; 119; 110].
Definition core : list Z := [99; 111; 114; 101].
Definition block_16_1 : Z := 16.

Definition request : message :=
  Message (header_bytes COAP_TYPE_CON 2 1 0xABCD) [0xDA; 0xEC] [(11, well_known); (0, core); (12, [block_16_1])] None.

Definition request_address : Z := 1000.
Definition array_address : Z := 2000.
Definition reply_address : Z := 3000.

Definition empty_packet : coap_pkt_t := Pkt 0 0 0 0 0 (replicate 16 (Optpos 0 0)).

Definition request_packet : coap_pkt_t :=
  Pkt 1000 1004 1025 0 2 ([Optpos 11 6; Optpos 23 23] ++ replicate 14 (Optpos 0 0)).

Definition request_memory : gmap Z Z := poke ∅ request_address (message_bytes request).
Definition demo_memory : gmap Z Z := poke (poke request_memory array_address (replicate 64 0)) reply_address (replicate 100 0).

(** The resources: the list of resources itself, and three others. *)
Definition fixed_handler (v : Z) : coap_pkt_t → Z → Z → Z → M Z := λ _ _ _ _, mret v.
Definition demo_resources : list coap_resource_t :=
  [Resource ([47] ++ well_known ++ [47] ++ core) 1 (λ pkt buf len ctx, mret 77) 0;
   Resource [47; 97] 1 (fixed_handler 1) 0;
   Resource [47; 98] 3 (fixed_handler 2) 0;
   Resource [47; 98; 98] 2 (fixed_handler 3) 0].

Lemma request_wf : wf_message request.
Proof. split; [done|done|]. unfold request, m_options. repeat (apply Forall_cons; split; [split; [unfold field; cbn; lia|unfold field; vm_compute; done]|]). constructor. Qed.

Lemma request_bytes_ok : Forall byte (message_bytes request).
Proof. vm_compute message_bytes. bytes. Qed.

Lemma request_describes : describes request_address request request_packet.
Proof. split; try done. exists (replicate 14 (Optpos 0 0)). done. Qed.

Lemma demo_received : received demo_memory request_address request request_packet.
Proof.
  split; [exact request_describes|done| |exact request_bytes_ok|exact request_wf|done|done].
  unfold demo_memory. do 2 (apply bytes_at_poke_other; [|first [left; vm_compute; discriminate|right; vm_compute; discriminate]]). apply bytes_at_poke.
Qed.

Lemma demo_mapped n : n ≤ 100 → mapped demo_memory reply_address n ∧ mapped demo_memory array_address (n `min` 64).
Proof.
  intros Hn. split.
  - unfold demo_memory. eapply mapped_sub; [apply bytes_at_mapped, bytes_at_poke|lia|]. rewrite length_replicate. lia.
  - unfold demo_memory. apply mapped_poke. eapply mapped_sub; [apply bytes_at_mapped, bytes_at_poke|lia|]. rewrite length_replicate. lia.
Qed.

(** ** Parsing *)

Lemma coap_parse_correct_witness : ∃ pkt, coap_parse empty_packet request_address (len (message_bytes request)) request_memory =
  Done (0, pkt) request_memory ∧ describes request_address request pkt.
Proof.
  destruct (coap_parse_correct empty_packet request_address (message_bytes request) request_memory) as (r & pkt & E & Hok & _ & _ & _);
    [done|apply bytes_at_poke|exact request_bytes_ok|done|done|].
  destruct (Hok request request_wf eq_refl) as [-> Hde]; [by vm_compute|]. exists pkt. split; [exact E|exact Hde].
Defined.

(** Messages that the standard calls malformed and the parser accepts: version 0; a
    token of 9 bytes; a marker without payload; an empty message with a payload; and
    an option with the number 65537, which becomes 1. *)
Lemma coap_parse_lenient :
  let parse bs := match coap_parse empty_packet 1000 (len bs) (poke ∅ 1000 bs) with
                  | Done (r, pkt) _ => Some (r, payload_len pkt, opt_num <$> take 2 (options pkt)) | _ => None end in
  parse [0x00; 1; 0; 0] = Some (0, 0, [0; 0]) ∧
  parse ([0x49; 1; 0; 0] ++ replicate 9 0) = Some (0, 0, [0; 0]) ∧
  parse [0x40; 1; 0; 0; 0xff] = Some (0, 0, [0; 0]) ∧
  parse [0x40; 0; 0; 0; 0xff; 7] = Some (0, 1, [0; 0]) ∧
  parse [0x40; 1; 0; 0; 0xe0; 0xfe; 0xf2; 0x20] = Some (0, 0, [65535; 1]).
Proof. vm_compute. done. Qed.

(** A message of four bytes that announces a token of 15: the position is behind
    the end, a marker there is taken for that of the payload, and the length of the
    payload becomes 65520. *)
Lemma coap_parse_token_overrun :
  let m := poke ∅ 1000 ([0x4F; 1; 0; 0] ++ replicate 15 0 ++ [0xff]) in
  match coap_parse empty_packet 1000 4 m with Done (r, pkt) _ => (r, payload_len pkt) | _ => (1, 0) end = (0, 65520).
Proof. vm_compute. reflexivity. Qed.

(** Without the bytes behind the message, the access is outside the buffer. *)
Lemma coap_parse_token_outside : coap_parse empty_packet 1000 4 (poke ∅ 1000 [0x4F; 1; 0; 0]) = Fault.
Proof. vm_compute. reflexivity. Qed.

(** ** Building *)

Lemma coap_build_parse_witness :
  build_message reply_address 100 COAP_TYPE_NON request_address 2 1 7 [(11, core); (11, core); (60, [1])] [33] demo_memory =
    Done (len (message_bytes (Message (header_bytes COAP_TYPE_NON 2 1 7) (take 2 (message_bytes request)) [(11, core); (0, core); (49, [1])] (Some [33]))))
      (poke demo_memory reply_address
        (message_bytes (Message (header_bytes COAP_TYPE_NON 2 1 7) (take 2 (message_bytes request)) [(11, core); (0, core); (49, [1])] (Some [33])))).
Proof.
  destruct (coap_build_parse demo_memory reply_address 100 COAP_TYPE_NON request_address (take 2 (message_bytes request)) 1 7
    [(11, core); (0, core); (49, [1])] [33]) as [E _].
  - done.
  - unfold COAP_TYPE_NON. lia.
  - unfold uint. lia.
  - unfold uint. lia.
  - cbn. lia.
  - cbn. unfold COAP_TYPE_CON. bytes.
  - pose proof (rc_bytes _ _ _ _ demo_received) as Hat. rewrite <- (take_drop 2 (message_bytes request)) in Hat. by apply bytes_at_app in Hat as [Hat _].
  - left. cbn. unfold request_address, reply_address. lia.
  - repeat (apply Forall_cons; split; [split; [unfold field; cbn; lia|unfold field; vm_compute; done]|]). constructor.
  - repeat (apply Forall_cons; split; [cbn; bytes|]). constructor.
  - cbn. lia.
  - bytes.
  - cbn. lia.
  - apply (demo_mapped 100). lia.
  - exact E.
Defined.

(** ** Serving *)

Lemma demo_ordered : ordered_resources demo_resources.
Proof.
  split; [repeat (apply Forall_cons; split; [unfold path_bytes; cbn; repeat (apply Forall_cons; split; [lia|]); constructor|]); constructor|].
  repeat (constructor; [|repeat (apply Forall_cons; split; [vm_compute; discriminate|]); constructor]). constructor.
Qed.

Lemma coap_handle_req_ok_witness :
  coap_handle_req demo_resources array_address request_packet reply_address 100 demo_memory =
    Done 77 (poke demo_memory array_address ([47] ++ well_known ++ [47] ++ core ++ [0])).
Proof.
  pose proof (coap_handle_req_ok demo_resources array_address demo_memory request_address request request_packet reply_address 100
    demo_received demo_ordered) as H. cbn zeta in H.
  specialize (H (proj2 (demo_mapped 64 ltac:(lia)))).
  specialize (H ltac:(right; vm_compute; discriminate) ltac:(right; vm_compute; discriminate) (proj1 (demo_mapped 6 ltac:(lia)))).
  exact H.
Defined.

Lemma coap_blockwise_window_witness :
  put_pieces (Slicer 2 5 0 0) reply_address [Char 1; Chunk [2; 3; 4]; Char 5; Chunk [6; 7]] demo_memory =
    Done (reply_address + 3, Slicer 2 5 7 0) (poke demo_memory reply_address [3; 4; 5]).
Proof.
  destruct (coap_blockwise_window 2 5 0 [Char 1; Chunk [2; 3; 4]; Char 5; Chunk [6; 7]] reply_address demo_memory) as [E _];
    [lia|cbn; lia|cbn; bytes|apply (demo_mapped 3); lia|exact E].
Defined.

Lemma coap_well_known_core_ok_witness : ∃ m',
  coap_well_known_core_default_handler demo_resources request_packet reply_address 100 0 demo_memory =
    Done (len (message_bytes (links_reply request demo_resources 16))) m' ∧
  bytes_at m' reply_address (message_bytes (links_reply request demo_resources 16)).
Proof.
  destruct (coap_well_known_core_ok demo_resources demo_memory request_address request request_packet reply_address 100 0) as (H & _ & _).
  - exact demo_received.
  - repeat (apply Forall_cons; split; [cbn; bytes|]); constructor.
  - vm_compute. reflexivity.
  - done.
  - exact (proj1 (demo_mapped 30 ltac:(lia))).
  - right. vm_compute. discriminate.
  - lia.
  - specialize (H ltac:(vm_compute; discriminate) ltac:(vm_compute; reflexivity)).
    apply H. vm_compute. discriminate.
Defined.

(** A list that fits the first block of 16 bytes: the value of the block option
    becomes 0, one byte less is written over the option, the byte that was there
    stays, and the reply is no message. *)
Lemma coap_well_known_core_short :
  let rs := [Resource [47; 97] 1 (fixed_handler 5) 0] in
  let m := poke (poke ∅ 1000 [0x40; 1; 0; 7]) 3000 (replicate 100 0) in
  let pkt := Pkt 1000 0 1004 0 0 (replicate 16 (Optpos 0 0)) in
  match (n ← coap_well_known_core_default_handler rs pkt 3000 100 0; bs ← rds (Z.to_nat n) 3000;
         '(r, _) ← coap_parse empty_packet 3000 n; mret (bs, r)) m with
  | Done v _ => v = ([0x60; 0x45; 0; 7; 0xC1; 40; 0xB0; 8; 0xff; 60; 47; 97; 62], - EBADMSG)
  | _ => False
  end.
Proof. vm_compute. reflexivity. Qed.

(** A content format above 255 is written in the order of the target and read in
    network order. *)
Lemma coap_put_option_ct_order :
  let m := poke ∅ 1000 (replicate 20 0) in
  match (n ← coap_build_hdr 1000 0 0 0 0x45 7; k ← coap_put_option_ct (1000 + n) 0 11542;
         '(_, pkt) ← coap_parse empty_packet 1000 (n + k); coap_get_content_type pkt) m with
  | Done v _ => v = 5677
  | _ => False
  end.
Proof. vm_compute. reflexivity. Qed.

(** [coap_reply_simple] writes the option and the marker before it knows that the
    buffer is large enough. *)
Lemma coap_reply_simple_overrun :
  let m := poke (poke ∅ 1000 [0x40; 1; 0; 7]) 3000 (replicate 4 0) in
  let pkt := Pkt 1000 0 1004 0 0 (replicate 16 (Optpos 0 0)) in
  coap_reply_simple pkt 0x45 3000 4 0 [1] m = Fault.
Proof. vm_compute. reflexivity. Qed.

(** A block option of more than four bytes fails the assertion of [_decode_uint]. *)
Lemma coap_get_blockopt_assert :
  let m := poke ∅ 1000 [0x40; 1; 0; 7; 0xD5; 10; 1; 2; 3; 4; 5] in
  ('(_, pkt) ← coap_parse empty_packet 1000 11; coap_get_block2 pkt (Block1 0 0 0 0)) m = Failed.
Proof. vm_compute. reflexivity. Qed.

(** The flag of the method 16 is [COAP_MATCH_SUBTREE]: a request with the code 0.16
    reaches a resource that allows GET only and answers for a subtree. *)
Lemma coap_handle_req_method_16 :
  let m := poke (poke ∅ 1000 [0x40; 16; 0; 7; 0xB1; 97]) 2000 (replicate 64 0) in
  let rs := [Resource [47; 97] (Z.lor COAP_MATCH_SUBTREE 1) (fixed_handler 5) 0] in
  match ('(_, pkt) ← coap_parse empty_packet 1000 6; coap_handle_req rs 2000 pkt 3000 100) m with
  | Done v _ => v = 5
  | _ => False
  end.
Proof. vm_compute. reflexivity. Qed.
